(* ===== verification/_CoqProject ===== *)
-Q . S2P
Prelude.v
Endian.v
Util.v
Lzf.v
Crc64.v
Rand.v
Sds.v
Intset.v
Dict.v
DictScan.v
Ziplist.v
ZiplistLayout.v
ZiplistFacts.v
ZiplistThms.v
Robj.v
Skiplist.v
SkiplistFacts.v
SkiplistThms.v
Network.v
NetworkFacts.v
NetworkThms.v
Adlist.v
AdlistThms.v
Server.v
Db.v
Tstring.v
Bitops.v
ServerFacts.v
ObjFacts.v
DbFacts.v
CommandFacts.v
TstringThms.v
DbThms.v
BitopsFacts.v
BitopsThms.v
Session.v
SessionThms.v
CommandThms.v
Hll.v
HllFacts.v
HllThms.v
Rio.v
RioThms.v
Rdb.v
RdbFacts.v
RdbThms.v
Migrate.v
MigrateThms.v
Multi.v
MultiFacts.v
MultiThms.v
Aof.v
AofFacts.v
AofLog.v
AofThms.v
Repl.v
ReplFacts.v
ReplThms.v
Pubsub.v
PubsubFacts.v
PubsubCmds.v
PubsubThms.v
