(* ===== verification/Prelude.v ===== *)
(** * Verification of the data, the commands, the transactions and the log of Redis 2.8.9

    The program is the Redis server under src/redis-stable/src.  This development models
    the parts on which its data rests: the byte-level encodings, the containers, the
    parser that turns the bytes of a connection into commands, the commands on keys,
    strings and bits with the objects, the keyspace and the dispatch that they use, the
    transactions, and what is written to disk and read back.  The
    models are executable and follow the C code statement by statement; the theorems say
    what each part does.

    ** Parts and files

    - Prelude: machine integers ([uwrap], [swrap]), byte buffers with checked reads and
      writes ([rd], [wr], [rdn], [wrn], [mmove]), little-endian encodings and the tactics
      that the files share.
    - Endian (endianconv.c): byte reversal and its conditional forms; the byte order of
      the host is a class, with an instance for each.
    - Util (util.c): Num, the decimal conversions ll2string, string2ll and string2l; Glob,
      the matcher stringmatchlen.
    - Lzf (lzf_c.c, lzf_d.c): the compressor, with an arbitrary hash table to start from,
      and the decompressor.
    - Crc64 (crc64.c), Rand (rand.c): the checksum and the generator of scripts.
    - Sds (sds.c): dynamic strings.  A string is its header and the bytes allocated after
      it; [SdsSpec.rep s x] says that it holds the bytes [x].
    - Intset (intset.c): sorted sets of integers in a byte array, on Endian.
    - Dict, DictScan (dict.c): hash tables in a memory of entries, with the incremental
      rehashing, and the scan with a cursor of reversed bits.
    - Ziplist (ziplist.c), with ZiplistLayout (the bytes of an abstract list of entries),
      ZiplistFacts and ZiplistThms: lists of strings and integers in a byte array, on
      Endian and Util.
    - Robj (object.c): comparison of string objects, on Util, and the doubles of the scores.
    - Skiplist (t_zset.c), with SkiplistFacts and SkiplistThms: the skiplist of sorted
      sets in a memory of nodes, on Robj; the dictionary of the set is a parameter.
    - Network (networking.c), with NetworkFacts and NetworkThms: the query buffer, the
      inline and multi bulk parsers and the loop on the requests, on Sds, Util and Robj;
      the execution of a command and the output queue are parameters.
    - Adlist (adlist.c), with AdlistThms: doubly linked lists in a memory of nodes.
    - Server (object.c, networking.c): objects with reference counts in a memory, their
      encodings, the shared integers, the replies; the monad [Cmd] of the commands, whose
      state is the memory, the databases, the arguments of the client and what is outside
      (clock, events, counters).  ServerFacts has the specification side (the monad [Spec]
      on maps from keys to values, the abstraction [abs], the invariant [inv] with exact
      reference counts, the simulation [sim] of a command by a specification), ObjFacts
      the simulations of the operations on objects.
    - Db (db.c), with DbFacts and DbThms: lookups, updates, expiration, and the commands on
      keys and databases.  Tstring (t_string.c), with CommandFacts and TstringThms: the
      commands on strings.  Bitops (bitops.c), with BitopsFacts (counts and searches of
      bits by words) and BitopsThms: the commands on bits.
    - Session (redis.c, networking.c), with SessionThms: the table of commands, the checks
      before a command runs, its call and propagation, and the life of its arguments and
      replies.  CommandThms states what the commands do, one group after the other.

    - Hll (hyperloglog.c), with HllFacts and HllThms: the registers of cardinality
      estimation, dense and sparse, on Sds.
    - Rio (rio.c), Rdb (rdb.c) and Migrate (migrate.c), with RioThms, RdbFacts, RdbThms and
      MigrateThms: streams in memory, the encodings of lengths, integers and strings in dump
      files, and DUMP and RESTORE of strings, on Lzf, Crc64, Sds and Util.
    - Multi (multi.c, redis.c, networking.c), with MultiFacts and MultiThms: the clients with
      their flags, queues and watched keys, and the clients that watch each key; the other
      commands are a parameter.  The specification of MultiFacts has for each client a set of
      keys and three booleans.  A request is a command that passes the checks of
      processCommand, or a refusal by one of them: [flags_transaction] says which of the
      checks call flagTransaction, as all but three do.
    - Aof (aof.c), with AofFacts, AofLog and AofThms: the append only file.  The text of a
      command is that of the protocol (NetworkSpec), files and descriptors are a small model
      of the system whose answers are arbitrary, and the data and the effect of a command are
      parameters, with a preorder between the data that the file leads to and the data in memory.
    - Repl (replication.c), with ReplFacts and ReplThms: the master, with its backlog and its
      slaves, and the events that change them, on the texts of Aof.  The contents of a dump
      are an argument.  The specification is the stream of the commands that were fed, and
      each slave remembers how it joined, which no operation reads.
    - Pubsub (pubsub.c, notify.c), with PubsubFacts, PubsubCmds and PubsubThms: channels and
      patterns, with the matcher of Util.  The specification has a set of channels for each
      client and one list of patterns; the two other tables of the code are implied.

    A model is a function with a result of type [option]: no value means an access outside
    an allocation, a pointer to a free cell, or a failed assertion of the code, so a
    theorem that a call returns [Some] is a theorem of memory safety.  Memory that the
    code does not initialise has arbitrary contents (arguments [junk], [junk_level], and
    so on), and the allocator returns any free address; zmalloc aborts the process when
    memory is exhausted, so it never fails.

    ** What the theorems show

    - Refinement: sds_refines, intset_refines, dict_refines, ziplistInsert_correct,
      ziplistPush_correct, ziplistDeleteRange_correct, zslDelete_correct and
      zslDeleteRangeByScore_correct state that the operations on bytes or pointers do
      what the corresponding operations on lists, sets, maps or sorted sets do, and keep
      the representation invariant; zslInsert_correct states it of the insertion, with
      every pointer and span of every level.
    - The server: session_refines states that serving requests from the start never fails
      and gives the databases, replies and events of the specification; session_memory
      that reference counts are exact, so that nothing leaks or dangles; session_typed
      that every object keeps the representation of its encoding.  The groups of commands
      are string_commands_refine, key_commands_refine and bit_commands_refine, for every
      state that satisfies the invariant; expired_keys_gone and lookupCommand_correct are
      what a user sees of expiration and of the table of commands.
    - Transactions: transactions_refine states that the flags and the two tables of watched
      keys implement the specification for any requests; watch_detects that, whatever the
      others send between the WATCH and the EXEC of a client, EXEC runs exactly the queue
      when no touch since the WATCH concerned a watched key and no refusal flagged the
      transaction.  readonly_not_flagged shows a refusal that does not.
    - Replication: repl_in_sync states that the backlog is the end of the stream of the
      commands fed, and that a slave that joined with a part of the stream, or with a dump
      started for it, has the stream from its offset; psync_resumes that such a slave that comes
      back is sent exactly what it has not received.  The slaves that waited for a dump or got
      a copy of the output of another are those of the defects below.
    - Messages: pubsub_refines states that subscriptions, notices and ends of clients keep the
      tables in agreement; publish_exact who gets a message, how often and in which order.
    - Disk: aof_durable states that through commands, short or failed writes, and rewrites
      that succeed or fail, the file and the pending buffer load to the data, up to times of
      PEXPIREAT that the code computes twice, and if fstat does not fail; aof_truncated
      that a log cut anywhere loads up to the end of a command or is refused; dump_restore,
      rdb_string_roundtrip, rdb_load_safe and restore_rejects that dumps are read back, that
      no input makes the reader leave its buffer, and that everything but a body with the
      version and its CRC-64 is refused.
    - Registers: hllAdd_correct, hll_registers, hllMerge_correct and hllSparseToDense_correct
      state that both representations hold the same 16384 maxima.
    - Round trips: lzf_roundtrip, repr_split_roundtrip, string2ll_iff_printed, rio_roundtrip.
    - Equivalence with a reference: stringmatch_decides (the glob matcher and a relation),
      crc64_is_crc (the table and division of polynomials), redisLrand48_is_lcg,
      redisPopcount_counts, redisBitpos_first and bitop_buffer_combines (words and bits).
    - Linked lists: list_refines, list_search_dup_correct.
    - Searches: ziplistIndex_correct, ziplistFind_correct, zslGetRank_correct,
      zslFirst_LastInRange_correct, zslLexRange_correct, sdssplitlen_complete.
    - Safety and bounds: lzf_decompress_safe on any input, zslRandomLevel_correct,
      ll2string_truncates, ziplistCascadeUpdate_correct.
    - Progress: dictScan_complete, dictScan_terminates, dictRehash_terminates, and
      requests_in_order: however the bytes of a sequence of commands are cut in reads, the
      commands run in order, each as soon as its last byte is read.
    - Defects of the code, as theorems: class_backslash_overreads,
      negated_class_matches_empty, lzf_compress_overrun, dictScan_misses_key,
      ziplistInsert_overreads, zslIsInLexRange_minstring, processInlineBuffer_quoted (the
      line that ends with a newline alone), blocked_client_rejected, corrupted_hll_overflows,
      restore_payload_panics, compressed_length_wraps, negative_length_overflows,
      startAppendOnly_dangling, waiting_slave_doubled, copied_slave_loses,
      waiting_slave_stuck, bulk_length_twice, malformed_offset_garbles, fstat_failure_corrupts,
      readonly_not_flagged and publish_overreads.

    ** Bounds

    The code keeps sizes in 32-bit integers and does not test them, so the theorems have
    limits: 2^30 bytes for a dynamic string ([SDS_LIMIT]), 2^28 elements for an integer
    set, 2^29 entries for a table, 2^31 bytes for a ziplist, 2^32-1 elements for a
    skiplist, whose spans are unsigned ints ([SKIPLIST_LIMIT]).  Requests have the limits
    of the protocol, 2^20 arguments of at most 2^29 bytes.  The reference counts are ints:
    a state has a bound on the references that an object may get, below 2^31, which a
    session checks at each request ([session_ok]); SETRANGE and GETRANGE have offsets that
    do not overflow ([string_bounds]), since the code does not test them.  [long] has 64 bits, [int] 32,
    and [char] is signed.

    Hypotheses on the system: fstat works when the append only file is loaded and when a
    rewrite is installed ([AofLog.event_ok]).  On the commands that a log replays: they keep the
    preorder of AofLog, so that a time that is later in the file stays one.  The client of a session
    gets replies unless it is the link of the master or has no write handler
    ([prepareClientToWrite]); the clients of Multi and Pubsub always do.

    Recursion that is not structural has fuel, and the theorems state results, not only
    what holds of a result: the length of the input for parsers, the size of the memory
    for walks along pointers (a walk visits a cell once), the number of arguments left for
    a request, the number of buckets for a rehash.  The draws of zslRandomLevel end with
    probability one, not always, so its theorems have the number of draws as hypothesis.

    ** What is not modelled

    Scripting, sentinel, the event loop and the client programs: they rest on sockets,
    clocks, processes or interpreters.  Of replication, the side of the slave and its timers.
    Of persistence, the dump files of types other than strings and the files themselves, the
    dump of the child that rewrites the append only file (a hypothesis says that it leads to
    the data of the child), fsync and what survives a loss of power; the estimate of hyperloglog.c,
    which rests on doubles, and the PF commands; MIGRATE.  Transactions, publish and subscribe,
    replication, DUMP and RESTORE have their own state, apart from the table of Session.
    The commands on lists, sets, hashes and sorted sets, blocked clients,
    eviction under maxmemory, monitors, the slow log and the statistics of single
    commands: the commands among them have their row in the table, and running one of
    them has no result.  Within the parts above: the iterators and random keys of dict.c,
    printing (ziplistRepr), the formatting of sdscatprintf beyond its buffer logic,
    INCRBYFLOAT, zslParseRange and the sorted sets in ziplists (they need strtod and
    printf), KEYS, SCAN, RANDOMKEY, and the output buffers of clients: the reply is the
    list of its bytes, with the objects that the reply list holds until they are sent.  In
    the keyspace a dictionary is a map, by the theorems of Dict, and an object of another
    type than strings is its contents.  The libraries under deps are third-party code. *)

From Stdlib Require Export ZArith Lia Bool.
From Stdlib Require Ascii String.
From stdpp Require Export base option list gmap.
#[global] Open Scope Z_scope.

(** ** Machine integers *)

(** [uwrap w z] is the value of [z] converted to a [w]-bit unsigned type. *)
Definition uwrap (w z : Z) : Z := z mod 2 ^ w.

(** [swrap w z] is the value of [z] converted to a [w]-bit two's complement type. *)
Definition swrap (w z : Z) : Z := (z + 2 ^ (w - 1)) mod 2 ^ w - 2 ^ (w - 1).

Definition in_u (w z : Z) : Prop := 0 <= z < 2 ^ w.
Definition in_s (w z : Z) : Prop := - 2 ^ (w - 1) <= z < 2 ^ (w - 1).

Definition byte_ok (b : Z) : Prop := 0 <= b < 256.
Abbreviation bytes_ok := (Forall byte_ok).

Definition zlen {A} (l : list A) : Z := Z.of_nat (length l).
#[global] Arguments zlen : simpl never.
#[global] Arguments uwrap : simpl never.
#[global] Arguments swrap : simpl never.

(** ** Buffers.  A buffer is the list of its bytes; an access outside it has no
    value ([None]), which is how undefined behaviour shows in the development. *)

Definition rd {A} (b : list A) (i : Z) : option A :=
  if 0 <=? i then b !! Z.to_nat i else None.

Definition wr {A} (b : list A) (i : Z) (v : A) : option (list A) :=
  if (0 <=? i) && (i <? zlen b) then Some (<[Z.to_nat i := v]> b) else None.

Definition rdn {A} (b : list A) (off n : Z) : option (list A) :=
  if (0 <=? off) && (0 <=? n) && (off + n <=? zlen b)
  then Some (take (Z.to_nat n) (drop (Z.to_nat off) b)) else None.

Definition wrn {A} (b : list A) (off : Z) (src : list A) : option (list A) :=
  if (0 <=? off) && (off + zlen src <=? zlen b)
  then Some (take (Z.to_nat off) b ++ src ++ drop (Z.to_nat (off + zlen src)) b)
  else None.

(** memmove(b+dst, b+src, n) inside one buffer. *)
Definition mmove {A} (b : list A) (dst src n : Z) : option (list A) :=
  rdn b src n ≫= wrn b dst.

(** zrealloc(b, n): the bytes it adds are arbitrary ([junk]).  zmalloc and zrealloc
    abort the process when memory is exhausted, so they never return NULL. *)
Definition zrealloc {A} (junk : nat -> A) (b : list A) (n : Z) : list A :=
  take (Z.to_nat n) b ++ map junk (seq (length b) (Z.to_nat n - length b)).

(** An assertion of the C code: no value when it fails. *)
Definition cassert (b : bool) : option unit := if b then Some tt else None.

(** ** Little-endian encoding *)

Fixpoint le_enc (n : nat) (z : Z) : list Z :=
  match n with
  | O => []
  | S n' => z mod 256 :: le_enc n' (z / 256)
  end.

Fixpoint le_dec (l : list Z) : Z :=
  match l with
  | [] => 0
  | b :: l' => b + 256 * le_dec l'
  end.

(** ** Characters of the source's literals *)

(** The bytes of a string literal. *)
Definition str (s : String.string) : list Z :=
  map (fun a => Z.of_N (Ascii.N_of_ascii a)) (String.list_ascii_of_string s).

Abbreviation ch_dquote := 34 (only parsing).
Abbreviation ch_squote := 39 (only parsing).
Abbreviation ch_star := 42 (only parsing).
Abbreviation ch_minus := 45 (only parsing).
Abbreviation ch_0 := 48 (only parsing).
Abbreviation ch_1 := 49 (only parsing).
Abbreviation ch_9 := 57 (only parsing).
Abbreviation ch_qmark := 63 (only parsing).
Abbreviation ch_lbrack := 91 (only parsing).
Abbreviation ch_bslash := 92 (only parsing).
Abbreviation ch_rbrack := 93 (only parsing).
Abbreviation ch_caret := 94 (only parsing).

(** ** Tactics *)

Ltac bool_to_prop :=
  repeat match goal with
  | H : (_ && _) = true |- _ => apply andb_true_iff in H; destruct H
  | H : (_ && _) = false |- _ => apply andb_false_iff in H
  | H : (_ || _) = false |- _ => apply orb_false_iff in H; destruct H
  | H : (_ || _) = true |- _ => apply orb_true_iff in H
  | H : negb _ = true |- _ => apply negb_true_iff in H
  | H : negb _ = false |- _ => apply negb_false_iff in H
  | H : (_ <=? _) = true |- _ => apply Z.leb_le in H
  | H : (_ <=? _) = false |- _ => apply Z.leb_gt in H
  | H : (_ <? _) = true |- _ => apply Z.ltb_lt in H
  | H : (_ <? _) = false |- _ => apply Z.ltb_ge in H
  | H : (_ =? _) = true |- _ => apply Z.eqb_eq in H
  | H : (_ =? _) = false |- _ => apply Z.eqb_neq in H
  end.

(** Case analysis on the first conditional on integers in the goal. *)
Ltac zcase :=
  match goal with
  | |- context [?a <=? ?b] => destruct (Z.leb_spec a b)
  | |- context [?a <? ?b] => destruct (Z.ltb_spec a b)
  | |- context [?a =? ?b] => destruct (Z.eqb_spec a b)
  end.

(** Replace the comparisons lia can decide by their values. *)
Ltac zdec :=
  repeat match goal with
  | |- context [?a <=? ?b] =>
      first [ replace (a <=? b) with true by (symmetry; apply Z.leb_le; lia)
            | replace (a <=? b) with false by (symmetry; apply Z.leb_gt; lia) ]
  | |- context [?a <? ?b] =>
      first [ replace (a <? b) with true by (symmetry; apply Z.ltb_lt; lia)
            | replace (a <? b) with false by (symmetry; apply Z.ltb_ge; lia) ]
  | |- context [?a =? ?b] =>
      first [ replace (a =? b) with true by (symmetry; apply Z.eqb_eq; lia)
            | replace (a =? b) with false by (symmetry; apply Z.eqb_neq; lia) ]
  end; simpl andb; simpl orb; simpl negb; cbv iota.

Create HintDb redis.
Create Rewrite HintDb zlen.

(** ** Lemmas: machine integers *)

Lemma uwrap_small w z : in_u w z -> uwrap w z = z.
Proof. unfold in_u, uwrap. intros. apply Z.mod_small. lia. Qed.

Lemma uwrap_range w z : 0 <= w -> in_u w (uwrap w z).
Proof. intros. unfold in_u, uwrap. apply Z.mod_pos_bound. lia. Qed.

Lemma swrap_small w z : 0 < w -> in_s w z -> swrap w z = z.
Proof.
  unfold in_s, swrap. intros Hw Hz.
  assert (2 ^ w = 2 * 2 ^ (w - 1)) as E.
  { rewrite <- Z.pow_succ_r by lia. f_equal. lia. }
  rewrite Z.mod_small by lia. lia.
Qed.

Lemma swrap_range w z : 0 < w -> in_s w (swrap w z).
Proof.
  intros Hw. unfold in_s, swrap.
  assert (2 ^ w = 2 * 2 ^ (w - 1)) as E.
  { rewrite <- Z.pow_succ_r by lia. f_equal. lia. }
  pose proof (Z.mod_pos_bound (z + 2 ^ (w - 1)) (2 ^ w)). lia.
Qed.

Lemma swrap_uwrap w z : 0 < w -> swrap w (uwrap w z) = swrap w z.
Proof.
  intros Hw. unfold swrap, uwrap. f_equal.
  rewrite Zplus_mod_idemp_l. done.
Qed.

Lemma uwrap_swrap w z : 0 < w -> uwrap w (swrap w z) = uwrap w z.
Proof.
  intros Hw. unfold swrap, uwrap.
  rewrite Zminus_mod_idemp_l. f_equal. lia.
Qed.

Lemma swrap_of_unsigned w z :
  0 < w -> in_s w z -> swrap w (uwrap w z) = z.
Proof. intros. rewrite swrap_uwrap by done. by apply swrap_small. Qed.

(** The widths in use, with literal bounds. *)
Lemma u8_small z : 0 <= z < 256 -> uwrap 8 z = z.
Proof. intros. by apply uwrap_small. Qed.
Lemma u16_small z : 0 <= z < 65536 -> uwrap 16 z = z.
Proof. intros. by apply uwrap_small. Qed.
Lemma u32_small z : 0 <= z < 4294967296 -> uwrap 32 z = z.
Proof. intros. by apply uwrap_small. Qed.
Lemma u64_small z : 0 <= z < 18446744073709551616 -> uwrap 64 z = z.
Proof. intros. by apply uwrap_small. Qed.
Lemma s32_small z : -2147483648 <= z < 2147483648 -> swrap 32 z = z.
Proof. intros. by apply swrap_small. Qed.
Lemma s64_small z : -9223372036854775808 <= z < 9223372036854775808 -> swrap 64 z = z.
Proof. intros. by apply swrap_small. Qed.

(** ** Lemmas: lengths and buffers *)

Lemma zlen_nonneg {A} (l : list A) : 0 <= zlen l.
Proof. unfold zlen. lia. Qed.

Lemma zlen_nil {A} : zlen (@nil A) = 0.
Proof. done. Qed.

Lemma zlen_cons {A} (x : A) l : zlen (x :: l) = 1 + zlen l.
Proof. unfold zlen. simpl length. lia. Qed.

Lemma zlen_app {A} (l k : list A) : zlen (l ++ k) = zlen l + zlen k.
Proof. unfold zlen. rewrite length_app. lia. Qed.

Lemma zlen_replicate {A} n (x : A) : zlen (replicate n x) = Z.of_nat n.
Proof. unfold zlen. by rewrite length_replicate. Qed.

Lemma zlen_insert {A} (l : list A) i x : zlen (<[i := x]> l) = zlen l.
Proof. unfold zlen. by rewrite length_insert. Qed.

Lemma zlen_take {A} (l : list A) n :
  0 <= n <= zlen l -> zlen (take (Z.to_nat n) l) = n.
Proof. unfold zlen. rewrite length_take. lia. Qed.

Lemma zlen_drop {A} (l : list A) n :
  0 <= n <= zlen l -> zlen (drop (Z.to_nat n) l) = zlen l - n.
Proof. unfold zlen. rewrite length_drop. lia. Qed.

Lemma zlen_0_inv {A} (l : list A) : zlen l = 0 -> l = [].
Proof. destruct l; [done|]. rewrite zlen_cons. pose proof (zlen_nonneg l). lia. Qed.

#[export] Hint Rewrite @zlen_nil @zlen_cons @zlen_app @zlen_replicate @zlen_insert : zlen.
#[export] Hint Resolve zlen_nonneg : redis.

Ltac zlen_simpl := autorewrite with zlen in *.

(** Add the non-negativity of every length in sight, then [lia]. *)
Ltac zlia :=
  zlen_simpl;
  repeat match goal with
  | |- context [zlen ?l] =>
      lazymatch goal with H : 0 <= zlen l |- _ => fail | _ => pose proof (zlen_nonneg l) end
  | _ : context [zlen ?l] |- _ =>
      lazymatch goal with H : 0 <= zlen l |- _ => fail | _ => pose proof (zlen_nonneg l) end
  end; lia.

(** Equality of data whose integer leaves are equal by [lia]. *)
Ltac zeq :=
  first [ reflexivity
        | match goal with
          | |- @eq Z _ _ => first [lia | zlia]
          | |- @eq nat _ _ => first [lia | zlia]
          | |- _ => progress f_equal; zeq
          end ].

(** Remove the conversions of values that fit. *)
Ltac wrap_small :=
  repeat first
    [ rewrite u8_small by zlia | rewrite u16_small by zlia | rewrite u32_small by zlia
    | rewrite u64_small by zlia | rewrite s32_small by zlia | rewrite s64_small by zlia ].

Lemma rd_Some {A} (b : list A) i x :
  rd b i = Some x <-> 0 <= i /\ b !! Z.to_nat i = Some x.
Proof.
  unfold rd. zcase; (split; [|intros [? ?]]); done || lia.
Qed.

Lemma if_negb {A} (b : bool) (x y : A) : (if negb b then x else y) = if b then y else x.
Proof. by destruct b. Qed.

Lemma rd_app_l {A} (b c : list A) i : i < zlen b -> rd (b ++ c) i = rd b i.
Proof.
  intros H. unfold rd. zcase; [|done]. apply lookup_app_l. unfold zlen in H. lia.
Qed.

Lemma rd_app_r {A} (b c : list A) i : zlen b <= i -> rd (b ++ c) i = rd c (i - zlen b).
Proof.
  intros H. unfold rd. pose proof (zlen_nonneg b). zdec.
  rewrite lookup_app_r by (unfold zlen in *; lia). f_equal. unfold zlen in *. lia.
Qed.

Lemma rd_0 {A} (x : A) l : rd (x :: l) 0 = Some x.
Proof. done. Qed.

Lemma rd_S {A} (x : A) l i : 0 < i -> rd (x :: l) i = rd l (i - 1).
Proof.
  intros. change (x :: l) with ([x] ++ l). rewrite rd_app_r; [done|]. zlia.
Qed.

Lemma rd_None_ge {A} (b : list A) i : zlen b <= i -> rd b i = None.
Proof.
  intros. unfold rd. zcase; [|done]. apply lookup_ge_None. unfold zlen in *. lia.
Qed.

Lemma rd_is_Some {A} (b : list A) i : 0 <= i < zlen b -> is_Some (rd b i).
Proof.
  intros. unfold rd. zdec. apply lookup_lt_is_Some. unfold zlen in *. lia.
Qed.

Lemma rd_app_plus {A} (b c : list A) k : 0 <= k -> rd (b ++ c) (zlen b + k) = rd c k.
Proof. intros. rewrite rd_app_r by lia. f_equal. lia. Qed.

Lemma rd_mid {A} (a c : list A) x : rd (a ++ x :: c) (zlen a) = Some x.
Proof. rewrite rd_app_r, Z.sub_diag by lia. done. Qed.

Lemma rd_mid1 {A} (a c : list A) x y : rd (a ++ x :: y :: c) (zlen a + 1) = Some y.
Proof. rewrite rd_app_r by lia. replace (zlen a + 1 - zlen a) with 1 by lia. done. Qed.

Lemma rd_mid2 {A} (a c : list A) x y z : rd (a ++ x :: y :: z :: c) (zlen a + 1 + 1) = Some z.
Proof. rewrite rd_app_r by lia. replace (zlen a + 1 + 1 - zlen a) with 2 by lia. done. Qed.

Lemma rdn_app_mid {A} (a x c : list A) i n :
  i = zlen a -> n = zlen x -> rdn (a ++ x ++ c) i n = Some x.
Proof.
  intros -> ->. unfold rdn. zlen_simpl.
  pose proof (zlen_nonneg a). pose proof (zlen_nonneg x). pose proof (zlen_nonneg c).
  zdec. unfold zlen. rewrite !Nat2Z.id, drop_app_length, take_app_length. done.
Qed.

Lemma rdn_prefix {A} (x c : list A) n : n = zlen x -> rdn (x ++ c) 0 n = Some x.
Proof. intros ->. by apply (rdn_app_mid [] x c). Qed.

Lemma rdn_whole {A} (x : list A) : rdn x 0 (zlen x) = Some x.
Proof. rewrite <- (app_nil_r x) at 1. by apply rdn_prefix. Qed.

Lemma wrn_app_mid {A} (a x y c : list A) i :
  i = zlen a -> zlen x = zlen y -> wrn (a ++ x ++ c) i y = Some (a ++ y ++ c).
Proof.
  intros -> Hl. unfold wrn. zlen_simpl.
  pose proof (zlen_nonneg a). pose proof (zlen_nonneg x). pose proof (zlen_nonneg c).
  zdec. unfold zlen in *. rewrite Nat2Z.id, take_app_length.
  replace (Z.to_nat (Z.of_nat (length a) + Z.of_nat (length y)))
    with (length (a ++ x)) by (rewrite length_app; lia).
  rewrite (assoc_L (++) a x c), drop_app_length. done.
Qed.

Lemma wr_app_mid {A} (a c : list A) (x y : A) i :
  i = zlen a -> wr (a ++ x :: c) i y = Some (a ++ y :: c).
Proof.
  intros ->. unfold wr. zlen_simpl.
  pose proof (zlen_nonneg a). pose proof (zlen_nonneg c). zdec.
  unfold zlen. rewrite Nat2Z.id. f_equal.
  rewrite insert_app_r_alt by lia. rewrite Nat.sub_diag. done.
Qed.

Lemma wrn_prefix {A} (x y r : list A) :
  zlen x = zlen y -> wrn (x ++ r) 0 y = Some (y ++ r).
Proof. intros H. by apply (wrn_app_mid [] x y r 0). Qed.

Lemma wrn_zlen {A} (b src b' : list A) off :
  wrn b off src = Some b' -> zlen b' = zlen b.
Proof.
  unfold wrn. destruct (_ && _) eqn:E; [|done]. bool_to_prop. intros [= <-].
  pose proof (zlen_nonneg src).
  rewrite !zlen_app, zlen_take, zlen_drop by lia. lia.
Qed.

(** Split a buffer at an offset. *)
Lemma split_at {A} (b : list A) n :
  0 <= n <= zlen b -> exists x y, b = x ++ y /\ zlen x = n /\ zlen y = zlen b - n.
Proof.
  intros H. exists (take (Z.to_nat n) b), (drop (Z.to_nat n) b).
  rewrite take_drop, zlen_take, zlen_drop by lia. done.
Qed.

Lemma zrealloc_grow {A} (junk : nat -> A) b n :
  zlen b <= n -> exists g, zrealloc junk b n = b ++ g /\ zlen g = n - zlen b.
Proof.
  intros H. unfold zrealloc. eexists. rewrite take_ge by (unfold zlen in H; lia).
  split; [done|]. unfold zlen in *. rewrite length_map, length_seq. lia.
Qed.

Lemma zrealloc_shrink {A} (junk : nat -> A) a b n :
  n = zlen a -> zrealloc junk (a ++ b) n = a.
Proof.
  intros ->. unfold zrealloc, zlen. rewrite Nat2Z.id, take_app_length, length_app.
  replace (length a - (length a + length b))%nat with 0%nat by lia. apply app_nil_r.
Qed.

(** ** Lemmas: little-endian encoding *)

Lemma length_le_enc n z : length (le_enc n z) = n.
Proof. revert z. induction n as [|n IH]; intros z; simpl; auto. Qed.

Lemma zlen_le_enc n z : zlen (le_enc n z) = Z.of_nat n.
Proof. unfold zlen. by rewrite length_le_enc. Qed.
#[export] Hint Rewrite zlen_le_enc : zlen.

Lemma le_enc_ok n z : bytes_ok (le_enc n z).
Proof.
  revert z. induction n as [|n IH]; intros z; simpl; constructor; auto.
  unfold byte_ok. apply Z.mod_pos_bound. lia.
Qed.
#[export] Hint Resolve le_enc_ok : redis.

Lemma le_dec_enc n z : le_dec (le_enc n z) = z mod 256 ^ Z.of_nat n.
Proof.
  revert z. induction n as [|n IH]; intros z; cbn [le_enc le_dec].
  - by rewrite Z.mod_1_r.
  - rewrite IH, Nat2Z.inj_succ, Z.pow_succ_r by lia.
    rewrite Z.rem_mul_r by lia. done.
Qed.

Lemma le_dec_bound l : bytes_ok l -> 0 <= le_dec l < 256 ^ zlen l.
Proof.
  induction 1 as [|b l Hb Hl IH]; cbn [le_dec]; [by vm_compute|].
  rewrite zlen_cons, Z.add_1_l, Z.pow_succ_r by (apply zlen_nonneg).
  unfold byte_ok in Hb. lia.
Qed.

Lemma le_enc_dec l : bytes_ok l -> le_enc (length l) (le_dec l) = l.
Proof.
  induction 1 as [|b l Hb Hl IH]; simpl; [done|].
  unfold byte_ok in Hb. rewrite (Z.mul_comm 256), Z_mod_plus_full, Z.mod_small by lia.
  rewrite Z.div_add, Z.div_small, Z.add_0_l, IH by lia. done.
Qed.

Lemma le_enc_mod n z : le_enc n (z mod 256 ^ Z.of_nat n) = le_enc n z.
Proof.
  rewrite <- le_dec_enc. rewrite <- (length_le_enc n z) at 1.
  apply le_enc_dec. apply le_enc_ok.
Qed.

(** ** Bits *)

Lemma testbit_small x w k : 0 <= x < 2 ^ w -> w <= k -> Z.testbit x k = false.
Proof.
  intros Hx Hk. destruct (Z.ltb_spec w 0) as [E|E]; [rewrite Z.pow_neg_r in Hx by done; lia|]. apply Z.testbit_false; [lia|]. rewrite Z.div_small; [done|].
  split; [lia|]. apply Z.lt_le_trans with (2 ^ w); [lia|]. apply Z.pow_le_mono_r; lia.
Qed.

Lemma lor_shift_add a b w : 0 <= w -> 0 <= b < 2 ^ w -> Z.lor (Z.shiftl a w) b = a * 2 ^ w + b.
Proof.
  intros Hw Hb. rewrite Z.shiftl_mul_pow2 by done. pose proof (Z.add_lor_land (a * 2 ^ w) b) as E.
  replace (Z.land (a * 2 ^ w) b) with 0 in E; [lia|]. symmetry. apply Z.bits_inj'. intros k Hk. rewrite Z.land_spec, Z.bits_0.
  destruct (Z.ltb_spec k w); [by rewrite Z.mul_pow2_bits_low by lia|]. by rewrite (testbit_small b w), andb_false_r by lia.
Qed.

Lemma lor_acc a b w : 0 <= w -> 0 <= a < 2 ^ w -> Z.lor a (Z.shiftl b w) = a + b * 2 ^ w.
Proof. intros. rewrite Z.lor_comm, lor_shift_add by done. lia. Qed.

(** ** An allocator, for concrete memories *)

Definition fresh_key {A} (m : gmap nat A) : nat := S (foldr Nat.max 0%nat (map fst (map_to_list m))).

Lemma fresh_key_ok {A} (m : gmap nat A) : m !! fresh_key m = None.
Proof.
  apply eq_None_not_Some. intros [n Hn]. apply elem_of_map_to_list, list_elem_of_In, (in_map fst) in Hn. cbn in Hn.
  unfold fresh_key in Hn. revert Hn. generalize (map fst (map_to_list m)). intros l.
  assert (forall k, In k l -> (k <= foldr Nat.max 0%nat l)%nat) as Hle; [|intros Hn; specialize (Hle _ Hn); lia].
  induction l as [|y l IH]; intros k; [done|]. intros [->|Hk]; cbn; [lia|]. specialize (IH k Hk). lia.
Qed.
