(* ===== verification/Endian.v ===== *)
(** * endianconv.c: byte order

    The code stores its integers little-endian on every machine: on a big-endian
    one the conversion macros of endianconv.h reverse the bytes, on a
    little-endian one they are empty.  The development is parametrised by the byte
    order of the host, and this file shows that it cannot be observed. *)

From S2P Require Import Prelude.

Class Host := { big_endian : bool }.

(** What the machine itself does: an [n]-byte integer as it lies in memory. *)
Definition host_enc `{Host} (n : nat) (z : Z) : list Z :=
  if big_endian then reverse (le_enc n z) else le_enc n z.
Definition host_dec `{Host} (x : list Z) : Z :=
  if big_endian then le_dec (reverse x) else le_dec x.

(** [t = x[i]; x[i] = x[j]; x[j] = t] *)
Definition swap_bytes (x : list Z) (i j : Z) : option (list Z) :=
  t ← rd x i;
  u ← rd x j;
  x ← wr x i u;
  wr x j t.

(** The argument of the memrev functions is the address [p] inside the buffer [x]. *)
Definition memrev16 (x : list Z) (p : Z) : option (list Z) := swap_bytes x p (p + 1).

Definition memrev32 (x : list Z) (p : Z) : option (list Z) :=
  x ← swap_bytes x p (p + 3);
  swap_bytes x (p + 1) (p + 2).

Definition memrev64 (x : list Z) (p : Z) : option (list Z) :=
  x ← swap_bytes x p (p + 7);
  x ← swap_bytes x (p + 1) (p + 6);
  x ← swap_bytes x (p + 2) (p + 5);
  swap_bytes x (p + 3) (p + 4).

Section Host.
Context `{Host}.

(** The intrev functions reverse a local variable, so their accesses are in range. *)
Definition intrev16 (v : Z) : Z := from_option host_dec v (memrev16 (host_enc 2 v) 0).
Definition intrev32 (v : Z) : Z := from_option host_dec v (memrev32 (host_enc 4 v) 0).
Definition intrev64 (v : Z) : Z := from_option host_dec v (memrev64 (host_enc 8 v) 0).

Definition memrev16ifbe (x : list Z) (p : Z) : option (list Z) :=
  if big_endian then memrev16 x p else Some x.
Definition memrev32ifbe (x : list Z) (p : Z) : option (list Z) :=
  if big_endian then memrev32 x p else Some x.
Definition memrev64ifbe (x : list Z) (p : Z) : option (list Z) :=
  if big_endian then memrev64 x p else Some x.
Definition intrev16ifbe (v : Z) : Z := if big_endian then intrev16 v else v.
Definition intrev32ifbe (v : Z) : Z := if big_endian then intrev32 v else v.
Definition intrev64ifbe (v : Z) : Z := if big_endian then intrev64 v else v.

End Host.

(** ** Proofs *)

Module EndianFacts.

Lemma swap_mid (a m c : list Z) x y i j :
  i = zlen a -> j = zlen a + 1 + zlen m ->
  swap_bytes (a ++ x :: m ++ y :: c) i j = Some (a ++ y :: m ++ x :: c).
Proof.
  intros -> ->. unfold swap_bytes. rewrite rd_mid. cbn [mbind option_bind].
  replace (a ++ x :: m ++ y :: c) with ((a ++ x :: m) ++ y :: c)
    by (by rewrite <- (assoc_L (++))).
  replace (zlen a + 1 + zlen m) with (zlen (a ++ x :: m)) by zlia.
  rewrite rd_mid. cbn [mbind option_bind].
  rewrite <- (assoc_L (++)). cbn [app]. rewrite wr_app_mid by done. cbn [mbind option_bind].
  replace (a ++ y :: m ++ y :: c) with ((a ++ y :: m) ++ y :: c)
    by (by rewrite <- (assoc_L (++))).
  rewrite wr_app_mid by zlia. by rewrite <- (assoc_L (++)).
Qed.

Lemma bytes2 (x : list Z) : zlen x = 2 -> exists b0 b1, x = [b0; b1].
Proof. destruct x as [|? [|? [|]]]; intros; try (exfalso; zlia). eauto. Qed.
Lemma bytes4 (x : list Z) : zlen x = 4 -> exists b0 b1 b2 b3, x = [b0; b1; b2; b3].
Proof. destruct x as [|? [|? [|? [|? [|]]]]]; intros; try (exfalso; zlia). eauto. Qed.
Lemma bytes8 (x : list Z) : zlen x = 8 ->
  exists b0 b1 b2 b3 b4 b5 b6 b7, x = [b0; b1; b2; b3; b4; b5; b6; b7].
Proof.
  destruct x as [|? [|? [|? [|? [|? [|? [|? [|? [|]]]]]]]]]; intros; try (exfalso; zlia).
  do 8 eexists. done.
Qed.

Lemma memrev16_mid (a x c : list Z) p : p = zlen a -> zlen x = 2 ->
  memrev16 (a ++ x ++ c) p = Some (a ++ reverse x ++ c).
Proof.
  intros Hp Hx. destruct (bytes2 x Hx) as (b0 & b1 & ->).
  exact (swap_mid a [] c b0 b1 p (p + 1) Hp ltac:(change (zlen (@nil Z)) with 0; lia)).
Qed.

Lemma memrev32_mid (a x c : list Z) p : p = zlen a -> zlen x = 4 ->
  memrev32 (a ++ x ++ c) p = Some (a ++ reverse x ++ c).
Proof.
  intros Hp Hx. destruct (bytes4 x Hx) as (b0 & b1 & b2 & b3 & ->). unfold memrev32.
  change (a ++ [b0; b1; b2; b3] ++ c) with (a ++ b0 :: [b1; b2] ++ b3 :: c).
  rewrite swap_mid by zlia. cbn [mbind option_bind].
  change (a ++ b3 :: [b1; b2] ++ b0 :: c) with (a ++ [b3] ++ b1 :: [] ++ b2 :: b0 :: c).
  rewrite (assoc_L (++)), swap_mid by zlia. by rewrite <- (assoc_L (++)).
Qed.

Lemma memrev64_mid (a x c : list Z) p : p = zlen a -> zlen x = 8 ->
  memrev64 (a ++ x ++ c) p = Some (a ++ reverse x ++ c).
Proof.
  intros Hp Hx. destruct (bytes8 x Hx) as (b0 & b1 & b2 & b3 & b4 & b5 & b6 & b7 & ->).
  unfold memrev64.
  change (a ++ [b0; b1; b2; b3; b4; b5; b6; b7] ++ c)
    with (a ++ b0 :: [b1; b2; b3; b4; b5; b6] ++ b7 :: c).
  rewrite swap_mid by zlia. cbn [mbind option_bind].
  change (a ++ b7 :: [b1; b2; b3; b4; b5; b6] ++ b0 :: c)
    with (a ++ [b7] ++ b1 :: [b2; b3; b4; b5] ++ b6 :: b0 :: c).
  rewrite (assoc_L (++) a), swap_mid by zlia. cbn [mbind option_bind].
  rewrite <- (assoc_L (++)).
  change (a ++ [b7] ++ b6 :: [b2; b3; b4; b5] ++ b1 :: b0 :: c)
    with (a ++ [b7; b6] ++ b2 :: [b3; b4] ++ b5 :: b1 :: b0 :: c).
  rewrite (assoc_L (++) a), swap_mid by zlia. cbn [mbind option_bind].
  rewrite <- (assoc_L (++)).
  change (a ++ [b7; b6] ++ b5 :: [b3; b4] ++ b2 :: b1 :: b0 :: c)
    with (a ++ [b7; b6; b5] ++ b3 :: [] ++ b4 :: b2 :: b1 :: b0 :: c).
  rewrite (assoc_L (++) a), swap_mid by zlia. by rewrite <- (assoc_L (++)).
Qed.

Section Facts.
Context `{Host}.

Lemma zlen_host_enc n z : zlen (host_enc n z) = Z.of_nat n.
Proof. unfold host_enc, zlen. destruct big_endian; by rewrite ?length_reverse, length_le_enc. Qed.

(** Storing an integer natively and converting it in place stores it
    little-endian; [rev] is one of the three conversions. *)
Definition reverses (n : nat) (rev : list Z -> Z -> option (list Z)) : Prop :=
  forall a x c, zlen x = Z.of_nat n ->
    rev (a ++ x ++ c) (zlen a) = Some (a ++ (if big_endian then reverse x else x) ++ c).

Lemma memrev16ifbe_reverses : reverses 2 memrev16ifbe.
Proof. intros a x c Hx. unfold memrev16ifbe. destruct big_endian; auto using memrev16_mid. Qed.
Lemma memrev32ifbe_reverses : reverses 4 memrev32ifbe.
Proof. intros a x c Hx. unfold memrev32ifbe. destruct big_endian; auto using memrev32_mid. Qed.
Lemma memrev64ifbe_reverses : reverses 8 memrev64ifbe.
Proof. intros a x c Hx. unfold memrev64ifbe. destruct big_endian; auto using memrev64_mid. Qed.

Lemma store_le n rev b off v : reverses n rev ->
  (b ← wrn b off (host_enc n v); rev b off) = wrn b off (le_enc n v).
Proof.
  intros Hrev. unfold wrn. rewrite zlen_host_enc, zlen_le_enc.
  destruct (_ && _) eqn:E; [|done]. bool_to_prop. cbn [mbind option_bind].
  assert (zlen (take (Z.to_nat off) b) = off) as Ho by (apply zlen_take; lia).
  set (a := take (Z.to_nat off) b) in *. set (c := drop _ b).
  pose proof (Hrev a (host_enc n v) c (zlen_host_enc n v)) as R. rewrite Ho in R. rewrite R.
  unfold host_enc. destruct big_endian; by rewrite ?reverse_involutive.
Qed.

Lemma load_le n rev b off : reverses n rev ->
  (v ← rdn b off (Z.of_nat n); v ← rev v 0; Some (host_dec v)) =
  le_dec <$> rdn b off (Z.of_nat n).
Proof.
  intros Hrev. destruct (rdn b off (Z.of_nat n)) as [x|] eqn:E; [|done].
  cbn [mbind option_bind fmap option_fmap option_map].
  assert (zlen x = Z.of_nat n) as Hx.
  { unfold rdn in E. destruct (_ && _) eqn:B; [|done]. bool_to_prop. injection E as <-.
    rewrite zlen_take; [done|]. rewrite zlen_drop by lia. lia. }
  pose proof (Hrev [] x [] Hx) as R. change (zlen (@nil Z)) with 0 in R. cbn [app] in R.
  rewrite !app_nil_r in R. rewrite R. cbn [mbind option_bind]. unfold host_dec.
  destruct big_endian; by rewrite ?reverse_involutive.
Qed.

(** The value-level conversions: their result has the bytes of the argument in
    the little-endian order. *)
Lemma host_dec_enc n z : host_dec (host_enc n z) = z mod 256 ^ Z.of_nat n.
Proof.
  unfold host_dec, host_enc. destruct big_endian; rewrite ?reverse_involutive; apply le_dec_enc.
Qed.

Lemma host_dec_inj x y : bytes_ok x -> bytes_ok y -> zlen x = zlen y ->
  host_dec x = host_dec y -> x = y.
Proof.
  unfold host_dec. intros Hx Hy Hl E.
  assert (length x = length y) as Hl' by (unfold zlen in Hl; lia).
  destruct big_endian.
  - apply (inj reverse). rewrite <- (le_enc_dec (reverse x)), <- (le_enc_dec (reverse y));
      [by rewrite E, !length_reverse, Hl'|..]; by apply Forall_reverse.
  - by rewrite <- (le_enc_dec x), <- (le_enc_dec y), E, Hl'.
Qed.

Lemma intrev32_spec v : intrev32 v = host_dec (reverse (host_enc 4 v)).
Proof.
  unfold intrev32. pose proof (memrev32_mid [] (host_enc 4 v) [] 0 eq_refl) as E.
  cbn [app] in E. rewrite !app_nil_r in E. rewrite E; [done|]. apply zlen_host_enc.
Qed.

Lemma host_enc_dec x : bytes_ok x -> host_enc (length x) (host_dec x) = x.
Proof.
  intros Hx. unfold host_enc, host_dec. destruct big_endian; [|by apply le_enc_dec].
  rewrite <- (length_reverse x), le_enc_dec by (by apply Forall_reverse).
  apply reverse_involutive.
Qed.

Lemma host_enc_ok n z : bytes_ok (host_enc n z).
Proof. unfold host_enc. destruct big_endian; [apply Forall_reverse|]; apply le_enc_ok. Qed.

Lemma intrev32_involutive v : in_u 32 v -> intrev32 (intrev32 v) = v.
Proof.
  intros Hv. rewrite !intrev32_spec.
  assert (length (reverse (host_enc 4 v)) = 4%nat) as E
    by (pose proof (zlen_host_enc 4 v); unfold zlen in *; rewrite length_reverse; lia).
  rewrite <- E at 1. rewrite host_enc_dec by (apply Forall_reverse, host_enc_ok).
  rewrite reverse_involutive, host_dec_enc. by apply Z.mod_small.
Qed.

Lemma intrev16_spec v : intrev16 v = host_dec (reverse (host_enc 2 v)).
Proof.
  unfold intrev16. pose proof (memrev16_mid [] (host_enc 2 v) [] 0 eq_refl) as E.
  cbn [app] in E. rewrite !app_nil_r in E. rewrite E; [done|]. apply zlen_host_enc.
Qed.

Lemma host_enc_dec_n n x : bytes_ok x -> length x = n -> host_enc n (host_dec x) = x.
Proof. intros Hx <-. by apply host_enc_dec. Qed.

Lemma length_host_enc n z : length (host_enc n z) = n.
Proof. pose proof (zlen_host_enc n z). unfold zlen in *. lia. Qed.

(** A header field holds the little-endian bytes of what is assigned to it through
    intrev, and is read back so. *)
Lemma store32 v : host_enc 4 (intrev32ifbe v) = le_enc 4 v.
Proof.
  unfold intrev32ifbe. destruct big_endian eqn:E; [|unfold host_enc; by rewrite E].
  rewrite intrev32_spec, host_enc_dec_n;
    [|apply Forall_reverse, host_enc_ok|by rewrite length_reverse, length_host_enc].
  unfold host_enc. by rewrite E, reverse_involutive.
Qed.

Lemma store16 v : host_enc 2 (intrev16ifbe v) = le_enc 2 v.
Proof.
  unfold intrev16ifbe. destruct big_endian eqn:E; [|unfold host_enc; by rewrite E].
  rewrite intrev16_spec, host_enc_dec_n;
    [|apply Forall_reverse, host_enc_ok|by rewrite length_reverse, length_host_enc].
  unfold host_enc. by rewrite E, reverse_involutive.
Qed.

Lemma load32 v : in_u 32 v -> intrev32ifbe (host_dec (le_enc 4 v)) = v.
Proof.
  intros Hv. unfold intrev32ifbe. destruct big_endian eqn:E.
  - rewrite intrev32_spec, host_enc_dec_n by (auto using le_enc_ok, length_le_enc).
    unfold host_dec. rewrite E, reverse_involutive, le_dec_enc. by apply Z.mod_small.
  - unfold host_dec. rewrite E, le_dec_enc. by apply Z.mod_small.
Qed.

Lemma load16 v : in_u 16 v -> intrev16ifbe (host_dec (le_enc 2 v)) = v.
Proof.
  intros Hv. unfold intrev16ifbe. destruct big_endian eqn:E.
  - rewrite intrev16_spec, host_enc_dec_n by (auto using le_enc_ok, length_le_enc).
    unfold host_dec. rewrite E, reverse_involutive, le_dec_enc. by apply Z.mod_small.
  - unfold host_dec. rewrite E, le_dec_enc. by apply Z.mod_small.
Qed.

Lemma intrev32ifbe_involutive v : in_u 32 v -> intrev32ifbe (intrev32ifbe v) = v.
Proof. intros. unfold intrev32ifbe. destruct big_endian; auto using intrev32_involutive. Qed.

End Facts.
End EndianFacts.
