(* ===== verification/Util.v ===== *)
(** * util.c: decimal conversions and glob matching *)

From S2P Require Import Prelude.

Definition LLONG_MAX : Z := 2 ^ 63 - 1.
Definition LLONG_MIN : Z := - 2 ^ 63.
Definition ULLONG_MAX : Z := 2 ^ 64 - 1.

(** tolower() of the C locale on a char, which is passed sign-extended. *)
Definition tolower (c : Z) : Z := if (65 <=? c) && (c <=? 90) then c + 32 else c.

(** The value of a char converted to int: char is signed on the target. *)
Definition schar (b : Z) : Z := swrap 8 b.

Module Num.

(** The digits written backwards from the end of [buf]; [room] counts the
    cells of [buf] still below the write pointer, so writing below [buf] has no
    value. *)
Fixpoint digits_loop (room : nat) (v : Z) (acc : list Z) : option (nat * list Z) :=
  match room with
  | O => None
  | S room' =>
      let acc' := (ch_0 + v mod 10) :: acc in
      let v' := v / 10 in
      if v' =? 0 then Some (room', acc') else digits_loop room' v' acc'
  end.

(** [v = (value < 0) ? -value : value]: the negation wraps at LLONG_MIN and the
    result is converted to unsigned long long. *)
Definition magnitude (value : Z) : Z :=
  uwrap 64 (if value <? 0 then swrap 64 (- value) else value).

(** The characters between [p] and the end of [buf] (32 bytes). *)
Definition ll_chars (value : Z) : option (list Z) :=
  '(room, acc) ← digits_loop 32 (magnitude value) [];
  if value <? 0
  then match room with O => None | S _ => Some (ch_minus :: acc) end
  else Some acc.

(** [ll2string s len value]: the buffer [s] after the call and the result. *)
Definition ll2string (s : list Z) (len value : Z) : option (list Z * Z) :=
  if len =? 0 then Some (s, 0) else
  p ← ll_chars value;
  let l := zlen p in
  let l := if len <? l + 1 then len - 1 else l in
  src ← rdn p 0 l;
  s ← wrn s 0 src;
  s ← wr s l 0;
  Some (s, l).

(** The accumulation loop of string2ll on the bytes left. *)
Fixpoint string2ll_loop (p : list Z) (v : Z) : option (list Z * Z) :=
  match p with
  | [] => Some ([], v)
  | c :: p' =>
      if (ch_0 <=? c) && (c <=? ch_9) then
        if ULLONG_MAX / 10 <? v then None else
        let v := v * 10 in
        if ULLONG_MAX - (c - ch_0) <? v then None else
        string2ll_loop p' (v + (c - ch_0))
      else Some (p, v)
  end.

(** What follows the optional sign. [slen] is the length of the whole input. *)
Definition string2ll_body (negative : bool) (slen : Z) (p : list Z) : option Z :=
  match p with
  | [] => None
  | c :: p' =>
      if (ch_1 <=? c) && (c <=? ch_9) then
        '(rest, v) ← string2ll_loop p' (c - ch_0);
        match rest with
        | _ :: _ => None
        | [] =>
            if negative then
              if - (LLONG_MIN + 1) + 1 <? v then None
              else Some (swrap 64 (uwrap 64 (- v)))
            else if LLONG_MAX <? v then None else Some v
        end
      else if (c =? ch_0) && (slen =? 1) then Some 0
      else None
  end.

(** [string2ll s]: [Some v] when the C function returns 1 with [*value = v]. *)
Definition string2ll (s : list Z) : option Z :=
  match s with
  | [] => None
  | c :: p' =>
      if (zlen s =? 1) && (c =? ch_0) then Some 0
      else if c =? ch_minus then
        match p' with
        | [] => None
        | _ => string2ll_body true (zlen s) p'
        end
      else string2ll_body false (zlen s) s
  end.

(** long is 64 bits on the target, so the range test is on the same bounds. *)
Definition string2l (s : list Z) : option Z :=
  match string2ll s with
  | None => None
  | Some llval =>
      if (llval <? LLONG_MIN) || (LLONG_MAX <? llval) then None else Some llval
  end.

End Num.

Module Glob.

(** The loop that skips the stars that follow a star. *)
Fixpoint skip_stars (fuel : nat) (pat : list Z) (pi pl : Z) : option (Z * Z) :=
  match fuel with
  | O => None
  | S f =>
      c ← rd pat (pi + 1);
      if c =? ch_star then skip_stars f pat (pi + 1) (pl - 1) else Some (pi, pl)
  end.

(** The loop that skips the stars left once the string is consumed. *)
Fixpoint trail_stars (fuel : nat) (pat : list Z) (pi pl : Z) : option (Z * Z) :=
  match fuel with
  | O => None
  | S f =>
      c ← rd pat pi;
      if c =? ch_star then trail_stars f pat (pi + 1) (pl - 1) else Some (pi, pl)
  end.

(** The body of a character class: the pattern position at its end (on the
    closing bracket, or on the last character read) and whether the
    current character of the string was matched. *)
Fixpoint class_loop (fuel : nat) (pat : list Z) (pi pl : Z) (str : list Z) (si : Z)
    (nocase mtch : bool) : option (Z * Z * bool) :=
  match fuel with
  | O => None
  | S f =>
      c0 ← rd pat pi;
      if c0 =? ch_bslash then
        c ← rd pat (pi + 1);
        s0 ← rd str si;
        let mtch := if c =? s0 then true else mtch in
        class_loop f pat (pi + 2) (pl - 2) str si nocase mtch
      else if c0 =? ch_rbrack then Some (pi, pl, mtch)
      else if pl =? 0 then Some (pi - 1, pl + 1, mtch)
      else
        c1 ← rd pat (pi + 1);
        if (c1 =? ch_minus) && (3 <=? pl) then
          c2 ← rd pat (pi + 2);
          s0 ← rd str si;
          let start := schar c0 in
          let end_ := schar c2 in
          let c := schar s0 in
          let '(start, end_) := if end_ <? start then (end_, start) else (start, end_) in
          let '(start, end_, c) :=
            if nocase then (tolower start, tolower end_, tolower c) else (start, end_, c) in
          let mtch := if (start <=? c) && (c <=? end_) then true else mtch in
          class_loop f pat (pi + 3) (pl - 3) str si nocase mtch
        else
          s0 ← rd str si;
          let mtch :=
            if negb nocase then (if c0 =? s0 then true else mtch)
            else (if tolower (schar c0) =? tolower (schar s0) then true else mtch) in
          class_loop f pat (pi + 1) (pl - 1) str si nocase mtch
  end.

(** The loop that tries the rest of the pattern at every position left; [rec]
    is the recursive call. *)
Fixpoint star_loop (fuel : nat) (rec : Z -> Z -> option bool) (si sl : Z) : option bool :=
  match fuel with
  | O => None
  | S f =>
      if sl =? 0 then Some false else
      r ← rec si sl;
      if (r : bool) then Some true else star_loop f rec (si + 1) (sl - 1)
  end.

(** [pat] and [str] are the buffers, [pi] and [si] the positions of the pattern
    and string pointers in them.  [None]: a read outside a buffer, or no fuel
    left. *)
Fixpoint stringmatchlen (fuel : nat) (pat : list Z) (pi pl : Z)
    (str : list Z) (si sl : Z) (nocase : bool) : option bool :=
  match fuel with
  | O => None
  | S f =>
      if pl =? 0 then Some (sl =? 0) else
      let next pi pl si sl :=
        let pi := pi + 1 in
        let pl := pl - 1 in
        if sl =? 0 then
          '(_, pl) ← trail_stars f pat pi pl;
          Some ((pl =? 0) && (sl =? 0))
        else stringmatchlen f pat pi pl str si sl nocase in
      let literal pi pl :=
        p0 ← rd pat pi;
        s0 ← rd str si;
        if (if negb nocase then p0 =? s0 else tolower (schar p0) =? tolower (schar s0))
        then next pi pl (si + 1) (sl - 1)
        else Some false in
      c ← rd pat pi;
      if c =? ch_star then
        '(pi, pl) ← skip_stars f pat pi pl;
        if pl =? 1 then Some true else
        star_loop f
          (fun si sl => stringmatchlen f pat (pi + 1) (pl - 1) str si sl nocase) si sl
      else if c =? ch_qmark then
        if sl =? 0 then Some false else next pi pl (si + 1) (sl - 1)
      else if c =? ch_lbrack then
        let pi := pi + 1 in
        let pl := pl - 1 in
        p0 ← rd pat pi;
        let not_ := p0 =? ch_caret in
        let '(pi, pl) := if not_ then (pi + 1, pl - 1) else (pi, pl) in
        '(pi, pl, mtch) ← class_loop f pat pi pl str si nocase false;
        let mtch := if not_ then negb mtch else mtch in
        if negb mtch then Some false else next pi pl (si + 1) (sl - 1)
      else if c =? ch_bslash then
        if 2 <=? pl then literal (pi + 1) (pl - 1) else literal pi pl
      else literal pi pl
  end.

(** Enough for every call on buffers of these lengths: see [stringmatchlen_spec]. *)
Definition match_fuel (p s : list Z) : nat := (length p + length s + 3)%nat.

(** A call on two dynamic strings, which are NUL-terminated. *)
Definition match_sds (p s : list Z) (nocase : bool) : option bool :=
  stringmatchlen (match_fuel p s) (p ++ [0]) 0 (zlen p) (s ++ [0]) 0 (zlen s) nocase.

End Glob.

(** ** Proofs: decimal conversions *)

Module NumFacts.
Import Num.

Definition digit (c : Z) : Prop := ch_0 <= c <= ch_9.

(** The value of a digit string read after [v]. *)
Definition dval (v : Z) (ds : list Z) : Z := foldl (fun a c => a * 10 + (c - ch_0)) v ds.

(** Digit strings with no leading zero, and 0 itself. *)
Definition canonical (ds : list Z) : Prop :=
  Forall digit ds /\ exists d ds', ds = d :: ds' /\ (ch_1 <= d \/ ds' = []).

Lemma dval_snoc v ds c : dval v (ds ++ [c]) = dval v ds * 10 + (c - ch_0).
Proof. unfold dval. rewrite foldl_app. done. Qed.

Lemma dval_ge v ds : Forall digit ds -> 0 <= v -> v * 10 ^ zlen ds <= dval v ds.
Proof.
  intros Hd Hv. induction ds as [|c ds IH] using rev_ind.
  - rewrite zlen_nil. change (dval v []) with v. lia.
  - apply Forall_app in Hd as [Hd Hc]. apply Forall_inv in Hc. unfold digit in Hc.
    rewrite dval_snoc, zlen_app. change (zlen [c]) with 1.
    rewrite Z.pow_add_r by zlia. specialize (IH Hd). lia.
Qed.

Lemma dval_lt v ds : Forall digit ds -> 0 <= v -> dval v ds < (v + 1) * 10 ^ zlen ds.
Proof.
  intros Hd Hv. induction ds as [|c ds IH] using rev_ind.
  - rewrite zlen_nil. change (dval v []) with v. lia.
  - apply Forall_app in Hd as [Hd Hc]. apply Forall_inv in Hc. unfold digit in Hc.
    rewrite dval_snoc, zlen_app. change (zlen [c]) with 1.
    rewrite Z.pow_add_r by zlia. specialize (IH Hd). lia.
Qed.

Lemma canonical_ge ds : canonical ds -> dval 0 ds = 0 /\ ds = [ch_0] \/ 10 ^ (zlen ds - 1) <= dval 0 ds.
Proof.
  intros [Hd (d & ds' & -> & Hc)].
  inversion Hd as [|? ? H0 Hd']; subst. unfold digit in H0.
  destruct (decide (d = ch_0)) as [->|Hne].
  - destruct Hc as [| ->]; [lia|]. left. done.
  - right. change (dval 0 (d :: ds')) with (dval (0 * 10 + (d - ch_0)) ds').
    pose proof (dval_ge (0 * 10 + (d - ch_0)) ds' Hd' ltac:(lia)) as G.
    rewrite zlen_cons. replace (1 + zlen ds' - 1) with (zlen ds') by lia.
    pose proof (zlen_nonneg ds'). assert (0 < 10 ^ zlen ds') by (apply Z.pow_pos_nonneg; lia).
    nia.
Qed.

Lemma canonical_exists v : 0 <= v -> exists ds, canonical ds /\ dval 0 ds = v.
Proof.
  revert v. apply (Zlt_0_ind (fun v => exists ds, canonical ds /\ dval 0 ds = v)).
  intros v IH Hv. destruct (Z.ltb_spec v 10) as [Hlt|Hge].
  - exists [ch_0 + v]. split; [|unfold dval; simpl; lia].
    split; [repeat constructor; unfold digit; lia|]. eauto.
  - destruct (IH (v / 10)) as (ds & [Hd (d & ds' & -> & Hc)] & Hval).
    { split; [apply Z.div_pos; lia|apply Z.div_lt; lia]. }
    exists ((d :: ds') ++ [ch_0 + v mod 10]). pose proof (Z.mod_pos_bound v 10).
    assert (Forall digit ((d :: ds') ++ [ch_0 + v mod 10])) as Hall.
    { apply Forall_app; split; [done|]. repeat constructor; unfold digit; lia. }
    split; [split; [done|]|].
    + exists d, (ds' ++ [ch_0 + v mod 10]). split; [done|].
      destruct Hc as [| ->]; [auto|]. left. cbn in Hval.
      pose proof (Z.div_le_lower_bound v 10 1). lia.
    + rewrite dval_snoc, Hval. pose proof (Z.div_mod v 10). lia.
Qed.

Lemma canonical_snoc ds c : canonical (ds ++ [c]) -> ds <> [] -> canonical ds /\ 0 < dval 0 ds.
Proof.
  intros [Hd (d & ds' & E & Hc)] Hne. destruct ds as [|d' ds]; [done|].
  simpl in E. injection E as -> <-. destruct Hc as [Hc|Hc]; [|by destruct ds].
  apply Forall_app in Hd as [Hd _].
  assert (canonical (d :: ds)) as Hcan by (split; eauto).
  split; [done|]. destruct (canonical_ge _ Hcan) as [[_ [= -> _]]|Hge]; [lia|].
  rewrite zlen_cons in Hge. pose proof (zlen_nonneg ds).
  assert (0 < 10 ^ (1 + zlen ds - 1)) by (apply Z.pow_pos_nonneg; lia). lia.
Qed.

(** The digit loop prints a canonical digit string from its value. *)
Lemma digits_loop_canonical ds room acc :
  canonical ds -> (length ds <= room)%nat ->
  digits_loop room (dval 0 ds) acc = Some ((room - length ds)%nat, ds ++ acc).
Proof.
  revert room acc. induction ds as [|c ds IH] using rev_ind; intros room acc Hcan Hroom.
  { destruct Hcan as [_ (? & ? & ? & _)]. done. }
  rewrite length_app in Hroom. simpl in Hroom.
  destruct room as [|room]; [lia|]. cbn [digits_loop].
  assert (digit c) as Hc.
  { destruct Hcan as [Hd _]. apply Forall_app in Hd as [_ Hd]. by inversion Hd. }
  unfold digit in Hc. rewrite dval_snoc.
  rewrite Z.add_comm, Z_mod_plus_full, Z.mod_small, Z.div_add, Z.div_small, Z.add_0_l by lia.
  replace (ch_0 + (c - ch_0)) with c by lia. rewrite length_app. simpl.
  destruct (decide (ds = [])) as [->|Hne].
  - simpl. do 2 f_equal. lia.
  - destruct (canonical_snoc _ _ Hcan Hne) as [Hcan' Hpos]. zdec.
    rewrite IH by (auto; lia). rewrite <- (assoc_L (++)). do 2 f_equal. lia.
Qed.

Lemma canonical_length ds : canonical ds -> dval 0 ds < 2 ^ 64 -> (length ds <= 20)%nat.
Proof.
  intros Hcan Hv. destruct (canonical_ge _ Hcan) as [[_ ->]|Hge]; [simpl; lia|].
  assert (10 ^ (zlen ds - 1) < 10 ^ 20) by (eapply Z.le_lt_trans; [exact Hge|]; lia).
  apply Z.pow_lt_mono_r_iff in H; [|lia|lia]. unfold zlen in H. lia.
Qed.

Lemma magnitude_abs v : in_s 64 v -> magnitude v = Z.abs v.
Proof.
  intros H. unfold magnitude, in_s in *. change (2 ^ (64 - 1)) with (2 ^ 63) in H. zcase.
  - destruct (decide (v = - 2 ^ 63)) as [->|Hne]; [done|].
    rewrite swrap_small by (try lia; unfold in_s; change (2 ^ (64 - 1)) with (2 ^ 63); lia).
    rewrite uwrap_small by (unfold in_u; lia). lia.
  - rewrite uwrap_small by (unfold in_u; lia). lia.
Qed.

(** What ll2string prints: the canonical digits of the magnitude, after a minus
    sign when the value is negative.  The 32-byte scratch buffer never underflows. *)
Lemma ll_chars_canonical ds v :
  in_s 64 v -> canonical ds -> dval 0 ds = Z.abs v ->
  ll_chars v = Some (if v <? 0 then ch_minus :: ds else ds).
Proof.
  intros Hv Hcan Hval. unfold ll_chars. rewrite magnitude_abs, <- Hval by done.
  assert (length ds <= 20)%nat as Hlen.
  { apply canonical_length; [done|]. unfold in_s in Hv. lia. }
  rewrite digits_loop_canonical by (auto; lia).
  cbn [mbind option_bind]. rewrite app_nil_r.
  destruct (32 - length ds)%nat eqn:E; [lia|]. by destruct (v <? 0).
Qed.

Lemma ll_chars_spec v :
  in_s 64 v -> exists ds, canonical ds /\ dval 0 ds = Z.abs v /\
    ll_chars v = Some (if v <? 0 then ch_minus :: ds else ds).
Proof.
  intros Hv. destruct (canonical_exists (Z.abs v)) as (ds & Hc & Hd); [lia|].
  eauto using ll_chars_canonical.
Qed.

(** The accumulation loop stops at the first character that is not a digit and
    rejects exactly the values over ULLONG_MAX. *)
Lemma string2ll_loop_digits ds v :
  Forall digit ds -> 0 <= v <= ULLONG_MAX ->
  string2ll_loop ds v =
    if dval v ds <=? ULLONG_MAX then Some ([], dval v ds) else None.
Proof.
  intros Hd. revert v. induction Hd as [|c ds Hc Hd IH]; intros v Hv; cbn [string2ll_loop].
  - change (dval v []) with v. zdec. done.
  - unfold digit in Hc. zdec.
    change (dval v (c :: ds)) with (dval (v * 10 + (c - ch_0)) ds).
    assert (0 <= v * 10 + (c - ch_0)) as Hnn by lia.
    pose proof (dval_ge _ ds Hd Hnn) as Hge.
    assert (1 <= 10 ^ zlen ds) by (pose proof (zlen_nonneg ds);
      assert (0 < 10 ^ zlen ds) by (apply Z.pow_pos_nonneg; lia); lia).
    assert (v * 10 + (c - ch_0) <= dval (v * 10 + (c - ch_0)) ds) by nia.
    assert (ULLONG_MAX / 10 = 1844674407370955161) as -> by reflexivity.
    assert (ULLONG_MAX = 18446744073709551615) as EM by reflexivity. rewrite EM in *.
    destruct (Z.ltb_spec 1844674407370955161 v).
    { zdec. done. }
    destruct (Z.ltb_spec (18446744073709551615 - (c - ch_0)) (v * 10)).
    { zdec. done. }
    apply IH. lia.
Qed.

Lemma string2ll_loop_all p v v' :
  string2ll_loop p v = Some ([], v') -> Forall digit p.
Proof.
  revert v. induction p as [|c p IH]; intros v; cbn [string2ll_loop]; [constructor|].
  destruct (_ && _) eqn:E; [|done].
  repeat (zcase; [done|]). intros H1. constructor; [unfold digit; bool_to_prop; lia|eauto].
Qed.

Lemma string2ll_body_accepts neg n d ds :
  canonical (d :: ds) -> ch_1 <= d -> dval 0 (d :: ds) <= 2 ^ 63 - Z.b2z (negb neg) ->
  string2ll_body neg n (d :: ds) = Some (if neg then - dval 0 (d :: ds) else dval 0 (d :: ds)).
Proof.
  intros [Hd _] Hd1 Hv. inversion Hd as [|? ? H0 Hd']; subst. unfold digit in H0.
  unfold string2ll_body. zdec. pose proof (zlen_nonneg ds) as Hz.
  assert (dval 0 (d :: ds) = dval (d - ch_0) ds) as E by (unfold dval; simpl; f_equal; lia).
  rewrite E in *.
  assert (0 < dval (d - ch_0) ds) as Hpos.
  { pose proof (dval_ge (d - ch_0) ds Hd' ltac:(lia)).
    assert (0 < 10 ^ zlen ds) by (apply Z.pow_pos_nonneg; lia). nia. }
  rewrite string2ll_loop_digits by (auto; unfold ULLONG_MAX; lia).
  assert (dval (d - ch_0) ds <= ULLONG_MAX) as Hu by (unfold ULLONG_MAX; destruct neg; simpl Z.b2z in Hv; lia).
  apply Z.leb_le in Hu. rewrite Hu. cbn [mbind option_bind].
  destruct neg; simpl Z.b2z in Hv; unfold LLONG_MIN, LLONG_MAX; zdec; [|done]. f_equal.
  apply swrap_of_unsigned; [lia|]. unfold in_s. change (2 ^ (64 - 1)) with (2 ^ 63). lia.
Qed.

Lemma string2ll_body_inv neg n p v :
  string2ll_body neg n p = Some v ->
  (n = 1 /\ v = 0 /\ exists p', p = ch_0 :: p') \/
  canonical p /\ in_s 64 v /\ dval 0 p = Z.abs v /\ (v <? 0) = neg.
Proof.
  unfold string2ll_body. destruct p as [|c p']; [done|].
  destruct ((ch_1 <=? c) && (c <=? ch_9)) eqn:E; cycle 1.
  { destruct ((c =? ch_0) && (n =? 1)) eqn:E'; [|done]. bool_to_prop. subst. intros [= <-]. eauto. }
  bool_to_prop. destruct (string2ll_loop _ _) as [[rest u]|] eqn:EL; [|done].
  cbn [mbind option_bind]. destruct rest; [|done]. intros Hv. right.
  pose proof (string2ll_loop_all _ _ _ EL) as Hd.
  rewrite string2ll_loop_digits in EL by (auto; unfold ULLONG_MAX; lia).
  destruct (_ <=? _) eqn:EU; [|done]. injection EL as <-. bool_to_prop.
  assert (dval (c - ch_0) p' = dval 0 (c :: p')) as E' by (unfold dval; simpl; f_equal; lia).
  assert (0 < dval (c - ch_0) p') as Hpos.
  { pose proof (dval_ge (c - ch_0) p' Hd ltac:(lia)). pose proof (zlen_nonneg p').
    assert (0 < 10 ^ zlen p') by (apply Z.pow_pos_nonneg; lia). nia. }
  assert (canonical (c :: p')) as Hcan.
  { split; [constructor; [unfold digit; lia|done]|]. eauto. }
  rewrite E' in *. unfold in_s. change (2 ^ (64 - 1)) with (2 ^ 63).
  unfold LLONG_MIN, LLONG_MAX in Hv. clear E'.
  remember (dval 0 (c :: p')) as u eqn:Eu. clear Eu. destruct neg.
  - destruct (_ <? _) eqn:EO in Hv; [done|]. bool_to_prop. injection Hv as <-.
    rewrite swrap_of_unsigned
      by (try lia; unfold in_s; change (2 ^ (64 - 1)) with (2 ^ 63); lia).
    split_and!; try done; lia.
  - destruct (_ <? _) eqn:EO in Hv; [done|]. bool_to_prop. injection Hv as <-.
    split_and!; try done; lia.
Qed.

End NumFacts.

Import Num NumFacts.

Lemma string2ll_iff s v :
  string2ll s = Some v <-> in_s 64 v /\ ll_chars v = Some s.
Proof.
  split.
  - destruct s as [|c p']; [done|]. unfold string2ll.
    destruct ((zlen (c :: p') =? 1) && (c =? ch_0)) eqn:E0.
    { bool_to_prop. subst c. intros [= <-]. rewrite zlen_cons in *.
      rewrite (zlen_0_inv p') by lia. split; [by split|done]. }
    destruct (c =? ch_minus) eqn:Em; bool_to_prop.
    + subst c. destruct p' as [|c p']; [done|]. intros Hv.
      apply string2ll_body_inv in Hv as [(Hn & _)|(Hcan & Hin & Habs & Hs)].
      { exfalso. zlia. }
      split; [done|]. rewrite (ll_chars_canonical (c :: p')) by done. by rewrite Hs.
    + intros Hv. apply string2ll_body_inv in Hv as [(Hn & Hv0 & q & Eq)|(Hcan & Hin & Habs & Hs)].
      { injection Eq as -> ->. destruct E0; bool_to_prop; [lia|done]. }
      split; [done|]. rewrite (ll_chars_canonical (c :: p')) by done. by rewrite Hs.
  - intros [Hin Hp]. destruct (ll_chars_spec v Hin) as (ds & Hcan & Habs & E).
    rewrite E in Hp. injection Hp as <-. pose proof Hin as Hin'.
    unfold in_s in Hin'. change (2 ^ (64 - 1)) with (2 ^ 63) in Hin'.
    pose proof Hcan as [Hd (d & ds' & -> & Hc)].
    inversion Hd as [|? ? H0 Hd']; subst. unfold digit in H0.
    destruct (decide (d = ch_0)) as [->|Hne].
    + destruct Hc as [| ->]; [lia|]. cbn in Habs. by replace v with 0 by lia.
    + destruct (Z.ltb_spec v 0) as [Hneg|Hpos]; unfold string2ll; rewrite !zlen_cons.
      * pose proof (zlen_nonneg ds'). zdec.
        rewrite string2ll_body_accepts by (auto; simpl Z.b2z; lia). f_equal. lia.
      * pose proof (zlen_nonneg ds').
        replace (d =? ch_0) with false by (symmetry; apply Z.eqb_neq; lia).
        rewrite andb_false_r. zdec.
        rewrite string2ll_body_accepts by (auto; simpl Z.b2z; lia). f_equal. lia.
Qed.

(** C37. string2ll accepts exactly the canonical decimal representations of the
    64-bit integers: it returns [v] on [s] if and only if [v] fits in a long long
    and [s] is the text ll2string prints for [v].  So every overflow, leading
    zero, stray sign or trailing character is rejected, and the two functions
    are inverse to each other. *)
Theorem string2ll_iff_printed s v :
  string2ll s = Some v <-> in_s 64 v /\ ll_chars v = Some s.
Proof. apply string2ll_iff. Qed.

Lemma ll2string_ok s len v :
  in_s 64 v -> 0 < len <= zlen s ->
  exists p l, ll_chars v = Some p /\ l = Z.min (zlen p) (len - 1) /\
    ll2string s len v =
      Some (take (Z.to_nat l) p ++ 0 :: drop (Z.to_nat (l + 1)) s, l).
Proof.
  intros Hv Hlen. destruct (ll_chars_spec v Hv) as (ds & _ & _ & E).
  set (p := if v <? 0 then ch_minus :: ds else ds) in *.
  exists p, (Z.min (zlen p) (len - 1)). split_and!; [done|done|].
  unfold ll2string. zdec. rewrite E. cbn [mbind option_bind].
  replace (if len <? zlen p + 1 then len - 1 else zlen p) with (Z.min (zlen p) (len - 1))
    by (zcase; lia).
  set (l := Z.min (zlen p) (len - 1)). pose proof (zlen_nonneg p).
  destruct (split_at p l ltac:(lia)) as (p1 & p2 & -> & Hp1 & Hp2).
  change (p1 ++ p2) with ([] ++ p1 ++ p2). rewrite rdn_app_mid by (zlia || done).
  cbn [mbind option_bind].
  destruct (split_at s l ltac:(lia)) as (s1 & s2 & -> & Hs1 & Hs2).
  rewrite zlen_app in *. destruct s2 as [|x s2]; [zlia|].
  change (s1 ++ x :: s2) with ([] ++ s1 ++ x :: s2).
  rewrite wrn_app_mid by (zlia || done). cbn [mbind option_bind].
  change ([] ++ p1 ++ x :: s2) with (p1 ++ x :: s2).
  rewrite wr_app_mid by lia. cbn [mbind option_bind]. do 3 f_equal.
  - unfold zlen in Hp1. rewrite app_nil_l, take_app_length' by lia. done.
  - f_equal. rewrite app_nil_l. change (s1 ++ x :: s2) with (s1 ++ [x] ++ s2).
    rewrite (assoc_L (++)), drop_app_length' by (rewrite length_app; simpl; unfold zlen in *; lia).
    done.
Qed.

(** ll2string never writes outside its scratch buffer nor outside [s] when
    [len] does not exceed the room in [s]: it stores as many leading characters of
    the decimal text as fit together with a terminating NUL, leaves the rest of
    [s] alone and returns their number. *)
Theorem ll2string_truncates s len v :
  in_s 64 v -> 0 < len <= zlen s ->
  exists p l, ll_chars v = Some p /\ l = Z.min (zlen p) (len - 1) /\
    ll2string s len v =
      Some (take (Z.to_nat l) p ++ 0 :: drop (Z.to_nat (l + 1)) s, l).
Proof. apply ll2string_ok. Qed.

(** ** Specification: glob patterns as token lists *)

Module GlobSpec.

(** An element of a character class.  An escaped character matches exactly;
    ranges and plain characters follow [nocase]. *)
Inductive item :=
  | IExact (c : Z)
  | IRange (a b : Z)
  | IChar (c : Z).

Inductive tok :=
  | TStar
  | TAny
  | TClass (neg : bool) (items : list item)
  | TLit (c : Z).

(** The items of a class and the pattern after it.  A class that is not closed
    extends to the end of the pattern; one that ends in a lone backslash is
    malformed. *)
Fixpoint class_items (p : list Z) : option (list item * list Z) :=
  match p with
  | [] => Some ([], [])
  | c0 :: p1 =>
      if c0 =? ch_bslash then
        match p1 with
        | [] => None
        | c :: p2 => '(its, r) ← class_items p2; Some (IExact c :: its, r)
        end
      else if c0 =? ch_rbrack then Some ([], p1)
      else
        match p1 with
        | c1 :: c2 :: p3 =>
            if c1 =? ch_minus
            then '(its, r) ← class_items p3; Some (IRange c0 c2 :: its, r)
            else '(its, r) ← class_items p1; Some (IChar c0 :: its, r)
        | _ => '(its, r) ← class_items p1; Some (IChar c0 :: its, r)
        end
  end.

Definition class_tok (p : list Z) : option (tok * list Z) :=
  match p with
  | c :: p' =>
      if c =? ch_caret
      then '(its, r) ← class_items p'; Some (TClass true its, r)
      else '(its, r) ← class_items p; Some (TClass false its, r)
  | [] => Some (TClass false [], [])
  end.

(** One token and the pattern after it. *)
Definition next_tok (p : list Z) : option (tok * list Z) :=
  match p with
  | [] => None
  | c :: p' =>
      if c =? ch_star then Some (TStar, p')
      else if c =? ch_qmark then Some (TAny, p')
      else if c =? ch_lbrack then class_tok p'
      else if c =? ch_bslash then
        match p' with
        | c' :: p'' => Some (TLit c', p'')
        | [] => Some (TLit c, [])
        end
      else Some (TLit c, p')
  end.

(** The tokens of a pattern; [length p] is enough fuel. *)
Fixpoint tokens (fuel : nat) (p : list Z) : option (list tok) :=
  match p, fuel with
  | [], _ => Some []
  | _ :: _, O => None
  | _ :: _, S f => '(t, r) ← next_tok p; ts ← tokens f r; Some (t :: ts)
  end.

Definition lit_ok (nocase : bool) (a c : Z) : bool :=
  if nocase then tolower (schar a) =? tolower (schar c) else a =? c.

Definition item_ok (nocase : bool) (c : Z) (it : item) : bool :=
  match it with
  | IExact a => a =? c
  | IChar a => lit_ok nocase a c
  | IRange a b =>
      let fold z := if nocase then tolower z else z in
      (fold (Z.min (schar a) (schar b)) <=? fold (schar c)) &&
      (fold (schar c) <=? fold (Z.max (schar a) (schar b)))
  end.

(** The language of a token list. *)
Inductive gmatch (nocase : bool) : list tok -> list Z -> Prop :=
  | gm_nil : gmatch nocase [] []
  | gm_star_stop ts s : gmatch nocase ts s -> gmatch nocase (TStar :: ts) s
  | gm_star_eat ts c s : gmatch nocase (TStar :: ts) s -> gmatch nocase (TStar :: ts) (c :: s)
  | gm_any ts c s : gmatch nocase ts s -> gmatch nocase (TAny :: ts) (c :: s)
  | gm_lit a ts c s :
      lit_ok nocase a c = true -> gmatch nocase ts s -> gmatch nocase (TLit a :: ts) (c :: s)
  | gm_class neg its ts c s :
      existsb (item_ok nocase c) its = negb neg ->
      gmatch nocase ts s -> gmatch nocase (TClass neg its :: ts) (c :: s).

(** *** Facts about the specification *)

Lemma gmatch_star nc ts s :
  gmatch nc (TStar :: ts) s <-> exists s1 s2, s = s1 ++ s2 /\ gmatch nc ts s2.
Proof.
  split.
  - intros H. remember (TStar :: ts) as l eqn:E.
    induction H as [|? ? H _|? c s H IH| | |]; simplify_eq.
    + exists [], s. done.
    + destruct IH as (s1 & s2 & -> & Hm); [done|]. exists (c :: s1), s2. done.
  - intros (s1 & s2 & -> & Hm). induction s1; simpl; constructor; done.
Qed.

Lemma gmatch_star_star nc ts s :
  gmatch nc (TStar :: TStar :: ts) s <-> gmatch nc (TStar :: ts) s.
Proof.
  rewrite gmatch_star. split.
  - intros (s1 & s2 & -> & H). rewrite gmatch_star in *.
    destruct H as (s3 & s4 & -> & H). exists (s1 ++ s3), s4. by rewrite (assoc_L (++)).
  - intros H. exists [], s. done.
Qed.

Lemma gmatch_nil_iff nc ts : gmatch nc ts [] <-> Forall (TStar =.) ts.
Proof.
  induction ts as [|t ts IH]; [split; constructor|].
  rewrite Forall_cons, <- IH. split.
  - intros H. inversion H; subst; auto.
  - intros [<- H]. by constructor.
Qed.

Lemma tokens_S n c p :
  tokens (S n) (c :: p) = ('(t, r) ← next_tok (c :: p); ts ← tokens n r; Some (t :: ts)).
Proof. done. Qed.

(** Only stars give a token list that matches the empty string. *)
Lemma next_tok_star_inv c p r : next_tok (c :: p) = Some (TStar, r) -> c = ch_star /\ r = p.
Proof.
  unfold next_tok. destruct (c =? ch_star) eqn:E; bool_to_prop; [naive_solver|].
  destruct (c =? ch_qmark); [done|]. destruct (c =? ch_lbrack).
  - unfold class_tok. destruct p as [|c' p]; [done|].
    destruct (_ =? _); [destruct (class_items p) as [[]|]|destruct (class_items (c' :: p)) as [[]|]]; done.
  - destruct (c =? ch_bslash); [|done]. by destruct p.
Qed.

Lemma next_tok_star p : next_tok (ch_star :: p) = Some (TStar, p).
Proof. done. Qed.

Lemma tokens_stars n p ts :
  tokens n p = Some ts -> (Forall (TStar =.) ts <-> Forall (ch_star =.) p).
Proof.
  revert p ts. induction n as [|n IH]; intros [|c p] ts.
  - intros [= <-]. split; constructor.
  - done.
  - intros [= <-]. split; constructor.
  - rewrite tokens_S. destruct (next_tok (c :: p)) as [[t r]|] eqn:Et; [|done].
    cbn [mbind option_bind]. destruct (tokens n r) as [ts'|] eqn:Er; [|done].
    intros [= <-]. rewrite !Forall_cons. split.
    + intros [<- H]. apply next_tok_star_inv in Et as [-> ->].
      split; [done|]. by apply (IH p ts').
    + intros [<- H]. rewrite next_tok_star in Et. injection Et as <- <-.
      split; [done|]. by apply (IH p ts').
Qed.

(** Removing the stars after a star keeps the language. *)
Lemma tokens_skip n q k ts nc :
  tokens n (replicate k ch_star ++ q) = Some ts ->
  exists ts', tokens n q = Some ts' /\
    forall s, gmatch nc (TStar :: ts) s <-> gmatch nc (TStar :: ts') s.
Proof.
  revert n ts. induction k as [|k IH]; intros n ts; simpl; [naive_solver|].
  destruct n as [|n]; [done|]. rewrite tokens_S, next_tok_star. cbn [mbind option_bind].
  destruct (tokens n _) as [ts1|] eqn:E; [|done]. intros [= <-].
  destruct (IH _ _ E) as (ts' & Hq & Hs). exists ts'. split.
  - clear -Hq. revert q ts' Hq. induction n as [|n IHn]; intros [|c q] ts' Hq; try done.
    rewrite tokens_S in *. destruct (next_tok (c :: q)) as [[t r]|]; [|done].
    cbn [mbind option_bind] in *. destruct (tokens n r) as [ts1|] eqn:E; [|done].
    by rewrite (IHn _ _ E).
  - intros s. by rewrite gmatch_star_star.
Qed.

End GlobSpec.

(** ** Proofs: glob matching *)

Module GlobFacts.
Import Glob GlobSpec.

(** [q] is what is left of the buffer [b] from position [i] on. *)
Definition at_ (b : list Z) (i : Z) (q : list Z) : Prop := 0 <= i /\ drop (Z.to_nat i) b = q.

Lemma at_rd b i c q : at_ b i (c :: q) -> rd b i = Some c.
Proof.
  intros [Hi H]. unfold rd. zdec. rewrite <- (Nat.add_0_r (Z.to_nat i)), <- lookup_drop.
  by rewrite H.
Qed.

Lemma at_next b i c q : at_ b i (c :: q) -> at_ b (i + 1) q.
Proof.
  intros [Hi H]. split; [lia|]. rewrite Z2Nat.inj_add by lia.
  rewrite <- drop_drop, H. done.
Qed.

Lemma at_next_nul b i c q : at_ b i ((c :: q) ++ [0]) -> at_ b (i + 1) (q ++ [0]).
Proof. apply at_next. Qed.

Lemma at_start b : at_ b 0 b.
Proof. split; [lia|]. done. Qed.

Lemma at_app b i k q : at_ b i (k ++ q) -> at_ b (i + zlen k) q.
Proof.
  revert i. induction k as [|c k IH]; intros i H.
  - by rewrite zlen_nil, Z.add_0_r.
  - rewrite zlen_cons, Z.add_assoc. apply IH. eapply at_next. exact H.
Qed.

(** A pattern or string always has at least its NUL terminator to read. *)
Lemma at_rd_nul b i p :
  at_ b i (p ++ [0]) -> rd b i = Some (match p with [] => 0 | c :: _ => c end).
Proof. destruct p; simpl; apply at_rd. Qed.

Lemma range_ok_code nc a b c :
  (let start := schar a in let end_ := schar b in let x := schar c in
   let '(start, end_) := if end_ <? start then (end_, start) else (start, end_) in
   let '(start, end_, x) :=
     if nc : bool then (tolower start, tolower end_, tolower x) else (start, end_, x) in
   (start <=? x) && (x <=? end_)) = item_ok nc c (IRange a b).
Proof.
  simpl. destruct (Z.ltb_spec (schar b) (schar a)).
  - rewrite (Z.min_r (schar a)), (Z.max_l (schar a)) by lia. by destruct nc.
  - rewrite (Z.min_l (schar a)), (Z.max_r (schar a)) by lia. by destruct nc.
Qed.

Lemma if_or (a m : bool) : (if a then true else m) = m || a.
Proof. by destruct a, m. Qed.

(** The class loop on a well-formed class: it stops on the last character of the
    class, having compared the current character with every item. *)
Lemma class_loop_spec nc str si s0 fuel :
  rd str si = Some s0 ->
  forall pat pi p m its r,
  at_ pat pi (p ++ [0]) -> class_items p = Some (its, r) -> (length p < fuel)%nat ->
  at_ pat (pi + zlen p - zlen r) (r ++ [0]) /\ zlen r <= zlen p /\
  class_loop fuel pat pi (zlen p) str si nc m =
    Some (pi + zlen p - zlen r - 1, zlen r + 1, m || existsb (item_ok nc s0) its).
Proof.
  intros Hs. induction fuel as [|f IH]; [lia|]. intros pat pi p m its r Hat Hits Hf.
  cbn [class_loop]. rewrite (at_rd_nul _ _ _ Hat). cbn [mbind option_bind].
  destruct p as [|c0 p1].
  { injection Hits as <- <-. zlen_simpl. simpl. zdec. rewrite orb_false_r.
    rewrite Z.add_0_r, Z.sub_0_r. done. }
  simpl in Hf. pose proof (at_next_nul _ _ _ _ Hat) as Hat1. cbn [class_items] in Hits.
  destruct (c0 =? ch_bslash) eqn:Eb.
  { destruct p1 as [|c p2]; [done|]. rewrite (at_rd_nul _ _ _ Hat1). cbn [mbind option_bind].
    pose proof (at_next_nul _ _ _ _ Hat1) as Hat2.
    rewrite Hs. cbn [mbind option_bind].
    destruct (class_items p2) as [[its2 r2]|] eqn:E2; [|done]. injection Hits as <- <-.
    replace (pi + 1 + 1) with (pi + 2) in Hat2 by lia.
    destruct (IH _ _ _ (if c =? s0 then true else m) _ _ Hat2 E2) as (Ha & Hl & Hc);
      [simpl in *; lia|].
    rewrite !zlen_cons. replace (1 + (1 + zlen p2) - 2) with (zlen p2) by lia.
    rewrite Hc, if_or, <- orb_assoc.
    replace (pi + (1 + (1 + zlen p2)) - zlen r2) with (pi + 2 + zlen p2 - zlen r2) by lia.
    split_and!; [done|lia|done]. }
  destruct (c0 =? ch_rbrack) eqn:Er.
  { injection Hits as <- <-. rewrite zlen_cons, orb_false_r. split_and!; [|lia|].
    - by replace (pi + (1 + zlen p1) - zlen p1) with (pi + 1) by lia.
    - do 3 f_equal; lia. }
  rewrite zlen_cons. pose proof (zlen_nonneg p1). zdec.
  rewrite (at_rd_nul _ _ _ Hat1). cbn [mbind option_bind].
  assert (forall m its r,
    class_items p1 = Some (its, r) ->
    at_ pat (pi + (1 + zlen p1) - zlen r) (r ++ [0]) /\ zlen r <= 1 + zlen p1 /\
    class_loop f pat (pi + 1) (1 + zlen p1 - 1) str si nc (if lit_ok nc c0 s0 then true else m) =
      Some (pi + (1 + zlen p1) - zlen r - 1, zlen r + 1,
            m || existsb (item_ok nc s0) (IChar c0 :: its))) as Hchar.
  { intros m' its' r' E'. replace (1 + zlen p1 - 1) with (zlen p1) by lia.
    destruct (IH _ _ _ (if lit_ok nc c0 s0 then true else m') _ _ Hat1 E') as (Ha & Hl & Hc); [lia|].
    rewrite Hc, if_or, <- orb_assoc.
    replace (pi + (1 + zlen p1) - zlen r') with (pi + 1 + zlen p1 - zlen r') by lia.
    split_and!; [done|lia|done]. }
  assert ((if negb nc then if c0 =? s0 then true else m
           else if tolower (schar c0) =? tolower (schar s0) then true else m)
          = (if lit_ok nc c0 s0 then true else m)) as Elit by (unfold lit_ok; by destruct nc).
  destruct p1 as [|c1 [|c2 p3]].
  - replace ((0 =? ch_minus) && (3 <=? 1 + zlen (@nil Z))) with false by done.
    rewrite Hs. cbn [mbind option_bind]. rewrite Elit.
    destruct (class_items []) as [[its1 r1]|] eqn:E1; [|done]. injection Hits as <- <-.
    by apply Hchar.
  - replace ((c1 =? ch_minus) && (3 <=? 1 + zlen [c1])) with false
      by (symmetry; apply andb_false_r).
    rewrite Hs. cbn [mbind option_bind]. rewrite Elit.
    destruct (class_items [c1]) as [[its1 r1]|] eqn:E1; [|done]. injection Hits as <- <-.
    by apply Hchar.
  - assert ((3 <=? 1 + zlen (c1 :: c2 :: p3)) = true) as E3
      by (rewrite !zlen_cons; pose proof (zlen_nonneg p3); apply Z.leb_le; lia).
    rewrite E3, andb_true_r. destruct (c1 =? ch_minus) eqn:Em.
    + pose proof (at_next_nul _ _ _ _ Hat1) as Hat2.
      replace (pi + 1 + 1) with (pi + 2) in Hat2 by lia.
      rewrite (at_rd_nul _ _ _ Hat2), Hs. cbn [mbind option_bind].
      pose proof (at_next_nul _ _ _ _ Hat2) as Hat3.
      replace (pi + 2 + 1) with (pi + 3) in Hat3 by lia.
      destruct (class_items p3) as [[its3 r3]|] eqn:E4; [|done]. injection Hits as <- <-.
      pose proof (range_ok_code nc c0 c2 s0) as Hr. cbv zeta in Hr.
      rewrite !zlen_cons. simpl in Hf.
      destruct (IH _ _ _ (m || item_ok nc s0 (IRange c0 c2)) _ _ Hat3 E4) as (Ha & Hl & Hc);
        [lia|].
      replace (1 + (1 + (1 + zlen p3)) - 3) with (zlen p3) by lia.
      replace (pi + (1 + (1 + (1 + zlen p3))) - zlen r3) with (pi + 3 + zlen p3 - zlen r3) by lia.
      split_and!; [done|lia|]. cbn [existsb]. rewrite orb_assoc, <- Hc, <- Hr, <- if_or.
      by destruct (schar c2 <? schar c0), nc.
    + rewrite Hs. cbn [mbind option_bind]. rewrite Elit.
      destruct (class_items (c1 :: c2 :: p3)) as [[its1 r1]|] eqn:E1; [|done].
      injection Hits as <- <-. by apply Hchar.
Qed.

Lemma count_stars (p : list Z) :
  exists k q, p = replicate k ch_star ++ q /\ (forall c q', q = c :: q' -> c <> ch_star).
Proof.
  induction p as [|c p (k & q & -> & Hq)]; [by exists O, []|].
  destruct (decide (c = ch_star)) as [->|Hne].
  - exists (S k), q. done.
  - exists O, (c :: replicate k ch_star ++ q). naive_solver.
Qed.

Lemma nul_head_not_star (q : list Z) :
  (forall c q', q = c :: q' -> c <> ch_star) ->
  (match q with [] => 0 | c :: _ => c end =? ch_star) = false.
Proof. intros H. apply Z.eqb_neq. destruct q; [done|eauto]. Qed.

Lemma trail_stars_spec fuel pat pi k q :
  at_ pat pi ((replicate k ch_star ++ q) ++ [0]) ->
  (forall c q', q = c :: q' -> c <> ch_star) -> (k < fuel)%nat ->
  trail_stars fuel pat pi (zlen (replicate k ch_star ++ q)) = Some (pi + Z.of_nat k, zlen q).
Proof.
  intros Hat Hq. revert fuel pi Hat. induction k as [|k IH]; intros fuel pi Hat Hf;
    (destruct fuel as [|f]; [lia|]); cbn [trail_stars]; rewrite (at_rd_nul _ _ _ Hat);
    cbn [mbind option_bind replicate app].
  - rewrite nul_head_not_star by done. do 2 f_equal. lia.
  - zdec. simpl in Hat. apply at_next in Hat. rewrite zlen_cons.
    replace (1 + zlen (replicate k ch_star ++ q) - 1) with (zlen (replicate k ch_star ++ q)) by lia.
    rewrite (IH f _ Hat) by lia. do 2 f_equal. lia.
Qed.

Lemma skip_stars_spec fuel pat pi k q :
  at_ pat pi (ch_star :: (replicate k ch_star ++ q) ++ [0]) ->
  (forall c q', q = c :: q' -> c <> ch_star) -> (k < fuel)%nat ->
  skip_stars fuel pat pi (1 + zlen (replicate k ch_star ++ q)) = Some (pi + Z.of_nat k, 1 + zlen q).
Proof.
  intros Hat Hq. revert fuel pi Hat. induction k as [|k IH]; intros fuel pi Hat Hf;
    (destruct fuel as [|f]; [lia|]); pose proof (at_next _ _ _ _ Hat) as Hat1;
    cbn [skip_stars]; rewrite (at_rd_nul _ _ _ Hat1); cbn [mbind option_bind replicate app].
  - rewrite nul_head_not_star by done. do 2 f_equal. lia.
  - zdec. rewrite zlen_cons.
    replace (1 + (1 + zlen (replicate k ch_star ++ q)) - 1)
      with (1 + zlen (replicate k ch_star ++ q)) by lia.
    rewrite (IH f _ Hat1) by lia. do 2 f_equal. lia.
Qed.

(** The star loop returns true exactly when the recursive call does on some
    non-empty suffix of the string. *)
Lemma star_loop_spec fuel rec str (P : list Z -> Prop) :
  forall s si,
  at_ str si (s ++ [0]) -> (length s < fuel)%nat ->
  (forall s1 s2, s = s1 ++ s2 -> s2 <> [] ->
     exists b, rec (si + zlen s1) (zlen s2) = Some b /\ (b = true <-> P s2)) ->
  exists b, star_loop fuel rec si (zlen s) = Some b /\
    (b = true <-> exists s1 s2, s = s1 ++ s2 /\ s2 <> [] /\ P s2).
Proof.
  induction fuel as [|f IH]; [lia|]. intros s si Hat Hf Hrec. cbn [star_loop].
  destruct s as [|c s].
  { rewrite zlen_nil. exists false. split; [done|]. split; [done|].
    intros (s1 & s2 & E & Hne & _). symmetry in E. apply app_nil in E as [_ ->]. done. }
  rewrite zlen_cons. pose proof (zlen_nonneg s). zdec.
  destruct (Hrec [] (c :: s)) as (b & Hb & HP); [done|done|].
  rewrite zlen_nil, Z.add_0_r, zlen_cons in Hb. rewrite Hb. cbn [mbind option_bind].
  destruct b.
  { exists true. split; [done|]. split; [|done]. intros _.
    exists [], (c :: s). split_and!; [done|done|by apply HP]. }
  replace (1 + zlen s - 1) with (zlen s) by lia.
  destruct (IH s (si + 1)) as (b' & Hb' & HP').
  { eapply at_next. exact Hat. }
  { simpl in Hf. lia. }
  { intros s1 s2 -> Hne. destruct (Hrec (c :: s1) s2) as (b'' & E & H'); [done|done|].
    rewrite zlen_cons, Z.add_assoc in E. eauto. }
  exists b'. split; [done|]. rewrite HP'. split.
  - intros (s1 & s2 & -> & Hne & H2). exists (c :: s1), s2. done.
  - intros (s1 & s2 & E & Hne & H2). destruct s1 as [|c' s1].
    + simpl in E. subst s2. apply HP in H2. done.
    + injection E as -> ->. eauto.
Qed.

Lemma at_suffix b i s1 s2 : at_ b i ((s1 ++ s2) ++ [0]) -> at_ b (i + zlen s1) (s2 ++ [0]).
Proof. rewrite <- (assoc_L (++)). apply at_app. Qed.

Lemma tokens_nonstar_nil n q ts nc :
  tokens n q = Some ts -> q <> [] -> (forall c q', q = c :: q' -> c <> ch_star) ->
  ~ gmatch nc ts [].
Proof.
  intros Ht Hne Hq. rewrite gmatch_nil_iff, (tokens_stars _ _ _ Ht).
  destruct q as [|c q]; [done|]. rewrite Forall_cons. intros [<- _]. by eapply Hq.
Qed.

Lemma gm_any_iff nc ts c s : gmatch nc (TAny :: ts) (c :: s) <-> true = true /\ gmatch nc ts s.
Proof. split; [by inversion 1|]. intros [_ H]. by constructor. Qed.

Lemma gm_lit_iff nc a ts c s :
  gmatch nc (TLit a :: ts) (c :: s) <-> lit_ok nc a c = true /\ gmatch nc ts s.
Proof. split; [by inversion 1|]. intros [? H]. by constructor. Qed.

Lemma gm_class_iff nc neg its ts c s :
  gmatch nc (TClass neg its :: ts) (c :: s) <->
  (if neg then negb (existsb (item_ok nc c) its) else existsb (item_ok nc c) its) = true /\
  gmatch nc ts s.
Proof.
  split.
  - inversion 1; subst. split; [|done].
    destruct neg, (existsb _ _); done.
  - intros [? ?]. constructor; [|done]. destruct neg, (existsb _ _); done.
Qed.

Lemma lit_code nc a c :
  (if negb nc then a =? c else tolower (schar a) =? tolower (schar c)) = lit_ok nc a c.
Proof. by destruct nc. Qed.

Section Step.
Context (nc : bool) (pat str : list Z) (f : nat).

(** The step shared by every case that consumes one character: the tail of the
    loop body, given the specification of the next iteration. *)
Hypothesis IH : forall p ts s pi si n,
  s <> [] -> at_ pat pi (p ++ [0]) -> at_ str si (s ++ [0]) -> tokens n p = Some ts ->
  (length p + length s + 2 <= f)%nat ->
  exists b, stringmatchlen f pat pi (zlen p) str si (zlen s) nc = Some b /\
    (b = true <-> gmatch nc ts s).

Lemma next_step p ts s pi si n :
  at_ pat pi (p ++ [0]) -> at_ str si (s ++ [0]) -> tokens n p = Some ts ->
  (length p + length s + 2 <= f)%nat ->
  exists b,
    (if zlen s =? 0
     then '(_, pl) ← trail_stars f pat pi (zlen p); Some ((pl =? 0) && (zlen s =? 0))
     else stringmatchlen f pat pi (zlen p) str si (zlen s) nc) = Some b /\
    (b = true <-> gmatch nc ts s).
Proof.
  intros Hp Hs Ht Hf. destruct s as [|c s].
  - rewrite zlen_nil. simpl (0 =? 0). cbv iota.
    destruct (count_stars p) as (k & q & -> & Hq).
    rewrite length_app, length_replicate in Hf.
    rewrite (trail_stars_spec f pat pi k q) by (auto; lia). cbn [mbind option_bind].
    eexists. split; [done|]. rewrite gmatch_nil_iff, (tokens_stars _ _ _ Ht), andb_true_r.
    rewrite Forall_app, Z.eqb_eq. split.
    + intros H%zlen_0_inv. subst q. split; [|done]. by apply Forall_replicate.
    + intros [_ H]. destruct q as [|c q]; [done|]. inversion H; subst. by edestruct Hq.
  - rewrite zlen_cons. pose proof (zlen_nonneg s). zdec. rewrite <- (zlen_cons c).
    by eapply IH.
Qed.

Lemma consume t p ts c s pi si n (ok : bool) :
  at_ pat pi (p ++ [0]) -> at_ str si ((c :: s) ++ [0]) -> tokens n p = Some ts ->
  (length p + length s + 2 <= f)%nat ->
  (gmatch nc (t :: ts) (c :: s) <-> ok = true /\ gmatch nc ts s) ->
  exists b,
    (if ok then
       if zlen s =? 0
       then '(_, pl) ← trail_stars f pat pi (zlen p); Some ((pl =? 0) && (zlen s =? 0))
       else stringmatchlen f pat pi (zlen p) str (si + 1) (zlen s) nc
     else Some false) = Some b /\
    (b = true <-> gmatch nc (t :: ts) (c :: s)).
Proof.
  intros Hp Hs Ht Hf Hok. destruct ok.
  - destruct (next_step p ts s pi (si + 1) n) as (b & Hb & H); try done.
    { by apply at_next_nul in Hs. }
    exists b. split; [exact Hb|]. rewrite H, Hok. tauto.
  - exists false. rewrite Hok. split; [done|]. split; [done|]. by intros [? _].
Qed.

(** A star followed by [k] more stars and then [q]. *)
Lemma star_case k q ts' s0 s pi si n :
  at_ pat pi (ch_star :: (replicate k ch_star ++ q) ++ [0]) -> at_ str si ((s0 :: s) ++ [0]) ->
  (forall c q', q = c :: q' -> c <> ch_star) ->
  tokens n (replicate k ch_star ++ q) = Some ts' ->
  (k + length q + length s + 3 <= f)%nat ->
  exists b,
    ('(pi, pl) ← skip_stars f pat pi (1 + zlen (replicate k ch_star ++ q));
     if pl =? 1 then Some true else
     star_loop f (fun si sl => stringmatchlen f pat (pi + 1) (pl - 1) str si sl nc)
       si (zlen (s0 :: s))) = Some b /\
    (b = true <-> gmatch nc (TStar :: ts') (s0 :: s)).
Proof.
  intros Hp Hstr Hq Er Hf.
  rewrite (skip_stars_spec f pat pi k q) by (auto; lia). cbn [mbind option_bind].
  destruct (tokens_skip n q k ts' nc Er) as (tq & Htq & Hgm). setoid_rewrite Hgm.
  pose proof (zlen_nonneg q). destruct (Z.eqb_spec (1 + zlen q) 1) as [Hq0|Hq0].
  - exists true. split; [done|]. split; [|done]. intros _.
    assert (q = []) as -> by (apply zlen_0_inv; lia). destruct n; injection Htq as <-;
      apply gmatch_star; exists (s0 :: s), []; rewrite app_nil_r; (split; [done|constructor]).
  - assert (at_ pat (pi + Z.of_nat k + 1) (q ++ [0])) as Hqat.
    { apply at_next in Hp. apply at_suffix in Hp. rewrite zlen_replicate in Hp.
      replace (pi + Z.of_nat k + 1) with (pi + 1 + Z.of_nat k) by lia. done. }
    replace (1 + zlen q - 1) with (zlen q) by lia.
    destruct (star_loop_spec f
      (fun si0 sl => stringmatchlen f pat (pi + Z.of_nat k + 1) (zlen q) str si0 sl nc)
      str (gmatch nc tq) (s0 :: s) si) as (b & Hb & HP); [exact Hstr|simpl; lia| |].
    { intros s1 s2 E Hne. apply (IH q tq s2 (pi + Z.of_nat k + 1) (si + zlen s1) n); try done.
      - rewrite E in Hstr. by apply at_suffix.
      - assert (length (s0 :: s) = length s1 + length s2)%nat as EL
          by (rewrite E; apply length_app). simpl in EL. lia. }
    exists b. split; [exact Hb|]. rewrite HP, gmatch_star.
    split; [intros (s1 & s2 & E & _ & H2); eauto|].
    intros (s1 & s2 & E & H2). exists s1, s2. split; [done|]. split; [|done].
    intros ->. eapply tokens_nonstar_nil; [exact Htq| |exact Hq|exact H2].
    intros ->. rewrite zlen_nil in Hq0. lia.
Qed.

(** A literal [a] at [pi], with the rest of the pattern [q] after it. *)
Lemma lit_case a q ts' s0 s pi si n :
  at_ pat pi ((a :: q) ++ [0]) -> at_ str si ((s0 :: s) ++ [0]) -> tokens n q = Some ts' ->
  (length q + length s + 2 <= f)%nat ->
  exists b,
    (if if negb nc then a =? s0 else tolower (schar a) =? tolower (schar s0)
     then if zlen s =? 0
          then '(_, pl) ← trail_stars f pat (pi + 1) (zlen q); Some ((pl =? 0) && (zlen s =? 0))
          else stringmatchlen f pat (pi + 1) (zlen q) str (si + 1) (zlen s) nc
     else Some false) = Some b /\
    (b = true <-> gmatch nc (TLit a :: ts') (s0 :: s)).
Proof.
  intros Ha Hstr Hq Hl. rewrite lit_code.
  apply (consume (TLit a) q ts' s0 s (pi + 1) si n); try done;
    [by apply at_next_nul in Ha|apply gm_lit_iff].
Qed.

(** A class whose items start at [pi]. *)
Lemma class_case neg q its r ts' s0 s pi si n :
  at_ pat pi (q ++ [0]) -> at_ str si ((s0 :: s) ++ [0]) ->
  class_items q = Some (its, r) -> tokens n r = Some ts' ->
  (length q + length s + 2 <= f)%nat ->
  exists b,
    ('(pi, pl, mtch) ← class_loop f pat pi (zlen q) str si nc false;
     if negb (if neg : bool then negb mtch else mtch) then Some false
     else if zlen s =? 0
     then '(_, pl) ← trail_stars f pat (pi + 1) (pl - 1); Some ((pl =? 0) && (zlen s =? 0))
     else stringmatchlen f pat (pi + 1) (pl - 1) str (si + 1) (zlen s) nc) = Some b /\
    (b = true <-> gmatch nc (TClass neg its :: ts') (s0 :: s)).
Proof.
  intros Hq Hstr Hits Hr Hlen.
  destruct (class_loop_spec nc str si s0 f (at_rd_nul _ _ _ Hstr) pat pi q false its r)
    as (Ha & Hl & Hc); [done|done|lia|].
  rewrite Hc. cbn [mbind option_bind]. rewrite if_negb, orb_false_l.
  replace (pi + zlen q - zlen r - 1 + 1) with (pi + zlen q - zlen r) by lia.
  replace (zlen r + 1 - 1) with (zlen r) by lia.
  apply (consume (TClass neg its) r ts' s0 s _ si n); try done.
  - unfold zlen in Hl. lia.
  - apply gm_class_iff.
Qed.

End Step.

Lemma stringmatchlen_correct nc pat str fuel : forall p ts s pi si n,
  s <> [] -> at_ pat pi (p ++ [0]) -> at_ str si (s ++ [0]) -> tokens n p = Some ts ->
  (length p + length s + 2 <= fuel)%nat ->
  exists b, stringmatchlen fuel pat pi (zlen p) str si (zlen s) nc = Some b /\
    (b = true <-> gmatch nc ts s).
Proof.
  induction fuel as [|f IH]; [lia|]. intros p ts s pi si n Hs Hp Hstr Ht Hf.
  destruct s as [|s0 s]; [done|]. clear Hs. pose proof (zlen_nonneg s) as Hzs.
  destruct p as [|c p].
  { exists false. cbn [stringmatchlen]. rewrite zlen_nil, zlen_cons. zdec.
    split; [done|]. destruct n; injection Ht as <-; split; by try inversion 1. }
  destruct n as [|n]; [done|]. rewrite tokens_S in Ht.
  destruct (next_tok (c :: p)) as [[t r]|] eqn:Et; [|done]. cbn [mbind option_bind] in Ht.
  destruct (tokens n r) as [ts'|] eqn:Er; [|done]. injection Ht as <-.
  pose proof (at_next_nul _ _ _ _ Hp) as Hp1. pose proof (zlen_nonneg p) as Hzp.
  cbn [length] in Hf.
  cbn [stringmatchlen]. rewrite (at_rd_nul _ _ _ Hp), (at_rd_nul _ _ _ Hstr), !zlen_cons.
  cbn [mbind option_bind].
  replace (1 + zlen p =? 0) with false by (symmetry; apply Z.eqb_neq; lia).
  replace (1 + zlen p - 1) with (zlen p) by lia.
  replace (1 + zlen s - 1) with (zlen s) by lia.
  replace (1 + zlen s =? 0) with false by (symmetry; apply Z.eqb_neq; lia).
  cbn [next_tok] in Et. destruct (c =? ch_star) eqn:Estar; bool_to_prop.
  { subst c. injection Et as <- <-. destruct (count_stars p) as (k & q & -> & Hq).
    rewrite length_app, length_replicate in Hf.
    rewrite <- (zlen_cons s0). apply (star_case nc pat str f IH k q _ _ _ _ _ n); auto. lia. }
  destruct (c =? ch_qmark) eqn:Eq.
  { injection Et as <- <-.
    apply (consume nc pat str f IH TAny p ts' s0 s (pi + 1) si n true);
      try done; [lia|]. apply gm_any_iff. }
  destruct (c =? ch_lbrack) eqn:El.
  { rewrite (at_rd_nul _ _ _ Hp1). cbn [mbind option_bind].
    destruct p as [|c1 p]; cbn [class_tok] in Et.
    - injection Et as <- <-.
      apply (class_case nc pat str f IH false [] [] [] ts' s0 s (pi + 1) si n); auto. simpl in *. lia.
    - cbn [length] in Hf. destruct (c1 =? ch_caret) eqn:Ec.
      + destruct (class_items p) as [[its r']|] eqn:Ei; [|done]. injection Et as <- <-.
        rewrite zlen_cons. replace (1 + zlen p - 1) with (zlen p) by lia.
        apply (class_case nc pat str f IH true p its r' ts' s0 s (pi + 1 + 1) si n); auto; [|lia].
        by apply at_next_nul in Hp1.
      + destruct (class_items (c1 :: p)) as [[its r']|] eqn:Ei; [|done]. injection Et as <- <-.
        apply (class_case nc pat str f IH false (c1 :: p) its r' ts' s0 s (pi + 1) si n); auto.
        simpl. lia. }
  destruct (c =? ch_bslash) eqn:Eb; cycle 1.
  { injection Et as <- <-. apply (lit_case nc pat str f IH c p _ _ _ _ _ n); auto. lia. }
  bool_to_prop. subst c. destruct p as [|c' p]; injection Et as <- <-.
  - apply (lit_case nc pat str f IH ch_bslash [] _ _ _ _ _ n); auto. simpl in *. lia.
  - rewrite (at_rd_nul _ _ _ Hp1), zlen_cons. pose proof (zlen_nonneg p).
    replace (2 <=? 1 + (1 + zlen p)) with true by (symmetry; apply Z.leb_le; lia).
    replace (1 + zlen p - 1) with (zlen p) by lia.
    apply (lit_case nc pat str f IH c' p _ _ _ _ _ n); auto. simpl in *. lia.
Qed.

End GlobFacts.

Import Glob GlobSpec.

(** C32. On a non-empty string the glob matcher decides the language of its
    pattern: for every pattern that has a token list (every pattern but those
    whose last, unclosed character class ends in a backslash), stringmatchlen
    terminates, reads neither the pattern nor the string outside their
    NUL-terminated buffers, and returns true exactly on the strings of the
    pattern's language, with and without nocase. *)
Theorem stringmatch_decides nocase p s ts :
  s <> [] -> tokens (length p) p = Some ts ->
  exists b, match_sds p s nocase = Some b /\ (b = true <-> gmatch nocase ts s).
Proof.
  intros Hs Ht. unfold match_sds, match_fuel.
  apply (GlobFacts.stringmatchlen_correct nocase _ _ _ p ts s 0 0 (length p));
    auto using GlobFacts.at_start; lia.
Qed.

Lemma stringmatch_decides_witness :
  exists b, match_sds [97; ch_star; ch_lbrack; ch_caret; 98; ch_rbrack] [97; 98; 99] false = Some b /\
    (b = true <-> gmatch false [TLit 97; TStar; TClass true [IChar 98]] [97; 98; 99]).
Proof. apply stringmatch_decides; [discriminate|vm_compute; reflexivity]. Defined.

(** A pattern whose unclosed class ends in a backslash makes the matcher run
    past the end of the pattern: on <<[\>> and the string <<x>> no amount of fuel
    gives a result, because patternLen steps over zero and the next read of the
    pattern is beyond its NUL terminator. *)
Theorem class_backslash_overreads fuel nocase :
  stringmatchlen fuel [ch_lbrack; ch_bslash; 0] 0 2 [120; 0] 0 1 nocase = None.
Proof. destruct fuel as [|[|[|fuel]]]; destruct nocase; reflexivity. Qed.

(** The empty string is matched by some patterns whose language it is not in:
    a negated class consumes the terminator of an empty string, so <<[^a]*>> matches
    it. *)
Theorem negated_class_matches_empty :
  exists p ts, tokens (length p) p = Some ts /\
    match_sds p [] false = Some true /\ ~ gmatch false ts [].
Proof.
  exists [ch_lbrack; ch_caret; 97; ch_rbrack; ch_star], [TClass true [IChar 97]; TStar].
  split_and!; [reflexivity|reflexivity|]. inversion 1.
Qed.

Lemma ll2string_truncates_witness :
  exists p l, ll_chars (-1234) = Some p /\ l = Z.min (zlen p) (4 - 1) /\
    ll2string [1; 2; 3; 4; 5] 4 (-1234) =
      Some (take (Z.to_nat l) p ++ 0 :: drop (Z.to_nat (l + 1)) [1; 2; 3; 4; 5], l).
Proof.
  apply (ll2string_truncates [1; 2; 3; 4; 5] 4 (-1234)); [|vm_compute; done].
  unfold in_s. simpl. lia.
Defined.
