(* ===== verification/Lzf.v ===== *)
(** * lzf_c.c and lzf_d.c: the LZF compressor and decompressor

    The configuration is the one the sources set for x86-64: HLOG is 16,
    VERY_FAST is on, INIT_HTAB and STRICT_ALIGN are off.  Positions are offsets
    from the start of the input or output buffer.  The hash table starts with
    whatever the stack holds, so its initial contents are an arbitrary argument;
    an entry is the address found there minus the address of the input. *)

From S2P Require Import Prelude.

Module Lzf.

Definition HLOG : Z := 16.
Definition HSIZE : Z := Z.shiftl 1 HLOG.
Definition MAX_LIT : Z := Z.shiftl 1 5.
Definition MAX_OFF : Z := Z.shiftl 1 13.
Definition MAX_REF : Z := Z.shiftl 1 8 + Z.shiftl 1 3.

(** The macros FRST, NEXT and IDX, on 32-bit unsigned values. *)
Definition FRST (p : list Z) (ip : Z) : option Z :=
  p0 ← rd p ip; p1 ← rd p (ip + 1); Some (Z.lor (Z.shiftl p0 8) p1).

Definition NEXT (v : Z) (p : list Z) (ip : Z) : option Z :=
  p2 ← rd p (ip + 2); Some (Z.lor (uwrap 32 (Z.shiftl v 8)) p2).

Definition IDX (h : Z) : Z :=
  Z.land (uwrap 32 (Z.shiftr h (3 * 8 - HLOG) - h * 5)) (HSIZE - 1).

Definition htab_t := Z -> Z.
Definition htab_set (htab : htab_t) (i v : Z) : htab_t := fun j => if j =? i then v else htab j.

(** The sixteen comparisons written out in the source: the length reached and
    whether a mismatch broke out of the loop. *)
Fixpoint unrolled (n : nat) (inb : list Z) (ref ip len : Z) : option (Z * bool) :=
  match n with
  | O => Some (len, false)
  | S n' =>
      let len := len + 1 in
      a ← rd inb (ref + len);
      b ← rd inb (ip + len);
      if negb (a =? b) then Some (len, true) else unrolled n' inb ref ip len
  end.

(** [do len++; while (len < maxlen && ref[len] == ip[len]);] *)
Fixpoint extend (fuel : nat) (inb : list Z) (ref ip len maxlen : Z) : option Z :=
  match fuel with
  | O => None
  | S f =>
      let len := len + 1 in
      if len <? maxlen then
        a ← rd inb (ref + len);
        b ← rd inb (ip + len);
        if a =? b then extend f inb ref ip len maxlen else Some len
      else Some len
  end.

(** The match-length search: lines 179 to 209. *)
Definition match_len (inb : list Z) (ref ip maxlen : Z) : option Z :=
  let len := 2 in
  if 16 <? maxlen then
    '(len, broke) ← unrolled 16 inb ref ip len;
    if (broke : bool) then Some len else extend 265 inb ref ip len maxlen
  else extend 265 inb ref ip len maxlen.

(** The state of the main loop. *)
Record cstate := CState {
  c_out : list Z;
  c_ip : Z;
  c_op : Z;
  c_lit : Z;
  c_hval : Z;
  c_htab : htab_t
}.

(** What one iteration does: go on, leave the loop, or return 0. *)
Inductive cstep :=
  | Continue (st : cstate)
  | Break (st : cstate)
  | Fail (out : list Z).

(** [op[-lit - 1] = lit - 1; op -= !lit;] *)
Definition stop_run (out : list Z) (op lit : Z) : option (list Z * Z) :=
  out ← wr out (op - lit - 1) (uwrap 8 (lit - 1));
  Some (out, if lit =? 0 then op - 1 else op).

(** The match branch: lines 167 to 259.  [off] is the distance minus one. *)
Definition emit_match (inb out : list Z) (in_end out_end ip op lit ref off : Z)
    (htab : htab_t) : option cstep :=
  let maxlen := in_end - ip - 2 in
  let maxlen := if MAX_REF <? maxlen then MAX_REF else maxlen in
  '(out, op) ← stop_run out op lit;
  if out_end <=? op + 3 + 1 then Some (Fail out) else
  len ← match_len inb ref ip maxlen;
  let len := len - 2 in
  let ip := ip + 1 in
  '(out, op) ←
    (if len <? 7 then
       out ← wr out op (uwrap 8 (Z.shiftr off 8 + Z.shiftl len 5));
       Some (out, op + 1)
     else
       out ← wr out op (uwrap 8 (Z.shiftr off 8 + Z.shiftl 7 5));
       out ← wr out (op + 1) (uwrap 8 (len - 7));
       Some (out, op + 2));
  out ← wr out op (uwrap 8 off);
  let op := op + 1 + 1 in
  let ip := ip + (len + 1) in
  if in_end - 2 <=? ip then Some (Break (CState out ip op 0 0 htab)) else
  let ip := ip - 1 - 1 in
  hval ← FRST inb ip;
  hval ← NEXT hval inb ip;
  let htab := htab_set htab (IDX hval) ip in
  let ip := ip + 1 in
  hval ← NEXT hval inb ip;
  let htab := htab_set htab (IDX hval) ip in
  let ip := ip + 1 in
  Some (Continue (CState out ip op 0 hval htab)).

(** The run is closed when it has MAX_LIT bytes: lines 268 to 272 and 283 to 287. *)
Definition close_full_run (out : list Z) (op lit : Z) : option (list Z * Z * Z) :=
  if lit =? MAX_LIT then
    out ← wr out (op - lit - 1) (uwrap 8 (lit - 1));
    Some (out, op + 1, 0)
  else Some (out, op, lit).

(** The literal branch: lines 260 to 273. *)
Definition emit_literal (inb out : list Z) (out_end ip op lit hval : Z) (htab : htab_t)
    : option cstep :=
  if out_end <=? op then Some (Fail out) else
  let lit := lit + 1 in
  c ← rd inb ip;
  out ← wr out op c;
  '(out, op, lit) ← close_full_run out (op + 1) lit;
  Some (Continue (CState out (ip + 1) op lit hval htab)).

(** One iteration of the main loop: lines 146 to 274. *)
Definition compress_step (inb : list Z) (in_end out_end : Z) (st : cstate) : option cstep :=
  let '(CState out ip op lit hval htab) := st in
  hval ← NEXT hval inb ip;
  let hslot := IDX hval in
  let ref := htab hslot in
  let htab := htab_set htab hslot ip in
  let off := uwrap 64 (ip - ref - 1) in
  if (off <? MAX_OFF) && (ip + 4 <? in_end) && (0 <? ref) then
    r0 ← rd inb ref; r1 ← rd inb (ref + 1);
    i0 ← rd inb ip; i1 ← rd inb (ip + 1);
    same ←
      (if (r0 =? i0) && (r1 =? i1)
       then r2 ← rd inb (ref + 2); i2 ← rd inb (ip + 2); Some (r2 =? i2)
       else Some false);
    if (same : bool) then emit_match inb out in_end out_end ip op lit ref off htab
    else emit_literal inb out out_end ip op lit hval htab
  else emit_literal inb out out_end ip op lit hval htab.

(** [while (ip < in_end - 2) ...]: the state at its end, or the buffer when the
    function returned 0. *)
Fixpoint compress_loop (fuel : nat) (inb : list Z) (in_end out_end : Z) (st : cstate)
    : option (cstate + list Z) :=
  if c_ip st <? in_end - 2 then
    match fuel with
    | O => None
    | S f =>
        s ← compress_step inb in_end out_end st;
        match s with
        | Continue st' => compress_loop f inb in_end out_end st'
        | Break st' => Some (inl st')
        | Fail out => Some (inr out)
        end
    end
  else Some (inl st).

(** The bytes left when the main loop ends: lines 279 to 288. *)
Fixpoint tail_loop (fuel : nat) (inb out : list Z) (in_end ip op lit : Z)
    : option (list Z * Z * Z) :=
  if ip <? in_end then
    match fuel with
    | O => None
    | S f =>
        c ← rd inb ip;
        out ← wr out op c;
        '(out, op, lit) ← close_full_run out (op + 1) (lit + 1);
        tail_loop f inb out in_end (ip + 1) op lit
    end
  else Some (out, op, lit).

(** [lzf_compress]: the output buffer and the returned length (0: failure). *)
Definition lzf_compress (htab : htab_t) (inb : list Z) (in_len : Z) (out : list Z)
    (out_len : Z) : option (list Z * Z) :=
  if (in_len =? 0) || (out_len =? 0) then Some (out, 0) else
  let in_end := in_len in
  let out_end := out_len in
  hval ← FRST inb 0;
  r ← compress_loop (Z.to_nat in_len) inb in_end out_end (CState out 0 1 0 hval htab);
  match r with
  | inr out => Some (out, 0)
  | inl (CState out ip op lit _ _) =>
      if out_end <? op + 3 then Some (out, 0) else
      '(out, op, lit) ← tail_loop 4 inb out in_end ip op lit;
      '(out, op) ← stop_run out op lit;
      Some (out, op)
  end.

(** ** The decompressor *)

(** Copy [n] bytes of the input to the output: lines 89 to 91. *)
Fixpoint copy_literals (n : nat) (inb out : list Z) (ip op : Z) : option (list Z) :=
  match n with
  | O => Some out
  | S n' =>
      c ← rd inb ip;
      out ← wr out op c;
      copy_literals n' inb out (ip + 1) (op + 1)
  end.

(** Copy [n] bytes of the output to its end, byte by byte: lines 137 to 142. *)
Fixpoint copy_backref (n : nat) (out : list Z) (ref op : Z) : option (list Z) :=
  match n with
  | O => Some out
  | S n' =>
      c ← rd out ref;
      out ← wr out op c;
      copy_backref n' out (ref + 1) (op + 1)
  end.

(** The result of an iteration of the decompressor: [None] inside stands for the
    returns of 0 with errno set. *)
Definition decompress_step (inb out : list Z) (in_end out_end ip op : Z)
    : option (list Z * option (Z * Z)) :=
  ctrl ← rd inb ip;
  let ip := ip + 1 in
  if ctrl <? Z.shiftl 1 5 then
    let ctrl := ctrl + 1 in
    if out_end <? op + ctrl then Some (out, None) else
    if in_end <? ip + ctrl then Some (out, None) else
    out ← copy_literals (Z.to_nat ctrl) inb out ip op;
    Some (out, Some (ip + ctrl, op + ctrl))
  else
    let len := Z.shiftr ctrl 5 in
    let ref := op - Z.shiftl (Z.land ctrl 31) 8 - 1 in
    if in_end <=? ip then Some (out, None) else
    let tail ip len :=
      b ← rd inb ip;
      let ref := ref - b in
      let ip := ip + 1 in
      if out_end <? op + len + 2 then Some (out, None) else
      if ref <? 0 then Some (out, None) else
      out ← copy_backref (Z.to_nat (len + 2)) out ref op;
      Some (out, Some (ip, op + len + 2)) in
    if len =? 7 then
      b ← rd inb ip;
      if in_end <=? ip + 1 then Some (out, None) else tail (ip + 1) (len + b)
    else tail ip len.

Fixpoint decompress_loop (fuel : nat) (inb out : list Z) (in_end out_end ip op : Z)
    : option (list Z * Z) :=
  match fuel with
  | O => None
  | S f =>
      '(out, next) ← decompress_step inb out in_end out_end ip op;
      match next with
      | None => Some (out, 0)
      | Some (ip, op) =>
          if ip <? in_end then decompress_loop f inb out in_end out_end ip op
          else Some (out, op)
      end
  end.

(** [lzf_decompress]: the output buffer and the returned length (0: error). *)
Definition lzf_decompress (inb : list Z) (in_len : Z) (out : list Z) (out_len : Z)
    : option (list Z * Z) :=
  decompress_loop (Z.to_nat in_len) inb out in_len out_len 0 0.

End Lzf.

(** ** Specification: the compressed stream as instructions *)

Module LzfSpec.

(** A literal run, or a copy of [len] bytes from [off + 1] bytes back. *)
Inductive instr :=
  | Lit (bs : list Z)
  | Ref (off len : Z).

Definition valid (i : instr) (n : Z) : Prop :=
  match i with
  | Lit bs => 1 <= zlen bs <= 32
  | Ref off len => 0 <= off < 8192 /\ off < n /\ 3 <= len <= 264
  end.

Definition enc1 (i : instr) : list Z :=
  match i with
  | Lit bs => zlen bs - 1 :: bs
  | Ref off len =>
      if len - 2 <? 7 then [off / 256 + (len - 2) * 32; off mod 256]
      else [off / 256 + 224; len - 9; off mod 256]
  end.

Fixpoint ref_copy (n : nat) (acc : list Z) (off : Z) : list Z :=
  match n with
  | O => acc
  | S n' => ref_copy n' (acc ++ [nth (Z.to_nat (zlen acc - off - 1)) acc 0]) off
  end.

Definition exec1 (acc : list Z) (i : instr) : list Z :=
  match i with
  | Lit bs => acc ++ bs
  | Ref off len => ref_copy (Z.to_nat len) acc off
  end.

Definition enc (ins : list instr) : list Z := concat (map enc1 ins).

(** [runs acc ins acc']: the instructions are valid one after the other and take
    the output from [acc] to [acc']. *)
Inductive runs : list Z -> list instr -> list Z -> Prop :=
  | runs_nil acc : runs acc [] acc
  | runs_cons acc i ins acc' :
      valid i (zlen acc) -> runs (exec1 acc i) ins acc' -> runs acc (i :: ins) acc'.

Lemma runs_snoc acc ins acc' i :
  runs acc ins acc' -> valid i (zlen acc') -> runs acc (ins ++ [i]) (exec1 acc' i).
Proof. induction 1; simpl; intros; repeat constructor; auto. Qed.

Lemma enc_snoc ins i : enc (ins ++ [i]) = enc ins ++ enc1 i.
Proof. unfold enc. rewrite map_app, concat_app. simpl. by rewrite app_nil_r. Qed.

Lemma zlen_ref_copy n acc off : zlen (ref_copy n acc off) = zlen acc + Z.of_nat n.
Proof.
  revert acc. induction n as [|n IH]; intros acc; cbn [ref_copy]; [lia|].
  rewrite IH. zlen_simpl. lia.
Qed.

Lemma zlen_exec1 acc i : valid i (zlen acc) -> zlen acc < zlen (exec1 acc i).
Proof.
  destruct i as [bs|off len]; simpl; intros H.
  - zlen_simpl. lia.
  - rewrite zlen_ref_copy. lia.
Qed.

Lemma runs_zlen acc ins acc' : runs acc ins acc' -> zlen acc <= zlen acc'.
Proof.
  induction 1 as [|acc i ins acc' Hv _ IH]; [lia|]. pose proof (zlen_exec1 _ _ Hv). lia.
Qed.

Lemma enc1_nonempty i : 0 < zlen (enc1 i).
Proof. destruct i; simpl; [|destruct (_ <? _)]; zlia. Qed.

End LzfSpec.

(** ** Proofs: the decompressor on encoded instructions *)

Module LzfDecode.
Import Lzf LzfSpec.

Lemma copy_literals_ok bs : forall pre post acc junk ip op,
  ip = zlen pre -> op = zlen acc -> zlen bs <= zlen junk ->
  copy_literals (length bs) (pre ++ bs ++ post) (acc ++ junk) ip op =
    Some (acc ++ bs ++ drop (length bs) junk).
Proof.
  induction bs as [|b bs IH]; intros pre post acc junk ip op -> -> Hj; [done|].
  rewrite zlen_cons in Hj. destruct junk as [|j junk]; [zlia|]. rewrite zlen_cons in Hj.
  cbn [copy_literals length]. rewrite rd_app_r, Z.sub_diag by lia. cbn [app]. rewrite rd_0.
  cbn [mbind option_bind]. rewrite wr_app_mid by done. cbn [mbind option_bind].
  replace (pre ++ b :: bs ++ post) with ((pre ++ [b]) ++ bs ++ post)
    by (by rewrite <- (assoc_L (++))).
  replace (acc ++ b :: junk) with ((acc ++ [b]) ++ junk) by (by rewrite <- (assoc_L (++))).
  rewrite IH by (zlia || done). f_equal. by rewrite <- (assoc_L (++)).
Qed.

Lemma nth_rd (acc : list Z) i d : 0 <= i < zlen acc -> rd acc i = Some (nth (Z.to_nat i) acc d).
Proof.
  intros H. unfold rd. zdec. unfold zlen in H.
  destruct (lookup_lt_is_Some_2 acc (Z.to_nat i)) as [x Hx]; [lia|].
  by rewrite (nth_lookup_Some _ _ d _ Hx).
Qed.

Lemma copy_backref_ok n off : forall acc junk ref op,
  op = zlen acc -> ref = zlen acc - off - 1 -> 0 <= off < zlen acc -> Z.of_nat n <= zlen junk ->
  copy_backref n (acc ++ junk) ref op = Some (ref_copy n acc off ++ drop n junk).
Proof.
  induction n as [|n IH]; intros acc junk ref op -> -> Hoff Hj; [done|].
  destruct junk as [|j junk]; [rewrite zlen_nil in Hj; lia|]. rewrite zlen_cons in Hj.
  cbn [copy_backref ref_copy]. rewrite rd_app_l by lia.
  rewrite (nth_rd _ _ 0) by lia. cbn [mbind option_bind].
  rewrite wr_app_mid by done. cbn [mbind option_bind].
  set (c := nth _ _ _).
  replace (acc ++ c :: junk) with ((acc ++ [c]) ++ junk) by (by rewrite <- (assoc_L (++))).
  rewrite (IH (acc ++ [c])) by zlia. done.
Qed.

(** One instruction is decoded by one iteration. *)
Lemma decompress_step_ok i pre post acc junk in_end out_end ip op :
  valid i (zlen acc) -> ip = zlen pre -> op = zlen acc ->
  zlen pre + zlen (enc1 i) <= in_end ->
  zlen (exec1 acc i) <= out_end <= zlen acc + zlen junk ->
  exists junk',
    decompress_step (pre ++ enc1 i ++ post) (acc ++ junk) in_end out_end ip op =
      Some (exec1 acc i ++ junk',
            Some (zlen pre + zlen (enc1 i), zlen (exec1 acc i))) /\
    zlen (exec1 acc i) + zlen junk' = zlen acc + zlen junk.
Proof.
  intros Hv -> -> Hin Hout. unfold decompress_step. pose proof (enc1_nonempty i).
  change (Z.shiftl 1 5) with 32. destruct i as [bs|off len]; cbn [enc1 exec1 valid] in *.
  - rewrite zlen_cons in *. rewrite zlen_app in *.
    cbn [app]. rewrite rd_mid. cbn [mbind option_bind]. zdec.
    replace (zlen bs - 1 + 1) with (zlen bs) by lia.
    replace (pre ++ zlen bs - 1 :: bs ++ post) with ((pre ++ [zlen bs - 1]) ++ bs ++ post)
      by (by rewrite <- (assoc_L (++))).
    replace (Z.to_nat (zlen bs)) with (length bs) by (unfold zlen; lia).
    rewrite copy_literals_ok by zlia. cbn [mbind option_bind].
    exists (drop (length bs) junk). rewrite <- (assoc_L (++)). split; [zeq|].
    unfold zlen in *. rewrite length_drop. lia.
  - destruct Hv as (Hoff & Hn & Hlen). rewrite zlen_ref_copy in *.
    assert (0 <= off / 256 < 32) as Hq.
    { split; [apply Z.div_pos; lia|apply Z.div_lt_upper_bound; lia]. }
    assert (zlen acc - Z.shiftl (off / 256) 8 - 1 - off mod 256 = zlen acc - off - 1) as Eref.
    { rewrite Z.shiftl_mul_pow2 by lia. pose proof (Z.div_mod off 256). lia. }
    assert (forall k, Z.land (off / 256 + k * 32) 31 = off / 256) as Eand.
    { intros k. change 31 with (Z.ones 5). rewrite Z.land_ones by lia. change (2 ^ 5) with 32.
      rewrite Z_mod_plus_full. by apply Z.mod_small. }
    assert (forall k, Z.shiftr (off / 256 + k * 32) 5 = k) as Eshr.
    { intros k. rewrite Z.shiftr_div_pow2 by lia. change (2 ^ 5) with 32.
      rewrite Z.div_add, Z.div_small by lia. lia. }
    destruct (Z.ltb_spec (len - 2) 7) as [Hs|Hl]; rewrite ?zlen_cons, zlen_nil in *;
      cbn [app]; rewrite rd_mid; cbn [mbind option_bind].
    + assert (32 <= off / 256 + (len - 2) * 32) by lia. zdec. rewrite Eshr, Eand. zdec.
      rewrite rd_mid1. cbn [mbind option_bind]. rewrite Eref. zdec.
      replace (len - 2 + 2) with len by lia.
      rewrite (copy_backref_ok (Z.to_nat len) off) by lia. cbn [mbind option_bind].
      exists (drop (Z.to_nat len) junk). split; [zeq|].
      unfold zlen in *. rewrite length_drop. lia.
    + assert (32 <= off / 256 + 224) by lia. zdec.
      change 224 with (7 * 32). rewrite Eshr, Eand. zdec.
      rewrite rd_mid1. cbn [mbind option_bind]. zdec.
      rewrite rd_mid2. cbn [mbind option_bind].
      rewrite Eref. zdec. replace (7 + (len - 9) + 2) with len by lia.
      rewrite (copy_backref_ok (Z.to_nat len) off) by lia. cbn [mbind option_bind].
      exists (drop (Z.to_nat len) junk). split; [zeq|].
      unfold zlen in *. rewrite length_drop. lia.
Qed.

Lemma decompress_loop_ok : forall ins acc acc' fuel pre post junk in_end out_end ip op,
  runs acc ins acc' -> ins <> [] -> (length ins <= fuel)%nat ->
  ip = zlen pre -> op = zlen acc -> in_end = zlen pre + zlen (enc ins) ->
  zlen acc' <= out_end <= zlen acc + zlen junk ->
  exists junk',
    decompress_loop fuel (pre ++ enc ins ++ post) (acc ++ junk) in_end out_end ip op =
      Some (acc' ++ junk', zlen acc') /\
    zlen acc' + zlen junk' = zlen acc + zlen junk.
Proof.
  induction ins as [|i ins IH]; intros acc acc' fuel pre post junk in_end out_end ip op Hr Hne Hf
    -> -> -> Hout; [done|].
  inversion Hr as [|? ? ? ? Hv Hr']; subst. destruct fuel as [|f]; [simpl in Hf; lia|].
  cbn [decompress_loop]. unfold enc. cbn [map concat]. fold (enc ins).
  rewrite <- (assoc_L (++) (enc1 i)), zlen_app.
  pose proof (runs_zlen _ _ _ Hr'). pose proof (zlen_nonneg (enc ins)).
  destruct (decompress_step_ok i pre (enc ins ++ post) acc junk
    (zlen pre + (zlen (enc1 i) + zlen (enc ins))) out_end (zlen pre) (zlen acc))
    as (junk' & E & Hj); try done; [lia|lia|].
  rewrite E. cbn [mbind option_bind].
  destruct ins as [|i' ins].
  - inversion Hr'; subst. change (enc []) with (@nil Z). rewrite zlen_nil. zdec. eauto.
  - assert (0 < zlen (enc (i' :: ins))).
    { unfold enc. cbn [map concat]. rewrite zlen_app. pose proof (enc1_nonempty i').
      pose proof (zlen_nonneg (concat (map enc1 ins))). lia. }
    zdec. rewrite (assoc_L (++) pre), <- Hj. apply (IH _ _ _ (pre ++ enc1 i)); auto.
    + simpl in *. lia.
    + zlia.
    + zlia.
    + lia.
Qed.

End LzfDecode.

(** ** Proofs: the compressor emits instructions that rebuild its input *)

Module LzfEncode.
Import Lzf LzfSpec.

Section Compress.
Context (inb : list Z) (in_len out_end osize base : Z).
Hypothesis Hin : in_len <= zlen inb.
Hypothesis Hosize : out_end + 1 <= osize.
Hypothesis Hbase : MAX_OFF <= base /\ base + in_len <= 2 ^ 64.

(** The first [n] bytes of the input. *)
Definition inp (n : Z) : list Z := take (Z.to_nat n) inb.

Lemma zlen_inp n : 0 <= n <= in_len -> zlen (inp n) = n.
Proof. intros. unfold inp. apply zlen_take. lia. Qed.

Lemma inp_snoc n c : 0 <= n -> rd inb n = Some c -> inp (n + 1) = inp n ++ [c].
Proof.
  intros Hn H. apply rd_Some in H as [_ H]. unfold inp.
  replace (Z.to_nat (n + 1)) with (S (Z.to_nat n)) by lia. by apply take_S_r.
Qed.

Lemma rd_inp n k : k < n -> rd (inp n) k = rd inb k.
Proof.
  intros H. unfold rd, inp. zcase; [|done]. apply lookup_take_lt. lia.
Qed.

(** The entries of the hash table are differences of 64-bit addresses. *)
Definition htab_ok (htab : htab_t) : Prop := forall i, 0 <= base + htab i < 2 ^ 64.

Lemma htab_set_ok htab i v : htab_ok htab -> 0 <= v <= in_len - 1 -> htab_ok (htab_set htab i v).
Proof.
  intros H Hv j. unfold htab_set. destruct (_ =? _); [|apply H]. unfold MAX_OFF in *.
  change (Z.shiftl 1 13) with 8192 in *. lia.
Qed.

(** The tests of line 155 and 157 accept only earlier positions of the input. *)
Lemma ref_in_input htab i ip :
  htab_ok htab -> 0 <= ip < in_len -> uwrap 64 (ip - htab i - 1) < MAX_OFF -> 0 < htab i ->
  htab i < ip /\ uwrap 64 (ip - htab i - 1) = ip - htab i - 1.
Proof.
  intros H Hip Hoff Href. specialize (H i). unfold MAX_OFF in *.
  change (Z.shiftl 1 13) with 8192 in *.
  destruct (Z.ltb_spec (htab i) ip) as [Hlt|Hge].
  - split; [done|]. apply uwrap_small. unfold in_u. lia.
  - exfalso. unfold uwrap in Hoff.
    replace (ip - htab i - 1) with (ip - htab i - 1 + 2 ^ 64 + (-1) * 2 ^ 64) in Hoff by lia.
    rewrite Z_mod_plus_full, Z.mod_small in Hoff by lia. lia.
Qed.

(** What the output buffer holds: the instructions emitted so far, the cell kept
    for the length of the open run and the bytes of that run. *)
Inductive out_inv (out : list Z) (ip op lit : Z) : Prop :=
  | OutInv ins lits x rest (Hruns : runs [] ins (inp (ip - lit)))
      (Hlits : inp ip = inp (ip - lit) ++ lits) (Hlit : zlen lits = lit)
      (Hout : out = enc ins ++ x :: lits ++ rest) (Hop : op = zlen (enc ins) + 1 + lit)
      (Hsize : zlen out = osize) (Hrange : 0 <= lit < 32) (Hip : lit <= ip <= in_len).

(** The output once the open run is closed. *)
Inductive closed (out : list Z) (ip op : Z) : Prop :=
  | Closed ins rest (Hruns : runs [] ins (inp ip)) (Hout : out = enc ins ++ rest)
      (Hop : op = zlen (enc ins)) (Hsize : zlen out = osize).

Lemma out_inv_op out ip op lit : out_inv out ip op lit -> lit + 1 <= op <= osize.
Proof.
  intros []. subst. zlen_simpl. pose proof (zlen_nonneg (enc ins)). pose proof (zlen_nonneg rest). lia.
Qed.

Lemma runs_lit ins ip lit lits :
  runs [] ins (inp (ip - lit)) -> inp ip = inp (ip - lit) ++ lits -> 1 <= zlen lits <= 32 ->
  runs [] (ins ++ [Lit lits]) (inp ip).
Proof. intros Hr E Hl. rewrite E. by apply (runs_snoc _ _ _ (Lit lits)). Qed.

Lemma stop_run_ok out ip op lit :
  out_inv out ip op lit ->
  exists out' op', stop_run out op lit = Some (out', op') /\ closed out' ip op' /\
    op' = (if lit =? 0 then op - 1 else op).
Proof.
  intros []. unfold stop_run.
  replace (op - lit - 1) with (zlen (enc ins)) by lia. rewrite Hout, wr_app_mid by done.
  cbn [mbind option_bind]. do 2 eexists. split; [done|]. split; [|done]. rewrite Hout in Hsize.
  destruct (Z.eqb_spec lit 0) as [E|Hne].
  - apply (Closed _ _ _ ins (uwrap 8 (lit - 1) :: lits ++ rest)); try done; [|lia|zlia].
    rewrite E, Z.sub_0_r in Hruns. done.
  - rewrite uwrap_small by (unfold in_u; lia).
    apply (Closed _ _ _ (ins ++ [Lit lits]) rest).
    + eapply runs_lit; [done|done|lia].
    + rewrite enc_snoc. cbn [enc1]. rewrite <- (assoc_L (++)). by rewrite Hlit.
    + rewrite enc_snoc. cbn [enc1]. zlia.
    + zlia.
Qed.

(** Appending one literal keeps the invariant as long as there is room for it and
    for the length cell of the next run. *)
Lemma literal_ok out ip op lit c :
  out_inv out ip op lit -> ip < in_len -> rd inb ip = Some c -> op + 1 < osize ->
  exists out1 out' op' lit', wr out op c = Some out1 /\
    close_full_run out1 (op + 1) (lit + 1) = Some (out', op', lit') /\
    out_inv out' (ip + 1) op' lit' /\ op' = op + 1 + Z.b2z (lit' =? 0).
Proof.
  intros [] Hipl Hc Hroom. destruct rest as [|r rest]; [rewrite Hout in Hsize; zlia|].
  replace (enc ins ++ x :: lits ++ r :: rest) with ((enc ins ++ x :: lits) ++ r :: rest) in Hout
    by (by rewrite <- (assoc_L (++))).
  assert (wr out op c = Some ((enc ins ++ x :: lits) ++ c :: rest)) as Ewr
    by (rewrite Hout; apply wr_app_mid; zlia).
  exists ((enc ins ++ x :: lits) ++ c :: rest).
  unfold close_full_run. change MAX_LIT with 32.
  assert (inp (ip + 1) = inp (ip + 1 - (lit + 1)) ++ (lits ++ [c])) as Hin1.
  { rewrite (inp_snoc _ c) by (lia || done). rewrite Hlits, <- (assoc_L (++)).
    by replace (ip + 1 - (lit + 1)) with (ip - lit) by lia. }
  assert (zlen ((enc ins ++ x :: lits) ++ c :: rest) = osize) as Hs1
    by (rewrite <- Hsize, Hout; zlia).
  destruct (Z.eqb_spec (lit + 1) 32) as [E|Hne].
  - destruct rest as [|r' rest]; [rewrite Hout in Hsize; zlia|].
    replace (op + 1 - (lit + 1) - 1) with (zlen (enc ins)) by lia.
    replace ((enc ins ++ x :: lits) ++ c :: r' :: rest)
      with (enc ins ++ x :: (lits ++ [c]) ++ r' :: rest) in *
      by (rewrite <- !(assoc_L (++)); done).
    rewrite wr_app_mid by done. cbn [mbind option_bind]. rewrite uwrap_small by (unfold in_u; lia).
    do 3 eexists. split; [done|]. split; [done|]. split; [|simpl; lia].
    apply (OutInv _ _ _ _ (ins ++ [Lit (lits ++ [c])]) [] r' rest); try lia.
    + rewrite Z.sub_0_r. eapply (runs_lit _ _ (lit + 1)); [|done|zlia].
      by replace (ip + 1 - (lit + 1)) with (ip - lit) by lia.
    + by rewrite Z.sub_0_r, app_nil_r.
    + done.
    + rewrite enc_snoc. cbn [enc1]. rewrite zlen_app, Hlit. change (zlen [c]) with 1.
      rewrite <- !(assoc_L (++)). cbn [app]. by rewrite <- ?(assoc_L (++)).
    + rewrite enc_snoc. cbn [enc1]. zlia.
    + rewrite <- Hs1. zlia.
  - do 3 eexists. split; [done|]. split; [done|]. split; [|zdec; simpl; lia].
    apply (OutInv _ _ _ _ ins (lits ++ [c]) x rest); try lia; try done.
    + by replace (ip + 1 - (lit + 1)) with (ip - lit) by lia.
    + zlia.
    + by rewrite <- !(assoc_L (++)).
Qed.

(** *** Matches *)

(** [ref] and [ip] agree on the next [n] bytes. *)
Definition agree (ref ip n : Z) : Prop :=
  forall k, 0 <= k < n -> rd inb (ref + k) = rd inb (ip + k).

Lemma agree_S ref ip n : agree ref ip n -> rd inb (ref + n) = rd inb (ip + n) -> agree ref ip (n + 1).
Proof.
  intros H E k Hk. destruct (decide (k = n)) as [->|Hne]; [done|]. apply H. lia.
Qed.

Lemma rd_in i : 0 <= i < in_len -> exists c, rd inb i = Some c.
Proof. intros. destruct (rd_is_Some inb i) as [c Hc]; [lia|]. eauto. Qed.

Lemma unrolled_ok n ref ip len :
  0 <= ref < ip -> 0 <= len -> ip + len + Z.of_nat n < in_len -> agree ref ip (len + 1) ->
  exists len' broke, unrolled n inb ref ip len = Some (len', broke) /\
    len <= len' <= len + Z.of_nat n /\
    (if broke : bool then len < len' /\ agree ref ip len'
     else len' = len + Z.of_nat n /\ agree ref ip (len' + 1)).
Proof.
  intros Hr. revert len. induction n as [|n IH]; intros len Hl Hb Ha; cbn [unrolled].
  - exists len, false. split; [done|]. split; [lia|]. split; [lia|done].
  - destruct (rd_in (ref + (len + 1))) as [a Ea]; [lia|].
    destruct (rd_in (ip + (len + 1))) as [b Eb]; [lia|].
    rewrite Ea, Eb. cbn [mbind option_bind].
    destruct (Z.eqb_spec a b) as [->|Hne]; cbn [negb].
    + destruct (IH (len + 1)) as (len' & broke & E & Hb' & H); [lia|lia| |].
      { apply agree_S; [done|]. congruence. }
      exists len', broke. rewrite E. split; [done|]. split; [lia|].
      destruct broke; [|destruct H; split; [lia|done]]. destruct H. split; [lia|done].
    + exists (len + 1), true. split; [done|]. split; [lia|]. split; [lia|done].
Qed.

Lemma extend_ok fuel ref ip len maxlen :
  0 <= ref < ip -> 0 <= len -> ip + maxlen < in_len -> agree ref ip (len + 1) ->
  (Z.to_nat (maxlen - len) < fuel)%nat ->
  exists len', extend fuel inb ref ip len maxlen = Some len' /\
    len + 1 <= len' <= Z.max (len + 1) maxlen /\ agree ref ip len'.
Proof.
  intros Hr. revert len. induction fuel as [|f IH]; intros len Hl Hb Ha Hf; [lia|].
  cbn [extend]. zcase; [|exists (len + 1); split; [done|]; split; [lia|done]].
  destruct (rd_in (ref + (len + 1))) as [a Ea]; [lia|].
  destruct (rd_in (ip + (len + 1))) as [b Eb]; [lia|].
  rewrite Ea, Eb. cbn [mbind option_bind]. destruct (Z.eqb_spec a b) as [->|Hne].
  - destruct (IH (len + 1)) as (len' & E & Hb' & H'); [lia|lia| |lia|].
    { apply agree_S; [done|]. congruence. }
    exists len'. split; [done|]. split; [lia|done].
  - exists (len + 1). split; [done|]. split; [lia|done].
Qed.

(** The search finds between 3 and MAX_REF equal bytes and never reads past the
    input. *)
Lemma match_len_ok ref ip maxlen :
  0 <= ref < ip -> ip + 4 < in_len -> agree ref ip 3 ->
  maxlen = Z.min (in_len - ip - 2) MAX_REF ->
  exists len, match_len inb ref ip maxlen = Some len /\ 3 <= len <= MAX_REF /\
    ip + len <= in_len /\ agree ref ip len.
Proof.
  intros Hr Hip Ha Hm. change MAX_REF with 264 in *. unfold match_len.
  destruct (Z.ltb_spec 16 maxlen).
  - destruct (unrolled_ok 16 ref ip 2) as (len & broke & E & Hl & H'); [done|lia|lia|done|].
    rewrite E. cbn [mbind option_bind]. destruct broke.
    + destruct H'. exists len. split; [done|]. split; [lia|]. split; [lia|done].
    + destruct H' as [-> Ha']. destruct (extend_ok 265 ref ip (2 + Z.of_nat 16) maxlen)
        as (len' & E' & Hl' & Ha''); [done|lia|lia|done|lia|].
      exists len'. rewrite E'. split; [done|]. split; [lia|]. split; [lia|done].
  - destruct (extend_ok 265 ref ip 2 maxlen) as (len' & E' & Hl' & Ha'');
      [done|lia|lia|done|lia|].
    exists len'. rewrite E'. split; [done|]. split; [lia|]. split; [lia|done].
Qed.

(** Copying bytes that agree with the input extends the rebuilt input. *)
Lemma ref_copy_agree n ref ip :
  0 <= ref < ip -> ip + Z.of_nat n <= in_len -> agree ref ip (Z.of_nat n) ->
  ref_copy n (inp ip) (ip - ref - 1) = inp (ip + Z.of_nat n).
Proof.
  revert ref ip. induction n as [|n IH]; intros ref ip Hr Hi Ha; cbn [ref_copy].
  { by rewrite Z.add_0_r. }
  rewrite zlen_inp by lia. replace (ip - (ip - ref - 1) - 1) with ref by lia.
  destruct (rd_in ip) as [c Hc]; [lia|].
  assert (rd inb ref = Some c) as Hrc.
  { rewrite <- Hc. specialize (Ha 0). rewrite !Z.add_0_r in Ha. apply Ha. lia. }
  assert (nth (Z.to_nat ref) (inp ip) 0 = c) as ->.
  { pose proof (LzfDecode.nth_rd (inp ip) ref 0) as E. rewrite zlen_inp, rd_inp, Hrc in E by lia.
    injection (E ltac:(lia)) as <-. done. }
  rewrite <- inp_snoc by (lia || done).
  replace (ip - ref - 1) with (ip + 1 - (ref + 1) - 1) by lia.
  rewrite IH; [f_equal; lia|lia|lia|].
  intros k Hk. specialize (Ha (k + 1) ltac:(lia)).
  replace (ref + 1 + k) with (ref + (k + 1)) by lia. by replace (ip + 1 + k) with (ip + (k + 1)) by lia.
Qed.

(** Writing a back reference after the closed instructions opens an empty run. *)
Lemma emit_ref_ok out ip op ref len :
  closed out ip op -> 0 < ref < ip -> ip - ref - 1 < 8192 -> 3 <= len <= 264 ->
  ip + len <= in_len -> agree ref ip len -> op + 4 < out_end ->
  exists out1 op1 out2,
    (let len := len - 2 in let off := ip - ref - 1 in
     if len <? 7 then
       out ← wr out op (uwrap 8 (Z.shiftr off 8 + Z.shiftl len 5));
       Some (out, op + 1)
     else
       out ← wr out op (uwrap 8 (Z.shiftr off 8 + Z.shiftl 7 5));
       out ← wr out (op + 1) (uwrap 8 (len - 7));
       Some (out, op + 2)) = Some (out1, op1) /\
    wr out1 op1 (uwrap 8 (ip - ref - 1)) = Some out2 /\
    out_inv out2 (ip + len) (op1 + 1 + 1) 0.
Proof.
  intros [] Href Hoff Hlen Hip Ha Hroom. set (off := ip - ref - 1) in *.
  assert (runs [] (ins ++ [Ref off len]) (inp (ip + len))) as Hr'.
  { replace (inp (ip + len)) with (exec1 (inp ip) (Ref off len)).
    - apply runs_snoc; [done|]. simpl. rewrite zlen_inp by lia. lia.
    - simpl. unfold off. rewrite ref_copy_agree by (rewrite ?Z2Nat.id by lia; done || lia).
      f_equal. lia. }
  assert (0 <= off / 256 < 32) as Hq.
  { split; [apply Z.div_pos; lia|apply Z.div_lt_upper_bound; lia]. }
  cbv zeta. rewrite !Z.shiftl_mul_pow2, Z.shiftr_div_pow2 by lia. change (2 ^ 8) with 256.
  change (2 ^ 5) with 32. change (7 * 32) with 224.
  assert (uwrap 8 off = off mod 256) as -> by done.
  destruct rest as [|r0 [|r1 [|r2 [|r3 rest]]]]; try (exfalso; rewrite Hout in Hsize; zlia).
  destruct (Z.ltb_spec (len - 2) 7).
  - rewrite (uwrap_small 8) by (unfold in_u; lia). rewrite Hout, Hop, wr_app_mid by done.
    cbn [mbind option_bind]. do 3 eexists. split; [done|].
    change (enc ins ++ ?a :: r1 :: ?l) with (enc ins ++ [a] ++ r1 :: l).
    rewrite (assoc_L (++)), wr_app_mid by zlia. split; [done|].
    apply (OutInv _ _ _ _ (ins ++ [Ref off len]) [] r2 (r3 :: rest)); try lia; try done.
    + by rewrite Z.sub_0_r.
    + by rewrite Z.sub_0_r, app_nil_r.
    + rewrite enc_snoc. cbn [enc1]. zdec. by rewrite <- !(assoc_L (++)).
    + rewrite enc_snoc. cbn [enc1]. zdec. zlia.
    + rewrite <- Hsize, Hout. zlia.
  - rewrite !(uwrap_small 8) by (unfold in_u; lia). rewrite Hout, Hop, wr_app_mid by done.
    cbn [mbind option_bind].
    change (enc ins ++ ?a :: r1 :: ?l) with (enc ins ++ [a] ++ r1 :: l).
    rewrite (assoc_L (++)), wr_app_mid by zlia. cbn [mbind option_bind].
    do 3 eexists. split; [done|].
    replace (len - 2 - 7) with (len - 9) by lia.
    change ((enc ins ++ [?a]) ++ ?b :: r2 :: ?l) with ((enc ins ++ [a]) ++ [b] ++ r2 :: l).
    rewrite (assoc_L (++) _ [_]), wr_app_mid by zlia. split; [done|].
    apply (OutInv _ _ _ _ (ins ++ [Ref off len]) [] r3 rest); try lia; try done.
    + by rewrite Z.sub_0_r.
    + by rewrite Z.sub_0_r, app_nil_r.
    + rewrite enc_snoc. cbn [enc1]. zdec. by rewrite <- !(assoc_L (++)).
    + rewrite enc_snoc. cbn [enc1]. zdec. zlia.
    + rewrite <- Hsize, Hout. zlia.
Qed.

Definition st_inv (st : cstate) : Prop :=
  out_inv (c_out st) (c_ip st) (c_op st) (c_lit st) /\ htab_ok (c_htab st).

(** What one iteration of the main loop guarantees. *)
Definition step_ok (ip : Z) (s : cstep) : Prop :=
  match s with
  | Continue st => st_inv st /\ ip < c_ip st
  | Break st => st_inv st /\ in_len - 2 <= c_ip st
  | Fail out => zlen out = osize
  end.

Lemma FRST_in ip : 0 <= ip -> ip + 1 < in_len -> exists v, FRST inb ip = Some v.
Proof.
  intros. unfold FRST. destruct (rd_in ip) as [a ->]; [lia|].
  destruct (rd_in (ip + 1)) as [b ->]; [lia|]. eauto.
Qed.

Lemma NEXT_in v ip : 0 <= ip -> ip + 2 < in_len -> exists v', NEXT v inb ip = Some v'.
Proof. intros. unfold NEXT. destruct (rd_in (ip + 2)) as [a ->]; [lia|]. eauto. Qed.

Lemma emit_match_ok out ip op lit ref htab :
  out_inv out ip op lit -> htab_ok htab -> 0 < ref < ip -> ip - ref - 1 < 8192 ->
  ip + 4 < in_len -> agree ref ip 3 ->
  exists s, emit_match inb out in_len out_end ip op lit ref (ip - ref - 1) htab = Some s /\
    step_ok ip s.
Proof.
  intros Hinv Ht Href Hoff Hip Ha. unfold emit_match.
  destruct (stop_run_ok _ _ _ _ Hinv) as (out' & op' & -> & Hcl & Eop). cbn [mbind option_bind].
  destruct (Z.leb_spec out_end (op' + 3 + 1)).
  { eexists. split; [done|]. by destruct Hcl. }
  set (maxlen := if _ <? _ then _ else _).
  destruct (match_len_ok ref ip maxlen) as (len & -> & Hlen & Hil & Hag); [lia|done|done| |].
  { unfold maxlen. zcase; lia. }
  change MAX_REF with 264 in Hlen. cbn [mbind option_bind].
  destruct (emit_ref_ok out' ip op' ref len Hcl Href Hoff Hlen Hil Hag)
    as (out1 & op1 & out2 & E1 & E2 & Hinv2); [lia|].
  cbv zeta in E1. rewrite E1. cbn [mbind option_bind]. rewrite E2. cbn [mbind option_bind].
  replace (ip + 1 + (len - 2 + 1)) with (ip + len) by lia.
  destruct (Z.leb_spec (in_len - 2) (ip + len)).
  { eexists. split; [done|]. split; [by split|simpl; lia]. }
  destruct (FRST_in (ip + len - 1 - 1)) as [v0 ->]; [lia|lia|]. cbn [mbind option_bind].
  destruct (NEXT_in v0 (ip + len - 1 - 1)) as [v1 ->]; [lia|lia|]. cbn [mbind option_bind].
  destruct (NEXT_in v1 (ip + len - 1 - 1 + 1)) as [v2 ->]; [lia|lia|]. cbn [mbind option_bind].
  eexists. split; [done|]. split; [|simpl; lia]. split; cbn [c_out c_ip c_op c_lit c_htab].
  - by replace (ip + len - 1 - 1 + 1 + 1) with (ip + len) by lia.
  - repeat apply htab_set_ok; auto; lia.
Qed.

Lemma emit_literal_ok out ip op lit hval htab :
  out_inv out ip op lit -> htab_ok htab -> ip < in_len ->
  exists s, emit_literal inb out out_end ip op lit hval htab = Some s /\ step_ok ip s.
Proof.
  intros Hinv Ht Hip. unfold emit_literal. destruct (Z.leb_spec out_end op).
  { eexists. split; [done|]. by destruct Hinv. }
  assert (0 <= ip) as Hip0 by (destruct Hinv; lia).
  destruct (rd_in ip) as [c Hc]; [lia|]. rewrite Hc. cbn [mbind option_bind].
  destruct (literal_ok _ _ _ _ c Hinv Hip Hc) as (out1 & out' & op' & lit' & -> & E & Hinv' & _); [lia|].
  cbn [mbind option_bind]. rewrite E. cbn [mbind option_bind].
  eexists. split; [done|]. split; [by split|simpl; lia].
Qed.

Lemma compress_step_ok st :
  st_inv st -> c_ip st < in_len - 2 ->
  exists s, compress_step inb in_len out_end st = Some s /\ step_ok (c_ip st) s.
Proof.
  destruct st as [out ip op lit hval htab]. intros [Hinv Ht] Hip. simpl in *.
  assert (0 <= ip) as Hip0 by (destruct Hinv; lia).
  destruct (NEXT_in hval ip) as [v ->]; [lia|lia|]. cbn [mbind option_bind].
  assert (htab_ok (htab_set htab (IDX v) ip)) as Ht' by (apply htab_set_ok; auto; lia).
  destruct (_ && _) eqn:Eg; [|apply emit_literal_ok; auto; lia]. bool_to_prop.
  destruct (ref_in_input htab (IDX v) ip) as [Hlt Eoff]; [done|lia|done|done|].
  rewrite Eoff in *. set (ref := htab (IDX v)) in *.
  destruct (rd_in ref) as [r0 E0]; [lia|]. destruct (rd_in (ref + 1)) as [r1 E1]; [lia|].
  destruct (rd_in ip) as [i0 F0]; [lia|]. destruct (rd_in (ip + 1)) as [i1 F1]; [lia|].
  destruct (rd_in (ref + 2)) as [r2 E2]; [lia|]. destruct (rd_in (ip + 2)) as [i2 F2]; [lia|].
  rewrite E0, E1, F0, F1. cbn [mbind option_bind].
  destruct ((r0 =? i0) && (r1 =? i1)) eqn:E01;
    [rewrite E2, F2; cbn [mbind option_bind]; destruct (r2 =? i2) eqn:E22|];
    try (cbn [mbind option_bind]; apply emit_literal_ok; auto; lia).
  bool_to_prop. subst. apply emit_match_ok; auto; try lia.
  intros k Hk. assert (k = 0 \/ k = 1 \/ k = 2) as [->|[->| ->]] by lia;
    rewrite ?Z.add_0_r; congruence.
Qed.

(** The main loop ends with the invariant, or with the output given up. *)
Lemma compress_loop_ok fuel st :
  st_inv st -> in_len - 2 - c_ip st <= Z.of_nat fuel ->
  exists r, compress_loop fuel inb in_len out_end st = Some r /\
    match r with
    | inl st' => st_inv st' /\ in_len - 2 <= c_ip st'
    | inr out => zlen out = osize
    end.
Proof.
  revert st. induction fuel as [|f IH]; intros st Hst Hf; cbn [compress_loop];
    (destruct (Z.ltb_spec (c_ip st) (in_len - 2)) as [Hip|Hip]; [|eexists; done]); [lia|].
  destruct (compress_step_ok st Hst Hip) as (s & -> & Hs). cbn [mbind option_bind].
  destruct s as [st'|st'|out]; simpl in Hs.
  - destruct Hs as [Hs Hlt]. apply IH; [done|lia].
  - by exists (inl st').
  - eexists. done.
Qed.

End Compress.
End LzfEncode.

(** ** Proofs: whole calls *)

Module LzfFacts.
Import Lzf LzfSpec LzfEncode.

(** Room the tail loop needs for [k] more literals. *)
Definition tail_room (k op lit : Z) : Z :=
  if k =? 0 then op - Z.b2z (lit =? 0) else if k =? 1 then op + 1 else op + 3.

Lemma tail_loop_ok inb in_len out_end osize fuel : forall out ip op lit,
  in_len <= zlen inb -> out_end + 1 <= osize ->
  out_inv inb in_len osize out ip op lit ->
  in_len - ip <= 2 -> in_len - ip <= Z.of_nat fuel -> tail_room (in_len - ip) op lit <= out_end ->
  exists out' op' lit', tail_loop fuel inb out in_len ip op lit = Some (out', op', lit') /\
    out_inv inb in_len osize out' in_len op' lit' /\ op' - Z.b2z (lit' =? 0) <= out_end.
Proof.
  induction fuel as [|f IH]; intros out ip op lit Hin Hos Hinv H2 Hf Hroom; cbn [tail_loop];
    assert (0 <= ip <= in_len) as Hip by (destruct Hinv; lia);
    (destruct (Z.ltb_spec ip in_len) as [Hlt|Hge];
     [|assert (ip = in_len) by lia; subst ip; unfold tail_room in Hroom;
       rewrite Z.sub_diag in Hroom; eauto 10]); [lia|].
  destruct (rd_is_Some inb ip) as [c Hc]; [lia|]. rewrite Hc. cbn [mbind option_bind].
  assert (in_len - ip = 1 \/ in_len - ip = 2) as Hk by lia. unfold tail_room in Hroom.
  destruct (literal_ok inb in_len osize out ip op lit c)
    as (out1 & out' & op' & lit' & -> & E & Hinv' & Eop); auto.
  { destruct Hk as [Hk|Hk]; rewrite Hk in Hroom; simpl in Hroom; lia. }
  cbn [mbind option_bind]. rewrite E. cbn [mbind option_bind].
  apply IH; auto; try lia. unfold tail_room.
  assert (0 <= Z.b2z (lit' =? 0) <= 1) by (destruct (lit' =? 0); simpl; lia).
  destruct Hk as [Hk|Hk]; rewrite Hk in Hroom; simpl in Hroom.
  - replace (in_len - (ip + 1)) with 0 by lia. simpl (0 =? 0). cbv iota. lia.
  - replace (in_len - (ip + 1)) with 1 by lia. simpl. lia.
Qed.

(** A call of the compressor: it always returns, never leaves its buffers, and a
    non-zero result is the length of a valid instruction stream for the input. *)
Lemma lzf_compress_ok htab inb in_len out out_len base :
  0 <= in_len <= zlen inb -> 2 <= zlen inb -> 0 <= out_len -> out_len + 1 <= zlen out ->
  MAX_OFF <= base -> base + in_len <= 2 ^ 64 -> htab_ok base htab ->
  exists out' n, lzf_compress htab inb in_len out out_len = Some (out', n) /\
    zlen out' = zlen out /\
    (n = 0 \/
     0 < n <= out_len /\
     exists ins rest, runs [] ins (take (Z.to_nat in_len) inb) /\ out' = enc ins ++ rest /\
       n = zlen (enc ins)).
Proof.
  intros Hin H2 Hol Hout Hb1 Hb2 Ht. unfold lzf_compress.
  destruct (_ || _) eqn:E0; [eauto 10|]. bool_to_prop.
  destruct (FRST inb 0) as [hval|] eqn:EF; cycle 1.
  { unfold FRST in EF. destruct (rd_is_Some inb 0) as [a Ha]; [lia|]. rewrite Ha in EF. cbn [mbind option_bind] in EF.
    destruct (rd_is_Some inb (0 + 1)) as [b Hb]; [lia|]. by rewrite Hb in EF. }
  cbn [mbind option_bind].
  assert (st_inv inb in_len (zlen out) base (CState out 0 1 0 hval htab)) as Hst.
  { split; [|done]. destruct out as [|x rest]; [zlia|].
    apply (OutInv _ _ _ _ _ _ _ [] [] x rest); cbn [c_lit c_ip c_op c_out]; try done; [|lia].
    apply runs_nil. }
  destruct (compress_loop_ok inb in_len out_len (zlen out) base) with
    (fuel := Z.to_nat in_len) (st := CState out 0 1 0 hval htab) as (r & -> & Hr);
    auto; [lia|simpl; lia|]. cbn [mbind option_bind].
  destruct r as [[out1 ip op lit hv ht]|out1]; [|eauto 10].
  destruct Hr as [[Hinv _] Hip]. cbn [c_out c_ip c_op c_lit] in Hinv, Hip.
  destruct (Z.ltb_spec out_len (op + 3)).
  { destruct Hinv. eauto 10. }
  destruct (tail_loop_ok inb in_len out_len (zlen out) 4 out1 ip op lit)
    as (out2 & op2 & lit2 & -> & Hinv2 & Hop2); auto; try lia.
  { unfold tail_room. destruct (_ =? 0); [destruct (lit =? 0); simpl; lia|]. destruct (_ =? 1); lia. }
  cbn [mbind option_bind].
  destruct (stop_run_ok inb in_len (zlen out) out2 in_len op2 lit2 Hinv2)
    as (out3 & op3 & -> & Hcl & Eop3). cbn [mbind option_bind].
  destruct Hcl as [ins rest Hruns Hout3 Hop3 Hsz].
  exists out3, op3. split; [done|]. split; [done|]. right. split; [|eauto].
  assert (0 < zlen (enc ins)) as Hpos.
  { destruct ins as [|i ins].
    - pose proof (zlen_inp inb in_len ltac:(lia) in_len ltac:(lia)) as Ez.
      assert (inp inb in_len = []) as E by (by inversion Hruns).
      rewrite E, zlen_nil in Ez. lia.
    - unfold enc. cbn [map concat]. rewrite zlen_app. pose proof (enc1_nonempty i).
      pose proof (zlen_nonneg (concat (map enc1 ins))). lia. }
  split; [lia|]. rewrite Eop3. destruct (lit2 =? 0); simpl in Hop2; lia.
Qed.

(** *** The decompressor on arbitrary input *)

(** An output buffer of which only bytes before [e] changed. *)
Definition kept (e : Z) (out out' : list Z) : Prop :=
  zlen out' = zlen out /\ drop (Z.to_nat e) out' = drop (Z.to_nat e) out /\ (bytes_ok out -> bytes_ok out').

Lemma kept_refl e out : kept e out out.
Proof. done. Qed.

Lemma kept_trans e out out1 out2 : kept e out out1 -> kept e out1 out2 -> kept e out out2.
Proof. intros (Hz & Hd & Hb) (Hz' & Hd' & Hb'). split_and!; [congruence|congruence|auto]. Qed.

Lemma kept_wr e out i c : 0 <= i < e -> i < zlen out -> (bytes_ok out -> byte_ok c) ->
  exists out', wr out i c = Some out' /\ kept e out out'.
Proof.
  intros Hi Hl Hc. unfold wr. zdec. eexists. split; [done|]. split_and!.
  - apply zlen_insert.
  - apply drop_insert_lt. lia.
  - intros Hb. apply Forall_insert; auto.
Qed.

Lemma copy_literals_total n e inb out ip op : bytes_ok inb ->
  0 <= ip -> 0 <= op -> ip + Z.of_nat n <= zlen inb -> op + Z.of_nat n <= e -> e <= zlen out ->
  exists out', copy_literals n inb out ip op = Some out' /\ kept e out out'.
Proof.
  intros Hb. revert out ip op. induction n as [|n IH]; intros out ip op Hi Ho Hin Hout He; cbn [copy_literals].
  { eauto using kept_refl. }
  destruct (rd_is_Some inb ip) as [c Ec]; [lia|]. rewrite Ec. cbn [mbind option_bind].
  apply rd_Some in Ec as [_ Ec]. apply (Forall_lookup_1 _ _ _ _ Hb) in Ec.
  destruct (kept_wr e out op c) as (out1 & -> & Hk); [lia|lia|done|]. cbn [mbind option_bind].
  destruct (IH out1 (ip + 1) (op + 1)) as (out' & E & Hk'); rewrite ?(proj1 Hk); try lia.
  eauto using kept_trans.
Qed.

Lemma copy_backref_total n e out ref op :
  0 <= ref < op -> op + Z.of_nat n <= e -> e <= zlen out ->
  exists out', copy_backref n out ref op = Some out' /\ kept e out out'.
Proof.
  revert out ref op. induction n as [|n IH]; intros out ref op Hr Hout He; cbn [copy_backref].
  { eauto using kept_refl. }
  destruct (rd_is_Some out ref) as [c Ec]; [lia|]. rewrite Ec. cbn [mbind option_bind].
  apply rd_Some in Ec as [_ Ec]. destruct (kept_wr e out op c) as (out1 & -> & Hk); [lia|lia|by intros Hb; apply (Forall_lookup_1 _ _ _ _ Hb) in Ec|].
  cbn [mbind option_bind]. destruct (IH out1 (ref + 1) (op + 1)) as (out' & E & Hk'); rewrite ?(proj1 Hk); try lia.
  eauto using kept_trans.
Qed.

Lemma decompress_step_total inb out in_end out_end ip op :
  bytes_ok inb -> in_end <= zlen inb -> out_end <= zlen out ->
  0 <= ip < in_end -> 0 <= op <= out_end ->
  exists out' next, decompress_step inb out in_end out_end ip op = Some (out', next) /\
    kept out_end out out' /\
    match next with
    | None => True
    | Some (ip', op') => ip < ip' <= in_end /\ op < op' <= out_end
    end.
Proof.
  intros Hok Hin Hout Hip Hop. unfold decompress_step.
  assert (forall i, 0 <= i < in_end -> exists b, rd inb i = Some b /\ 0 <= b < 256) as Hrd.
  { intros i Hi. destruct (rd_is_Some inb i) as [b Hb]; [lia|]. exists b. split; [done|].
    apply rd_Some in Hb as [_ Hb]. by apply (Forall_lookup_1 _ _ _ _ Hok) in Hb. }
  destruct (Hrd ip) as (ctrl & -> & Hc); [lia|]. cbn [mbind option_bind].
  change (Z.shiftl 1 5) with 32. rewrite Z.shiftr_div_pow2 by lia. change (2 ^ 5) with 32.
  destruct (Z.ltb_spec ctrl 32).
  - destruct (Z.ltb_spec out_end (op + (ctrl + 1))); [eauto 10 using kept_refl|].
    destruct (Z.ltb_spec in_end (ip + 1 + (ctrl + 1))); [eauto 10 using kept_refl|].
    destruct (copy_literals_total (Z.to_nat (ctrl + 1)) out_end inb out (ip + 1) op)
      as (out' & -> & Hz); try lia; try done.
    cbn [mbind option_bind]. do 2 eexists. split; [done|]. split; [done|]. lia.
  - assert (1 <= ctrl / 32) as Hlen by (apply Z.div_le_lower_bound; lia).
    destruct (Z.leb_spec in_end (ip + 1)); [eauto 10 using kept_refl|].
    assert (0 <= Z.shiftl (Z.land ctrl 31) 8) as Hsh
      by (apply Z.shiftl_nonneg, Z.land_nonneg; lia).
    set (ref := op - _ - 1) in *.
    assert (forall i len, ip < i < in_end -> 1 <= len ->
      exists out' next,
        (b ← rd inb i;
         if out_end <? op + len + 2 then Some (out, None) else
         if ref - b <? 0 then Some (out, None) else
         out ← copy_backref (Z.to_nat (len + 2)) out (ref - b) op;
         Some (out, Some (i + 1, op + len + 2))) = Some (out', next) /\ kept out_end out out' /\
        match next with
        | None => True
        | Some (ip', op') => ip < ip' <= in_end /\ op < op' <= out_end
        end) as Htail.
    { intros i len Hi Hl. destruct (Hrd i) as (b & -> & Hb); [lia|]. cbn [mbind option_bind].
      destruct (Z.ltb_spec out_end (op + len + 2)); [eauto 10 using kept_refl|].
      destruct (Z.ltb_spec (ref - b) 0); [eauto 10 using kept_refl|].
      destruct (copy_backref_total (Z.to_nat (len + 2)) out_end out (ref - b) op)
        as (out' & -> & Hz); try lia; try done.
      cbn [mbind option_bind]. do 2 eexists. split; [done|]. split; [done|]. lia. }
    destruct (ctrl / 32 =? 7); [|apply Htail; lia].
    destruct (Hrd (ip + 1)) as (b & -> & Hb); [lia|]. cbn [mbind option_bind].
    destruct (Z.leb_spec in_end (ip + 1 + 1)); [eauto 10 using kept_refl|]. apply Htail; lia.
Qed.

Lemma decompress_loop_total fuel inb in_end out_end : forall out ip op,
  bytes_ok inb -> in_end <= zlen inb -> out_end <= zlen out ->
  0 <= ip < in_end -> 0 <= op <= out_end -> in_end - ip <= Z.of_nat fuel ->
  exists out' n, decompress_loop fuel inb out in_end out_end ip op = Some (out', n) /\
    kept out_end out out' /\ 0 <= n <= out_end.
Proof.
  induction fuel as [|f IH]; intros out ip op Hok Hin Hout Hip Hop Hf; [lia|].
  cbn [decompress_loop].
  destruct (decompress_step_total inb out in_end out_end ip op) as (out1 & next & -> & Hz & Hn); auto.
  cbn [mbind option_bind]. destruct next as [[ip1 op1]|]; cycle 1.
  { do 2 eexists. split; [done|]. split; [done|]. lia. }
  destruct (Z.ltb_spec ip1 in_end).
  - destruct (IH out1 ip1 op1) as (out' & n & E & Hz' & Hn'); rewrite ?(proj1 Hz); auto; try lia.
    do 2 eexists. split; [done|]. split; [by eapply kept_trans|]. lia.
  - do 2 eexists. split; [done|]. split; [done|]. lia.
Qed.

(** *** A compressed string *)

Lemma ref_copy_prefix n off : forall acc, exists t, ref_copy n acc off = acc ++ t.
Proof.
  induction n as [|n IH]; intros acc; cbn [ref_copy]; [exists []; by rewrite app_nil_r|].
  destruct (IH (acc ++ [nth (Z.to_nat (zlen acc - off - 1)) acc 0])) as [t ->]. rewrite <- (assoc_L (++)). by eexists.
Qed.

Lemma runs_prefix acc ins acc' : runs acc ins acc' -> exists t, acc' = acc ++ t.
Proof.
  induction 1 as [acc|acc i ins acc' _ _ [t ->]]; [exists []; by rewrite app_nil_r|].
  destruct i as [bs|off len]; cbn [exec1]; [rewrite <- (assoc_L (++)); by eexists|].
  destruct (ref_copy_prefix (Z.to_nat len) off acc) as [u ->]. rewrite <- (assoc_L (++)). by eexists.
Qed.

Lemma enc1_bytes i n : valid i n -> (forall bs, i = Lit bs -> bytes_ok bs) -> bytes_ok (enc1 i).
Proof.
  destruct i as [bs|off len]; cbn [valid enc1]; intros Hv Hb.
  - constructor; [unfold byte_ok; lia|by apply Hb].
  - pose proof (Z.mod_pos_bound off 256). assert (0 <= off / 256 < 32) by (split; [apply Z.div_pos|apply Z.div_lt_upper_bound]; lia).
    destruct (Z.ltb_spec (len - 2) 7); repeat (apply Forall_cons; split; [unfold byte_ok; lia|]); constructor.
Qed.

Lemma enc_bytes acc ins acc' : runs acc ins acc' -> bytes_ok acc' -> bytes_ok (enc ins).
Proof.
  induction 1 as [|acc i ins acc' Hv Hr IH]; intros Hb; [constructor|]. unfold enc. cbn [map concat].
  apply Forall_app. split; [|by apply IH]. eapply enc1_bytes; [done|]. intros bs ->.
  destruct (runs_prefix _ _ _ Hr) as [t E]. cbn [exec1] in E. rewrite E in Hb. by apply Forall_app in Hb as [[_ Hb]%Forall_app _].
Qed.

Lemma lzf_stream htab x tl out out_len base : bytes_ok x -> 2 <= zlen x -> 0 <= out_len -> out_len + 1 <= zlen out ->
  MAX_OFF <= base -> base + zlen x <= 2 ^ 64 -> htab_ok base htab ->
  exists out' n, lzf_compress htab (x ++ tl) (zlen x) out out_len = Some (out', n) /\
    (n = 0 \/ exists c rest, out' = c ++ rest /\ n = zlen c /\ 0 < n <= out_len /\ bytes_ok c /\
      forall z t, zlen z = zlen x -> lzf_decompress c n (z ++ t) (zlen x) = Some (x ++ t, zlen x)).
Proof.
  intros Hx Hl Ho Hout Hb1 Hb2 Ht. pose proof (zlen_nonneg tl).
  destruct (lzf_compress_ok htab (x ++ tl) (zlen x) out out_len base) as (out' & n & E & _ & Hn); try done; [zlia..|].
  exists out', n. split; [done|]. destruct Hn as [->|(Hn & ins & rest & Hr & -> & ->)]; [by left|]. right.
  unfold zlen in Hr at 1. rewrite Nat2Z.id, take_app_length in Hr. assert (bytes_ok (enc ins)) as Hc by (eapply enc_bytes; done).
  exists (enc ins), rest. split_and!; try done; try lia. intros z t Hz. unfold lzf_decompress.
  assert (ins <> []) as Hne by (intros ->; unfold enc, zlen in Hn; cbn in Hn; lia).
  assert (Z.of_nat (length ins) <= zlen (enc ins)) as Hil.
  { clear. induction ins as [|i ins IH]; [done|]. unfold enc in *. cbn [map concat].
    rewrite zlen_app. pose proof (enc1_nonempty i). simpl length. lia. }
  pose proof (zlen_nonneg t).
  destruct (LzfDecode.decompress_loop_ok ins [] x (Z.to_nat (zlen (enc ins))) [] [] (z ++ t) (zlen (enc ins)) (zlen x) 0 0)
    as (junk & E' & Hj); auto; rewrite ?zlen_nil in *; try zlia. cbn [app] in E'. rewrite app_nil_r in E'.
  destruct (decompress_loop_total (Z.to_nat (zlen (enc ins))) (enc ins) (zlen (enc ins)) (zlen x) (z ++ t) 0 0) as (o & m & E2 & (_ & Hd & _) & _); try zlia; [done|].
  rewrite E' in E2. injection E2 as <- <-. rewrite E'. do 3 f_equal.
  rewrite <- Hz in Hd at 2. unfold zlen in Hd. rewrite !Nat2Z.id, !drop_app_length in Hd. done.
Qed.

End LzfFacts.

Import Lzf LzfSpec LzfEncode LzfFacts.

(** C14. What lzf_compress produces, lzf_decompress turns back into the input.  The
    compressor returns on every input of at least two readable bytes, whatever
    its uninitialised hash table contains (any 64-bit addresses), provided the
    output buffer has one byte more than [out_len]; when the length it returns is
    not zero, decompressing that many bytes of its output into any buffer of
    [in_len] bytes gives exactly the input and the length [in_len]. *)
Theorem lzf_roundtrip htab inb in_len out out_len base dst :
  0 <= in_len <= zlen inb -> 2 <= zlen inb -> 0 <= out_len -> out_len + 1 <= zlen out ->
  MAX_OFF <= base -> base + in_len <= 2 ^ 64 -> htab_ok base htab -> zlen dst = in_len ->
  exists out' n, lzf_compress htab inb in_len out out_len = Some (out', n) /\
    (n <> 0 -> n <= out_len /\
     lzf_decompress out' n dst in_len = Some (take (Z.to_nat in_len) inb, in_len)).
Proof.
  intros Hin H2 Hol Hout Hb1 Hb2 Ht Hdst.
  destruct (lzf_compress_ok htab inb in_len out out_len base) as (out' & n & E & Hz & Hn); auto.
  exists out', n. split; [done|]. intros Hn0.
  destruct Hn as [?|(Hpos & ins & rest & Hruns & -> & Hlen)]; [done|]. split; [lia|].
  unfold lzf_decompress. pose proof (zlen_take inb in_len Hin) as Hzi.
  assert (ins <> []) as Hne by (intros ->; change (enc []) with (@nil Z) in Hlen; zlia).
  assert (Z.of_nat (length ins) <= zlen (enc ins)) as Hil.
  { clear. induction ins as [|i ins IH]; [done|]. unfold enc in *. cbn [map concat].
    rewrite zlen_app. pose proof (enc1_nonempty i). simpl length. lia. }
  destruct (LzfDecode.decompress_loop_ok ins [] (take (Z.to_nat in_len) inb) (Z.to_nat n) [] rest
    dst n in_len 0 0) as (junk & E' & Hj); auto; try lia; try (rewrite zlen_nil; lia).
  rewrite zlen_nil in Hj. cbn [app] in E'. rewrite E', Hzi. do 2 f_equal.
  rewrite (zlen_0_inv junk) by lia. apply app_nil_r.
Qed.

Definition sample : list Z :=
  [1; 2; 3; 4; 5; 1; 2; 3; 4; 5; 1; 2; 3; 4; 5; 1; 2; 3; 4; 5; 1; 2; 3; 4].

Lemma lzf_roundtrip_witness :
  exists out' n, lzf_compress (fun _ => 7) sample 24 (replicate 21 0) 20 = Some (out', n) /\
    (n <> 0 -> n <= 20 /\ lzf_decompress out' n (replicate 24 0) 24 = Some (take 24 sample, 24)).
Proof.
  apply (lzf_roundtrip (fun _ => 7) sample 24 (replicate 21 0) 20 10000 (replicate 24 0));
    try reflexivity; try (vm_compute; done).
  all: try (split; vm_compute; done).
Defined.

(** C35. lzf_decompress is safe on arbitrary, corrupted or truncated input: for
    every non-empty input and every output buffer it terminates without reading
    or writing outside the two buffers, changes nothing from [out_len] on in the
    output and returns a length between 0 and [out_len]. *)
Theorem lzf_decompress_safe inb in_len out out_len :
  bytes_ok inb -> 0 < in_len <= zlen inb -> 0 <= out_len <= zlen out ->
  exists out' n, lzf_decompress inb in_len out out_len = Some (out', n) /\
    kept out_len out out' /\ 0 <= n <= out_len.
Proof. intros. apply decompress_loop_total; auto; lia. Qed.

Lemma lzf_decompress_safe_witness :
  exists out' n, lzf_decompress [255; 3; 7] 3 [1; 2; 3] 3 = Some (out', n) /\
    kept 3 [1; 2; 3] out' /\ 0 <= n <= 3.
Proof.
  apply lzf_decompress_safe; [|vm_compute; done..].
  repeat constructor; vm_compute; done.
Defined.

(** With an output buffer of exactly [out_len] bytes the compressor writes one
    byte past it: after 32 literals have filled the buffer, a match stores the
    length of an empty run in the cell after its end, before the room is tested. *)
Theorem lzf_compress_overrun :
  exists inb, lzf_compress (fun _ => 0) inb (zlen inb) (replicate 33 0) 33 = None /\
    is_Some (lzf_compress (fun _ => 0) inb (zlen inb) (replicate 34 0) 33).
Proof.
  exists ([1; 2; 3; 4] ++ map Z.of_nat (seq 10 28) ++ [2; 3; 4; 10; 0; 0; 0]).
  split; [vm_compute; reflexivity|]. eexists. vm_compute. reflexivity.
Qed.
