(* ===== verification/Rand.v ===== *)
(** * rand.c: the generator scripts see

    The state is the 48-bit number x in three 16-bit limbs; the multiplier a and
    the increment c are constants that only redisSrand48 assigns, to the same
    values. *)

From S2P Require Import Prelude.

Definition N : Z := 16.
Definition MASK : Z := Z.shiftl 1 (N - 1) + Z.shiftl 1 (N - 1) - 1.
Definition LOW (x : Z) : Z := Z.land (uwrap 32 x) MASK.
Definition HIGH (x : Z) : Z := LOW (Z.shiftr x N).

(** MUL: the product goes through an int32_t. *)
Definition MUL (x y : Z) : Z * Z :=
  let l := swrap 32 (x * y) in (LOW l, HIGH l).

(** CARRY compares an int32_t plus a long with the mask. *)
Definition CARRY (x y : Z) : Z := if MASK <? swrap 32 x + y then 1 else 0.

Definition X0 : Z := 0x330E.
Definition X1 : Z := 0xABCD.
Definition X2 : Z := 0x1234.
Definition A0 : Z := 0xE66D.
Definition A1 : Z := 0xDEEC.
Definition A2 : Z := 0x5.
Definition C : Z := 0xB.

Record state := State { x0 : Z; x1 : Z; x2 : Z; a0 : Z; a1 : Z; a2 : Z; c : Z }.

Definition init : state := State X0 X1 X2 A0 A1 A2 C.

Definition next (s : state) : state :=
  let '(p0, p1) := MUL (a0 s) (x0 s) in
  let carry0 := CARRY p0 (c s) in
  let p0 := LOW (uwrap 32 (p0 + c s)) in
  let carry1 := CARRY p1 carry0 in
  let p1 := LOW (uwrap 32 (p1 + carry0)) in
  let '(q0, q1) := MUL (a0 s) (x1 s) in
  let carry0 := CARRY p1 q0 in
  let p1 := LOW (uwrap 32 (p1 + q0)) in
  let '(r0, r1) := MUL (a1 s) (x0 s) in
  let n2 := LOW (uwrap 32 (carry0 + carry1 + CARRY p1 r0 + q1 + r1 +
                           a0 s * x2 s + a1 s * x1 s + a2 s * x0 s)) in
  State (LOW p0) (LOW (uwrap 32 (p1 + r0))) n2 (a0 s) (a1 s) (a2 s) (c s).

Definition redisLrand48 (s : state) : state * Z :=
  let s := next s in
  (s, swrap 32 (uwrap 32 (Z.shiftl (swrap 32 (x2 s)) (N - 1) + Z.shiftr (x1 s) 1))).

Definition redisSrand48 (seedval : Z) : state :=
  State X0 (LOW seedval) (HIGH seedval) A0 A1 A2 C.

(** ** Specification: the linear congruence modulo 2^48 *)

Definition lcg (x : Z) : Z := (0x5DEECE66D * x + 0xB) mod 2 ^ 48.

(** The number in the limbs. *)
Definition value (s : state) : Z := x0 s + 2 ^ 16 * x1 s + 2 ^ 32 * x2 s.

Record rand_ok (s : state) : Prop := {
  ro_x0 : 0 <= x0 s < 2 ^ 16;
  ro_x1 : 0 <= x1 s < 2 ^ 16;
  ro_x2 : 0 <= x2 s < 2 ^ 16;
  ro_a : a0 s = A0 /\ a1 s = A1 /\ a2 s = A2 /\ c s = C }.

(** The values of [n] successive calls. *)
Fixpoint draw (n : nat) (s : state) : list Z :=
  match n with
  | O => []
  | S n => let '(s, v) := redisLrand48 s in v :: draw n s
  end.

Fixpoint draw_spec (n : nat) (x : Z) : list Z :=
  match n with
  | O => []
  | S n => let x := lcg x in x / 2 ^ 17 :: draw_spec n x
  end.

(** ** Proofs *)

Module RandFacts.

Lemma LOW_mod x : LOW x = x mod 2 ^ 16.
Proof.
  unfold LOW, uwrap, MASK, N. change (Z.shiftl 1 (16 - 1) + Z.shiftl 1 (16 - 1) - 1) with (Z.ones 16).
  rewrite Z.land_ones by lia. apply Z.bits_inj'. intros i Hi.
  destruct (Z.lt_ge_cases i 16).
  - by rewrite !Z.mod_pow2_bits_low by lia.
  - by rewrite !Z.mod_pow2_bits_high by lia.
Qed.

Lemma low_u32 x : LOW (uwrap 32 x) = x mod 2 ^ 16.
Proof.
  rewrite LOW_mod. unfold uwrap. apply Z.bits_inj'. intros i Hi.
  destruct (Z.lt_ge_cases i 16).
  - by rewrite !Z.mod_pow2_bits_low by lia.
  - by rewrite !Z.mod_pow2_bits_high by lia.
Qed.

(** The limbs of a product: the truncation to 32 signed bits loses nothing. *)
Lemma MUL_ok x y : 0 <= x < 2 ^ 16 -> 0 <= y < 2 ^ 16 ->
  MUL x y = ((x * y) mod 2 ^ 16, (x * y) / 2 ^ 16).
Proof.
  intros Hx Hy. unfold MUL. assert (0 <= x * y < 2 ^ 32) as Hp by nia.
  assert (uwrap 32 (swrap 32 (x * y)) = x * y) as Ew
    by (rewrite uwrap_swrap by lia; by apply u32_small).
  f_equal.
  - rewrite <- Ew at 2. symmetry. rewrite <- low_u32. rewrite LOW_mod. unfold uwrap.
    rewrite LOW_mod. apply Z.bits_inj'. intros i Hi. destruct (Z.lt_ge_cases i 16).
    + by rewrite !Z.mod_pow2_bits_low by lia.
    + by rewrite !Z.mod_pow2_bits_high by lia.
  - unfold HIGH, N. rewrite LOW_mod. apply Z.bits_inj'. intros i Hi.
    destruct (Z.lt_ge_cases i 16).
    + rewrite Z.mod_pow2_bits_low, Z.shiftr_spec, Z.div_pow2_bits by lia.
      rewrite <- Ew at 2. unfold uwrap. by rewrite Z.mod_pow2_bits_low by lia.
    + rewrite Z.mod_pow2_bits_high, Z.div_pow2_bits by lia.
      rewrite <- Ew. unfold uwrap. by rewrite Z.mod_pow2_bits_high by lia.
Qed.

Lemma CARRY_ok x y : 0 <= x < 2 ^ 16 -> 0 <= y < 2 ^ 16 -> CARRY x y = (x + y) / 2 ^ 16.
Proof.
  intros Hx Hy. unfold CARRY. rewrite s32_small by lia. change MASK with 65535.
  destruct (Z.ltb_spec 65535 (x + y)).
  - apply (Z.div_unique _ _ _ (x + y - 2 ^ 16)); lia.
  - symmetry. apply Z.div_small. lia.
Qed.

End RandFacts.
Import RandFacts.

Lemma mod16 x : exists q, x = 2 ^ 16 * q + x mod 2 ^ 16 /\ 0 <= x mod 2 ^ 16 < 2 ^ 16 /\ q = x / 2 ^ 16.
Proof.
  exists (x / 2 ^ 16). split_and!; [apply Z.div_mod; lia|apply Z.mod_pos_bound; lia..|done].
Qed.

Lemma next_ok s : rand_ok s -> rand_ok (next s) /\ value (next s) = lcg (value s).
Proof.
  destruct s as [y0 y1 y2 b0 b1 b2 cc]. intros [H0 H1 H2 (E0 & E1 & E2 & E3)].
  cbn [x0 x1 x2 a0 a1 a2 c] in *. subst b0 b1 b2 cc. unfold next. cbn [x0 x1 x2 a0 a1 a2 c].
  rewrite !MUL_ok by (unfold A0, A1; lia). cbv beta iota zeta. rewrite !low_u32.
  destruct (mod16 (A0 * y0)) as (p1 & Ep & Hp & <-). set (p0 := (A0 * y0) mod 2 ^ 16) in *.
  assert (0 <= p1 < 2 ^ 16) as Hp1 by (unfold A0 in Ep; lia).
  rewrite (CARRY_ok p0 C) by (unfold C; lia).
  destruct (mod16 (p0 + C)) as (k0 & Ek & Hk & <-). set (p0' := (p0 + C) mod 2 ^ 16) in *.
  assert (0 <= k0 <= 1) as Hk0 by (unfold C in Ek; lia).
  rewrite (CARRY_ok p1 k0) by lia.
  destruct (mod16 (p1 + k0)) as (k1 & Ek1 & Hk1 & <-). set (p1' := (p1 + k0) mod 2 ^ 16) in *.
  destruct (mod16 (A0 * y1)) as (q1 & Eq & Hq & <-). set (q0 := (A0 * y1) mod 2 ^ 16) in *.
  rewrite (CARRY_ok p1' q0) by lia.
  destruct (mod16 (p1' + q0)) as (k2 & Ek2 & Hk2 & <-). set (p1'' := (p1' + q0) mod 2 ^ 16) in *.
  destruct (mod16 (A1 * y0)) as (r1 & Er & Hr & <-). set (r0 := (A1 * y0) mod 2 ^ 16) in *.
  rewrite (CARRY_ok p1'' r0) by lia.
  destruct (mod16 (p1'' + r0)) as (k3 & Ek3 & Hk3 & <-). set (n1 := (p1'' + r0) mod 2 ^ 16) in *.
  set (T := k2 + k1 + k3 + q1 + r1 + A0 * y2 + A1 * y1 + A2 * y0).
  destruct (mod16 T) as (k4 & Et & Ht & _). set (n2 := T mod 2 ^ 16) in *.
  assert (LOW p0' = p0') as -> by (rewrite LOW_mod; by apply Z.mod_small).
  split; [by split|]. unfold value, lcg. cbn [x0 x1 x2].
  apply (Z.mod_unique_pos _ _ (k4 + A1 * y2 + A2 * y1 + 2 ^ 16 * A2 * y2)); [lia|].
  unfold T, A0, A1, A2, C in *. lia.
Qed.

Lemma lrand_ok s : rand_ok s -> exists s', redisLrand48 s = (s', lcg (value s) / 2 ^ 17) /\
  rand_ok s' /\ value s' = lcg (value s).
Proof.
  intros Hs. unfold redisLrand48. destruct (next_ok s Hs) as [Hn Hv]. exists (next s).
  split; [|done]. f_equal. rewrite <- Hv. destruct Hn as [H0 H1 H2 _]. unfold value, N.
  rewrite (s32_small (x2 (next s))) by lia.
  rewrite Z.shiftl_mul_pow2, Z.shiftr_div_pow2 by lia. change (2 ^ (16 - 1)) with 32768. rewrite Z.pow_1_r.
  rewrite u32_small, s32_small by (Z.div_mod_to_equations; lia). Z.div_mod_to_equations; lia.
Qed.

(** The limb arithmetic is the 48-bit linear congruential generator of drand48:
    whatever the seed, the sequence of values redisLrand48 returns is the sequence of
    the upper 31 bits of x' = 0x5DEECE66D * x + 11 mod 2^48 started from the seed in
    the upper 32 bits and 0x330E below, so scripts see the same numbers on every
    machine. *)
Theorem redisLrand48_is_lcg seedval n :
  draw n (redisSrand48 seedval) = draw_spec n (seedval mod 2 ^ 32 * 2 ^ 16 + X0).
Proof.
  assert (rand_ok (redisSrand48 seedval) /\
    value (redisSrand48 seedval) = seedval mod 2 ^ 32 * 2 ^ 16 + X0) as [Hs Hv].
  { unfold redisSrand48, HIGH, N. rewrite !LOW_mod, Z.shiftr_div_pow2 by lia. split.
    - split; cbn [x0 x1 x2 a0 a1 a2 c]; try (apply Z.mod_pos_bound; lia); [unfold X0; lia|done].
    - unfold value. cbn [x0 x1 x2]. change (2 ^ 32) with (2 ^ 16 * 2 ^ 16) at 2.
      rewrite (Z.rem_mul_r seedval (2 ^ 16) (2 ^ 16)) by lia. lia. }
  rewrite <- Hv. clear Hv. revert Hs. generalize (redisSrand48 seedval).
  induction n as [|n IH]; intros s Hs; cbn [draw draw_spec]; [done|].
  destruct (lrand_ok s Hs) as (s' & -> & Hs' & Hv'). rewrite <- Hv'. by rewrite (IH s' Hs').
Qed.
