(* ===== verification/Sds.v ===== *)
(** * sds.c: dynamic strings

    A string is its header and the allocated bytes after it.  zmalloc and
    zrealloc abort the process when memory is exhausted, so they never return
    NULL here; the bytes zrealloc adds are arbitrary ([junk]). *)

From S2P Require Import Prelude Util.

Record sds := Sds { s_len : Z; s_free : Z; s_buf : list Z }.

Definition SDS_MAX_PREALLOC : Z := 1024 * 1024.

(** The characters up to the first NUL of a C string; no value without one. *)
Fixpoint strlen (b : list Z) : option Z :=
  match b with
  | [] => None
  | c :: b' => if c =? 0 then Some 0 else n ← strlen b'; Some (n + 1)
  end.

Definition sdslen (s : sds) : Z := uwrap 64 (s_len s).
Definition sdsavail (s : sds) : Z := uwrap 64 (s_free s).

(** [sdsnewlen(init, initlen)]; [init = None] is the NULL pointer, for which the
    memory is zeroed. *)
Definition sdsnewlen (init : option (list Z)) (initlen : Z) : option sds :=
  match init with
  | Some b => t ← rdn b 0 initlen; Some (Sds (swrap 32 initlen) 0 (t ++ [0]))
  | None => Some (Sds (swrap 32 initlen) 0 (replicate (Z.to_nat initlen) 0 ++ [0]))
  end.

Definition sdsempty : option sds := sdsnewlen (Some [0]) 0.

Definition sdsnew (init : option (list Z)) : option sds :=
  initlen ← match init with None => Some 0 | Some b => strlen b end;
  sdsnewlen init initlen.

Definition sdsdup (s : sds) : option sds := sdsnewlen (Some (s_buf s)) (sdslen s).

Definition sdsupdatelen (s : sds) : option sds :=
  reallen ← strlen (s_buf s);
  let reallen := swrap 32 reallen in
  Some (Sds reallen (swrap 32 (s_free s + (s_len s - reallen))) (s_buf s)).

Definition sdsclear (s : sds) : option sds :=
  b ← wr (s_buf s) 0 0;
  Some (Sds 0 (swrap 32 (s_free s + s_len s)) b).

Section Alloc.
Context (junk : nat -> Z).

Definition sdsMakeRoomFor (s : sds) (addlen : Z) : sds :=
  let free := sdsavail s in
  if addlen <=? free then s else
  let len := sdslen s in
  let newlen := uwrap 64 (len + addlen) in
  let newlen :=
    if newlen <? SDS_MAX_PREALLOC then uwrap 64 (newlen * 2)
    else uwrap 64 (newlen + SDS_MAX_PREALLOC) in
  Sds (s_len s) (swrap 32 (newlen - len)) (zrealloc junk (s_buf s) (newlen + 1)).

Definition sdsRemoveFreeSpace (s : sds) : sds :=
  Sds (s_len s) 0 (zrealloc junk (s_buf s) (s_len s + 1)).

Definition sdsAllocSize (s : sds) : Z := uwrap 64 (8 + s_len s + s_free s + 1).

Definition sdsIncrLen (s : sds) (incr : Z) : option sds :=
  _ ← cassert (incr <=? s_free s);
  let len := swrap 32 (s_len s + incr) in
  let free := swrap 32 (s_free s - incr) in
  _ ← cassert (0 <=? free);
  b ← wr (s_buf s) len 0;
  Some (Sds len free b).

Definition sdsgrowzero (s : sds) (len : Z) : option sds :=
  let curlen := uwrap 64 (s_len s) in
  if len <=? curlen then Some s else
  let s := sdsMakeRoomFor s (len - curlen) in
  b ← wrn (s_buf s) curlen (replicate (Z.to_nat (len - curlen + 1)) 0);
  let totlen := uwrap 64 (s_len s + s_free s) in
  let len' := swrap 32 len in
  Some (Sds len' (swrap 32 (totlen - len')) b).

Definition sdscatlen (s : sds) (t : list Z) (len : Z) : option sds :=
  let curlen := sdslen s in
  let s := sdsMakeRoomFor s len in
  src ← rdn t 0 len;
  b ← wrn (s_buf s) curlen src;
  b ← wr b (curlen + len) 0;
  Some (Sds (swrap 32 (curlen + len)) (swrap 32 (s_free s - len)) b).

Definition sdscat (s : sds) (t : list Z) : option sds :=
  n ← strlen t; sdscatlen s t n.

Definition sdscatsds (s t : sds) : option sds := sdscatlen s (s_buf t) (sdslen t).

Definition sdscpylen (s : sds) (t : list Z) (len : Z) : option sds :=
  let totlen := uwrap 64 (s_free s + s_len s) in
  let '(s, totlen) :=
    if totlen <? len then
      let s := sdsMakeRoomFor s (uwrap 64 (len - s_len s)) in
      (s, uwrap 64 (s_free s + s_len s))
    else (s, totlen) in
  src ← rdn t 0 len;
  b ← wrn (s_buf s) 0 src;
  b ← wr b len 0;
  Some (Sds (swrap 32 len) (swrap 32 (totlen - len)) b).

Definition sdscpy (s : sds) (t : list Z) : option sds :=
  n ← strlen t; sdscpylen s t n.

(** The buffer loop of sdscatvprintf: [text] is the whole output of the format,
    vsnprintf stores its first [buflen - 1] bytes and a NUL. *)
Fixpoint vprintf_loop (fuel : nat) (buflen : Z) (text : list Z) : option (list Z) :=
  match fuel with
  | O => None
  | S f =>
      let stored := take (Z.to_nat (buflen - 1)) text ++ [0] in
      let mark := if buflen - 2 <? zlen stored then rd stored (buflen - 2) else Some 0 in
      m ← mark;
      if negb (m =? 0) then vprintf_loop f (uwrap 64 (buflen * 2)) text else Some stored
  end.

(** [sdscatvprintf] with a format of [fmtlen] characters whose output is [text];
    the buffer starts at 1024 bytes or twice the format and doubles. *)
Definition sdscatvprintf (s : sds) (fmtlen : Z) (text : list Z) : option sds :=
  let buflen := fmtlen * 2 in
  let buflen := if 1024 <? buflen then buflen else 1024 in
  buf ← vprintf_loop 64 buflen text;
  sdscat s buf.

(** strchr(cset, c) != NULL: the terminator counts as a member of the set. *)
Definition strchr (cset : list Z) (c : Z) : bool := existsb (Z.eqb c) cset || (c =? 0).

(** The two scans of sdstrim. *)
Fixpoint trim_left (fuel : nat) (b : list Z) (cset : list Z) (sp end_ : Z) : option Z :=
  if sp <=? end_ then
    match fuel with
    | O => None
    | S f => c ← rd b sp; if strchr cset c then trim_left f b cset (sp + 1) end_ else Some sp
    end
  else Some sp.

Fixpoint trim_right (fuel : nat) (b : list Z) (cset : list Z) (ep : Z) : option Z :=
  if 0 <? ep then
    match fuel with
    | O => None
    | S f => c ← rd b ep; if strchr cset c then trim_right f b cset (ep - 1) else Some ep
    end
  else Some ep.

(** [sdstrim s cset]: [cset] is given without its terminator. *)
Definition sdstrim (s : sds) (cset : list Z) : option sds :=
  let end_ := sdslen s - 1 in
  sp ← trim_left (length (s_buf s)) (s_buf s) cset 0 end_;
  ep ← trim_right (length (s_buf s)) (s_buf s) cset end_;
  let len := if ep <? sp then 0 else ep - sp + 1 in
  b ← (if sp =? 0 then Some (s_buf s) else mmove (s_buf s) 0 sp len);
  b ← wr b len 0;
  Some (Sds (swrap 32 len) (swrap 32 (s_free s + (s_len s - len))) b).

Definition sdsrange (s : sds) (start end_ : Z) : option sds :=
  let len := sdslen s in
  if len =? 0 then Some s else
  let start :=
    if start <? 0 then
      let start := swrap 32 (len + start) in if start <? 0 then 0 else start
    else start in
  let end_ :=
    if end_ <? 0 then
      let end_ := swrap 32 (len + end_) in if end_ <? 0 then 0 else end_
    else end_ in
  let newlen := if end_ <? start then 0 else uwrap 64 (swrap 32 (end_ - start + 1)) in
  let '(start, newlen) :=
    if negb (newlen =? 0) then
      if swrap 32 len <=? start then (start, 0)
      else if swrap 32 len <=? end_ then
        let end_ := swrap 32 (len - 1) in
        (start, if end_ <? start then 0 else uwrap 64 (swrap 32 (end_ - start + 1)))
      else (start, newlen)
    else (0, newlen) in
  b ← (if negb (start =? 0) && negb (newlen =? 0)
       then mmove (s_buf s) 0 start newlen else Some (s_buf s));
  b ← wr b newlen 0;
  Some (Sds (swrap 32 newlen) (swrap 32 (s_free s + (s_len s - newlen))) b).

(** toupper() of the C locale. *)
Definition toupper (c : Z) : Z := if (97 <=? c) && (c <=? 122) then c - 32 else c.

(** [for (j = 0; j < len; j++) s[j] = f(s[j]);] *)
Fixpoint map_bytes (n : nat) (f : Z -> Z) (b : list Z) (j : Z) : option (list Z) :=
  match n with
  | O => Some b
  | S n' => c ← rd b j; b ← wr b j (f c); map_bytes n' f b (j + 1)
  end.

Definition sdstolower (s : sds) : option sds :=
  b ← map_bytes (Z.to_nat (swrap 32 (sdslen s))) tolower (s_buf s) 0;
  Some (Sds (s_len s) (s_free s) b).

Definition sdstoupper (s : sds) : option sds :=
  b ← map_bytes (Z.to_nat (swrap 32 (sdslen s))) toupper (s_buf s) 0;
  Some (Sds (s_len s) (s_free s) b).

(** The sign memcmp returns on [n] bytes. *)
Fixpoint memcmp (n : nat) (a b : list Z) : option Z :=
  match n with
  | O => Some 0
  | S n' =>
      match a, b with
      | x :: a', y :: b' =>
          if x =? y then memcmp n' a' b' else Some (if x <? y then -1 else 1)
      | _, _ => None
      end
  end.

Definition sdscmp (s1 s2 : sds) : option Z :=
  let l1 := sdslen s1 in
  let l2 := sdslen s2 in
  let minlen := if l1 <? l2 then l1 else l2 in
  cmp ← memcmp (Z.to_nat minlen) (s_buf s1) (s_buf s2);
  Some (if cmp =? 0 then swrap 32 (l1 - l2) else cmp).

(** [tokens[elements] = t; elements++], inside the allocated slots. *)
Definition push_token (slots : Z) (tokens : list sds) (t : sds) : option (list sds) :=
  if zlen tokens <? slots then Some (tokens ++ [t]) else None.

(** The search loop of sdssplitlen from position [j]. *)
Fixpoint split_loop (fuel : nat) (s : list Z) (len : Z) (sep : list Z) (seplen : Z)
    (slots start j : Z) (tokens : list sds) : option (Z * Z * list sds) :=
  if j <? len - (seplen - 1) then
    match fuel with
    | O => None
    | S f =>
        let slots := if slots <? zlen tokens + 2 then slots * 2 else slots in
        c ← rd s j;
        c0 ← rd sep 0;
        found ←
          (if (seplen =? 1) && (c =? c0) then Some true else
           a ← rdn s j seplen;
           b ← rdn sep 0 seplen;
           r ← memcmp (Z.to_nat seplen) a b;
           Some (r =? 0));
        if (found : bool) then
          src ← rdn s start (j - start);
          t ← sdsnewlen (Some src) (j - start);
          tokens ← push_token slots tokens t;
          split_loop f s len sep seplen slots (j + seplen) (j + seplen - 1 + 1) tokens
        else split_loop f s len sep seplen slots start (j + 1) tokens
    end
  else Some (slots, start, tokens).

(** [sdssplitlen]: [None] inside is the NULL result. *)
Definition sdssplitlen (s : list Z) (len : Z) (sep : list Z) (seplen : Z)
    : option (option (list sds)) :=
  if (seplen <? 1) || (len <? 0) then Some None else
  if len =? 0 then Some (Some []) else
  '(slots, start, tokens) ← split_loop (Z.to_nat len) s len sep seplen 5 0 0 [];
  src ← rdn s start (len - start);
  t ← sdsnewlen (Some src) (len - start);
  tokens ← push_token slots tokens t;
  Some (Some tokens).

Definition sdsfromlonglong (value : Z) : option sds :=
  p ← Num.ll_chars value;
  sdsnewlen (Some p) (zlen p).

(** isprint() and isspace() of the C locale. *)
Definition isprint (c : Z) : bool := (32 <=? c) && (c <=? 126).
Definition isspace (c : Z) : bool := (c =? 32) || ((9 <=? c) && (c <=? 13)).

(** The lower-case hexadecimal digit printf writes for a value below 16. *)
Definition hex_char (d : Z) : Z := if d <? 10 then 48 + d else 87 + d.

(** One character of sdscatrepr: lines 569 to 585. *)
Definition repr_char (s : sds) (c : Z) : option sds :=
  if (c =? ch_bslash) || (c =? ch_dquote) then sdscatvprintf s 3 [ch_bslash; c]
  else if c =? 10 then sdscatlen s [ch_bslash; 110] 2
  else if c =? 13 then sdscatlen s [ch_bslash; 114] 2
  else if c =? 9 then sdscatlen s [ch_bslash; 116] 2
  else if c =? 7 then sdscatlen s [ch_bslash; 97] 2
  else if c =? 8 then sdscatlen s [ch_bslash; 98] 2
  else if isprint c then sdscatvprintf s 2 [c]
  else sdscatvprintf s 6 [ch_bslash; 120; hex_char (c / 16); hex_char (c mod 16)].

Fixpoint repr_loop (s : sds) (p : list Z) : option sds :=
  match p with
  | [] => Some s
  | c :: p' => s ← repr_char s c; repr_loop s p'
  end.

(** [sdscatrepr(s, p, len)] with [p] the [len] bytes read. *)
Definition sdscatrepr (s : sds) (p : list Z) : option sds :=
  s ← sdscatlen s [ch_dquote] 1;
  s ← repr_loop s p;
  sdscatlen s [ch_dquote] 1.

Definition is_hex_digit (c : Z) : bool :=
  ((48 <=? c) && (c <=? 57)) || ((97 <=? c) && (c <=? 102)) || ((65 <=? c) && (c <=? 70)).

Definition hex_digit_to_int (c : Z) : Z :=
  if (48 <=? c) && (c <=? 57) then c - 48
  else if (97 <=? c) && (c <=? 102) then c - 87
  else if (65 <=? c) && (c <=? 70) then c - 55
  else 0.

(** The test of lines 659 to 661, with the reads of its short-circuit order. *)
Definition hex_escape (line : list Z) (p c : Z) : option bool :=
  if c =? ch_bslash then
    c1 ← rd line (p + 1);
    if c1 =? 120 then
      c2 ← rd line (p + 2);
      if is_hex_digit c2 then c3 ← rd line (p + 3); Some (is_hex_digit c3) else Some false
    else Some false
  else Some false.

(** Whether a closing quote at [p] may end the token. *)
Definition quote_end_ok (line : list Z) (p : Z) : option bool :=
  c1 ← rd line (p + 1); Some ((c1 =? 0) || isspace c1).

Inductive tstate :=
  | TGo (p : Z) (inq insq : bool) (current : sds)
  | TDone (p : Z) (current : sds)
  | TErr.

(** One turn of the token loop up to line 727, before the final advance. *)
Definition token_step (line : list Z) (p : Z) (inq insq : bool) (current : sds)
    : option tstate :=
  c ← rd line p;
  if inq then
    hex ← hex_escape line p c;
    if (hex : bool) then
      c2 ← rd line (p + 2);
      c3 ← rd line (p + 3);
      current ← sdscatlen current [uwrap 8 (hex_digit_to_int c2 * 16 + hex_digit_to_int c3)] 1;
      Some (TGo (p + 3) true false current)
    else
      esc ← (if c =? ch_bslash then c1 ← rd line (p + 1); Some (negb (c1 =? 0)) else Some false);
      if (esc : bool) then
        c1 ← rd line (p + 1);
        let ch :=
          if c1 =? 110 then 10 else if c1 =? 114 then 13 else if c1 =? 116 then 9
          else if c1 =? 98 then 8 else if c1 =? 97 then 7 else c1 in
        current ← sdscatlen current [ch] 1;
        Some (TGo (p + 1) true false current)
      else if c =? ch_dquote then
        ok ← quote_end_ok line p;
        if (ok : bool) then Some (TDone p current) else Some TErr
      else if c =? 0 then Some TErr
      else current ← sdscatlen current [c] 1; Some (TGo p true false current)
  else if insq then
    esc ← (if c =? ch_bslash then c1 ← rd line (p + 1); Some (c1 =? ch_squote) else Some false);
    if (esc : bool) then
      current ← sdscatlen current [ch_squote] 1; Some (TGo (p + 1) false true current)
    else if c =? ch_squote then
      ok ← quote_end_ok line p;
      if (ok : bool) then Some (TDone p current) else Some TErr
    else if c =? 0 then Some TErr
    else current ← sdscatlen current [c] 1; Some (TGo p false true current)
  else if (c =? 32) || (c =? 10) || (c =? 13) || (c =? 9) || (c =? 0) then Some (TDone p current)
  else if c =? ch_dquote then Some (TGo p true false current)
  else if c =? ch_squote then Some (TGo p false true current)
  else current ← sdscatlen current [c] 1; Some (TGo p false false current).

(** The pointer moves on unless it is on the terminator. *)
Definition advance (line : list Z) (p : Z) : option Z :=
  c ← rd line p; Some (if c =? 0 then p else p + 1).

(** [while(!done)]: the position and token at its end; [None] inside: goto err. *)
Fixpoint token_loop (fuel : nat) (line : list Z) (p : Z) (inq insq : bool) (current : sds)
    : option (option (Z * sds)) :=
  match fuel with
  | O => None
  | S f =>
      st ← token_step line p inq insq current;
      match st with
      | TErr => Some None
      | TGo p inq insq current => p ← advance line p; token_loop f line p inq insq current
      | TDone p current => p ← advance line p; Some (Some (p, current))
      end
  end.

(** The loop that skips blanks. *)
Fixpoint skip_blanks (fuel : nat) (line : list Z) (p : Z) : option Z :=
  match fuel with
  | O => None
  | S f =>
      c ← rd line p;
      if negb (c =? 0) && isspace c then skip_blanks f line (p + 1) else Some p
  end.

Fixpoint splitargs_loop (fuel : nat) (line : list Z) (p : Z) (vector : list sds)
    : option (option (list sds)) :=
  match fuel with
  | O => None
  | S f =>
      p ← skip_blanks (S (length line)) line p;
      c ← rd line p;
      if c =? 0 then Some (Some vector) else
      current ← sdsempty;
      r ← token_loop (S (length line)) line p false false current;
      match r with
      | None => Some None
      | Some (p, current) => splitargs_loop f line p (vector ++ [current])
      end
  end.

(** [sdssplitargs(line, argc)]; [None] inside is the NULL result. *)
Definition sdssplitargs (line : list Z) : option (option (list sds)) :=
  splitargs_loop (S (length line)) line 0 [].

(** The inner loop of sdsmapchars on one character. *)
Fixpoint mapchar (from to : list Z) (setlen : nat) (i : Z) (c : Z) : option Z :=
  match setlen with
  | O => Some c
  | S n =>
      a ← rd from i;
      if c =? a then rd to i else mapchar from to n (i + 1) c
  end.

Fixpoint mapchars_loop (n : nat) (b from to : list Z) (setlen : nat) (j : Z)
    : option (list Z) :=
  match n with
  | O => Some b
  | S n' =>
      c ← rd b j;
      c' ← mapchar from to setlen 0 c;
      b ← wr b j c';
      mapchars_loop n' b from to setlen (j + 1)
  end.

Definition sdsmapchars (s : sds) (from to : list Z) (setlen : nat) : option sds :=
  b ← mapchars_loop (Z.to_nat (sdslen s)) (s_buf s) from to setlen 0;
  Some (Sds (s_len s) (s_free s) b).

(** The loop of sdsjoin on the arguments left. *)
Fixpoint join_loop (join : sds) (argv : list (list Z)) (sep : list Z) : option sds :=
  match argv with
  | [] => Some join
  | a :: rest =>
      join ← sdscat join a;
      join ← match rest with [] => Some join | _ => sdscat join sep end;
      join_loop join rest sep
  end.

Definition sdsjoin (argv : list (list Z)) (sep : list Z) : option sds :=
  join ← sdsempty;
  join_loop join argv sep.

End Alloc.

(** ** Specification *)

Module SdsSpec.

(** [rep s x]: the string [s] holds the bytes [x], NUL-terminated, with its header
    in agreement with the allocation, whose size fits an int. *)
Definition rep (s : sds) (x : list Z) : Prop :=
  exists spare, s_buf s = x ++ 0 :: spare /\ s_len s = zlen x /\ s_free s = zlen spare /\
    zlen x + zlen spare + 1 < 2 ^ 31.

(** Strings the operations may grow to without overflowing the int fields: the
    preallocation at most doubles 1 MB or adds 1 MB. *)
Definition SDS_LIMIT : Z := 2 ^ 30.

Fixpoint ltrim (P : Z -> bool) (x : list Z) : list Z :=
  match x with
  | [] => []
  | c :: x' => if P c then ltrim P x' else x
  end.

Definition rtrim (P : Z -> bool) (x : list Z) : list Z := reverse (ltrim P (reverse x)).

(** The inclusive interval of sdsrange, negative indexes counting from the end. *)
Definition range_spec (x : list Z) (start end_ : Z) : list Z :=
  let len := zlen x in
  let from i := if i <? 0 then Z.max 0 (len + i) else i in
  let a := from start in
  let b := Z.min (from end_) (len - 1) in
  take (Z.to_nat (b - a + 1)) (drop (Z.to_nat a) x).

(** The operations that modify a string. *)
Inductive op :=
  | OCat (t : list Z)
  | OCpy (t : list Z)
  | OGrowzero (n : Z)
  | OMakeRoom (n : Z)
  | ORemoveFree
  | OClear
  | OTrim (cset : list Z)
  | ORange (start end_ : Z)
  | OTolower
  | OToupper.

Definition exec (junk : nat -> Z) (o : op) (s : sds) : option sds :=
  match o with
  | OCat t => sdscatlen junk s t (zlen t)
  | OCpy t => sdscpylen junk s t (zlen t)
  | OGrowzero n => sdsgrowzero junk s n
  | OMakeRoom n => Some (sdsMakeRoomFor junk s n)
  | ORemoveFree => Some (sdsRemoveFreeSpace junk s)
  | OClear => sdsclear s
  | OTrim cset => sdstrim s cset
  | ORange a b => sdsrange s a b
  | OTolower => sdstolower s
  | OToupper => sdstoupper s
  end.

(** What each operation does to the bytes. *)
Definition spec (o : op) (x : list Z) : list Z :=
  match o with
  | OCat t => x ++ t
  | OCpy t => t
  | OGrowzero n => if n <=? zlen x then x else x ++ replicate (Z.to_nat (n - zlen x)) 0
  | OMakeRoom _ | ORemoveFree => x
  | OClear => []
  | OTrim cset => rtrim (strchr cset) (ltrim (strchr cset) x)
  | ORange a b => range_spec x a b
  | OTolower => map tolower x
  | OToupper => map toupper x
  end.

(** The arguments fit their C types and the result is under the limit. *)
Definition op_ok (o : op) (x : list Z) : Prop :=
  match o with
  | OCat t => zlen x + zlen t <= SDS_LIMIT
  | OCpy t => zlen t <= SDS_LIMIT
  | OGrowzero n => 0 <= n <= SDS_LIMIT
  | OMakeRoom n => 0 <= n /\ zlen x + n <= SDS_LIMIT
  | ORange a b => in_s 32 a /\ in_s 32 b
  | _ => True
  end.

Fixpoint exec_all (junk : nat -> Z) (os : list op) (s : sds) : option sds :=
  match os with
  | [] => Some s
  | o :: os' => s ← exec junk o s; exec_all junk os' s
  end.

Fixpoint ops_ok (os : list op) (x : list Z) : Prop :=
  match os with
  | [] => True
  | o :: os' => op_ok o x /\ ops_ok os' (spec o x)
  end.

End SdsSpec.

(** ** Proofs: the operations *)

Module SdsFacts.
Import SdsSpec.

Section Facts.
Context (junk : nat -> Z).

Lemma rep_sdslen s x : rep s x -> sdslen s = zlen x.
Proof. intros (t & _ & E & _ & H). unfold sdslen. rewrite E. wrap_small. done. Qed.

Lemma rep_sdsavail s x : rep s x -> sdsavail s = s_free s /\ 0 <= s_free s < 2 ^ 31.
Proof.
  intros (t & _ & _ & E & H). unfold sdsavail. rewrite E.
  pose proof (zlen_nonneg x). wrap_small. zlia.
Qed.

Lemma MakeRoomFor_rep s x n :
  rep s x -> 0 <= n -> zlen x + n <= SDS_LIMIT ->
  rep (sdsMakeRoomFor junk s n) x /\ n <= s_free (sdsMakeRoomFor junk s n).
Proof.
  intros Hrep Hn Hl. unfold SDS_LIMIT in Hl. unfold sdsMakeRoomFor.
  rewrite (rep_sdslen _ _ Hrep). destruct (rep_sdsavail _ _ Hrep) as [-> Hf].
  destruct (Z.leb_spec n (s_free s)); [done|].
  destruct Hrep as (t & Eb & El & Ef & Hs). pose proof (zlen_nonneg x). pose proof (zlen_nonneg t).
  unfold SDS_MAX_PREALLOC. rewrite (u64_small (zlen x + n)) by lia.
  assert (exists nl, (if zlen x + n <? 1024 * 1024 then uwrap 64 ((zlen x + n) * 2)
    else uwrap 64 (zlen x + n + 1024 * 1024)) = nl /\ zlen x + n <= nl < 2 ^ 31 - 1)
    as (nl & -> & Hnl).
  { zcase; wrap_small; eexists; (split; [done|lia]). }
  rewrite s32_small by lia.
  destruct (zrealloc_grow junk (s_buf s) (nl + 1)) as (g & E & Hg); [rewrite Eb; zlia|].
  rewrite Eb in Hg. zlen_simpl. split; [|simpl; lia].
  exists (t ++ g). cbn [s_buf s_len s_free]. rewrite E, Eb, zlen_app.
  split_and!; [by rewrite <- (assoc_L (++))|done|lia|lia].
Qed.

Lemma catlen_rep s x t :
  rep s x -> zlen x + zlen t <= SDS_LIMIT ->
  exists s', sdscatlen junk s t (zlen t) = Some s' /\ rep s' (x ++ t).
Proof.
  intros Hrep Hl. pose proof (zlen_nonneg t).
  destruct (MakeRoomFor_rep s x (zlen t) Hrep) as [Hrep' Hfree]; [done|done|].
  unfold sdscatlen. rewrite (rep_sdslen _ _ Hrep).
  set (s1 := sdsMakeRoomFor junk s (zlen t)) in *.
  destruct Hrep' as (sp & Eb & El & Ef & Hs). unfold SDS_LIMIT in Hl. pose proof (zlen_nonneg x).
  rewrite rdn_whole. cbn [mbind option_bind].
  rewrite Eb.
  destruct (split_at (0 :: sp) (zlen t)) as (u & v & Euv & Hu & Hv); [zlia|].
  rewrite Euv, (wrn_app_mid x u t v) by (done || lia). cbn [mbind option_bind].
  destruct v as [|w v]; [zlia|].
  rewrite (assoc_L (++)), wr_app_mid by zlia. cbn [mbind option_bind].
  eexists. split; [done|]. exists v. cbn [s_buf s_len s_free]. rewrite Ef.
  zlen_simpl. wrap_small. split_and!; [done|done|lia|lia].
Qed.

(** Writing [y] and a terminator at the start of a buffer. *)
Lemma store_start b y :
  zlen y < zlen b ->
  exists sp, (b ← wrn b 0 y; wr b (zlen y) 0) = Some (y ++ 0 :: sp) /\
    zlen y + 1 + zlen sp = zlen b.
Proof.
  intros H. pose proof (zlen_nonneg y).
  destruct (split_at b (zlen y)) as (u & v & -> & Hu & Hv); [lia|].
  rewrite wrn_prefix by lia. cbn [mbind option_bind]. destruct v as [|w v]; [zlia|].
  rewrite wr_app_mid by lia. exists v. split; [done|zlia].
Qed.

Lemma cpylen_rep s x t :
  rep s x -> zlen t <= SDS_LIMIT ->
  exists s', sdscpylen junk s t (zlen t) = Some s' /\ rep s' t.
Proof.
  intros Hrep Hl. unfold sdscpylen. cbv zeta. pose proof (zlen_nonneg t) as Ht.
  set (s2 := sdsMakeRoomFor junk s (uwrap 64 (zlen t - s_len s))).
  assert (exists s1, (if uwrap 64 (s_free s + s_len s) <? zlen t
    then (s2, uwrap 64 (s_free s2 + s_len s2))
    else (s, uwrap 64 (s_free s + s_len s))) = (s1, s_free s1 + s_len s1) /\
    zlen t <= s_free s1 + s_len s1 < 2 ^ 31 - 1 /\ zlen (s_buf s1) = s_free s1 + s_len s1 + 1)
    as (s1 & -> & Htot & Hb).
  { assert (forall s' x', rep s' x' -> uwrap 64 (s_free s' + s_len s') = s_free s' + s_len s' /\
      0 <= s_free s' + s_len s' < 2 ^ 31 - 1 /\ zlen (s_buf s') = s_free s' + s_len s' + 1) as Hr.
    { intros s' x' (sp & -> & -> & -> & Hs). pose proof (zlen_nonneg x'). pose proof (zlen_nonneg sp).
      wrap_small. zlen_simpl. lia. }
    destruct (Hr _ _ Hrep) as (-> & Hr1 & Hr2). destruct (Z.ltb_spec (s_free s + s_len s) (zlen t)).
    - pose proof Hrep as (sp & _ & El & Ef & Hs). pose proof (zlen_nonneg x).
      pose proof (zlen_nonneg sp). unfold SDS_LIMIT in *. unfold s2. rewrite (u64_small (zlen t - s_len s)) by lia.
      destruct (MakeRoomFor_rep s x (zlen t - s_len s) Hrep) as [Hrep' Hfree];
        [lia|unfold SDS_LIMIT; lia|].
      destruct (Hr _ _ Hrep') as (-> & Hr3 & Hr4). eexists. split; [done|]. split; [|done].
      destruct Hrep' as (? & _ & El' & _). lia.
    - eexists. split; [done|]. lia. }
  rewrite rdn_whole. cbn [mbind option_bind].
  destruct (store_start (s_buf s1) t) as (sp & E & Hsp); [lia|].
  destruct (wrn (s_buf s1) 0 t) as [b|]; [|done]. cbn [mbind option_bind] in *. rewrite E.
  cbn [mbind option_bind]. eexists. split; [done|]. exists sp. cbn [s_buf s_len s_free].
  pose proof (zlen_nonneg sp). unfold SDS_LIMIT in Hl. wrap_small. split_and!; [done|done|lia|lia].
Qed.

Lemma growzero_rep s x n :
  rep s x -> 0 <= n <= SDS_LIMIT ->
  exists s', sdsgrowzero junk s n = Some s' /\ rep s' (spec (OGrowzero n) x).
Proof.
  intros Hrep Hn. unfold SDS_LIMIT in Hn. unfold sdsgrowzero. pose proof (rep_sdslen _ _ Hrep) as El.
  unfold sdslen in El. rewrite El. cbn [spec]. pose proof (zlen_nonneg x).
  destruct (Z.leb_spec n (zlen x)); [eauto|].
  destruct (MakeRoomFor_rep s x (n - zlen x) Hrep) as [Hrep' Hfree];
    [lia|unfold SDS_LIMIT; lia|].
  destruct Hrep' as (sp & Eb & El' & Ef & Hs).
  set (s1 := sdsMakeRoomFor junk s (n - zlen x)) in *. rewrite Eb.
  replace (Z.to_nat (n - zlen x + 1)) with (Z.to_nat (n - zlen x) + 1)%nat by lia.
  set (z := Z.to_nat (n - zlen x)).
  destruct (split_at (0 :: sp) (n - zlen x + 1)) as (u & v & Euv & Hu & Hv); [zlia|].
  rewrite Euv, (wrn_app_mid x u) by (rewrite ?zlen_replicate; unfold z; lia).
  cbn [mbind option_bind]. eexists. split; [done|]. exists v. cbn [s_buf s_len s_free].
  rewrite Ef, El'. zlen_simpl. wrap_small. unfold z in *. split_and!; try lia.
  rewrite replicate_add. by rewrite <- !(assoc_L (++)).
Qed.

Lemma RemoveFree_rep s x : rep s x -> rep (sdsRemoveFreeSpace junk s) x.
Proof.
  intros (sp & Eb & El & Ef & Hs). exists []. unfold sdsRemoveFreeSpace. cbn [s_buf s_len s_free].
  pose proof (zlen_nonneg x). pose proof (zlen_nonneg sp). split_and!; [|done|done|zlia].
  unfold zrealloc. rewrite El, Eb. change (x ++ 0 :: sp) with (x ++ [0] ++ sp).
  rewrite (assoc_L (++)), take_app_length' by (rewrite length_app; unfold zlen; simpl; lia).
  rewrite (proj2 (Nat.sub_0_le _ _)) by (rewrite !length_app; unfold zlen; simpl; lia).
  apply app_nil_r.
Qed.

Lemma clear_rep s x : rep s x -> exists s', sdsclear s = Some s' /\ rep s' [].
Proof.
  intros (sp & Eb & El & Ef & Hs). unfold sdsclear. pose proof (zlen_nonneg x).
  pose proof (zlen_nonneg sp).
  destruct (store_start (s_buf s) []) as (sp' & E & Hsp); [rewrite Eb; zlia|].
  unfold wrn in E. simpl in E. rewrite zlen_nil in *.
  rewrite (proj2 (Z.leb_le 0 _)) in E by (pose proof (zlen_nonneg (s_buf s)); lia). simpl in E.
  rewrite drop_0 in E. rewrite E. cbn [mbind option_bind]. eexists. split; [done|].
  exists sp'. cbn [s_buf s_len s_free]. rewrite Ef, El. wrap_small. rewrite Eb in Hsp. zlen_simpl.
  split_and!; [done|done|lia|lia].
Qed.

(** Keeping the middle part of a string, as sdstrim and sdsrange do. *)
Lemma keep_middle s x a y c (shift : bool) :
  rep s x -> x = a ++ y ++ c -> (shift = false -> a = [] \/ y = []) ->
  exists b sp,
    (if shift then mmove (s_buf s) 0 (zlen a) (zlen y) else Some (s_buf s)) = Some b /\
    wr b (zlen y) 0 = Some (y ++ 0 :: sp) /\
    rep (Sds (zlen y) (swrap 32 (s_free s + (s_len s - zlen y))) (y ++ 0 :: sp)) y.
Proof.
  intros (spare & Eb & El & Ef & Hs) -> Hsh. zlen_simpl.
  pose proof (zlen_nonneg a). pose proof (zlen_nonneg y). pose proof (zlen_nonneg c).
  pose proof (zlen_nonneg spare).
  assert (forall sp, zlen y + 1 + zlen sp = zlen (s_buf s) ->
    rep (Sds (zlen y) (swrap 32 (s_free s + (s_len s - zlen y))) (y ++ 0 :: sp)) y) as Hrep.
  { intros sp Hsp. rewrite Eb in Hsp. zlen_simpl. exists sp. cbn [s_buf s_len s_free].
    rewrite El, Ef. wrap_small. split_and!; [done|done|lia|lia]. }
  assert (zlen y < zlen (s_buf s)) as Hlt by (rewrite Eb; zlia).
  destruct (store_start (s_buf s) y Hlt) as (sp & E & Hsp).
  destruct shift.
  - unfold mmove. replace (rdn (s_buf s) (zlen a) (zlen y)) with (Some y)
      by (rewrite Eb, <- !(assoc_L (++)); symmetry; by apply rdn_app_mid).
    cbn [mbind option_bind]. destruct (wrn (s_buf s) 0 y) as [b|]; [|done].
    cbn [mbind option_bind] in E. exists b, sp. auto.
  - assert (wrn (s_buf s) 0 y = Some (s_buf s)) as Es.
    { rewrite Eb. destruct (Hsh eq_refl) as [-> | ->]; simpl.
      - rewrite <- !(assoc_L (++)). by apply wrn_prefix.
      - by rewrite <- (app_nil_l ((a ++ c) ++ 0 :: spare)), wrn_prefix. }
    rewrite Es in E. cbn [mbind option_bind] in E. exists (s_buf s), sp. auto.
Qed.

(** *** sdstrim *)

Lemma ltrim_suffix P x : exists l, x = l ++ ltrim P x /\ Forall (fun c => P c = true) l.
Proof.
  induction x as [|c x (l & E & Hl)]; [by exists []|]. simpl. destruct (P c) eqn:Ec.
  - exists (c :: l). split; [simpl; by f_equal|by constructor].
  - by exists [].
Qed.

Lemma ltrim_head P x c y : ltrim P x = c :: y -> P c = false.
Proof. induction x as [|d x IH]; simpl; [done|]. destruct (P d) eqn:E; [done|]. by intros [= -> ->]. Qed.

Lemma ltrim_all P x : Forall (fun c => P c = true) x -> ltrim P x = [].
Proof. induction 1 as [|c x Hc _ IH]; simpl; [done|]. by rewrite Hc. Qed.

Lemma ltrim_app_false P x c y : P c = false -> exists x', ltrim P (x ++ c :: y) = x' ++ c :: y.
Proof.
  intros Hc. induction x as [|d x [x' E]]; simpl; [rewrite Hc; by exists []|].
  destruct (P d); [eauto|by exists (d :: x)].
Qed.

Lemma rtrim_snoc P x c : rtrim P (x ++ [c]) = if P c then rtrim P x else x ++ [c].
Proof.
  unfold rtrim. rewrite reverse_snoc. simpl. destruct (P c); [done|].
  by rewrite reverse_cons, reverse_involutive.
Qed.

Lemma rtrim_app_keep P l m0 m :
  P m0 = false -> rtrim P (l ++ m0 :: m) = l ++ rtrim P (m0 :: m).
Proof.
  intros H0. induction m as [|c m IH] using rev_ind.
  - rewrite rtrim_snoc, H0. change [m0] with ([] ++ [m0]) at 2. by rewrite rtrim_snoc, H0.
  - change (m0 :: m ++ [c]) with ((m0 :: m) ++ [c]). rewrite (assoc_L (++)), !rtrim_snoc.
    destruct (P c); [done|]. by rewrite (assoc_L (++)).
Qed.

Lemma rtrim_prefix P x : exists r, x = rtrim P x ++ r.
Proof.
  induction x as [|c x (r & E)] using rev_ind; [by exists []|]. rewrite rtrim_snoc.
  destruct (P c); [|exists []; by rewrite app_nil_r].
  exists (r ++ [c]). by rewrite (assoc_L (++)), <- E.
Qed.

Lemma trim_left_ok cset rest : forall fuel pre tl,
  (length rest <= fuel)%nat ->
  trim_left fuel (pre ++ rest ++ tl) cset (zlen pre) (zlen pre + zlen rest - 1) =
    Some (zlen pre + zlen rest - zlen (ltrim (strchr cset) rest)).
Proof.
  induction rest as [|c rest IH]; intros fuel pre tl Hf.
  - change (zlen (@nil Z)) with 0. cbn [ltrim]. change (zlen (@nil Z)) with 0.
    destruct fuel; cbn [trim_left]; zdec; zeq.
  - destruct fuel as [|f]; [simpl in Hf; lia|]. cbn [trim_left ltrim app]. rewrite zlen_cons.
    pose proof (zlen_nonneg rest). zdec. rewrite rd_mid. cbn [mbind option_bind].
    destruct (strchr cset c); [|rewrite zlen_cons; f_equal; lia].
    replace (pre ++ c :: rest ++ tl) with ((pre ++ [c]) ++ rest ++ tl)
      by (by rewrite <- (assoc_L (++))).
    specialize (IH f (pre ++ [c]) tl ltac:(simpl in Hf; lia)).
    rewrite zlen_app in IH. change (zlen [c]) with 1 in IH.
    replace (zlen pre + (1 + zlen rest) - 1) with (zlen pre + 1 + zlen rest - 1) by lia.
    rewrite IH. f_equal. lia.
Qed.

(** The scan from the right stops on the last character kept, and not below 0. *)
Lemma trim_right_ok cset x : forall fuel tl,
  (length x <= fuel)%nat ->
  exists e, trim_right fuel (x ++ tl) cset (zlen x - 1) = Some e /\
    (rtrim (strchr cset) x = [] -> e <= 0 /\ e <= zlen x - 1) /\
    (rtrim (strchr cset) x <> [] -> e = zlen (rtrim (strchr cset) x) - 1).
Proof.
  induction x as [|c x IH] using rev_ind; intros fuel tl Hf.
  - exists (-1). destruct fuel; (split; [done|]); (split; [intros _; split; vm_compute; done|done]).
  - rewrite length_app in Hf. simpl in Hf. destruct fuel as [|f]; [lia|].
    rewrite rtrim_snoc, zlen_app. change (zlen [c]) with 1. cbn [trim_right].
    pose proof (zlen_nonneg x). replace (zlen x + 1 - 1) with (zlen x) by lia.
    rewrite <- (assoc_L (++)). cbn [app].
    destruct (Z.ltb_spec 0 (zlen x)) as [Hpos|Hz].
    + rewrite rd_mid. cbn [mbind option_bind]. destruct (strchr cset c).
      * destruct (IH f (c :: tl)) as (e & E & H1 & H2); [lia|].
        exists e. split; [done|]. split; [intros Hn; destruct (H1 Hn); lia|done].
      * exists (zlen x). split; [done|]. split; [intros Hn; by destruct x|].
        intros _. zlia.
    + assert (x = []) as -> by (apply zlen_0_inv; lia). exists 0. rewrite zlen_nil.
      split; [done|]. split; [lia|]. intros Hn. destruct (strchr cset c); [done|].
      simpl. done.
Qed.

Lemma trim_rep s x cset :
  rep s x -> exists s', sdstrim s cset = Some s' /\ rep s' (spec (OTrim cset) x).
Proof.
  intros Hrep. unfold sdstrim. rewrite (rep_sdslen _ _ Hrep). cbn [spec].
  set (P := strchr cset). pose proof Hrep as (spare & Eb & El & Ef & Hs).
  assert (length x <= length (s_buf s))%nat as Hlen by (rewrite Eb, length_app; lia).
  rewrite Eb. rewrite Eb in Hlen.
  pose proof (trim_left_ok cset x _ [] (0 :: spare) Hlen) as El1.
  change (zlen (@nil Z)) with 0 in El1. rewrite ?Z.add_0_l in El1. cbn [app] in El1. rewrite El1. cbn [mbind option_bind].
  destruct (trim_right_ok cset x _ (0 :: spare) Hlen) as (e & -> & He1 & He2).
  cbn [mbind option_bind]. fold P in He1, He2 |- *.
  destruct (ltrim_suffix P x) as (l & Ex & Hl). pose proof (zlen_nonneg x). pose proof (zlen_nonneg l).
  pose proof (f_equal zlen Ex) as Exl. rewrite zlen_app in Exl.
  destruct (ltrim P x) as [|m0 m] eqn:Em.
  - assert (rtrim P x = []) as Er.
    { unfold rtrim. rewrite ltrim_all; [done|]. rewrite app_nil_r in Ex. rewrite Ex.
      by apply Forall_reverse. }
    destruct (He1 Er). rewrite zlen_nil in *.
    replace (if e <? zlen x - 0 then 0 else e - (zlen x - 0) + 1) with 0 by (zcase; lia).
    destruct (keep_middle s x x [] [] (negb (zlen x - 0 =? 0)) Hrep) as (b & sp & E & Ew & Hr).
    { by rewrite app_nil_r. }
    { intros _. by right. }
    change (zlen (@nil Z)) with 0 in *. rewrite Eb in E. rewrite !Z.sub_0_r in *.
    replace (rtrim P []) with (@nil Z) by done.
    replace (zlen x - 0) with (zlen x) by lia.
    rewrite <- if_negb, E. cbn [mbind option_bind]. rewrite Ew. cbn [mbind option_bind].
    eexists. split; [done|]. exact Hr.
  - assert (P m0 = false) as Hm0 by (eapply ltrim_head; exact Em).
    destruct (rtrim_prefix P (m0 :: m)) as (r & Er). set (y := rtrim P (m0 :: m)) in *.
    assert (rtrim P x = l ++ y) as Erx by (rewrite Ex; by apply rtrim_app_keep).
    assert (y <> []) as Hy.
    { unfold y. change (m0 :: m) with ([] ++ m0 :: m). intros E0.
      assert (exists y', rtrim P (m0 :: m) = m0 :: y') as (y' & Ey').
      { clear -Hm0. induction m as [|c m [y' IH]] using rev_ind.
        - exists []. change [m0] with ([] ++ [m0]). by rewrite rtrim_snoc, Hm0.
        - change (m0 :: m ++ [c]) with ((m0 :: m) ++ [c]). rewrite rtrim_snoc.
          destruct (P c); [eauto|by exists (m ++ [c])]. }
      simpl in E0. by rewrite Ey' in E0. }
    assert (0 < zlen y) as Hzy by (destruct y; [done|zlia]).
    rewrite Erx, zlen_app in He2. rewrite He2 by (by destruct l).
    rewrite Exl. replace (zlen l + zlen (m0 :: m) - zlen (m0 :: m)) with (zlen l) by lia.
    replace (if zlen l + zlen y - 1 <? zlen l then 0 else zlen l + zlen y - 1 - zlen l + 1)
      with (zlen y) by (zcase; lia).
    destruct (keep_middle s x l y r (negb (zlen l =? 0)) Hrep) as (b & sp & E & Ew & Hr).
    { by rewrite <- Er. }
    { intros E0. left. apply zlen_0_inv. destruct (Z.eqb_spec (zlen l) 0); done. }
    pose proof (zlen_nonneg y). pose proof (f_equal zlen Er) as Erl. rewrite zlen_app in Erl.
    pose proof (zlen_nonneg r). pose proof (zlen_nonneg spare).
    rewrite (s32_small (zlen y)) by lia. rewrite Eb in E.
    rewrite <- if_negb, E. cbn [mbind option_bind]. rewrite Ew. cbn [mbind option_bind].
    eexists. split; [done|]. exact Hr.
Qed.

(** *** sdsrange *)

(** The interval computed by the code: where it starts and how long it is. *)
Definition range_code (len start end_ : Z) : Z * Z :=
  let newlen := if end_ <? start then 0 else uwrap 64 (swrap 32 (end_ - start + 1)) in
  if negb (newlen =? 0) then
    if swrap 32 len <=? start then (start, 0)
    else if swrap 32 len <=? end_ then
      let end_ := swrap 32 (len - 1) in
      (start, if end_ <? start then 0 else uwrap 64 (swrap 32 (end_ - start + 1)))
    else (start, newlen)
  else (0, newlen).

Lemma range_code_ok len a b :
  0 < len < 2 ^ 31 -> 0 <= a < 2 ^ 31 -> 0 <= b < 2 ^ 31 ->
  exists st, range_code len a b = (st, Z.max 0 (Z.min b (len - 1) - a + 1)) /\
    (0 < Z.min b (len - 1) - a + 1 -> st = a).
Proof.
  intros Hl Ha Hb. unfold range_code. rewrite (s32_small len), (s32_small (len - 1)) by lia.
  destruct (Z.ltb_spec b a).
  { simpl. exists 0. split; [zeq|lia]. }
  assert (negb (uwrap 64 (swrap 32 (b - a + 1)) =? 0) = true) as ->.
  { destruct (decide (b - a + 1 = 2 ^ 31)) as [->|Hne]; [done|]. wrap_small. zdec. done. }
  destruct (Z.leb_spec len a).
  { exists a. split; [zeq|done]. }
  destruct (Z.leb_spec len b).
  - zdec. wrap_small. exists a. split; [zeq|done].
  - wrap_small. exists a. split; [zeq|done].
Qed.

Lemma range_index_ok len i :
  0 <= len < 2 ^ 31 -> in_s 32 i ->
  (if i <? 0 then if swrap 32 (len + i) <? 0 then 0 else swrap 32 (len + i) else i) =
    (if i <? 0 then Z.max 0 (len + i) else i) /\
  0 <= (if i <? 0 then Z.max 0 (len + i) else i) < 2 ^ 31.
Proof.
  unfold in_s. change (2 ^ (32 - 1)) with (2 ^ 31). intros Hl Hi.
  destruct (Z.ltb_spec i 0); [|lia]. wrap_small.
  destruct (Z.ltb_spec (len + i) 0); lia.
Qed.

Lemma range_rep s x a b :
  rep s x -> in_s 32 a -> in_s 32 b ->
  exists s', sdsrange s a b = Some s' /\ rep s' (spec (ORange a b) x).
Proof.
  intros Hrep Ha Hb. unfold sdsrange. rewrite (rep_sdslen _ _ Hrep). cbn [spec]. cbv zeta.
  pose proof Hrep as (spare & Eb & El & Ef & Hs). pose proof (zlen_nonneg x) as Hx.
  pose proof (zlen_nonneg spare). unfold range_spec.
  destruct (Z.eqb_spec (zlen x) 0) as [E0|Hne].
  { eexists. split; [done|]. rewrite (zlen_0_inv _ E0) in *. by rewrite drop_nil, take_nil. }
  destruct (range_index_ok (zlen x) a) as [-> HA]; [lia|done|].
  destruct (range_index_ok (zlen x) b) as [-> HB]; [lia|done|].
  set (A := if a <? 0 then _ else _) in *. set (B := if b <? 0 then _ else _) in *.
  destruct (range_code_ok (zlen x) A B) as (st & E & Est); [lia|done|done|].
  unfold range_code in E. cbv zeta in E |- *. rewrite E. clear E.
  set (n := Z.min B (zlen x - 1) - A + 1) in *.
  assert (exists p y c, x = p ++ y ++ c /\ zlen y = Z.max 0 n /\ (y = [] \/ zlen p = st) /\
    y = take (Z.to_nat n) (drop (Z.to_nat A) x)) as (p & y & c & Ex & Hy & Hp & Ey).
  { destruct (Z.ltb_spec 0 n) as [Hpos|Hneg].
    - rewrite Est by done. destruct (split_at x A) as (p & q & -> & Hp & Hq); [lia|].
      destruct (split_at q n) as (y & c & -> & Hy & Hc); [lia|].
      exists p, y, c. split_and!; [done|lia|auto|].
      rewrite drop_app_length' by (unfold zlen in Hp; lia).
      by rewrite take_app_length' by (unfold zlen in Hy; lia).
    - exists x, [], []. split_and!; [by rewrite app_nil_r|zlia|auto|].
      by replace (Z.to_nat n) with 0%nat by lia. }
  rewrite <- Hy, <- Ey.
  destruct (keep_middle s x p y c (negb (st =? 0) && negb (zlen y =? 0)) Hrep Ex)
    as (b1 & sp & E & Ew & Hr).
  { intros E%andb_false_iff. destruct Hp as [-> | Hp]; [auto|].
    destruct E as [E|E]; bool_to_prop; [left|right]; apply zlen_0_inv; lia. }
  assert (zlen y <= zlen x) by (rewrite Ex; zlia). pose proof (zlen_nonneg y).
  assert ((if negb (st =? 0) && negb (zlen y =? 0) then mmove (s_buf s) 0 st (zlen y)
    else Some (s_buf s)) = Some b1) as ->.
  { destruct Hp as [-> | <-]; [|exact E]. change (zlen (@nil Z) =? 0) with true in *.
    rewrite andb_false_r in *. exact E. }
  cbn [mbind option_bind]. rewrite Ew. cbn [mbind option_bind].
  rewrite (s32_small (zlen y)) by lia. eexists. split; [done|]. exact Hr.
Qed.

(** *** In-place maps *)

Lemma map_bytes_ok f x : forall pre tl,
  map_bytes (length x) f (pre ++ x ++ tl) (zlen pre) = Some (pre ++ map f x ++ tl).
Proof.
  induction x as [|c x IH]; intros pre tl; [done|]. cbn [map_bytes length app map].
  rewrite rd_mid. cbn [mbind option_bind]. rewrite wr_app_mid by done. cbn [mbind option_bind].
  replace (pre ++ f c :: x ++ tl) with ((pre ++ [f c]) ++ x ++ tl) by (by rewrite <- (assoc_L (++))).
  replace (zlen pre + 1) with (zlen (pre ++ [f c])) by zlia.
  rewrite IH. by rewrite <- (assoc_L (++)).
Qed.

Lemma map_rep s x f :
  rep s x -> exists b, map_bytes (Z.to_nat (swrap 32 (sdslen s))) f (s_buf s) 0 = Some b /\
    rep (Sds (s_len s) (s_free s) b) (map f x).
Proof.
  intros Hrep. rewrite (rep_sdslen _ _ Hrep). destruct Hrep as (sp & Eb & El & Ef & Hs).
  pose proof (zlen_nonneg x). pose proof (zlen_nonneg sp). rewrite s32_small by lia.
  replace (Z.to_nat (zlen x)) with (length x) by (unfold zlen; lia). rewrite Eb.
  pose proof (map_bytes_ok f x [] (0 :: sp)) as E. simpl in E.
  change (zlen (@nil Z)) with 0 in E. rewrite E. eexists. split; [done|].
  exists sp. cbn [s_buf s_len s_free].
  assert (zlen (map f x) = zlen x) as -> by (unfold zlen; by rewrite length_map). auto.
Qed.

(** Every operation refines its effect on the bytes. *)
Lemma exec_rep o s x :
  rep s x -> op_ok o x -> exists s', exec junk o s = Some s' /\ rep s' (spec o x).
Proof.
  intros Hrep Hok. destruct o; cbn [exec op_ok] in *.
  - by apply catlen_rep.
  - by apply cpylen_rep with x.
  - by apply growzero_rep.
  - destruct Hok. eexists. split; [done|]. by apply MakeRoomFor_rep.
  - eexists. split; [done|]. by apply RemoveFree_rep.
  - by apply clear_rep with x.
  - by apply trim_rep.
  - destruct Hok. by apply range_rep.
  - destruct (map_rep s x tolower Hrep) as (b & E & Hr). unfold sdstolower. rewrite E.
    cbn [mbind option_bind]. eauto.
  - destruct (map_rep s x toupper Hrep) as (b & E & Hr). unfold sdstoupper. rewrite E.
    cbn [mbind option_bind]. eauto.
Qed.

End Facts.
End SdsFacts.

Import SdsSpec.

(** C22. The string operations implement byte strings: from a string that holds
    the bytes [x] with a consistent header, any sequence of the operations
    (append, copy, grow, reserve, shrink, clear, trim, range, case folding) whose
    results stay under 2^30 bytes runs without an access outside the allocation
    or a failed assertion, keeps the header consistent and the terminator in
    place, and ends with the bytes the pure specification computes. *)
Theorem sds_refines junk os s x :
  rep s x -> ops_ok os x ->
  exists s', exec_all junk os s = Some s' /\ rep s' (fold_left (fun y o => spec o y) os x).
Proof.
  revert s x. induction os as [|o os IH]; intros s x Hrep Hok; simpl in *; [eauto|].
  destruct Hok as [Ho Hos]. destruct (SdsFacts.exec_rep junk o s x Hrep Ho) as (s1 & -> & H1).
  cbn [mbind option_bind]. by apply IH.
Qed.

Lemma sds_refines_witness :
  exists s', exec_all (fun _ => 170)
      [OCat [32; 72; 105; 32]; OTrim [32]; OGrowzero 7; ORange (-6) 3; OToupper]
      (Sds 2 1 [32; 97; 0; 5]) = Some s' /\ rep s' [32; 72; 73].
Proof.
  apply (sds_refines (fun _ => 170)
    [OCat [32; 72; 105; 32]; OTrim [32]; OGrowzero 7; ORange (-6) 3; OToupper]
    (Sds 2 1 [32; 97; 0; 5]) [32; 97]).
  - exists [5]. vm_compute. auto.
  - vm_compute. intuition discriminate.
Defined.

(** ** Proofs: quoting and splitting *)

Module QuoteFacts.
Import SdsSpec SdsFacts.

(** What sdscatrepr writes for one byte. *)
Definition esc (c : Z) : list Z :=
  if (c =? ch_bslash) || (c =? ch_dquote) then [ch_bslash; c]
  else if c =? 10 then [ch_bslash; 110]
  else if c =? 13 then [ch_bslash; 114]
  else if c =? 9 then [ch_bslash; 116]
  else if c =? 7 then [ch_bslash; 97]
  else if c =? 8 then [ch_bslash; 98]
  else if isprint c then [c]
  else [ch_bslash; 120; hex_char (c / 16); hex_char (c mod 16)].

Definition quoted (x : list Z) : list Z := [ch_dquote] ++ concat (map esc x) ++ [ch_dquote].

(** The bytes of a string. *)
Definition content (s : sds) : list Z := take (Z.to_nat (s_len s)) (s_buf s).

Lemma rep_content s x : rep s x -> content s = x.
Proof.
  intros (sp & Eb & El & _). unfold content. rewrite Eb, El.
  by rewrite take_app_length' by (unfold zlen; lia).
Qed.

Lemma rep_unique s x y : rep s x -> rep s y -> x = y.
Proof. intros Hx Hy. by rewrite <- (rep_content _ _ Hx), (rep_content _ _ Hy). Qed.

Section Quote.
Context (junk : nat -> Z).

Lemma catlen_prefix_rep s x t r :
  rep s x -> zlen x + zlen t <= SDS_LIMIT ->
  exists s', sdscatlen junk s (t ++ r) (zlen t) = Some s' /\ rep s' (x ++ t).
Proof.
  intros Hrep Hl. destruct (catlen_rep junk s x t Hrep Hl) as (s' & E & H).
  exists s'. split; [|done]. unfold sdscatlen in *. rewrite rdn_whole in E.
  by rewrite rdn_prefix.
Qed.

Lemma strlen_nul t r : Forall (fun c => c <> 0) t -> strlen (t ++ 0 :: r) = Some (zlen t).
Proof.
  induction 1 as [|c t Hc _ IH]; [done|]. cbn [strlen app]. zdec. rewrite IH.
  cbn [mbind option_bind]. rewrite zlen_cons. f_equal. lia.
Qed.

Lemma cat_rep s x t :
  rep s x -> zlen x + zlen t <= SDS_LIMIT -> Forall (fun c => c <> 0) t ->
  exists s', sdscat junk s (t ++ [0]) = Some s' /\ rep s' (x ++ t).
Proof.
  intros. unfold sdscat. rewrite strlen_nul by done. cbn [mbind option_bind].
  by apply catlen_prefix_rep.
Qed.

Lemma vprintf_fits f n t : zlen t < n - 2 -> vprintf_loop (S f) n t = Some (t ++ [0]).
Proof.
  intros H. cbn [vprintf_loop]. rewrite take_ge by (unfold zlen in H; lia).
  replace (n - 2 <? zlen (t ++ [0])) with false by (symmetry; apply Z.ltb_ge; zlia).
  done.
Qed.

(** Formats whose output is short and has no NUL are appended whole. *)
Lemma catvprintf_rep s x n t :
  rep s x -> zlen x + zlen t <= SDS_LIMIT -> Forall (fun c => c <> 0) t ->
  n <= 512 -> zlen t < 1022 ->
  exists s', sdscatvprintf junk s n t = Some s' /\ rep s' (x ++ t).
Proof.
  intros Hrep Hl Ht Hn Hlen. unfold sdscatvprintf. zdec.
  rewrite (vprintf_fits 63) by lia. cbn [mbind option_bind].
  by apply cat_rep.
Qed.

Lemma hex_char_digit d : 0 <= d < 16 -> is_hex_digit (hex_char d) = true /\
  hex_digit_to_int (hex_char d) = d /\ hex_char d <> 0.
Proof.
  intros Hd. unfold is_hex_digit, hex_digit_to_int, hex_char.
  destruct (Z.ltb_spec d 10).
  - assert ((48 <=? 48 + d) && (48 + d <=? 57) = true) as -> by (zdec; done).
    simpl. split_and!; lia.
  - assert ((48 <=? 87 + d) && (87 + d <=? 57) = false) as -> by (zdec; done).
    assert ((97 <=? 87 + d) && (87 + d <=? 102) = true) as -> by (zdec; done).
    simpl. split_and!; lia.
Qed.

Lemma byte_hex c : byte_ok c -> 0 <= c / 16 < 16 /\ 0 <= c mod 16 < 16 /\ c / 16 * 16 + c mod 16 = c.
Proof. unfold byte_ok. intros. Z.to_euclidean_division_equations. lia. Qed.

Lemma esc_ok c : byte_ok c -> Forall (fun c => c <> 0) (esc c) /\ 1 <= zlen (esc c) <= 4.
Proof.
  intros Hc. destruct (byte_hex c Hc) as (H1 & H2 & _).
  destruct (hex_char_digit _ H1) as (_ & _ & Hn1). destruct (hex_char_digit _ H2) as (_ & _ & Hn2).
  unfold esc, isprint. repeat case_match; bool_to_prop;
    (split; [repeat constructor; lia|vm_compute; split; discriminate]).
Qed.

Lemma repr_char_rep s x c :
  rep s x -> byte_ok c -> zlen x + 4 <= SDS_LIMIT ->
  exists s', repr_char junk s c = Some s' /\ rep s' (x ++ esc c).
Proof.
  intros Hrep Hc Hl. destruct (esc_ok c Hc) as [Hne Hlen]. revert Hne Hlen.
  unfold repr_char, esc.
  repeat case_match; intros Hne Hlen;
    (apply catvprintf_rep; [done|lia|done|lia|lia]) || (apply (catlen_rep junk s x [_; _]); [done|lia]).
Qed.

Lemma zlen_escs p : bytes_ok p -> 0 <= zlen (concat (map esc p)) <= 4 * zlen p.
Proof.
  induction 1 as [|c p Hc _ IH]; [vm_compute; split; discriminate|]. simpl.
  destruct (esc_ok c Hc). zlia.
Qed.

Lemma repr_loop_rep p : forall s x,
  rep s x -> bytes_ok p -> zlen x + 4 * zlen p <= SDS_LIMIT ->
  exists s', repr_loop junk s p = Some s' /\ rep s' (x ++ concat (map esc p)).
Proof.
  induction p as [|c p IH]; intros s x Hrep Hok Hl; cbn [repr_loop map concat].
  { rewrite app_nil_r. eauto. }
  inversion Hok as [|? ? Hc Hp]; subst. rewrite zlen_cons in Hl. pose proof (zlen_nonneg p).
  destruct (repr_char_rep s x c Hrep Hc) as (s1 & -> & H1); [lia|]. cbn [mbind option_bind].
  destruct (esc_ok c Hc) as [_ Hlen].
  destruct (IH s1 (x ++ esc c) H1 Hp) as (s2 & E & H2); [zlia|].
  exists s2. split; [done|]. by rewrite (assoc_L (++)).
Qed.

Lemma catrepr_rep s x p :
  rep s x -> bytes_ok p -> zlen x + 4 * zlen p + 2 <= SDS_LIMIT ->
  exists s', sdscatrepr junk s p = Some s' /\ rep s' (x ++ quoted p).
Proof.
  intros Hrep Hok Hl. unfold sdscatrepr, quoted. pose proof (zlen_nonneg p).
  pose proof (zlen_escs p Hok).
  destruct (catlen_rep junk s x [ch_dquote] Hrep) as (s1 & E1 & H1);
    [change (zlen [ch_dquote]) with 1; lia|].
  change (zlen [ch_dquote]) with 1 in E1. rewrite E1. cbn [mbind option_bind].
  destruct (repr_loop_rep p s1 _ H1 Hok) as (s2 & -> & H2); [zlia|]. cbn [mbind option_bind].
  destruct (catlen_rep junk s2 _ [ch_dquote] H2) as (s3 & E3 & H3); [zlia|].
  change (zlen [ch_dquote]) with 1 in E3. rewrite E3. exists s3. split; [done|].
  by rewrite <- !(assoc_L (++)) in H3.
Qed.

Lemma rd_here (pre l : list Z) : rd (pre ++ l) (zlen pre) = rd l 0.
Proof. rewrite <- (Z.add_0_r (zlen pre)) at 1. by rewrite rd_app_plus by lia. Qed.

(** Reads at known distances from the current position. *)
Ltac read_here :=
  rewrite ?rd_app_plus, ?rd_here by lia;
  repeat match goal with
  | |- context [rd (?a :: ?l) 0] => change (rd (a :: l) 0) with (Some a)
  | |- context [rd (?a :: ?b :: ?l) 1] => change (rd (a :: b :: l) 1) with (Some b)
  | |- context [rd (?a :: ?b :: ?c :: ?l) 2] =>
      change (rd (a :: b :: c :: l) 2) with (Some c)
  | |- context [rd (?a :: ?b :: ?c :: ?d :: ?l) 3] =>
      change (rd (a :: b :: c :: d :: l) 3) with (Some d)
  end; cbn [mbind option_bind].

(** One escaped byte inside double quotes is read back by one turn of the loop. *)
Lemma token_esc pre c rest cur x f :
  byte_ok c -> rep cur x -> zlen x + 1 <= SDS_LIMIT ->
  exists cur', rep cur' (x ++ [c]) /\
    token_loop junk (S f) (pre ++ esc c ++ rest) (zlen pre) true false cur =
    token_loop junk f (pre ++ esc c ++ rest) (zlen pre + zlen (esc c)) true false cur'.
Proof.
  intros Hc Hrep Hl. destruct (catlen_rep junk cur x [c] Hrep) as (cur' & Ecat & Hcur');
    [change (zlen [c]) with 1; lia|]. change (zlen [c]) with 1 in Ecat.
  exists cur'. split; [done|]. cbn [token_loop]. unfold token_step, hex_escape, quote_end_ok, advance.
  destruct (byte_hex c Hc) as (H1 & H2 & H3).
  destruct (hex_char_digit _ H1) as (D1 & I1 & N1). destruct (hex_char_digit _ H2) as (D2 & I2 & N2).
  assert (forall k, 0 <= k -> zlen pre + k + 1 = zlen pre + (k + 1)) as Eadd by (intros; lia).
  unfold esc. unfold byte_ok in Hc.
  destruct ((c =? ch_bslash) || (c =? ch_dquote)) eqn:E1.
  { apply orb_true_iff in E1. cbn [app]. read_here.
    destruct E1 as [E1|E1]; bool_to_prop; subst c; simpl (_ =? _); cbv iota; cbn [mbind option_bind negb];
      read_here; simpl (_ =? _); cbv iota; cbn [mbind option_bind negb]; read_here;
      rewrite Ecat; cbn [mbind option_bind]; read_here; by rewrite Eadd by lia. }
  apply orb_false_iff in E1 as [Eb Eq].
  repeat match goal with
  | |- context [if c =? ?n then [_; _] else _] =>
      destruct (c =? n) eqn:?;
      [ bool_to_prop; subst c; cbn [app]; read_here; simpl (_ =? _); cbv iota;
        cbn [mbind option_bind negb]; read_here; simpl (_ =? _); cbv iota;
        cbn [mbind option_bind negb]; read_here; simpl (_ =? _); cbv iota; rewrite Ecat;
        cbn [mbind option_bind]; read_here; by rewrite Eadd by lia | ]
  end.
  destruct (isprint c) eqn:Ep; cbn [app]; read_here.
  - rewrite Eb. cbn [mbind option_bind]. rewrite Eq.
    unfold isprint in Ep. bool_to_prop.
    replace (c =? 0) with false by (symmetry; apply Z.eqb_neq; lia). rewrite Ecat.
    cbn [mbind option_bind]. read_here. by replace (c =? 0) with false by (symmetry; apply Z.eqb_neq; lia).
  - simpl (ch_bslash =? ch_bslash). cbv iota. read_here. simpl (120 =? 120). cbv iota. read_here.
    rewrite D1. read_here. rewrite D2. read_here. rewrite I1, I2, H3, u8_small by lia.
    rewrite Ecat. cbn [mbind option_bind]. read_here.
    replace (hex_char (c mod 16) =? 0) with false by (symmetry; by apply Z.eqb_neq).
    by rewrite Eadd by lia.
Qed.

Definition blank (c : Z) : Prop := isspace c = true.

Lemma blank_nonzero c : blank c -> c <> 0.
Proof. intros H ->. done. Qed.

Lemma token_quoted x : forall pre r0 rest cur y f,
  bytes_ok x -> rep cur y -> zlen y + zlen x <= SDS_LIMIT -> r0 = 0 \/ blank r0 ->
  (length x < f)%nat ->
  exists cur', rep cur' (y ++ x) /\
    token_loop junk f (pre ++ concat (map esc x) ++ ch_dquote :: r0 :: rest) (zlen pre) true false cur =
      Some (Some (zlen pre + zlen (concat (map esc x)) + 1, cur')).
Proof.
  induction x as [|c x IH]; intros pre r0 rest cur y f Hok Hrep Hl Hr Hf;
    (destruct f as [|f]; [simpl in Hf; lia|]).
  - exists cur. rewrite app_nil_r. split; [done|]. cbn [map concat app token_loop].
    unfold token_step, hex_escape, quote_end_ok, advance. read_here. simpl (_ =? _). cbv iota.
    cbn [mbind option_bind]. read_here.
    assert ((r0 =? 0) || isspace r0 = true) as ->.
    { destruct Hr as [-> | ->]; [done|]. apply orb_true_r. }
    cbn [mbind option_bind]. read_here. simpl (_ =? 0). cbv iota. do 3 f_equal. zlia.
  - inversion Hok as [|? ? Hc Hx]; subst. rewrite zlen_cons in Hl. pose proof (zlen_nonneg x).
    cbn [map concat]. rewrite <- (assoc_L (++)).
    destruct (token_esc pre c (concat (map esc x) ++ ch_dquote :: r0 :: rest) cur y f)
      as (cur1 & H1 & E1); [done|done|lia|].
    destruct (IH (pre ++ esc c) r0 rest cur1 (y ++ [c]) f) as (cur2 & H2 & E2); auto.
    { zlia. }
    { simpl in Hf. lia. }
    exists cur2. rewrite <- (assoc_L (++)) in H2. split; [exact H2|].
    rewrite E1. rewrite <- (assoc_L (++)), zlen_app in E2. rewrite E2. do 3 f_equal. zlia.
Qed.

Lemma skip_blanks_ok b : forall pre c rest f,
  Forall blank b -> c = 0 \/ isspace c = false -> (length b < f)%nat ->
  skip_blanks f (pre ++ b ++ c :: rest) (zlen pre) = Some (zlen pre + zlen b).
Proof.
  induction b as [|d b IH]; intros pre c rest f Hb Hc Hf; (destruct f as [|f]; [simpl in Hf; lia|]);
    cbn [skip_blanks app]; read_here.
  - assert (negb (c =? 0) && isspace c = false) as ->.
    { destruct Hc as [-> | ->]; [done|apply andb_false_r]. }
    f_equal. zlia.
  - inversion Hb as [|? ? Hd Hb']; subst. pose proof (blank_nonzero d Hd). rewrite Hd.
    replace (d =? 0) with false by (symmetry; by apply Z.eqb_neq). simpl (negb false && true). cbv iota.
    replace (pre ++ d :: b ++ c :: rest) with ((pre ++ [d]) ++ b ++ c :: rest)
      by (by rewrite <- (assoc_L (++))).
    replace (zlen pre + 1) with (zlen (pre ++ [d])) by zlia.
    rewrite IH by (auto; simpl in Hf; lia). f_equal. zlia.
Qed.

(** A command line: every argument quoted and preceded by blanks. *)
Definition line_of (items : list (list Z * list Z)) : list Z :=
  concat (map (fun it => it.1 ++ quoted it.2) items).

Definition item_ok (it : list Z * list Z) : Prop :=
  Forall blank it.1 /\ bytes_ok it.2 /\ 4 * zlen it.2 + 2 <= SDS_LIMIT.

Definition separated (items : list (list Z * list Z)) : Prop :=
  Forall (fun it => it.1 <> []) (tail items).

(** What follows a quoted argument is the terminator or a blank. *)
Lemma line_head items :
  Forall item_ok items -> Forall (fun it => it.1 <> []) items ->
  exists r0 rest, line_of items ++ [0] = r0 :: rest /\ (r0 = 0 \/ blank r0).
Proof.
  intros Hok Hne. destruct items as [|[b a] items]; [by exists 0, []; auto|].
  inversion Hok as [|? ? [Hb _] _]; inversion Hne as [|? ? Hb0 _]; subst. simpl in *.
  destruct b as [|c b]; [done|]. inversion Hb; subst.
  unfold line_of. cbn [map concat fst snd app]. eauto.
Qed.

Lemma splitargs_ok items : forall pre f vec,
  Forall item_ok items -> separated items -> (length items < f)%nat ->
  exists vs, splitargs_loop junk f (pre ++ line_of items ++ [0]) (zlen pre) vec =
      Some (Some (vec ++ vs)) /\
    Forall2 (fun it v => rep v it.2) items vs.
Proof.
  induction items as [|[b a] items IH]; intros pre f vec Hok Hsep Hf;
    (destruct f as [|f]; [simpl in Hf; lia|]); cbn [splitargs_loop].
  - unfold line_of. cbn [map concat app]. rewrite (skip_blanks_ok [] pre 0 []) by (auto; simpl; lia).
    cbn [mbind option_bind]. change (zlen (@nil Z)) with 0. rewrite Z.add_0_r. read_here.
    exists []. rewrite app_nil_r. split; [done|constructor].
  - inversion Hok as [|? ? (Hb & Ha & Hl) Hok']; subst. cbn [fst snd] in *.
    unfold separated in Hsep. cbn [tail] in Hsep.
    destruct (line_head items Hok' Hsep) as (r0 & rest & Erest & Hr0).
    assert (pre ++ line_of ((b, a) :: items) ++ [0] =
      pre ++ b ++ ch_dquote :: concat (map esc a) ++ ch_dquote :: r0 :: rest) as Eline.
    { unfold line_of. cbn [map concat fst snd]. fold (line_of items). unfold quoted.
      rewrite <- !(assoc_L (++)). cbn [app]. by rewrite Erest. }
    rewrite Eline. set (line := pre ++ b ++ _) in *.
    assert (length b < S (length line))%nat as Hfb by (unfold line; rewrite !length_app; lia).
    replace (skip_blanks (S (length line)) line (zlen pre)) with (Some (zlen pre + zlen b))
      by (symmetry; by apply skip_blanks_ok; auto). cbn [mbind option_bind].
    assert (line = (pre ++ b) ++ ch_dquote :: concat (map esc a) ++ ch_dquote :: r0 :: rest) as El2
      by (unfold line; by rewrite (assoc_L (++))).
    assert (rd line (zlen (pre ++ b)) = Some ch_dquote) as Hq by (rewrite El2; apply rd_mid).
    rewrite <- zlen_app, Hq. cbn [mbind option_bind].
    simpl (ch_dquote =? 0). cbv iota.
    assert (rep (Sds 0 0 [0]) []) as Hempty by (exists []; vm_compute; auto).
    change sdsempty with (Some (Sds 0 0 [0])). cbn [mbind option_bind].
    cbn [token_loop]. unfold token_step at 1. unfold advance at 1.
    rewrite !Hq. cbn [mbind option_bind]. simpl (_ =? _). simpl orb. cbv iota.
    cbn [mbind option_bind]. rewrite !Hq. cbn [mbind option_bind]. simpl (_ =? _). cbv iota.
    destruct (token_quoted a ((pre ++ b) ++ [ch_dquote]) r0 rest (Sds 0 0 [0]) [] (length line))
      as (cur & Hcur & E); auto.
    { rewrite zlen_nil. pose proof (zlen_nonneg a). lia. }
    { unfold line. rewrite !length_app. simpl. rewrite length_app. simpl.
      assert (length a <= length (concat (map esc a)))%nat; [|lia].
      clear -Ha. induction Ha as [|c a Hc _ IHa]; [done|]. simpl. rewrite length_app.
      destruct (esc_ok c Hc) as [_ He]. unfold zlen in He. lia. }
    rewrite zlen_app in E. change (zlen [ch_dquote]) with 1 in E.
    replace (((pre ++ b) ++ [ch_dquote]) ++ concat (map esc a) ++ ch_dquote :: r0 :: rest)
      with ((pre ++ b) ++ ch_dquote :: concat (map esc a) ++ ch_dquote :: r0 :: rest) in E
      by (by rewrite <- (assoc_L (++) (pre ++ b))).
    rewrite <- El2 in E. rewrite E. cbn [mbind option_bind].
    destruct (IH (pre ++ b ++ quoted a) f (vec ++ [cur])) as (vs & Evs & Hvs); auto.
    { unfold separated. destruct items; [constructor|]. by inversion Hsep. }
    { simpl in Hf. lia. }
    exists (cur :: vs). split; [|by constructor].
    replace (vec ++ cur :: vs) with ((vec ++ [cur]) ++ vs) by (by rewrite <- (assoc_L (++))).
    rewrite <- Evs. f_equal.
    + rewrite El2, <- Erest. unfold quoted. rewrite <- !(assoc_L (++)). done.
    + unfold quoted. zlia.
Qed.

End Quote.
End QuoteFacts.

Import QuoteFacts.

(** C36. sdscatrepr and sdssplitargs are inverse: quoting any byte strings with
    sdscatrepr, separating the quoted texts by any runs of blanks and splitting the
    resulting line gives back exactly the original strings, whatever their bytes
    (quotes, backslashes, control characters, NULs, bytes above 127). *)
Theorem repr_split_roundtrip junk items :
  Forall item_ok items -> separated items ->
  exists reprs vs,
    Forall2 (fun it r => (e ← sdsempty; sdscatrepr junk e it.2) = Some r) items reprs /\
    sdssplitargs junk (concat (zip_with (fun it r => it.1 ++ content r) items reprs) ++ [0]) =
      Some (Some vs) /\
    Forall2 (fun it v => rep v it.2) items vs.
Proof.
  intros Hok Hsep.
  assert (exists reprs,
    Forall2 (fun it r => (e ← sdsempty; sdscatrepr junk e it.2) = Some r) items reprs /\
    concat (zip_with (fun it r => it.1 ++ content r) items reprs) = line_of items) as (reprs & Hr & El).
  { clear Hsep. induction Hok as [|[b a] items (Hb & Ha & Hl) _ (reprs & Hr & El)].
    - exists []. by split; [constructor|].
    - destruct (catrepr_rep junk (Sds 0 0 [0]) [] a) as (r & E & Hrep); auto.
      { exists []. vm_compute. auto. }
      exists (r :: reprs). split; [by constructor|]. unfold line_of in *. simpl. rewrite El.
      by rewrite (rep_content _ _ Hrep). }
  destruct (splitargs_ok junk items [] (S (length (line_of items ++ [0]))) [] Hok Hsep)
    as (vs & Evs & Hvs).
  { assert (length items <= length (line_of items))%nat; [|rewrite length_app; simpl; lia].
    clear. induction items as [|[b a] items IH]; [done|]. unfold line_of in *. simpl.
    rewrite !length_app. unfold quoted in *. simpl in *. rewrite ?length_app. simpl. lia. }
  exists reprs, vs. rewrite El. split; [done|]. split; [exact Evs|done].
Qed.

Lemma repr_split_roundtrip_witness :
  exists reprs vs,
    Forall2 (fun it r => (e ← sdsempty; sdscatrepr (fun _ => 1) e it.2) = Some r)
      [([], [0; 34; 255]); ([32; 9], [92; 110])] reprs /\
    sdssplitargs (fun _ => 1)
      (concat (zip_with (fun it r => it.1 ++ content r) [([], [0; 34; 255]); ([32; 9], [92; 110])] reprs)
       ++ [0]) = Some (Some vs) /\
    Forall2 (fun it v => rep v it.2) [([], [0; 34; 255]); ([32; 9], [92; 110])] vs.
Proof.
  apply repr_split_roundtrip.
  - repeat constructor; vm_compute; try done; intuition discriminate.
  - repeat constructor; done.
Defined.

(** ** Proofs: splitting on a separator *)

Module SplitFacts.
Import SdsSpec SdsFacts.

(** The tokens with the separator between them. *)
Fixpoint intercalate (sep : list Z) (ts : list (list Z)) : list Z :=
  match ts with
  | [] => []
  | [t] => t
  | t :: rest => t ++ sep ++ intercalate sep rest
  end.

(** [sep] occurs nowhere inside [t]. *)
Definition no_occurrence (sep t : list Z) : Prop := forall a b, t <> a ++ sep ++ b.

Lemma memcmp_eq a b : length a = length b ->
  exists r, memcmp (length b) a b = Some r /\ (r = 0 <-> a = b).
Proof.
  revert b. induction a as [|x a IH]; intros [|y b] Hl; try done.
  - by exists 0.
  - cbn [memcmp length]. destruct (Z.eqb_spec x y) as [->|Hne].
    + destruct (IH b) as (r & E & H); [by injection Hl|]. exists r. split; [done|].
      rewrite H. split; [by intros ->|by intros [= ->]].
    + eexists. split; [done|]. split; [by destruct (x <? y)|congruence].
Qed.

Lemma newlen_rep src : zlen src < 2 ^ 31 - 1 ->
  exists t, sdsnewlen (Some src) (zlen src) = Some t /\ rep t src.
Proof.
  intros H. unfold sdsnewlen. rewrite rdn_whole. cbn [mbind option_bind].
  pose proof (zlen_nonneg src). eexists. split; [done|]. exists []. cbn [s_buf s_len s_free].
  wrap_small. change (zlen (@nil Z)) with 0. split_and!; auto; try lia.
Qed.

(** The test of line 508 finds the separator exactly when it starts at [j]. *)
Lemma found_ok s sep pre rest c0 sep' :
  s = pre ++ rest -> sep = c0 :: sep' -> zlen sep <= zlen rest ->
  exists c r, rest = c :: r /\ rd s (zlen pre) = Some c /\ rd sep 0 = Some c0 /\
    (if (zlen sep =? 1) && (c =? c0) then Some true else
       a ← rdn s (zlen pre) (zlen sep);
       b ← rdn sep 0 (zlen sep);
       r ← memcmp (Z.to_nat (zlen sep)) a b;
       Some (r =? 0)) = Some (bool_decide (take (length sep) rest = sep)).
Proof.
  intros -> -> Hl. pose proof (zlen_nonneg sep'). rewrite zlen_cons in Hl.
  destruct rest as [|c r]; [zlia|]. exists c, r. split; [done|].
  rewrite rd_mid. split; [done|]. split; [done|].
  destruct ((zlen (c0 :: sep') =? 1) && (c =? c0)) eqn:E.
  - bool_to_prop. subst c. rewrite zlen_cons in *. rewrite (zlen_0_inv sep') by lia.
    rewrite bool_decide_true by done. done.
  - destruct (split_at (c :: r) (zlen (c0 :: sep'))) as (y & z & -> & Hy & _); [zlia|].
    rewrite rdn_app_mid by done. rewrite rdn_whole. cbn [mbind option_bind].
    replace (Z.to_nat (zlen (c0 :: sep'))) with (length (c0 :: sep')) by (unfold zlen; lia).
    assert (length y = length (c0 :: sep')) as Hyl by (unfold zlen in Hy; lia).
    destruct (memcmp_eq y (c0 :: sep') Hyl) as (v & -> & Hv). cbn [mbind option_bind].
    rewrite take_app_length' by done. f_equal. apply Bool.eq_iff_eq_true.
    rewrite bool_decide_eq_true, Z.eqb_eq. done.
Qed.

(** What the search loop maintains: [done] is what the finished tokens cover,
    [cur] the bytes scanned since, where the separator does not start. *)
Lemma split_loop_ok s sep c0 sep' fuel : forall slots cov cur rest tokens ts,
  sep = c0 :: sep' -> zlen s < 2 ^ 31 - 1 -> s = cov ++ cur ++ rest ->
  cov = concat (map (fun t => t ++ sep) ts) -> Forall2 rep tokens ts ->
  Forall (no_occurrence sep) ts -> zlen tokens < slots ->
  (forall a b, cur = a ++ b -> b <> [] -> take (length sep) (b ++ rest) <> sep) ->
  (length rest <= fuel)%nat ->
  exists slots' start' tokens' ts' last,
    split_loop fuel s (zlen s) sep (zlen sep) slots (zlen cov) (zlen cov + zlen cur) tokens =
      Some (slots', start', tokens') /\
    s = concat (map (fun t => t ++ sep) ts') ++ last /\
    start' = zlen (concat (map (fun t => t ++ sep) ts')) /\ Forall2 rep tokens' ts' /\
    Forall (no_occurrence sep) ts' /\ no_occurrence sep last /\ zlen tokens' < slots'.
Proof.
  induction fuel as [|f IH]; intros slots cov cur rest tokens ts Hsep Hs Es Ecov Hreps Hno Hslots Hcur Hf.
  - assert (rest = []) as -> by (destruct rest; [done|simpl in Hf; lia]).
    cbn [split_loop]. assert (1 <= zlen sep) by (rewrite Hsep; zlia).
    assert (zlen s = zlen cov + zlen cur) as El by (rewrite Es; zlia).
    replace (zlen cov + zlen cur <? zlen s - (zlen sep - 1)) with false
      by (symmetry; apply Z.ltb_ge; lia).
    exists slots, (zlen cov), tokens, ts, cur. rewrite app_nil_r in Es. rewrite <- Ecov.
    split_and!; auto. intros a b E. apply (Hcur a (sep ++ b) E); [by rewrite Hsep|].
    rewrite app_nil_r. by rewrite take_app_length.
  - cbn [split_loop]. assert (1 <= zlen sep) as Hsep1 by (rewrite Hsep; zlia).
    assert (zlen s = zlen cov + (zlen cur + zlen rest)) as El by (rewrite Es; zlia).
    destruct (Z.ltb_spec (zlen cov + zlen cur) (zlen s - (zlen sep - 1))) as [Hlt|Hge].
    + rewrite <- zlen_app.
      destruct (found_ok s sep (cov ++ cur) rest c0 sep') as (c & r & -> & -> & -> & Efound);
        [by rewrite <- (assoc_L (++))|done|lia|].
      cbn [mbind option_bind] in *. rewrite Efound. cbn [mbind option_bind]. set (slots1 := if slots <? _ then _ else _).
      assert (zlen tokens + 1 < slots1) as Hs1 by (pose proof (zlen_nonneg tokens); unfold slots1; zcase; lia).
      destruct (bool_decide (take (length sep) (c :: r) = sep)) eqn:Eb.
      * apply bool_decide_eq_true in Eb.
        pose proof (take_drop (length sep) (c :: r)) as Er. rewrite Eb in Er. symmetry in Er.
        set (r' := drop (length sep) (c :: r)) in *.
        replace (rdn s (zlen cov) (zlen (cov ++ cur) - zlen cov)) with (Some cur)
          by (rewrite Es; symmetry; apply rdn_app_mid; zlia).
        cbn [mbind option_bind]. replace (zlen (cov ++ cur) - zlen cov) with (zlen cur) by zlia.
        pose proof (zlen_nonneg cov). pose proof (zlen_nonneg (c :: r)).
        destruct (newlen_rep cur) as (t & -> & Ht); [lia|]. cbn [mbind option_bind].
        unfold push_token. replace (zlen tokens <? slots1) with true by (symmetry; apply Z.ltb_lt; lia).
        cbn [mbind option_bind].
        replace (zlen (cov ++ cur) + zlen sep - 1 + 1) with (zlen (cov ++ cur ++ sep) + zlen (@nil Z)) by zlia.
        replace (zlen (cov ++ cur) + zlen sep) with (zlen (cov ++ cur ++ sep)) by zlia.
        apply (IH _ _ _ r' _ (ts ++ [cur])); auto.
        -- rewrite Es, Er. by rewrite <- !(assoc_L (++)).
        -- rewrite map_app, concat_app, <- Ecov. simpl. by rewrite app_nil_r.
        -- apply Forall2_app; [done|by repeat constructor].
        -- apply Forall_app. split; [done|]. constructor; [|constructor].
           intros a b E. eapply (Hcur a (sep ++ b) E); [by rewrite Hsep|].
           by rewrite <- (assoc_L (++)), take_app_length.
        -- zlia.
        -- intros a b E Hb. symmetry in E. apply app_nil in E as [_ ->]. done.
        -- rewrite Er, length_app in Hf. rewrite Hsep in Hf. simpl in Hf. lia.
      * apply bool_decide_eq_false in Eb.
        replace (zlen (cov ++ cur) + 1) with (zlen cov + zlen (cur ++ [c])) by zlia.
        apply (IH _ _ _ r _ ts); auto; [by rewrite Es, <- (assoc_L (++))|lia| |simpl in Hf; lia].
        intros a b E Hb. destruct (exists_last Hb) as (b' & d & ->).
        rewrite (assoc_L (++)) in E. apply app_inj_2 in E as [E [= <-]]; [|done].
        rewrite <- (assoc_L (++)). cbn [app]. destruct b' as [|e b'].
        { done. }
        apply (Hcur a (e :: b')); [done|done].
    + exists slots, (zlen cov), tokens, ts, (cur ++ rest). rewrite <- Ecov.
      split_and!; auto. intros a b E.
      assert (zlen rest < zlen sep) as Hshort by lia.
      assert (zlen (cur ++ rest) = zlen a + (zlen sep + zlen b)) as Elen by (rewrite E; zlia).
      pose proof (zlen_nonneg b). rewrite zlen_app in Elen.
      assert (exists d, d <> [] /\ cur = a ++ d) as (d & Hd & Ed).
      { destruct (split_at cur (zlen a)) as (x & y & -> & Hx & Hy); [pose proof (zlen_nonneg a); lia|].
        rewrite <- (assoc_L (++)) in E. apply app_inj_1 in E as [-> _]; [|unfold zlen in Hx; lia].
        exists y. split; [|done]. intros ->. rewrite app_nil_r in *. zlia. }
      apply (Hcur a d Ed Hd). subst cur. rewrite <- (assoc_L (++)) in E.
      apply (inj (app a)) in E. by rewrite E, take_app_length.
Qed.

Lemma intercalate_snoc sep ts last :
  intercalate sep (ts ++ [last]) = concat (map (fun t => t ++ sep) ts) ++ last.
Proof.
  induction ts as [|t ts IH]; [done|]. cbn [map concat app].
  rewrite <- !(assoc_L (++)), <- IH. simpl. by destruct ts.
Qed.

End SplitFacts.

Import SplitFacts.

(** sdssplitlen splits completely and loses nothing: on a non-empty input and
    separator it never reads outside them or writes outside the token array, the
    tokens joined by the separator are the input again, and the separator occurs
    in none of them. *)
Theorem sdssplitlen_complete s sep :
  0 < zlen s < 2 ^ 31 - 1 -> sep <> [] ->
  exists tokens ts, sdssplitlen s (zlen s) sep (zlen sep) = Some (Some tokens) /\
    Forall2 rep tokens ts /\ intercalate sep ts = s /\ Forall (no_occurrence sep) ts.
Proof.
  intros Hs Hsep. destruct sep as [|c0 sep']; [done|]. set (sep := c0 :: sep').
  assert (1 <= zlen sep) by (unfold sep; zlia). unfold sdssplitlen.
  replace ((zlen sep <? 1) || (zlen s <? 0)) with false by (zdec; done). zdec.
  destruct (split_loop_ok s sep c0 sep' (Z.to_nat (zlen s)) 5 [] [] s [] [])
    as (slots' & start' & tokens' & ts' & last & E & Es & Est & Hr & Hno & Hlast & Hslot);
    auto; try done; try lia.
  { intros a b E. symmetry in E. by apply app_nil in E as [_ ->]. }
  { unfold zlen. lia. }
  change (zlen (@nil Z) + zlen (@nil Z)) with 0 in E. change (zlen (@nil Z)) with 0 in E.
  rewrite E. cbn [mbind option_bind].
  set (cov := concat _) in *. assert (zlen s = zlen cov + zlen last) as El by (rewrite Es; zlia).
  replace (zlen s - start') with (zlen last) by lia.
  replace (rdn s start' (zlen last)) with (Some last)
    by (pose proof (rdn_app_mid cov last [] start' (zlen last) Est eq_refl) as Er;
        rewrite app_nil_r in Er; by rewrite Es).
  cbn [mbind option_bind]. pose proof (zlen_nonneg cov).
  destruct (newlen_rep last) as (t & -> & Ht); [lia|]. cbn [mbind option_bind].
  unfold push_token. replace (zlen tokens' <? slots') with true by (symmetry; apply Z.ltb_lt; lia).
  cbn [mbind option_bind]. exists (tokens' ++ [t]), (ts' ++ [last]). split_and!; [done| | |].
  - apply Forall2_app; [done|by repeat constructor].
  - rewrite intercalate_snoc. by symmetry.
  - apply Forall_app. split; [done|]. by repeat constructor.
Qed.

Lemma sdssplitlen_complete_witness :
  exists tokens ts, sdssplitlen [1; 9; 9; 2; 9; 9; 9] 7 [9; 9] 2 = Some (Some tokens) /\
    Forall2 rep tokens ts /\ intercalate [9; 9] ts = [1; 9; 9; 2; 9; 9; 9] /\
    Forall (no_occurrence [9; 9]) ts.
Proof. apply (sdssplitlen_complete [1; 9; 9; 2; 9; 9; 9] [9; 9]); [vm_compute; auto|discriminate]. Defined.
