(* ===== verification/Intset.v ===== *)
(** * intset.c: sorted sets of integers in one allocation

    The header fields hold the raw values of the uint32 fields (byte-swapped on a
    big-endian host) and [contents] the bytes after them. *)

From stdpp Require Import sorting.
From S2P Require Import Prelude Endian.

Record intset := Intset { is_encoding : Z; is_length : Z; is_contents : list Z }.

Definition INTSET_ENC_INT16 : Z := 2.
Definition INTSET_ENC_INT32 : Z := 4.
Definition INTSET_ENC_INT64 : Z := 8.
Definition INT16_MIN : Z := -32768.
Definition INT16_MAX : Z := 32767.
Definition INT32_MIN : Z := -2147483648.
Definition INT32_MAX : Z := 2147483647.

Definition _intsetValueEncoding (v : Z) : Z :=
  if (v <? INT32_MIN) || (INT32_MAX <? v) then INTSET_ENC_INT64
  else if (v <? INT16_MIN) || (INT16_MAX <? v) then INTSET_ENC_INT32
  else INTSET_ENC_INT16.

Section Intset.
Context `{Host} (junk : nat -> Z).

Definition _intsetGetEncoded (is_ : intset) (pos enc : Z) : option Z :=
  if enc =? INTSET_ENC_INT64 then
    v64 ← rdn (is_contents is_) (8 * pos) 8;
    v64 ← memrev64ifbe v64 0;
    Some (swrap 64 (host_dec v64))
  else if enc =? INTSET_ENC_INT32 then
    v32 ← rdn (is_contents is_) (4 * pos) 4;
    v32 ← memrev32ifbe v32 0;
    Some (swrap 32 (host_dec v32))
  else
    v16 ← rdn (is_contents is_) (2 * pos) 2;
    v16 ← memrev16ifbe v16 0;
    Some (swrap 16 (host_dec v16)).

Definition _intsetGet (is_ : intset) (pos : Z) : option Z :=
  _intsetGetEncoded is_ pos (uwrap 8 (intrev32ifbe (is_encoding is_))).

Definition _intsetSet (is_ : intset) (pos value : Z) : option intset :=
  let encoding := intrev32ifbe (is_encoding is_) in
  c ←
    (if encoding =? INTSET_ENC_INT64 then
       c ← wrn (is_contents is_) (8 * pos) (host_enc 8 value);
       memrev64ifbe c (8 * pos)
     else if encoding =? INTSET_ENC_INT32 then
       c ← wrn (is_contents is_) (4 * pos) (host_enc 4 value);
       memrev32ifbe c (4 * pos)
     else
       c ← wrn (is_contents is_) (2 * pos) (host_enc 2 value);
       memrev16ifbe c (2 * pos));
  Some (Intset (is_encoding is_) (is_length is_) c).

Definition intsetNew : intset := Intset (intrev32ifbe INTSET_ENC_INT16) 0 [].

Definition intsetResize (is_ : intset) (len : Z) : intset :=
  let size := uwrap 32 (len * intrev32ifbe (is_encoding is_)) in
  Intset (is_encoding is_) (is_length is_) (zrealloc junk (is_contents is_) size).

(** The binary search: the values of [min], [mid] and [cur] when it stops. *)
Fixpoint search_loop (fuel : nat) (is_ : intset) (value min max mid cur : Z)
    : option (Z * Z * Z) :=
  if min <=? max then
    match fuel with
    | O => None
    | S f =>
        let mid := Z.quot (swrap 32 (min + max)) 2 in
        cur ← _intsetGet is_ mid;
        if cur <? value then search_loop f is_ value (mid + 1) max mid cur
        else if value <? cur then search_loop f is_ value min (mid - 1) mid cur
        else Some (min, mid, cur)
    end
  else Some (min, mid, cur).

(** [intsetSearch]: the return value and the value for [*pos]. *)
Definition intsetSearch (is_ : intset) (value : Z) : option (bool * Z) :=
  let len := intrev32ifbe (is_length is_) in
  let max := swrap 32 (uwrap 32 (len - 1)) in
  if len =? 0 then Some (false, 0) else
  last ← _intsetGet is_ max;
  if last <? value then Some (false, len) else
  first ← _intsetGet is_ 0;
  if value <? first then Some (false, 0) else
  '(min, mid, cur) ← search_loop (Z.to_nat len) is_ value 0 max (-1) (-1);
  if value =? cur then Some (true, uwrap 32 mid) else Some (false, uwrap 32 min).

(** [while(length--)]: a negative count has no end. *)
Fixpoint upgrade_loop (n : nat) (is_ : intset) (prepend curenc : Z) : option intset :=
  match n with
  | O => Some is_
  | S n' =>
      v ← _intsetGetEncoded is_ (Z.of_nat n') curenc;
      is_ ← _intsetSet is_ (Z.of_nat n' + prepend) v;
      upgrade_loop n' is_ prepend curenc
  end.

Definition intsetUpgradeAndAdd (is_ : intset) (value : Z) : option intset :=
  let curenc := uwrap 8 (intrev32ifbe (is_encoding is_)) in
  let newenc := _intsetValueEncoding value in
  let length := swrap 32 (intrev32ifbe (is_length is_)) in
  let prepend := if value <? 0 then 1 else 0 in
  let is_ := Intset (intrev32ifbe newenc) (is_length is_) (is_contents is_) in
  let is_ := intsetResize is_ (uwrap 32 (intrev32ifbe (is_length is_) + 1)) in
  _ ← cassert (0 <=? length);
  is_ ← upgrade_loop (Z.to_nat length) is_ prepend curenc;
  is_ ←
    (if prepend =? 1 then _intsetSet is_ 0 value
     else _intsetSet is_ (swrap 32 (intrev32ifbe (is_length is_))) value);
  Some (Intset (is_encoding is_)
               (intrev32ifbe (uwrap 32 (intrev32ifbe (is_length is_) + 1))) (is_contents is_)).

Definition intsetMoveTail (is_ : intset) (from to : Z) : option intset :=
  let bytes := uwrap 32 (intrev32ifbe (is_length is_) - from) in
  let encoding := intrev32ifbe (is_encoding is_) in
  c ←
    (if encoding =? INTSET_ENC_INT64 then
       mmove (is_contents is_) (8 * to) (8 * from) (uwrap 32 (bytes * 8))
     else if encoding =? INTSET_ENC_INT32 then
       mmove (is_contents is_) (4 * to) (4 * from) (uwrap 32 (bytes * 4))
     else mmove (is_contents is_) (2 * to) (2 * from) (uwrap 32 (bytes * 2)));
  Some (Intset (is_encoding is_) (is_length is_) c).

(** [intsetAdd]: the set and the value for [*success]. *)
Definition intsetAdd (is_ : intset) (value : Z) : option (intset * bool) :=
  let valenc := _intsetValueEncoding value in
  if intrev32ifbe (is_encoding is_) <? valenc then
    is_ ← intsetUpgradeAndAdd is_ value; Some (is_, true)
  else
    '(found, pos) ← intsetSearch is_ value;
    if (found : bool) then Some (is_, false) else
    let is_ := intsetResize is_ (uwrap 32 (intrev32ifbe (is_length is_) + 1)) in
    is_ ←
      (if pos <? intrev32ifbe (is_length is_)
       then intsetMoveTail is_ pos (uwrap 32 (pos + 1)) else Some is_);
    is_ ← _intsetSet is_ (swrap 32 pos) value;
    Some (Intset (is_encoding is_)
                 (intrev32ifbe (uwrap 32 (intrev32ifbe (is_length is_) + 1)))
                 (is_contents is_), true).

Definition intsetRemove (is_ : intset) (value : Z) : option (intset * bool) :=
  let valenc := _intsetValueEncoding value in
  if valenc <=? intrev32ifbe (is_encoding is_) then
    '(found, pos) ← intsetSearch is_ value;
    if (found : bool) then
      let len := intrev32ifbe (is_length is_) in
      is_ ←
        (if pos <? uwrap 32 (len - 1)
         then intsetMoveTail is_ (uwrap 32 (pos + 1)) pos else Some is_);
      let is_ := intsetResize is_ (uwrap 32 (len - 1)) in
      Some (Intset (is_encoding is_) (intrev32ifbe (uwrap 32 (len - 1))) (is_contents is_), true)
    else Some (is_, false)
  else Some (is_, false).

Definition intsetFind (is_ : intset) (value : Z) : option bool :=
  let valenc := _intsetValueEncoding value in
  if valenc <=? intrev32ifbe (is_encoding is_)
  then '(found, _) ← intsetSearch is_ value; Some found else Some false.

(** [intsetRandom], given the value of rand(). *)
Definition intsetRandom (is_ : intset) (rand : Z) : option Z :=
  let len := intrev32ifbe (is_length is_) in
  if len =? 0 then None else _intsetGet is_ (swrap 32 (uwrap 32 rand mod len)).

Definition intsetGet (is_ : intset) (pos : Z) : option (option Z) :=
  if pos <? intrev32ifbe (is_length is_)
  then value ← _intsetGet is_ (swrap 32 pos); Some (Some value) else Some None.

Definition intsetLen (is_ : intset) : Z := intrev32ifbe (is_length is_).

Definition intsetBlobLen (is_ : intset) : Z :=
  8 + uwrap 32 (intrev32ifbe (is_length is_) * intrev32ifbe (is_encoding is_)).

End Intset.

(** ** Specification *)

Module IntsetSpec.

Definition INTSET_LIMIT : Z := 2 ^ 28.

Definition width_ok (w : Z) : Prop := w = 2 \/ w = 4 \/ w = 8.

(** The bytes of the values [l] in [w] bytes each. *)
Definition enc (w : Z) (l : list Z) : list Z := concat (map (le_enc (Z.to_nat w)) l).

(** [repi s w l]: the set [s] holds the strictly increasing list [l] in [w]-byte
    integers, and its allocation is exactly that. *)
Record repi `{Host} (s : intset) (w : Z) (l : list Z) : Prop := {
  ri_width : width_ok w;
  ri_encoding : is_encoding s = intrev32ifbe w;
  ri_length : is_length s = intrev32ifbe (zlen l);
  ri_contents : is_contents s = enc w l;
  ri_range : Forall (in_s (8 * w)) l;
  ri_sorted : StronglySorted Z.lt l;
  ri_limit : zlen l <= INTSET_LIMIT }.

(** The members of a set in increasing order. *)
Definition sorted (X : gset Z) : list Z := merge_sort Z.le (elements X).

Inductive op :=
  | OAdd (v : Z)
  | ORemove (v : Z)
  | OFind (v : Z)
  | OGet (pos : Z)
  | OLen
  | OBlobLen.

Inductive result :=
  | RBool (b : bool)
  | RVal (v : option Z)
  | RInt (n : Z).

Definition exec `{Host} (junk : nat -> Z) (o : op) (s : intset) : option (intset * result) :=
  match o with
  | OAdd v => '(s, b) ← intsetAdd junk s v; Some (s, RBool b)
  | ORemove v => '(s, b) ← intsetRemove junk s v; Some (s, RBool b)
  | OFind v => b ← intsetFind s v; Some (s, RBool b)
  | OGet p => r ← intsetGet s p; Some (s, RVal r)
  | OLen => Some (s, RInt (intsetLen s))
  | OBlobLen => Some (s, RInt (intsetBlobLen s))
  end.

(** The abstract state: the set and the width of its integers, which grows to the
    widest value added and never shrinks. *)
Definition spec (o : op) (st : gset Z * Z) : gset Z * Z * result :=
  let '(X, w) := st in
  match o with
  | OAdd v => ({[v]} ∪ X, Z.max w (_intsetValueEncoding v), RBool (bool_decide (v ∉ X)))
  | ORemove v => (X ∖ {[v]}, w, RBool (bool_decide (v ∈ X)))
  | OFind v => (X, w, RBool (bool_decide (v ∈ X)))
  | OGet p => (X, w, RVal (sorted X !! Z.to_nat p))
  | OLen => (X, w, RInt (Z.of_nat (size X)))
  | OBlobLen => (X, w, RInt (8 + w * Z.of_nat (size X)))
  end.

Definition op_ok (o : op) : Prop :=
  match o with
  | OAdd v | ORemove v | OFind v => in_s 64 v
  | OGet p => in_u 32 p
  | OLen | OBlobLen => True
  end.

Fixpoint exec_all `{Host} (junk : nat -> Z) (os : list op) (s : intset)
    : option (intset * list result) :=
  match os with
  | [] => Some (s, [])
  | o :: os => '(s, r) ← exec junk o s; '(s, rs) ← exec_all junk os s; Some (s, r :: rs)
  end.

Fixpoint spec_all (os : list op) (st : gset Z * Z) : gset Z * Z * list result :=
  match os with
  | [] => (st, [])
  | o :: os => let '(st, r) := spec o st in let '(st, rs) := spec_all os st in (st, r :: rs)
  end.

End IntsetSpec.

(** ** Proofs *)

Module IntsetFacts.
Import IntsetSpec EndianFacts.

Section Facts.
Context `{Host} (junk : nat -> Z).

Lemma zlen_enc w l : 0 <= w -> zlen (enc w l) = w * zlen l.
Proof.
  intros Hw. unfold enc. induction l as [|x l IH]; cbn [map concat]; [zlia|].
  rewrite zlen_app, zlen_le_enc, IH, zlen_cons. lia.
Qed.

Lemma enc_app w l k : enc w (l ++ k) = enc w l ++ enc w k.
Proof. unfold enc. by rewrite map_app, concat_app. Qed.

Lemma enc_cons w x l : enc w (x :: l) = le_enc (Z.to_nat w) x ++ enc w l.
Proof. done. Qed.

Lemma width_pos w : width_ok w -> 0 < w.
Proof. intros [-> | [-> | ->]]; lia. Qed.

Lemma width_cases (P : Z -> Prop) : P 2 -> P 4 -> P 8 -> forall w, width_ok w -> P w.
Proof. intros ??? w [-> | [-> | ->]]; done. Qed.

(** Decoding what was encoded: the conversion to the signed type. *)
Lemma swrap_le_dec n w x : w = 8 * Z.of_nat n -> 0 < w -> in_s w x ->
  swrap w (le_dec (le_enc n x)) = x.
Proof.
  intros Hw Hp Hx. rewrite le_dec_enc.
  replace (256 ^ Z.of_nat n) with (2 ^ w)
    by (rewrite Hw, Z.pow_mul_r by lia; done).
  by apply swrap_of_unsigned.
Qed.

Lemma getenc_mid s w pos a x c :
  width_ok w -> is_contents s = a ++ le_enc (Z.to_nat w) x ++ c -> zlen a = w * pos ->
  in_s (8 * w) x -> _intsetGetEncoded s pos w = Some x.
Proof.
  intros Hw Hc Ha Hx. unfold _intsetGetEncoded.
  assert (rdn (is_contents s) (w * pos) w = Some (le_enc (Z.to_nat w) x)) as Hr.
  { rewrite Hc. apply rdn_app_mid; [done|]. rewrite zlen_le_enc.
    pose proof (width_pos w Hw). lia. }
  pose proof (load_le 8 memrev64ifbe (is_contents s) (8 * pos) memrev64ifbe_reverses) as L8.
  pose proof (load_le 4 memrev32ifbe (is_contents s) (4 * pos) memrev32ifbe_reverses) as L4.
  pose proof (load_le 2 memrev16ifbe (is_contents s) (2 * pos) memrev16ifbe_reverses) as L2.
  assert (forall n rev wd, wd = 8 * Z.of_nat n -> w = Z.of_nat n ->
    (v ← rdn (is_contents s) (w * pos) w; v ← rev v 0; Some (host_dec v)) =
      le_dec <$> rdn (is_contents s) (w * pos) w ->
    (v ← rdn (is_contents s) (w * pos) w; v ← rev v 0; Some (swrap wd (host_dec v))) = Some x)
    as Hfin.
  { intros n rev wd -> Hwn. rewrite Hr. cbn [mbind option_bind fmap option_fmap option_map].
    destruct (rev _ 0) as [v|]; [|done]. cbn [mbind option_bind]. intros [= ->].
    f_equal. rewrite Hwn, Nat2Z.id. pose proof (width_pos w Hw).
    apply swrap_le_dec; [done|lia|by rewrite <- Hwn]. }
  destruct Hw as [-> | [-> | ->]]; cbn [Z.eqb Pos.eqb].
  - by apply (Hfin 2%nat memrev16ifbe).
  - by apply (Hfin 4%nat memrev32ifbe).
  - by apply (Hfin 8%nat memrev64ifbe).
Qed.

Lemma width_u w : width_ok w -> in_u 32 w.
Proof. intros [-> | [-> | ->]]; unfold in_u; lia. Qed.

Lemma width_raw w : width_ok w -> intrev32ifbe (intrev32ifbe w) = w.
Proof. intros Hw. by apply intrev32ifbe_involutive, width_u. Qed.

Lemma get_mid s w pos a x c :
  width_ok w -> is_encoding s = intrev32ifbe w ->
  is_contents s = a ++ le_enc (Z.to_nat w) x ++ c -> zlen a = w * pos ->
  in_s (8 * w) x -> _intsetGet s pos = Some x.
Proof.
  intros Hw He Hc Ha Hx. unfold _intsetGet. rewrite He, width_raw by done.
  replace (uwrap 8 w) with w by (by destruct Hw as [-> | [-> | ->]]).
  by apply (getenc_mid s w pos a x c).
Qed.

Lemma set_mid s w pos a y c v :
  width_ok w -> is_encoding s = intrev32ifbe w ->
  is_contents s = a ++ y ++ c -> zlen a = w * pos -> zlen y = w ->
  _intsetSet s pos v =
    Some (Intset (is_encoding s) (is_length s) (a ++ le_enc (Z.to_nat w) v ++ c)).
Proof.
  intros Hw He Hc Ha Hy. unfold _intsetSet. rewrite He, width_raw by done.
  assert (wrn (is_contents s) (w * pos) (le_enc (Z.to_nat w) v) =
          Some (a ++ le_enc (Z.to_nat w) v ++ c)) as Hwr.
  { rewrite Hc. apply wrn_app_mid; [done|]. rewrite zlen_le_enc.
    pose proof (width_pos w Hw). lia. }
  destruct Hw as [-> | [-> | ->]]; cbn [Z.eqb Pos.eqb INTSET_ENC_INT64 INTSET_ENC_INT32].
  - rewrite (store_le 2 memrev16ifbe) by apply memrev16ifbe_reverses.
    change (Z.to_nat 2) with 2%nat in *. by rewrite Hwr.
  - rewrite (store_le 4 memrev32ifbe) by apply memrev32ifbe_reverses.
    change (Z.to_nat 4) with 4%nat in *. by rewrite Hwr.
  - rewrite (store_le 8 memrev64ifbe) by apply memrev64ifbe_reverses.
    change (Z.to_nat 8) with 8%nat in *. by rewrite Hwr.
Qed.

(** Moving the tail [y] from index [from] to index [to]. *)
Lemma movetail_ok s w n from to a y c :
  width_ok w -> is_encoding s = intrev32ifbe w -> is_length s = intrev32ifbe n ->
  in_u 32 n -> is_contents s = a ++ y ++ c -> zlen a = w * from -> zlen y = w * (n - from) ->
  0 <= w * (n - from) < 2 ^ 32 ->
  intsetMoveTail s from to =
    c' ← wrn (is_contents s) (w * to) y; Some (Intset (is_encoding s) (is_length s) c').
Proof.
  intros Hw He Hl Hn Hc Ha Hy Hb. unfold intsetMoveTail.
  rewrite He, Hl, width_raw, intrev32ifbe_involutive by done.
  assert (uwrap 32 (n - from) = n - from) as -> by (apply u32_small; destruct Hw as [-> | [-> | ->]]; lia).
  assert (uwrap 32 ((n - from) * w) = w * (n - from)) as Hu by (rewrite u32_small; lia).
  assert (mmove (is_contents s) (w * to) (w * from) (uwrap 32 ((n - from) * w)) =
          wrn (is_contents s) (w * to) y) as Hm.
  { rewrite Hu. unfold mmove. rewrite Hc, rdn_app_mid; done. }
  destruct Hw as [-> | [-> | ->]]; cbn [Z.eqb Pos.eqb INTSET_ENC_INT64 INTSET_ENC_INT32]; by rewrite Hm.
Qed.

Lemma repi_get s w l a x b :
  repi s w l -> l = a ++ x :: b -> _intsetGet s (zlen a) = Some x.
Proof.
  intros [Hw He _ Hc Hr _ _] ->. pose proof (width_pos w Hw).
  rewrite Forall_app, Forall_cons in Hr. destruct Hr as (_ & Hx & _).
  apply (get_mid s w (zlen a) (enc w a) x (enc w b)); auto.
  - by rewrite Hc, enc_app.
  - apply zlen_enc. lia.
Qed.

(** What a search for [v] in [l] answers. *)
Definition search_post (v : Z) (l : list Z) (found : bool) (pos : Z) : Prop :=
  exists a b, zlen a = pos /\ Forall (fun x => x < v) a /\ Forall (Z.lt v) b /\
    l = if found then a ++ v :: b else a ++ b.

Lemma sorted_mid a x b :
  StronglySorted Z.lt (a ++ x :: b) -> Forall (fun y => y < x) a /\ Forall (Z.lt x) b.
Proof.
  intros Hs. induction a as [|y a IH]; cbn [app] in Hs; inversion Hs as [|?? Hs' Hf]; subst.
  - by split.
  - destruct (IH Hs') as [IH1 IH2]. split; [constructor; [|done]|done].
    rewrite Forall_app, Forall_cons in Hf. tauto.
Qed.

(** The loop's invariant: [l = p ++ q ++ r] with the interval from [min] to [max] on [q]. *)
Lemma search_loop_ok s w v fuel : forall p q r mid cur,
  repi s w (p ++ q ++ r) -> Forall (fun x => x < v) p -> Forall (Z.lt v) r ->
  (q = [] -> cur <> v) -> (length q <= fuel)%nat ->
  exists min' mid' cur',
    search_loop fuel s v (zlen p) (zlen p + zlen q - 1) mid cur = Some (min', mid', cur') /\
    0 <= min' < 2 ^ 32 /\
    if v =? cur' then search_post v (p ++ q ++ r) true mid' /\ 0 <= mid' < 2 ^ 32
    else search_post v (p ++ q ++ r) false min'.
Proof.
  induction fuel as [|f IH]; intros p q r mid cur Hrep Hp Hr Hcur Hf.
  - assert (q = []) as -> by (destruct q; [done|simpl in Hf; lia]).
    change (zlen (@nil Z)) with 0. cbn [search_loop]. zdec.
    do 3 eexists. split; [done|]. pose proof (ri_limit _ _ _ Hrep) as Hl. unfold INTSET_LIMIT in Hl.
    split; [zlia|]. rewrite (proj2 (Z.eqb_neq v cur)) by (intros ->; by apply Hcur).
    by exists p, r.
  - pose proof (ri_limit _ _ _ Hrep) as Hl. unfold INTSET_LIMIT in Hl.
    cbn [search_loop]. destruct (Z.leb_spec (zlen p) (zlen p + zlen q - 1)) as [Hle|Hgt].
    2: { assert (q = []) as -> by (apply zlen_0_inv; zlia).
         do 3 eexists. split; [done|]. split; [zlia|].
         rewrite (proj2 (Z.eqb_neq v cur)) by (intros ->; by apply Hcur). by exists p, r. }
    zlen_simpl. pose proof (zlen_nonneg p). pose proof (zlen_nonneg r).
    rewrite s32_small by lia.
    set (m := Z.quot (zlen p + (zlen p + zlen q - 1)) 2).
    assert (zlen p <= m <= zlen p + zlen q - 1) as Hm
      by (unfold m; rewrite Z.quot_div_nonneg by lia; split;
          [apply Z.div_le_lower_bound|apply Z.div_le_upper_bound]; lia).
    destruct (split_at q (m - zlen p)) as (q1 & q' & -> & Hq1 & Hq'); [lia|].
    destruct q' as [|x q2]; [zlia|].
    replace m with (zlen (p ++ q1)) by zlia.
    rewrite (repi_get s w _ (p ++ q1) x (q2 ++ r) Hrep) by (by rewrite <- !(assoc_L (++))).
    cbn [mbind option_bind].
    assert (p ++ (q1 ++ x :: q2) ++ r = (p ++ q1) ++ x :: (q2 ++ r)) as El
      by (by rewrite <- !(assoc_L (++))).
    pose proof (ri_sorted _ _ _ Hrep) as Hs. rewrite El in Hs.
    destruct (sorted_mid _ _ _ Hs) as [Hlo Hhi].
    destruct (Z.ltb_spec x v) as [Hxv|Hxv]; [|destruct (Z.ltb_spec v x) as [Hvx|Hvx]].
    + assert (p ++ (q1 ++ x :: q2) ++ r = (p ++ q1 ++ [x]) ++ q2 ++ r) as El2
        by (by rewrite <- !(assoc_L (++))).
      rewrite El2. rewrite El2 in Hrep.
      replace (zlen (p ++ q1) + 1) with (zlen (p ++ q1 ++ [x])) by zlia.
      replace (zlen p + zlen (q1 ++ x :: q2) - 1)
        with (zlen (p ++ q1 ++ [x]) + zlen q2 - 1) by zlia.
      apply IH; auto; [|lia|rewrite length_app in Hf; simpl in Hf; lia].
      rewrite (assoc_L (++)), Forall_app. split; [|by constructor].
      eapply Forall_impl; [exact Hlo|]. simpl. lia.
    + assert (p ++ (q1 ++ x :: q2) ++ r = p ++ q1 ++ x :: q2 ++ r) as El2
        by (by rewrite <- !(assoc_L (++))).
      rewrite El2. rewrite El2 in Hrep.
      replace (zlen (p ++ q1) - 1) with (zlen p + zlen q1 - 1) by zlia.
      apply IH; auto; [|lia|rewrite length_app in Hf; simpl in Hf; lia].
      constructor; [done|]. eapply Forall_impl; [exact Hhi|]. simpl. lia.
    + assert (x = v) as -> by lia. do 3 eexists. split; [done|]. rewrite Z.eqb_refl.
      zlen_simpl. split; [zlia|]. split; [|zlia]. exists (p ++ q1), (q2 ++ r).
      split_and!; auto. zlia.
Qed.

Lemma search_ok s w l v : repi s w l ->
  exists found pos, intsetSearch s v = Some (found, pos) /\ search_post v l found pos.
Proof.
  intros Hrep. pose proof (ri_limit _ _ _ Hrep) as Hlim. unfold INTSET_LIMIT in Hlim.
  unfold intsetSearch. rewrite (ri_length _ _ _ Hrep).
  rewrite intrev32ifbe_involutive by (unfold in_u; zlia).
  destruct (Z.eqb_spec (zlen l) 0) as [E|E].
  { apply zlen_0_inv in E. subst. do 2 eexists. split; [done|]. exists [], []. done. }
  destruct l as [|first l']; [done|].
  destruct (exists_last (l := first :: l')) as (a & last & El); [done|].
  assert (swrap 32 (uwrap 32 (zlen (first :: l') - 1)) = zlen a) as ->.
  { rewrite El, zlen_app, zlen_cons in *. change (zlen (@nil Z)) with 0 in *.
    wrap_small. zlia. }
  pose proof (repi_get s w _ [] first l' Hrep eq_refl) as E0. change (zlen (@nil Z)) with 0 in E0.
  pose proof (ri_sorted _ _ _ Hrep) as Hs.
  rewrite (repi_get s w _ a last [] Hrep) by done. cbn [mbind option_bind].
  destruct (Z.ltb_spec last v) as [Hlt|Hge].
  { do 2 eexists. split; [done|]. exists (first :: l'), []. split_and!; auto.
    - rewrite El in *. destruct (sorted_mid _ _ _ Hs) as [Ha _]. apply Forall_app.
      split; [|by constructor]. eapply Forall_impl; [exact Ha|]. simpl. lia.
    - by rewrite app_nil_r. }
  rewrite E0. cbn [mbind option_bind]. destruct (Z.ltb_spec v first) as [Hlt|Hge2].
  { do 2 eexists. split; [done|]. exists [], (first :: l'). split_and!; auto.
    destruct (sorted_mid [] _ _ Hs) as [_ Ha]. constructor; [done|].
    eapply Forall_impl; [exact Ha|]. simpl. lia. }
  assert (zlen a = zlen (@nil Z) + zlen (first :: l') - 1) as Ea
    by (rewrite El; zlia).
  destruct (search_loop_ok s w v (Z.to_nat (zlen (first :: l'))) [] (first :: l') [] (-1) (-1))
    as (min' & mid' & cur' & EE & Hmin & Hpost); auto.
  { by rewrite app_nil_r. }
  { unfold zlen. rewrite Nat2Z.id. lia. }
  rewrite <- Ea in EE. change (zlen (@nil Z)) with 0 in EE. rewrite EE. cbn [mbind option_bind].
  rewrite app_nil_r in Hpost. cbn [app] in Hpost.
  destruct (v =? cur').
  - destruct Hpost as [Hpost Hmid]. rewrite u32_small by lia. eauto.
  - rewrite u32_small by lia. eauto.
Qed.

Lemma venc_width v : width_ok (_intsetValueEncoding v).
Proof. unfold _intsetValueEncoding, width_ok. destruct (_ || _); [by auto|]. destruct (_ || _); auto. Qed.

Lemma venc_le w v : width_ok w -> in_s 64 v -> _intsetValueEncoding v <= w <-> in_s (8 * w) v.
Proof.
  unfold _intsetValueEncoding, in_s, INT32_MIN, INT32_MAX, INT16_MIN, INT16_MAX,
    INTSET_ENC_INT16, INTSET_ENC_INT32, INTSET_ENC_INT64.
  intros Hw Hv. destruct Hw as [-> | [-> | ->]]; cbn [Z.mul Pos.mul Pos.add Z.sub Z.add Z.opp Z.pos_sub Pos.pred_double Pos.succ] in *;
    repeat zcase; cbn [orb]; lia.
Qed.

Lemma in_s_mono w w' v : 0 < w <= w' -> in_s w v -> in_s w' v.
Proof.
  unfold in_s. intros Hw Hv. pose proof (Z.pow_le_mono_r 2 (w - 1) (w' - 1)). lia.
Qed.

Lemma not_in_search v l found pos : StronglySorted Z.lt l -> search_post v l found pos ->
  found = bool_decide (v ∈ l).
Proof.
  intros Hs (a & b & _ & Ha & Hb & ->). symmetry. destruct found.
  - apply bool_decide_eq_true. set_solver.
  - apply bool_decide_eq_false. rewrite elem_of_app. intros [Hin|Hin].
    + rewrite Forall_forall in Ha. specialize (Ha _ Hin). simpl in Ha. lia.
    + rewrite Forall_forall in Hb. specialize (Hb _ Hin). lia.
Qed.

Lemma sorted_insert v a b : StronglySorted Z.lt (a ++ b) ->
  Forall (fun x => x < v) a -> Forall (Z.lt v) b -> StronglySorted Z.lt (a ++ v :: b).
Proof.
  induction a as [|x a IH]; cbn [app]; intros Hs Ha Hb.
  - by constructor.
  - inversion Hs as [|?? Hs' Hf]; subst. inversion Ha; subst.
    constructor; [by apply IH|]. rewrite Forall_app in *. destruct Hf. split; [done|].
    constructor; [done|]. done.
Qed.

Lemma sorted_delete v a b : StronglySorted Z.lt (a ++ v :: b) -> StronglySorted Z.lt (a ++ b).
Proof.
  induction a as [|x a IH]; cbn [app]; intros Hs; inversion Hs as [|?? Hs' Hf]; subst; [done|].
  constructor; [by apply IH|]. rewrite Forall_app, Forall_cons in *. tauto.
Qed.

Lemma resize_grow s w n m : width_ok w -> is_encoding s = intrev32ifbe w ->
  zlen (is_contents s) = m -> m <= w * n -> w * n < 2 ^ 32 ->
  exists g, intsetResize junk s n =
      Intset (is_encoding s) (is_length s) (is_contents s ++ g) /\ zlen g = w * n - m.
Proof.
  intros Hw He Hm Hle Hlt. unfold intsetResize. rewrite He, width_raw by done.
  pose proof (zlen_nonneg (is_contents s)).
  rewrite u32_small by lia.
  destruct (zrealloc_grow junk (is_contents s) (n * w)) as (g & -> & Hg); [lia|].
  exists g. split; [done|]. lia.
Qed.

Lemma repi_bounds s w l : repi s w l ->
  0 < w <= 8 /\ 0 <= zlen l <= 2 ^ 28 /\ intrev32ifbe (is_length s) = zlen l /\
  intrev32ifbe (is_encoding s) = w /\ 0 <= w * zlen l <= 2 ^ 31.
Proof.
  intros [Hw -> -> _ _ _ Hl]. unfold INTSET_LIMIT in Hl. pose proof (zlen_nonneg l).
  rewrite (width_raw w) by done. rewrite intrev32ifbe_involutive by (unfold in_u; lia).
  destruct Hw as [-> | [-> | ->]]; lia.
Qed.

(** The insertion without upgrade, after the search. *)
Lemma insert_ok s w a b v :
  repi s w (a ++ b) -> in_s (8 * w) v -> Forall (fun x => x < v) a -> Forall (Z.lt v) b ->
  zlen (a ++ b) + 1 <= INTSET_LIMIT ->
  exists s', repi s' w (a ++ v :: b) /\
    (let r := intsetResize junk s (uwrap 32 (intrev32ifbe (is_length s) + 1)) in
     t ← (if zlen a <? intrev32ifbe (is_length r)
          then intsetMoveTail r (zlen a) (uwrap 32 (zlen a + 1)) else Some r);
     t ← _intsetSet t (swrap 32 (zlen a)) v;
     Some (Intset (is_encoding t) (intrev32ifbe (uwrap 32 (intrev32ifbe (is_length t) + 1)))
                  (is_contents t), true)) = Some (s', true).
Proof.
  intros Hrep Hv Ha Hb Hlim. destruct (repi_bounds s w _ Hrep) as (Hw & Hl & El & Ee & Hwl).
  pose proof Hrep as [Hwk He Hlen Hc Hr Hs _]. unfold INTSET_LIMIT in Hlim.
  pose proof (zlen_nonneg a). pose proof (zlen_nonneg b).
  rewrite zlen_app in *. rewrite El, u32_small by lia.
  assert (zlen (enc w a) = w * zlen a /\ zlen (enc w b) = w * zlen b) as [Hza Hzb]
    by (split; apply zlen_enc; lia).
  destruct (resize_grow s w (zlen a + zlen b + 1) (zlen (is_contents s))) as (g & -> & Hg);
    [done|done|done|rewrite Hc, enc_app, zlen_app; lia|lia|].
  cbv zeta. rewrite Hc, enc_app, zlen_app in Hg.
  assert (exists h, zlen h = w /\
    (if zlen a <? zlen a + zlen b
     then intsetMoveTail (Intset (is_encoding s) (is_length s) (is_contents s ++ g))
            (zlen a) (uwrap 32 (zlen a + 1))
     else Some (Intset (is_encoding s) (is_length s) (is_contents s ++ g))) =
    Some (Intset (is_encoding s) (is_length s) (enc w a ++ h ++ enc w b))) as (h & Hh & Hmv).
  { destruct (Z.ltb_spec (zlen a) (zlen a + zlen b)).
    - rewrite u32_small by lia.
      destruct (split_at (enc w b ++ g) w) as (h & t & E & Hh & Ht); [rewrite zlen_app; lia|].
      exists h. split; [done|].
      rewrite (movetail_ok _ w (zlen a + zlen b) (zlen a) (zlen a + 1) (enc w a) (enc w b) g);
        cbn [is_encoding is_length is_contents]; auto; try (unfold in_u; lia).
      + rewrite Hc, enc_app, <- (assoc_L (++)), E.
        rewrite (assoc_L (++)), <- (app_nil_r t), wrn_app_mid
          by (rewrite ?zlen_app in *; lia).
        cbn [mbind option_bind]. by rewrite app_nil_r, <- (assoc_L (++)).
      + rewrite Hc, enc_app. by rewrite <- (assoc_L (++)).
    - assert (b = []) as -> by (apply zlen_0_inv; lia). exists g. split; [lia|].
      rewrite Hc, enc_app. change (enc w []) with (@nil Z). by rewrite !app_nil_r. }
  cbn [is_encoding is_length is_contents] in *. rewrite El, Hmv. cbn [mbind option_bind].
  rewrite s32_small by lia.
  rewrite (set_mid _ w (zlen a) (enc w a) h (enc w b)); auto.
  cbn [mbind option_bind is_encoding is_length is_contents].
  eexists. split; [|done]. split; cbn [is_encoding is_length is_contents]; auto.
  - rewrite El, u32_small by lia. f_equal. zlia.
  - by rewrite enc_app, enc_cons.
  - rewrite Forall_app in *. destruct Hr. split; [done|]. by constructor.
  - by apply sorted_insert.
  - unfold INTSET_LIMIT. zlia.
Qed.

(** The deletion, after the search. *)
Lemma delete_ok s w a b v :
  repi s w (a ++ v :: b) ->
  exists s', repi s' w (a ++ b) /\
    (t ← (if zlen a <? uwrap 32 (intrev32ifbe (is_length s) - 1)
          then intsetMoveTail s (uwrap 32 (zlen a + 1)) (zlen a) else Some s);
     let r := intsetResize junk t (uwrap 32 (intrev32ifbe (is_length s) - 1)) in
     Some (Intset (is_encoding r) (intrev32ifbe (uwrap 32 (intrev32ifbe (is_length s) - 1)))
                  (is_contents r), true)) = Some (s', true).
Proof.
  intros Hrep. destruct (repi_bounds s w _ Hrep) as (Hw & Hl & El & Ee & Hwl).
  pose proof Hrep as [Hwk He Hlen Hc Hr Hs Hlim].
  pose proof (zlen_nonneg a). pose proof (zlen_nonneg b).
  rewrite El. rewrite zlen_app, zlen_cons in *. rewrite (u32_small (zlen a + (1 + zlen b) - 1)) by lia.
  assert (zlen (enc w a) = w * zlen a /\ zlen (enc w b) = w * zlen b) as [Hza Hzb]
    by (split; apply zlen_enc; lia).
  set (m := zlen a + (1 + zlen b) - 1).
  assert (exists h, zlen h = w /\
    (if zlen a <? m then intsetMoveTail s (uwrap 32 (zlen a + 1)) (zlen a) else Some s) =
    Some (Intset (is_encoding s) (is_length s) (enc w (a ++ b) ++ h))) as (h & Hh & ->).
  { destruct (Z.ltb_spec (zlen a) m); subst m.
    - rewrite u32_small by lia.
      destruct (split_at (le_enc (Z.to_nat w) v ++ enc w b) (w * zlen b)) as (y & h & E & Hy & Hh);
        [rewrite zlen_app, zlen_le_enc; lia|].
      rewrite zlen_app, zlen_le_enc in Hh. exists h. split; [lia|].
      rewrite (movetail_ok _ w (zlen a + (1 + zlen b)) (zlen a + 1) (zlen a)
                 (enc w a ++ le_enc (Z.to_nat w) v) (enc w b) []);
        auto; try (unfold in_u; lia).
      + rewrite Hc, !enc_app, enc_cons, E.
        rewrite wrn_app_mid by lia. cbn [mbind option_bind].
        by rewrite (assoc_L (++)).
      + by rewrite Hc, enc_app, enc_cons, app_nil_r, (assoc_L (++)).
      + rewrite zlen_app, zlen_le_enc. lia.
    - assert (b = []) as -> by (apply zlen_0_inv; lia).
      exists (le_enc (Z.to_nat w) v). rewrite zlen_le_enc. split; [lia|].
      destruct s as [e n c]. cbn [is_encoding is_length is_contents] in *.
      rewrite Hc, enc_app, enc_cons, !app_nil_r. change (enc w []) with (@nil Z).
      by rewrite ?app_nil_r. }
  cbn [mbind option_bind]. unfold intsetResize.
  cbn [is_encoding is_length is_contents]. rewrite Ee, u32_small by (subst m; nia).
  rewrite zrealloc_shrink by (rewrite zlen_enc, zlen_app by lia; lia).
  eexists. split; [|done]. split; cbn [is_encoding is_length is_contents]; auto.
  - f_equal. rewrite zlen_app. lia.
  - rewrite Forall_app, Forall_cons in *. tauto.
  - by eapply sorted_delete.
  - rewrite zlen_app. lia.
Qed.

(** Widening in place from the last element to the first: [gap] lies between the
    elements still narrow and those already wide. *)
Lemma upgrade_loop_ok w w' n pre ln : width_ok w -> width_ok w' -> w <= w' ->
  0 <= pre <= 1 ->
  forall l e gap c, length l = n -> Forall (in_s (8 * w)) l ->
  e = intrev32ifbe w' -> zlen gap = w' * (Z.of_nat n + pre) - w * Z.of_nat n ->
  exists gap', zlen gap' = w' * pre /\
    upgrade_loop n (Intset e ln (enc w l ++ gap ++ c)) pre w =
    Some (Intset e ln (gap' ++ enc w' l ++ c)).
Proof.
  intros Hw Hw' Hle Hp. pose proof (width_pos w Hw).
  induction n as [|n IH]; intros l e gap c Hn Hr He Hg.
  - destruct l; [|done]. exists gap. split; [lia|]. done.
  - destruct (exists_last (l := l)) as (l' & x & ->); [by intros ->|].
    rewrite length_app in Hn. simpl in Hn. rewrite Forall_app, Forall_cons in Hr.
    destruct Hr as (Hr & Hx & _). cbn [upgrade_loop].
    assert (Z.of_nat n = zlen l') as En by (unfold zlen; lia). rewrite En in *.
    assert (enc w (l' ++ [x]) = enc w l' ++ le_enc (Z.to_nat w) x) as Ex
      by (rewrite enc_app, enc_cons; change (enc w []) with (@nil Z); by rewrite app_nil_r).
    rewrite (getenc_mid _ w (zlen l') (enc w l') x (gap ++ c));
      [|done|cbn [is_contents]; by rewrite Ex, <- (assoc_L (++))|apply zlen_enc; lia|done].
    cbn [mbind option_bind].
    destruct (split_at (le_enc (Z.to_nat w) x ++ gap) (zlen (le_enc (Z.to_nat w) x ++ gap) - w'))
      as (gap1 & y & E & Hg1 & Hy).
    { rewrite zlen_app, zlen_le_enc, Hg. rewrite Nat2Z.inj_succ, En. nia. }
    rewrite zlen_app, zlen_le_enc, Hg, Nat2Z.inj_succ, En in Hg1, Hy.
    rewrite (set_mid _ w' (zlen l' + pre) (enc w l' ++ gap1) y c);
      cbn [is_contents is_encoding is_length]; auto; [|by rewrite Ex, <- !(assoc_L (++)), (assoc_L (++) (le_enc _ _)), E, <- !(assoc_L (++))| |lia].
    2: { rewrite zlen_app, zlen_enc, Hg1 by lia. lia. }
    cbn [mbind option_bind].
    destruct (IH l' e gap1 (le_enc (Z.to_nat w') x ++ c)) as (gap' & Hgap' & Eu); auto; try lia.
    exists gap'. split; [done|]. rewrite <- (assoc_L (++)). rewrite Eu.
    rewrite enc_app, enc_cons. change (enc w' []) with (@nil Z).
    by rewrite app_nil_r, <- (assoc_L (++)).
Qed.

Lemma in_s_wide w w' v : width_ok w -> width_ok w' -> w <= w' -> in_s (8 * w) v -> in_s (8 * w') v.
Proof. intros Hw Hw' Hle. apply in_s_mono. pose proof (width_pos w Hw). lia. Qed.

(** A value too wide for the set lies outside the range of its members. *)
Lemma wide_extreme w l v : width_ok w -> in_s 64 v -> w < _intsetValueEncoding v ->
  Forall (in_s (8 * w)) l ->
  if v <? 0 then Forall (Z.lt v) l else Forall (fun x => x < v) l.
Proof.
  intros Hw Hv Hlt Hr. assert (~ in_s (8 * w) v) as Hn by (rewrite <- venc_le by done; lia).
  unfold in_s in *. destruct (Z.ltb_spec v 0); eapply Forall_impl; try exact Hr; simpl; intros; lia.
Qed.

Lemma upgrade_ok s w l v :
  repi s w l -> in_s 64 v -> w < _intsetValueEncoding v -> zlen l + 1 <= INTSET_LIMIT ->
  exists s' l', intsetUpgradeAndAdd junk s v = Some s' /\
    repi s' (_intsetValueEncoding v) l' /\ forall x, x ∈ l' <-> x = v \/ x ∈ l.
Proof.
  intros Hrep Hv Hlt Hlim. destruct (repi_bounds s w _ Hrep) as (Hw & Hl & El & Ee & Hwl).
  pose proof Hrep as [Hwk He Hlen Hc Hr Hs _]. unfold INTSET_LIMIT in Hlim.
  pose proof (venc_width v) as Hwk'. set (w' := _intsetValueEncoding v) in *.
  assert (0 < w' <= 8) as Hw' by (destruct Hwk' as [-> | [-> | ->]]; lia).
  pose proof (wide_extreme w l v Hwk Hv Hlt Hr) as Hext.
  assert (in_s (8 * w') v) as Hvw by (apply venc_le; auto; lia).
  unfold intsetUpgradeAndAdd. cbv zeta. cbn [is_encoding is_length is_contents].
  rewrite Ee, El. fold w'.
  rewrite (u32_small (zlen l + 1)), (s32_small (zlen l)) by lia.
  replace (uwrap 8 w) with w by (symmetry; apply u8_small; lia).
  assert (zlen (enc w l) = w * zlen l) as Hz by (apply zlen_enc; lia).
  destruct (resize_grow (Intset (intrev32ifbe w') (is_length s) (is_contents s)) w' (zlen l + 1)
              (w * zlen l)) as (g & -> & Hg);
    [done|done|cbn [is_contents]; by rewrite Hc|nia|nia|].
  cbn [is_encoding is_length is_contents]. unfold cassert. zdec. cbn [mbind option_bind].
  assert (Z.to_nat (zlen l) = length l) as Hnat by (unfold zlen; lia). rewrite Hnat, Hc.
  destruct (v <? 0) eqn:Esign.
  - destruct (upgrade_loop_ok w w' (length l) 1 (is_length s) Hwk Hwk' ltac:(lia) ltac:(lia)
                l (intrev32ifbe w') g []) as (gap' & Hgap & E); auto.
    rewrite app_nil_r in E. rewrite E. cbn [mbind option_bind].
    rewrite (set_mid _ w' 0 [] gap' (enc w' l ++ [])); cbn [is_encoding]; auto;
      [|change (zlen (@nil Z)) with 0; lia|lia].
    rewrite Z.eqb_refl. cbn [mbind option_bind is_encoding is_length is_contents]. rewrite El, u32_small by lia.
    exists (Intset (intrev32ifbe w') (intrev32ifbe (zlen l + 1))
              ([] ++ le_enc (Z.to_nat w') v ++ enc w' l ++ [])), (v :: l).
    split; [done|]. split.
    + split; cbn [is_encoding is_length is_contents]; auto.
      * f_equal. zlia.
      * by rewrite app_nil_r, enc_cons.
      * constructor; [done|]. eapply Forall_impl; [exact Hr|]. intros. apply (in_s_wide w); auto; lia.
      * by constructor.
      * unfold INTSET_LIMIT. zlia.
    + intros x. apply elem_of_cons.
  - destruct (upgrade_loop_ok w w' (length l) 0 (is_length s) Hwk Hwk' ltac:(lia) ltac:(lia)
                l (intrev32ifbe w') (take (Z.to_nat (w' * zlen l - w * zlen l)) g)
                (drop (Z.to_nat (w' * zlen l - w * zlen l)) g)) as (gap' & Hgap & E); auto.
    { rewrite zlen_take by nia. change (Z.of_nat (length l)) with (zlen l). lia. }
    rewrite take_drop in E. rewrite E. cbn [mbind option_bind Z.eqb is_encoding is_length is_contents].
    change (0 =? 1) with false. cbv iota.
    rewrite El, s32_small by lia. assert (gap' = []) as -> by (apply zlen_0_inv; lia). cbn [app].
    set (t := drop _ g).
    assert (zlen t = w') as Ht by (unfold t; rewrite zlen_drop by nia; lia).
    rewrite (set_mid _ w' (zlen l) (enc w' l) t []); cbn [is_encoding is_contents]; auto;
      [|by rewrite app_nil_r|apply zlen_enc; lia].
    cbn [mbind option_bind is_encoding is_length is_contents]. rewrite El, u32_small by lia.
    exists (Intset (intrev32ifbe w') (intrev32ifbe (zlen l + 1)) (enc w' l ++ le_enc (Z.to_nat w') v ++ [])), (l ++ [v]).
    split; [done|]. split.
    + split; cbn [is_encoding is_length is_contents]; auto.
      * f_equal. zlia.
      * by rewrite enc_app, enc_cons.
      * apply Forall_app. split; [|by constructor].
        eapply Forall_impl; [exact Hr|]. intros. apply (in_s_wide w); auto; lia.
      * rewrite <- (app_nil_r l) in Hs. by apply sorted_insert.
      * unfold INTSET_LIMIT. zlia.
    + intros x. rewrite elem_of_app, list_elem_of_singleton. tauto.
Qed.

Lemma sorted_lt_NoDup l : StronglySorted Z.lt l -> NoDup l.
Proof.
  induction 1 as [|x l Hs IH Hf]; constructor; [|done].
  intros Hin. rewrite Forall_forall in Hf. specialize (Hf _ Hin). lia.
Qed.

Lemma sorted_lt_le l : StronglySorted Z.lt l -> StronglySorted Z.le l.
Proof.
  induction 1 as [|x l Hs IH Hf]; constructor; [done|].
  eapply Forall_impl; [exact Hf|]. simpl. lia.
Qed.

(** An increasing list is determined by its members. *)
Lemma members_sorted l (X : gset Z) :
  StronglySorted Z.lt l -> (forall x, x ∈ l <-> x ∈ X) -> l = sorted X /\ zlen l = Z.of_nat (size X).
Proof.
  intros Hs Hm. pose proof (sorted_lt_NoDup l Hs) as Hnd.
  assert (l ≡ₚ elements X) as Hp.
  { apply NoDup_Permutation; [done|apply NoDup_elements|]. intros x. by rewrite elem_of_elements. }
  split.
  - apply (StronglySorted_unique Z.le); [by apply sorted_lt_le| |].
    + apply StronglySorted_merge_sort; [apply _|]. intros x y. lia.
    + unfold sorted. by rewrite merge_sort_Permutation.
  - unfold zlen. by rewrite Hp.
Qed.

Lemma repi_get_any s w l i : repi s w l -> 0 <= i < zlen l ->
  exists x, l !! Z.to_nat i = Some x /\ _intsetGet s i = Some x.
Proof.
  intros Hrep Hi. destruct (split_at l i) as (a & b & -> & Ha & Hb); [lia|].
  destruct b as [|x b]; [zlia|]. exists x. split.
  - rewrite lookup_app_r by (unfold zlen in Ha; lia). by replace (Z.to_nat i - length a)%nat with 0%nat by (unfold zlen in Ha; lia).
  - rewrite <- Ha. by apply (repi_get s w (a ++ x :: b) a x b).
Qed.

Lemma add_ok s w l v : repi s w l -> in_s 64 v -> zlen l + 1 <= INTSET_LIMIT ->
  exists s' l', intsetAdd junk s v = Some (s', bool_decide (v ∉ l)) /\
    repi s' (Z.max w (_intsetValueEncoding v)) l' /\ forall x, x ∈ l' <-> x = v \/ x ∈ l.
Proof.
  intros Hrep Hv Hlim. destruct (repi_bounds s w _ Hrep) as (Hw & Hl & El & Ee & Hwl).
  pose proof Hrep as [Hwk _ _ _ Hr Hs _]. unfold intsetAdd. rewrite Ee.
  destruct (Z.ltb_spec w (_intsetValueEncoding v)) as [Hlt|Hge].
  - destruct (upgrade_ok s w l v) as (s' & l' & -> & Hrep' & Hm); auto. cbn [mbind option_bind].
    exists s', l'. rewrite Z.max_r by lia. split_and!; auto.
    rewrite bool_decide_true; [done|]. intros Hin. rewrite Forall_forall in Hr.
    specialize (Hr _ Hin). rewrite <- venc_le in Hr by done. lia.
  - rewrite Z.max_l by lia. destruct (search_ok s w l v Hrep) as (found & pos & -> & Hpost).
    cbn [mbind option_bind]. pose proof (not_in_search v l found pos Hs Hpost) as Hf.
    destruct found.
    + symmetry in Hf. apply bool_decide_eq_true in Hf. exists s, l.
      rewrite bool_decide_false by (intros Hn; by apply Hn). split_and!; auto.
      intros x. split; [tauto|]. by intros [->|].
    + symmetry in Hf. apply bool_decide_eq_false in Hf.
      destruct Hpost as (a & b & <- & Ha & Hb & ->).
      assert (in_s (8 * w) v) as Hvw by (by apply venc_le).
      destruct (insert_ok s w a b v) as (s' & Hrep' & E); auto.
      cbv zeta in E. rewrite E. exists s', (a ++ v :: b). rewrite bool_decide_true by done.
      split_and!; auto. intros x. rewrite !elem_of_app, elem_of_cons. tauto.
Qed.

Lemma remove_ok s w l v : repi s w l -> in_s 64 v ->
  exists s' l', intsetRemove junk s v = Some (s', bool_decide (v ∈ l)) /\
    repi s' w l' /\ forall x, x ∈ l' <-> x ∈ l /\ x <> v.
Proof.
  intros Hrep Hv. destruct (repi_bounds s w _ Hrep) as (Hw & Hl & El & Ee & Hwl).
  pose proof Hrep as [Hwk _ _ _ Hr Hs _]. unfold intsetRemove. rewrite Ee.
  assert (v ∉ l -> exists s' l', Some (s, false) = Some (s', bool_decide (v ∈ l)) /\
    repi s' w l' /\ forall x, x ∈ l' <-> x ∈ l /\ x <> v) as Habs.
  { intros Hn. exists s, l. rewrite bool_decide_false by done. split_and!; auto.
    intros x. split; [|tauto]. intros Hin. split; [done|]. by intros ->. }
  destruct (Z.leb_spec (_intsetValueEncoding v) w) as [Hle|Hgt].
  - destruct (search_ok s w l v Hrep) as (found & pos & -> & Hpost). cbn [mbind option_bind].
    pose proof (not_in_search v l found pos Hs Hpost) as Hf. symmetry in Hf. destruct found.
    + rewrite Hf. destruct Hpost as (a & b & <- & Ha & Hb & ->).
      destruct (delete_ok s w a b v Hrep) as (s' & Hrep' & E). cbv zeta in E. rewrite E.
      exists s', (a ++ b). split_and!; auto. intros x.
      rewrite !elem_of_app, elem_of_cons. rewrite !Forall_forall in *. split; [|tauto].
      intros [Hin|Hin]; (split; [tauto|]); intros ->;
        [specialize (Ha _ Hin)|specialize (Hb _ Hin)]; simpl in *; lia.
    + apply bool_decide_eq_false in Hf. by apply Habs.
  - apply Habs. intros Hin. rewrite Forall_forall in Hr.
    specialize (Hr _ Hin). rewrite <- venc_le in Hr by done. lia.
Qed.

Lemma find_ok s w l v : repi s w l -> in_s 64 v -> intsetFind s v = Some (bool_decide (v ∈ l)).
Proof.
  intros Hrep Hv. destruct (repi_bounds s w _ Hrep) as (Hw & Hl & El & Ee & Hwl).
  pose proof Hrep as [Hwk _ _ _ Hr Hs _]. unfold intsetFind. rewrite Ee.
  destruct (Z.leb_spec (_intsetValueEncoding v) w) as [Hle|Hgt].
  - destruct (search_ok s w l v Hrep) as (found & pos & -> & Hpost). cbn [mbind option_bind].
    by rewrite (not_in_search v l found pos Hs Hpost).
  - rewrite bool_decide_false; [done|]. intros Hin. rewrite Forall_forall in Hr.
    specialize (Hr _ Hin). rewrite <- venc_le in Hr by done. lia.
Qed.

Lemma exec_ok s w (X : gset Z) o :
  repi s w (sorted X) -> op_ok o -> Z.of_nat (size X) + 1 <= INTSET_LIMIT ->
  let '(X', w', r) := spec o (X, w) in
  exists s', exec junk o s = Some (s', r) /\ repi s' w' (sorted X').
Proof.
  intros Hrep Hok Hlim. pose proof (ri_sorted _ _ _ Hrep) as Hs.
  assert (forall x, x ∈ sorted X <-> x ∈ X) as Hm
    by (intros x; unfold sorted; by rewrite merge_sort_Permutation, elem_of_elements).
  destruct (members_sorted _ X Hs Hm) as [_ Hz].
  destruct (repi_bounds s w _ Hrep) as (Hw & Hl & El & Ee & Hwl).
  assert (forall s' w' l' X', repi s' w' l' -> (forall x, x ∈ l' <-> x ∈ X') ->
    repi s' w' (sorted X')) as Hfin.
  { intros s' w' l' X' Hr' Hm'. by destruct (members_sorted l' X' (ri_sorted _ _ _ Hr') Hm') as [<- _]. }
  destruct o as [v|v|v|p| |]; cbn [spec exec op_ok] in *.
  - destruct (add_ok s w _ v Hrep Hok) as (s' & l' & -> & Hr' & Hm'); [lia|].
    cbn [mbind option_bind]. exists s'. split.
    + do 3 f_equal. apply bool_decide_ext. by rewrite Hm.
    + apply (Hfin _ _ l'); [done|]. intros x. rewrite Hm', Hm. set_solver.
  - destruct (remove_ok s w _ v Hrep Hok) as (s' & l' & -> & Hr' & Hm').
    cbn [mbind option_bind]. exists s'. split.
    + do 3 f_equal. apply bool_decide_ext. by rewrite Hm.
    + apply (Hfin _ _ l'); [done|]. intros x. rewrite Hm', Hm. set_solver.
  - rewrite (find_ok s w _ v Hrep Hok). cbn [mbind option_bind]. exists s. split; [|done].
    do 3 f_equal. apply bool_decide_ext. by rewrite Hm.
  - unfold intsetGet. rewrite El. exists s. split; [|done].
    unfold in_u in Hok. destruct (Z.ltb_spec p (zlen (sorted X))) as [Hlt|Hge].
    + rewrite s32_small by lia.
      destruct (repi_get_any s w _ p Hrep) as (x & -> & ->); [lia|]. done.
    + cbn [mbind option_bind]. rewrite lookup_ge_None_2; [done|]. unfold zlen in *. lia.
  - exists s. split; [|done]. unfold intsetLen. by rewrite El, Hz.
  - exists s. split; [|done]. unfold intsetBlobLen. rewrite El, Ee, u32_small by lia.
    rewrite Hz. do 4 f_equal. lia.
Qed.

Lemma spec_size o X w : (size (spec o (X, w)).1.1 <= size X + 1)%nat.
Proof.
  destruct o as [v|v|v|p| |]; cbn [spec fst]; try lia.
  - rewrite size_union_alt, size_singleton.
    pose proof (subseteq_size (X ∖ {[v]}) X ltac:(set_solver)). lia.
  - pose proof (subseteq_size (X ∖ {[v]}) X ltac:(set_solver)). lia.
Qed.

Lemma exec_all_ok os : forall s w (X : gset Z),
  repi s w (sorted X) -> Forall op_ok os -> Z.of_nat (size X) + zlen os <= INTSET_LIMIT ->
  let '(X', w', rs) := spec_all os (X, w) in
  exists s', exec_all junk os s = Some (s', rs) /\ repi s' w' (sorted X').
Proof.
  induction os as [|o os IH]; intros s w X Hrep Hok Hlim; cbn [spec_all exec_all]; [eauto|].
  inversion Hok as [|?? Ho Hos]; subst. zlen_simpl. pose proof (zlen_nonneg os).
  pose proof (exec_ok s w X o Hrep Ho ltac:(lia)) as E. pose proof (spec_size o X w) as Hsz.
  destruct (spec o (X, w)) as [[X1 w1] r]. cbn [fst] in Hsz. destruct E as (s1 & -> & Hrep1).
  cbn [mbind option_bind]. specialize (IH s1 w1 X1 Hrep1 Hos ltac:(lia)).
  destruct (spec_all os (X1, w1)) as [[X2 w2] rs]. destruct IH as (s2 & -> & Hrep2).
  cbn [mbind option_bind]. eauto.
Qed.

End Facts.
End IntsetFacts.

Import IntsetSpec IntsetFacts.

(** C24. The integer sets implement finite sets of 64-bit integers on either byte
    order: from a new set, any sequence of at most 2^28 additions, removals,
    membership tests, indexed reads and length queries runs without an access
    outside the allocation and returns what the mathematical set gives (whether the
    value was new or present, the value of each rank, the cardinality, the size of
    the blob), and the final bytes are the members in increasing order in the
    little-endian width the widest value added so far needs, whatever the host and
    whatever realloc returns. *)
Theorem intset_refines `{Host} junk os :
  Forall op_ok os -> zlen os <= INTSET_LIMIT ->
  exists s X w rs, spec_all os (∅, 2) = (X, w, rs) /\
    exec_all junk os intsetNew = Some (s, rs) /\
    intrev32ifbe (is_encoding s) = w /\ intrev32ifbe (is_length s) = Z.of_nat (size X) /\
    is_contents s = enc w (sorted X).
Proof.
  intros Hok Hlim. assert (repi intsetNew 2 (sorted ∅)) as Hrep.
  { change (sorted ∅) with (@nil Z). split; try done; [by left| |constructor].
    by destruct H as [[|]]. }
  pose proof (exec_all_ok junk os intsetNew 2 ∅ Hrep Hok ltac:(rewrite size_empty; lia)) as E.
  destruct (spec_all os (∅, 2)) as [[X w] rs]. destruct E as (s & E & Hr).
  exists s, X, w, rs. destruct (repi_bounds s w _ Hr) as (_ & _ & El & Ee & _).
  assert (forall x, x ∈ sorted X <-> x ∈ X) as Hm
    by (intros x; unfold sorted; by rewrite merge_sort_Permutation, elem_of_elements).
  destruct (members_sorted _ X (ri_sorted _ _ _ Hr) Hm) as [_ Hz].
  split_and!; auto; [by rewrite El|apply (ri_contents _ _ _ Hr)].
Qed.

Definition demo_ops : list op :=
  [OAdd 5; OAdd (-3); OAdd 70000; OAdd 5; OFind 70000; ORemove (-3); OAdd (-5000000000);
   OGet 0; OGet 9; OLen; OBlobLen].

Definition demo_host : Host := {| big_endian := true |}.

Lemma intset_refines_witness :
  exists s X w rs, spec_all demo_ops (∅, 2) = (X, w, rs) /\
    exec_all (H := demo_host) (fun _ => 7) demo_ops (@intsetNew demo_host) = Some (s, rs) /\
    @intrev32ifbe demo_host (is_encoding s) = w /\
    @intrev32ifbe demo_host (is_length s) = Z.of_nat (size X) /\
    is_contents s = enc w (sorted X).
Proof.
  apply (@intset_refines demo_host (fun _ => 7) demo_ops);
    [|vm_compute; discriminate].
  repeat constructor; vm_compute; auto; try discriminate.
Defined.
