(* ===== verification/Dict.v ===== *)
(** * dict.c: hash tables with incremental rehashing

    A table is the list of its buckets and a bucket the list of its chained
    entries: every entry belongs to one chain, so the chains are values.  A
    pointer to an entry is its place ([loc]): table, bucket, position in the
    chain; it is valid in the state it is returned with. *)

From S2P Require Import Prelude Endian Util.

(** ** Hash functions *)

Definition unot (w z : Z) : Z := 2 ^ w - 1 - z.

Definition dictIntHashFunction (key : Z) : Z :=
  let key := uwrap 32 (key + unot 32 (uwrap 32 (Z.shiftl key 15))) in
  let key := Z.lxor key (Z.shiftr key 10) in
  let key := uwrap 32 (key + uwrap 32 (Z.shiftl key 3)) in
  let key := Z.lxor key (Z.shiftr key 6) in
  let key := uwrap 32 (key + unot 32 (uwrap 32 (Z.shiftl key 11))) in
  Z.lxor key (Z.shiftr key 16).

Definition dictIdentityHashFunction (key : Z) : Z := key.

Definition murmur_m : Z := 1540483477.
Definition murmur_r : Z := 24.

(** The loop of dictGenHashFunction on the bytes left at [data] and their number. *)
Fixpoint murmur_loop `{Host} (fuel : nat) (data : list Z) (len h : Z) : option (list Z * Z * Z) :=
  if 4 <=? len then
    match fuel with
    | O => None
    | S f =>
        w ← rdn data 0 4;
        let k := host_dec w in
        let k := uwrap 32 (k * murmur_m) in
        let k := Z.lxor k (Z.shiftr k murmur_r) in
        let k := uwrap 32 (k * murmur_m) in
        let h := uwrap 32 (h * murmur_m) in
        let h := Z.lxor h k in
        murmur_loop f (drop 4 data) (len - 4) h
    end
  else Some (data, len, h).

Definition dictGenHashFunction `{Host} (seed : Z) (key : list Z) (len : Z) : option Z :=
  let h := Z.lxor seed (uwrap 32 len) in
  '(data, len, h) ← murmur_loop (Z.to_nat len) key len h;
  h ← (if len =? 3 then c ← rd data 2; Some (Z.lxor h (uwrap 32 (Z.shiftl c 16))) else Some h);
  h ← (if (len =? 3) || (len =? 2)
       then c ← rd data 1; Some (Z.lxor h (uwrap 32 (Z.shiftl c 8))) else Some h);
  h ← (if (len =? 3) || (len =? 2) || (len =? 1)
       then c ← rd data 0; Some (uwrap 32 (Z.lxor h c * murmur_m)) else Some h);
  let h := Z.lxor h (Z.shiftr h 13) in
  let h := uwrap 32 (h * murmur_m) in
  Some (Z.lxor h (Z.shiftr h 15)).

(** [len--] reaches 0 after [len] rounds. *)
Fixpoint case_hash_loop (len : nat) (buf : list Z) (hash : Z) : option Z :=
  match len with
  | O => Some hash
  | S len =>
      match buf with
      | [] => None
      | c :: buf =>
          case_hash_loop len buf
            (uwrap 32 (uwrap 32 (uwrap 32 (Z.shiftl hash 5) + hash) + tolower c))
      end
  end.

Definition dictGenCaseHashFunction (seed : Z) (buf : list Z) (len : Z) : option Z :=
  if 0 <=? len then case_hash_loop (Z.to_nat len) buf seed else None.

(** ** The dictionary *)

(** The callbacks of a dictType that decide its behaviour. *)
Class DictType (K V : Type) := {
  hashFunction : K -> Z;
  keyDup : option (K -> K);
  valDup : option (V -> V);
  keyCompare : K -> K -> bool }.

(** What a dictType has to guarantee: keys that compare equal are those with the
    same [canon], and they have the same hash, a 32-bit unsigned integer. *)
Class DictTypeOk (K V C : Type) `{DictType K V} := {
  canon : K -> C;
  compare_canon a b : keyCompare a b = true <-> canon a = canon b;
  hash_canon a b : canon a = canon b -> hashFunction a = hashFunction b;
  hash_u32 a : in_u 32 (hashFunction a);
  dup_canon f a : keyDup = Some f -> canon (f a) = canon a }.

Section Dict.
Context {K V : Type} `{DictType K V} (junk : V).

Record dictht := Ht { table : list (list (K * V)); size : Z; sizemask : Z; used : Z }.
Record dict := Dict { ht0 : dictht; ht1 : dictht; rehashidx : Z; iterators : Z }.

Definition DICT_HT_INITIAL_SIZE : Z := 4.
Definition LONG_MAX : Z := 2 ^ 63 - 1.
Definition dict_force_resize_ratio : Z := 5.

Definition dictSetVal_value (v : V) : V := match valDup with Some f => f v | None => v end.
Definition dictSetKey_key (k : K) : K := match keyDup with Some f => f k | None => k end.

Definition dictSlots (d : dict) : Z := uwrap 64 (size (ht0 d) + size (ht1 d)).
Definition dictSize (d : dict) : Z := uwrap 64 (used (ht0 d) + used (ht1 d)).
Definition dictIsRehashing (d : dict) : bool := negb (rehashidx d =? -1).

(** [d->ht[t]] and its assignment. *)
Definition get_ht (d : dict) (t : Z) : dictht := if t =? 0 then ht0 d else ht1 d.
Definition set_ht (d : dict) (t : Z) (ht : dictht) : dict :=
  if t =? 0 then Dict ht (ht1 d) (rehashidx d) (iterators d)
  else Dict (ht0 d) ht (rehashidx d) (iterators d).

Definition _dictReset : dictht := Ht [] 0 0 0.
Definition _dictInit : dict := Dict _dictReset _dictReset (-1) 0.
Definition dictCreate : dict := _dictInit.

Fixpoint next_power_loop (fuel : nat) (i size : Z) : option Z :=
  match fuel with
  | O => None
  | S f => if size <=? i then Some i else next_power_loop f (uwrap 64 (i * 2)) size
  end.

Definition _dictNextPower (size : Z) : option Z :=
  if LONG_MAX <=? size then Some LONG_MAX
  else next_power_loop 64 DICT_HT_INITIAL_SIZE size.

(** [dictExpand]: [true] is DICT_OK. *)
Definition dictExpand (d : dict) (sz : Z) : option (dict * bool) :=
  realsize ← _dictNextPower sz;
  if dictIsRehashing d || (sz <? used (ht0 d)) then Some (d, false) else
  let n := Ht (replicate (Z.to_nat realsize) []) realsize (uwrap 64 (realsize - 1)) 0 in
  match table (ht0 d) with
  | [] => Some (Dict n (ht1 d) (rehashidx d) (iterators d), true)
  | _ => Some (Dict (ht0 d) n 0 (iterators d), true)
  end.

Definition dictResize (can : bool) (d : dict) : option (dict * bool) :=
  if negb can || dictIsRehashing d then Some (d, false) else
  let minimal := swrap 32 (used (ht0 d)) in
  let minimal := if minimal <? DICT_HT_INITIAL_SIZE then DICT_HT_INITIAL_SIZE else minimal in
  dictExpand d (uwrap 64 minimal).

(** [while(d->ht[0].table[d->rehashidx] == NULL) d->rehashidx++] *)
Fixpoint skip_empty (fuel : nat) (t : list (list (K * V))) (idx : Z) : option Z :=
  b ← rd t idx;
  match b with
  | [] => match fuel with O => None | S f => skip_empty f t (swrap 32 (idx + 1)) end
  | _ => Some idx
  end.

(** Moving the entries [de] of a bucket to the new table. *)
Fixpoint move_bucket (d : dict) (de : list (K * V)) : option dict :=
  match de with
  | [] => Some d
  | e :: nextde =>
      let n := ht1 d in
      let h := uwrap 32 (Z.land (hashFunction (fst e)) (sizemask n)) in
      b ← rd (table n) h;
      t ← wr (table n) h (e :: b);
      let o := ht0 d in
      move_bucket
        (Dict (Ht (table o) (size o) (sizemask o) (uwrap 64 (used o - 1)))
              (Ht t (size n) (sizemask n) (uwrap 64 (used n + 1)))
              (rehashidx d) (iterators d)) nextde
  end.

(** One round of the loop of dictRehash; [false] when the rehashing is complete. *)
Definition rehash_step (d : dict) : option (dict * bool) :=
  if used (ht0 d) =? 0 then Some (Dict (ht1 d) _dictReset (-1) (iterators d), false) else
  _ ← cassert (uwrap 32 (rehashidx d) <? size (ht0 d));
  idx ← skip_empty (length (table (ht0 d))) (table (ht0 d)) (rehashidx d);
  de ← rd (table (ht0 d)) idx;
  d ← move_bucket d de;
  let o := ht0 d in
  t ← wr (table o) idx [];
  Some (Dict (Ht t (size o) (sizemask o) (used o)) (ht1 d) (swrap 32 (idx + 1)) (iterators d), true).

Fixpoint rehash_loop (n : nat) (d : dict) : option (dict * bool) :=
  match n with
  | O => Some (d, true)
  | S n => '(d, more) ← rehash_step d; if (more : bool) then rehash_loop n d else Some (d, false)
  end.

(** [dictRehash]: the loop counts [n] down to 0. *)
Definition dictRehash (d : dict) (n : nat) : option (dict * bool) :=
  if negb (dictIsRehashing d) then Some (d, false) else rehash_loop n d.

Definition _dictRehashStep (d : dict) : option dict :=
  if iterators d =? 0 then '(d, _) ← dictRehash d 1; Some d else Some d.

Definition step_if_rehashing (d : dict) : option dict :=
  if dictIsRehashing d then _dictRehashStep d else Some d.

Definition _dictExpandIfNeeded (can : bool) (d : dict) : option (dict * bool) :=
  if dictIsRehashing d then Some (d, true) else
  if size (ht0 d) =? 0 then dictExpand d DICT_HT_INITIAL_SIZE else
  if (size (ht0 d) <=? used (ht0 d)) &&
     (can || (dict_force_resize_ratio <? used (ht0 d) / size (ht0 d)))
  then dictExpand d (uwrap 64 (used (ht0 d) * 2))
  else Some (d, true).

(** The walk along a chain: the position of the first entry with that key. *)
Fixpoint chain_find (key : K) (he : list (K * V)) : option nat :=
  match he with
  | [] => None
  | e :: he => if keyCompare key (fst e) then Some O else S <$> chain_find key he
  end.

(** One round of the loops over [table]: the bucket index and the walk's result. *)
Definition search_table (d : dict) (key : K) (t : Z) : option (Z * option nat) :=
  let ht := get_ht d t in
  let idx := uwrap 32 (Z.land (hashFunction key) (sizemask ht)) in
  he ← rd (table ht) idx;
  Some (idx, chain_find key he).

Definition _dictKeyIndex (can : bool) (d : dict) (key : K) : option (dict * Z) :=
  '(d, ok) ← _dictExpandIfNeeded can d;
  if negb ok then Some (d, -1) else
  '(idx, he) ← search_table d key 0;
  match he with
  | Some _ => Some (d, -1)
  | None =>
      if negb (dictIsRehashing d) then Some (d, swrap 32 idx) else
      '(idx, he) ← search_table d key 1;
      match he with
      | Some _ => Some (d, -1)
      | None => Some (d, swrap 32 idx)
      end
  end.

Definition loc : Type := Z * Z * nat.

(** The entry at a place, and the assignment of its value field. *)
Definition entry_at (d : dict) (l : loc) : option (K * V) :=
  let '(t, idx, p) := l in b ← rd (table (get_ht d t)) idx; b !! p.

Definition dictSetVal (d : dict) (l : loc) (v : V) : option dict :=
  let '(t, idx, p) := l in
  let ht := get_ht d t in
  b ← rd (table ht) idx;
  e ← b !! p;
  tb ← wr (table ht) idx (<[p := (fst e, dictSetVal_value v)]> b);
  Some (set_ht d t (Ht tb (size ht) (sizemask ht) (used ht))).

Definition dictAddRaw (can : bool) (d : dict) (key : K) : option (dict * option loc) :=
  d ← step_if_rehashing d;
  '(d, index) ← _dictKeyIndex can d key;
  if index =? -1 then Some (d, None) else
  let t := if dictIsRehashing d then 1 else 0 in
  let ht := get_ht d t in
  b ← rd (table ht) index;
  tb ← wr (table ht) index ((dictSetKey_key key, junk) :: b);
  Some (set_ht d t (Ht tb (size ht) (sizemask ht) (uwrap 64 (used ht + 1))),
        Some (t, index, O)).

(** [true] is DICT_OK. *)
Definition dictAdd (can : bool) (d : dict) (key : K) (val : V) : option (dict * bool) :=
  '(d, entry) ← dictAddRaw can d key;
  match entry with
  | None => Some (d, false)
  | Some l => d ← dictSetVal d l val; Some (d, true)
  end.

Definition dictFind (d : dict) (key : K) : option (dict * option loc) :=
  if size (ht0 d) =? 0 then Some (d, None) else
  d ← step_if_rehashing d;
  '(idx, he) ← search_table d key 0;
  match he with
  | Some p => Some (d, Some (0, idx, p))
  | None =>
      if negb (dictIsRehashing d) then Some (d, None) else
      '(idx, he) ← search_table d key 1;
      match he with
      | Some p => Some (d, Some (1, idx, p))
      | None => Some (d, None)
      end
  end.

Definition dictReplace (can : bool) (d : dict) (key : K) (val : V) : option (dict * bool) :=
  '(d, added) ← dictAdd can d key val;
  if (added : bool) then Some (d, true) else
  '(d, entry) ← dictFind d key;
  l ← entry;
  d ← dictSetVal d l val;
  Some (d, false).

Definition dictReplaceRaw (can : bool) (d : dict) (key : K) : option (dict * option loc) :=
  '(d, entry) ← dictFind d key;
  match entry with
  | Some _ => Some (d, entry)
  | None => dictAddRaw can d key
  end.

Definition dictFetchValue (d : dict) (key : K) : option (dict * option V) :=
  '(d, he) ← dictFind d key;
  match he with
  | Some l => e ← entry_at d l; Some (d, Some (snd e))
  | None => Some (d, None)
  end.

(** Unlinking the entry at position [p] of a bucket. *)
Definition unlink (d : dict) (t idx : Z) (p : nat) : option dict :=
  let ht := get_ht d t in
  b ← rd (table ht) idx;
  tb ← wr (table ht) idx (delete p b);
  Some (set_ht d t (Ht tb (size ht) (sizemask ht) (uwrap 64 (used ht - 1)))).

Definition dictGenericDelete (d : dict) (key : K) : option (dict * bool) :=
  if size (ht0 d) =? 0 then Some (d, false) else
  d ← step_if_rehashing d;
  '(idx, he) ← search_table d key 0;
  match he with
  | Some p => d ← unlink d 0 idx p; Some (d, true)
  | None =>
      if negb (dictIsRehashing d) then Some (d, false) else
      '(idx, he) ← search_table d key 1;
      match he with
      | Some p => d ← unlink d 1 idx p; Some (d, true)
      | None => Some (d, false)
      end
  end.

(** They differ in calling the destructors of the key and the value. *)
Definition dictDelete := dictGenericDelete.
Definition dictDeleteNoFree := dictGenericDelete.

(** The loop of [_dictClear]: the number of entries it frees from bucket [i] on. *)
Fixpoint clear_loop (buckets : list (list (K * V))) (i sz us : Z) : option Z :=
  if (i <? sz) && (0 <? us) then
    match buckets with
    | [] => None
    | b :: buckets => clear_loop buckets (i + 1) sz (uwrap 64 (us - zlen b))
    end
  else Some us.

Definition _dictClear (ht : dictht) : option dictht :=
  _ ← clear_loop (table ht) 0 (size ht) (used ht); Some _dictReset.

Definition dictEmpty (d : dict) : option dict :=
  h0 ← _dictClear (ht0 d);
  h1 ← _dictClear (ht1 d);
  Some (Dict h0 h1 (-1) 0).

(** ** Scanning *)

(** [rev]: one round with the shift [s] halved, on [v] and [mask]. *)
Definition rev_step (s : Z) (st : Z * Z) : Z * Z :=
  let '(v, mask) := st in
  let mask := Z.lxor mask (uwrap 64 (Z.shiftl mask s)) in
  (Z.lor (Z.land (Z.shiftr v s) mask)
         (Z.land (uwrap 64 (Z.shiftl v s)) (unot 64 mask)), mask).

(** The rounds are those with s = 32, 16, 8, 4, 2 and 1; the int -1 that
    initialises the mask is extended to all ones. *)
Definition rev (v : Z) : Z :=
  fst (rev_step 1 (rev_step 2 (rev_step 4 (rev_step 8 (rev_step 16 (rev_step 32
    (v, 2 ^ 64 - 1))))))).

(** The loop over the larger table: the entries emitted and the cursor. *)
Fixpoint scan_large (fuel : nat) (t1 : list (list (K * V))) (m0 m1 v : Z)
    : option (list (K * V) * Z) :=
  match fuel with
  | O => None
  | S f =>
      de ← rd t1 (Z.land v m1);
      let v := Z.lor (Z.land (uwrap 64 (Z.lor v m0 + 1)) (unot 64 m0)) (Z.land v m0) in
      if Z.land v (Z.lxor m0 m1) =? 0 then Some (de, v)
      else '(es, v) ← scan_large f t1 m0 m1 v; Some (de ++ es, v)
  end.

(** [dictScan]: the entries passed to the callback, in order, and the new cursor. *)
Definition dictScan (d : dict) (v : Z) : option (list (K * V) * Z) :=
  if dictSize d =? 0 then Some ([], 0) else
  '(es, m0, v) ←
    (if negb (dictIsRehashing d) then
       let m0 := sizemask (ht0 d) in
       de ← rd (table (ht0 d)) (Z.land v m0);
       Some (de, m0, v)
     else
       let '(t0, t1) := if size (ht1 d) <? size (ht0 d) then (ht1 d, ht0 d) else (ht0 d, ht1 d) in
       let m0 := sizemask t0 in
       let m1 := sizemask t1 in
       de ← rd (table t0) (Z.land v m0);
       '(es, v) ← scan_large (length (table t1)) (table t1) m0 m1 v;
       Some (de ++ es, m0, v));
  let v := Z.lor v (unot 64 m0) in
  let v := rev v in
  let v := uwrap 64 (v + 1) in
  Some (es, rev v).

End Dict.

Arguments dictht : clear implicits.
Arguments dict : clear implicits.

(** ** Specification *)

Module DictSpec.
Section Spec.
Context {K V C : Type} `{Countable C} `{DictTypeOk K V C}.

(** The limit on the number of entries and on requested sizes under which every
    index fits an int. *)
Definition DICT_LIMIT : Z := 2 ^ 29.

Definition entries (d : dict K V) : list (K * V) := concat (table (ht0 d)) ++ concat (table (ht1 d)).

Definition keys (es : list (K * V)) : list C := map (fun e => canon (fst e)) es.

(** The finite map a dictionary stands for: the stored key and value of each key. *)
Definition as_map (d : dict K V) : gmap C (K * V) :=
  list_to_map (map (fun e => (canon (fst e), e)) (entries d)).

(** Every entry is in the bucket its hash selects. *)
Definition placed (mask : Z) (t : list (list (K * V))) : Prop :=
  forall i b e, t !! i = Some b -> e ∈ b -> Z.land (hashFunction (fst e)) mask = Z.of_nat i.

Definition reset (ht : dictht K V) : Prop := ht = _dictReset.

Record alloc (ht : dictht K V) (k : Z) : Prop := {
  al_k : 2 <= k <= 30;
  al_size : size ht = 2 ^ k;
  al_len : zlen (table ht) = 2 ^ k;
  al_mask : sizemask ht = 2 ^ k - 1;
  al_used : used ht = zlen (concat (table ht));
  al_placed : placed (sizemask ht) (table ht) }.

(** The invariant: at rest the second table is unallocated; during a rehashing both
    are allocated and the buckets before [rehashidx] are empty. *)
Record wf (d : dict K V) : Prop := {
  wf_keys : NoDup (keys (entries d));
  wf_tables :
    (rehashidx d = -1 /\ reset (ht1 d) /\ (reset (ht0 d) \/ exists k, alloc (ht0 d) k)) \/
    (exists k0 k1, alloc (ht0 d) k0 /\ alloc (ht1 d) k1 /\ 0 <= rehashidx d <= 2 ^ k0 /\
       forall i b, table (ht0 d) !! i = Some b -> Z.of_nat i < rehashidx d -> b = []) }.

(** The operations. *)
Inductive op :=
  | OAdd (k : K) (v : V)
  | OReplace (k : K) (v : V)
  | ODelete (k : K)
  | OFetch (k : K)
  | OSize
  | OEmpty
  | ORehash (n : nat)
  | OResize
  | OExpand (n : Z)
  | OCanResize (b : bool).

Inductive result := RBool (b : bool) | RVal (v : option V) | RInt (n : Z) | RUnit.

Definition exec (junk : V) (o : op) (st : dict K V * bool) : option (dict K V * bool * result) :=
  let '(d, can) := st in
  match o with
  | OAdd k v => '(d, b) ← dictAdd junk can d k v; Some (d, can, RBool b)
  | OReplace k v => '(d, b) ← dictReplace junk can d k v; Some (d, can, RBool b)
  | ODelete k => '(d, b) ← dictDelete d k; Some (d, can, RBool b)
  | OFetch k => '(d, r) ← dictFetchValue d k; Some (d, can, RVal r)
  | OSize => Some (d, can, RInt (dictSize d))
  | OEmpty => d ← dictEmpty d; Some (d, can, RUnit)
  | ORehash n => '(d, _) ← dictRehash d n; Some (d, can, RUnit)
  | OResize => '(d, _) ← dictResize can d; Some (d, can, RUnit)
  | OExpand n => '(d, _) ← dictExpand d n; Some (d, can, RUnit)
  | OCanResize b => Some (d, b, RUnit)
  end.

Definition spec (o : op) (m : gmap C (K * V)) : gmap C (K * V) * result :=
  match o with
  | OAdd k v =>
      match m !! canon k with
      | Some _ => (m, RBool false)
      | None => (<[canon k := (dictSetKey_key k, dictSetVal_value v)]> m, RBool true)
      end
  | OReplace k v =>
      match m !! canon k with
      | Some (k', _) => (<[canon k := (k', dictSetVal_value v)]> m, RBool false)
      | None => (<[canon k := (dictSetKey_key k, dictSetVal_value v)]> m, RBool true)
      end
  | ODelete k => (delete (canon k) m, RBool (bool_decide (is_Some (m !! canon k))))
  | OFetch k => (m, RVal (snd <$> m !! canon k))
  | OSize => (m, RInt (Z.of_nat (base.size m)))
  | OEmpty => (∅, RUnit)
  | ORehash _ | OResize | OExpand _ | OCanResize _ => (m, RUnit)
  end.

Definition op_ok (o : op) : Prop :=
  match o with OExpand n => 0 <= n <= 2 * DICT_LIMIT | _ => True end.

Fixpoint exec_all (junk : V) (os : list op) (st : dict K V * bool)
    : option (dict K V * bool * list result) :=
  match os with
  | [] => Some (st, [])
  | o :: os => '(st, r) ← exec junk o st; '(st, rs) ← exec_all junk os st; Some (st, r :: rs)
  end.

Fixpoint spec_all (os : list op) (m : gmap C (K * V)) : gmap C (K * V) * list result :=
  match os with
  | [] => (m, [])
  | o :: os => let '(m, r) := spec o m in let '(m, rs) := spec_all os m in (m, r :: rs)
  end.

End Spec.
Arguments op : clear implicits.
Arguments result : clear implicits.
End DictSpec.

(** ** Proofs: tables *)

Module DictFacts.
Import DictSpec.
Section Facts.
Context {K V C : Type} `{Countable C} `{DictTypeOk K V C} (junk : V).
#[local] Abbreviation entry := (K * V)%type.
#[local] Abbreviation keysof := (keys (K := K) (V := V) (C := C)).

Lemma rd_split {A} (t : list A) i b :
  rd t i = Some b -> exists x y, t = x ++ b :: y /\ zlen x = i.
Proof.
  intros Hr. apply rd_Some in Hr as [Hi Hl]. apply list_elem_of_split_length in Hl as (x & y & -> & Hx).
  exists x, y. split; [done|]. unfold zlen. lia.
Qed.

Lemma rd_lookup {A} (t : list A) i b : rd t i = Some b -> t !! Z.to_nat i = Some b.
Proof. intros Hr. by apply rd_Some in Hr as [_ ?]. Qed.

(** Replacing a bucket. *)
Lemma wr_bucket (t : list (list entry)) i b b' :
  rd t i = Some b -> exists t' rest, wr t i b' = Some t' /\ zlen t' = zlen t /\
    t' = <[Z.to_nat i := b']> t /\
    concat t ≡ₚ b ++ rest /\ concat t' ≡ₚ b' ++ rest.
Proof.
  intros Hr. destruct (rd_split t i b Hr) as (x & y & -> & Hx).
  exists (x ++ b' :: y), (concat x ++ concat y).
  rewrite wr_app_mid by done. rewrite !zlen_app, !zlen_cons, !concat_app. cbn [concat].
  split_and!; try done.
  - rewrite <- Hx. unfold zlen. rewrite Nat2Z.id, insert_app_r_alt by lia. by rewrite Nat.sub_diag.
  - rewrite !(assoc_L (++)). by rewrite (Permutation_app_comm (concat x) b).
  - rewrite !(assoc_L (++)). by rewrite (Permutation_app_comm (concat x) b').
Qed.

Lemma placed_insert mask (t : list (list entry)) i b' :
  placed mask t -> (forall e, e ∈ b' -> Z.land (hashFunction (fst e)) mask = Z.of_nat i) ->
  placed mask (<[i := b']> t).
Proof.
  intros Hp Hb j b e Hl He. destruct (decide (i = j)) as [<-|Hne].
  - destruct (decide (i < length t)%nat).
    + rewrite list_lookup_insert_eq in Hl by done. injection Hl as <-. by apply Hb.
    + rewrite list_insert_ge in Hl by lia. by eapply Hp.
  - rewrite list_lookup_insert_ne in Hl by done. by eapply Hp.
Qed.

Lemma mask_pow k : 0 <= k -> 2 ^ k - 1 = Z.ones k.
Proof. intros. rewrite Z.ones_equiv. lia. Qed.

Lemma land_mask h k : 0 <= k -> Z.land h (2 ^ k - 1) = h mod 2 ^ k.
Proof. intros. rewrite mask_pow by done. by apply Z.land_ones. Qed.

(** The bucket a key selects. *)
Lemma index_ok (ht : dictht K V) k key : alloc ht k ->
  uwrap 32 (Z.land (hashFunction key) (sizemask ht)) = Z.land (hashFunction key) (sizemask ht) /\
  0 <= Z.land (hashFunction key) (sizemask ht) < 2 ^ k /\ 2 ^ k <= 2 ^ 30.
Proof.
  intros [Hk Hs Hl Hm _ _]. rewrite Hm, land_mask by lia.
  pose proof (Z.mod_pos_bound (hashFunction key) (2 ^ k) ltac:(lia)).
  pose proof (Z.pow_le_mono_r 2 k 30). split; [|lia]. apply u32_small. lia.
Qed.

Lemma chain_find_Some key (b : list entry) p : chain_find key b = Some p ->
  exists e, b !! p = Some e /\ canon (fst e) = canon key.
Proof.
  revert p. induction b as [|e b IH]; intros p E; [done|]. cbn [chain_find] in E.
  destruct (keyCompare key (fst e)) eqn:Ec.
  - injection E as <-. exists e. split; [done|]. symmetry. by apply compare_canon.
  - destruct (chain_find key b) as [q|]; [|done]. injection E as <-. by apply IH.
Qed.

Lemma chain_find_None key (b : list entry) : chain_find key b = None ->
  forall e, e ∈ b -> canon (fst e) <> canon key.
Proof.
  induction b as [|e b IH]; intros E e' He; [set_solver|]. cbn [chain_find] in E.
  destruct (keyCompare key (fst e)) eqn:Ec; [done|].
  destruct (chain_find key b); [done|]. apply elem_of_cons in He as [->|He]; [|by apply IH].
  intros Hc. symmetry in Hc. apply compare_canon in Hc. congruence.
Qed.

Lemma in_concat_bucket (t : list (list entry)) i b e : t !! i = Some b -> e ∈ b -> e ∈ concat t.
Proof.
  intros Hl He. rewrite list_elem_of_In, in_concat. exists b.
  rewrite <- !list_elem_of_In. split; [|done]. by eapply list_elem_of_lookup_2.
Qed.

Lemma in_concat_inv (t : list (list entry)) e : e ∈ concat t ->
  exists i b, t !! i = Some b /\ e ∈ b.
Proof.
  rewrite list_elem_of_In, in_concat. intros (b & Hb & He).
  apply list_elem_of_In, list_elem_of_lookup in Hb as [i Hi].
  apply list_elem_of_In in He. eauto.
Qed.

(** A search in an allocated table. *)
Lemma dict_search_ok d t ht k key : get_ht d t = ht -> alloc ht k ->
  exists idx b, rd (table ht) idx = Some b /\ 0 <= idx < 2 ^ k /\ 2 ^ k <= 2 ^ 30 /\
    idx = Z.land (hashFunction key) (sizemask ht) /\
    search_table d key t = Some (idx, chain_find key b) /\
    (chain_find key b = None -> forall e, e ∈ concat (table ht) -> canon (fst e) <> canon key).
Proof.
  intros <- Ha. set (ht := get_ht d t) in *. destruct (index_ok ht k key Ha) as (Eu & Hi & H31).
  set (idx := Z.land _ _) in *. pose proof Ha as [_ _ Hl _ _ Hp].
  destruct (rd_is_Some (table ht) idx) as [b Hb]; [lia|]. exists idx, b.
  split_and!; try done; try lia.
  - unfold search_table. fold ht. fold idx. by rewrite Eu, Hb.
  - intros Hnone e He Hc. apply in_concat_inv in He as (i & b' & Hi' & He).
    pose proof (Hp i b' e Hi' He) as Hpl. rewrite (hash_canon (V := V) (C := C) _ key Hc) in Hpl. fold idx in Hpl.
    apply rd_lookup in Hb. rewrite Hpl, Nat2Z.id, Hi' in Hb. injection Hb as ->.
    by apply (chain_find_None key b Hnone e He).
Qed.

(** ** Proofs: rehashing *)

Lemma skip_empty_ok fuel (t : list (list entry)) : forall idx j e b,
  0 <= idx -> zlen t <= 2 ^ 31 -> (length t <= fuel + Z.to_nat idx)%nat ->
  t !! j = Some (e :: b) -> idx <= Z.of_nat j ->
  exists idx' e' b', skip_empty fuel t idx = Some idx' /\ idx <= idx' /\
    t !! Z.to_nat idx' = Some (e' :: b') /\
    forall i c, t !! i = Some c -> idx <= Z.of_nat i < idx' -> c = [].
Proof.
  induction fuel as [|f IH]; intros idx j e b Hi Hl Hf Hj Hle.
  - apply lookup_lt_Some in Hj. lia.
  - cbn [skip_empty]. pose proof (lookup_lt_Some _ _ _ Hj) as Hjl.
    destruct (rd_is_Some t idx) as [c Hc]; [unfold zlen; lia|]. rewrite Hc. cbn [mbind option_bind].
    apply rd_lookup in Hc. destruct c as [|e' b'].
    + assert (idx <> Z.of_nat j) as Hne by (intros ->; rewrite Nat2Z.id in Hc; congruence).
      rewrite s32_small by (unfold zlen in Hl; lia).
      destruct (IH (idx + 1) j e b) as (idx' & e' & b' & E & Hle' & Hl' & Hem); auto; try lia.
      exists idx', e', b'. split_and!; auto; [lia|]. intros i c Hic Hr.
      destruct (decide (Z.of_nat i = idx)) as [Heq|]; [|by apply (Hem i); [|lia]].
      replace (Z.to_nat idx) with i in Hc by lia. congruence.
    + exists idx, e', b'. split_and!; auto; [lia|]. intros. lia.
Qed.

Lemma move_bucket_ok de : forall (d : dict K V) k1,
  alloc (ht1 d) k1 -> zlen de <= used (ht0 d) < 2 ^ 63 ->
  zlen (concat (table (ht1 d))) + zlen de < 2 ^ 63 ->
  exists d', move_bucket d de = Some d' /\
    ht0 d' = Ht (table (ht0 d)) (size (ht0 d)) (sizemask (ht0 d)) (used (ht0 d) - zlen de) /\
    alloc (ht1 d') k1 /\ concat (table (ht1 d')) ≡ₚ de ++ concat (table (ht1 d)) /\
    rehashidx d' = rehashidx d /\ iterators d' = iterators d.
Proof.
  induction de as [|e de IH]; intros d k1 Ha Hu Hl.
  - exists d. change (zlen (@nil entry)) with 0. rewrite Z.sub_0_r.
    split_and!; auto. by destruct (ht0 d).
  - cbn [move_bucket]. zlen_simpl. pose proof (zlen_nonneg de).
    destruct (index_ok (ht1 d) k1 (fst e) Ha) as (-> & Hi & H31).
    set (idx := Z.land _ _) in *. pose proof Ha as [Hk Hs Hlen Hm Hus Hp].
    destruct (rd_is_Some (table (ht1 d)) idx) as [b Hb]; [lia|]. rewrite Hb. cbn [mbind option_bind].
    destruct (wr_bucket _ _ b (e :: b) Hb) as (t' & rest & -> & Hlt & Et & P1 & P2).
    cbn [mbind option_bind].
    assert (zlen (concat t') = 1 + zlen (concat (table (ht1 d)))) as Ez.
    { unfold zlen. rewrite P1, P2. simpl. lia. }
    rewrite (u64_small (used (ht1 d) + 1)) by (pose proof (zlen_nonneg (concat (table (ht1 d)))); lia).
    rewrite (u64_small (used (ht0 d) - 1)) by lia.
    match goal with |- context [move_bucket ?D de] => set (d1 := D) end.
    destruct (IH d1 k1) as (d' & E & E0 & Ha' & P & Er & Ei).
    + unfold d1. cbn [ht1]. split; cbn [size table sizemask used]; auto; try lia.
      rewrite Et. apply placed_insert; [done|]. intros e' He'. rewrite Z2Nat.id by lia.
      apply elem_of_cons in He' as [->|He']; [done|]. apply rd_lookup in Hb.
      rewrite (Hp _ _ e' Hb He'). lia.
    + unfold d1. cbn [ht0 used]. lia.
    + unfold d1. cbn [ht1 table]. lia.
    + exists d'. split_and!; auto.
      * rewrite E0. unfold d1. cbn [ht0 table size sizemask used]. f_equal. lia.
      * rewrite P. unfold d1. cbn [ht1 table]. rewrite P1, P2. simpl.
        by rewrite <- Permutation_middle.
Qed.

(** The dictionary keeps its entries and its invariant. *)
Definition preserves (d d' : dict K V) : Prop :=
  wf d' /\ entries d' ≡ₚ entries d /\ iterators d' = iterators d.

Lemma preserves_refl d : wf d -> preserves d d.
Proof. by split. Qed.

Lemma preserves_trans d1 d2 d3 : preserves d1 d2 -> preserves d2 d3 -> preserves d1 d3.
Proof. intros (? & P1 & ?) (? & P2 & ?). split_and!; [done|by rewrite P2|congruence]. Qed.

Lemma keys_perm (es es' : list entry) : es ≡ₚ es' -> NoDup (keysof es) -> NoDup (keysof es').
Proof. intros P. unfold keys. by rewrite P. Qed.

Lemma alloc_nonempty ht k : alloc ht k -> used ht <> 0 ->
  exists j e b, table ht !! j = Some (e :: b).
Proof.
  intros [_ _ _ _ Hu _] Hne. rewrite Hu in Hne.
  destruct (concat (table ht)) as [|e es] eqn:E; [done|].
  destruct (in_concat_inv (table ht) e) as (i & b & Hi & He); [rewrite E; set_solver|].
  destruct b as [|e' b]; [set_solver|]. eauto.
Qed.

Lemma zlen_perm {A} (l k : list A) : l ≡ₚ k -> zlen l = zlen k.
Proof. intros P. unfold zlen. by rewrite P. Qed.

Lemma rehash_step_ok d : wf d -> rehashidx d <> -1 -> zlen (entries d) < 2 ^ 62 ->
  exists d' more, rehash_step d = Some (d', more) /\ preserves d d' /\
    if more : bool then rehashidx d < rehashidx d' /\ size (ht0 d') = size (ht0 d)
    else rehashidx d' = -1.
Proof.
  intros [Hnd Ht] Hre Hlim. destruct Ht as [[Hr _]|(k0 & k1 & Ha0 & Ha1 & Hri & Hem)]; [done|].
  pose proof Ha0 as [Hk Hs Hl Hm Hu Hp]. unfold rehash_step.
  assert (2 ^ k0 <= 2 ^ 30) as H31 by (apply Z.pow_le_mono_r; lia).
  unfold entries in Hlim. rewrite zlen_app in Hlim.
  pose proof (zlen_nonneg (concat (table (ht0 d)))). pose proof (zlen_nonneg (concat (table (ht1 d)))).
  destruct (Z.eqb_spec (used (ht0 d)) 0) as [E0|Hne].
  - do 2 eexists. split; [done|]. cbn [rehashidx]. split; [|done].
    assert (concat (table (ht0 d)) = []) as Ec by (apply zlen_0_inv; lia).
    unfold preserves, entries. cbn [ht0 ht1 table _dictReset concat iterators].
    rewrite Ec, app_nil_r. split_and!; auto. split.
    + unfold entries in *. cbn [ht0 ht1 table _dictReset concat]. by rewrite Ec, ?app_nil_r in *.
    + left. cbn [rehashidx ht0 ht1]. split_and!; auto; [done|]. right. by exists k1.
  - destruct (alloc_nonempty _ k0 Ha0 Hne) as (j & e & b & Hj).
    assert (rehashidx d <= Z.of_nat j) as Hrj.
    { destruct (Z.le_gt_cases (rehashidx d) (Z.of_nat j)); [done|].
      by specialize (Hem _ _ Hj ltac:(lia)). }
    pose proof (lookup_lt_Some _ _ _ Hj) as Hjl.
    rewrite u32_small by lia.
    unfold cassert. replace (rehashidx d <? size (ht0 d)) with true
      by (symmetry; apply Z.ltb_lt; unfold zlen in Hl; lia).
    cbn [mbind option_bind].
    destruct (skip_empty_ok (length (table (ht0 d))) (table (ht0 d)) (rehashidx d) j e b)
      as (idx & e' & b' & -> & Hle & Hidx & Hskip); auto; try lia.
    cbn [mbind option_bind]. pose proof (lookup_lt_Some _ _ _ Hidx) as Hidl.
    assert (rd (table (ht0 d)) idx = Some (e' :: b')) as Hrd by (apply rd_Some; split; [lia|done]).
    rewrite Hrd. cbn [mbind option_bind].
    destruct (wr_bucket _ _ _ [] Hrd) as (t' & rest & Hw & Hlt & Et & P1 & P2).
    pose proof (zlen_perm _ _ P1) as Z1. rewrite zlen_app in Z1.
    pose proof (zlen_nonneg (e' :: b')). pose proof (zlen_nonneg rest).
    destruct (move_bucket_ok (e' :: b') d k1 Ha1) as (d1 & -> & E1 & Ha1' & Pm & Er & Ei); [lia..|].
    cbn [mbind option_bind]. rewrite E1. cbn [table]. rewrite Hw. cbn [mbind option_bind size sizemask used].
    do 2 eexists. split; [done|]. cbn [rehashidx ht0 size].
    rewrite s32_small by (unfold zlen in Hl; lia).
    assert (concat t' ++ concat (table (ht1 d1)) ≡ₚ entries d) as Pe.
    { unfold entries. rewrite P2, Pm, P1. rewrite <- !(assoc_L (++)).
      apply (Permutation_app_swap_app rest (e' :: b')). }
    split; [|lia]. split_and!; cbn [iterators]; auto. split.
    + unfold entries. cbn [ht0 ht1 table]. by apply (keys_perm (entries d)).
    + right. exists k0, k1. cbn [ht0 ht1 rehashidx]. split_and!; auto; try (unfold zlen in Hl; lia).
      * split; cbn [table size sizemask used]; auto; try lia.
        -- rewrite (zlen_perm _ _ P2). cbn [app]. lia.
        -- rewrite Et. apply placed_insert; [done|]. set_solver.
      * cbn [table]. rewrite Et. intros i c Hi Hlt'.
        destruct (decide (i = Z.to_nat idx)) as [->|Hni].
        { rewrite list_lookup_insert_eq in Hi by done. by injection Hi. }
        rewrite list_lookup_insert_ne in Hi by done.
        destruct (Z.lt_ge_cases (Z.of_nat i) (rehashidx d)); [by eapply Hem|].
        eapply Hskip; [done|]. lia.
Qed.

Lemma is_rehashing_spec (d : dict K V) : dictIsRehashing d = true <-> rehashidx d <> -1.
Proof. unfold dictIsRehashing. rewrite negb_true_iff. apply Z.eqb_neq. Qed.

Lemma rehash_loop_ok n : forall d, wf d -> rehashidx d <> -1 -> zlen (entries d) < 2 ^ 62 ->
  exists d' more, rehash_loop n d = Some (d', more) /\ preserves d d' /\
    (if more : bool then rehashidx d + Z.of_nat n <= rehashidx d' else rehashidx d' = -1).
Proof.
  induction n as [|n IH]; intros d Hw Hr Hl; cbn [rehash_loop].
  - exists d, true. split_and!; auto using preserves_refl. lia.
  - destruct (rehash_step_ok d Hw Hr Hl) as (d1 & more & -> & Hp & Hm). cbn [mbind option_bind].
    destruct more; [|exists d1, false; auto].
    assert (0 <= rehashidx d) as Hge.
    { destruct Hw as [_ [[? _]|(k0 & k1 & _ & _ & ? & _)]]; lia. }
    destruct Hp as (Hw1 & P1 & Hi1).
    destruct (IH d1) as (d2 & more & -> & Hp2 & Hm2); auto; [lia|by rewrite (zlen_perm _ _ P1)|].
    exists d2, more. split_and!; auto; [by apply (preserves_trans d d1)|]. destruct more; lia.
Qed.

Lemma rehash_ok n d : wf d -> zlen (entries d) < 2 ^ 62 ->
  exists d' more, dictRehash d n = Some (d', more) /\ preserves d d' /\
    (more = false -> rehashidx d' = -1).
Proof.
  intros Hw Hl. unfold dictRehash. destruct (dictIsRehashing d) eqn:E.
  - apply is_rehashing_spec in E. destruct (rehash_loop_ok n d Hw E Hl) as (d' & more & -> & Hp & Hm).
    exists d', more. split_and!; auto. intros ->. done.
  - exists d, false. split_and!; auto using preserves_refl. intros _.
    unfold dictIsRehashing in E. bool_to_prop. lia.
Qed.

Lemma step_ok d : wf d -> zlen (entries d) < 2 ^ 62 ->
  exists d', step_if_rehashing d = Some d' /\ preserves d d'.
Proof.
  intros Hw Hl. unfold step_if_rehashing, _dictRehashStep.
  destruct (dictIsRehashing d); [|eauto using preserves_refl].
  destruct (iterators d =? 0); [|eauto using preserves_refl].
  destruct (rehash_ok 1 d Hw Hl) as (d' & more & -> & Hp & _). cbn [mbind option_bind]. eauto.
Qed.

(** ** Proofs: expanding *)

Lemma next_power_loop_ok fuel : forall j size, 2 <= j <= 30 -> size <= 2 ^ 30 ->
  (Z.to_nat (30 - j) < fuel)%nat ->
  exists k, next_power_loop fuel (2 ^ j) size = Some (2 ^ k) /\ j <= k <= 30 /\ size <= 2 ^ k.
Proof.
  induction fuel as [|f IH]; intros j size Hj Hs Hf; [lia|]. cbn [next_power_loop].
  destruct (Z.leb_spec size (2 ^ j)) as [Hle|Hgt].
  - exists j. split_and!; auto; lia.
  - assert (j < 30) as Hj30.
    { destruct (Z.le_gt_cases 30 j); [|lia]. assert (j = 30) as -> by lia. lia. }
    assert (2 ^ j <= 2 ^ 30) by (apply Z.pow_le_mono_r; lia).
    replace (2 ^ j * 2) with (2 ^ (j + 1)) by (rewrite Z.pow_add_r by lia; lia).
    assert (2 ^ (j + 1) <= 2 ^ 30) by (apply Z.pow_le_mono_r; lia).
    rewrite u64_small by lia. destruct (IH (j + 1) size) as (k & -> & Hk & Hsz); try lia.
    exists k. split_and!; auto; lia.
Qed.

Lemma next_power_ok size : size <= 2 ^ 30 ->
  exists k, _dictNextPower size = Some (2 ^ k) /\ 2 <= k <= 30 /\ size <= 2 ^ k.
Proof.
  intros Hs. unfold _dictNextPower, LONG_MAX. zdec.
  destruct (next_power_loop_ok 64 2 size) as (k & E & Hk & Hsz); try lia.
  exists k. split; [exact E|]. lia.
Qed.

Lemma concat_replicate_nil {A} n : concat (replicate n (@nil A)) = [].
Proof. by induction n. Qed.

Lemma fresh_alloc k : 2 <= k <= 30 ->
  alloc (Ht (replicate (Z.to_nat (2 ^ k)) []) (2 ^ k) (uwrap 64 (2 ^ k - 1)) 0) k.
Proof.
  intros Hk. assert (2 ^ k <= 2 ^ 30) by (apply Z.pow_le_mono_r; lia).
  assert (0 < 2 ^ k) by (apply Z.pow_pos_nonneg; lia).
  rewrite u64_small by lia. split; cbn [size table sizemask used]; auto.
  - rewrite zlen_replicate. lia.
  - by rewrite concat_replicate_nil.
  - intros i b e Hi He. apply lookup_replicate in Hi as [-> _]. set_solver.
Qed.

Lemma expand_ok d sz : wf d -> sz <= 2 ^ 30 -> zlen (entries d) < 2 ^ 62 ->
  exists d' ok, dictExpand d sz = Some (d', ok) /\ preserves d d' /\
    (used (ht0 d) <= sz -> ok = true \/ dictIsRehashing d = true) /\ (ok = true -> size (ht0 d') <> 0).
Proof.
  intros Hw Hs Hl. unfold dictExpand. destruct (next_power_ok sz Hs) as (k & -> & Hk & Hsz).
  cbn [mbind option_bind].
  destruct (dictIsRehashing d || (sz <? used (ht0 d))) eqn:E.
  { exists d, false. split; [done|]. split; [by apply preserves_refl|]. split; [|done]. intros Hu.
    apply orb_true_iff in E as [E|E]; [by right|]. bool_to_prop. lia. }
  apply orb_false_iff in E as [E _]. pose proof Hw as [Hnd [(Hr & Hr1 & Hr0)|(k0 & k1 & _ & _ & Hr & _)]].
  2: { unfold dictIsRehashing in E. bool_to_prop. lia. }
  pose proof (fresh_alloc k Hk) as Hn. pose proof (Z.pow_pos_nonneg 2 k).
  unfold preserves, entries. destruct Hr0 as [Hr0|[k0 Ha0]].
  - unfold entries in Hnd. rewrite Hr0, Hr1 in *. cbn [table _dictReset concat app] in *.
    do 2 eexists. split; [done|]. cbn [ht0 ht1 table iterators rehashidx size].
    rewrite concat_replicate_nil. split_and!; auto; try lia. split.
    + unfold entries. cbn [ht0 ht1 table _dictReset concat]. by rewrite concat_replicate_nil.
    + left. cbn [rehashidx ht0 ht1]. split_and!; auto; [done|]. right. by exists k.
  - destruct (table (ht0 d)) as [|b t] eqn:Et.
    { pose proof (al_len _ _ Ha0) as Hlen. rewrite Et in Hlen. change (zlen (@nil (list entry))) with 0 in Hlen.
      pose proof (al_k _ _ Ha0). pose proof (Z.pow_pos_nonneg 2 k0). lia. }
    do 2 eexists. split; [done|]. cbn [ht0 ht1 table iterators rehashidx].
    rewrite Et, concat_replicate_nil. unfold entries in Hnd. rewrite Hr1 in *.
    cbn [table _dictReset concat] in *. split_and!; auto.
    2: { intros _. rewrite (al_size _ _ Ha0). pose proof (al_k _ _ Ha0).
         pose proof (Z.pow_pos_nonneg 2 k0). lia. }
    split.
    + unfold entries. cbn [ht0 ht1 table]. by rewrite concat_replicate_nil.
    + right. exists k0, k. cbn [ht0 ht1 rehashidx]. pose proof (Z.pow_nonneg 2 k0).
      split_and!; auto; try lia.
Qed.

Lemma used_bounds d : wf d ->
  0 <= used (ht0 d) /\ 0 <= used (ht1 d) /\ used (ht0 d) + used (ht1 d) = zlen (entries d).
Proof.
  intros [_ Ht]. unfold entries. rewrite zlen_app.
  assert (forall ht, reset ht \/ (exists k, alloc ht k) -> used ht = zlen (concat (table ht))) as Hu.
  { intros ht [->|[k Ha]]; [done|]. by rewrite (al_used _ _ Ha). }
  rewrite (Hu (ht0 d)), (Hu (ht1 d)).
  - split_and!; try apply zlen_nonneg. done.
  - destruct Ht as [(_ & ? & _)|(? & ? & _ & ? & _)]; eauto.
  - destruct Ht as [(_ & _ & ?)|(? & ? & ? & _ & _)]; eauto.
Qed.

Lemma expand_needed_ok can d : wf d -> zlen (entries d) <= DICT_LIMIT ->
  exists d', _dictExpandIfNeeded can d = Some (d', true) /\ preserves d d' /\
    exists k0, alloc (ht0 d') k0.
Proof.
  intros Hw Hl. unfold DICT_LIMIT in Hl. unfold _dictExpandIfNeeded.
  pose proof (used_bounds d Hw) as (Hu0 & Hu1 & Hu).
  assert (forall d1, wf d1 -> size (ht0 d1) <> 0 -> exists k0, alloc (ht0 d1) k0) as Hal.
  { intros d1 [_ [(_ & _ & [Hr|?])|(k0 & ? & ? & _)]] Hne; eauto. by rewrite Hr in Hne. }
  destruct (dictIsRehashing d) eqn:E.
  { exists d. split_and!; auto using preserves_refl.
    destruct Hw as [_ [(Hr & _)|(k0 & ? & ? & _)]]; [|eauto].
    apply is_rehashing_spec in E. lia. }
  assert (forall sz, sz <= 2 ^ 30 -> used (ht0 d) <= sz ->
    exists d', dictExpand d sz = Some (d', true) /\ preserves d d' /\ exists k0, alloc (ht0 d') k0) as Hexp.
  { intros sz Hsz Husz. destruct (expand_ok d sz Hw Hsz) as (d' & ok & -> & Hp & Hok & Hs); [lia|].
    destruct (Hok Husz) as [->|?]; [|congruence]. exists d'. split_and!; auto.
    apply Hal; [by destruct Hp|by apply Hs]. }
  destruct (Z.eqb_spec (size (ht0 d)) 0) as [E0|E0].
  { apply Hexp; unfold DICT_HT_INITIAL_SIZE; [lia|].
    destruct Hw as [_ [(_ & _ & [->|[k0 Ha]])|(k0 & ? & Ha & _)]]; [done|..];
      pose proof (al_size _ _ Ha); pose proof (Z.pow_pos_nonneg 2 k0); pose proof (al_k _ _ Ha); lia. }
  destruct (_ && _).
  - rewrite u64_small by lia. apply Hexp; lia.
  - exists d. split_and!; auto using preserves_refl.
Qed.

(** ** Proofs: the finite map *)

Definition mapof (es : list entry) : gmap C entry :=
  list_to_map (map (fun e => (canon (fst e), e)) es).

Lemma mapof_fst (es : list entry) : (map (fun e => (canon (V := V) (C := C) (fst e), e)) es).*1 = keysof es.
Proof. unfold keys. induction es; simpl; [done|]. by f_equal. Qed.

Lemma elem_of_keys c (es : list entry) : c ∈ keysof es <-> exists e, e ∈ es /\ canon (fst e) = c.
Proof.
  unfold keys. rewrite list_elem_of_In, in_map_iff. split.
  - intros (e & Hc & He). exists e. by rewrite list_elem_of_In.
  - intros (e & He & Hc). exists e. by rewrite <- list_elem_of_In.
Qed.

Lemma mapof_lookup es c e : NoDup (keysof es) ->
  mapof es !! c = Some e <-> e ∈ es /\ canon (fst e) = c.
Proof.
  intros Hnd. unfold mapof. rewrite <- elem_of_list_to_map by (by rewrite mapof_fst).
  rewrite list_elem_of_fmap. split.
  - intros (e' & [= -> ->] & He). done.
  - intros [He <-]. eauto.
Qed.

Lemma mapof_None es c : NoDup (keysof es) ->
  (forall e, e ∈ es -> canon (fst e) <> c) -> mapof es !! c = None.
Proof.
  intros Hnd Hn. destruct (mapof es !! c) as [e|] eqn:E; [|done].
  apply mapof_lookup in E as [He Hc]; [|done]. by destruct (Hn e He).
Qed.

Lemma mapof_perm es es' : es ≡ₚ es' -> NoDup (keysof es) -> mapof es' = mapof es.
Proof.
  intros P Hnd. symmetry. apply list_to_map_proper; [by rewrite mapof_fst|by rewrite P].
Qed.

Lemma mapof_cons e es : mapof (e :: es) = <[canon (fst e) := e]> (mapof es).
Proof. done. Qed.

Lemma mapof_tail e es : NoDup (keysof (e :: es)) ->
  mapof es = delete (canon (fst e)) (mapof (e :: es)).
Proof.
  intros Hnd. rewrite mapof_cons, delete_insert_id; [done|].
  apply NoDup_cons in Hnd as [Hni Hnd]. apply mapof_None; [done|].
  intros e' He' Hc. apply Hni. apply elem_of_keys. by exists e'.
Qed.

Lemma mapof_size es : NoDup (keysof es) -> Z.of_nat (base.size (mapof es)) = zlen es.
Proof.
  induction es as [|e es IH]; intros Hnd; [done|].
  rewrite mapof_cons, zlen_cons. pose proof Hnd as Hnd'. apply NoDup_cons in Hnd as [Hni Hnd].
  rewrite map_size_insert_None; [rewrite Nat2Z.inj_succ, IH by done; lia|].
  apply mapof_None; [done|]. intros e' He' Hc. apply Hni.
  apply elem_of_keys. by exists e'.
Qed.

Lemma preserves_map d d' : wf d -> preserves d d' -> as_map d' = as_map d.
Proof. intros [Hnd _] (_ & P & _). by apply (mapof_perm (entries d)). Qed.

(** Replacing bucket [b] by [b'] in table [t]: the entries change as the bucket does. *)
Lemma set_bucket_ok d t idx k b b' us :
  wf d -> (t = 0 \/ t = 1) -> alloc (get_ht d t) k -> rd (table (get_ht d t)) idx = Some b ->
  us = used (get_ht d t) + zlen b' - zlen b ->
  (b = [] -> b' <> [] -> t = 1 \/ rehashidx d = -1) ->
  (forall e, e ∈ b' -> Z.land (hashFunction (fst e)) (sizemask (get_ht d t)) = idx) ->
  exists tb rest, wr (table (get_ht d t)) idx b' = Some tb /\
    let d' := set_ht d t (Ht tb (size (get_ht d t)) (sizemask (get_ht d t)) us) in
    entries d ≡ₚ b ++ rest /\ entries d' ≡ₚ b' ++ rest /\
    (NoDup (keysof (b' ++ rest)) -> wf d') /\
    get_ht d' t = Ht tb (size (get_ht d t)) (sizemask (get_ht d t)) us /\
    tb = <[Z.to_nat idx := b']> (table (get_ht d t)) /\
    alloc (Ht tb (size (get_ht d t)) (sizemask (get_ht d t)) us) k.
Proof.
  intros [Hnd Htb] Hor Ha Hrd Hus Hempty Hpl.
  destruct (wr_bucket _ _ b b' Hrd) as (tb & rest & Hw & Hlt & Et & P1 & P2).
  pose proof Ha as [Hk Hs Hl Hm Hu Hp].
  assert (0 <= idx) as Hi by (by apply rd_Some in Hrd as [? _]).
  set (ht' := Ht tb (size (get_ht d t)) (sizemask (get_ht d t)) us).
  assert (alloc ht' k) as Ha'.
  { split; cbn [size table sizemask used ht']; auto; try lia.
    - rewrite (zlen_perm _ _ P2), Hus, Hu, (zlen_perm _ _ P1), !zlen_app. lia.
    - rewrite Et. apply placed_insert; [done|]. intros e He. rewrite Z2Nat.id by lia. by apply Hpl. }
  exists tb, (rest ++ concat (table (get_ht d (1 - t)))). split; [done|]. cbv zeta.
  fold ht'.
  assert (entries d ≡ₚ b ++ rest ++ concat (table (get_ht d (1 - t)))) as Q1.
  { unfold entries. rewrite (assoc_L (++) b), <- P1. destruct Hor as [-> | ->]; [done|].
    by rewrite Permutation_app_comm. }
  assert (entries (set_ht d t ht') ≡ₚ b' ++ rest ++ concat (table (get_ht d (1 - t)))) as Q2.
  { unfold entries. rewrite (assoc_L (++) b'), <- P2. destruct Hor as [-> | ->]; [done|].
    by rewrite Permutation_app_comm. }
  split_and!; auto; [|by destruct Hor as [-> | ->]].
  intros Hnd'. split; [by eapply keys_perm; [symmetry; exact Q2|]|].
  destruct Hor as [-> | ->]; cbn [set_ht get_ht Z.eqb ht0 ht1 rehashidx] in *.
  - destruct Htb as [(Hr & Hr1 & _)|(k0 & k1 & Ha0 & Ha1 & Hri & Hem)].
    + left. split_and!; auto. right. by exists k.
    + right. exists k, k1. split_and!; auto; try lia.
      * pose proof (al_size _ _ Ha0). lia.
      * cbn [table ht']. rewrite Et. intros i c Hc Hlt'. destruct (decide (i = Z.to_nat idx)) as [->|Hne].
        -- apply rd_lookup in Hrd. pose proof (Hem _ _ Hrd Hlt') as ->.
           destruct b' as [|e b']; [|destruct Hempty; [done|done|lia..]].
           pose proof (lookup_lt_Some _ _ _ Hrd).
           rewrite list_lookup_insert_eq in Hc by done. by injection Hc.
        -- rewrite list_lookup_insert_ne in Hc by done. by eapply Hem.
  - destruct Htb as [(Hr & Hr1 & _)|(k0 & k1 & Ha0 & Ha1 & Hri & Hem)].
    + rewrite Hr1 in Hl. cbn [table _dictReset] in Hl. change (zlen (@nil (list entry))) with 0 in Hl.
      pose proof (Z.pow_pos_nonneg 2 k). lia.
    + right. exists k0, k. split_and!; auto; lia.
Qed.

(** What searching both tables finds. *)
Definition found_at (d : dict K V) (key : K) (t idx : Z) (p : nat) : Prop :=
  exists k b e, alloc (get_ht d t) k /\ rd (table (get_ht d t)) idx = Some b /\ b !! p = Some e /\
    canon (fst e) = canon key.

Definition absent_at (d : dict K V) (key : K) (t idx : Z) : Prop :=
  exists k b, alloc (get_ht d t) k /\ rd (table (get_ht d t)) idx = Some b /\ 0 <= idx < 2 ^ 30 /\
    idx = Z.land (hashFunction key) (sizemask (get_ht d t)) /\
    forall e, e ∈ entries d -> canon (fst e) <> canon key.

Lemma search_both_ok d key : wf d -> (exists k0, alloc (ht0 d) k0) ->
  (exists idx p, search_table d key 0 = Some (idx, Some p) /\ found_at d key 0 idx p) \/
  (exists idx, search_table d key 0 = Some (idx, None) /\
    (dictIsRehashing d = false /\ absent_at d key 0 idx \/
     dictIsRehashing d = true /\
       ((exists idx1 p, search_table d key 1 = Some (idx1, Some p) /\ found_at d key 1 idx1 p) \/
        (exists idx1, search_table d key 1 = Some (idx1, None) /\ absent_at d key 1 idx1)))).
Proof.
  intros Hw [k0 Ha0].
  destruct (dict_search_ok d 0 (ht0 d) k0 key eq_refl Ha0) as (idx & b & Hb & Hi & H30 & Ei & Es & Hn).
  rewrite Es. destruct (chain_find key b) as [p|] eqn:Ef.
  { left. exists idx, p. split; [done|]. apply chain_find_Some in Ef as (e & He & Hc).
    exists k0, b, e. done. }
  right. exists idx. split; [done|]. specialize (Hn eq_refl).
  destruct (dictIsRehashing d) eqn:Er.
  - right. split; [done|]. apply is_rehashing_spec in Er.
    pose proof Hw as [_ [(? & _)|(k0' & k1 & _ & Ha1 & _)]]; [done|].
    destruct (dict_search_ok d 1 (ht1 d) k1 key eq_refl Ha1) as (idx1 & b1 & Hb1 & Hi1 & H31 & Ei1 & Es1 & Hn1).
    rewrite Es1. destruct (chain_find key b1) as [p|] eqn:Ef1.
    + left. exists idx1, p. split; [done|]. apply chain_find_Some in Ef1 as (e & He & Hc).
      exists k1, b1, e. done.
    + right. exists idx1. split; [done|]. exists k1, b1. split_and!; auto; try lia.
      intros e He. unfold entries in He. apply elem_of_app in He as [He|He]; auto.
  - left. split; [done|]. exists k0, b. split_and!; auto; try lia.
    assert (reset (ht1 d)) as Hr1.
    { destruct Hw as [_ [(_ & ? & _)|(k & k1 & _ & _ & ? & _)]]; [done|].
      unfold dictIsRehashing in Er. bool_to_prop. lia. }
    intros e He. unfold entries in He. rewrite Hr1 in He. cbn [table _dictReset concat] in He.
    rewrite app_nil_r in He. auto.
Qed.

(** ** Proofs: the operations *)

Lemma keys_cons (e : entry) es : keysof (e :: es) = canon (fst e) :: keysof es.
Proof. done. Qed.

Lemma limit_62 (d : dict K V) : zlen (entries d) <= DICT_LIMIT -> zlen (entries d) < 2 ^ 62.
Proof. unfold DICT_LIMIT. lia. Qed.

Lemma preserves_wf (d d' : dict K V) : preserves d d' -> wf d'.
Proof. by intros [? _]. Qed.

Lemma preserves_zlen (d d' : dict K V) : preserves d d' -> zlen (entries d') = zlen (entries d).
Proof. intros (_ & P & _). by apply zlen_perm. Qed.

Lemma found_entry (d : dict K V) key t idx p : wf d -> (t = 0 \/ t = 1) -> found_at d key t idx p ->
  exists e, entry_at d (t, idx, p) = Some e /\ as_map d !! canon key = Some e.
Proof.
  intros Hw Ht (k & b & e & Ha & Hb & He & Hc). exists e. cbn [entry_at]. rewrite Hb.
  split; [done|]. apply mapof_lookup; [apply wf_keys; done|]. split; [|done].
  unfold entries. apply elem_of_app. apply list_elem_of_lookup_2 in He. apply rd_lookup in Hb.
  destruct Ht as [-> | ->]; [left|right]; by eapply in_concat_bucket.
Qed.

Lemma absent_map (d : dict K V) key t idx : wf d -> absent_at d key t idx -> as_map d !! canon key = None.
Proof. intros Hw (k & b & _ & _ & _ & _ & Hn). apply mapof_None; [apply wf_keys; done|done]. Qed.

Lemma size_0 (d : dict K V) : wf d -> size (ht0 d) = 0 -> entries d = [].
Proof.
  intros [_ [(_ & Hr1 & [Hr0|[k Ha]])|(k & ? & Ha & _)]] Hs.
  - unfold entries. by rewrite Hr0, Hr1.
  - rewrite (al_size _ _ Ha) in Hs. pose proof (al_k _ _ Ha). pose proof (Z.pow_pos_nonneg 2 k). lia.
  - rewrite (al_size _ _ Ha) in Hs. pose proof (al_k _ _ Ha). pose proof (Z.pow_pos_nonneg 2 k). lia.
Qed.

(** A step of rehashing never frees an allocated dictionary. *)
Lemma step_alloc (d d' : dict K V) : wf d -> size (ht0 d) <> 0 -> zlen (entries d) < 2 ^ 62 ->
  step_if_rehashing d = Some d' -> exists k0, alloc (ht0 d') k0.
Proof.
  intros Hw Hs Hl. unfold step_if_rehashing, _dictRehashStep.
  assert (exists k0, alloc (ht0 d) k0) as Hal
    by (destruct Hw as [_ [(_ & _ & [Hr|?])|(k0 & ? & ? & _)]]; eauto; by rewrite Hr in Hs).
  destruct (dictIsRehashing d) eqn:E; [|by intros [= <-]].
  destruct (iterators d =? 0); [|by intros [= <-]].
  unfold dictRehash. rewrite E. cbn [negb rehash_loop]. apply is_rehashing_spec in E.
  pose proof Hw as [_ [(? & _)|(k0 & k1 & _ & Ha1 & _)]]; [done|].
  destruct (rehash_step_ok d Hw E Hl) as (d1 & more & Er & (Hw1 & _) & Hm). rewrite Er.
  cbn [mbind option_bind]. destruct more; cbn [mbind option_bind]; intros [= <-].
  - destruct Hm as [_ Hsz]. destruct Hw1 as [_ [(_ & _ & [Hr|?])|(k & ? & ? & _)]]; eauto.
    rewrite Hr in Hsz. by rewrite <- Hsz in Hs.
  - unfold rehash_step in Er. destruct (used (ht0 d) =? 0).
    + injection Er as <-. cbn [ht0]. eauto.
    + destruct (cassert _); [|done]. cbn [mbind option_bind] in Er.
      destruct (skip_empty _ _ _); [|done]. cbn [mbind option_bind] in Er.
      destruct (rd _ _); [|done]. cbn [mbind option_bind] in Er.
      destruct (move_bucket _ _); [|done]. cbn [mbind option_bind] in Er.
      destruct (wr _ _ _); [|done]. cbn [mbind option_bind] in Er. done.
Qed.

Definition find_post (d : dict K V) (key : K) (r : option loc) : Prop :=
  match r with
  | Some (t, idx, p) => (t = 0 \/ t = 1) /\ found_at d key t idx p
  | None => as_map d !! canon key = None
  end.

Lemma dict_find_ok (d : dict K V) key : wf d -> zlen (entries d) <= DICT_LIMIT ->
  exists d' r, dictFind d key = Some (d', r) /\ preserves d d' /\ find_post d' key r.
Proof.
  intros Hw Hl. unfold dictFind. destruct (Z.eqb_spec (size (ht0 d)) 0) as [E|E].
  { exists d, None. split_and!; auto using preserves_refl. cbn [find_post]. unfold as_map.
    by rewrite (size_0 d Hw E). }
  destruct (step_ok d Hw (limit_62 d Hl)) as (d1 & Es & Hp).
  pose proof (step_alloc d d1 Hw E (limit_62 d Hl) Es) as Hal. rewrite Es. cbn [mbind option_bind].
  pose proof (preserves_wf d d1 Hp) as Hw1.
  destruct (search_both_ok d1 key Hw1 Hal) as
    [(idx & p & -> & Hf)|(idx & -> & [[-> Hab]|[-> [(i1 & p & -> & Hf)|(i1 & -> & Hab)]]])];
    cbn [mbind option_bind negb].
  - exists d1, (Some (0, idx, p)). cbn [find_post]. auto.
  - exists d1, None. cbn [find_post]. eauto using absent_map.
  - exists d1, (Some (1, i1, p)). cbn [find_post]. auto.
  - exists d1, None. cbn [find_post]. eauto using absent_map.
Qed.

(** Assigning the value of the entry found for [key]. *)
Lemma setval_ok (d : dict K V) key t idx p v : wf d -> (t = 0 \/ t = 1) -> found_at d key t idx p ->
  exists d' k', (exists v', as_map d !! canon key = Some (k', v')) /\
    dictSetVal d (t, idx, p) v = Some d' /\ wf d' /\ zlen (entries d') = zlen (entries d) /\
    as_map d' = <[canon key := (k', dictSetVal_value v)]> (as_map d).
Proof.
  intros Hw Hor Hf. destruct (found_entry d key t idx p Hw Hor Hf) as (e & _ & Hm).
  destruct Hf as (k & b & e' & Ha & Hb & He & Hc).
  assert (e' = e) as ->.
  { assert (as_map d !! canon key = Some e') as Hm'; [|congruence].
    apply mapof_lookup; [by apply wf_keys|]. split; [|done]. unfold entries. apply elem_of_app.
    apply list_elem_of_lookup_2 in He. apply rd_lookup in Hb.
    destruct Hor as [-> | ->]; [left|right]; by eapply in_concat_bucket. }
  cbn [dictSetVal]. rewrite Hb. cbn [mbind option_bind]. rewrite He. cbn [mbind option_bind].
  set (e2 := (fst e, dictSetVal_value v)). pose proof (lookup_lt_Some _ _ _ He) as Hpl.
  apply list_elem_of_split_length in He as (x & y & -> & Hx).
  assert (<[p := e2]> (x ++ e :: y) = x ++ e2 :: y) as Ei
    by (rewrite Hx, insert_app_r_alt, Nat.sub_diag by lia; done).
  rewrite Ei.
  destruct (set_bucket_ok d t idx k (x ++ e :: y) (x ++ e2 :: y) (used (get_ht d t)))
    as (tb & rest & -> & P1 & P2 & Hwf & _); auto.
  { rewrite !zlen_app, !zlen_cons. lia. }
  { by destruct x. }
  { apply rd_lookup in Hb as Hb'. pose proof (proj1 (rd_Some _ _ _) Hb) as [Hi0 _].
    assert (forall e', e' ∈ x ++ e :: y -> Z.land (hashFunction (fst e')) (sizemask (get_ht d t)) = idx) as Hpl2.
    { intros e' He'. rewrite (al_placed _ _ Ha _ _ e' Hb' He'). lia. }
    intros e' He'. apply elem_of_app in He' as [He'|He']; [apply Hpl2; set_solver|].
    apply elem_of_cons in He' as [->|He']; [|apply Hpl2; set_solver].
    cbn [e2 fst]. apply Hpl2. set_solver. }
  cbn [mbind option_bind].
  assert (keysof ((x ++ e2 :: y) ++ rest) = keysof ((x ++ e :: y) ++ rest)) as Ek
    by (unfold keys; rewrite !map_app; done).
  pose proof (keys_perm _ _ P1 (wf_keys _ Hw)) as Hnd.
  exists (set_ht d t (Ht tb (size (get_ht d t)) (sizemask (get_ht d t)) (used (get_ht d t)))), (fst e).
  split; [exists (snd e); by destruct e|]. split; [done|].
  split; [apply Hwf; by rewrite Ek|].
  split; [rewrite (zlen_perm _ _ P1), (zlen_perm _ _ P2), !zlen_app, !zlen_cons; done|].
  unfold as_map. fold (mapof (entries d)).
  match goal with |- list_to_map (map _ ?E) = _ => fold (mapof E) end.
  assert (forall z, (x ++ z :: y) ++ rest ≡ₚ z :: (x ++ y ++ rest)) as Q
    by (intros z; rewrite <- (assoc_L (++)); simpl; by rewrite <- Permutation_middle).
  assert (NoDup (keysof (e :: x ++ y ++ rest))) as Hnd1 by (eapply keys_perm; [apply Q|done]).
  assert (NoDup (keysof (e2 :: x ++ y ++ rest))) as Hnd2 by (rewrite keys_cons in *; done).
  rewrite (mapof_perm (e2 :: x ++ y ++ rest)) by (done || by rewrite P2, Q).
  rewrite (mapof_perm (e :: x ++ y ++ rest) (entries d)) by (done || by rewrite P1, Q).
  rewrite !mapof_cons, <- Hc. cbn [e2 fst]. by rewrite insert_insert_eq.
Qed.

(** What adding a raw entry for [key] leaves. *)
Definition added (d d' : dict K V) (key : K) (r : option loc) : Prop :=
  match r with
  | None => preserves d d' /\ is_Some (as_map d !! canon key)
  | Some (t, idx, p) =>
      (t = 0 \/ t = 1) /\ found_at d' key t idx p /\ as_map d !! canon key = None /\
      zlen (entries d') = zlen (entries d) + 1 /\
      as_map d' = <[canon key := (dictSetKey_key key, junk)]> (as_map d)
  end.

Lemma dup_key_canon key : canon (dictSetKey_key key) = canon key.
Proof.
  unfold dictSetKey_key. destruct keyDup as [f|] eqn:Ed; [|done].
  by apply (dup_canon (V := V) (C := C) f key).
Qed.

(** Pushing an entry for an absent key at the head of its bucket. *)
Lemma push_ok (d : dict K V) key t idx : wf d -> zlen (entries d) + 1 <= DICT_LIMIT ->
  (t = 0 \/ t = 1) -> (t = 1 \/ rehashidx d = -1) -> absent_at d key t idx ->
  exists d',
    (b ← rd (table (get_ht d t)) (swrap 32 idx);
     tb ← wr (table (get_ht d t)) (swrap 32 idx) ((dictSetKey_key key, junk) :: b);
     Some (set_ht d t (Ht tb (size (get_ht d t)) (sizemask (get_ht d t)) (uwrap 64 (used (get_ht d t) + 1))),
           Some (t, swrap 32 idx, O))) = Some (d', Some (t, idx, O)) /\
    wf d' /\ added d d' key (Some (t, idx, O)).
Proof.
  intros Hw Hl Hor Hre Hab. pose proof (absent_map d key t idx Hw Hab) as Hnone.
  destruct Hab as (k & b & Ha & Hb & Hi & Ei & Hn). rewrite s32_small by lia. rewrite Hb.
  cbn [mbind option_bind]. set (e := (dictSetKey_key key, junk)).
  pose proof (dup_key_canon key : canon (fst e) = canon key) as Hce.
  destruct (used_bounds d Hw) as (Hu0 & Hu1 & Hus). unfold DICT_LIMIT in Hl.
  rewrite u64_small by (destruct Hor as [-> | ->]; cbn [get_ht Z.eqb]; lia).
  destruct (set_bucket_ok d t idx k b (e :: b) (used (get_ht d t) + 1))
    as (tb & rest & -> & P1 & P2 & Hwf & Hg & Etb & Ha'); auto.
  { rewrite zlen_cons. lia. }
  { intros e' He'. apply elem_of_cons in He' as [->|He'].
    - rewrite (hash_canon (V := V) (C := C) _ key Hce). done.
    - rewrite (al_placed _ _ Ha _ _ e' (rd_lookup _ _ _ Hb) He'). lia. }
  cbn [mbind option_bind]. eexists. split; [done|].
  pose proof (keys_perm _ _ P1 (wf_keys _ Hw)) as Hnd.
  assert (NoDup (keysof (e :: b ++ rest))) as Hnd1.
  { rewrite keys_cons. apply NoDup_cons. split; [|done]. rewrite Hce, elem_of_keys.
    intros (e' & He' & Hc'). apply (Hn e'); [by rewrite P1|done]. }
  split; [by apply Hwf|]. cbn [added]. split_and!; auto.
  - exists k, (e :: b), e. rewrite Hg. cbn [table].
    pose proof (lookup_lt_Some _ _ _ (rd_lookup _ _ _ Hb)). split_and!; auto.
    apply rd_Some. split; [lia|]. by rewrite Etb, list_lookup_insert_eq.
  - rewrite (zlen_perm _ _ P1), (zlen_perm _ _ P2), !zlen_app, !zlen_cons. lia.
  - unfold as_map. fold (mapof (entries d)). match goal with |- list_to_map (map _ ?E) = _ => fold (mapof E) end.
    rewrite (mapof_perm (e :: b ++ rest)) by (done || by symmetry).
    by rewrite mapof_cons, Hce, (mapof_perm (b ++ rest) (entries d)) by done.
Qed.

Lemma added_preserves d d2 d' key r : wf d -> preserves d d2 -> added d2 d' key r -> added d d' key r.
Proof.
  intros Hw Hp. pose proof (preserves_map d d2 Hw Hp) as Hm. pose proof (preserves_zlen d d2 Hp) as Hz.
  destruct r as [[[t idx] p]|]; cbn [added]; rewrite Hm; [by rewrite Hz|].
  intros [Hp2 Hs]. split; [by apply (preserves_trans d d2)|done].
Qed.

Lemma addraw_ok can (d : dict K V) key : wf d -> zlen (entries d) + 1 <= DICT_LIMIT ->
  exists d' r, dictAddRaw junk can d key = Some (d', r) /\ wf d' /\ added d d' key r.
Proof.
  intros Hw Hl. unfold dictAddRaw.
  destruct (step_ok d Hw) as (d1 & -> & Hp1); [by apply limit_62; lia|]. cbn [mbind option_bind].
  pose proof (preserves_wf d d1 Hp1) as Hw1. pose proof (preserves_zlen d d1 Hp1) as Hz1.
  unfold _dictKeyIndex. destruct (expand_needed_ok can d1 Hw1) as (d2 & -> & Hp2 & Hal); [lia|].
  cbn [mbind option_bind negb]. pose proof (preserves_wf d1 d2 Hp2) as Hw2.
  pose proof (preserves_trans d d1 d2 Hp1 Hp2) as Hp. pose proof (preserves_zlen d d2 Hp) as Hz.
  assert (forall d' r, added d2 d' key r -> added d d' key r) as Hadd by eauto using added_preserves.
  assert (forall t idx p, (t = 0 \/ t = 1) -> found_at d2 key t idx p -> added d d2 key None) as Hfound.
  { intros t idx p Ht Hf. apply Hadd. split; [by apply preserves_refl|].
    destruct (found_entry d2 key t idx p Hw2 Ht Hf) as (e & _ & He). eauto. }
  assert (forall t idx, absent_at d2 key t idx -> (swrap 32 idx =? -1) = false) as Hidx
    by (intros t idx (? & ? & _ & _ & ? & _); rewrite s32_small by lia; lia).
  destruct (search_both_ok d2 key Hw2 Hal) as
    [(idx & p & -> & Hf)|(idx & -> & [[Er Hab]|[Er [(i1 & p & -> & Hf)|(i1 & -> & Hab)]]])];
    cbn [mbind option_bind negb]; try rewrite Er; cbn [mbind option_bind negb].
  - rewrite Z.eqb_refl. exists d2, None. split_and!; auto. apply (Hfound 0 idx p); auto.
  - rewrite (Hidx _ _ Hab), Er. destruct (push_ok d2 key 0 idx) as (d' & -> & Hw' & Hpost); auto; [lia|..].
    { right. unfold dictIsRehashing in Er. bool_to_prop. lia. }
    do 2 eexists. split; [done|]. auto.
  - rewrite Z.eqb_refl. exists d2, None. split_and!; auto. apply (Hfound 1 i1 p); auto.
  - rewrite (Hidx _ _ Hab), Er. destruct (push_ok d2 key 1 i1) as (d' & -> & Hw' & Hpost); auto; [lia|..].
    do 2 eexists. split; [done|]. auto.
Qed.

Lemma dict_add_ok can (d : dict K V) key v : wf d -> zlen (entries d) + 1 <= DICT_LIMIT ->
  exists d', dictAdd junk can d key v = Some (d', bool_decide (as_map d !! canon key = None)) /\
    wf d' /\
    match as_map d !! canon key with
    | Some _ => preserves d d'
    | None => zlen (entries d') = zlen (entries d) + 1 /\
        as_map d' = <[canon key := (dictSetKey_key key, dictSetVal_value v)]> (as_map d)
    end.
Proof.
  intros Hw Hl. unfold dictAdd. destruct (addraw_ok can d key Hw Hl) as (d1 & r & -> & Hw1 & Ha).
  cbn [mbind option_bind]. destruct r as [[[t idx] p]|].
  - destruct Ha as (Ht & Hf & Hn & Hz & Hm).
    destruct (setval_ok d1 key t idx p v Hw1 Ht Hf) as (d2 & k' & (v' & Hk) & -> & Hw2 & Hz2 & Hm2).
    cbn [mbind option_bind]. rewrite Hn, bool_decide_true by done. exists d2.
    rewrite Hm in Hk. rewrite lookup_insert_eq in Hk. injection Hk as <- _.
    rewrite Hm2, Hm, insert_insert_eq. split_and!; auto. by rewrite Hz2.
  - destruct Ha as [Hp [e He]]. exists d1. rewrite He, bool_decide_false by done. split_and!; auto.
Qed.

Lemma replace_ok can (d : dict K V) key v : wf d -> zlen (entries d) + 1 <= DICT_LIMIT ->
  exists d', dictReplace junk can d key v = Some (d', bool_decide (as_map d !! canon key = None)) /\
    wf d' /\ zlen (entries d') <= zlen (entries d) + 1 /\
    as_map d' = match as_map d !! canon key with
      | Some (k', _) => <[canon key := (k', dictSetVal_value v)]> (as_map d)
      | None => <[canon key := (dictSetKey_key key, dictSetVal_value v)]> (as_map d)
      end.
Proof.
  intros Hw Hl. unfold dictReplace. destruct (dict_add_ok can d key v Hw Hl) as (d1 & -> & Hw1 & Hm).
  cbn [mbind option_bind]. destruct (as_map d !! canon key) as [[k0 v0]|] eqn:E.
  - rewrite bool_decide_false by done. pose proof (preserves_map d d1 Hw Hm) as Em.
    pose proof (preserves_zlen d d1 Hm) as Ez.
    destruct (dict_find_ok d1 key Hw1) as (d2 & r & -> & Hp & Hr); [lia|]. cbn [mbind option_bind].
    pose proof (preserves_map d1 d2 Hw1 Hp) as Em2. pose proof (preserves_zlen d1 d2 Hp) as Ez2.
    pose proof (preserves_wf d1 d2 Hp) as Hw2.
    destruct r as [[[t idx] p]|]; cbn [find_post] in Hr; [|congruence].
    destruct Hr as [Ht Hf]. cbn [mbind option_bind].
    destruct (setval_ok d2 key t idx p v Hw2 Ht Hf) as (d3 & k' & (v' & Hk) & -> & Hw3 & Hz3 & Hm3).
    cbn [mbind option_bind]. exists d3. rewrite Em2, Em, E in Hk. injection Hk as <- _.
    rewrite Hm3, Em2, Em. split_and!; auto. lia.
  - rewrite bool_decide_true by done. destruct Hm as [Hz Hm]. exists d1. split_and!; auto. lia.
Qed.

Lemma unlink_ok (d : dict K V) key t idx p : wf d -> zlen (entries d) <= DICT_LIMIT ->
  (t = 0 \/ t = 1) -> found_at d key t idx p ->
  exists d', unlink d t idx p = Some d' /\ wf d' /\ zlen (entries d') <= zlen (entries d) /\
    as_map d' = delete (canon key) (as_map d) /\ is_Some (as_map d !! canon key).
Proof.
  intros Hw Hl Hor Hf. destruct (found_entry d key t idx p Hw Hor Hf) as (e0 & _ & Hm0).
  destruct Hf as (k & b & e & Ha & Hb & He & Hc). unfold unlink. rewrite Hb. cbn [mbind option_bind].
  pose proof (delete_Permutation _ _ _ He) as Pd. unfold DICT_LIMIT in Hl.
  destruct (used_bounds d Hw) as (Hu0 & Hu1 & Hus). pose proof (zlen_perm _ _ Pd) as Zd.
  rewrite zlen_cons in Zd. pose proof (zlen_nonneg (delete p b)).
  assert (0 < used (get_ht d t)) as Hpos.
  { pose proof (al_used _ _ Ha) as Hua. destruct (wr_bucket _ _ b b Hb) as (? & r & _ & _ & _ & P & _).
    rewrite (zlen_perm _ _ P), zlen_app in Hua. pose proof (zlen_nonneg r). lia. }
  rewrite u64_small by (destruct Hor as [-> | ->]; cbn [get_ht Z.eqb] in *; lia).
  destruct (set_bucket_ok d t idx k b (delete p b) (used (get_ht d t) - 1))
    as (tb & rest & -> & P1 & P2 & Hwf & _); auto; try lia.
  { intros ->. done. }
  { intros e' He'. pose proof (proj1 (rd_Some _ _ _) Hb) as [Hi0 _].
    rewrite (al_placed _ _ Ha _ _ e' (rd_lookup _ _ _ Hb)); [lia|]. rewrite Pd. set_solver. }
  cbn [mbind option_bind]. eexists. split; [done|].
  assert (entries d ≡ₚ e :: delete p b ++ rest) as P3 by (rewrite P1; rewrite Pd at 1; done).
  pose proof (keys_perm _ _ P3 (wf_keys _ Hw)) as Hnd.
  assert (NoDup (keysof (delete p b ++ rest))) as Hnd2
    by (rewrite keys_cons in Hnd; by apply NoDup_cons in Hnd as [_ ?]).
  split; [by apply Hwf|]. split.
  { rewrite (zlen_perm _ _ P3), (zlen_perm _ _ P2), zlen_cons. lia. }
  split; [|eauto]. unfold as_map. fold (mapof (entries d)).
  match goal with |- list_to_map (map _ ?E) = _ => fold (mapof E) end.
  rewrite (mapof_perm (delete p b ++ rest)) by (done || by symmetry).
  rewrite <- (mapof_perm (entries d) (e :: delete p b ++ rest) P3 (wf_keys _ Hw)).
  by rewrite (mapof_tail e (delete p b ++ rest) Hnd), Hc.
Qed.

Lemma dict_delete_ok (d : dict K V) key : wf d -> zlen (entries d) <= DICT_LIMIT ->
  exists d', dictDelete d key = Some (d', bool_decide (is_Some (as_map d !! canon key))) /\
    wf d' /\ zlen (entries d') <= zlen (entries d) /\
    as_map d' = delete (canon key) (as_map d).
Proof.
  intros Hw Hl. unfold dictDelete, dictGenericDelete.
  assert (forall d' : dict K V, wf d' -> as_map d' = as_map d -> zlen (entries d') = zlen (entries d) ->
    as_map d' !! canon key = None ->
    exists d'', Some (d', false) = Some (d'', bool_decide (is_Some (as_map d !! canon key))) /\
      wf d'' /\ zlen (entries d'') <= zlen (entries d) /\
      as_map d'' = delete (canon key) (as_map d)) as Habs.
  { intros d' Hw' Em Ez Hn. exists d'. rewrite Em in Hn.
    rewrite bool_decide_false by (rewrite Hn; by intros [? ?]).
    rewrite delete_id by done. split_and!; auto. lia. }
  destruct (Z.eqb_spec (size (ht0 d)) 0) as [E|E].
  { apply Habs; auto. unfold as_map. by rewrite (size_0 d Hw E). }
  destruct (step_ok d Hw (limit_62 d Hl)) as (d1 & Es & Hp).
  pose proof (step_alloc d d1 Hw E (limit_62 d Hl) Es) as Hal. rewrite Es. cbn [mbind option_bind].
  pose proof (preserves_wf d d1 Hp) as Hw1. pose proof (preserves_map d d1 Hw Hp) as Em.
  pose proof (preserves_zlen d d1 Hp) as Ez.
  assert (forall t idx p, (t = 0 \/ t = 1) -> found_at d1 key t idx p ->
    exists d'', (d2 ← unlink d1 t idx p; Some (d2, true)) =
        Some (d'', bool_decide (is_Some (as_map d !! canon key))) /\
      wf d'' /\ zlen (entries d'') <= zlen (entries d) /\
      as_map d'' = delete (canon key) (as_map d)) as Hfound.
  { intros t idx p Ht Hf. destruct (unlink_ok d1 key t idx p Hw1 ltac:(lia) Ht Hf)
      as (d2 & -> & Hw2 & Hz2 & Hm2 & Hs2). cbn [mbind option_bind]. exists d2.
    rewrite Em in *. rewrite bool_decide_true by done. split_and!; auto. lia. }
  destruct (search_both_ok d1 key Hw1 Hal) as
    [(idx & p & -> & Hf)|(idx & -> & [[Er Hab]|[Er [(i1 & p & -> & Hf)|(i1 & -> & Hab)]]])];
    cbn [mbind option_bind negb]; try rewrite Er; cbn [mbind option_bind negb]; auto;
    apply Habs; eauto using absent_map.
Qed.

Lemma fetch_ok (d : dict K V) key : wf d -> zlen (entries d) <= DICT_LIMIT ->
  exists d', dictFetchValue d key = Some (d', snd <$> as_map d !! canon key) /\ preserves d d'.
Proof.
  intros Hw Hl. unfold dictFetchValue. destruct (dict_find_ok d key Hw Hl) as (d1 & r & -> & Hp & Hr).
  cbn [mbind option_bind]. exists d1. pose proof (preserves_map d d1 Hw Hp) as Em.
  destruct r as [[[t idx] p]|]; cbn [find_post] in Hr.
  - destruct Hr as [Ht Hf].
    destruct (found_entry d1 key t idx p (preserves_wf _ _ Hp) Ht Hf) as (e & -> & He).
    cbn [mbind option_bind]. rewrite <- Em, He. done.
  - rewrite <- Em, Hr. done.
Qed.

(** The loop of [_dictClear] stays in the table and frees every entry. *)
Lemma clear_loop_ok (bs : list (list entry)) : forall i sz,
  zlen bs = sz - i -> 0 <= zlen (concat bs) < 2 ^ 63 ->
  clear_loop bs i sz (zlen (concat bs)) = Some 0.
Proof.
  induction bs as [|b bs IH]; intros i sz Hl Hc; cbn [clear_loop concat].
  - change (zlen (@nil (list entry))) with 0 in Hl. change (zlen (@nil entry)) with 0.
    replace (i <? sz) with false by (symmetry; apply Z.ltb_ge; lia). done.
  - rewrite zlen_cons in Hl. cbn [concat] in Hc. rewrite zlen_app in *.
    pose proof (zlen_nonneg bs). pose proof (zlen_nonneg b). pose proof (zlen_nonneg (concat bs)).
    replace (i <? sz) with true by (symmetry; apply Z.ltb_lt; lia). cbn [andb].
    destruct (Z.ltb_spec 0 (zlen b + zlen (concat bs))).
    + rewrite u64_small by lia. replace (zlen b + zlen (concat bs) - zlen b) with (zlen (concat bs)) by lia.
      apply IH; lia.
    + f_equal. lia.
Qed.

Lemma clear_ok (ht : dictht K V) : (reset ht \/ exists k, alloc ht k) ->
  zlen (concat (table ht)) < 2 ^ 63 -> _dictClear ht = Some _dictReset.
Proof.
  intros Hr Hl. unfold _dictClear.
  assert (used ht = zlen (concat (table ht)) /\ size ht = zlen (table ht)) as [-> ->].
  { destruct Hr as [-> |[k [_ -> -> _ -> _]]]; done. }
  rewrite clear_loop_ok by (pose proof (zlen_nonneg (concat (table ht))); lia). done.
Qed.

Lemma empty_ok (d : dict K V) : wf d -> zlen (entries d) <= DICT_LIMIT ->
  dictEmpty d = Some dictCreate.
Proof.
  intros Hw Hl. unfold dictEmpty. unfold entries, DICT_LIMIT in Hl. rewrite zlen_app in Hl.
  pose proof (zlen_nonneg (concat (table (ht0 d)))). pose proof (zlen_nonneg (concat (table (ht1 d)))).
  rewrite !clear_ok; [done|..]; try lia;
    destruct Hw as [_ [(_ & ? & ?)|(? & ? & ? & ? & _)]]; eauto.
Qed.

Lemma create_wf : wf dictCreate.
Proof. split; [by constructor|]. left. split_and!; [done..|by left]. Qed.

Lemma dict_exec_ok (d : dict K V) can o : wf d -> zlen (entries d) + 1 <= DICT_LIMIT -> op_ok o ->
  let '(m', r) := spec o (as_map d) in
  exists d' can', exec junk o (d, can) = Some (d', can', r) /\ wf d' /\ as_map d' = m' /\
    zlen (entries d') <= zlen (entries d) + 1.
Proof.
  intros Hw Hl Hok.
  assert (forall d', preserves d d' -> wf d' /\ as_map d' = as_map d /\
    zlen (entries d') <= zlen (entries d) + 1) as Hpres.
  { intros d' Hp. split_and!; [by eapply preserves_wf|by apply preserves_map|].
    rewrite (preserves_zlen d d' Hp). lia. }
  destruct o as [k v|k v|k|k| | |n| |n|b]; cbn [spec exec op_ok] in *.
  - destruct (dict_add_ok can d k v Hw Hl) as (d' & E & Hw' & Hm). rewrite E. cbn [mbind option_bind].
    destruct (as_map d !! canon k) as [e|].
    + rewrite bool_decide_false by done. eauto 10.
    + rewrite bool_decide_true by done. destruct Hm as [Hz Hm]. exists d', can. split_and!; auto. lia.
  - destruct (replace_ok can d k v Hw Hl) as (d' & E & Hw' & Hz & Hm). rewrite E. cbn [mbind option_bind].
    destruct (as_map d !! canon k) as [[k' v']|].
    + rewrite bool_decide_false by done. eauto 10.
    + rewrite bool_decide_true by done. eauto 10.
  - destruct (dict_delete_ok d k Hw) as (d' & E & Hw' & Hz & Hm); [lia|]. rewrite E. cbn [mbind option_bind].
    exists d', can. split_and!; auto. lia.
  - destruct (fetch_ok d k Hw) as (d' & E & Hp); [lia|]. rewrite E. cbn [mbind option_bind]. eauto 10.
  - exists d, can. split; [|auto using preserves_refl]. destruct (used_bounds d Hw) as (H0' & H1' & Hu).
    unfold dictSize, DICT_LIMIT in *. rewrite u64_small, Hu by lia. do 3 f_equal. symmetry.
    apply (mapof_size (entries d)), wf_keys, Hw.
  - rewrite (empty_ok d Hw) by lia. cbn [mbind option_bind]. exists dictCreate, can.
    split_and!; auto using create_wf. pose proof (zlen_nonneg (entries d)).
    change (zlen (entries dictCreate)) with 0. lia.
  - destruct (rehash_ok n d Hw) as (d' & more & E & Hp & _); [apply limit_62; lia|]. rewrite E.
    cbn [mbind option_bind]. eauto 10.
  - assert (exists d' ok, dictResize can d = Some (d', ok) /\ preserves d d') as (d' & ok & E & Hp).
    { unfold dictResize. destruct (_ || _); [eauto using preserves_refl|].
      destruct (used_bounds d Hw) as (H0' & H1' & Hu). unfold DICT_LIMIT, DICT_HT_INITIAL_SIZE in *.
      rewrite s32_small by lia. rewrite u64_small by (zcase; lia).
      destruct (expand_ok d (if used (ht0 d) <? 4 then 4 else used (ht0 d)) Hw)
        as (d' & ok & E & Hp & _); [zcase; lia|lia|]. eauto. }
    rewrite E. cbn [mbind option_bind]. eauto 10.
  - destruct (expand_ok d n Hw) as (d' & ok & E & Hp & _); [unfold DICT_LIMIT in *; lia|apply limit_62; lia|].
    rewrite E. cbn [mbind option_bind]. eauto 10.
  - exists d, b. split; [done|]. auto using preserves_refl.
Qed.

Lemma dict_exec_all_ok os : forall (d : dict K V) can, wf d -> Forall op_ok os ->
  zlen (entries d) + zlen os <= DICT_LIMIT ->
  let '(m', rs) := spec_all os (as_map d) in
  exists d' can', exec_all junk os (d, can) = Some (d', can', rs) /\ wf d' /\ as_map d' = m'.
Proof.
  induction os as [|o os IH]; intros d can Hw Hok Hl; cbn [spec_all exec_all]; [eauto|].
  inversion Hok as [|?? Ho Hos]; subst. rewrite zlen_cons in Hl. pose proof (zlen_nonneg os).
  pose proof (dict_exec_ok d can o Hw ltac:(lia) Ho) as E. destruct (spec o (as_map d)) as [m1 r].
  destruct E as (d1 & can1 & -> & Hw1 & <- & Hz1). cbn [mbind option_bind].
  specialize (IH d1 can1 Hw1 Hos ltac:(lia)). destruct (spec_all os (as_map d1)) as [m2 rs].
  destruct IH as (d2 & can2 & -> & Hw2 & Hm2). cbn [mbind option_bind]. eauto.
Qed.

(** More rounds than buckets finish a rehashing. *)
Lemma rehash_completes (d : dict K V) n : wf d -> dictIsRehashing d = true ->
  zlen (entries d) <= DICT_LIMIT -> size (ht0 d) < Z.of_nat n ->
  exists d', dictRehash d n = Some (d', false) /\ preserves d d' /\ dictIsRehashing d' = false.
Proof.
  intros Hw Hr Hl Hn. unfold dictRehash. rewrite Hr. cbn [negb].
  apply is_rehashing_spec in Hr. revert d Hw Hr Hl Hn.
  enough (forall d, wf d -> rehashidx d <> -1 -> zlen (entries d) < 2 ^ 62 ->
    size (ht0 d) - rehashidx d < Z.of_nat n ->
    exists d', rehash_loop n d = Some (d', false) /\ preserves d d' /\ dictIsRehashing d' = false) as Hmain.
  { intros d Hw Hr Hl Hn. apply Hmain; auto using limit_62.
    destruct Hw as [_ [(? & _)|(? & ? & _ & _ & ? & _)]]; [done|]. lia. }
  induction n as [|n IH]; intros d Hw Hr Hl Hn; cbn [rehash_loop].
  - exfalso. destruct Hw as [_ [(? & _)|(k0 & ? & Ha & _ & Hri & _)]]; [done|].
    rewrite (al_size _ _ Ha) in Hn. lia.
  - destruct (rehash_step_ok d Hw Hr Hl) as (d1 & more & -> & Hp & Hm). cbn [mbind option_bind].
    destruct more.
    + destruct Hm as [Hm Hs]. pose proof (preserves_wf _ _ Hp) as Hw1.
      destruct (IH d1) as (d2 & E & Hp2 & Hr2); auto.
      { destruct Hw as [_ [(? & _)|(? & ? & _ & _ & ? & _)]]; [done|]. lia. }
      { by rewrite (preserves_zlen _ _ Hp). }
      { lia. }
      exists d2. split_and!; auto. by apply (preserves_trans d d1).
    + exists d1. split_and!; auto. unfold dictIsRehashing. by rewrite Hm.
Qed.

End Facts.
End DictFacts.

Import DictSpec DictFacts.

(** C12. The hash table implements a finite map through every stage of incremental
    rehashing: for any dictType whose comparison and hash agree, from a new
    dictionary, any sequence of fewer than 2^29 additions, replacements, deletions,
    lookups, size queries, clearings, rehashing bursts, resizes and expansions
    (with resizing enabled or disabled in between) runs without an access outside
    a table or a failed assertion and returns what the finite map gives, and the
    final state satisfies the structural invariant and stands for the final map. *)
Theorem dict_refines {K V C} `{Countable C} `{DictTypeOk K V C} (junk : V) can
    (os : list (op K V)) :
  Forall op_ok os -> zlen os <= DICT_LIMIT ->
  exists d' can', exec_all junk os (dictCreate, can) = Some (d', can', snd (spec_all os ∅)) /\
    wf d' /\ as_map d' = fst (spec_all os ∅).
Proof.
  intros Hok Hl. pose proof (dict_exec_all_ok junk os dictCreate can create_wf Hok) as E.
  change (as_map dictCreate) with (∅ : gmap C (K * V)) in E.
  destruct (spec_all os ∅) as [m rs]. apply E. change (zlen (entries dictCreate)) with 0. lia.
Qed.

(** Integer keys with their low 32 bits as the hash. *)
Module Demo.
#[export] Instance demo_type : DictType Z Z :=
  {| hashFunction := fun k => k mod 2 ^ 32; keyDup := None; valDup := None; keyCompare := Z.eqb |}.
#[export] Instance demo_ok : DictTypeOk Z Z Z.
Proof.
  refine {| canon := fun k : Z => k |}; cbn.
  - intros a b. apply Z.eqb_eq.
  - by intros a b ->.
  - intros a. apply (uwrap_range 32). lia.
  - done.
Defined.

Definition ops : list (op Z Z) :=
  [OAdd 1 10; OAdd 5 50; OAdd 9 90; OAdd 13 130; OAdd 1 11; OAdd 2 20; OFetch 9; OReplace 5 51;
   ORehash 1; ODelete 9; ODelete 9; OFetch 5; OSize; ORehash 20; OCanResize false; OResize;
   OFetch 13; OEmpty; OSize].
End Demo.

Import Demo.

Lemma dict_refines_witness :
  exists d' can', exec_all 0 Demo.ops (dictCreate, true) =
      Some (d', can', snd (spec_all (C := Z) Demo.ops ∅)) /\
    wf (C := Z) d' /\ as_map (C := Z) d' = fst (spec_all (C := Z) Demo.ops ∅).
Proof.
  apply (dict_refines (C := Z) 0 true Demo.ops); [repeat constructor|by vm_compute].
Defined.

(** C39. Rehashing terminates: on a dictionary that is being rehashed, a call of
    dictRehash with more rounds than the old table has buckets returns 0, with the
    same entries, the invariant kept and the rehashing over. *)
Theorem dictRehash_terminates {K V C} `{Countable C} `{DictTypeOk K V C} (d : dict K V) n :
  wf d -> dictIsRehashing d = true -> zlen (entries d) <= DICT_LIMIT -> size (ht0 d) < Z.of_nat n ->
  exists d', dictRehash d n = Some (d', false) /\ wf d' /\ entries d' ≡ₚ entries d /\
    dictIsRehashing d' = false.
Proof.
  intros Hw Hr Hl Hn. destruct (rehash_completes d n Hw Hr Hl Hn) as (d' & E & (Hw' & P & _) & Hr').
  exists d'. done.
Qed.

(** A dictionary of five entries in the middle of its growth from 4 to 8 buckets. *)
Definition growing_ops : list (op Z Z) := [OAdd 1 1; OAdd 2 2; OAdd 3 3; OAdd 4 4; OAdd 5 5].
Definition growing : dict Z Z :=
  from_option (fun x => x.1.1) dictCreate (exec_all 0 growing_ops (dictCreate, true)).

Lemma growing_wf : wf (C := Z) growing.
Proof.
  pose proof (dict_exec_all_ok (C := Z) 0 growing_ops dictCreate true create_wf ltac:(repeat constructor)
    ltac:(by vm_compute)) as E.
  destruct (spec_all growing_ops _) as [m rs]. destruct E as (d & can & E & Hw & _).
  unfold growing. by rewrite E.
Qed.

Lemma dictRehash_terminates_witness :
  exists d', dictRehash growing 5 = Some (d', false) /\ wf (C := Z) d' /\
    entries d' ≡ₚ entries growing /\ dictIsRehashing d' = false.
Proof.
  apply (dictRehash_terminates (C := Z) growing 5);
    [exact growing_wf|by vm_compute|by vm_compute|by vm_compute].
Defined.
