(* ===== verification/DictScan.v ===== *)
(** * dict.c: the guarantee of dictScan

    A cursor is compared by its bit reversal: a call of dictScan on a table of 2^k
    buckets visits the hashes whose reversal lies in one interval of length
    2^(64-k), and the next cursor is the end of that interval.  The proof follows
    the intervals through every change of size of the tables. *)

From S2P Require Import Prelude Util Dict.
Import DictSpec DictFacts.

(** ** Bits *)

Module RevFacts.

Definition u64 (v : Z) : Prop := 0 <= v < 2 ^ 64.

Lemma unot_bit M i : u64 M -> 0 <= i < 64 -> Z.testbit (unot 64 M) i = negb (Z.testbit M i).
Proof.
  intros HM Hi. unfold unot, u64 in *.
  rewrite <- (Z.mod_pow2_bits_low (2 ^ 64 - 1 - M) 64 i) by lia.
  replace (2 ^ 64 - 1 - M) with (Z.lnot M + 1 * 2 ^ 64) by (unfold Z.lnot; lia).
  rewrite Z.mod_add, Z.mod_pow2_bits_low by lia. apply Z.lnot_spec. lia.
Qed.

Lemma unot_u64 M : u64 M -> u64 (unot 64 M).
Proof. unfold u64, unot. lia. Qed.

Lemma u64_high v i : u64 v -> 64 <= i -> Z.testbit v i = false.
Proof.
  intros Hv Hi. destruct (Z.eq_dec v 0) as [->|]; [apply Z.bits_0|].
  apply Z.bits_above_log2; [apply Hv|]. apply Z.log2_lt_pow2; [unfold u64 in Hv; lia|].
  unfold u64 in Hv. pose proof (Z.pow_le_mono_r 2 64 i). lia.
Qed.

Lemma u64_bits v : 0 <= v -> (forall i, 64 <= i -> Z.testbit v i = false) -> u64 v.
Proof.
  intros Hv Hb. split; [done|]. destruct (Z.lt_ge_cases v (2 ^ 64)) as [|Hge]; [done|]. exfalso.
  assert (64 <= Z.log2 v) as Hl by (apply Z.log2_le_pow2; lia).
  specialize (Hb (Z.log2 v) Hl). rewrite Z.bit_log2 in Hb by lia. done.
Qed.

Lemma lor_u64 a b : u64 a -> u64 b -> u64 (Z.lor a b).
Proof.
  intros Ha Hb. apply u64_bits; [apply Z.lor_nonneg; unfold u64 in *; lia|].
  intros i Hi. by rewrite Z.lor_spec, !u64_high.
Qed.

Lemma land_u64 a b : u64 a -> u64 b -> u64 (Z.land a b).
Proof.
  intros Ha Hb. apply u64_bits; [apply Z.land_nonneg; unfold u64 in *; lia|].
  intros i Hi. by rewrite Z.land_spec, (u64_high a).
Qed.

(** Where a round of [rev] takes the bit [i] from. *)
Definition source (s M i : Z) : Z := if Z.testbit M i then i + s else i - s.

Lemma rev_step_ok s v m M : M = Z.lxor m (uwrap 64 (Z.shiftl m s)) -> 0 <= s -> u64 v -> u64 M ->
  exists w, rev_step s (v, m) = (w, M) /\ u64 w /\
    forall i, 0 <= i < 64 -> Z.testbit w i = Z.testbit v (source s M i).
Proof.
  intros HM Hs Hv HMu. unfold rev_step. rewrite <- HM. eexists. split; [done|].
  assert (u64 (Z.shiftr v s)) as Hsr.
  { unfold u64 in *. rewrite Z.shiftr_div_pow2 by lia.
    pose proof (Z.pow_pos_nonneg 2 s). split; [apply Z.div_pos; lia|].
    apply Z.div_lt_upper_bound; nia. }
  assert (u64 (uwrap 64 (Z.shiftl v s))) as Hsl by (apply (uwrap_range 64); lia).
  split; [auto using lor_u64, land_u64, unot_u64|].
  intros i Hi. rewrite Z.lor_spec, !Z.land_spec, unot_bit, Z.shiftr_spec by (done || lia).
  unfold uwrap. rewrite Z.mod_pow2_bits_low, Z.shiftl_spec by lia. unfold source.
  destruct (Z.testbit M i); cbn [negb]; by rewrite ?andb_true_r, ?andb_false_r, ?orb_false_r.
Qed.

Definition M32 : Z := Eval vm_compute in (2 ^ 64 - 1) / (2 ^ 32 + 1).
Definition M16 : Z := Eval vm_compute in (2 ^ 64 - 1) / (2 ^ 16 + 1).
Definition M8 : Z := Eval vm_compute in (2 ^ 64 - 1) / (2 ^ 8 + 1).
Definition M4 : Z := Eval vm_compute in (2 ^ 64 - 1) / (2 ^ 4 + 1).
Definition M2 : Z := Eval vm_compute in (2 ^ 64 - 1) / (2 ^ 2 + 1).
Definition M1 : Z := Eval vm_compute in (2 ^ 64 - 1) / (2 ^ 1 + 1).

Lemma sources_ok : forallb (fun n => let i := Z.of_nat n in
  source 32 M32 (source 16 M16 (source 8 M8 (source 4 M4 (source 2 M2 (source 1 M1 i))))) =? 63 - i)
  (seq 0 64) = true.
Proof. by vm_compute. Qed.

Lemma sources_range : forallb (fun n => let i := Z.of_nat n in
  let ok i := (0 <=? i) && (i <? 64) in
  let a := source 1 M1 i in let b := source 2 M2 a in let c := source 4 M4 b in
  let d := source 8 M8 c in let e := source 16 M16 d in
  ok a && ok b && ok c && ok d && ok e) (seq 0 64) = true.
Proof. by vm_compute. Qed.

(** [rev] reverses the order of the 64 bits. *)
Lemma rev_bits v : u64 v ->
  u64 (rev v) /\ forall i, 0 <= i < 64 -> Z.testbit (rev v) i = Z.testbit v (63 - i).
Proof.
  intros Hv. unfold rev.
  destruct (rev_step_ok 32 v (2 ^ 64 - 1) M32) as (w1 & -> & H1 & B1); [done|lia|done|done|].
  destruct (rev_step_ok 16 w1 M32 M16) as (w2 & -> & H2 & B2); [done|lia|done|done|].
  destruct (rev_step_ok 8 w2 M16 M8) as (w3 & -> & H3 & B3); [done|lia|done|done|].
  destruct (rev_step_ok 4 w3 M8 M4) as (w4 & -> & H4 & B4); [done|lia|done|done|].
  destruct (rev_step_ok 2 w4 M4 M2) as (w5 & -> & H5 & B5); [done|lia|done|done|].
  destruct (rev_step_ok 1 w5 M2 M1) as (w6 & -> & H6 & B6); [done|lia|done|done|].
  cbn [fst]. split; [done|]. intros i Hi.
  assert (In (Z.to_nat i) (seq 0 64)) as Hin by (apply in_seq; lia).
  pose proof (proj1 (forallb_forall _ _) sources_ok _ Hin) as Hs.
  pose proof (proj1 (forallb_forall _ _) sources_range _ Hin) as Hr. cbv zeta beta in Hs, Hr.
  rewrite Z2Nat.id in Hs, Hr by lia. bool_to_prop.
  rewrite B6, B5, B4, B3, B2, B1 by lia. by f_equal.
Qed.

Lemma rev_u64 v : u64 v -> u64 (rev v).
Proof. intros Hv. apply (rev_bits v Hv). Qed.

Lemma rev_testbit v i : u64 v -> 0 <= i < 64 -> Z.testbit (rev v) i = Z.testbit v (63 - i).
Proof. intros Hv. apply (rev_bits v Hv). Qed.

Lemma u64_inj a b : u64 a -> u64 b -> (forall i, 0 <= i < 64 -> Z.testbit a i = Z.testbit b i) -> a = b.
Proof.
  intros Ha Hb He. apply Z.bits_inj'. intros i Hi. destruct (Z.lt_ge_cases i 64); [by apply He|].
  by rewrite !u64_high.
Qed.

Lemma rev_rev v : u64 v -> rev (rev v) = v.
Proof.
  intros Hv. apply u64_inj; auto using rev_u64. intros i Hi.
  rewrite !rev_testbit by (auto using rev_u64; lia). f_equal. lia.
Qed.

(** The low [k] bits of a cursor are the high [k] bits of its reversal. *)
Lemma rev_prefix a b k : u64 a -> u64 b -> 0 <= k <= 64 ->
  a mod 2 ^ k = b mod 2 ^ k <-> rev a / 2 ^ (64 - k) = rev b / 2 ^ (64 - k).
Proof.
  intros Ha Hb Hk. rewrite <- !Z.shiftr_div_pow2 by lia. split; intros E.
  - apply Z.bits_inj'. intros i Hi. rewrite !Z.shiftr_spec by lia.
    destruct (Z.lt_ge_cases (i + (64 - k)) 64); [|by rewrite !u64_high by (auto using rev_u64; lia)].
    rewrite !rev_testbit by (auto || lia).
    rewrite <- (Z.mod_pow2_bits_low a k), <- (Z.mod_pow2_bits_low b k) by lia. by rewrite E.
  - apply Z.bits_inj'. intros i Hi. destruct (Z.lt_ge_cases i k).
    + rewrite !Z.mod_pow2_bits_low by lia.
      rewrite <- (rev_rev a), <- (rev_rev b) by done.
      rewrite !(rev_testbit (rev _)) by (auto using rev_u64; lia).
      replace (63 - i) with ((k - 1 - i) + (64 - k)) by lia.
      rewrite <- !Z.shiftr_spec by lia. by rewrite E.
    + by rewrite !Z.mod_pow2_bits_high by lia.
Qed.

(** Setting the bits from [k] up fills the low bits of the reversal with ones. *)
Lemma rev_fill v k : u64 v -> 0 <= k <= 64 ->
  rev (Z.lor v (unot 64 (2 ^ k - 1))) = (rev v / 2 ^ (64 - k) + 1) * 2 ^ (64 - k) - 1.
Proof.
  intros Hv Hk. set (W := 64 - k). assert (0 < 2 ^ W) by (apply Z.pow_pos_nonneg; lia).
  assert (u64 (2 ^ k - 1)) as Hm.
  { unfold u64. pose proof (Z.pow_le_mono_r 2 k 64). pose proof (Z.pow_pos_nonneg 2 k). lia. }
  assert (u64 (Z.lor v (unot 64 (2 ^ k - 1)))) as Hx by auto using lor_u64, unot_u64.
  assert (forall j, 0 <= j < 64 -> Z.testbit (Z.lor v (unot 64 (2 ^ k - 1))) j =
    if j <? k then Z.testbit v j else true) as Hb.
  { intros j Hj. rewrite Z.lor_spec, unot_bit, mask_pow by (done || lia).
    destruct (Z.ltb_spec j k).
    - rewrite Z.ones_spec_low by lia. apply orb_false_r.
    - rewrite Z.ones_spec_high by lia. apply orb_true_r. }
  set (x := Z.lor _ _) in *.
  assert (rev x / 2 ^ W = rev v / 2 ^ W) as Ed.
  { apply rev_prefix; auto. apply Z.bits_inj'. intros i Hi. destruct (Z.lt_ge_cases i k).
    - rewrite !Z.mod_pow2_bits_low, Hb by lia. by zdec.
    - by rewrite !Z.mod_pow2_bits_high by lia. }
  assert (rev x mod 2 ^ W = 2 ^ W - 1) as Em.
  { rewrite mask_pow by lia. apply Z.bits_inj'. intros i Hi. destruct (Z.lt_ge_cases i W).
    - rewrite Z.mod_pow2_bits_low, Z.ones_spec_low, rev_testbit, Hb by (done || lia). by zdec.
    - by rewrite Z.mod_pow2_bits_high, Z.ones_spec_high by lia. }
  rewrite (Z.div_mod (rev x) (2 ^ W)) by lia. rewrite Ed, Em. lia.
Qed.

Lemma rev_0 : rev 0 = 0.
Proof. by vm_compute. Qed.

(** The last lines of dictScan, seen through the reversal. *)
Definition next_cursor (m0 v : Z) : Z := rev (uwrap 64 (rev (Z.lor v (unot 64 m0)) + 1)).

Lemma next_cursor_ok v k : u64 v -> 0 <= k <= 64 ->
  u64 (next_cursor (2 ^ k - 1) v) /\
  rev (next_cursor (2 ^ k - 1) v) = ((rev v / 2 ^ (64 - k) + 1) * 2 ^ (64 - k)) mod 2 ^ 64.
Proof.
  intros Hv Hk. unfold next_cursor. rewrite rev_fill by done.
  assert (u64 (uwrap 64 ((rev v / 2 ^ (64 - k) + 1) * 2 ^ (64 - k) - 1 + 1))) as Hu
    by (apply (uwrap_range 64); lia).
  split; [by apply rev_u64|]. rewrite rev_rev by done. unfold uwrap. f_equal. lia.
Qed.

End RevFacts.

(** ** The loop over the larger table *)

Module LargeFacts.
Import RevFacts.

Lemma disjoint_lor a b : Z.land a b = 0 -> Z.lor a b = a + b.
Proof. intros E. by rewrite Z.add_nocarry_lxor, Z.lxor_lor by done. Qed.

Lemma lor_mask v k : 0 <= k -> Z.lor v (2 ^ k - 1) = v / 2 ^ k * 2 ^ k + (2 ^ k - 1).
Proof.
  intros Hk. rewrite mask_pow by done. set (x := Z.lor v (Z.ones k)).
  assert (0 < 2 ^ k) by (apply Z.pow_pos_nonneg; lia).
  assert (x / 2 ^ k = v / 2 ^ k) as Ed.
  { unfold x. rewrite <- !Z.shiftr_div_pow2, Z.shiftr_lor, (Z.shiftr_div_pow2 (Z.ones k)) by lia.
    rewrite Z.ones_div_pow2, Z.sub_diag by lia. apply Z.lor_0_r. }
  assert (x mod 2 ^ k = Z.ones k) as Em.
  { rewrite <- Z.land_ones by lia. apply Z.bits_inj'. intros i Hi. unfold x.
    rewrite Z.land_spec, Z.lor_spec. by destruct (Z.testbit v i), (Z.testbit (Z.ones k) i). }
  rewrite (Z.div_mod x (2 ^ k)), Ed, Em by lia. lia.
Qed.

(** The increment of the bits above the smaller mask. *)
Definition bump (m0 v : Z) : Z :=
  Z.lor (Z.land (uwrap 64 (Z.lor v m0 + 1)) (unot 64 m0)) (Z.land v m0).

Lemma bump_ok v k : u64 v -> 0 <= k <= 64 ->
  bump (2 ^ k - 1) v = ((v / 2 ^ k + 1) mod 2 ^ (64 - k)) * 2 ^ k + v mod 2 ^ k.
Proof.
  intros Hv Hk. unfold bump. assert (0 < 2 ^ k) by (apply Z.pow_pos_nonneg; lia).
  rewrite lor_mask, land_mask by lia.
  replace (v / 2 ^ k * 2 ^ k + (2 ^ k - 1) + 1) with ((v / 2 ^ k + 1) * 2 ^ k) by lia.
  assert (uwrap 64 ((v / 2 ^ k + 1) * 2 ^ k) = ((v / 2 ^ k + 1) mod 2 ^ (64 - k)) * 2 ^ k) as ->.
  { unfold uwrap. replace (2 ^ 64) with (2 ^ (64 - k) * 2 ^ k)
      by (rewrite <- Z.pow_add_r by lia; f_equal; lia).
    apply Zmult_mod_distr_r. }
  set (y := (v / 2 ^ k + 1) mod 2 ^ (64 - k)).
  assert (0 <= y < 2 ^ (64 - k)) as Hy by (apply Z.mod_pos_bound, Z.pow_pos_nonneg; lia).
  assert (u64 (y * 2 ^ k)) as Hyu.
  { unfold u64. replace (2 ^ 64) with (2 ^ (64 - k) * 2 ^ k)
      by (rewrite <- Z.pow_add_r by lia; f_equal; lia). nia. }
  assert (u64 (2 ^ k - 1)) as Hm.
  { unfold u64. pose proof (Z.pow_le_mono_r 2 k 64). lia. }
  assert (Z.land (y * 2 ^ k) (unot 64 (2 ^ k - 1)) = y * 2 ^ k) as ->.
  { apply u64_inj; auto using land_u64, unot_u64. intros i Hi.
    rewrite Z.land_spec, unot_bit, mask_pow by (done || lia). destruct (Z.lt_ge_cases i k).
    - rewrite Z.mul_pow2_bits_low by lia. done.
    - rewrite Z.ones_spec_high by lia. apply andb_true_r. }
  apply disjoint_lor. apply Z.bits_inj'. intros i Hi. rewrite Z.land_spec, Z.bits_0.
  destruct (Z.lt_ge_cases i k).
  - by rewrite Z.mul_pow2_bits_low by lia.
  - rewrite Z.mod_pow2_bits_high by lia. apply andb_false_r.
Qed.

Lemma diff_mask_zero v k0 k1 : 0 <= k0 <= k1 ->
  (Z.land v (Z.lxor (2 ^ k0 - 1) (2 ^ k1 - 1)) =? 0) = ((v / 2 ^ k0) mod 2 ^ (k1 - k0) =? 0).
Proof.
  intros Hk. assert (0 < 2 ^ k0) by (apply Z.pow_pos_nonneg; lia).
  assert (Z.land v (Z.lxor (2 ^ k0 - 1) (2 ^ k1 - 1)) = (v / 2 ^ k0) mod 2 ^ (k1 - k0) * 2 ^ k0) as ->.
  { rewrite !mask_pow by lia. apply Z.bits_inj'. intros i Hi. rewrite Z.land_spec, Z.lxor_spec.
    rewrite !Z.testbit_ones_nonneg by lia. destruct (Z.lt_ge_cases i k0).
    - rewrite Z.mul_pow2_bits_low by lia. zdec. apply andb_false_r.
    - rewrite Z.mul_pow2_bits by lia. destruct (Z.lt_ge_cases i k1).
      + rewrite Z.mod_pow2_bits_low, Z.div_pow2_bits by lia. zdec. rewrite andb_true_r. f_equal. lia.
      + rewrite Z.mod_pow2_bits_high by lia. zdec. apply andb_false_r. }
  destruct (Z.eqb_spec ((v / 2 ^ k0) mod 2 ^ (k1 - k0)) 0) as [->|Hn]; [done|].
  apply Z.eqb_neq. nia.
Qed.

Lemma mod_split v k0 k1 : 0 <= k0 <= k1 ->
  v mod 2 ^ k1 = v mod 2 ^ k0 + 2 ^ k0 * ((v / 2 ^ k0) mod 2 ^ (k1 - k0)).
Proof.
  intros Hk. replace (2 ^ k1) with (2 ^ k0 * 2 ^ (k1 - k0))
    by (rewrite <- Z.pow_add_r by lia; f_equal; lia).
  apply Z.rem_mul_r; pose proof (Z.pow_pos_nonneg 2 k0); pose proof (Z.pow_pos_nonneg 2 (k1 - k0)); lia.
Qed.

Section Large.
Context {K V : Type}.

Lemma scan_large_ok fuel (t1 : list (list (K * V))) k0 k1 : forall v,
  0 <= k0 <= k1 -> k1 <= 30 -> zlen t1 = 2 ^ k1 -> u64 v ->
  2 ^ (k1 - k0) - (v / 2 ^ k0) mod 2 ^ (k1 - k0) <= Z.of_nat fuel ->
  exists es v', scan_large fuel t1 (2 ^ k0 - 1) (2 ^ k1 - 1) v = Some (es, v') /\
    u64 v' /\ v' mod 2 ^ k0 = v mod 2 ^ k0 /\
    forall h b e, h mod 2 ^ k0 = v mod 2 ^ k0 ->
      (v / 2 ^ k0) mod 2 ^ (k1 - k0) <= (h / 2 ^ k0) mod 2 ^ (k1 - k0) ->
      t1 !! Z.to_nat (h mod 2 ^ k1) = Some b -> e ∈ b -> e ∈ es.
Proof.
  induction fuel as [|f IH]; intros v Hk H30 Hl Hv Hf.
  - pose proof (Z.mod_pos_bound (v / 2 ^ k0) (2 ^ (k1 - k0))). lia.
  - assert (0 < 2 ^ k0) by (apply Z.pow_pos_nonneg; lia).
    assert (0 < 2 ^ k1) by (apply Z.pow_pos_nonneg; lia).
    assert (0 < 2 ^ (k1 - k0)) by (apply Z.pow_pos_nonneg; lia).
    assert (0 < 2 ^ (64 - k0)) by (apply Z.pow_pos_nonneg; lia).
    cbn [scan_large]. rewrite (land_mask v k1) by lia.
    pose proof (Z.mod_pos_bound v (2 ^ k1) ltac:(lia)) as Hr.
    destruct (rd_is_Some t1 (v mod 2 ^ k1)) as [b Hb]; [lia|]. rewrite Hb. cbn [mbind option_bind].
    fold (bump (2 ^ k0 - 1) v).
    pose proof (bump_ok v k0 Hv ltac:(lia)) as Eb. set (v1 := bump (2 ^ k0 - 1) v) in *.
    pose proof (Z.mod_pos_bound v (2 ^ k0) ltac:(lia)) as Hlow.
    pose proof (Z.mod_pos_bound (v / 2 ^ k0 + 1) (2 ^ (64 - k0)) ltac:(lia)) as Hy.
    assert (v1 / 2 ^ k0 = (v / 2 ^ k0 + 1) mod 2 ^ (64 - k0)) as Ed.
    { rewrite Eb, Z.div_add_l, (Z.div_small (v mod 2 ^ k0)) by lia. lia. }
    assert (v1 mod 2 ^ k0 = v mod 2 ^ k0) as Em.
    { rewrite Eb, Z.add_comm, Z_mod_plus_full. by apply Z.mod_small. }
    assert (u64 v1) as Hv1.
    { unfold u64. assert (2 ^ 64 = 2 ^ (64 - k0) * 2 ^ k0) as ->
        by (rewrite <- Z.pow_add_r by lia; f_equal; lia). nia. }
    assert ((v1 / 2 ^ k0) mod 2 ^ (k1 - k0) = (v / 2 ^ k0 + 1) mod 2 ^ (k1 - k0)) as Ej.
    { rewrite Ed. replace (2 ^ (64 - k0)) with (2 ^ (k1 - k0) * 2 ^ (64 - k1))
        by (rewrite <- Z.pow_add_r by lia; f_equal; lia).
      rewrite Z.rem_mul_r, (Z.mul_comm (2 ^ (k1 - k0))), Z_mod_plus_full
        by (pose proof (Z.pow_pos_nonneg 2 (64 - k1)); lia). apply Z.mod_mod. lia. }
    set (j := (v / 2 ^ k0) mod 2 ^ (k1 - k0)) in *.
    pose proof (Z.mod_pos_bound (v / 2 ^ k0) (2 ^ (k1 - k0)) ltac:(lia)) as Hj. fold j in Hj.
    assert ((v / 2 ^ k0 + 1) mod 2 ^ (k1 - k0) = if j + 1 =? 2 ^ (k1 - k0) then 0 else j + 1) as Ej'.
    { rewrite <- Zplus_mod_idemp_l. fold j.
      destruct (Z.eqb_spec (j + 1) (2 ^ (k1 - k0))) as [->|]; [apply Z.mod_same; lia|].
      apply Z.mod_small. lia. }
    rewrite Ej' in Ej. rewrite diff_mask_zero, Ej by lia.
    assert (forall h b' e, h mod 2 ^ k0 = v mod 2 ^ k0 -> j = (h / 2 ^ k0) mod 2 ^ (k1 - k0) ->
      t1 !! Z.to_nat (h mod 2 ^ k1) = Some b' -> e ∈ b' -> e ∈ b) as Hhere.
    { intros h b' e Hh Hjh Hb' He. rewrite (mod_split h k0 k1), Hh, <- Hjh in Hb' by lia.
      unfold j in Hb'. rewrite <- (mod_split v k0 k1) in Hb' by lia. apply rd_lookup in Hb. congruence. }
    destruct (Z.eqb_spec (j + 1) (2 ^ (k1 - k0))) as [Elast|Enl].
    + exists b, v1. split_and!; auto. intros h b' e Hh Hjh. apply Hhere; [done|].
      pose proof (Z.mod_pos_bound (h / 2 ^ k0) (2 ^ (k1 - k0)) ltac:(lia)). lia.
    + replace (j + 1 =? 0) with false by (symmetry; apply Z.eqb_neq; lia).
      destruct (IH v1) as (es & v' & -> & Hv' & Em' & Hall); auto; [rewrite Ej; lia|].
      cbn [mbind option_bind]. exists (b ++ es), v'. split_and!; auto; [by rewrite Em'|].
      intros h b' e Hh Hjh Hb' He. apply elem_of_app.
      destruct (Z.eq_dec j ((h / 2 ^ k0) mod 2 ^ (k1 - k0))); [left; by eapply Hhere|].
      right. apply (Hall h b'); auto; [by rewrite Em|rewrite Ej; lia].
Qed.

End Large.
End LargeFacts.

(** ** One call, and a whole iteration *)

(** The number of buckets of the smaller table in use. *)
Definition min_size {K V} (d : dict K V) : Z :=
  if dictIsRehashing d then Z.min (size (ht0 d)) (size (ht1 d)) else size (ht0 d).

(** The calls of one iteration, each on the dictionary as it is at that time. *)
Fixpoint scan_all {K V} (ds : list (dict K V)) (v : Z) : option (list (K * V) * Z) :=
  match ds with
  | [] => Some ([], v)
  | d :: ds => '(es, v) ← dictScan d v; '(es', v) ← scan_all ds v; Some (es ++ es', v)
  end.

(** From one call to the next the smaller table never shrinks. *)
Fixpoint never_shrinks {K V} (lo : Z) (ds : list (dict K V)) : Prop :=
  match ds with
  | [] => True
  | d :: ds => lo <= min_size d /\ never_shrinks (min_size d) ds
  end.

#[local] Opaque rev.

Module ScanFacts.
Import RevFacts LargeFacts.
Section Facts.
Context {K V C : Type} `{Countable C} `{DictTypeOk K V C}.

Lemma hash_u64 (k : K) : u64 (hashFunction k).
Proof. pose proof (hash_u32 (V := V) (C := C) k). unfold in_u, u64 in *. lia. Qed.

(** The entries with the low bits of the cursor in an allocated table are in the
    bucket the cursor selects. *)
Lemma bucket_of (ht : dictht K V) k e : alloc ht k -> e ∈ concat (table ht) ->
  exists b, table ht !! Z.to_nat (hashFunction (fst e) mod 2 ^ k) = Some b /\ e ∈ b.
Proof.
  intros [Hk Hs Hl Hm Hu Hp] He. apply in_concat_inv in He as (i & b & Hi & He).
  pose proof (Hp i b e Hi He) as Hpl. rewrite Hm, land_mask in Hpl by lia.
  exists b. by rewrite Hpl, Nat2Z.id.
Qed.

Lemma scan_bucket (ht : dictht K V) k v : alloc ht k ->
  exists b, rd (table ht) (Z.land v (sizemask ht)) = Some b /\
    forall e, e ∈ concat (table ht) -> hashFunction (fst e) mod 2 ^ k = v mod 2 ^ k -> e ∈ b.
Proof.
  intros Ha. pose proof Ha as [Hk Hs Hl Hm Hu Hp]. rewrite Hm, land_mask by lia.
  pose proof (Z.mod_pos_bound v (2 ^ k) ltac:(lia)).
  destruct (rd_is_Some (table ht) (v mod 2 ^ k)) as [b Hb]; [lia|]. exists b. split; [done|].
  intros e He Hh. destruct (bucket_of ht k e Ha He) as (b' & Hb' & He'). rewrite Hh in Hb'.
  apply rd_lookup in Hb. congruence.
Qed.

(** What a call emits and the cursor it returns. *)
Definition scan_post (d : dict K V) (v : Z) (es : list (K * V)) (v' : Z) : Prop :=
  exists k, min_size d = 2 ^ k /\ 2 <= k <= 30 /\ u64 v' /\
    rev v' = ((rev v / 2 ^ (64 - k) + 1) * 2 ^ (64 - k)) mod 2 ^ 64 /\
    (v < 2 ^ k -> forall e, e ∈ entries d ->
       rev (hashFunction (fst e)) / 2 ^ (64 - k) = rev v / 2 ^ (64 - k) -> e ∈ es).

(** Two tables being rehashed, the smaller one first. *)
Lemma scan_two (t0 t1 : dictht K V) k0 k1 v : alloc t0 k0 -> alloc t1 k1 -> k0 <= k1 -> u64 v ->
  exists de es v1, rd (table t0) (Z.land v (sizemask t0)) = Some de /\
    scan_large (length (table t1)) (table t1) (sizemask t0) (sizemask t1) v = Some (es, v1) /\
    u64 v1 /\ v1 mod 2 ^ k0 = v mod 2 ^ k0 /\
    (v < 2 ^ k0 -> forall e, e ∈ concat (table t0) ++ concat (table t1) ->
       hashFunction (fst e) mod 2 ^ k0 = v mod 2 ^ k0 -> e ∈ de ++ es).
Proof.
  intros Ha0 Ha1 Hle Hv. destruct (scan_bucket t0 k0 v Ha0) as (de & Hde & Hin).
  pose proof (al_k _ _ Ha0). pose proof (al_k _ _ Ha1) as Hk1. pose proof (al_len _ _ Ha1) as Hl1.
  destruct (scan_large_ok (length (table t1)) (table t1) k0 k1 v) as (es & v1 & E & Hv1 & Em & Hall);
    try lia; auto.
  { change (Z.of_nat (length (table t1))) with (zlen (table t1)). rewrite Hl1.
    pose proof (Z.mod_pos_bound (v / 2 ^ k0) (2 ^ (k1 - k0))).
    pose proof (Z.pow_le_mono_r 2 (k1 - k0) k1).
    pose proof (Z.pow_pos_nonneg 2 (k1 - k0)). lia. }
  exists de, es, v1. rewrite (al_mask _ _ Ha0) at 2. rewrite (al_mask _ _ Ha1). split_and!; auto.
  intros Hlt e He Hh. apply elem_of_app. apply elem_of_app in He as [He|He]; [left; by apply Hin|right].
  destruct (bucket_of t1 k1 e Ha1 He) as (b & Hb & Heb). eapply Hall; [exact Hh| |exact Hb|done].
  unfold u64 in Hv. rewrite (Z.div_small v) by lia. rewrite Z.mod_0_l by lia.
  apply Z.mod_pos_bound, Z.pow_pos_nonneg; lia.
Qed.

Lemma finish_ok (d : dict K V) v v1 k es : min_size d = 2 ^ k -> 2 <= k <= 30 -> u64 v -> u64 v1 ->
  v1 mod 2 ^ k = v mod 2 ^ k ->
  (v < 2 ^ k -> forall e, e ∈ entries d -> hashFunction (fst e) mod 2 ^ k = v mod 2 ^ k -> e ∈ es) ->
  scan_post d v es (next_cursor (2 ^ k - 1) v1).
Proof.
  intros Hm Hk Hv Hv1 Em Hin. destruct (next_cursor_ok v1 k Hv1) as [Hu E]; [lia|].
  exists k. split_and!; auto; try lia.
  - rewrite E. apply (rev_prefix v1 v k) in Em; auto; [by rewrite Em|lia].
  - intros Hlt e He Hr. apply Hin; auto. apply rev_prefix; auto using hash_u64. lia.
Qed.

Lemma scan_ok (d : dict K V) v : wf d -> zlen (entries d) <= DICT_LIMIT -> entries d <> [] -> u64 v ->
  exists es v', dictScan d v = Some (es, v') /\ scan_post d v es v'.
Proof.
  intros Hw Hl Hne Hv. unfold dictScan. destruct (used_bounds d Hw) as (Hu0 & Hu1 & Hu).
  assert (zlen (entries d) <> 0) as Hz by (intros E; by apply zlen_0_inv in E).
  unfold dictSize, DICT_LIMIT in *. rewrite u64_small by lia.
  replace (used (ht0 d) + used (ht1 d) =? 0) with false by (symmetry; apply Z.eqb_neq; lia).
  destruct (dictIsRehashing d) eqn:Er; cbn [negb].
  - apply is_rehashing_spec in Er as Er'.
    destruct Hw as [_ [(? & _)|(k0 & k1 & Ha0 & Ha1 & _)]]; [done|].
    pose proof (al_size _ _ Ha0) as Es0. pose proof (al_size _ _ Ha1) as Es1.
    pose proof (al_k _ _ Ha0) as Hk0. pose proof (al_k _ _ Ha1) as Hk1.
    destruct (Z.ltb_spec (size (ht1 d)) (size (ht0 d))) as [Hlt|Hge]; cbv beta iota.
    + assert (k1 <= k0) as Hk.
      { destruct (Z.le_gt_cases k1 k0); [done|].
        pose proof (Z.pow_lt_mono_r 2 k0 k1). lia. }
      destruct (scan_two (ht1 d) (ht0 d) k1 k0 v Ha1 Ha0 Hk Hv) as (de & es & v1 & -> & E & Hv1 & Em & Hin).
      cbn [mbind option_bind]. rewrite E. cbn [mbind option_bind]. 
      exists (de ++ es), (next_cursor (sizemask (ht1 d)) v1). split; [unfold next_cursor; reflexivity|].
      rewrite (al_mask _ _ Ha1). apply (finish_ok d v v1 k1); auto.
      * unfold min_size. rewrite Er. lia.
      * intros Hvk e He. apply Hin; [done|]. unfold entries in He.
        apply elem_of_app in He. apply elem_of_app. tauto.
    + assert (k0 <= k1) as Hk.
      { destruct (Z.le_gt_cases k0 k1); [done|].
        pose proof (Z.pow_lt_mono_r 2 k1 k0). lia. }
      destruct (scan_two (ht0 d) (ht1 d) k0 k1 v Ha0 Ha1 Hk Hv) as (de & es & v1 & -> & E & Hv1 & Em & Hin).
      cbn [mbind option_bind]. rewrite E. cbn [mbind option_bind]. 
      exists (de ++ es), (next_cursor (sizemask (ht0 d)) v1). split; [unfold next_cursor; reflexivity|].
      rewrite (al_mask _ _ Ha0). apply (finish_ok d v v1 k0); auto.
      unfold min_size. rewrite Er. lia.
  - assert (reset (ht1 d) /\ exists k, alloc (ht0 d) k) as [Hr1 [k Ha]].
    { destruct Hw as [_ [(_ & Hr1 & [Hr0|?])|(? & ? & _ & _ & ? & _)]]; auto.
      - exfalso. apply Hne. unfold entries. by rewrite Hr0, Hr1.
      - unfold dictIsRehashing in Er. bool_to_prop. lia. }
    destruct (scan_bucket (ht0 d) k v Ha) as (b & -> & Hin). cbn [mbind option_bind].
    exists b, (next_cursor (sizemask (ht0 d)) v). split; [unfold next_cursor; reflexivity|]. rewrite (al_mask _ _ Ha). apply (finish_ok d v v k); auto.
    + unfold min_size. rewrite Er. apply (al_size _ _ Ha).
    + apply (al_k _ _ Ha).
    + intros _ e He. apply Hin. unfold entries in He. rewrite Hr1 in He.
      cbn [table _dictReset concat] in He. by rewrite app_nil_r in He.
Qed.

(** The cursor returned has no bits outside the smaller mask. *)
Lemma rev_small v k : u64 v -> 0 <= k <= 64 -> rev v mod 2 ^ (64 - k) = 0 -> v < 2 ^ k.
Proof.
  intros Hv Hk E. replace v with (v mod 2 ^ k); [apply Z.mod_pos_bound, Z.pow_pos_nonneg; lia|].
  apply Z.bits_inj'. intros i Hi. destruct (Z.lt_ge_cases i k).
  - by rewrite Z.mod_pow2_bits_low by lia.
  - rewrite Z.mod_pow2_bits_high by lia. destruct (Z.lt_ge_cases i 64); [|by rewrite u64_high].
    rewrite <- (rev_rev v), rev_testbit by (auto using rev_u64; lia).
    rewrite <- (Z.mod_pow2_bits_low (rev v) (64 - k)) by lia. by rewrite E, Z.bits_0.
Qed.

Lemma scan_post_next (d : dict K V) v es v' : u64 v -> scan_post d v es v' ->
  v' < min_size d /\
  (rev v' = 0 \/ exists k, min_size d = 2 ^ k /\ 2 <= k <= 30 /\
     rev v' = (rev v / 2 ^ (64 - k) + 1) * 2 ^ (64 - k)).
Proof.
  intros Hv (k & Hm & Hk & Hv' & Hr & _). rewrite Hm.
  set (W := 64 - k) in *. assert (0 < 2 ^ W) by (apply Z.pow_pos_nonneg; lia).
  assert (2 ^ 64 = 2 ^ k * 2 ^ W) as E64 by (rewrite <- Z.pow_add_r by lia; f_equal; lia).
  assert (0 < 2 ^ k) by (apply Z.pow_pos_nonneg; lia).
  pose proof (rev_u64 v Hv) as Hrv. unfold u64 in Hrv.
  assert (0 <= rev v / 2 ^ W < 2 ^ k) as Hq
    by (split; [apply Z.div_pos; lia|apply Z.div_lt_upper_bound; lia]).
  split.
  - apply rev_small; [done|lia|]. fold W. rewrite Hr, E64, Zmult_mod_distr_r. apply Z.mod_mul. lia.
  - rewrite E64, Zmult_mod_distr_r in Hr. destruct (Z.eq_dec (rev v / 2 ^ W + 1) (2 ^ k)) as [E|E].
    + left. by rewrite Hr, E, Z.mod_same by lia.
    + right. exists k. fold W. split_and!; auto; try lia. rewrite Hr, Z.mod_small by lia. done.
Qed.

(** [c] is a key of the dictionary. *)
Definition has_key (c : C) (es : list (K * V)) : Prop := exists e, e ∈ es /\ canon (fst e) = c.

Definition scannable (d : dict K V) : Prop := wf d /\ zlen (entries d) <= DICT_LIMIT.

Lemma scan_any (d : dict K V) v : scannable d -> u64 v ->
  exists es v', dictScan d v = Some (es, v') /\ u64 v' /\
    (entries d = [] /\ v' = 0 \/ scan_post d v es v').
Proof.
  intros [Hw Hl] Hv. destruct (entries d) as [|e0 es0] eqn:Ee.
  - exists [], 0. split_and!; [|done|auto]. destruct (used_bounds d Hw) as (Hu0 & Hu1 & Hu).
    rewrite Ee in Hu. change (zlen (@nil (K * V))) with 0 in Hu.
    unfold dictScan, dictSize. by replace (used (ht0 d) + used (ht1 d)) with 0 by lia.
  - rewrite <- Ee in Hl. destruct (scan_ok d v Hw Hl) as (es & v' & E & Hp); [congruence|done|].
    exists es, v'. split_and!; auto. by destruct Hp as (k & _ & _ & Hu & _).
Qed.

(** The intervals: what is still ahead of the cursor is emitted before it is 0 again. *)
Lemma scan_all_ok c ds : forall v lo,
  Forall scannable ds -> u64 v -> (v = 0 \/ v < lo) -> never_shrinks lo ds ->
  Forall (fun d => has_key c (entries d)) ds ->
  exists out v', scan_all ds v = Some (out, v') /\ u64 v' /\
    (ds <> [] -> v' = 0 ->
     (forall k, canon k = c -> rev v <= rev (hashFunction k)) -> has_key c out).
Proof.
  induction ds as [|d ds IH]; intros v lo Hsc Hv Hlo Hns Hkey; cbn [scan_all].
  - exists [], v. done.
  - inversion Hsc as [|?? Hd Hds]; subst. inversion Hkey as [|?? Hk Hks]; subst.
    destruct Hns as [Hge Hns]. destruct Hk as (e & He & Hc).
    destruct (scan_any d v Hd Hv) as (es & v1 & -> & Hv1 & Hp). cbn [mbind option_bind].
    destruct Hp as [[Hnil _]|Hp]; [rewrite Hnil in He; set_solver|].
    destruct (scan_post_next d v es v1 Hv Hp) as [Hsmall Hnext].
    destruct (IH v1 (min_size d) Hds Hv1 (or_intror Hsmall) Hns Hks) as (out & v' & E & Hv' & Hout).
    rewrite E. cbn [mbind option_bind]. exists (es ++ out), v'. split_and!; auto. intros _ H0' Hahead.
    destruct Hp as (k & Hm & Hk & _ & Hr & Hin).
    assert (v < 2 ^ k) as Hvk.
    { rewrite Hm in Hge. destruct Hlo as [->|]; [apply Z.pow_pos_nonneg; lia|lia]. }
    specialize (Hahead (fst e) Hc) as Hge'. pose proof (hash_u64 (fst e)) as Hhu.
    pose proof (rev_u64 _ Hhu) as Hru. unfold u64 in Hru.
    set (r := rev (hashFunction (fst e))) in *. set (W := 64 - k) in *.
    assert (0 < 2 ^ W) by (apply Z.pow_pos_nonneg; lia).
    assert (rev v / 2 ^ W <= r / 2 ^ W) as Hq by (apply Z.div_le_mono; lia).
    destruct (Z.eq_dec (r / 2 ^ W) (rev v / 2 ^ W)) as [Eq|Hne].
    { exists e. split; [|done]. apply elem_of_app. left. apply Hin; auto. }
    assert ((rev v / 2 ^ W + 1) * 2 ^ W <= r) as Hstep
      by (pose proof (Z.mul_div_le r (2 ^ W)); nia).
    rewrite Z.mod_small in Hr.
    2: { pose proof (rev_u64 v Hv) as Hrv. unfold u64 in Hrv.
         assert (0 <= rev v / 2 ^ W) by (apply Z.div_pos; lia). nia. }
    assert (0 < rev v1) as Hpos.
    { rewrite Hr. pose proof (rev_u64 v Hv) as Hrv. unfold u64 in Hrv.
      assert (0 <= rev v / 2 ^ W) by (apply Z.div_pos; lia). nia. }
    destruct Hout as (e' & He' & Hc'); auto.
    { intros ->. injection E as _ E1. rewrite E1, H0', rev_0 in Hpos. lia. }
    { intros k' Hk'. rewrite (hash_canon (V := V) (C := C) k' (fst e)) by congruence. fold r. lia. }
    exists e'. split; [|done]. apply elem_of_app. by right.
Qed.

(** Every call that does not end the iteration advances by at least the interval of
    the largest of the tables. *)
Lemma scan_progress K0 (ds : list (dict K V)) : 0 <= K0 <= 64 -> forall v,
  Forall scannable ds -> Forall (fun d => min_size d <= 2 ^ K0) ds -> u64 v ->
  2 ^ K0 <= rev v / 2 ^ (64 - K0) + zlen ds ->
  exists n out, (0 < n <= length ds)%nat /\ scan_all (take n ds) v = Some (out, 0).
Proof.
  intros HK. set (W0 := 64 - K0). assert (0 < 2 ^ W0) by (apply Z.pow_pos_nonneg; lia).
  induction ds as [|d ds IH]; intros v Hsc Hms Hv Hn.
  - exfalso. change (zlen (@nil (dict K V))) with 0 in Hn. pose proof (rev_u64 v Hv) as Hr. unfold u64 in Hr.
    assert (2 ^ 64 = 2 ^ W0 * 2 ^ K0) by (rewrite <- Z.pow_add_r by lia; f_equal; lia).
    assert (rev v / 2 ^ W0 < 2 ^ K0) by (apply Z.div_lt_upper_bound; lia). lia.
  - inversion Hsc as [|?? Hd Hds]; subst. inversion Hms as [|?? Hm Hmss]; subst. rewrite zlen_cons in Hn.
    destruct (scan_any d v Hd Hv) as (es & v1 & E & Hv1 & Hp).
    destruct (Z.eq_dec v1 0) as [->|Hv10].
    { exists 1%nat, (es ++ []). split; [cbn [length]; lia|]. cbn [take scan_all]. by rewrite E. }
    destruct Hp as [[_ ?]|Hp]; [done|].
    destruct (scan_post_next d v es v1 Hv Hp) as [_ [Hr0|(k & Emin & Hk & Hr)]].
    { exfalso. apply Hv10. rewrite <- (rev_rev v1 Hv1), Hr0. apply rev_0. }
    assert (k <= K0) as HkK.
    { destruct (Z.le_gt_cases k K0); [done|]. pose proof (Z.pow_lt_mono_r 2 K0 k). lia. }
    destruct (IH v1 Hds Hmss Hv1) as (n & out & Hn' & En).
    + set (W := 64 - k) in *. assert (2 ^ W = 2 ^ (K0 - k) * 2 ^ W0) as EW
        by (rewrite <- Z.pow_add_r by lia; f_equal; lia).
      assert (0 < 2 ^ (K0 - k)) by (apply Z.pow_pos_nonneg; lia).
      rewrite Hr, EW, (assoc_L Z.mul), Z.div_mul by lia.
      assert (rev v / 2 ^ W0 < (rev v / (2 ^ (K0 - k) * 2 ^ W0) + 1) * 2 ^ (K0 - k)); [|lia].
      rewrite (Z.mul_comm (2 ^ (K0 - k)) (2 ^ W0)), <- Z.div_div by lia.
      pose proof (Z.mul_succ_div_gt (rev v / 2 ^ W0) (2 ^ (K0 - k))). lia.
    + exists (S n), (es ++ out). split; [cbn [length]; lia|]. cbn [take scan_all]. rewrite E.
      cbn [mbind option_bind]. by rewrite En.
Qed.

End Facts.
End ScanFacts.

Import RevFacts ScanFacts Demo.

(** C25. The guarantee of dictScan, for iterations during which the smaller table
    never shrinks (the dictionary may grow, finish or start rehashing, and change
    in any other way between calls): the calls stay inside the tables, and when an
    iteration started with the cursor 0 comes back to 0, every key that was in the
    dictionary at all its calls has been passed to the callback. *)
Theorem dictScan_complete {K V C} `{Countable C} `{DictTypeOk K V C} (ds : list (dict K V)) (c : C) :
  Forall scannable ds -> ds <> [] -> never_shrinks 0 ds ->
  Forall (fun d => has_key c (entries d)) ds ->
  exists out v', scan_all ds 0 = Some (out, v') /\ 0 <= v' < 2 ^ 64 /\ (v' = 0 -> has_key c out).
Proof.
  intros Hsc Hne Hns Hkey. assert (u64 0) as Hz by done.
  destruct (scan_all_ok c ds 0 0 Hsc Hz (or_introl eq_refl) Hns Hkey) as (out & v' & E & Hv' & Hout).
  exists out, v'. split_and!; try apply Hv'; auto. intros Hv0. apply Hout; auto.
  intros k Hk. rewrite rev_0. apply rev_u64, (hash_u64 (C := C)).
Qed.

Lemma dictScan_complete_witness :
  exists out v', scan_all [growing; growing; growing; growing] 0 = Some (out, v') /\
    0 <= v' < 2 ^ 64 /\ (v' = 0 -> has_key 5 out).
Proof.
  assert (scannable (C := Z) growing) as Hs by (split; [exact growing_wf|by vm_compute]).
  assert (has_key (C := Z) 5 (entries growing)) as Hk.
  { exists (5, 5). split; [|done]. vm_compute. repeat constructor. }
  apply (dictScan_complete (C := Z) [growing; growing; growing; growing] 5);
    [repeat (apply Forall_cons_2; [assumption|]); apply Forall_nil_2|done|by vm_compute|
     repeat (apply Forall_cons_2; [assumption|]); apply Forall_nil_2].
Defined.

(** An iteration ends: whatever happens to the dictionary between the calls,
    the cursor is back at 0 after at most as many of them as the smaller table has
    buckets at its largest. *)
Theorem dictScan_terminates {K V C} `{Countable C} `{DictTypeOk K V C} K0 (ds : list (dict K V)) :
  0 <= K0 <= 64 -> Forall scannable ds -> Forall (fun d => min_size d <= 2 ^ K0) ds ->
  zlen ds = 2 ^ K0 ->
  exists n out, (0 < n <= length ds)%nat /\ scan_all (take n ds) 0 = Some (out, 0).
Proof.
  intros HK Hsc Hms Hl. apply (scan_progress K0); [done..|]. rewrite rev_0, Hl.
  rewrite Z.div_0_l by (pose proof (Z.pow_pos_nonneg 2 (64 - K0)); lia). lia.
Qed.

Lemma dictScan_terminates_witness :
  exists n out, (0 < n <= 4)%nat /\
    scan_all (take n [growing; growing; growing; growing]) 0 = Some (out, 0).
Proof.
  assert (scannable (C := Z) growing) as Hs by (split; [exact growing_wf|by vm_compute]).
  apply (dictScan_terminates (C := Z) 2 [growing; growing; growing; growing]);
    [lia|repeat (apply Forall_cons_2; [assumption|]); apply Forall_nil_2|
     repeat (apply Forall_cons_2; [by vm_compute|]); apply Forall_nil_2|by vm_compute].
Defined.

(** Sixteen keys in 32 buckets, at rest. *)
Definition fill : list (op Z Z) :=
  map (fun k => OAdd (Z.of_nat k) 0) (seq 0 16) ++ [OExpand 32; ORehash 100].
(** Two of them kept, and the table shrunk to 4 buckets as serverCron does. *)
Definition shrink : list (op Z Z) :=
  map ODelete [0; 1; 2; 3; 4; 5; 6; 7; 8; 9; 10; 11; 13; 14] ++ [OResize].

(** The guarantee does not survive a shrinking: after the first call on 32
    buckets, fourteen of sixteen keys are deleted and the table is resized to 4
    buckets; the iteration then returns to 0 without ever passing the key 12 to the
    callback, although it was in the dictionary at every call.  The loop over the
    larger table increments the cursor in the ordinary order and starts from its
    high bits, so it skips the buckets 4, 8 and 12. *)
Theorem dictScan_misses_key :
  exists d1 d2 rs1 rs2 out,
    exec_all 0 fill (dictCreate, true) = Some (d1, true, rs1) /\
    exec_all 0 shrink (d1, true) = Some (d2, true, rs2) /\
    has_key (C := Z) 12 (entries d1) /\ has_key (C := Z) 12 (entries d2) /\
    scan_all [d1; d2; d2; d2; d2] 0 = Some (out, 0) /\ ~ has_key (C := Z) 12 out.
Proof.
  destruct (exec_all 0 fill (dictCreate, true)) as [[[d1 c1] rs1]|] eqn:E1; [|by vm_compute in E1].
  destruct (exec_all 0 shrink (d1, true)) as [[[d2 c2] rs2]|] eqn:E2;
    vm_compute in E1; injection E1 as <- <- <-; [|by vm_compute in E2].
  vm_compute in E2. injection E2 as <- <- <-. do 5 eexists.
  split; [vm_compute; reflexivity|]. split; [vm_compute; reflexivity|].
  split; [exists (12, 0); split; [vm_compute; repeat constructor|done]|].
  split; [exists (12, 0); split; [vm_compute; repeat constructor|done]|].
  split; [vm_compute; reflexivity|]. intros (e & He & Hc).
  repeat (apply elem_of_cons in He as [->|He]; [done|]). set_solver.
Qed.
