(* ===== verification/Ziplist.v ===== *)
(** * ziplist.c: lists of strings and integers in one allocation

    The list is the allocated bytes; a pointer into it is its offset.  Each entry
    stores the length of the one before it in 1 or 5 bytes, so an insertion or a
    deletion may have to widen the fields of the entries that follow (the cascade).
    The multi-byte fields go through the conversions of endianconv.h. *)

From S2P Require Import Prelude Endian Util.

Definition ZIP_END : Z := 255.
Definition ZIP_BIGLEN : Z := 254.
Definition ZIP_STR_MASK : Z := 0xc0.
Definition ZIP_STR_06B : Z := 0x00.
Definition ZIP_STR_14B : Z := 0x40.
Definition ZIP_STR_32B : Z := 0x80.
Definition ZIP_INT_16B : Z := 0xc0.
Definition ZIP_INT_32B : Z := 0xd0.
Definition ZIP_INT_64B : Z := 0xe0.
Definition ZIP_INT_24B : Z := 0xf0.
Definition ZIP_INT_8B : Z := 0xfe.
Definition ZIP_INT_IMM_MASK : Z := 0x0f.
Definition ZIP_INT_IMM_MIN : Z := 0xf1.
Definition ZIP_INT_IMM_MAX : Z := 0xfd.
Definition INT24_MAX : Z := 0x7fffff.
Definition INT24_MIN : Z := - INT24_MAX - 1.
Definition ZIPLIST_HEADER_SIZE : Z := 10.
Definition UINT16_MAX : Z := 65535.

Definition ZIP_IS_STR (enc : Z) : bool := Z.land enc ZIP_STR_MASK <? ZIP_STR_MASK.

(** ZIP_ENTRY_ENCODING of the first byte [c]. *)
Definition ZIP_ENTRY_ENCODING (c : Z) : Z :=
  if c <? ZIP_STR_MASK then Z.land c ZIP_STR_MASK else c.

Definition zipIntSize (encoding : Z) : Z :=
  if encoding =? ZIP_INT_8B then 1
  else if encoding =? ZIP_INT_16B then 2
  else if encoding =? ZIP_INT_24B then 3
  else if encoding =? ZIP_INT_32B then 4
  else if encoding =? ZIP_INT_64B then 8
  else 0.

(** The bytes zipEncodeLength puts in its buffer. *)
Definition zipEncodeLength_buf (encoding rawlen : Z) : list Z :=
  if ZIP_IS_STR encoding then
    if rawlen <=? 0x3f then [Z.lor ZIP_STR_06B rawlen]
    else if rawlen <=? 0x3fff then
      [Z.lor ZIP_STR_14B (Z.land (Z.shiftr rawlen 8) 0x3f); Z.land rawlen 0xff]
    else
      [ZIP_STR_32B; Z.land (Z.shiftr rawlen 24) 0xff; Z.land (Z.shiftr rawlen 16) 0xff;
       Z.land (Z.shiftr rawlen 8) 0xff; Z.land rawlen 0xff]
  else [encoding].

(** With a NULL destination only the size is computed. *)
Definition zipEncodeLength_size (encoding rawlen : Z) : Z :=
  zlen (zipEncodeLength_buf encoding rawlen).

Definition zipEncodeLength (zl : list Z) (p encoding rawlen : Z) : option (list Z * Z) :=
  let buf := zipEncodeLength_buf encoding rawlen in
  zl ← wrn zl p buf; Some (zl, zlen buf).

(** ZIP_DECODE_LENGTH: the encoding, the size of the length field, the length. *)
Definition ZIP_DECODE_LENGTH (zl : list Z) (ptr : Z) : option (Z * Z * Z) :=
  c ← rd zl ptr;
  let encoding := ZIP_ENTRY_ENCODING c in
  if encoding <? ZIP_STR_MASK then
    if encoding =? ZIP_STR_06B then Some (encoding, 1, Z.land c 0x3f)
    else if encoding =? ZIP_STR_14B then
      c1 ← rd zl (ptr + 1);
      Some (encoding, 2, Z.lor (Z.shiftl (Z.land c 0x3f) 8) c1)
    else if encoding =? ZIP_STR_32B then
      c1 ← rd zl (ptr + 1);
      c2 ← rd zl (ptr + 2);
      c3 ← rd zl (ptr + 3);
      c4 ← rd zl (ptr + 4);
      Some (encoding, 5, uwrap 32 (Z.lor (Z.lor (Z.lor (Z.shiftl c1 24) (Z.shiftl c2 16))
                                                (Z.shiftl c3 8)) c4))
    else None
  else Some (encoding, 1, zipIntSize encoding).

Section Ziplist.
Context `{Host} (junk : nat -> Z).

(** The header fields, as the macros access them (raw values). *)
Definition ZIPLIST_BYTES (zl : list Z) : option Z := host_dec <$> rdn zl 0 4.
Definition ZIPLIST_TAIL_OFFSET (zl : list Z) : option Z := host_dec <$> rdn zl 4 4.
Definition ZIPLIST_LENGTH (zl : list Z) : option Z := host_dec <$> rdn zl 8 2.
Definition set_ZIPLIST_BYTES (zl : list Z) (v : Z) : option (list Z) := wrn zl 0 (host_enc 4 v).
Definition set_ZIPLIST_TAIL_OFFSET (zl : list Z) (v : Z) : option (list Z) := wrn zl 4 (host_enc 4 v).
Definition set_ZIPLIST_LENGTH (zl : list Z) (v : Z) : option (list Z) := wrn zl 8 (host_enc 2 v).

Definition ZIPLIST_ENTRY_HEAD : Z := ZIPLIST_HEADER_SIZE.
Definition ZIPLIST_ENTRY_TAIL (zl : list Z) : option Z :=
  t ← ZIPLIST_TAIL_OFFSET zl; Some (intrev32ifbe t).
Definition ZIPLIST_ENTRY_END (zl : list Z) : option Z :=
  b ← ZIPLIST_BYTES zl; Some (intrev32ifbe b - 1).

Definition ZIPLIST_INCR_LENGTH (zl : list Z) (incr : Z) : option (list Z) :=
  l ← ZIPLIST_LENGTH zl;
  if l <? UINT16_MAX
  then set_ZIPLIST_LENGTH zl (intrev16ifbe (uwrap 16 (intrev16ifbe l + incr)))
  else Some zl.

(** [ZIPLIST_TAIL_OFFSET(zl) = intrev32ifbe(intrev32ifbe(ZIPLIST_TAIL_OFFSET(zl))+d)] *)
Definition add_tail (zl : list Z) (d : Z) : option (list Z) :=
  t ← ZIPLIST_TAIL_OFFSET zl;
  set_ZIPLIST_TAIL_OFFSET zl (intrev32ifbe (uwrap 32 (intrev32ifbe t + d))).

Definition zipPrevEncodeLength_size (len : Z) : Z := if len <? ZIP_BIGLEN then 1 else 5.

(** [p[0] = ZIP_BIGLEN; memcpy(p+1,&len,4); memrev32ifbe(p+1)] *)
Definition zipPrevEncodeLengthForceLarge (zl : list Z) (p len : Z) : option (list Z) :=
  zl ← wr zl p ZIP_BIGLEN;
  zl ← wrn zl (p + 1) (host_enc 4 len);
  memrev32ifbe zl (p + 1).

Definition zipPrevEncodeLength (zl : list Z) (p len : Z) : option (list Z * Z) :=
  if len <? ZIP_BIGLEN then zl ← wr zl p (uwrap 8 len); Some (zl, 1)
  else zl ← zipPrevEncodeLengthForceLarge zl p len; Some (zl, 5).

Definition ZIP_DECODE_PREVLENSIZE (zl : list Z) (ptr : Z) : option Z :=
  c ← rd zl ptr; Some (if c <? ZIP_BIGLEN then 1 else 5).

(** ZIP_DECODE_PREVLEN: the size of the field and the length in it. *)
Definition ZIP_DECODE_PREVLEN (zl : list Z) (ptr : Z) : option (Z * Z) :=
  prevlensize ← ZIP_DECODE_PREVLENSIZE zl ptr;
  if prevlensize =? 1 then c ← rd zl ptr; Some (1, c)
  else
    v ← rdn zl (ptr + 1) 4;
    v ← memrev32ifbe v 0;
    Some (prevlensize, host_dec v).

Definition zipPrevLenByteDiff (zl : list Z) (p len : Z) : option Z :=
  prevlensize ← ZIP_DECODE_PREVLENSIZE zl p;
  Some (swrap 32 (uwrap 32 (zipPrevEncodeLength_size len - prevlensize))).

Definition zipRawEntryLength (zl : list Z) (p : Z) : option Z :=
  prevlensize ← ZIP_DECODE_PREVLENSIZE zl p;
  '(_, lensize, len) ← ZIP_DECODE_LENGTH zl (p + prevlensize);
  Some (uwrap 32 (prevlensize + lensize + len)).

(** [zipTryEncoding]: the value and its encoding when the string is an integer. *)
Definition zipTryEncoding (entry : list Z) (entrylen : Z) : option (option (Z * Z)) :=
  if (32 <=? entrylen) || (entrylen =? 0) then Some None else
  s ← rdn entry 0 entrylen;
  match Num.string2ll s with
  | None => Some None
  | Some value =>
      let encoding :=
        if (0 <=? value) && (value <=? 12) then ZIP_INT_IMM_MIN + value
        else if (-128 <=? value) && (value <=? 127) then ZIP_INT_8B
        else if (-32768 <=? value) && (value <=? 32767) then ZIP_INT_16B
        else if (INT24_MIN <=? value) && (value <=? INT24_MAX) then ZIP_INT_24B
        else if (-2147483648 <=? value) && (value <=? 2147483647) then ZIP_INT_32B
        else ZIP_INT_64B in
      Some (Some (value, encoding))
  end.

Definition zipSaveInteger (zl : list Z) (p value encoding : Z) : option (list Z) :=
  if encoding =? ZIP_INT_8B then wrn zl p (host_enc 1 value)
  else if encoding =? ZIP_INT_16B then zl ← wrn zl p (host_enc 2 value); memrev16ifbe zl p
  else if encoding =? ZIP_INT_24B then
    i32 ← memrev32ifbe (host_enc 4 (swrap 32 (Z.shiftl value 8))) 0;
    b ← rdn i32 1 3;
    wrn zl p b
  else if encoding =? ZIP_INT_32B then zl ← wrn zl p (host_enc 4 value); memrev32ifbe zl p
  else if encoding =? ZIP_INT_64B then zl ← wrn zl p (host_enc 8 value); memrev64ifbe zl p
  else if (ZIP_INT_IMM_MIN <=? encoding) && (encoding <=? ZIP_INT_IMM_MAX) then Some zl
  else None.

Definition zipLoadInteger (zl : list Z) (p encoding : Z) : option Z :=
  if encoding =? ZIP_INT_8B then b ← rdn zl p 1; Some (swrap 8 (host_dec b))
  else if encoding =? ZIP_INT_16B then
    b ← rdn zl p 2; b ← memrev16ifbe b 0; Some (swrap 16 (host_dec b))
  else if encoding =? ZIP_INT_32B then
    b ← rdn zl p 4; b ← memrev32ifbe b 0; Some (swrap 32 (host_dec b))
  else if encoding =? ZIP_INT_24B then
    b ← rdn zl p 3; b ← memrev32ifbe (0 :: b) 0; Some (Z.shiftr (swrap 32 (host_dec b)) 8)
  else if encoding =? ZIP_INT_64B then
    b ← rdn zl p 8; b ← memrev64ifbe b 0; Some (swrap 64 (host_dec b))
  else if (ZIP_INT_IMM_MIN <=? encoding) && (encoding <=? ZIP_INT_IMM_MAX)
  then Some (Z.land encoding ZIP_INT_IMM_MASK - 1)
  else None.

Record zlentry := Zlentry {
  prevrawlensize : Z; prevrawlen : Z; lensize : Z; len : Z; headersize : Z;
  encoding : Z; zp : Z }.

Definition zipEntry (zl : list Z) (p : Z) : option zlentry :=
  '(prevrawlensize, prevrawlen) ← ZIP_DECODE_PREVLEN zl p;
  '(encoding, lensize, len) ← ZIP_DECODE_LENGTH zl (p + prevrawlensize);
  Some (Zlentry prevrawlensize prevrawlen lensize len (prevrawlensize + lensize) encoding p).

Definition ziplistNew : option (list Z) :=
  let zl := map junk (seq 0 11) in
  zl ← set_ZIPLIST_BYTES zl (intrev32ifbe 11);
  zl ← set_ZIPLIST_TAIL_OFFSET zl (intrev32ifbe ZIPLIST_HEADER_SIZE);
  zl ← set_ZIPLIST_LENGTH zl 0;
  wr zl 10 ZIP_END.

(** [ziplistResize]: the size is an unsigned int. *)
Definition ziplistResize (zl : list Z) (len : Z) : option (list Z) :=
  let len := uwrap 32 len in
  let zl := zrealloc junk zl len in
  zl ← set_ZIPLIST_BYTES zl (intrev32ifbe len);
  wr zl (len - 1) ZIP_END.

(** The loop of [__ziplistCascadeUpdate]. *)
Fixpoint cascade_loop (fuel : nat) (zl : list Z) (p curlen : Z) : option (list Z) :=
  c ← rd zl p;
  if c =? ZIP_END then Some zl else
  match fuel with
  | O => None
  | S f =>
      cur ← zipEntry zl p;
      let rawlen := uwrap 32 (headersize cur + len cur) in
      let rawlensize := zipPrevEncodeLength_size rawlen in
      c ← rd zl (p + rawlen);
      if c =? ZIP_END then Some zl else
      next ← zipEntry zl (p + rawlen);
      if prevrawlen next =? rawlen then Some zl else
      if prevrawlensize next <? rawlensize then
        let extra := rawlensize - prevrawlensize next in
        zl ← ziplistResize zl (curlen + extra);
        let np := p + rawlen in
        t ← ZIPLIST_ENTRY_TAIL zl;
        zl ← (if negb (t =? np) then add_tail zl extra else Some zl);
        zl ← mmove zl (np + rawlensize) (np + prevrawlensize next)
               (curlen - np - prevrawlensize next - 1);
        '(zl, _) ← zipPrevEncodeLength zl np rawlen;
        cascade_loop f zl (p + rawlen) (curlen + extra)
      else if rawlensize <? prevrawlensize next then
        zipPrevEncodeLengthForceLarge zl (p + rawlen) rawlen
      else '(zl, _) ← zipPrevEncodeLength zl (p + rawlen) rawlen; Some zl
  end.

Definition __ziplistCascadeUpdate (zl : list Z) (p : Z) : option (list Z) :=
  b ← ZIPLIST_BYTES zl;
  cascade_loop (length zl) zl p (intrev32ifbe b).

(** [for (i = 0; p[0] != ZIP_END && i < num; i++)]: the position and the count. *)
Fixpoint delete_walk (fuel : nat) (zl : list Z) (p num deleted : Z) : option (Z * Z) :=
  c ← rd zl p;
  if negb (c =? ZIP_END) && (deleted <? num) then
    match fuel with
    | O => None
    | S f => l ← zipRawEntryLength zl p; delete_walk f zl (p + l) num (deleted + 1)
    end
  else Some (p, deleted).

Definition __ziplistDelete (zl : list Z) (p num : Z) : option (list Z) :=
  first ← zipEntry zl p;
  '(p, deleted) ← delete_walk (length zl) zl p num 0;
  let totlen := uwrap 32 (p - zp first) in
  if 0 <? totlen then
    c ← rd zl p;
    '(zl, nextdiff) ←
      (if negb (c =? ZIP_END) then
         nextdiff ← zipPrevLenByteDiff zl p (prevrawlen first);
         let p := p - nextdiff in
         '(zl, _) ← zipPrevEncodeLength zl p (prevrawlen first);
         zl ← add_tail zl (- totlen);
         tail ← zipEntry zl p;
         c ← rd zl (p + uwrap 32 (headersize tail + len tail));
         zl ← (if negb (c =? ZIP_END) then add_tail zl nextdiff else Some zl);
         b ← ZIPLIST_BYTES zl;
         zl ← mmove zl (zp first) p (intrev32ifbe b - p - 1);
         Some (zl, nextdiff)
       else
         zl ← set_ZIPLIST_TAIL_OFFSET zl (intrev32ifbe (uwrap 32 (zp first - prevrawlen first)));
         Some (zl, 0));
    b ← ZIPLIST_BYTES zl;
    zl ← ziplistResize zl (intrev32ifbe b - totlen + nextdiff);
    zl ← ZIPLIST_INCR_LENGTH zl (- deleted);
    if negb (nextdiff =? 0) then __ziplistCascadeUpdate zl (zp first) else Some zl
  else Some zl.

Definition __ziplistInsert (zl : list Z) (p : Z) (s : list Z) (slen : Z) : option (list Z) :=
  b ← ZIPLIST_BYTES zl;
  let curlen := intrev32ifbe b in
  c ← rd zl p;
  prevlen ←
    (if negb (c =? ZIP_END) then entry ← zipEntry zl p; Some (prevrawlen entry)
     else
       ptail ← ZIPLIST_ENTRY_TAIL zl;
       ct ← rd zl ptail;
       if negb (ct =? ZIP_END) then zipRawEntryLength zl ptail else Some 0);
  enc ← zipTryEncoding s slen;
  let '(value, encoding, reqlen) :=
    match enc with
    | Some (value, encoding) => (value, encoding, zipIntSize encoding)
    | None => (123456789, 0, slen)
    end in
  let reqlen := reqlen + zipPrevEncodeLength_size prevlen in
  let reqlen := reqlen + zipEncodeLength_size encoding slen in
  nextdiff ← (if negb (c =? ZIP_END) then zipPrevLenByteDiff zl p (uwrap 32 reqlen) else Some 0);
  zl ← ziplistResize zl (curlen + reqlen + nextdiff);
  c ← rd zl p;
  zl ←
    (if negb (c =? ZIP_END) then
       zl ← mmove zl (p + reqlen) (p - nextdiff) (curlen - p - 1 + nextdiff);
       '(zl, _) ← zipPrevEncodeLength zl (p + reqlen) (uwrap 32 reqlen);
       zl ← add_tail zl reqlen;
       tail ← zipEntry zl (p + reqlen);
       c ← rd zl (p + reqlen + uwrap 32 (headersize tail + len tail));
       if negb (c =? ZIP_END) then add_tail zl nextdiff else Some zl
     else set_ZIPLIST_TAIL_OFFSET zl (intrev32ifbe (uwrap 32 p)));
  zl ← (if negb (nextdiff =? 0) then __ziplistCascadeUpdate zl (p + reqlen) else Some zl);
  '(zl, n) ← zipPrevEncodeLength zl p prevlen;
  let p := p + n in
  '(zl, n) ← zipEncodeLength zl p encoding slen;
  let p := p + n in
  zl ← (if ZIP_IS_STR encoding then src ← rdn s 0 slen; wrn zl p src
        else zipSaveInteger zl p value encoding);
  ZIPLIST_INCR_LENGTH zl 1.

(** [where] is ZIPLIST_HEAD or ZIPLIST_TAIL. *)
Definition ziplistPush (zl : list Z) (s : list Z) (slen : Z) (head : bool) : option (list Z) :=
  p ← (if head then Some ZIPLIST_ENTRY_HEAD else ZIPLIST_ENTRY_END zl);
  __ziplistInsert zl p s slen.

(** The backward walk of ziplistIndex, with its post-decrement. *)
Fixpoint index_back (fuel : nat) (zl : list Z) (p : Z) (entry : zlentry) (index : Z)
    : option (Z * Z) :=
  if 0 <? prevrawlen entry then
    if index =? 0 then Some (p, index - 1) else
    match fuel with
    | O => None
    | S f =>
        let p := p - prevrawlen entry in
        entry ← zipEntry zl p;
        index_back f zl p entry (index - 1)
    end
  else Some (p, index).

Fixpoint index_forward (fuel : nat) (zl : list Z) (p index : Z) : option (Z * Z) :=
  c ← rd zl p;
  if negb (c =? ZIP_END) then
    if index =? 0 then Some (p, index - 1) else
    match fuel with
    | O => None
    | S f => l ← zipRawEntryLength zl p; index_forward f zl (p + l) (index - 1)
    end
  else Some (p, index).

(** [ziplistIndex]: [None] inside is NULL. *)
Definition ziplistIndex (zl : list Z) (index : Z) : option (option Z) :=
  '(p, index) ←
    (if index <? 0 then
       let index := - index - 1 in
       p ← ZIPLIST_ENTRY_TAIL zl;
       c ← rd zl p;
       if negb (c =? ZIP_END)
       then entry ← zipEntry zl p; index_back (length zl) zl p entry index
       else Some (p, index)
     else index_forward (length zl) zl ZIPLIST_ENTRY_HEAD index);
  c ← rd zl p;
  Some (if (c =? ZIP_END) || (0 <? index) then None else Some p).

Definition ziplistNext (zl : list Z) (p : Z) : option (option Z) :=
  c ← rd zl p;
  if c =? ZIP_END then Some None else
  l ← zipRawEntryLength zl p;
  let p := p + l in
  c ← rd zl p;
  Some (if c =? ZIP_END then None else Some p).

Definition ziplistPrev (zl : list Z) (p : Z) : option (option Z) :=
  c ← rd zl p;
  if c =? ZIP_END then
    p ← ZIPLIST_ENTRY_TAIL zl;
    c ← rd zl p;
    Some (if c =? ZIP_END then None else Some p)
  else if p =? ZIPLIST_ENTRY_HEAD then Some None
  else
    entry ← zipEntry zl p;
    _ ← cassert (0 <? prevrawlen entry);
    Some (Some (p - prevrawlen entry)).

(** What ziplistGet stores through its pointers. *)
Inductive zvalue := ZStr (s : list Z) | ZInt (v : Z).

Definition ziplistGet (zl : list Z) (p : option Z) : option (option zvalue) :=
  match p with
  | None => Some None
  | Some p =>
      c ← rd zl p;
      if c =? ZIP_END then Some None else
      entry ← zipEntry zl p;
      if ZIP_IS_STR (encoding entry)
      then s ← rdn zl (p + headersize entry) (len entry); Some (Some (ZStr s))
      else v ← zipLoadInteger zl (p + headersize entry) (encoding entry); Some (Some (ZInt v))
  end.

Definition ziplistInsert := __ziplistInsert.

(** [ziplistDelete]: the offset of [*p] does not change. *)
Definition ziplistDelete (zl : list Z) (p : Z) : option (list Z * Z) :=
  zl ← __ziplistDelete zl p 1; Some (zl, p).

(** The unsigned index is converted to the int parameter of ziplistIndex. *)
Definition ziplistDeleteRange (zl : list Z) (index num : Z) : option (list Z) :=
  p ← ziplistIndex zl (swrap 32 index);
  match p with None => Some zl | Some p => __ziplistDelete zl p num end.

Definition ziplistCompare (zl : list Z) (p : Z) (sstr : list Z) (slen : Z) : option bool :=
  c ← rd zl p;
  if c =? ZIP_END then Some false else
  entry ← zipEntry zl p;
  if ZIP_IS_STR (encoding entry) then
    if len entry =? slen then
      a ← rdn zl (p + headersize entry) slen; b ← rdn sstr 0 slen; Some (bool_decide (a = b))
    else Some false
  else
    e ← zipTryEncoding sstr slen;
    match e with
    | Some (sval, _) =>
        zval ← zipLoadInteger zl (p + headersize entry) (encoding entry); Some (zval =? sval)
    | None => Some false
    end.

(** The loop of ziplistFind; [venc] caches the integer of the searched string. *)
Fixpoint find_loop (fuel : nat) (zl : list Z) (p : Z) (vstr : list Z) (vlen skip skipcnt : Z)
    (venc : option (option Z)) : option (option Z) :=
  c ← rd zl p;
  if c =? ZIP_END then Some None else
  match fuel with
  | O => None
  | S f =>
      prevlensize ← ZIP_DECODE_PREVLENSIZE zl p;
      '(encoding, lensize, len) ← ZIP_DECODE_LENGTH zl (p + prevlensize);
      let q := p + prevlensize + lensize in
      if skipcnt =? 0 then
        if ZIP_IS_STR encoding then
          if len =? vlen then
            a ← rdn zl q vlen;
            b ← rdn vstr 0 vlen;
            if bool_decide (a = b) then Some (Some p)
            else find_loop f zl (q + len) vstr vlen skip skip venc
          else find_loop f zl (q + len) vstr vlen skip skip venc
        else
          venc ←
            (match venc with
             | Some v => Some v
             | None =>
                 e ← zipTryEncoding vstr vlen;
                 Some (match e with Some (v, _) => Some v | None => None end)
             end);
          match venc with
          | Some vll =>
              ll ← zipLoadInteger zl q encoding;
              if ll =? vll then Some (Some p)
              else find_loop f zl (q + len) vstr vlen skip skip (Some venc)
          | None => find_loop f zl (q + len) vstr vlen skip skip (Some venc)
          end
      else find_loop f zl (q + len) vstr vlen skip (skipcnt - 1) venc
  end.

Definition ziplistFind (zl : list Z) (p : Z) (vstr : list Z) (vlen skip : Z) : option (option Z) :=
  find_loop (length zl) zl p vstr vlen skip 0 None.

Fixpoint len_loop (fuel : nat) (zl : list Z) (p n : Z) : option Z :=
  c ← rd zl p;
  if c =? ZIP_END then Some n else
  match fuel with
  | O => None
  | S f => l ← zipRawEntryLength zl p; len_loop f zl (p + l) (n + 1)
  end.

(** [ziplistLen] may store the length it counted. *)
Definition ziplistLen (zl : list Z) : option (list Z * Z) :=
  l ← ZIPLIST_LENGTH zl;
  if intrev16ifbe l <? UINT16_MAX then Some (zl, intrev16ifbe l) else
  n ← len_loop (length zl) zl ZIPLIST_HEADER_SIZE 0;
  zl ← (if n <? UINT16_MAX then set_ZIPLIST_LENGTH zl (intrev16ifbe n) else Some zl);
  Some (zl, n).

Definition ziplistBlobLen (zl : list Z) : option Z :=
  b ← ZIPLIST_BYTES zl; Some (intrev32ifbe b).

End Ziplist.

(** ** Specification *)

Module ZiplistSpec.

(** The value of an entry, with the encoding byte of an integer. *)
Inductive zval := EStr (s : list Z) | EInt (v enc : Z).

(** An entry: whether its previous-length field takes 5 bytes, and its value. *)
Record ent := Ent { large : bool; val : zval }.

Definition int_bytes (v enc : Z) : list Z := le_enc (Z.to_nat (zipIntSize enc)) v.

Definition body (v : zval) : list Z :=
  match v with
  | EStr s => zipEncodeLength_buf 0 (zlen s) ++ s
  | EInt v enc => enc :: int_bytes v enc
  end.

Definition int_ok (v enc : Z) : Prop :=
  (enc = ZIP_INT_8B \/ enc = ZIP_INT_16B \/ enc = ZIP_INT_24B \/ enc = ZIP_INT_32B \/
   enc = ZIP_INT_64B) /\ in_s (8 * zipIntSize enc) v \/
  ZIP_INT_IMM_MIN <= enc <= ZIP_INT_IMM_MAX /\ v = enc - ZIP_INT_IMM_MIN.

Definition val_ok (v : zval) : Prop :=
  match v with EStr s => zlen s < 2 ^ 31 | EInt v enc => int_ok v enc end.

Definition view (v : zval) : zvalue :=
  match v with EStr s => ZStr s | EInt v _ => ZInt v end.

Definition psize (lg : bool) : Z := if lg then 5 else 1.
Definition prevb (lg : bool) (n : Z) : list Z := if lg then ZIP_BIGLEN :: le_enc 4 n else [n].
Definition bsize (v : zval) : Z := zlen (body v).
Definition esize (e : ent) : Z := psize (large e) + bsize (val e).

(** The bytes of entries after one of length [prev]. *)
Fixpoint enc_ents (prev : Z) (es : list ent) : list Z :=
  match es with
  | [] => []
  | e :: es => prevb (large e) prev ++ body (val e) ++ enc_ents (esize e) es
  end.

Definition total (es : list ent) : Z := foldr (fun e n => esize e + n) 0 es.

(** A field of 1 byte holds a length below 254. *)
Fixpoint chain (prev : Z) (es : list ent) : Prop :=
  match es with
  | [] => True
  | e :: es => (ZIP_BIGLEN <= prev -> large e = true) /\ val_ok (val e) /\ chain (esize e) es
  end.

(** The length of the last entry, [prev] if there is none, and where it starts. *)
Fixpoint last_size (prev : Z) (es : list ent) : Z :=
  match es with [] => prev | e :: es => last_size (esize e) es end.
Definition last_off (es : list ent) : Z := total es - last_size 0 es.

Definition hdr (bytes tail count : Z) : list Z := le_enc 4 bytes ++ le_enc 4 tail ++ le_enc 2 count.

(** The counter is exact until it saturates. *)
Definition count_ok (count n : Z) : Prop := count = n /\ n < UINT16_MAX \/ count = UINT16_MAX.

Definition ZIPLIST_LIMIT : Z := 2 ^ 31.

(** The bytes [zl] are the well-formed list of the entries [es]. *)
Definition layout (zl : list Z) (es : list ent) : Prop :=
  exists count, zl = hdr (11 + total es) (10 + last_off es) count ++ enc_ents 0 es ++ [ZIP_END] /\
    chain 0 es /\ count_ok count (zlen es) /\ 11 + total es <= ZIPLIST_LIMIT.

(** The smallest encoding of an integer, and the value a string is stored as. *)
Definition enc_of (v : Z) : Z :=
  if (0 <=? v) && (v <=? 12) then ZIP_INT_IMM_MIN + v
  else if (-128 <=? v) && (v <=? 127) then ZIP_INT_8B
  else if (-32768 <=? v) && (v <=? 32767) then ZIP_INT_16B
  else if (INT24_MIN <=? v) && (v <=? INT24_MAX) then ZIP_INT_24B
  else if (-2147483648 <=? v) && (v <=? 2147483647) then ZIP_INT_32B
  else ZIP_INT_64B.

Definition value_of (s : list Z) : zval :=
  if (32 <=? zlen s) || (zlen s =? 0) then EStr s
  else match Num.string2ll s with Some v => EInt v (enc_of v) | None => EStr s end.

(** The string a value stands for. *)
Definition text (v : zval) : list Z :=
  match v with EStr s => s | EInt v _ => default [] (Num.ll_chars v) end.

(** The strings of the list. *)
Definition strings (es : list ent) : list (list Z) := map (fun e => text (val e)) es.

(** The first string equal to [s] among those reached by skipping [skip] entries after
    each comparison; [cnt] entries are skipped first. *)
Fixpoint find_spec (s : list Z) (skip cnt : Z) (ts : list (list Z)) : option nat :=
  match ts with
  | [] => None
  | t :: ts =>
      if (cnt =? 0) && bool_decide (t = s) then Some O
      else S <$> find_spec s skip (if cnt =? 0 then skip else cnt - 1) ts
  end.

End ZiplistSpec.
