(* ===== verification/ZiplistLayout.v ===== *)
(** * The layout of a ziplist: fields, entries, sizes

    Lemmas on the header fields, on reading and writing one entry of the bytes laid out
    by [ZiplistSpec], and on the sizes and offsets of lists of entries. *)

From S2P Require Import Prelude Endian Util Ziplist.

(** ** Proofs: fields *)

Module ZiplistLayout.
Import ZiplistSpec EndianFacts.

Section Facts.
Context `{Host} (junk : nat -> Z).

Lemma zlen_hdr a b c : zlen (hdr a b c) = 10.
Proof. unfold hdr. by rewrite !zlen_app, !zlen_le_enc. Qed.

Lemma get_bytes a b c r : in_u 32 a ->
  ZIPLIST_BYTES (hdr a b c ++ r) = Some (host_dec (le_enc 4 a)) /\
  intrev32ifbe (host_dec (le_enc 4 a)) = a.
Proof.
  intros Ha. split; [|by apply load32]. unfold ZIPLIST_BYTES, hdr. rewrite <- !(assoc_L (++)).
  by rewrite rdn_prefix by (by rewrite zlen_le_enc).
Qed.

Lemma get_tail a b c r : in_u 32 b ->
  ZIPLIST_TAIL_OFFSET (hdr a b c ++ r) = Some (host_dec (le_enc 4 b)) /\
  intrev32ifbe (host_dec (le_enc 4 b)) = b.
Proof.
  intros Hb. split; [|by apply load32]. unfold ZIPLIST_TAIL_OFFSET, hdr. rewrite <- !(assoc_L (++)).
  by rewrite rdn_app_mid by (by rewrite zlen_le_enc).
Qed.

Lemma get_len a b c r : ZIPLIST_LENGTH (hdr a b c ++ r) = Some (host_dec (le_enc 2 c)).
Proof.
  unfold ZIPLIST_LENGTH, hdr. rewrite <- !(assoc_L (++)), (assoc_L (++) (le_enc 4 a)).
  by rewrite rdn_app_mid by (by rewrite ?zlen_app, !zlen_le_enc).
Qed.

Lemma set_bytes a b c r a' :
  set_ZIPLIST_BYTES (hdr a b c ++ r) (intrev32ifbe a') = Some (hdr a' b c ++ r).
Proof.
  unfold set_ZIPLIST_BYTES, hdr. rewrite store32, <- !(assoc_L (++)).
  by rewrite wrn_prefix by (by rewrite !zlen_le_enc).
Qed.

Lemma set_tail a b c r b' :
  set_ZIPLIST_TAIL_OFFSET (hdr a b c ++ r) (intrev32ifbe b') = Some (hdr a b' c ++ r).
Proof.
  unfold set_ZIPLIST_TAIL_OFFSET, hdr. rewrite store32, <- !(assoc_L (++)).
  by rewrite wrn_app_mid by (by rewrite !zlen_le_enc).
Qed.

Lemma set_len a b c r c' :
  set_ZIPLIST_LENGTH (hdr a b c ++ r) (intrev16ifbe c') = Some (hdr a b c' ++ r).
Proof.
  unfold set_ZIPLIST_LENGTH, hdr. rewrite store16, <- !(assoc_L (++)), !(assoc_L (++) (le_enc 4 a)).
  by rewrite wrn_app_mid by (by rewrite ?zlen_app, !zlen_le_enc).
Qed.

Lemma entry_tail a b c r : in_u 32 b -> ZIPLIST_ENTRY_TAIL (hdr a b c ++ r) = Some b.
Proof.
  intros Hb. unfold ZIPLIST_ENTRY_TAIL. destruct (get_tail a b c r Hb) as [-> E].
  cbn [mbind option_bind]. by rewrite E.
Qed.

Lemma entry_end a b c r : in_u 32 a -> ZIPLIST_ENTRY_END (hdr a b c ++ r) = Some (a - 1).
Proof.
  intros Ha. unfold ZIPLIST_ENTRY_END. destruct (get_bytes a b c r Ha) as [-> E].
  cbn [mbind option_bind]. by rewrite E.
Qed.

Lemma add_tail_ok a b c r d : in_u 32 b -> in_u 32 (b + d) ->
  add_tail (hdr a b c ++ r) d = Some (hdr a (b + d) c ++ r).
Proof.
  intros Hb Hd. unfold add_tail. destruct (get_tail a b c r Hb) as [-> E].
  cbn [mbind option_bind]. rewrite E, uwrap_small by done. apply set_tail.
Qed.

(** The counter after inserting one entry or deleting some. *)
Lemma incr_ok a b c r n d : count_ok c n -> 0 <= n -> 0 <= n + d -> d <= 1 ->
  exists c', ZIPLIST_INCR_LENGTH (hdr a b c ++ r) d = Some (hdr a b c' ++ r) /\ count_ok c' (n + d).
Proof.
  intros Hc Hn Hd H1. unfold ZIPLIST_INCR_LENGTH. rewrite get_len. cbn [mbind option_bind].
  assert (host_dec (le_enc 2 UINT16_MAX) = UINT16_MAX) as Emax
    by (unfold host_dec; by destruct big_endian).
  destruct Hc as [[-> Hlt]| ->].
  - unfold UINT16_MAX in *. destruct (Z.ltb_spec (host_dec (le_enc 2 n)) 65535) as [Hl|Hl].
    + rewrite load16 by (unfold in_u; lia). rewrite set_len. eexists. split; [done|].
      unfold count_ok, UINT16_MAX. rewrite u16_small by lia.
      destruct (Z.eq_dec (n + d) 65535); [by right|left; lia].
    + exfalso. assert (host_dec (le_enc 2 n) = 65535) as E.
      { assert (host_dec (le_enc 2 n) < 65536); [|lia]. unfold host_dec.
        pose proof (le_enc_ok 2 n) as Hok.
        destruct big_endian.
        - pose proof (le_dec_bound (reverse (le_enc 2 n)) ltac:(by apply Forall_reverse)) as Hb.
          unfold zlen in Hb. rewrite length_reverse, length_le_enc in Hb. change (256 ^ Z.of_nat 2) with 65536 in Hb. lia.
        - pose proof (le_dec_bound (le_enc 2 n) Hok) as Hb. rewrite zlen_le_enc in Hb.
          change (256 ^ Z.of_nat 2) with 65536 in Hb. lia. }
      rewrite <- Emax in E. apply host_dec_inj in E; [|apply le_enc_ok..|by rewrite !zlen_le_enc].
      apply (f_equal le_dec) in E. rewrite !le_dec_enc in E. unfold UINT16_MAX in E.
      change (256 ^ Z.of_nat 2) with 65536 in E. rewrite !Z.mod_small in E by lia. lia.
  - rewrite Emax, Z.ltb_irrefl. exists UINT16_MAX. split; [done|by right].
Qed.

(** ** Proofs: decoding an entry *)

Lemma lor_add a b k : 0 <= k -> a mod 2 ^ k = 0 -> 0 <= b < 2 ^ k -> Z.lor a b = a + b.
Proof.
  intros Hk Ha Hb. assert (Z.land a b = 0) as E; [|by rewrite Z.add_nocarry_lxor, Z.lxor_lor].
  apply Z.bits_inj'. intros i Hi. rewrite Z.land_spec, Z.bits_0. destruct (Z.lt_ge_cases i k).
  - rewrite <- (Z.mod_pow2_bits_low a k), Ha, Z.bits_0 by lia. done.
  - rewrite <- (Z.mod_small b (2 ^ k)), (Z.mod_pow2_bits_high b) by lia. apply andb_false_r.
Qed.

Lemma land_255 n : Z.land n 255 = n mod 256.
Proof. change 255 with (Z.ones 8). by rewrite Z.land_ones by lia. Qed.

Lemma prevb_len lg n : zlen (prevb lg n) = psize lg.
Proof. destruct lg; cbn [prevb psize]; [by rewrite zlen_cons, zlen_le_enc|done]. Qed.

(** A length that fits the field. *)
Definition prev_ok (lg : bool) (n : Z) : Prop := 0 <= n < 2 ^ 32 /\ (ZIP_BIGLEN <= n -> lg = true).

Lemma dec_prevsize zl a lg n r p : zl = a ++ prevb lg n ++ r -> p = zlen a -> prev_ok lg n ->
  ZIP_DECODE_PREVLENSIZE zl p = Some (psize lg).
Proof.
  intros -> -> [Hn Hl]. unfold ZIP_DECODE_PREVLENSIZE. destruct lg; cbn [prevb app]; rewrite rd_mid.
  - done.
  - cbn [mbind option_bind]. unfold ZIP_BIGLEN in *. destruct (Z.ltb_spec n 254); [done|].
    by discriminate Hl.
Qed.

Lemma dec_prevlen zl a lg n r p : zl = a ++ prevb lg n ++ r -> p = zlen a -> prev_ok lg n ->
  ZIP_DECODE_PREVLEN zl p = Some (psize lg, n).
Proof.
  intros Hz Hp Hok. unfold ZIP_DECODE_PREVLEN. rewrite (dec_prevsize zl a lg n r p Hz Hp Hok).
  cbn [mbind option_bind]. subst zl p. destruct lg; cbn [psize prevb Z.eqb Pos.eqb].
  - change (a ++ (ZIP_BIGLEN :: le_enc 4 n) ++ r) with (a ++ [ZIP_BIGLEN] ++ le_enc 4 n ++ r).
    rewrite (assoc_L (++)).
    pose proof (load_le 4 memrev32ifbe ((a ++ [ZIP_BIGLEN]) ++ le_enc 4 n ++ r) (zlen a + 1)
      memrev32ifbe_reverses) as E. change (Z.of_nat 4) with 4 in E.
    rewrite rdn_app_mid in * by zlia. cbn [mbind option_bind fmap option_fmap option_map] in *.
    destruct (memrev32ifbe (le_enc 4 n) 0) as [v|]; [|done]. cbn [mbind option_bind] in *.
    destruct Hok as [Hn _]. rewrite le_dec_enc, Z.mod_small in E
      by (change (256 ^ Z.of_nat 4) with (2 ^ 32); lia).
    by injection E as ->.
  - cbn [app]. by rewrite rd_mid.
Qed.

(** The parts of a body. *)
Definition vhdr (v : zval) : list Z :=
  match v with EStr s => zipEncodeLength_buf 0 (zlen s) | EInt _ enc => [enc] end.
Definition vdata (v : zval) : list Z := match v with EStr s => s | EInt x enc => int_bytes x enc end.
Definition venc (v : zval) : Z :=
  match v with
  | EStr s => if zlen s <=? 0x3f then ZIP_STR_06B else if zlen s <=? 0x3fff then ZIP_STR_14B else ZIP_STR_32B
  | EInt _ enc => enc
  end.

Lemma body_parts v : body v = vhdr v ++ vdata v.
Proof. by destruct v. Qed.

Lemma small_bits : forallb (fun n => let h := Z.of_nat n in
  (Z.land h 0xc0 =? 0) && (Z.land h 0x3f =? h) && (Z.land (Z.lor 0x40 h) 0xc0 =? 0x40) &&
  (Z.land (Z.lor 0x40 h) 0x3f =? h) && (Z.lor 0x40 h <? 0xc0)) (seq 0 64) = true.
Proof. by vm_compute. Qed.

Lemma small_bits_ok h : 0 <= h < 64 ->
  Z.land h 0xc0 = 0 /\ Z.land h 0x3f = h /\ Z.land (Z.lor 0x40 h) 0xc0 = 0x40 /\
  Z.land (Z.lor 0x40 h) 0x3f = h /\ Z.lor 0x40 h < 0xc0.
Proof.
  intros Hh. assert (In (Z.to_nat h) (seq 0 64)) as Hin by (apply in_seq; lia).
  pose proof (proj1 (forallb_forall _ _) small_bits _ Hin) as E. cbv beta zeta in E.
  rewrite Z2Nat.id in E by lia. bool_to_prop. done.
Qed.

Lemma len32_ok n : 0 <= n < 2 ^ 32 ->
  uwrap 32 (Z.lor (Z.lor (Z.lor (Z.shiftl (Z.land (Z.shiftr n 24) 255) 24)
    (Z.shiftl (Z.land (Z.shiftr n 16) 255) 16)) (Z.shiftl (Z.land (Z.shiftr n 8) 255) 8))
    (Z.land n 255)) = n.
Proof.
  intros Hn. rewrite !land_255, !Z.shiftr_div_pow2, !Z.shiftl_mul_pow2 by lia.
  change (2 ^ 24) with 16777216. change (2 ^ 16) with 65536. change (2 ^ 8) with 256.
  rewrite (lor_add _ (_ * 65536) 24), (lor_add _ (_ * 256) 16), (lor_add _ (n mod 256) 8);
    change (2 ^ 24) with 16777216; change (2 ^ 16) with 65536; change (2 ^ 8) with 256;
    try lia; try (Z.div_mod_to_equations; lia).
  rewrite u32_small; Z.div_mod_to_equations; lia.
Qed.

Lemma int_enc_cases v enc : int_ok v enc ->
  0xc0 <= enc <= 0xfe /\ ZIP_ENTRY_ENCODING enc = enc /\ ZIP_IS_STR enc = false /\ (enc <? ZIP_STR_MASK) = false.
Proof.
  intros [[He _]|[[He1 He2] _]].
  - by destruct He as [-> | [-> | [-> | [-> | ->]]]].
  - unfold ZIP_INT_IMM_MIN, ZIP_INT_IMM_MAX in *. unfold ZIP_ENTRY_ENCODING, ZIP_STR_MASK, ZIP_IS_STR.
    replace (enc <? 192) with false by (symmetry; apply Z.ltb_ge; lia).
    split_and!; auto; try lia. apply Z.ltb_ge. unfold ZIP_STR_MASK.
    assert (enc = 241 \/ enc = 242 \/ enc = 243 \/ enc = 244 \/ enc = 245 \/ enc = 246 \/ enc = 247 \/
      enc = 248 \/ enc = 249 \/ enc = 250 \/ enc = 251 \/ enc = 252 \/ enc = 253) as Hc by lia.
    repeat destruct Hc as [-> | Hc]; [..|subst enc]; by vm_compute.
Qed.

Lemma int_size enc : 0 <= zipIntSize enc <= 8.
Proof. unfold zipIntSize. repeat zcase; lia. Qed.

Lemma rd_mid3 (a c : list Z) x y z w : rd (a ++ x :: y :: z :: w :: c) (zlen a + 3) = Some w.
Proof. rewrite rd_app_r by lia. replace (zlen a + 3 - zlen a) with 3 by lia. done. Qed.

Lemma rd_mid4 (a c : list Z) x y z w u :
  rd (a ++ x :: y :: z :: w :: u :: c) (zlen a + 4) = Some u.
Proof. rewrite rd_app_r by lia. replace (zlen a + 4 - zlen a) with 4 by lia. done. Qed.

(** ZIP_DECODE_LENGTH on the body of an entry. *)
Lemma dec_length zl a v r p : zl = a ++ body v ++ r -> p = zlen a -> val_ok v ->
  ZIP_DECODE_LENGTH zl p = Some (venc v, zlen (vhdr v), zlen (vdata v)).
Proof.
  intros -> -> Hv. unfold ZIP_DECODE_LENGTH. destruct v as [s|x enc]; cbn [body vhdr vdata venc val_ok] in *.
  - unfold zipEncodeLength_buf. cbn [ZIP_IS_STR Z.land Z.ltb]. change (ZIP_IS_STR 0) with true. cbv iota.
    pose proof (zlen_nonneg s) as Hs0.
    destruct (Z.leb_spec (zlen s) 63) as [H6|H6].
    + change (Z.lor ZIP_STR_06B (zlen s)) with (zlen s). cbn [app]. rewrite rd_mid. cbn [mbind option_bind].
      destruct (small_bits_ok (zlen s)) as (E1 & E2 & _); [lia|]. unfold ZIP_ENTRY_ENCODING, ZIP_STR_MASK.
      replace (zlen s <? 192) with true by (symmetry; apply Z.ltb_lt; lia). rewrite E1.
      change (0 <? 192) with true. cbv iota. rewrite E2. done.
    + destruct (Z.leb_spec (zlen s) 16383) as [H14|H14].
      * cbn [app]. rewrite rd_mid, rd_mid1. cbn [mbind option_bind].
        assert (Z.land (Z.shiftr (zlen s) 8) 63 = zlen s / 256) as Eh.
        { change 63 with (Z.ones 6). rewrite Z.land_ones, Z.shiftr_div_pow2 by lia.
          change (2 ^ 8) with 256. apply Z.mod_small. Z.div_mod_to_equations; lia. }
        rewrite Eh. destruct (small_bits_ok (zlen s / 256)) as (_ & _ & E1 & E2 & E3);
          [Z.div_mod_to_equations; lia|].
        unfold ZIP_ENTRY_ENCODING, ZIP_STR_MASK, ZIP_STR_14B.
        replace (Z.lor 64 (zlen s / 256) <? 192) with true by (symmetry; apply Z.ltb_lt; lia).
        rewrite E1. change (64 <? 192) with true. cbv iota. rewrite E2, land_255, Z.shiftl_mul_pow2 by lia.
        change (2 ^ 8) with 256.
        rewrite (lor_add _ _ 8); change (2 ^ 8) with 256; try lia; try (Z.div_mod_to_equations; lia).
        cbn [Z.eqb Pos.eqb]. do 2 f_equal. Z.div_mod_to_equations; lia.
      * cbn [app]. rewrite rd_mid. cbn [mbind option_bind].
        change (ZIP_ENTRY_ENCODING ZIP_STR_32B) with 128. change (128 <? ZIP_STR_MASK) with true.
        cbn [Z.eqb Pos.eqb ZIP_STR_06B ZIP_STR_14B ZIP_STR_32B]. rewrite rd_mid1.
        replace (zlen a + 2) with (zlen a + 1 + 1) by lia. rewrite rd_mid2, rd_mid3, rd_mid4.
        cbn [mbind option_bind].
        rewrite len32_ok by lia. done.
  - cbn [app]. rewrite rd_mid. cbn [mbind option_bind].
    destruct (int_enc_cases x enc Hv) as (_ & E & _ & E2). rewrite E, E2.
    unfold int_bytes. rewrite zlen_le_enc, Z2Nat.id by apply int_size. done.
Qed.

(** An entry, at the place where it lies. *)
Lemma entry_ok zl a e n r p : zl = a ++ prevb (large e) n ++ body (val e) ++ r -> p = zlen a ->
  prev_ok (large e) n -> val_ok (val e) ->
  zipEntry zl p = Some (Zlentry (psize (large e)) n (zlen (vhdr (val e))) (zlen (vdata (val e)))
    (psize (large e) + zlen (vhdr (val e))) (venc (val e)) p).
Proof.
  intros Hz Hp Hok Hv. unfold zipEntry.
  rewrite (dec_prevlen zl a (large e) n _ p Hz Hp Hok). cbn [mbind option_bind].
  rewrite (dec_length zl (a ++ prevb (large e) n) (val e) r); [done| | |done].
  - by rewrite <- (assoc_L (++)).
  - by rewrite zlen_app, prevb_len, Hp.
Qed.

Lemma esize_parts e : esize e = psize (large e) + zlen (vhdr (val e)) + zlen (vdata (val e)).
Proof. unfold esize, bsize. rewrite body_parts, zlen_app. lia. Qed.

Lemma vhdr_len v : 1 <= zlen (vhdr v) <= 5.
Proof.
  destruct v as [s|x enc]; cbn [vhdr]; [|by vm_compute].
  unfold zipEncodeLength_buf. change (ZIP_IS_STR 0) with true. cbv iota. repeat zcase; by vm_compute.
Qed.

Lemma esize_bounds e : val_ok (val e) -> 2 <= esize e < 2 ^ 32.
Proof.
  intros Hv. rewrite esize_parts. pose proof (vhdr_len (val e)). pose proof (zlen_nonneg (vdata (val e))).
  assert (zlen (vdata (val e)) < 2 ^ 31 \/ zlen (vdata (val e)) <= 8).
  { destruct (val e) as [s|x enc]; cbn [vdata val_ok] in *; [by left|right].
    unfold int_bytes. rewrite zlen_le_enc. pose proof (int_size enc). lia. }
  destruct (large e); cbn [psize]; lia.
Qed.

Lemma raw_ok zl a e n r p : zl = a ++ prevb (large e) n ++ body (val e) ++ r -> p = zlen a ->
  prev_ok (large e) n -> val_ok (val e) -> zipRawEntryLength zl p = Some (esize e).
Proof.
  intros Hz Hp Hok Hv. unfold zipRawEntryLength.
  rewrite (dec_prevsize zl a (large e) n _ p Hz Hp Hok). cbn [mbind option_bind].
  rewrite (dec_length zl (a ++ prevb (large e) n) (val e) r); [|by rewrite <- (assoc_L (++))|by rewrite zlen_app, prevb_len, Hp|done].
  cbn [mbind option_bind]. rewrite <- esize_parts. pose proof (esize_bounds e Hv).
  by rewrite u32_small by lia.
Qed.

(** The first byte of an entry is not the end marker. *)
Lemma head_ok zl a lg n r p : zl = a ++ prevb lg n ++ r -> p = zlen a -> prev_ok lg n ->
  exists c, rd zl p = Some c /\ (c =? ZIP_END) = false.
Proof.
  intros -> -> [Hn Hl]. destruct lg; cbn [prevb app]; rewrite rd_mid; eexists; (split; [done|]); [done|].
  apply Z.eqb_neq. unfold ZIP_END, ZIP_BIGLEN in *. intros ->. by discriminate Hl.
Qed.

(** ** Proofs: writing a length field, resizing *)

Definition need (n : Z) : bool := ZIP_BIGLEN <=? n.

Lemma prev_size_need n : zipPrevEncodeLength_size n = psize (need n).
Proof. unfold zipPrevEncodeLength_size, need. repeat zcase; done || lia. Qed.

Lemma need_ok n : 0 <= n < 2 ^ 32 -> prev_ok (need n) n.
Proof. intros Hn. split; [done|]. unfold need. by intros; apply Z.leb_le. Qed.

Lemma force_large a x r p n : p = zlen a -> zlen x = 5 ->
  zipPrevEncodeLengthForceLarge (a ++ x ++ r) p n = Some (a ++ prevb true n ++ r).
Proof.
  intros -> Hx. destruct x as [|x0 x]; [done|]. rewrite zlen_cons in Hx.
  unfold zipPrevEncodeLengthForceLarge. cbn [app]. rewrite wr_app_mid by done.
  cbn [mbind option_bind]. pose proof (store_le 4 memrev32ifbe (a ++ ZIP_BIGLEN :: x ++ r) (zlen a + 1) n
    memrev32ifbe_reverses) as E. rewrite E.
  change (a ++ ZIP_BIGLEN :: x ++ r) with (a ++ [ZIP_BIGLEN] ++ x ++ r).
  rewrite (assoc_L (++)), wrn_app_mid by (rewrite ?zlen_le_enc; zlia).
  by rewrite <- (assoc_L (++)).
Qed.

Lemma enc_prev a x r p n : p = zlen a -> zlen x = psize (need n) -> 0 <= n ->
  zipPrevEncodeLength (a ++ x ++ r) p n = Some (a ++ prevb (need n) n ++ r, psize (need n)).
Proof.
  intros Hp Hx Hn. unfold zipPrevEncodeLength, need, ZIP_BIGLEN in *.
  destruct (Z.ltb_spec n 254) as [Hlt|Hge].
  - replace (254 <=? n) with false in * by (symmetry; apply Z.leb_gt; lia). cbn [psize prevb] in *.
    destruct x as [|x0 x]; [done|]. rewrite zlen_cons in Hx. rewrite (zlen_0_inv x) by lia.
    cbn [app]. rewrite wr_app_mid by done. cbn [mbind option_bind]. by rewrite u8_small by lia.
  - replace (254 <=? n) with true in * by (symmetry; apply Z.leb_le; lia). cbn [psize] in *.
    by rewrite force_large.
Qed.

Lemma resize_shrink a b c r1 r2 n : n = 11 + zlen r1 -> r2 <> [] -> n < 2 ^ 32 ->
  ziplistResize junk (hdr a b c ++ r1 ++ r2) n = Some (hdr n b c ++ r1 ++ [ZIP_END]).
Proof.
  intros Hn Hr H32. pose proof (zlen_nonneg r1). unfold ziplistResize. rewrite u32_small by lia.
  destruct r2 as [|x r2]; [done|].
  replace (hdr a b c ++ r1 ++ x :: r2) with ((hdr a b c ++ r1 ++ [x]) ++ r2)
    by (by rewrite <- !(assoc_L (++))).
  rewrite zrealloc_shrink by (rewrite !zlen_app, zlen_hdr, zlen_cons; change (zlen (@nil Z)) with 0; lia).
  rewrite set_bytes. cbn [mbind option_bind]. rewrite (assoc_L (++)).
  rewrite wr_app_mid by (rewrite !zlen_app, zlen_hdr; lia). by rewrite <- (assoc_L (++)).
Qed.

Lemma resize_more a b c r n : 11 + zlen r <= n -> n < 2 ^ 32 ->
  exists y, ziplistResize junk (hdr a b c ++ r ++ [ZIP_END]) n = Some (hdr n b c ++ r ++ y ++ [ZIP_END]) /\
    zlen y = n - (11 + zlen r) /\ (exists y', y ++ [ZIP_END] = ZIP_END :: y').
Proof.
  intros Hn H32. pose proof (zlen_nonneg r). unfold ziplistResize. rewrite u32_small by lia.
  destruct (zrealloc_grow junk (hdr a b c ++ r ++ [ZIP_END]) n) as (g & -> & Hg).
  { rewrite !zlen_app, zlen_hdr, zlen_cons. change (zlen (@nil Z)) with 0. lia. }
  rewrite !zlen_app, zlen_hdr, zlen_cons in Hg. change (zlen (@nil Z)) with 0 in Hg.
  rewrite <- !(assoc_L (++)), set_bytes. cbn [mbind option_bind].
  destruct (exists_last (l := [ZIP_END] ++ g)) as (y & z & E); [done|].
  rewrite E. replace (hdr n b c ++ r ++ y ++ [z]) with ((hdr n b c ++ r ++ y) ++ z :: [])
    by (by rewrite <- !(assoc_L (++))).
  assert (zlen ([ZIP_END] ++ g) = zlen y + 1) as Ey by (rewrite E; zlia).
  rewrite zlen_app, zlen_cons in Ey. change (zlen (@nil Z)) with 0 in Ey.
  rewrite wr_app_mid by (rewrite !zlen_app, zlen_hdr; lia).
  exists y. split_and!; [by rewrite <- !(assoc_L (++))|lia|].
  destruct y as [|y0 y]; [by exists []|]. injection E as <- _. by exists (y ++ [ZIP_END]).
Qed.

(** ** Proofs: sizes *)

Lemma total_cons e es : total (e :: es) = esize e + total es.
Proof. done. Qed.

Lemma total_app es es' : total (es ++ es') = total es + total es'.
Proof. induction es as [|e es IH]; [done|]. cbn [app]. rewrite !total_cons, IH. lia. Qed.

Lemma zlen_entry lg n v : zlen (prevb lg n ++ body v) = psize lg + bsize v.
Proof. by rewrite zlen_app, prevb_len. Qed.

Lemma zlen_enc_ents es : forall n, zlen (enc_ents n es) = total es.
Proof.
  induction es as [|e es IH]; intros n; [done|]. cbn [enc_ents].
  rewrite (assoc_L (++)), zlen_app, zlen_entry, IH. done.
Qed.

Lemma bsize_pos v : 0 < bsize v.
Proof.
  unfold bsize. rewrite body_parts, zlen_app. pose proof (vhdr_len v). pose proof (zlen_nonneg (vdata v)). lia.
Qed.

Lemma esize_pos e : 0 < esize e.
Proof. unfold esize. pose proof (bsize_pos (val e)). destruct (large e); cbn [psize]; lia. Qed.

Lemma total_nonneg es : 0 <= total es.
Proof. rewrite <- (zlen_enc_ents es 0). apply zlen_nonneg. Qed.

Lemma last_size_any n m e es : last_size n (e :: es) = last_size m (e :: es).
Proof. done. Qed.

Lemma last_size_app n es es' : last_size n (es ++ es') = last_size (last_size n es) es'.
Proof. revert n. induction es as [|e es IH]; intros n; cbn [app last_size]; [done|apply IH]. Qed.

Lemma last_off_cons e es : last_off (e :: es) = match es with [] => 0 | _ => esize e + last_off es end.
Proof.
  unfold last_off. rewrite total_cons. destruct es as [|e' es]; cbn [last_size].
  - change (total []) with 0. lia.
  - lia.
Qed.

Lemma last_off_nonneg es : 0 <= last_off es.
Proof.
  induction es as [|e es IH]; [done|]. rewrite last_off_cons. destruct es; [done|].
  pose proof (esize_pos e). lia.
Qed.

Lemma last_off_total es : last_off es <= total es.
Proof.
  induction es as [|e es IH]; [done|]. rewrite last_off_cons, total_cons. pose proof (esize_pos e).
  destruct es; [change (total []) with 0|]; lia.
Qed.

Lemma enc_ents_app es es' : forall n, enc_ents n (es ++ es') = enc_ents n es ++ enc_ents (last_size n es) es'.
Proof.
  induction es as [|e es IH]; intros n; cbn [app enc_ents last_size]; [done|].
  by rewrite IH, <- !(assoc_L (++)).
Qed.

Lemma chain_app es es' : forall n, chain n (es ++ es') <-> chain n es /\ chain (last_size n es) es'.
Proof.
  induction es as [|e es IH]; intros n; cbn [app chain last_size]; [tauto|]. rewrite IH. tauto.
Qed.

Lemma last_size_bounds es : forall n, chain n es -> 0 <= n < 2 ^ 32 -> 0 <= last_size n es < 2 ^ 32.
Proof.
  induction es as [|e es IH]; intros n Hc Hn; cbn [last_size]; [done|].
  destruct Hc as (_ & Hv & Hc). apply IH; [done|]. pose proof (esize_bounds e Hv). lia.
Qed.

End Facts.
End ZiplistLayout.
