(* ===== verification/ZiplistFacts.v ===== *)
(** * What the operations of a ziplist do to its layout

    The cascade, the integer encodings, insertion, deletion, access and search, each on
    the bytes of a list of entries. *)

From S2P Require Import Prelude Endian Util Ziplist ZiplistLayout.

Module ZiplistFacts.
Import ZiplistSpec EndianFacts ZiplistLayout.

Section Facts.
Context `{Host} (junk : nat -> Z).

(** ** Proofs: the cascade *)

Definition widen (e : ent) : ent := Ent true (val e).

(** What the cascade does to the entries after one whose length became [raw]. *)
Fixpoint casc (raw : Z) (es : list ent) : list ent :=
  match es with
  | [] => []
  | e :: es' => if need raw && negb (large e) then widen e :: casc (esize (widen e)) es' else e :: es'
  end.

(** The chain condition without the first field. *)
Definition chain_tl (es : list ent) : Prop :=
  match es with [] => True | e :: es' => val_ok (val e) /\ chain (esize e) es' end.

Definition first_ok (n : Z) (es : list ent) : Prop :=
  match es with [] => True | e :: _ => prev_ok (large e) n end.

Lemma chain_split n es : 0 <= n < 2 ^ 32 -> chain n es <-> first_ok n es /\ chain_tl es.
Proof. intros Hn. destruct es as [|e es]; cbn [chain first_ok chain_tl]; unfold prev_ok; tauto. Qed.

Lemma chain_first n es : 0 <= n < 2 ^ 32 -> chain n es -> first_ok n es /\ chain_tl es.
Proof. intros. by apply chain_split. Qed.

Lemma casc_vals es : forall raw, map val (casc raw es) = map val es.
Proof.
  induction es as [|e es IH]; intros raw; [done|]. cbn [casc].
  destruct (_ && _); [|done]. cbn [map widen val]. by rewrite IH.
Qed.

Lemma casc_chain es : forall raw, 0 <= raw < 2 ^ 32 -> chain_tl es -> chain raw (casc raw es).
Proof.
  induction es as [|e es IH]; intros raw Hr Hc; [done|]. destruct Hc as [Hv Hc]. cbn [casc].
  destruct (need raw) eqn:En, (large e) eqn:El; cbn [andb negb].
  - cbn [chain]. auto.
  - cbn [chain widen large val]. split_and!; auto. pose proof (esize_bounds (widen e) Hv).
    pose proof (esize_bounds e Hv). apply IH; [lia|]. apply chain_first in Hc; [tauto|lia].
  - cbn [chain]. auto.
  - cbn [chain]. split_and!; auto. intros Hge. unfold need in En. apply Z.leb_gt in En. lia.
Qed.

Lemma casc_nil raw es : casc raw es = [] <-> es = [].
Proof. destruct es as [|e es]; [done|]. cbn [casc]. by destruct (_ && _). Qed.

Lemma mmove_mid (b a x c : list Z) dst src n :
  b = a ++ x ++ c -> src = zlen a -> n = zlen x -> mmove b dst src n = wrn b dst x.
Proof. intros -> -> ->. unfold mmove. by rewrite rdn_app_mid. Qed.

(** Widening the field of [e2]: the tail [t] moves back by 4 bytes, into [y], and the
    5-byte field is written. *)
Lemma widen_field h A lg2 p2 t y raw np m :
  lg2 = false -> zlen y = 4 -> np = zlen (h ++ A) -> m = zlen t -> need raw = true -> 0 <= raw ->
  exists z, mmove (h ++ A ++ prevb lg2 p2 ++ t ++ y ++ [ZIP_END]) (np + 5) (np + 1) m = Some z /\
    zipPrevEncodeLength z np raw = Some (h ++ A ++ prevb true raw ++ t ++ [ZIP_END], 5).
Proof.
  intros -> Hy -> -> Hn Hr. cbn [prevb].
  rewrite (mmove_mid _ ((h ++ A) ++ [p2]) t (y ++ [ZIP_END])); [| |zlia|done].
  2: { by rewrite <- !(assoc_L (++)). }
  destruct (split_at (t ++ y) 4) as (x4 & z & E & Hx4 & Hz); [zlia|].
  rewrite zlen_app in Hz.
  replace (h ++ A ++ [p2] ++ t ++ y ++ [ZIP_END]) with (((h ++ A) ++ [p2] ++ x4) ++ z ++ [ZIP_END]).
  2: { rewrite (assoc_L (++) t y), E. by rewrite <- !(assoc_L (++)). }
  rewrite wrn_app_mid by (rewrite ?zlen_app, ?zlen_cons; change (zlen (@nil Z)) with 0; zlia).
  eexists. split; [done|]. rewrite <- !(assoc_L (++)). rewrite (assoc_L (++) h A), (assoc_L (++) [p2] x4).
  rewrite enc_prev; [|done|rewrite Hn; cbn [psize]; zlia|done].
  rewrite Hn. by rewrite <- !(assoc_L (++)).
Qed.

Definition estart (e : ent) (q : Z) : list Z := prevb (large e) q ++ body (val e).

Lemma zlen_estart e q : zlen (estart e q) = esize e.
Proof. apply zlen_entry. Qed.

(** Reading the entry that follows [h ++ A]. *)
Lemma at_entry h A e q r p zl : zl = h ++ A ++ estart e q ++ r -> p = zlen h + zlen A ->
  prev_ok (large e) q -> val_ok (val e) ->
  (exists c, rd zl p = Some c /\ (c =? ZIP_END) = false) /\
  zipEntry zl p = Some (Zlentry (psize (large e)) q (zlen (vhdr (val e))) (zlen (vdata (val e)))
    (psize (large e) + zlen (vhdr (val e))) (venc (val e)) p) /\
  zipRawEntryLength zl p = Some (esize e) /\
  uwrap 32 (psize (large e) + zlen (vhdr (val e)) + zlen (vdata (val e))) = esize e /\
  zlen h + zlen (A ++ estart e q) = p + esize e /\
  ZIP_DECODE_PREVLENSIZE zl p = Some (psize (large e)) /\
  ZIP_DECODE_LENGTH zl (p + psize (large e)) =
    Some (venc (val e), zlen (vhdr (val e)), zlen (vdata (val e))).
Proof.
  intros Hz Hp Hq Hv. pose proof (esize_bounds e Hv).
  assert (zl = (h ++ A) ++ prevb (large e) q ++ body (val e) ++ r) as E1
    by (rewrite Hz; unfold estart; by rewrite <- !(assoc_L (++))).
  assert (p = zlen (h ++ A)) as Ep by (by rewrite zlen_app).
  split_and!.
  - by apply (head_ok zl (h ++ A) (large e) q (body (val e) ++ r)).
  - by apply (entry_ok zl (h ++ A) e q r).
  - by apply (raw_ok zl (h ++ A) e q r).
  - rewrite <- esize_parts. by rewrite u32_small by lia.
  - rewrite zlen_app, zlen_estart. lia.
  - by apply (dec_prevsize zl (h ++ A) (large e) q (body (val e) ++ r)).
  - apply (dec_length zl ((h ++ A) ++ prevb (large e) q) (val e) r); [|by rewrite zlen_app, prevb_len, Ep|done].
    rewrite E1. by rewrite <- !(assoc_L (++)).
Qed.

Lemma at_end h A p zl : zl = h ++ A ++ [ZIP_END] -> p = zlen h + zlen A -> rd zl p = Some ZIP_END.
Proof. intros -> ->. rewrite (assoc_L (++)), <- zlen_app. apply rd_mid. Qed.

(** The state of the cascade at the entry [e]: the field of the next entry still
    holds [p']. *)
Definition cstate (b t c : Z) (A : list Z) (e : ent) (q p' : Z) (es : list ent) : list Z :=
  hdr b t c ++ A ++ estart e q ++ enc_ents p' es ++ [ZIP_END].

Lemma cascade_last fuel b t c A e q p' : prev_ok (large e) q -> val_ok (val e) ->
  cascade_loop junk (S fuel) (cstate b t c A e q p' []) (10 + zlen A) b = Some (cstate b t c A e q p' []).
Proof.
  intros Hq Hv. cbn [cascade_loop]. set (zl := cstate b t c A e q p' []).
  assert (10 + zlen A = zlen (hdr b t c) + zlen A) as Ep by (by rewrite zlen_hdr).
  destruct (at_entry (hdr b t c) A e q [ZIP_END] (10 + zlen A) zl eq_refl Ep Hq Hv)
    as ((ch & -> & Ech) & -> & _ & Er & En & _).
  cbn [mbind option_bind headersize len]. rewrite Ech, Er.
  rewrite (at_end (hdr b t c) (A ++ estart e q)); [done| |by rewrite En].
  unfold zl, cstate. cbn [enc_ents app]. by rewrite <- !(assoc_L (++)).
Qed.

(** One round: stop, widen the next field and go on, or overwrite it and stop. *)
Lemma cascade_round fuel b t c A e q p' nx es :
  prev_ok (large e) q -> val_ok (val e) -> val_ok (val nx) -> prev_ok (large nx) p' ->
  b = 11 + zlen A + esize e + esize nx + total es -> b <= ZIPLIST_LIMIT ->
  (need (esize e) && negb (large nx) = true -> b + 4 <= ZIPLIST_LIMIT) -> 0 <= t <= b -> (t = 10 + zlen A + esize e <-> es = []) ->
  cascade_loop junk (S fuel) (cstate b t c A e q p' (nx :: es)) (10 + zlen A) b =
    if need (esize e) && negb (large nx)
    then cascade_loop junk fuel
      (cstate (b + 4) (match es with [] => t | _ => t + 4 end) c (A ++ estart e q) (widen nx) (esize e) (esize nx) es)
      (10 + zlen (A ++ estart e q)) (b + 4)
    else Some (cstate b t c A e q (esize e) (nx :: es)).
Proof.
  intros Hq Hv Hvn Hp' Hb Hb31 Hlim Htb Hte. cbn [cascade_loop]. unfold ZIPLIST_LIMIT in Hb31, Hlim.
  assert (in_u 32 t) as Htu by (unfold in_u; lia). assert (in_u 32 (t + 4)) as Htu4 by (unfold in_u; lia).
  set (zl := cstate b t c A e q p' (nx :: es)). set (X := enc_ents (esize nx) es ++ [ZIP_END]).
  pose proof (esize_bounds e Hv) as Hes. pose proof (zlen_nonneg A). pose proof (total_nonneg es).
  pose proof (esize_pos nx).
  assert (zl = hdr b t c ++ A ++ estart e q ++ (estart nx p' ++ X)) as E1
    by (unfold zl, cstate, X, estart; cbn [enc_ents]; by rewrite <- !(assoc_L (++))).
  assert (zl = hdr b t c ++ (A ++ estart e q) ++ estart nx p' ++ X) as E2
    by (rewrite E1; by rewrite <- !(assoc_L (++))).
  destruct (at_entry (hdr b t c) A e q _ (10 + zlen A) zl E1) as ((ch & -> & Ech) & -> & _ & Er & En & _);
    [by rewrite zlen_hdr|done..|]. symmetry in En.
  destruct (at_entry (hdr b t c) (A ++ estart e q) nx p' X (10 + zlen A + esize e) zl E2 En Hp' Hvn)
    as ((cn & Hcn & Ecn) & Hnx & _).
  cbn [mbind option_bind headersize len]. rewrite Ech, Er, Hcn. cbn [mbind option_bind]. rewrite Ecn, Hnx.
  cbn [mbind option_bind prevrawlen prevrawlensize]. rewrite prev_size_need.
  set (P := hdr b t c ++ A ++ estart e q).
  assert (zl = P ++ prevb (large nx) p' ++ body (val nx) ++ X) as E3
    by (rewrite E1; unfold P, estart; by rewrite <- !(assoc_L (++))).
  assert (10 + zlen A + esize e = zlen P) as EP by (rewrite En; unfold P; rewrite !zlen_app; lia).
  assert (cstate b t c A e q (esize e) (nx :: es) = P ++ prevb (large nx) (esize e) ++ body (val nx) ++ X) as E4
    by (unfold cstate, P, X; cbn [enc_ents]; by rewrite <- !(assoc_L (++))).
  destruct (Z.eqb_spec p' (esize e)) as [->|Hne].
  { replace (need (esize e) && negb (large nx)) with false; [done|].
    destruct Hp' as [_ Hl]. unfold need. destruct (Z.leb_spec ZIP_BIGLEN (esize e)); [|done].
    by rewrite Hl. }
  destruct (need (esize e)) eqn:Enn, (large nx) eqn:El;
    cbn [psize andb negb Z.ltb Z.compare Pos.compare Pos.compare_cont].
  - rewrite E3, E4, enc_prev; [by rewrite Enn|done|by rewrite prevb_len, Enn|lia].
  - specialize (Hlim eq_refl). destruct (resize_more junk b t c ((A ++ estart e q) ++ prevb false p' ++ body (val nx) ++ enc_ents (esize nx) es) (b + 4))
      as (y & Ey & Hy & _); [rewrite !zlen_app, prevb_len, zlen_estart, zlen_enc_ents; unfold esize at 2 in Hb;
        rewrite El in Hb; unfold bsize in Hb; lia|lia|].
    replace (5 - 1) with 4 by lia.
    replace (ziplistResize junk zl (b + 4)) with (Some (hdr (b + 4) t c ++ ((A ++ estart e q) ++ prevb false p' ++
      body (val nx) ++ enc_ents (esize nx) es) ++ y ++ [ZIP_END]))
      by (rewrite <- Ey, E2; unfold X, estart; rewrite El; by rewrite <- !(assoc_L (++))).
    cbn [mbind option_bind]. rewrite entry_tail by done. cbn [mbind option_bind].
    assert ((if negb (t =? 10 + zlen A + esize e)
      then add_tail (hdr (b + 4) t c ++ ((A ++ estart e q) ++ prevb false p' ++ body (val nx) ++
             enc_ents (esize nx) es) ++ y ++ [ZIP_END]) 4
      else Some (hdr (b + 4) t c ++ ((A ++ estart e q) ++ prevb false p' ++ body (val nx) ++
             enc_ents (esize nx) es) ++ y ++ [ZIP_END])) =
      Some (hdr (b + 4) (match es with [] => t | _ => t + 4 end) c ++ ((A ++ estart e q) ++ prevb false p' ++
             body (val nx) ++ enc_ents (esize nx) es) ++ y ++ [ZIP_END])) as ->.
    { destruct (Z.eqb_spec t (10 + zlen A + esize e)) as [Et|Et]; cbn [negb].
      - apply Hte in Et as ->. done.
      - rewrite add_tail_ok by done. destruct es; [by destruct Et; apply Hte|done]. }
    cbn [mbind option_bind]. rewrite <- !(assoc_L (++)).
    assert (zlen (body (val nx) ++ enc_ents (esize nx) es) = bsize (val nx) + total es) as Et'
      by (by rewrite zlen_app, zlen_enc_ents).
    assert (esize nx = 1 + bsize (val nx)) as Enx by (unfold esize; by rewrite El).
    rewrite !zlen_app, prevb_len, zlen_estart, <- zlen_app, Et' in Hy. cbn [psize] in Hy.
    destruct (widen_field (hdr (b + 4) (match es with [] => t | _ => t + 4 end) c) (A ++ estart e q) false p'
      (body (val nx) ++ enc_ents (esize nx) es) y (esize e) (10 + zlen A + esize e)
      (b - (10 + zlen A + esize e) - 1 - 1)) as (z & W1 & W2);
      [done|lia|by rewrite zlen_app, zlen_hdr, zlen_app, zlen_estart, <- Z.add_assoc|lia|done|lia|].
    rewrite <- !(assoc_L (++)) in W1. rewrite W1. cbn [mbind option_bind]. rewrite W2. cbn [mbind option_bind].
    unfold cstate. f_equal; [|rewrite zlen_app, zlen_estart; lia].
    unfold estart, widen. cbn [large val]. by rewrite <- !(assoc_L (++)).
  - rewrite E3, E4. by rewrite force_large by (done || by rewrite prevb_len).
  - rewrite E3, E4, enc_prev; [by rewrite Enn|done|by rewrite prevb_len, Enn|lia].
Qed.

Lemma last_off_one e : last_off [e] = 0.
Proof. by rewrite last_off_cons. Qed.

Lemma esize_widen e : large e = false -> esize (widen e) = esize e + 4.
Proof. intros E. unfold esize, widen. cbn [large val]. rewrite E. cbn [psize]. lia. Qed.

Lemma total_casc es : forall raw, total es <= total (casc raw es).
Proof.
  induction es as [|e es IH]; intros raw; [done|]. cbn [casc].
  destruct (need raw && negb (large e)) eqn:E; [|done]. rewrite !total_cons.
  specialize (IH (esize (widen e))). apply andb_true_iff in E as [_ E]. apply negb_true_iff in E.
  rewrite esize_widen in * by done. lia.
Qed.

Lemma last_off_cons_total e es : es <> [] -> last_off (e :: es) = esize e + last_off es.
Proof. intros Hne. rewrite last_off_cons. by destruct es. Qed.

(** The cascade from the entry [e] on: every field that has to grows, the tail offset
    and the size follow, and nothing else changes. *)
Lemma cascade_ok es : forall fuel b t c A e q p',
  prev_ok (large e) q -> val_ok (val e) -> chain_tl es -> first_ok p' es ->
  b = 11 + zlen A + esize e + total es -> t = 10 + zlen A + last_off (e :: es) ->
  11 + zlen A + esize e + total (casc (esize e) es) <= ZIPLIST_LIMIT ->
  (length es < fuel)%nat ->
  cascade_loop junk fuel (cstate b t c A e q p' es) (10 + zlen A) b =
    Some (cstate (11 + zlen A + esize e + total (casc (esize e) es))
      (10 + zlen A + last_off (e :: casc (esize e) es)) c A e q (esize e) (casc (esize e) es)).
Proof.
  induction es as [|nx es IH]; intros fuel b t c A e q p' Hq Hv Htl Hp' Hb Ht Hlim Hf;
    (destruct fuel as [|fuel]; [cbn in Hf; lia|]).
  { rewrite cascade_last by done. cbn [casc]. change (total []) with 0 in *. rewrite Hb, Ht. done. }
  destruct Htl as [Hvn Hc].
  pose proof (zlen_nonneg A). pose proof (esize_pos e). pose proof (esize_pos nx).
  pose proof (total_nonneg es). rewrite total_cons in Hb.
  pose proof (total_casc (nx :: es) (esize e)) as Htc. rewrite total_cons in Htc.
  rewrite last_off_cons_total in Ht by done.
  pose proof (last_off_nonneg (nx :: es)) as Hlo. pose proof (last_off_total (nx :: es)) as Hlt.
  rewrite total_cons in Hlt. unfold ZIPLIST_LIMIT in *.
  assert (need (esize e) && negb (large nx) = true -> b + 4 <= ZIPLIST_LIMIT /\ large nx = false) as Hb4.
  { intros E. cbn [casc] in Hlim. rewrite E, total_cons in Hlim.
    apply andb_true_iff in E as [_ E]. apply negb_true_iff in E. rewrite esize_widen in Hlim by done.
    pose proof (total_casc es (esize nx + 4)). unfold ZIPLIST_LIMIT. split; [lia|done]. }
  rewrite cascade_round; try done; [|lia|unfold ZIPLIST_LIMIT; lia|intros E; by apply Hb4|lia|].
  2: { rewrite Ht. destruct es as [|e2 es]; [rewrite last_off_one; split; [done|lia]|].
       rewrite last_off_cons_total by done. pose proof (last_off_nonneg (e2 :: es)).
       split; [lia|done]. }
  destruct (need (esize e) && negb (large nx)) eqn:E.
  - destruct Hb4 as [Hb4 El]; [done|].
    cbn [casc] in *. rewrite E in *. rewrite total_cons in *. rewrite esize_widen in * by done.
    pose proof (esize_bounds nx Hvn) as Hbn. apply chain_first in Hc as [Hf1 Hc1]; [|lia].
    rewrite (IH fuel).
    + unfold cstate, estart. rewrite zlen_app, zlen_estart || rewrite zlen_app, zlen_entry.
      rewrite esize_widen by done. fold (esize e).
      rewrite (last_off_cons_total e) by done.
      cbn [enc_ents]. rewrite esize_widen by done. rewrite <- !(assoc_L (++)).
      do 2 f_equal. f_equal; lia.
    + split; [|done]. pose proof (esize_bounds e Hv). lia.
    + done.
    + done.
    + done.
    + rewrite zlen_app, zlen_estart, esize_widen by done. lia.
    + rewrite zlen_app, zlen_estart, Ht. destruct es as [|e2 es]; [rewrite !last_off_one; lia|].
      rewrite (last_off_cons_total nx), (last_off_cons_total (widen nx)), esize_widen by done. lia.
    + rewrite zlen_app, zlen_estart, esize_widen by done. unfold ZIPLIST_LIMIT. lia.
    + cbn [length] in Hf. lia.
  - cbn [casc] in *. rewrite E in *. rewrite total_cons, last_off_cons_total by done. f_equal.
    unfold cstate. f_equal. f_equal; lia.
Qed.

Lemma zlen_le_total es : zlen es <= total es.
Proof.
  induction es as [|e es IH]; [done|]. rewrite zlen_cons, total_cons. pose proof (esize_pos e). lia.
Qed.

Lemma zlen_cstate b t c A e q p' es :
  zlen (cstate b t c A e q p' es) = 11 + zlen A + esize e + total es.
Proof.
  unfold cstate. rewrite !zlen_app, zlen_hdr, zlen_estart, zlen_enc_ents, zlen_cons.
  change (zlen (@nil Z)) with 0. lia.
Qed.

Lemma cascade_update_ok es b t c A e q p' :
  prev_ok (large e) q -> val_ok (val e) -> chain_tl es -> first_ok p' es ->
  b = 11 + zlen A + esize e + total es -> t = 10 + zlen A + last_off (e :: es) ->
  11 + zlen A + esize e + total (casc (esize e) es) <= ZIPLIST_LIMIT ->
  __ziplistCascadeUpdate junk (cstate b t c A e q p' es) (10 + zlen A) =
    Some (cstate (11 + zlen A + esize e + total (casc (esize e) es))
      (10 + zlen A + last_off (e :: casc (esize e) es)) c A e q (esize e) (casc (esize e) es)).
Proof.
  intros Hq Hv Htl Hp' Hb Ht Hlim. unfold __ziplistCascadeUpdate.
  pose proof (zlen_nonneg A). pose proof (esize_pos e). pose proof (total_nonneg es).
  pose proof (total_casc es (esize e)).
  assert (in_u 32 b) as Hu by (unfold in_u, ZIPLIST_LIMIT in *; lia).
  destruct (get_bytes b t c (A ++ estart e q ++ enc_ents p' es ++ [ZIP_END]) Hu) as [G E].
  fold (cstate b t c A e q p' es) in G. rewrite G.
  cbn [mbind option_bind]. rewrite E. apply cascade_ok; try done.
  pose proof (zlen_cstate b t c A e q p' es) as L. pose proof (zlen_le_total es) as Hle.
  unfold zlen in L, Hle. unfold zlen in *. lia.
Qed.

(** ** Proofs: integers *)

Lemma rev_enc n rev v : reverses n rev -> rev (host_enc n v) 0 = Some (le_enc n v).
Proof.
  intros Hr. pose proof (store_le n rev (host_enc n v) 0 v Hr) as E.
  rewrite <- (app_nil_r (host_enc n v)) in E at 1.
  rewrite (wrn_prefix (host_enc n v)) in E by done. cbn [mbind option_bind] in E.
  rewrite app_nil_r in E. rewrite E. rewrite <- (app_nil_r (host_enc n v)).
  rewrite wrn_prefix by (by rewrite zlen_host_enc, zlen_le_enc). by rewrite app_nil_r.
Qed.

Lemma store_at n rev a g r v p : reverses n rev -> p = zlen a -> zlen g = Z.of_nat n ->
  (zl ← wrn (a ++ g ++ r) p (host_enc n v); rev zl p) = Some (a ++ le_enc n v ++ r).
Proof.
  intros Hr -> Hg. rewrite (store_le n rev) by done. rewrite wrn_app_mid; [done|done|].
  by rewrite zlen_le_enc.
Qed.

Lemma load_at n rev a r v p : reverses n rev -> p = zlen a ->
  (b ← rdn (a ++ le_enc n v ++ r) p (Z.of_nat n); b ← rev b 0; Some (host_dec b)) =
  Some (v mod 256 ^ Z.of_nat n).
Proof.
  intros Hr ->. rewrite (load_le n rev) by done. rewrite rdn_app_mid by (by rewrite ?zlen_le_enc).
  cbn. by rewrite le_dec_enc.
Qed.

Lemma host_enc1 v : host_enc 1 v = le_enc 1 v.
Proof. unfold host_enc. by destruct big_endian. Qed.

Lemma le_enc_shift n v : le_enc (S n) (v * 256) = 0 :: le_enc n v.
Proof. cbn [le_enc]. rewrite Z.mod_mul, Z.div_mul by lia. done. Qed.

Lemma save_int a g r p v enc : p = zlen a -> zlen g = zipIntSize enc -> int_ok v enc ->
  zipSaveInteger (a ++ g ++ r) p v enc = Some (a ++ int_bytes v enc ++ r).
Proof.
  intros Hp Hg [[He Hv]|[[He1 He2] ->]]; unfold zipSaveInteger, int_bytes.
  - destruct He as [-> | [-> | [-> | [-> | ->]]]];
      match goal with |- context [zipIntSize ?e] =>
        let s := eval cbv in (zipIntSize e) in change (zipIntSize e) with s in * end;
      cbn [Z.eqb Pos.eqb ZIP_INT_8B ZIP_INT_16B ZIP_INT_24B ZIP_INT_32B ZIP_INT_64B].
    + rewrite host_enc1. change (Z.to_nat 1) with 1%nat. by rewrite wrn_app_mid.
    + by apply (store_at 2 memrev16ifbe); [apply memrev16ifbe_reverses|..].
    + rewrite (rev_enc 4) by apply memrev32ifbe_reverses. cbn [mbind option_bind].
      unfold in_s in Hv. change (2 ^ (8 * 3 - 1)) with 8388608 in Hv.
      rewrite s32_small, Z.shiftl_mul_pow2 by (rewrite ?Z.shiftl_mul_pow2; lia).
      change (2 ^ 8) with 256. rewrite le_enc_shift.
      change (0 :: le_enc 3 v) with ([0] ++ le_enc 3 v). rewrite <- (app_nil_r (le_enc 3 v)) at 1.
      rewrite rdn_app_mid by done. cbn [mbind option_bind]. change (Z.to_nat 3) with 3%nat.
      by rewrite wrn_app_mid.
    + by apply (store_at 4 memrev32ifbe); [apply memrev32ifbe_reverses|..].
    + by apply (store_at 8 memrev64ifbe); [apply memrev64ifbe_reverses|..].
  - unfold ZIP_INT_IMM_MIN, ZIP_INT_IMM_MAX, ZIP_INT_8B, ZIP_INT_16B, ZIP_INT_24B, ZIP_INT_32B, ZIP_INT_64B in *.
    assert (zipIntSize enc = 0) as Es.
    { unfold zipIntSize, ZIP_INT_8B, ZIP_INT_16B, ZIP_INT_24B, ZIP_INT_32B, ZIP_INT_64B. repeat zcase; lia. }
    rewrite Es in *. rewrite (zlen_0_inv g) by done.
    repeat match goal with |- context [enc =? ?k] => destruct (Z.eqb_spec enc k); [lia|] end.
    by zdec.
Qed.

Lemma load_int a r p v enc : p = zlen a -> int_ok v enc ->
  zipLoadInteger (a ++ int_bytes v enc ++ r) p enc = Some v.
Proof.
  intros Hp [[He Hv]|[[He1 He2] ->]]; unfold zipLoadInteger, int_bytes.
  - assert (forall w, 0 < w -> in_s w v -> swrap w (v mod 2 ^ w) = v) as Es
      by (intros; change (v mod 2 ^ w) with (uwrap w v); by rewrite swrap_uwrap, swrap_small).
    destruct He as [-> | [-> | [-> | [-> | ->]]]];
      match goal with |- context [zipIntSize ?e] =>
        let s := eval cbv in (zipIntSize e) in change (zipIntSize e) with s in * end;
      cbn [Z.eqb Pos.eqb ZIP_INT_8B ZIP_INT_16B ZIP_INT_24B ZIP_INT_32B ZIP_INT_64B].
    + change (Z.to_nat 1) with 1%nat. rewrite rdn_app_mid by (done || by rewrite zlen_le_enc).
      cbn [mbind option_bind]. rewrite <- host_enc1, host_dec_enc. f_equal. apply (Es 8); [lia|done].
    + pose proof (load_at 2 memrev16ifbe a r v p memrev16ifbe_reverses Hp) as L.
      change (Z.of_nat 2) with 2 in L. change (Z.to_nat 2) with 2%nat.
      destruct (rdn _ p 2) as [b|]; [|done]. cbn [mbind option_bind] in *.
      destruct (memrev16ifbe b 0); [|done]. cbn [mbind option_bind] in *. injection L as ->.
      f_equal. apply (Es 16); [lia|done].
    + change (Z.to_nat 3) with 3%nat. rewrite rdn_app_mid by (done || by rewrite zlen_le_enc).
      cbn [mbind option_bind]. rewrite <- le_enc_shift.
      pose proof (load_at 4 memrev32ifbe [] [] (v * 256) 0 memrev32ifbe_reverses eq_refl) as L.
      cbn [app] in L. rewrite app_nil_r, <- (zlen_le_enc 4 (v * 256)), rdn_whole in L.
      cbn [mbind option_bind] in L. rewrite zlen_le_enc in L.
      destruct (memrev32ifbe _ 0); [|done]. cbn [mbind option_bind] in *. injection L as ->.
      unfold in_s in Hv. change (2 ^ (8 * 3 - 1)) with 8388608 in Hv.
      change (256 ^ Z.of_nat 4) with (2 ^ 32). change ((v * 256) mod 2 ^ 32) with (uwrap 32 (v * 256)).
      rewrite swrap_uwrap, s32_small, Z.shiftr_div_pow2 by lia. change (2 ^ 8) with 256.
      by rewrite Z.div_mul by lia.
    + pose proof (load_at 4 memrev32ifbe a r v p memrev32ifbe_reverses Hp) as L.
      change (Z.of_nat 4) with 4 in L. change (Z.to_nat 4) with 4%nat.
      destruct (rdn _ p 4) as [b|]; [|done]. cbn [mbind option_bind] in *.
      destruct (memrev32ifbe b 0); [|done]. cbn [mbind option_bind] in *. injection L as ->.
      f_equal. apply (Es 32); [lia|done].
    + pose proof (load_at 8 memrev64ifbe a r v p memrev64ifbe_reverses Hp) as L.
      change (Z.of_nat 8) with 8 in L. change (Z.to_nat 8) with 8%nat.
      destruct (rdn _ p 8) as [b|]; [|done]. cbn [mbind option_bind] in *.
      destruct (memrev64ifbe b 0); [|done]. cbn [mbind option_bind] in *. injection L as ->.
      f_equal. apply (Es 64); [lia|done].
  - unfold ZIP_INT_IMM_MIN, ZIP_INT_IMM_MAX, ZIP_INT_8B, ZIP_INT_16B, ZIP_INT_24B, ZIP_INT_32B, ZIP_INT_64B in *.
    repeat match goal with |- context [enc =? ?k] => destruct (Z.eqb_spec enc k); [lia|] end.
    zdec. f_equal. unfold ZIP_INT_IMM_MASK. change 0x0f with (Z.ones 4). rewrite Z.land_ones by lia.
    change (2 ^ 4) with 16. Z.div_mod_to_equations; lia.
Qed.

Lemma enc_of_ok v : in_s 64 v -> int_ok v (enc_of v).
Proof.
  intros Hv. unfold int_ok, enc_of, in_s, ZIP_INT_IMM_MIN, ZIP_INT_IMM_MAX, INT24_MIN, INT24_MAX in *.
  destruct ((0 <=? v) && (v <=? 12)) eqn:E0; [bool_to_prop; right; lia|]. left.
  repeat match goal with |- context [if ?b then _ else _] =>
    destruct b eqn:?; [bool_to_prop; split; [tauto|cbn; lia]|] end.
  split; [tauto|cbn in *; lia].
Qed.

Lemma value_of_ok s : zlen s < 2 ^ 31 -> val_ok (value_of s).
Proof.
  intros Hs. unfold value_of. destruct (_ || _); [done|]. destruct (Num.string2ll s) as [v|] eqn:E; [|done].
  apply string2ll_iff in E as [Hv _]. by apply enc_of_ok.
Qed.

(** Nothing is lost when a string is stored as an integer. *)
Lemma text_value_of s : text (value_of s) = s.
Proof.
  unfold value_of. destruct (_ || _); [done|]. destruct (Num.string2ll s) as [v|] eqn:E; [|done].
  apply string2ll_iff in E as [_ E]. cbn [text]. by rewrite E.
Qed.

Lemma try_enc s : zipTryEncoding s (zlen s) =
  Some (match value_of s with EStr _ => None | EInt v enc => Some (v, enc) end).
Proof.
  unfold zipTryEncoding, value_of. destruct (_ || _); [done|]. rewrite rdn_whole. cbn [mbind option_bind].
  by destruct (Num.string2ll s).
Qed.

Lemma str_hdr s : zipEncodeLength_buf 0 (zlen s) = vhdr (EStr s).
Proof. done. Qed.

Lemma int_hdr v enc n : int_ok v enc -> zipEncodeLength_buf enc n = [enc].
Proof. intros Hi. unfold zipEncodeLength_buf. destruct (int_enc_cases v enc Hi) as (_ & _ & -> & _). done. Qed.

(** The part of __ziplistInsert that depends on the encoding. *)
Definition enc_choice (s : list Z) : Z * Z * Z :=
  match (match value_of s with EStr _ => None | EInt v enc => Some (v, enc) end) with
  | Some (value, encoding) => (value, encoding, zipIntSize encoding)
  | None => (123456789, 0, zlen s)
  end.

Lemma enc_choice_ok s value encoding n : enc_choice s = (value, encoding, n) -> zlen s < 2 ^ 31 ->
  n = zlen (vdata (value_of s)) /\ zipEncodeLength_buf encoding (zlen s) = vhdr (value_of s) /\
  (forall a g r p, p = zlen a -> zlen g = n ->
    (if ZIP_IS_STR encoding then src ← rdn s 0 (zlen s); wrn (a ++ g ++ r) p src
     else zipSaveInteger (a ++ g ++ r) p value encoding) = Some (a ++ vdata (value_of s) ++ r)).
Proof.
  intros E Hs. pose proof (value_of_ok s Hs) as Hv. unfold enc_choice in E.
  destruct (value_of s) as [s'|v enc] eqn:Ev; injection E as <- <- <-.
  - assert (s' = s) as -> by (pose proof (text_value_of s) as T; by rewrite Ev in T).
    split_and!; [done|done|]. intros a g r p -> Hg. change (ZIP_IS_STR 0) with true. cbv iota.
    rewrite rdn_whole. cbn [mbind option_bind vdata]. by rewrite wrn_app_mid.
  - cbn [val_ok vdata vhdr] in *. split_and!.
    + unfold int_bytes. rewrite zlen_le_enc, Z2Nat.id by apply int_size. done.
    + by apply (int_hdr v).
    + intros a g r p Hp Hg. destruct (int_enc_cases v enc Hv) as (_ & _ & -> & _).
      by rewrite save_int.
Qed.

(** The writes of a new entry into a gap of its size. *)
Lemma write_entry s value encoding n a g r p q :
  enc_choice s = (value, encoding, n) -> zlen s < 2 ^ 31 -> p = zlen a -> 0 <= q ->
  zlen g = esize (Ent (need q) (value_of s)) ->
  ('(zl, n) ← zipPrevEncodeLength (a ++ g ++ r) p q;
   let p := p + n in
   '(zl, n) ← zipEncodeLength zl p encoding (zlen s);
   let p := p + n in
   zl ← (if ZIP_IS_STR encoding then src ← rdn s 0 (zlen s); wrn zl p src
         else zipSaveInteger zl p value encoding);
   ZIPLIST_INCR_LENGTH zl 1) =
  ZIPLIST_INCR_LENGTH (a ++ estart (Ent (need q) (value_of s)) q ++ r) 1.
Proof.
  intros Ec Hs -> Hq Hg. destruct (enc_choice_ok s value encoding n Ec Hs) as (Hn & Hh & Hw).
  rewrite esize_parts in Hg. cbn [large val] in Hg. set (v := value_of s) in *.
  pose proof (zlen_nonneg (vhdr v)). pose proof (zlen_nonneg (vdata v)).
  assert (0 <= psize (need q)) by (destruct (need q); cbn; lia).
  destruct (split_at g (psize (need q))) as (g1 & g' & -> & Hg1 & Hg'); [lia|].
  destruct (split_at g' (zlen (vhdr v))) as (g2 & g3 & -> & Hg2 & Hg3); [lia|].
  rewrite <- !(assoc_L (++)). rewrite enc_prev by done. cbn [mbind option_bind].
  unfold zipEncodeLength. rewrite Hh. rewrite (assoc_L (++) a).
  rewrite wrn_app_mid by (rewrite ?zlen_app, ?prevb_len; done). cbn [mbind option_bind].
  rewrite (assoc_L (++) (a ++ prevb (need q) q)).
  rewrite Hw; [|rewrite !zlen_app, prevb_len; lia|lia]. cbn [mbind option_bind].
  unfold estart. cbn [large val]. fold v. rewrite body_parts. by rewrite <- !(assoc_L (++)).
Qed.

(** ** Proofs: insertion *)

(** The entries after the inserted one of length [rl]. *)
Definition relink (rl : Z) (es : list ent) : list ent :=
  match es with
  | [] => []
  | nx :: es => let nx' := Ent (need rl) (val nx) in nx' :: casc (esize nx') es
  end.

(** The bytes a new entry takes after one of length [q]. *)
Definition newent (q : Z) (s : list Z) : ent := Ent (need q) (value_of s).

(** The field of the next entry shrinks by more than the new entry takes. *)
Definition hazard (rl : Z) (es : list ent) : bool :=
  match es with [] => false | nx :: _ => large nx && (rl <? 4) end.

Lemma casc_id es : forall n, chain n es -> casc n es = es.
Proof.
  destruct es as [|e es]; intros n Hc; [done|]. destruct Hc as (Hl & _ & _). cbn [casc]. unfold need.
  destruct (Z.leb_spec ZIP_BIGLEN n); [rewrite Hl by done|]; done.
Qed.

Lemma relink_chain rl es : 0 <= rl < 2 ^ 32 -> chain_tl es -> chain rl (relink rl es).
Proof.
  intros Hr Hc. destruct es as [|nx es]; [done|]. destruct Hc as [Hv Hc]. cbn [relink chain large val].
  split_and!; [by intros; apply Z.leb_le|done|].
  pose proof (esize_bounds (Ent (need rl) (val nx)) Hv). pose proof (esize_bounds nx Hv).
  apply casc_chain; [lia|]. apply chain_first in Hc; [tauto|lia].
Qed.

Lemma relink_vals rl es : map val (relink rl es) = map val es.
Proof. destruct es as [|nx es]; [done|]. cbn [relink map val]. by rewrite casc_vals. Qed.

Lemma prev_diff zl a lg n r p m : zl = a ++ prevb lg n ++ r -> p = zlen a -> prev_ok lg n ->
  zipPrevLenByteDiff zl p m = Some (psize (need m) - psize lg).
Proof.
  intros Hz Hp Hok. unfold zipPrevLenByteDiff. rewrite (dec_prevsize zl a lg n r) by done.
  cbn [mbind option_bind]. rewrite prev_size_need, swrap_uwrap, s32_small;
    destruct lg, (need m); cbn [psize]; done || lia.
Qed.

(** The move that makes room: the last [zlen B] bytes go to their new place, and a field
    of the new width lies before them. *)
Lemma shift_entry P X B y rl d m : 4 <= zlen P -> zlen y = rl + d -> 0 <= rl -> 0 <= zlen X + d -> -4 <= d <= 4 ->
  m = zlen X + zlen B + d ->
  exists G w, mmove (P ++ X ++ B ++ y ++ [ZIP_END]) (zlen P + rl) (zlen P - d) m =
      Some (P ++ G ++ w ++ B ++ [ZIP_END]) /\ zlen G = rl /\ zlen w = zlen X + d.
Proof.
  intros HP Hy Hrl HX Hd ->. pose proof (zlen_nonneg X). pose proof (zlen_nonneg B).
  assert (exists a w, (P ++ X ++ B ++ y ++ [ZIP_END]) = a ++ (w ++ B) ++ y ++ [ZIP_END] /\
    zlen a = zlen P - d /\ zlen w = zlen X + d) as (a & w & E & Ha & Hw).
  { destruct (Z.le_gt_cases d 0).
    - destruct (split_at X (- d)) as (X1 & X2 & -> & L1 & L2); [lia|].
      rewrite zlen_app in *. exists (P ++ X1), X2. rewrite zlen_app. rewrite <- !(assoc_L (++)).
      split_and!; [done|lia|lia].
    - destruct (split_at P (zlen P - d)) as (P1 & P2 & EP & L1 & L2); [lia|].
      exists P1, (P2 ++ X). rewrite zlen_app. split_and!; [|lia|lia].
      rewrite EP at 1. by rewrite <- !(assoc_L (++)). }
  rewrite (mmove_mid _ a (w ++ B) (y ++ [ZIP_END])) by (done || rewrite ?zlen_app; lia).
  destruct (split_at (X ++ B ++ y) rl) as (G & r & EG & HG & Hr); [rewrite !zlen_app; lia|].
  rewrite !zlen_app in Hr. exists G, w. split_and!; [|done|done].
  replace (P ++ X ++ B ++ y ++ [ZIP_END]) with ((P ++ G) ++ r ++ [ZIP_END]).
  2: { rewrite <- !(assoc_L (++)), (assoc_L (++) G r), <- EG. by rewrite <- !(assoc_L (++)). }
  rewrite wrn_app_mid by (rewrite ?zlen_app; lia). by rewrite <- !(assoc_L (++)).
Qed.

Lemma last_entry es : es <> [] -> exists es' e, es = es' ++ [e] /\ last_off es = total es' /\ last_size 0 es = esize e.
Proof.
  intros Hne. destruct (exists_last Hne) as (es' & e & ->). exists es', e. split; [done|].
  unfold last_off. rewrite total_app, last_size_app, total_cons. cbn [last_size].
  change (total []) with 0. split; [lia|done].
Qed.

Lemma last_off_app es e es' : last_off (es ++ e :: es') = total es + last_off (e :: es').
Proof. unfold last_off. rewrite total_app, last_size_app. cbn [last_size]. lia. Qed.

Lemma last_off_app_any es es' : es' <> [] -> last_off (es ++ es') = total es + last_off es'.
Proof. destruct es' as [|e es']; [done|]. intros _. apply last_off_app. Qed.

(** The length of the entry before the insertion point at the end of the list. *)
Lemma prevlen_tail zl es b t c : zl = hdr b t c ++ enc_ents 0 es ++ [ZIP_END] -> t = 10 + last_off es ->
  chain 0 es -> 11 + total es <= ZIPLIST_LIMIT ->
  (ptail ← ZIPLIST_ENTRY_TAIL zl; ct ← rd zl ptail;
   if negb (ct =? ZIP_END) then zipRawEntryLength zl ptail else Some 0) = Some (last_size 0 es).
Proof.
  intros Hz Ht Hc Hl. pose proof (last_off_nonneg es). pose proof (last_off_total es).
  rewrite Hz at 1. rewrite entry_tail by (unfold in_u, ZIPLIST_LIMIT in *; lia). cbn [mbind option_bind].
  destruct (decide (es = [])) as [->|Hne].
  - rewrite (at_end (hdr b t c) [] t zl); [done|by rewrite Hz|by rewrite Ht, zlen_hdr].
  - destruct (last_entry es Hne) as (es' & e & -> & E1 & ->). rewrite E1 in Ht.
    apply chain_app in Hc as [Hc1 Hc2].
    pose proof (last_size_bounds es' 0 Hc1 ltac:(lia)) as Hq. apply chain_first in Hc2 as [Hf [Hv _]]; [|done].
    destruct (at_entry (hdr b t c) (enc_ents 0 es') e (last_size 0 es') [ZIP_END] t zl)
      as ((ch & -> & Ech) & _ & -> & _); [|by rewrite zlen_hdr, zlen_enc_ents|done|done|].
    + rewrite Hz, enc_ents_app. cbn [enc_ents]. unfold estart. rewrite app_nil_r. by rewrite <- !(assoc_L (++)).
    + cbn [mbind option_bind]. by rewrite Ech.
Qed.

(** The counter, and the layout of the result. *)
Lemma finish_insert b t c es1 q s es2 n : count_ok c n -> 0 <= n -> n = zlen es1 + zlen es2 ->
  q = last_size 0 es1 -> chain 0 (es1 ++ newent q s :: relink (esize (newent q s)) es2) ->
  b = 11 + total (es1 ++ newent q s :: relink (esize (newent q s)) es2) ->
  t = 10 + last_off (es1 ++ newent q s :: relink (esize (newent q s)) es2) -> b <= ZIPLIST_LIMIT ->
  exists zl', ZIPLIST_INCR_LENGTH ((hdr b t c ++ enc_ents 0 es1) ++ estart (newent q s) q ++
      enc_ents (esize (newent q s)) (relink (esize (newent q s)) es2) ++ [ZIP_END]) 1 = Some zl' /\
    layout zl' (es1 ++ newent q s :: relink (esize (newent q s)) es2).
Proof.
  intros Hc Hn En Hq Hch Hb Ht Hl. rewrite <- (assoc_L (++)).
  destruct (incr_ok b t c (enc_ents 0 es1 ++ estart (newent q s) q ++
    enc_ents (esize (newent q s)) (relink (esize (newent q s)) es2) ++ [ZIP_END]) n 1 Hc)
    as (c' & -> & Hc'); [lia..|].
  eexists. split; [done|]. exists c'. split_and!; [|done| |lia].
  - rewrite Hb, Ht, enc_ents_app. cbn [enc_ents]. rewrite <- Hq. unfold estart. by rewrite <- !(assoc_L (++)).
  - rewrite zlen_app, zlen_cons. pose proof (f_equal length (relink_vals (esize (newent q s)) es2)) as L.
    rewrite !length_map in L. replace (zlen (relink (esize (newent q s)) es2)) with (zlen es2) by (unfold zlen; lia).
    replace (zlen es1 + (1 + zlen es2)) with (n + 1) by lia. done.
Qed.

Lemma newent_ok q s : zlen s < 2 ^ 31 -> 0 <= q < 2 ^ 32 ->
  val_ok (val (newent q s)) /\ prev_ok (large (newent q s)) q /\ 2 <= esize (newent q s) < 2 ^ 32.
Proof.
  intros Hs Hq. pose proof (value_of_ok s Hs) as Hv.
  split_and!; [done|by apply need_ok|by apply esize_bounds..].
Qed.

(** The size the code computes for the new entry. *)
Lemma reqlen_ok q s value encoding n : enc_choice s = (value, encoding, n) -> zlen s < 2 ^ 31 ->
  n + zipPrevEncodeLength_size q + zipEncodeLength_size encoding (zlen s) = esize (newent q s).
Proof.
  intros Ec Hs. destruct (enc_choice_ok s value encoding n Ec Hs) as (-> & Hh & _).
  unfold zipEncodeLength_size. rewrite Hh, prev_size_need, esize_parts. cbn [large val newent]. lia.
Qed.

Lemma insert_tail zl es s : layout zl es -> zlen s < 2 ^ 31 ->
  11 + total (es ++ [newent (last_size 0 es) s]) <= ZIPLIST_LIMIT ->
  exists zl', __ziplistInsert junk zl (10 + total es) s (zlen s) = Some zl' /\
    layout zl' (es ++ [newent (last_size 0 es) s]).
Proof.
  intros (c & Hz & Hch & Hc & Hl) Hs Hlim. pose proof (total_nonneg es).
  pose proof (last_size_bounds es 0 Hch ltac:(lia)) as Hq. set (q := last_size 0 es) in *.
  destruct (newent_ok q s Hs Hq) as (Hv & Hpk & Hsz). set (e := newent q s) in *.
  rewrite total_app, total_cons in Hlim. change (total []) with 0 in Hlim.
  set (b := 11 + total es) in *. set (t := 10 + last_off es) in *.
  assert (in_u 32 b) as Hub by (unfold in_u, ZIPLIST_LIMIT in *; lia).
  unfold __ziplistInsert. destruct (get_bytes b t c (enc_ents 0 es ++ [ZIP_END]) Hub) as [Gb Eb].
  rewrite <- Hz in Gb. rewrite Gb.
  cbn [mbind option_bind]. rewrite Eb.
  rewrite (at_end (hdr b t c) (enc_ents 0 es) _ zl Hz) by (by rewrite zlen_hdr, zlen_enc_ents).
  cbn [mbind option_bind]. change (negb (ZIP_END =? ZIP_END)) with false. cbv iota.
  pose proof (prevlen_tail zl es b t c Hz eq_refl Hch Hl) as Hpl.
  cbn [mbind option_bind] in Hpl. rewrite Hpl; clear Hpl. cbn [mbind option_bind]. fold q.
  rewrite try_enc. cbn [mbind option_bind]. fold (enc_choice s).
  destruct (enc_choice s) as [[value enc] n] eqn:Ec.
  rewrite (reqlen_ok q s value enc n Ec Hs). fold e.
  cbn [mbind option_bind]. rewrite (Z.add_0_r (b + esize e)).
  destruct (resize_more junk b t c (enc_ents 0 es) (b + esize e)) as (y & Ey & Hy & y' & Hy');
    [rewrite zlen_enc_ents; lia|unfold ZIPLIST_LIMIT in *; lia|].
  rewrite <- Hz in Ey. rewrite Ey. cbn [mbind option_bind]. rewrite zlen_enc_ents in Hy.
  rewrite Hy'. rewrite (assoc_L (++)).
  rewrite rd_app_r by (rewrite zlen_app, zlen_hdr, zlen_enc_ents; lia).
  replace (10 + total es - zlen (hdr (b + esize e) t c ++ enc_ents 0 es)) with 0
    by (rewrite zlen_app, zlen_hdr, zlen_enc_ents; lia).
  rewrite rd_0. cbn [mbind option_bind]. change (negb (ZIP_END =? ZIP_END)) with false. cbv iota.
  rewrite <- Hy'. rewrite <- (assoc_L (++)), set_tail. cbn [mbind option_bind].
  change (negb (0 =? 0)) with false. cbv iota. cbn [mbind option_bind].
  rewrite (assoc_L (++) (hdr _ _ _)).
  rewrite (write_entry s value enc n) by (done || (rewrite zlen_app, zlen_hdr, zlen_enc_ents; lia) || lia || (fold (newent q s); fold e; lia)).
  apply (finish_insert (b + esize e) _ c es q s [] (zlen es)); try done; cbn [relink]; fold e.
  - apply zlen_nonneg.
  - change (zlen (@nil ent)) with 0. lia.
  - apply chain_app. split; [done|]. cbn [chain]. split_and!; [|done|done].
    intros Hge. by apply Hpk.
  - rewrite total_app, total_cons. change (total []) with 0. lia.
  - rewrite last_off_app, last_off_one, u32_small; [lia|]. unfold ZIPLIST_LIMIT in *. lia.
  - lia.
Qed.


(** The entry after the insertion point is given its new length field and moved. *)
Definition moved (rl : Z) (nx : ent) : ent := Ent (need rl) (val nx).

Lemma moved_size rl nx : esize (moved rl nx) = esize nx + (psize (need rl) - psize (large nx)).
Proof. unfold esize, moved. cbn [large val]. lia. Qed.

(** The cascade, run when the size of the moved entry changed. *)
Lemma cascade_if t b c A rl nx es d : d = psize (need rl) - psize (large nx) ->
  0 <= rl < 2 ^ 32 -> val_ok (val nx) -> chain (esize nx) es ->
  b = 11 + zlen A + esize (moved rl nx) + total es -> t = 10 + zlen A + last_off (moved rl nx :: es) ->
  11 + zlen A + total (relink rl (nx :: es)) <= ZIPLIST_LIMIT ->
  (if negb (d =? 0) then __ziplistCascadeUpdate junk (cstate b t c A (moved rl nx) rl (esize nx) es) (10 + zlen A)
   else Some (cstate b t c A (moved rl nx) rl (esize nx) es)) =
  Some (hdr (11 + zlen A + total (relink rl (nx :: es))) (10 + zlen A + last_off (relink rl (nx :: es))) c ++
    A ++ enc_ents rl (relink rl (nx :: es)) ++ [ZIP_END]).
Proof.
  intros Hd Hr Hv Hc Hb Ht Hl. pose proof (moved_size rl nx) as Em. rewrite <- Hd in Em.
  pose proof (esize_bounds nx Hv). cbn [relink] in *. fold (moved rl nx) in *. rewrite total_cons in *.
  assert (forall x y, cstate x y c A (moved rl nx) rl (esize (moved rl nx)) (casc (esize (moved rl nx)) es) =
    hdr x y c ++ A ++ enc_ents rl (moved rl nx :: casc (esize (moved rl nx)) es) ++ [ZIP_END]) as E.
  { intros. unfold cstate, estart. cbn [enc_ents]. by rewrite <- !(assoc_L (++)). }
  destruct (Z.eqb_spec d 0) as [Ed|Ed]; cbn [negb].
  - assert (esize (moved rl nx) = esize nx) as En by lia.
    assert (casc (esize (moved rl nx)) es = es) as Ec by (rewrite En; by apply casc_id).
    rewrite <- En at 1. rewrite Ec in *. f_equal. rewrite E.
    f_equal. f_equal; lia.
  - pose proof (chain_first (esize nx) es ltac:(lia) Hc) as [Hf Htl].
    rewrite cascade_update_ok; try done; [|by apply need_ok|lia]. rewrite E. do 3 f_equal; lia.
Qed.

(** The middle of __ziplistInsert: the move, the new field of the next entry, the tail. *)
Lemma insert_room b t c A nx q es y rl p d : prev_ok (large nx) q -> val_ok (val nx) -> chain (esize nx) es ->
  0 <= rl < 2 ^ 32 -> d = psize (need rl) - psize (large nx) -> 0 <= rl + d -> zlen y = rl + d ->
  p = 10 + zlen A -> t = 10 + zlen A + last_off (nx :: es) ->
  11 + zlen A + rl + total (relink rl (nx :: es)) <= ZIPLIST_LIMIT ->
  exists G, zlen G = rl /\
  (zl ← mmove (hdr b t c ++ A ++ estart nx q ++ enc_ents (esize nx) es ++ y ++ [ZIP_END])
           (p + rl) (p - d) (esize nx + total es + d);
   '(zl, _) ← zipPrevEncodeLength zl (p + rl) (uwrap 32 rl);
   zl ← add_tail zl rl;
   tail ← zipEntry zl (p + rl);
   c ← rd zl (p + rl + uwrap 32 (headersize tail + len tail));
   if negb (c =? ZIP_END) then add_tail zl d else Some zl) =
  Some (cstate b (10 + zlen (A ++ G) + last_off (moved rl nx :: es)) c (A ++ G) (moved rl nx) rl (esize nx) es).
Proof.
  intros Hq Hv Hc Hr Hd Hrd Hy -> Ht Hl. pose proof (zlen_nonneg A). pose proof (total_nonneg es).
  pose proof (moved_size rl nx) as Em. rewrite <- Hd in Em. pose proof (esize_bounds nx Hv) as Hnx.
  pose proof (esize_bounds (moved rl nx) Hv) as Hmv.
  cbn [relink] in Hl. fold (moved rl nx) in Hl. rewrite total_cons in Hl.
  pose proof (total_casc es (esize (moved rl nx))).
  pose proof (last_off_total es). pose proof (last_off_nonneg es). unfold ZIPLIST_LIMIT in Hl.
  assert (0 <= psize (large nx) + d <= 5 /\ -4 <= d <= 4) as [Hpd Hd4]
    by (rewrite Hd; destruct (need rl), (large nx); cbn [psize]; lia).
  destruct (shift_entry (hdr b t c ++ A) (prevb (large nx) q) (body (val nx) ++ enc_ents (esize nx) es) y rl d
    (esize nx + total es + d)) as (G & w & Em1 & HG & Hw); try lia.
  { rewrite zlen_app, zlen_hdr. lia. } { rewrite prevb_len. lia. }
  { rewrite zlen_app, prevb_len, zlen_enc_ents. unfold esize, bsize. lia. }
  exists G. split; [done|]. rewrite zlen_app, zlen_hdr in Em1. rewrite <- !(assoc_L (++)) in Em1.
  unfold estart at 1. rewrite <- !(assoc_L (++)). rewrite Em1; clear Em1. cbn [mbind option_bind].
  rewrite u32_small by (change 4294967296 with (2 ^ 32); lia).
  rewrite (assoc_L (++) A G), (assoc_L (++) (hdr b t c)).
  rewrite prevb_len in Hw.
  rewrite enc_prev; [|rewrite !zlen_app, zlen_hdr; lia|rewrite Hw; lia|lia].
  cbn [mbind option_bind]. rewrite <- !(assoc_L (++)).
  assert (last_off (nx :: es) <= esize nx + total es /\ 0 <= last_off (nx :: es)) as Hlo
    by (rewrite last_off_cons; destruct es; lia).
  rewrite add_tail_ok by (unfold in_u; lia). cbn [mbind option_bind].
  set (t2 := t + rl). set (z2 := hdr b t2 c ++ _).
  assert (z2 = hdr b t2 c ++ (A ++ G) ++ estart (moved rl nx) rl ++ enc_ents (esize nx) es ++ [ZIP_END]) as E2
    by (unfold z2, estart, moved; cbn [large val]; by rewrite <- !(assoc_L (++))).
  destruct (at_entry (hdr b t2 c) (A ++ G) (moved rl nx) rl _ (10 + zlen A + rl) z2 E2)
    as (_ & -> & _ & Er & En & _); [rewrite zlen_hdr, zlen_app; lia|by apply need_ok|done|].
  cbn [mbind option_bind headersize len]. rewrite Er. symmetry in En.
  assert (forall x, hdr b x c ++ (A ++ G) ++ estart (moved rl nx) rl ++ enc_ents (esize nx) es ++ [ZIP_END] =
    cstate b x c (A ++ G) (moved rl nx) rl (esize nx) es) as Ecs by done.
  rewrite zlen_app, HG. destruct es as [|e2 es].
  - rewrite (at_end (hdr b t2 c) ((A ++ G) ++ estart (moved rl nx) rl) _ z2); [|rewrite E2; by rewrite <- !(assoc_L (++))|done].
    cbn [mbind option_bind]. change (negb (ZIP_END =? ZIP_END)) with false. cbv iota.
    rewrite E2, Ecs. do 2 f_equal. rewrite last_off_one in *. lia.
  - destruct Hc as (Hl2 & Hv2 & Hc).
    destruct (at_entry (hdr b t2 c) ((A ++ G) ++ estart (moved rl nx) rl) e2 (esize nx)
      (enc_ents (esize e2) es ++ [ZIP_END]) (10 + zlen A + rl + esize (moved rl nx)) z2) as ((ch & Hch & Ech) & _);
      [|by rewrite En|split; [lia|done]|done|].
    { rewrite E2. cbn [enc_ents]. unfold estart. by rewrite <- !(assoc_L (++)). }
    rewrite Hch. cbn [mbind option_bind]. rewrite Ech. cbn [negb]. rewrite E2.
    rewrite last_off_cons_total in * by done.
    rewrite add_tail_ok by (unfold in_u, t2; lia). rewrite Ecs. do 2 f_equal.
    lia.
Qed.

Lemma insert_mid zl es1 nx es s : let q := last_size 0 es1 in let rl := esize (newent q s) in
  layout zl (es1 ++ nx :: es) -> zlen s < 2 ^ 31 -> hazard rl (nx :: es) = false ->
  11 + total (es1 ++ newent q s :: relink rl (nx :: es)) <= ZIPLIST_LIMIT ->
  exists zl', __ziplistInsert junk zl (10 + total es1) s (zlen s) = Some zl' /\
    layout zl' (es1 ++ newent q s :: relink rl (nx :: es)).
Proof.
  intros q rl (c & Hz & Hch & Hc & Hl) Hs Hhz Hlim. pose proof (total_nonneg es1) as Ht1. pose proof (total_nonneg es) as Ht0.
  pose proof Hch as Hch'. apply chain_app in Hch' as [Hc1 Hc2]. fold q in Hc2.
  pose proof (last_size_bounds es1 0 Hc1 ltac:(lia)) as Hq. fold q in Hq.
  destruct (newent_ok q s Hs Hq) as (Hv & Hpk & Hsz). set (e := newent q s) in *. fold rl in Hsz.
  apply chain_first in Hc2 as [Hf [Hvn Hce]]; [|done]. cbn [first_ok] in Hf.
  pose proof (esize_bounds nx Hvn) as Hnx.
  rewrite enc_ents_app in Hz. cbn [enc_ents] in Hz. fold q in Hz.
  rewrite total_app, total_cons in Hlim, Hl. rewrite total_app, total_cons, last_off_app in Hz.
  fold rl in Hlim.
  set (b := 11 + (total es1 + (esize nx + total es))) in *.
  set (t := 10 + (total es1 + last_off (nx :: es))) in *. set (A := enc_ents 0 es1) in *.
  assert (zlen A = total es1) as HA by apply zlen_enc_ents.
  assert (zl = hdr b t c ++ A ++ estart nx q ++ enc_ents (esize nx) es ++ [ZIP_END]) as E1
    by (rewrite Hz; unfold estart; by rewrite <- !(assoc_L (++))).
  assert (in_u 32 b) as Hub by (unfold in_u, ZIPLIST_LIMIT in *; lia).
  unfold __ziplistInsert. destruct (get_bytes b t c (A ++ estart nx q ++ enc_ents (esize nx) es ++ [ZIP_END]) Hub) as [Gb Eb].
  rewrite <- E1 in Gb. rewrite Gb.
  cbn [mbind option_bind]. rewrite Eb.
  destruct (at_entry (hdr b t c) A nx q _ (10 + total es1) zl E1) as ((ch & -> & Ech) & -> & _);
    [rewrite zlen_hdr; lia|done..|].
  cbn [mbind option_bind prevrawlen]. rewrite Ech. cbn [negb].
  rewrite try_enc. cbn [mbind option_bind]. fold (enc_choice s).
  destruct (enc_choice s) as [[value enc] n] eqn:Ec.
  rewrite (reqlen_ok q s value enc n Ec Hs). fold e. fold rl.
  rewrite u32_small by (change 4294967296 with (2 ^ 32); lia).
  assert (zl = (hdr b t c ++ A) ++ prevb (large nx) q ++ body (val nx) ++ enc_ents (esize nx) es ++ [ZIP_END]) as E1'
    by (rewrite E1; unfold estart; by rewrite <- !(assoc_L (++))).
  assert (10 + total es1 = zlen (hdr b t c ++ A)) as Ep by (rewrite zlen_app, zlen_hdr; lia).
  rewrite (prev_diff zl (hdr b t c ++ A) (large nx) q _ _ rl E1' Ep Hf). cbn [mbind option_bind].
  set (d := psize (need rl) - psize (large nx)).
  assert (0 <= rl + d) as Hrd.
  { unfold hazard in Hhz. unfold d. destruct (large nx), (need rl); cbn [psize andb] in *; try lia;
      apply Z.ltb_ge in Hhz; lia. }
  assert (total (relink rl (nx :: es)) >= esize nx + d + total es) as Hrel.
  { cbn [relink]. rewrite total_cons. fold (moved rl nx). rewrite moved_size. fold d.
    pose proof (total_casc es (esize nx + d)). lia. }
  destruct (resize_more junk b t c (A ++ estart nx q ++ enc_ents (esize nx) es) (b + rl + d)) as (y & Ey & Hy & _);
    [rewrite !zlen_app, zlen_estart, zlen_enc_ents; lia|unfold ZIPLIST_LIMIT in *; lia|].
  rewrite !zlen_app, zlen_estart, zlen_enc_ents in Hy.
  rewrite <- !(assoc_L (++)) in Ey. rewrite <- E1 in Ey. rewrite Ey. cbn [mbind option_bind].
  destruct (at_entry (hdr (b + rl + d) t c) A nx q (enc_ents (esize nx) es ++ y ++ [ZIP_END]) (10 + total es1)
    _ eq_refl) as ((ch2 & -> & Ech2) & _); [rewrite zlen_hdr; lia|done..|].
  cbn [mbind option_bind]. rewrite Ech2. cbn [negb].
  destruct (insert_room (b + rl + d) t c A nx q es y rl (10 + total es1) d) as (G & HG & Er); try done; try lia.
  replace (b - (10 + total es1) - 1 + d) with (esize nx + total es + d) by lia.
  rewrite u32_small in Er by (change 4294967296 with (2 ^ 32); lia). cbn [mbind option_bind] in Er.
  destruct (mmove _ _ _ _) as [z1|]; [|done]. cbn [mbind option_bind] in *.
  destruct (zipPrevEncodeLength z1 _ _) as [[z2 n2]|]; [|done]. cbn [mbind option_bind] in *.
  destruct (add_tail z2 rl) as [z3|]; [|done]. cbn [mbind option_bind] in *.
  destruct (zipEntry z3 _) as [tl|]; [|done]. cbn [mbind option_bind] in *.
  destruct (rd z3 _) as [c3|]; [|done]. cbn [mbind option_bind] in *. rewrite Er. cbn [mbind option_bind].
  replace (10 + total es1 + rl) with (10 + zlen (A ++ G)) by (rewrite zlen_app; lia).
  rewrite (cascade_if _ _ _ _ rl nx es d); [|done|lia|done|done|rewrite zlen_app, moved_size; fold d; lia|done|rewrite zlen_app; lia].
  cbn [mbind option_bind]. rewrite <- (assoc_L (++)), (assoc_L (++) (hdr _ _ _)).
  pose proof (write_entry s value enc n) as W. cbn [mbind option_bind] in W. cbv zeta in W.
  rewrite W; [|done|done|rewrite zlen_app, zlen_hdr; lia|lia|done]. fold (newent q s). fold e.
  apply (finish_insert _ _ c es1 q s (nx :: es) (zlen (es1 ++ nx :: es))); fold e; fold rl.
  - done.
  - apply zlen_nonneg.
  - by rewrite zlen_app.
  - done.
  - apply chain_app. split; [done|]. cbn [chain]. fold q. split_and!; [intros Hge; by apply Hpk|done|].
    apply relink_chain; [lia|done].
  - rewrite zlen_app, total_app, total_cons. fold rl. lia.
  - rewrite zlen_app, last_off_app, last_off_cons_total by done. fold rl. lia.
  - rewrite zlen_app. lia.
Qed.

Lemma strings_relink rl es : strings (relink rl es) = strings es.
Proof.
  unfold strings. rewrite <- !(map_map val text). by rewrite relink_vals.
Qed.

(** Insertion before the entry at [es2], outside the hazard. *)
Lemma zip_insert_ok zl es1 es2 s : let q := last_size 0 es1 in let rl := esize (newent q s) in
  let res := es1 ++ newent q s :: relink rl es2 in
  layout zl (es1 ++ es2) -> zlen s < 2 ^ 31 -> hazard rl es2 = false -> 11 + total res <= ZIPLIST_LIMIT ->
  exists zl', __ziplistInsert junk zl (10 + total es1) s (zlen s) = Some zl' /\ layout zl' res /\
    strings res = strings es1 ++ s :: strings es2.
Proof.
  intros q rl res Hz Hs Hh Hl.
  assert (strings res = strings es1 ++ s :: strings es2) as E.
  { unfold res, strings. rewrite map_app. cbn [map newent val]. rewrite text_value_of.
    fold (strings (relink rl es2)). by rewrite strings_relink. }
  destruct es2 as [|nx es].
  - rewrite app_nil_r in Hz. destruct (insert_tail zl es1 s Hz Hs Hl) as (zl' & -> & Hr).
    by exists zl'.
  - destruct (insert_mid zl es1 nx es s Hz Hs Hh Hl) as (zl' & -> & Hr). by exists zl'.
Qed.

(** ** Proofs: deletion *)

(** The start of the entry at index [length es1]. *)
Lemma entry_at zl es1 e es b t c : zl = hdr b t c ++ enc_ents 0 (es1 ++ e :: es) ++ [ZIP_END] ->
  chain 0 (es1 ++ e :: es) -> let q := last_size 0 es1 in
  (exists ch, rd zl (10 + total es1) = Some ch /\ (ch =? ZIP_END) = false) /\
  zipEntry zl (10 + total es1) = Some (Zlentry (psize (large e)) q (zlen (vhdr (val e))) (zlen (vdata (val e)))
    (psize (large e) + zlen (vhdr (val e))) (venc (val e)) (10 + total es1)) /\
  zipRawEntryLength zl (10 + total es1) = Some (esize e) /\
  ZIP_DECODE_PREVLENSIZE zl (10 + total es1) = Some (psize (large e)) /\
  ZIP_DECODE_LENGTH zl (10 + total es1 + psize (large e)) =
    Some (venc (val e), zlen (vhdr (val e)), zlen (vdata (val e))) /\
  val_ok (val e) /\ prev_ok (large e) q /\ 0 <= q < 2 ^ 32.
Proof.
  intros Hz Hch q. apply chain_app in Hch as [Hc1 Hc2]. fold q in Hc2.
  pose proof (last_size_bounds es1 0 Hc1 ltac:(lia)) as Hq. fold q in Hq.
  apply chain_first in Hc2 as [Hf [Hv _]]; [|done].
  destruct (at_entry (hdr b t c) (enc_ents 0 es1) e q (enc_ents (esize e) es ++ [ZIP_END]) (10 + total es1) zl)
    as (H1 & H2 & H3 & _ & _ & H4 & H5); [|by rewrite zlen_hdr, zlen_enc_ents|done|done|by auto 12].
  rewrite Hz, enc_ents_app. cbn [enc_ents]. unfold estart. fold q. by rewrite <- !(assoc_L (++)).
Qed.

Lemma end_at zl es b t c : zl = hdr b t c ++ enc_ents 0 es ++ [ZIP_END] ->
  rd zl (10 + total es) = Some ZIP_END.
Proof. intros Hz. apply (at_end (hdr b t c) (enc_ents 0 es)); [done|]. by rewrite zlen_hdr, zlen_enc_ents. Qed.

Lemma total_snoc es e : total (es ++ [e]) = total es + esize e.
Proof. rewrite total_app, total_cons. change (total []) with 0. lia. Qed.

Lemma walk_ok b t c zl del : forall es1 es3 fuel num n,
  zl = hdr b t c ++ enc_ents 0 (es1 ++ del ++ es3) ++ [ZIP_END] -> chain 0 (es1 ++ del ++ es3) ->
  (num = n + zlen del \/ es3 = [] /\ n + zlen del <= num) -> (length del <= fuel)%nat ->
  delete_walk fuel zl (10 + total es1) num n = Some (10 + total (es1 ++ del), n + zlen del).
Proof.
  induction del as [|e del IH]; intros es1 es3 fuel num n Hz Hch Hn Hf.
  - rewrite app_nil_r. change (zlen (@nil ent)) with 0 in *. rewrite Z.add_0_r in *.
    destruct es3 as [|e es3].
    + destruct fuel; cbn [delete_walk]; rewrite (end_at zl es1 b t c) by (cbn [app] in Hz; rewrite app_nil_r in Hz; done); done.
    + destruct (entry_at zl es1 e es3 b t c Hz Hch) as ((ch & Hr & Ech) & _).
      destruct Hn as [-> |[? _]]; [|done].
      destruct fuel; cbn [delete_walk]; rewrite Hr; cbn [mbind option_bind]; by rewrite Z.ltb_irrefl, andb_false_r.
  - cbn [app] in Hz, Hch. destruct (entry_at zl es1 e (del ++ es3) b t c Hz Hch) as ((ch & Hr & Ech) & _ & Hl & _).
    rewrite zlen_cons in *. pose proof (zlen_nonneg del).
    destruct fuel as [|fuel]; [cbn in Hf; lia|]. cbn [delete_walk]. rewrite Hr. cbn [mbind option_bind].
    rewrite Ech. replace (n <? num) with true by (symmetry; apply Z.ltb_lt; lia). cbn [negb andb].
    rewrite Hl. cbn [mbind option_bind].
    replace (10 + total es1 + esize e) with (10 + total (es1 ++ [e])) by (rewrite total_snoc; lia).
    rewrite (IH (es1 ++ [e]) es3 fuel num (n + 1)); try (rewrite <- (assoc_L (++)); done).
    + rewrite <- (assoc_L (++)). do 2 f_equal. lia.
    + destruct Hn as [Hn|[-> Hn]]; [left|right; split; [done|]]; lia.
    + cbn [length] in Hf. lia.
Qed.

(** The bytes of the deleted entries are overwritten by the entry that follows, whose
    length field is written just before its body. *)
Lemma delete_move h A D X B q nd p : zlen X = 5 \/ zlen X = 1 -> nd = psize (need q) - zlen X -> nd <= zlen D -> 0 <= q ->
  p = zlen h + zlen A + zlen D ->
  exists x, zlen x = zlen D - nd /\
  zipPrevEncodeLength (h ++ A ++ D ++ X ++ B ++ [ZIP_END]) (p - nd) q =
    Some (h ++ A ++ x ++ prevb (need q) q ++ B ++ [ZIP_END], psize (need q)).
Proof.
  intros HX Hnd HD Hq ->.
  destruct (split_at (D ++ X) (zlen D - nd)) as (x & w & E & Hx & Hw).
  { rewrite zlen_app. destruct HX as [HX|HX]; rewrite HX in Hnd; destruct (need q); cbn [psize] in Hnd; lia. }
  rewrite zlen_app in Hw. exists x. split; [done|].
  replace (h ++ A ++ D ++ X ++ B ++ [ZIP_END]) with ((h ++ A ++ x) ++ w ++ B ++ [ZIP_END]).
  2: { rewrite <- !(assoc_L (++)), (assoc_L (++) x w), <- E. by rewrite <- !(assoc_L (++)). }
  rewrite enc_prev; [|rewrite !zlen_app; lia|lia|done]. by rewrite <- !(assoc_L (++)).
Qed.

Lemma delete_tail zl es1 e del num : layout zl (es1 ++ e :: del) -> zlen (e :: del) <= num ->
  exists zl', __ziplistDelete junk zl (10 + total es1) num = Some zl' /\ layout zl' es1.
Proof.
  intros (c & Hz & Hch & Hc & Hl) Hn. set (b := 11 + _) in *. set (t := 10 + _) in *.
  pose proof (total_nonneg es1) as T1. pose proof (total_nonneg del) as T2. pose proof (esize_pos e) as T3.
  assert (b = 11 + total es1 + total (e :: del)) as Eb by (unfold b; rewrite total_app; lia).
  pose proof (zlen_le_total (e :: del)) as Hlt. pose proof (zlen_nonneg del) as Hld.
  rewrite total_cons in Eb, Hlt. rewrite zlen_cons in Hlt. unfold ZIPLIST_LIMIT in Hl.
  destruct (entry_at zl es1 e del b t c Hz Hch) as (_ & He & _ & _ & _ & Hv & Hpk & Hq).
  unfold __ziplistDelete. rewrite He. cbn [mbind option_bind zp prevrawlen].
  rewrite (walk_ok b t c zl (e :: del) es1 [] _ num 0); try (by rewrite app_nil_r).
  2: { right. split; [done|]. lia. }
  2: { rewrite Hz. rewrite !length_app. pose proof (zlen_enc_ents (es1 ++ e :: del) 0) as L.
       pose proof (zlen_le_total (es1 ++ e :: del)) as L2. rewrite zlen_app in L2. unfold zlen in L, L2. lia. }
  cbn [mbind option_bind]. rewrite total_app, total_cons, Z.add_0_l.
  replace (10 + (total es1 + (esize e + total del)) - (10 + total es1)) with (esize e + total del) by lia.
  rewrite u32_small by lia. replace (0 <? esize e + total del) with true by (symmetry; apply Z.ltb_lt; lia).
  replace (10 + (total es1 + (esize e + total del))) with (10 + total (es1 ++ e :: del))
    by (rewrite total_app, total_cons; lia).
  rewrite (end_at zl _ b t c Hz). cbn [mbind option_bind]. change (negb (ZIP_END =? ZIP_END)) with false. cbv iota.
  set (q := last_size 0 es1) in *. set (t' := uwrap 32 (10 + total es1 - q)).
  pose proof (set_tail b t c (enc_ents 0 (es1 ++ e :: del) ++ [ZIP_END]) t') as St.
  rewrite <- Hz in St. rewrite St. cbn [mbind option_bind].
  assert (t' = 10 + last_off es1) as Et.
  { unfold t', last_off. fold q. rewrite u32_small; [lia|]. pose proof (last_off_nonneg es1) as Hlo. unfold last_off in Hlo. fold q in Hlo. lia. }
  assert (in_u 32 b) as Hub by (unfold in_u; lia).
  destruct (get_bytes b t' c (enc_ents 0 (es1 ++ e :: del) ++ [ZIP_END]) Hub) as [-> Ebb].
  cbn [mbind option_bind]. rewrite Ebb, enc_ents_app, <- (assoc_L (++)).
  rewrite (resize_shrink junk b t' c (enc_ents 0 es1)); [|rewrite zlen_enc_ents; lia|by destruct (enc_ents _ (e :: del))|lia].
  cbn [mbind option_bind].
  destruct (incr_ok (b - (esize e + total del) + 0) t' c (enc_ents 0 es1 ++ [ZIP_END]) _ (- zlen (e :: del)) Hc)
    as (c' & -> & Hc'); [apply zlen_nonneg|rewrite zlen_app; pose proof (zlen_nonneg es1); lia|
      rewrite zlen_cons; lia|].
  cbn [mbind option_bind]. change (negb (0 =? 0)) with false. cbv iota.
  eexists. split; [done|]. exists c'. split_and!.
  - rewrite Et. by replace (b - (esize e + total del) + 0) with (11 + total es1) by lia.
  - by apply chain_app in Hch as [? _].
  - rewrite zlen_app in Hc'. by replace (zlen es1 + zlen (e :: del) + - zlen (e :: del)) with (zlen es1) in Hc' by lia.
  - unfold ZIPLIST_LIMIT. lia.
Qed.

(** The part of __ziplistDelete that moves the entries after the deleted ones. *)
Lemma delete_room b t c A D nx q' q es p d : prev_ok (large nx) q' -> 0 <= q < 2 ^ 32 -> val_ok (val nx) ->
  chain (esize nx) es -> d = psize (need q) - psize (large nx) -> d <= zlen D ->
  p = 10 + zlen A + zlen D -> b = 11 + zlen A + zlen D + esize nx + total es -> b <= ZIPLIST_LIMIT ->
  t = 10 + zlen A + zlen D + last_off (nx :: es) ->
  exists y, zlen y = zlen D - d /\
  (nextdiff ← zipPrevLenByteDiff (hdr b t c ++ A ++ D ++ estart nx q' ++ enc_ents (esize nx) es ++ [ZIP_END]) p q;
   let p := p - nextdiff in
   '(zl, _) ← zipPrevEncodeLength (hdr b t c ++ A ++ D ++ estart nx q' ++ enc_ents (esize nx) es ++ [ZIP_END]) p q;
   zl ← add_tail zl (- zlen D);
   tail ← zipEntry zl p;
   c ← rd zl (p + uwrap 32 (headersize tail + len tail));
   zl ← (if negb (c =? ZIP_END) then add_tail zl nextdiff else Some zl);
   b ← ZIPLIST_BYTES zl;
   zl ← mmove zl (10 + zlen A) p (intrev32ifbe b - p - 1);
   Some (zl, nextdiff)) =
  Some (hdr b (10 + zlen A + last_off (moved q nx :: es)) c ++
    (A ++ estart (moved q nx) q ++ enc_ents (esize nx) es) ++ y ++ [ZIP_END], d).
Proof.
  intros Hf Hq Hv Hc Hd HD Hp Hb Hl Ht. unfold ZIPLIST_LIMIT in Hl.
  set (zl := hdr b t c ++ A ++ D ++ estart nx q' ++ enc_ents (esize nx) es ++ [ZIP_END]).
  pose proof (zlen_nonneg A). pose proof (zlen_nonneg D). pose proof (total_nonneg es). pose proof (esize_pos nx).
  pose proof (moved_size q nx) as Em. rewrite <- Hd in Em. pose proof (esize_bounds (moved q nx) Hv) as Hmv.
  pose proof (last_off_total es). pose proof (last_off_nonneg es).
  assert (last_off (nx :: es) <= esize nx + total es /\ 0 <= last_off (nx :: es)) as Hlo
    by (rewrite last_off_cons; destruct es; lia).
  assert (zl = (hdr b t c ++ A ++ D) ++ prevb (large nx) q' ++ body (val nx) ++ enc_ents (esize nx) es ++ [ZIP_END]) as E1
    by (unfold zl, estart; by rewrite <- !(assoc_L (++))).
  rewrite (prev_diff zl (hdr b t c ++ A ++ D) (large nx) q' _ p q E1) by (done || (rewrite !zlen_app, zlen_hdr; lia)).
  cbn [mbind option_bind]. rewrite <- Hd.
  destruct (delete_move (hdr b t c) A D (prevb (large nx) q') (body (val nx) ++ enc_ents (esize nx) es) q d p)
    as (x & Hx & Ex); [rewrite prevb_len; destruct (large nx); cbn; lia|by rewrite prevb_len|done|lia|rewrite zlen_hdr; lia|].
  rewrite <- !(assoc_L (++)) in Ex.
  replace (hdr b t c ++ A ++ D ++ prevb (large nx) q' ++ body (val nx) ++ enc_ents (esize nx) es ++ [ZIP_END]) with zl in Ex
    by (rewrite E1; by rewrite <- !(assoc_L (++))).
  rewrite Ex; clear Ex. cbn [mbind option_bind].
  rewrite add_tail_ok by (unfold in_u; lia). cbn [mbind option_bind].
  set (z2 := hdr b (t + - zlen D) c ++ _).
  assert (z2 = hdr b (t + - zlen D) c ++ (A ++ x) ++ estart (moved q nx) q ++ enc_ents (esize nx) es ++ [ZIP_END]) as E2
    by (unfold z2, estart, moved; cbn [large val]; by rewrite <- !(assoc_L (++))).
  destruct (at_entry (hdr b (t + - zlen D) c) (A ++ x) (moved q nx) q _ (p - d) z2 E2)
    as (_ & -> & _ & Er & En & _); [rewrite zlen_hdr, zlen_app; lia|by apply need_ok|done|].
  cbn [mbind option_bind headersize len]. rewrite Er. symmetry in En.
  assert ((c0 ← rd z2 (p - d + esize (moved q nx)); if negb (c0 =? ZIP_END) then add_tail z2 d else Some z2) =
    Some (hdr b (10 + zlen A + last_off (moved q nx :: es)) c ++ (A ++ x) ++ estart (moved q nx) q ++
      enc_ents (esize nx) es ++ [ZIP_END])) as Et.
  { destruct es as [|e2 es].
    - rewrite (at_end (hdr b (t + - zlen D) c) ((A ++ x) ++ estart (moved q nx) q) _ z2);
        [|rewrite E2; by rewrite <- !(assoc_L (++))|done].
      cbn [mbind option_bind]. change (negb (ZIP_END =? ZIP_END)) with false. cbv iota.
      rewrite E2. do 3 f_equal. rewrite last_off_one in *. lia.
    - destruct Hc as (Hl2 & Hv2 & Hc).
      destruct (at_entry (hdr b (t + - zlen D) c) ((A ++ x) ++ estart (moved q nx) q) e2 (esize nx)
        (enc_ents (esize e2) es ++ [ZIP_END]) (p - d + esize (moved q nx)) z2) as ((ch & Hch & Ech) & _);
        [|by rewrite En|split; [lia|done]|done|].
      { rewrite E2. cbn [enc_ents]. unfold estart. by rewrite <- !(assoc_L (++)). }
      rewrite Hch. cbn [mbind option_bind]. rewrite Ech. cbn [negb]. rewrite E2.
      rewrite last_off_cons_total in * by done.
      rewrite add_tail_ok by (unfold in_u; lia). do 3 f_equal. lia. }
  destruct (rd z2 _) as [c0|]; [|done]. cbn [mbind option_bind] in *. rewrite Et; clear Et. cbn [mbind option_bind].
  assert (in_u 32 b) as Hub by (unfold in_u; lia).
  set (t' := 10 + zlen A + last_off (moved q nx :: es)). set (W := estart (moved q nx) q ++ enc_ents (esize nx) es).
  destruct (get_bytes b t' c ((A ++ x) ++ estart (moved q nx) q ++ enc_ents (esize nx) es ++ [ZIP_END]) Hub) as [-> Ebb].
  cbn [mbind option_bind]. rewrite Ebb.
  assert (zlen W = esize (moved q nx) + total es) as HW by (unfold W; by rewrite zlen_app, zlen_estart, zlen_enc_ents).
  rewrite (mmove_mid _ (hdr b t' c ++ A ++ x) W [ZIP_END]);
    [|unfold W; by rewrite <- !(assoc_L (++))|rewrite !zlen_app, zlen_hdr; lia|lia].
  destruct (split_at (x ++ W) (zlen W)) as (g & y & Eg & Hg & Hy);
    [rewrite zlen_app; pose proof (zlen_nonneg x); pose proof (zlen_nonneg W); lia|].
  rewrite zlen_app in Hy. exists y. split; [lia|].
  replace (hdr b t' c ++ (A ++ x) ++ estart (moved q nx) q ++ enc_ents (esize nx) es ++ [ZIP_END])
    with ((hdr b t' c ++ A) ++ g ++ y ++ [ZIP_END]).
  2: { rewrite <- !(assoc_L (++)), (assoc_L (++) g y), <- Eg. unfold W. by rewrite <- !(assoc_L (++)). }
  rewrite wrn_app_mid by (rewrite ?zlen_app, ?zlen_hdr; lia). cbn [mbind option_bind].
  unfold W. by rewrite <- !(assoc_L (++)).
Qed.

Lemma delete_mid zl es1 e del nx es num : let q := last_size 0 es1 in let res := es1 ++ relink q (nx :: es) in
  layout zl (es1 ++ (e :: del) ++ nx :: es) -> zlen (e :: del) = num -> 11 + total res <= ZIPLIST_LIMIT ->
  exists zl', __ziplistDelete junk zl (10 + total es1) num = Some zl' /\ layout zl' res.
Proof.
  intros q res (c & Hz & Hch & Hc & Hl) Hn Hlim. set (b := 11 + _) in *. set (t := 10 + _) in *.
  pose proof (total_nonneg es1) as T1. pose proof (total_nonneg (e :: del)) as T2. pose proof (total_nonneg es) as T3.
  pose proof (zlen_le_total (e :: del)) as Hlt. pose proof (zlen_nonneg del) as Hld.
  assert (b = 11 + (total es1 + (total (e :: del) + (esize nx + total es)))) as Eb
    by (unfold b; by rewrite !total_app, (total_cons nx)).
  assert (t = 10 + (total es1 + (total (e :: del) + last_off (nx :: es)))) as Et
    by (unfold t; rewrite (assoc_L (++)), last_off_app, total_app; lia).
  destruct (entry_at zl es1 e (del ++ nx :: es) b t c Hz Hch) as (_ & He & _ & _ & _ & Hv & Hpk & Hq). fold q in He, Hpk, Hq.
  pose proof Hch as Hch0. rewrite (assoc_L (++) es1) in Hch0.
  pose proof Hz as Hz0. rewrite (assoc_L (++) es1) in Hz0.
  destruct (entry_at zl (es1 ++ e :: del) nx es b t c Hz0 Hch0) as ((ch & Hr & Ech) & _ & _ & _ & _ & Hvn & Hfn & Hqn).
  apply chain_app in Hch0 as [Hc1 Hcn]. destruct Hcn as (_ & _ & Hcn).
  pose proof Hc1 as Hc1'. apply chain_app in Hc1' as [Hc0 _].
  set (A := enc_ents 0 es1). set (D := enc_ents q (e :: del)).
  set (q' := last_size 0 (es1 ++ e :: del)) in *.
  assert (zlen A = total es1) as HA by apply zlen_enc_ents.
  assert (zlen D = total (e :: del)) as HD by apply zlen_enc_ents.
  assert (zl = hdr b t c ++ A ++ D ++ estart nx q' ++ enc_ents (esize nx) es ++ [ZIP_END]) as E1.
  { rewrite Hz0, enc_ents_app. fold q'. cbn [enc_ents]. rewrite enc_ents_app. fold A q D.
    unfold estart. by rewrite <- !(assoc_L (++)). }
  unfold ZIPLIST_LIMIT in Hl. pose proof (esize_pos nx) as Hnx. rewrite zlen_cons in Hlt.
  unfold __ziplistDelete. rewrite He. cbn [mbind option_bind zp prevrawlen].
  rewrite (walk_ok b t c zl (e :: del) es1 (nx :: es) _ num 0); [|done|done|left; lia|].
  2: { pose proof (zlen_enc_ents (es1 ++ (e :: del) ++ nx :: es) 0) as L. rewrite Hz, !length_app.
       rewrite !total_app, (total_cons nx) in L. unfold zlen in L. cbn [length] in *. unfold zlen in Hlt. lia. }
  cbn [mbind option_bind]. rewrite total_app, Z.add_0_l.
  replace (10 + (total es1 + total (e :: del)) - (10 + total es1)) with (total (e :: del)) by lia.
  rewrite u32_small by lia. replace (0 <? total (e :: del)) with true by (symmetry; apply Z.ltb_lt; lia).
  rewrite total_app in Hr. rewrite Hr. cbn [mbind option_bind]. rewrite Ech. cbn [negb].
  set (d := psize (need q) - psize (large nx)).
  assert (d <= zlen D) as HdD.
  { rewrite HD. unfold d. destruct (need q) eqn:En, (large nx); cbn [psize]; try lia.
    rewrite total_cons. pose proof (total_nonneg del). unfold esize. destruct Hpk as [_ ->]; [|by apply Z.leb_le].
    pose proof (bsize_pos (val e)). cbn [psize]. lia. }
  assert (10 + total es1 <= zlen zl) as _ by (rewrite E1, !zlen_app, zlen_hdr; pose proof (zlen_nonneg D);
    pose proof (zlen_nonneg (estart nx q')); pose proof (zlen_nonneg (enc_ents (esize nx) es)); rewrite zlen_cons; change (zlen (@nil Z)) with 0; lia).
  destruct (delete_room b t c A D nx q' q es (10 + (total es1 + total (e :: del))) d) as (y & Hy & Er);
    try done; [lia|lia|lia|].
  rewrite <- E1, HA, HD in Er. cbv zeta in Er.
  rewrite Er; clear Er. cbn [mbind option_bind].
  assert (in_u 32 b) as Hub by (unfold in_u; lia).
  set (t' := 10 + total es1 + last_off (moved q nx :: es)). set (W := A ++ estart (moved q nx) q ++ enc_ents (esize nx) es).
  pose proof (moved_size q nx) as Em. fold d in Em.
  assert (zlen W = total es1 + (esize nx + d + total es)) as HW
    by (unfold W; rewrite !zlen_app, zlen_estart, zlen_enc_ents; lia).
  destruct (get_bytes b t' c (W ++ y ++ [ZIP_END]) Hub) as [-> Ebb]. cbn [mbind option_bind]. rewrite Ebb.
  pose proof (total_casc es (esize (moved q nx))) as Hcs.
  unfold res in Hlim. rewrite total_app in Hlim. cbn [relink] in Hlim. fold (moved q nx) in Hlim. rewrite total_cons in Hlim.
  unfold ZIPLIST_LIMIT in Hlim.
  rewrite resize_shrink; [|lia|by destruct y|lia]. cbn [mbind option_bind].
  set (b' := b - total (e :: del) + d).
  destruct (incr_ok b' t' c (W ++ [ZIP_END]) _ (- zlen (e :: del)) Hc)
    as (c' & -> & Hc'); [apply zlen_nonneg|rewrite !zlen_app; pose proof (zlen_nonneg es1); pose proof (zlen_nonneg (nx :: es)); lia|
      rewrite zlen_cons; lia|].
  cbn [mbind option_bind].
  replace (hdr b' t' c' ++ W ++ [ZIP_END]) with (cstate b' t' c' A (moved q nx) q (esize nx) es)
    by (unfold cstate, W; by rewrite <- !(assoc_L (++))).
  rewrite <- HA. rewrite (cascade_if _ _ _ _ q nx es d); try done; [|lia|lia|cbn [relink]; fold (moved q nx); rewrite total_cons; unfold ZIPLIST_LIMIT; lia].
  eexists. split; [done|]. exists c'. split_and!.
  - unfold res. rewrite total_app, last_off_app_any, enc_ents_app, HA by done. fold q A. rewrite <- !(assoc_L (++)).
    do 2 f_equal; lia.
  - apply chain_app. split; [done|]. apply relink_chain; [done|by split].
  - unfold res. rewrite !zlen_app in *. pose proof (f_equal length (relink_vals q (nx :: es))) as L.
    rewrite !length_map in L. replace (zlen (relink q (nx :: es))) with (zlen (nx :: es)) by (unfold zlen; lia).
    replace (zlen es1 + zlen (nx :: es)) with (zlen es1 + (zlen (e :: del) + zlen (nx :: es)) + - zlen (e :: del)) by lia. done.
  - unfold res, ZIPLIST_LIMIT. rewrite total_app. cbn [relink]. fold (moved q nx). rewrite total_cons. lia.
Qed.

Lemma zip_delete_ok zl es1 e del es3 num : let q := last_size 0 es1 in let res := es1 ++ relink q es3 in
  layout zl (es1 ++ (e :: del) ++ es3) -> zlen (e :: del) = num \/ es3 = [] /\ zlen (e :: del) <= num ->
  11 + total res <= ZIPLIST_LIMIT ->
  exists zl', __ziplistDelete junk zl (10 + total es1) num = Some zl' /\ layout zl' res /\
    strings res = strings es1 ++ strings es3.
Proof.
  intros q res Hz Hn Hl.
  assert (strings res = strings es1 ++ strings es3) as E.
  { unfold res, strings. rewrite map_app. f_equal. apply strings_relink. }
  destruct es3 as [|nx es].
  - unfold res in *. rewrite !app_nil_r in *. destruct (delete_tail zl es1 e del num Hz) as (zl' & -> & Hr); [lia|]. by exists zl'.
  - destruct Hn as [Hn|[? _]]; [|done].
    destruct (delete_mid zl es1 e del nx es num Hz Hn Hl) as (zl' & -> & Hr). by exists zl'.
Qed.

(** ** Proofs: access *)

Lemma new_ok : exists zl, ziplistNew junk = Some zl /\ layout zl [].
Proof.
  unfold ziplistNew. set (j := map junk (seq 0 11)).
  destruct (split_at j 10) as (x & y & E & Hx & Hy); [unfold j, zlen; rewrite length_map, length_seq; lia|].
  assert (zlen j = 11) as Hj by (unfold j, zlen; by rewrite length_map, length_seq).
  destruct (split_at x 4) as (x1 & x' & -> & H1 & H'); [lia|].
  destruct (split_at x' 4) as (x2 & x3 & -> & H2 & H3); [lia|].
  unfold set_ZIPLIST_BYTES. rewrite E, store32, <- !(assoc_L (++)).
  rewrite wrn_prefix by (rewrite zlen_le_enc; lia). cbn [mbind option_bind].
  unfold set_ZIPLIST_TAIL_OFFSET. rewrite store32.
  rewrite wrn_app_mid by (rewrite zlen_le_enc; lia). cbn [mbind option_bind].
  unfold set_ZIPLIST_LENGTH.
  assert (host_enc 2 0 = le_enc 2 0) as -> by (unfold host_enc; by destruct big_endian).
  rewrite (assoc_L (++) (le_enc 4 11)).
  rewrite wrn_app_mid by (rewrite ?zlen_app, ?zlen_le_enc; lia). cbn [mbind option_bind].
  destruct y as [|y0 [|y1 y]]; [change (zlen (@nil Z)) with 0 in Hy; lia| |rewrite !zlen_cons in Hy; pose proof (zlen_nonneg y); lia].
  rewrite (assoc_L (++)), wr_app_mid by (by rewrite !zlen_app, !zlen_le_enc).
  eexists. split; [done|]. exists 0. split_and!; [|done|by left|by vm_compute].
  change (11 + total []) with 11. change (10 + last_off []) with 10. cbn [enc_ents app].
  unfold hdr. by rewrite <- !(assoc_L (++)).
Qed.

(** Where the entry of index [i] starts. *)
Definition pos (es : list ent) (i : nat) : Z := 10 + total (take i es).

Lemma total_le_app a b : total a <= total (a ++ b).
Proof. rewrite total_app. pose proof (total_nonneg b). lia. Qed.

(** Split a laid out list at an index. *)
Lemma layout_split zl es : layout zl es -> exists b t c, zl = hdr b t c ++ enc_ents 0 es ++ [ZIP_END] /\
  chain 0 es /\ b = 11 + total es /\ t = 10 + last_off es /\ b <= ZIPLIST_LIMIT /\ count_ok c (zlen es).
Proof. intros (c & Hz & Hch & Hc & Hl). by exists (11 + total es), (10 + last_off es), c. Qed.

Lemma forward_ok b t c zl es2 : forall es1 fuel i,
  zl = hdr b t c ++ enc_ents 0 (es1 ++ es2) ++ [ZIP_END] -> chain 0 (es1 ++ es2) -> (length es2 <= fuel)%nat -> 0 <= i ->
  exists j, index_forward fuel zl (10 + total es1) i =
    Some (10 + total (es1 ++ take (Z.to_nat i) es2), j) /\ (i < zlen es2 -> j = -1).
Proof.
  induction es2 as [|e es2 IH]; intros es1 fuel i Hz Hch Hf Hi.
  - rewrite take_nil, app_nil_r in *. exists i. split; [|change (zlen (@nil ent)) with 0; lia].
    destruct fuel; cbn [index_forward]; rewrite (end_at zl es1 b t c Hz); done.
  - destruct (entry_at zl es1 e es2 b t c Hz Hch) as ((ch & Hr & Ech) & _ & Hl & _).
    destruct fuel as [|fuel]; [cbn in Hf; lia|]. cbn [index_forward]. rewrite Hr. cbn [mbind option_bind].
    rewrite Ech. cbn [negb]. destruct (Z.eqb_spec i 0) as [->|Hne].
    + exists (-1). cbn [Z.to_nat take]. by rewrite app_nil_r.
    + rewrite Hl. cbn [mbind option_bind].
      destruct (IH (es1 ++ [e]) fuel (i - 1)) as (j & Ej & Hj);
        [by rewrite <- (assoc_L (++))|by rewrite <- (assoc_L (++))|cbn [length] in Hf; lia|lia|].
      exists j. replace (10 + total es1 + esize e) with (10 + total (es1 ++ [e])) by (rewrite total_snoc; lia).
      rewrite Ej. replace (Z.to_nat i) with (S (Z.to_nat (i - 1))) by lia. cbn [take].
      rewrite <- (assoc_L (++)). split; [done|]. rewrite zlen_cons. intros; apply Hj; lia.
Qed.

(** The backward walk, from the entry [e] to the one [i] places before it. *)
Lemma back_ok b t c zl es1 : forall e es2 fuel i entry,
  zl = hdr b t c ++ enc_ents 0 (es1 ++ e :: es2) ++ [ZIP_END] -> chain 0 (es1 ++ e :: es2) ->
  (length es1 <= fuel)%nat -> 0 <= i -> zipEntry zl (10 + total es1) = Some entry ->
  exists j, index_back fuel zl (10 + total es1) entry i =
    Some (10 + total (take (length es1 - Z.to_nat i) es1), j) /\ (i <= zlen es1 <-> j <= 0).
Proof.
  induction es1 as [|e1 es1 IH] using rev_ind; intros e es2 fuel i entry Hz Hch Hf Hi He.
  - destruct (entry_at zl [] e es2 b t c Hz Hch) as (_ & He' & _). rewrite He' in He. injection He as <-.
    exists i. destruct fuel; cbn [index_back prevrawlen]; change (0 <? last_size 0 []) with false; cbv iota;
      (split; [done|]); change (zlen (@nil ent)) with 0; lia.
  - destruct (entry_at zl (es1 ++ [e1]) e es2 b t c Hz Hch) as (_ & He' & _). rewrite He' in He. injection He as <-.
    rewrite last_size_app in *. cbn [last_size] in *. pose proof (esize_pos e1) as Hp. rewrite length_app in *. cbn [length] in *.
    pose proof (zlen_nonneg es1).
    destruct fuel as [|fuel]; [lia|]. cbn [index_back prevrawlen].
    replace (0 <? esize e1) with true by (symmetry; apply Z.ltb_lt; lia). rewrite zlen_app, (zlen_cons e1). change (zlen (@nil ent)) with 0.
    destruct (Z.eqb_spec i 0) as [->|Hne].
    + exists (-1). split; [|lia]. rewrite take_ge by (rewrite length_app; cbn; lia). done.
    + replace (10 + total (es1 ++ [e1]) - esize e1) with (10 + total es1) by (rewrite total_snoc; lia).
      rewrite <- (assoc_L (++)) in Hz, Hch. cbn [app] in Hz, Hch.
      destruct (entry_at zl es1 e1 (e :: es2) b t c Hz Hch) as (_ & He1 & _). rewrite He1. cbn [mbind option_bind].
      destruct (IH e1 (e :: es2) fuel (i - 1) _ Hz Hch ltac:(lia) ltac:(lia) He1) as (j & -> & Hj).
      exists j. split; [|rewrite <- Hj; lia].
      replace (length es1 + 1 - Z.to_nat i)%nat with (length es1 - Z.to_nat (i - 1))%nat by lia.
      by rewrite take_app_le by lia.
Qed.

(** The entry a signed index designates. *)
Definition index_of (es : list ent) (index : Z) : option nat :=
  if (0 <=? index) && (index <? zlen es) then Some (Z.to_nat index)
  else if (index <? 0) && (0 <=? zlen es + index) then Some (Z.to_nat (zlen es + index))
  else None.

Lemma es_split (es : list ent) i : (i < length es)%nat -> exists e, es = take i es ++ e :: drop (S i) es /\ es !! i = Some e.
Proof.
  intros Hi. destruct (lookup_lt_is_Some_2 es i Hi) as [e He]. exists e. split; [|done].
  by rewrite take_drop_middle.
Qed.

Lemma zl_length zl es b t c : zl = hdr b t c ++ enc_ents 0 es ++ [ZIP_END] -> (length es <= length zl)%nat.
Proof.
  intros ->. pose proof (zlen_enc_ents es 0) as L. pose proof (zlen_le_total es) as L2.
  rewrite !length_app. unfold zlen in *. lia.
Qed.

Lemma pos_head zl es b t c i : zl = hdr b t c ++ enc_ents 0 es ++ [ZIP_END] -> chain 0 es -> (i < length es)%nat ->
  exists ch, rd zl (pos es i) = Some ch /\ (ch =? ZIP_END) = false.
Proof.
  intros Hz Hch Hi. destruct (es_split es i Hi) as (e & E & _). rewrite E in Hz, Hch.
  apply (entry_at zl _ e _ b t c Hz Hch).
Qed.

Lemma zip_index_ok zl es index : layout zl es ->
  ziplistIndex zl index = Some (pos es <$> index_of es index).
Proof.
  intros Hl. destruct (layout_split zl es Hl) as (b & t & c & Hz & Hch & Hb & Ht & Hlim & _).
  pose proof (zl_length zl es b t c Hz) as Hf. pose proof (zlen_nonneg es) as Hn. unfold ziplistIndex, index_of.
  destruct (Z.ltb_spec index 0) as [Hi|Hi].
  - pose proof (last_off_total es). pose proof (last_off_nonneg es).
    replace (0 <=? index) with false by (symmetry; apply Z.leb_gt; lia). cbn [andb].
    assert (ZIPLIST_ENTRY_TAIL zl = Some t) as -> by (rewrite Hz; apply entry_tail; unfold in_u, ZIPLIST_LIMIT in *; lia).
    cbn [mbind option_bind]. destruct (decide (es = [])) as [->|Hne].
    + rewrite Ht. change (10 + last_off []) with (10 + total []). rewrite (end_at zl [] b t c Hz). cbn [mbind option_bind].
      change (negb (ZIP_END =? ZIP_END)) with false. cbv iota. cbn [mbind option_bind]. rewrite (end_at zl [] b t c Hz).
      cbn [mbind option_bind]. change (zlen (@nil ent)) with 0.
      replace (0 <=? 0 + index) with false by (symmetry; apply Z.leb_gt; lia). done.
    + destruct (last_entry es Hne) as (es' & e & E & E1 & _). rewrite E1 in Ht.
      pose proof Hz as Hz'. rewrite E in Hz'. pose proof Hch as Hch'. rewrite E in Hch'.
      destruct (entry_at zl es' e [] b t c Hz' Hch') as ((ch & Hr & Ech) & He & _). rewrite Ht, Hr. cbn [mbind option_bind].
      rewrite Ech. cbn [negb]. rewrite He. cbn [mbind option_bind].
      assert (zlen es = zlen es' + 1) as En by (rewrite E, zlen_app; done).
      assert (length es' <= length zl)%nat as Hf' by (rewrite E, length_app in Hf; lia).
      assert (0 <= - index - 1) as Hi' by lia.
      destruct (back_ok b t c zl es' e [] (length zl) (- index - 1) _ Hz' Hch' Hf' Hi' He) as (j & -> & Hj).
      cbn [mbind option_bind].
      assert (take (length es' - Z.to_nat (- index - 1)) es' = take (length es' - Z.to_nat (- index - 1)) es) as ->
        by (rewrite E, take_app_le by lia; done).
      destruct (pos_head zl es b t c (length es' - Z.to_nat (- index - 1)) Hz Hch) as (c2 & Hr2 & Ec2);
        [rewrite E, length_app; cbn; lia|]. unfold pos in Hr2. rewrite Hr2. cbn [mbind option_bind]. rewrite Ec2. cbn [orb].
      destruct (Z.leb_spec 0 (zlen es + index)) as [Hge|Hlt]; cbn [fmap option_fmap option_map].
      * replace (0 <? j) with false by (symmetry; apply Z.ltb_ge, Hj; lia). do 2 f_equal. unfold pos. do 3 f_equal.
        unfold zlen in *. lia.
      * replace (0 <? j) with true; [done|]. symmetry. apply Z.ltb_lt. destruct (Z.le_gt_cases j 0) as [Hj0|]; [|done].
        apply Hj in Hj0. lia.
  - replace (0 <=? index) with true by (symmetry; apply Z.leb_le; lia). cbn [andb].
    destruct (forward_ok b t c zl es [] (length zl) index Hz Hch Hf Hi) as (j & Ej & Hj). unfold ZIPLIST_ENTRY_HEAD, ZIPLIST_HEADER_SIZE.
    change (10 + total []) with 10 in Ej. rewrite Ej. cbn [mbind option_bind app].
    destruct (Z.ltb_spec index (zlen es)) as [Hlt|Hge].
    + destruct (pos_head zl es b t c (Z.to_nat index) Hz Hch) as (c2 & Hr2 & Ec2); [unfold zlen in *; lia|].
      unfold pos in Hr2. rewrite Hr2. cbn [mbind option_bind]. rewrite Ec2, Hj by done. done.
    + rewrite take_ge by (unfold zlen in *; lia). rewrite (end_at zl es b t c Hz). done.
Qed.

Lemma pos_S es i e : es !! i = Some e -> pos es (S i) = pos es i + esize e.
Proof. intros He. unfold pos. rewrite (take_S_r es i e He), total_snoc. lia. Qed.

Lemma pos_length es : pos es (length es) = 10 + total es.
Proof. unfold pos. by rewrite take_ge. Qed.

(** What lies at the position of an entry. *)
Lemma at_pos zl es b t c i e : zl = hdr b t c ++ enc_ents 0 es ++ [ZIP_END] -> chain 0 es -> es !! i = Some e ->
  (exists ch, rd zl (pos es i) = Some ch /\ (ch =? ZIP_END) = false) /\
  zipEntry zl (pos es i) = Some (Zlentry (psize (large e)) (last_size 0 (take i es)) (zlen (vhdr (val e)))
    (zlen (vdata (val e))) (psize (large e) + zlen (vhdr (val e))) (venc (val e)) (pos es i)) /\
  zipRawEntryLength zl (pos es i) = Some (esize e) /\
  ZIP_DECODE_PREVLENSIZE zl (pos es i) = Some (psize (large e)) /\
  ZIP_DECODE_LENGTH zl (pos es i + psize (large e)) =
    Some (venc (val e), zlen (vhdr (val e)), zlen (vdata (val e))) /\ val_ok (val e) /\
  (exists r a, zl = a ++ vdata (val e) ++ r /\ zlen a = pos es i + psize (large e) + zlen (vhdr (val e))).
Proof.
  intros Hz Hch He. assert (es = take i es ++ e :: drop (S i) es) as E by (by rewrite take_drop_middle).
  pose proof Hz as Hz'. rewrite E in Hz', Hch.
  destruct (entry_at zl (take i es) e (drop (S i) es) b t c Hz' Hch) as (H1 & H2 & H3 & H4 & H5 & H6 & _).
  split_and!; try done. rewrite Hz', enc_ents_app. cbn [enc_ents]. rewrite body_parts.
  exists (enc_ents (esize e) (drop (S i) es) ++ [ZIP_END]),
    (hdr b t c ++ enc_ents 0 (take i es) ++ prevb (large e) (last_size 0 (take i es)) ++ vhdr (val e)).
  rewrite !zlen_app, zlen_hdr, zlen_enc_ents, prevb_len. rewrite <- !(assoc_L (++)). split; [done|]. unfold pos. lia.
Qed.

Lemma is_str_venc v : val_ok v -> ZIP_IS_STR (venc v) = match v with EStr _ => true | EInt _ _ => false end.
Proof.
  destruct v as [s|x enc]; cbn [venc val_ok]; intros Hv; [by repeat zcase|].
  by destruct (int_enc_cases x enc Hv) as (_ & _ & -> & _).
Qed.

Lemma get_ok zl es i e : layout zl es -> es !! i = Some e ->
  ziplistGet zl (Some (pos es i)) = Some (Some (view (val e))).
Proof.
  intros Hl He. destruct (layout_split zl es Hl) as (b & t & c & Hz & Hch & _).
  destruct (at_pos zl es b t c i e Hz Hch He) as ((ch & Hr & Ech) & Hze & _ & _ & _ & Hv & r & a & Ea & La).
  unfold ziplistGet. rewrite Hr. cbn [mbind option_bind]. rewrite Ech, Hze. cbn [mbind option_bind encoding headersize len].
  rewrite is_str_venc by done. rewrite Ea. destruct (val e) as [s|x enc]; cbn [vdata view venc] in *.
  - rewrite rdn_app_mid by lia. done.
  - rewrite load_int; [done|lia|done].
Qed.

Lemma zip_next_ok zl es i e : layout zl es -> es !! i = Some e ->
  ziplistNext zl (pos es i) = Some (if decide (S i < length es)%nat then Some (pos es (S i)) else None).
Proof.
  intros Hl He. destruct (layout_split zl es Hl) as (b & t & c & Hz & Hch & _).
  destruct (at_pos zl es b t c i e Hz Hch He) as ((ch & Hr & Ech) & _ & Hraw & _).
  pose proof (lookup_lt_Some _ _ _ He) as Hi.
  unfold ziplistNext. rewrite Hr. cbn [mbind option_bind]. rewrite Ech, Hraw. cbn [mbind option_bind].
  rewrite <- (pos_S es i e He). destruct (decide (S i < length es)%nat) as [Hs|Hs].
  - destruct (pos_head zl es b t c (S i) Hz Hch Hs) as (c2 & -> & E2). cbn [mbind option_bind]. by rewrite E2.
  - replace (S i) with (length es) by lia. rewrite pos_length, (end_at zl es b t c Hz). done.
Qed.

Lemma prev_ok_entry zl es i e : layout zl es -> es !! i = Some e ->
  ziplistPrev zl (pos es i) = Some (match i with O => None | S j => Some (pos es j) end).
Proof.
  intros Hl He. destruct (layout_split zl es Hl) as (b & t & c & Hz & Hch & _).
  destruct (at_pos zl es b t c i e Hz Hch He) as ((ch & Hr & Ech) & Hze & _).
  unfold ziplistPrev. rewrite Hr. cbn [mbind option_bind]. rewrite Ech.
  destruct i as [|j]; [done|].
  pose proof (lookup_lt_Some _ _ _ He) as Hi. destruct (lookup_lt_is_Some_2 es j) as [e' He']; [lia|].
  rewrite (pos_S es j e' He') in *. pose proof (esize_pos e').
  assert ((pos es j + esize e' =? ZIPLIST_ENTRY_HEAD) = false) as ->.
  { apply Z.eqb_neq. unfold pos, ZIPLIST_ENTRY_HEAD, ZIPLIST_HEADER_SIZE. pose proof (total_nonneg (take j es)). lia. }
  rewrite Hze. cbn [mbind option_bind prevrawlen].
  rewrite (take_S_r es j e' He'), last_size_app. cbn [last_size].
  replace (0 <? esize e') with true by (symmetry; apply Z.ltb_lt; lia). cbn [cassert mbind option_bind].
  do 2 f_equal. lia.
Qed.

Lemma prev_ok_end zl es : layout zl es ->
  ziplistPrev zl (pos es (length es)) = Some (if decide (es = []) then None else Some (pos es (length es - 1))).
Proof.
  intros Hl. destruct (layout_split zl es Hl) as (b & t & c & Hz & Hch & Hb & Ht & Hlim & _).
  pose proof (last_off_total es). pose proof (last_off_nonneg es).
  unfold ziplistPrev. rewrite pos_length, (end_at zl es b t c Hz). cbn [mbind option_bind].
  change (ZIP_END =? ZIP_END) with true. cbv iota.
  assert (ZIPLIST_ENTRY_TAIL zl = Some t) as -> by (rewrite Hz; apply entry_tail; unfold in_u, ZIPLIST_LIMIT in *; lia).
  cbn [mbind option_bind]. destruct (decide (es = [])) as [->|Hne].
  - rewrite Ht. change (10 + last_off []) with (10 + total []). rewrite (end_at zl [] b t c Hz). done.
  - destruct (last_entry es Hne) as (es' & e & E & E1 & _).
    assert (t = pos es (length es - 1)) as Etp by
      (unfold pos; rewrite Ht, E1, E, length_app; cbn [length]; rewrite Nat.add_sub, take_app_length; done).
    destruct (pos_head zl es b t c (length es - 1) Hz Hch) as (c2 & Hr2 & E2);
      [rewrite E, length_app; cbn; lia|]. rewrite Etp, Hr2. cbn [mbind option_bind]. by rewrite E2.
Qed.

Lemma len_loop_ok b t c zl es2 : forall es1 fuel n,
  zl = hdr b t c ++ enc_ents 0 (es1 ++ es2) ++ [ZIP_END] -> chain 0 (es1 ++ es2) -> (length es2 <= fuel)%nat ->
  len_loop fuel zl (10 + total es1) n = Some (n + zlen es2).
Proof.
  induction es2 as [|e es2 IH]; intros es1 fuel n Hz Hch Hf.
  - rewrite app_nil_r in Hz. change (zlen (@nil ent)) with 0. rewrite Z.add_0_r.
    destruct fuel; cbn [len_loop]; rewrite (end_at zl es1 b t c Hz); done.
  - destruct (entry_at zl es1 e es2 b t c Hz Hch) as ((ch & Hr & Ech) & _ & Hl & _).
    destruct fuel as [|fuel]; [cbn in Hf; lia|]. cbn [len_loop]. rewrite Hr. cbn [mbind option_bind].
    rewrite Ech, Hl. cbn [mbind option_bind].
    replace (10 + total es1 + esize e) with (10 + total (es1 ++ [e])) by (rewrite total_snoc; lia).
    rewrite IH; [rewrite zlen_cons; f_equal; lia|by rewrite <- (assoc_L (++))|by rewrite <- (assoc_L (++))|cbn in Hf; lia].
Qed.

Lemma len_ok zl es : layout zl es -> exists zl', ziplistLen zl = Some (zl', zlen es) /\ layout zl' es.
Proof.
  intros Hl. destruct (layout_split zl es Hl) as (b & t & c & Hz & Hch & Hb & Ht & Hlim & Hc).
  pose proof (zlen_nonneg es). unfold ziplistLen.
  pose proof (get_len b t c (enc_ents 0 es ++ [ZIP_END])) as G. rewrite <- Hz in G. rewrite G. cbn [mbind option_bind].
  destruct Hc as [[-> Hn]| ->].
  - rewrite load16 by (unfold in_u, UINT16_MAX in *; lia).
    replace (zlen es <? UINT16_MAX) with true by (symmetry; by apply Z.ltb_lt). by exists zl.
  - rewrite load16 by (unfold in_u, UINT16_MAX in *; lia). change (UINT16_MAX <? UINT16_MAX) with false. cbv iota.
    pose proof (len_loop_ok b t UINT16_MAX zl es [] (length zl) 0 Hz Hch (zl_length zl es b t _ Hz)) as E.
    change (10 + total []) with 10 in E. unfold ZIPLIST_HEADER_SIZE. rewrite E. cbn [mbind option_bind].
    rewrite Z.add_0_l. destruct (Z.ltb_spec (zlen es) UINT16_MAX).
    + pose proof (set_len b t UINT16_MAX (enc_ents 0 es ++ [ZIP_END]) (zlen es)) as S.
      rewrite <- Hz in S. rewrite S. cbn [mbind option_bind]. eexists. split; [done|].
      exists (zlen es). split_and!; [by rewrite Hb, Ht|done|by left|lia].
    + cbn [mbind option_bind]. by exists zl.
Qed.

(** ** Proofs: comparing and searching *)

(** How an entry is compared with a string. *)
Definition same_val (v : zval) (s : list Z) : bool :=
  match v with
  | EStr t => bool_decide (t = s)
  | EInt x _ => match value_of s with EInt y _ => x =? y | EStr _ => false end
  end.

Lemma int_ok_s64 v enc : int_ok v enc -> in_s 64 v.
Proof.
  intros [[He Hv]|[[H1 H2] ->]]; unfold in_s in *.
  - destruct He as [-> | [-> | [-> | [-> | ->]]]]; cbn in *; lia.
  - unfold ZIP_INT_IMM_MIN, ZIP_INT_IMM_MAX in *. cbn. lia.
Qed.

Lemma ll_chars_len v : in_s 64 v -> exists s, Num.ll_chars v = Some s /\ 1 <= zlen s <= 21.
Proof.
  intros Hv. destruct (NumFacts.ll_chars_spec v Hv) as (ds & Hc & Hd & E). eexists. split; [exact E|].
  assert (length ds <= 20)%nat as L by (apply NumFacts.canonical_length; [done|unfold in_s in Hv; lia]).
  destruct Hc as [_ (d & ds' & -> & _)]. destruct (v <? 0); unfold zlen; cbn [length] in *; lia.
Qed.

(** Comparing the representations compares the strings. *)
Lemma same_val_text v s : val_ok v -> same_val v s = bool_decide (text v = s).
Proof.
  intros Hv. destruct v as [t|x enc]; cbn [same_val text val_ok] in *; [done|].
  apply int_ok_s64 in Hv. destruct (ll_chars_len x Hv) as (d & E & Hd). rewrite E. change (default [] (Some d)) with d.
  assert (Num.string2ll d = Some x) as Ed by (by apply string2ll_iff).
  unfold value_of. case_bool_decide as Hs.
  - subst s. replace (32 <=? zlen d) with false by (symmetry; apply Z.leb_gt; lia).
    replace (zlen d =? 0) with false by (symmetry; apply Z.eqb_neq; lia). cbn [orb].
    rewrite Ed. apply Z.eqb_refl.
  - destruct (_ || _); [done|]. destruct (Num.string2ll s) as [y|] eqn:Ey; [|done].
    apply Z.eqb_neq. intros ->. apply Hs. apply string2ll_iff in Ey as [_ Ey]. congruence.
Qed.

Definition vcache_ok (vstr : list Z) (venc : option (option Z)) : Prop :=
  venc = None \/
  venc = Some (match value_of vstr with EInt v _ => Some v | EStr _ => None end).

Lemma compare_ok zl es i e s : layout zl es -> es !! i = Some e ->
  ziplistCompare zl (pos es i) s (zlen s) = Some (bool_decide (text (val e) = s)).
Proof.
  intros Hl He. destruct (layout_split zl es Hl) as (b & t & c & Hz & Hch & _).
  destruct (at_pos zl es b t c i e Hz Hch He) as ((ch & Hr & Ech) & Hze & _ & _ & _ & Hv & r & a & Ea & La).
  rewrite <- same_val_text by done.
  unfold ziplistCompare. rewrite Hr. cbn [mbind option_bind]. rewrite Ech, Hze. cbn [mbind option_bind encoding headersize len].
  rewrite is_str_venc by done. rewrite try_enc. rewrite Ea. destruct (val e) as [d|x enc]; cbn [vdata same_val venc] in *.
  - destruct (Z.eqb_spec (zlen d) (zlen s)) as [El|El].
    + rewrite rdn_app_mid by lia. rewrite rdn_whole. done.
    + f_equal. symmetry. apply bool_decide_false. intros ->. done.
  - cbn [mbind option_bind]. destruct (value_of s) as [|y enc']; [done|].
    rewrite load_int; [done|lia|done].
Qed.

Lemma find_loop_ok zl es b t c s skip : zl = hdr b t c ++ enc_ents 0 es ++ [ZIP_END] -> chain 0 es ->
  forall es2 i fuel cnt vc, drop i es = es2 -> (i <= length es)%nat -> (length es2 <= fuel)%nat -> vcache_ok s vc ->
  find_loop fuel zl (pos es i) s (zlen s) skip cnt vc =
    Some ((fun k => pos es (i + k)) <$> find_spec s skip cnt (strings es2)).
Proof.
  intros Hz Hch es2. induction es2 as [|e es2 IH]; intros i fuel cnt vc Hd Hi Hf Hvc.
  - assert (i = length es) as -> by (pose proof (f_equal length Hd) as L; rewrite length_drop in L; cbn in L; lia).
    rewrite pos_length. destruct fuel; cbn [find_loop]; rewrite (end_at zl es b t c Hz); done.
  - assert (es !! i = Some e) as He by (rewrite <- (Nat.add_0_r i), <- lookup_drop, Hd; done).
    assert (drop (S i) es = es2) as Hd2.
    { rewrite <- Nat.add_1_r, <- drop_drop, Hd. done. }
    pose proof (lookup_lt_Some _ _ _ He) as Hi2.
    destruct (at_pos zl es b t c i e Hz Hch He) as ((ch & Hr & Ech) & _ & _ & Hps & Hdl & Hv & r & a & Ea & La).
    destruct fuel as [|fuel]; [cbn in Hf; lia|]. cbn [find_loop]. rewrite Hr. cbn [mbind option_bind].
    rewrite Ech, Hps. cbn [mbind option_bind]. rewrite Hdl. cbn [mbind option_bind].
    assert (pos es i + psize (large e) + zlen (vhdr (val e)) + zlen (vdata (val e)) = pos es (S i)) as En
      by (rewrite (pos_S es i e He), esize_parts; lia).
    rewrite En. assert (length es2 <= fuel)%nat as Hf2 by (cbn in Hf; lia).
    assert (forall cnt' vc', vcache_ok s vc' -> find_loop fuel zl (pos es (S i)) s (zlen s) skip cnt' vc' =
      Some ((fun k => pos es (i + k)) <$> (S <$> find_spec s skip cnt' (strings es2)))) as K.
    { intros cnt' vc' Hvc'. rewrite (IH (S i)) by (done || lia).
      destruct (find_spec _ _ _ _) as [k|]; [|done]. cbn. do 3 f_equal. lia. }
    assert (pos es i = pos es (i + 0)) as E0 by (by rewrite Nat.add_0_r).
    cbn [strings map find_spec]. fold (strings es2). rewrite <- same_val_text by done.
    destruct (cnt =? 0); cbn [andb]; [|by rewrite K].
    rewrite is_str_venc by done. destruct (val e) as [d|x enc]; cbn [vdata same_val venc] in *.
    + destruct (Z.eqb_spec (zlen d) (zlen s)) as [El|El].
      * replace (rdn zl (pos es i + psize (large e) + zlen (vhdr (EStr d))) (zlen s)) with (Some d)
          by (rewrite Ea; by rewrite rdn_app_mid by lia).
        rewrite rdn_whole. cbn [mbind option_bind]. case_bool_decide; [by rewrite E0|by rewrite K].
      * rewrite bool_decide_false by congruence. by rewrite K.
    + assert ((match vc with Some v => Some v
               | None => e0 ← zipTryEncoding s (zlen s); Some (match e0 with Some (v, _) => Some v | None => None end)
               end) = Some (match value_of s with EInt v _ => Some v | EStr _ => None end)) as ->.
      { destruct Hvc as [-> | ->]; [|done]. rewrite try_enc. cbn [mbind option_bind]. by destruct (value_of s). }
      cbn [mbind option_bind]. pose proof (load_int a r _ x enc (eq_sym La) Hv) as Hli. rewrite <- Ea in Hli.
      destruct (value_of s) as [|y enc'] eqn:Evs.
      * rewrite K; [done|]. right. by rewrite Evs.
      * rewrite Hli. cbn [mbind option_bind]. destruct (x =? y); [by rewrite E0|].
        rewrite K; [done|]. right. by rewrite Evs.
Qed.

Lemma zip_find_ok zl es i s skip : layout zl es -> (i <= length es)%nat ->
  ziplistFind zl (pos es i) s (zlen s) skip =
    Some ((fun k => pos es (i + k)) <$> find_spec s skip 0 (strings (drop i es))).
Proof.
  intros Hl Hi. destruct (layout_split zl es Hl) as (b & t & c & Hz & Hch & _).
  pose proof (zl_length zl es b t c Hz). unfold ziplistFind.
  apply (find_loop_ok zl es b t c s skip Hz Hch); [done|done|rewrite length_drop; lia|by left].
Qed.

End Facts.

(** What the search reports: the least index it visits at which the string occurs. *)
Lemma find_spec_Some s skip ts : 0 <= skip -> forall cnt i, 0 <= cnt ->
  find_spec s skip cnt ts = Some i ->
  ts !! i = Some s /\ cnt <= Z.of_nat i /\ (Z.of_nat i - cnt) mod (skip + 1) = 0 /\
  forall j, (j < i)%nat -> cnt <= Z.of_nat j -> (Z.of_nat j - cnt) mod (skip + 1) = 0 -> ts !! j <> Some s.
Proof.
  intros Hsk. induction ts as [|t ts IH]; intros cnt i Hc; [done|]. cbn [find_spec].
  destruct (Z.eqb_spec cnt 0) as [->|Hne]; cbn [andb].
  - case_bool_decide as Et.
    + intros [= <-]. subst t. split_and!; [done|done|by rewrite Z.mod_0_l by lia|lia].
    + destruct (find_spec s skip skip ts) as [k|] eqn:E; [|done]. cbn. intros [= <-].
      destruct (IH skip k ltac:(lia) E) as (H1 & H2 & H3 & H4). split_and!; [done|lia| |].
      * replace (Z.of_nat (S k) - 0) with (Z.of_nat k - skip + 1 * (skip + 1)) by lia. by rewrite Z_mod_plus_full.
      * intros [|j] Hj _ Hm; cbn; [congruence|]. replace (Z.of_nat (S j) - 0) with (Z.of_nat j - skip + 1 * (skip + 1)) in Hm by lia.
        rewrite Z_mod_plus_full in Hm. destruct (Z.le_gt_cases skip (Z.of_nat j)); [apply H4; [lia|done|done]|].
        exfalso. rewrite <- (Z_mod_plus_full _ 1), Z.mod_small in Hm; lia.
  - destruct (find_spec s skip (cnt - 1) ts) as [k|] eqn:E; [|done]. cbn. intros [= <-].
    destruct (IH (cnt - 1) k ltac:(lia) E) as (H1 & H2 & H3 & H4).
    split_and!; [done|lia|by replace (Z.of_nat (S k) - cnt) with (Z.of_nat k - (cnt - 1)) by lia|].
    intros [|j] Hj Hcj Hm; cbn; [lia|]. apply H4; [lia|lia|]. by replace (Z.of_nat j - (cnt - 1)) with (Z.of_nat (S j) - cnt) by lia.
Qed.

End ZiplistFacts.
