(* ===== verification/ZiplistThms.v ===== *)
(** * ziplist.c: the correctness theorems

    A well-formed list is the bytes of a list of entries; every operation of the API is
    shown to implement the operation on the list of strings the entries stand for, and
    the one case where the code does not is exhibited. *)

From S2P Require Import Prelude Endian Util Ziplist ZiplistLayout ZiplistFacts.
Import ZiplistSpec ZiplistLayout ZiplistFacts.

Section Theorems.
Context `{Host} (junk : nat -> Z).

Lemma total_casc_le es : forall raw, total (casc raw es) <= total es + 4 * zlen es.
Proof.
  induction es as [|e es IH]; intros raw; [done|]. cbn [casc]. rewrite zlen_cons.
  pose proof (zlen_nonneg es). destruct (need raw && negb (large e)) eqn:E.
  - apply andb_true_iff in E as [_ E]. apply negb_true_iff in E.
    rewrite !total_cons. specialize (IH (esize (widen e))). rewrite esize_widen in * by done. lia.
  - lia.
Qed.

Lemma total_relink_le rl es : total (relink rl es) <= total es + 4 * zlen es.
Proof.
  destruct es as [|nx es]; [done|]. cbn [relink]. fold (moved rl nx). rewrite !total_cons, moved_size, zlen_cons.
  pose proof (total_casc_le es (esize nx + (psize (need rl) - psize (large nx)))).
  destruct (need rl), (large nx); cbn [psize] in *; lia.
Qed.

Lemma newent_size q s : esize (newent q s) <= zlen s + 18.
Proof.
  rewrite esize_parts. cbn [newent large val]. pose proof (vhdr_len (value_of s)). pose proof (zlen_nonneg s).
  assert (zlen (vdata (value_of s)) <= zlen s + 8).
  { destruct (value_of s) as [s'|v enc] eqn:E; cbn [vdata].
    - pose proof (text_value_of s) as T. rewrite E in T. cbn [text] in T. subst s'. lia.
    - unfold int_bytes. rewrite zlen_le_enc. pose proof (int_size enc). lia. }
  destruct (need q); cbn [psize]; lia.
Qed.

(** The first entry keeps a 1-byte length field. *)
Definition head_small (es : list ent) : Prop := match es with [] => True | e :: _ => large e = false end.

(** A well-formed list: the bytes of entries, the first one with a short field. *)
Definition zl_wf (zl : list Z) (es : list ent) : Prop := layout zl es /\ head_small es.

(** Room for one more entry of [n] bytes and for every field to be widened. *)
Definition room (es : list ent) (n : Z) : Prop := 11 + total es + n + 18 + 4 * zlen es <= ZIPLIST_LIMIT.

(** The insertion that the code gets wrong: the entry at [i] has a 5-byte field that
    would shrink, and the new entry takes less than 4 bytes. *)
Definition insert_hazard (es : list ent) (i : nat) (s : list Z) : bool :=
  hazard (esize (newent (last_size 0 (take i es)) s)) (drop i es).

Lemma zl_insert_ok zl es i s : zl_wf zl es -> (i <= length es)%nat -> room es (zlen s) ->
  insert_hazard es i s = false ->
  exists zl' es', __ziplistInsert junk zl (pos es i) s (zlen s) = Some zl' /\ zl_wf zl' es' /\
    strings es' = take i (strings es) ++ s :: drop i (strings es).
Proof.
  intros [Hl Hh] Hi Hr Hz. unfold room, insert_hazard, ZIPLIST_LIMIT in *.
  pose proof (take_drop i es) as E. set (es1 := take i es) in *. set (es2 := drop i es) in *.
  rewrite <- E in Hl. pose proof (zlen_nonneg s). pose proof (total_nonneg es). pose proof (zlen_nonneg es).
  assert (total es = total es1 + total es2 /\ zlen es = zlen es1 + zlen es2) as [Et En]
    by (by rewrite <- E, total_app, zlen_app).
  pose proof (newent_size (last_size 0 es1) s). pose proof (zlen_nonneg es1).
  pose proof (total_relink_le (esize (newent (last_size 0 es1) s)) es2).
  destruct (zip_insert_ok junk zl es1 es2 s Hl) as (zl' & Ez & Hl' & Hs); [lia|done| |].
  { unfold ZIPLIST_LIMIT. rewrite total_app, total_cons. lia. }
  unfold pos. fold es1. rewrite Ez. eexists _, _. split; [done|]. split; [split; [done|]|].
  - destruct es1 as [|e1 es1]; [done|]. rewrite <- E in Hh. done.
  - rewrite Hs. unfold strings. by rewrite firstn_map, skipn_map.
Qed.

Lemma zl_delete_ok zl es i num : zl_wf zl es -> (i < length es)%nat -> 0 <= num -> room es 0 ->
  exists zl' es', __ziplistDelete junk zl (pos es i) num = Some zl' /\ zl_wf zl' es' /\
    strings es' = take i (strings es) ++ drop (i + Z.to_nat num) (strings es).
Proof.
  intros [Hl Hh] Hi Hn Hr. unfold room, ZIPLIST_LIMIT in *.
  destruct (es_split es i Hi) as (e & E & He).
  destruct (Z.eq_dec num 0) as [->|Hn0].
  - destruct (layout_split zl es Hl) as (b & t & c & Hz & Hch & _).
    rewrite Nat.add_0_r, take_drop. exists zl, es. split; [|by split].
    destruct (at_pos zl es b t c i e Hz Hch He) as ((ch & Hrd & Ech) & Hze & _).
    unfold __ziplistDelete. rewrite Hze. cbn [mbind option_bind].
    rewrite E in Hz, Hch. pose proof (walk_ok b t c zl [] (take i es) (e :: drop (S i) es) (length zl) 0 0 Hz Hch) as W.
    rewrite app_nil_r in W. fold (pos es i) in W. rewrite W; [|by left|cbn; lia]. cbn [mbind option_bind zp].
    by rewrite Z.sub_diag.
  - set (k := Z.to_nat num). set (es3 := drop (i + k) es). set (del := take (k - 1) (drop (S i) es)).
    assert (es = take i es ++ (e :: del) ++ es3) as E3.
    { rewrite E at 1. f_equal. cbn [app]. f_equal. unfold del, es3.
      replace (i + k)%nat with (S i + (k - 1))%nat by lia. rewrite <- drop_drop. by rewrite take_drop. }
    assert (total es = total (take i es) + (total (e :: del) + total es3)) as Et by (rewrite E3 at 1; by rewrite !total_app).
    assert (zlen es = zlen (take i es) + (zlen (e :: del) + zlen es3)) as En by (rewrite E3 at 1; by rewrite !zlen_app).
    pose proof (total_nonneg (e :: del)). pose proof (zlen_nonneg (e :: del)). pose proof (zlen_nonneg (take i es)).
    pose proof (total_relink_le (last_size 0 (take i es)) es3).
    rewrite E3 in Hl. destruct (zip_delete_ok junk zl (take i es) e del es3 num Hl) as (zl' & Ez & Hl' & Hs).
    { assert (zlen (drop (S i) es) = zlen es - Z.of_nat (S i)) as Hd by (unfold zlen; rewrite length_drop; lia).
      destruct (Z.le_gt_cases (num - 1) (zlen (drop (S i) es))) as [Hle|Hgt].
      - left. rewrite zlen_cons. unfold del. unfold zlen in *. rewrite length_take. lia.
      - right. split; [unfold es3; apply drop_ge; unfold zlen in *; lia|].
        rewrite zlen_cons. unfold del, zlen in *. rewrite length_take. lia. }
    { unfold ZIPLIST_LIMIT. rewrite total_app. lia. }
    unfold pos. rewrite Ez. eexists _, _. split; [done|]. split; [split; [done|]|].
    + destruct i as [|i]; [|by destruct es]. cbn [take app]. destruct es3 as [|nx es4]; [done|]. done.
    + rewrite Hs. unfold strings, es3. by rewrite firstn_map, skipn_map.
Qed.

(** C13. ziplistInsert puts a string in the list before any entry or at the end: on a
    well-formed list with room it never reads or writes outside the allocation, the
    result is again well formed (every length field, the tail offset, the byte count and
    the cascaded fields included) and its strings are the old ones with [s] at its place.
    The one insertion excluded is [insert_hazard]. *)
Theorem ziplistInsert_correct zl es i s :
  zl_wf zl es -> (i <= length es)%nat -> room es (zlen s) -> insert_hazard es i s = false ->
  exists zl' es', ziplistInsert junk zl (pos es i) s (zlen s) = Some zl' /\ zl_wf zl' es' /\
    strings es' = take i (strings es) ++ s :: drop i (strings es).
Proof. apply zl_insert_ok. Qed.

(** ziplistPush never meets that case: on every well-formed list it adds the string at
    the chosen end and keeps the list well formed. *)
Theorem ziplistPush_correct zl es s (head : bool) : zl_wf zl es -> room es (zlen s) ->
  exists zl' es', ziplistPush junk zl s (zlen s) head = Some zl' /\ zl_wf zl' es' /\
    strings es' = if head then s :: strings es else strings es ++ [s].
Proof.
  intros Hw Hr. unfold ziplistPush. destruct head; cbn [mbind option_bind].
  - change ZIPLIST_ENTRY_HEAD with (pos es 0). apply zl_insert_ok; [done|lia|done|].
    destruct Hw as [_ Hh]. destruct es as [|e es]; [done|]. unfold insert_hazard, hazard. cbn [drop take] in *.
    by rewrite Hh.
  - pose proof Hw as [Hl _]. destruct (layout_split zl es Hl) as (b & t & c & Hz & _ & Hb & _ & Hlim & _).
    pose proof (total_nonneg es).
    assert (ZIPLIST_ENTRY_END zl = Some (pos es (length es))) as ->.
    { rewrite Hz, entry_end by (unfold in_u, ZIPLIST_LIMIT in *; lia). f_equal. rewrite pos_length. lia. }
    cbn [mbind option_bind].
    destruct (zl_insert_ok zl es (length es) s Hw) as (zl' & es' & -> & Hw' & Hs); [lia|done| |].
    { unfold insert_hazard. by rewrite drop_ge. }
    exists zl', es'. split_and!; [done|done|]. rewrite Hs, take_ge, drop_ge by (unfold strings; by rewrite length_map). done.
Qed.

(** C26. ziplistDeleteRange removes the [num] entries from the index on, those there are,
    and does nothing for an index out of range; ziplistDelete is the case of one entry at a
    position. *)
Theorem ziplistDeleteRange_correct zl es index num : zl_wf zl es -> 0 <= num -> room es 0 ->
  exists zl' es', ziplistDeleteRange junk zl index num = Some zl' /\ zl_wf zl' es' /\
    strings es' = match index_of es (swrap 32 index) with
      | Some i => take i (strings es) ++ drop (i + Z.to_nat num) (strings es)
      | None => strings es
      end.
Proof.
  intros Hw Hn Hr. pose proof Hw as [Hl _]. unfold ziplistDeleteRange. rewrite (zip_index_ok zl es _ Hl). cbn [mbind option_bind].
  destruct (index_of es (swrap 32 index)) as [i|] eqn:Ei; cbn [fmap option_fmap option_map]; [|by exists zl, es].
  apply zl_delete_ok; [done| |done|done]. unfold index_of in Ei. pose proof (zlen_nonneg es).
  destruct (_ && _) eqn:E1; [injection Ei as <-; bool_to_prop; unfold zlen in *; lia|].
  destruct ((swrap 32 index <? 0) && _) eqn:E2; [|done]. injection Ei as <-. bool_to_prop. unfold zlen in *. lia.
Qed.

(** Reading: ziplistIndex finds the entry of every index, counted from the head or,
    when negative, from the tail, and NULL exactly for the indexes out of range; ziplistGet
    returns the value stored there, and ziplistCompare compares its string. *)
Theorem ziplistIndex_correct zl es index : zl_wf zl es ->
  ziplistIndex zl index = Some (pos es <$> index_of es index) /\
  forall i e, index_of es index = Some i -> es !! i = Some e ->
    ziplistGet zl (Some (pos es i)) = Some (Some (view (val e))) /\
    forall s, ziplistCompare zl (pos es i) s (zlen s) = Some (bool_decide (text (val e) = s)).
Proof.
  intros [Hl _]. split; [by apply zip_index_ok|]. intros i e _ He. split; [by apply get_ok|].
  intros s. by apply compare_ok.
Qed.

(** Iteration: from the entry of index [i], ziplistNext and ziplistPrev go to the
    neighbours and stop at the ends, and ziplistPrev from the end marker goes to the last. *)
Theorem ziplistNext_Prev_correct zl es i e : zl_wf zl es -> es !! i = Some e ->
  ziplistNext zl (pos es i) = Some (if decide (S i < length es)%nat then Some (pos es (S i)) else None) /\
  ziplistPrev zl (pos es i) = Some (match i with O => None | S j => Some (pos es j) end) /\
  ziplistPrev zl (pos es (length es)) = Some (Some (pos es (length es - 1))).
Proof.
  intros [Hl _] He. split_and!; [by apply zip_next_ok with e|by apply prev_ok_entry with e|].
  rewrite prev_ok_end by done. rewrite decide_False; [done|]. by intros ->.
Qed.

(** ziplistFind from the entry [i], skipping [skip] entries between comparisons, finds
    the first visited entry that holds the string, whatever its encoding, and NULL when
    there is none. *)
Theorem ziplistFind_correct zl es i s skip : zl_wf zl es -> (i <= length es)%nat -> 0 <= skip ->
  exists r, ziplistFind zl (pos es i) s (zlen s) skip = Some ((fun k => pos es (i + k)) <$> r) /\
    r = find_spec s skip 0 (drop i (strings es)) /\
    forall k, r = Some k -> strings es !! (i + k)%nat = Some s /\ Z.of_nat k mod (skip + 1) = 0 /\
      forall j, (j < k)%nat -> Z.of_nat j mod (skip + 1) = 0 -> strings es !! (i + j)%nat <> Some s.
Proof.
  intros [Hl _] Hi Hs. exists (find_spec s skip 0 (drop i (strings es))). split_and!.
  - rewrite zip_find_ok by done. unfold strings. by rewrite skipn_map.
  - done.
  - intros k Hk. apply find_spec_Some in Hk as (H1 & _ & H3 & H4); [|done|done].
    rewrite lookup_drop in H1. rewrite Z.sub_0_r in H3. split_and!; [done|done|].
    intros j Hj Hm. rewrite <- lookup_drop. apply H4; [done|lia|by rewrite Z.sub_0_r].
Qed.

(** The cascade: after the entry before [es] took the size [esize e], every field of
    [es] that can no longer hold the length before it is widened, each widening counted in
    the next length, in one pass that ends at the first field that fits; the byte count and
    the tail offset follow.  The loop never runs out of entries. *)
Theorem ziplistCascadeUpdate_correct es b t c A e q p' :
  prev_ok (large e) q -> val_ok (val e) -> chain_tl es -> first_ok p' es ->
  b = 11 + zlen A + esize e + total es -> t = 10 + zlen A + last_off (e :: es) ->
  11 + zlen A + esize e + total es + 4 * zlen es <= ZIPLIST_LIMIT ->
  __ziplistCascadeUpdate junk (cstate b t c A e q p' es) (10 + zlen A) =
    Some (cstate (11 + zlen A + esize e + total (casc (esize e) es))
      (10 + zlen A + last_off (e :: casc (esize e) es)) c A e q (esize e) (casc (esize e) es)) /\
  chain (esize e) (casc (esize e) es) /\ map val (casc (esize e) es) = map val es.
Proof.
  intros Hq Hv Htl Hp' Hb Ht Hl. pose proof (total_casc_le es (esize e)).
  split_and!; [apply cascade_update_ok; auto; lia| |apply casc_vals].
  apply casc_chain; [|done]. pose proof (esize_bounds e Hv). lia.
Qed.

(** ziplistLen counts the entries, also when the 16-bit counter of the header is
    saturated, and the counter it may store back is right. *)
Theorem ziplistLen_correct zl es : zl_wf zl es ->
  exists zl', ziplistLen zl = Some (zl', zlen es) /\ zl_wf zl' es.
Proof. intros [Hl Hh]. destruct (len_ok zl es Hl) as (zl' & E & Hl'). by exists zl'. Qed.

(** The empty list is well formed. *)
Lemma zl_new_wf : exists zl, ziplistNew junk = Some zl /\ zl_wf zl [].
Proof. destruct (new_ok junk) as (zl & E & Hl). by exists zl. Qed.

End Theorems.

(** ** A concrete list *)

#[local] Instance little : Host := {| big_endian := false |}.
Definition dirty (n : nat) : Z := 99.

(** "12" (an integer), "ab", a string of 260 bytes, and "123". *)
Definition w_es : list ent :=
  [Ent false (EInt 12 0xfd); Ent false (EStr [97; 98]); Ent false (EStr (repeat 97 260)); Ent true (EInt 123 ZIP_INT_8B)].
Definition w_zl : list Z := hdr (11 + total w_es) (10 + last_off w_es) 4 ++ enc_ents 0 w_es ++ [ZIP_END].

Lemma w_zl_built :
  (zl ← ziplistNew dirty; zl ← ziplistPush dirty zl [97; 98] 2 true;
   zl ← ziplistPush dirty zl (repeat 97 260) 260 false; zl ← ziplistPush dirty zl [49; 50; 51] 3 false;
   ziplistPush dirty zl [49; 50] 2 true) = Some w_zl.
Proof. vm_compute. reflexivity. Qed.

Lemma w_wf : zl_wf w_zl w_es.
Proof.
  split; [|done]. exists 4. split_and!; [done| |by left|by vm_compute].
  repeat (split; [by vm_compute|]; split; [cbn|]); try done; try (by left; split; [auto|by vm_compute]);
    by right; vm_compute.
Qed.

Lemma ziplistInsert_correct_witness :
  exists zl' es', ziplistInsert dirty w_zl (pos w_es 1) [45; 55] 2 = Some zl' /\ zl_wf zl' es' /\
    strings es' = [49; 50] :: [45; 55] :: drop 1 (strings w_es).
Proof. apply (ziplistInsert_correct dirty w_zl w_es 1 [45; 55]); [exact w_wf|cbn; lia|by vm_compute|by vm_compute]. Defined.

Lemma ziplistPush_correct_witness :
  exists zl' es', ziplistPush dirty w_zl [45; 55] 2 true = Some zl' /\ zl_wf zl' es' /\
    strings es' = [45; 55] :: strings w_es.
Proof. apply (ziplistPush_correct dirty w_zl w_es [45; 55] true); [exact w_wf|by vm_compute]. Defined.

Lemma ziplistDeleteRange_correct_witness :
  exists zl' es', ziplistDeleteRange dirty w_zl (2 ^ 32 - 2) 5 = Some zl' /\ zl_wf zl' es' /\
    strings es' = [[49; 50]; [97; 98]].
Proof.
  apply (ziplistDeleteRange_correct dirty w_zl w_es (2 ^ 32 - 2) 5); [exact w_wf|lia|by vm_compute].
Defined.

Lemma ziplistIndex_correct_witness :
  ziplistIndex w_zl (-4) = Some (Some (pos w_es 0)) /\
  ziplistGet w_zl (Some (pos w_es 0)) = Some (Some (ZInt 12)).
Proof.
  pose proof (ziplistIndex_correct w_zl w_es (-4) w_wf) as [E G]. split; [exact E|].
  exact (proj1 (G 0%nat (Ent false (EInt 12 0xfd)) eq_refl eq_refl)).
Defined.

Lemma ziplistNext_Prev_correct_witness :
  ziplistNext w_zl (pos w_es 3) = Some None /\ ziplistPrev w_zl (pos w_es 3) = Some (Some (pos w_es 2)).
Proof.
  pose proof (ziplistNext_Prev_correct w_zl w_es 3 (Ent true (EInt 123 ZIP_INT_8B)) w_wf eq_refl) as (E1 & E2 & _).
  split; [exact E1|exact E2].
Defined.

Lemma ziplistFind_correct_witness :
  exists r, ziplistFind w_zl (pos w_es 1) [49; 50; 51] 3 1 = Some ((fun k => pos w_es (1 + k)) <$> r) /\ r = Some 2%nat.
Proof.
  destruct (ziplistFind_correct w_zl w_es 1 [49; 50; 51] 1 w_wf) as (r & E & Er & _); [cbn; lia|lia|].
  exists r. split; [exact E|]. rewrite Er. vm_compute. reflexivity.
Defined.

(** Three entries of 253 bytes after one that grew to 254: all the fields are widened. *)
Definition casc_es : list ent := replicate 3 (Ent false (EStr (repeat 97 250))).

Lemma ziplistCascadeUpdate_correct_witness :
  map large (casc 254 casc_es) = [true; true; true] /\
  exists zl, __ziplistCascadeUpdate dirty
    (cstate (11 + 254 + total casc_es) (10 + 0 + (254 + 2 * 253)) 4 [] (Ent false (EStr (repeat 97 251))) 0 253 casc_es) 10 = Some zl.
Proof.
  split; [vm_compute; reflexivity|].
  destruct (ziplistCascadeUpdate_correct dirty casc_es (11 + 254 + total casc_es) (10 + 0 + (254 + 2 * 253)) 4 []
    (Ent false (EStr (repeat 97 251))) 0 253) as (E & _); [by vm_compute..|].
  eexists. exact E.
Defined.

Lemma ziplistLen_correct_witness : exists zl', ziplistLen w_zl = Some (zl', 4) /\ zl_wf zl' w_es.
Proof. apply (ziplistLen_correct w_zl w_es). exact w_wf. Defined.

(** The defect of that insertion: a list built by pushes and a deletion only, where
    inserting the integer 1 before the last entry shrinks the allocation before moving the
    bytes that lie beyond its new end (ziplistResize, then memmove). *)
Theorem ziplistInsert_overreads :
  exists zl es, (z ← ziplistNew dirty; z ← ziplistPush dirty z (repeat 97 300) 300 false;
    z ← ziplistPush dirty z (repeat 97 248) 248 false; z ← ziplistPush dirty z [98] 1 false;
    ziplistDeleteRange dirty z 0 1) = Some zl /\
  es = [Ent false (EStr (repeat 97 248)); Ent true (EStr [98])] /\ zl_wf zl es /\
  ziplistIndex zl 1 = Some (Some (pos es 1)) /\
  insert_hazard es 1 [49] = true /\ ziplistInsert dirty zl (pos es 1) [49] 1 = None.
Proof.
  eexists _, _. split; [vm_compute; reflexivity|]. split; [reflexivity|]. split.
  { split; [|done]. exists 2. split_and!; [by vm_compute| |by left|by vm_compute]. by repeat split. }
  split_and!; by vm_compute.
Qed.
