(* ===== verification/Robj.v ===== *)
(** * object.c: comparison of string objects, and doubles

    Comparison of string objects (object.c) and the doubles used as scores: they are
    the [spec_float] of the Standard Library, with its IEEE comparisons. *)

From Stdlib Require Export SpecFloat.
From S2P Require Import Prelude Util.

(** memcmp returns any negative or positive number for the first bytes that differ. *)
Class Libc := {
  memcmp_diff : Z -> Z -> Z;
  memcmp_diff_lt : forall a b, a < b -> memcmp_diff a b < 0;
  memcmp_diff_gt : forall a b, b < a -> 0 < memcmp_diff a b }.

(** A string object: raw, or an integer; the two shared strings that stand for the ends
    of the lexicographic order are told apart by their address. *)
Inductive robj := RawString (s : list Z) | IntString (v : Z) | MinString | MaxString.

#[export] Instance robj_eq_dec : EqDecision robj.
Proof. solve_decision. Defined.

(** The text of an object, as compareStringObjectsWithFlags finds it: an integer is
    printed in a buffer of 128 bytes.  The shared strings are created by redis.c. *)
Definition object_text (o : robj) : option (list Z) :=
  match o with
  | RawString s => Some s
  | IntString v =>
      '(buf, n) ← Num.ll2string (replicate 128 0) 128 v;
      rdn buf 0 n
  | MinString => Some [109; 105; 110; 115; 116; 114; 105; 110; 103]
  | MaxString => Some [109; 97; 120; 115; 116; 114; 105; 110; 103]
  end.

Section Robj.
Context `{Libc}.

Fixpoint memcmp_loop (a b : list Z) (n : nat) : option Z :=
  match n with
  | O => Some 0
  | S n =>
      match a, b with
      | x :: a, y :: b => if x =? y then memcmp_loop a b n else Some (memcmp_diff x y)
      | _, _ => None
      end
  end.

(** [compareStringObjects]: compareStringObjectsWithFlags with the binary comparison.
    Two pointers to one object compare equal. *)
Definition compareStringObjects (a b : robj) : option Z :=
  if bool_decide (a = b) then Some 0 else
  astr ← object_text a;
  bstr ← object_text b;
  let alen := zlen astr in
  let blen := zlen bstr in
  let minlen := if alen <? blen then alen else blen in
  cmp ← memcmp_loop astr bstr (Z.to_nat minlen);
  if cmp =? 0 then Some (swrap 32 (uwrap 64 (alen - blen))) else Some cmp.

Definition equalStringObjects (a b : robj) : option bool :=
  match a, b with
  | IntString x, IntString y => Some (x =? y)
  | _, _ => c ← compareStringObjects a b; Some (c =? 0)
  end.

End Robj.

Definition stringObjectLen (o : robj) : option Z :=
  match o with
  | IntString v => '(_, n) ← Num.ll2string (replicate 32 0) 32 v; Some n
  | _ => s ← object_text o; Some (zlen s)
  end.

(** ** Specification: the order of byte strings *)

Fixpoint slt (a b : list Z) : bool :=
  match a, b with
  | _, [] => false
  | [], _ :: _ => true
  | x :: a, y :: b => (x <? y) || ((x =? y) && slt a b)
  end.

(** The text of an object, when it is one: integers are longs, strings are shorter than
    2^31 (an sds length is an int). *)
Definition otext (o : robj) : list Z := default [] (object_text o).
Definition robj_ok (o : robj) : Prop :=
  match o with
  | RawString s => zlen s < 2 ^ 31
  | IntString v => in_s 64 v
  | MinString | MaxString => True
  end.

(** The sign of a comparison. *)
Definition cmp_sign (a b : list Z) (c : Z) : Prop :=
  (c < 0 <-> slt a b = true) /\ (0 < c <-> slt b a = true) /\ (c = 0 <-> a = b).

(** ** Proofs *)

Lemma slt_irrefl a : slt a a = false.
Proof. induction a as [|x a IH]; cbn; [done|]. by rewrite Z.ltb_irrefl, Z.eqb_refl, IH. Qed.

Lemma slt_trans a : forall b c, slt a b = true -> slt b c = true -> slt a c = true.
Proof.
  induction a as [|x a IH]; intros [|y b] [|z c]; cbn; try done.
  rewrite !orb_true_iff, !andb_true_iff, !Z.ltb_lt, !Z.eqb_eq.
  intros [H1|[-> H1]] [H2|[-> H2]]; [left; lia|auto|auto|right; split; eauto].
Qed.

Lemma slt_total a : forall b, slt a b = true \/ a = b \/ slt b a = true.
Proof.
  induction a as [|x a IH]; intros [|y b]; cbn; auto.
  rewrite !orb_true_iff, !andb_true_iff, !Z.ltb_lt, !Z.eqb_eq.
  destruct (Z.lt_trichotomy x y) as [?|[->|?]]; [auto| |auto].
  destruct (IH b) as [|[->|]]; auto.
Qed.

Lemma slt_asym a b : slt a b = true -> slt b a = false.
Proof.
  intros H. destruct (slt b a) eqn:E; [|done]. pose proof (slt_trans _ _ _ H E) as X.
  by rewrite slt_irrefl in X.
Qed.

Lemma object_text_int v : in_s 64 v -> object_text (IntString v) = Num.ll_chars v.
Proof.
  intros Hv. destruct (NumFacts.ll_chars_spec v Hv) as (ds & Hc & Hd & E).
  set (p := if v <? 0 then ch_minus :: ds else ds) in *.
  assert (length ds <= 20)%nat as L by (apply NumFacts.canonical_length; [done|unfold in_s in Hv; lia]).
  assert (zlen p <= 21) as Lp by (unfold p; destruct (v <? 0); unfold zlen; cbn [length]; lia).
  cbn [object_text]. destruct (ll2string_ok (replicate 128 0) 128 v Hv) as (p' & l & E' & -> & ->); [by vm_compute|].
  rewrite E in E'. injection E' as <-. cbn [mbind option_bind]. rewrite E.
  rewrite Z.min_l by lia. rewrite take_ge by (unfold zlen; lia).
  by apply rdn_prefix.
Qed.

Lemma object_text_ok o : robj_ok o -> object_text o = Some (otext o) /\ zlen (otext o) < 2 ^ 31.
Proof.
  unfold otext. destruct o as [s|v| |]; cbn [robj_ok]; intros Ho; [done| |done|done].
  rewrite object_text_int by done. destruct (NumFacts.ll_chars_spec v Ho) as (ds & Hc & Hd & ->).
  assert (length ds <= 20)%nat as L by (apply NumFacts.canonical_length; [done|unfold in_s in Ho; lia]).
  split; [done|]. cbn [default]. destruct (v <? 0); unfold zlen; cbn [length from_option id]; lia.
Qed.

Lemma otext_int_inj x y : in_s 64 x -> in_s 64 y -> otext (IntString x) = otext (IntString y) -> x = y.
Proof.
  intros Hx Hy. unfold otext. rewrite !object_text_int by done.
  destruct (NumFacts.ll_chars_spec x Hx) as (dx & _ & _ & Ex), (NumFacts.ll_chars_spec y Hy) as (dy & _ & _ & Ey).
  rewrite Ex, Ey. cbn [default]. intros E.
  assert (Num.string2ll (if x <? 0 then ch_minus :: dx else dx) = Some x) as S1 by (by apply string2ll_iff).
  assert (Num.string2ll (if y <? 0 then ch_minus :: dy else dy) = Some y) as S2 by (by apply string2ll_iff).
  cbn in E. rewrite E in S1. congruence.
Qed.

Section Facts.
Context `{Libc}.

Lemma memcmp_loop_sign a : forall b n, (n <= length a)%nat -> (n <= length b)%nat ->
  exists c, memcmp_loop a b n = Some c /\
    (c < 0 -> slt a b = true) /\ (0 < c -> slt b a = true) /\ (c = 0 -> take n a = take n b).
Proof.
  induction a as [|x a IH]; intros [|y b] [|n]; cbn; try lia; intros Ha Hb; try by exists 0.
  destruct (Z.eqb_spec x y) as [->|Hne].
  - destruct (IH b n) as (c & -> & H1 & H2 & H3); [lia..|]. exists c.
    rewrite Z.ltb_irrefl, Z.eqb_refl. split_and!; auto. intros. by rewrite H3.
  - exists (memcmp_diff x y).
    destruct (Z.lt_trichotomy x y) as [Hl|[?|Hl]]; [|done|].
    + pose proof (memcmp_diff_lt _ _ Hl). split_and!; [done|..]; try lia; intros _; by zdec.
    + pose proof (memcmp_diff_gt _ _ Hl). split_and!; [done|..]; try lia; intros _; by zdec.
Qed.

Lemma slt_prefix a : forall b n, n = Nat.min (length a) (length b) -> take n a = take n b ->
  ((length a < length b)%nat <-> slt a b = true) /\ ((length b < length a)%nat <-> slt b a = true) /\
  (length a = length b <-> a = b).
Proof.
  induction a as [|x a IH]; intros [|y b] n Hn E; cbn in *.
  - split_and!; split; done || lia.
  - split_and!; split; done || lia.
  - split_and!; split; done || lia.
  - subst n. cbn in E. injection E as -> E. rewrite !Z.ltb_irrefl, !Z.eqb_refl. cbn.
    destruct (IH b _ eq_refl E) as (H1 & H2 & H3). split_and!.
    + rewrite <- H1. lia.
    + rewrite <- H2. lia.
    + split; [intros [= Hl]; f_equal; by apply H3|intros [= ->]; done].
Qed.

Lemma int_of_size z : -2147483648 <= z < 2147483648 -> swrap 32 (uwrap 64 z) = z.
Proof.
  intros Hz. rewrite <- (s32_small z) at 2 by lia. unfold swrap, uwrap. f_equal.
  change (2 ^ 64) with (4294967296 * 4294967296). change (2 ^ 32) with 4294967296.
  Z.div_mod_to_equations; lia.
Qed.

(** compareStringObjects orders the texts of the objects bytewise. *)
Lemma compareStringObjects_ok a b : robj_ok a -> robj_ok b ->
  exists c, compareStringObjects a b = Some c /\ cmp_sign (otext a) (otext b) c.
Proof.
  intros Ha Hb. unfold compareStringObjects. case_bool_decide as Eab.
  { subst b. exists 0. split; [done|]. unfold cmp_sign. rewrite slt_irrefl. split_and!; split; done || lia. }
  destruct (object_text_ok a Ha) as [-> La], (object_text_ok b Hb) as [-> Lb]. cbn [mbind option_bind].
  set (x := otext a) in *. set (y := otext b) in *. clearbody x y.
  assert (Z.to_nat (if zlen x <? zlen y then zlen x else zlen y) = Nat.min (length x) (length y)) as Hn
    by (unfold zlen; zcase; lia).
  rewrite Hn. destruct (memcmp_loop_sign x y (Nat.min (length x) (length y))) as (c & -> & H1 & H2 & H3); [lia..|].
  cbn [mbind option_bind]. pose proof (slt_asym x y) as A1. pose proof (slt_asym y x) as A2.
  assert (slt x y = true -> x <> y) as N1 by (intros Hs ->; by rewrite slt_irrefl in Hs).
  assert (slt y x = true -> x <> y) as N2 by (intros Hs ->; by rewrite slt_irrefl in Hs).
  destruct (Z.eqb_spec c 0) as [->|Hc].
  - eexists. split; [done|]. specialize (H3 eq_refl).
    pose proof (zlen_nonneg x). pose proof (zlen_nonneg y).
    rewrite int_of_size by lia. unfold cmp_sign.
    destruct (slt_prefix x y _ eq_refl H3) as (P1 & P2 & P3). rewrite <- P1, <- P2, <- P3. unfold zlen. lia.
  - exists c. split; [done|]. unfold cmp_sign. destruct (Z.lt_trichotomy c 0) as [Hl|[?|Hl]]; [|lia|].
    + specialize (H1 Hl). rewrite H1. rewrite A1 by done. split_and!; split; try done; try lia.
      intros E. by destruct N1.
    + specialize (H2 Hl). rewrite H2. rewrite A2 by done. split_and!; split; try done; try lia.
      intros E. by destruct N2.
Qed.

Lemma equalStringObjects_ok a b : robj_ok a -> robj_ok b ->
  equalStringObjects a b = Some (bool_decide (otext a = otext b)).
Proof.
  intros Ha Hb. destruct (compareStringObjects_ok a b Ha Hb) as (c & Ec & _ & _ & Hc).
  assert ((c ← compareStringObjects a b; Some (c =? 0)) = Some (bool_decide (otext a = otext b))) as G.
  { rewrite Ec. cbn [mbind option_bind]. f_equal. case_bool_decide as E; [apply Z.eqb_eq|apply Z.eqb_neq]; tauto. }
  unfold equalStringObjects. destruct a as [|x| |], b as [|y| |]; try exact G.
  f_equal. destruct (Z.eqb_spec x y) as [->|Hne]; symmetry; [by apply bool_decide_true|].
  apply bool_decide_false. intros E. by apply otext_int_inj in E.
Qed.

End Facts.

(** ** Proofs: doubles *)

Definition isnan (d : spec_float) : bool := match d with S754_nan => true | _ => false end.

(** The place of a double that is not a NaN, in lexicographic order. *)
Definition dkey (d : spec_float) : Z * Z * Z :=
  match d with
  | S754_infinity true => (-2, 0, 0)
  | S754_finite true m e => (-1, - e, - Zpos m)
  | S754_zero _ | S754_nan => (0, 0, 0)
  | S754_finite false m e => (1, e, Zpos m)
  | S754_infinity false => (2, 0, 0)
  end.

Definition kcmp (a b : Z * Z * Z) : comparison :=
  match Z.compare a.1.1 b.1.1 with
  | Eq => match Z.compare a.1.2 b.1.2 with Eq => Z.compare a.2 b.2 | c => c end
  | c => c
  end.

Lemma SFcompare_key a b : isnan a = false -> isnan b = false -> SFcompare a b = Some (kcmp (dkey a) (dkey b)).
Proof.
  destruct a as [sa|[]| |[] ma ea], b as [sb|[]| |[] mb eb]; try done; intros _ _; cbn;
    unfold kcmp; cbn [dkey fst snd Z.compare Pos.compare Pos.compare_cont].
  - replace (IntDef.Z.compare ea eb) with (CompOpp (Z.compare (- ea) (- eb)))
      by (rewrite Z.compare_opp; symmetry; apply Z.compare_antisym).
    by destruct (Z.compare (- ea) (- eb)).
Qed.

Lemma kcmp_lt_trans a b c : kcmp a b = Lt -> kcmp b c = Lt -> kcmp a c = Lt.
Proof.
  destruct a as [[a1 a2] a3], b as [[b1 b2] b3], c as [[c1 c2] c3]. unfold kcmp. cbn [fst snd].
  repeat match goal with |- context [Z.compare ?x ?y] => destruct (Z.compare_spec x y) end; try done; lia.
Qed.

Lemma kcmp_eq a b : kcmp a b = Eq <-> a = b.
Proof.
  destruct a as [[a1 a2] a3], b as [[b1 b2] b3]. unfold kcmp. cbn [fst snd]. split.
  - repeat match goal with |- context [Z.compare ?x ?y] => destruct (Z.compare_spec x y) end; congruence.
  - intros [= -> -> ->]. by rewrite !Z.compare_refl.
Qed.

Lemma kcmp_antisym a b : kcmp b a = CompOpp (kcmp a b).
Proof.
  destruct a as [[a1 a2] a3], b as [[b1 b2] b3]. unfold kcmp. cbn [fst snd].
  rewrite (Z.compare_antisym a1 b1), (Z.compare_antisym a2 b2), (Z.compare_antisym a3 b3).
  by destruct (Z.compare a1 b1), (Z.compare a2 b2), (Z.compare a3 b3).
Qed.

(** The doubles that are not NaN are totally preordered: [dlt] is the order of the keys. *)
Definition dlt (a b : spec_float) : bool := SFltb a b.
Definition deq (a b : spec_float) : bool := SFeqb a b.
Definition dle (a b : spec_float) : bool := SFleb a b.

Lemma dlt_key a b : isnan a = false -> isnan b = false -> dlt a b = true <-> kcmp (dkey a) (dkey b) = Lt.
Proof. intros Ha Hb. unfold dlt, SFltb. rewrite SFcompare_key by done. by destruct (kcmp _ _). Qed.

Lemma deq_key a b : isnan a = false -> isnan b = false -> deq a b = true <-> dkey a = dkey b.
Proof.
  intros Ha Hb. unfold deq, SFeqb. rewrite SFcompare_key by done. rewrite <- kcmp_eq. by destruct (kcmp _ _).
Qed.

Lemma dle_key a b : isnan a = false -> isnan b = false -> dle a b = true <-> kcmp (dkey a) (dkey b) <> Gt.
Proof. intros Ha Hb. unfold dle, SFleb. rewrite SFcompare_key by done. by destruct (kcmp _ _). Qed.

Lemma dle_dlt a b : isnan a = false -> isnan b = false -> dle a b = negb (dlt b a).
Proof.
  intros Ha Hb. unfold dle, dlt, SFleb, SFltb. rewrite !SFcompare_key by done.
  rewrite (kcmp_antisym (dkey a) (dkey b)). by destruct (kcmp _ _).
Qed.
