(* ===== verification/Skiplist.v ===== *)
(** * t_zset.c: the skiplist of sorted sets

    Nodes live in a memory, a finite map from addresses to nodes; a pointer is an
    address, NULL is [None], and an access to a free address has no value.  Each node has
    an array of levels, each with a forward pointer and the number of elements it skips. *)

From S2P Require Import Prelude Util Robj.

Definition ZSKIPLIST_MAXLEVEL : nat := 32.

Record zskiplistLevel := Level { forward : option nat; span : Z }.

Record zskiplistNode := Node {
  obj : option robj; score : spec_float; backward : option nat; level : list zskiplistLevel }.

Abbreviation memory := (gmap nat zskiplistNode).

(** [zslevel] is the field [level]. *)
Record zskiplist := Zsl {
  header : nat; tail : option nat; length_ : Z; zslevel : nat }.

Record zrangespec := Range { rmin : spec_float; rmax : spec_float; minex : bool; maxex : bool }.
Record zlexrangespec := LexRange { lmin : robj; lmax : robj; lminex : bool; lmaxex : bool }.

Section Skiplist.
(** The C library, the allocator, the bytes of a fresh node, the generator random(), and
    the dictionary of the sorted set, of which only dictDelete is called. *)
Context `{Libc} (malloc : memory -> nat) (junk_level : zskiplistLevel) (junk_ptr : option nat).
Context (random : nat -> Z) {D : Type} (dictDelete : D -> robj -> D).

(** *** Access *)

Definition get_level (m : memory) (x i : nat) : option zskiplistLevel := n ← m !! x; level n !! i.

Definition set_level (m : memory) (x i : nat) (l : zskiplistLevel) : option memory :=
  n ← m !! x;
  _ ← level n !! i;
  Some (<[x := Node (obj n) (score n) (backward n) (<[i := l]> (level n))]> m).

Definition set_forward (m : memory) (x i : nat) (f : option nat) : option memory :=
  l ← get_level m x i; set_level m x i (Level f (span l)).

(** A span is an unsigned int. *)
Definition set_span (m : memory) (x i : nat) (s : Z) : option memory :=
  l ← get_level m x i; set_level m x i (Level (forward l) (uwrap 32 s)).

Definition set_backward (m : memory) (x : nat) (b : option nat) : option memory :=
  n ← m !! x; Some (<[x := Node (obj n) (score n) b (level n)]> m).

(** *** Creation *)

Definition zslCreateNode (m : memory) (level : nat) (score : spec_float) (obj : option robj) : memory * nat :=
  let zn := malloc m in
  (<[zn := Node obj score junk_ptr (replicate level junk_level)]> m, zn).

Fixpoint init_header (m : memory) (h j n : nat) : option memory :=
  match n with
  | O => Some m
  | S n => m ← set_level m h j (Level None 0); init_header m h (S j) n
  end.

Definition zslCreate (m : memory) : option (memory * zskiplist) :=
  let '(m, h) := zslCreateNode m ZSKIPLIST_MAXLEVEL (S754_zero false) None in
  m ← init_header m h 0 ZSKIPLIST_MAXLEVEL;
  m ← set_backward m h None;
  Some (m, Zsl h None 0 1).

Definition zslFreeNode (m : memory) (node : nat) : memory := delete node m.

Fixpoint free_loop (fuel : nat) (m : memory) (node : option nat) : option memory :=
  match node with
  | None => Some m
  | Some node =>
      match fuel with
      | O => None
      | S f => l ← get_level m node 0; free_loop f (zslFreeNode m node) (forward l)
      end
  end.

Definition zslFree (m : memory) (zsl : zskiplist) : option memory :=
  l ← get_level m (header zsl) 0;
  free_loop (size m) (delete (header zsl) m) (forward l).

(** [zslRandomLevel] from the state [r] of the generator.  [ZSKIPLIST_P * 0xFFFF] is the
    double 16383.75, so the test is [random()&0xFFFF < 16384]. *)
Fixpoint random_loop (fuel : nat) (r : nat) (level : Z) : option (Z * nat) :=
  if 4 * Z.land (random r) 0xFFFF <? 0xFFFF then
    match fuel with
    | O => None
    | S f => random_loop f (S r) (swrap 32 (level + 1))
    end
  else Some (level, S r).

Definition zslRandomLevel (fuel r : nat) : option (nat * nat) :=
  '(level, r) ← random_loop fuel r 1;
  Some (Z.to_nat (if level <? 32 then level else 32), r).

(** *** The descent

    Every operation walks each level forward while the next node satisfies a condition on
    the node and on the rank it has, from the top level down. *)

Definition cond := zskiplistNode -> Z -> option bool.

(** [w] is the width of the counter of the caller. *)
Fixpoint walk (fuel : nat) (w : Z) (m : memory) (c : cond) (i x : nat) (rank : Z) : option (nat * Z) :=
  l ← get_level m x i;
  match forward l with
  | None => Some (x, rank)
  | Some y =>
      n ← m !! y;
      b ← c n (uwrap w (rank + span l));
      if (b : bool) then
        match fuel with
        | O => None
        | S f => walk f w m c i y (uwrap w (rank + span l))
        end
      else Some (x, rank)
  end.

(** The array [update] with the rank of each of its nodes: the element 0 is for the
    level 0, where the walk ends. *)
Fixpoint descend (w : Z) (m : memory) (c : cond) (i x : nat) (rank : Z) (acc : list (nat * Z))
    : option (list (nat * Z)) :=
  match i with
  | O => Some acc
  | S i =>
      '(x, rank) ← walk (size m) w m c i x rank;
      descend w m c i x rank ((x, rank) :: acc)
  end.

(** [x->level[i].forward->score < score || (... == score && compareStringObjects(...) < 0)] *)
Definition node_before (score' : spec_float) (o : robj) : cond := fun n _ =>
  if dlt (score n) score' then Some true
  else if deq (score n) score' then no ← obj n; c ← compareStringObjects no o; Some (c <? 0)
  else Some false.

(** *** Insertion *)

(** [for (i = zsl->level; i < level; i++)]: the new levels start at the header. *)
Fixpoint raise_levels (m : memory) (h i n : nat) (len : Z) : option memory :=
  match n with
  | O => Some m
  | S n => m ← set_span m h i len; raise_levels m h (S i) n len
  end.

(** The loop that links the new node [x] at the levels from [i]. *)
Fixpoint link_levels (m : memory) (x i : nat) (rank0 : Z) (update : list (nat * Z)) : option memory :=
  match update with
  | [] => Some m
  | (u, rank) :: update =>
      l ← get_level m u i;
      m ← set_forward m x i (forward l);
      m ← set_forward m u i (Some x);
      l ← get_level m u i;
      m ← set_span m x i (span l - uwrap 32 (rank0 - rank));
      m ← set_span m u i (uwrap 32 (rank0 - rank) + 1);
      link_levels m x (S i) rank0 update
  end.

Fixpoint bump_levels (m : memory) (i : nat) (update : list (nat * Z)) : option memory :=
  match update with
  | [] => Some m
  | (u, _) :: update =>
      l ← get_level m u i;
      m ← set_span m u i (span l + 1);
      bump_levels m (S i) update
  end.

(** [zslInsert] once the height of the new node is drawn. *)
Definition insert_node (m : memory) (zsl : zskiplist) (level : nat) (update : list (nat * Z))
    (score' : spec_float) (o : robj) : option (memory * zskiplist * nat) :=
  m ← raise_levels m (header zsl) (zslevel zsl) (level - zslevel zsl) (length_ zsl);
  let update := update ++ replicate (level - zslevel zsl) (header zsl, 0) in
  let zslevel := Nat.max (zslevel zsl) level in
  '(u0, rank0) ← update !! 0%nat;
  let '(m, x) := zslCreateNode m level score' (Some o) in
  m ← link_levels m x 0 rank0 (take level update);
  m ← bump_levels m level (drop level update);
  m ← set_backward m x (if bool_decide (u0 = header zsl) then None else Some u0);
  l ← get_level m x 0;
  '(m, tail) ←
    (match forward l with
     | Some f => m ← set_backward m f (Some x); Some (m, tail zsl)
     | None => Some (m, Some x)
     end);
  Some (m, Zsl (header zsl) tail (uwrap 64 (length_ zsl + 1)) zslevel, x).

Definition zslInsert (fuel r : nat) (m : memory) (zsl : zskiplist) (score' : spec_float) (o : robj)
    : option (memory * zskiplist * nat * nat) :=
  _ ← cassert (negb (isnan score'));
  update ← descend 32 m (node_before score' o) (zslevel zsl) (header zsl) 0 [];
  '(level, r) ← zslRandomLevel fuel r;
  '(m, zsl, x) ← insert_node m zsl level update score' o;
  Some (m, zsl, x, r).

(** *** Deletion *)

Fixpoint unlink_levels (m : memory) (x i : nat) (update : list (nat * Z)) : option memory :=
  match update with
  | [] => Some m
  | (u, _) :: update =>
      l ← get_level m u i;
      m ← (if bool_decide (forward l = Some x) then
             lx ← get_level m x i;
             m ← set_span m u i (span l + uwrap 32 (span lx - 1));
             set_forward m u i (forward lx)
           else set_span m u i (span l - 1));
      unlink_levels m x (S i) update
  end.

(** [while(zsl->level > 1 && zsl->header->level[zsl->level-1].forward == NULL) zsl->level--] *)
Fixpoint lower_level (m : memory) (h level : nat) : option nat :=
  match level with
  | S (S k as level') =>
      l ← get_level m h level';
      match forward l with None => lower_level m h level' | Some _ => Some level end
  | _ => Some level
  end.

(** The update array may have more elements than the list has levels left. *)
Definition zslDeleteNode (m : memory) (zsl : zskiplist) (x : nat) (update : list (nat * Z))
    : option (memory * zskiplist) :=
  _ ← cassert (zslevel zsl <=? length update)%nat;
  m ← unlink_levels m x 0 (take (zslevel zsl) update);
  n ← m !! x;
  l ← level n !! 0%nat;
  '(m, tail) ←
    (match forward l with
     | Some f => m ← set_backward m f (backward n); Some (m, tail zsl)
     | None => Some (m, backward n)
     end);
  level ← lower_level m (header zsl) (zslevel zsl);
  Some (m, Zsl (header zsl) tail (uwrap 64 (length_ zsl - 1)) level).

(** The node after the last one of the walk. *)
Definition next0 (m : memory) (update : list (nat * Z)) : option (option nat) :=
  '(u, _) ← update !! 0%nat; l ← get_level m u 0; Some (forward l).

Definition zslDelete (m : memory) (zsl : zskiplist) (score' : spec_float) (o : robj)
    : option (memory * zskiplist * bool) :=
  update ← descend 64 m (node_before score' o) (zslevel zsl) (header zsl) 0 [];
  x ← next0 m update;
  match x with
  | None => Some (m, zsl, false)
  | Some x =>
      n ← m !! x;
      b ← (if deq score' (score n) then no ← obj n; equalStringObjects no o else Some false);
      if (b : bool) then
        '(m, zsl) ← zslDeleteNode m zsl x update;
        Some (zslFreeNode m x, zsl, true)
      else Some (m, zsl, false)
  end.

(** *** Ranges of scores *)

Definition zslValueGteMin (value : spec_float) (spec : zrangespec) : bool :=
  if minex spec then dlt (rmin spec) value else dle (rmin spec) value.

Definition zslValueLteMax (value : spec_float) (spec : zrangespec) : bool :=
  if maxex spec then dlt value (rmax spec) else dle value (rmax spec).

Definition zslIsInRange (m : memory) (zsl : zskiplist) (range : zrangespec) : option bool :=
  if dlt (rmax range) (rmin range) || (deq (rmin range) (rmax range) && (minex range || maxex range))
  then Some false else
  match tail zsl with
  | None => Some false
  | Some x =>
      n ← m !! x;
      if negb (zslValueGteMin (score n) range) then Some false else
      l ← get_level m (header zsl) 0;
      match forward l with
      | None => Some false
      | Some x => n ← m !! x; Some (zslValueLteMax (score n) range)
      end
  end.

Definition zslFirstInRange (m : memory) (zsl : zskiplist) (range : zrangespec) : option (option nat) :=
  b ← zslIsInRange m zsl range;
  if negb (b : bool) then Some None else
  update ← descend 64 m (fun n _ => Some (negb (zslValueGteMin (score n) range)))
             (zslevel zsl) (header zsl) 0 [];
  x ← next0 m update;
  x ← x;
  n ← m !! x;
  Some (if negb (zslValueLteMax (score n) range) then None else Some x).

Definition zslLastInRange (m : memory) (zsl : zskiplist) (range : zrangespec) : option (option nat) :=
  b ← zslIsInRange m zsl range;
  if negb (b : bool) then Some None else
  update ← descend 64 m (fun n _ => Some (zslValueLteMax (score n) range))
             (zslevel zsl) (header zsl) 0 [];
  '(x, _) ← update !! 0%nat;
  n ← m !! x;
  Some (if negb (zslValueGteMin (score n) range) then None else Some x).

(** The loop of the deletions of a range: [more] tells whether a node is in the range
    when [traversed] is its rank. *)
Fixpoint delete_loop (fuel : nat) (more : cond) (m : memory) (zsl : zskiplist) (d : D)
    (update : list (nat * Z)) (x : option nat) (traversed removed : Z)
    : option (memory * zskiplist * D * Z) :=
  match x with
  | None => Some (m, zsl, d, removed)
  | Some x =>
      n ← m !! x;
      b ← more n traversed;
      if (b : bool) then
        match fuel with
        | O => None
        | S f =>
            l ← level n !! 0%nat;
            '(m, zsl) ← zslDeleteNode m zsl x update;
            o ← obj n;
            delete_loop f more (zslFreeNode m x) zsl (dictDelete d o) update (forward l)
              (uwrap 64 (traversed + 1)) (uwrap 64 (removed + 1))
        end
      else Some (m, zsl, d, removed)
  end.

Definition zslDeleteRangeByScore (m : memory) (zsl : zskiplist) (range : zrangespec) (d : D)
    : option (memory * zskiplist * D * Z) :=
  update ← descend 64 m
    (fun n _ => Some (if minex range then dle (score n) (rmin range) else dlt (score n) (rmin range)))
    (zslevel zsl) (header zsl) 0 [];
  x ← next0 m update;
  delete_loop (size m)
    (fun n _ => Some (if maxex range then dlt (score n) (rmax range) else dle (score n) (rmax range)))
    m zsl d update x 0 0.

(** [start] and [end_] are unsigned int, compared as unsigned long. *)
Definition zslDeleteRangeByRank (m : memory) (zsl : zskiplist) (start end_ : Z) (d : D)
    : option (memory * zskiplist * D * Z) :=
  update ← descend 64 m (fun _ rank => Some (rank <? start)) (zslevel zsl) (header zsl) 0 [];
  '(_, traversed) ← update !! 0%nat;
  x ← next0 m update;
  delete_loop (size m) (fun _ traversed => Some (traversed <=? end_))
    m zsl d update x (uwrap 64 (traversed + 1)) 0.

(** *** Ranks *)

Fixpoint rank_descend (m : memory) (c : cond) (o : robj) (i x : nat) (rank : Z) : option Z :=
  match i with
  | O => Some 0
  | S i =>
      '(x, rank) ← walk (size m) 64 m c i x rank;
      n ← m !! x;
      b ← (match obj n with Some no => equalStringObjects no o | None => Some false end);
      if (b : bool) then Some rank else rank_descend m c o i x rank
  end.

Definition zslGetRank (m : memory) (zsl : zskiplist) (score' : spec_float) (o : robj) : option Z :=
  rank_descend m
    (fun n _ =>
       if dlt (score n) score' then Some true
       else if deq (score n) score' then no ← obj n; c ← compareStringObjects no o; Some (c <=? 0)
       else Some false)
    o (zslevel zsl) (header zsl) 0.

Fixpoint element_descend (m : memory) (rank : Z) (i x : nat) (traversed : Z) : option (option nat) :=
  match i with
  | O => Some None
  | S i =>
      '(x, traversed) ← walk (size m) 64 m (fun _ t => Some (t <=? rank)) i x traversed;
      if traversed =? rank then Some (Some x) else element_descend m rank i x traversed
  end.

Definition zslGetElementByRank (m : memory) (zsl : zskiplist) (rank : Z) : option (option nat) :=
  element_descend m rank (zslevel zsl) (header zsl) 0.

(** *** Lexicographic ranges *)

(** One end of a lexicographic range, from the text of a raw object (with its NUL). *)
Definition zslParseLexRangeItem (item : list Z) : option (robj * bool) :=
  match item ++ [0] with
  | 43 :: c1 :: _ => if negb (c1 =? 0) then None else Some (MaxString, false)
  | 45 :: c1 :: _ => if negb (c1 =? 0) then None else Some (MinString, false)
  | 40 :: _ => Some (RawString (tl item), true)
  | 91 :: _ => Some (RawString (tl item), false)
  | _ => None
  end.

Definition zslParseLexRange (rmin rmax : robj) : option zlexrangespec :=
  match rmin, rmax with
  | RawString min, RawString max =>
      '(min, minex) ← zslParseLexRangeItem min;
      '(max, maxex) ← zslParseLexRangeItem max;
      Some (LexRange min max minex maxex)
  | _, _ => None
  end.

Definition compareStringObjectsForLexRange (a b : robj) : option Z :=
  if bool_decide (a = b) then Some 0
  else if bool_decide (a = MinString) || bool_decide (b = MaxString) then Some (-1)
  else if bool_decide (a = MaxString) || bool_decide (b = MinString) then Some 1
  else compareStringObjects a b.

Definition zslLexValueGteMin (value : robj) (spec : zlexrangespec) : option bool :=
  c ← compareStringObjectsForLexRange value (lmin spec);
  Some (if lminex spec then 0 <? c else 0 <=? c).

Definition zslLexValueLteMax (value : robj) (spec : zlexrangespec) : option bool :=
  c ← compareStringObjectsForLexRange value (lmax spec);
  Some (if lmaxex spec then c <? 0 else c <=? 0).

Definition obj_cond (f : robj -> option bool) : cond := fun n _ => o ← obj n; f o.

Definition zslIsInLexRange (m : memory) (zsl : zskiplist) (range : zlexrangespec) : option bool :=
  c1 ← compareStringObjectsForLexRange (lmin range) (lmax range);
  if 1 <? c1 then Some false else
  c2 ← compareStringObjects (lmin range) (lmax range);
  if (c2 =? 0) && (lminex range || lmaxex range) then Some false else
  match tail zsl with
  | None => Some false
  | Some x =>
      n ← m !! x; o ← obj n; b ← zslLexValueGteMin o range;
      if negb (b : bool) then Some false else
      l ← get_level m (header zsl) 0;
      match forward l with
      | None => Some false
      | Some x => n ← m !! x; o ← obj n; zslLexValueLteMax o range
      end
  end.

Definition zslFirstInLexRange (m : memory) (zsl : zskiplist) (range : zlexrangespec) : option (option nat) :=
  b ← zslIsInLexRange m zsl range;
  if negb (b : bool) then Some None else
  update ← descend 64 m (obj_cond (fun o => b ← zslLexValueGteMin o range; Some (negb b)))
             (zslevel zsl) (header zsl) 0 [];
  x ← next0 m update;
  x ← x;
  n ← m !! x;
  o ← obj n;
  b ← zslLexValueLteMax o range;
  Some (if (b : bool) then Some x else None).

Definition zslLastInLexRange (m : memory) (zsl : zskiplist) (range : zlexrangespec) : option (option nat) :=
  b ← zslIsInLexRange m zsl range;
  if negb (b : bool) then Some None else
  update ← descend 64 m (obj_cond (fun o => zslLexValueLteMax o range)) (zslevel zsl) (header zsl) 0 [];
  '(x, _) ← update !! 0%nat;
  n ← m !! x;
  o ← obj n;
  b ← zslLexValueGteMin o range;
  Some (if (b : bool) then Some x else None).

Definition zslDeleteRangeByLex (m : memory) (zsl : zskiplist) (range : zlexrangespec) (d : D)
    : option (memory * zskiplist * D * Z) :=
  update ← descend 64 m (obj_cond (fun o => b ← zslLexValueGteMin o range; Some (negb b)))
             (zslevel zsl) (header zsl) 0 [];
  x ← next0 m update;
  delete_loop (size m) (obj_cond (fun o => zslLexValueLteMax o range)) m zsl d update x 0 0.

End Skiplist.
