(* ===== verification/SkiplistFacts.v ===== *)
(** * The skiplist invariant and what the walks and updates do to it

    A list of items, in rank order, determines every forward pointer and span: the entry
    of level [i] of the node of rank [r] designates the first item after it that is taller
    than [i], and the span is the difference of the ranks, or the number of items that
    follow when there is none. *)

From Stdlib Require Import Sorted.
From S2P Require Import Prelude Util Robj Skiplist.

(** ** Specification *)

Module SkiplistSpec.

(** An element: the address, the score and the object of its node, and its height. *)
Record item := Item { iid : nat; isc : spec_float; iob : robj; ih : nat }.

(** The first item taller than [i], and its distance. *)
Fixpoint nfwd (i : nat) (L : list item) : option nat :=
  match L with [] => None | x :: L => if (i <? ih x)%nat then Some (iid x) else nfwd i L end.
Fixpoint nspan (i : nat) (L : list item) : nat :=
  match L with [] => 0 | x :: L => if (i <? ih x)%nat then 1 else S (nspan i L) end.

(** Address and height of the node of rank [r]; the header has rank 0. *)
Definition rank_id (h : nat) (L : list item) (r : nat) : option nat :=
  match r with O => Some h | S r => iid <$> L !! r end.
Definition height_at (L : list item) (r : nat) : nat :=
  match r with O => ZSKIPLIST_MAXLEVEL | S r => default 0%nat (ih <$> L !! r) end.

Definition top (L : list item) : nat := foldr (fun x n => Nat.max (ih x) n) 1%nat L.

(** The order of the elements: by score, then by text. *)
Definition key_lt (s : spec_float) (o : robj) (s' : spec_float) (o' : robj) : Prop :=
  dlt s s' = true \/ deq s s' = true /\ slt (otext o) (otext o') = true.
Definition item_lt (x y : item) : Prop := key_lt (isc x) (iob x) (isc y) (iob y).

Definition item_ok (x : item) : Prop :=
  isnan (isc x) = false /\ robj_ok (iob x) /\ (1 <= ih x)%nat.

(** What a node holds besides its levels. *)
Definition info (m : gmap nat zskiplistNode) (a : nat) : option (option robj * spec_float * option nat * nat) :=
  (fun n => (obj n, score n, backward n, length (level n))) <$> m !! a.

Definition SKIPLIST_LIMIT : nat := Z.to_nat (2 ^ 32 - 1).

(** The structure, for any list of items. *)
Record skel (m : gmap nat zskiplistNode) (zsl : zskiplist) (L : list item) : Prop := {
  sk_header : exists s, info m (header zsl) = Some (None, s, None, ZSKIPLIST_MAXLEVEL);
  sk_nodes : forall r x, L !! r = Some x -> info m (iid x) =
    Some (Some (iob x), isc x, match r with O => None | S r => iid <$> L !! r end, ih x);
  sk_links : forall r a i, rank_id (header zsl) L r = Some a -> (i < height_at L r)%nat ->
    (i < zslevel zsl)%nat ->
    get_level m a i = Some (Level (nfwd i (drop r L)) (Z.of_nat (nspan i (drop r L))));
  sk_idle : forall i, (zslevel zsl <= i < ZSKIPLIST_MAXLEVEL)%nat ->
    exists s, get_level m (header zsl) i = Some (Level None s);
  sk_level : zslevel zsl = top L;
  sk_max : (top L <= ZSKIPLIST_MAXLEVEL)%nat;
  sk_ids : NoDup (header zsl :: map iid L);
  sk_tail : tail zsl = iid <$> last L;
  sk_length : length_ zsl = Z.of_nat (length L);
  sk_items : Forall item_ok L }.

(** The representation invariant of a sorted set. *)
Definition skip_ok (m : gmap nat zskiplistNode) (zsl : zskiplist) (L : list item) : Prop :=
  skel m zsl L /\ StronglySorted item_lt L /\ (length L < SKIPLIST_LIMIT)%nat.

(** The elements of the sorted set. *)
Definition elements_of (L : list item) : list (spec_float * robj) := map (fun x => (isc x, iob x)) L.

End SkiplistSpec.

(** ** Proofs: memory *)

Module SkiplistFacts.
Import SkiplistSpec.

Lemma get_level_len m x i l : get_level m x i = Some l -> exists n, m !! x = Some n /\ (i < length (level n))%nat.
Proof.
  unfold get_level. destruct (m !! x) as [n|]; [|done]. cbn. intros Hl. exists n. split; [done|].
  by eapply lookup_lt_Some.
Qed.

(** An update of one level: nothing else changes. *)
Lemma set_level_ok m x i l l0 : get_level m x i = Some l0 ->
  exists m', set_level m x i l = Some m' /\ get_level m' x i = Some l /\
    (forall y j, (y, j) <> (x, i) -> get_level m' y j = get_level m y j) /\ (forall a, info m' a = info m a).
Proof.
  unfold get_level, set_level. destruct (m !! x) as [n|] eqn:En; [|done]. cbn. intros Hl. rewrite Hl. cbn.
  eexists. split; [done|]. split_and!.
  - rewrite lookup_insert_eq. cbn. apply list_lookup_insert_eq. by eapply lookup_lt_Some.
  - intros y j Hne. destruct (decide (y = x)) as [->|Hy].
    + rewrite lookup_insert_eq, En. cbn. apply list_lookup_insert_ne. congruence.
    + by rewrite lookup_insert_ne.
  - intros a. unfold info. destruct (decide (a = x)) as [->|Ha].
    + rewrite lookup_insert_eq, En. cbn. by rewrite length_insert.
    + by rewrite lookup_insert_ne.
Qed.

Lemma set_forward_ok m x i f l0 : get_level m x i = Some l0 ->
  exists m', set_forward m x i f = Some m' /\ get_level m' x i = Some (Level f (span l0)) /\
    (forall y j, (y, j) <> (x, i) -> get_level m' y j = get_level m y j) /\ (forall a, info m' a = info m a).
Proof. intros Hl. unfold set_forward. rewrite Hl. cbn. by apply set_level_ok with l0. Qed.

Lemma set_span_ok m x i s l0 : get_level m x i = Some l0 ->
  exists m', set_span m x i s = Some m' /\ get_level m' x i = Some (Level (forward l0) (uwrap 32 s)) /\
    (forall y j, (y, j) <> (x, i) -> get_level m' y j = get_level m y j) /\ (forall a, info m' a = info m a).
Proof. intros Hl. unfold set_span. rewrite Hl. cbn. by apply set_level_ok with l0. Qed.

Lemma set_backward_ok m x b o s b0 h : info m x = Some (o, s, b0, h) ->
  exists m', set_backward m x b = Some m' /\ (forall y j, get_level m' y j = get_level m y j) /\
    info m' x = Some (o, s, b, h) /\ (forall a, a <> x -> info m' a = info m a).
Proof.
  unfold info, set_backward. destruct (m !! x) as [n|] eqn:En; [|done]. cbn. intros [= <- <- <- <-].
  eexists. split; [done|]. split_and!.
  - intros y j. unfold get_level. destruct (decide (y = x)) as [->|Hy].
    + by rewrite lookup_insert_eq, En.
    + by rewrite lookup_insert_ne.
  - by rewrite lookup_insert_eq.
  - intros a Ha. by rewrite lookup_insert_ne.
Qed.

Lemma info_lookup m a o s b h : info m a = Some (o, s, b, h) ->
  exists n, m !! a = Some n /\ obj n = o /\ score n = s /\ backward n = b /\ length (level n) = h.
Proof. unfold info. destruct (m !! a) as [n|]; [|done]. cbn. intros [= <- <- <- <-]. by exists n. Qed.

Lemma get_level_some m a o s b h i : info m a = Some (o, s, b, h) -> (i < h)%nat -> exists l, get_level m a i = Some l.
Proof.
  intros Hi Hl. apply info_lookup in Hi as (n & En & _ & _ & _ & <-). unfold get_level. rewrite En. cbn.
  by apply lookup_lt_is_Some_2 in Hl as [l ->]; exists l.
Qed.

(** ** Proofs: the first taller item *)

Definition low (i : nat) (L : list item) : Prop := Forall (fun x => (ih x <= i)%nat) L.

Lemma nfwd_skip i A B : low i A -> nfwd i (A ++ B) = nfwd i B /\ nspan i (A ++ B) = (length A + nspan i B)%nat.
Proof.
  induction 1 as [|x A Hx _ IH]; [done|]. cbn [app nfwd nspan length].
  destruct (Nat.ltb_spec i (ih x)); [lia|]. destruct IH as [-> ->]. split; [done|lia].
Qed.

Lemma nfwd_stop i A B : ~ low i A -> nfwd i (A ++ B) = nfwd i A /\ nspan i (A ++ B) = nspan i A.
Proof.
  induction A as [|x A IH]; intros Hn; [by destruct Hn; constructor|]. cbn [app nfwd nspan].
  destruct (Nat.ltb_spec i (ih x)); [done|]. destruct IH as [-> ->]; [|done].
  intros Hl. apply Hn. by constructor.
Qed.

Lemma nfwd_low i L : low i L -> nfwd i L = None /\ nspan i L = length L.
Proof. intros Hl. destruct (nfwd_skip i L [] Hl) as [E1 E2]. rewrite app_nil_r in *. split; [done|cbn in E2; lia]. Qed.

Lemma nfwd_cases i L : low i L \/ exists j x, L !! j = Some x /\ (i < ih x)%nat /\ low i (take j L) /\
  nfwd i L = Some (iid x) /\ nspan i L = S j.
Proof.
  induction L as [|x L IH]; [left; constructor|]. cbn [nfwd nspan].
  destruct (Nat.ltb_spec i (ih x)) as [Hlt|Hge]; [right; exists 0%nat, x; split_and!; [done|done|constructor|done|done]|].
  destruct IH as [Hl|(j & y & Hy & Hi & Hl & -> & ->)]; [left; by constructor|].
  right. exists (S j), y. split_and!; auto. by constructor.
Qed.

Lemma low_take_drop i (L : list item) r k : low i (take (k - r) (drop r L)) <->
  forall r', (r < r' <= k)%nat -> (height_at L r' <= i)%nat.
Proof.
  unfold low. rewrite Forall_lookup. split.
  - intros H [|r'] Hr; [lia|]. cbn. destruct (L !! r') as [x|] eqn:E; cbn; [|lia].
    apply (H (r' - r)%nat). apply lookup_take_Some. rewrite lookup_drop.
    replace (r + (r' - r))%nat with r' by lia. split; [done|lia].
  - intros H j x Hj. apply lookup_take_Some in Hj as [Hj Hlt]. rewrite lookup_drop in Hj.
    specialize (H (S (r + j))%nat ltac:(lia)). cbn in H. by rewrite Hj in H.
Qed.

Lemma low_le i j L : (i <= j)%nat -> low i L -> low j L.
Proof. intros Hij Hl. eapply Forall_impl; [exact Hl|]. intros x. cbn. lia. Qed.

Lemma top_cons x L : top (x :: L) = Nat.max (ih x) (top L).
Proof. done. Qed.

Lemma top_low L : low (top L) L.
Proof.
  induction L as [|y L IH]; [constructor|]. rewrite top_cons. constructor; [lia|].
  apply low_le with (top L); [lia|done].
Qed.

Lemma top_app A B : top (A ++ B) = Nat.max (top A) (top B).
Proof.
  induction A as [|x A IH]; cbn [app]; [|rewrite !top_cons, IH; lia].
  change (top []) with 1%nat. induction B as [|y B IH]; [done|rewrite top_cons; lia].
Qed.

Lemma top_pos L : (1 <= top L)%nat.
Proof. induction L as [|x L IH]; [done|rewrite top_cons; lia]. Qed.

(** The header's next pointer at the level below [n] is NULL iff nothing is that tall. *)
Lemma top_le n L : (1 <= n)%nat -> low n L <-> (top L <= n)%nat.
Proof.
  intros Hn. unfold low. induction L as [|x L IH]; [split; [done|constructor]|].
  rewrite top_cons, Forall_cons, IH. lia.
Qed.

(** ** Proofs: ranks and walks *)

(** The node of rank [r] is the last one of height above [i] up to rank [k]. *)
Definition stop (L : list item) (i k r : nat) : Prop :=
  (r <= k)%nat /\ (i < height_at L r)%nat /\ low i (take (k - r) (drop r L)).

(** A condition that holds of the first [k] items, and only of them. *)
Definition sel (m : gmap nat zskiplistNode) (L : list item) (c : cond) (k : nat) : Prop :=
  forall r x n, L !! r = Some x -> m !! iid x = Some n ->
    c n (Z.of_nat (S r)) = Some (bool_decide (r < k)%nat).

Lemma stop_unique L i k r r' : stop L i k r -> stop L i k r' -> r = r'.
Proof.
  intros (H1 & H2 & H3) (H1' & H2' & H3').
  pose proof (proj1 (low_take_drop _ _ _ _) H3) as Q. pose proof (proj1 (low_take_drop _ _ _ _) H3') as Q'.
  destruct (Nat.lt_trichotomy r r') as [Hl|[?|Hl]]; [specialize (Q r' ltac:(lia)); lia|done|specialize (Q' r ltac:(lia)); lia].
Qed.

Section Walk.
Context (m : gmap nat zskiplistNode) (zsl : zskiplist) (L : list item) (Sk : skel m zsl L).

Lemma rank_some r : (r <= length L)%nat -> exists a, rank_id (header zsl) L r = Some a.
Proof.
  destruct r as [|r]; cbn; [eauto|]. intros Hr. destruct (lookup_lt_is_Some_2 L r Hr) as [x ->]. cbn. eauto.
Qed.

Lemma rank_le r a : rank_id (header zsl) L r = Some a -> (r <= length L)%nat.
Proof. destruct r as [|r]; cbn; [lia|]. destruct (L !! r) eqn:E; [|done]. intros _. by apply lookup_lt_Some in E. Qed.

Lemma rank_lookup r : rank_id (header zsl) L r = (header zsl :: map iid L) !! r.
Proof. destruct r as [|r]; [done|]. cbn. symmetry. apply list_lookup_fmap. Qed.

Lemma rank_inj r r' a : rank_id (header zsl) L r = Some a -> rank_id (header zsl) L r' = Some a -> r = r'.
Proof. rewrite !rank_lookup. apply NoDup_lookup, (sk_ids _ _ _ Sk). Qed.

Lemma rank_info r a : rank_id (header zsl) L r = Some a ->
  exists o s b, info m a = Some (o, s, b, height_at L r).
Proof.
  destruct r as [|r]; cbn.
  - intros [= <-]. destruct (sk_header _ _ _ Sk) as [s ->]. by exists None, s, None.
  - destruct (L !! r) as [x|] eqn:E; [|done]. intros [= <-]. rewrite (sk_nodes _ _ _ Sk r x E). eauto.
Qed.

Lemma height_le_level r : (1 <= r)%nat -> (height_at L r <= zslevel zsl)%nat.
Proof.
  destruct r as [|r]; [lia|]. intros _. cbn. rewrite (sk_level _ _ _ Sk).
  destruct (L !! r) as [x|] eqn:E; cbn; [|lia].
  pose proof (proj1 (Forall_lookup _ _) (top_low L) r x E) as Hl. done.
Qed.

Lemma height_pos r : (r <= length L)%nat -> (1 <= height_at L r)%nat.
Proof.
  destruct r as [|r]; cbn [height_at]; [unfold ZSKIPLIST_MAXLEVEL; lia|]. intros Hr.
  destruct (lookup_lt_is_Some_2 L r Hr) as [x E]. rewrite E. cbn.
  by destruct (proj1 (Forall_lookup _ _) (sk_items _ _ _ Sk) r x E) as (_ & _ & ?).
Qed.

Lemma item_node r x : L !! r = Some x -> exists n, m !! iid x = Some n /\ obj n = Some (iob x) /\
  score n = isc x /\ backward n = match r with O => None | S r => iid <$> L !! r end /\ length (level n) = ih x.
Proof. intros E. by apply info_lookup, (sk_nodes _ _ _ Sk). Qed.

Lemma memory_size : (length L < size m)%nat.
Proof.
  pose proof (sk_ids _ _ _ Sk) as Hnd. set (ids := header zsl :: map iid L) in *.
  assert (list_to_set ids ⊆ dom m) as Hsub.
  { intros a Ha. apply elem_of_list_to_set, list_elem_of_lookup in Ha as [r Hr]. unfold ids in Hr.
    rewrite <- rank_lookup in Hr. destruct (rank_info r a Hr) as (o & s & b & Hi).
    apply elem_of_dom. unfold info in Hi. destruct (m !! a); [eauto|done]. }
  apply subseteq_size in Hsub. rewrite size_list_to_set, size_dom in Hsub by done.
  unfold ids in Hsub. cbn in Hsub. rewrite length_map in Hsub. lia.
Qed.

Lemma zsl_walk_ok w c i k : sel m L c k -> (k <= length L)%nat -> (length L < SKIPLIST_LIMIT)%nat -> 32 <= w ->
  (i < zslevel zsl)%nat ->
  forall fuel r a, rank_id (header zsl) L r = Some a -> (r <= k)%nat -> (i < height_at L r)%nat -> (k - r <= fuel)%nat ->
  exists r1 a1, walk fuel w m c i a (Z.of_nat r) = Some (a1, Z.of_nat r1) /\
    rank_id (header zsl) L r1 = Some a1 /\ stop L i k r1 /\ (r <= r1)%nat.
Proof.
  intros Hsel Hk Hlim Hw Hi fuel. induction fuel as [fuel IH] using lt_wf_ind. intros r a Ha Hr Hh Hf.
  assert (forall z, (z <= length L)%nat -> uwrap w (Z.of_nat z) = Z.of_nat z) as Hu.
  { intros z Hz. apply uwrap_small. unfold in_u. unfold SKIPLIST_LIMIT in Hlim.
    assert (2 ^ 32 <= 2 ^ w) by (apply Z.pow_le_mono_r; lia). lia. }
  destruct fuel as [|fuel]; cbn [walk]; rewrite (sk_links _ _ _ Sk r a i Ha Hh Hi);
    cbn [mbind option_bind forward span].
  - destruct (nfwd_cases i (drop r L)) as [Hl|(j & x & Hx & Hix & Hl & -> & ->)].
    + destruct (nfwd_low i _ Hl) as [-> _]. exists r, a. split_and!; [done|done| |done]. split_and!; [done|done|].
      unfold low in *. by apply Forall_take.
    + rewrite lookup_drop in Hx. destruct (item_node _ x Hx) as (n & Hn & _). rewrite Hn. cbn [mbind option_bind].
      pose proof (lookup_lt_Some _ _ _ Hx) as Hxl.
      rewrite <- Nat2Z.inj_add, Hu by lia. replace (r + S j)%nat with (S (r + j)) by lia.
      rewrite (Hsel _ x n Hx Hn). cbn [mbind option_bind]. rewrite bool_decide_false by lia.
      exists r, a. split_and!; [done|done| |done]. split_and!; [done|done|].
      replace (k - r)%nat with 0%nat by lia. constructor.
  - destruct (nfwd_cases i (drop r L)) as [Hl|(j & x & Hx & Hix & Hl & -> & ->)].
    + destruct (nfwd_low i _ Hl) as [-> _]. exists r, a. split_and!; [done|done| |done]. split_and!; [done|done|].
      unfold low in *. by apply Forall_take.
    + rewrite lookup_drop in Hx. destruct (item_node _ x Hx) as (n & Hn & _). rewrite Hn. cbn [mbind option_bind].
      pose proof (lookup_lt_Some _ _ _ Hx) as Hxl.
      rewrite <- Nat2Z.inj_add, Hu by lia. replace (r + S j)%nat with (S (r + j)) by lia.
      rewrite (Hsel _ x n Hx Hn). cbn [mbind option_bind].
      case_bool_decide as Hlt.
      * destruct (IH fuel ltac:(lia) (S (r + j)) (iid x)) as (r1 & a1 & E & Ha1 & Hst & Hle);
          [cbn; by rewrite Hx|lia|cbn; by rewrite Hx|lia|].
        exists r1, a1. split_and!; [done|done|done|lia].
      * exists r, a. split_and!; [done|done| |done]. split_and!; [done|done|].
        unfold low in *. replace (take (k - r) (drop r L)) with (take (k - r) (take j (drop r L)))
          by (rewrite take_take; f_equal; lia). by apply Forall_take.
Qed.

(** The array [update] of a descent to rank [k]. *)
Definition ups_ok (k : nat) (ups : list (nat * Z)) : Prop :=
  length ups = zslevel zsl /\
  forall i u rk, ups !! i = Some (u, rk) -> exists r, rank_id (header zsl) L r = Some u /\ rk = Z.of_nat r /\ stop L i k r.

Lemma descend_ok w c k : sel m L c k -> (k <= length L)%nat -> (length L < SKIPLIST_LIMIT)%nat -> 32 <= w ->
  forall n r a acc, (n <= zslevel zsl)%nat -> rank_id (header zsl) L r = Some a -> (r <= k)%nat ->
  (n = 0%nat \/ n <= height_at L r)%nat -> length acc = (zslevel zsl - n)%nat ->
  (forall i u rk, acc !! i = Some (u, rk) -> exists r, rank_id (header zsl) L r = Some u /\ rk = Z.of_nat r /\ stop L (n + i) k r) ->
  exists ups, descend w m c n a (Z.of_nat r) acc = Some ups /\ ups_ok k ups.
Proof.
  intros Hsel Hk Hlim Hw n. induction n as [|n IH]; intros r a acc Hn Ha Hr Hh Hlen Hacc; cbn [descend].
  - exists acc. split; [done|]. split; [lia|]. exact Hacc.
  - destruct (zsl_walk_ok w c n k Hsel Hk Hlim Hw Hn (size m) r a Ha Hr) as (r1 & a1 & -> & Ha1 & Hst & Hle);
      [lia|pose proof memory_size; lia|]. cbn [mbind option_bind].
    apply IH; [lia|done|by destruct Hst|right; destruct Hst as (_ & ? & _); lia|cbn; lia|].
    intros [|i] u rk; cbn.
    + intros [= <- <-]. exists r1. rewrite Nat.add_0_r. done.
    + intros Hi. destruct (Hacc i u rk Hi) as (r2 & ? & ? & ?). exists r2. by replace (n + S i)%nat with (S n + i)%nat by lia.
Qed.

Lemma top_descend_ok w c k : sel m L c k -> (k <= length L)%nat -> (length L < SKIPLIST_LIMIT)%nat -> 32 <= w ->
  exists ups, descend w m c (zslevel zsl) (header zsl) 0 [] = Some ups /\ ups_ok k ups.
Proof.
  intros Hsel Hk Hlim Hw. apply (descend_ok w c k Hsel Hk Hlim Hw _ 0 (header zsl)); [done|done|lia| |cbn; lia|done].
  right. cbn. rewrite (sk_level _ _ _ Sk). apply (sk_max _ _ _ Sk).
Qed.

(** At the level 0 the walk ends at rank [k] itself. *)
Lemma stop_zero k r : stop L 0 k r -> (k <= length L)%nat -> r = k.
Proof.
  intros (Hr & _ & Hl) Hk. destruct (Nat.eq_dec r k) as [|Hne]; [done|].
  pose proof (proj1 (low_take_drop _ _ _ _) Hl k ltac:(lia)) as Q. pose proof (height_pos k Hk). lia.
Qed.

Lemma ups_zero k ups : ups_ok k ups -> (k <= length L)%nat -> exists u, ups !! 0%nat = Some (u, Z.of_nat k) /\
  rank_id (header zsl) L k = Some u.
Proof.
  intros [Hlen Hups] Hk. pose proof (sk_level _ _ _ Sk) as Hlv. pose proof (top_pos L).
  destruct (lookup_lt_is_Some_2 ups 0) as [[u rk] E]; [lia|].
  destruct (Hups 0%nat u rk E) as (r & Hr & -> & Hst). apply stop_zero in Hst as ->; [|done]. by exists u.
Qed.

Lemma next0_ok k ups : ups_ok k ups -> (k <= length L)%nat -> next0 m ups = Some (iid <$> L !! k).
Proof.
  intros Hu Hk. destruct (ups_zero k ups Hu Hk) as (u & E & Hr). unfold next0. rewrite E. cbn [mbind option_bind].
  pose proof (top_pos L). pose proof (sk_level _ _ _ Sk).
  rewrite (sk_links _ _ _ Sk k u 0 Hr) by (try lia; by apply height_pos). cbn [mbind option_bind forward]. f_equal.
  destruct (L !! k) as [x|] eqn:E2.
  - rewrite (drop_S L x k E2). cbn [nfwd fmap option_fmap option_map].
    destruct (proj1 (Forall_lookup _ _) (sk_items _ _ _ Sk) k x E2) as (_ & _ & Hx). by destruct (Nat.ltb_spec 0 (ih x)); [|lia].
  - by rewrite drop_ge by (by apply lookup_ge_None).
Qed.

End Walk.

(** ** Proofs: the loops that update the levels *)

Lemma raise_ok h len n : forall m i, (forall j, (i <= j < i + n)%nat -> exists l, get_level m h j = Some l) ->
  exists m', raise_levels m h i n len = Some m' /\ (forall a, info m' a = info m a) /\
    (forall y j, y <> h \/ (j < i)%nat \/ (i + n <= j)%nat -> get_level m' y j = get_level m y j) /\
    (forall j l, (i <= j < i + n)%nat -> get_level m h j = Some l ->
       get_level m' h j = Some (Level (forward l) (uwrap 32 len))).
Proof.
  induction n as [|n IH]; intros m i Hg; cbn [raise_levels].
  - exists m. split_and!; [done|done|done|lia].
  - destruct (Hg i ltac:(lia)) as [l0 Hl0]. destruct (set_span_ok m h i len l0 Hl0) as (m1 & -> & G1 & F1 & I1).
    cbn [mbind option_bind]. destruct (IH m1 (S i)) as (m2 & -> & I2 & F2 & G2).
    { intros j Hj. destruct (Hg j ltac:(lia)) as [l Hl]. exists l. rewrite F1; [done|]. intros [= ->]. lia. }
    exists m2. split_and!; [done|intros a; by rewrite I2| |].
    + intros y j Hj. rewrite F2 by lia. apply F1. intros [= -> ->]. lia.
    + intros j l Hj Hl. destruct (Nat.eq_dec j i) as [->|Hne].
      * rewrite F2 by lia. rewrite Hl0 in Hl. by injection Hl as <-.
      * apply G2; [lia|]. rewrite F1; [done|]. intros [= ->]. lia.
Qed.

Lemma link_ok x rank0 ups : forall m i,
  (forall j u rk, ups !! j = Some (u, rk) -> u <> x /\ exists l, get_level m u (i + j) = Some l) ->
  (forall j, (j < length ups)%nat -> exists l, get_level m x (i + j) = Some l) ->
  exists m', link_levels m x i rank0 ups = Some m' /\ (forall a, info m' a = info m a) /\
    (forall y j, (j < i)%nat \/ (y <> x /\ forall u rk, ups !! (j - i)%nat = Some (u, rk) -> y <> u) \/
       (i + length ups <= j)%nat -> get_level m' y j = get_level m y j) /\
    (forall j u rk l, ups !! j = Some (u, rk) -> get_level m u (i + j) = Some l ->
       get_level m' x (i + j) = Some (Level (forward l) (uwrap 32 (span l - uwrap 32 (rank0 - rk)))) /\
       get_level m' u (i + j) = Some (Level (Some x) (uwrap 32 (uwrap 32 (rank0 - rk) + 1)))).
Proof.
  induction ups as [|[u rk] ups IH]; intros m i Hu Hx; cbn [link_levels].
  - exists m. split_and!; done.
  - destruct (Hu 0%nat u rk eq_refl) as [Hne [l Hl]]. destruct (Hx 0%nat) as [lx Hlx]; [cbn; lia|].
    rewrite Nat.add_0_r in Hl, Hlx. rewrite Hl. cbn [mbind option_bind].
    destruct (set_forward_ok m x i (forward l) lx Hlx) as (m1 & -> & G1 & F1 & I1). cbn [mbind option_bind].
    assert (get_level m1 u i = Some l) as Hl1 by (rewrite F1; [done|congruence]).
    destruct (set_forward_ok m1 u i (Some x) l Hl1) as (m2 & -> & G2 & F2 & I2). cbn [mbind option_bind].
    rewrite G2. cbn [mbind option_bind span].
    assert (get_level m2 x i = Some (Level (forward l) (span lx))) as Hx2 by (rewrite F2; [done|congruence]).
    destruct (set_span_ok m2 x i (span l - uwrap 32 (rank0 - rk)) _ Hx2) as (m3 & -> & G3 & F3 & I3). cbn [mbind option_bind].
    assert (get_level m3 u i = Some (Level (Some x) (span l))) as Hl3 by (rewrite F3; [done|congruence]).
    destruct (set_span_ok m3 u i (uwrap 32 (rank0 - rk) + 1) _ Hl3) as (m4 & -> & G4 & F4 & I4). cbn [mbind option_bind].
    cbn [forward] in *.
    assert (forall y j, j <> i \/ (y <> x /\ y <> u) -> get_level m4 y j = get_level m y j) as F.
    { intros y j Hj. rewrite F4, F3, F2, F1; [done|..]; intros [= -> ->]; lia || tauto. }
    destruct (IH m4 (S i)) as (m5 & -> & I5 & F5 & G5).
    { intros j u' rk' Hj. destruct (Hu (S j) u' rk' Hj) as [Hne' [l' Hl']]. split; [done|]. exists l'.
      replace (S i + j)%nat with (i + S j)%nat by lia. rewrite F; [done|lia]. }
    { intros j Hj. destruct (Hx (S j)) as [l' Hl']; [cbn; lia|]. exists l'.
      replace (S i + j)%nat with (i + S j)%nat by lia. rewrite F; [done|lia]. }
    exists m5. split_and!; [done|intros a; by rewrite I5, I4, I3, I2, I1| |].
    + intros y j Hj. cbn [length] in Hj.
      assert (j = i \/ j <> i) as [->|Hji] by lia.
      * rewrite F5 by lia. apply F. right. destruct Hj as [?|[[Hyx Hj]|?]]; [lia| |lia].
        split; [done|]. apply (Hj u rk). by rewrite Nat.sub_diag.
      * rewrite F5; [by apply F; left|]. destruct Hj as [?|[[Hyx Hj]|?]]; [lia| |lia].
        destruct (Nat.lt_ge_cases j i); [lia|]. right; left. split; [done|]. intros u' rk' Hj'. apply (Hj u' rk').
        replace (j - i)%nat with (S (j - S i)) by lia. done.
    + intros [|j] u' rk' l' Hj Hl'.
      * cbn in Hj. injection Hj as <- <-. rewrite Nat.add_0_r in *. rewrite Hl in Hl'. injection Hl' as <-.
        rewrite !F5 by lia. split; [|done]. rewrite F4; [done|congruence].
      * replace (i + S j)%nat with (S i + j)%nat in * by lia. apply (G5 j u' rk' l'); [done|]. rewrite F; [done|lia].
Qed.

Lemma zsl_bump_ok ups : forall m i, (forall j u rk, ups !! j = Some (u, rk) -> exists l, get_level m u (i + j) = Some l) ->
  exists m', bump_levels m i ups = Some m' /\ (forall a, info m' a = info m a) /\
    (forall y j, (j < i)%nat \/ (forall u rk, ups !! (j - i)%nat = Some (u, rk) -> y <> u) ->
       get_level m' y j = get_level m y j) /\
    (forall j u rk l, ups !! j = Some (u, rk) -> get_level m u (i + j) = Some l ->
       get_level m' u (i + j) = Some (Level (forward l) (uwrap 32 (span l + 1)))).
Proof.
  induction ups as [|[u rk] ups IH]; intros m i Hu; cbn [bump_levels].
  - exists m. split_and!; done.
  - destruct (Hu 0%nat u rk eq_refl) as [l Hl]. rewrite Nat.add_0_r in Hl. rewrite Hl. cbn [mbind option_bind].
    destruct (set_span_ok m u i (span l + 1) l Hl) as (m1 & -> & G1 & F1 & I1). cbn [mbind option_bind].
    assert (forall y j, j <> i \/ y <> u -> get_level m1 y j = get_level m y j) as F
      by (intros y j Hj; apply F1; intros [= -> ->]; tauto).
    destruct (IH m1 (S i)) as (m2 & -> & I2 & F2 & G2).
    { intros j u' rk' Hj. destruct (Hu (S j) u' rk' Hj) as [l' Hl']. exists l'.
      replace (S i + j)%nat with (i + S j)%nat by lia. rewrite F; [done|lia]. }
    exists m2. split_and!; [done|intros a; by rewrite I2, I1| |].
    + intros y j Hj. assert (j = i \/ j <> i) as [->|Hji] by lia.
      * rewrite F2 by lia. apply F. right. destruct Hj as [?|Hj]; [lia|]. apply (Hj u rk). by rewrite Nat.sub_diag.
      * rewrite F2; [by apply F; left|]. destruct Hj as [?|Hj]; [lia|]. destruct (Nat.lt_ge_cases j i); [lia|].
        right. intros u' rk' Hj'. apply (Hj u' rk'). replace (j - i)%nat with (S (j - S i)) by lia. done.
    + intros [|j] u' rk' l' Hj Hl'.
      * cbn in Hj. injection Hj as <- <-. rewrite Nat.add_0_r in *. rewrite Hl in Hl'. injection Hl' as <-.
        by rewrite F2 by lia.
      * replace (i + S j)%nat with (S i + j)%nat in * by lia. apply (G2 j u' rk' l'); [done|]. rewrite F; [done|lia].
Qed.

Lemma zsl_unlink_ok x ups : forall m i,
  (forall j u rk, ups !! j = Some (u, rk) -> exists l, get_level m u (i + j) = Some l /\
     (forward l = Some x -> u <> x /\ exists lx, get_level m x (i + j) = Some lx)) ->
  exists m', unlink_levels m x i ups = Some m' /\ (forall a, info m' a = info m a) /\
    (forall y j, (j < i)%nat \/ (forall u rk, ups !! (j - i)%nat = Some (u, rk) -> y <> u) ->
       get_level m' y j = get_level m y j) /\
    (forall j u rk l, ups !! j = Some (u, rk) -> get_level m u (i + j) = Some l ->
       (forall lx, forward l = Some x -> get_level m x (i + j) = Some lx ->
          get_level m' u (i + j) = Some (Level (forward lx) (uwrap 32 (span l + uwrap 32 (span lx - 1))))) /\
       (forward l <> Some x -> get_level m' u (i + j) = Some (Level (forward l) (uwrap 32 (span l - 1))))).
Proof.
  induction ups as [|[u rk] ups IH]; intros m i Hu; cbn [unlink_levels].
  - exists m. split_and!; done.
  - destruct (Hu 0%nat u rk eq_refl) as (l & Hl & Hx). rewrite Nat.add_0_r in Hl, Hx. rewrite Hl. cbn [mbind option_bind].
    assert (exists m1, (if bool_decide (forward l = Some x) then
             lx ← get_level m x i; m ← set_span m u i (span l + uwrap 32 (span lx - 1)); set_forward m u i (forward lx)
           else set_span m u i (span l - 1)) = Some m1 /\ (forall a, info m1 a = info m a) /\
        (forall y j, j <> i \/ y <> u -> get_level m1 y j = get_level m y j) /\
        (forall lx, forward l = Some x -> get_level m x i = Some lx ->
          get_level m1 u i = Some (Level (forward lx) (uwrap 32 (span l + uwrap 32 (span lx - 1))))) /\
        (forward l <> Some x -> get_level m1 u i = Some (Level (forward l) (uwrap 32 (span l - 1)))))
      as (m1 & -> & I1 & F & G1 & G1').
    { case_bool_decide as Hf.
      - destruct (Hx Hf) as [Hne [lx Hlx]]. rewrite Hlx. cbn [mbind option_bind].
        destruct (set_span_ok m u i (span l + uwrap 32 (span lx - 1)) l Hl) as (m1 & -> & G1 & F1 & I1). cbn [mbind option_bind].
        destruct (set_forward_ok m1 u i (forward lx) _ G1) as (m2 & -> & G2 & F2 & I2).
        exists m2. split_and!; [done|intros a; by rewrite I2, I1| | |done].
        + intros y j Hj. rewrite F2, F1; [done|..]; intros [= -> ->]; tauto.
        + intros lx' _ [= <-]. done.
      - destruct (set_span_ok m u i (span l - 1) l Hl) as (m1 & -> & G1 & F1 & I1).
        exists m1. split_and!; [done|done| |done|done]. intros y j Hj. apply F1. intros [= -> ->]. tauto. }
    cbn [mbind option_bind]. destruct (IH m1 (S i)) as (m2 & -> & I2 & F2 & G2).
    { intros j u' rk' Hj. destruct (Hu (S j) u' rk' Hj) as (l' & Hl' & Hx'). exists l'.
      replace (S i + j)%nat with (i + S j)%nat by lia. rewrite !F by lia. done. }
    exists m2. split_and!; [done|intros a; by rewrite I2, I1| |].
    + intros y j Hj. assert (j = i \/ j <> i) as [->|Hji] by lia.
      * rewrite F2 by lia. apply F. right. destruct Hj as [?|Hj]; [lia|]. apply (Hj u rk). by rewrite Nat.sub_diag.
      * rewrite F2; [by apply F; left|]. destruct Hj as [?|Hj]; [lia|]. destruct (Nat.lt_ge_cases j i); [lia|].
        right. intros u' rk' Hj'. apply (Hj u' rk'). replace (j - i)%nat with (S (j - S i)) by lia. done.
    + intros [|j] u' rk' l' Hj Hl'.
      * cbn in Hj. injection Hj as <- <-. rewrite Nat.add_0_r in *. rewrite Hl in Hl'. injection Hl' as <-.
        rewrite F2 by lia. split; [|done]. intros lx Hf Hlx. by apply G1.
      * replace (i + S j)%nat with (S i + j)%nat in * by lia.
        destruct (G2 j u' rk' l' Hj) as [GA GB]; [rewrite F; [done|lia]|].
        split; [|done]. intros lx Hf Hlx. apply GA; [done|]. rewrite F; [done|lia].
Qed.

(** ** Proofs: insertion *)

Definition ins (k : nat) (x : item) (L : list item) : list item := take k L ++ x :: drop k L.

Lemma ins_lookup k x L r : (k <= length L)%nat ->
  ins k x L !! r = if decide (r < k)%nat then L !! r else if decide (r = k) then Some x else L !! (r - 1)%nat.
Proof.
  intros Hk. unfold ins. destruct (decide (r < k)%nat) as [Hr|Hr].
  - rewrite lookup_app_l by (rewrite length_take; lia). by apply lookup_take_lt.
  - rewrite lookup_app_r by (rewrite length_take; lia). rewrite length_take, Nat.min_l by lia.
    destruct (decide (r = k)) as [->|Hne]; [by rewrite Nat.sub_diag|].
    replace (r - k)%nat with (S (r - 1 - k)) by lia.
    change (drop k L !! (r - 1 - k)%nat = L !! (r - 1)%nat). rewrite lookup_drop. f_equal. lia.
Qed.

Lemma ins_rank h k x L r : (k <= length L)%nat ->
  rank_id h (ins k x L) r = if decide (r <= k)%nat then rank_id h L r
    else if decide (r = S k) then Some (iid x) else rank_id h L (r - 1).
Proof.
  intros Hk. destruct r as [|r]; cbn [rank_id]; [done|]. rewrite ins_lookup by done.
  repeat case_decide; try lia; try done.
  by replace (S r - 1)%nat with (S (r - 1)) by lia.
Qed.

Lemma ins_height k x L r : (k <= length L)%nat ->
  height_at (ins k x L) r = if decide (r <= k)%nat then height_at L r
    else if decide (r = S k) then ih x else height_at L (r - 1).
Proof.
  intros Hk. destruct r as [|r]; cbn [height_at]; [done|]. rewrite ins_lookup by done.
  repeat case_decide; try lia; try done.
  by replace (S r - 1)%nat with (S (r - 1)) by lia.
Qed.

Lemma drop_split (L : list item) r k : (r <= k)%nat -> drop r L = take (k - r) (drop r L) ++ drop k L.
Proof.
  intros Hr. rewrite <- (take_drop (k - r) (drop r L)) at 1. rewrite drop_drop. by replace (r + (k - r))%nat with k by lia.
Qed.

Lemma ins_drop k x L r : (k <= length L)%nat ->
  drop r (ins k x L) = if decide (r <= k)%nat then take (k - r) (drop r L) ++ x :: drop k L else drop (r - 1) L.
Proof.
  intros Hk. unfold ins. destruct (decide (r <= k)%nat) as [Hr|Hr].
  - rewrite drop_app_le by (rewrite length_take; lia). by rewrite skipn_firstn_comm.
  - rewrite drop_app_ge by (rewrite length_take; lia). rewrite length_take, Nat.min_l by lia.
    replace (r - k)%nat with (S (r - 1 - k)) by lia. cbn [drop]. rewrite drop_drop. f_equal. lia.
Qed.

(** The links after the insertion of [x] at rank [k + 1], from what the loops did. *)
Lemma ins_links m m' h lv k x L :
  (k <= length L)%nat -> (length L < SKIPLIST_LIMIT)%nat -> (1 <= ih x)%nat -> lv = Nat.max (top L) (ih x) ->
  (forall r a i, rank_id h L r = Some a -> (i < height_at L r)%nat -> (i < lv)%nat ->
     get_level m a i = Some (Level (nfwd i (drop r L)) (Z.of_nat (nspan i (drop r L))))) ->
  (forall r a i, rank_id h L r = Some a -> (i < height_at L r)%nat -> (i < lv)%nat -> ~ stop L i k r ->
     get_level m' a i = get_level m a i) ->
  (forall r a i l, rank_id h L r = Some a -> (i < lv)%nat -> stop L i k r -> get_level m a i = Some l ->
     if decide (i < ih x)%nat then
       get_level m' (iid x) i = Some (Level (forward l) (uwrap 32 (span l - uwrap 32 (Z.of_nat k - Z.of_nat r)))) /\
       get_level m' a i = Some (Level (Some (iid x)) (uwrap 32 (uwrap 32 (Z.of_nat k - Z.of_nat r) + 1)))
     else get_level m' a i = Some (Level (forward l) (uwrap 32 (span l + 1)))) ->
  (forall i, (i < lv)%nat -> exists r a, rank_id h L r = Some a /\ stop L i k r) ->
  forall r a i, rank_id h (ins k x L) r = Some a -> (i < height_at (ins k x L) r)%nat -> (i < lv)%nat ->
    get_level m' a i = Some (Level (nfwd i (drop r (ins k x L))) (Z.of_nat (nspan i (drop r (ins k x L))))).
Proof.
  intros Hk Hlim Hx Hlv Hm Hsame Hstop Hex r a i Ha Hh Hi.
  rewrite ins_rank in Ha by done. rewrite ins_height in Hh by done. rewrite ins_drop by done.
  assert (forall r, (r <= k)%nat -> stop L i k r -> low i (take (k - r) (drop r L)) /\
    length (take (k - r) (drop r L)) = (k - r)%nat) as Hmid.
  { intros r0 Hr0 (_ & _ & Hl). split; [done|]. rewrite length_take, length_drop. lia. }
  assert (forall z, (0 <= z < 2 ^ 32) -> uwrap 32 z = z) as Hu by (intros; by apply uwrap_small).
  unfold SKIPLIST_LIMIT in Hlim.
  assert (forall q, (nspan i q <= length q)%nat) as Hns.
  { intros q. induction q as [|y q IH]; cbn [nspan length]; [done|]. destruct (i <? ih y)%nat; lia. }
  assert (length (drop k L) <= length L - k)%nat as Hdl by (rewrite length_drop; lia).
  pose proof (Hns (drop k L)) as Hns'.
  destruct (decide (r <= k)%nat) as [Hr|Hr].
  - destruct (decide (stop L i k r)) as [Hs|Hs].
    + destruct (Hmid r Hr Hs) as [Hlow Hlen]. pose proof (Hm r a i Ha Hh Hi) as Hl.
      rewrite (drop_split L r k Hr) in Hl. destruct (nfwd_skip i _ (drop k L) Hlow) as [N1 N2]. rewrite N1, N2, Hlen in Hl.
      specialize (Hstop r a i _ Ha Hi Hs Hl). destruct (nfwd_skip i _ (x :: drop k L) Hlow) as [-> ->]. rewrite Hlen.
      cbn [nfwd nspan]. destruct (decide (i < ih x)%nat) as [Hix|Hix].
      * destruct (Nat.ltb_spec i (ih x)); [|lia]. destruct Hstop as [_ ->]. do 2 f_equal. rewrite !Hu by (rewrite ?Hu; lia). lia.
      * destruct (Nat.ltb_spec i (ih x)); [lia|]. rewrite Hstop. cbn [forward span]. do 2 f_equal. rewrite Hu by lia. lia.
    + rewrite (Hsame r a i Ha Hh Hi Hs), (Hm r a i Ha Hh Hi). rewrite (drop_split L r k Hr) at 1 2.
      assert (~ low i (take (k - r) (drop r L))) as Hn by (intros Hl; apply Hs; by split_and!).
      destruct (nfwd_stop i _ (drop k L) Hn) as [-> ->]. by destruct (nfwd_stop i _ (x :: drop k L) Hn) as [-> ->].
  - destruct (decide (r = S k)) as [->|Hne].
    + injection Ha as <-. destruct (Hex i Hi) as (r0 & a0 & Ha0 & Hs). pose proof Hs as (Hr0 & Hh0 & _).
      destruct (Hmid r0 Hr0 Hs) as [Hlow Hlen]. pose proof (Hm r0 a0 i Ha0 Hh0 Hi) as Hl.
      rewrite (drop_split L r0 k Hr0) in Hl. destruct (nfwd_skip i _ (drop k L) Hlow) as [N1 N2]. rewrite N1, N2, Hlen in Hl.
      specialize (Hstop r0 a0 i _ Ha0 Hi Hs Hl). destruct (decide (i < ih x)%nat) as [Hix|]; [|lia].
      destruct Hstop as [-> _]. cbn [forward span]. replace (S k - 1)%nat with k by lia. do 2 f_equal.
      rewrite !Hu by (rewrite ?Hu; lia). lia.
    + rewrite (Hsame (r - 1)%nat a i Ha Hh Hi); [apply (Hm (r - 1)%nat a i Ha Hh Hi)|]. intros (Hs & _). lia.
Qed.

Section Insert.
Context (malloc : gmap nat zskiplistNode -> nat) (junk_level : zskiplistLevel) (junk_ptr : option nat).
Context (Hmalloc : forall m, m !! malloc m = None).

Lemma info_get_level m m' a : m' !! a = m !! a -> info m' a = info m a /\ forall j, get_level m' a j = get_level m a j.
Proof. intros E. unfold info, get_level. by rewrite E. Qed.

Lemma create_ok m lv sc o m' x : zslCreateNode malloc junk_level junk_ptr m lv sc o = (m', x) ->
  info m x = None /\ info m' x = Some (o, sc, junk_ptr, lv) /\
  (forall j, (j < lv)%nat -> get_level m' x j = Some junk_level) /\
  (forall a, a <> x -> info m' a = info m a /\ forall j, get_level m' a j = get_level m a j).
Proof.
  unfold zslCreateNode. intros [= <- <-]. split_and!.
  - unfold info. by rewrite Hmalloc.
  - unfold info. rewrite lookup_insert_eq. cbn. by rewrite length_replicate.
  - intros j Hj. unfold get_level. rewrite lookup_insert_eq. cbn. by apply lookup_replicate_2.
  - intros a Ha. apply info_get_level. by rewrite lookup_insert_ne.
Qed.

Lemma last_ins k x L : (k <= length L)%nat -> iid <$> last (ins k x L) = if decide (k = length L) then Some (iid x) else iid <$> last L.
Proof.
  intros Hk. unfold ins. rewrite last_app_cons. destruct (decide (k = length L)) as [->|Hne].
  - by rewrite drop_ge.
  - destruct (drop k L) as [|y q] eqn:E; [apply (f_equal length) in E; rewrite length_drop in E; cbn in E; lia|].
    rewrite last_cons_cons. rewrite <- (take_drop k L) at 1. rewrite E, last_app. by destruct (last (y :: q)) eqn:El; [|apply last_None in El].
Qed.

Lemma ins_map {A} (f : item -> A) k x L : map f (ins k x L) = take k (map f L) ++ f x :: drop k (map f L).
Proof. unfold ins. by rewrite map_app, firstn_map; cbn; rewrite skipn_map. Qed.

(** The array [update], completed for the new levels. *)
Lemma ups_more m zsl L k ups lv : skel m zsl L -> ups_ok zsl L k ups -> (lv <= ZSKIPLIST_MAXLEVEL)%nat ->
  let ups' := ups ++ replicate (lv - zslevel zsl) (header zsl, 0) in
  length ups' = Nat.max (zslevel zsl) lv /\
  forall i u rk, ups' !! i = Some (u, rk) ->
    exists r, rank_id (header zsl) L r = Some u /\ rk = Z.of_nat r /\ stop L i k r.
Proof.
  intros Sk [Hlen Hst] Hlv ups'. split; [unfold ups'; rewrite length_app, length_replicate, Hlen; lia|].
  intros i u rk Hi. unfold ups' in Hi. apply lookup_app_Some in Hi as [Hi|[Hi1 Hi2]]; [eauto|].
  apply lookup_replicate in Hi2 as [[= -> ->] Hlt]. exists 0%nat. split_and!; [done|done|].
  split_and!; [lia|cbn; lia|]. rewrite Hlen, (sk_level _ _ _ Sk) in Hi1. apply Forall_take.
  change (drop 0 L) with L. apply low_le with (top L); [lia|apply top_low].
Qed.

(** The links of the memory in which the new levels of the header are set. *)
Lemma raise_links m m1 zsl L lv : skel m zsl L -> (length L < SKIPLIST_LIMIT)%nat ->
  (lv <= ZSKIPLIST_MAXLEVEL)%nat ->
  (forall y j, y <> header zsl \/ (j < zslevel zsl)%nat \/ (zslevel zsl + (lv - zslevel zsl) <= j)%nat ->
     get_level m1 y j = get_level m y j) ->
  (forall j l, (zslevel zsl <= j < zslevel zsl + (lv - zslevel zsl))%nat -> get_level m (header zsl) j = Some l ->
     get_level m1 (header zsl) j = Some (Level (forward l) (uwrap 32 (length_ zsl)))) ->
  forall r a i, rank_id (header zsl) L r = Some a -> (i < height_at L r)%nat -> (i < Nat.max (zslevel zsl) lv)%nat ->
    get_level m1 a i = Some (Level (nfwd i (drop r L)) (Z.of_nat (nspan i (drop r L)))).
Proof.
  intros Sk Hlim Hlv F1 G1 r a i Ha Hh Hi. destruct (Nat.lt_ge_cases i (zslevel zsl)) as [Hlt|Hge].
  - rewrite F1 by lia. by apply (sk_links _ _ _ Sk).
  - destruct r as [|r]; [|pose proof (height_le_level m zsl L Sk (S r) ltac:(lia)); lia].
    injection Ha as <-. cbn [height_at] in Hh. destruct (sk_idle _ _ _ Sk i ltac:(lia)) as [s Hs].
    rewrite (G1 i _ ltac:(lia) Hs). cbn [forward]. change (drop 0 L) with L.
    assert (low i L) as Hl by (apply low_le with (top L); [rewrite <- (sk_level _ _ _ Sk); lia|apply top_low]).
    destruct (nfwd_low i L Hl) as [-> ->]. do 2 f_equal. rewrite (sk_length _ _ _ Sk).
    apply uwrap_small. unfold in_u, SKIPLIST_LIMIT in *. lia.
Qed.

(** The backward pointers, the tail and the counters. *)
Lemma ins_finish m m4 zsl L k it u0 jp : skel m zsl L -> (k <= length L)%nat -> (S (length L) < SKIPLIST_LIMIT)%nat ->
  item_ok it -> (ih it <= ZSKIPLIST_MAXLEVEL)%nat -> info m (iid it) = None ->
  rank_id (header zsl) L k = Some u0 ->
  (forall a, a <> iid it -> info m4 a = info m a) -> info m4 (iid it) = Some (Some (iob it), isc it, jp, ih it) ->
  (forall r a i, rank_id (header zsl) (ins k it L) r = Some a -> (i < height_at (ins k it L) r)%nat ->
     (i < Nat.max (zslevel zsl) (ih it))%nat ->
     get_level m4 a i = Some (Level (nfwd i (drop r (ins k it L))) (Z.of_nat (nspan i (drop r (ins k it L)))))) ->
  (forall i, (Nat.max (zslevel zsl) (ih it) <= i < ZSKIPLIST_MAXLEVEL)%nat -> exists s, get_level m4 (header zsl) i = Some (Level None s)) ->
  exists m' zsl', (m ← set_backward m4 (iid it) (if bool_decide (u0 = header zsl) then None else Some u0);
    l ← get_level m (iid it) 0;
    '(m, tail) ←
      (match forward l with
       | Some f => m ← set_backward m f (Some (iid it)); Some (m, tail zsl)
       | None => Some (m, Some (iid it))
       end);
    Some (m, Zsl (header zsl) tail (uwrap 64 (length_ zsl + 1)) (Nat.max (zslevel zsl) (ih it)), iid it)) =
  Some (m', zsl', iid it) /\ skel m' zsl' (ins k it L).
Proof.
  intros Sk Hk Hlim Hok Hmx Hfr Hu0 I Ix M4 Hidle. set (x := iid it) in *. set (h := header zsl) in *.
  assert (forall r a, rank_id h L r = Some a -> a <> x) as Hnx.
  { intros r a Ha ->. destruct (rank_info m zsl L Sk r x Ha) as (? & ? & ? & Hi). congruence. }
  destruct (set_backward_ok m4 x (if bool_decide (u0 = h) then None else Some u0) _ _ _ _ Ix) as (m5 & -> & G5 & Ix5 & I5).
  cbn [mbind option_bind]. rewrite G5.
  assert (get_level m4 x 0 = Some (Level (iid <$> L !! k) (Z.of_nat (nspan 0 (drop k L))))) as ->.
  { pose proof (M4 (S k) x 0%nat) as E. rewrite ins_rank, ins_height, ins_drop in E by done.
    rewrite !(decide_False (P := (S k <= k)%nat)), !(decide_True (P := (S k = S k))) in E by lia. destruct Hok as (_ & _ & Hi1). rewrite E; [|done|lia|lia].
    replace (S k - 1)%nat with k by lia. do 2 f_equal. destruct (L !! k) as [y|] eqn:Ey.
    - rewrite (drop_S L y k Ey). cbn [nfwd]. destruct (proj1 (Forall_lookup _ _) (sk_items _ _ _ Sk) k y Ey) as (_ & _ & ?).
      by destruct (Nat.ltb_spec 0 (ih y)); [|lia].
    - by rewrite drop_ge by (by apply lookup_ge_None). }
  cbn [mbind option_bind forward].
  assert (exists m6 tl', (match iid <$> L !! k with
       | Some f => m ← set_backward m5 f (Some x); Some (m, tail zsl)
       | None => Some (m5, Some x)
       end) = Some (m6, tl') /\ tl' = iid <$> last (ins k it L) /\ (forall y j, get_level m6 y j = get_level m4 y j) /\
       info m6 x = info m5 x /\
       (forall r a, rank_id h L r = Some a -> r <> S k -> info m6 a = info m a) /\
       (forall y, L !! k = Some y -> info m6 (iid y) = Some (Some (iob y), isc y, Some x, ih y)))
    as (m6 & tl' & -> & Etl & G6 & Ix6 & I6 & Iy).
  { destruct (L !! k) as [y|] eqn:Ey; cbn [fmap option_fmap option_map].
    - pose proof (lookup_lt_Some _ _ _ Ey) as Hkl. assert (rank_id h L (S k) = Some (iid y)) as Hry by (cbn; by rewrite Ey).
      assert (info m5 (iid y) = Some (Some (iob y), isc y, match k with O => None | S r => iid <$> L !! r end, ih y)) as Iy.
      { rewrite I5, I by (by apply (Hnx (S k))). by apply (sk_nodes _ _ _ Sk). }
      destruct (set_backward_ok m5 (iid y) (Some x) _ _ _ _ Iy) as (m6 & -> & G6 & Iy6 & I6). cbn [mbind option_bind].
      exists m6, (tail zsl). split_and!; [done| |intros; by rewrite G6, G5| | |].
      + rewrite last_ins by done. rewrite decide_False by lia. apply (sk_tail _ _ _ Sk).
      + apply I6. symmetry. by apply (Hnx (S k)).
      + intros r a Ha Hr. rewrite I6, I5, I; [done|by apply (Hnx r)..|]. intros ->. by apply Hr, (rank_inj m zsl L Sk r (S k) (iid y)).
      + intros y' [= <-]. done.
    - apply lookup_ge_None in Ey. exists m5, (Some x). split_and!; [done| |done|done| |done].
      + rewrite last_ins by done. by rewrite decide_True by lia.
      + intros r a Ha _. by rewrite I5, I by (by apply (Hnx r)). }
  cbn [mbind option_bind]. eexists _, _. split; [done|]. unfold SKIPLIST_LIMIT in *. pose proof (sk_max _ _ _ Sk). pose proof (sk_level _ _ _ Sk) as Hlv.
  assert (Nat.max (zslevel zsl) (ih it) = top (ins k it L)) as Htop.
  { unfold ins. rewrite top_app, top_cons. rewrite <- (take_drop k L), top_app in Hlv. lia. }
  constructor; cbn [header zslevel tail length_].
  - destruct (sk_header _ _ _ Sk) as [s Hs]. exists s. by rewrite (I6 0%nat h).
  - intros r y Hy. rewrite ins_lookup in Hy by done.
    destruct (decide (r < k)%nat) as [Hrk|Hrk]; [|destruct (decide (r = k)) as [Hrk'|Hrk']].
    + rewrite (I6 (S r)); [|cbn; by rewrite Hy|lia]. rewrite (sk_nodes _ _ _ Sk r y Hy). destruct r as [|r]; [done|].
      rewrite ins_lookup by done. by rewrite decide_True by lia.
    + injection Hy as <-. subst r. fold x. rewrite Ix6, Ix5. do 3 f_equal. destruct k as [|k].
      * injection Hu0 as <-. by rewrite bool_decide_true.
      * rewrite ins_lookup by done. rewrite decide_True by lia. cbn in Hu0. rewrite bool_decide_false; [done|].
        intros ->. assert (S k = 0)%nat; [|lia]. by apply (rank_inj m zsl L Sk _ _ h).
    + destruct r as [|r]; [lia|]. rewrite ins_lookup by done. replace (S r - 1)%nat with r in Hy by lia.
      rewrite decide_False by lia. destruct (decide (r = k)) as [Hr2|Hr2].
      * subst r. by rewrite (Iy y Hy).
      * rewrite (I6 (S r)); [|cbn; by rewrite Hy|lia]. rewrite (sk_nodes _ _ _ Sk r y Hy).
        destruct r as [|r]; [lia|]. by replace (S r - 1)%nat with r by lia.
  - intros r a i Ha Hi Hl. rewrite G6. by apply M4.
  - intros i Hi. rewrite G6. by apply Hidle.
  - done.
  - rewrite <- Htop. lia.
  - rewrite ins_map. pose proof (sk_ids _ _ _ Sk) as Hnd. rewrite <- (take_drop k (map iid L)) in Hnd.
    apply (NoDup_Permutation_proper (x :: header zsl :: take k (map iid L) ++ drop k (map iid L)));
      [by rewrite <- Permutation_middle, perm_swap|]. constructor; [|done].
    rewrite take_drop. intros Hin. apply list_elem_of_lookup in Hin as [r Hr]. rewrite <- rank_lookup in Hr.
    by apply (Hnx r x Hr).
  - done.
  - unfold ins. rewrite length_app. cbn [length]. rewrite length_take, length_drop, (sk_length _ _ _ Sk).
    rewrite u64_small; lia.
  - pose proof (sk_items _ _ _ Sk) as Hit. unfold ins. rewrite <- (take_drop k L) in Hit. apply Forall_app in Hit as [? ?].
    apply Forall_app. split; [done|]. by constructor.
Qed.

(** insert_node keeps the structure: the new node lies after the first [k] ones. *)
Lemma insert_node_ok m zsl L k lv ups sc o : skel m zsl L -> (k <= length L)%nat -> (S (length L) < SKIPLIST_LIMIT)%nat ->
  (1 <= lv <= ZSKIPLIST_MAXLEVEL)%nat -> isnan sc = false -> robj_ok o -> ups_ok zsl L k ups ->
  exists m' zsl' x, insert_node malloc junk_level junk_ptr m zsl lv ups sc o = Some (m', zsl', x) /\
    skel m' zsl' (ins k (Item x sc o lv) L).
Proof.
  intros Sk Hk Hlim Hlv Hsc Ho Hups. unfold insert_node.
  pose proof (sk_level _ _ _ Sk) as Htop. pose proof (top_pos L) as Hpos. pose proof (sk_max _ _ _ Sk) as Hmax.
  set (h := header zsl) in *. set (lv0 := zslevel zsl) in *. set (n := (lv - lv0)%nat).
  destruct (sk_header _ _ _ Sk) as [sh Hh].
  destruct (raise_ok h (length_ zsl) n m lv0) as (m1 & -> & I1 & F1 & G1).
  { intros j Hj. eapply get_level_some; [exact Hh|]. lia. }
  cbn [mbind option_bind]. set (ups' := ups ++ replicate n (h, 0)).
  destruct (ups_zero m zsl L Sk k ups Hups Hk) as (u0 & Eu0 & Hu0).
  destruct (ups_more m zsl L k ups lv Sk Hups ltac:(lia)) as [Hlen Hst]. fold h lv0 n in Hlen, Hst. fold ups' in Hlen, Hst.
  set (lvm := Nat.max lv0 lv) in *.
  assert (ups' !! 0%nat = Some (u0, Z.of_nat k)) as ->
    by (unfold ups'; rewrite lookup_app_l; [done|]; apply lookup_lt_Some in Eu0; done).
  cbn [mbind option_bind].
  destruct (zslCreateNode malloc junk_level junk_ptr m1 lv sc (Some o)) as [m2 x] eqn:Ec.
  destruct (create_ok _ _ _ _ _ _ Ec) as (Hx1 & Ix & Gx & Same).
  set (it := Item x sc o lv).
  assert (forall r a, rank_id h L r = Some a -> a <> x) as Hnx.
  { intros r a Ha ->. destruct (rank_info m zsl L Sk r x Ha) as (? & ? & ? & Hi). rewrite I1 in Hx1. congruence. }
  assert (forall r a i, rank_id h L r = Some a -> (i < height_at L r)%nat -> (i < lvm)%nat ->
     get_level m2 a i = Some (Level (nfwd i (drop r L)) (Z.of_nat (nspan i (drop r L))))) as M2.
  { intros r a i Ha Hi Hl. destruct (Same a (Hnx r a Ha)) as [_ ->].
    apply (raise_links m m1 zsl L lv Sk ltac:(lia) ltac:(lia) F1 G1 r a i Ha Hi Hl). }
  assert (forall j u rk, ups' !! j = Some (u, rk) -> (j < lvm)%nat /\ u <> x /\ exists l, get_level m2 u j = Some l) as Hup.
  { intros j u rk Hj. pose proof (lookup_lt_Some _ _ _ Hj) as Hjl. destruct (Hst j u rk Hj) as (r & Hr & _ & _ & Hh' & _).
    split_and!; [lia|by apply (Hnx r)|]. eexists. apply (M2 r); [done|done|lia]. }
  destruct (link_ok x (Z.of_nat k) (take lv ups') m2 0) as (m3 & -> & I3 & F3 & G3).
  { intros j u rk Hj. apply lookup_take_Some in Hj as [Hj _]. apply Hup in Hj. tauto. }
  { intros j Hj. exists junk_level. apply Gx. rewrite length_take in Hj. lia. }
  cbn [mbind option_bind].
  assert (length (take lv ups') = lv) as Htk by (rewrite length_take; lia).
  destruct (zsl_bump_ok (drop lv ups') m3 lv) as (m4 & -> & I4 & F4 & G4).
  { intros j u rk Hj. rewrite lookup_drop in Hj. destruct (Hup _ _ _ Hj) as (_ & _ & l & Hl). exists l.
    rewrite F3; [done|]. right; right. lia. }
  cbn [mbind option_bind].
  assert (forall r a i, rank_id h (ins k it L) r = Some a -> (i < height_at (ins k it L) r)%nat -> (i < lvm)%nat ->
    get_level m4 a i = Some (Level (nfwd i (drop r (ins k it L))) (Z.of_nat (nspan i (drop r (ins k it L)))))) as M4.
  { apply (ins_links m2 m4 h lvm k it L); try done; [lia|cbn; lia|cbn; lia|..].
    - intros r a i Ha Hi Hl Hs.
      assert (forall u rk, ups' !! i = Some (u, rk) -> a <> u) as Hau.
      { intros u rk Hu ->. destruct (Hst i u rk Hu) as (r' & Hr' & _ & Hs'). by rewrite (rank_inj m zsl L Sk r r' u Ha Hr') in Hs. }
      rewrite F4, F3; [done|..].
      + destruct (Nat.lt_ge_cases i lv); [|right; right; lia]. right; left. split; [by apply (Hnx r)|].
        intros u rk Hu. rewrite Nat.sub_0_r in Hu. apply lookup_take_Some in Hu as [Hu _]. by apply (Hau u rk).
      + destruct (Nat.lt_ge_cases i lv); [by left|]. right. intros u rk Hu. rewrite lookup_drop in Hu.
        apply (Hau u rk). by replace (lv + (i - lv))%nat with i in Hu by lia.
    - intros r a i l Ha Hi Hs Hl. destruct (lookup_lt_is_Some_2 ups' i) as [[u rk] Hu]; [lia|].
      destruct (Hst i u rk Hu) as (r' & Hr' & -> & Hs'). rewrite (stop_unique _ _ _ _ _ Hs' Hs) in Hr', Hu.
      rewrite Ha in Hr'. injection Hr' as <-. cbn [ih iid it]. case_decide as Hlt.
      + destruct (G3 i a (Z.of_nat r) l) as [GA GB]; [by rewrite lookup_take_lt|done|].
        rewrite !F4 by lia. done.
      + pose proof (G4 (i - lv)%nat a (Z.of_nat r) l) as GC. replace (lv + (i - lv))%nat with i in GC by lia.
        apply GC; [rewrite lookup_drop; by replace (lv + (i - lv))%nat with i by lia|].
        rewrite F3; [done|]. right; right. lia.
    - intros i Hi. destruct (lookup_lt_is_Some_2 ups' i) as [[u rk] Hu]; [lia|].
      destruct (Hst i u rk Hu) as (r & Hr & _ & Hs). by exists r, u. }
  assert (forall a, a <> x -> info m4 a = info m a) as I by (intros a Ha; rewrite I4, I3, (proj1 (Same a Ha)); apply I1).
  assert (info m4 x = Some (Some o, sc, junk_ptr, lv)) as Ix4 by (by rewrite I4, I3).
  destruct (ins_finish m m4 zsl L k it u0 junk_ptr Sk Hk Hlim) as (m' & zsl' & E & Sk'); try done.
  { split_and!; [done|done|cbn; lia]. }
  { cbn. lia. }
  { cbn. by rewrite <- I1. }
  { intros i Hi. cbn in Hi. fold lv0 in Hi. destruct (sk_idle _ _ _ Sk i) as [s Hs]; [fold lv0; lia|]. exists s.
    assert (forall u rk, ups' !! i = Some (u, rk) -> False) as Hno by (intros u rk Hu; apply lookup_lt_Some in Hu; lia).
    fold h. rewrite F4, F3, (proj2 (Same h (Hnx 0%nat h eq_refl))), F1; [done|lia|right; right; lia|].
    right. intros u rk Hu. rewrite lookup_drop in Hu. replace (lv + (i - lv))%nat with i in Hu by lia. by destruct (Hno u rk). }
  cbn [iid ih it] in E. fold lv0 in E. fold lvm in E. fold h in E. rewrite E. by exists m', zsl', x.
Qed.
End Insert.

(** ** Proofs: deletion *)

Definition del (k : nat) (L : list item) : list item := take k L ++ drop (S k) L.

Lemma del_lookup k L r : (k < length L)%nat -> del k L !! r = if decide (r < k)%nat then L !! r else L !! S r.
Proof.
  intros Hk. unfold del. destruct (decide (r < k)%nat) as [Hr|Hr].
  - rewrite lookup_app_l by (rewrite length_take; lia). by apply lookup_take_lt.
  - rewrite lookup_app_r by (rewrite length_take; lia). rewrite length_take, Nat.min_l by lia.
    rewrite lookup_drop. f_equal. lia.
Qed.

Lemma del_rank h k L r : (k < length L)%nat ->
  rank_id h (del k L) r = if decide (r <= k)%nat then rank_id h L r else rank_id h L (S r).
Proof.
  intros Hk. destruct r as [|r]; cbn [rank_id]; [done|]. rewrite del_lookup by done.
  repeat case_decide; try lia; done.
Qed.

Lemma del_height k L r : (k < length L)%nat ->
  height_at (del k L) r = if decide (r <= k)%nat then height_at L r else height_at L (S r).
Proof.
  intros Hk. destruct r as [|r]; cbn [height_at]; [done|]. rewrite del_lookup by done.
  repeat case_decide; try lia; done.
Qed.

Lemma del_drop k L r : (k < length L)%nat ->
  drop r (del k L) = if decide (r <= k)%nat then take (k - r) (drop r L) ++ drop (S k) L else drop (S r) L.
Proof.
  intros Hk. unfold del. destruct (decide (r <= k)%nat) as [Hr|Hr].
  - rewrite drop_app_le by (rewrite length_take; lia). by rewrite skipn_firstn_comm.
  - rewrite drop_app_ge by (rewrite length_take; lia). rewrite length_take, Nat.min_l, drop_drop by lia. f_equal. lia.
Qed.

Lemma nspan_le i L : (nspan i L <= length L)%nat.
Proof. induction L as [|y q IH]; cbn [nspan length]; [done|]. destruct (i <? ih y)%nat; lia. Qed.

Lemma nfwd_in i L a : nfwd i L = Some a -> exists j x, L !! j = Some x /\ iid x = a.
Proof.
  destruct (nfwd_cases i L) as [Hl|(j & x & Hx & _ & _ & -> & _)].
  - by destruct (nfwd_low i L Hl) as [-> _].
  - intros [= <-]. by exists j, x.
Qed.

(** The update array of a deletion: it may have more levels than the list. *)
Definition dups_ok (zsl : zskiplist) (L : list item) (k : nat) (ups : list (nat * Z)) : Prop :=
  (zslevel zsl <= length ups)%nat /\
  forall i u rk, (i < zslevel zsl)%nat -> ups !! i = Some (u, rk) ->
    exists r, rank_id (header zsl) L r = Some u /\ stop L i k r.

Lemma ups_dups zsl L k ups : ups_ok zsl L k ups -> dups_ok zsl L k ups.
Proof.
  intros [Hl Hu]. split; [lia|]. intros i u rk _ Hi. destruct (Hu i u rk Hi) as (r & ? & _ & ?). by exists r.
Qed.

Lemma stop_del L k i r : (k < length L)%nat -> stop L i k r -> stop (del k L) i k r.
Proof.
  intros Hk (Hr & Hh & Hl). split_and!; [done| |].
  - rewrite del_height by done. by rewrite decide_True by lia.
  - rewrite del_drop by done. rewrite decide_True by lia. rewrite take_app_le by (rewrite length_take, length_drop; lia).
    by rewrite take_take, Nat.min_id.
Qed.

(** The links after the deletion of the node of rank [k + 1]. *)
Lemma del_links m m' h lv k x L : L !! k = Some x -> (length L < SKIPLIST_LIMIT)%nat ->
  (forall r a i, rank_id h L r = Some a -> (i < height_at L r)%nat -> (i < lv)%nat ->
     get_level m a i = Some (Level (nfwd i (drop r L)) (Z.of_nat (nspan i (drop r L))))) ->
  (forall r a i, rank_id h L r = Some a -> (i < height_at L r)%nat -> (i < lv)%nat -> ~ stop L i k r ->
     get_level m' a i = get_level m a i) ->
  (forall r a i l lx, rank_id h L r = Some a -> (i < lv)%nat -> stop L i k r -> get_level m a i = Some l ->
     if decide (i < ih x)%nat then get_level m (iid x) i = Some lx ->
       get_level m' a i = Some (Level (forward lx) (uwrap 32 (span l + uwrap 32 (span lx - 1))))
     else get_level m' a i = Some (Level (forward l) (uwrap 32 (span l - 1)))) ->
  forall r a i, rank_id h (del k L) r = Some a -> (i < height_at (del k L) r)%nat -> (i < lv)%nat ->
    get_level m' a i = Some (Level (nfwd i (drop r (del k L))) (Z.of_nat (nspan i (drop r (del k L))))).
Proof.
  intros Hx Hlim Hm Hsame Hstop r a i Ha Hh Hi. pose proof (lookup_lt_Some _ _ _ Hx) as Hk.
  rewrite del_rank in Ha by done. rewrite del_height in Hh by done. rewrite del_drop by done. unfold SKIPLIST_LIMIT in Hlim.
  pose proof (nspan_le i (drop (S k) L)) as Hns. rewrite length_drop in Hns.
  destruct (decide (r <= k)%nat) as [Hr|Hr].
  - pose proof (Hm r a i Ha Hh Hi) as Hl. pose proof Hl as Hl0. rewrite (drop_split L r k Hr), (drop_S L x k Hx) in Hl.
    destruct (decide (stop L i k r)) as [Hs|Hs].
    + assert (low i (take (k - r) (drop r L))) as Hlow by apply Hs.
      assert (length (take (k - r) (drop r L)) = (k - r)%nat) as Hlen by (rewrite length_take, length_drop; lia).
      destruct (nfwd_skip i _ (x :: drop (S k) L) Hlow) as [N1 N2]. rewrite N1, N2, Hlen in Hl. clear N1 N2.
      destruct (nfwd_skip i _ (drop (S k) L) Hlow) as [-> ->]. rewrite Hlen.
      cbn [nfwd nspan] in Hl. pose proof (Hstop r a i _ (Level (nfwd i (drop (S k) L)) (Z.of_nat (nspan i (drop (S k) L)))) Ha Hi Hs Hl) as Hs'.
      destruct (decide (i < ih x)%nat) as [Hix|Hix]; destruct (Nat.ltb_spec i (ih x)); try lia; cbn [forward span] in Hs'.
      * rewrite Hs'; [|apply (Hm (S k)); [cbn; by rewrite Hx|cbn; by rewrite Hx|done]]. do 2 f_equal.
        unfold uwrap. rewrite Zplus_mod_idemp_r. rewrite Z.mod_small by lia. lia.
      * rewrite Hs'. do 2 f_equal. rewrite u32_small by lia. lia.
    + rewrite (Hsame r a i Ha Hh Hi Hs), Hl.
      assert (~ low i (take (k - r) (drop r L))) as Hn by (intros Hl'; apply Hs; by split_and!).
      destruct (nfwd_stop i _ (x :: drop (S k) L) Hn) as [-> ->]. by destruct (nfwd_stop i _ (drop (S k) L) Hn) as [-> ->].
  - rewrite (Hsame (S r) a i Ha Hh Hi); [by apply Hm|]. intros (Hs & _). lia.
Qed.

Lemma lower_ok m h L' : forall lv, (top L' <= lv)%nat ->
  (forall j, (j < lv)%nat -> exists s, get_level m h j = Some (Level (nfwd j L') s)) -> lower_level m h lv = Some (top L').
Proof.
  pose proof (top_pos L'). induction lv as [|[|lv] IH]; intros Hlv Hg; cbn [lower_level]; [lia|f_equal; lia|].
  destruct (Hg (S lv) ltac:(lia)) as [s ->]. cbn [mbind option_bind forward].
  destruct (nfwd_cases (S lv) L') as [Hl|(j & x & Hx & Hix & _ & -> & _)].
  - destruct (nfwd_low _ _ Hl) as [-> _]. apply IH; [apply top_le; [lia|done]|intros j Hj; apply Hg; lia].
  - f_equal. assert (~ (top L' <= S lv)%nat); [|lia]. intros Hle. apply top_le in Hle; [|lia].
    pose proof (proj1 (Forall_lookup _ _) Hle j x Hx) as Q. cbn in Q. lia.
Qed.

Lemma delete_lookup m x a : a <> x -> info (delete x m) a = info m a /\ forall j, get_level (delete x m) a j = get_level m a j.
Proof. intros Ha. apply info_get_level. by rewrite lookup_delete_ne. Qed.

Lemma last_del k L : (k < length L)%nat ->
  last (del k L) = if decide (S k = length L) then (match k with O => None | S k' => L !! k' end) else last L.
Proof.
  intros Hk. unfold del. rewrite last_app. destruct (decide (S k = length L)) as [E|Hne].
  - rewrite drop_ge by lia. cbn. destruct k as [|k]; [done|]. rewrite last_lookup, length_take, Nat.min_l by lia.
    cbn [Nat.pred]. apply lookup_take_lt. lia.
  - rewrite <- (take_drop (S k) L) at 2. rewrite last_app.
    destruct (last (drop (S k) L)) as [y|] eqn:El; [done|]. apply last_None in El.
    apply (f_equal length) in El. rewrite length_drop in El. cbn in El. lia.
Qed.

(** zslDeleteNode removes the node of rank [k + 1], and its update array still serves. *)
Lemma delete_node_ok m zsl L k x ups : skel m zsl L -> L !! k = Some x -> (length L < SKIPLIST_LIMIT)%nat ->
  dups_ok zsl L k ups ->
  exists m' zsl', zslDeleteNode m zsl (iid x) ups = Some (m', zsl') /\
    skel (delete (iid x) m') zsl' (del k L) /\ dups_ok zsl' (del k L) k ups /\ header zsl' = header zsl /\
    m' !! iid x <> None.
Proof.
  intros Sk Hx Hlim [Hul Hu]. pose proof (lookup_lt_Some _ _ _ Hx) as Hk.
  set (h := header zsl) in *. set (lv := zslevel zsl) in *. pose proof (sk_level _ _ _ Sk) as Htop. fold lv in Htop.
  pose proof (sk_max _ _ _ Sk) as Hmax. pose proof (top_pos L) as Hpos.
  assert (rank_id h L (S k) = Some (iid x)) as Hrx by (cbn; by rewrite Hx).
  assert (forall r a, rank_id h L r = Some a -> r <> S k -> a <> iid x) as Hnx
    by (intros r a Ha Hr ->; by apply Hr, (rank_inj m zsl L Sk r (S k) (iid x))).
  unfold zslDeleteNode. replace (zslevel zsl <=? length ups)%nat with true by (symmetry; by apply Nat.leb_le).
  cbn [cassert mbind option_bind]. fold lv.
  assert (forall j u rk, take lv ups !! j = Some (u, rk) -> exists r, (j < lv)%nat /\ rank_id h L r = Some u /\ stop L j k r /\
    get_level m u j = Some (Level (nfwd j (drop r L)) (Z.of_nat (nspan j (drop r L))))) as Hup.
  { intros j u rk Hj. apply lookup_take_Some in Hj as [Hj Hjl]. destruct (Hu j u rk Hjl Hj) as (r & Hr & Hs).
    exists r. split_and!; [done|done|done|]. apply (sk_links _ _ _ Sk); [done|by destruct Hs as (_ & ? & _)|done]. }
  assert (forall i, (i < lv)%nat -> (i < ih x)%nat -> exists lx, get_level m (iid x) i = Some lx) as Hlx.
  { intros i Hi Hix. eexists. apply (sk_links _ _ _ Sk (S k)); [done|cbn; by rewrite Hx|done]. }
  assert (forall r i, (r <= k)%nat -> stop L i k r -> nfwd i (drop r L) = if decide (i < ih x)%nat then Some (iid x) else nfwd i (drop (S k) L)) as Hnf.
  { intros r i Hr (_ & _ & Hlow). rewrite (drop_split L r k Hr), (drop_S L x k Hx).
    destruct (nfwd_skip i _ (x :: drop (S k) L) Hlow) as [-> _]. cbn [nfwd].
    destruct (Nat.ltb_spec i (ih x)), (decide (i < ih x)%nat); done || lia. }
  assert (forall i, nfwd i (drop (S k) L) <> Some (iid x)) as Hno.
  { intros i Hf. apply nfwd_in in Hf as (j & y & Hy & Ey). rewrite lookup_drop in Hy.
    apply (Hnx (S (S k + j)) (iid y)); [cbn [rank_id]; by rewrite Hy|lia|done]. }
  destruct (zsl_unlink_ok (iid x) (take lv ups) m 0) as (m1 & -> & I1 & F1 & G1).
  { intros j u rk Hj. destruct (Hup j u rk Hj) as (r & Hjl & Hr & Hs & Hl). eexists. split; [exact Hl|]. cbn [forward].
    rewrite (Hnf r j) by (done || by destruct Hs). case_decide as Hix; [|intros Hf; by destruct (Hno j)].
    intros _. split; [|by apply Hlx]. apply (Hnx r); [done|]. destruct Hs as (? & _). lia. }
  cbn [mbind option_bind].
  assert (forall r a i, rank_id h (del k L) r = Some a -> (i < height_at (del k L) r)%nat -> (i < lv)%nat ->
    get_level m1 a i = Some (Level (nfwd i (drop r (del k L))) (Z.of_nat (nspan i (drop r (del k L)))))) as M1.
  { apply (del_links m m1 h lv k x L Hx Hlim); [by apply (sk_links _ _ _ Sk)|..].
    - intros r a i Ha Hi Hl Hs. apply F1. right. intros u rk Hj ->. rewrite Nat.sub_0_r in Hj.
      destruct (Hup i u rk Hj) as (r' & _ & Hr' & Hs' & _). by rewrite (rank_inj m zsl L Sk r r' u Ha Hr') in Hs.
    - intros r a i l lx Ha Hi Hs Hl. destruct (lookup_lt_is_Some_2 ups i) as [[u rk] Hj]; [lia|].
      assert (take lv ups !! i = Some (u, rk)) as Hj' by (by rewrite lookup_take_lt).
      destruct (Hup i u rk Hj') as (r' & _ & Hr' & Hs' & Hl'). rewrite (stop_unique _ _ _ _ _ Hs' Hs) in Hr', Hl'.
      rewrite Ha in Hr'. injection Hr' as <-. rewrite Hl in Hl'. injection Hl' as ->.
      destruct (G1 i a rk _ Hj' Hl) as [GA GB]. cbn [forward] in GA, GB.
      rewrite (Hnf r i) in GA, GB by (done || by destruct Hs). case_decide as Hix.
      + intros Hlx'. by apply GA.
      + rewrite (Hnf r i) by (done || by destruct Hs). rewrite decide_False by done. by apply GB. }
  destruct (item_node m zsl L Sk k x Hx) as (n0 & Hn0 & _). pose proof (sk_nodes _ _ _ Sk k x Hx) as Hix.
  pose proof Hix as Hix1. rewrite <- I1 in Hix1. apply info_lookup in Hix1 as (n & Hn & _ & _ & Hb & Hln).
  rewrite Hn. cbn [mbind option_bind].
  assert (level n !! 0%nat = get_level m1 (iid x) 0) as -> by (unfold get_level; by rewrite Hn).
  assert (get_level m1 (iid x) 0 = get_level m (iid x) 0) as ->.
  { apply F1. right. intros u rk Hj Eu. destruct (Hup 0%nat u rk) as (r & _ & Hr & Hs & _); [by rewrite Nat.sub_diag in Hj|].
    rewrite <- Eu in Hr. assert (r = S k) as -> by (by apply (rank_inj m zsl L Sk r (S k) (iid x))). destruct Hs as (? & _). lia. }
  destruct (proj1 (Forall_lookup _ _) (sk_items _ _ _ Sk) k x Hx) as (_ & _ & Hih).
  rewrite (sk_links _ _ _ Sk (S k) (iid x) 0 Hrx) by (try (cbn; rewrite Hx; cbn); lia). cbn [mbind option_bind forward].
  assert (nfwd 0 (drop (S k) L) = iid <$> L !! S k) as ->.
  { destruct (L !! S k) as [y|] eqn:Ey.
    - rewrite (drop_S L y (S k) Ey). cbn [nfwd]. destruct (proj1 (Forall_lookup _ _) (sk_items _ _ _ Sk) (S k) y Ey) as (_ & _ & ?).
      by destruct (Nat.ltb_spec 0 (ih y)); [|lia].
    - by rewrite drop_ge by (by apply lookup_ge_None). }
  rewrite Hb.
  assert (exists m2 tl', (match iid <$> L !! S k with
       | Some f => m ← set_backward m1 f (match k with O => None | S r => iid <$> L !! r end); Some (m, tail zsl)
       | None => Some (m1, match k with O => None | S r => iid <$> L !! r end)
       end) = Some (m2, tl') /\ tl' = iid <$> last (del k L) /\ (forall y j, get_level m2 y j = get_level m1 y j) /\
       m2 !! iid x <> None /\ (forall r a, rank_id h L r = Some a -> r <> S (S k) -> info m2 a = info m a) /\
       (forall y, L !! S k = Some y -> info m2 (iid y) =
          Some (Some (iob y), isc y, match k with O => None | S r => iid <$> L !! r end, ih y)))
    as (m2 & tl' & -> & Etl & G2 & Hm2 & I2 & Iy).
  { destruct (L !! S k) as [y|] eqn:Ey; cbn [fmap option_fmap option_map].
    - pose proof (lookup_lt_Some _ _ _ Ey) as Hkl.
      assert (rank_id h L (S (S k)) = Some (iid y)) as Hry by (cbn [rank_id]; by rewrite Ey).
      pose proof (sk_nodes _ _ _ Sk (S k) y Ey) as Hy. rewrite <- I1 in Hy.
      destruct (set_backward_ok m1 (iid y) (match k with O => None | S r => iid <$> L !! r end) _ _ _ _ Hy)
        as (m2 & -> & G2 & Iy2 & I2). cbn [mbind option_bind].
      exists m2, (tail zsl). split_and!; [done| |done| | |].
      + rewrite last_del by done. rewrite decide_False by lia. apply (sk_tail _ _ _ Sk).
      + intros E0. specialize (I2 (iid x)). unfold info in I2. rewrite E0, Hn in I2. discriminate I2.
        intros E. by apply (Hnx (S (S k)) (iid y) Hry); [lia|].
      + intros r a Ha Hr. rewrite I2, I1; [done|]. intros ->. by apply Hr, (rank_inj m zsl L Sk r (S (S k)) (iid y)).
      + intros y' [= <-]. done.
    - apply lookup_ge_None in Ey. eexists m1, _. split_and!; [done| |done|by rewrite Hn|intros r a Ha _; apply I1|done].
      rewrite last_del by done. rewrite decide_True by lia. by destruct k. }
  cbn [mbind option_bind]. fold h.
  assert (top (del k L) <= lv)%nat as Htd.
  { rewrite Htop. rewrite <- (take_drop k L) at 2. unfold del. rewrite !top_app, (drop_S L x k Hx), top_cons. lia. }
  rewrite (lower_ok m2 h (del k L) lv Htd).
  2: { intros j Hj. eexists. rewrite G2. apply (M1 0%nat h); [done|cbn; lia|done]. }
  cbn [mbind option_bind]. eexists _, _. split; [done|]. cbn [header zslevel].
  assert (forall r a, rank_id h (del k L) r = Some a -> a <> iid x) as Hnd.
  { intros r a Ha. rewrite del_rank in Ha by done. destruct (decide (r <= k)%nat); [apply (Hnx r)|apply (Hnx (S r))]; done || lia. }
  split_and!; [|split|done|done].
  - constructor; cbn [header zslevel tail length_].
    + destruct (delete_lookup m2 (iid x) h (Hnd 0%nat h eq_refl)) as [-> _]. rewrite (I2 0%nat h); [apply (sk_header _ _ _ Sk)|done|lia].
    + intros r y Hy. assert (rank_id h (del k L) (S r) = Some (iid y)) as Hry by (cbn; by rewrite Hy).
      destruct (delete_lookup m2 (iid x) _ (Hnd _ _ Hry)) as [-> _].
      rewrite del_lookup in Hy by done. destruct (decide (r < k)%nat) as [Hrk|Hrk].
      * rewrite (I2 (S r)); [|cbn; by rewrite Hy|lia]. rewrite (sk_nodes _ _ _ Sk r y Hy). destruct r as [|r]; [done|].
        rewrite del_lookup by done. by rewrite decide_True by lia.
      * destruct (Nat.eq_dec r k) as [->|Hne].
        -- rewrite (Iy y Hy). destruct k as [|k]; [done|]. rewrite del_lookup by done. by rewrite decide_True by lia.
        -- rewrite (I2 (S (S r))); [|cbn [rank_id]; by rewrite Hy|lia]. rewrite (sk_nodes _ _ _ Sk (S r) y Hy).
           destruct r as [|r]; [lia|]. rewrite del_lookup by done. by rewrite decide_False by lia.
    + intros r a i Ha Hi Hl. destruct (delete_lookup m2 (iid x) a (Hnd _ _ Ha)) as [_ ->]. rewrite G2. apply M1; [done|done|lia].
    + intros i Hi. destruct (delete_lookup m2 (iid x) h (Hnd 0%nat h eq_refl)) as [_ ->]. rewrite G2.
      destruct (Nat.lt_ge_cases i lv) as [Hil|Hil].
      * eexists. rewrite (M1 0%nat h i eq_refl) by (cbn; lia). do 2 f_equal.
        apply nfwd_low. change (drop 0 (del k L)) with (del k L). apply low_le with (top (del k L)); [lia|apply top_low].
      * rewrite F1; [apply (sk_idle _ _ _ Sk); lia|]. right. intros u rk Hj. apply lookup_take_Some in Hj as [_ Hj]. lia.
    + done.
    + lia.
    + pose proof (sk_ids _ _ _ Sk) as Hnd'. rewrite <- (take_drop k L), (drop_S L x k Hx), map_app in Hnd'. unfold del. rewrite map_app.
      cbn [map] in Hnd'. rewrite <- Permutation_middle, perm_swap in Hnd'. by apply NoDup_cons in Hnd' as [_ ?].
    + done.
    + unfold del. rewrite length_app, length_take, length_drop, (sk_length _ _ _ Sk). unfold SKIPLIST_LIMIT in Hlim. rewrite u64_small; lia.
    + pose proof (sk_items _ _ _ Sk) as Hit. rewrite <- (take_drop k L), (drop_S L x k Hx) in Hit. apply Forall_app in Hit as [? Hit].
      apply Forall_cons in Hit as [_ Hit]. by apply Forall_app.
  - cbn. lia.
  - cbn. intros i u rk Hi Hj. destruct (Hu i u rk ltac:(lia) Hj) as (r & Hr & Hs). exists r. split.
    + rewrite del_rank by done. rewrite decide_True; [done|]. by destruct Hs.
    + by apply stop_del.
Qed.

(** ** Proofs: the order of the elements *)

Lemma dlt_trans a b c : isnan a = false -> isnan b = false -> isnan c = false ->
  dlt a b = true -> dlt b c = true -> dlt a c = true.
Proof. intros Ha Hb Hc. rewrite !dlt_key by done. apply kcmp_lt_trans. Qed.

Lemma dlt_deq_l a b c : isnan a = false -> isnan b = false -> isnan c = false -> deq a b = true -> dlt a c = dlt b c.
Proof.
  intros Ha Hb Hc E. apply deq_key in E; [|done..]. apply eq_bool_prop_intro. rewrite !Is_true_true, !dlt_key by done. by rewrite E.
Qed.

Lemma dlt_deq_r a b c : isnan a = false -> isnan b = false -> isnan c = false -> deq a b = true -> dlt c a = dlt c b.
Proof.
  intros Ha Hb Hc E. apply deq_key in E; [|done..]. apply eq_bool_prop_intro. rewrite !Is_true_true, !dlt_key by done. by rewrite E.
Qed.

Lemma deq_trans a b c : isnan a = false -> isnan b = false -> isnan c = false -> deq a b = true -> deq b c = true -> deq a c = true.
Proof. intros Ha Hb Hc. rewrite !deq_key by done. congruence. Qed.

Lemma deq_sym a b : isnan a = false -> isnan b = false -> deq a b = deq b a.
Proof. intros Ha Hb. apply eq_bool_prop_intro. rewrite !Is_true_true, !deq_key by done. split; congruence. Qed.

Lemma dlt_not_deq a b : isnan a = false -> isnan b = false -> dlt a b = true -> deq a b = false.
Proof.
  intros Ha Hb Hl. apply not_true_iff_false. rewrite deq_key by done. rewrite dlt_key in Hl by done. intros E.
  rewrite E in Hl. assert (kcmp (dkey b) (dkey b) = Eq) as X by (by apply kcmp_eq). congruence.
Qed.

Lemma dcmp_cases a b : isnan a = false -> isnan b = false -> dlt a b = true \/ deq a b = true \/ dlt b a = true.
Proof.
  intros Ha Hb. rewrite !dlt_key, deq_key, <- kcmp_eq by done. rewrite (kcmp_antisym (dkey a) (dkey b)).
  destruct (kcmp (dkey a) (dkey b)); cbn; auto.
Qed.

Lemma dlt_asym a b : isnan a = false -> isnan b = false -> dlt a b = true -> dlt b a = false.
Proof.
  intros Ha Hb Hl. apply not_true_iff_false. rewrite dlt_key in * by done. rewrite kcmp_antisym, Hl. done.
Qed.

(** An element before, or not after, a key. *)
Definition before (s : spec_float) (o : robj) (x : item) : bool :=
  dlt (isc x) s || (deq (isc x) s && slt (otext (iob x)) (otext o)).
Definition same_key (s : spec_float) (o : robj) (x : item) : bool :=
  deq (isc x) s && bool_decide (otext (iob x) = otext o).

Lemma key_lt_trans s1 o1 s2 o2 s3 o3 : isnan s1 = false -> isnan s2 = false -> isnan s3 = false ->
  key_lt s1 o1 s2 o2 -> key_lt s2 o2 s3 o3 -> key_lt s1 o1 s3 o3.
Proof.
  intros H1 H2 H3 [Ha|[Ha Ha']] [Hb|[Hb Hb']]; unfold key_lt.
  - left. by apply dlt_trans with s2.
  - left. by rewrite <- (dlt_deq_r s2 s3 s1).
  - left. by rewrite (dlt_deq_l s1 s2 s3).
  - right. split; [by apply deq_trans with s2|by apply slt_trans with (otext o2)].
Qed.

Lemma before_key s o x : before s o x = true <-> key_lt (isc x) (iob x) s o.
Proof. unfold before, key_lt. by rewrite orb_true_iff, andb_true_iff. Qed.

Lemma before_mono s o x y : isnan s = false -> item_ok x -> item_ok y -> item_lt x y ->
  before s o y = true -> before s o x = true.
Proof. intros Hs (Hx & _) (Hy & _) Hxy. rewrite !before_key. by apply key_lt_trans. Qed.

(** Not before and not the same key: after. *)
Lemma key_cases s o x : isnan s = false -> item_ok x ->
  before s o x = true \/ same_key s o x = true \/ key_lt s o (isc x) (iob x).
Proof.
  intros Hs (Hx & _). rewrite before_key. unfold same_key, key_lt. rewrite andb_true_iff, bool_decide_eq_true.
  destruct (dcmp_cases (isc x) s Hx Hs) as [?|[Hd|?]]; [auto| |auto].
  rewrite (deq_sym s (isc x)), Hd by done. destruct (slt_total (otext (iob x)) (otext o)) as [?|[?|?]]; auto.
Qed.

Lemma same_not_before s o x : isnan s = false -> item_ok x -> same_key s o x = true -> before s o x = false.
Proof.
  intros Hs (Hx & _). unfold same_key, before. rewrite andb_true_iff, bool_decide_eq_true. intros [Hd ->].
  rewrite slt_irrefl, andb_false_r, orb_false_r. apply not_true_iff_false. intros Hl.
  apply dlt_not_deq in Hl; [congruence|done..].
Qed.

Lemma after_not_before s o x : isnan s = false -> item_ok x -> key_lt s o (isc x) (iob x) ->
  before s o x = false /\ same_key s o x = false.
Proof.
  intros Hs (Hx & _) Hk. assert (before s o x = false) as Hb.
  { apply not_true_iff_false. rewrite before_key. intros Hk'. pose proof (key_lt_trans _ _ _ _ _ _ Hs Hx Hs Hk Hk') as [Hl|[_ Hl]].
    - rewrite (dlt_asym s s) in Hl; done.
    - by rewrite slt_irrefl in Hl. }
  split; [done|]. unfold same_key. apply andb_false_iff. destruct Hk as [Hl|[Hd Hl]].
  - left. rewrite deq_sym by done. by apply dlt_not_deq.
  - right. apply bool_decide_false. intros E. by rewrite E, slt_irrefl in Hl.
Qed.

(** The length of the longest prefix that satisfies a predicate. *)
Fixpoint cnt (P : item -> bool) (L : list item) : nat :=
  match L with [] => 0 | x :: L => if P x then S (cnt P L) else 0 end.

Lemma cnt_le P L : (cnt P L <= length L)%nat.
Proof. induction L as [|x L IH]; cbn [cnt length]; [done|]. destruct (P x); lia. Qed.

(** A predicate that holds of every element before one of which it holds. *)
Definition mono (L : list item) (P : item -> bool) : Prop :=
  forall x y, In x L -> In y L -> item_lt x y -> P y = true -> P x = true.

Lemma cnt_spec P L : StronglySorted item_lt L -> mono L P ->
  forall r x, L !! r = Some x -> P x = bool_decide (r < cnt P L)%nat.
Proof.
  intros Hs. induction Hs as [|x L Hs IH Hx]; intros Hm r y; [done|].
  assert (mono L P) as Hm' by (intros u v Hu Hv; apply Hm; by right). cbn [cnt]. destruct (P x) eqn:E.
  - destruct r as [|r]; cbn.
    + intros [= <-]. rewrite E. symmetry. apply bool_decide_true. lia.
    + intros Hy. rewrite (IH Hm' r y Hy). apply bool_decide_ext. lia.
  - intros Hy. rewrite bool_decide_false by lia. destruct r as [|r]; cbn in Hy; [congruence|].
    apply not_true_iff_false. intros Hy'. apply list_elem_of_lookup_2, list_elem_of_In in Hy.
    rewrite (Hm x y) in E; [done|by left|by right| |done]. rewrite List.Forall_forall in Hx. by apply Hx.
Qed.

Lemma before_mono_all s o L : isnan s = false -> Forall item_ok L -> mono L (before s o).
Proof.
  intros Hs Hok x y Hx Hy. rewrite List.Forall_forall in Hok. apply before_mono; auto.
Qed.

(** A condition on the contents of the nodes selects the prefix a predicate selects. *)
Lemma sel_cnt m zsl L c P : skel m zsl L -> StronglySorted item_lt L -> mono L P ->
  (forall x n z, In x L -> obj n = Some (iob x) -> score n = isc x -> c n z = Some (P x)) ->
  sel m L c (cnt P L).
Proof.
  intros Sk Hs Hm Hc r x n Hx Hn. destruct (item_node m zsl L Sk r x Hx) as (n' & Hn' & Ho & Hsc & _).
  rewrite Hn in Hn'. injection Hn' as <-. assert (In x L) as Hin by (by apply list_elem_of_lookup_2, list_elem_of_In in Hx).
  rewrite (Hc x n) by done. f_equal. by apply cnt_spec.
Qed.

(** ** Proofs: sortedness *)

Lemma sorted_ins L k x : StronglySorted item_lt L ->
  (forall r y, L !! r = Some y -> (r < k)%nat -> item_lt y x) ->
  (forall r y, L !! r = Some y -> (k <= r)%nat -> item_lt x y) -> StronglySorted item_lt (ins k x L).
Proof.
  intros Hs. revert k. induction Hs as [|y L Hs IH Hy]; intros k Hb Ha.
  - unfold ins. rewrite take_nil, drop_nil. repeat constructor.
  - destruct k as [|k].
    + unfold ins. cbn [take drop app]. constructor; [by constructor|]. constructor; [by apply (Ha 0%nat)|].
      rewrite List.Forall_forall. intros z Hz. apply list_elem_of_In, list_elem_of_lookup in Hz as [r Hz]. apply (Ha (S r)); [done|lia].
    + change (ins (S k) x (y :: L)) with (y :: ins k x L). constructor.
      * apply IH; intros r z Hz Hr; [apply (Hb (S r))|apply (Ha (S r))]; done || lia.
      * rewrite List.Forall_forall in *. intros z Hz. unfold ins in Hz. apply in_app_iff in Hz as [Hz|[<-|Hz]].
        -- apply Hy. rewrite <- (take_drop k L). apply in_app_iff. by left.
        -- apply (Hb 0%nat); [done|lia].
        -- apply Hy. rewrite <- (take_drop k L). apply in_app_iff. by right.
Qed.

Lemma sorted_app_inv A B : StronglySorted item_lt (A ++ B) -> StronglySorted item_lt A /\ StronglySorted item_lt B.
Proof.
  induction A as [|x A IH]; [by split; [constructor|]|]. cbn. intros Hs. apply StronglySorted_inv in Hs as [Hs Hx].
  apply IH in Hs as [HA HB]. split; [|done]. constructor; [done|]. by apply Forall_app in Hx as [? _].
Qed.

Lemma sorted_cut L k c : StronglySorted item_lt L -> StronglySorted item_lt (take k L ++ drop (k + c) L).
Proof.
  intros Hs. revert k. induction Hs as [|y L Hs IH Hy]; intros k; [by rewrite take_nil, drop_nil; constructor|].
  destruct k as [|k].
  - change (take 0 (y :: L) ++ drop (0 + c) (y :: L)) with (drop c (y :: L)).
    apply (sorted_app_inv (take c (y :: L))). rewrite take_drop. by constructor.
  - cbn. constructor; [apply IH|]. rewrite List.Forall_forall in *. intros z Hz. apply Hy. apply in_app_iff in Hz as [Hz|Hz].
    + rewrite <- (take_drop k L). apply in_app_iff. by left.
    + rewrite <- (take_drop (k + c) L). apply in_app_iff. by right.
Qed.

Lemma sorted_lookup L i j x y : StronglySorted item_lt L -> (i < j)%nat -> L !! i = Some x -> L !! j = Some y -> item_lt x y.
Proof.
  intros Hs. revert i j. induction Hs as [|z L Hs IH Hz]; intros i j Hij Hi Hj; [done|]. destruct j as [|j]; [lia|].
  destruct i as [|i]; [|by apply (IH i j); [lia|..]]. cbn in Hi, Hj. injection Hi as <-.
  rewrite List.Forall_forall in Hz. apply Hz. by apply list_elem_of_lookup_2, list_elem_of_In in Hj.
Qed.

(** ** Proofs: the prefix selected by a rank, and the elements between two ranks *)

Lemma filter_cut (R : item -> bool) L a b : (a <= b <= length L)%nat ->
  (forall r x, L !! r = Some x -> R x = bool_decide (a <= r < b)%nat) ->
  List.filter R L = take (b - a) (drop a L) /\ List.filter (fun x => negb (R x)) L = take a L ++ drop b L.
Proof.
  revert a b. induction L as [|x L IH]; intros a b Hab HR; [by rewrite !drop_nil, !take_nil|].
  pose proof (HR 0%nat x eq_refl) as Hx. cbn [length] in Hab. cbn [List.filter]. destruct a as [|a].
  - destruct b as [|b].
    + rewrite bool_decide_false in Hx by lia. rewrite Hx. cbn [negb].
      destruct (IH 0%nat 0%nat) as [-> ->]; [lia| |done]. intros r y Hy. rewrite (HR (S r) y Hy). apply bool_decide_ext. lia.
    + rewrite bool_decide_true in Hx by lia. rewrite Hx. cbn [negb].
      destruct (IH 0%nat b) as [-> ->]; [lia| |by rewrite !Nat.sub_0_r].
      intros r y Hy. rewrite (HR (S r) y Hy). apply bool_decide_ext. lia.
  - destruct b as [|b]; [lia|]. rewrite bool_decide_false in Hx by lia. rewrite Hx. cbn [negb].
    destruct (IH a b) as [-> ->]; [lia| |done]. intros r y Hy. rewrite (HR (S r) y Hy). apply bool_decide_ext. lia.
Qed.

(** The items that are not below one end and not above the other. *)
Lemma filter_between L P Q : StronglySorted item_lt L -> mono L P -> mono L Q ->
  let a := cnt P L in let b := Nat.max a (cnt Q L) in
  List.filter (fun x => negb (P x) && Q x) L = take (b - a) (drop a L) /\
  List.filter (fun x => negb (negb (P x) && Q x)) L = take a L ++ drop b L.
Proof.
  intros Hs HP HQ a b. pose proof (cnt_le P L). pose proof (cnt_le Q L).
  apply filter_cut; [subst a b; lia|]. intros r x Hx.
  rewrite (cnt_spec P L Hs HP r x Hx), (cnt_spec Q L Hs HQ r x Hx). do 3 case_bool_decide; cbn; done || lia.
Qed.

Lemma cut_all {A} (L : list A) k : take k L ++ drop k L = L.
Proof. apply take_drop. Qed.

Section DeleteLoop.
Context `{Libc} {D : Type} (dictDelete : D -> robj -> D).

(** The deletion of [c] consecutive nodes. *)
Lemma delete_loop_ok (more : cond) c : forall fuel m zsl L k d ups tr rm,
  skel m zsl L -> (length L < SKIPLIST_LIMIT)%nat -> dups_ok zsl L k ups -> (k + c <= length L)%nat -> (c <= fuel)%nat ->
  (forall j x n, (j <= c)%nat -> L !! (k + j)%nat = Some x -> obj n = Some (iob x) -> score n = isc x ->
     more n (uwrap 64 (tr + Z.of_nat j)) = Some (bool_decide (j < c)%nat)) -> uwrap 64 tr = tr ->
  0 <= rm -> rm + Z.of_nat c < 2 ^ 64 ->
  exists m' zsl', delete_loop dictDelete fuel more m zsl d ups (iid <$> L !! k) tr rm =
      Some (m', zsl', foldl dictDelete d (map iob (take c (drop k L))), rm + Z.of_nat c) /\
    skel m' zsl' (take k L ++ drop (k + c) L) /\ header zsl' = header zsl.
Proof.
  induction c as [|c IH]; intros fuel m zsl L k d ups tr rm Sk Hlim Hu Hk Hf Hmore Htr Hrm Hrm2.
  - rewrite Nat.add_0_r, cut_all, take_0. cbn [map foldl]. exists m, zsl.
    replace (rm + Z.of_nat 0) with rm by lia. split; [|done]. destruct (L !! k) as [x|] eqn:Hx; cbn [fmap option_fmap option_map].
    + destruct (item_node m zsl L Sk k x Hx) as (n & Hn & Ho & Hs & _).
      pose proof (Hmore 0%nat x n ltac:(lia) ltac:(by rewrite Nat.add_0_r) Ho Hs) as Hm.
      rewrite Z.add_0_r, Htr in Hm. destruct fuel; cbn [delete_loop]; rewrite Hn; cbn [mbind option_bind]; by rewrite Hm.
    + by destruct fuel.
  - destruct (lookup_lt_is_Some_2 L k) as [x Hx]; [lia|]. rewrite Hx. cbn [fmap option_fmap option_map].
    destruct fuel as [|fuel]; [lia|]. destruct (item_node m zsl L Sk k x Hx) as (n & Hn & Ho & Hs & _ & Hh).
    pose proof (Hmore 0%nat x n ltac:(lia) ltac:(by rewrite Nat.add_0_r) Ho Hs) as Hm.
    rewrite Z.add_0_r, Htr, bool_decide_true in Hm by lia. cbn [delete_loop]. rewrite Hn. cbn [mbind option_bind].
    rewrite Hm. cbn [mbind option_bind].
    pose proof (proj1 (Forall_lookup _ _) (sk_items _ _ _ Sk) k x Hx) as (_ & _ & Hpos).
    pose proof (sk_links _ _ _ Sk (S k) (iid x) 0) as Hl. cbn [rank_id height_at] in Hl. rewrite Hx in Hl.
    specialize (Hl eq_refl ltac:(cbn; lia)). pose proof (sk_level _ _ _ Sk). pose proof (top_pos L).
    specialize (Hl ltac:(lia)). unfold get_level in Hl. rewrite Hn in Hl. cbn [mbind option_bind] in Hl. rewrite Hl. cbn [mbind option_bind].
    destruct (delete_node_ok m zsl L k x ups Sk Hx Hlim Hu) as (m' & zsl' & -> & Sk' & Hu' & Hh' & _). cbn [mbind option_bind].
    rewrite Ho. cbn [mbind option_bind forward].
    assert (nfwd 0 (drop (S k) L) = iid <$> del k L !! k) as ->.
    { rewrite del_lookup by lia. rewrite decide_False by lia. destruct (L !! S k) as [y|] eqn:Hy.
      - rewrite (drop_S L y (S k) Hy). cbn [nfwd fmap option_fmap option_map].
        destruct (proj1 (Forall_lookup _ _) (sk_items _ _ _ Sk) _ y Hy) as (_ & _ & ?). by destruct (Nat.ltb_spec 0 (ih y)); [|lia].
      - by rewrite drop_ge by (by apply lookup_ge_None). }
    assert (length (del k L) = (length L - 1)%nat) as Hdl by (unfold del; rewrite length_app, length_take, length_drop; lia).
    assert (drop k (del k L) = drop (S k) L) as Hdd
      by (unfold del; rewrite drop_app_ge, length_take, Nat.min_l by (rewrite ?length_take; lia); by rewrite Nat.sub_diag).
    destruct (IH fuel (delete (iid x) m') zsl' (del k L) k (dictDelete d (iob x)) ups (uwrap 64 (tr + 1)) (rm + 1))
      as (m2 & zsl2 & E & Sk2 & Hh2); try lia; try done.
    { intros j y n' Hj Hy Ho' Hs'. rewrite del_lookup in Hy by lia. rewrite decide_False in Hy by lia.
      replace (uwrap 64 (uwrap 64 (tr + 1) + Z.of_nat j)) with (uwrap 64 (tr + Z.of_nat (S j))).
      - rewrite (Hmore (S j) y n'); [f_equal; apply bool_decide_ext; lia|lia|by rewrite Nat.add_succ_r|done|done].
      - unfold uwrap. rewrite Zplus_mod_idemp_l. f_equal. lia. }
    { unfold uwrap. by rewrite Zmod_mod. }
    assert (take (S c) (drop k L) = x :: take c (drop (S k) L)) as Htd by (by rewrite (drop_S L x k Hx)).
    rewrite (u64_small (rm + 1)) by lia. unfold zslFreeNode. rewrite E. exists m2, zsl2. rewrite Hdd, Htd. cbn [map foldl].
    split_and!; [replace (rm + Z.of_nat (S c)) with (rm + 1 + Z.of_nat c) by lia; done| |congruence].
    replace (take k L ++ drop (k + S c) L) with (take k (del k L) ++ drop (k + c) (del k L)); [done|].
    f_equal.
    + unfold del. rewrite take_app_le by (rewrite length_take; lia). rewrite take_take. f_equal. lia.
    + rewrite <- drop_drop, Hdd, drop_drop. f_equal. lia.
Qed.

End DeleteLoop.

(** ** Proofs: searches by rank *)

Section Ranks.
Context `{Libc} (m : gmap nat zskiplistNode) (zsl : zskiplist) (L : list item) (Sk : skel m zsl L).
Context (Hlim : (length L < SKIPLIST_LIMIT)%nat).

(** [b] tells whether there is an element whose text is the text of [o]; if there is, it
    is the one of rank [k]. *)
Lemma rank_descend_ok c o k b : sel m L c k -> (k <= length L)%nat -> robj_ok o ->
  (forall r x, L !! r = Some x -> bool_decide (otext (iob x) = otext o) = b && bool_decide (S r = k)) ->
  (b = true -> (1 <= k)%nat) ->
  forall n r a, (n <= zslevel zsl)%nat -> rank_id (header zsl) L r = Some a -> (r <= k)%nat ->
  (n = 0%nat \/ n <= height_at L r)%nat -> (b = true -> (1 <= n)%nat) ->
  rank_descend m c o n a (Z.of_nat r) = Some (if b then Z.of_nat k else 0).
Proof.
  intros Hsel Hk Ho Hb Hbk n. induction n as [|n IH]; intros r a Hn Ha Hr Hh Hbn; cbn [rank_descend].
  { destruct b; [specialize (Hbn eq_refl); lia|done]. }
  destruct (zsl_walk_ok m zsl L Sk 64 c n k Hsel Hk Hlim ltac:(lia) Hn (size m) r a Ha Hr) as (r1 & a1 & -> & Ha1 & Hst & Hle);
    [lia|pose proof (memory_size m zsl L Sk); lia|]. cbn [mbind option_bind].
  assert (n = 0%nat -> r1 = k) as H0 by (intros ->; by apply (stop_zero m zsl L Sk)).
  pose proof Hst as (Hr1 & Hh1 & _).
  assert (forall found : bool, found = (b && bool_decide (r1 = k)) ->
    (if found then Some (Z.of_nat r1) else rank_descend m c o n a1 (Z.of_nat r1)) = Some (if b then Z.of_nat k else 0)) as G.
  { intros found ->. destruct b; cbn [andb].
    - destruct (decide (r1 = k)) as [->|Hne]; [by rewrite bool_decide_true|]. rewrite bool_decide_false by done.
      apply IH; [lia|done|done|right; lia|lia].
    - apply IH; [lia|done|done|right; lia|done]. }
  destruct r1 as [|r1].
  - cbn in Ha1. injection Ha1 as <-. destruct (sk_header _ _ _ Sk) as [s Hi].
    apply info_lookup in Hi as (nd & Hnd & Ho1 & _). rewrite Hnd. cbn [mbind option_bind]. rewrite Ho1. apply (G false).
    destruct b; [|done]. specialize (Hbk eq_refl). by rewrite bool_decide_false by lia.
  - cbn in Ha1. destruct (L !! r1) as [x|] eqn:Hx; [|done]. injection Ha1 as <-.
    destruct (item_node m zsl L Sk r1 x Hx) as (nd & Hnd & Ho1 & _). rewrite Hnd. cbn [mbind option_bind]. rewrite Ho1.
    rewrite equalStringObjects_ok; [|apply (proj1 (Forall_lookup _ _) (sk_items _ _ _ Sk) r1 x Hx)|done].
    apply (G (bool_decide _)). by apply Hb.
Qed.

Lemma element_descend_ok k rank : (k <= length L)%nat -> k = Nat.min rank (length L) ->
  forall n r a, (n <= zslevel zsl)%nat -> rank_id (header zsl) L r = Some a -> (r <= k)%nat ->
  (n = 0%nat \/ n <= height_at L r)%nat -> (rank = k -> (1 <= n)%nat) ->
  element_descend m (Z.of_nat rank) n a (Z.of_nat r) = Some (if decide (rank = k) then rank_id (header zsl) L k else None).
Proof.
  intros Hk Hrk n. induction n as [|n IH]; intros r a Hn Ha Hr Hh Hbn; cbn [element_descend].
  { destruct (decide (rank = k)) as [E|]; [specialize (Hbn E); lia|done]. }
  assert (sel m L (fun _ t => Some (t <=? Z.of_nat rank)) k) as Hsel.
  { intros r' x nd Hx _. f_equal. apply lookup_lt_Some in Hx. case_bool_decide; [apply Z.leb_le|apply Z.leb_gt]; lia. }
  destruct (zsl_walk_ok m zsl L Sk 64 _ n k Hsel Hk Hlim ltac:(lia) Hn (size m) r a Ha Hr) as (r1 & a1 & -> & Ha1 & Hst & Hle);
    [lia|pose proof (memory_size m zsl L Sk); lia|]. cbn [mbind option_bind].
  assert (n = 0%nat -> r1 = k) as H0 by (intros ->; by apply (stop_zero m zsl L Sk)).
  pose proof Hst as (Hr1 & Hh1 & _).
  destruct (Z.eqb_spec (Z.of_nat r1) (Z.of_nat rank)) as [E|Hne].
  - assert (rank = k) as Ek by lia. rewrite decide_True by done. f_equal. rewrite <- Ha1. f_equal. lia.
  - apply IH; [lia|done|done|right; lia|lia].
Qed.

(** A search by a condition: the node after the walk, and the node where it ends. *)
Lemma zsl_search_ok w c k : sel m L c k -> (k <= length L)%nat -> 32 <= w ->
  exists ups, descend w m c (zslevel zsl) (header zsl) 0 [] = Some ups /\ ups_ok zsl L k ups /\
    next0 m ups = Some (iid <$> L !! k) /\
    exists u, ups !! 0%nat = Some (u, Z.of_nat k) /\ rank_id (header zsl) L k = Some u.
Proof.
  intros Hsel Hk Hw. destruct (top_descend_ok m zsl L Sk w c k Hsel Hk Hlim Hw) as (ups & E & Hu). exists ups.
  split_and!; [done|done|by apply (next0_ok m zsl L Sk)|by apply (ups_zero m zsl L Sk)].
Qed.

End Ranks.

(** ** Proofs: the searches and deletions of a range of elements *)

Section RangeOps.
Context (m : gmap nat zskiplistNode) (zsl : zskiplist) (L : list item) (Sk : skip_ok m zsl L).
Context (P Q : item -> bool) (HP : mono L P) (HQ : mono L Q).
Context (c1 c2 : cond).
Context (Hc1 : forall x n z, In x L -> obj n = Some (iob x) -> score n = isc x -> c1 n z = Some (P x)).
Context (Hc2 : forall x n z, In x L -> obj n = Some (iob x) -> score n = isc x -> c2 n z = Some (Q x)).
Abbreviation R := (fun x => negb (P x) && Q x).

Lemma in_lookup r x : L !! r = Some x -> In x L.
Proof. intros Hx. by apply list_elem_of_lookup_2, list_elem_of_In in Hx. Qed.

Lemma range_search : exists ups, descend 64 m c1 (zslevel zsl) (header zsl) 0 [] = Some ups /\
  ups_ok zsl L (cnt P L) ups /\ next0 m ups = Some (iid <$> L !! cnt P L) /\
  exists u, ups !! 0%nat = Some (u, Z.of_nat (cnt P L)) /\ rank_id (header zsl) L (cnt P L) = Some u.
Proof.
  destruct Sk as (Sk' & Hs & Hlim). apply (zsl_search_ok m zsl L Sk' Hlim); [|apply cnt_le|done].
  by apply (sel_cnt m zsl).
Qed.

(** The head of the elements in the range. *)
Lemma first_of : match L !! cnt P L with
  | Some x => P x = false /\ hd_error (List.filter R L) = if Q x then Some x else None
  | None => List.filter R L = []
  end.
Proof.
  destruct Sk as (Sk' & Hs & Hlim). destruct (filter_between L P Q Hs HP HQ) as [-> _].
  destruct (L !! cnt P L) as [x|] eqn:Hx.
  - rewrite (cnt_spec P L Hs HP _ x Hx), (cnt_spec Q L Hs HQ _ x Hx). rewrite bool_decide_false by lia.
    rewrite (drop_S L x _ Hx). split; [done|]. case_bool_decide as E.
    + by replace (Nat.max (cnt P L) (cnt Q L) - cnt P L)%nat with (S (cnt Q L - cnt P L - 1)) by lia.
    + by replace (Nat.max (cnt P L) (cnt Q L) - cnt P L)%nat with 0%nat by lia.
  - rewrite drop_ge by (by apply lookup_ge_None). by rewrite take_nil.
Qed.

(** The last of the elements in the range. *)
Lemma last_of : match cnt Q L with
  | O => List.filter R L = []
  | S b => exists x, L !! b = Some x /\ last (List.filter R L) = if negb (P x) then Some x else None
  end.
Proof.
  destruct Sk as (Sk' & Hs & Hlim). destruct (filter_between L P Q Hs HP HQ) as [-> _].
  destruct (cnt Q L) as [|b] eqn:Eb; [by replace (Nat.max (cnt P L) 0 - cnt P L)%nat with 0%nat by lia|].
  pose proof (cnt_le Q L) as Hle. destruct (lookup_lt_is_Some_2 L b) as [x Hx]; [lia|]. exists x. split; [done|].
  rewrite (cnt_spec P L Hs HP _ x Hx). case_bool_decide as E; cbn [negb].
  - by replace (Nat.max (cnt P L) (S b) - cnt P L)%nat with 0%nat by lia.
  - rewrite last_lookup, length_take, length_drop.
    rewrite lookup_take_lt by lia. rewrite lookup_drop. rewrite <- Hx. f_equal. lia.
Qed.

(** The search from below finds the first element that is not below the range, ... *)
Lemma first_in_ok z : last L = Some z -> P z = false ->
  exists ups x n, descend 64 m c1 (zslevel zsl) (header zsl) 0 [] = Some ups /\ next0 m ups = Some (Some (iid x)) /\
    m !! iid x = Some n /\ obj n = Some (iob x) /\ score n = isc x /\ In x L /\
    hd_error (List.filter R L) = if Q x then Some x else None.
Proof.
  intros Hz Hp. destruct range_search as (ups & E & _ & Hn & _). pose proof first_of as Hf. destruct Sk as (Sk' & Hs & Hlim).
  assert (cnt P L < length L)%nat as Hlt.
  { rewrite last_lookup in Hz. pose proof (lookup_lt_Some _ _ _ Hz).
    rewrite (cnt_spec P L Hs HP _ z Hz) in Hp. apply bool_decide_eq_false in Hp. lia. }
  apply lookup_lt_is_Some_2 in Hlt as [x Hx]. rewrite Hx in Hn, Hf.
  destruct (item_node m zsl L Sk' _ x Hx) as (n & Hm & Ho & Hsc & _).
  exists ups, x, n. split_and!; try done; [by eapply in_lookup|apply Hf].
Qed.

(** ... and the search from above ends at the last one that is not above it. *)
Lemma last_in_ok z : L !! 0%nat = Some z -> Q z = true ->
  exists ups x rk n, descend 64 m c2 (zslevel zsl) (header zsl) 0 [] = Some ups /\ ups !! 0%nat = Some (iid x, rk) /\
    m !! iid x = Some n /\ obj n = Some (iob x) /\ score n = isc x /\ In x L /\
    last (List.filter R L) = if negb (P x) then Some x else None.
Proof.
  intros Hz Hq. pose proof last_of as Hl. destruct Sk as (Sk' & Hs & Hlim).
  assert (sel m L c2 (cnt Q L)) as Hsel by (by apply (sel_cnt m zsl)).
  destruct (zsl_search_ok m zsl L Sk' Hlim 64 c2 _ Hsel (cnt_le Q L) ltac:(lia)) as (ups & E & _ & _ & u & Eu & Hu).
  rewrite (cnt_spec Q L Hs HQ _ z Hz) in Hq. apply bool_decide_eq_true in Hq.
  destruct (cnt Q L) as [|b]; [lia|]. destruct Hl as (x & Hx & Hl). cbn [rank_id] in Hu. rewrite Hx in Hu. injection Hu as <-.
  destruct (item_node m zsl L Sk' _ x Hx) as (n & Hm & Ho & Hsc & _).
  exists ups, x, (Z.of_nat (S b)), n. split_and!; try done. by eapply in_lookup.
Qed.

Context `{Libc} {D : Type} (dictDelete : D -> robj -> D).

Lemma delete_range_ok d : exists ups, descend 64 m c1 (zslevel zsl) (header zsl) 0 [] = Some ups /\
  exists x, next0 m ups = Some x /\
  exists m' zsl', delete_loop dictDelete (size m) c2 m zsl d ups x 0 0 =
    Some (m', zsl', foldl dictDelete d (map iob (List.filter R L)), zlen (List.filter R L)) /\
    skip_ok m' zsl' (List.filter (fun x => negb (R x)) L).
Proof.
  destruct range_search as (ups & E & Hu & Hn & _). exists ups. split; [done|]. eexists. split; [done|].
  destruct Sk as (Sk' & Hs & Hlim). destruct (filter_between L P Q Hs HP HQ) as [F1 F2]. rewrite F1, F2.
  set (a := cnt P L) in *. pose proof (cnt_le P L). pose proof (cnt_le Q L). set (b := Nat.max a (cnt Q L)) in *.
  pose proof (memory_size m zsl L Sk'). unfold SKIPLIST_LIMIT in Hlim.
  destruct (delete_loop_ok dictDelete c2 (b - a) (size m) m zsl L a d ups 0 0) as (m' & zsl' & Ed & Sk2 & _);
    try done; try lia; [by apply ups_dups| |].
  { intros j y n Hj Hy Ho Hsc. rewrite (Hc2 y n) by (done || by apply in_lookup in Hy). f_equal.
    rewrite (cnt_spec Q L Hs HQ _ y Hy). apply bool_decide_ext. lia. }
  exists m', zsl'. split.
  - rewrite Ed. do 2 f_equal. unfold zlen. rewrite length_take, length_drop. lia.
  - replace (a + (b - a))%nat with b in Sk2 by lia. split; [done|]. split.
    + replace b with (a + (b - a))%nat by lia. by apply sorted_cut.
    + unfold SKIPLIST_LIMIT. rewrite length_app, length_take, length_drop. lia.
Qed.

End RangeOps.

End SkiplistFacts.
