(* ===== verification/SkiplistThms.v ===== *)
(** * Theorems on the skiplist *)

From Stdlib Require Import Sorted.
From S2P Require Import Prelude Util Robj Skiplist SkiplistFacts.

Module SkiplistThms.
Import SkiplistSpec SkiplistFacts.

(** ** Specification *)

Definition in_range (range : zrangespec) (x : item) : bool :=
  zslValueGteMin (isc x) range && zslValueLteMax (isc x) range.

Definition range_ok (range : zrangespec) : Prop := isnan (rmin range) = false /\ isnan (rmax range) = false.

(** The number of draws before one stops the loop of zslRandomLevel. *)
Definition goes_up (random : nat -> Z) (r : nat) : bool := 4 * Z.land (random r) 0xFFFF <? 0xFFFF.

(** An element bound or compared with [value] in the lexicographic order, where the
    shared strings are the ends. *)
Definition lex_le (a b : robj) (strict : bool) : bool :=
  match a, b with
  | MinString, _ | _, MaxString => true
  | MaxString, _ | _, MinString => false
  | _, _ => if strict then slt (otext a) (otext b) else negb (slt (otext b) (otext a))
  end.

Definition in_lex_range (range : zlexrangespec) (x : item) : bool :=
  lex_le (lmin range) (iob x) (lminex range) && lex_le (iob x) (lmax range) (lmaxex range).

(** The elements of a set are raw or integer strings. *)
Definition plain (o : robj) : Prop := o <> MinString /\ o <> MaxString.

(** ** Proofs *)

Lemma insert_pos_unique sc o L : isnan sc = false -> Forall item_ok L -> StronglySorted item_lt L ->
  (forall x, In x L -> same_key sc o x = false) ->
  (forall r y, L !! r = Some y -> (r < cnt (before sc o) L)%nat -> key_lt (isc y) (iob y) sc o) /\
  (forall r y, L !! r = Some y -> (cnt (before sc o) L <= r)%nat -> key_lt sc o (isc y) (iob y)).
Proof.
  intros Hsc Hok Hs Hn. pose proof (cnt_spec (before sc o) L Hs (before_mono_all sc o L Hsc Hok)) as Hc.
  split; intros r y Hy Hr; specialize (Hc r y Hy).
  - rewrite bool_decide_true in Hc by lia. by apply before_key.
  - rewrite bool_decide_false in Hc by lia. pose proof (in_lookup _ _ _ Hy) as Hin.
    destruct (key_cases sc o y Hsc) as [Hb|[Hk|?]]; [|congruence|rewrite Hn in Hk; done|done].
    by apply (proj1 (Forall_lookup _ _) Hok r).
Qed.

Section Thms.
Context `{Libc}.

Lemma before_cond sc o L : isnan sc = false -> robj_ok o -> Forall item_ok L ->
  forall x n z, In x L -> obj n = Some (iob x) -> score n = isc x -> node_before sc o n z = Some (before sc o x).
Proof.
  intros Hsc Ho Hok x n z Hin Eo Es. rewrite List.Forall_forall in Hok. destruct (Hok x Hin) as (_ & Hox & _).
  unfold node_before, before. rewrite Eo, Es. cbn [mbind option_bind].
  destruct (dlt (isc x) sc); [done|]. destruct (deq (isc x) sc); [|done]. cbn [orb andb].
  destruct (compareStringObjects_ok (iob x) o Hox Ho) as (c & -> & Hc & _). cbn [mbind option_bind]. f_equal.
  apply eq_bool_prop_intro. by rewrite !Is_true_true, Z.ltb_lt.
Qed.

Lemma before_search m zsl L w sc o : skip_ok m zsl L -> isnan sc = false -> robj_ok o -> 32 <= w ->
  exists ups, descend w m (node_before sc o) (zslevel zsl) (header zsl) 0 [] = Some ups /\
    ups_ok zsl L (cnt (before sc o) L) ups /\ next0 m ups = Some (iid <$> L !! cnt (before sc o) L).
Proof.
  intros (Sk & Hs & Hlim) Hsc Ho Hw. pose proof (sk_items _ _ _ Sk) as Hok.
  destruct (zsl_search_ok m zsl L Sk Hlim w (node_before sc o) (cnt (before sc o) L)) as (ups & ? & ? & ? & _);
    [|apply cnt_le|done|by exists ups].
  apply (sel_cnt m zsl); [done|done|by apply before_mono_all|by apply before_cond].
Qed.

Lemma random_loop_ok random n : forall fuel r l, (n <= fuel)%nat ->
  (forall j, (j < n)%nat -> goes_up random (r + j) = true) -> goes_up random (r + n) = false ->
  0 <= l -> l + Z.of_nat n < 2 ^ 31 ->
  random_loop random fuel r l = Some (l + Z.of_nat n, S (r + n)).
Proof.
  induction n as [|n IH]; intros fuel r l Hf Hj Hn Hl Hl2.
  - rewrite Nat.add_0_r in *. unfold goes_up in Hn. destruct fuel; cbn [random_loop]; rewrite Hn; do 2 f_equal; lia.
  - destruct fuel as [|fuel]; [lia|]. cbn [random_loop]. pose proof (Hj 0%nat ltac:(lia)) as H0. rewrite Nat.add_0_r in H0.
    unfold goes_up in H0. rewrite H0. rewrite s32_small by lia.
    rewrite (IH fuel (S r) (l + 1)); try lia.
    + do 2 f_equal; lia.
    + intros j Hlt. rewrite <- (Hj (S j)) by lia. f_equal. lia.
    + rewrite <- Hn. f_equal. lia.
Qed.

Lemma random_level_ok random n fuel r : (n <= fuel)%nat -> Z.of_nat n < 2 ^ 31 - 1 ->
  (forall j, (j < n)%nat -> goes_up random (r + j) = true) -> goes_up random (r + n) = false ->
  zslRandomLevel random fuel r = Some (Nat.min (S n) ZSKIPLIST_MAXLEVEL, S (r + n)).
Proof.
  intros Hf Hl Hj Hn. unfold zslRandomLevel. rewrite (random_loop_ok random n) by (done || lia).
  cbn [mbind option_bind]. do 2 f_equal. unfold ZSKIPLIST_MAXLEVEL. zcase; lia.
Qed.

(** The insertion, whatever the level. *)
Lemma insert_step malloc junk_level junk_ptr random fuel r m zsl L sc o lv r' :
  (forall m : gmap nat zskiplistNode, m !! malloc m = None) ->
  skip_ok m zsl L -> (S (length L) < SKIPLIST_LIMIT)%nat -> isnan sc = false -> robj_ok o ->
  (forall x, In x L -> same_key sc o x = false) ->
  zslRandomLevel random fuel r = Some (lv, r') -> (1 <= lv <= ZSKIPLIST_MAXLEVEL)%nat ->
  exists m' zsl' x, zslInsert malloc junk_level junk_ptr random fuel r m zsl sc o = Some (m', zsl', x, r') /\
    skip_ok m' zsl' (ins (cnt (before sc o) L) (Item x sc o lv) L).
Proof.
  intros Hm Hsk Hlen Hsc Ho Hn Hr Hlv. destruct (before_search m zsl L 32 sc o Hsk Hsc Ho ltac:(lia)) as (ups & E & Hu & _).
  destruct Hsk as (Sk & Hs & Hlim). pose proof (cnt_le (before sc o) L) as Hle.
  destruct (insert_node_ok malloc junk_level junk_ptr Hm m zsl L (cnt (before sc o) L) lv ups sc o Sk Hle Hlen Hlv Hsc Ho Hu)
    as (m' & zsl' & x & Ei & Sk').
  exists m', zsl', x. split.
  - unfold zslInsert. rewrite Hsc. cbn [negb cassert mbind option_bind]. rewrite E. cbn [mbind option_bind].
    rewrite Hr. cbn [mbind option_bind]. rewrite Ei. done.
  - destruct (insert_pos_unique sc o L Hsc (sk_items _ _ _ Sk) Hs Hn) as [Hb Ha]. split; [done|]. split.
    + by apply sorted_ins.
    + unfold ins. rewrite length_app, length_take. cbn. rewrite length_drop. lia.
Qed.

(** Only the first element that is not before a key can have it. *)
Lemma same_unique L sc o r x : isnan sc = false -> Forall item_ok L -> StronglySorted item_lt L ->
  L !! r = Some x -> same_key sc o x = true -> r = cnt (before sc o) L.
Proof.
  intros Hsc Hok Hs Hx Hk. pose proof (cnt_spec (before sc o) L Hs (before_mono_all sc o L Hsc Hok)) as Hc.
  set (k := cnt (before sc o) L) in *. pose proof (proj1 (Forall_lookup _ _) Hok r x Hx) as Hox.
  destruct (Nat.lt_trichotomy r k) as [Hlt|[?|Hgt]]; [exfalso|done|exfalso].
  - specialize (Hc r x Hx). rewrite bool_decide_true in Hc by done. apply same_not_before in Hk; [congruence|done|done].
  - destruct (lookup_lt_is_Some_2 L k) as [y Hy]; [apply lookup_lt_Some in Hx; lia|].
    pose proof (Hc k y Hy) as Hb. rewrite bool_decide_false in Hb by lia.
    pose proof (proj1 (Forall_lookup _ _) Hok k y Hy) as (Hny & _). destruct Hox as (Hnx & _).
    assert (key_lt (isc y) (iob y) sc o) as Hkl; [|apply before_key in Hkl; congruence].
    pose proof (sorted_lookup L k r y x Hs Hgt Hy Hx) as Hyx. unfold same_key in Hk.
    apply andb_true_iff in Hk as [Hd Ht]. apply bool_decide_eq_true in Ht. unfold item_lt, key_lt in *. rewrite Ht in Hyx.
    rewrite (dlt_deq_r (isc x) sc (isc y)) in Hyx by done. destruct Hyx as [?|[Hd2 ?]]; [by left|right].
    split; [by apply deq_trans with (isc x)|done].
Qed.

(** The element a deletion finds, or not. *)
Lemma same_filter L sc o : isnan sc = false -> Forall item_ok L -> StronglySorted item_lt L ->
  let k := cnt (before sc o) L in
  match L !! k with
  | Some x => if same_key sc o x
      then existsb (same_key sc o) L = true /\ List.filter (fun x => negb (same_key sc o x)) L = del k L
      else existsb (same_key sc o) L = false
  | None => existsb (same_key sc o) L = false
  end.
Proof.
  intros Hsc Hok Hs k. pose proof (fun r x => same_unique L sc o r x Hsc Hok Hs) as Hu. fold k in Hu.
  assert ((forall x, L !! k = Some x -> same_key sc o x = false) -> existsb (same_key sc o) L = false) as Hno.
  { intros Hf. apply not_true_iff_false. rewrite existsb_exists. intros (x & Hx & Hk).
    apply list_elem_of_In, list_elem_of_lookup in Hx as [r Hr]. pose proof (Hu r x Hr Hk) as ->. rewrite Hf in Hk; done. }
  destruct (L !! k) as [x|] eqn:Hx; [|by apply Hno]. destruct (same_key sc o x) eqn:E.
  - split; [apply existsb_exists; exists x; split; [by apply (in_lookup L k)|done]|].
    pose proof (lookup_lt_Some _ _ _ Hx). destruct (filter_cut (same_key sc o) L k (S k)) as [_ ->]; [lia| |done].
    intros r y Hy. destruct (same_key sc o y) eqn:Ey.
    + by rewrite (Hu r y Hy Ey), bool_decide_true by lia.
    + rewrite bool_decide_false; [done|]. intros Hr. replace r with k in Hy by lia. congruence.
  - apply Hno. intros y [= <-]. done.
Qed.

(** *** Ranges *)

Lemma score_le_trans a b c : isnan a = false -> isnan b = false -> isnan c = false ->
  dlt a b = true \/ deq a b = true -> dlt b c = true -> dlt a c = true.
Proof. intros Ha Hb Hc [Hl|Hd] Hc'; [by apply dlt_trans with b|by rewrite (dlt_deq_l a b c)]. Qed.

Lemma score_lt_le_trans a b c : isnan a = false -> isnan b = false -> isnan c = false ->
  dlt a b = true -> dlt b c = true \/ deq b c = true -> dlt a c = true.
Proof. intros Ha Hb Hc Hl [Hd|Hd]; [by apply dlt_trans with b|by rewrite <- (dlt_deq_r b c a)]. Qed.

Lemma item_lt_score x y : item_lt x y -> dlt (isc x) (isc y) = true \/ deq (isc x) (isc y) = true.
Proof. intros [?|[? _]]; auto. Qed.

Lemma gte_mono L range : Forall item_ok L -> range_ok range -> mono L (fun x => negb (zslValueGteMin (isc x) range)).
Proof.
  intros Hok [Hn _] x y Hx Hy Hxy. rewrite List.Forall_forall in Hok. destruct (Hok x Hx) as (Hnx & _), (Hok y Hy) as (Hny & _).
  apply item_lt_score in Hxy. unfold zslValueGteMin. destruct (minex range).
  - rewrite !negb_true_iff. intros Hf. apply not_true_iff_false. intros Ht.
    rewrite (score_lt_le_trans (rmin range) (isc x) (isc y)) in Hf; done.
  - rewrite !dle_dlt, !negb_involutive by done. by apply score_le_trans.
Qed.

Lemma lte_mono L range : Forall item_ok L -> range_ok range -> mono L (fun x => zslValueLteMax (isc x) range).
Proof.
  intros Hok [_ Hn] x y Hx Hy Hxy. rewrite List.Forall_forall in Hok. destruct (Hok x Hx) as (Hnx & _), (Hok y Hy) as (Hny & _).
  apply item_lt_score in Hxy. unfold zslValueLteMax. destruct (maxex range).
  - by apply score_le_trans.
  - rewrite !dle_dlt, !negb_true_iff by done. intros Hf. apply not_true_iff_false. intros Ht.
    rewrite (score_lt_le_trans (rmax range) (isc x) (isc y)) in Hf; done.
Qed.

(** The quick tests find only empty ranges empty. *)
Lemma in_range_empty x range : isnan (isc x) = false -> range_ok range ->
  dlt (rmax range) (rmin range) || (deq (rmin range) (rmax range) && (minex range || maxex range)) = true ->
  in_range range x = false.
Proof.
  intros Hx [Hn Hm] Ht. apply not_true_iff_false. unfold in_range, zslValueGteMin, zslValueLteMax.
  rewrite andb_true_iff. intros [H1 H2]. apply orb_true_iff in Ht.
  assert (dle (rmin range) (isc x) = true /\ dle (isc x) (rmax range) = true) as [L1 L2].
  { rewrite !dle_dlt, !negb_true_iff by done. split.
    - destruct (minex range); [by apply dlt_asym|]. rewrite dle_dlt in H1 by done. by apply negb_true_iff.
    - destruct (maxex range); [by apply dlt_asym|]. rewrite dle_dlt in H2 by done. by apply negb_true_iff. }
  rewrite dle_dlt, negb_true_iff in L1, L2 by done. destruct Ht as [Ht|Ht].
  - destruct (dcmp_cases (isc x) (rmin range)) as [?|[Hd|Hl]]; [done|done|congruence| |].
    + rewrite (dlt_deq_r (isc x) (rmin range) (rmax range)) in L2 by done. congruence.
    + rewrite (dlt_trans (rmax range) (rmin range) (isc x)) in L2; done.
  - apply andb_true_iff in Ht as [Hd He]. destruct (minex range).
    + rewrite (dlt_deq_l (rmin range) (rmax range) (isc x)) in H1 by done. congruence.
    + cbn in He. rewrite He in H2. rewrite <- (dlt_deq_r (rmin range) (rmax range) (isc x)) in H2 by done. congruence.
Qed.

Lemma filter_nil_all (R : item -> bool) L : (forall x, In x L -> R x = false) -> List.filter R L = [].
Proof. induction L as [|x L IH]; intros HR; [done|]. cbn. rewrite (HR x) by by left. apply IH. intros y Hy. apply HR. by right. Qed.

(** The first and the last nodes. *)
Lemma first_node m zsl L : skip_ok m zsl L ->
  exists s, get_level m (header zsl) 0 = Some (Level (iid <$> L !! 0%nat) s).
Proof.
  intros (Sk & _). pose proof (top_pos L). pose proof (sk_level _ _ _ Sk).
  rewrite (sk_links _ _ _ Sk 0 (header zsl) 0) by (done || (cbn; unfold ZSKIPLIST_MAXLEVEL; lia)). eexists.
  do 2 f_equal. destruct L as [|x L]; [done|].
  change (drop 0 (x :: L)) with (x :: L). cbn [nfwd]. pose proof (sk_items _ _ _ Sk) as Hok.
  apply Forall_cons in Hok as [(_ & _ & Hx) _]. by destruct (Nat.ltb_spec 0 (ih x)); [|lia].
Qed.

Lemma mono_first L P x : StronglySorted item_lt L -> mono L P -> L !! 0%nat = Some x -> P x = false ->
  forall y, In y L -> P y = false.
Proof.
  intros Hs HP Hx Hf y Hy. apply list_elem_of_In, list_elem_of_lookup in Hy as [r Hr].
  rewrite (cnt_spec P L Hs HP r y Hr). rewrite (cnt_spec P L Hs HP 0 x Hx) in Hf.
  apply bool_decide_eq_false in Hf. apply bool_decide_false. lia.
Qed.

Lemma mono_last L P x : StronglySorted item_lt L -> mono L P -> last L = Some x -> P x = true ->
  forall y, In y L -> P y = true.
Proof.
  intros Hs HP Hx Hf y Hy. apply list_elem_of_In, list_elem_of_lookup in Hy as [r Hr]. rewrite last_lookup in Hx.
  rewrite (cnt_spec P L Hs HP r y Hr). rewrite (cnt_spec P L Hs HP _ x Hx) in Hf.
  apply lookup_lt_Some in Hr. apply bool_decide_eq_true in Hf. apply bool_decide_true. lia.
Qed.

Lemma gte_cond L range : forall x n (z : Z), In x L -> obj n = Some (iob x) -> score n = isc x ->
  Some (negb (zslValueGteMin (score n) range)) = Some (negb (zslValueGteMin (isc x) range)).
Proof. by intros x n z _ _ ->. Qed.

Lemma lte_cond L range : forall x n (z : Z), In x L -> obj n = Some (iob x) -> score n = isc x ->
  Some (zslValueLteMax (score n) range) = Some (zslValueLteMax (isc x) range).
Proof. by intros x n z _ _ ->. Qed.

Lemma filter_ext_bool (f g : item -> bool) L : (forall x, f x = g x) -> List.filter f L = List.filter g L.
Proof. intros E. induction L as [|x L IH]; [done|]. cbn. by rewrite E, IH. Qed.

Lemma in_range_split range L : List.filter (in_range range) L =
  List.filter (fun x => negb (negb (zslValueGteMin (isc x) range)) && zslValueLteMax (isc x) range) L.
Proof. apply filter_ext_bool. intros x. by rewrite negb_involutive. Qed.

Lemma isInRange_ok m zsl L range : skip_ok m zsl L -> range_ok range ->
  exists b, zslIsInRange m zsl range = Some b /\
    if b : bool then (exists x, last L = Some x /\ zslValueGteMin (isc x) range = true) /\
                     (exists x, L !! 0%nat = Some x /\ zslValueLteMax (isc x) range = true)
    else List.filter (in_range range) L = [].
Proof.
  intros Hsk Hr. pose proof Hsk as (Sk & Hs & _). pose proof (sk_items _ _ _ Sk) as Hok.
  destruct (first_node m zsl L Hsk) as [s Hfirst]. unfold zslIsInRange.
  destruct (dlt (rmax range) (rmin range) || (deq (rmin range) (rmax range) && (minex range || maxex range))) eqn:Ht.
  { exists false. split; [done|]. apply filter_nil_all. intros x Hx. rewrite List.Forall_forall in Hok.
    apply in_range_empty; [apply Hok, Hx|done|done]. }
  rewrite (sk_tail _ _ _ Sk). destruct (last L) as [x|] eqn:Hl; cbn [fmap option_fmap option_map].
  2: { exists false. apply last_None in Hl as ->. done. }
  pose proof Hl as Hl2. rewrite last_lookup in Hl2. destruct (item_node m zsl L Sk _ x Hl2) as (n & En & _ & Es & _).
  rewrite En. cbn [mbind option_bind]. rewrite Es. destruct (zslValueGteMin (isc x) range) eqn:Hg; cbn [negb].
  2: { exists false. split; [done|]. apply filter_nil_all. intros y Hy. unfold in_range. apply andb_false_iff. left.
       apply negb_true_iff. eapply (mono_last L (fun z => negb (zslValueGteMin (isc z) range))); [done|by apply gte_mono|done|by rewrite Hg|done]. }
  rewrite Hfirst. cbn [mbind option_bind forward]. destruct (L !! 0%nat) as [y|] eqn:Hf; cbn [fmap option_fmap option_map].
  2: { apply lookup_ge_None in Hf. destruct L; [done|cbn in Hf; lia]. }
  destruct (item_node m zsl L Sk _ y Hf) as (n' & En' & _ & Es' & _).
  rewrite En'. cbn [mbind option_bind]. rewrite Es'. eexists. split; [done|].
  destruct (zslValueLteMax (isc y) range) eqn:Hq; [split; by eauto|].
  apply filter_nil_all. intros z Hz. unfold in_range. apply andb_false_iff. right.
  by apply (mono_first L (fun z => zslValueLteMax (isc z) range) y); [|apply lte_mono| | |].
Qed.

Lemma init_header_ok h n : forall m j, (forall i, (j <= i < j + n)%nat -> exists l, get_level m h i = Some l) ->
  exists m', init_header m h j n = Some m' /\ (forall a, info m' a = info m a) /\
    (forall i, (j <= i < j + n)%nat -> get_level m' h i = Some (Level None 0)) /\
    (forall i, (i < j)%nat -> get_level m' h i = get_level m h i).
Proof.
  induction n as [|n IH]; intros m j Hl; cbn [init_header]; [exists m; split_and!; done || lia|].
  destruct (Hl j ltac:(lia)) as [l0 Hl0]. destruct (set_level_ok m h j (Level None 0) l0 Hl0) as (m1 & -> & E1 & E2 & E3).
  cbn [mbind option_bind]. destruct (IH m1 (S j)) as (m2 & -> & F1 & F2 & F3).
  { intros i Hi. rewrite E2 by (intros [=]; lia). apply Hl. lia. }
  exists m2. split_and!; [done|intros a; by rewrite F1|..].
  - intros i Hi. destruct (decide (i = j)) as [->|]; [rewrite F3 by lia; done|apply F2; lia].
  - intros i Hi. rewrite F3 by lia. apply E2. intros [=]; lia.
Qed.

Lemma create_list_ok malloc junk_level junk_ptr m : (forall m : gmap nat zskiplistNode, m !! malloc m = None) ->
  exists m' zsl', zslCreate malloc junk_level junk_ptr m = Some (m', zsl') /\ skip_ok m' zsl' [].
Proof.
  intros Hm. unfold zslCreate, zslCreateNode. set (h := malloc m). set (m1 := <[h := _]> m).
  assert (info m1 h = Some (None, S754_zero false, junk_ptr, ZSKIPLIST_MAXLEVEL)) as Hi
    by (unfold info, m1; by rewrite lookup_insert_eq).
  destruct (init_header_ok h ZSKIPLIST_MAXLEVEL m1 0) as (m2 & -> & F1 & F2 & _).
  { intros i Hi2. by apply get_level_some with None (S754_zero false) junk_ptr ZSKIPLIST_MAXLEVEL; [|lia]. }
  cbn [mbind option_bind]. rewrite <- F1 in Hi.
  destruct (set_backward_ok m2 h None _ _ _ _ Hi) as (m3 & -> & G1 & G2 & _). cbn [mbind option_bind].
  eexists _, _. split; [done|]. split; [|split; [constructor|cbn; unfold SKIPLIST_LIMIT; lia]].
  constructor; try done; cbn [header zslevel tail length_ rank_id height_at].
  - by exists (S754_zero false).
  - intros [|r] a i; [|done]. intros [= <-] Hi1 Hi2. cbn [height_at zslevel] in *. rewrite G1, F2 by lia. done.
  - intros i Hi1. exists 0. by rewrite G1, F2 by lia.
  - cbn. unfold ZSKIPLIST_MAXLEVEL. lia.
  - cbn. repeat constructor. by apply not_elem_of_nil.
Qed.

(** *** Ranks *)

(** Not after a key. *)
Definition upto (s : spec_float) (o : robj) (x : item) : bool :=
  dlt (isc x) s || (deq (isc x) s && negb (slt (otext o) (otext (iob x)))).

Lemma upto_key s o x : isnan s = false -> item_ok x -> upto s o x = true <-> ~ key_lt s o (isc x) (iob x).
Proof.
  intros Hs (Hx & _). unfold upto, key_lt. rewrite orb_true_iff, andb_true_iff, negb_true_iff, (deq_sym s (isc x)) by done.
  rewrite <- not_true_iff_false. split.
  - intros [Hl|[Hd Hn]] [Hl2|[Hd2 Hn2]]; [|..].
    + rewrite (dlt_asym (isc x) s) in Hl2; done.
    + by apply dlt_not_deq in Hl; [congruence|..].
    + apply dlt_not_deq in Hl2; [|done..]. rewrite deq_sym in Hl2 by done. congruence.
    + done.
  - intros Hn. destruct (dcmp_cases (isc x) s Hx Hs) as [?|[Hd|Hl]]; [by left|right|by destruct Hn; left].
    split; [done|]. intros Ht. apply Hn. by right.
Qed.

Lemma upto_mono s o L : isnan s = false -> Forall item_ok L -> mono L (upto s o).
Proof.
  intros Hs Hok x y Hx Hy Hxy. rewrite List.Forall_forall in Hok. rewrite !upto_key by auto. intros Hn Hk. apply Hn.
  destruct (Hok x Hx) as (Hnx & _), (Hok y Hy) as (Hny & _). by apply (key_lt_trans _ _ _ _ _ _ Hs Hnx Hny Hk).
Qed.

Lemma key_lt_irrefl s o : isnan s = false -> ~ key_lt s o s o.
Proof. intros Hs [Hl|[_ Hl]]; [rewrite (dlt_asym s s) in Hl; done|by rewrite slt_irrefl in Hl]. Qed.

Lemma key_lt_asym s o s' o' : isnan s = false -> isnan s' = false -> key_lt s o s' o' -> ~ key_lt s' o' s o.
Proof. intros Hs Hs' Ha Hb. apply (key_lt_irrefl s o Hs). by apply (key_lt_trans s o s' o' s o). Qed.

Lemma upto_self L p x : StronglySorted item_lt L -> Forall item_ok L -> L !! p = Some x -> cnt (upto (isc x) (iob x)) L = S p.
Proof.
  intros Hs Hok Hx. pose proof (proj1 (Forall_lookup _ _) Hok p x Hx) as Hox. pose proof Hox as (Hnx & _).
  pose proof (cnt_spec _ L Hs (upto_mono (isc x) (iob x) L Hnx Hok)) as Hc. set (k := cnt _ L) in *.
  pose proof (cnt_le (upto (isc x) (iob x)) L) as Hle. fold k in Hle.
  pose proof (Hc p x Hx) as Hp. rewrite (proj2 (upto_key (isc x) (iob x) x Hnx Hox)) in Hp by by apply key_lt_irrefl.
  symmetry in Hp. apply bool_decide_eq_true in Hp. destruct (decide (k = S p)) as [|Hne]; [done|exfalso].
  destruct (lookup_lt_is_Some_2 L (S p)) as [y Hy]; [lia|]. pose proof (Hc (S p) y Hy) as Hb. rewrite bool_decide_true in Hb by lia.
  pose proof (proj1 (Forall_lookup _ _) Hok _ y Hy) as Hoy. apply upto_key in Hb; [|done|done].
  apply Hb. by apply (sorted_lookup L p (S p) x y Hs); [lia|..].
Qed.

Lemma rank_sel_ok m zsl L sc o k b : skip_ok m zsl L -> isnan sc = false -> robj_ok o -> k = cnt (upto sc o) L ->
  (b = true -> (1 <= k)%nat) ->
  (forall r x, L !! r = Some x -> bool_decide (otext (iob x) = otext o) = b && bool_decide (S r = k)) ->
  zslGetRank m zsl sc o = Some (if b then Z.of_nat k else 0).
Proof.
  intros (Sk & Hs & Hlim) Hsc Ho Hk Hb Hu. pose proof (sk_items _ _ _ Sk) as Hok. pose proof (top_pos L). pose proof (sk_level _ _ _ Sk).
  apply (rank_descend_ok m zsl L Sk Hlim _ o k b) with (r := 0%nat); try done; try lia.
  - rewrite Hk. apply (sel_cnt m zsl); [done|done|by apply upto_mono|]. intros x n z Hin Eo Es.
    rewrite List.Forall_forall in Hok. destruct (Hok x Hin) as (_ & Hox & _). unfold upto. rewrite Eo, Es. cbn [mbind option_bind].
    destruct (dlt (isc x) sc); [done|]. destruct (deq (isc x) sc); [|done]. cbn [orb andb].
    destruct (compareStringObjects_ok (iob x) o Hox Ho) as (c & -> & _ & Hc & _). cbn [mbind option_bind]. f_equal.
    destruct (slt (otext o) (otext (iob x))); cbn [negb]; zdec; try tauto; destruct (Z.leb_spec c 0); tauto || lia.
  - rewrite Hk. apply cnt_le.
  - right. cbn. pose proof (sk_max _ _ _ Sk). lia.
Qed.

(** *** Lexicographic ranges *)

Definition lex_range_ok (range : zlexrangespec) : Prop := robj_ok (lmin range) /\ robj_ok (lmax range).

(** The elements have one score and are plain. *)
Definition lex_items (L : list item) : Prop :=
  (forall x y, In x L -> In y L -> dlt (isc x) (isc y) = false) /\ (forall x, In x L -> plain (iob x)).

(** Not one of the shared strings and a plain string with its bytes. *)
Definition lex_distinct (range : zlexrangespec) : Prop :=
  otext (lmin range) = otext (lmax range) -> (plain (lmin range) /\ plain (lmax range)) \/ lmin range = lmax range.

Lemma lex_compare_plain a b : robj_ok a -> robj_ok b -> plain a -> plain b ->
  exists c, compareStringObjectsForLexRange a b = Some c /\ cmp_sign (otext a) (otext b) c.
Proof.
  intros Ha Hb [Pa Qa] [Pb Qb]. unfold compareStringObjectsForLexRange. destruct (bool_decide (a = b)) eqn:E.
  - apply bool_decide_eq_true in E as ->. exists 0. split; [done|]. unfold cmp_sign. rewrite slt_irrefl. split_and!; split; done || lia.
  - rewrite !(bool_decide_false (_ = MinString)), !(bool_decide_false (_ = MaxString)) by done. by apply compareStringObjects_ok.
Qed.

Lemma lex_gte_ok value range : plain value -> robj_ok value -> robj_ok (lmin range) ->
  zslLexValueGteMin value range = Some (lex_le (lmin range) value (lminex range)).
Proof.
  intros Hp Hv Hm. unfold zslLexValueGteMin. set (a := lmin range) in *.
  destruct (decide (a = MinString)) as [->|]; [|destruct (decide (a = MaxString)) as [->|]].
  - destruct Hp, value; try done; cbn; by destruct (lminex range).
  - destruct Hp, value; try done; cbn; by destruct (lminex range).
  - destruct (lex_compare_plain value a) as (c & -> & H1 & H2 & H3); [done..|]. cbn [mbind option_bind]. f_equal.
    assert (lex_le a value (lminex range) = if lminex range then slt (otext a) (otext value) else negb (slt (otext value) (otext a))) as ->
      by (destruct Hp, a, value; done).
    apply eq_bool_prop_intro. rewrite !Is_true_true. destruct (lminex range).
    + by rewrite Z.ltb_lt.
    + rewrite Z.leb_le, negb_true_iff, <- not_true_iff_false, <- H1. lia.
Qed.

Lemma lex_lte_ok value range : plain value -> robj_ok value -> robj_ok (lmax range) ->
  zslLexValueLteMax value range = Some (lex_le value (lmax range) (lmaxex range)).
Proof.
  intros Hp Hv Hm. unfold zslLexValueLteMax. set (a := lmax range) in *.
  destruct (decide (a = MinString)) as [->|]; [|destruct (decide (a = MaxString)) as [->|]].
  - destruct Hp, value; try done; cbn; by destruct (lmaxex range).
  - destruct Hp, value; try done; cbn; by destruct (lmaxex range).
  - destruct (lex_compare_plain value a) as (c & -> & H1 & H2 & H3); [done..|]. cbn [mbind option_bind]. f_equal.
    assert (lex_le value a (lmaxex range) = if lmaxex range then slt (otext value) (otext a) else negb (slt (otext a) (otext value))) as ->
      by (destruct Hp, a, value; done).
    apply eq_bool_prop_intro. rewrite !Is_true_true. destruct (lmaxex range).
    + by rewrite Z.ltb_lt.
    + rewrite Z.leb_le, negb_true_iff, <- not_true_iff_false, <- H2. lia.
Qed.

Lemma lex_text_lt L x y : lex_items L -> In x L -> In y L -> item_lt x y -> slt (otext (iob x)) (otext (iob y)) = true.
Proof. intros [Hsc _] Hx Hy [Hl|[_ Hl]]; [|done]. by rewrite Hsc in Hl. Qed.

Lemma not_slt_trans a b c : slt a b = true -> slt c b = false -> slt c a = false.
Proof. intros H1 H2. apply not_true_iff_false. intros H3. by rewrite (slt_trans c a b H3 H1) in H2. Qed.

Lemma lex_gte_mono L range : lex_items L -> mono L (fun x => negb (lex_le (lmin range) (iob x) (lminex range))).
Proof.
  intros HL x y Hx Hy Hxy. pose proof (lex_text_lt L x y HL Hx Hy Hxy) as Ht. destruct HL as [_ Hp].
  destruct (Hp x Hx) as [P1 P2], (Hp y Hy) as [Q1 Q2]. rewrite !negb_true_iff.
  destruct (lmin range), (iob x), (iob y), (lminex range); try done; cbn [lex_le]; rewrite ?negb_false_iff;
    solve [intros H1; by apply (not_slt_trans _ _ _ Ht)|intros H1; by apply (slt_trans _ _ _ Ht)].
Qed.

Lemma lex_lte_mono L range : lex_items L -> mono L (fun x => lex_le (iob x) (lmax range) (lmaxex range)).
Proof.
  intros HL x y Hx Hy Hxy. pose proof (lex_text_lt L x y HL Hx Hy Hxy) as Ht. destruct HL as [_ Hp].
  destruct (Hp x Hx) as [P1 P2], (Hp y Hy) as [Q1 Q2].
  destruct (lmax range), (iob x), (iob y), (lmaxex range); try done; cbn [lex_le]; rewrite ?negb_true_iff;
    solve [intros H1; by apply (not_slt_trans _ _ _ Ht)|intros H1; by apply (slt_trans _ _ _ Ht)].
Qed.

Lemma slt_of a b c : slt a b = true -> slt c b = false -> slt a c = true.
Proof. intros Hab Hcb. destruct (slt_total b c) as [Hbc|[->|?]]; [by apply (slt_trans a b c)|done|congruence]. Qed.

Lemma slt_of' a b c : slt b a = false -> slt b c = true -> slt a c = true.
Proof. intros Hba Hbc. destruct (slt_total a b) as [Hab|[->|?]]; [by apply (slt_trans a b c)|done|congruence]. Qed.

Lemma nslt_trans a b c : slt b a = false -> slt c b = false -> slt c a = false.
Proof. intros H1 H2. apply not_true_iff_false. intros H3. by rewrite (slt_of c a b H3 H1) in H2. Qed.

(** An element in a range of plain ends tells that the ends are in order. *)
Lemma lex_ends_ok range x : plain (iob x) -> plain (lmin range) -> plain (lmax range) -> in_lex_range range x = true ->
  slt (otext (lmax range)) (otext (lmin range)) = false /\
  (lminex range || lmaxex range = true -> slt (otext (lmin range)) (otext (lmax range)) = true).
Proof.
  intros [X1 X2] [P1 P2] [Q1 Q2]. unfold in_lex_range, lex_le. rewrite andb_true_iff.
  intros [H1 H2]. set (t := otext (iob x)) in *. set (a := otext (lmin range)) in *. set (b := otext (lmax range)) in *.
  assert (if lminex range then slt a t = true else slt t a = false) as G1
    by (destruct (lmin range), (iob x), (lminex range); try done; by apply negb_true_iff).
  assert (if lmaxex range then slt t b = true else slt b t = false) as G2
    by (destruct (lmax range), (iob x), (lmaxex range); try done; by apply negb_true_iff).
  clear H1 H2. destruct (lminex range), (lmaxex range); cbn [orb].
  - pose proof (slt_trans a t b G1 G2) as H1. split; [by apply slt_asym|done].
  - pose proof (slt_of a t b G1 G2) as H1. split; [by apply slt_asym|done].
  - pose proof (slt_of' a t b G1 G2) as H1. split; [by apply slt_asym|done].
  - split; [by apply (nslt_trans a t b)|done].
Qed.

(** The range has an end that leaves nothing. *)
Lemma lex_empty_ends range x : plain (iob x) -> in_lex_range range x = true -> lmin range <> MaxString /\ lmax range <> MinString.
Proof.
  intros [X1 X2]. unfold in_lex_range, lex_le. rewrite andb_true_iff. intros [H1 H2].
  split; intros E; rewrite E in *; destruct (iob x); done.
Qed.

(** The quick tests of zslIsInLexRange. *)
Lemma lex_quick_ok range : lex_range_ok range -> lex_distinct range ->
  exists c1 c2, compareStringObjectsForLexRange (lmin range) (lmax range) = Some c1 /\
    compareStringObjects (lmin range) (lmax range) = Some c2 /\
    ((1 <? c1) || ((c2 =? 0) && (lminex range || lmaxex range)) = true ->
      forall x, plain (iob x) -> in_lex_range range x = false).
Proof.
  intros [Ha Hb] Hd. destruct (compareStringObjects_ok _ _ Ha Hb) as (c2 & E2 & S1 & S2 & S3).
  assert (exists c1, compareStringObjectsForLexRange (lmin range) (lmax range) = Some c1 /\
    (1 < c1 -> c1 = c2 /\ plain (lmin range) /\ plain (lmax range))) as (c1 & E1 & H1).
  { unfold compareStringObjectsForLexRange. case_bool_decide; [by exists 0; split; [|lia]|].
    destruct (bool_decide (lmin range = MinString) || bool_decide (lmax range = MaxString)) eqn:T1; [by exists (-1); split; [|lia]|].
    destruct (bool_decide (lmin range = MaxString) || bool_decide (lmax range = MinString)) eqn:T2; [by exists 1; split; [|lia]|].
    exists c2. split; [done|]. intros _. apply orb_false_iff in T1 as [T1 T3], T2 as [T2 T4].
    apply bool_decide_eq_false in T1, T2, T3, T4. done. }
  exists c1, c2. split_and!; [done|done|]. intros Ht x Hx. apply not_true_iff_false. intros Hin.
  apply orb_true_iff in Ht as [Ht|Ht].
  - apply Z.ltb_lt in Ht. destruct (H1 Ht) as (-> & P & Q). destruct (lex_ends_ok range x Hx P Q Hin) as [Hn _].
    rewrite (proj1 S2) in Hn by lia. done.
  - apply andb_true_iff in Ht as [Hc He]. apply Z.eqb_eq in Hc. destruct (Hd (proj1 S3 Hc)) as [[P Q]|E].
    + destruct (lex_ends_ok range x Hx P Q Hin) as [_ Hn]. specialize (Hn He). rewrite (proj1 S3 Hc), slt_irrefl in Hn. done.
    + destruct (lex_empty_ends range x Hx Hin) as [N1 N2].
      assert (plain (lmin range) /\ plain (lmax range)) as [P Q] by (rewrite E in *; done).
      destruct (lex_ends_ok range x Hx P Q Hin) as [_ Hn]. specialize (Hn He). rewrite (proj1 S3 Hc), slt_irrefl in Hn. done.
Qed.

Lemma isInLexRange_ok m zsl L range : skip_ok m zsl L -> lex_items L -> lex_range_ok range -> lex_distinct range ->
  exists b, zslIsInLexRange m zsl range = Some b /\
    if b : bool then (exists x, last L = Some x /\ lex_le (lmin range) (iob x) (lminex range) = true) /\
                     (exists x, L !! 0%nat = Some x /\ lex_le (iob x) (lmax range) (lmaxex range) = true)
    else List.filter (in_lex_range range) L = [].
Proof.
  intros Hsk HL Hr Hd. pose proof Hsk as (Sk & Hs & _). pose proof (sk_items _ _ _ Sk) as Hok. pose proof Hr as [Ha Hb].
  destruct (first_node m zsl L Hsk) as [s Hfirst]. unfold zslIsInLexRange.
  destruct (lex_quick_ok range Hr Hd) as (c1 & c2 & -> & -> & Hq). cbn [mbind option_bind].
  assert (forall x, In x L -> plain (iob x) /\ robj_ok (iob x)) as Hin.
  { intros x Hx. rewrite List.Forall_forall in Hok. split; [by apply HL|by apply Hok]. }
  assert ((1 <? c1) || ((c2 =? 0) && (lminex range || lmaxex range)) = true -> List.filter (in_lex_range range) L = []) as Hnil.
  { intros Ht. apply filter_nil_all. intros x Hx. apply Hq; [done|by apply Hin]. }
  destruct (1 <? c1); [exists false; split; [done|by apply Hnil]|].
  destruct ((c2 =? 0) && (lminex range || lmaxex range)); [exists false; split; [done|by apply Hnil]|]. clear Hnil Hq.
  rewrite (sk_tail _ _ _ Sk). destruct (last L) as [x|] eqn:Hl; cbn [fmap option_fmap option_map].
  2: { exists false. apply last_None in Hl as ->. done. }
  pose proof Hl as Hl2. rewrite last_lookup in Hl2. destruct (item_node m zsl L Sk _ x Hl2) as (n & En & Eo & _).
  destruct (Hin x ltac:(by eapply in_lookup)) as [Px Ox].
  rewrite En. cbn [mbind option_bind]. rewrite Eo. cbn [mbind option_bind]. rewrite lex_gte_ok by done. cbn [mbind option_bind].
  destruct (lex_le (lmin range) (iob x) (lminex range)) eqn:Hg; cbn [negb].
  2: { exists false. split; [done|]. apply filter_nil_all. intros y Hy. unfold in_lex_range. apply andb_false_iff. left.
       apply negb_true_iff. by apply (mono_last L _ x Hs (lex_gte_mono L range HL) Hl); [rewrite Hg|]. }
  rewrite Hfirst. cbn [mbind option_bind forward]. destruct (L !! 0%nat) as [y|] eqn:Hf; cbn [fmap option_fmap option_map].
  2: { apply lookup_ge_None in Hf. destruct L; [done|cbn in Hf; lia]. }
  destruct (item_node m zsl L Sk _ y Hf) as (n' & En' & Eo' & _). destruct (Hin y ltac:(by eapply in_lookup)) as [Py Oy].
  rewrite En'. cbn [mbind option_bind]. rewrite Eo'. cbn [mbind option_bind]. rewrite lex_lte_ok by done.
  eexists. split; [done|]. destruct (lex_le (iob y) (lmax range) (lmaxex range)) eqn:Hq; [split; by eauto|].
  apply filter_nil_all. intros z Hz. unfold in_lex_range. apply andb_false_iff. right.
  by apply (mono_first L _ y Hs (lex_lte_mono L range HL) Hf).
Qed.

Lemma in_lex_split range L : List.filter (in_lex_range range) L =
  List.filter (fun x => negb (negb (lex_le (lmin range) (iob x) (lminex range))) && lex_le (iob x) (lmax range) (lmaxex range)) L.
Proof. apply filter_ext_bool. intros x. by rewrite negb_involutive. Qed.

Lemma lex_gte_cond m zsl L range : skip_ok m zsl L -> lex_items L -> lex_range_ok range ->
  forall x n z, In x L -> obj n = Some (iob x) -> score n = isc x ->
  obj_cond (fun o => b ← zslLexValueGteMin o range; Some (negb b)) n z = Some (negb (lex_le (lmin range) (iob x) (lminex range))).
Proof.
  intros (Sk & _) [_ HL] [Hr _] x n z Hx Eo _. pose proof (sk_items _ _ _ Sk) as Hok. rewrite List.Forall_forall in Hok.
  unfold obj_cond. rewrite Eo. cbn [mbind option_bind]. by rewrite lex_gte_ok; [|apply HL|apply Hok|].
Qed.

Lemma lex_lte_cond m zsl L range : skip_ok m zsl L -> lex_items L -> lex_range_ok range ->
  forall x n z, In x L -> obj n = Some (iob x) -> score n = isc x ->
  obj_cond (fun o => zslLexValueLteMax o range) n z = Some (lex_le (iob x) (lmax range) (lmaxex range)).
Proof.
  intros (Sk & _) [_ HL] [_ Hr] x n z Hx Eo _. pose proof (sk_items _ _ _ Sk) as Hok. rewrite List.Forall_forall in Hok.
  unfold obj_cond. rewrite Eo. cbn [mbind option_bind]. by rewrite lex_lte_ok; [|apply HL|apply Hok|].
Qed.

Lemma random_loop_some random fuel : forall r l, 1 <= l -> l + Z.of_nat fuel < 2 ^ 31 ->
  random_loop random fuel r l = None \/ exists l' r', random_loop random fuel r l = Some (l', r') /\ 1 <= l'.
Proof.
  induction fuel as [|fuel IH]; intros r l Hl Hf; cbn [random_loop]; destruct (_ <? _); eauto.
  rewrite s32_small by lia. apply IH; lia.
Qed.
End Thms.

(** ** Theorems *)

Section Props.
Context `{Libc} (malloc : gmap nat zskiplistNode -> nat) (junk_level : zskiplistLevel) (junk_ptr : option nat).
Context (random : nat -> Z) {D : Type} (dictDelete : D -> robj -> D).

(** C4. zslInsert adds an element to a sorted set: whatever the contents of the allocator
    and the draws of the level, when the element is not in the set, every pointer and
    every span of the list describes the elements with the new one at its place in the
    order, and its node has the level drawn, one more than the number of draws that go
    up, at most 32. *)
Theorem zslInsert_correct (Hmalloc : forall m : gmap nat zskiplistNode, m !! malloc m = None) m zsl L sc o fuel r n :
  skip_ok m zsl L -> (S (length L) < SKIPLIST_LIMIT)%nat -> isnan sc = false -> robj_ok o ->
  (forall x, In x L -> same_key sc o x = false) ->
  (n <= fuel)%nat -> Z.of_nat n < 2 ^ 31 - 1 ->
  (forall j, (j < n)%nat -> goes_up random (r + j) = true) -> goes_up random (r + n) = false ->
  exists m' zsl' x,
    zslInsert malloc junk_level junk_ptr random fuel r m zsl sc o = Some (m', zsl', x, S (r + n)) /\
    let L' := ins (cnt (before sc o) L) (Item x sc o (Nat.min (S n) ZSKIPLIST_MAXLEVEL)) L in
    skip_ok m' zsl' L' /\ Permutation (elements_of L') ((sc, o) :: elements_of L).
Proof.
  intros Hsk Hlen Hsc Ho Hn Hf Hn2 Hj He. pose proof (random_level_ok random n fuel r Hf Hn2 Hj He) as Hr.
  destruct (insert_step malloc junk_level junk_ptr random fuel r m zsl L sc o _ _ Hmalloc Hsk Hlen Hsc Ho Hn Hr)
    as (m' & zsl' & x & E & Hsk'); [unfold ZSKIPLIST_MAXLEVEL; lia|].
  exists m', zsl', x. split; [done|]. split; [done|]. unfold elements_of. rewrite ins_map. cbn [isc iob].
  rewrite <- Permutation_middle. by rewrite take_drop.
Qed.

(** C23. zslDelete removes the element with the given score and text from a sorted set, and
    returns whether there was one; the other elements keep their order, and a set without
    it is not changed. *)
Theorem zslDelete_correct m zsl L sc o : skip_ok m zsl L -> isnan sc = false -> robj_ok o ->
  exists m' zsl', zslDelete m zsl sc o = Some (m', zsl', existsb (same_key sc o) L) /\
    skip_ok m' zsl' (List.filter (fun x => negb (same_key sc o x)) L) /\
    (existsb (same_key sc o) L = false -> m' = m /\ zsl' = zsl).
Proof.
  intros Hsk Hsc Ho. destruct (before_search m zsl L 64 sc o Hsk Hsc Ho ltac:(lia)) as (ups & E & Hu & Hn).
  pose proof Hsk as (Sk & Hs & Hlim). pose proof (sk_items _ _ _ Sk) as Hok.
  pose proof (same_filter L sc o Hsc Hok Hs) as Hf. cbn zeta in Hf. set (k := cnt (before sc o) L) in *.
  assert (existsb (same_key sc o) L = false -> List.filter (fun x => negb (same_key sc o x)) L = L) as Hno.
  { clear. induction L as [|x L IH]; [done|]. cbn. rewrite orb_false_iff. intros [-> Hx]. cbn. by rewrite IH. }
  unfold zslDelete. rewrite E. cbn [mbind option_bind]. rewrite Hn. cbn [mbind option_bind].
  destruct (L !! k) as [x|] eqn:Hx; cbn [fmap option_fmap option_map].
  2: { rewrite Hf, (Hno Hf). exists m, zsl. done. }
  destruct (item_node m zsl L Sk k x Hx) as (n & Hm & Eo & Es & _). rewrite Hm. cbn [mbind option_bind]. rewrite Es, Eo.
  destruct (proj1 (Forall_lookup _ _) Hok k x Hx) as (Hnx & Hox & _).
  assert ((if deq sc (isc x) then no ← Some (iob x); equalStringObjects no o else Some false) = Some (same_key sc o x)) as ->.
  { unfold same_key. rewrite (deq_sym sc (isc x)) by done. destruct (deq (isc x) sc); [|done]. by apply equalStringObjects_ok. }
  cbn [mbind option_bind]. destruct (same_key sc o x).
  - destruct Hf as [-> ->]. destruct (delete_node_ok m zsl L k x ups Sk Hx Hlim (ups_dups _ _ _ _ Hu)) as (m' & zsl' & -> & Sk' & _).
    cbn [mbind option_bind]. exists (zslFreeNode m' (iid x)), zsl'. split_and!; [done|split_and!|done].
    + exact Sk'.
    + unfold del. rewrite <- Nat.add_1_r. by apply sorted_cut.
    + unfold del. rewrite length_app, length_take, length_drop. lia.
  - rewrite Hf, (Hno Hf). exists m, zsl. done.
Qed.

(** C33. zslDeleteRangeByScore removes exactly the elements whose score is in the range,
    also from the dictionary and in their order, and returns their number. *)
Theorem zslDeleteRangeByScore_correct m zsl L range (d : D) : skip_ok m zsl L -> range_ok range ->
  exists m' zsl', zslDeleteRangeByScore dictDelete m zsl range d =
    Some (m', zsl', foldl dictDelete d (map iob (List.filter (in_range range) L)), zlen (List.filter (in_range range) L)) /\
    skip_ok m' zsl' (List.filter (fun x => negb (in_range range x)) L).
Proof.
  intros Hsk Hr. pose proof Hsk as (Sk & _). pose proof (sk_items _ _ _ Sk) as Hok.
  assert (forall x, isnan (isc x) = false -> negb (zslValueGteMin (isc x) range) =
    if minex range then dle (isc x) (rmin range) else dlt (isc x) (rmin range)) as Hg.
  { intros x Hx. destruct Hr as [Hn _]. unfold zslValueGteMin. destruct (minex range); [by rewrite dle_dlt|].
    by rewrite dle_dlt, negb_involutive. }
  rewrite in_range_split, (filter_ext_bool (fun x => negb (in_range range x))
    (fun x => negb (negb (negb (zslValueGteMin (isc x) range)) && zslValueLteMax (isc x) range)))
    by (intros x; by rewrite negb_involutive).
  destruct (delete_range_ok m zsl L Hsk (fun x => negb (zslValueGteMin (isc x) range)) (fun x => zslValueLteMax (isc x) range)
    (gte_mono L range Hok Hr) (lte_mono L range Hok Hr)
    (fun n _ => Some (if minex range then dle (score n) (rmin range) else dlt (score n) (rmin range)))
    (fun n _ => Some (if maxex range then dlt (score n) (rmax range) else dle (score n) (rmax range))))
    with (dictDelete := dictDelete) (d := d) as (ups & E & x & Ex & m' & zsl' & Ed & Sk').
  - intros x n _ Hx _ ->. rewrite List.Forall_forall in Hok. rewrite Hg by apply (Hok x Hx). done.
  - by intros x n _ _ _ ->.
  - exists m', zsl'. unfold zslDeleteRangeByScore. rewrite E. cbn [mbind option_bind]. rewrite Ex. done.
Qed.

(** zslDeleteRangeByRank removes exactly the elements of ranks [start] to [end_], which
    count from 1, also from the dictionary, and returns their number. *)
Theorem zslDeleteRangeByRank_correct m zsl L (start end_ : nat) (d : D) : skip_ok m zsl L ->
  (1 <= start)%nat -> Z.of_nat start < 2 ^ 32 -> Z.of_nat end_ < 2 ^ 32 ->
  let removed := drop (start - 1) (take end_ L) in
  exists m' zsl', zslDeleteRangeByRank dictDelete m zsl (Z.of_nat start) (Z.of_nat end_) d =
    Some (m', zsl', foldl dictDelete d (map iob removed), zlen removed) /\
    skip_ok m' zsl' (take (start - 1) L ++ drop (Nat.max (start - 1) end_) L).
Proof.
  intros (Sk & Hs & Hlim) H1 H2 H3 removed. set (k := Nat.min (start - 1) (length L)).
  assert (sel m L (fun _ rank => Some (rank <? Z.of_nat start)) k) as Hsel.
  { intros r x n Hx _. f_equal. apply lookup_lt_Some in Hx. unfold k. case_bool_decide; zdec; lia. }
  destruct (zsl_search_ok m zsl L Sk Hlim 64 _ k Hsel) as (ups & E & Hu & Hn & u & Eu & _); [lia|lia|].
  set (c := (Nat.min end_ (length L) - k)%nat). pose proof (memory_size m zsl L Sk). pose proof Hlim as Hlim'. unfold SKIPLIST_LIMIT in Hlim'.
  destruct (delete_loop_ok dictDelete (fun _ traversed => Some (traversed <=? Z.of_nat end_)) c (size m) m zsl L k d ups
    (uwrap 64 (Z.of_nat k + 1)) 0) as (m' & zsl' & Ed & Sk' & _); try done; try lia; [by apply ups_dups| | |].
  { intros j x n Hj Hx _ _. f_equal. apply lookup_lt_Some in Hx. rewrite (u64_small (Z.of_nat k + 1)) by lia. rewrite u64_small by lia.
    subst c. case_bool_decide; zdec; lia. }
  { unfold uwrap. by rewrite Zmod_mod. }
  assert (take c (drop k L) = removed) as Er.
  { subst removed k c. rewrite skipn_firstn_comm. destruct (decide (start - 1 <= length L)%nat) as [Hle|Hgt].
    - rewrite (Nat.min_l (start - 1)) by lia. destruct (decide (end_ <= length L)%nat) as [He|He].
      + by rewrite (Nat.min_l end_) by lia.
      + rewrite (Nat.min_r end_) by lia. rewrite !take_ge by (rewrite length_drop; lia). done.
    - rewrite !drop_ge by lia. by rewrite !take_nil. }
  assert (take k L ++ drop (k + c) L = take (start - 1) L ++ drop (Nat.max (start - 1) end_) L) as El.
  { subst k c. destruct (decide (start - 1 <= length L)%nat) as [Hle|Hgt].
    - rewrite (Nat.min_l (start - 1)) by lia. f_equal. destruct (decide (end_ <= length L)%nat) as [He|He].
      + f_equal. lia.
      + rewrite !drop_ge by lia. done.
    - rewrite !drop_ge by lia. rewrite !take_ge by lia. done. }
  exists m', zsl'. split.
  - unfold zslDeleteRangeByRank. rewrite E. cbn [mbind option_bind]. rewrite Eu. cbn [mbind option_bind].
    rewrite Hn. cbn [mbind option_bind]. rewrite Ed, Er, Z.add_0_l. do 2 f_equal. rewrite <- Er. unfold zlen.
    rewrite length_take, length_drop. lia.
  - rewrite <- El. split; [done|]. split; [by apply sorted_cut|]. rewrite length_app, length_take, length_drop. lia.
Qed.

(** C34. The rank of an element of a sorted set with different texts is its place, counted
    from 1, and the element of that rank is the element; the rank of a text that is not
    in the set is 0, and there is no element beyond the length. *)
Theorem zslGetRank_correct m zsl L : skip_ok m zsl L -> NoDup ((fun x => otext (iob x)) <$> L) ->
  (forall p x, L !! p = Some x -> zslGetRank m zsl (isc x) (iob x) = Some (Z.of_nat (S p)) /\
     zslGetElementByRank m zsl (Z.of_nat (S p)) = Some (Some (iid x))) /\
  (forall sc o, isnan sc = false -> robj_ok o -> (forall x, In x L -> otext (iob x) <> otext o) ->
     zslGetRank m zsl sc o = Some 0) /\
  (forall p, (length L < p)%nat -> zslGetElementByRank m zsl (Z.of_nat p) = Some None).
Proof.
  intros Hsk Hnd. pose proof Hsk as (Sk & Hs & Hlim). pose proof (sk_items _ _ _ Sk) as Hok.
  pose proof (sk_level _ _ _ Sk) as Hlv. pose proof (top_pos L) as Hpos. pose proof (sk_max _ _ _ Sk).
  split_and!.
  - intros p x Hx. pose proof (lookup_lt_Some _ _ _ Hx) as Hlt. split.
    + destruct (proj1 (Forall_lookup _ _) Hok p x Hx) as (Hnx & Hox & _).
      apply (rank_sel_ok m zsl L (isc x) (iob x) (S p) true Hsk Hnx Hox); [by rewrite (upto_self L p)|lia|].
      intros r y Hy. cbn [andb]. apply bool_decide_ext. split; [|intros [= ->]; congruence].
        intros Et. f_equal. apply (proj1 (NoDup_alt _) Hnd r p (otext (iob y))); rewrite list_lookup_fmap, ?Hy, ?Hx; cbn; congruence.
    + unfold zslGetElementByRank. change 0 with (Z.of_nat 0). rewrite (element_descend_ok m zsl L Sk Hlim (S p) (S p) ltac:(lia) ltac:(lia) (zslevel zsl) 0 (header zsl));
        [|lia|done|lia|right; cbn; lia|lia]. rewrite decide_True by done. cbn. by rewrite Hx.
  - intros sc o Hsc Ho Hno. apply (rank_sel_ok m zsl L sc o (cnt (upto sc o) L) false Hsk Hsc Ho eq_refl); [done|].
    intros r y Hy. cbn [andb]. apply bool_decide_false. apply Hno. by eapply in_lookup.
  - intros p Hp. unfold zslGetElementByRank. change 0 with (Z.of_nat 0).
    rewrite (element_descend_ok m zsl L Sk Hlim (length L) p ltac:(lia) ltac:(lia) (zslevel zsl) 0 (header zsl));
      [|lia|done|lia|right; cbn; lia|lia]. by rewrite decide_False by lia.
Qed.

(** zslFirstInRange and zslLastInRange return the nodes of the first and of the last
    element whose score is in the range, and NULL when there is none. *)
Theorem zslFirst_LastInRange_correct m zsl L range : skip_ok m zsl L -> range_ok range ->
  zslFirstInRange m zsl range = Some (iid <$> hd_error (List.filter (in_range range) L)) /\
  zslLastInRange m zsl range = Some (iid <$> last (List.filter (in_range range) L)).
Proof.
  intros Hsk Hr. pose proof Hsk as (Sk & _). pose proof (sk_items _ _ _ Sk) as Hok.
  destruct (isInRange_ok m zsl L range Hsk Hr) as (b & Eb & Hb). unfold zslFirstInRange, zslLastInRange.
  rewrite Eb. cbn [mbind option_bind]. destruct b; cbn [negb]; [|by rewrite Hb].
  destruct Hb as [(x & Hx & Px) (y & Hy & Qy)]. rewrite in_range_split. split.
  - destruct (first_in_ok m zsl L Hsk _ _ (gte_mono L range Hok Hr) (lte_mono L range Hok Hr) _
      (gte_cond L range) x Hx) as (ups & z & n & E & En & Ez & _ & Es & _ & ->); [by rewrite Px|].
    rewrite E. cbn [mbind option_bind]. rewrite En. cbn [mbind option_bind]. rewrite Ez. cbn [mbind option_bind].
    rewrite Es. by destruct (zslValueLteMax (isc z) range).
  - destruct (last_in_ok m zsl L Hsk _ _ (gte_mono L range Hok Hr) (lte_mono L range Hok Hr) _
      (lte_cond L range) y Hy Qy) as (ups & z & rk & n & E & En & Ez & _ & Es & _ & ->).
    rewrite E. cbn [mbind option_bind]. rewrite En. cbn [mbind option_bind]. rewrite Ez. cbn [mbind option_bind].
    rewrite Es. by destruct (zslValueGteMin (isc z) range).
Qed.

(** Among elements of one score, zslFirstInLexRange and zslLastInLexRange return the
    nodes of the first and of the last element in the lexicographic range, or NULL, and
    zslDeleteRangeByLex removes exactly the elements in the range, unless one end is a
    shared string and the other a plain string with its bytes. *)
Theorem zslLexRange_correct m zsl L range (d : D) : skip_ok m zsl L -> lex_items L -> lex_range_ok range ->
  lex_distinct range ->
  zslFirstInLexRange m zsl range = Some (iid <$> hd_error (List.filter (in_lex_range range) L)) /\
  zslLastInLexRange m zsl range = Some (iid <$> last (List.filter (in_lex_range range) L)) /\
  exists m' zsl', zslDeleteRangeByLex dictDelete m zsl range d =
    Some (m', zsl', foldl dictDelete d (map iob (List.filter (in_lex_range range) L)), zlen (List.filter (in_lex_range range) L)) /\
    skip_ok m' zsl' (List.filter (fun x => negb (in_lex_range range x)) L).
Proof.
  intros Hsk HL Hr Hd. pose proof (lex_gte_cond m zsl L range Hsk HL Hr) as C1. pose proof (lex_lte_cond m zsl L range Hsk HL Hr) as C2.
  pose proof (lex_gte_mono L range HL) as M1. pose proof (lex_lte_mono L range HL) as M2.
  destruct (isInLexRange_ok m zsl L range Hsk HL Hr Hd) as (b & Eb & Hb).
  rewrite in_lex_split, (filter_ext_bool (fun x => negb (in_lex_range range x))
    (fun x => negb (negb (negb (lex_le (lmin range) (iob x) (lminex range))) && lex_le (iob x) (lmax range) (lmaxex range))))
    by (intros x; by rewrite negb_involutive).
  rewrite in_lex_split in Hb. unfold zslFirstInLexRange, zslLastInLexRange. rewrite Eb. cbn [mbind option_bind].
  pose proof Hsk as (Sk & _). pose proof (sk_items _ _ _ Sk) as Hok. rewrite List.Forall_forall in Hok.
  split_and!.
  - destruct b; cbn [negb]; [|by rewrite Hb]. destruct Hb as [(x & Hx & Px) _].
    destruct (first_in_ok m zsl L Hsk _ _ M1 M2 _ C1 x Hx) as (ups & z & n & E & En & Ez & Eo & _ & Hz & ->); [by rewrite Px|].
    rewrite E. cbn [mbind option_bind]. rewrite En. cbn [mbind option_bind]. rewrite Ez. cbn [mbind option_bind].
    rewrite Eo. cbn [mbind option_bind]. rewrite lex_lte_ok by (apply HL, Hz || apply (Hok z Hz) || apply Hr).
    cbn [mbind option_bind]. by destruct (lex_le (iob z) (lmax range) (lmaxex range)).
  - destruct b; cbn [negb]; [|by rewrite Hb]. destruct Hb as [_ (y & Hy & Qy)].
    destruct (last_in_ok m zsl L Hsk _ _ M1 M2 _ C2 y Hy Qy) as (ups & z & rk & n & E & En & Ez & Eo & _ & Hz & ->).
    rewrite E. cbn [mbind option_bind]. rewrite En. cbn [mbind option_bind]. rewrite Ez. cbn [mbind option_bind].
    rewrite Eo. cbn [mbind option_bind]. rewrite lex_gte_ok by (apply HL, Hz || apply (Hok z Hz) || apply Hr).
    cbn [mbind option_bind]. by destruct (lex_le (lmin range) (iob z) (lminex range)).
  - destruct (delete_range_ok m zsl L Hsk _ _ M1 M2 _ _ C1 C2 dictDelete d) as (ups & E & x & Ex & m' & zsl' & Ed & Sk').
    exists m', zsl'. unfold zslDeleteRangeByLex. rewrite E. cbn [mbind option_bind]. rewrite Ex. done.
Qed.

(** zslRandomLevel returns one more than the number of draws that go up, and never
    more than the number of levels of the header. *)
Theorem zslRandomLevel_correct fuel r n : (n <= fuel)%nat -> Z.of_nat n < 2 ^ 31 - 1 ->
  (forall j, (j < n)%nat -> goes_up random (r + j) = true) -> goes_up random (r + n) = false ->
  exists lv, zslRandomLevel random fuel r = Some (lv, S (r + n)) /\ (1 <= lv <= ZSKIPLIST_MAXLEVEL)%nat /\
    ((n < ZSKIPLIST_MAXLEVEL)%nat -> lv = S n).
Proof.
  intros Hf Hn Hj He. exists (Nat.min (S n) ZSKIPLIST_MAXLEVEL). split; [by apply random_level_ok|].
  unfold ZSKIPLIST_MAXLEVEL. lia.
Qed.

End Props.

(** The range of ZRANGEBYLEX from "-" to "(minstring" is taken as empty: the quick test
    of zslIsInLexRange compares the bytes of the shared string that stands for the
    smallest string, which are "minstring", although every element before "minstring" is
    in the range. *)
Theorem zslIsInLexRange_minstring `{Libc} m zsl L x :
  let minstring := [109; 105; 110; 115; 116; 114; 105; 110; 103] in
  skip_ok m zsl L -> In x L -> plain (iob x) -> slt (otext (iob x)) minstring = true ->
  exists range, zslParseLexRange (RawString [45]) (RawString (40 :: minstring)) = Some range /\
    in_lex_range range x = true /\ zslIsInLexRange m zsl range = Some false /\ zslFirstInLexRange m zsl range = Some None.
Proof.
  intros ms Hsk Hin [P1 P2] Hlt. exists (LexRange MinString (RawString ms) false true). split; [done|].
  assert (zslIsInLexRange m zsl (LexRange MinString (RawString ms) false true) = Some false) as E by done.
  split_and!; [|done|unfold zslFirstInLexRange; by rewrite E].
  unfold in_lex_range. cbn [lmin lmax lminex lmaxex]. cbn [lex_le andb]. destruct (iob x); done.
Qed.

(** ** Witnesses *)

Section Build.
Context `{Libc} (malloc : gmap nat zskiplistNode -> nat) (junk_level : zskiplistLevel) (junk_ptr : option nat) (random : nat -> Z).

Definition robj_okb (o : robj) : bool :=
  match o with RawString s => zlen s <? 2 ^ 31 | IntString v => (- 2 ^ 63 <=? v) && (v <? 2 ^ 63) | _ => true end.

(** The set with some elements, and its items. *)
Fixpoint build (l : list (spec_float * robj)) m zsl (L : list item) (r : nat) : option (gmap nat zskiplistNode * zskiplist * list item) :=
  match l with
  | [] => Some (m, zsl, L)
  | (sc, o) :: l =>
      if negb (isnan sc) && robj_okb o && forallb (fun x => negb (same_key sc o x)) L then
        '(lv, _) ← zslRandomLevel random 40 r;
        '(m, zsl, x, r) ← zslInsert malloc junk_level junk_ptr random 40 r m zsl sc o;
        build l m zsl (ins (cnt (before sc o) L) (Item x sc o lv) L) r
      else None
  end.
End Build.

#[local] Instance sample_libc : Libc.
Proof. refine {| memcmp_diff := Z.sub |}; intros a b Hab; lia. Defined.

(** Heights 2, 1, 3, and so on. *)
Definition sample_random (r : nat) : Z := if bool_decide (r `mod` 6 ∈ [0; 3; 4])%nat then 100 else 40000.
Definition sample_level : zskiplistLevel := Level (Some 77%nat) 12345.

Definition sample (l : list (spec_float * robj)) :=
  '(m, zsl) ← zslCreate fresh_key sample_level (Some 5%nat) ∅;
  build fresh_key sample_level (Some 5%nat) sample_random l m zsl [] 0.

Lemma build_ok l : forall m zsl L r m' zsl' L', skip_ok m zsl L -> (length L + length l < SKIPLIST_LIMIT)%nat ->
  build fresh_key sample_level (Some 5%nat) sample_random l m zsl L r = Some (m', zsl', L') -> skip_ok m' zsl' L'.
Proof.
  induction l as [|[sc o] l IH]; intros m zsl L r m' zsl' L' Hsk Hlen; cbn [build length] in *; [by intros [= <- <- <-]|].
  destruct (negb (isnan sc) && robj_okb o && _) eqn:E; [|done]. rewrite !andb_true_iff in E. destruct E as [[En Eo] Ed].
  apply negb_true_iff in En. rewrite forallb_forall in Ed.
  assert (robj_ok o) as Ho by (destruct o; cbn in *; unfold in_s; rewrite ?andb_true_iff in Eo; lia).
  destruct (zslRandomLevel sample_random 40 r) as [[lv r']|] eqn:Er; [|done]. cbn [mbind option_bind].
  assert (1 <= lv <= ZSKIPLIST_MAXLEVEL)%nat as Hlv.
  { unfold zslRandomLevel in Er. destruct (random_loop_some sample_random 40 r 1 ltac:(lia) ltac:(lia)) as [E|(l1 & r1 & E & H1)]; rewrite E in Er; [done|].
    cbn [mbind option_bind] in Er. injection Er as <- _. unfold ZSKIPLIST_MAXLEVEL. zcase; lia. }
  destruct (insert_step fresh_key sample_level (Some 5%nat) sample_random 40 r m zsl L sc o lv r') as (m1 & zsl1 & x & -> & Hsk1);
    try done; [apply fresh_key_ok|lia|intros x Hx; by apply negb_true_iff, Ed|].
  cbn [mbind option_bind]. apply IH; [done|]. unfold ins. rewrite length_app, length_take. cbn. rewrite length_drop. lia.
Qed.

Lemma sample_ok l m zsl L : (length l < 1000)%nat -> sample l = Some (m, zsl, L) -> skip_ok m zsl L.
Proof.
  intros Hl. unfold sample. destruct (create_list_ok fresh_key sample_level (Some 5%nat) ∅ fresh_key_ok) as (m' & zsl' & -> & Hsk).
  cbn [mbind option_bind]. apply build_ok; [done|]. unfold SKIPLIST_LIMIT. cbn. lia.
Qed.

(** Four elements, two with one score; and three with one score. *)
Definition d1 := S754_finite false 4503599627370496 (-52).
Definition d2 := S754_finite false 4503599627370496 (-51).
Definition d3 := S754_finite false 6755399441055744 (-51).
Definition sample_scores := [(d3, RawString [97; 97]); (d2, IntString (-5)); (d1, RawString [97]); (d2, RawString [98])].
Definition sample_texts := [(d2, RawString [99]); (d2, IntString 5); (d2, RawString [97])].
Definition st1 := default (∅, Zsl 0 None 0 0, []) (sample sample_scores).
Definition st2 := default (∅, Zsl 0 None 0 0, []) (sample sample_texts).

Lemma st1_ok : skip_ok st1.1.1 st1.1.2 st1.2.
Proof. apply (sample_ok sample_scores); [cbn; lia|]. vm_compute; reflexivity. Qed.

Lemma st2_ok : skip_ok st2.1.1 st2.1.2 st2.2.
Proof. apply (sample_ok sample_texts); [cbn; lia|]. vm_compute; reflexivity. Qed.

Example st1_elements : elements_of st1.2 = [(d1, RawString [97]); (d2, IntString (-5)); (d2, RawString [98]); (d3, RawString [97; 97])].
Proof. vm_compute; reflexivity. Qed.

Lemma st1_len : (S (length st1.2) < SKIPLIST_LIMIT)%nat.
Proof. replace (length st1.2) with 4%nat by (vm_compute; reflexivity). unfold SKIPLIST_LIMIT. lia. Qed.

Lemma zslInsert_correct_witness : exists m' zsl' x,
  zslInsert fresh_key sample_level None sample_random 40 3 st1.1.1 st1.1.2 d2 (RawString [97; 98]) = Some (m', zsl', x, 6%nat) /\
  let L' := ins (cnt (before d2 (RawString [97; 98])) st1.2) (Item x d2 (RawString [97; 98]) 3) st1.2 in
  skip_ok m' zsl' L' /\ Permutation (elements_of L') ((d2, RawString [97; 98]) :: elements_of st1.2).
Proof.
  apply (zslInsert_correct fresh_key sample_level None sample_random fresh_key_ok st1.1.1 st1.1.2 st1.2 d2
    (RawString [97; 98]) 40 3 2); [apply st1_ok|apply st1_len|done|done| |lia|lia| |vm_compute; reflexivity].
  - assert (forallb (fun x => negb (same_key d2 (RawString [97; 98]) x)) st1.2 = true) as E by (vm_compute; reflexivity).
    rewrite forallb_forall in E. intros x Hx. by apply negb_true_iff, E.
  - intros [|[|j]] Hj; [vm_compute; reflexivity..|lia].
Defined.

Lemma zslDelete_correct_witness : exists m' zsl', zslDelete st1.1.1 st1.1.2 d2 (RawString [45; 53]) = Some (m', zsl', true) /\
  skip_ok m' zsl' (List.filter (fun x => negb (same_key d2 (RawString [45; 53]) x)) st1.2).
Proof.
  destruct (zslDelete_correct st1.1.1 st1.1.2 st1.2 d2 (RawString [45; 53])) as (m' & zsl' & E & Hs & _); [apply st1_ok|done|done|].
  exists m', zsl'. split; [rewrite E; do 2 f_equal; vm_compute; reflexivity|done].
Defined.

Definition range_2_3 := Range d2 d3 false true.

Lemma zslDeleteRangeByScore_correct_witness : exists m' zsl',
  zslDeleteRangeByScore (fun d o => o :: d) st1.1.1 st1.1.2 range_2_3 [] = Some (m', zsl', [RawString [98]; IntString (-5)], 2) /\
  skip_ok m' zsl' (List.filter (fun x => negb (in_range range_2_3 x)) st1.2).
Proof.
  destruct (zslDeleteRangeByScore_correct (fun d o => o :: d) st1.1.1 st1.1.2 st1.2 range_2_3 []) as (m' & zsl' & E & Hs);
    [apply st1_ok|done|].
  exists m', zsl'. split; [rewrite E; vm_compute; reflexivity|done].
Defined.

Lemma zslDeleteRangeByRank_correct_witness : exists m' zsl',
  zslDeleteRangeByRank (fun d o => o :: d) st1.1.1 st1.1.2 2 3 [] = Some (m', zsl', [RawString [98]; IntString (-5)], 2) /\
  skip_ok m' zsl' (take 1 st1.2 ++ drop 3 st1.2).
Proof.
  destruct (zslDeleteRangeByRank_correct (fun d o => o :: d) st1.1.1 st1.1.2 st1.2 2 3 []) as (m' & zsl' & E & Hs);
    [apply st1_ok|lia..|].
  exists m', zsl'. split; [|done]. change (zslDeleteRangeByRank (fun d o => o :: d) st1.1.1 st1.1.2 (Z.of_nat 2) (Z.of_nat 3) []
    = Some (m', zsl', [RawString [98]; IntString (-5)], 2)). rewrite E. vm_compute; reflexivity.
Defined.

Lemma zslGetRank_correct_witness : zslGetRank st1.1.1 st1.1.2 d2 (RawString [98]) = Some 3 /\
  zslGetRank st1.1.1 st1.1.2 d2 (RawString [99]) = Some 0 /\ zslGetElementByRank st1.1.1 st1.1.2 5 = Some None.
Proof.
  destruct (zslGetRank_correct st1.1.1 st1.1.2 st1.2) as (H1 & H2 & H3); [apply st1_ok| |].
  { apply (bool_decide_unpack _). vm_compute; done. }
  split_and!.
  - destruct (st1.2 !! 2%nat) as [x|] eqn:E; [|vm_compute in E; done]. destruct (H1 2%nat x E) as [H4 _].
    vm_compute in E. injection E as <-. exact H4.
  - apply H2; [done|done|]. intros x Hx. apply list_elem_of_In, list_elem_of_lookup in Hx as [r Hr].
    do 4 (destruct r as [|r]; [vm_compute in Hr; injection Hr as <-; vm_compute; discriminate|]).
    apply lookup_lt_Some in Hr. replace (length st1.2) with 4%nat in Hr by (vm_compute; reflexivity). lia.
  - apply (H3 5%nat). replace (length st1.2) with 4%nat by (vm_compute; reflexivity). lia.
Defined.

Lemma zslFirst_LastInRange_correct_witness :
  zslFirstInRange st1.1.1 st1.1.2 range_2_3 = Some (Some 3%nat) /\ zslLastInRange st1.1.1 st1.1.2 range_2_3 = Some (Some 5%nat).
Proof.
  destruct (zslFirst_LastInRange_correct st1.1.1 st1.1.2 st1.2 range_2_3) as [-> ->]; [apply st1_ok|done|].
  split; vm_compute; reflexivity.
Defined.

Lemma st2_lex : lex_items st2.2.
Proof.
  split.
  - assert (forallb (fun x => forallb (fun y => negb (dlt (isc x) (isc y))) st2.2) st2.2 = true) as E by (vm_compute; reflexivity).
    rewrite forallb_forall in E. intros x y Hx Hy. specialize (E x Hx). rewrite forallb_forall in E. by apply negb_true_iff, E.
  - assert (forallb (fun x => bool_decide (iob x <> MinString) && bool_decide (iob x <> MaxString)) st2.2 = true) as E by (vm_compute; reflexivity).
    rewrite forallb_forall in E. intros x Hx. specialize (E x Hx). clear Hx. apply andb_true_iff in E as [E1 E2].
    apply bool_decide_eq_true in E1, E2. split; assumption.
Qed.

Definition range_a_c := LexRange (RawString [97]) (RawString [99]) false true.

Lemma zslLexRange_correct_witness :
  zslFirstInLexRange st2.1.1 st2.1.2 range_a_c = Some (Some 4%nat) /\ zslLastInLexRange st2.1.1 st2.1.2 range_a_c = Some (Some 4%nat) /\
  exists m' zsl', zslDeleteRangeByLex (fun d o => o :: d) st2.1.1 st2.1.2 range_a_c [] = Some (m', zsl', [RawString [97]], 1) /\
    skip_ok m' zsl' (List.filter (fun x => negb (in_lex_range range_a_c x)) st2.2).
Proof.
  destruct (zslLexRange_correct (fun d o => o :: d) st2.1.1 st2.1.2 st2.2 range_a_c []) as (-> & -> & m' & zsl' & E & Hs);
    [apply st2_ok|apply st2_lex|done|by intros _; left|].
  split_and!; [vm_compute; reflexivity|vm_compute; reflexivity|]. exists m', zsl'. split; [rewrite E; vm_compute; reflexivity|done].
Defined.

Lemma zslRandomLevel_correct_witness : exists lv, zslRandomLevel sample_random 40 3 = Some (lv, 6%nat) /\
  (1 <= lv <= ZSKIPLIST_MAXLEVEL)%nat /\ ((2 < ZSKIPLIST_MAXLEVEL)%nat -> lv = 3%nat).
Proof.
  apply (zslRandomLevel_correct sample_random 40 3 2); [lia|lia| |vm_compute; reflexivity].
  intros [|[|j]] Hj; [vm_compute; reflexivity..|lia].
Defined.

Lemma zslIsInLexRange_minstring_witness : exists range,
  zslParseLexRange (RawString [45]) (RawString [40; 109; 105; 110; 115; 116; 114; 105; 110; 103]) = Some range /\
  zslIsInLexRange st2.1.1 st2.1.2 range = Some false.
Proof.
  destruct (st2.2 !! 0%nat) as [x|] eqn:E; [|vm_compute in E; done]. pose proof (in_lookup _ _ _ E) as Hx.
  destruct (zslIsInLexRange_minstring st2.1.1 st2.1.2 st2.2 x st2_ok Hx) as (range & H1 & _ & H2 & _).
  - exact (proj2 st2_lex x Hx).
  - vm_compute in E. injection E as <-. vm_compute; reflexivity.
  - exists range. exact (conj H1 H2).
Defined.

End SkiplistThms.
