(* ===== verification/Network.v ===== *)
(** * networking.c: reading and parsing the requests of a client

    The query buffer of a client is a string of sds.c.  The replies go to the output
    queue of the client, which is not modelled ([R], [queue_reply]); a request that is
    complete goes to processCommand of redis.c, which is not modelled either. *)

From Stdlib Require Import Ascii String.
From S2P Require Import Prelude Util Robj Sds.

Definition REDIS_IOBUF_LEN : Z := 1024 * 16.
Definition REDIS_INLINE_MAX_SIZE : Z := 1024 * 64.
Definition REDIS_MBULK_BIG_ARG : Z := 1024 * 32.

(** Flags of a client. *)
Definition REDIS_SLAVE : Z := Z.shiftl 1 0.
Definition REDIS_MASTER : Z := Z.shiftl 1 1.
Definition REDIS_MULTI : Z := Z.shiftl 1 3.
Definition REDIS_BLOCKED : Z := Z.shiftl 1 4.
Definition REDIS_CLOSE_AFTER_REPLY : Z := Z.shiftl 1 6.
Definition REDIS_ASKING : Z := Z.shiftl 1 9.

Definition REDIS_REQ_INLINE : Z := 1.
Definition REDIS_REQ_MULTIBULK : Z := 2.

(** [strchr(b + pos, c) - b] for a character other than NUL. *)
Fixpoint find_char (b : list Z) (c i : Z) : option (option Z) :=
  match b with
  | [] => None
  | x :: b => if x =? c then Some (Some i) else if x =? 0 then Some None else find_char b c (i + 1)
  end.

Definition strchr_at (b : list Z) (pos c : Z) : option (option Z) := find_char (drop (Z.to_nat pos) b) c pos.

(** What read(2) returns. *)
Inductive read_result := ReadBytes (data : list Z) | ReadEagain | ReadError.

Section Network.
Context (junk : nat -> Z) {R : Type} (queue_reply : R -> list Z -> R).
(** [server.unixtime] and [server.client_max_querybuf_len]. *)
Context (unixtime client_max_querybuf_len : Z).

(** [argv] is the part of the array of [argv_size] arguments up to [argc]. *)
Record redisClient := Client {
  querybuf : sds; querybuf_peak : Z; argv_size : Z; argv : list robj; reqtype : Z;
  multibulklen : Z; bulklen : Z; flags : Z; reploff : Z; repl_ack_time : Z; lastinteraction : Z; reply : R }.

Definition set_querybuf (c : redisClient) (q : sds) : redisClient :=
  Client q (querybuf_peak c) (argv_size c) (argv c) (reqtype c) (multibulklen c) (bulklen c) (flags c)
    (reploff c) (repl_ack_time c) (lastinteraction c) (reply c).
Definition set_peak (c : redisClient) (p : Z) : redisClient :=
  Client (querybuf c) p (argv_size c) (argv c) (reqtype c) (multibulklen c) (bulklen c) (flags c)
    (reploff c) (repl_ack_time c) (lastinteraction c) (reply c).
Definition set_args (c : redisClient) (n : Z) (a : list robj) : redisClient :=
  Client (querybuf c) (querybuf_peak c) n a (reqtype c) (multibulklen c) (bulklen c) (flags c)
    (reploff c) (repl_ack_time c) (lastinteraction c) (reply c).
Definition set_parse (c : redisClient) (t m b : Z) : redisClient :=
  Client (querybuf c) (querybuf_peak c) (argv_size c) (argv c) t m b (flags c)
    (reploff c) (repl_ack_time c) (lastinteraction c) (reply c).
Definition set_flags (c : redisClient) (f : Z) : redisClient :=
  Client (querybuf c) (querybuf_peak c) (argv_size c) (argv c) (reqtype c) (multibulklen c) (bulklen c) f
    (reploff c) (repl_ack_time c) (lastinteraction c) (reply c).
Definition set_times (c : redisClient) (off ack last : Z) : redisClient :=
  Client (querybuf c) (querybuf_peak c) (argv_size c) (argv c) (reqtype c) (multibulklen c) (bulklen c) (flags c)
    off ack last (reply c).
Definition set_reply (c : redisClient) (r : R) : redisClient :=
  Client (querybuf c) (querybuf_peak c) (argv_size c) (argv c) (reqtype c) (multibulklen c) (bulklen c) (flags c)
    (reploff c) (repl_ack_time c) (lastinteraction c) r.

Definition has_flag (c : redisClient) (flag : Z) : bool := negb (Z.land (flags c) flag =? 0).

(** The fields of createClient that the requests use. *)
Definition createClient (r : R) : option redisClient :=
  q ← sdsempty;
  Some (Client q 0 0 [] 0 0 (-1) 0 0 0 unixtime r).

(** *** Error replies *)

Definition addReplyString (c : redisClient) (s : list Z) : redisClient := set_reply c (queue_reply (reply c) s).

Definition addReplyErrorLength (c : redisClient) (s : list Z) : redisClient :=
  let c := addReplyString c (str "-ERR ") in
  let c := addReplyString c s in
  addReplyString c [13; 10].

Definition addReplyError (c : redisClient) (err : list Z) : redisClient := addReplyErrorLength c err.

(** The text, formatted, with blanks for its newlines. *)
Definition addReplyErrorFormat (c : redisClient) (text : list Z) : redisClient :=
  addReplyErrorLength c (map (fun x => if (x =? 13) || (x =? 10) then 32 else x) text).

(** *** The end of a request *)

Definition freeClientArgv (c : redisClient) : redisClient := set_args c (argv_size c) [].

Definition resetClient (c : redisClient) : redisClient :=
  let c := freeClientArgv c in
  let c := set_parse c 0 0 (-1) in
  if negb (has_flag c REDIS_MULTI) then set_flags c (Z.land (flags c) (Z.lnot REDIS_ASKING)) else c.

Definition setProtocolError (c : redisClient) (pos : Z) : option redisClient :=
  let c := set_flags c (Z.lor (flags c) REDIS_CLOSE_AFTER_REPLY) in
  q ← sdsrange (querybuf c) pos (-1);
  Some (set_querybuf c q).

(** [c->argv[c->argc++] = o] *)
Definition push_arg (c : redisClient) (o : robj) : option redisClient :=
  _ ← cassert (zlen (argv c) <? argv_size c);
  Some (set_args c (argv_size c) (argv c ++ [o])).

(** *** Inline requests *)

Fixpoint push_tokens (c : redisClient) (tokens : list sds) : option redisClient :=
  match tokens with
  | [] => Some c
  | t :: tokens =>
      if sdslen t =? 0 then push_tokens c tokens
      else s ← rdn (s_buf t) 0 (sdslen t); c ← push_arg c (RawString s); push_tokens c tokens
  end.

(** The flag of the result is REDIS_OK. *)
Definition processInlineBuffer (c : redisClient) : option (redisClient * bool) :=
  newline ← strchr_at (s_buf (querybuf c)) 0 10;
  match newline with
  | None =>
      c ← (if REDIS_INLINE_MAX_SIZE <? sdslen (querybuf c)
           then setProtocolError (addReplyError c (str "Protocol error: too big inline request")) 0
           else Some c);
      Some (c, false)
  | Some newline =>
      newline ← (if newline =? 0 then Some newline else
                   p ← rd (s_buf (querybuf c)) (newline - 1);
                   Some (if p =? 13 then newline - 1 else newline));
      let querylen := newline in
      aux ← sdsnewlen (Some (s_buf (querybuf c))) querylen;
      tokens ← sdssplitargs junk (s_buf aux);
      match tokens with
      | None =>
          c ← setProtocolError (addReplyError c (str "Protocol error: unbalanced quotes in request")) 0;
          Some (c, false)
      | Some tokens =>
          let c := if (querylen =? 0) && has_flag c REDIS_SLAVE
                   then set_times c (reploff c) unixtime (lastinteraction c) else c in
          q ← sdsrange (querybuf c) (querylen + 2) (-1);
          let c := set_args (set_querybuf c q) (zlen tokens) [] in
          c ← push_tokens c tokens;
          Some (c, true)
      end
  end.

(** *** Multi bulk requests *)

(** What the loop on the arguments ends with: REDIS_ERR, or the position it got to. *)
Inductive loop_result := LoopErr (c : redisClient) | LoopEnd (c : redisClient) (pos : Z).

(** The length of the next argument.  [None] inside is REDIS_ERR with an error, and a
    [false] flag is the [break] of the loop. *)
Definition read_bulklen (c : redisClient) (pos : Z) : option (redisClient * Z * option bool) :=
  newline ← strchr_at (s_buf (querybuf c)) pos 13;
  match newline with
  | None =>
      c ← (if REDIS_INLINE_MAX_SIZE <? sdslen (querybuf c)
           then setProtocolError (addReplyError c (str "Protocol error: too big bulk count string")) 0
           else Some c);
      Some (c, pos, Some false)
  | Some newline =>
      if newline >? swrap 32 (swrap 32 (sdslen (querybuf c)) - 2) then Some (c, pos, Some false) else
      d ← rd (s_buf (querybuf c)) pos;
      if negb (d =? 36) then
        c ← setProtocolError (addReplyErrorFormat c (str "Protocol error: expected '$', got '" ++ [d] ++ str "'")) pos;
        Some (c, pos, None)
      else
        line ← rdn (s_buf (querybuf c)) (pos + 1) (newline - (pos + 1));
        let bad := match Num.string2ll line with
                   | None => true
                   | Some ll => (ll <? 0) || (ll >? 512 * 1024 * 1024)
                   end in
        let ll := default 0 (Num.string2ll line) in
        if bad then
          c ← setProtocolError (addReplyError c (str "Protocol error: invalid bulk length")) pos;
          Some (c, pos, None)
        else
          let pos := swrap 32 (pos + (newline - pos) + 2) in
          '(c, pos) ←
            (if REDIS_MBULK_BIG_ARG <=? ll then
               q ← sdsrange (querybuf c) pos (-1);
               let qblen := sdslen q in
               let q := if qblen <? ll + 2 then sdsMakeRoomFor junk q (ll + 2 - qblen) else q in
               Some (set_querybuf c q, 0)
             else Some (c, pos));
          Some (set_parse c (reqtype c) (multibulklen c) ll, pos, Some true)
  end.

(** The bytes of the next argument. *)
Definition read_bulk (c : redisClient) (pos : Z) : option (redisClient * Z * bool) :=
  if uwrap 64 (sdslen (querybuf c) - pos) <? uwrap 32 (bulklen c + 2) then Some (c, pos, false) else
  '(c, pos) ←
    (if (pos =? 0) && (REDIS_MBULK_BIG_ARG <=? bulklen c) && (swrap 32 (sdslen (querybuf c)) =? bulklen c + 2) then
       q ← sdsIncrLen (querybuf c) (-2);
       s ← rdn (s_buf q) 0 (sdslen q);
       c ← push_arg c (RawString s);
       q ← sdsempty;
       Some (set_querybuf c (sdsMakeRoomFor junk q (bulklen c + 2)), 0)
     else
       s ← rdn (s_buf (querybuf c)) pos (bulklen c);
       c ← push_arg c (RawString s);
       Some (c, swrap 32 (pos + (bulklen c + 2))));
  Some (set_parse c (reqtype c) (swrap 32 (multibulklen c - 1)) (-1), pos, true).

(** [fuel] is multibulklen, which every round decreases. *)
Fixpoint mbulk_loop (fuel : nat) (c : redisClient) (pos : Z) : option loop_result :=
  if multibulklen c =? 0 then Some (LoopEnd c pos) else
  match fuel with
  | O => None
  | S f =>
      '(c, pos, st) ← (if bulklen c =? -1 then read_bulklen c pos else Some (c, pos, Some true));
      match st with
      | None => Some (LoopErr c)
      | Some false => Some (LoopEnd c pos)
      | Some true =>
          '(c, pos, more) ← read_bulk c pos;
          if (more : bool) then mbulk_loop f c pos else Some (LoopEnd c pos)
      end
  end.

(** The number of arguments, at the start of a request: [Some (inl r)] is a return. *)
Definition read_mbulklen (c : redisClient) : option (redisClient * bool + redisClient * Z) :=
  _ ← cassert (zlen (argv c) =? 0);
  newline ← strchr_at (s_buf (querybuf c)) 0 13;
  match newline with
  | None =>
      c ← (if REDIS_INLINE_MAX_SIZE <? sdslen (querybuf c)
           then setProtocolError (addReplyError c (str "Protocol error: too big mbulk count string")) 0
           else Some c);
      Some (inl (c, false))
  | Some newline =>
      if newline >? swrap 32 (swrap 32 (sdslen (querybuf c)) - 2) then Some (inl (c, false)) else
      h ← rd (s_buf (querybuf c)) 0;
      _ ← cassert (h =? 42);
      line ← rdn (s_buf (querybuf c)) 1 (newline - 1);
      let bad := match Num.string2ll line with None => true | Some ll => ll >? 1024 * 1024 end in
      let ll := default 0 (Num.string2ll line) in
      if bad then
        c ← setProtocolError (addReplyError c (str "Protocol error: invalid multibulk length")) 0;
        Some (inl (c, false))
      else
        let pos := swrap 32 (newline + 2) in
        if ll <=? 0 then
          q ← sdsrange (querybuf c) pos (-1); Some (inl (set_querybuf c q, true))
        else
          let c := set_parse c (reqtype c) (swrap 32 ll) (bulklen c) in
          Some (inr (set_args c (multibulklen c) (argv c), pos))
  end.

Definition processMultibulkBuffer (c : redisClient) : option (redisClient * bool) :=
  start ← (if multibulklen c =? 0 then read_mbulklen c else Some (inr (c, 0)));
  match start with
  | inl r => Some r
  | inr (c, pos) =>
      _ ← cassert (0 <? multibulklen c);
      r ← mbulk_loop (Z.to_nat (multibulklen c)) c pos;
      match r with
      | LoopErr c => Some (c, false)
      | LoopEnd c pos =>
          q ← (if negb (pos =? 0) then sdsrange (querybuf c) pos (-1) else Some (querybuf c));
          let c := set_querybuf c q in
          Some (c, multibulklen c =? 0)
      end
  end.

(** *** The loop on the requests *)

Section Commands.
(** The state of the server, and processCommand on it and the client: the flag of its
    result is REDIS_OK. *)
Context {W : Type} (processCommand : W -> redisClient -> option (W * redisClient * bool)).

Fixpoint processInputBuffer (fuel : nat) (w : W) (c : redisClient) : option (W * redisClient) :=
  if sdslen (querybuf c) =? 0 then Some (w, c) else
  match fuel with
  | O => None
  | S f =>
      if has_flag c REDIS_BLOCKED then Some (w, c) else
      if has_flag c REDIS_CLOSE_AFTER_REPLY then Some (w, c) else
      c ← (if reqtype c =? 0 then
             h ← rd (s_buf (querybuf c)) 0;
             Some (set_parse c (if h =? 42 then REDIS_REQ_MULTIBULK else REDIS_REQ_INLINE) (multibulklen c) (bulklen c))
           else Some c);
      '(c, ok) ← (if reqtype c =? REDIS_REQ_INLINE then processInlineBuffer c
                  else if reqtype c =? REDIS_REQ_MULTIBULK then processMultibulkBuffer c
                  else None);
      if negb (ok : bool) then Some (w, c) else
      if zlen (argv c) =? 0 then processInputBuffer f w (resetClient c) else
      '(w, c, done) ← processCommand w c;
      processInputBuffer f w (if (done : bool) then resetClient c else c)
  end.

(** The room that readQueryFromClient gives to read(2). *)
Definition readlen (c : redisClient) : Z :=
  if (reqtype c =? REDIS_REQ_MULTIBULK) && negb (multibulklen c =? 0) && negb (bulklen c =? -1)
     && (REDIS_MBULK_BIG_ARG <=? bulklen c) then
    let remaining := swrap 32 (uwrap 64 (uwrap 32 (bulklen c + 2) - sdslen (querybuf c))) in
    if remaining <? REDIS_IOBUF_LEN then remaining else REDIS_IOBUF_LEN
  else REDIS_IOBUF_LEN.

(** [readQueryFromClient] when read(2) returns [res]; a client that is freed is [None].
    The loop has fuel for one request a byte. *)
Definition readQueryFromClient (w : W) (c : redisClient) (res : read_result) : option (W * option redisClient) :=
  let readlen := uwrap 64 (readlen c) in
  let qblen := sdslen (querybuf c) in
  let c := if querybuf_peak c <? qblen then set_peak c qblen else c in
  let q := sdsMakeRoomFor junk (querybuf c) readlen in
  let c := set_querybuf c q in
  match res with
  | ReadEagain => Some (w, Some c)
  | ReadError => Some (w, None)
  | ReadBytes [] => Some (w, None)
  | ReadBytes data =>
      _ ← cassert (zlen data <=? readlen);
      b ← wrn (s_buf q) qblen data;
      q ← sdsIncrLen (Sds (s_len q) (s_free q) b) (zlen data);
      let c := set_querybuf c q in
      let c := set_times c (if has_flag c REDIS_MASTER then reploff c + zlen data else reploff c) (repl_ack_time c) unixtime in
      if client_max_querybuf_len <? sdslen (querybuf c) then Some (w, None) else
      '(w, c) ← processInputBuffer (S (Z.to_nat (sdslen (querybuf c)))) w c;
      Some (w, Some c)
  end.

End Commands.
End Network.
