(* ===== verification/NetworkFacts.v ===== *)
(** * The request parser on an encoded stream

    The bytes of a connection are a sequence of encoded commands ([NetworkSpec]).  The
    lemmas follow one command through the loops of the parser: [mid] is a client in the
    middle of it, [idle] a client between two, and [conn] says which commands the buffer
    and the bytes still to come hold. *)

From Stdlib Require Import Ascii String.
From S2P Require Import Prelude Util Robj Sds Network.

(** ** Specification *)
Module NetworkSpec.

Definition dec (n : Z) : list Z := default [] (Num.ll_chars n).
Definition crlf : list Z := [13; 10].

(** The unified request protocol. *)
Definition enc_bulk (a : list Z) : list Z := 36 :: dec (zlen a) ++ crlf ++ a ++ crlf.
Definition enc_bulks (args : list (list Z)) : list Z := concat (map enc_bulk args).
Definition enc_command (args : list (list Z)) : list Z := 42 :: dec (zlen args) ++ crlf ++ enc_bulks args.
Definition enc_stream (cmds : list (list (list Z))) : list Z := concat (map enc_command cmds).

(** The limits of the protocol. *)
Definition args_ok (args : list (list Z)) : Prop := Forall (fun a => zlen a <= 512 * 1024 * 1024) args.
Definition command_ok (args : list (list Z)) : Prop := args <> [] /\ zlen args <= 1024 * 1024 /\ args_ok args.

End NetworkSpec.

Module NetworkFacts.
Import NetworkSpec.

(** ** Proofs: characters and lines *)

Lemma gtb_le a b : a <= b -> (a >? b) = false.
Proof. intros. rewrite Z.gtb_ltb. by apply Z.ltb_ge. Qed.

Lemma gtb_gt a b : b < a -> (a >? b) = true.
Proof. intros. rewrite Z.gtb_ltb. by apply Z.ltb_lt. Qed.

Lemma dec_ok n : 0 <= n < 2 ^ 63 -> Forall (fun x => 48 <= x <= 57) (dec n) /\ 1 <= zlen (dec n) <= 20 /\ Num.string2ll (dec n) = Some n.
Proof.
  intros Hn. assert (in_s 64 n) as Hs by (unfold in_s; lia).
  destruct (NumFacts.ll_chars_spec n Hs) as (ds & Hc & Hd & E). unfold dec. rewrite E. cbn [default].
  replace (n <? 0) with false in * by (symmetry; apply Z.ltb_ge; lia). cbn [from_option id].
  pose proof (NumFacts.canonical_length ds Hc ltac:(lia)) as Hl. split_and!.
  - destruct Hc as [Hf _]. eapply Forall_impl; [exact Hf|]. done.
  - destruct Hc as [_ (d & ds' & -> & _)]. zlia.
  - unfold zlen. lia.
  - apply string2ll_iff. split; [done|]. by rewrite E.
Qed.

Lemma find_char_stop p c q i : Forall (fun x => x <> c /\ x <> 0) p -> find_char (p ++ c :: q) c i = Some (Some (i + zlen p)).
Proof.
  intros Hp. revert i. induction Hp as [|x p [H1 H2] _ IH]; intros i; cbn [find_char app].
  - rewrite Z.eqb_refl. do 2 f_equal. zlia.
  - zdec. rewrite IH. do 2 f_equal. zlia.
Qed.

Lemma find_char_nul p c q i : c <> 0 -> Forall (fun x => x <> c /\ x <> 0) p -> find_char (p ++ 0 :: q) c i = Some None.
Proof.
  intros Hc Hp. revert i. induction Hp as [|x p [H1 H2] _ IH]; intros i; cbn [find_char app].
  - destruct (Z.eqb_spec 0 c); [congruence|]. done.
  - zdec. apply IH.
Qed.

Lemma rep_drop s x pos : SdsSpec.rep s x -> 0 <= pos <= zlen x -> exists t, drop (Z.to_nat pos) (s_buf s) = drop (Z.to_nat pos) x ++ 0 :: t.
Proof.
  intros (t & E & _) Hp. exists t. rewrite E. rewrite drop_app_le by (unfold zlen in Hp; lia). done.
Qed.

Lemma rep_rd s x pos p d q : SdsSpec.rep s x -> x = p ++ d :: q -> pos = zlen p -> rd (s_buf s) pos = Some d.
Proof. intros (t & E & _) -> ->. rewrite E, <- (assoc_L (++)). apply rd_mid. Qed.

Lemma rep_rdn s x pos n p y q : SdsSpec.rep s x -> x = p ++ y ++ q -> pos = zlen p -> n = zlen y -> rdn (s_buf s) pos n = Some y.
Proof. intros (t & E & _) -> -> ->. rewrite E, <- !(assoc_L (++)). by apply rdn_app_mid. Qed.

Lemma rep_len s x : SdsSpec.rep s x -> sdslen s = zlen x /\ zlen x < 2 ^ 31 - 1.
Proof. intros Hr. split; [by apply SdsFacts.rep_sdslen|]. destruct Hr as (t & _ & _ & _ & ?). pose proof (zlen_nonneg t). lia. Qed.

Lemma range_to_end x pos : 0 <= pos <= zlen x -> SdsSpec.range_spec x pos (-1) = drop (Z.to_nat pos) x.
Proof.
  intros Hp. unfold SdsSpec.range_spec. cbv zeta. replace (pos <? 0) with false by (symmetry; apply Z.ltb_ge; lia).
  change (-1 <? 0) with true. cbv iota. apply take_ge. rewrite length_drop. unfold zlen in *. lia.
Qed.

(** Trimming to a position. *)
Lemma trim_to s x pos : SdsSpec.rep s x -> 0 <= pos <= zlen x ->
  exists s', sdsrange s pos (-1) = Some s' /\ SdsSpec.rep s' (drop (Z.to_nat pos) x).
Proof.
  intros Hr Hp. destruct (rep_len s x Hr) as [_ Hl].
  destruct (SdsFacts.range_rep s x pos (-1) Hr) as (s' & E & Hr'); [unfold in_s; lia..|]. exists s'. split; [done|].
  cbn [SdsSpec.spec] in Hr'. by rewrite range_to_end in Hr'.
Qed.

(** Two ways to cut a list. *)
Lemma cut_cases (x r a b : list Z) : x ++ r = a ++ b ->
  (exists x', x = a ++ x' /\ x' ++ r = b) \/ (exists a', a = x ++ a' /\ a' <> [] /\ r = a' ++ b).
Proof.
  intros E. destruct (app_eq_inv _ _ _ _ E) as [(k & -> & ->)|(k & -> & ->)]; [left; by exists k|].
  destruct k as [|y k]; [left; exists []; by rewrite !app_nil_r|right; by exists (y :: k)].
Qed.

(** A line with a number, whole or not. *)
Lemma line_cases h n y r z : 0 <= n < 2 ^ 63 -> h <> 0 -> h <> 13 -> y ++ r = h :: dec n ++ crlf ++ z ->
  (exists z', y = h :: dec n ++ crlf ++ z' /\ z' ++ r = z) \/
  (r <> [] /\ zlen y < zlen (dec n) + 3 /\ (Forall (fun x => x <> 13 /\ x <> 0) y \/ y = h :: dec n ++ [13])).
Proof.
  intros Hn H0 H13 E. destruct (dec_ok n Hn) as (Hd & Hl & _).
  assert (Forall (fun x => x <> 13 /\ x <> 0) (h :: dec n)) as Hf
    by (constructor; [done|]; eapply Forall_impl; [exact Hd|]; cbn; lia).
  change (h :: dec n ++ crlf ++ z) with ((h :: dec n) ++ crlf ++ z) in *.
  destruct (cut_cases y r (h :: dec n) (crlf ++ z) E) as [(y1 & -> & E1)|(a & Ea & Hne & ->)].
  - change (crlf ++ z) with ([13] ++ 10 :: z) in E1. destruct (cut_cases y1 r [13] (10 :: z) E1) as [(y2 & -> & E2)|(a & Ea & Hne & ->)].
    + change (10 :: z) with ([10] ++ z) in E2. destruct (cut_cases y2 r [10] z E2) as [(y3 & -> & E3)|(a & Ea & Hne & ->)].
      * left. by exists y3.
      * right. destruct y2; [|destruct y2, a; done]. split_and!; [by destruct a|zlia|right; by rewrite app_nil_r].
    + right. destruct y1; [|destruct y1, a; done]. rewrite app_nil_r. split_and!; [by destruct a|zlia|by left].
  - right. split_and!; [by destruct a|assert (zlen (h :: dec n) = zlen y + zlen a) by (rewrite Ea; zlia); pose proof (zlen_nonneg a); zlia|].
    left. rewrite Ea in Hf. by apply Forall_app in Hf as [? _].
Qed.

(** What strchr finds in a query buffer from a position on. *)
Lemma strchr_line s x pos h n r z : SdsSpec.rep s x -> 0 <= pos <= zlen x -> 0 <= n < 2 ^ 63 -> h <> 0 -> h <> 13 ->
  drop (Z.to_nat pos) x ++ r = h :: dec n ++ crlf ++ z ->
  (exists z', drop (Z.to_nat pos) x = h :: dec n ++ crlf ++ z' /\ z' ++ r = z /\
     strchr_at (s_buf s) pos 13 = Some (Some (pos + 1 + zlen (dec n))) /\ pos + 1 + zlen (dec n) <= zlen x - 2) \/
  (r <> [] /\ zlen (drop (Z.to_nat pos) x) < zlen (dec n) + 3 /\ exists nl, strchr_at (s_buf s) pos 13 = Some nl /\
     match nl with None => True | Some k => zlen x - 2 < k end).
Proof.
  intros Hr Hp Hn H0 H13 E. destruct (rep_drop s x pos Hr Hp) as [t Et]. unfold strchr_at. rewrite Et.
  assert (zlen (drop (Z.to_nat pos) x) = zlen x - pos) as Hlen by (rewrite zlen_drop; lia).
  destruct (dec_ok n Hn) as (Hd & Hl & _). set (y := drop (Z.to_nat pos) x) in *. clearbody y.
  assert (Forall (fun x => x <> 13 /\ x <> 0) (h :: dec n)) as Hf
    by (constructor; [done|]; eapply Forall_impl; [exact Hd|]; cbn; lia).
  destruct (line_cases h n y r z Hn H0 H13 E) as [(z' & -> & Ez)|(Hne & Hy & Hc)].
  - left. exists z'. split_and!; [done|done| |revert Hlen; unfold crlf; zlia].
    pose proof (find_char_stop (h :: dec n) 13 ([10] ++ z' ++ 0 :: t) pos Hf) as Ef.
    replace ((h :: dec n ++ crlf ++ z') ++ 0 :: t) with ((h :: dec n) ++ 13 :: [10] ++ z' ++ 0 :: t)
      by (cbn; by rewrite <- !(assoc_L (++))).
    rewrite Ef. do 2 f_equal. zlia.
  - right. split_and!; [done|done|]. destruct Hc as [Hc | ->].
    + eexists. split; [by apply find_char_nul|done].
    + pose proof (find_char_stop (h :: dec n) 13 (0 :: t) pos Hf) as Ef.
      replace ((h :: dec n ++ [13]) ++ 0 :: t) with ((h :: dec n) ++ 13 :: 0 :: t) by (cbn; by rewrite <- !(assoc_L (++))).
      rewrite Ef. eexists. split; [done|]. cbv iota beta. revert Hlen. zlia.
Qed.

(** ** Proofs: one request *)

Section Facts.
Context (junk : nat -> Z) {R : Type} (queue_reply : R -> list Z -> R) (unixtime client_max_querybuf_len : Z).
Abbreviation client := (@redisClient R).

(** The flags let the parser run. *)
Definition flags_ok (c : client) : Prop :=
  has_flag c REDIS_BLOCKED = false /\ has_flag c REDIS_CLOSE_AFTER_REPLY = false.

Definition frame (c c' : client) : Prop := flags c' = flags c /\ reqtype c' = reqtype c.

(** A request of which the arguments [done] are read and the arguments [todo] are not; [bl]
    tells whether the length of the next one is read. *)
Record mid (c : client) (x : list Z) (pos : Z) (done todo : list (list Z)) (bl : bool) : Prop := {
  mid_buf : SdsSpec.rep (querybuf c) x;
  mid_pos : 0 <= pos <= zlen x;
  mid_count : multibulklen c = zlen todo;
  mid_argv : argv c = map RawString done;
  mid_room : zlen done + zlen todo <= argv_size c;
  mid_total : zlen done + zlen todo <= 1024 * 1024;
  mid_bulk : bulklen c = if bl then zlen (hd [] todo) else -1;
  mid_some : bl = true -> todo <> [];
  mid_args : args_ok todo;
  mid_size : zlen x <= 65536 \/ (bl = true /\ pos = 0 /\ zlen x <= zlen (hd [] todo) + 2 /\ 32768 <= zlen (hd [] todo)) }.

(** What is left of the request. *)
Definition rest_of (todo : list (list Z)) (bl : bool) : list Z :=
  match bl, todo with
  | true, a :: todo => a ++ crlf ++ enc_bulks todo
  | _, _ => enc_bulks todo
  end.

Lemma mid_small c x pos done todo : mid c x pos done todo false -> zlen x <= 65536.
Proof. intros Hm. by destruct (mid_size _ _ _ _ _ _ Hm) as [?|[? _]]. Qed.

Lemma enc_bulks_cons a todo tl : enc_bulks (a :: todo) ++ tl = 36 :: dec (zlen a) ++ crlf ++ a ++ crlf ++ enc_bulks todo ++ tl.
Proof. unfold enc_bulks, enc_bulk. cbn [map concat]. by rewrite <- !app_comm_cons, <- !(assoc_L (++)). Qed.

Lemma rest_of_bulk a todo tl : rest_of (a :: todo) true ++ tl = a ++ crlf ++ enc_bulks todo ++ tl.
Proof. unfold rest_of. by rewrite <- !(assoc_L (++)). Qed.

(** The header of an argument. *)
Lemma read_bulklen_ok c x pos done a todo r tl : mid c x pos done (a :: todo) false ->
  drop (Z.to_nat pos) x ++ r = enc_bulks (a :: todo) ++ tl ->
  (exists c' x' pos', read_bulklen junk queue_reply c pos = Some (c', pos', Some true) /\ mid c' x' pos' done (a :: todo) true /\
     drop (Z.to_nat pos') x' ++ r = rest_of (a :: todo) true ++ tl /\ frame c c') \/
  (read_bulklen junk queue_reply c pos = Some (c, pos, Some false) /\ r <> [] /\ zlen (drop (Z.to_nat pos) x) < zlen (dec (zlen a)) + 3).
Proof.
  intros Hm E. pose proof (mid_buf _ _ _ _ _ _ Hm) as Hr. pose proof (mid_pos _ _ _ _ _ _ Hm) as Hp.
  pose proof (mid_small _ _ _ _ _ Hm) as Hx. destruct (rep_len _ _ Hr) as [Hlen _].
  pose proof (mid_args _ _ _ _ _ _ Hm) as Ha. apply Forall_cons in Ha as [Ha Hargs]. pose proof (zlen_nonneg a).
  unfold read_bulklen. rewrite Hlen.
  destruct (strchr_line (querybuf c) x pos 36 (zlen a) r (a ++ crlf ++ enc_bulks todo ++ tl) Hr Hp) as
    [(z' & Ey & Ez & Es & Hn)|(Hne & Hy & nl & Es & Hn)]; [lia|done|done| |..].
  { by rewrite E, enc_bulks_cons. }
  - left. rewrite Es. cbn [mbind option_bind]. destruct (dec_ok (zlen a) ltac:(lia)) as (Hd & Hdl & Hv).
    rewrite (s32_small (zlen x)) by lia. rewrite (s32_small (zlen x - 2)) by lia.
    rewrite (gtb_le (_ + _)) by lia.
    assert (x = take (Z.to_nat pos) x ++ 36 :: dec (zlen a) ++ crlf ++ z') as Ex by (rewrite <- Ey; by rewrite take_drop).
    assert (zlen (take (Z.to_nat pos) x) = pos) as Hpl by (rewrite zlen_take; lia).
    rewrite (rep_rd _ x pos (take (Z.to_nat pos) x) 36 (dec (zlen a) ++ crlf ++ z') Hr Ex) by lia. cbn [mbind option_bind].
    change (36 =? 36) with true. cbn [negb].
    rewrite (rep_rdn _ x (pos + 1) _ (take (Z.to_nat pos) x ++ [36]) (dec (zlen a)) (crlf ++ z') Hr);
      [|rewrite Ex at 1; by rewrite <- (assoc_L (++))|zlia|lia]. cbn [mbind option_bind]. rewrite Hv. cbn [default from_option id].
    replace ((zlen a <? 0) || (zlen a >? 512 * 1024 * 1024)) with false
      by (symmetry; apply orb_false_iff; split; [apply Z.ltb_ge; lia|apply gtb_le; lia]).
    set (pos2 := pos + 1 + zlen (dec (zlen a)) + 2).
    replace (swrap 32 (pos + (pos + 1 + zlen (dec (zlen a)) - pos) + 2)) with pos2 by (rewrite s32_small; subst pos2; lia).
    assert (drop (Z.to_nat pos2) x = z') as Hd2.
    { rewrite Ex. change (36 :: dec (zlen a) ++ crlf ++ z') with ((36 :: dec (zlen a)) ++ crlf ++ z').
      rewrite !(assoc_L (++)). rewrite drop_app_length'; [done|]. rewrite !length_app. cbn [length]. subst pos2. change (length crlf) with 2%nat. unfold zlen in *. lia. }
    assert (0 <= pos2 <= zlen x) as Hp2 by (subst pos2; lia).
    assert (drop (Z.to_nat pos2) x ++ r = rest_of (a :: todo) true ++ tl) as E2 by (by rewrite Hd2, Ez, rest_of_bulk).
    destruct Hm. unfold REDIS_MBULK_BIG_ARG. destruct (Z.leb_spec (1024 * 32) (zlen a)) as [Hbig|Hsm].
    + destruct (trim_to _ x pos2 Hr Hp2) as (q & -> & Hq). cbn [mbind option_bind]. rewrite Hd2 in *.
      destruct (rep_len q z' Hq) as [-> _]. assert (zlen z' <= zlen x) as Hz by (rewrite Ex; unfold crlf; zlia).
      set (q2 := if zlen z' <? zlen a + 2 then _ else q).
      assert (SdsSpec.rep q2 z') as Hq2.
      { subst q2. zcase; [|done]. apply SdsFacts.MakeRoomFor_rep; [done|lia|unfold SdsSpec.SDS_LIMIT; lia]. }
      clearbody q2. cbn. eexists _, z', 0. split; [done|]. pose proof (zlen_nonneg z'). split_and!; [|done|done].
      constructor; cbn; try done; lia.
    + cbn [mbind option_bind]. eexists _, x, pos2. split; [done|]. split_and!; [|done|done].
      constructor; cbn; try done; lia.
  - right. rewrite Es. cbn [mbind option_bind]. split_and!; [|done|done]. destruct nl as [k|].
    + rewrite (s32_small (zlen x)) by lia. rewrite (s32_small (zlen x - 2)) by (pose proof (zlen_nonneg x); lia).
      by rewrite gtb_gt by lia.
    + replace (REDIS_INLINE_MAX_SIZE <? zlen x) with false by (symmetry; apply Z.ltb_ge; unfold REDIS_INLINE_MAX_SIZE; lia). done.
Qed.

Lemma push_arg_ok (c : client) o : zlen (argv c) < argv_size c -> push_arg c o = Some (set_args c (argv_size c) (argv c ++ [o])).
Proof. intros Hl. unfold push_arg. replace (zlen (argv c) <? argv_size c) with true by (symmetry; by apply Z.ltb_lt). done. Qed.

Lemma take_shift (x p y : list Z) pos : drop (Z.to_nat pos) x = p ++ y -> 0 <= pos <= zlen x ->
  x = take (Z.to_nat pos) x ++ p ++ y /\ zlen (take (Z.to_nat pos) x) = pos /\ drop (Z.to_nat (pos + zlen p)) x = y /\
  pos + zlen p <= zlen x.
Proof.
  intros E Hp. assert (x = take (Z.to_nat pos) x ++ p ++ y) as Ex by (rewrite <- E; by rewrite take_drop).
  assert (zlen (take (Z.to_nat pos) x) = pos) as Hl by (rewrite zlen_take; lia). split_and!; [done|done| |].
  - rewrite Ex, (assoc_L (++)). apply drop_app_length'. rewrite length_app. unfold zlen in *. lia.
  - apply (f_equal zlen) in Ex. revert Ex. zlia.
Qed.

Lemma read_bulk_guard s x pos n : SdsSpec.rep s x -> 0 <= pos <= zlen x -> 0 <= n <= 512 * 1024 * 1024 ->
  (uwrap 64 (sdslen s - pos) <? uwrap 32 (n + 2)) = (zlen (drop (Z.to_nat pos) x) <? n + 2).
Proof.
  intros Hr Hp Hn. destruct (rep_len _ _ Hr) as [-> Hx]. rewrite u64_small, u32_small by lia.
  by rewrite zlen_drop by lia.
Qed.

Lemma map_raw_snoc done a : map RawString done ++ [RawString a] = map RawString (done ++ [a]).
Proof. by rewrite map_app. Qed.

(** Taking the end of the line off a large argument. *)
Lemma incr_back s a : SdsSpec.rep s (a ++ crlf) -> exists q, sdsIncrLen s (-2) = Some q /\ SdsSpec.rep q a.
Proof.
  intros (t & Eb & El & Ef & Hs). pose proof (zlen_nonneg t). pose proof (zlen_nonneg a). unfold crlf in *. unfold sdsIncrLen.
  rewrite (proj2 (Z.leb_le (-2) _)) by lia. cbn [cassert mbind option_bind]. rewrite El, Ef. zlen_simpl.
  change (zlen [13; 10]) with 2 in *. rewrite !s32_small by lia.
  replace (0 <=? zlen t - -2) with true by (symmetry; apply Z.leb_le; lia). cbn [cassert mbind option_bind].
  rewrite Eb. change ((a ++ [13; 10]) ++ 0 :: t) with ((a ++ [13; 10]) ++ 0 :: t). rewrite <- (assoc_L (++)). cbn [app].
  rewrite wr_app_mid by lia. cbn [mbind option_bind]. eexists. split; [done|]. exists (10 :: 0 :: t). cbn [s_buf s_len s_free].
  zlen_simpl. split_and!; [done|lia|lia|lia].
Qed.

(** The new query buffer after a large argument. *)
Lemma fresh_buf n : 0 <= n <= 512 * 1024 * 1024 -> exists q, sdsempty = Some q /\ SdsSpec.rep (sdsMakeRoomFor junk q (n + 2)) [].
Proof.
  intros Hn. exists (Sds 0 0 [0]). split; [done|]. apply SdsFacts.MakeRoomFor_rep; [by exists []|lia|].
  unfold SdsSpec.SDS_LIMIT. change (zlen (@nil Z)) with 0. lia.
Qed.

(** The bytes of an argument. *)
Lemma read_bulk_ok c x pos done a todo r tl : mid c x pos done (a :: todo) true ->
  drop (Z.to_nat pos) x ++ r = rest_of (a :: todo) true ++ tl ->
  (exists c' x' pos', read_bulk junk c pos = Some (c', pos', true) /\ mid c' x' pos' (done ++ [a]) todo false /\
     drop (Z.to_nat pos') x' ++ r = enc_bulks todo ++ tl /\ frame c c') \/
  (read_bulk junk c pos = Some (c, pos, false) /\ r <> [] /\ zlen (drop (Z.to_nat pos) x) < zlen a + 2).
Proof.
  intros Hm E. pose proof (mid_buf _ _ _ _ _ _ Hm) as Hr. pose proof (mid_pos _ _ _ _ _ _ Hm) as Hp.
  destruct (rep_len _ _ Hr) as [Hlen Hx31]. pose proof (mid_bulk _ _ _ _ _ _ Hm) as Hb. cbn [hd] in Hb.
  pose proof (mid_args _ _ _ _ _ _ Hm) as Ha. apply Forall_cons in Ha as [Ha Hargs]. pose proof (zlen_nonneg a).
  pose proof (mid_room _ _ _ _ _ _ Hm) as Hroom. pose proof (mid_argv _ _ _ _ _ _ Hm) as Hargv. rewrite zlen_cons in Hroom.
  pose proof (mid_count _ _ _ _ _ _ Hm) as Hcnt. rewrite zlen_cons in Hcnt. pose proof (mid_total _ _ _ _ _ _ Hm) as Htot. rewrite zlen_cons in Htot.
  pose proof (zlen_nonneg todo). pose proof (zlen_nonneg done).
  assert (zlen (argv c) = zlen done) as Hal by (rewrite Hargv; unfold zlen; by rewrite length_map).
  unfold read_bulk. rewrite Hb, (read_bulk_guard _ x pos (zlen a) Hr Hp) by lia.
  rewrite rest_of_bulk in E. destruct (Z.ltb_spec (zlen (drop (Z.to_nat pos) x)) (zlen a + 2)) as [Hlt|Hge].
  { right. split_and!; [done| |done]. intros ->. rewrite app_nil_r in E. apply (f_equal zlen) in E. unfold crlf in E. zlia. }
  left. assert (exists y, drop (Z.to_nat pos) x = (a ++ crlf) ++ y /\ y ++ r = enc_bulks todo ++ tl) as (y & Ey & Ez).
  { rewrite (assoc_L (++)) in E. destruct (cut_cases _ r (a ++ crlf) _ E) as [(y & ? & ?)|(a' & Ea & Hne & _)]; [by exists y|].
    apply (f_equal zlen) in Ea. destruct a' as [|? a']; [done|]. unfold crlf in Ea. revert Ea. zlia. }
  destruct (take_shift x (a ++ crlf) y pos Ey Hp) as (Ex & Hpl & Hd & Hle).
  assert (zlen (a ++ crlf) = zlen a + 2) as Hac by (unfold crlf; zlia). rewrite Hac in *.
  rewrite Hlen. rewrite (s32_small (zlen x)) by lia.
  destruct ((pos =? 0) && (REDIS_MBULK_BIG_ARG <=? zlen a) && (zlen x =? zlen a + 2)) eqn:Eb.
  - rewrite !andb_true_iff, !Z.eqb_eq in Eb. destruct Eb as [[-> _] Ex2].
    assert (x = a ++ crlf) as ->.
    { change (drop (Z.to_nat 0) x) with x in Ey. assert (y = []) as -> by (apply zlen_0_inv; apply (f_equal zlen) in Ey; revert Ey; zlia).
      by rewrite app_nil_r in Ey. }
    assert (y = []) as -> by (by rewrite drop_ge in Hd by (unfold zlen in *; lia)).
    destruct (incr_back _ a Hr) as (q & Eq & Hq). rewrite Eq. cbn [mbind option_bind].
    destruct (rep_len q a Hq) as [-> _]. rewrite (rep_rdn q a 0 (zlen a) [] a [] Hq) by (rewrite ?app_nil_r; done). cbn [mbind option_bind].
    rewrite push_arg_ok by lia. cbn [mbind option_bind].
    destruct (fresh_buf (zlen a)) as (q2 & -> & Hq2); [lia|]. cbn [mbind option_bind].
    eexists _, [], 0. split; [done|]. split_and!; [|done|done].
    constructor; cbn; rewrite ?Hb, ?Hcnt, ?Hargv, ?s32_small by lia; try done; try lia; rewrite ?map_raw_snoc; try done; rewrite ?zlen_app; zlia.
  - rewrite (rep_rdn _ x pos (zlen a) (take (Z.to_nat pos) x) a (crlf ++ y) Hr) by (done || (rewrite Ex at 1; by rewrite <- (assoc_L (++)))).
    cbn [mbind option_bind]. rewrite push_arg_ok by lia. cbn [mbind option_bind].
    cbn [bulklen set_args]. rewrite Hb, (s32_small (pos + (zlen a + 2))) by lia.
    eexists _, x, (pos + (zlen a + 2)). split; [done|]. split_and!; [|by rewrite Hd|done].
    destruct Hm. constructor; cbn; rewrite ?Hcnt, ?Hargv, ?s32_small by lia; rewrite ?map_raw_snoc; try done; try lia; rewrite ?zlen_app; try zlia.
    left. destruct mid_size0 as [?|(_ & -> & Hs1 & Hs2)]; [done|]. exfalso. cbn [hd] in *. rewrite zlen_drop in Hge by lia.
    assert (zlen x = zlen a + 2) as Hxa by lia. unfold REDIS_MBULK_BIG_ARG in Eb.
    rewrite Hxa, !Z.eqb_refl, andb_true_r, (proj2 (Z.leb_le _ _)) in Eb by lia. done.
Qed.

(** The state in which the loop waits for more bytes: it waits for a count, or for the
    bytes of an argument. *)
Definition waiting (x : list Z) (todo : list (list Z)) (bl : bool) : Prop :=
  if bl then zlen x < zlen (hd [] todo) + 2 else zlen x < zlen (dec (zlen (hd [] todo))) + 3.

Lemma frame_trans c1 c2 c3 : frame c1 c2 -> frame c2 c3 -> frame c1 c3.
Proof. intros [? ?] [? ?]. split; congruence. Qed.

(** The loop reads the whole request, or stops because bytes are missing. *)
Lemma mbulk_loop_ok r tl : forall todo fuel c x pos done bl, mid c x pos done todo bl -> (length todo <= fuel)%nat ->
  drop (Z.to_nat pos) x ++ r = rest_of todo bl ++ tl ->
  exists c' x' pos' done' todo' bl', mbulk_loop junk queue_reply fuel c pos = Some (LoopEnd c' pos') /\
    mid c' x' pos' done' todo' bl' /\ done' ++ todo' = done ++ todo /\ frame c c' /\
    drop (Z.to_nat pos') x' ++ r = rest_of todo' bl' ++ tl /\
    (todo' = [] \/ (todo' <> [] /\ r <> [] /\ waiting (drop (Z.to_nat pos') x') todo' bl')).
Proof.
  induction todo as [|a todo IH]; intros fuel c x pos done bl Hm Hf E.
  - assert (bl = false) as -> by (destruct bl; [by destruct (mid_some _ _ _ _ _ _ Hm)|done]).
    exists c, x, pos, done, [], false. pose proof (mid_count _ _ _ _ _ _ Hm) as Hc.
    split_and!; auto; [|done]. destruct fuel; cbn [mbulk_loop]; by rewrite Hc.
  - destruct fuel as [|fuel]; [cbn in Hf; lia|]. cbn [length] in Hf.
    assert ((multibulklen c =? 0) = false) as Hc0
      by (rewrite (mid_count _ _ _ _ _ _ Hm); apply Z.eqb_neq; pose proof (zlen_nonneg todo); zlia).
    assert (forall c1 x1 pos1, mid c1 x1 pos1 done (a :: todo) true -> frame c c1 ->
      drop (Z.to_nat pos1) x1 ++ r = rest_of (a :: todo) true ++ tl ->
      exists c' x' pos' done' todo' bl',
        ('(c, pos, more) ← read_bulk junk c1 pos1; if more : bool then mbulk_loop junk queue_reply fuel c pos else Some (LoopEnd c pos)) =
          Some (LoopEnd c' pos') /\ mid c' x' pos' done' todo' bl' /\ done' ++ todo' = done ++ a :: todo /\ frame c c' /\
        drop (Z.to_nat pos') x' ++ r = rest_of todo' bl' ++ tl /\
        (todo' = [] \/ (todo' <> [] /\ r <> [] /\ waiting (drop (Z.to_nat pos') x') todo' bl'))) as Hbulk.
    { intros c1 x1 pos1 Hm1 Hfr E1.
      destruct (read_bulk_ok c1 x1 pos1 done a todo r tl Hm1 E1) as [(c2 & x2 & pos2 & -> & Hm2 & E2 & Hfr2)|(-> & Hr & Hw)];
        cbn [mbind option_bind].
      - destruct (IH fuel c2 x2 pos2 (done ++ [a]) false Hm2 ltac:(lia) E2) as (c3 & x3 & pos3 & d3 & t3 & b3 & E3 & Hm3 & Hd3 & Hfr3 & E4 & Hw).
        exists c3, x3, pos3, d3, t3, b3. split_and!; try done; [by rewrite Hd3, <- (assoc_L (++))|].
        by apply (frame_trans c c1), (frame_trans c1 c2).
      - exists c1, x1, pos1, done, (a :: todo), true. split_and!; try done. right. done. }
    cbn [mbulk_loop]. rewrite Hc0. pose proof (mid_bulk _ _ _ _ _ _ Hm) as Hb. destruct bl; cbn [hd] in Hb.
    + rewrite Hb. replace (zlen a =? -1) with false by (symmetry; apply Z.eqb_neq; pose proof (zlen_nonneg a); lia).
      cbn [mbind option_bind]. by apply Hbulk with (x1 := x).
    + rewrite Hb. cbn [Z.eqb Pos.eqb].
      destruct (read_bulklen_ok c x pos done a todo r tl Hm E) as [(c1 & x1 & pos1 & -> & Hm1 & E1 & Hfr)|(-> & Hr & Hw)];
        cbn [mbind option_bind]; [by apply Hbulk with (x1 := x1)|].
      exists c, x, pos, done, (a :: todo), false. split_and!; try done. right. done.
Qed.

(** The end of processMultibulkBuffer drops what was read. *)
Lemma trim_read_ok c x pos done todo bl : mid c x pos done todo bl ->
  exists q, (if negb (pos =? 0) then sdsrange (querybuf c) pos (-1) else Some (querybuf c)) = Some q /\
    mid (set_querybuf c q) (drop (Z.to_nat pos) x) 0 done todo bl.
Proof.
  intros Hm. pose proof (mid_buf _ _ _ _ _ _ Hm) as Hr. pose proof (mid_pos _ _ _ _ _ _ Hm) as Hp.
  assert (exists q, (if negb (pos =? 0) then sdsrange (querybuf c) pos (-1) else Some (querybuf c)) = Some q /\
    SdsSpec.rep q (drop (Z.to_nat pos) x)) as (q & -> & Hq).
  { destruct (Z.eqb_spec pos 0) as [->|]; cbn [negb]; [by exists (querybuf c)|]. by apply trim_to. }
  exists q. split; [done|]. assert (zlen (drop (Z.to_nat pos) x) = zlen x - pos) as Hl by (rewrite zlen_drop; lia).
  destruct Hm. constructor; cbn [querybuf multibulklen argv argv_size bulklen set_querybuf]; try done; try lia.
  destruct mid_size0 as [?|(? & -> & ? & ?)]; [left; lia|right; split_and!; done || lia].
Qed.

(** A client between two requests. *)
Record idle (c : client) (x : list Z) : Prop := {
  idle_buf : SdsSpec.rep (querybuf c) x;
  idle_count : multibulklen c = 0;
  idle_bulk : bulklen c = -1;
  idle_argv : argv c = [];
  idle_size : zlen x <= 65536 }.

Lemma enc_command_app args tl : enc_command args ++ tl = 42 :: dec (zlen args) ++ crlf ++ enc_bulks args ++ tl.
Proof. unfold enc_command. by rewrite <- app_comm_cons, <- !(assoc_L (++)). Qed.

(** The number of arguments. *)
Lemma read_mbulklen_ok c x args r tl : idle c x -> command_ok args -> x ++ r = enc_command args ++ tl ->
  (exists c' pos, read_mbulklen queue_reply c = Some (inr (c', pos)) /\ mid c' x pos [] args false /\
     drop (Z.to_nat pos) x ++ r = enc_bulks args ++ tl /\ frame c c' /\ 0 < multibulklen c') \/
  (read_mbulklen queue_reply c = Some (inl (c, false)) /\ r <> [] /\ zlen x < zlen (dec (zlen args)) + 3).
Proof.
  intros Hi (Hne & Hcount & Hargs) E. pose proof (idle_buf _ _ Hi) as Hr. pose proof (idle_size _ _ Hi) as Hx.
  pose proof (zlen_nonneg x). destruct (rep_len _ _ Hr) as [Hlen _].
  assert (0 < zlen args) as Hpos by (destruct args; [done|]; pose proof (zlen_nonneg args); zlia).
  unfold read_mbulklen. rewrite Hlen, (idle_argv _ _ Hi). cbn [zlen length Z.of_nat Z.eqb cassert mbind option_bind].
  rewrite enc_command_app in E.
  destruct (strchr_line (querybuf c) x 0 42 (zlen args) r (enc_bulks args ++ tl) Hr) as
    [(z' & Ey & Ez & Es & Hn)|(Hr2 & Hy & nl & Es & Hn)]; [lia|lia|done|done|exact E|..]; change (drop (Z.to_nat 0) x) with x in *.
  - left. rewrite Es. cbn [mbind option_bind]. destruct (dec_ok (zlen args) ltac:(lia)) as (Hd & Hdl & Hv).
    rewrite (s32_small (zlen x)) by lia. rewrite (s32_small (zlen x - 2)) by lia. rewrite gtb_le by lia.
    rewrite (rep_rd _ x 0 [] 42 (dec (zlen args) ++ crlf ++ z') Hr Ey) by done. cbn [mbind option_bind].
    change (42 =? 42) with true. cbn [cassert mbind option_bind].
    rewrite (rep_rdn _ x 1 _ [42] (dec (zlen args)) (crlf ++ z') Hr Ey) by (done || lia). cbn [mbind option_bind].
    rewrite Hv. cbn [default from_option id]. rewrite gtb_le by lia.
    replace (zlen args <=? 0) with false by (symmetry; apply Z.leb_gt; lia).
    destruct (take_shift x (42 :: dec (zlen args) ++ crlf) z' 0) as (_ & _ & Hd2 & Hle); [rewrite Ey; cbn; by rewrite <- (assoc_L (++))|lia|].
    assert (0 + zlen (42 :: dec (zlen args) ++ crlf) = 0 + 1 + zlen (dec (zlen args)) + 2) as Hpl by (unfold crlf; zlia). rewrite Hpl in *.
    eexists _, (0 + 1 + zlen (dec (zlen args)) + 2). split; [by rewrite (s32_small (_ + 2)) by lia|].
    split_and!; [|by rewrite Hd2|done|cbn; rewrite s32_small; lia].
    destruct Hi. constructor; cbn [querybuf multibulklen argv argv_size bulklen set_args set_parse]; rewrite ?s32_small by lia; try done; try lia.
  - right. rewrite Es. cbn [mbind option_bind]. split_and!; [|done|done]. destruct nl as [k|].
    + rewrite (s32_small (zlen x)) by lia. rewrite (s32_small (zlen x - 2)) by lia. by rewrite gtb_gt by lia.
    + replace (REDIS_INLINE_MAX_SIZE <? zlen x) with false by (symmetry; apply Z.ltb_ge; unfold REDIS_INLINE_MAX_SIZE; lia). done.
Qed.

(** processMultibulkBuffer in the middle of a request. *)
Lemma process_mid_ok c x done todo bl r tl : mid c x 0 done todo bl -> todo <> [] -> x ++ r = rest_of todo bl ++ tl ->
  exists c' x' done' todo' bl', processMultibulkBuffer junk queue_reply c = Some (c', bool_decide (todo' = [])) /\
    mid c' x' 0 done' todo' bl' /\ done' ++ todo' = done ++ todo /\ frame c c' /\ x' ++ r = rest_of todo' bl' ++ tl /\
    (todo' = [] \/ (todo' <> [] /\ r <> [] /\ waiting x' todo' bl')).
Proof.
  intros Hm Hne E. assert (0 < multibulklen c) as Hc
    by (rewrite (mid_count _ _ _ _ _ _ Hm); destruct todo; [done|]; pose proof (zlen_nonneg todo); zlia).
  unfold processMultibulkBuffer. replace (multibulklen c =? 0) with false by (symmetry; apply Z.eqb_neq; lia).
  cbn [mbind option_bind]. replace (0 <? multibulklen c) with true by (symmetry; by apply Z.ltb_lt). cbn [cassert mbind option_bind].
  destruct (mbulk_loop_ok r tl todo (Z.to_nat (multibulklen c)) c x 0 done bl Hm) as (c' & x' & pos & d & t & b & -> & Hm' & Hd & Hf & E' & Hw);
    [rewrite (mid_count _ _ _ _ _ _ Hm); unfold zlen; lia|exact E|]. cbn [mbind option_bind].
  destruct (trim_read_ok c' x' pos d t b Hm') as (q & -> & Hm2). cbn [mbind option_bind].
  eexists _, (drop (Z.to_nat pos) x'), d, t, b. split; [do 2 f_equal|done].
  rewrite (mid_count _ _ _ _ _ _ Hm2). destruct t; [done|]. rewrite bool_decide_false by done. apply Z.eqb_neq.
  pose proof (zlen_nonneg t). zlia.
Qed.

(** processMultibulkBuffer at the start of a request. *)
Lemma process_idle_ok c x args r tl : idle c x -> command_ok args -> x ++ r = enc_command args ++ tl ->
  (exists c' x' done' todo' bl', processMultibulkBuffer junk queue_reply c = Some (c', bool_decide (todo' = [])) /\
    mid c' x' 0 done' todo' bl' /\ done' ++ todo' = args /\ frame c c' /\ x' ++ r = rest_of todo' bl' ++ tl /\
    (todo' = [] \/ (todo' <> [] /\ r <> [] /\ waiting x' todo' bl'))) \/
  (processMultibulkBuffer junk queue_reply c = Some (c, false) /\ r <> [] /\ zlen x < zlen (dec (zlen args)) + 3).
Proof.
  intros Hi Hok E. unfold processMultibulkBuffer. rewrite (idle_count _ _ Hi). change (0 =? 0) with true. cbv iota.
  destruct (read_mbulklen_ok c x args r tl Hi Hok E) as [(c1 & pos1 & -> & Hm & E1 & Hfr & Hc)|(-> & Hr & Hx)];
    cbn [mbind option_bind]; [left|right; done].
  replace (0 <? multibulklen c1) with true by (symmetry; by apply Z.ltb_lt). cbn [cassert mbind option_bind].
  destruct (mbulk_loop_ok r tl args (Z.to_nat (multibulklen c1)) c1 x pos1 [] false Hm) as (c' & x' & pos & d & t & b & -> & Hm' & Hd & Hf & E' & Hw);
    [rewrite (mid_count _ _ _ _ _ _ Hm); unfold zlen; lia|exact E1|]. cbn [mbind option_bind].
  destruct (trim_read_ok c' x' pos d t b Hm') as (q & -> & Hm2). cbn [mbind option_bind].
  eexists _, (drop (Z.to_nat pos) x'), d, t, b. split; [do 2 f_equal|split_and!; try done; by apply (frame_trans c c1)].
  rewrite (mid_count _ _ _ _ _ _ Hm2). destruct t; [done|]. rewrite bool_decide_false by done. apply Z.eqb_neq.
  pose proof (zlen_nonneg t). zlia.
Qed.

(** ** Proofs: the loop on the requests *)

(** A client whose buffer [x] and the bytes [r] still to come hold the commands [left]. *)
Inductive conn (settled : bool) (c : client) (x : list Z) (left : list (list (list Z))) (r : list Z) : Prop :=
  | conn_idle : idle c x -> reqtype c = 0 \/ reqtype c = 2 -> x ++ r = enc_stream left ->
      (settled = true -> match left with [] => x = [] | args :: _ => zlen x < zlen (dec (zlen args)) + 3 end) -> conn settled c x left r
  | conn_mid done todo bl cmds : mid c x 0 done todo bl -> reqtype c = 2 -> todo <> [] ->
      left = (done ++ todo) :: cmds -> x ++ r = rest_of todo bl ++ enc_stream cmds ->
      (settled = true -> waiting x todo bl) -> conn settled c x left r.

Lemma enc_stream_cons a l : enc_stream (a :: l) = enc_command a ++ enc_stream l.
Proof. done. Qed.

Lemma rest_of_pos todo bl : todo <> [] -> 0 < zlen (rest_of todo bl).
Proof.
  destruct todo as [|a todo]; [done|]. intros _. destruct bl; cbn [rest_of].
  - unfold crlf. zlia.
  - rewrite <- (app_nil_r (enc_bulks _)), enc_bulks_cons. zlia.
Qed.

Lemma conn_nil settled c left : conn settled c [] left [] -> left = [].
Proof.
  intros [Hi _ E _|d t bl cmds Hm _ Ht _ E _].
  - destruct left as [|a left]; [done|]. apply (f_equal zlen) in E. rewrite enc_stream_cons, enc_command_app in E. revert E. zlia.
  - apply (f_equal zlen) in E. pose proof (rest_of_pos t bl Ht). revert E. zlia.
Qed.

Lemma conn_nil_settled c left r : conn false c [] left r -> conn true c [] left r.
Proof.
  intros [Hi Ht E _|d t bl cmds Hm Hq Ht El E _].
  - apply conn_idle; try done. intros _. destruct left as [|a left]; [done|]. change (zlen (@nil Z)) with 0.
    pose proof (zlen_nonneg (dec (zlen a))). lia.
  - apply conn_mid with d t bl cmds; try done. intros _. unfold waiting. change (zlen (@nil Z)) with 0.
    pose proof (zlen_nonneg (hd [] t)). pose proof (zlen_nonneg (dec (zlen (hd [] t)))). destruct bl; lia.
Qed.

(** A request that is read leaves less in the buffer. *)
Lemma shorter (x r s y : list Z) : x ++ r = s ++ y ++ r -> 0 < zlen s -> zlen y < zlen x.
Proof. intros E Hs. apply (f_equal zlen) in E. revert E. zlia. Qed.

Section Commands.
Context {W : Type} (processCommand : W -> client -> option (W * client * bool)) (exec : W -> list robj -> W).
(** A command runs on its arguments, and leaves the query buffer and the parser's flags. *)
Context (Hcommand : forall w c, flags_ok c ->
  exists c', processCommand w c = Some (exec w (argv c), c', true) /\ querybuf c' = querybuf c /\ flags_ok c').

Abbreviation run_all := (fun w cmds => fold_left exec (map (map RawString) cmds) w).

Lemma reset_idle c x : SdsSpec.rep (querybuf c) x -> zlen x <= 65536 -> flags_ok c ->
  idle (resetClient c) x /\ reqtype (resetClient c) = 0 /\ flags_ok (resetClient c).
Proof.
  intros Hr Hx [Hf1 Hf2]. unfold resetClient. set (c1 := set_parse (freeClientArgv c) 0 0 (-1)).
  destruct (has_flag c1 REDIS_MULTI) eqn:E; cbn [negb].
  - split; [constructor; done|done].
  - split; [constructor; done|]. split; [done|]. unfold flags_ok, has_flag in *. cbn [flags set_flags].
    change (flags c1) with (flags c). rewrite <- !Z.land_assoc. done.
Qed.

Lemma mid_rest_nil c x done bl : mid c x 0 done [] bl -> rest_of [] bl = [].
Proof. intros Hm. destruct bl; [by destruct (mid_some _ _ _ _ _ _ Hm)|done]. Qed.

(** What processInputBuffer does of the commands [left], from a client it can run. *)
Definition outcome (fuel : nat) (w : W) (c : client) (left : list (list (list Z))) (r : list Z) : Prop :=
  exists w' c' x' ran left', processInputBuffer junk queue_reply unixtime processCommand fuel w c = Some (w', c') /\
    left = ran ++ left' /\ w' = run_all w ran /\ conn true c' x' left' r /\ flags_ok c' /\ (r = [] -> left' = []).

(** After processMultibulkBuffer: the command runs, or its missing bytes are awaited. *)
Lemma after_multibulk fuel w c0 c x done todo bl cmds r :
  (forall w c x left, conn false c x left r -> flags_ok c -> Forall command_ok left -> zlen x < Z.of_nat fuel -> outcome fuel w c left r) ->
  mid c x 0 done todo bl -> frame c0 c -> reqtype c0 = 2 -> flags_ok c0 -> Forall command_ok ((done ++ todo) :: cmds) ->
  x ++ r = rest_of todo bl ++ enc_stream cmds -> (todo = [] -> zlen x < Z.of_nat fuel) ->
  (todo = [] \/ (todo <> [] /\ r <> [] /\ waiting x todo bl)) ->
  exists w' c' x' ran left',
    (if negb (bool_decide (todo = [])) then Some (w, c) else
     if zlen (argv c) =? 0 then processInputBuffer junk queue_reply unixtime processCommand fuel w (resetClient c) else
     '(w, c, done) ← processCommand w c;
     processInputBuffer junk queue_reply unixtime processCommand fuel w (if (done : bool) then resetClient c else c)) = Some (w', c') /\
    (done ++ todo) :: cmds = ran ++ left' /\ w' = run_all w ran /\ conn true c' x' left' r /\ flags_ok c' /\ (r = [] -> left' = []).
Proof.
  intros IH Hm [Hf Hq] Hq0 Hfl Hok E Hx Hw.
  assert (flags_ok c) as Hflc by (unfold flags_ok, has_flag in *; by rewrite Hf).
  destruct Hw as [->|(Ht & Hr & Hw)].
  - rewrite bool_decide_true by done. cbn [negb]. rewrite app_nil_r in *. apply Forall_cons in Hok as [[Hne _] Hok].
    assert (bl = false) as -> by (destruct bl; [by destruct (mid_some _ _ _ _ _ _ Hm)|done]).
    pose proof (mid_argv _ _ _ _ _ _ Hm) as Ha. replace (zlen (argv c) =? 0) with false
      by (symmetry; apply Z.eqb_neq; rewrite Ha; unfold zlen; rewrite length_map; destruct done; [done|cbn [length]; lia]).
    destruct (Hcommand w c Hflc) as (c1 & -> & Hb & Hf1). cbn [mbind option_bind]. rewrite Ha.
    destruct (reset_idle c1 x) as (Hi & Hq1 & Hf2); [rewrite Hb; apply Hm|by eapply mid_small|done|].
    destruct (IH (exec w (map RawString done)) (resetClient c1) x cmds) as (w' & c' & x' & ran & left' & E' & -> & -> & Hc & Hf' & Hl);
      [by apply conn_idle; auto|done|done|by apply Hx|].
    exists (run_all w (done :: ran)), c', x', (done :: ran), left'. done.
  - rewrite bool_decide_false by done. cbn [negb]. exists w, c, x, [], ((done ++ todo) :: cmds). split_and!; try done.
    apply conn_mid with done todo bl cmds; try done. by rewrite Hq.
Qed.

Lemma processInputBuffer_ok r : forall fuel w c x left, conn false c x left r -> flags_ok c -> Forall command_ok left ->
  zlen x < Z.of_nat fuel -> outcome fuel w c left r.
Proof.
  induction fuel as [|fuel IH]; intros w c x left Hc Hfl Hok Hfu; [pose proof (zlen_nonneg x); lia|].
  assert (SdsSpec.rep (querybuf c) x) as Hr by (destruct Hc as [Hi|? ? ? ? Hm]; [apply Hi|apply Hm]).
  destruct (rep_len _ _ Hr) as [Hlen _]. unfold outcome. cbn [processInputBuffer]. rewrite Hlen.
  destruct (Z.eqb_spec (zlen x) 0) as [E0|Hne].
  { apply zlen_0_inv in E0 as ->. exists w, c, [], [], left. split_and!; try done; [by apply conn_nil_settled|].
    intros ->. by apply conn_nil in Hc. }
  destruct Hfl as [Hf1 Hf2]. rewrite Hf1, Hf2. destruct Hc as [Hi Hq E _|d t bl cmds Hm Hq Ht -> E _].
  - destruct left as [|args left]; [apply (f_equal zlen) in E; change (zlen (enc_stream [])) with 0 in E; revert E; pose proof (zlen_nonneg x); zlia|].
    rewrite enc_stream_cons in E. assert (exists x2, x = 42 :: x2) as [x2 Ex].
    { rewrite enc_command_app in E. destruct x as [|b x2]; [done|]. injection E as -> _. by exists x2. }
    set (c1 := set_parse c 2 (multibulklen c) (bulklen c)).
    assert ((if reqtype c =? 0 then h ← rd (s_buf (querybuf c)) 0;
        Some (set_parse c (if h =? 42 then REDIS_REQ_MULTIBULK else REDIS_REQ_INLINE) (multibulklen c) (bulklen c)) else Some c) = Some c1) as ->.
    { destruct Hq as [->|Hq].
      - cbn [Z.eqb]. rewrite (rep_rd _ x 0 [] 42 x2 Hr Ex) by done. done.
      - rewrite Hq. change (2 =? 0) with false. unfold c1. destruct c. cbn in Hq. by rewrite Hq. }
    cbn [mbind option_bind]. change (reqtype c1 =? REDIS_REQ_INLINE) with false. change (reqtype c1 =? REDIS_REQ_MULTIBULK) with true. cbv iota.
    assert (idle c1 x) as Hi1 by (destruct Hi; by constructor). pose proof (Forall_inv Hok) as Hok1.
    destruct (process_idle_ok c1 x args r (enc_stream left) Hi1 Hok1 E) as
      [(c2 & x' & d & t & b & -> & Hm & <- & Hfr & E' & Hw)|(-> & Hr2 & Hx)]; cbn [mbind option_bind].
    + apply (after_multibulk fuel w c1 c2 x' d t b left r); try done. intros ->.
      assert (zlen x' < zlen x); [|lia]. apply (shorter x r (enc_command (d ++ []))); [by rewrite E, E', (mid_rest_nil c2 x' d b Hm)|].
      rewrite <- (app_nil_r (enc_command _)), enc_command_app. zlia.
    + exists w, c1, x, [], (args :: left). split_and!; try done. apply conn_idle; try done; by right.
  - rewrite Hq. change (2 =? 0) with false. cbn [mbind option_bind]. rewrite Hq.
    change (2 =? REDIS_REQ_INLINE) with false. change (2 =? REDIS_REQ_MULTIBULK) with true. cbv iota.
    destruct (process_mid_ok c x d t bl r (enc_stream cmds) Hm Ht E) as (c2 & x' & d' & t' & b & -> & Hm' & Ed & Hfr & E' & Hw).
    cbn [mbind option_bind]. rewrite <- Ed in *. apply (after_multibulk fuel w c c2 x' d' t' b cmds r); try done. intros ->.
    assert (zlen x' < zlen x); [|lia]. apply (shorter x r (rest_of t bl)); [by rewrite E, E', (mid_rest_nil c2 x' d' b Hm')|].
    by apply rest_of_pos.
Qed.

End Commands.

(** ** Proofs: reads *)

(** The bytes of a read after those of the buffer. *)
Lemma append_read q x d : SdsSpec.rep q x -> zlen d <= s_free q ->
  exists b q', wrn (s_buf q) (zlen x) d = Some b /\ sdsIncrLen (Sds (s_len q) (s_free q) b) (zlen d) = Some q' /\
    SdsSpec.rep q' (x ++ d).
Proof.
  intros (t & Eb & El & Ef & Hs) Hd. pose proof (zlen_nonneg x). pose proof (zlen_nonneg d). pose proof (zlen_nonneg t).
  rewrite Eb. destruct (split_at (0 :: t) (zlen d)) as (u & v & Euv & Hu & Hv); [zlia|].
  rewrite Euv, (wrn_app_mid x u d v) by (done || lia). destruct v as [|y v]; [zlia|]. eexists _, _. split; [done|].
  unfold sdsIncrLen. cbn [s_len s_free s_buf]. rewrite (proj2 (Z.leb_le (zlen d) (s_free q))) by done. cbn [cassert mbind option_bind].
  rewrite El, Ef. assert (zlen t = zlen d + zlen v) as Ht by zlia. rewrite !s32_small by lia.
  rewrite (proj2 (Z.leb_le 0 (zlen t - zlen d))) by lia. cbn [cassert mbind option_bind].
  rewrite (assoc_L (++)), wr_app_mid by zlia. cbn [mbind option_bind]. split; [done|].
  exists v. cbn [s_buf s_len s_free]. split_and!; [done|zlia|lia|zlia].
Qed.

Lemma dec_short n : 0 <= n < 2 ^ 63 -> zlen (dec n) <= 20.
Proof. intros Hn. by destruct (dec_ok n Hn) as (_ & [_ ?] & _). Qed.

(** What may be read next, and what it gives. *)
Lemma conn_read c x left r : conn true c x left r -> Forall command_ok left -> 1 <= readlen c <= REDIS_IOBUF_LEN /\
  SdsSpec.rep (querybuf c) x /\ zlen x <= 512 * 1024 * 1024 + 1 /\
  forall c' d r', d <> [] -> zlen d <= readlen c -> r = d ++ r' -> SdsSpec.rep (querybuf c') (x ++ d) ->
    multibulklen c' = multibulklen c -> bulklen c' = bulklen c -> argv c' = argv c -> argv_size c' = argv_size c ->
    reqtype c' = reqtype c -> conn false c' (x ++ d) left r' /\ zlen (x ++ d) <= 512 * 1024 * 1024 + 65536.
Proof.
  intros [Hi Hq E Hx|d t bl cmds Hm Hq Ht -> E Hw] Hcok.
  - specialize (Hx eq_refl). assert (zlen x <= 22) as Hx22.
    { destruct left as [|args left]; [by subst x|]. apply Forall_inv in Hcok as (_ & Hn & _). pose proof (zlen_nonneg args).
      pose proof (dec_short (zlen args) ltac:(lia)). lia. }
    unfold readlen. rewrite (idle_count _ _ Hi). change (0 =? 0) with true. cbn [negb]. rewrite andb_false_r. cbn [andb].
    unfold REDIS_IOBUF_LEN. split; [lia|]. split; [apply Hi|]. split; [lia|].
    intros c' d r' Hd Hl -> Hr Hm Hb Ha Hs Hq'. pose proof Hi as []. split; [|zlia].
    apply conn_idle; [constructor; try congruence; zlia|by rewrite Hq'|by rewrite <- (assoc_L (++))|done].
  - specialize (Hw eq_refl). pose proof (mid_buf _ _ _ _ _ _ Hm) as Hr. pose proof (mid_args _ _ _ _ _ _ Hm) as Hargs.
    pose proof (mid_bulk _ _ _ _ _ _ Hm) as Hb. pose proof (zlen_nonneg x). destruct (rep_len _ _ Hr) as [Hlen _].
    assert (zlen (hd [] t) <= 512 * 1024 * 1024) as Ha by (destruct t; [done|by apply Forall_inv in Hargs]). pose proof (zlen_nonneg (hd [] t)).
    pose proof (dec_short (zlen (hd [] t)) ltac:(lia)).
    assert (1 <= readlen c <= REDIS_IOBUF_LEN /\ (zlen x + readlen c <= 65536 \/
      (bl = true /\ zlen x + readlen c <= zlen (hd [] t) + 2 /\ 32768 <= zlen (hd [] t)))) as [Hl Hsz].
    { unfold readlen. rewrite Hq, Hb, (mid_count _ _ _ _ _ _ Hm). change (2 =? REDIS_REQ_MULTIBULK) with true.
      replace (zlen t =? 0) with false by (symmetry; apply Z.eqb_neq; destruct t; [done|pose proof (zlen_nonneg t); zlia]).
      cbn [negb andb]. unfold REDIS_MBULK_BIG_ARG, REDIS_IOBUF_LEN, waiting in *. destruct bl.
      - replace (zlen (hd [] t) =? -1) with false by (symmetry; apply Z.eqb_neq; lia). cbn [negb andb].
        destruct (Z.leb_spec (1024 * 32) (zlen (hd [] t))); [|lia].
        rewrite Hlen, u32_small, u64_small, s32_small by lia. zcase; lia.
      - cbn [Z.eqb Pos.eqb negb andb]. lia. }
    split; [done|]. split; [done|]. split; [unfold waiting in Hw; destruct bl; lia|].
    intros c' e r' He Hle -> Hr' Hm' Hb' Ha' Hs' Hq'. split; [|zlia].
    apply conn_mid with d t bl cmds; try done; [|by rewrite Hq'|by rewrite <- (assoc_L (++))].
    pose proof (mid_room _ _ _ _ _ _ Hm) as Hroom. destruct Hm. constructor; try done; try congruence; [zlia|].
    destruct Hsz as [?|(? & ? & ?)]; [left; zlia|right; split_and!; done || zlia].
Qed.

Section Serve.
Context {W : Type} (processCommand : W -> client -> option (W * client * bool)) (exec : W -> list robj -> W).
Context (Hcommand : forall w c, flags_ok c ->
  exists c', processCommand w c = Some (exec w (argv c), c', true) /\ querybuf c' = querybuf c /\ flags_ok c').
Context (Hmax : 512 * 1024 * 1024 + 65536 <= client_max_querybuf_len).

Lemma read_ok w c x left d r : conn true c x left (d ++ r) -> flags_ok c -> Forall command_ok left -> d <> [] -> zlen d <= readlen c ->
  exists w' c' x' ran left', readQueryFromClient junk queue_reply unixtime client_max_querybuf_len processCommand w c (ReadBytes d) = Some (w', Some c') /\
    left = ran ++ left' /\ w' = fold_left exec (map (map RawString) ran) w /\ conn true c' x' left' r /\ flags_ok c' /\ (r = [] -> left' = []).
Proof.
  intros Hc Hfl Hok Hd Hle. destruct (conn_read c x left (d ++ r) Hc Hok) as (Hrl & Hr & Hx & Hnext).
  unfold REDIS_IOBUF_LEN in Hrl. destruct (rep_len _ _ Hr) as [Hlen _]. pose proof (zlen_nonneg x).
  unfold readQueryFromClient. rewrite Hlen. set (c1 := if querybuf_peak c <? zlen x then set_peak c (zlen x) else c).
  assert (querybuf c1 = querybuf c) as Hq1 by (unfold c1; by destruct (_ <? _)). rewrite Hq1. rewrite (u64_small (readlen c)) by lia.
  destruct (SdsFacts.MakeRoomFor_rep junk (querybuf c) x (readlen c) Hr) as [Hrep Hfree]; [lia|unfold SdsSpec.SDS_LIMIT; lia|].
  set (q := sdsMakeRoomFor junk (querybuf c) (readlen c)) in *. destruct d as [|b0 d]; [done|].
  rewrite (proj2 (Z.leb_le _ _) Hle). cbn [cassert mbind option_bind].
  destruct (append_read q x (b0 :: d) Hrep) as (b & q' & -> & E & Hrep'); [lia|]. cbn [mbind option_bind]. rewrite E. cbn [mbind option_bind].
  match goal with |- context [processInputBuffer _ _ _ _ _ _ ?c2] => set (c3 := c2) end.
  destruct (Hnext c3 (b0 :: d) r) as [Hc3 Hx3]; try done; [unfold c3, c1; by destruct (_ <? _)..|].
  assert (querybuf c3 = q') as Hq3 by done. rewrite Hq3. destruct (rep_len _ _ Hrep') as [-> _].
  replace (client_max_querybuf_len <? zlen (x ++ b0 :: d)) with false by (symmetry; apply Z.ltb_ge; lia).
  assert (flags_ok c3) as Hf3 by (unfold c3, c1; by destruct (_ <? _)).
  destruct (processInputBuffer_ok processCommand exec Hcommand r (S (Z.to_nat (zlen (x ++ b0 :: d)))) w c3 (x ++ b0 :: d) left Hc3 Hf3 Hok) as
    (w' & c' & x' & ran & left' & -> & ? & ? & ? & ? & ?); [pose proof (zlen_nonneg (x ++ b0 :: d)); lia|].
  cbn [mbind option_bind]. by exists w', c', x', ran, left'.
Qed.

End Serve.
End Facts.

(** Not all the bytes of the next command were read. *)
Lemma conn_incomplete {R} (c : @redisClient R) x args left r : conn true c x (args :: left) r -> command_ok args ->
  zlen (enc_stream left) < zlen r.
Proof.
  intros [Hi _ E Hx|d t bl cmds Hm _ Ht [= _ <-] E Hw] _.
  - specialize (Hx eq_refl). cbv beta iota in Hx. rewrite enc_stream_cons, enc_command_app in E. apply (f_equal zlen) in E. unfold crlf in E.
    pose proof (zlen_nonneg (enc_bulks args)). revert E. zlia.
  - specialize (Hw eq_refl). apply (f_equal zlen) in E. rewrite !zlen_app in E.
    assert (zlen x < zlen (rest_of t bl)); [|lia]. destruct t as [|a t]; [done|]. unfold waiting in Hw. cbn [hd] in Hw.
    destruct bl; cbn [rest_of]; [unfold crlf; zlia|]. rewrite <- (app_nil_r (enc_bulks _)), enc_bulks_cons. unfold crlf. zlia.
Qed.

End NetworkFacts.
