(* ===== verification/NetworkThms.v ===== *)
(** * Theorems on the requests of a client *)

From Stdlib Require Import Ascii String.
From S2P Require Import Prelude Util Robj Sds Network NetworkFacts.


Module NetworkThms.
Import NetworkSpec NetworkFacts.

Section Serve.
Context (junk : nat -> Z) {R : Type} (queue_reply : R -> list Z -> R) (unixtime client_max_querybuf_len : Z).
Context {W : Type} (processCommand : W -> @redisClient R -> option (W * @redisClient R * bool)).

(** The reads of a connection that will send [stream]: every one takes at least a byte,
    and at most the room the server gives; [sched] is how many bytes have come each time. *)
Fixpoint serve (sched : list nat) (stream : list Z) (w : W) (c : redisClient) : option (W * redisClient * list Z) :=
  match sched, stream with
  | [], _ | _, [] => Some (w, c, stream)
  | n :: sched, _ =>
      let k := Nat.min (S n) (Z.to_nat (readlen c)) in
      '(w, c) ← readQueryFromClient junk queue_reply unixtime client_max_querybuf_len processCommand w c (ReadBytes (take k stream));
      c ← c;
      serve sched (drop k stream) w c
  end.

Context (exec : W -> list robj -> W).
Context (Hcommand : forall w c, flags_ok c ->
  exists c', processCommand w c = Some (exec w (argv c), c', true) /\ querybuf c' = querybuf c /\ flags_ok c').
Context (Hmax : 512 * 1024 * 1024 + 65536 <= client_max_querybuf_len).

Lemma serve_ok : forall sched stream w c x left, conn true c x left stream -> flags_ok c -> Forall command_ok left -> (stream = [] -> left = []) ->
  exists w' c' stream' ran left', serve sched stream w c = Some (w', c', stream') /\ left = ran ++ left' /\
    w' = fold_left exec (map (map RawString) ran) w /\ (stream' = [] -> left' = []) /\
    (forall args l, left' = args :: l -> zlen (enc_stream l) < zlen stream') /\
    ((length stream <= length sched)%nat -> stream' = []) /\ flags_ok c'.
Proof.
  assert (forall stream w (c : @redisClient R) x left, conn true c x left stream -> Forall command_ok left -> (stream = [] -> left = []) ->
    exists w' c' stream' ran left', Some (w, c, stream) = Some (w', c', stream') /\ left = ran ++ left' /\
    w' = fold_left exec (map (map RawString) ran) w /\ (stream' = [] -> left' = []) /\
    (forall args l, left' = args :: l -> zlen (enc_stream l) < zlen stream')) as Hstop.
  { intros stream w c x left Hc Hok Hn. exists w, c, stream, [], left. split_and!; try done. intros args l ->.
    apply (conn_incomplete c x args l stream Hc). by apply Forall_inv in Hok. }
  induction sched as [|n sched IH]; intros stream w c x left Hc Hfl Hok Hn.
  - destruct (Hstop stream w c x left Hc Hok Hn) as (w' & c' & s' & ran & left' & E & H1 & H2 & H3 & H4).
    exists w', c', s', ran, left'. split_and!; try done; [|by injection E as <- <- <-]. intros Hlen. injection E as <- <- <-. destruct stream; [done|cbn in Hlen; lia].
  - destruct stream as [|b stream].
    { destruct (Hstop [] w c x left Hc Hok Hn) as (w' & c' & s' & ran & left' & E & H1 & H2 & H3 & H4).
      exists w', c', s', ran, left'. split_and!; try done; by injection E as <- <- <-. }
    set (s := b :: stream) in *. cbn [serve]. set (k := Nat.min (S n) (Z.to_nat (readlen c))).
    destruct (conn_read c x left s Hc Hok) as (Hrl & _). assert (1 <= k)%nat as Hk by (subst k; lia).
    assert (s = take k s ++ drop k s) as Es by (by rewrite take_drop). rewrite Es in Hc.
    destruct (read_ok junk queue_reply unixtime client_max_querybuf_len processCommand exec Hcommand Hmax w c x left (take k s) (drop k s) Hc Hfl Hok) as
      (w1 & c1 & x1 & ran1 & left1 & E1 & Hl1 & -> & Hc1 & Hfl1 & Hn1);
      [subst s; destruct k; [lia|done]|unfold zlen; rewrite length_take; subst k; lia|].
    replace (match s with [] => Some (w, c, s) | _ :: _ => _ end) with
      ('(w, c) ← readQueryFromClient junk queue_reply unixtime client_max_querybuf_len processCommand w c (ReadBytes (take k s));
       c ← c; serve sched (drop k s) w c) by done.
    rewrite E1. cbn [mbind option_bind]. subst left. apply Forall_app in Hok as [_ Hok1].
    destruct (IH (drop k s) (fold_left exec (map (map RawString) ran1) w) c1 x1 left1 Hc1 Hfl1 Hok1 Hn1) as
      (w' & c' & s' & ran & left' & E & -> & -> & H3 & H4 & H5 & H6).
    exists (fold_left exec (map (map RawString) (ran1 ++ ran)) w), c', s', (ran1 ++ ran), left'. split_and!; try done.
    + by rewrite E, !map_app, fold_left_app.
    + by rewrite (assoc_L (++)).
    + intros Hlen. apply H5. rewrite length_drop. cbn [length] in Hlen. lia.
Qed.

(** C3. However the bytes of a sequence of commands are cut in reads, the commands run in
    order, each with exactly its arguments, as soon as the last of its bytes is read and
    not before; no access leaves the query buffer or the argument array, no protocol
    error arises, and when all the bytes are read all the commands have run. *)
Theorem requests_in_order cmds r0 sched w : Forall command_ok cmds ->
  exists c, createClient unixtime r0 = Some c /\
  exists w' c' stream' ran left, serve sched (enc_stream cmds) w c = Some (w', c', stream') /\
    cmds = ran ++ left /\ w' = fold_left exec (map (map RawString) ran) w /\
    (stream' = [] -> left = []) /\ (forall args l, left = args :: l -> zlen (enc_stream l) < zlen stream') /\
    ((length (enc_stream cmds) <= length sched)%nat -> stream' = []) /\
    has_flag c' REDIS_CLOSE_AFTER_REPLY = false.
Proof.
  intros Hok. eexists. split; [reflexivity|].
  destruct (serve_ok sched (enc_stream cmds) w (Client (Sds 0 0 [0]) 0 0 [] 0 0 (-1) 0 0 0 unixtime r0) [] cmds) as
    (w' & c' & s' & ran & left & H1 & H2 & H3 & H4 & H5 & H6 & _ & H7); [|done|done| |by exists w', c', s', ran, left].
  - apply conn_idle; [|by left|done|].
    + constructor; try done. exists []. split_and!; done.
    + intros _. destruct cmds as [|a cmds]; [done|]. change (zlen (@nil Z)) with 0. pose proof (zlen_nonneg (dec (zlen a))). lia.
  - destruct cmds as [|a cmds]; [done|]. intros E. apply (f_equal zlen) in E. rewrite enc_stream_cons, enc_command_app in E. revert E. zlia.
Qed.

End Serve.


(** *** Inline requests *)

Section Inline.
Context (junk : nat -> Z) {R : Type} (queue_reply : R -> list Z -> R) (unixtime : Z).

(** The arguments of a request that are not empty. *)
Definition nonempty (l : list (list Z)) : list (list Z) := List.filter (fun s => negb (bool_decide (s = []))) l.

Lemma push_tokens_ok tokens : forall (c : @redisClient R) xs, Forall2 (fun t x => SdsSpec.rep t x) tokens xs ->
  zlen (argv c) + zlen tokens <= argv_size c ->
  exists c', push_tokens c tokens = Some c' /\ querybuf c' = querybuf c /\ argv c' = argv c ++ map RawString (nonempty xs).
Proof.
  induction tokens as [|t tokens IH]; intros c xs Ht Hn; inversion Ht as [|? x ? xs' Hx Ht']; subst; cbn [push_tokens].
  - exists c. by rewrite app_nil_r.
  - rewrite zlen_cons in Hn. pose proof (zlen_nonneg tokens). destruct (rep_len t x Hx) as [-> _]. unfold nonempty. cbn [List.filter].
    destruct (Z.eqb_spec (zlen x) 0) as [E|E].
    + apply zlen_0_inv in E as ->. by apply IH; [|lia].
    + rewrite (rep_rdn t x 0 (zlen x) [] x [] Hx) by (rewrite ?app_nil_r; done). cbn [mbind option_bind].
      rewrite push_arg_ok by lia. cbn [mbind option_bind].
      destruct (IH (set_args c (argv_size c) (argv c ++ [RawString x])) xs' Ht') as (c' & -> & Hq & Ha); [cbn; zlia|].
      exists c'. split; [done|]. split; [done|]. rewrite Ha, bool_decide_false by by intros ->. cbn. by rewrite <- (assoc_L (++)).
Qed.

(** A line [l] with its end [e], before [y]. *)
Lemma inline_line_ok (c : @redisClient R) l e y tokens xs : SdsSpec.rep (querybuf c) (l ++ e ++ y) ->
  (e = [10] /\ last l <> Some 13) \/ e = crlf -> Forall (fun b => b <> 10 /\ b <> 0) l ->
  sdssplitargs junk (l ++ [0]) = Some (Some tokens) -> Forall2 (fun t x => SdsSpec.rep t x) tokens xs ->
  exists c', processInlineBuffer junk queue_reply unixtime c = Some (c', true) /\ argv c' = map RawString (nonempty xs) /\
    SdsSpec.rep (querybuf c') (drop (Z.to_nat (Z.min (zlen l + 2) (zlen (l ++ e ++ y)))) (l ++ e ++ y)).
Proof.
  intros Hr He Hl Hs Ht. set (x := l ++ e ++ y) in *. destruct (rep_len _ _ Hr) as [_ Hx]. pose proof (zlen_nonneg l).
  unfold processInlineBuffer. destruct (rep_drop _ x 0 Hr) as [t Eb]; [pose proof (zlen_nonneg x); lia|].
  change (drop (Z.to_nat 0) (s_buf (querybuf c))) with (s_buf (querybuf c)) in Eb. change (drop (Z.to_nat 0) x) with x in Eb.
  unfold strchr_at. change (drop (Z.to_nat 0) (s_buf (querybuf c))) with (s_buf (querybuf c)).
  set (nl := if bool_decide (e = crlf) then zlen l + 1 else zlen l).
  assert (find_char (s_buf (querybuf c)) 10 0 = Some (Some nl) /\
    (if nl =? 0 then Some nl else p ← rd (s_buf (querybuf c)) (nl - 1); Some (if p =? 13 then nl - 1 else nl)) = Some (zlen l)) as [-> E2].
  { rewrite Eb. unfold x, nl. destruct He as [[-> Hlast] | ->].
    - rewrite bool_decide_false by done. split.
      + pose proof (find_char_stop l 10 (y ++ 0 :: t) 0 Hl) as Ef. rewrite <- !(assoc_L (++)). exact Ef.
      + destruct (Z.eqb_spec (zlen l) 0) as [|Hne]; [done|]. destruct (exists_last (l := l)) as (l0 & b & ->); [by intros ->|].
        rewrite last_snoc in Hlast. rewrite <- !(assoc_L (++)). replace (zlen (l0 ++ [b]) - 1) with (zlen l0) by zlia.
        cbn [app]. rewrite rd_mid. cbn [mbind option_bind]. by replace (b =? 13) with false by (symmetry; apply Z.eqb_neq; congruence).
    - rewrite bool_decide_true by done. unfold crlf. split.
      + pose proof (find_char_stop (l ++ [13]) 10 (y ++ 0 :: t) 0) as Ef. rewrite <- !(assoc_L (++)) in Ef |- *. cbn [app] in *.
        rewrite Ef; [do 2 f_equal; zlia|]. apply Forall_app. split; [done|]. by repeat constructor.
      + replace (zlen l + 1 =? 0) with false by (symmetry; apply Z.eqb_neq; lia). replace (zlen l + 1 - 1) with (zlen l) by lia.
        rewrite <- !(assoc_L (++)). cbn [app]. rewrite rd_mid. done. }
  cbn [mbind option_bind]. rewrite E2. cbn [mbind option_bind]. clear E2 nl.
  assert (sdsnewlen (Some (s_buf (querybuf c))) (zlen l) = Some (Sds (zlen l) 0 (l ++ [0]))) as ->.
  { unfold sdsnewlen. rewrite (rep_rdn _ x 0 (zlen l) [] l (e ++ y) Hr) by done. cbn [mbind option_bind].
    rewrite s32_small; [done|]. assert (zlen l <= zlen x) by (unfold x; zlia). lia. }
  cbn [mbind option_bind s_buf]. rewrite Hs. cbn [mbind option_bind].
  match goal with |- context [sdsrange (querybuf ?c1) _ _] => assert (querybuf c1 = querybuf c) as -> by (by destruct (_ && _)); set (c2 := c1) end.
  set (pos := Z.min (zlen l + 2) (zlen x)).
  assert (exists q, sdsrange (querybuf c) (zlen l + 2) (-1) = Some q /\ SdsSpec.rep q (drop (Z.to_nat pos) x)) as (q & -> & Hq).
  { destruct (SdsFacts.range_rep (querybuf c) x (zlen l + 2) (-1) Hr) as (q & E & Hq);
      [unfold in_s; assert (zlen l + 1 <= zlen x) by (unfold x; destruct He as [[-> _] | ->]; unfold crlf; zlia); lia|unfold in_s; lia|].
    exists q. split; [done|]. cbn [SdsSpec.spec] in Hq. replace (drop (Z.to_nat pos) x) with (SdsSpec.range_spec x (zlen l + 2) (-1)); [done|].
    destruct (decide (zlen l + 2 <= zlen x)) as [Hle|Hgt].
    - subst pos. rewrite Z.min_l by lia. apply range_to_end. lia.
    - subst pos. rewrite Z.min_r by lia. unfold SdsSpec.range_spec. cbv zeta.
      replace (zlen l + 2 <? 0) with false by (symmetry; apply Z.ltb_ge; lia). rewrite !drop_ge by (unfold zlen in *; lia). by rewrite take_nil. }
  cbn [mbind option_bind].
  destruct (push_tokens_ok tokens (set_args (set_querybuf c2 q) (zlen tokens) []) xs Ht) as (c' & -> & Hq' & Ha); [cbn; unfold zlen; cbn; lia|].
  cbn [mbind option_bind]. exists c'. split; [done|]. split; [done|]. by rewrite Hq'.
Qed.

Lemma esc_plain c : byte_ok c -> Forall (fun b => b <> 10 /\ b <> 0) (QuoteFacts.esc c).
Proof.
  intros Hc. destruct (QuoteFacts.byte_hex c Hc) as (H1 & H2 & _). unfold QuoteFacts.esc, isprint, hex_char.
  repeat case_match; bool_to_prop; repeat constructor; lia.
Qed.

Lemma quoted_plain a : bytes_ok a -> Forall (fun b => b <> 10 /\ b <> 0) (QuoteFacts.quoted a).
Proof.
  intros Ha. unfold QuoteFacts.quoted. apply Forall_app. split; [by repeat constructor|]. apply Forall_app. split; [|by repeat constructor].
  induction Ha as [|c a Hc _ IH]; [constructor|]. cbn [map concat]. apply Forall_app. split; [by apply esc_plain|done].
Qed.

Lemma line_long items : (length items <= length (QuoteFacts.line_of items))%nat.
Proof.
  induction items as [|[b a] items IH]; [done|]. unfold QuoteFacts.line_of in *. cbn [map concat]. rewrite !length_app.
  assert (1 <= length (QuoteFacts.quoted a))%nat by (unfold QuoteFacts.quoted; rewrite length_app; cbn [length]; lia). cbn [fst snd length] in *. lia.
Qed.

Lemma line_last items : last (QuoteFacts.line_of items) <> Some 13.
Proof.
  induction items as [|it items' _] using rev_ind; [done|].
  unfold QuoteFacts.line_of, QuoteFacts.quoted. rewrite map_app, concat_app. cbn [map concat]. rewrite app_nil_r, !(assoc_L (++)).
  by rewrite last_snoc.
Qed.

(** An inline request made of arguments quoted as sdscatrepr does, with any blanks
    between them, gives exactly those arguments that are not empty, and leaves what
    follows the line when the line ends with a carriage return and a newline; when it
    ends with a newline alone, as processInlineBuffer also accepts, the first byte of what
    follows is lost. *)
Theorem processInlineBuffer_quoted (c : @redisClient R) items e y :
  Forall QuoteFacts.item_ok items -> QuoteFacts.separated items -> Forall (fun it => Forall (fun b => b <> 10) it.1) items ->
  e = crlf \/ e = [10] -> SdsSpec.rep (querybuf c) (QuoteFacts.line_of items ++ e ++ y) ->
  exists c', processInlineBuffer junk queue_reply unixtime c = Some (c', true) /\
    argv c' = map RawString (nonempty (map snd items)) /\
    SdsSpec.rep (querybuf c') (if bool_decide (e = crlf) then y else drop 1 y).
Proof.
  intros Hok Hsep Hbl He Hr. set (l := QuoteFacts.line_of items) in *.
  destruct (QuoteFacts.splitargs_ok junk items [] (S (length (l ++ [0]))) [] Hok Hsep) as (vs & Evs & Hvs).
  { subst l. rewrite length_app. pose proof (line_long items). cbn. lia. }
  assert (Forall (fun b => b <> 10 /\ b <> 0) l) as Hl.
  { subst l. clear -Hok Hbl. induction items as [|[b a] items IH]; [constructor|].
    apply Forall_cons in Hok as [(Hb & Ha & _) Hok], Hbl as [Hb2 Hbl]. unfold QuoteFacts.line_of. cbn [map concat fst snd] in *.
    apply Forall_app. split; [|by apply IH]. apply Forall_app. split; [|by apply quoted_plain].
    rewrite Forall_forall in *. intros z Hz. split; [by apply Hb2|]. by apply QuoteFacts.blank_nonzero, Hb. }
  destruct (inline_line_ok c l e y vs (map snd items) Hr) as (c' & E & Ha & Hq); [|done|exact Evs| |].
  - destruct He as [->| ->]; [by right|left]. split; [done|]. subst l. apply line_last.
  - clear -Hvs. induction Hvs; constructor; done.
  - exists c'. split; [done|]. split; [done|]. replace (if bool_decide (e = crlf) then y else drop 1 y) with
      (drop (Z.to_nat (Z.min (zlen l + 2) (zlen (l ++ e ++ y)))) (l ++ e ++ y)); [done|].
    destruct He as [->| ->].
    + rewrite bool_decide_true by done. unfold crlf. rewrite Z.min_l by zlia. rewrite (assoc_L (++)). apply drop_app_length'.
      rewrite length_app. cbn. unfold zlen. lia.
    + rewrite bool_decide_false by done. destruct y as [|b y].
      * rewrite Z.min_r by zlia. apply drop_ge. unfold zlen. lia.
      * rewrite Z.min_l by zlia. change (l ++ [10] ++ b :: y) with (l ++ [10; b] ++ y). rewrite (assoc_L (++)).
        cbn [drop]. apply drop_app_length'. rewrite length_app. cbn. unfold zlen. lia.
Qed.

End Inline.

(** *** A blocked client *)

(** A server that keeps the commands it runs, and its replies. *)
Definition log_command (w : list (list robj)) (c : @redisClient (list (list Z))) : option (list (list robj) * redisClient * bool) :=
  Some (w ++ [argv c], c, true).
Definition log_reply (r : list (list Z)) (s : list Z) : list (list Z) := r ++ [s].

(** Six arguments, four of 17000 bytes, cut after the dollar of the last one. *)
Definition big_command : list (list Z) := [109; 115; 101; 116] :: replicate 4 (replicate (Z.to_nat 17000) 120) ++ [[120]].
Definition big_stream : list Z := take (length (enc_command big_command) - 6) (enc_command big_command).

(** The reads of the stream by a client whose flags are [fl], and then its requests when
    it is not blocked any more: the number of commands that ran, and whether the client
    is to be closed. *)
Definition run_blocked (fl : Z) : option (nat * bool) :=
  c ← createClient 0 [];
  '(w, c, _) ← serve (fun _ => 0) log_reply 0 (1024 * 1024 * 1024) log_command (replicate 5 (Z.to_nat 16384)) big_stream [] (set_flags c fl);
  '(w, c) ← processInputBuffer (fun _ => 0) log_reply 0 log_command (Z.to_nat 100000) w (set_flags c 0);
  Some (length w, has_flag c REDIS_CLOSE_AFTER_REPLY).

(** A client that is blocked while it sends a valid command of more than 64 KB is
    rejected with a protocol error when it is unblocked, if the command is cut in the
    length of an argument: the test of the size of that line counts the arguments before
    it.  The same reads are accepted from a client that was not blocked. *)
Theorem blocked_client_rejected : command_ok big_command /\
  run_blocked REDIS_BLOCKED = Some (0%nat, true) /\ run_blocked 0 = Some (0%nat, false).
Proof.
  split_and!; [|vm_compute; reflexivity|vm_compute; reflexivity].
  split_and!; [done|vm_compute; discriminate|]. unfold args_ok, big_command. repeat (constructor; [vm_compute; discriminate|]). constructor.
Qed.

(** ** Witnesses *)

Definition sample_commands : list (list (list Z)) := [[[71; 69; 84]; [97]]; [[80; 73; 78; 71]]; [[83]; []; [13; 10; 0]]].

Lemma requests_in_order_witness : exists c c', createClient 0 [] = Some c /\
  serve (fun _ => 85) log_reply 0 (1024 * 1024 * 1024) log_command (flat_map (fun n => [n; 0%nat; 6%nat]) (replicate 40 2%nat)) (enc_stream sample_commands) [] c =
    Some (map (map RawString) sample_commands, c', []).
Proof.
  destruct (requests_in_order (fun _ => 85) log_reply 0 (1024 * 1024 * 1024) log_command (fun w a => w ++ [a])
    ltac:(intros w c Hf; by exists c) ltac:(lia) sample_commands [] (flat_map (fun n => [n; 0%nat; 6%nat]) (replicate 40 2%nat)) []) as
    (c & Ec & w' & c' & s' & ran & left & E & E1 & -> & H1 & _ & H2 & _).
  - unfold sample_commands, command_ok, args_ok. repeat (first [apply List.Forall_nil | apply List.Forall_cons]); split_and!; try done;
      repeat (first [apply List.Forall_nil | apply List.Forall_cons]); vm_compute; discriminate.
  - exists c, c'. split; [done|]. rewrite E. rewrite (H2 ltac:(vm_compute; lia)) in *. rewrite (H1 eq_refl), app_nil_r in E1. rewrite <- E1.
    do 3 f_equal.
Defined.

Definition inline_client : @redisClient (list (list Z)) :=
  Client (Sds 13 0 [34; 80; 73; 34; 32; 34; 34; 10; 80; 73; 78; 71; 10; 0]) 0 0 [] 1 0 (-1) 0 0 0 0 [].

Lemma processInlineBuffer_quoted_witness : exists c', processInlineBuffer (fun _ => 85) log_reply 0 inline_client = Some (c', true) /\
  argv c' = [RawString [80; 73]] /\ SdsSpec.rep (querybuf c') [73; 78; 71; 10].
Proof.
  apply (processInlineBuffer_quoted (fun _ => 85) log_reply 0 inline_client [([], [80; 73]); ([32], [])] [10] [80; 73; 78; 71; 10]).
  - repeat constructor; vm_compute; try done; intuition discriminate.
  - repeat constructor; done.
  - repeat constructor; done.
  - by right.
  - exists []. vm_compute. done.
Defined.

End NetworkThms.
