(* ===== verification/Adlist.v ===== *)
(** * adlist.c: doubly linked lists

    Nodes live in a memory, a finite map from addresses to nodes.  A list may own
    functions on its values: [dup] copies one or fails, [match_] compares one with a key,
    and [free] has an effect on a state [F]. *)

From S2P Require Import Prelude.

Section Adlist.
Context {V F : Type} `{EqDecision V}.

Record listNode := Node { prev : option nat; next : option nat; value : V }.

(** [len] is an unsigned long. *)
Record dlist := List {
  head : option nat; tail : option nat;
  dup : option (V -> option V); free : option (F -> V -> F); match_ : option (V -> V -> bool); len : Z }.

Inductive direction := AL_START_HEAD | AL_START_TAIL.
Record listIter := Iter { inext : option nat; idirection : direction }.

Abbreviation memory := (gmap nat listNode).

(** The allocator, and the pointers in the bytes of a fresh node. *)
Context (malloc : memory -> nat) (junk : option nat).

(** *** Access *)

Definition set_prev (m : memory) (a : nat) (p : option nat) : option memory :=
  n ← m !! a; Some (<[a := Node p (next n) (value n)]> m).
Definition set_next (m : memory) (a : nat) (p : option nat) : option memory :=
  n ← m !! a; Some (<[a := Node (prev n) p (value n)]> m).
Definition set_ends (l : dlist) (h t : option nat) (n : Z) : dlist := List h t (dup l) (free l) (match_ l) n.

Definition free_value (l : dlist) (f : F) (v : V) : F := match free l with Some g => g f v | None => f end.

(** *** Creation and insertion *)

Definition listCreate : dlist := List None None None None None 0.

(** [zmalloc] of a node, and its value. *)
Definition new_node (m : memory) (v : V) : memory * nat := let x := malloc m in (<[x := Node junk junk v]> m, x).

Definition listAddNodeHead (m : memory) (l : dlist) (v : V) : option (memory * dlist) :=
  let '(m, node) := new_node m v in
  if len l =? 0 then
    m ← set_next m node None;
    m ← set_prev m node None;
    Some (m, set_ends l (Some node) (Some node) (uwrap 64 (len l + 1)))
  else
    m ← set_prev m node None;
    m ← set_next m node (head l);
    h ← head l;
    m ← set_prev m h (Some node);
    Some (m, set_ends l (Some node) (tail l) (uwrap 64 (len l + 1))).

Definition listAddNodeTail (m : memory) (l : dlist) (v : V) : option (memory * dlist) :=
  let '(m, node) := new_node m v in
  if len l =? 0 then
    m ← set_next m node None;
    m ← set_prev m node None;
    Some (m, set_ends l (Some node) (Some node) (uwrap 64 (len l + 1)))
  else
    m ← set_prev m node (tail l);
    m ← set_next m node None;
    t ← tail l;
    m ← set_next m t (Some node);
    Some (m, set_ends l (head l) (Some node) (uwrap 64 (len l + 1))).

Definition listInsertNode (m : memory) (l : dlist) (old_node : nat) (v : V) (after : bool) : option (memory * dlist) :=
  let '(m, node) := new_node m v in
  o ← m !! old_node;
  '(m, h, t) ←
    (if after then
       m ← set_prev m node (Some old_node);
       m ← set_next m node (next o);
       Some (m, head l, if bool_decide (tail l = Some old_node) then Some node else tail l)
     else
       m ← set_next m node (Some old_node);
       m ← set_prev m node (prev o);
       Some (m, (if bool_decide (head l = Some old_node) then Some node else head l), tail l));
  n ← m !! node;
  m ← (match prev n with Some p => set_next m p (Some node) | None => Some m end);
  m ← (match next n with Some q => set_prev m q (Some node) | None => Some m end);
  Some (m, set_ends l h t (uwrap 64 (len l + 1))).

(** *** Deletion *)

Definition listDelNode (m : memory) (l : dlist) (f : F) (node : nat) : option (memory * dlist * F) :=
  n ← m !! node;
  '(m, h) ← (match prev n with
             | Some p => m ← set_next m p (next n); Some (m, head l)
             | None => Some (m, next n)
             end);
  n ← m !! node;
  '(m, t) ← (match next n with
             | Some q => m ← set_prev m q (prev n); Some (m, tail l)
             | None => Some (m, prev n)
             end);
  Some (delete node m, set_ends l h t (uwrap 64 (len l - 1)), free_value l f (value n)).

(** [while(len--)]: the loop on [n] nodes. *)
Fixpoint release_loop (m : memory) (l : dlist) (f : F) (current : option nat) (n : nat) : option (memory * F) :=
  match n with
  | O => Some (m, f)
  | S n =>
      a ← current;
      nd ← m !! a;
      release_loop (delete a m) l (free_value l f (value nd)) (next nd) n
  end.

Definition listRelease (m : memory) (l : dlist) (f : F) : option (memory * F) :=
  release_loop m l f (head l) (Z.to_nat (len l)).

(** *** Iterators *)

Definition listGetIterator (l : dlist) (d : direction) : listIter :=
  Iter (match d with AL_START_HEAD => head l | AL_START_TAIL => tail l end) d.

Definition listRewind (l : dlist) : listIter := Iter (head l) AL_START_HEAD.
Definition listRewindTail (l : dlist) : listIter := Iter (tail l) AL_START_TAIL.

Definition listNext (m : memory) (it : listIter) : option (option nat * listIter) :=
  match inext it with
  | None => Some (None, it)
  | Some a =>
      n ← m !! a;
      Some (Some a, Iter (match idirection it with AL_START_HEAD => next n | AL_START_TAIL => prev n end) (idirection it))
  end.

(** The loop of listDup.  [None] inside is the NULL result, after listRelease. *)
Fixpoint dup_loop (fuel : nat) (m : memory) (f : F) (copy : dlist) (it : listIter) : option (memory * F * option dlist) :=
  '(node, it) ← listNext m it;
  match node with
  | None => Some (m, f, Some copy)
  | Some a =>
      match fuel with
      | O => None
      | S fuel =>
          n ← m !! a;
          match (match dup copy with Some g => g (value n) | None => Some (value n) end) with
          | None => '(m, f) ← listRelease m copy f; Some (m, f, None)
          | Some v => '(m, copy) ← listAddNodeTail m copy v; dup_loop fuel m f copy it
          end
      end
  end.

Definition listDup (m : memory) (f : F) (orig : dlist) : option (memory * F * option dlist) :=
  let copy := List None None (dup orig) (free orig) (match_ orig) 0 in
  dup_loop (Z.to_nat (len orig)) m f copy (listGetIterator orig AL_START_HEAD).

Fixpoint search_loop (fuel : nat) (m : memory) (l : dlist) (key : V) (it : listIter) : option (option nat) :=
  '(node, it) ← listNext m it;
  match node with
  | None => Some None
  | Some a =>
      n ← m !! a;
      if (match match_ l with Some g => g (value n) key | None => bool_decide (key = value n) end)
      then Some (Some a)
      else match fuel with O => None | S fuel => search_loop fuel m l key it end
  end.

Definition listSearchKey (m : memory) (l : dlist) (key : V) : option (option nat) :=
  search_loop (Z.to_nat (len l)) m l key (listGetIterator l AL_START_HEAD).

(** [while(index-- && n) n = n->prev], or next: the walk of at most [index] steps. *)
Fixpoint index_loop (fuel : nat) (m : memory) (step : listNode -> option nat) (index : Z) (n : option nat) : option (option nat) :=
  if index =? 0 then Some n else
  match n with
  | None => Some None
  | Some a =>
      match fuel with
      | O => None
      | S fuel => nd ← m !! a; index_loop fuel m step (index - 1) (step nd)
      end
  end.

Definition listIndex (m : memory) (l : dlist) (index : Z) : option (option nat) :=
  if index <? 0 then index_loop (Z.to_nat (len l)) m prev (swrap 64 (- index) - 1) (tail l)
  else index_loop (Z.to_nat (len l)) m next index (head l).

(** *** Rotation *)

Definition listRotate (m : memory) (l : dlist) : option (memory * dlist) :=
  if len l <=? 1 then Some (m, l) else
  t ← tail l;
  n ← m !! t;
  let tail' := prev n in
  t' ← tail';
  m ← set_next m t' None;
  h ← head l;
  m ← set_prev m h (Some t);
  m ← set_prev m t None;
  m ← set_next m t (Some h);
  Some (m, set_ends l (Some t) tail' (len l)).

End Adlist.
