(* ===== verification/AdlistThms.v ===== *)
(** * The lists of adlist.c implement sequences

    [seg m p L n] says that the nodes of [L], addresses with values, are linked in the
    memory, between the pointers [p] and [n]. *)

From S2P Require Import Prelude Adlist.

Module AdlistSpec.
Section Spec.
Context {V F : Type} `{EqDecision V}.

Definition first (L : list (nat * V)) (n : option nat) : option nat := match L with (a, _) :: _ => Some a | [] => n end.
Definition final (p : option nat) (L : list (nat * V)) : option nat := match last L with Some (a, _) => Some a | None => p end.

Fixpoint seg (m : gmap nat (@listNode V)) (p : option nat) (L : list (nat * V)) (n : option nat) : Prop :=
  match L with
  | [] => True
  | (a, v) :: L' => m !! a = Some (Node p (first L' n) v) /\ seg m (Some a) L' n
  end.

(** The list [l] in memory holds the elements [L]. *)
Record rep (m : gmap nat (@listNode V)) (l : @dlist V F) (L : list (nat * V)) : Prop := {
  rep_seg : seg m None L None;
  rep_nodup : NoDup L.*1;
  rep_head : head l = first L None;
  rep_tail : tail l = final None L;
  rep_len : len l = zlen L;
  rep_small : zlen L < 2 ^ 64 }.

(** The operations, on positions. *)
Inductive op := OHead (v : V) | OTail (v : V) | OInsert (i : nat) (v : V) (after : bool) | ODel (i : nat) | ORotate.

(** Their effect on the sequence of the values. *)
Definition spec (o : op) (xs : list V) : list V :=
  match o with
  | OHead v => v :: xs
  | OTail v => xs ++ [v]
  | OInsert i v after => let i := if after then S i else i in take i xs ++ v :: drop i xs
  | ODel i => take i xs ++ drop (S i) xs
  | ORotate => match last xs with Some v => v :: removelast xs | None => [] end
  end.

Definition op_ok (o : op) (xs : list V) : Prop :=
  match o with
  | OHead _ | OTail _ => zlen xs + 1 < 2 ^ 64
  | OInsert i _ _ => (i < length xs)%nat /\ Z.of_nat i < 2 ^ 63 /\ zlen xs + 1 < 2 ^ 64
  | ODel i => (i < length xs)%nat /\ Z.of_nat i < 2 ^ 63
  | ORotate => True
  end.

Context (malloc : gmap nat (@listNode V) -> nat) (junk : option nat).

(** The operations of the code, on the node at the position; the values deleted are given
    to [free]. *)
Definition exec (o : op) (m : gmap nat (@listNode V)) (l : @dlist V F) (f : F) : option (gmap nat (@listNode V) * @dlist V F * F) :=
  match o with
  | OHead v => '(m, l) ← listAddNodeHead malloc junk m l v; Some (m, l, f)
  | OTail v => '(m, l) ← listAddNodeTail malloc junk m l v; Some (m, l, f)
  | OInsert i v after => n ← listIndex m l (Z.of_nat i); a ← n; '(m, l) ← listInsertNode malloc junk m l a v after; Some (m, l, f)
  | ODel i => n ← listIndex m l (Z.of_nat i); a ← n; listDelNode m l f a
  | ORotate => '(m, l) ← listRotate m l; Some (m, l, f)
  end.

Fixpoint exec_all (os : list op) m l f : option (gmap nat (@listNode V) * @dlist V F * F) :=
  match os with
  | [] => Some (m, l, f)
  | o :: os => '(m, l, f) ← exec o m l f; exec_all os m l f
  end.

Fixpoint ops_ok (os : list op) (xs : list V) : Prop :=
  match os with [] => True | o :: os => op_ok o xs /\ ops_ok os (spec o xs) end.

(** The values a sequence of operations gives to [free]. *)
Definition freed (o : op) (xs : list V) : list V := match o with ODel i => take 1 (drop i xs) | _ => [] end.

End Spec.
End AdlistSpec.

Module AdlistFacts.
Import AdlistSpec.

Section Facts.
Context {V F : Type} `{EqDecision V}.
Implicit Types (m : gmap nat (@listNode V)) (L A B : list (nat * V)) (l : @dlist V F).

(** ** Proofs: segments *)

Lemma first_app A B n : first (A ++ B) n = first A (first B n).
Proof. by destruct A as [|[? ?] ?]. Qed.

Lemma final_snoc p A (a : nat) (v : V) : final p (A ++ [(a, v)]) = Some a.
Proof. unfold final. by rewrite last_snoc. Qed.

Lemma final_cons p (a : nat) (v : V) A : final p ((a, v) :: A) = final (Some a) A.
Proof. unfold final. rewrite last_cons. by destruct (last A) as [[? ?]|]. Qed.

Lemma final_app p A B : final p (A ++ B) = final (final p A) B.
Proof. revert p. induction A as [|[a v] A IH]; intros p; [done|]. by rewrite <- app_comm_cons, !final_cons, IH. Qed.

Lemma seg_app m p A B n : seg m p (A ++ B) n <-> seg m p A (first B n) /\ seg m (final p A) B n.
Proof.
  revert p. induction A as [|[a v] A IH]; intros p; [by cbn; tauto|]. rewrite <- app_comm_cons. cbn [seg].
  rewrite IH, final_cons, first_app. tauto.
Qed.

Lemma seg_frame m m' p L n : (forall a, In a L.*1 -> m' !! a = m !! a) -> seg m p L n -> seg m' p L n.
Proof.
  revert p. induction L as [|[a v] L IH]; intros p Hm; [done|]. cbn [seg]. intros [Ha Hs]. split.
  - rewrite Hm; [done|by left].
  - apply IH; [|done]. intros b Hb. apply Hm. by right.
Qed.

Lemma in_fst a L : In a L.*1 <-> exists v, In (a, v) L.
Proof.
  change L.*1 with (map fst L). rewrite in_map_iff. split.
  - intros ([b v] & <- & Hi). by exists v.
  - intros [v Hv]. by exists (a, v).
Qed.

Lemma nodup_app A B : NoDup (A ++ B).*1 -> NoDup A.*1 /\ NoDup B.*1 /\ (forall a, In a A.*1 -> In a B.*1 -> False).
Proof.
  rewrite fmap_app, NoDup_app. intros (HA & Hd & HB). split_and!; try done. intros a Ha Hb.
  apply (Hd a); by apply list_elem_of_In.
Qed.

(** Changing the pointer at the end of a segment. *)
Lemma set_next_ok m p A (a : nat) (v : V) n n' : seg m p (A ++ [(a, v)]) n -> NoDup (A ++ [(a, v)]).*1 ->
  exists m', set_next m a n' = Some m' /\ seg m' p (A ++ [(a, v)]) n' /\ forall b, b <> a -> m' !! b = m !! b.
Proof.
  intros Hs Hn. apply seg_app in Hs as [HA [Ha _]]. destruct (nodup_app _ _ Hn) as (_ & _ & Hd).
  unfold set_next. rewrite Ha. cbn [mbind option_bind]. eexists. split; [done|].
  assert (forall b, b <> a -> (<[a := Node (final p A) n' v]> m) !! b = m !! b) as Hb by (intros b Hb; by rewrite lookup_insert_ne).
  split; [|exact Hb]. apply seg_app. split.
  - cbn [first] in *. apply (seg_frame m); [|done]. intros b Hi. apply Hb. intros ->. apply (Hd a Hi). by left.
  - cbn [seg first]. by rewrite lookup_insert_eq.
Qed.

(** Changing the pointer at its start. *)
Lemma set_prev_ok m p p' (a : nat) (v : V) B n : seg m p ((a, v) :: B) n -> NoDup ((a, v) :: B).*1 ->
  exists m', set_prev m a p' = Some m' /\ seg m' p' ((a, v) :: B) n /\ forall b, b <> a -> m' !! b = m !! b.
Proof.
  intros [Ha Hs] Hn. apply NoDup_cons in Hn as [Hn _]. cbn [fst] in Hn. unfold set_prev. rewrite Ha. cbn [mbind option_bind].
  eexists. split; [done|]. assert (forall b, b <> a -> (<[a := Node p' (first B n) v]> m) !! b = m !! b) as Hb
    by (intros b Hb; by rewrite lookup_insert_ne).
  split; [|exact Hb]. cbn [seg]. rewrite lookup_insert_eq. split; [done|]. apply (seg_frame m); [|done].
  intros b Hi. apply Hb. intros ->. apply Hn. by apply list_elem_of_In.
Qed.

(** The pointers from the two parts of a list to what lies between them. *)
Lemma join_ok m p A B n n1 p1 x y : seg m p A n1 -> seg m p1 B n -> NoDup (A ++ B).*1 ->
  exists m1 m2, (match final None A with Some a => set_next m a x | None => Some m end) = Some m1 /\
    (match first B None with Some b => set_prev m1 b y | None => Some m1 end) = Some m2 /\
    seg m2 p A x /\ seg m2 y B n /\ forall c, ~ In c (A ++ B).*1 -> m1 !! c = m !! c /\ m2 !! c = m !! c.
Proof.
  intros HA HB Hn. destruct (nodup_app A B Hn) as (NA & NB & Hd).
  assert (exists m1, (match final None A with Some a => set_next m a x | None => Some m end) = Some m1 /\ seg m1 p A x /\
    forall b, ~ In b A.*1 -> m1 !! b = m !! b) as (m1 & E1 & HA1 & Hf1).
  { induction A as [|[a v] A _] using rev_ind; [by exists m|]. rewrite final_snoc.
    destruct (set_next_ok m p A a v n1 x HA NA) as (m1 & -> & Hs & Hf). exists m1. split_and!; [done|done|].
    intros b Hb. apply Hf. intros ->. apply Hb. rewrite fmap_app. apply in_app_iff. right. by left. }
  exists m1. rewrite E1. assert (seg m1 p1 B n) as HB1 by (apply (seg_frame m); [intros b Hb; apply Hf1; intros Ha; by apply (Hd b)|done]).
  destruct B as [|[b v] B]; cbn [first].
  - exists m1. split_and!; try done. intros c Hc. rewrite app_nil_r in Hc. by rewrite Hf1.
  - destruct (set_prev_ok m1 p1 y b v B n HB1 NB) as (m2 & -> & Hs & Hf). exists m2. split_and!; [done|done| |done|].
    + apply (seg_frame m1); [|done]. intros c Hc. apply Hf. intros ->. apply (Hd b Hc). by left.
    + intros c Hc. rewrite fmap_app in Hc. rewrite Hf, Hf1; [done|..].
      * intros Hi. apply Hc, in_app_iff. by left.
      * intros ->. apply Hc, in_app_iff. right. by left.
Qed.

(** ** Proofs: the operations *)

Lemma seg_in m p L n (a : nat) : seg m p L n -> In a L.*1 -> m !! a <> None.
Proof.
  revert p. induction L as [|[b v] L IH]; intros p; [done|]. cbn [seg]. intros [Hb Hs] [E|Hi]; [cbn in E; subst a; by rewrite Hb|by eapply IH].
Qed.

Lemma final_none A : final None A = None <-> A = [].
Proof.
  split; [|by intros ->]. induction A as [|[a v] A _] using rev_ind; [done|]. by rewrite final_snoc.
Qed.

Lemma final_first_none A B : first (A ++ B) None = match final None A with Some _ => first A None | None => first B None end.
Proof.
  destruct A as [|[a v] A]; [done|]. destruct (final None ((a, v) :: A)) eqn:E; [done|]. by apply final_none in E.
Qed.

(** A fresh node and its two pointers. *)
Lemma fresh_node m x j (v : V) p n : m !! x = None ->
  exists m0 m1, set_prev (<[x := Node j j v]> m) x p = Some m0 /\ set_next m0 x n = Some m1 /\ m1 !! x = Some (Node p n v) /\
    forall b, b <> x -> m1 !! b = m !! b.
Proof.
  intros Hx. unfold set_prev, set_next. rewrite lookup_insert_eq. cbn [mbind option_bind]. eexists _, _. split; [done|].
  rewrite lookup_insert_eq. cbn [mbind option_bind]. split; [done|]. split; [by rewrite lookup_insert_eq|].
  intros b Hb. by rewrite !lookup_insert_ne.
Qed.

Lemma fresh_node' m x j (v : V) p n : m !! x = None ->
  exists m0 m1, set_next (<[x := Node j j v]> m) x n = Some m0 /\ set_prev m0 x p = Some m1 /\ m1 !! x = Some (Node p n v) /\
    forall b, b <> x -> m1 !! b = m !! b.
Proof.
  intros Hx. unfold set_prev, set_next. rewrite lookup_insert_eq. cbn [mbind option_bind]. eexists _, _. split; [done|].
  rewrite lookup_insert_eq. cbn [mbind option_bind]. split; [done|]. split; [by rewrite lookup_insert_eq|].
  intros b Hb. by rewrite !lookup_insert_ne.
Qed.

Lemma seg_fresh m m1 x p L n : m !! x = None -> (forall b, b <> x -> m1 !! b = m !! b) -> seg m p L n -> seg m1 p L n /\ ~ In x L.*1.
Proof.
  intros Hx Hf Hs. assert (~ In x L.*1) as Hn by (intros Hi; by apply (seg_in m p L n x Hs Hi)).
  split; [|done]. apply (seg_frame m); [|done]. intros b Hb. apply Hf. by intros ->.
Qed.

(** Linking a node between two parts of a list. *)
Lemma splice_ok m m1 (l : @dlist V F) A B x (v : V) : rep m l (A ++ B) -> m !! x = None -> zlen (A ++ B) + 1 < 2 ^ 64 ->
  m1 !! x = Some (Node (final None A) (first B None) v) -> (forall b, b <> x -> m1 !! b = m !! b) ->
  exists m2 m3, (match final None A with Some a => set_next m1 a (Some x) | None => Some m1 end) = Some m2 /\
    (match first B None with Some b => set_prev m2 b (Some x) | None => Some m2 end) = Some m3 /\
    rep m3 (set_ends l (first (A ++ (x, v) :: B) None) (final None (A ++ (x, v) :: B)) (uwrap 64 (len l + 1))) (A ++ (x, v) :: B) /\
    forall b, m !! b <> None -> ~ In b (A ++ B).*1 -> m3 !! b = m !! b.
Proof.
  intros Hr Hx Hlen Hx1 Hf. destruct Hr. destruct (seg_fresh m m1 x None (A ++ B) None Hx Hf rep_seg0) as [Hs Hnx].
  apply seg_app in Hs as [HA HB].
  destruct (join_ok m1 None A B None _ _ (Some x) (Some x) HA HB rep_nodup0) as (m2 & m3 & E2 & E3 & HA3 & HB3 & Hf3).
  exists m2, m3. split_and!; [done|done| |].
  - constructor; cbn [head tail len set_ends].
    + apply seg_app. split; [done|]. cbn [seg]. split; [|done]. destruct (Hf3 x Hnx) as [_ ->]. exact Hx1.
    + rewrite fmap_app in *. cbn [fmap list_fmap fst]. apply NoDup_app in rep_nodup0 as (HnA & Hd & HnB).
      apply NoDup_app. split_and!; [done| |constructor; [|done]].
      * intros a Ha [->|Hb]%elem_of_cons; [|by apply (Hd a)]. apply Hnx, in_app_iff. left. by apply list_elem_of_In.
      * intros Hi. apply Hnx, in_app_iff. right. by apply list_elem_of_In.
    + done.
    + done.
    + rewrite rep_len0. rewrite u64_small by (pose proof (zlen_nonneg (A ++ B)); lia). zlia.
    + zlia.
  - intros b Hb Hi. destruct (Hf3 b Hi) as [_ ->]. apply Hf. by intros ->.
Qed.

Section Ops.
Context (malloc : gmap nat (@listNode V) -> nat) (junk : option nat) (Hmalloc : forall m, m !! malloc m = None).

Definition grown m (l : @dlist V F) A B x (v : V) m' l' : Prop :=
  l' = set_ends l (first (A ++ (x, v) :: B) None) (final None (A ++ (x, v) :: B)) (uwrap 64 (len l + 1)) /\
  rep m' l' (A ++ (x, v) :: B) /\ m !! x = None /\ forall b, m !! b <> None -> ~ In b (A ++ B).*1 -> m' !! b = m !! b.

Lemma add_head_ok m l L v : rep m l L -> zlen L + 1 < 2 ^ 64 ->
  exists m' l' x, listAddNodeHead malloc junk m l v = Some (m', l') /\ grown m l [] L x v m' l'.
Proof.
  intros Hr Hlen. set (x := malloc m). pose proof (Hmalloc m) as Hx. fold x in Hx. unfold listAddNodeHead, new_node. fold x.
  pose proof (rep_len _ _ _ Hr) as El. rewrite El. destruct L as [|[b w] B].
  - change (zlen [] =? 0) with true. cbv iota.
    destruct (fresh_node' m x junk v None None Hx) as (m0 & m1 & -> & E1 & Hx1 & Hf). cbn [mbind option_bind]. rewrite E1. cbn [mbind option_bind].
    destruct (splice_ok m m1 l [] [] x v Hr Hx Hlen Hx1 Hf) as (m2 & m3 & [= <-] & [= <-] & Hr' & Hf').
    eexists _, _, x. split; [by rewrite <- El|]. done.
  - replace (zlen ((b, w) :: B) =? 0) with false by (symmetry; apply Z.eqb_neq; pose proof (zlen_nonneg B); zlia).
    destruct (fresh_node m x junk v None (head l) Hx) as (m0 & m1 & -> & E1 & Hx1 & Hf). cbn [mbind option_bind]. rewrite E1. cbn [mbind option_bind].
    rewrite (rep_head _ _ _ Hr) in *. cbn [first] in *. cbn [mbind option_bind].
    destruct (splice_ok m m1 l [] ((b, w) :: B) x v Hr Hx Hlen Hx1 Hf) as (m2 & m3 & [= <-] & E3 & Hr' & Hf').
    cbn [first] in E3. rewrite E3. cbn [mbind option_bind]. eexists _, _, x. split; [|done].
    rewrite (rep_tail _ _ _ Hr), <- El. done.
Qed.

Lemma list_add_tail_ok m l L v : rep m l L -> zlen L + 1 < 2 ^ 64 ->
  exists m' l' x, listAddNodeTail malloc junk m l v = Some (m', l') /\ grown m l L [] x v m' l'.
Proof.
  intros Hr Hlen. set (x := malloc m). pose proof (Hmalloc m) as Hx. fold x in Hx. unfold listAddNodeTail, new_node. fold x.
  pose proof (rep_len _ _ _ Hr) as El. rewrite El. unfold grown. rewrite app_nil_r. destruct L as [|y L'] eqn:EL.
  - change (zlen [] =? 0) with true. cbv iota.
    destruct (fresh_node' m x junk v None None Hx) as (m0 & m1 & -> & E1 & Hx1 & Hf). cbn [mbind option_bind]. rewrite E1. cbn [mbind option_bind].
    destruct (splice_ok m m1 l [] [] x v Hr Hx Hlen Hx1 Hf) as (m2 & m3 & [= <-] & [= <-] & Hr' & Hf').
    eexists _, _, x. split; [by rewrite <- El|]. done.
  - rewrite <- EL in *. replace (zlen L =? 0) with false by (symmetry; apply Z.eqb_neq; rewrite EL; pose proof (zlen_nonneg L'); zlia).
    destruct (fresh_node m x junk v (tail l) None Hx) as (m0 & m1 & -> & E1 & Hx1 & Hf). cbn [mbind option_bind]. rewrite E1. cbn [mbind option_bind].
    rewrite (rep_tail _ _ _ Hr) in *. rewrite <- (app_nil_r L) in Hr, Hlen.
    destruct (splice_ok m m1 l L [] x v Hr Hx Hlen Hx1 Hf) as (m2 & m3 & E2 & [= <-] & Hr' & Hf'). rewrite app_nil_r in *.
    destruct (final None L) as [t|] eqn:Et; [|by apply final_none in Et; subst].
    cbn [mbind option_bind]. rewrite E2. cbn [mbind option_bind]. eexists _, _, x. split; [|done].
    rewrite (rep_head _ _ _ Hr), <- El. unfold set_ends. do 3 f_equal; [|by rewrite final_snoc].
    rewrite EL. by destruct y.
Qed.

Lemma rep_mid m l A a v B : rep m l (A ++ (a, v) :: B) -> m !! a = Some (Node (final None A) (first B None) v).
Proof. intros Hr. pose proof (rep_seg _ _ _ Hr) as Hs. apply seg_app in Hs as [_ [Ha _]]. exact Ha. Qed.

(** A node of the list is at an end exactly when there is nothing beyond it. *)
Lemma tail_is_last m l A a v B : rep m l (A ++ (a, v) :: B) -> bool_decide (tail l = Some a) = bool_decide (B = []).
Proof.
  intros Hr. rewrite (rep_tail _ _ _ Hr). apply bool_decide_ext. rewrite final_app, final_cons. split; [|by intros ->].
  destruct B as [|[b w] B _] using rev_ind; [done|]. rewrite final_snoc. intros [= ->]. exfalso.
  pose proof (rep_nodup _ _ _ Hr) as Hn. change ((a, v) :: B ++ [(a, w)]) with ([(a, v)] ++ (B ++ [(a, w)])) in Hn.
  rewrite (assoc_L (++)) in Hn. destruct (nodup_app _ _ Hn) as (_ & _ & Hd).
  apply (Hd a); rewrite fmap_app; apply in_app_iff; right; by left.
Qed.

Lemma head_is_first m l A a v B : rep m l (A ++ (a, v) :: B) -> bool_decide (head l = Some a) = bool_decide (A = []).
Proof.
  intros Hr. rewrite (rep_head _ _ _ Hr). apply bool_decide_ext. split; [|by intros ->].
  destruct A as [|[b w] A]; [done|]. cbn. intros [= ->]. exfalso. pose proof (rep_nodup _ _ _ Hr) as Hn.
  destruct (nodup_app _ _ Hn) as (_ & _ & Hd). by apply (Hd a); left.
Qed.

Lemma list_insert_ok m l A a w B v (after : bool) : rep m l (A ++ (a, w) :: B) -> zlen (A ++ (a, w) :: B) + 1 < 2 ^ 64 ->
  exists m' l' x, listInsertNode malloc junk m l a v after = Some (m', l') /\
    if after then grown m l (A ++ [(a, w)]) B x v m' l' else grown m l A ((a, w) :: B) x v m' l'.
Proof.
  intros Hr Hlen. set (x := malloc m). pose proof (Hmalloc m) as Hx. fold x in Hx. unfold listInsertNode, new_node. fold x.
  pose proof (rep_mid _ _ _ _ _ _ Hr) as Ha. assert (a <> x) as Hax by (intros ->; congruence).
  rewrite lookup_insert_ne, Ha by done. cbn [mbind option_bind next prev].
  pose proof (tail_is_last _ _ _ _ _ _ Hr) as Ht. pose proof (head_is_first _ _ _ _ _ _ Hr) as Hh.
  destruct after.
  - destruct (fresh_node m x junk v (Some a) (first B None) Hx) as (m0 & m1 & -> & E1 & Hx1 & Hf). cbn [mbind option_bind]. rewrite E1. cbn [mbind option_bind].
    rewrite Hx1. cbn [mbind option_bind next prev].
    assert (A ++ (a, w) :: B = (A ++ [(a, w)]) ++ B) as EL by (by rewrite <- (assoc_L (++))). rewrite EL in *.
    rewrite <- (final_snoc None A a w) in Hx1.
    destruct (splice_ok m m1 l (A ++ [(a, w)]) B x v Hr Hx Hlen Hx1 Hf) as (m2 & m3 & E2 & E3 & Hr' & Hf').
    rewrite final_snoc in E2. rewrite E2. cbn [mbind option_bind]. rewrite E3. cbn [mbind option_bind]. eexists _, _, x. split; [|done].
    unfold set_ends. do 3 f_equal; [rewrite (rep_head _ _ _ Hr); by rewrite <- !(assoc_L (++)), !first_app|].
    rewrite Ht. rewrite (final_app None _ ((x, v) :: B)), final_cons. destruct B as [|y B]; [done|]. rewrite bool_decide_false by done.
    rewrite (rep_tail _ _ _ Hr), final_app. by destruct y; rewrite !final_cons.
  - destruct (fresh_node' m x junk v (final None A) (Some a) Hx) as (m0 & m1 & -> & E1 & Hx1 & Hf). cbn [mbind option_bind]. rewrite E1. cbn [mbind option_bind].
    rewrite Hx1. cbn [mbind option_bind next prev].
    destruct (splice_ok m m1 l A ((a, w) :: B) x v Hr Hx Hlen Hx1 Hf) as (m2 & m3 & E2 & E3 & Hr' & Hf').
    rewrite E2. cbn [mbind option_bind]. cbn [first] in E3. rewrite E3. cbn [mbind option_bind]. eexists _, _, x. split; [|done].
    unfold set_ends. do 3 f_equal; [|rewrite (rep_tail _ _ _ Hr); by rewrite !final_app, !final_cons].
    rewrite Hh. destruct A as [|[b u] A]; [done|]. rewrite bool_decide_false by done. by rewrite (rep_head _ _ _ Hr).
Qed.

Lemma del_node_ok m l A a v B f : rep m l (A ++ (a, v) :: B) ->
  exists m' l', listDelNode m l f a = Some (m', l', free_value l f v) /\ rep m' l' (A ++ B) /\ free l' = free l.
Proof.
  intros Hr. pose proof (rep_mid _ _ _ _ _ _ Hr) as Ha. pose proof Hr as []. apply seg_app in rep_seg0 as [HA [_ HB]]. cbn [first] in HA.
  assert (NoDup (A ++ B).*1 /\ ~ In a (A ++ B).*1) as [Hn Hna].
  { rewrite !fmap_app in *. cbn in rep_nodup0. apply NoDup_app in rep_nodup0 as (HnA & Hd & HnB). apply NoDup_cons in HnB as [HaB HnB].
    split; [apply NoDup_app; split_and!; try done; intros c Hc Hc2; apply (Hd c Hc); by right|].
    intros [Hi|Hi]%in_app_iff; [|by apply HaB, list_elem_of_In]. apply (Hd a); [by apply list_elem_of_In|by left]. }
  destruct (join_ok m None A B None _ _ (first B None) (final None A) HA HB Hn) as (m1 & m2 & E1 & E2 & HA2 & HB2 & Hf).
  destruct (Hf a Hna) as [Hm1 Hm2].
  assert (zlen (A ++ (a, v) :: B) = zlen (A ++ B) + 1) as Hl by zlia.
  unfold listDelNode. rewrite Ha. cbn [mbind option_bind prev next].
  assert ((match final None A with Some p => m ← set_next m p (first B None); Some (m, head l) | None => Some (m, first B None) end) =
    Some (m1, first (A ++ B) None)) as ->.
  { rewrite (final_first_none A B), rep_head0, (final_first_none A ((a, v) :: B)).
    destruct (final None A); [rewrite E1|injection E1 as <-]; done. }
  cbn [mbind option_bind]. rewrite Hm1, Ha. cbn [mbind option_bind prev next].
  assert ((match first B None with Some q => m ← set_prev m1 q (final None A); Some (m, tail l) | None => Some (m1, final None A) end) =
    Some (m2, final None (A ++ B))) as ->.
  { rewrite rep_tail0. rewrite !final_app, final_cons. destruct B as [|[b w] B]; cbn [first] in *.
    - by injection E2 as <-.
    - rewrite E2. by rewrite !final_cons. }
  cbn [mbind option_bind value]. eexists _, _. split; [done|]. split; [|done]. constructor; cbn [head tail len set_ends]; try done.
  - apply (seg_frame m2); [intros b Hb; apply lookup_delete_ne; by intros ->|]. apply seg_app. done.
  - rewrite rep_len0, Hl. replace (zlen (A ++ B) + 1 - 1) with (zlen (A ++ B)) by lia. apply u64_small. pose proof (zlen_nonneg (A ++ B)). lia.
  - lia.
Qed.

Lemma rotate_ok m l A a v : rep m l (A ++ [(a, v)]) ->
  exists m' l', listRotate m l = Some (m', l') /\ rep m' l' ((a, v) :: A) /\ free l' = free l.
Proof.
  intros Hr. unfold listRotate. destruct A as [|[b w] A'] eqn:EA.
  { rewrite (rep_len _ _ _ Hr). cbn. by exists m, l. }
  rewrite <- EA in *. pose proof (rep_mid _ _ _ _ _ _ Hr) as Ha. cbn [first] in Ha. pose proof Hr as [].
  replace (len l <=? 1) with false by (symmetry; apply Z.leb_gt; rewrite rep_len0, EA; pose proof (zlen_nonneg A'); zlia).
  rewrite rep_tail0, final_snoc. cbn [mbind option_bind]. rewrite Ha. cbn [mbind option_bind prev].
  destruct (final None A) as [t|] eqn:Et; [|by apply final_none in Et; subst]. cbn [mbind option_bind].
  apply seg_app in rep_seg0 as [HA [_ _]]. cbn [first] in HA. destruct (nodup_app _ _ rep_nodup0) as (HnA & _ & Hd).
  assert (~ In a A.*1) as Hna by (intros Hi; apply (Hd a Hi); by left).
  destruct (join_ok m None A [] None (Some a) None None None HA I ltac:(by rewrite app_nil_r)) as (m1 & m1' & E1 & [= <-] & HA1 & _ & Hf1).
  rewrite Et in E1. rewrite E1. cbn [mbind option_bind]. rewrite rep_head0, EA. cbn [app first mbind option_bind]. rewrite EA in HA1, HnA.
  destruct (set_prev_ok m1 None (Some a) b w A' None HA1 HnA) as (m2 & -> & HA2 & Hf2). cbn [mbind option_bind]. rewrite <- EA in *.
  assert (m2 !! a = Some (Node (Some t) None v)) as Ha2.
  { rewrite Hf2; [destruct (Hf1 a) as [_ ->]; [by rewrite app_nil_r|exact Ha]|]. intros ->. apply Hna. rewrite EA. by left. }
  unfold set_prev, set_next. rewrite Ha2. cbn [mbind option_bind]. rewrite lookup_insert_eq. cbn [mbind option_bind prev next value].
  eexists _, _. split; [done|]. split; [|done]. constructor; cbn [head tail len set_ends]; try done.
  - cbn [seg]. rewrite lookup_insert_eq. split; [by rewrite EA|]. apply (seg_frame m2); [|done].
    intros c Hc. rewrite !lookup_insert_ne; [done|by intros ->..].
  - change (NoDup (a :: A.*1)). apply NoDup_cons. split; [by rewrite list_elem_of_In|done].
  - by rewrite final_cons, <- Et, EA, !final_cons.
  - rewrite rep_len0. zlia.
  - revert rep_small0. zlia.
Qed.

End Ops.

(** ** Proofs: searches *)

Lemma index_next_ok m L : forall p fuel i, seg m p L None -> (length L <= fuel)%nat ->
  index_loop fuel m next (Z.of_nat i) (first L None) = Some (fst <$> L !! i).
Proof.
  induction L as [|[a v] L IH]; intros p fuel i Hs Hf; cbn [first].
  - destruct fuel, i; done.
  - destruct fuel as [|fuel]; [cbn in Hf; lia|]. cbn [index_loop]. destruct i as [|i]; [done|].
    replace (Z.of_nat (S i) =? 0) with false by (symmetry; apply Z.eqb_neq; lia). destruct Hs as [-> Hs]. cbn [mbind option_bind next].
    replace (Z.of_nat (S i) - 1) with (Z.of_nat i) by lia. cbn [length] in Hf. apply (IH (Some a)); [done|lia].
Qed.

Lemma index_prev_ok m L : forall n fuel i, seg m None L n -> (length L <= fuel)%nat ->
  index_loop fuel m prev (Z.of_nat i) (final None L) = Some (fst <$> reverse L !! i).
Proof.
  induction L as [|[a v] L IH] using rev_ind; intros n fuel i Hs Hf.
  - destruct fuel, i; done.
  - rewrite length_app in Hf. cbn in Hf. destruct fuel as [|fuel]; [lia|]. rewrite final_snoc, reverse_snoc. cbn [index_loop]. destruct i as [|i]; [done|].
    replace (Z.of_nat (S i) =? 0) with false by (symmetry; apply Z.eqb_neq; lia). apply seg_app in Hs as [HA [-> _]]. cbn [mbind option_bind prev].
    replace (Z.of_nat (S i) - 1) with (Z.of_nat i) by lia. apply (IH _ fuel i HA). lia.
Qed.

(** The element at an index, from the end when it is negative. *)
Definition at_index (L : list (nat * V)) (i : Z) : option (nat * V) :=
  if i <? 0 then reverse L !! Z.to_nat (- i - 1) else L !! Z.to_nat i.

Lemma list_index_ok m (l : @dlist V F) L i : rep m l L -> - 2 ^ 63 < i < 2 ^ 63 -> listIndex m l i = Some (fst <$> at_index L i).
Proof.
  intros Hr Hi. unfold listIndex, at_index. assert (length L <= Z.to_nat (len l))%nat as Hl by (rewrite (rep_len _ _ _ Hr); unfold zlen; lia).
  pose proof (rep_seg _ _ _ Hr) as Hs. destruct (Z.ltb_spec i 0).
  - rewrite s64_small by lia. rewrite <- (Z2Nat.id (- i - 1)) at 1 by lia. rewrite (rep_tail _ _ _ Hr). by apply index_prev_ok with None.
  - rewrite <- (Z2Nat.id i) at 1 by lia. rewrite (rep_head _ _ _ Hr). by apply index_next_ok with None.
Qed.

(** The test of a key. *)
Definition matches (l : @dlist V F) (key v : V) : bool :=
  match match_ l with Some g => g v key | None => bool_decide (key = v) end.

Lemma list_search_loop_ok m l key B : forall fuel p, seg m p B None -> (length B <= fuel)%nat ->
  search_loop fuel m l key (Iter (first B None) AL_START_HEAD) = Some (fst <$> List.find (fun '(_, v) => matches l key v) B).
Proof.
  induction B as [|[a v] B IH]; intros fuel p Hs Hf; [by destruct fuel|]. destruct fuel as [|fuel]; [cbn in Hf; lia|].
  cbn [first search_loop]. unfold listNext. cbn [inext idirection]. destruct Hs as [Ha Hs]. rewrite Ha. cbn [mbind option_bind next value]. rewrite Ha. cbn [mbind option_bind value].
  fold (matches l key v). cbn [List.find]. destruct (matches l key v); [done|]. cbn [length] in Hf. apply (IH fuel (Some a)); [done|lia].
Qed.

Lemma list_search_ok m l L key : rep m l L -> listSearchKey m l key = Some (fst <$> List.find (fun '(_, v) => matches l key v) L).
Proof.
  intros Hr. unfold listSearchKey, listGetIterator. rewrite (rep_head _ _ _ Hr). apply list_search_loop_ok with None; [apply (rep_seg _ _ _ Hr)|].
  rewrite (rep_len _ _ _ Hr). unfold zlen. lia.
Qed.

(** ** Proofs: release and copy *)

Lemma release_loop_ok l L : forall m p f, seg m p L None -> NoDup L.*1 ->
  exists m', release_loop m l f (first L None) (length L) = Some (m', foldl (free_value l) f L.*2) /\
    (forall b, In b L.*1 -> m' !! b = None) /\ forall b, ~ In b L.*1 -> m' !! b = m !! b.
Proof.
  induction L as [|[a v] L IH]; intros m p f Hs Hn; [by exists m|]. cbn [first length release_loop mbind option_bind].
  destruct Hs as [-> Hs]. cbn [mbind option_bind value next]. apply NoDup_cons in Hn as [Hna Hn].
  assert (~ In a L.*1) as Hi by (intros Hi; by apply Hna, list_elem_of_In).
  destruct (IH (delete a m) (Some a) (free_value l f v)) as (m' & -> & H1 & H2); [|done|].
  { apply (seg_frame m); [|done]. intros b Hb. apply lookup_delete_ne. by intros ->. }
  exists m'. split; [done|]. split.
  - intros b [E|Hb]; [cbn in E; subst b; rewrite H2 by done; apply lookup_delete_eq|by apply H1].
  - intros b Hb. rewrite H2 by (intros Hb2; apply Hb; by right). apply lookup_delete_ne. intros ->. apply Hb. by left.
Qed.

Section Dup.
Context (malloc : gmap nat (@listNode V) -> nat) (junk : option nat) (Hmalloc : forall m, m !! malloc m = None).

Definition dup_value (l : @dlist V F) (v : V) : option V := match dup l with Some g => g v | None => Some v end.

(** What the copy of the elements [B] after those of [copy] gives. *)
Definition dup_result m f copy C B : Prop :=
  match mapM (dup_value copy) B.*2 with
  | Some vs => exists m' copy' C', dup_loop malloc junk (length B) m f copy (Iter (first B None) AL_START_HEAD) = Some (m', f, Some copy') /\
      rep m' copy' (C ++ C') /\ C'.*2 = vs /\ dup copy' = dup copy /\ free copy' = free copy /\ match_ copy' = match_ copy /\
      forall b, m !! b <> None -> ~ In b C.*1 -> m' !! b = m !! b
  | None => exists m' f', dup_loop malloc junk (length B) m f copy (Iter (first B None) AL_START_HEAD) = Some (m', f', None) /\
      forall b, m !! b <> None -> ~ In b C.*1 -> m' !! b = m !! b
  end.

Lemma dup_loop_ok f B : forall m p copy C, seg m p B None -> rep m copy C -> (forall b, In b B.*1 -> ~ In b C.*1) ->
  zlen C + zlen B < 2 ^ 64 -> NoDup B.*1 -> dup_result m f copy C B.
Proof.
  induction B as [|[a v] B IH]; intros m p copy C Hs Hr Hd Hl Hn; unfold dup_result; cbn [mapM fmap list_fmap snd].
  - exists m, copy, []. rewrite app_nil_r. done.
  - destruct Hs as [Ha Hs]. cbn [length first dup_loop]. unfold listNext. cbn [inext idirection]. rewrite Ha. cbn [mbind option_bind next value].
    rewrite Ha. cbn [mbind option_bind value]. fold (dup_value copy v). destruct (dup_value copy v) as [w|] eqn:Ew; cbn [mbind option_bind].
    + assert (zlen C + 1 < 2 ^ 64) as Hl1 by (pose proof (zlen_nonneg B); revert Hl; zlia).
      destruct (list_add_tail_ok malloc junk Hmalloc m copy C w Hr Hl1) as (m1 & copy1 & x & -> & El & Hr1 & Hx & Hf1). cbn [mbind option_bind].
      rewrite app_nil_r in Hf1. apply NoDup_cons in Hn as [Hna Hn].
      assert (forall b, In b B.*1 -> m1 !! b = m !! b) as HfB.
      { intros b Hb. apply Hf1; [by apply (seg_in m (Some a) B None)|apply Hd; by right]. }
      assert (forall b, In b B.*1 -> ~ In b (C ++ [(x, w)]).*1) as Hd1.
      { intros b Hb Hi. rewrite fmap_app in Hi. apply in_app_iff in Hi as [Hi|[E|[]]]; [by apply (Hd b); [right|]|].
        cbn in E. subst b. by apply (seg_in m (Some a) B None x Hs Hb). }
      pose proof (IH m1 (Some a) copy1 (C ++ [(x, w)]) ltac:(by apply (seg_frame m)) Hr1 Hd1 ltac:(revert Hl; zlia) Hn) as G.
      unfold dup_result in G. assert (dup_value copy1 = dup_value copy) as Edv by (by rewrite El). rewrite Edv in G.
      assert (forall m2 : gmap nat listNode, (forall b, m1 !! b <> None -> ~ In b (C ++ [(x, w)]).*1 -> m2 !! b = m1 !! b) ->
        forall b, m !! b <> None -> ~ In b C.*1 -> m2 !! b = m !! b) as Hfr.
      { intros m2 H2 b Hb Hi. assert (b <> x) by (by intros ->). rewrite H2, Hf1; try done; [by rewrite Hf1|].
        rewrite fmap_app, in_app_iff. intros [?|[E|[]]]; [done|]. by cbn in E. }
      destruct (mapM (dup_value copy) B.*2) as [vs|].
      * destruct G as (m2 & copy2 & C' & -> & Hr2 & Ev & E1 & E2 & E3 & Hf2). exists m2, copy2, ((x, w) :: C').
        rewrite El in E1, E2, E3. split_and!; try done; [by rewrite <- (assoc_L (++)) in Hr2|by rewrite <- Ev|by apply Hfr].
      * destruct G as (m2 & f2 & -> & Hf2). exists m2, f2. split; [done|by apply Hfr].
    + destruct (release_loop_ok copy C m None f (rep_seg _ _ _ Hr) (rep_nodup _ _ _ Hr)) as (m' & E & H1 & H2).
      unfold listRelease. rewrite (rep_head _ _ _ Hr), (rep_len _ _ _ Hr). unfold zlen. rewrite Nat2Z.id, E. cbn [mbind option_bind].
      eexists _, _. split; [done|]. intros b _ Hb. by apply H2.
Qed.

End Dup.
End Facts.
End AdlistFacts.

Module AdlistThms.
Import AdlistSpec AdlistFacts.

Section Thms.
Context {V F : Type} `{EqDecision V} (malloc : gmap nat (@listNode V) -> nat) (junk : option nat).
Context (Hmalloc : forall m, m !! malloc m = None).
Implicit Types (m : gmap nat (@listNode V)) (l : @dlist V F) (L : list (nat * V)).

Lemma split_lookup L i a v : L !! i = Some (a, v) -> L = take i L ++ (a, v) :: drop (S i) L.
Proof. intros Hi. by rewrite <- (take_drop_middle L i (a, v) Hi) at 1. Qed.

Lemma values_split L i : (take i L).*2 = take i L.*2 /\ (drop i L).*2 = drop i L.*2.
Proof. split; [apply fmap_take|apply fmap_drop]. Qed.

(** The node at a position, and the list around it. *)
Lemma node_at m l L i : rep m l L -> (i < length L.*2)%nat -> Z.of_nat i < 2 ^ 63 ->
  exists a v, L = take i L ++ (a, v) :: drop (S i) L /\ listIndex m l (Z.of_nat i) = Some (Some a) /\
    take (S i) L.*2 = take i L.*2 ++ [v] /\ drop i L.*2 = v :: drop (S i) L.*2.
Proof.
  intros Hr Hi Hb. rewrite length_fmap in Hi. destruct (lookup_lt_is_Some_2 L i Hi) as [[a v] Ha]. exists a, v.
  assert (L.*2 !! i = Some v) as Hv by (by rewrite list_lookup_fmap, Ha).
  split_and!; [by apply split_lookup| |by apply take_S_r|by apply drop_S].
  rewrite (list_index_ok m l L) by (done || lia). unfold at_index. replace (Z.of_nat i <? 0) with false by (symmetry; apply Z.ltb_ge; lia).
  by rewrite Nat2Z.id, Ha.
Qed.

Fixpoint freed_all (os : list op) (xs : list V) : list V :=
  match os with [] => [] | o :: os => freed o xs ++ freed_all os (spec o xs) end.

Lemma list_exec_ok o m l L f : rep m l L -> op_ok o L.*2 ->
  exists m' l' L', exec malloc junk o m l f = Some (m', l', foldl (free_value l) f (freed o L.*2)) /\ rep m' l' L' /\
    L'.*2 = spec o L.*2 /\ free l' = free l.
Proof.
  intros Hr Hok. assert (zlen L.*2 = zlen L) as Hzl by (unfold zlen; by rewrite length_fmap). pose proof (rep_small _ _ _ Hr) as Hsm.
  destruct o as [v|v|i v after|i|]; cbn [exec op_ok freed spec] in *.
  - destruct (add_head_ok malloc junk Hmalloc m l L v Hr) as (m' & l' & x & -> & El & Hr' & _); [lia|]. cbn [mbind option_bind].
    exists m', l', ((x, v) :: L). split_and!; try done. by rewrite El.
  - destruct (list_add_tail_ok malloc junk Hmalloc m l L v Hr) as (m' & l' & x & -> & El & Hr' & _); [lia|]. cbn [mbind option_bind].
    exists m', l', (L ++ [(x, v)]). split_and!; try done; [by rewrite fmap_app|by rewrite El].
  - destruct Hok as (Hi & Hb & Hl). destruct (node_at m l L i Hr Hi Hb) as (a & w & Ha & Ea & Hv & Ed). rewrite Ea. cbn [mbind option_bind].
    rewrite Ha in Hr, Hl, Hzl. rewrite Hzl in Hl.
    destruct (list_insert_ok malloc junk Hmalloc m l _ a w _ v after Hr Hl) as (m' & l' & x & -> & G). cbn [mbind option_bind]. destruct after.
    + destruct G as (El & Hr' & _). exists m', l', ((take i L ++ [(a, w)]) ++ (x, v) :: drop (S i) L). split_and!; try done; [|by rewrite El].
      rewrite !fmap_app. cbn [fmap list_fmap snd]. fold (@fmap list _ (nat * V) V snd). rewrite (proj1 (values_split L i)), (proj2 (values_split L (S i))).
      by rewrite Hv.
    + destruct G as (El & Hr' & _). exists m', l', (take i L ++ (x, v) :: (a, w) :: drop (S i) L). split_and!; try done; [|by rewrite El].
      rewrite fmap_app, !fmap_cons. cbn [snd]. by rewrite (proj1 (values_split L i)), (proj2 (values_split L (S i))), <- Ed.
  - destruct Hok as (Hi & Hb). destruct (node_at m l L i Hr Hi Hb) as (a & w & Ha & Ea & Hv & Ed). rewrite Ea. cbn [mbind option_bind].
    rewrite Ha in Hr. destruct (del_node_ok m l _ a w _ f Hr) as (m' & l' & -> & Hr' & Hf). exists m', l', (take i L ++ drop (S i) L).
    rewrite Ed. split_and!; try done. by rewrite fmap_app, (proj1 (values_split L i)), (proj2 (values_split L (S i))).
  - destruct L as [|[a v] A _] using rev_ind.
    { exists m, l, []. split_and!; try done. unfold listRotate. by rewrite (rep_len _ _ _ Hr). }
    destruct (rotate_ok m l A a v Hr) as (m' & l' & -> & Hr' & Hf). cbn [mbind option_bind]. exists m', l', ((a, v) :: A).
    split_and!; try done. rewrite fmap_app. cbn [fmap list_fmap snd]. by rewrite last_snoc, removelast_last.
Qed.

(** The lists of adlist.c implement sequences: from a list whose pointers agree with a
    sequence, any insertions at an end or beside a node, deletions and rotations run
    without an access to a free node, the pointers of the list agree with the sequence
    that the operations give, and the deleted values are given to the free function in
    order. *)
Theorem list_refines os m l L f : rep m l L -> ops_ok os L.*2 ->
  exists m' l' L', exec_all malloc junk os m l f = Some (m', l', foldl (free_value l) f (freed_all os L.*2)) /\ rep m' l' L' /\
    L'.*2 = foldl (fun xs o => spec o xs) L.*2 os.
Proof.
  revert m l L f. induction os as [|o os IH]; intros m l L f Hr Hok; cbn [exec_all freed_all ops_ok foldl] in *; [by exists m, l, L|].
  destruct Hok as [Ho Hos]. destruct (list_exec_ok o m l L f Hr Ho) as (m1 & l1 & L1 & -> & Hr1 & E1 & Hf). cbn [mbind option_bind].
  rewrite <- E1 in *. destruct (IH m1 l1 L1 (foldl (free_value l) f (freed o L.*2)) Hr1 Hos) as (m2 & l2 & L2 & -> & Hr2 & E2).
  exists m2, l2, L2. split_and!; try done. do 2 f_equal. rewrite foldl_app. unfold free_value. by rewrite Hf.
Qed.

(** listIndex returns the node at an index, counted from the end when it is negative,
    and NULL when there is none; listSearchKey returns the first node that matches a key;
    listDup returns a list with the copies of the values, or NULL when a copy fails, and
    in both cases the list it copies is as before. *)
Theorem list_search_dup_correct m l L f : rep m l L ->
  (forall i, - 2 ^ 63 < i < 2 ^ 63 -> listIndex m l i = Some (fst <$> at_index L i)) /\
  (forall key, listSearchKey m l key = Some (fst <$> List.find (fun '(_, v) => matches l key v) L)) /\
  match mapM (dup_value l) L.*2 with
  | Some vs => exists m' l' L', listDup malloc junk m f l = Some (m', f, Some l') /\ rep m' l L /\ rep m' l' L' /\ L'.*2 = vs
  | None => exists m' f', listDup malloc junk m f l = Some (m', f', None) /\ rep m' l L
  end.
Proof.
  intros Hr. split_and!; [intros i; by apply list_index_ok|intros key; by apply list_search_ok|].
  set (copy := List None None (dup l) (free l) (match_ l) 0).
  assert (rep m copy []) as Hc by (constructor; try done; constructor).
  pose proof (dup_loop_ok malloc junk Hmalloc f L m None copy [] (rep_seg _ _ _ Hr) Hc ltac:(by intros b _ []) (rep_small _ _ _ Hr) (rep_nodup _ _ _ Hr)) as G.
  assert (forall m' : gmap nat listNode, (forall b, m !! b <> None -> ~ In b (@nil (nat * V)).*1 -> m' !! b = m !! b) -> rep m' l L) as Hsame.
  { intros m' Hf. destruct Hr. constructor; try done. apply (seg_frame m); [|done]. intros b Hb. apply Hf; [by apply (seg_in m None L None)|by intros []]. }
  unfold dup_result in G. change (dup_value copy) with (dup_value l) in G. unfold listDup, listGetIterator. fold copy.
  rewrite (rep_head _ _ _ Hr), (rep_len _ _ _ Hr). unfold zlen. rewrite Nat2Z.id.
  destruct (mapM (dup_value l) L.*2) as [vs|].
  - destruct G as (m' & l' & C' & -> & Hr' & Ev & _ & _ & _ & Hf). exists m', l', C'. split_and!; try done. by apply Hsame.
  - destruct G as (m' & f' & -> & Hf). exists m', f'. split; [done|by apply Hsame].
Qed.

End Thms.

(** ** Witnesses *)

(** A list of numbers, whose free function keeps what is freed. *)
Definition sample_list : @dlist Z (list Z) := List (Some 1%nat) (Some 2%nat) (Some (fun v => if v =? 0 then None else Some (v + 100))) (Some (fun f v => v :: f)) None 2.
Definition sample_nodes : gmap nat (@listNode Z) := {[ 1%nat := Node None (Some 2%nat) 10; 2%nat := Node (Some 1%nat) None 20 ]}.

Lemma sample_rep : rep sample_nodes sample_list [(1%nat, 10); (2%nat, 20)].
Proof. constructor; [by repeat split|apply (bool_decide_unpack _); vm_compute; done|done..]. Qed.

Lemma list_refines_witness : exists m' l' L',
  exec_all fresh_key None [OHead 5; OInsert 1 6 true; ODel 2; ORotate; OTail 7; ODel 0] sample_nodes sample_list [] = Some (m', l', [20; 6]) /\
  rep m' l' L' /\ L'.*2 = [5; 10; 7].
Proof.
  apply (list_refines fresh_key None fresh_key_ok [OHead 5; OInsert 1 6 true; ODel 2; ORotate; OTail 7; ODel 0]
    sample_nodes sample_list [(1%nat, 10); (2%nat, 20)] [] sample_rep).
  cbn. unfold zlen. cbn. lia.
Defined.

Lemma list_search_dup_correct_witness :
  listIndex sample_nodes sample_list (-1) = Some (Some 2%nat) /\ listSearchKey sample_nodes sample_list 20 = Some (Some 2%nat) /\
  exists m' l' L', listDup fresh_key None sample_nodes [] sample_list = Some (m', [], Some l') /\
    rep m' sample_list [(1%nat, 10); (2%nat, 20)] /\ rep m' l' L' /\ L'.*2 = [110; 120].
Proof.
  destruct (list_search_dup_correct fresh_key None fresh_key_ok sample_nodes sample_list [(1%nat, 10); (2%nat, 20)] [] sample_rep) as (H1 & H2 & H3).
  split; [apply (H1 (-1)); lia|]. split; [apply (H2 20)|exact H3].
Defined.

End AdlistThms.
