(* ===== verification/Server.v ===== *)
(** * The state of the server, its objects (object.c) and its replies

    Values live in reference-counted objects.  The memory of the objects is explicit, so
    that two owners of an object share it: the keyspace, the arguments of the command that
    runs, the integers created at startup, and the reply lists of the clients. *)

From Stdlib Require Import Ascii String.
From S2P Require Import Prelude Util Sds.

(** ** Data *)

Definition REDIS_STRING : Z := 0.
Definition REDIS_LIST : Z := 1.
Definition REDIS_SET : Z := 2.
Definition REDIS_ZSET : Z := 3.
Definition REDIS_HASH : Z := 4.

Definition REDIS_ENCODING_RAW : Z := 0.
Definition REDIS_ENCODING_INT : Z := 1.

Definition REDIS_SHARED_INTEGERS : Z := 10000.

Abbreviation addr := nat (only parsing).

(** What [o->ptr] is: a string, an integer stored in the pointer, or a list, set, sorted
    set or hash, of which the modelled commands only use the type. *)
Inductive payload := PSds (s : sds) | PLong (v : Z) | POther (p : Z).

Record robject := RObject { o_type : Z; o_encoding : Z; o_lru : Z; o_refcount : Z; o_ptr : payload }.

Definition set_lru (o : robject) (v : Z) : robject :=
  RObject (o_type o) (o_encoding o) v (o_refcount o) (o_ptr o).
Definition set_refcount (o : robject) (v : Z) : robject :=
  RObject (o_type o) (o_encoding o) (o_lru o) v (o_ptr o).
Definition set_ptr (o : robject) (p : payload) : robject :=
  RObject (o_type o) (o_encoding o) (o_lru o) (o_refcount o) p.
Definition set_encoding (o : robject) (e : Z) : robject :=
  RObject (o_type o) e (o_lru o) (o_refcount o) (o_ptr o).

(** A database: its keys, and the times at which keys expire. *)
Record redisDb := RedisDb { db_dict : gmap (list Z) addr; db_expires : gmap (list Z) Z }.

(** What a command tells the rest of the server: a key that expired, for the append only
    file and the slaves; a keyspace event; a key that changed, for the clients that watch
    it; a database that was emptied; a command that is passed on to the append only file and
    the slaves. *)
Inductive event :=
  | PropagateDel (dbid : Z) (key : list Z)
  | Notify (type : Z) (name : string) (key : list Z) (dbid : Z)
  | Modified (dbid : Z) (key : list Z)
  | Flushed (dbid : Z)
  | Propagate (dbid : Z) (args : list (list Z)).

(** The database of the client, its output and the counters of the server. *)
Record side := Side {
  cur : Z; out : list Z; dirty : Z; stat_keyspace_hits : Z; stat_keyspace_misses : Z;
  stat_expiredkeys : Z; stat_numcommands : Z; ticks : nat; events : list event }.

(** [held] are the objects in the reply lists of the clients. *)
Record server := Server {
  heap : gmap addr robject; integers : list addr; held : list addr;
  dbs : list redisDb; argv : list addr; sd : side }.

Definition with_heap (s : server) (h : gmap addr robject) : server :=
  Server h (integers s) (held s) (dbs s) (argv s) (sd s).
Definition with_held (s : server) (l : list addr) : server :=
  Server (heap s) (integers s) l (dbs s) (argv s) (sd s).
Definition with_dbs (s : server) (l : list redisDb) : server :=
  Server (heap s) (integers s) (held s) l (argv s) (sd s).
Definition with_argv (s : server) (l : list addr) : server :=
  Server (heap s) (integers s) (held s) (dbs s) l (sd s).
Definition with_sd (s : server) (x : side) : server :=
  Server (heap s) (integers s) (held s) (dbs s) (argv s) x.

Definition set_cur (x : side) (n : Z) : side :=
  Side n (out x) (dirty x) (stat_keyspace_hits x) (stat_keyspace_misses x) (stat_expiredkeys x) (stat_numcommands x) (ticks x) (events x).
Definition set_out (x : side) (b : list Z) : side :=
  Side (cur x) b (dirty x) (stat_keyspace_hits x) (stat_keyspace_misses x) (stat_expiredkeys x) (stat_numcommands x) (ticks x) (events x).
Definition set_dirty (x : side) (n : Z) : side :=
  Side (cur x) (out x) n (stat_keyspace_hits x) (stat_keyspace_misses x) (stat_expiredkeys x) (stat_numcommands x) (ticks x) (events x).
Definition set_stats (x : side) (h m e : Z) : side :=
  Side (cur x) (out x) (dirty x) h m e (stat_numcommands x) (ticks x) (events x).
Definition set_ticks (x : side) (n : nat) : side :=
  Side (cur x) (out x) (dirty x) (stat_keyspace_hits x) (stat_keyspace_misses x) (stat_expiredkeys x) (stat_numcommands x) n (events x).
Definition log_event (x : side) (e : event) : side :=
  Side (cur x) (out x) (dirty x) (stat_keyspace_hits x) (stat_keyspace_misses x) (stat_expiredkeys x) (stat_numcommands x)
    (ticks x) (events x ++ [e]).
Definition set_numcommands (x : side) (n : Z) : side :=
  Side (cur x) (out x) (dirty x) (stat_keyspace_hits x) (stat_keyspace_misses x) (stat_expiredkeys x) n (ticks x) (events x).

(** What does not change while a command runs: the allocator, the clock ([clock n] is the
    n-th reading of the time in milliseconds), and the configuration and mode of the
    server.  [lua_time] is the time at which the script that runs started. *)
Class ServerEnv := {
  junk : nat -> Z;
  new_addr : gmap addr robject -> addr;
  new_addr_fresh : forall h, h !! new_addr h = None;
  clock : nat -> Z;
  clock_ok : forall n, 0 <= clock n < 2 ^ 63;
  lruclock : Z;
  dbnum : Z;
  saving_child : bool;
  loading : bool;
  masterhost : bool;
  lua_time : option Z;
  maxmemory : Z;
  client_is_master : bool;
  write_handler : bool;
  reply_by_reference : side -> bool }.

(** Whether the client gets replies: not if it is the link of the master, and not if it has
    no socket or its write handler cannot be set up. *)
Definition prepareClientToWrite `{ServerEnv} : bool := negb client_is_master && write_handler.

(** The output with more bytes, if the client gets any. *)
Definition sent `{ServerEnv} (o b : list Z) : list Z := if prepareClientToWrite then o ++ b else o.

(** ** Commands: computations on the state that fail where the C code has no defined
    behaviour or panics *)

Definition Cmd (A : Type) : Type := server -> option (A * server).

#[global] Instance Cmd_ret : MRet Cmd := fun A x s => Some (x, s).
#[global] Instance Cmd_bind : MBind Cmd := fun A B f m s =>
  match m s with None => None | Some (x, s) => f x s end.

Definition lift {A} (o : option A) : Cmd A := fun s => x ← o; Some (x, s).
Definition gets {A} (f : server -> A) : Cmd A := fun s => Some (f s, s).
Definition modify (f : server -> server) : Cmd unit := fun s => Some (tt, f s).
Definition modify_side (f : side -> side) : Cmd unit := modify (fun s => with_sd s (f (sd s))).
Definition panic {A} : Cmd A := fun _ => None.
Definition redisAssert (b : bool) : Cmd unit := lift (cassert b).

Definition load (a : addr) : Cmd robject := o ← gets (fun s => heap s !! a); lift o.

Definition store (a : addr) (o : robject) : Cmd unit :=
  _ ← load a; modify (fun s => with_heap s (<[a := o]> (heap s))).

Definition zfree (a : addr) : Cmd unit :=
  _ ← load a; modify (fun s => with_heap s (delete a (heap s))).

Section Objects.
Context `{ServerEnv}.

Definition zmalloc (o : robject) : Cmd addr :=
  a ← gets (fun s => new_addr (heap s));
  _ ← modify (fun s => with_heap s (<[a := o]> (heap s)));
  mret a.

(** The bytes of a string object; sdslen bytes of its sds. *)
Definition sds_bytes (s : sds) : option (list Z) := rdn (s_buf s) 0 (sdslen s).

Definition obj_sds (o : robject) : Cmd sds := match o_ptr o with PSds s => mret s | _ => panic end.
Definition obj_long (o : robject) : Cmd Z := match o_ptr o with PLong v => mret v | _ => panic end.

(** The sds of an object is changed by [f]. *)
Definition update_sds (a : addr) (f : sds -> option sds) : Cmd unit :=
  o ← load a; s ← obj_sds o; s ← lift (f s); store a (set_ptr o (PSds s)).

(** [key->ptr] as the key of a dictionary. *)
Definition key_bytes (key : addr) : Cmd (list Z) :=
  o ← load key; s ← obj_sds o; lift (sds_bytes s).

(** [c->argv[j]] *)
Definition arg (j : nat) : Cmd addr := l ← gets argv; lift (l !! j).
Definition argc : Cmd Z := gets (fun s => zlen (argv s)).

(** The sds of an argument. *)
Definition arg_sds (j : nat) : Cmd sds := a ← arg j; o ← load a; obj_sds o.

(** mstime() *)
Definition mstime : Cmd Z :=
  n ← gets (fun s => ticks (sd s));
  _ ← modify_side (fun x => set_ticks x (S n));
  mret (clock n).

(** ** object.c *)

Definition createObject (type : Z) (ptr : payload) : Cmd addr :=
  zmalloc (RObject type REDIS_ENCODING_RAW lruclock 1 ptr).

Definition createStringObject (ptr : list Z) (len : Z) : Cmd addr :=
  s ← lift (sdsnewlen (Some ptr) len); createObject REDIS_STRING (PSds s).

Definition incrRefCount (a : addr) : Cmd unit :=
  o ← load a; store a (set_refcount o (swrap 32 (o_refcount o + 1))).

(** Freeing an object frees the data it owns, which no other part of the model can name. *)
Definition decrRefCount (a : addr) : Cmd unit :=
  o ← load a;
  if o_refcount o <=? 0 then panic
  else if o_refcount o =? 1 then
    _ ← redisAssert ((0 <=? o_type o) && (o_type o <=? 4));
    zfree a
  else store a (set_refcount o (swrap 32 (o_refcount o - 1))).

Definition createStringObjectFromLongLong (value : Z) : Cmd addr :=
  if (0 <=? value) && (value <? REDIS_SHARED_INTEGERS) then
    l ← gets integers;
    a ← lift (rd l value);
    _ ← incrRefCount a;
    mret a
  else if (LLONG_MIN <=? value) && (value <=? LLONG_MAX) then
    a ← createObject REDIS_STRING (PLong 0);
    o ← load a;
    _ ← store a (set_ptr (set_encoding o REDIS_ENCODING_INT) (PLong value));
    mret a
  else
    s ← lift (sdsfromlonglong value); createObject REDIS_STRING (PSds s).

(** The decimal text of an integer in a buffer of [n] bytes. *)
Definition ll_text (n : nat) (v : Z) : option (list Z) :=
  '(b, len) ← Num.ll2string (replicate n 0) (Z.of_nat n) v; rdn b 0 len.

Definition tryObjectEncoding (a : addr) : Cmd addr :=
  o ← load a;
  if negb (o_encoding o =? REDIS_ENCODING_RAW) then mret a
  else if o_refcount o >? 1 then mret a
  else
    _ ← redisAssert (o_type o =? REDIS_STRING);
    s ← obj_sds o;
    let len := sdslen s in
    b ← lift (sds_bytes s);
    match (if len >? 21 then None else Num.string2l b) with
    | None =>
        if (len >? 32) && (o_encoding o =? REDIS_ENCODING_RAW) && (sdsavail s >? len / 10) then
          _ ← store a (set_ptr o (PSds (sdsRemoveFreeSpace junk s)));
          mret a
        else mret a
    | Some value =>
        if (maxmemory =? 0) && (0 <=? value) && (value <? REDIS_SHARED_INTEGERS) then
          _ ← decrRefCount a;
          l ← gets integers;
          i ← lift (rd l value);
          _ ← incrRefCount i;
          mret i
        else
          _ ← store a (set_ptr (set_encoding o REDIS_ENCODING_INT) (PLong value));
          mret a
    end.

(** [c->argv[j] = tryObjectEncoding(c->argv[j])] *)
Definition encode_arg (j : nat) : Cmd unit :=
  a ← arg j;
  a ← tryObjectEncoding a;
  modify (fun s => with_argv s (<[j := a]> (argv s))).

Definition getDecodedObject (a : addr) : Cmd addr :=
  o ← load a;
  if o_encoding o =? REDIS_ENCODING_RAW then
    _ ← incrRefCount a;
    mret a
  else if (o_type o =? REDIS_STRING) && (o_encoding o =? REDIS_ENCODING_INT) then
    v ← obj_long o;
    '(buf, _) ← lift (Num.ll2string (replicate 32 0) 32 v);
    n ← lift (strlen buf);
    createStringObject buf n
  else panic.

Definition stringObjectLen (a : addr) : Cmd Z :=
  o ← load a;
  _ ← redisAssert (o_type o =? REDIS_STRING);
  if o_encoding o =? REDIS_ENCODING_RAW then s ← obj_sds o; mret (sdslen s)
  else v ← obj_long o; '(_, n) ← lift (Num.ll2string (replicate 32 0) 32 v); mret n.

(** *** strtoll(nptr, &eptr, 10) of the C library *)

Fixpoint skip_space (b : list Z) : option (list Z) :=
  match b with
  | [] => None
  | c :: b' => if isspace c then skip_space b' else Some b
  end.

Definition is_digit (c : Z) : bool := (ch_0 <=? c) && (c <=? ch_9).

Fixpoint scan_digits (b : list Z) (v : Z) : option (list Z * Z) :=
  match b with
  | [] => None
  | c :: b' => if is_digit c then scan_digits b' (v * 10 + (c - ch_0)) else Some (b, v)
  end.

(** The value, the characters from [*eptr] on, and whether errno is ERANGE. *)
Definition strtoll (nptr : list Z) : option (Z * list Z * bool) :=
  b ← skip_space nptr;
  match b with
  | [] => None
  | c :: b' =>
      let neg := c =? ch_minus in
      let b := if neg || (c =? 43) then b' else b in
      '(rest, v) ← scan_digits b 0;
      if zlen rest =? zlen b then Some (0, nptr, false)
      else
        let v := if neg then - v else v in
        if v <? LLONG_MIN then Some (LLONG_MIN, rest, true)
        else if LLONG_MAX <? v then Some (LLONG_MAX, rest, true)
        else Some (v, rest, false)
  end.

(** atoi() is strtol() converted to an int. *)
Definition atoi (nptr : list Z) : option Z := '(v, _, _) ← strtoll nptr; Some (swrap 32 v).

(** [None] is REDIS_ERR.  A NULL object counts as 0. *)
Definition getLongLongFromObject (a : option addr) : Cmd (option Z) :=
  match a with
  | None => mret (Some 0)
  | Some a =>
      o ← load a;
      _ ← redisAssert (o_type o =? REDIS_STRING);
      if o_encoding o =? REDIS_ENCODING_RAW then
        s ← obj_sds o;
        '(value, eptr, erange) ← lift (strtoll (s_buf s));
        c ← lift (rd (s_buf s) 0);
        e ← lift (rd eptr 0);
        mret (if isspace c || negb (e =? 0) || erange then None else Some value)
      else if o_encoding o =? REDIS_ENCODING_INT then v ← obj_long o; mret (Some v)
      else panic
  end.

(** ** Replies (networking.c) *)

Definition crlf : list Z := [13; 10].

Definition addReply (b : list Z) : Cmd unit := modify_side (fun x => set_out x (sent (out x) b)).

Definition addReplyError (err : string) : Cmd unit := addReply (str "-ERR " ++ str err ++ crlf).
Definition addReplyStatus (status : string) : Cmd unit := addReply (str "+" ++ str status ++ crlf).

(** The shared headers of small numbers hold the same text. *)
Definition addReplyLongLongWithPrefix (ll prefix : Z) : Cmd unit :=
  t ← lift (ll_text 127 ll); addReply ([prefix] ++ t ++ crlf).

Definition addReplyLongLong (ll : Z) : Cmd unit :=
  if ll =? 0 then addReply (str ":0" ++ crlf)
  else if ll =? 1 then addReply (str ":1" ++ crlf)
  else addReplyLongLongWithPrefix ll 58.

Definition addReplyMultiBulkLen (length : Z) : Cmd unit := addReplyLongLongWithPrefix length ch_star.

Definition addReplyBulkCBuffer (p : list Z) (off len : Z) : Cmd unit :=
  _ ← addReplyLongLongWithPrefix len 36;
  t ← lift (rdn p off len);
  _ ← addReply t;
  addReply crlf.

(** The number of digits of an integer object, with its sign. *)
Fixpoint count_digits (fuel : nat) (n len : Z) : option Z :=
  match fuel with
  | O => None
  | S f => let n := Z.quot n 10 in if n =? 0 then Some len else count_digits f n (len + 1)
  end.

Definition addReplyBulkLen (a : addr) : Cmd unit :=
  o ← load a;
  len ← (if o_encoding o =? REDIS_ENCODING_RAW then s ← obj_sds o; mret (sdslen s)
         else
           n ← obj_long o;
           lift (if n <? 0 then count_digits 20 (swrap 64 (- n)) 2 else count_digits 20 n 1));
  addReplyLongLongWithPrefix len 36.

(** The text of an object.  A raw object that does not fit in the static buffer of the
    client is kept in its reply list instead of being copied. *)
Definition addReplyObj (a : addr) : Cmd unit :=
  if negb prepareClientToWrite then mret tt else
  o ← load a;
  if o_encoding o =? REDIS_ENCODING_RAW then
    s ← obj_sds o;
    b ← lift (sds_bytes s);
    by_ref ← gets (fun s => reply_by_reference (sd s));
    _ ← addReply b;
    if by_ref : bool then
      _ ← incrRefCount a;
      modify (fun s => with_held s (a :: held s))
    else mret tt
  else if o_encoding o =? REDIS_ENCODING_INT then
    v ← obj_long o; t ← lift (ll_text 32 v); addReply t
  else panic.

Definition addReplyBulk (a : addr) : Cmd unit :=
  _ ← addReplyBulkLen a;
  _ ← addReplyObj a;
  addReply crlf.

Definition shared_ok : list Z := str "+OK" ++ crlf.
Definition shared_czero : list Z := str ":0" ++ crlf.
Definition shared_cone : list Z := str ":1" ++ crlf.
Definition shared_nullbulk : list Z := str "$-1" ++ crlf.
Definition shared_emptybulk : list Z := str "$0" ++ crlf ++ crlf.
Definition shared_wrongtypeerr : list Z :=
  str "-WRONGTYPE Operation against a key holding the wrong kind of value" ++ crlf.
Definition shared_syntaxerr : list Z := str "-ERR syntax error" ++ crlf.
Definition shared_nokeyerr : list Z := str "-ERR no such key" ++ crlf.
Definition shared_sameobjecterr : list Z := str "-ERR source and destination objects are the same" ++ crlf.
Definition shared_outofrangeerr : list Z := str "-ERR index out of range" ++ crlf.

(** The flag is REDIS_ERR of checkType: the object has another type. *)
Definition checkType (a : addr) (type : Z) : Cmd bool :=
  o ← load a;
  if negb (o_type o =? type) then _ ← addReply shared_wrongtypeerr; mret true else mret false.

Definition getLongLongFromObjectOrReply (a : option addr) (msg : option string) : Cmd (option Z) :=
  r ← getLongLongFromObject a;
  match r with
  | None => _ ← addReplyError (default "value is not an integer or out of range"%string msg); mret None
  | Some v => mret (Some v)
  end.

Definition getLongFromObjectOrReply (a : option addr) (msg : option string) : Cmd (option Z) :=
  r ← getLongLongFromObjectOrReply a msg;
  match r with
  | None => mret None
  | Some value =>
      if (value <? LLONG_MIN) || (value >? LLONG_MAX) then
        _ ← addReplyError (default "value is out of range"%string msg); mret None
      else mret (Some value)
  end.

(** notifyKeyspaceEvent() of notify.c and signalModifiedKey() of db.c *)
Definition notifyKeyspaceEvent (type : Z) (name : string) (key : addr) (dbid : Z) : Cmd unit :=
  k ← key_bytes key; modify_side (fun x => log_event x (Notify type name k dbid)).

Definition signalModifiedKey (db : Z) (key : addr) : Cmd unit :=
  k ← key_bytes key; modify_side (fun x => log_event x (Modified db k)).

End Objects.
