(* ===== verification/Db.v ===== *)
(** * db.c: the keyspace and the expiration of keys

    A database is named by its index in [server.db].  The tables of dict.c are finite maps
    from the bytes of a key (see dict_refines). *)

From Stdlib Require Import Ascii String.
From S2P Require Import Prelude Util Sds Server.

Definition REDIS_NOTIFY_GENERIC : Z := Z.shiftl 1 2.
Definition REDIS_NOTIFY_STRING : Z := Z.shiftl 1 3.
Definition REDIS_NOTIFY_EXPIRED : Z := Z.shiftl 1 8.

Definition UNIT_SECONDS : Z := 0.
Definition UNIT_MILLISECONDS : Z := 1.

(** [server.db[db]] *)
Definition get_db (db : Z) : Cmd redisDb := l ← gets dbs; lift (rd l db).
Definition set_db (db : Z) (d : redisDb) : Cmd unit :=
  l ← gets dbs; l ← lift (wr l db d); modify (fun s => with_dbs s l).
Definition set_dict (db : Z) (m : gmap (list Z) addr) : Cmd unit :=
  d ← get_db db; set_db db (RedisDb m (db_expires d)).
Definition set_expires (db : Z) (m : gmap (list Z) Z) : Cmd unit :=
  d ← get_db db; set_db db (RedisDb (db_dict d) m).

(** [c->db->id] *)
Definition c_db : Cmd Z := gets (fun s => cur (sd s)).

Definition incr_dirty (n : Z) : Cmd unit := modify_side (fun x => set_dirty x (swrap 64 (dirty x + n))).

Section Db.
Context `{ServerEnv}.

(** ** Lookups *)

Definition lookupKey (db : Z) (key : addr) : Cmd (option addr) :=
  k ← key_bytes key;
  d ← get_db db;
  match db_dict d !! k with
  | Some val =>
      _ ← (if negb saving_child then o ← load val; store val (set_lru o lruclock) else mret tt);
      mret (Some val)
  | None => mret None
  end.

(** dictDelete() on the main table: the destructor drops the value. *)
Definition dict_delete (db : Z) (k : list Z) : Cmd bool :=
  d ← get_db db;
  match db_dict d !! k with
  | Some val => _ ← set_dict db (delete k (db_dict d)); _ ← decrRefCount val; mret true
  | None => mret false
  end.

Definition dbDelete (db : Z) (key : addr) : Cmd bool :=
  k ← key_bytes key;
  d ← get_db db;
  _ ← (if (0 <? Z.of_nat (size (db_expires d))) then set_expires db (delete k (db_expires d)) else mret tt);
  dict_delete db k.

(** ** Expires *)

Definition removeExpire (db : Z) (key : addr) : Cmd bool :=
  k ← key_bytes key;
  d ← get_db db;
  _ ← redisAssert (bool_decide (is_Some (db_dict d !! k)));
  _ ← set_expires db (delete k (db_expires d));
  mret (bool_decide (is_Some (db_expires d !! k))).

Definition setExpire (db : Z) (key : addr) (when : Z) : Cmd unit :=
  k ← key_bytes key;
  d ← get_db db;
  _ ← redisAssert (bool_decide (is_Some (db_dict d !! k)));
  set_expires db (<[k := when]> (db_expires d)).

Definition getExpire (db : Z) (key : addr) : Cmd Z :=
  k ← key_bytes key;
  d ← get_db db;
  if Z.of_nat (size (db_expires d)) =? 0 then mret (-1) else
  match db_expires d !! k with
  | None => mret (-1)
  | Some when => _ ← redisAssert (bool_decide (is_Some (db_dict d !! k))); mret when
  end.

Definition propagateExpire (db : Z) (key : addr) : Cmd unit :=
  k ← key_bytes key; modify_side (fun x => log_event x (PropagateDel db k)).

Definition expireIfNeeded (db : Z) (key : addr) : Cmd bool :=
  when ← getExpire db key;
  if when <? 0 then mret false
  else if loading then mret false
  else
    now ← match lua_time with Some t => mret t | None => mstime end;
    if masterhost then mret (when <? now)
    else if now <=? when then mret false
    else
      _ ← modify_side (fun x => set_stats x (stat_keyspace_hits x) (stat_keyspace_misses x) (swrap 64 (stat_expiredkeys x + 1)));
      _ ← propagateExpire db key;
      _ ← notifyKeyspaceEvent REDIS_NOTIFY_EXPIRED "expired" key db;
      dbDelete db key.

Definition lookupKeyRead (db : Z) (key : addr) : Cmd (option addr) :=
  _ ← expireIfNeeded db key;
  val ← lookupKey db key;
  _ ← (match val with
       | None => modify_side (fun x => set_stats x (stat_keyspace_hits x) (swrap 64 (stat_keyspace_misses x + 1)) (stat_expiredkeys x))
       | Some _ => modify_side (fun x => set_stats x (swrap 64 (stat_keyspace_hits x + 1)) (stat_keyspace_misses x) (stat_expiredkeys x))
       end);
  mret val.

Definition lookupKeyWrite (db : Z) (key : addr) : Cmd (option addr) :=
  _ ← expireIfNeeded db key;
  lookupKey db key.

Definition lookupKeyReadOrReply (key : addr) (reply : list Z) : Cmd (option addr) :=
  db ← c_db;
  o ← lookupKeyRead db key;
  match o with None => _ ← addReply reply; mret None | Some a => mret (Some a) end.

Definition lookupKeyWriteOrReply (key : addr) (reply : list Z) : Cmd (option addr) :=
  db ← c_db;
  o ← lookupKeyWrite db key;
  match o with None => _ ← addReply reply; mret None | Some a => mret (Some a) end.

(** ** Updates *)

Definition dbAdd (db : Z) (key val : addr) : Cmd unit :=
  k ← key_bytes key;
  d ← get_db db;
  _ ← redisAssert (bool_decide (db_dict d !! k = None));
  set_dict db (<[k := val]> (db_dict d)).

(** dictReplace() sets the value, then drops the old one. *)
Definition dbOverwrite (db : Z) (key val : addr) : Cmd unit :=
  k ← key_bytes key;
  d ← get_db db;
  match db_dict d !! k with
  | None => panic
  | Some old => _ ← set_dict db (<[k := val]> (db_dict d)); decrRefCount old
  end.

Definition setKey (db : Z) (key val : addr) : Cmd unit :=
  o ← lookupKeyWrite db key;
  _ ← (match o with None => dbAdd db key val | Some _ => dbOverwrite db key val end);
  _ ← incrRefCount val;
  _ ← removeExpire db key;
  signalModifiedKey db key.

Definition dbExists (db : Z) (key : addr) : Cmd bool :=
  k ← key_bytes key; d ← get_db db; mret (bool_decide (is_Some (db_dict d !! k))).

Definition dbUnshareStringValue (db : Z) (key o : addr) : Cmd addr :=
  ob ← load o;
  _ ← redisAssert (o_type ob =? REDIS_STRING);
  if negb (o_refcount ob =? 1) || negb (o_encoding ob =? REDIS_ENCODING_RAW) then
    decoded ← getDecodedObject o;
    dob ← load decoded;
    s ← obj_sds dob;
    o' ← createStringObject (s_buf s) (sdslen s);
    _ ← decrRefCount decoded;
    _ ← dbOverwrite db key o';
    mret o'
  else mret o.

(** The flag is REDIS_OK. *)
Definition selectDb (id : Z) : Cmd bool :=
  if (id <? 0) || (id >=? dbnum) then mret false
  else _ ← modify_side (fun x => set_cur x id); mret true.

(** ** Commands on keys *)

(** The loop on the keys of DEL from [c->argv[j]] on. *)
Fixpoint del_loop (keys : list addr) (deleted : Z) : Cmd Z :=
  match keys with
  | [] => mret deleted
  | key :: keys =>
      db ← c_db;
      gone ← dbDelete db key;
      if gone : bool then
        _ ← signalModifiedKey db key;
        _ ← notifyKeyspaceEvent REDIS_NOTIFY_GENERIC "del" key db;
        _ ← incr_dirty 1;
        del_loop keys (swrap 32 (deleted + 1))
      else del_loop keys deleted
  end.

Definition delCommand : Cmd unit :=
  l ← gets argv;
  deleted ← del_loop (drop 1 l) 0;
  addReplyLongLong deleted.

Definition existsCommand : Cmd unit :=
  db ← c_db;
  key ← arg 1;
  _ ← expireIfNeeded db key;
  e ← dbExists db key;
  addReply (if e : bool then shared_cone else shared_czero).

Definition selectCommand : Cmd unit :=
  a ← arg 1;
  id ← getLongFromObjectOrReply (Some a) (Some "invalid DB index"%string);
  match id with
  | None => mret tt
  | Some id =>
      ok ← selectDb (swrap 32 id);
      if ok : bool then addReply shared_ok else addReplyError "invalid DB index"
  end.

Definition dbsizeCommand : Cmd unit :=
  db ← c_db; d ← get_db db; addReplyLongLong (Z.of_nat (size (db_dict d))).

Definition typeCommand : Cmd unit :=
  db ← c_db;
  key ← arg 1;
  o ← lookupKeyRead db key;
  match o with
  | None => addReplyStatus "none"
  | Some a =>
      ob ← load a;
      addReplyStatus
        (if o_type ob =? REDIS_STRING then "string" else if o_type ob =? REDIS_LIST then "list"
         else if o_type ob =? REDIS_SET then "set" else if o_type ob =? REDIS_ZSET then "zset"
         else if o_type ob =? REDIS_HASH then "hash" else "unknown")
  end.

Definition renameGenericCommand (nx : bool) : Cmd unit :=
  src ← arg 1;
  dst ← arg 2;
  ks ← key_bytes src;
  kd ← key_bytes dst;
  if bool_decide (ks = kd) then addReply shared_sameobjecterr else
  o ← lookupKeyWriteOrReply src shared_nokeyerr;
  match o with
  | None => mret tt
  | Some o =>
      db ← c_db;
      _ ← incrRefCount o;
      expire ← getExpire db src;
      e ← lookupKeyWrite db dst;
      match e, nx with
      | Some _, true => _ ← decrRefCount o; addReply shared_czero
      | _, _ =>
          _ ← (match e with Some _ => _ ← dbDelete db dst; mret tt | None => mret tt end);
          _ ← dbAdd db dst o;
          _ ← (if negb (expire =? -1) then setExpire db dst expire else mret tt);
          _ ← dbDelete db src;
          _ ← signalModifiedKey db src;
          _ ← signalModifiedKey db dst;
          _ ← notifyKeyspaceEvent REDIS_NOTIFY_GENERIC "rename_from" src db;
          _ ← notifyKeyspaceEvent REDIS_NOTIFY_GENERIC "rename_to" dst db;
          _ ← incr_dirty 1;
          addReply (if nx then shared_cone else shared_ok)
      end
  end.

Definition renameCommand : Cmd unit := renameGenericCommand false.
Definition renamenxCommand : Cmd unit := renameGenericCommand true.

Definition moveCommand : Cmd unit :=
  srcid ← c_db;
  a2 ← arg_sds 2;
  dbid ← lift (atoi (s_buf a2));
  ok ← selectDb dbid;
  if negb ok then addReply shared_outofrangeerr else
  dst ← c_db;
  _ ← selectDb srcid;
  if srcid =? dst then addReply shared_sameobjecterr else
  key ← arg 1;
  o ← lookupKeyWrite srcid key;
  match o with
  | None => addReply shared_czero
  | Some o =>
      e ← lookupKeyWrite dst key;
      match e with
      | Some _ => addReply shared_czero
      | None =>
          _ ← dbAdd dst key o;
          _ ← incrRefCount o;
          _ ← dbDelete srcid key;
          _ ← incr_dirty 1;
          addReply shared_cone
      end
  end.

Fixpoint decr_all (l : list addr) : Cmd unit :=
  match l with [] => mret tt | a :: l => _ ← decrRefCount a; decr_all l end.

(** dictEmpty() on the main table: the destructor drops the values. *)
Definition dict_empty (db : Z) : Cmd unit :=
  d ← get_db db; _ ← set_dict db ∅; decr_all (map snd (map_to_list (db_dict d))).

(** signalFlushedDb() tells the clients that watch keys. *)
Definition flushdbCommand : Cmd unit :=
  db ← c_db;
  d ← get_db db;
  _ ← incr_dirty (Z.of_nat (size (db_dict d)));
  _ ← modify_side (fun x => log_event x (Flushed db));
  _ ← dict_empty db;
  _ ← set_expires db ∅;
  addReply shared_ok.

(** ** Commands on expires *)

Fixpoint incr_all (l : list addr) : Cmd unit :=
  match l with [] => mret tt | a :: l => _ ← incrRefCount a; incr_all l end.

(** networking.c; the lookup of the command in the command table is not modelled. *)
Definition rewriteClientCommandVector (args : list addr) : Cmd unit :=
  _ ← incr_all args;
  old ← gets argv;
  _ ← decr_all old;
  modify (fun s => with_argv s args).

Definition expireGenericCommand (basetime unit_ : Z) : Cmd unit :=
  key ← arg 1;
  param ← arg 2;
  w ← getLongLongFromObjectOrReply (Some param) None;
  match w with
  | None => mret tt
  | Some when =>
      let when := if unit_ =? UNIT_SECONDS then swrap 64 (when * 1000) else when in
      let when := swrap 64 (when + basetime) in
      db ← c_db;
      o ← lookupKeyRead db key;
      match o with
      | None => addReply shared_czero
      | Some _ =>
          now ← mstime;
          if (when <=? now) && negb loading && negb masterhost then
            gone ← dbDelete db key;
            _ ← redisAssert gone;
            _ ← incr_dirty 1;
            aux ← createStringObject (str "DEL") 3;
            _ ← rewriteClientCommandVector [aux; key];
            _ ← decrRefCount aux;
            _ ← signalModifiedKey db key;
            _ ← notifyKeyspaceEvent REDIS_NOTIFY_GENERIC "del" key db;
            addReply shared_cone
          else
            _ ← setExpire db key when;
            _ ← addReply shared_cone;
            _ ← signalModifiedKey db key;
            _ ← notifyKeyspaceEvent REDIS_NOTIFY_GENERIC "expire" key db;
            incr_dirty 1
      end
  end.

Definition expireCommand : Cmd unit := t ← mstime; expireGenericCommand t UNIT_SECONDS.
Definition expireatCommand : Cmd unit := expireGenericCommand 0 UNIT_SECONDS.
Definition pexpireCommand : Cmd unit := t ← mstime; expireGenericCommand t UNIT_MILLISECONDS.
Definition pexpireatCommand : Cmd unit := expireGenericCommand 0 UNIT_MILLISECONDS.

Definition ttlGenericCommand (output_ms : bool) : Cmd unit :=
  db ← c_db;
  key ← arg 1;
  o ← lookupKeyRead db key;
  match o with
  | None => addReplyLongLong (-2)
  | Some _ =>
      expire ← getExpire db key;
      ttl ← (if negb (expire =? -1) then
               now ← mstime;
               let ttl := swrap 64 (expire - now) in
               mret (if ttl <? 0 then 0 else ttl)
             else mret (-1));
      if ttl =? -1 then addReplyLongLong (-1)
      else addReplyLongLong (if output_ms then ttl else Z.quot (swrap 64 (ttl + 500)) 1000)
  end.

Definition ttlCommand : Cmd unit := ttlGenericCommand false.
Definition pttlCommand : Cmd unit := ttlGenericCommand true.

Definition persistCommand : Cmd unit :=
  db ← c_db;
  key ← arg 1;
  e ← dbExists db key;
  if negb e then addReply shared_czero
  else
    r ← removeExpire db key;
    if r : bool then _ ← addReply shared_cone; incr_dirty 1
    else addReply shared_czero.

End Db.
