(* ===== verification/Tstring.v ===== *)
(** * t_string.c: the commands on strings *)

From Stdlib Require Import Ascii String.
From S2P Require Import Prelude Util Sds Server Db.

Definition REDIS_SET_NO_FLAGS : Z := 0.
Definition REDIS_SET_NX : Z := Z.shiftl 1 0.
Definition REDIS_SET_XX : Z := Z.shiftl 1 1.

Definition flag (flags f : Z) : bool := negb (Z.land flags f =? 0).

Section Strings.
Context `{ServerEnv}.

(** The flag is REDIS_OK; [size] is a long long. *)
Definition checkStringLength (size : Z) : Cmd bool :=
  if size >? 512 * 1024 * 1024 then
    _ ← addReplyError "string exceeds maximum allowed size (512MB)"; mret false
  else mret true.

(** *** SET and its variants *)

Definition setGenericCommand (flags : Z) (key val : addr) (expire : option addr) (unit_ : Z)
    (ok_reply abort_reply : option (list Z)) : Cmd unit :=
  ms ← match expire with
       | None => mret (Some 0)
       | Some e =>
           r ← getLongLongFromObjectOrReply (Some e) None;
           match r with
           | None => mret None
           | Some ms =>
               if ms <=? 0 then _ ← addReplyError "invalid expire time in SETEX"; mret None
               else mret (Some (if unit_ =? UNIT_SECONDS then swrap 64 (ms * 1000) else ms))
           end
       end;
  match ms with
  | None => mret tt
  | Some ms =>
      db ← c_db;
      abort ← (if flag flags REDIS_SET_NX then
                 o ← lookupKeyWrite db key; mret (bool_decide (is_Some o)) else mret false);
      abort ← (if abort : bool then mret true
               else if flag flags REDIS_SET_XX then
                 o ← lookupKeyWrite db key; mret (bool_decide (o = None))
               else mret false);
      if abort : bool then addReply (default shared_nullbulk abort_reply)
      else
        _ ← setKey db key val;
        _ ← incr_dirty 1;
        _ ← (match expire with
             | Some _ => now ← mstime; setExpire db key (swrap 64 (now + ms))
             | None => mret tt
             end);
        _ ← notifyKeyspaceEvent REDIS_NOTIFY_STRING "set" key db;
        _ ← (match expire with
             | Some _ => notifyKeyspaceEvent REDIS_NOTIFY_GENERIC "expire" key db
             | None => mret tt
             end);
        addReply (default shared_ok ok_reply)
  end.

(** The two letters of an option and its end, read one after the other. *)
Definition is_option (a : sds) (l1 u1 l2 u2 : Z) : Cmd bool :=
  c ← lift (rd (s_buf a) 0);
  if negb ((c =? l1) || (c =? u1)) then mret false else
  c ← lift (rd (s_buf a) 1);
  if negb ((c =? l2) || (c =? u2)) then mret false else
  c ← lift (rd (s_buf a) 2);
  mret (c =? 0).

(** The loop on the options of SET: [args] are the arguments from [c->argv[j]] on.  The
    result is None after a syntax error. *)
Fixpoint set_options (fuel : nat) (args : list addr) (flags unit_ : Z) (expire : option addr)
    : Cmd (option (Z * Z * option addr)) :=
  match fuel with
  | O => panic
  | S fuel =>
      match args with
      | [] => mret (Some (flags, unit_, expire))
      | a :: rest =>
          o ← load a;
          s ← obj_sds o;
          nx ← is_option s 110 78 120 88;
          if nx : bool then set_options fuel rest (Z.lor flags REDIS_SET_NX) unit_ expire else
          xx ← is_option s 120 88 120 88;
          if xx : bool then set_options fuel rest (Z.lor flags REDIS_SET_XX) unit_ expire else
          ex ← is_option s 101 69 120 88;
          px ← is_option s 112 80 120 88;
          match rest with
          | next :: rest' =>
              if ex : bool then set_options fuel rest' flags UNIT_SECONDS (Some next)
              else if px : bool then set_options fuel rest' flags UNIT_MILLISECONDS (Some next)
              else _ ← addReply shared_syntaxerr; mret None
          | [] => _ ← addReply shared_syntaxerr; mret None
          end
      end
  end.

Definition setCommand : Cmd unit :=
  l ← gets argv;
  r ← set_options (S (length l)) (drop 3 l) REDIS_SET_NO_FLAGS UNIT_SECONDS None;
  match r with
  | None => mret tt
  | Some (flags, unit_, expire) =>
      _ ← encode_arg 2;
      key ← arg 1;
      val ← arg 2;
      setGenericCommand flags key val expire unit_ None None
  end.

Definition setnxCommand : Cmd unit :=
  _ ← encode_arg 2;
  key ← arg 1;
  val ← arg 2;
  setGenericCommand REDIS_SET_NX key val None 0 (Some shared_cone) (Some shared_czero).

Definition setexCommand : Cmd unit :=
  _ ← encode_arg 3;
  key ← arg 1;
  val ← arg 3;
  e ← arg 2;
  setGenericCommand REDIS_SET_NO_FLAGS key val (Some e) UNIT_SECONDS None None.

Definition psetexCommand : Cmd unit :=
  _ ← encode_arg 3;
  key ← arg 1;
  val ← arg 3;
  e ← arg 2;
  setGenericCommand REDIS_SET_NO_FLAGS key val (Some e) UNIT_MILLISECONDS None None.

(** *** GET *)

(** The flag is REDIS_OK. *)
Definition getGenericCommand : Cmd bool :=
  key ← arg 1;
  o ← lookupKeyReadOrReply key shared_nullbulk;
  match o with
  | None => mret true
  | Some a =>
      ob ← load a;
      if negb (o_type ob =? REDIS_STRING) then _ ← addReply shared_wrongtypeerr; mret false
      else _ ← addReplyBulk a; mret true
  end.

Definition getCommand : Cmd unit := _ ← getGenericCommand; mret tt.

Definition getsetCommand : Cmd unit :=
  ok ← getGenericCommand;
  if negb ok then mret tt else
  _ ← encode_arg 2;
  db ← c_db;
  key ← arg 1;
  val ← arg 2;
  _ ← setKey db key val;
  _ ← notifyKeyspaceEvent REDIS_NOTIFY_STRING "set" key db;
  incr_dirty 1.

(** *** SETRANGE, GETRANGE *)

Definition setrangeCommand : Cmd unit :=
  value ← arg_sds 3;
  off ← arg 2;
  r ← getLongFromObjectOrReply (Some off) None;
  match r with
  | None => mret tt
  | Some offset =>
      if offset <? 0 then addReplyError "offset is out of range" else
      db ← c_db;
      key ← arg 1;
      o ← lookupKeyWrite db key;
      let total := uwrap 64 (offset + sdslen value) in
      o ← (match o with
           | None =>
               if sdslen value =? 0 then _ ← addReply shared_czero; mret None else
               ok ← checkStringLength (swrap 64 total);
               if negb ok then mret None else
               s ← lift sdsempty;
               o ← createObject REDIS_STRING (PSds s);
               _ ← dbAdd db key o;
               mret (Some o)
           | Some o =>
               bad ← checkType o REDIS_STRING;
               if bad : bool then mret None else
               olen ← stringObjectLen o;
               if sdslen value =? 0 then _ ← addReplyLongLong (swrap 64 olen); mret None else
               ok ← checkStringLength (swrap 64 total);
               if negb ok then mret None else
               o ← dbUnshareStringValue db key o;
               mret (Some o)
           end);
      match o with
      | None => mret tt
      | Some o =>
          _ ← (if 0 <? sdslen value then
                 _ ← update_sds o (fun s =>
                       s ← sdsgrowzero junk s total;
                       v ← sds_bytes value;
                       b ← wrn (s_buf s) offset v;
                       Some (Sds (s_len s) (s_free s) b));
                 _ ← signalModifiedKey db key;
                 _ ← notifyKeyspaceEvent REDIS_NOTIFY_STRING "setrange" key db;
                 incr_dirty 1
               else mret tt);
          ob ← load o;
          s ← obj_sds ob;
          addReplyLongLong (swrap 64 (sdslen s))
      end
  end.

(** The bytes of a string value and their number: of the sds, or of a buffer of 32 bytes in
    which an integer is printed. *)
Definition string_view (a : addr) : Cmd (list Z * Z) :=
  o ← load a;
  if o_encoding o =? REDIS_ENCODING_INT then
    v ← obj_long o; lift (Num.ll2string (replicate 32 0) 32 v)
  else s ← obj_sds o; mret (s_buf s, sdslen s).

Definition getrangeCommand : Cmd unit :=
  a2 ← arg 2;
  r ← getLongFromObjectOrReply (Some a2) None;
  match r with
  | None => mret tt
  | Some start =>
      a3 ← arg 3;
      r ← getLongFromObjectOrReply (Some a3) None;
      match r with
      | None => mret tt
      | Some end_ =>
          key ← arg 1;
          o ← lookupKeyReadOrReply key shared_emptybulk;
          match o with
          | None => mret tt
          | Some a =>
              bad ← checkType a REDIS_STRING;
              if bad : bool then mret tt else
              '(buf, strlen) ← string_view a;
              let start := if start <? 0 then swrap 64 (uwrap 64 (strlen + start)) else start in
              let end_ := if end_ <? 0 then swrap 64 (uwrap 64 (strlen + end_)) else end_ in
              let start := if start <? 0 then 0 else start in
              let end_ := if end_ <? 0 then 0 else end_ in
              let end_ := if strlen <=? uwrap 32 end_ then swrap 64 (uwrap 64 (strlen - 1)) else end_ in
              if end_ <? start then addReply shared_emptybulk
              else addReplyBulkCBuffer buf start (end_ - start + 1)
          end
      end
  end.

(** *** MGET, MSET *)

Fixpoint mget_loop (keys : list addr) : Cmd unit :=
  match keys with
  | [] => mret tt
  | key :: keys =>
      db ← c_db;
      o ← lookupKeyRead db key;
      _ ← (match o with
           | None => addReply shared_nullbulk
           | Some a =>
               ob ← load a;
               if negb (o_type ob =? REDIS_STRING) then addReply shared_nullbulk
               else addReplyBulk a
           end);
      mget_loop keys
  end.

Definition mgetCommand : Cmd unit :=
  l ← gets argv;
  _ ← addReplyMultiBulkLen (zlen l - 1);
  mget_loop (drop 1 l).

(** The keys of MSETNX that exist, [n] pairs from argument [j] on. *)
Fixpoint busy_loop (n : nat) (j : nat) (busykeys : Z) : Cmd Z :=
  match n with
  | O => mret busykeys
  | S n =>
      db ← c_db;
      key ← arg j;
      o ← lookupKeyWrite db key;
      busy_loop n (j + 2) (match o with Some _ => swrap 32 (busykeys + 1) | None => busykeys end)
  end.

Fixpoint mset_loop (n : nat) (j : nat) : Cmd unit :=
  match n with
  | O => mret tt
  | S n =>
      _ ← encode_arg (j + 1);
      db ← c_db;
      key ← arg j;
      val ← arg (j + 1);
      _ ← setKey db key val;
      _ ← notifyKeyspaceEvent REDIS_NOTIFY_STRING "set" key db;
      mset_loop n (j + 2)
  end.

Definition msetGenericCommand (nx : bool) : Cmd unit :=
  l ← gets argv;
  if Nat.even (length l) then addReplyError "wrong number of arguments for MSET" else
  let pairs := Nat.div2 (length l) in
  busykeys ← (if nx then busy_loop pairs 1 0 else mret 0);
  if negb (busykeys =? 0) then addReply shared_czero else
  _ ← mset_loop pairs 1;
  _ ← incr_dirty (Z.of_nat pairs);
  addReply (if nx then shared_cone else shared_ok).

Definition msetCommand : Cmd unit := msetGenericCommand false.
Definition msetnxCommand : Cmd unit := msetGenericCommand true.

(** *** Counters *)

Definition incrDecrCommand (incr : Z) : Cmd unit :=
  db ← c_db;
  key ← arg 1;
  o ← lookupKeyWrite db key;
  bad ← (match o with Some a => checkType a REDIS_STRING | None => mret false end);
  if bad : bool then mret tt else
  r ← getLongLongFromObjectOrReply o None;
  match r with
  | None => mret tt
  | Some oldvalue =>
      if ((incr <? 0) && (oldvalue <? 0) && (incr <? swrap 64 (LLONG_MIN - oldvalue))) ||
         ((0 <? incr) && (0 <? oldvalue) && (swrap 64 (LLONG_MAX - oldvalue) <? incr))
      then addReplyError "increment or decrement would overflow"
      else
        let value := swrap 64 (oldvalue + incr) in
        new ← createStringObjectFromLongLong value;
        _ ← (match o with Some _ => dbOverwrite db key new | None => dbAdd db key new end);
        _ ← signalModifiedKey db key;
        _ ← notifyKeyspaceEvent REDIS_NOTIFY_STRING "incrby" key db;
        _ ← incr_dirty 1;
        _ ← addReply (str ":");
        _ ← addReplyObj new;
        addReply crlf
  end.

Definition incrCommand : Cmd unit := incrDecrCommand 1.
Definition decrCommand : Cmd unit := incrDecrCommand (-1).

Definition incrbyCommand : Cmd unit :=
  a ← arg 2;
  r ← getLongLongFromObjectOrReply (Some a) None;
  match r with None => mret tt | Some incr => incrDecrCommand incr end.

Definition decrbyCommand : Cmd unit :=
  a ← arg 2;
  r ← getLongLongFromObjectOrReply (Some a) None;
  match r with None => mret tt | Some incr => incrDecrCommand (swrap 64 (- incr)) end.

(** *** APPEND, STRLEN *)

Definition appendCommand : Cmd unit :=
  db ← c_db;
  key ← arg 1;
  o ← lookupKeyWrite db key;
  totlen ← (match o with
            | None =>
                _ ← encode_arg 2;
                val ← arg 2;
                _ ← dbAdd db key val;
                _ ← incrRefCount val;
                n ← stringObjectLen val;
                mret (Some n)
            | Some o =>
                bad ← checkType o REDIS_STRING;
                if bad : bool then mret None else
                append ← arg_sds 2;
                n ← stringObjectLen o;
                ok ← checkStringLength (swrap 64 (uwrap 64 (n + sdslen append)));
                if negb ok then mret None else
                o ← dbUnshareStringValue db key o;
                _ ← update_sds o (fun s => sdscatlen junk s (s_buf append) (sdslen append));
                ob ← load o;
                s ← obj_sds ob;
                mret (Some (sdslen s))
            end);
  match totlen with
  | None => mret tt
  | Some totlen =>
      _ ← signalModifiedKey db key;
      _ ← notifyKeyspaceEvent REDIS_NOTIFY_STRING "append" key db;
      _ ← incr_dirty 1;
      addReplyLongLong (swrap 64 totlen)
  end.

Definition strlenCommand : Cmd unit :=
  key ← arg 1;
  o ← lookupKeyReadOrReply key shared_czero;
  match o with
  | None => mret tt
  | Some a =>
      bad ← checkType a REDIS_STRING;
      if bad : bool then mret tt else
      n ← stringObjectLen a;
      addReplyLongLong (swrap 64 n)
  end.

End Strings.
