(* ===== verification/Bitops.v ===== *)
(** * bitops.c: the commands on bits

    A buffer is the list of its bytes with the address of the first one ([base]), because
    the loops that read words start at an aligned address. *)

From Stdlib Require Import Ascii String.
From S2P Require Import Prelude Endian Util Sds Server Db Tstring.

Definition UCHAR_MAX : Z := 255.
Definition ULONG_MAX : Z := 2 ^ 64 - 1.

Definition BITOP_AND : Z := 0.
Definition BITOP_OR : Z := 1.
Definition BITOP_XOR : Z := 2.
Definition BITOP_NOT : Z := 3.

Definition bitsinbyte : list Z :=
  [0; 1; 1; 2; 1; 2; 2; 3; 1; 2; 2; 3; 2; 3; 3; 4; 1; 2; 2; 3; 2; 3; 3; 4; 2; 3; 3; 4; 3; 4; 4; 5; 1; 2; 2; 3; 2; 3; 3; 4; 2; 3; 3; 4; 3; 4; 4; 5; 2; 3; 3; 4; 3; 4; 4; 5; 3; 4; 4; 5; 4; 5; 5; 6;
   1; 2; 2; 3; 2; 3; 3; 4; 2; 3; 3; 4; 3; 4; 4; 5; 2; 3; 3; 4; 3; 4; 4; 5; 3; 4; 4; 5; 4; 5; 5; 6; 2; 3; 3; 4; 3; 4; 4; 5; 3; 4; 4; 5; 4; 5; 5; 6; 3; 4; 4; 5; 4; 5; 5; 6; 4; 5; 5; 6; 5; 6; 6; 7;
   1; 2; 2; 3; 2; 3; 3; 4; 2; 3; 3; 4; 3; 4; 4; 5; 2; 3; 3; 4; 3; 4; 4; 5; 3; 4; 4; 5; 4; 5; 5; 6; 2; 3; 3; 4; 3; 4; 4; 5; 3; 4; 4; 5; 4; 5; 5; 6; 3; 4; 4; 5; 4; 5; 5; 6; 4; 5; 5; 6; 5; 6; 6; 7;
   2; 3; 3; 4; 3; 4; 4; 5; 3; 4; 4; 5; 4; 5; 5; 6; 3; 4; 4; 5; 4; 5; 5; 6; 4; 5; 5; 6; 5; 6; 6; 7; 3; 4; 4; 5; 4; 5; 5; 6; 4; 5; 5; 6; 5; 6; 6; 7; 4; 5; 5; 6; 5; 6; 6; 7; 5; 6; 6; 7; 6; 7; 7; 8].

(** ** Counting and searching *)

Section Bits.
Context `{Host}.

(** The loop on the bytes before an aligned address. *)
Fixpoint pop_unaligned (fuel : nat) (base : Z) (b : list Z) (p bits count : Z) : option (Z * Z * Z) :=
  if negb (Z.land (base + p) 3 =? 0) && negb (count =? 0) then
    match fuel with
    | O => None
    | S f =>
        c ← rd b p;
        n ← rd bitsinbyte c;
        pop_unaligned f base b (p + 1) (uwrap 64 (bits + n)) (count - 1)
    end
  else Some (p, bits, count).

(** The number of bits of a word of 32 bits, in its steps. *)
Definition pop_word (aux : Z) : Z :=
  let aux := uwrap 32 (aux - Z.land (Z.shiftr aux 1) 0x55555555) in
  let aux := uwrap 32 (Z.land aux 0x33333333 + Z.land (Z.shiftr aux 2) 0x33333333) in
  Z.shiftr (uwrap 32 (Z.land (uwrap 32 (aux + Z.shiftr aux 4)) 0x0F0F0F0F * 0x01010101)) 24.

Definition word32 (b : list Z) (p : Z) : option Z := x ← rdn b p 4; Some (host_dec x).

Fixpoint pop_words (fuel : nat) (b : list Z) (p bits count : Z) : option (Z * Z * Z) :=
  if 16 <=? count then
    match fuel with
    | O => None
    | S f =>
        aux1 ← word32 b p;
        aux2 ← word32 b (p + 4);
        aux3 ← word32 b (p + 8);
        aux4 ← word32 b (p + 12);
        let n := uwrap 32 (pop_word aux1 + pop_word aux2 + pop_word aux3 + pop_word aux4) in
        pop_words f b (p + 16) (uwrap 64 (bits + n)) (count - 16)
    end
  else Some (p, bits, count).

Fixpoint pop_rest (fuel : nat) (b : list Z) (p bits count : Z) : option Z :=
  if negb (count =? 0) then
    match fuel with
    | O => None
    | S f =>
        c ← rd b p;
        n ← rd bitsinbyte c;
        pop_rest f b (p + 1) (uwrap 64 (bits + n)) (count - 1)
    end
  else Some bits.

(** [redisPopcount(s + p, count)] *)
Definition redisPopcount (base : Z) (b : list Z) (p count : Z) : option Z :=
  let fuel := Z.to_nat count in
  '(p, bits, count) ← pop_unaligned fuel base b p 0 count;
  '(p, bits, count) ← pop_words fuel b p bits count;
  pop_rest fuel b p bits count.

Fixpoint skip_unaligned (fuel : nat) (base skipval : Z) (b : list Z) (c count pos : Z) : option (Z * Z * Z) :=
  if negb (Z.land (base + c) 7 =? 0) && negb (count =? 0) then
    match fuel with
    | O => None
    | S f =>
        x ← rd b c;
        if negb (x =? skipval) then Some (c, count, pos)
        else skip_unaligned f base skipval b (c + 1) (count - 1) (pos + 8)
    end
  else Some (c, count, pos).

Fixpoint skip_words (fuel : nat) (skipval : Z) (b : list Z) (c count pos : Z) : option (Z * Z * Z) :=
  if 8 <=? count then
    match fuel with
    | O => None
    | S f =>
        x ← rdn b c 8;
        if negb (host_dec x =? skipval) then Some (c, count, pos)
        else skip_words f skipval b (c + 8) (count - 8) (pos + 64)
    end
  else Some (c, count, pos).

(** The next [n] bytes, the first one most significant, with zeroes after the end. *)
Fixpoint load_word (n : nat) (b : list Z) (c count word : Z) : option Z :=
  match n with
  | O => Some word
  | S n =>
      let word := uwrap 64 (Z.shiftl word 8) in
      if negb (count =? 0) then
        x ← rd b c; load_word n b (c + 1) (count - 1) (Z.lor word x)
      else load_word n b c count word
  end.

(** The scan for the bit; it panics when [one] becomes 0. *)
Fixpoint scan_word (n : nat) (one word bit pos : Z) : option Z :=
  if negb (one =? 0) then
    match n with
    | O => None
    | S n =>
        if Z.b2z (negb (Z.land one word =? 0)) =? bit then Some pos
        else scan_word n (Z.shiftr one 1) word bit (pos + 1)
    end
  else None.

(** [redisBitpos(s + p, count, bit)] *)
Definition redisBitpos (base : Z) (b : list Z) (p count bit : Z) : option Z :=
  let fuel := Z.to_nat count in
  let skipval := if negb (bit =? 0) then 0 else UCHAR_MAX in
  '(c, count, pos) ← skip_unaligned fuel base skipval b p count 0;
  let skipval := if negb (bit =? 0) then 0 else ULONG_MAX in
  '(c, count, pos) ← skip_words fuel skipval b c count pos;
  word ← load_word 8 b c count 0;
  if (bit =? 1) && (word =? 0) then Some (-1)
  else
    let one := uwrap 64 (Z.lnot (Z.shiftr ULONG_MAX 1)) in
    scan_word 64 one word bit pos.

(** ** BITOP on buffers *)

Definition bitop_word (op x y : Z) : Z :=
  if op =? BITOP_AND then Z.land x y else if op =? BITOP_OR then Z.lor x y else Z.lxor x y.

(** [lres[k] op= lp[k]], 8 bytes from [j + 8 * k] on. *)
Definition fast_word (op : Z) (res src : list Z) (j k : Z) : option (list Z) :=
  x ← rdn res (j + 8 * k) 8;
  y ← rdn src (j + 8 * k) 8;
  wrn res (j + 8 * k) (host_enc 8 (bitop_word op (host_dec x) (host_dec y))).

Definition not_word (res : list Z) (j k : Z) : option (list Z) :=
  x ← rdn res (j + 8 * k) 8;
  wrn res (j + 8 * k) (host_enc 8 (uwrap 64 (Z.lnot (host_dec x)))).

Fixpoint fast_keys (op : Z) (res : list Z) (srcs : list (list Z)) (j : Z) : option (list Z) :=
  match srcs with
  | [] => Some res
  | s :: srcs =>
      res ← fast_word op res s j 0;
      res ← fast_word op res s j 1;
      res ← fast_word op res s j 2;
      res ← fast_word op res s j 3;
      fast_keys op res srcs j
  end.

(** The loops on groups of four words; [srcs] are the sources after the first one. *)
Fixpoint fast_loop (fuel : nat) (op : Z) (res : list Z) (srcs : list (list Z)) (j minlen : Z)
    : option (list Z * Z) :=
  if 32 <=? minlen then
    match fuel with
    | O => None
    | S f =>
        res ← (if op =? BITOP_NOT then
                 res ← not_word res j 0;
                 res ← not_word res j 1;
                 res ← not_word res j 2;
                 not_word res j 3
               else fast_keys op res srcs j);
        fast_loop f op res srcs (j + 32) (minlen - 32)
    end
  else Some (res, j).

(** Byte [j] of a source that may be shorter. *)
Definition src_byte (s : list Z * Z) (j : Z) : option Z := if snd s <=? j then Some 0 else rd (fst s) j.

Fixpoint slow_keys (op output : Z) (srcs : list (list Z * Z)) (j : Z) : option Z :=
  match srcs with
  | [] => Some output
  | s :: srcs =>
      byte ← src_byte s j;
      let output := if op =? BITOP_AND then Z.land output byte
                    else if op =? BITOP_OR then Z.lor output byte
                    else if op =? BITOP_XOR then Z.lxor output byte else output in
      slow_keys op output srcs j
  end.

Fixpoint slow_loop (n : nat) (op : Z) (res : list Z) (srcs : list (list Z * Z)) (j : Z) : option (list Z) :=
  match n with
  | O => Some res
  | S n =>
      match srcs with
      | [] => None
      | s :: rest =>
          output ← src_byte s j;
          let output := if op =? BITOP_NOT then uwrap 8 (Z.lnot output) else output in
          output ← slow_keys op output rest j;
          res ← wr res j output;
          slow_loop n op res srcs (j + 1)
      end
  end.

(** The buffer of the result, an sds of [maxlen] zeroes at first; each source is its
    buffer and its length. *)
Definition bitop_buffer (op : Z) (srcs : list (list Z * Z)) (minlen maxlen : Z) (res : list Z) : option (list Z) :=
  '(res, j) ←
    (if negb (minlen =? 0) && (zlen srcs <=? 16) then
       s ← head srcs;
       x ← rdn (fst s) 0 minlen;
       res ← wrn res 0 x;
       fast_loop (Z.to_nat minlen) op res (map fst (tail srcs)) 0 minlen
     else Some (res, 0));
  slow_loop (Z.to_nat (maxlen - j)) op res srcs j.

End Bits.

(** ** Commands *)

Section Commands.
Context `{ServerEnv} `{Host}.
(** The address of the buffer in which [string_view] finds the bytes of an object. *)
Context (ptr_of : addr -> Z).

(** [None] is REDIS_ERR. *)
Definition getBitOffsetFromArgument (a : addr) : Cmd (option Z) :=
  r ← getLongLongFromObjectOrReply (Some a) (Some "bit offset is not an integer or out of range"%string);
  match r with
  | None => mret None
  | Some loffset =>
      if (loffset <? 0) || (512 * 1024 * 1024 <=? Z.shiftr (uwrap 64 loffset) 3) then
        _ ← addReplyError "bit offset is not an integer or out of range"; mret None
      else mret (Some (uwrap 64 loffset))
  end.

Definition setbitCommand : Cmd unit :=
  a2 ← arg 2;
  r ← getBitOffsetFromArgument a2;
  match r with
  | None => mret tt
  | Some bitoffset =>
      a3 ← arg 3;
      r ← getLongFromObjectOrReply (Some a3) (Some "bit is not an integer or out of range"%string);
      match r with
      | None => mret tt
      | Some on =>
          if negb (Z.land on (Z.lnot 1) =? 0) then addReplyError "bit is not an integer or out of range" else
          db ← c_db;
          key ← arg 1;
          o ← lookupKeyWrite db key;
          o ← (match o with
               | None =>
                   s ← lift sdsempty;
                   o ← createObject REDIS_STRING (PSds s);
                   _ ← dbAdd db key o;
                   mret (Some o)
               | Some o =>
                   bad ← checkType o REDIS_STRING;
                   if bad : bool then mret None
                   else o ← dbUnshareStringValue db key o; mret (Some o)
               end);
          match o with
          | None => mret tt
          | Some o =>
              let byte := swrap 32 (Z.shiftr bitoffset 3) in
              _ ← update_sds o (fun s => sdsgrowzero junk s (uwrap 64 (byte + 1)));
              ob ← load o;
              s ← obj_sds ob;
              byteval ← lift (rd (s_buf s) byte);
              let bit := 7 - Z.land bitoffset 7 in
              let bitval := Z.land byteval (Z.shiftl 1 bit) in
              let byteval := Z.land byteval (Z.lnot (Z.shiftl 1 bit)) in
              let byteval := Z.lor byteval (Z.shiftl (Z.land on 1) bit) in
              _ ← update_sds o (fun s => b ← wr (s_buf s) byte (uwrap 8 byteval); Some (Sds (s_len s) (s_free s) b));
              _ ← signalModifiedKey db key;
              _ ← notifyKeyspaceEvent REDIS_NOTIFY_STRING "setbit" key db;
              _ ← incr_dirty 1;
              addReply (if negb (bitval =? 0) then shared_cone else shared_czero)
          end
      end
  end.

Definition getbitCommand : Cmd unit :=
  a2 ← arg 2;
  r ← getBitOffsetFromArgument a2;
  match r with
  | None => mret tt
  | Some bitoffset =>
      key ← arg 1;
      o ← lookupKeyReadOrReply key shared_czero;
      match o with
      | None => mret tt
      | Some a =>
          bad ← checkType a REDIS_STRING;
          if bad : bool then mret tt else
          let byte := Z.shiftr bitoffset 3 in
          let bit := 7 - Z.land bitoffset 7 in
          o ← load a;
          bitval ←
            (if negb (o_encoding o =? REDIS_ENCODING_RAW) then
               v ← obj_long o;
               '(llbuf, n) ← lift (Num.ll2string (replicate 32 0) 32 v);
               if byte <? n then c ← lift (rd llbuf byte); mret (Z.land c (Z.shiftl 1 bit)) else mret 0
             else
               s ← obj_sds o;
               if byte <? sdslen s then c ← lift (rd (s_buf s) byte); mret (Z.land c (Z.shiftl 1 bit))
               else mret 0);
          addReply (if negb (bitval =? 0) then shared_cone else shared_czero)
      end
  end.

(** strcasecmp(s, t) == 0 for a literal [t] *)
Fixpoint strcaseeq (s : list Z) (t : list Z) : option bool :=
  match s, t with
  | [], _ => None
  | c :: s, [] => Some (c =? 0)
  | c :: s, x :: t => if tolower c =? x then strcaseeq s t else Some false
  end.

Definition bitop_name (b : list Z) : option (option Z) :=
  a ← strcaseeq b (str "and");
  o ← strcaseeq b (str "or");
  x ← strcaseeq b (str "xor");
  n ← strcaseeq b (str "not");
  Some (if a : bool then Some BITOP_AND else if o : bool then Some BITOP_OR
        else if x : bool then Some BITOP_XOR else if n : bool then Some BITOP_NOT else None).

(** The sources found so far: objects held, with their lengths; a missing key is [None].
    The result is [None] after a key of another type. *)
Fixpoint bitop_sources (keys : list addr) (first : bool) (objects : list (option addr)) (minlen maxlen : Z)
    : Cmd (option (list (option addr) * Z * Z)) :=
  match keys with
  | [] => mret (Some (objects, minlen, maxlen))
  | key :: keys =>
      db ← c_db;
      o ← lookupKeyRead db key;
      match o with
      | None => bitop_sources keys false (objects ++ [None]) 0 maxlen
      | Some o =>
          bad ← checkType o REDIS_STRING;
          if bad : bool then
            _ ← decr_all (reverse (omap id objects)); mret None
          else
            d ← getDecodedObject o;
            ob ← load d;
            s ← obj_sds ob;
            let len := sdslen s in
            bitop_sources keys false (objects ++ [Some d])
              (if first || (len <? minlen) then len else minlen) (if maxlen <? len then len else maxlen)
      end
  end.

Fixpoint source_buffers (objects : list (option addr)) : Cmd (list (list Z * Z)) :=
  match objects with
  | [] => mret []
  | o :: objects =>
      x ← (match o with
           | None => mret ([], 0)
           | Some a => ob ← load a; s ← obj_sds ob; mret (s_buf s, sdslen s)
           end);
      l ← source_buffers objects;
      mret (x :: l)
  end.

Definition bitopCommand : Cmd unit :=
  a1 ← arg_sds 1;
  op ← lift (bitop_name (s_buf a1));
  match op with
  | None => addReply shared_syntaxerr
  | Some op =>
      n ← argc;
      if (op =? BITOP_NOT) && negb (n =? 4) then
        addReplyError "BITOP NOT must be called with a single source key."
      else
        l ← gets argv;
        r ← bitop_sources (drop 3 l) true [] 0 0;
        match r with
        | None => mret tt
        | Some (objects, minlen, maxlen) =>
            res ← (if negb (maxlen =? 0) then
                     s ← lift (sdsnewlen None maxlen);
                     srcs ← source_buffers objects;
                     b ← lift (bitop_buffer op srcs minlen maxlen (s_buf s));
                     mret (Some (Sds (s_len s) (s_free s) b))
                   else mret None);
            _ ← decr_all (omap id objects);
            db ← c_db;
            targetkey ← arg 2;
            _ ← (match res with
                 | Some s =>
                     o ← createObject REDIS_STRING (PSds s);
                     _ ← setKey db targetkey o;
                     _ ← notifyKeyspaceEvent REDIS_NOTIFY_STRING "set" targetkey db;
                     decrRefCount o
                 | None =>
                     gone ← dbDelete db targetkey;
                     if gone : bool then
                       _ ← signalModifiedKey db targetkey;
                       notifyKeyspaceEvent REDIS_NOTIFY_GENERIC "del" targetkey db
                     else mret tt
                 end);
            _ ← incr_dirty 1;
            addReplyLongLong maxlen
        end
  end.

(** The conversion of a range of bytes. *)
Definition byte_range (strlen start end_ : Z) : Z * Z :=
  let start := if start <? 0 then swrap 64 (strlen + start) else start in
  let end_ := if end_ <? 0 then swrap 64 (strlen + end_) else end_ in
  let start := if start <? 0 then 0 else start in
  let end_ := if end_ <? 0 then 0 else end_ in
  (start, if strlen <=? end_ then strlen - 1 else end_).

Definition bitcountCommand : Cmd unit :=
  key ← arg 1;
  o ← lookupKeyReadOrReply key shared_czero;
  match o with
  | None => mret tt
  | Some a =>
      bad ← checkType a REDIS_STRING;
      if bad : bool then mret tt else
      '(p, strlen) ← string_view a;
      n ← argc;
      range ←
        (if n =? 4 then
           a2 ← arg 2;
           r ← getLongFromObjectOrReply (Some a2) None;
           match r with
           | None => mret None
           | Some start =>
               a3 ← arg 3;
               r ← getLongFromObjectOrReply (Some a3) None;
               match r with
               | None => mret None
               | Some end_ => mret (Some (byte_range strlen start end_))
               end
           end
         else if n =? 2 then mret (Some (0, strlen - 1))
         else _ ← addReply shared_syntaxerr; mret None);
      match range with
      | None => mret tt
      | Some (start, end_) =>
          if end_ <? start then addReply shared_czero
          else
            bits ← lift (redisPopcount (ptr_of a) p start (end_ - start + 1));
            addReplyLongLong (swrap 64 bits)
      end
  end.

Definition bitposCommand : Cmd unit :=
  a2 ← arg 2;
  r ← getLongFromObjectOrReply (Some a2) None;
  match r with
  | None => mret tt
  | Some bit =>
      if negb (bit =? 0) && negb (bit =? 1) then addReplyError "The bit argument must be 1 or 0." else
      db ← c_db;
      key ← arg 1;
      o ← lookupKeyRead db key;
      match o with
      | None => addReplyLongLong (if negb (bit =? 0) then -1 else 0)
      | Some a =>
          bad ← checkType a REDIS_STRING;
          if bad : bool then mret tt else
          '(p, strlen) ← string_view a;
          n ← argc;
          range ←
            (if (n =? 4) || (n =? 5) then
               a3 ← arg 3;
               r ← getLongFromObjectOrReply (Some a3) None;
               match r with
               | None => mret None
               | Some start =>
                   r ← (if n =? 5 then a4 ← arg 4; getLongFromObjectOrReply (Some a4) None
                        else mret (Some (strlen - 1)));
                   match r with
                   | None => mret None
                   | Some end_ => mret (Some (byte_range strlen start end_))
                   end
               end
             else if n =? 3 then mret (Some (0, strlen - 1))
             else _ ← addReply shared_syntaxerr; mret None);
          match range with
          | None => mret tt
          | Some (start, end_) =>
              if end_ <? start then addReplyLongLong (-1)
              else
                let bytes := end_ - start + 1 in
                pos ← lift (redisBitpos (ptr_of a) p start bytes bit);
                if (n =? 5) && (bit =? 0) && (pos =? bytes * 8) then addReplyLongLong (-1)
                else addReplyLongLong (if negb (pos =? -1) then pos + start * 8 else pos)
          end
      end
  end.

End Commands.
