(* ===== verification/ServerFacts.v ===== *)
(** * The server seen as values, and how commands are related to it

    [abs] forgets the memory of the objects: a database maps keys to values.  A command
    implements a specification ([sim]) when it runs to its end and changes what [abs]
    sees, its output included, as the specification says. *)

From Stdlib Require Import Ascii String.
From S2P Require Import Prelude Util Sds Server.
Import SdsSpec SdsFacts QuoteFacts.

(** ** Values *)

(** A string, or another type with a name for its contents. *)
Inductive value := VStr (x : list Z) | VOther (type p : Z).

#[export] Instance value_eq_dec : EqDecision value.
Proof. solve_decision. Defined.

Record adb := Adb { a_dict : gmap (list Z) value; a_expires : gmap (list Z) Z }.
Record aserver := AServer { a_dbs : list adb; a_argv : list (list Z); a_sd : side }.

(** The decimal text of an integer. *)
Definition print (v : Z) : list Z := default [] (Num.ll_chars v).

Definition value_of (o : robject) : value :=
  match o_ptr o with
  | PSds s => VStr (content s)
  | PLong v => VStr (print v)
  | POther p => VOther (o_type o) p
  end.

Definition val_at (h : gmap addr robject) (a : addr) : option value := value_of <$> h !! a.

Definition view (h : gmap addr robject) (d : redisDb) : adb := Adb (omap (val_at h) (db_dict d)) (db_expires d).

Definition text_at (h : gmap addr robject) (a : addr) : list Z :=
  match val_at h a with Some (VStr x) => x | _ => [] end.

Definition abs (s : server) : aserver :=
  AServer (view (heap s) <$> dbs s) (text_at (heap s) <$> argv s) (sd s).

#[global] Arguments abs : simpl never.
#[global] Arguments print : simpl never.

(** ** Specifications: computations on the abstract state that always have a result *)

Definition Spec (A : Type) : Type := aserver -> A * aserver.

#[global] Instance Spec_ret : MRet Spec := fun A x s => (x, s).
#[global] Instance Spec_bind : MBind Spec := fun A B f m s => let '(x, s) := m s in f x s.

Definition a_gets {A} (f : aserver -> A) : Spec A := fun s => (f s, s).
Definition a_side (f : side -> side) : Spec unit := fun s => (tt, AServer (a_dbs s) (a_argv s) (f (a_sd s))).

(** ** Reference counts *)

Definition occ (a : addr) (l : list addr) : Z := Z.of_nat (count_occ Nat.eq_dec l a).

Definition vals (m : gmap (list Z) addr) : list addr := map snd (map_to_list m).

(** Every reference to an object but those of the command that runs. *)
Definition roots (s : server) : list addr :=
  integers s ++ held s ++ argv s ++ concat (map (fun d => vals (db_dict d)) (dbs s)).

#[global] Arguments occ : simpl never.
#[global] Arguments roots : simpl never.

(** The longest string value. *)
Definition STRING_MAX : Z := 512 * 1024 * 1024.

Definition obj_ok (o : robject) : Prop :=
  (o_type o = REDIS_STRING /\ o_encoding o = REDIS_ENCODING_RAW /\
     exists b x, o_ptr o = PSds b /\ rep b x /\ bytes_ok x /\ zlen x <= STRING_MAX) \/
  (o_type o = REDIS_STRING /\ o_encoding o = REDIS_ENCODING_INT /\ exists v, o_ptr o = PLong v /\ in_s 64 v) \/
  (1 <= o_type o <= 4 /\ exists p, o_ptr o = POther p).

(** An object is a raw string with the bytes [x]. *)
Definition raw (h : gmap addr robject) (a : addr) (x : list Z) : Prop :=
  exists o b, h !! a = Some o /\ o_type o = REDIS_STRING /\ o_encoding o = REDIS_ENCODING_RAW /\
    o_ptr o = PSds b /\ rep b x /\ bytes_ok x /\ zlen x <= STRING_MAX.

(** A reference that the running command holds in a variable: the object, its value, and
    whether it is known to be a raw string. *)
Abbreviation local := (addr * value * bool)%type.

(** The invariant.  [L] are the references in variables, [D] those stored without being
    counted yet, [R] arguments with their index that are raw strings, and [N] a bound on the
    references, which an int counts. *)
Record inv `{ServerEnv} (N : Z) (L : list local) (D : list addr) (R : list (nat * addr * list Z)) (s : server) : Prop := Inv {
  inv_refs : forall a,
    match heap s !! a with
    | Some o => obj_ok o /\ 0 < o_refcount o /\ o_refcount o + occ a D = occ a (roots s ++ L.*1.*1)
    | None => occ a (roots s ++ L.*1.*1) = 0 /\ occ a D = 0
    end;
  inv_room : zlen (roots s ++ L.*1.*1) <= N < 2 ^ 31;
  inv_locals : forall a v r, In (a, v, r) L -> val_at (heap s) a = Some v /\
    (r = true -> exists x, v = VStr x /\ raw (heap s) a x);
  inv_ints : zlen (integers s) = REDIS_SHARED_INTEGERS /\
    forall v a, rd (integers s) v = Some a -> exists o, heap s !! a = Some o /\ o_type o = REDIS_STRING /\
      o_encoding o = REDIS_ENCODING_INT /\ o_ptr o = PLong v;
  inv_args : forall a, In a (argv s) -> exists o, heap s !! a = Some o /\ o_type o = REDIS_STRING;
  inv_expires : forall d k w, In d (dbs s) -> db_expires d !! k = Some w -> in_s 64 w /\ is_Some (db_dict d !! k);
  inv_cur : zlen (dbs s) = dbnum /\ dbnum < 2 ^ 31 /\ 0 <= cur (sd s) < dbnum;
  inv_raw : forall j a k, In (j, a, k) R -> argv s !! j = Some a /\ raw (heap s) a k }.

(** An object changed in ways that its owners do not see: its counter, its time of access,
    the memory of its string. *)
Definition same_object (o o' : robject) : Prop :=
  o_type o' = o_type o /\ o_encoding o' = o_encoding o /\
  (o_ptr o' = o_ptr o \/ exists b b' x, o_ptr o = PSds b /\ o_ptr o' = PSds b' /\ rep b x /\ rep b' x).

(** Only the memory of the objects differs. *)
Definition heap_step (s s' : server) : Prop := s' = with_heap s (heap s').

Abbreviation dict_refs l := (concat (map (fun d => vals (db_dict d)) l)).

(** A command starts: its arguments are raw strings, and nothing else is pending. *)
Definition all_args (s : server) : list (nat * addr * list Z) :=
  imap (fun j a => (j, a, text_at (heap s) a)) (argv s).
Definition ready `{ServerEnv} (N : Z) (s : server) : Prop := inv N [] [] (all_args s) s.

(** Key [k] of database [db] is bound to the object [a]. *)
Definition at_key (s : server) (db : Z) (k : list Z) (a : addr) : Prop :=
  exists d, rd (dbs s) db = Some d /\ db_dict d !! k = Some a.

(** What a lookup found: an object, seen as a value, or nothing. *)
Definition found (s : server) (db : Z) (k : list Z) (r : option addr) (v : option value) : Prop :=
  match r, v with
  | Some a, Some v => at_key s db k a /\ val_at (heap s) a = Some v
  | None, None => exists d, rd (dbs s) db = Some d /\ db_dict d !! k = None
  | _, _ => False
  end.

(** A reference that does not come from the keyspace: an argument, or a variable. *)
Definition owned (s : server) (L : list local) (a : addr) (v : value) : Prop :=
  (exists j x, argv s !! j = Some a /\ a_argv (abs s) !! j = Some x /\ v = VStr x) \/
  (exists r, In (a, v, r) L).

(** The arguments, as addresses and as texts, are the same. *)
Definition args_kept (s s' : server) : Prop := argv s' = argv s /\ a_argv (abs s') = a_argv (abs s).

(** ** Weakest preconditions and simulation *)

Definition wp {A} (m : Cmd A) (s : server) (Q : A -> server -> Prop) : Prop :=
  match m s with Some (x, s') => Q x s' | None => False end.

(** The command runs from [s] as the specification does from [abs s]. *)
Definition sim {A B} (m : Cmd A) (am : Spec B) (s : server) (Q : A -> B -> server -> Prop) : Prop :=
  wp m s (fun x s' => let '(y, t) := am (abs s) in t = abs s' /\ Q x y s').

Lemma wp_bind {A B} (m : Cmd A) (f : A -> Cmd B) s Q :
  wp m s (fun x s' => wp (f x) s' Q) -> wp (m ≫= f) s Q.
Proof. unfold wp, mbind, Cmd_bind. by destruct (m s) as [[x s']|]. Qed.

Lemma wp_ret {A} (x : A) s (Q : A -> server -> Prop) : Q x s -> wp (mret x) s Q.
Proof. done. Qed.

Lemma wp_mono {A} (m : Cmd A) s (Q Q' : A -> server -> Prop) :
  wp m s Q -> (forall x s', Q x s' -> Q' x s') -> wp m s Q'.
Proof. unfold wp. destruct (m s) as [[x s']|]; auto. Qed.

Lemma wp_lift {A} (o : option A) x s (Q : A -> server -> Prop) : o = Some x -> Q x s -> wp (lift o) s Q.
Proof. by intros ->. Qed.

Lemma wp_gets {A} (f : server -> A) s (Q : A -> server -> Prop) : Q (f s) s -> wp (gets f) s Q.
Proof. done. Qed.

Lemma wp_assert (b : bool) s (Q : unit -> server -> Prop) : b = true -> Q tt s -> wp (redisAssert b) s Q.
Proof. by intros ->. Qed.

Lemma wp_load a o s (Q : robject -> server -> Prop) : heap s !! a = Some o -> Q o s -> wp (load a) s Q.
Proof. unfold wp, load, mbind, Cmd_bind, gets, lift. by intros ->. Qed.

Lemma wp_store a o o' s (Q : unit -> server -> Prop) :
  heap s !! a = Some o -> Q tt (with_heap s (<[a := o']> (heap s))) -> wp (store a o') s Q.
Proof. unfold wp, store, load, mbind, Cmd_bind, gets, lift. by intros ->. Qed.

Lemma wp_zfree a o s (Q : unit -> server -> Prop) :
  heap s !! a = Some o -> Q tt (with_heap s (delete a (heap s))) -> wp (zfree a) s Q.
Proof. unfold wp, zfree, load, mbind, Cmd_bind, gets, lift. by intros ->. Qed.

Lemma sim_bind {A A' B B'} (m : Cmd A) (am : Spec A') (f : A -> Cmd B) (af : A' -> Spec B') s Q :
  sim m am s (fun x y s' => sim (f x) (af y) s' Q) -> sim (m ≫= f) (am ≫= af) s Q.
Proof.
  intros Hm. apply wp_bind. eapply wp_mono; [exact Hm|]. intros x s'. unfold mbind, Spec_bind.
  destruct (am (abs s)) as [y t]. by intros [-> Hq].
Qed.

(** A step of the command that the specification does not see. *)
Lemma sim_step {A B B'} (m : Cmd A) (am : Spec B') (f : A -> Cmd B) s Q :
  wp m s (fun x s' => abs s' = abs s /\ sim (f x) am s' Q) -> sim (m ≫= f) am s Q.
Proof. intros Hm. apply wp_bind. eapply wp_mono; [exact Hm|]. cbn. intros x s' [E Hs]. unfold sim in Hs. by rewrite E in Hs. Qed.

(** The same for a step at the end. *)
Lemma sim_last {A B} (m : Cmd A) (y : B) s (Q : A -> B -> server -> Prop) :
  wp m s (fun x s' => abs s' = abs s /\ Q x y s') -> sim m (mret y) s Q.
Proof. intros Hm. eapply wp_mono; [exact Hm|]. cbn. by intros x s' [<- Hq]. Qed.

Lemma sim_ret {A B} (x : A) (y : B) s (Q : A -> B -> server -> Prop) : Q x y s -> sim (mret x) (mret y) s Q.
Proof. done. Qed.

Lemma sim_gets_r {A B C} (f : aserver -> C) (m : Cmd A) (af : C -> Spec B) s Q :
  sim m (af (f (abs s))) s Q -> sim m (a_gets f ≫= af) s Q.
Proof. done. Qed.

Lemma sim_mono {A B} (m : Cmd A) (am : Spec B) s (Q Q' : A -> B -> server -> Prop) :
  sim m am s Q -> (forall x y s', Q x y s' -> Q' x y s') -> sim m am s Q'.
Proof.
  intros Hm HQ. eapply wp_mono; [exact Hm|]. intros x s'. destruct (am (abs s)). intros [-> ?]. auto.
Qed.

Lemma sim_side {B} f s (Q : unit -> B -> server -> Prop) (y : B) :
  Q tt y (with_sd s (f (sd s))) -> sim (modify_side f) (fun t => (y, snd (a_side f t))) s Q.
Proof. done. Qed.

(** The next step of a simulation, by a lemma. *)
Ltac sim_next L := eapply sim_bind, sim_mono; [eapply L|cbn beta].
Ltac sim_skip L := eapply sim_step, wp_mono; [eapply L|cbn beta].

(** ** Lemmas: references *)

Lemma occ_app a l k : occ a (l ++ k) = occ a l + occ a k.
Proof. unfold occ. rewrite count_occ_app. lia. Qed.

Lemma occ_cons a b l : occ a (b :: l) = (if decide (a = b) then 1 else 0) + occ a l.
Proof. unfold occ. cbn. destruct (Nat.eq_dec b a), (decide (a = b)); subst; try done; lia. Qed.

Lemma occ_nil a : occ a [] = 0.
Proof. done. Qed.

Lemma occ_nonneg a l : 0 <= occ a l.
Proof. unfold occ. lia. Qed.

Lemma occ_In a l : In a l <-> 0 < occ a l.
Proof. unfold occ. rewrite (count_occ_In Nat.eq_dec). lia. Qed.

Lemma occ_le_zlen a l : occ a l <= zlen l.
Proof. unfold occ, zlen. pose proof (count_occ_bound Nat.eq_dec a l). lia. Qed.

Lemma occ_perm a l k : l ≡ₚ k -> occ a l = occ a k.
Proof. intros Hp. unfold occ. f_equal. revert a. by apply Permutation_count_occ. Qed.

Lemma zlen_permutation {A} (l k : list A) : l ≡ₚ k -> zlen l = zlen k.
Proof. intros Hp. unfold zlen. f_equal. by apply Permutation_length. Qed.

Lemma vals_insert_new m k a : m !! k = None -> vals (<[k := a]> m) ≡ₚ a :: vals m.
Proof. intros Hk. unfold vals. by rewrite map_to_list_insert. Qed.

Lemma vals_delete m k a : m !! k = Some a -> vals m ≡ₚ a :: vals (delete k m).
Proof. intros Hk. unfold vals. by rewrite <- (map_to_list_delete _ _ _ Hk). Qed.

Lemma vals_insert_old m k a b : m !! k = Some b -> vals (<[k := a]> m) ≡ₚ a :: vals (delete k m).
Proof. intros Hk. rewrite <- insert_delete_eq. apply vals_insert_new, lookup_delete_eq. Qed.

Lemma in_vals m k a : m !! k = Some a -> In a (vals m).
Proof.
  intros Hk. unfold vals. apply in_map_iff. exists (k, a). split; [done|].
  by apply list_elem_of_In, elem_of_map_to_list.
Qed.

Lemma vals_in m a : In a (vals m) -> exists k, m !! k = Some a.
Proof.
  unfold vals. rewrite in_map_iff. intros ([k b] & <- & Hin). exists k.
  by apply elem_of_map_to_list, list_elem_of_In.
Qed.

(** Two keys with the same object are two references. *)
Lemma occ_vals_two m k k' a : m !! k = Some a -> m !! k' = Some a -> k <> k' -> 2 <= occ a (vals m).
Proof.
  intros H1 H2 Hk. rewrite (occ_perm _ _ _ (vals_delete m k a H1)), occ_cons, decide_True by done.
  assert (In a (vals (delete k m))) as Hin%occ_In; [|lia].
  apply (in_vals _ k'). by rewrite lookup_delete_ne.
Qed.

Lemma dict_refs_insert l i d d' (f : list addr -> Z) :
  (forall l k, f (l ++ k) = f l + f k) -> l !! i = Some d ->
  f (dict_refs (<[i := d']> l)) + f (vals (db_dict d)) = f (dict_refs l) + f (vals (db_dict d')).
Proof.
  intros Hf. revert i. induction l as [|e l IH]; intros [|i]; [done|done| |].
  - intros [= ->]. cbn. rewrite !Hf. lia.
  - intros Hi. specialize (IH i Hi).
    change (<[S i := d']> (e :: l)) with (e :: <[i := d']> l). cbn [map concat]. rewrite !Hf. lia.
Qed.

Lemma in_dict_refs l d k a : In d l -> db_dict d !! k = Some a -> In a (dict_refs l).
Proof. intros Hd Hk. apply in_concat. eexists. split; [|by eapply in_vals]. apply in_map_iff. eauto. Qed.

Lemma roots_arg s a : In a (argv s) -> In a (roots s).
Proof. intros Ha. unfold roots. rewrite !in_app_iff. tauto. Qed.

Lemma roots_db s d k a : In d (dbs s) -> db_dict d !! k = Some a -> In a (roots s).
Proof. intros Hd Hk. unfold roots. rewrite !in_app_iff. eauto using in_dict_refs. Qed.

Lemma roots_int s a : In a (integers s) -> In a (roots s).
Proof. intros Ha. unfold roots. rewrite !in_app_iff. tauto. Qed.

Lemma rd_In {A} (l : list A) i x : rd l i = Some x -> In x l.
Proof. intros [_ Hi]%rd_Some. by apply list_elem_of_lookup_2, list_elem_of_In in Hi. Qed.

Lemma lookup_In {A} (l : list A) (i : nat) x : l !! i = Some x -> In x l.
Proof. intros Hi. by apply list_elem_of_lookup_2, list_elem_of_In in Hi. Qed.

(** ** Lemmas: objects *)

Lemma raw_val h a x : raw h a x -> val_at h a = Some (VStr x).
Proof.
  intros (o & b & Ho & _ & _ & Hp & Hr & _). unfold val_at. rewrite Ho. cbn. unfold value_of. rewrite Hp.
  by rewrite (rep_content _ _ Hr).
Qed.

Lemma raw_insert_ne h a b o x : a <> b -> raw h a x -> raw (<[b := o]> h) a x.
Proof. intros Hne (o' & sb & Ho & Hr). exists o', sb. by rewrite lookup_insert_ne. Qed.

Lemma raw_delete_ne h a b x : a <> b -> raw h a x -> raw (delete b h) a x.
Proof. intros Hne (o' & sb & Ho & Hr). exists o', sb. by rewrite lookup_delete_ne. Qed.

Lemma val_insert_ne h a b o : a <> b -> val_at (<[b := o]> h) a = val_at h a.
Proof. intros Hne. unfold val_at. by rewrite lookup_insert_ne. Qed.

Lemma val_delete_ne h a b : a <> b -> val_at (delete b h) a = val_at h a.
Proof. intros Hne. unfold val_at. by rewrite lookup_delete_ne. Qed.

Lemma val_insert_eq h b o : val_at (<[b := o]> h) b = Some (value_of o).
Proof. unfold val_at. by rewrite lookup_insert_eq. Qed.

Lemma same_value o o' : same_object o o' -> value_of o' = value_of o.
Proof.
  intros (Ht & He & [Hp|(b & b' & x & Hp & Hp' & Hr & Hr')]); unfold value_of.
  - by rewrite Hp, Ht.
  - by rewrite Hp, Hp', (rep_content _ _ Hr), (rep_content _ _ Hr').
Qed.

Lemma same_ok o o' : same_object o o' -> obj_ok o -> obj_ok o'.
Proof.
  unfold obj_ok. intros (-> & -> & [->|(b & b' & y & E & -> & Hr & Hr')]); [done|].
  intros [(Ht & He & b0 & x & Hp & Hx & Hl)|[(Ht & He & v & Hp & _)|(Ht & p & Hp)]]; rewrite E in Hp; try done.
  injection Hp as <-. left. split_and!; try done. exists b', y. by rewrite (rep_unique _ _ _ Hr Hx) in *.
Qed.

Lemma same_raw h a o o' b x : same_object o o' -> h !! b = Some o -> raw h a x -> raw (<[b := o']> h) a x.
Proof.
  intros Hs Hb (oa & sb & Ha & Ht & He & Hp & Hr & Hx). destruct (decide (a = b)) as [->|Hne].
  - rewrite Hb in Ha. injection Ha as <-. destruct Hs as (Ht' & He' & Hp').
    exists o'. rewrite lookup_insert_eq, Ht', He'. destruct Hp' as [Hp'|(b1 & b2 & y & E1 & E2 & Hr1 & Hr2)].
    + exists sb. by rewrite Hp'.
    + rewrite E1 in Hp. injection Hp as ->. exists b2. by rewrite (rep_unique _ _ _ Hr Hr1) in *.
  - apply raw_insert_ne; [done|]. by exists oa, sb.
Qed.

Lemma same_val h a b o o' : same_object o o' -> h !! b = Some o -> val_at (<[b := o']> h) a = val_at h a.
Proof.
  intros Hs Hb. destruct (decide (a = b)) as [->|Hne]; [|by apply val_insert_ne].
  rewrite val_insert_eq, (same_value _ _ Hs). unfold val_at. by rewrite Hb.
Qed.

(** ** Lemmas: the abstract state depends on the referenced objects *)

Lemma view_ext h h' d : (forall k a, db_dict d !! k = Some a -> val_at h' a = val_at h a) -> view h' d = view h d.
Proof.
  intros Hv. unfold view. f_equal. apply map_eq. intros k. rewrite !lookup_omap.
  destruct (db_dict d !! k) as [a|] eqn:E; [|done]. cbn. eauto.
Qed.

Lemma abs_heap s h' : (forall a, In a (roots s) -> val_at h' a = val_at (heap s) a) -> abs (with_heap s h') = abs s.
Proof.
  intros Hv. unfold abs. cbn. f_equal.
  - apply list_fmap_ext. intros i d Hd. apply view_ext. intros k a Hk. apply Hv.
    by eapply roots_db; [eapply lookup_In|].
  - apply list_fmap_ext. intros i a Ha. unfold text_at. rewrite Hv; [done|]. by eapply roots_arg, lookup_In.
Qed.

(** ** Lemmas: the invariant under the operations on objects *)

Section Inv.
Context `{ServerEnv}.

Lemma heap_step_refl s : heap_step s s.
Proof. by destruct s. Qed.

Lemma heap_step_trans s t u : heap_step s t -> heap_step t u -> heap_step s u.
Proof. unfold heap_step. intros -> ->. done. Qed.

Lemma inv_In N L D R s a : inv N L D R s -> In a (roots s ++ L.*1.*1) -> exists o, heap s !! a = Some o.
Proof.
  intros I Ha%occ_In. pose proof (inv_refs _ _ _ _ _ I a) as Hr. destruct (heap s !! a); [eauto|lia].
Qed.

Lemma inv_ok N L D R s a o : inv N L D R s -> heap s !! a = Some o -> obj_ok o.
Proof. intros I Ha. pose proof (inv_refs _ _ _ _ _ I a) as Hr. rewrite Ha in Hr. tauto. Qed.

Lemma inv_count N L D R s a o : inv N L D R s -> heap s !! a = Some o ->
  0 < o_refcount o /\ o_refcount o + occ a D = occ a (roots s) + occ a L.*1.*1 /\ o_refcount o <= N - occ a D.
Proof.
  intros I Ha. pose proof (inv_refs _ _ _ _ _ I a) as Hr. rewrite Ha in Hr. destruct Hr as (_ & Hp & Hr).
  pose proof (occ_le_zlen a (roots s ++ L.*1.*1)). pose proof (inv_room _ _ _ _ _ I).
  rewrite occ_app in *. split_and!; lia.
Qed.

Lemma inv_weaken N N' L D R s : inv N L D R s -> N <= N' < 2 ^ 31 -> inv N' L D R s.
Proof. intros [] Hn. constructor; try done. lia. Qed.

(** The parts of the invariant that read the memory, when every object that is referenced
    and was there keeps its value and its encoding. *)
Lemma inv_heap_parts N L L' D R s h' (P : addr -> Prop) :
  inv N L D R s -> (forall x, In x L' -> In x L) ->
  (forall a, In a (roots s ++ L'.*1.*1) -> P a) ->
  (forall a o, P a -> heap s !! a = Some o -> exists o', h' !! a = Some o' /\ same_object o o') ->
  (forall a v r, In (a, v, r) L' -> val_at h' a = Some v /\ (r = true -> exists x, v = VStr x /\ raw h' a x)) /\
  (forall v a, rd (integers s) v = Some a -> exists o, h' !! a = Some o /\ o_type o = REDIS_STRING /\
      o_encoding o = REDIS_ENCODING_INT /\ o_ptr o = PLong v) /\
  (forall a, In a (argv s) -> exists o, h' !! a = Some o /\ o_type o = REDIS_STRING) /\
  (forall j a k, In (j, a, k) R -> argv s !! j = Some a /\ raw h' a k) /\
  abs (with_heap s h') = abs s.
Proof.
  intros I HL HP Hs.
  assert (forall a v, P a -> val_at (heap s) a = Some v -> val_at h' a = Some v) as Hval.
  { intros a v Ha. unfold val_at. destruct (heap s !! a) as [o|] eqn:E; [|done].
    destruct (Hs a o Ha E) as (o' & -> & Ho). cbn. by rewrite (same_value _ _ Ho). }
  assert (forall a x, P a -> raw (heap s) a x -> raw h' a x) as Hraw.
  { intros a x Ha Hr. destruct Hr as (o & b & Ho & Hr). destruct (Hs a o Ha Ho) as (o' & Ho' & Hso).
    assert (raw (<[a := o']> (heap s)) a x) as (o2 & b2 & E & Hr2).
    { eapply same_raw; [done|done|]. by exists o, b. }
    rewrite lookup_insert_eq in E. injection E as <-. by exists o', b2. }
  assert (forall a, In a (roots s) -> P a) as HPr.
  { intros a Ha. apply HP, in_app_iff. by left. }
  split_and!.
  - intros a v r Ha. destruct (inv_locals _ _ _ _ _ I a v r (HL _ Ha)) as [Hv Hr].
    assert (P a) as Pa. { apply HP, in_app_iff. right. apply (in_map fst), (in_map fst) in Ha. done. }
    split; [eauto|]. intros Er. destruct (Hr Er) as (x & -> & Hx). eauto.
  - intros v a Ha. destruct (inv_ints _ _ _ _ _ I) as [_ Hi]. destruct (Hi v a Ha) as (o & Ho & Ht & He & Hp).
    assert (P a) as Pa by (apply HPr, roots_int; by eapply rd_In).
    destruct (Hs a o Pa Ho) as (o' & Ho' & Ht' & He' & Hp'). exists o'. rewrite Ht', He'. split_and!; try done.
    destruct Hp' as [->|(b & b' & x & E & _)]; [done|]. by rewrite E in Hp.
  - intros a Ha. destruct (inv_args _ _ _ _ _ I a Ha) as (o & Ho & Ht).
    destruct (Hs a o (HPr a (roots_arg _ _ Ha)) Ho) as (o' & Ho' & Ht' & _). exists o'. by rewrite Ht'.
  - intros j a k Hin. destruct (inv_raw _ _ _ _ _ I j a k Hin) as [Ha Hr]. split; [done|].
    apply Hraw; [|done]. by eapply HPr, roots_arg, lookup_In.
  - apply abs_heap. intros a Ha. destruct (inv_In _ _ _ _ _ a I) as [o Ho]; [apply in_app_iff; by left|].
    destruct (Hs a o (HPr a Ha) Ho) as (o' & Ho' & Hso). unfold val_at. rewrite Ho, Ho'. cbn.
    by rewrite (same_value _ _ Hso).
Qed.

(** An object changes its counter and what its owners do not see. *)
Lemma inv_object N N' L L' D D' R s a o o' :
  inv N L D R s -> heap s !! a = Some o -> same_object o o' -> 0 < o_refcount o' ->
  o_refcount o' + occ a D' = occ a (roots s) + occ a L'.*1.*1 ->
  (forall b, b <> a -> occ b L'.*1.*1 = occ b L.*1.*1 /\ occ b D' = occ b D) ->
  (forall b v r, In (b, v, r) L' -> In (b, v, r) L \/ (b = a /\ val_at (heap s) a = Some v /\
     (r = true -> exists x, v = VStr x /\ raw (heap s) a x))) ->
  zlen (roots s ++ L'.*1.*1) <= N' < 2 ^ 31 ->
  let s' := with_heap s (<[a := o']> (heap s)) in inv N' L' D' R s' /\ abs s' = abs s.
Proof.
  intros I Ha Hso Hn Hc Ho HL HN s'.
  assert (forall b ob, True -> heap s !! b = Some ob -> exists ob', <[a := o']> (heap s) !! b = Some ob' /\ same_object ob ob') as Hs.
  { intros b ob _ Hb. destruct (decide (b = a)) as [->|Hne].
    - exists o'. rewrite lookup_insert_eq. rewrite Ha in Hb. by injection Hb as <-.
    - exists ob. rewrite lookup_insert_ne by done. split; [done|]. split_and!; [done|done|by left]. }
  destruct (inv_heap_parts N L L D R s _ (fun _ => True) I (fun _ Hx => Hx) (fun _ _ => Logic.I) Hs) as (P1 & P2 & P3 & P4 & P5).
  split; [|exact P5]. constructor.
  - intros b. cbn. change (roots s') with (roots s). rewrite occ_app. destruct (decide (b = a)) as [->|Hne].
    + rewrite lookup_insert_eq. split_and!; [|done|done]. eapply same_ok; [done|]. by eapply inv_ok.
    + rewrite lookup_insert_ne by done. destruct (Ho b Hne) as [-> ->].
      pose proof (inv_refs _ _ _ _ _ I b) as Hr. by rewrite occ_app in Hr.
  - exact HN.
  - intros b v r Hb. destruct (HL b v r Hb) as [Hb'|(-> & Hv & Hr)]; [by apply P1|]. split.
    + cbn. by rewrite (same_val _ _ _ _ _ Hso Ha).
    + intros Er. destruct (Hr Er) as (x & -> & Hx). exists x. split; [done|]. by eapply same_raw.
  - split; [by destruct (inv_ints _ _ _ _ _ I)|exact P2].
  - exact P3.
  - exact (inv_expires _ _ _ _ _ I).
  - exact (inv_cur _ _ _ _ _ I).
  - exact P4.
Qed.

Lemma wp_incr N L D R s a v r :
  inv N L D R s -> val_at (heap s) a = Some v -> (r = true -> exists x, v = VStr x /\ raw (heap s) a x) -> N + 1 < 2 ^ 31 ->
  wp (incrRefCount a) s (fun _ s' => inv (N + 1) ((a, v, r) :: L) D R s' /\ abs s' = abs s /\ heap_step s s').
Proof.
  intros I Hv Hr HN. pose proof Hv as Hv'. unfold val_at in Hv'. destruct (heap s !! a) as [o|] eqn:Ha; [|done].
  destruct (inv_count _ _ _ _ _ _ _ I Ha) as (Hc1 & Hc2 & Hc3). pose proof (occ_nonneg a D).
  apply wp_bind, (wp_load _ o); [done|]. apply (wp_store _ o); [done|]. rewrite s32_small by lia.
  edestruct (inv_object N (N + 1) L ((a, v, r) :: L) D D R s a o (set_refcount o (o_refcount o + 1))) as [I' E'];
    [exact I|exact Ha|by split_and!; [..|left]|cbn; lia| | | | |].
  - change (((a, v, r) :: L).*1.*1) with (a :: L.*1.*1). rewrite occ_cons, decide_True by done. cbn. lia.
  - intros b Hb. change (((a, v, r) :: L).*1.*1) with (a :: L.*1.*1). by rewrite occ_cons, decide_False by done.
  - intros b w q [[= <- <- <-]|Hin]; [|by left]. right. done.
  - change (((a, v, r) :: L).*1.*1) with (a :: L.*1.*1).
    pose proof (inv_room _ _ _ _ _ I). rewrite zlen_app in *. zlia.
  - by split_and!.
Qed.

(** The counting of a reference that is already stored. *)
Lemma inv_incr_stored N L D R s a o :
  inv N L (a :: D) R s -> heap s !! a = Some o ->
  let s' := with_heap s (<[a := set_refcount o (swrap 32 (o_refcount o + 1))]> (heap s)) in inv N L D R s' /\ abs s' = abs s.
Proof.
  intros I Ha. destruct (inv_count _ _ _ _ _ _ _ I Ha) as (Hc1 & Hc2 & Hc3). rewrite occ_cons, decide_True in Hc2, Hc3 by done.
  pose proof (occ_nonneg a D). pose proof (inv_room _ _ _ _ _ I) as HN. rewrite s32_small by lia.
  eapply (inv_object N N L L (a :: D) D R s a o);
    [exact I|exact Ha|by split_and!; [..|left]|cbn; lia|cbn; lia| |by left|exact HN].
  intros b Hb. by rewrite occ_cons, decide_False by done.
Qed.

Lemma wp_incr_stored N L D R s a :
  inv N L (a :: D) R s ->
  wp (incrRefCount a) s (fun _ s' => inv N L D R s' /\ abs s' = abs s /\ heap_step s s').
Proof.
  intros I. pose proof (inv_refs _ _ _ _ _ I a) as Hr0.
  destruct (heap s !! a) as [o|] eqn:Ha; [|exfalso; rewrite occ_cons, decide_True in Hr0 by done; pose proof (occ_nonneg a D); lia].
  apply wp_bind, (wp_load _ o); [done|]. apply (wp_store _ o); [done|].
  destruct (inv_incr_stored _ _ _ _ _ _ _ I Ha) as [I' E']. by split_and!.
Qed.

Lemma inv_free N L D R s a v r o :
  inv N ((a, v, r) :: L) D R s -> heap s !! a = Some o -> o_refcount o = 1 -> occ a D = 0 ->
  let s' := with_heap s (delete a (heap s)) in inv (N - 1) L D R s' /\ abs s' = abs s.
Proof.
  intros I Ha H1 HD s'. destruct (inv_count _ _ _ _ _ _ _ I Ha) as (_ & Hc & _).
  change (((a, v, r) :: L).*1.*1) with (a :: L.*1.*1) in Hc. rewrite occ_cons, decide_True in Hc by done.
  pose proof (occ_nonneg a (roots s)). pose proof (occ_nonneg a L.*1.*1).
  assert (forall b, In b (roots s ++ L.*1.*1) -> b <> a) as Hne.
  { intros b Hb%occ_In ->. rewrite occ_app in Hb. lia. }
  destruct (inv_heap_parts N ((a, v, r) :: L) L D R s (delete a (heap s)) (fun b => b <> a) I) as (P1 & P2 & P3 & P4 & P5).
  { intros x Hx. by right. }
  { done. }
  { intros b ob Hb Hob. exists ob. rewrite lookup_delete_ne by done. split; [done|]. split_and!; [done|done|by left]. }
  split; [|exact P5]. constructor; try done.
  - intros b. cbn. change (roots s') with (roots s). rewrite occ_app. destruct (decide (b = a)) as [->|Hb].
    + rewrite lookup_delete_eq. split; [lia|done].
    + rewrite lookup_delete_ne by done. pose proof (inv_refs _ _ _ _ _ I b) as Hr.
      change (((a, v, r) :: L).*1.*1) with (a :: L.*1.*1) in Hr. by rewrite occ_app, occ_cons, decide_False in Hr by done.
  - pose proof (inv_room _ _ _ _ _ I) as HN. change (((a, v, r) :: L).*1.*1) with (a :: L.*1.*1) in HN.
    change (roots s') with (roots s). rewrite zlen_app in *. zlia.
  - split; [by destruct (inv_ints _ _ _ _ _ I)|exact P2].
  - exact (inv_expires _ _ _ _ _ I).
  - exact (inv_cur _ _ _ _ _ I).
Qed.

Lemma obj_type o : obj_ok o -> 0 <= o_type o <= 4.
Proof. intros [(-> & _)|[(-> & _)|(? & _)]]; unfold REDIS_STRING; lia. Qed.

Lemma wp_decr N L D R s a v r :
  inv N ((a, v, r) :: L) D R s -> occ a D = 0 \/ occ a D < occ a (roots s) + occ a L.*1.*1 ->
  wp (decrRefCount a) s (fun _ s' => inv (N - 1) L D R s' /\ abs s' = abs s /\ heap_step s s' /\
    forall b, b <> a -> heap s' !! b = heap s !! b).
Proof.
  intros I HD. destruct (inv_In _ _ _ _ _ a I) as [o Ha]; [apply in_app_iff; right; by left|].
  destruct (inv_count _ _ _ _ _ _ _ I Ha) as (Hc1 & Hc2 & Hc3).
  change (((a, v, r) :: L).*1.*1) with (a :: L.*1.*1) in Hc2. rewrite occ_cons, decide_True in Hc2 by done.
  pose proof (inv_room _ _ _ _ _ I) as HN. change (((a, v, r) :: L).*1.*1) with (a :: L.*1.*1) in HN.
  pose proof (occ_nonneg a D). apply wp_bind, (wp_load _ o); [done|]. zdec.
  destruct (Z.eqb_spec (o_refcount o) 1) as [H1|H1].
  - apply wp_bind, wp_assert.
    { pose proof (obj_type _ (inv_ok _ _ _ _ _ _ _ I Ha)). rewrite andb_true_iff, !Z.leb_le. lia. }
    apply (wp_zfree _ o); [done|]. destruct (inv_free _ _ _ _ _ _ _ _ _ I Ha H1) as [I' E']; [lia|]. split_and!; try done.
    intros b Hb. cbn. by rewrite lookup_delete_ne.
  - apply (wp_store _ o); [done|]. rewrite s32_small by lia.
    edestruct (inv_object N (N - 1) ((a, v, r) :: L) L D D R s a o (set_refcount o (o_refcount o - 1))) as [I' E'];
      [exact I|exact Ha|by split_and!; [..|left]|cbn; lia|cbn; lia| | | |].
    + intros b Hb. change (((a, v, r) :: L).*1.*1) with (a :: L.*1.*1). by rewrite occ_cons, decide_False by done.
    + intros b w q Hin. left. by right.
    + rewrite zlen_app in *. zlia.
    + split_and!; try done. intros b Hb. cbn. by rewrite lookup_insert_ne.
Qed.

Lemma inv_alloc N L D R s a o (r : bool) :
  inv N L D R s -> N + 1 < 2 ^ 31 -> heap s !! a = None -> obj_ok o -> o_refcount o = 1 ->
  (r = true -> exists x b, o_type o = REDIS_STRING /\ o_encoding o = REDIS_ENCODING_RAW /\
     o_ptr o = PSds b /\ rep b x /\ bytes_ok x /\ zlen x <= STRING_MAX) ->
  let s' := with_heap s (<[a := o]> (heap s)) in inv (N + 1) ((a, value_of o, r) :: L) D R s' /\ abs s' = abs s.
Proof.
  intros I HN Ha Ho H1 Hr s'.
  pose proof (inv_refs _ _ _ _ _ I a) as Hc. rewrite Ha, occ_app in Hc. pose proof (occ_nonneg a (roots s)).
  pose proof (occ_nonneg a L.*1.*1).
  assert (forall b ob, True -> heap s !! b = Some ob -> exists ob', <[a := o]> (heap s) !! b = Some ob' /\ same_object ob ob') as Hs.
  { intros b ob _ Hb. exists ob. rewrite lookup_insert_ne by (intros ->; by rewrite Ha in Hb).
    split; [done|]. split_and!; [done|done|by left]. }
  destruct (inv_heap_parts N L L D R s _ (fun _ => True) I (fun _ Hx => Hx) (fun _ _ => Logic.I) Hs) as (P1 & P2 & P3 & P4 & P5).
  split; [|exact P5]. constructor; try done.
  - intros b. cbn. change (roots s') with (roots s). rewrite occ_app, occ_cons.
    destruct (decide (b = a)) as [->|Hne].
    + rewrite lookup_insert_eq. split_and!; [done|lia|]. lia.
    + rewrite lookup_insert_ne by done. pose proof (inv_refs _ _ _ _ _ I b) as Hb. by rewrite occ_app in Hb.
  - pose proof (inv_room _ _ _ _ _ I). cbn [fmap list_fmap]. change (roots s') with (roots s).
    rewrite zlen_app in *. change (((a, value_of o, r) :: L).*1.*1) with (a :: L.*1.*1). zlia.
  - intros b w q [[= <- <- <-]|Hin]; [|by apply P1]. cbn. split; [apply val_insert_eq|].
    intros Er. destruct (Hr Er) as (x & b & Ht & He & Hp & Hx & Hb & Hl). exists x. split.
    + unfold value_of. rewrite Hp. by rewrite (rep_content _ _ Hx).
    + exists o, b. by rewrite lookup_insert_eq.
  - split; [by destruct (inv_ints _ _ _ _ _ I)|exact P2].
  - exact (inv_expires _ _ _ _ _ I).
  - exact (inv_cur _ _ _ _ _ I).
Qed.

Lemma wp_alloc N L D R s o (r : bool) :
  inv N L D R s -> N + 1 < 2 ^ 31 -> obj_ok o -> o_refcount o = 1 ->
  (r = true -> exists x b, o_type o = REDIS_STRING /\ o_encoding o = REDIS_ENCODING_RAW /\
     o_ptr o = PSds b /\ rep b x /\ bytes_ok x /\ zlen x <= STRING_MAX) ->
  wp (zmalloc o) s (fun a s' => inv (N + 1) ((a, value_of o, r) :: L) D R s' /\ abs s' = abs s /\ heap_step s s' /\
    heap s !! a = None /\ heap s' !! a = Some o /\ forall b, b <> a -> heap s' !! b = heap s !! b).
Proof.
  intros I HN Ho H1 Hr. apply wp_bind, wp_gets, wp_bind. set (a := new_addr (heap s)).
  assert (heap s !! a = None) as Ha by apply new_addr_fresh.
  destruct (inv_alloc _ _ _ _ _ a o r I HN Ha Ho H1 Hr) as [I' E']. apply wp_ret.
  split_and!; [done|done|done|done|apply lookup_insert_eq|]. intros b Hb. cbn. by rewrite lookup_insert_ne.
Qed.

(** A reference about to be stored without being counted is a variable meanwhile. *)
Lemma inv_ghost N L D R s a v :
  inv N L D R s -> val_at (heap s) a = Some v -> N + 1 < 2 ^ 31 -> inv (N + 1) ((a, v, false) :: L) (a :: D) R s.
Proof.
  intros I Hv HN. constructor; try by destruct I.
  - intros b. pose proof (inv_refs _ _ _ _ _ I b) as Hr. change (((a, v, false) :: L).*1.*1) with (a :: L.*1.*1).
    rewrite occ_app in *. rewrite !occ_cons. destruct (decide (b = a)) as [->|]; [|destruct (heap s !! b); [split_and!; try tauto; lia|lia]].
    unfold val_at in Hv. destruct (heap s !! a); [|done]. split_and!; try tauto; lia.
  - pose proof (inv_room _ _ _ _ _ I). change (((a, v, false) :: L).*1.*1) with (a :: L.*1.*1). rewrite zlen_app in *. zlia.
  - intros b w r [[= <- <- <-]|Hb]; [done|]. by apply (inv_locals _ _ _ _ _ I).
Qed.

Lemma inv_unghost N L D R s a v r : inv N ((a, v, r) :: L) (a :: D) R s -> inv (N - 1) L D R s.
Proof.
  intros I. constructor; try by destruct I.
  - intros b. pose proof (inv_refs _ _ _ _ _ I b) as Hr. change (((a, v, r) :: L).*1.*1) with (a :: L.*1.*1) in Hr.
    rewrite occ_app in *. rewrite !occ_cons in Hr. pose proof (occ_nonneg b D). pose proof (occ_nonneg b (roots s)).
    pose proof (occ_nonneg b L.*1.*1). destruct (decide (b = a)); destruct (heap s !! b); [split_and!; try tauto; lia|lia|split_and!; try tauto; lia|lia].
  - pose proof (inv_room _ _ _ _ _ I) as Hr. change (((a, v, r) :: L).*1.*1) with (a :: L.*1.*1) in Hr. rewrite zlen_app in *. zlia.
  - intros b w q Hb. apply (inv_locals _ _ _ _ _ I). by right.
Qed.

Lemma inv_perm N L L' D R s : L ≡ₚ L' -> inv N L D R s -> inv N L' D R s.
Proof.
  intros Hp I. assert (L.*1.*1 ≡ₚ L'.*1.*1) as Hp' by (by rewrite Hp). constructor; try by destruct I.
  - intros b. pose proof (inv_refs _ _ _ _ _ I b) as Hr. rewrite occ_app in *. by rewrite (occ_perm _ _ _ Hp') in Hr.
  - pose proof (inv_room _ _ _ _ _ I) as Hr. rewrite zlen_app in *. by rewrite (zlen_permutation _ _ Hp') in Hr.
  - intros b w q Hb. apply (inv_locals _ _ _ _ _ I). apply list_elem_of_In. rewrite Hp. by apply list_elem_of_In.
Qed.

(** A shared integer. *)
Lemma inv_shared N L D R s v : inv N L D R s -> 0 <= v < REDIS_SHARED_INTEGERS ->
  exists i, rd (integers s) v = Some i /\ In i (integers s) /\ val_at (heap s) i = Some (VStr (print v)) /\
    exists o, heap s !! i = Some o /\ o_type o = REDIS_STRING.
Proof.
  intros I Hv. destruct (inv_ints _ _ _ _ _ I) as [Hl Hi]. destruct (rd_is_Some (integers s) v) as [i Ei]; [lia|].
  destruct (Hi v i Ei) as (o & Ho & Ht & He & Hp). exists i. split_and!; [done|by eapply rd_In| |by exists o].
  unfold val_at. rewrite Ho. cbn. unfold value_of. by rewrite Hp.
Qed.

(** An argument is replaced by a string; the old one becomes a variable and the new one is
    not counted. *)
Lemma inv_set_arg N L D R s j a v b x :
  inv N L D R s -> argv s !! j = Some a -> val_at (heap s) a = Some v -> val_at (heap s) b = Some (VStr x) ->
  (exists o, heap s !! b = Some o /\ o_type o = REDIS_STRING) ->
  (forall j' a' k, In (j', a', k) R -> j' <> j) -> N + 1 < 2 ^ 31 ->
  let s' := with_argv s (<[j := b]> (argv s)) in
  inv (N + 1) ((a, v, false) :: L) (b :: D) R s' /\ abs s' = AServer (a_dbs (abs s)) (<[j := x]> (a_argv (abs s))) (a_sd (abs s)).
Proof.
  intros I Ha Hv Hb Hs HR HN s'.
  assert (forall f : list addr -> Z, (forall l k, f (l ++ k) = f l + f k) -> f (roots s') + f [a] = f (roots s) + f [b]) as Hroots.
  { intros f Hf. unfold roots, s'. cbn [with_argv integers held argv dbs]. rewrite !Hf.
    assert (f (<[j := b]> (argv s)) + f [a] = f (argv s) + f [b]); [|lia]. clear -Ha Hf. revert j Ha.
    generalize (argv s). intros l. induction l as [|c l IH]; intros [|j] Hj; [done|done| |].
    - injection Hj as ->. change (<[0%nat := b]> (a :: l)) with ([b] ++ l). change (a :: l) with ([a] ++ l). rewrite !Hf. lia.
    - specialize (IH j Hj). change (<[S j := b]> (c :: l)) with ([c] ++ <[j := b]> l). change (c :: l) with ([c] ++ l). rewrite !Hf. lia. }
  split.
  - constructor; try by destruct I.
    + intros c. cbn [heap with_argv s']. pose proof (inv_refs _ _ _ _ _ I c) as Hr.
      pose proof (Hroots (occ c) (occ_app c)) as Hc. change (((a, v, false) :: L).*1.*1) with (a :: L.*1.*1).
      rewrite occ_app in *. rewrite !occ_cons in *. rewrite occ_nil in *. unfold s'. cbn [heap with_argv].
      destruct (heap s !! c) eqn:E; [split_and!; [tauto|tauto|unfold s' in Hc; lia]|].
      assert (c <> a) by (intros ->; unfold val_at in Hv; by rewrite E in Hv).
      assert (c <> b) by (intros ->; unfold val_at in Hb; by rewrite E in Hb). rewrite !decide_False in * by done. unfold s' in Hc. lia.
    + pose proof (inv_room _ _ _ _ _ I). pose proof (Hroots zlen zlen_app) as Hc. change (((a, v, false) :: L).*1.*1) with (a :: L.*1.*1).
      rewrite zlen_app in *. rewrite !zlen_cons, zlen_nil in *. lia.
    + intros c w r [[= <- <- <-]|Hc]; [by split|]. by apply (inv_locals _ _ _ _ _ I).
    + intros c [i Hi]%list_elem_of_In%list_elem_of_lookup_1. cbn in Hi. apply list_lookup_insert_Some in Hi as [(_ & <- & _)|(_ & Hi)]; [done|].
      apply (inv_args _ _ _ _ _ I). by eapply lookup_In.
    + intros j' a' k Hin. destruct (inv_raw _ _ _ _ _ I j' a' k Hin) as [? ?]. split; [|done]. cbn.
      rewrite list_lookup_insert_ne; [done|]. intros <-. by eapply HR.
  - unfold abs, s'. cbn. f_equal. rewrite list_fmap_insert. f_equal. unfold text_at. by rewrite Hb.
Qed.

Lemma inv_side N L D R s x : inv N L D R s -> cur x = cur (sd s) -> inv N L D R (with_sd s x).
Proof. intros [] Hc. constructor; try done. cbn. by rewrite Hc. Qed.

(** *** Reading the arguments *)

Lemma raw_bytes b x : rep b x -> sds_bytes b = Some x.
Proof.
  intros Hr. unfold sds_bytes. rewrite (rep_sdslen _ _ Hr). destruct Hr as (sp & -> & _). by apply rdn_prefix.
Qed.

Lemma wp_key N L D R s j key k (Q : list Z -> server -> Prop) :
  inv N L D R s -> In (j, key, k) R -> Q k s -> wp (key_bytes key) s Q.
Proof.
  intros I Hj HQ. destruct (inv_raw _ _ _ _ _ I j key k Hj) as (_ & o & b & Ho & _ & _ & Hp & Hr & _).
  apply wp_bind, (wp_load _ o); [done|]. unfold obj_sds. rewrite Hp. apply wp_bind, wp_ret.
  by apply (wp_lift _ k); [apply raw_bytes|].
Qed.

Lemma wp_arg s j a (Q : addr -> server -> Prop) : argv s !! j = Some a -> Q a s -> wp (arg j) s Q.
Proof. intros Ha HQ. apply wp_bind, wp_gets. by apply (wp_lift _ a). Qed.

Lemma wp_argR N L D R s j a k (Q : addr -> server -> Prop) :
  inv N L D R s -> In (j, a, k) R -> Q a s -> wp (arg j) s Q.
Proof. intros I Hj. apply wp_arg. by destruct (inv_raw _ _ _ _ _ I j a k Hj). Qed.

Lemma inv_drop N L D R R' s : inv N L D R s -> (forall x, In x R' -> In x R) -> inv N L D R' s.
Proof. intros [] HR. constructor; try done. intros j a k Hin. auto. Qed.

End Inv.
