(* ===== verification/ObjFacts.v ===== *)
(** * object.c and the replies: their effect on values *)

From Stdlib Require Import Ascii String.
From S2P Require Import Prelude Util Sds Server ServerFacts.
Import SdsSpec SdsFacts QuoteFacts.

(** ** Specification: integers in strings *)

(** The part of a string up to its first NUL, which is all that strtoll sees. *)
Fixpoint cstring (x : list Z) : list Z :=
  match x with
  | [] => []
  | c :: x => if c =? 0 then [] else c :: cstring x
  end.

(** The integer that getLongLongFromObject reads in a string: an optional sign and digits,
    with nothing before and nothing but a NUL after.  The empty string is 0. *)
Definition parse_digits (neg : bool) (ds : list Z) : option Z :=
  if bool_decide (ds = []) || negb (forallb is_digit ds) then None
  else
    let v := NumFacts.dval 0 ds in
    let v := if neg then - v else v in
    if (LLONG_MIN <=? v) && (v <=? LLONG_MAX) then Some v else None.

Definition parse_ll (x : list Z) : option Z :=
  match cstring x with
  | [] => Some 0
  | c :: ds =>
      if c =? ch_minus then parse_digits true ds
      else if c =? 43 then parse_digits false ds
      else parse_digits false (c :: ds)
  end.

(** Every list is digits and a rest. *)
Fixpoint span_digits (x : list Z) : list Z * list Z :=
  match x with
  | [] => ([], [])
  | c :: x => if is_digit c then let '(ds, r) := span_digits x in (c :: ds, r) else ([], c :: x)
  end.

(** A new object with one owner, the variable that holds it. *)
Definition fresh_raw (s : server) (a : addr) (x : list Z) : Prop :=
  exists o b, heap s !! a = Some o /\ o_type o = REDIS_STRING /\ o_encoding o = REDIS_ENCODING_RAW /\ o_refcount o = 1 /\
    o_ptr o = PSds b /\ rep b x.

(** A key that is not there stands for the empty string. *)
Definition text_or_empty (v : option value) : list Z := match v with Some (VStr x) => x | _ => [] end.

(** Replies. *)
Definition r_num (prefix v : Z) : list Z := [prefix] ++ print v ++ crlf.
Definition r_int (v : Z) : list Z := r_num 58 v.
Definition r_bulk (x : list Z) : list Z := r_num 36 (zlen x) ++ x ++ crlf.
Definition r_error (msg : string) : list Z := str "-ERR " ++ str msg ++ crlf.

Definition a_reply `{ServerEnv} (b : list Z) : Spec unit := a_side (fun x => set_out x (sent (out x) b)).

(** The integer that a string stands for, or an error reply. *)
Definition a_parse `{ServerEnv} (x : list Z) (msg : string) : Spec (option Z) :=
  match parse_ll x with
  | None => _ ← a_reply (r_error msg); mret None
  | Some v => mret (Some v)
  end.

#[global] Arguments r_num : simpl never.
#[global] Arguments r_bulk : simpl never.

(** ** Lemmas: printed integers *)

Lemma print_chars v : in_s 64 v -> Num.ll_chars v = Some (print v).
Proof. intros Hv. unfold print. by destruct (NumFacts.ll_chars_spec v Hv) as (ds & _ & _ & ->). Qed.

Lemma print_digits v : in_s 64 v -> exists ds, NumFacts.canonical ds /\ NumFacts.dval 0 ds = Z.abs v /\
  print v = if v <? 0 then ch_minus :: ds else ds.
Proof. intros Hv. destruct (NumFacts.ll_chars_spec v Hv) as (ds & Hc & Hd & E). exists ds. unfold print. by rewrite E. Qed.

Lemma print_ok v : in_s 64 v -> Forall (fun c => 0 < c < 128) (print v) /\ 1 <= zlen (print v) <= 21.
Proof.
  intros Hv. destruct (print_digits v Hv) as (ds & Hc & Hd & ->).
  assert (length ds <= 20)%nat as L by (apply NumFacts.canonical_length; [done|unfold in_s in Hv; lia]).
  destruct Hc as [Hf (d & ds' & -> & _)].
  assert (Forall (fun c => 0 < c < 128) (d :: ds')) as Hf'.
  { eapply Forall_impl; [exact Hf|]. unfold NumFacts.digit. intros; lia. }
  unfold zlen. destruct (v <? 0); cbn [length] in *; (split; [|lia]); [|done]. by constructor; [lia|].
Qed.

Lemma print_bytes v : in_s 64 v -> bytes_ok (print v) /\ Forall (fun c => c <> 0) (print v).
Proof.
  intros Hv. destruct (print_ok v Hv) as [Hp _].
  split; (eapply Forall_impl; [exact Hp|]); unfold byte_ok; intros; lia.
Qed.

Lemma ll2string_print n v : in_s 64 v -> (22 <= n)%nat ->
  exists r, Num.ll2string (replicate n 0) (Z.of_nat n) v = Some (print v ++ 0 :: r, zlen (print v)).
Proof.
  intros Hv Hn. destruct (ll2string_ok (replicate n 0) (Z.of_nat n) v Hv) as (p & l & E & El & ->).
  { rewrite zlen_replicate. lia. }
  rewrite (print_chars v Hv) in E. injection E as <-. destruct (print_ok v Hv) as [_ Hl].
  rewrite Z.min_l in El by lia. subst l. eexists. unfold zlen at 1. by rewrite Nat2Z.id, firstn_all.
Qed.

Lemma ll_text_print n v : in_s 64 v -> (22 <= n)%nat -> ll_text n v = Some (print v).
Proof.
  intros Hv Hn. unfold ll_text. destruct (ll2string_print n v Hv Hn) as [r ->]. cbn [mbind option_bind].
  by apply rdn_prefix.
Qed.

Lemma string2l_print b v : Num.string2l b = Some v <-> in_s 64 v /\ b = print v.
Proof.
  assert (Num.string2l b = Num.string2ll b) as ->.
  { unfold Num.string2l. destruct (Num.string2ll b) as [w|] eqn:E; [|done]. apply string2ll_iff in E as [Hw _].
    unfold in_s in Hw. unfold LLONG_MIN, LLONG_MAX. by zdec. }
  rewrite string2ll_iff. split; intros [Hv E]; (split; [done|]).
  - unfold print. by rewrite E.
  - rewrite E. by apply print_chars.
Qed.

(** ** Lemmas: strtoll *)

Lemma skip_space_head c b : isspace c = false -> skip_space (c :: b) = Some (c :: b).
Proof. intros E. cbn. by rewrite E. Qed.

(** The digits of a list that a character which is no digit follows. *)
Lemma scan_digits_ok ds : forall e r v, Forall NumFacts.digit ds -> is_digit e = false ->
  scan_digits (ds ++ e :: r) v = Some (e :: r, NumFacts.dval v ds).
Proof.
  induction ds as [|d ds IH]; intros e r v Hd He; cbn.
  - by rewrite He.
  - apply Forall_cons in Hd as [Hd Hds]. unfold NumFacts.digit in Hd. unfold is_digit at 1. zdec.
    by rewrite IH.
Qed.

Lemma span_digits_ok x ds r : span_digits x = (ds, r) ->
  x = ds ++ r /\ Forall NumFacts.digit ds /\ match r with [] => True | c :: _ => is_digit c = false end.
Proof.
  revert ds r. induction x as [|c x IH]; intros ds r; cbn.
  - intros [= <- <-]. done.
  - destruct (is_digit c) eqn:E; [|intros [= <- <-]; done].
    destruct (span_digits x) as [ds' r'] eqn:Es. intros [= <- <-]. destruct (IH _ _ eq_refl) as (-> & Hd & Hr).
    split_and!; [done| |done]. constructor; [|done]. unfold is_digit in E. bool_to_prop. unfold NumFacts.digit. lia.
Qed.

Lemma forallb_digit ds : Forall NumFacts.digit ds -> forallb is_digit ds = true.
Proof.
  intros Hd. apply forallb_forall. intros c Hc. eapply Forall_forall in Hd; [|by apply list_elem_of_In].
  unfold NumFacts.digit in Hd. unfold is_digit. by zdec.
Qed.

Lemma skip_space_total y r : Forall (fun c => c <> 0) y ->
  exists z, skip_space (y ++ 0 :: r) = Some (z ++ 0 :: r) /\ Forall (fun c => c <> 0) z.
Proof.
  induction 1 as [|c y Hc Hy IH]; [by exists []|]. cbn. destruct (isspace c); [done|].
  exists (c :: y). split; [done|]. by constructor.
Qed.

(** The end of strtoll: the digits [z] after the sign, of which [b] is the whole text. *)
Lemma strtoll_digits neg z sp nptr :
  let b := z ++ 0 :: sp in
  exists value eptr erange e, ('(rest, v) ← scan_digits b 0;
    if zlen rest =? zlen b then Some (0, nptr, false)
    else
      let v := if neg : bool then - v else v in
      if v <? LLONG_MIN then Some (LLONG_MIN, rest, true)
      else if LLONG_MAX <? v then Some (LLONG_MAX, rest, true)
      else Some (v, rest, false)) = Some (value, eptr, erange) /\
  (rd eptr 0 = Some e \/ eptr = nptr) /\
  (Forall (fun c => c <> 0) z -> (exists c, rd nptr 0 = Some c /\ (c <> 0)) ->
   exists e, rd eptr 0 = Some e /\ (if negb (e =? 0) || erange then None else Some value) = parse_digits neg z).
Proof.
  intros b. destruct (span_digits z) as [ds r] eqn:E. destruct (span_digits_ok _ _ _ E) as (-> & Hd & Hr).
  assert (exists e t, r ++ 0 :: sp = e :: t /\ is_digit e = false /\ (r = [] -> e = 0) /\ (Forall (fun c => c <> 0) r -> r <> [] -> e <> 0))
    as (e & t & Et & He & He0 & He1).
  { destruct r as [|e r]; [by exists 0, sp|]. exists e, (r ++ 0 :: sp). split_and!; try done.
    by intros [Hf _]%Forall_cons _. }
  assert (b = ds ++ e :: t) as Eb by (unfold b; by rewrite <- (assoc_L (++)), Et).
  rewrite Eb, (scan_digits_ok ds e t 0 Hd He). cbn [mbind option_bind]. rewrite zlen_app.
  assert (forallb is_digit (ds ++ r) = bool_decide (r = [])) as Ef.
  { rewrite forallb_app, (forallb_digit ds Hd). destruct r as [|c r]; [done|]. cbn. by rewrite Hr. }
  destruct ds as [|d ds].
  - rewrite zlen_nil. zdec. exists 0, nptr, false, e. split_and!; [done|by right|]. intros Hz (c & Hc & Hc0). exists c.
    split; [done|]. zdec. unfold parse_digits. cbn [app] in *. destruct r as [|c' r]; [done|]. rewrite Ef. done.
  - pose proof (zlen_nonneg ds). rewrite !zlen_cons. zdec. set (v := NumFacts.dval 0 (d :: ds)).
    set (w := if neg then - v else v). cbv zeta.
    assert (forall r0, rd (e :: r0) 0 = Some e) as Hrd by done.
    assert (exists value erange, (if w <? LLONG_MIN then Some (LLONG_MIN, e :: t, true)
      else if LLONG_MAX <? w then Some (LLONG_MAX, e :: t, true) else Some (w, e :: t, false)) = Some (value, e :: t, erange) /\
      (if erange : bool then None else Some value) = (if (LLONG_MIN <=? w) && (w <=? LLONG_MAX) then Some w else None))
      as (value & erange & -> & Hv).
    { unfold LLONG_MIN, LLONG_MAX. destruct (Z.ltb_spec w (- 2 ^ 63)); [exists (- 2 ^ 63), true; by zdec|].
      destruct (Z.ltb_spec (2 ^ 63 - 1) w); [exists (2 ^ 63 - 1), true; by zdec|]. exists w, false. by zdec. }
    exists value, (e :: t), erange, e. split_and!; [done|by left|]. intros Hz _. exists e. split; [done|].
    unfold parse_digits. rewrite Ef. destruct r as [|c r].
    + rewrite (He0 eq_refl). cbn [negb Z.eqb orb app bool_decide]. rewrite bool_decide_false by done.
      rewrite app_nil_r. rewrite bool_decide_true by done. exact Hv.
    + assert (e <> 0) as Hne by (apply Forall_app in Hz as [_ Hz]; by apply He1). rewrite (proj2 (Z.eqb_neq e 0) Hne).
      cbn [negb orb]. rewrite (bool_decide_false (c :: r = [])) by done. by rewrite orb_true_r.
Qed.

Lemma cstring_split x sp : exists sp', x ++ 0 :: sp = cstring x ++ 0 :: sp' /\ Forall (fun c => c <> 0) (cstring x).
Proof.
  induction x as [|c x (sp' & E & Hf)]; [by exists sp|]. cbn [cstring]. destruct (Z.eqb_spec c 0) as [->|Hc].
  - by exists (x ++ 0 :: sp).
  - exists sp'. cbn. rewrite E. split; [done|]. by constructor.
Qed.

Lemma digit_no_space c : isspace c = true -> is_digit c = false /\ c <> ch_minus /\ c <> 43.
Proof.
  unfold isspace, is_digit. intros Hc. bool_to_prop. destruct Hc as [Hc|Hc]; bool_to_prop; subst; [done|].
  split; [|lia]. apply andb_false_iff. left. apply Z.leb_gt. lia.
Qed.

Lemma strtoll_ok x sp :
  exists value eptr erange c e, strtoll (x ++ 0 :: sp) = Some (value, eptr, erange) /\
    rd (x ++ 0 :: sp) 0 = Some c /\ rd eptr 0 = Some e /\
    (if isspace c || negb (e =? 0) || erange then None else Some value) = parse_ll x.
Proof.
  destruct (cstring_split x sp) as (sp' & -> & Hy). unfold parse_ll. set (y := cstring x) in *. clearbody y.
  destruct y as [|c y].
  { cbn [app]. exists 0, (0 :: sp'), false, 0, 0. split_and!; try done. unfold strtoll. cbn. by rewrite Z.eqb_refl. }
  apply Forall_cons in Hy as [Hc Hy]. destruct (isspace c) eqn:Es.
  - destruct (digit_no_space c Es) as (Hd & Hm & Hp).
    destruct (skip_space_total (c :: y) sp') as (z & Ez & Hz); [by constructor|]. unfold strtoll. rewrite Ez. cbn [mbind option_bind].
    assert (forall neg w, exists value eptr erange e, ('(rest, v) ← scan_digits (w ++ 0 :: sp') 0;
      if zlen rest =? zlen (w ++ 0 :: sp') then Some (0, (c :: y) ++ 0 :: sp', false)
      else let v := if neg : bool then - v else v in
        if v <? LLONG_MIN then Some (LLONG_MIN, rest, true) else if LLONG_MAX <? v then Some (LLONG_MAX, rest, true)
        else Some (v, rest, false)) = Some (value, eptr, erange) /\ rd eptr 0 = Some e) as Ht.
    { intros neg w. destruct (strtoll_digits neg w sp' ((c :: y) ++ 0 :: sp')) as (value & eptr & er & e & E & He & _).
      exists value, eptr, er. destruct He as [He| ->]; [exists e|exists c]; done. }
    assert (parse_digits false (c :: y) = None) as Epd by (unfold parse_digits; cbn; by rewrite Hd).
    rewrite (proj2 (Z.eqb_neq c ch_minus)), (proj2 (Z.eqb_neq c 43)), Epd by done.
    destruct z as [|d z]; cbn [app].
    + destruct (Ht false []) as (value & eptr & er & e & E & He). 
      exists value, eptr, er, c, e. split_and!; [exact E|done|done|by rewrite Es].
    + destruct ((d =? ch_minus) || (d =? 43)).
      * destruct (Ht (d =? ch_minus) z) as (value & eptr & er & e & E & He). exists value, eptr, er, c, e. split_and!; [exact E|done|done|by rewrite Es].
      * destruct (Ht (d =? ch_minus) (d :: z)) as (value & eptr & er & e & E & He). exists value, eptr, er, c, e. split_and!; [exact E|done|done|by rewrite Es].
  - unfold strtoll. cbn [app]. rewrite skip_space_head by done. cbn [mbind option_bind].
    assert (forall neg w, Forall (fun c => c <> 0) w -> exists value eptr erange c' e, ('(rest, v) ← scan_digits (w ++ 0 :: sp') 0;
      if zlen rest =? zlen (w ++ 0 :: sp') then Some (0, c :: y ++ 0 :: sp', false)
      else let v := if neg : bool then - v else v in
        if v <? LLONG_MIN then Some (LLONG_MIN, rest, true) else if LLONG_MAX <? v then Some (LLONG_MAX, rest, true)
        else Some (v, rest, false)) = Some (value, eptr, erange) /\ rd (c :: y ++ 0 :: sp') 0 = Some c' /\ rd eptr 0 = Some e /\
        (if isspace c' || negb (e =? 0) || erange then None else Some value) = parse_digits neg w) as Ht.
    { intros neg w Hw. destruct (strtoll_digits neg w sp' (c :: y ++ 0 :: sp')) as (value & eptr & er & e0 & E & _ & Hp).
      destruct (Hp Hw) as (e & He & Hp'); [by exists c|]. exists value, eptr, er, c, e. split_and!; [done|done|done|]. by rewrite Es. }
    destruct (Z.eqb_spec c ch_minus) as [->|Hm]; [by apply (Ht true)|]. cbn [orb].
    destruct (Z.eqb_spec c 43) as [->|Hp]; [by apply (Ht false)|]. apply (Ht false (c :: y)). by constructor.
Qed.

(** An integer that is printed is read back. *)
Lemma parse_print v : in_s 64 v -> parse_ll (print v) = Some v.
Proof.
  intros Hv. destruct (print_bytes v Hv) as [_ Hn]. destruct (print_digits v Hv) as (ds & [Hd (d & ds' & E & _)] & Hval & Ep).
  assert (forall x, Forall (fun c => c <> 0) x -> cstring x = x) as Hcs.
  { induction 1 as [|c x Hc _ IH]; cbn; [done|]. by rewrite (proj2 (Z.eqb_neq c 0) Hc), IH. }
  unfold parse_ll. rewrite (Hcs _ Hn), Ep. unfold in_s in Hv.
  assert (forall neg, (if neg : bool then - Z.abs v else Z.abs v) = v -> parse_digits neg ds = Some v) as Hp.
  { intros neg Ev. unfold parse_digits. rewrite (forallb_digit ds Hd), Hval, Ev, E. rewrite bool_decide_false by done.
    cbn [negb orb]. unfold LLONG_MIN, LLONG_MAX. by zdec. }
  destruct (Z.ltb_spec v 0); [rewrite Z.eqb_refl; apply Hp; lia|].
  pose proof (Hp false) as Hp0. rewrite E in Hp0 |- *. rewrite E in Hd. apply Forall_cons in Hd as [Hd _]. unfold NumFacts.digit in Hd.
  replace (d =? ch_minus) with false by (symmetry; apply Z.eqb_neq; lia). replace (d =? 43) with false by (symmetry; apply Z.eqb_neq; lia).
  apply Hp0. lia.
Qed.

(** ** Lemmas: string objects *)

Section Objects.
Context `{ServerEnv}.

Lemma obj_string o x : obj_ok o -> value_of o = VStr x ->
  o_type o = REDIS_STRING /\
  ((o_encoding o = REDIS_ENCODING_RAW /\ exists b, o_ptr o = PSds b /\ rep b x) \/
   (o_encoding o = REDIS_ENCODING_INT /\ exists v, o_ptr o = PLong v /\ in_s 64 v /\ x = print v)) /\
  bytes_ok x /\ zlen x <= STRING_MAX.
Proof.
  unfold value_of. intros [(Ht & He & b & y & Hp & Hr & Hb & Hl)|[(Ht & He & v & Hp & Hv)|(_ & p & Hp)]]; rewrite Hp; intros [= <-].
  - rewrite (rep_content _ _ Hr). split_and!; [done|left; eauto|done|done].
  - destruct (print_ok v Hv) as [_ Hl]. split_and!; [done|right; eauto|by apply print_bytes|unfold STRING_MAX; lia].
Qed.

Lemma obj_other o t p : obj_ok o -> value_of o = VOther t p -> o_type o = t /\ 1 <= t <= 4.
Proof.
  unfold value_of. intros [(_ & _ & b & y & -> & _)|[(_ & _ & v & -> & _)|(Ht & q & ->)]]; intros [= <- <-]. done.
Qed.

Lemma val_obj N L D R s a v : inv N L D R s -> val_at (heap s) a = Some v ->
  exists o, heap s !! a = Some o /\ obj_ok o /\ value_of o = v.
Proof.
  intros I. unfold val_at. destruct (heap s !! a) as [o|] eqn:E; [|done]. intros [= <-].
  exists o. split_and!; [done|by eapply inv_ok|done].
Qed.

Lemma wp_stringObjectLen N L D R s a x (Q : Z -> server -> Prop) :
  inv N L D R s -> val_at (heap s) a = Some (VStr x) -> Q (zlen x) s -> wp (stringObjectLen a) s Q.
Proof.
  intros I Hv HQ. destruct (val_obj _ _ _ _ _ _ _ I Hv) as (o & Ho & Hok & Ex).
  destruct (obj_string o x Hok Ex) as (Ht & Hc & _). apply wp_bind, (wp_load _ o); [done|].
  apply wp_bind, wp_assert; [by apply Z.eqb_eq|]. destruct Hc as [(-> & b & Hp & Hr)|(-> & v & Hp & Hi & ->)].
  - unfold obj_sds. rewrite Hp. apply wp_bind, wp_ret, wp_ret. by rewrite (rep_sdslen _ _ Hr).
  - unfold obj_long. rewrite Hp. apply wp_bind, wp_ret, wp_bind. destruct (ll2string_print 32 v Hi) as [r E]; [lia|].
    change (Z.of_nat 32) with 32 in E. eapply wp_lift; [exact E|]. by apply wp_ret.
Qed.

Lemma wp_getLongLong N L D R s a x (Q : option Z -> server -> Prop) :
  inv N L D R s -> val_at (heap s) a = Some (VStr x) -> Q (parse_ll x) s -> wp (getLongLongFromObject (Some a)) s Q.
Proof.
  intros I Hv HQ. destruct (val_obj _ _ _ _ _ _ _ I Hv) as (o & Ho & Hok & Ex).
  destruct (obj_string o x Hok Ex) as (Ht & Hc & _). apply wp_bind, (wp_load _ o); [done|].
  apply wp_bind, wp_assert; [by apply Z.eqb_eq|]. destruct Hc as [(-> & b & Hp & Hr)|(-> & v & Hp & Hi & ->)].
  - unfold obj_sds. rewrite Hp. apply wp_bind, wp_ret. destruct Hr as (sp & -> & _).
    destruct (strtoll_ok x sp) as (value & eptr & er & c & e & E1 & E2 & E3 & E4).
    apply wp_bind, (wp_lift _ _ _ _ E1), wp_bind, (wp_lift _ _ _ _ E2), wp_bind, (wp_lift _ _ _ _ E3), wp_ret. by rewrite E4.
  - unfold obj_long. rewrite Hp. apply wp_bind, wp_ret, wp_ret. by rewrite parse_print in HQ.
Qed.

(** A parsed integer fits a long long. *)
Lemma parse_digits_range neg ds v : parse_digits neg ds = Some v -> in_s 64 v.
Proof.
  unfold parse_digits, LLONG_MIN, LLONG_MAX. destruct (_ || _); [done|]. destruct (_ && _) eqn:E; [|done].
  intros [= <-]. bool_to_prop. unfold in_s. lia.
Qed.

Lemma parse_range x v : parse_ll x = Some v -> in_s 64 v.
Proof.
  unfold parse_ll. destruct (cstring x) as [|c ds]; [intros [= <-]; unfold in_s; lia|].
  destruct (c =? ch_minus); [apply parse_digits_range|]. destruct (c =? 43); apply parse_digits_range.
Qed.

Lemma sent_app o a b : sent (sent o a) b = sent o (a ++ b).
Proof. unfold sent. destruct prepareClientToWrite; [by rewrite <- app_assoc|done]. Qed.

Lemma sim_addReply N L D R s b :
  inv N L D R s -> sim (addReply b) (a_reply b) s (fun _ _ s' => inv N L D R s' /\ s' = with_sd s (set_out (sd s) (sent (out (sd s)) b))).
Proof. intros I. split; [done|]. split; [by apply inv_side|done]. Qed.

(** The object to parse may be NULL, which stands for 0. *)
Lemma sim_parse N L D R s a msg x :
  inv N L D R s -> match a with Some a => val_at (heap s) a = Some (VStr x) | None => x = [] end ->
  sim (getLongLongFromObjectOrReply a msg) (a_parse x (default "value is not an integer or out of range"%string msg)) s
    (fun r r' s' => r = r' /\ inv N L D R s' /\ (r = parse_ll x) /\ (exists b, s' = with_sd s (set_out (sd s) b)) /\
       forall v, r = Some v -> in_s 64 v /\ s' = s).
Proof.
  intros I Ha. apply wp_bind.
  assert (wp (getLongLongFromObject a) s (fun r s' => r = parse_ll x /\ s' = s)) as W.
  { destruct a as [a|]; [by eapply wp_getLongLong|]. subst x. by apply wp_ret. }
  eapply wp_mono; [exact W|]. cbn beta. intros r s' [-> ->]. unfold a_parse. destruct (parse_ll x) as [v|] eqn:E.
  - apply sim_ret. split_and!; [done|done|done|exists (out (sd s)); by destruct s as [? ? ? ? ? []]|].
    intros w [= <-]. split; [by eapply parse_range|done].
  - eapply sim_bind, sim_mono; [by eapply sim_addReply|]. cbn beta. intros _ _ s1 (I1 & ->). apply sim_ret.
    split_and!; [done|done|done|eauto|done].
Qed.

Lemma sim_parse_long N L D R s a msg x :
  inv N L D R s -> match a with Some a => val_at (heap s) a = Some (VStr x) | None => x = [] end ->
  sim (getLongFromObjectOrReply a msg) (a_parse x (default "value is not an integer or out of range"%string msg)) s
    (fun r r' s' => r = r' /\ inv N L D R s' /\ (r = parse_ll x) /\ (exists b, s' = with_sd s (set_out (sd s) b)) /\
       forall v, r = Some v -> in_s 64 v /\ s' = s).
Proof.
  intros I Ha. apply wp_bind. eapply wp_mono; [by eapply sim_parse|]. cbn beta. intros r s'.
  destruct (a_parse _ _ (abs s)) as [y t]. intros (-> & -> & I' & E' & Hb & Hv). destruct y as [v|].
  - destruct (Hv v eq_refl) as [Hin ->]. unfold in_s in Hin. unfold LLONG_MIN, LLONG_MAX.
    rewrite Z.gtb_ltb. zdec. apply wp_ret. by split_and!.
  - apply wp_ret. by split_and!.
Qed.

(** *** Replies *)

Lemma wp_num prefix v s (Q : unit -> server -> Prop) : in_s 64 v ->
  Q tt (with_sd s (set_out (sd s) (sent (out (sd s)) (r_num prefix v)))) -> wp (addReplyLongLongWithPrefix v prefix) s Q.
Proof. intros Hv HQ. apply wp_bind, (wp_lift _ (print v)); [apply ll_text_print; [done|lia]|]. exact HQ. Qed.

Lemma sim_addReplyLongLong N L D R s v :
  inv N L D R s -> in_s 64 v ->
  sim (addReplyLongLong v) (a_reply (r_int v)) s (fun _ _ s' => inv N L D R s' /\ s' = with_sd s (set_out (sd s) (sent (out (sd s)) (r_int v)))).
Proof.
  intros I Hv. unfold addReplyLongLong. destruct (Z.eqb_spec v 0) as [->|]; [by apply sim_addReply|].
  destruct (Z.eqb_spec v 1) as [->|]; [by apply sim_addReply|].
  apply wp_num; [done|]. split; [done|]. split; [by apply inv_side|done].
Qed.

Lemma count_digits_ok f : forall ds m len, NumFacts.canonical ds -> (length ds <= f)%nat -> Z.abs m = NumFacts.dval 0 ds ->
  count_digits f m len = Some (len + zlen ds - 1).
Proof.
  induction f as [|f IH]; intros ds m len Hc Hl Hm.
  - destruct Hc as [_ (d & ds' & -> & _)]. cbn in Hl. lia.
  - destruct ds as [|c ds _] using rev_ind; [by destruct Hc as [_ (d & ds' & E & _)]|].
    assert (NumFacts.digit c) as Hd by (destruct Hc as [Hd _]; apply Forall_app in Hd as [_ Hd]; by apply Forall_inv in Hd).
    unfold NumFacts.digit in Hd. rewrite NumFacts.dval_snoc in Hm.
    assert (Z.abs (Z.quot m 10) = NumFacts.dval 0 ds) as Hq.
    { rewrite <- Z.quot_abs, Hm by done. change (Z.abs 10) with 10. pose proof (proj1 Hc) as Hf. apply Forall_app in Hf as [Hds _].
      destruct (Z_le_dec 0 (NumFacts.dval 0 ds)) as [H0|H0].
      - rewrite Z.quot_div_nonneg by lia. rewrite Z.mul_comm. symmetry. apply (Z.div_unique _ _ _ (c - ch_0)); lia.
      - pose proof (NumFacts.dval_ge 0 ds Hds ltac:(lia)). lia. }
    cbn [count_digits]. rewrite length_app in Hl. cbn in Hl. rewrite zlen_app. change (zlen [c]) with 1.
    destruct (decide (ds = [])) as [->|Hne].
    + change (NumFacts.dval 0 []) with 0 in Hq. replace (Z.quot m 10 =? 0) with true by (symmetry; apply Z.eqb_eq; lia).
      change (zlen (@nil Z)) with 0. f_equal. lia.
    + destruct (NumFacts.canonical_snoc ds c Hc Hne) as [Hc' Hp]. replace (Z.quot m 10 =? 0) with false by (symmetry; apply Z.eqb_neq; lia).
      rewrite (IH ds) by (done || lia). f_equal. lia.
Qed.

Lemma count_print v : in_s 64 v ->
  (if v <? 0 then count_digits 20 (swrap 64 (- v)) 2 else count_digits 20 v 1) = Some (zlen (print v)).
Proof.
  intros Hv. destruct (print_digits v Hv) as (ds & Hc & Hd & ->).
  assert (length ds <= 20)%nat as L by (apply NumFacts.canonical_length; [done|unfold in_s in Hv; lia]).
  assert (forall m, Z.abs m = Z.abs v -> forall len, count_digits 20 m len = Some (len + zlen ds - 1)) as Hcd.
  { intros m Em len. apply count_digits_ok; [done|done|lia]. }
  unfold in_s in Hv. destruct (Z.ltb_spec v 0).
  - rewrite Hcd; [rewrite zlen_cons; f_equal; lia|].
    destruct (Z.eq_dec v (- 2 ^ 63)) as [->|]; [done|]. rewrite s64_small by lia. lia.
  - rewrite Hcd by done. f_equal. lia.
Qed.

(** A bulk reply; the text may stay shared with the reply list. *)
Lemma wp_addReplyObj N L D R s a x :
  inv N L D R s -> val_at (heap s) a = Some (VStr x) -> N + 1 < 2 ^ 31 ->
  wp (addReplyObj a) s (fun _ s' => inv (N + 1) L D R s' /\ abs s' = snd (a_reply x (abs s)) /\ dbs s' = dbs s /\ args_kept s s' /\
    sd s' = set_out (sd s) (sent (out (sd s)) x)).
Proof.
  intros I Hv HN. destruct (val_obj _ _ _ _ _ _ _ I Hv) as (o & Ho & Hok & Ex).
  destruct (obj_string o x Hok Ex) as (Ht & Hc & Hb & Hl). unfold addReplyObj. destruct prepareClientToWrite eqn:Ep; cbn [negb].
  2:{ apply wp_ret. assert (set_out (sd s) (sent (out (sd s)) x) = sd s) as Es by (unfold sent; rewrite Ep; by destruct s as [? ? ? ? ? []]).
      split_and!; [eapply inv_weaken; [done|lia]| |done|done|done]. destruct s as [? ? ? ? ? sd0]. cbn in *. unfold abs. cbn. by rewrite Es. }
  apply wp_bind, (wp_load _ o); [done|]. pose proof (inv_room _ _ _ _ _ I) as Hroom.
  destruct Hc as [(-> & b & Hp & Hr)|(-> & v & Hp & Hi & ->)].
  - unfold obj_sds. rewrite Hp. apply wp_bind, wp_ret, wp_bind.
    apply (wp_lift _ x). { unfold sds_bytes. rewrite (rep_sdslen _ _ Hr). destruct Hr as (sp & -> & _). by apply rdn_prefix. }
    apply wp_bind, wp_gets, wp_bind. set (s1 := with_sd s (set_out (sd s) (sent (out (sd s)) x))).
    change (wp (if reply_by_reference (sd s) then _ ← incrRefCount a; modify (fun s => with_held s (a :: held s)) else mret tt) s1
      (fun _ s' => inv (N + 1) L D R s' /\ abs s' = abs s1 /\ dbs s' = dbs s /\ args_kept s s' /\ sd s' = sd s1)).
    assert (inv N L D R s1) as I1 by (by apply inv_side).
    destruct (reply_by_reference (sd s)); [|apply wp_ret; split_and!; try done; eapply inv_weaken; [done|lia]].
    apply wp_bind. eapply wp_mono; [eapply (wp_incr _ _ _ _ _ a (VStr x) false I1); [exact Hv|done|done]|]. cbn beta.
    intros _ s2 (I2 & E2 & H2). unfold wp, modify. split_and!; [|exact E2|by rewrite H2| |by rewrite H2].
    + constructor; try by destruct I2.
      * intros c. pose proof (inv_refs _ _ _ _ _ I2 c) as Hc2. cbn [heap with_held].
        change (((a, VStr x, false) :: L).*1.*1) with (a :: L.*1.*1) in Hc2. unfold roots in *. cbn [with_held integers held argv dbs].
        rewrite !occ_app, occ_cons in *. destruct (heap s2 !! c); [split_and!; [tauto|tauto|lia]|lia].
      * pose proof (inv_room _ _ _ _ _ I2) as Hr2. change (((a, VStr x, false) :: L).*1.*1) with (a :: L.*1.*1) in Hr2.
        unfold roots in *. cbn [with_held integers held argv dbs]. rewrite !zlen_app, !zlen_cons in *. lia.
      * intros c w q Hin. apply (inv_locals _ _ _ _ _ I2). by right.
    + split; [by rewrite H2|]. change (a_argv (abs (with_held s2 (a :: held s2)))) with (a_argv (abs s2)). by rewrite E2.
  - unfold obj_long. rewrite Hp. apply wp_bind, wp_ret, wp_bind, (wp_lift _ (print v)); [apply ll_text_print; [done|lia]|].
    unfold wp. cbn. split_and!; [|done|done|done|done]. apply inv_side; [|done]. eapply inv_weaken; [done|lia].
Qed.

Lemma sim_addReplyBulk N L D R s a x :
  inv N L D R s -> val_at (heap s) a = Some (VStr x) -> N + 1 < 2 ^ 31 ->
  sim (addReplyBulk a) (a_reply (r_bulk x)) s
    (fun _ _ s' => inv (N + 1) L D R s' /\ dbs s' = dbs s /\ args_kept s s' /\ sd s' = set_out (sd s) (sent (out (sd s)) (r_bulk x))).
Proof.
  intros I Hv HN. destruct (val_obj _ _ _ _ _ _ _ I Hv) as (o & Ho & Hok & Ex).
  destruct (obj_string o x Hok Ex) as (Ht & Hc & Hb & Hl). apply wp_bind.
  pose proof (zlen_nonneg x). unfold STRING_MAX in Hl.
  set (s1 := with_sd s (set_out (sd s) (sent (out (sd s)) (r_num 36 (zlen x))))).
  assert (wp (addReplyBulkLen a) s (fun _ s' => s' = s1)) as W.
  { apply wp_bind, (wp_load _ o); [done|]. apply wp_bind.
    destruct Hc as [(-> & b & Hp & Hr)|(-> & v & Hp & Hi & ->)].
    - unfold obj_sds. rewrite Hp. apply wp_bind, wp_ret, wp_ret. rewrite (rep_sdslen _ _ Hr).
      apply wp_num; [unfold in_s; lia|done].
    - unfold obj_long. rewrite Hp. apply wp_bind, wp_ret. eapply wp_lift; [by apply count_print|].
      apply wp_num; [unfold in_s; lia|done]. }
  eapply wp_mono; [exact W|]. cbn beta. intros _ s1' ->. apply wp_bind.
  eapply wp_mono; [eapply (wp_addReplyObj N L D R s1 a x); [by apply inv_side|done|done]|]. cbn beta.
  intros _ s2 (I2 & E2 & D2 & K2 & S2). unfold wp, addReply, modify_side, modify. cbn [a_reply a_side].
  assert (abs (with_sd s2 (set_out (sd s2) (sent (out (sd s2)) crlf))) = snd (a_reply (r_bulk x) (abs s))) as E3.
  { change (AServer (a_dbs (abs s2)) (a_argv (abs s2)) (set_out (sd s2) (sent (out (sd s2)) crlf)) = snd (a_reply (r_bulk x) (abs s))).
    rewrite E2, S2. cbn. unfold r_bulk. by rewrite !sent_app, <- !app_assoc. }
  split; [by rewrite E3|]. split_and!; [by apply inv_side|done|by destruct K2|]. cbn. rewrite S2. cbn. unfold r_bulk.
  by rewrite !sent_app, <- !app_assoc.
Qed.

(** *** Creation of strings *)

Lemma newlen_bytes x r : zlen x <= STRING_MAX -> exists t, sdsnewlen (Some (x ++ r)) (zlen x) = Some t /\ rep t x.
Proof.
  unfold STRING_MAX. intros Hl. destruct (SplitFacts.newlen_rep x) as (t & E & Hr); [lia|]. exists t. split; [|done].
  unfold sdsnewlen in *. rewrite rdn_whole in E. by rewrite rdn_prefix.
Qed.

Lemma rep_buffer t x : rep t x -> exists r, s_buf t = x ++ r.
Proof. intros (sp & -> & _). eauto. Qed.

Lemma wp_createSds N L D R s b x :
  inv N L D R s -> N + 1 < 2 ^ 31 -> rep b x -> bytes_ok x -> zlen x <= STRING_MAX ->
  wp (createObject REDIS_STRING (PSds b)) s (fun a s' => inv (N + 1) ((a, VStr x, true) :: L) D R s' /\ abs s' = abs s /\
    heap_step s s' /\ heap s !! a = None /\ (forall c, c <> a -> heap s' !! c = heap s !! c) /\ fresh_raw s' a x).
Proof.
  intros I HN Hr Hb Hl. set (o := RObject REDIS_STRING REDIS_ENCODING_RAW lruclock 1 (PSds b)).
  eapply wp_mono; [eapply (wp_alloc _ _ _ _ _ o true I HN)|].
  - left. split_and!; [done|done|]. by exists b, x.
  - done.
  - intros _. exists x, b. by split_and!.
  - cbn beta. intros a s' (I' & E' & H' & Ha & Ha' & Ho). assert (value_of o = VStr x) as Ev.
    { unfold value_of. cbn. by rewrite (rep_content _ _ Hr). }
    rewrite Ev in I'. split_and!; try done. by exists o, b.
Qed.

Lemma wp_createString N L D R s buf x r :
  inv N L D R s -> N + 1 < 2 ^ 31 -> buf = x ++ r -> bytes_ok x -> zlen x <= STRING_MAX ->
  wp (createStringObject buf (zlen x)) s (fun a s' => inv (N + 1) ((a, VStr x, true) :: L) D R s' /\ abs s' = abs s /\
    heap_step s s' /\ heap s !! a = None /\ (forall c, c <> a -> heap s' !! c = heap s !! c) /\ fresh_raw s' a x).
Proof.
  intros I HN -> Hb Hl. destruct (newlen_bytes x r Hl) as (t & E & Hr). apply wp_bind, (wp_lift _ _ _ _ E).
  by apply wp_createSds.
Qed.

Lemma wp_getDecoded N L D R s a x :
  inv N L D R s -> N + 1 < 2 ^ 31 -> val_at (heap s) a = Some (VStr x) ->
  wp (getDecodedObject a) s (fun d s' => inv (N + 1) ((d, VStr x, true) :: L) D R s' /\ abs s' = abs s /\ heap_step s s').
Proof.
  intros I HN Hv. destruct (val_obj _ _ _ _ _ _ _ I Hv) as (o & Ho & Hok & Ex).
  destruct (obj_string o x Hok Ex) as (Ht & Hc & Hb & Hl). apply wp_bind, (wp_load _ o); [done|].
  destruct Hc as [(He & b & Hp & Hr)|(He & v & Hp & Hi & ->)]; rewrite He.
  - apply wp_bind. eapply wp_mono; [eapply (wp_incr _ _ _ _ _ a (VStr x) true I Hv); [|done]|].
    { intros _. exists x. split; [done|]. by exists o, b. }
    cbn beta. intros _ s1 Q1. by apply wp_ret.
  - rewrite Ht. cbn [Z.eqb REDIS_ENCODING_INT REDIS_ENCODING_RAW REDIS_STRING andb]. unfold obj_long. rewrite Hp.
    apply wp_bind, wp_ret. destruct (ll2string_print 32 v Hi) as [r E]; [lia|]. change (Z.of_nat 32) with 32 in E.
    apply wp_bind, (wp_lift _ _ _ _ E). apply wp_bind, (wp_lift _ (zlen (print v))); [apply strlen_nul; by apply print_bytes|].
    eapply wp_mono; [eapply (wp_createString _ _ _ _ _ _ (print v) (0 :: r) I HN eq_refl)|]; [by apply print_bytes|done|].
    cbn beta. intros d s1 (I1 & E1 & H1 & _). by split_and!.
Qed.

Lemma wp_createFromLongLong N L D R s v :
  inv N L D R s -> N + 1 < 2 ^ 31 -> in_s 64 v ->
  wp (createStringObjectFromLongLong v) s (fun a s' => inv (N + 1) ((a, VStr (print v), false) :: L) D R s' /\ abs s' = abs s /\ heap_step s s').
Proof.
  intros I HN Hv. unfold createStringObjectFromLongLong.
  destruct ((0 <=? v) && (v <? REDIS_SHARED_INTEGERS)) eqn:Es.
  - bool_to_prop. destruct (inv_shared _ _ _ _ _ v I) as (i & Hi & _ & Hvi & _); [done|].
    apply wp_bind, wp_gets, wp_bind, (wp_lift _ _ _ _ Hi), wp_bind.
    eapply wp_mono; [by eapply (wp_incr _ _ _ _ _ i _ false I Hvi)|]. cbn beta. intros _ s1 Q1. by apply wp_ret.
  - clear Es. unfold in_s in Hv. unfold LLONG_MIN, LLONG_MAX. zdec. apply wp_bind.
    set (o0 := RObject REDIS_STRING REDIS_ENCODING_RAW lruclock 1 (PLong 0)).
    set (o := RObject REDIS_STRING REDIS_ENCODING_INT lruclock 1 (PLong v)).
    apply wp_bind, wp_gets, wp_bind. set (a := new_addr (heap s)). set (s0 := with_heap s (<[a := o0]> (heap s))).
    apply wp_ret, wp_bind, (wp_load _ o0); [apply lookup_insert_eq|].
    apply wp_bind, (wp_store _ o0); [apply lookup_insert_eq|]. apply wp_ret.
    destruct (inv_alloc N L D R s a o false I HN) as [I' E']; [apply new_addr_fresh| |done|done|].
    { right. left. split_and!; [done|done|]. exists v. split; [done|]. unfold in_s. lia. }
    assert (with_heap s0 (<[a := o]> (heap s0)) = with_heap s (<[a := o]> (heap s))) as Eq.
    { unfold s0, with_heap. cbn. by rewrite insert_insert_eq. }
    rewrite <- Eq in I', E'. split_and!; [exact I'|exact E'|done].
Qed.

(** *** The encoding of an argument *)

(** An argument changes its object for another one with the same text; [R'] are arguments
    known to be raw that are not it. *)
Lemma abs_set_arg s j x : a_argv (abs s) !! j = Some x ->
  AServer (a_dbs (abs s)) (<[j := x]> (a_argv (abs s))) (a_sd (abs s)) = abs s.
Proof. intros Hx. rewrite list_insert_id by done. by destruct (abs s). Qed.

Lemma arg_val N L D R s j a : inv N L D R s -> argv s !! j = Some a ->
  exists o x, heap s !! a = Some o /\ o_type o = REDIS_STRING /\ obj_ok o /\ value_of o = VStr x /\ val_at (heap s) a = Some (VStr x) /\
    a_argv (abs s) !! j = Some x.
Proof.
  intros I Ha. destruct (inv_args _ _ _ _ _ I a (lookup_In _ _ _ Ha)) as (o & Ho & Ht).
  pose proof (inv_ok _ _ _ _ _ _ _ I Ho) as Hok. assert (exists x, value_of o = VStr x) as [x Hx].
  { unfold value_of. destruct Hok as [(_ & _ & b & x & -> & _)|[(_ & _ & n & -> & _)|(Hn & _)]]; [eauto|eauto|].
    rewrite Ht in Hn. unfold REDIS_STRING in Hn. lia. }
  exists o, x. assert (val_at (heap s) a = Some (VStr x)) as Hv by (unfold val_at; rewrite Ho; cbn; by rewrite Hx).
  split_and!; try done. unfold abs. cbn. rewrite list_lookup_fmap, Ha. cbn. unfold text_at. by rewrite Hv.
Qed.

(** The last owner of an argument replaces it by a shared integer. *)
Lemma encode_shared N L R s j a i o x :
  inv N L [] R s -> argv s !! j = Some a -> heap s !! a = Some o -> o_refcount o = 1 -> value_of o = VStr x ->
  val_at (heap s) i = Some (VStr x) -> (exists o, heap s !! i = Some o /\ o_type o = REDIS_STRING) -> a <> i ->
  (forall j' a' k, In (j', a', k) R -> j' <> j) -> N + 1 < 2 ^ 31 -> a_argv (abs s) !! j = Some x ->
  let s1 := with_argv (with_heap s (delete a (heap s))) (<[j := i]> (argv s)) in
  inv N L [i] R s1 /\ abs s1 = abs s.
Proof.
  intros I Ha Ho H1 Hv Hi Hti Hne HR HN Hx s1.
  destruct (inv_set_arg N L [] R s j a (VStr x) i x I Ha) as [I1 E1]; [unfold val_at; by rewrite Ho; cbn; rewrite Hv|done..|].
  set (t := with_argv s _) in *. destruct (inv_free _ _ _ _ _ _ _ _ o I1) as [I2 E2]; [done|done|by rewrite occ_cons, decide_False|].
  replace (N + 1 - 1) with N in I2 by lia. split; [exact I2|]. change (with_heap t (delete a (heap t))) with s1 in E2.
  rewrite E2, E1. by apply abs_set_arg.
Qed.

(** The last owner of an argument changes it in place. *)
Lemma encode_in_place N L R s j a o o' x :
  inv N L [] R s -> argv s !! j = Some a -> heap s !! a = Some o -> o_refcount o = 1 -> value_of o = VStr x ->
  obj_ok o' -> o_type o' = REDIS_STRING -> o_refcount o' = 1 -> value_of o' = VStr x ->
  (forall j' a' k, In (j', a', k) R -> j' <> j) -> N + 2 < 2 ^ 31 -> a_argv (abs s) !! j = Some x ->
  let s1 := with_heap s (<[a := o']> (heap s)) in inv N L [] R s1 /\ abs s1 = abs s.
Proof.
  intros I Ha Ho H1 Hv Hok' Ht' H1' Hv' HR HN Hx s1.
  assert (exists i, In i (integers s) /\ val_at (heap s) i = Some (VStr (print 0)) /\
    (exists o, heap s !! i = Some o /\ o_type o = REDIS_STRING)) as (i & Hi & Hvi & Hti).
  { destruct (inv_shared _ _ _ _ _ 0 I) as (i & _ & ? & ? & ?); [by unfold REDIS_SHARED_INTEGERS|eauto]. }
  assert (a <> i) as Hne.
  { intros ->. destruct (inv_count _ _ _ _ _ _ _ I Ho) as (_ & Hc & _). rewrite occ_nil in Hc.
    apply occ_In in Hi. apply lookup_In, occ_In in Ha. unfold roots in Hc. rewrite !occ_app in Hc.
    pose proof (occ_nonneg i (held s)). pose proof (occ_nonneg i (dict_refs (dbs s))). pose proof (occ_nonneg i L.*1.*1). lia. }
  destruct (inv_set_arg N L [] R s j a (VStr x) i (print 0) I Ha) as [I1 E1]; [unfold val_at; by rewrite Ho; cbn; rewrite Hv|done|done|done|lia|].
  set (t1 := with_argv s _) in *. destruct (inv_free _ _ _ _ _ _ _ _ o I1) as [I2 E2]; [done|done|by rewrite occ_cons, decide_False|].
  set (t2 := with_heap t1 _) in *.
  destruct (inv_alloc _ _ _ _ t2 a o' false I2) as [I3 E3]; [lia|apply lookup_delete_eq|done|done|done|].
  set (t3 := with_heap t2 _) in *.
  destruct (inv_set_arg _ _ _ R t3 j i (VStr (print 0)) a x I3) as [I4 E4].
  { apply list_lookup_insert_eq. by eapply lookup_lt_Some. }
  { cbn. rewrite val_insert_ne, val_delete_ne by done. done. }
  { cbn. by rewrite val_insert_eq, Hv'. }
  { exists o'. cbn. by rewrite lookup_insert_eq. }
  { done. }
  { lia. }
  set (t4 := with_argv t3 _) in *. assert (t4 = s1) as E.
  { unfold t4, t3, t2, t1, s1, with_argv, with_heap. cbn. rewrite insert_delete_eq, list_insert_insert_eq, list_insert_id by done. done. }
  rewrite E in I4, E4. rewrite Hv' in I4. split.
  - apply (inv_perm _ _ ((a, VStr x, false) :: (i, VStr (print 0), false) :: L)) in I4; [|constructor].
    apply inv_unghost, inv_unghost in I4. by replace (N + 1 - 1 + 1 + 1 - 1 - 1) with N in I4 by lia.
  - rewrite E4, E3, E2, E1. cbn. rewrite list_insert_insert_eq. by apply abs_set_arg.
Qed.

Lemma wp_encode_arg N L R s j a x :
  inv N L [] R s -> argv s !! j = Some a -> a_argv (abs s) !! j = Some x ->
  (forall j' a' k, In (j', a', k) R -> j' <> j) -> N + 2 < 2 ^ 31 ->
  wp (encode_arg j) s (fun _ s' => inv N L [] R s' /\ abs s' = abs s /\ dbs s' = dbs s /\ sd s' = sd s /\ length (argv s') = length (argv s)).
Proof.
  intros I Ha Hx HR HN. destruct (arg_val _ _ _ _ _ _ _ I Ha) as (o & y & Ho & Ht & Hok & Hvo & Hv & Hx').
  rewrite Hx in Hx'. injection Hx' as <-.
  assert (with_argv s (<[j := a]> (argv s)) = s) as Eid.
  { unfold with_argv. rewrite list_insert_id by done. by destruct s. }
  apply wp_bind, (wp_arg _ _ _ _ Ha), wp_bind, wp_bind, (wp_load _ o); [done|].
  destruct (obj_string o x Hok Hvo) as (_ & Hc & Hb & Hl).
  destruct Hc as [(He & b & Hp & Hr)|(He & _)]; rewrite He.
  2:{ apply wp_ret. unfold wp, modify. by rewrite Eid. }
  cbn [Z.eqb REDIS_ENCODING_RAW negb]. destruct (Z.gtb_spec (o_refcount o) 1) as [Hrc|Hrc].
  { apply wp_ret. unfold wp, modify. by rewrite Eid. }
  destruct (inv_count _ _ _ _ _ _ _ I Ho) as (Hc1 & _). assert (o_refcount o = 1) as H1 by lia.
  apply wp_bind, wp_assert; [rewrite Ht; done|]. unfold obj_sds. rewrite Hp. apply wp_bind, wp_ret, wp_bind.
  apply (wp_lift _ x). { unfold sds_bytes. rewrite (rep_sdslen _ _ Hr). destruct Hr as (sp & -> & _). by apply rdn_prefix. }
  rewrite (rep_sdslen _ _ Hr). destruct (if zlen x >? 21 then None else Num.string2l x) as [v|] eqn:Es.
  - destruct (zlen x >? 21); [done|]. apply string2l_print in Es as [Hin ->].
    destruct ((maxmemory =? 0) && (0 <=? v) && (v <? REDIS_SHARED_INTEGERS)) eqn:Esh.
    + bool_to_prop. destruct (inv_shared _ _ _ _ _ v I) as (i & Hi & Hini & Hvi & Hti); [done|].
      assert (a <> i) as Hne.
      { intros <-. destruct (inv_ints _ _ _ _ _ I) as [_ Hints]. destruct (Hints v a Hi) as (oi & Hoi & _ & Hei & _).
        rewrite Ho in Hoi. injection Hoi as <-. by rewrite He in Hei. }
      destruct (encode_shared N L R s j a i o (print v) I Ha Ho H1 Hvo Hvi Hti Hne HR) as [I1 E1]; [lia|done|].
      apply wp_bind, wp_bind, (wp_load _ o); [done|]. rewrite H1. cbn [Z.leb Z.compare Z.eqb].
      apply wp_bind, wp_assert; [rewrite Ht; done|]. apply (wp_zfree _ o); [done|].
      apply wp_bind, wp_gets, wp_bind, (wp_lift _ _ _ _ Hi), wp_bind.
      set (s1 := with_argv _ _) in *. destruct Hti as (oi & Hoi & _).
      assert (delete a (heap s) !! i = Some oi) as Hoi1 by (by rewrite lookup_delete_ne).
      destruct (inv_incr_stored _ _ _ _ _ _ oi I1 Hoi1) as [I2 E2].
      apply wp_bind, (wp_load _ oi); [exact Hoi1|].
      apply (wp_store _ oi); [exact Hoi1|]. apply wp_ret. unfold wp, modify.
      split_and!; [exact I2|by rewrite <- E1, <- E2|done|done|]. cbn. by rewrite length_insert.
    + set (o' := set_ptr (set_encoding o REDIS_ENCODING_INT) (PLong v)).
      destruct (encode_in_place N L R s j a o o' (print v) I Ha Ho H1 Hvo) as [I1 E1]; try done.
      { right. left. split_and!; [done|done|by exists v]. }
      apply wp_bind, (wp_store _ o); [done|]. apply wp_ret. unfold wp, modify.
      assert (forall t, argv t = argv s -> with_argv t (<[j := a]> (argv t)) = t) as Eid'.
      { intros t E. unfold with_argv. rewrite E, list_insert_id by done. rewrite <- E. by destruct t. }
      rewrite Eid' by done. by split_and!.
  - destruct (_ && _ && _).
    + set (o' := set_ptr o (PSds (sdsRemoveFreeSpace junk b))).
      assert (same_object o o') as Hso.
      { split_and!; [done|done|right]. exists b, (sdsRemoveFreeSpace junk b), x. split_and!; [done|done|done|by apply RemoveFree_rep]. }
      edestruct (inv_object N N L L [] [] R s a o o') as [I1 E1];
        [exact I|exact Ho|exact Hso|done| |done|by left|exact (inv_room _ _ _ _ _ I)|].
      { by destruct (inv_count _ _ _ _ _ _ _ I Ho) as (_ & Hc2 & _). }
      apply wp_bind, (wp_store _ o); [done|]. apply wp_ret. unfold wp, modify.
      assert (forall t, argv t = argv s -> with_argv t (<[j := a]> (argv t)) = t) as Eid'.
      { intros t E. unfold with_argv. rewrite E, list_insert_id by done. rewrite <- E. by destruct t. }
      rewrite Eid' by done. by split_and!.
    + apply wp_ret. unfold wp, modify. by rewrite Eid.
Qed.

End Objects.
