(* ===== verification/DbFacts.v ===== *)
(** * The keyspace: abstract operations and their implementation by db.c *)

From Stdlib Require Import Ascii String.
From S2P Require Import Prelude Util Sds Server ServerFacts ObjFacts Db.
Import SdsSpec SdsFacts QuoteFacts.

(** ** Specification: a database of values *)

Section Spec.
Context `{ServerEnv}.

Definition a_log (e : event) : Spec unit := a_side (fun x => log_event x e).
Definition a_dirty (n : Z) : Spec unit := a_side (fun x => set_dirty x (swrap 64 (dirty x + n))).
Definition a_db : Spec Z := a_gets (fun t => cur (a_sd t)).

Definition a_mstime : Spec Z :=
  n ← a_gets (fun t => ticks (a_sd t)); _ ← a_side (fun x => set_ticks x (S n)); mret (clock n).

Definition cur_db (db : Z) (t : aserver) : adb := default (Adb ∅ ∅) (rd (a_dbs t) db).
Definition a_get (db : Z) : Spec adb := a_gets (cur_db db).
Definition a_set (db : Z) (d : adb) : Spec unit :=
  fun t => (tt, AServer (<[Z.to_nat db := d]> (a_dbs t)) (a_argv t) (a_sd t)).

(** Setting a value keeps the time at which the key expires. *)
Definition put (k : list Z) (v : value) (d : adb) : adb := Adb (<[k := v]> (a_dict d)) (a_expires d).
Definition remove (k : list Z) (d : adb) : adb := Adb (delete k (a_dict d)) (delete k (a_expires d)).
Definition persist (k : list Z) (d : adb) : adb := Adb (a_dict d) (delete k (a_expires d)).
Definition expire_at (k : list Z) (when : Z) (d : adb) : adb := Adb (a_dict d) (<[k := when]> (a_expires d)).

Definition a_modify (db : Z) (f : adb -> adb) : Spec unit := d ← a_get db; a_set db (f d).

(** A key whose time has passed is removed, and its removal propagated, by a master that is
    not loading its data; the result tells whether the time has passed. *)
Definition a_expire (db : Z) (k : list Z) : Spec bool :=
  d ← a_get db;
  match a_expires d !! k with
  | None => mret false
  | Some when =>
      if (when <? 0) || loading then mret false else
      now ← (match lua_time with Some t => mret t | None => a_mstime end);
      if masterhost then mret (when <? now)
      else if now <=? when then mret false
      else
        _ ← a_side (fun x => set_stats x (stat_keyspace_hits x) (stat_keyspace_misses x) (swrap 64 (stat_expiredkeys x + 1)));
        _ ← a_log (PropagateDel db k);
        _ ← a_log (Notify REDIS_NOTIFY_EXPIRED "expired" k db);
        _ ← a_modify db (remove k);
        mret true
  end.

Definition a_find (db : Z) (k : list Z) : Spec (option value) := d ← a_get db; mret (a_dict d !! k).

Definition a_lookupWrite (db : Z) (k : list Z) : Spec (option value) := _ ← a_expire db k; a_find db k.

Definition a_lookupRead (db : Z) (k : list Z) : Spec (option value) :=
  _ ← a_expire db k;
  v ← a_find db k;
  _ ← a_side (match v with
              | None => fun x => set_stats x (stat_keyspace_hits x) (swrap 64 (stat_keyspace_misses x + 1)) (stat_expiredkeys x)
              | Some _ => fun x => set_stats x (swrap 64 (stat_keyspace_hits x + 1)) (stat_keyspace_misses x) (stat_expiredkeys x)
              end);
  mret v.

(** A key gets a value and no expire, whatever it was before. *)
Definition a_setKey (db : Z) (k : list Z) (v : value) : Spec unit :=
  _ ← a_lookupWrite db k;
  _ ← a_modify db (fun d => persist k (put k v d));
  a_log (Modified db k).

(** The result tells whether the key was there. *)
Definition a_delete (db : Z) (k : list Z) : Spec bool :=
  d ← a_get db; _ ← a_set db (remove k d); mret (bool_decide (is_Some (a_dict d !! k))).

Definition a_arg (j : nat) : Spec (list Z) := a_gets (fun t => default [] (a_argv t !! j)).

Definition not_an_integer : string := "value is not an integer or out of range".

(** [checkType] on a value, which is a string or something else. *)
Definition a_checkType (v : value) : Spec bool :=
  match v with VStr _ => mret false | VOther _ _ => _ ← a_reply shared_wrongtypeerr; mret true end.

End Spec.

(** The end of a command: the invariant with a bound on the references. *)
Definition done_with `{ServerEnv} (N : Z) (s : server) (B : Z) (_ _ : unit) (s' : server) : Prop := inv (N + B) [] [] [] s'.

(** The string [x] under key [k] is in an object that has no other owner. *)
Definition sole_raw (s : server) (db : Z) (k : list Z) (a : addr) (x : list Z) : Prop :=
  at_key s db k a /\ fresh_raw s a x /\ bytes_ok x /\ zlen x <= STRING_MAX.

(** ** Lemmas: databases *)

Section DbFacts.
Context `{ServerEnv}.

(** *** Reading the databases *)

Lemma inv_db N L D R s db : inv N L D R s -> 0 <= db < dbnum -> exists d, rd (dbs s) db = Some d.
Proof. intros I Hdb. destruct (inv_cur _ _ _ _ _ I) as (Hn & _). apply rd_is_Some. lia. Qed.

Lemma wp_get_db s db d (Q : redisDb -> server -> Prop) : rd (dbs s) db = Some d -> Q d s -> wp (get_db db) s Q.
Proof. intros Hd HQ. apply wp_bind, wp_gets. by apply (wp_lift _ d). Qed.

Lemma wp_set_db s db d d' (Q : unit -> server -> Prop) :
  rd (dbs s) db = Some d -> Q tt (with_dbs s (<[Z.to_nat db := d']> (dbs s))) -> wp (set_db db d') s Q.
Proof.
  intros Hd HQ. apply wp_bind, wp_gets, wp_bind. apply (wp_lift _ (<[Z.to_nat db := d']> (dbs s))); [|done].
  apply rd_Some in Hd as [H0 Hd]. apply lookup_lt_Some in Hd. unfold wr. unfold zlen. by zdec.
Qed.

Lemma abs_rd s db : rd (a_dbs (abs s)) db = view (heap s) <$> rd (dbs s) db.
Proof. unfold rd, abs. cbn. zcase; [|done]. by rewrite list_lookup_fmap. Qed.

Lemma abs_set_db s n d' :
  abs (with_dbs s (<[n := d']> (dbs s))) = AServer (<[n := view (heap s) d']> (a_dbs (abs s))) (a_argv (abs s)) (a_sd (abs s)).
Proof. unfold abs. cbn. by rewrite list_fmap_insert. Qed.

Lemma at_key_val N L D R s db k a : inv N L D R s -> at_key s db k a ->
  exists o, heap s !! a = Some o /\ obj_ok o /\ val_at (heap s) a = Some (value_of o).
Proof.
  intros I (d & Hd & Hk). destruct (inv_In _ _ _ _ _ a I) as [o Ho].
  { apply in_app_iff. left. eapply roots_db; [by eapply rd_In|done]. }
  exists o. split_and!; [done|by eapply inv_ok|]. unfold val_at. by rewrite Ho.
Qed.

Lemma view_lookup h d k : a_dict (view h d) !! k = db_dict d !! k ≫= val_at h.
Proof. cbn. by rewrite lookup_omap. Qed.

(** The value of a bound key is in the abstract state. *)
Lemma at_key_abs s s' db k a : abs s' = abs s -> dbs s' = dbs s -> at_key s db k a -> val_at (heap s') a = val_at (heap s) a.
Proof.
  intros E Ed (d & Hd & Hk). pose proof (abs_rd s db) as E1. pose proof (abs_rd s' db) as E2.
  rewrite E, E1, Ed, Hd in E2. injection E2 as E2. pose proof (view_lookup (heap s) d k) as V1.
  pose proof (view_lookup (heap s') d k) as V2. cbn in V1, V2. rewrite E2, V2, Hk in V1. done.
Qed.

Lemma found_abs s s' db k r v : abs s' = abs s -> dbs s' = dbs s -> found s db k r v -> found s' db k r v.
Proof.
  intros E Ed. destruct r as [a|], v as [v|]; cbn; try done; [|by rewrite Ed]. intros [Ha Hv].
  split; [by destruct Ha as (d & ? & ?); exists d; rewrite Ed|]. by rewrite (at_key_abs s s' db k a).
Qed.

Lemma heap_step_frame s s' : heap_step s s' -> dbs s' = dbs s /\ argv s' = argv s /\ sd s' = sd s.
Proof. by intros ->. Qed.

Lemma owned_val N L D R s a v : inv N L D R s -> owned s L a v -> val_at (heap s) a = Some v.
Proof.
  intros I [(j & x & Ha & Hx & ->)|[r Hr]]; [|by destruct (inv_locals _ _ _ _ _ I _ _ _ Hr)].
  unfold abs in Hx. cbn in Hx. rewrite list_lookup_fmap, Ha in Hx. injection Hx as <-.
  destruct (inv_args _ _ _ _ _ I a (lookup_In _ _ _ Ha)) as (o & Ho & Ht).
  pose proof (inv_ok _ _ _ _ _ _ _ I Ho) as Hok. unfold text_at, val_at. rewrite Ho. cbn. f_equal.
  unfold value_of. destruct Hok as [(_ & _ & b & x & -> & _)|[(_ & _ & n & -> & _)|(Hn & _)]]; [done|done|].
  rewrite Ht in Hn. unfold REDIS_STRING in Hn. lia.
Qed.

Lemma owned_kept s s' L a v : args_kept s s' -> owned s L a v -> owned s' L a v.
Proof. intros [E1 E2] [(j & x & ?)|?]; [left; exists j, x; by rewrite E1, E2|by right]. Qed.

Lemma owned_occ s L a v : owned s L a v -> 0 < occ a (argv s) + occ a L.*1.*1.
Proof.
  pose proof (occ_nonneg a (argv s)). pose proof (occ_nonneg a L.*1.*1).
  intros [(j & x & Ha & _)|[r Hr]].
  - apply lookup_In, occ_In in Ha. lia.
  - apply (in_map fst), (in_map fst), occ_In in Hr. cbn in Hr. change (map fst (map fst L)) with (L.*1.*1) in Hr. lia.
Qed.

Lemma args_kept_step s s' : heap_step s s' -> abs s' = abs s -> args_kept s s'.
Proof. intros Hs E. split; [by rewrite Hs|by rewrite E]. Qed.

Lemma args_kept_refl s : args_kept s s.
Proof. done. Qed.

Lemma args_kept_trans s t u : args_kept s t -> args_kept t u -> args_kept s u.
Proof. intros [E1 E2] [E3 E4]. split; by rewrite ?E3, ?E4. Qed.

(** *** Changing a database *)

Lemma roots_set_db s n d d' (f : list addr -> Z) :
  (forall l k, f (l ++ k) = f l + f k) -> dbs s !! n = Some d ->
  f (roots (with_dbs s (<[n := d']> (dbs s)))) + f (vals (db_dict d)) = f (roots s) + f (vals (db_dict d')).
Proof.
  intros Hf Hd. unfold roots. cbn [with_dbs integers held argv dbs]. rewrite !Hf.
  pose proof (dict_refs_insert (dbs s) n d d' f Hf Hd). lia.
Qed.

Lemma inv_dict N N' L L' D D' R s n d d' :
  inv N L D R s -> dbs s !! n = Some d ->
  (forall b, occ b (vals (db_dict d')) + occ b L'.*1.*1 + occ b D = occ b (vals (db_dict d)) + occ b L.*1.*1 + occ b D') ->
  (forall b, heap s !! b = None -> occ b D' = 0) ->
  (forall b v r, In (b, v, r) L' -> In (b, v, r) L \/ (val_at (heap s) b = Some v /\ r = false)) ->
  (forall k w, db_expires d' !! k = Some w -> in_s 64 w /\ is_Some (db_dict d' !! k)) ->
  zlen (vals (db_dict d')) + zlen L' + N <= zlen (vals (db_dict d)) + zlen L + N' < zlen (vals (db_dict d)) + zlen L + 2 ^ 31 ->
  inv N' L' D' R (with_dbs s (<[n := d']> (dbs s))).
Proof.
  intros I Hd Hocc HD HL Hexp HN. constructor; try by destruct I.
  - intros b. cbn [heap with_dbs]. pose proof (inv_refs _ _ _ _ _ I b) as Hr.
    pose proof (roots_set_db s n d d' (occ b) (occ_app b) Hd) as Hs. specialize (Hocc b). rewrite occ_app in *.
    destruct (heap s !! b) eqn:E; [split_and!; [tauto|tauto|lia]|]. pose proof (HD b E).
    pose proof (occ_nonneg b (roots (with_dbs s (<[n:=d']> (dbs s))))). pose proof (occ_nonneg b L'.*1.*1). lia.
  - pose proof (roots_set_db s n d d' zlen zlen_app Hd) as Hs. pose proof (inv_room _ _ _ _ _ I) as Hr.
    rewrite !zlen_app in *. unfold zlen in Hr, HN, Hs |- *. rewrite !length_fmap in *. lia.
  - intros b v r Hb. destruct (HL b v r Hb) as [Hb'|[Hv ->]]; [by apply (inv_locals _ _ _ _ _ I)|by split].
  - intros e k w [i Hi]%list_elem_of_In%list_elem_of_lookup_1 Hk. cbn in Hi.
    destruct (decide (i = n)) as [->|Hne].
    + rewrite list_lookup_insert_eq in Hi by (by eapply lookup_lt_Some). injection Hi as <-. by apply Hexp.
    + rewrite list_lookup_insert_ne in Hi by done. eapply (inv_expires _ _ _ _ _ I); [by eapply lookup_In|done].
  - destruct (inv_cur _ _ _ _ _ I) as (? & ? & ?). cbn. rewrite zlen_insert. done.
Qed.

(** *** Simulation of the operations of db.c *)

Lemma sim_modify_side N L D R s f :
  inv N L D R s -> cur (f (sd s)) = cur (sd s) ->
  sim (modify_side f) (a_side f) s (fun _ _ s' => inv N L D R s' /\ s' = with_sd s (f (sd s))).
Proof. intros I Hc. split; [done|]. split; [by apply inv_side|done]. Qed.

Lemma inv_find N L D R s db : inv N L D R s -> 0 <= db < dbnum ->
  exists d, rd (dbs s) db = Some d /\ dbs s !! Z.to_nat db = Some d /\
    cur_db db (abs s) = view (heap s) d /\
    (forall k, found s db k (db_dict d !! k) (a_dict (view (heap s) d) !! k)).
Proof.
  intros I Hdb. destruct (inv_db _ _ _ _ _ db I Hdb) as [d Hd]. exists d. split_and!; [done| | |].
  - by apply rd_Some in Hd as [_ ?].
  - unfold cur_db. by rewrite abs_rd, Hd.
  - intros k'. rewrite view_lookup. destruct (db_dict d !! k') as [a|] eqn:E; [|by exists d].
    destruct (at_key_val _ _ _ _ s db k' a I) as (o & _ & _ & Hv); [by exists d|]. cbn. rewrite Hv.
    split; [by exists d|done].
Qed.

Lemma a_modify_eq db f s d : rd (dbs s) db = Some d ->
  a_modify db f (abs s) = (tt, AServer (<[Z.to_nat db := f (view (heap s) d)]> (a_dbs (abs s))) (a_argv (abs s)) (a_sd (abs s))).
Proof. intros Hd. unfold a_modify, a_get, a_gets, a_set, mbind, Spec_bind, cur_db. by rewrite abs_rd, Hd. Qed.

(** A change of a database that keeps its references. *)
Lemma inv_modify_db N L D R s db d d' f :
  inv N L D R s -> rd (dbs s) db = Some d -> db_dict d' = db_dict d ->
  (forall k w, db_expires d' !! k = Some w -> in_s 64 w /\ is_Some (db_dict d !! k)) ->
  view (heap s) d' = f (view (heap s) d) ->
  let s' := with_dbs s (<[Z.to_nat db := d']> (dbs s)) in
  inv N L D R s' /\ a_modify db f (abs s) = (tt, abs s').
Proof.
  intros I Hd Ed He Hv s'. split; [|unfold s'; by rewrite (a_modify_eq _ _ _ d Hd), abs_set_db, Hv].
  apply rd_Some in Hd as [_ Hd]. pose proof (inv_room _ _ _ _ _ I).
  eapply inv_dict; [done|done|by rewrite Ed| |by left|by rewrite Ed|rewrite Ed; lia].
  intros b Hb. pose proof (inv_refs _ _ _ _ _ I b) as Hr. rewrite Hb in Hr. tauto.
Qed.

Lemma sim_modify_db N L D R s db d d' f :
  inv N L D R s -> rd (dbs s) db = Some d -> db_dict d' = db_dict d ->
  (forall k w, db_expires d' !! k = Some w -> in_s 64 w /\ is_Some (db_dict d !! k)) ->
  view (heap s) d' = f (view (heap s) d) ->
  sim (set_db db d') (a_modify db f) s (fun _ _ s' => inv N L D R s' /\ s' = with_dbs s (<[Z.to_nat db := d']> (dbs s))).
Proof.
  intros I Hd Ed He Hv. destruct (inv_modify_db _ _ _ _ _ _ _ _ f I Hd Ed He Hv) as [I' E'].
  apply (wp_set_db _ _ d); [done|]. by rewrite E'.
Qed.

(** A variable is stored under a key that is free. *)
Lemma store_new N L D R s db d k a v r :
  inv N ((a, v, r) :: L) D R s -> rd (dbs s) db = Some d -> db_dict d !! k = None ->
  let s' := with_dbs s (<[Z.to_nat db := RedisDb (<[k := a]> (db_dict d)) (db_expires d)]> (dbs s)) in
  inv N L D R s' /\ abs s' = snd (a_modify db (put k v) (abs s)).
Proof.
  intros I Hd Hk s'. destruct (inv_locals _ _ _ _ _ I a v r) as [Hv _]; [by left|]. split.
  - apply rd_Some in Hd as [_ Hd]. pose proof (vals_insert_new _ k a Hk) as Hp. pose proof (inv_room _ _ _ _ _ I).
    eapply inv_dict; [done|done| | | | |].
    + intros b. cbn [db_dict]. rewrite (occ_perm _ _ _ Hp).
      change (((a, v, r) :: L).*1.*1) with (a :: L.*1.*1). rewrite !occ_cons. lia.
    + intros b Hb. pose proof (inv_refs _ _ _ _ _ I b) as Hr. rewrite Hb in Hr. tauto.
    + intros b w q Hb. left. by right.
    + intros k' w Hw. cbn in Hw |- *. destruct (inv_expires _ _ _ _ _ I d k' w) as [? Hs]; [by eapply lookup_In|done|].
      split; [done|]. destruct (decide (k' = k)) as [->|Hne]; [rewrite Hk in Hs; by destruct Hs|by rewrite lookup_insert_ne].
    + cbn [db_dict]. rewrite (zlen_permutation _ _ Hp), !zlen_cons. lia.
  - unfold s'. rewrite abs_set_db, (a_modify_eq _ _ _ d Hd). cbn [snd]. do 2 f_equal.
    unfold view, put. cbn. f_equal. by apply omap_insert_Some.
Qed.

(** A variable replaces the value of a key, which becomes a variable. *)
Lemma store_old N L D R s db d k a v r b vb :
  inv N ((a, v, r) :: L) D R s -> rd (dbs s) db = Some d -> db_dict d !! k = Some b -> val_at (heap s) b = Some vb ->
  let s' := with_dbs s (<[Z.to_nat db := RedisDb (<[k := a]> (db_dict d)) (db_expires d)]> (dbs s)) in
  inv N ((b, vb, false) :: L) D R s' /\ abs s' = snd (a_modify db (put k v) (abs s)).
Proof.
  intros I Hd Hk Hvb s'. destruct (inv_locals _ _ _ _ _ I a v r) as [Hv _]; [by left|]. split.
  - apply rd_Some in Hd as [_ Hd]. pose proof (vals_insert_old _ k a b Hk) as Hp. pose proof (vals_delete _ k b Hk) as Hp'.
    pose proof (inv_room _ _ _ _ _ I).
    eapply inv_dict; [done|done| | | | |].
    + intros c. cbn [db_dict]. rewrite (occ_perm _ _ _ Hp), (occ_perm _ _ _ Hp').
      change (((a, v, r) :: L).*1.*1) with (a :: L.*1.*1). change (((b, vb, false) :: L).*1.*1) with (b :: L.*1.*1).
      rewrite !occ_cons. lia.
    + intros c Hc. pose proof (inv_refs _ _ _ _ _ I c) as Hr. rewrite Hc in Hr. tauto.
    + intros c w q [[= <- <- <-]|Hc]; [by right|]. left. by right.
    + intros k' w Hw. cbn in Hw |- *. destruct (inv_expires _ _ _ _ _ I d k' w) as [? ?]; [by eapply lookup_In|done|].
      split; [done|]. destruct (decide (k' = k)) as [->|Hne]; [by rewrite lookup_insert_eq|by rewrite lookup_insert_ne].
    + cbn [db_dict]. rewrite (zlen_permutation _ _ Hp), (zlen_permutation _ _ Hp'), !zlen_cons. lia.
  - unfold s'. rewrite abs_set_db, (a_modify_eq _ _ _ d Hd). cbn [snd]. do 2 f_equal.
    unfold view, put. cbn. f_equal. by apply omap_insert_Some.
Qed.

(** The value of a key that is deleted, its expire already removed, becomes a variable. *)
Lemma take_out N L D R s db d k b vb :
  inv N L D R s -> rd (dbs s) db = Some d -> db_dict d !! k = Some b -> db_expires d !! k = None -> val_at (heap s) b = Some vb ->
  let s' := with_dbs s (<[Z.to_nat db := RedisDb (delete k (db_dict d)) (db_expires d)]> (dbs s)) in
  inv N ((b, vb, false) :: L) D R s' /\ view (heap s) (RedisDb (delete k (db_dict d)) (db_expires d)) = remove k (view (heap s) d).
Proof.
  intros I Hd Hk He Hvb s'. split.
  - apply rd_Some in Hd as [_ Hd]. pose proof (vals_delete _ k b Hk) as Hp. pose proof (inv_room _ _ _ _ _ I).
    eapply inv_dict; [done|done| | | | |].
    + intros c. cbn [db_dict]. rewrite (occ_perm _ _ _ Hp).
      change (((b, vb, false) :: L).*1.*1) with (b :: L.*1.*1). rewrite !occ_cons. lia.
    + intros c Hc. pose proof (inv_refs _ _ _ _ _ I c) as Hr. rewrite Hc in Hr. tauto.
    + intros c w q [[= <- <- <-]|Hc]; [by right|]. by left.
    + intros k' w Hw. cbn in Hw |- *. destruct (inv_expires _ _ _ _ _ I d k' w) as [? ?]; [by eapply lookup_In|done|].
      split; [done|]. destruct (decide (k' = k)) as [->|Hne]; [by rewrite He in Hw|by rewrite lookup_delete_ne].
    + cbn [db_dict]. rewrite (zlen_permutation _ _ Hp), !zlen_cons. lia.
  - unfold view, remove. cbn. by rewrite (delete_id (db_expires d)), omap_delete.
Qed.

Lemma cur_db_eq s db d : rd (dbs s) db = Some d -> cur_db db (abs s) = view (heap s) d.
Proof. intros Hd. unfold cur_db. by rewrite abs_rd, Hd. Qed.

Lemma rd_set_db s db d d' : rd (dbs s) db = Some d -> rd (dbs (with_dbs s (<[Z.to_nat db := d']> (dbs s)))) db = Some d'.
Proof.
  intros [H0 Hd]%rd_Some. apply rd_Some. split; [done|]. cbn. apply list_lookup_insert_eq. by eapply lookup_lt_Some.
Qed.

Lemma set_db_twice s n d d' : with_dbs (with_dbs s (<[n := d]> (dbs s))) (<[n := d']> (<[n := d]> (dbs s))) = with_dbs s (<[n := d']> (dbs s)).
Proof. unfold with_dbs. cbn. by rewrite list_insert_insert_eq. Qed.

Lemma args_kept_dbs s l : args_kept s (with_dbs s l).
Proof. done. Qed.
Lemma args_kept_sd s x : args_kept s (with_sd s x).
Proof. done. Qed.

Lemma sim_log N L D R s j key k (f : list Z -> event) (am := fun k => a_log (f k)) :
  inv N L D R s -> In (j, key, k) R ->
  sim (k ← key_bytes key; modify_side (fun x => log_event x (f k))) (am k) s
    (fun _ _ s' => inv N L D R s' /\ s' = with_sd s (log_event (sd s) (f k))).
Proof. intros I Hj. apply wp_bind, (wp_key _ _ _ _ _ _ _ _ _ I Hj). by apply sim_modify_side. Qed.

Lemma sim_notify N L D R s j key k ty name db :
  inv N L D R s -> In (j, key, k) R ->
  sim (notifyKeyspaceEvent ty name key db) (a_log (Notify ty name k db)) s
    (fun _ _ s' => inv N L D R s' /\ s' = with_sd s (log_event (sd s) (Notify ty name k db))).
Proof. apply (sim_log _ _ _ _ _ _ _ _ (fun k => Notify ty name k db)). Qed.

Lemma sim_signal N L D R s j key k db :
  inv N L D R s -> In (j, key, k) R ->
  sim (signalModifiedKey db key) (a_log (Modified db k)) s
    (fun _ _ s' => inv N L D R s' /\ s' = with_sd s (log_event (sd s) (Modified db k))).
Proof. apply (sim_log _ _ _ _ _ _ _ _ (fun k => Modified db k)). Qed.

Lemma sim_propagate N L D R s j key k db :
  inv N L D R s -> In (j, key, k) R ->
  sim (propagateExpire db key) (a_log (PropagateDel db k)) s
    (fun _ _ s' => inv N L D R s' /\ s' = with_sd s (log_event (sd s) (PropagateDel db k))).
Proof. apply (sim_log _ _ _ _ _ _ _ _ (fun k => PropagateDel db k)). Qed.

Lemma sim_mstime N L D R s :
  inv N L D R s ->
  sim mstime a_mstime s (fun x y s' => x = y /\ in_s 64 x /\ inv N L D R s' /\ s' = with_sd s (set_ticks (sd s) (S (ticks (sd s))))).
Proof.
  intros I. pose proof (clock_ok (ticks (sd s))). split; [done|]. split_and!; [done|unfold in_s; lia|by apply inv_side|done].
Qed.

Lemma wp_getExpire N L D R s j key k db d (Q : Z -> server -> Prop) :
  inv N L D R s -> In (j, key, k) R -> rd (dbs s) db = Some d -> Q (default (-1) (db_expires d !! k)) s ->
  wp (getExpire db key) s Q.
Proof.
  intros I Hj Hd HQ. apply wp_bind, (wp_key _ _ _ _ _ _ _ _ _ I Hj), wp_bind, (wp_get_db _ _ d); [done|].
  destruct (Z.eqb_spec (Z.of_nat (size (db_expires d))) 0) as [E|E].
  - rewrite (map_size_empty_inv (db_expires d)) in HQ by lia. by apply wp_ret.
  - destruct (db_expires d !! k) as [w|] eqn:Ek; [|by apply wp_ret].
    destruct (inv_expires _ _ _ _ _ I d k w) as [_ Hs]; [by eapply rd_In|done|].
    apply wp_bind, wp_assert; [by apply bool_decide_true|]. by apply wp_ret.
Qed.

Lemma a_delete_eq db k s d : rd (dbs s) db = Some d ->
  a_delete db k (abs s) = (bool_decide (is_Some (a_dict (view (heap s) d) !! k)),
    AServer (<[Z.to_nat db := remove k (view (heap s) d)]> (a_dbs (abs s))) (a_argv (abs s)) (a_sd (abs s))).
Proof. intros Hd. unfold a_delete, a_get, a_gets, a_set, mbind, Spec_bind, cur_db. by rewrite abs_rd, Hd. Qed.

(** dbDelete() once the expire is removed. *)
Lemma sim_dict_delete N L R s db d d0 k :
  inv N L [] R s -> rd (dbs s) db = Some d -> db_expires d !! k = None -> db_dict d = db_dict d0 ->
  remove k (view (heap s) d) = remove k (view (heap s) d0) ->
  wp (dict_delete db k) s (fun r s' => inv N L [] R s' /\ args_kept s s' /\ sd s' = sd s /\
    r = bool_decide (is_Some (a_dict (view (heap s) d0) !! k)) /\
    abs s' = AServer (<[Z.to_nat db := remove k (view (heap s) d0)]> (a_dbs (abs s))) (a_argv (abs s)) (a_sd (abs s))).
Proof.
  intros I Hd He Edd Er. apply wp_bind, (wp_get_db _ _ d); [done|].
  pose proof (view_lookup (heap s) d0 k) as Hv. rewrite <- Edd in Hv.
  destruct (db_dict d !! k) as [b|] eqn:Ek.
  - destruct (at_key_val _ _ _ _ s db k b I) as (o & Ho & _ & Hb); [by exists d|].
    destruct (take_out _ _ _ _ _ _ _ _ _ _ I Hd Ek He Hb) as [I1 E1].
    apply wp_bind, wp_bind, (wp_get_db _ _ d); [done|]. apply (wp_set_db _ _ d); [done|].
    apply wp_bind. eapply wp_mono; [eapply wp_decr; [exact I1|by left]|]. cbn beta. intros _ s2 (I2 & E2 & S2 & _).
    apply wp_ret. split_and!.
    + eapply inv_weaken; [done|]. pose proof (inv_room _ _ _ _ _ I). lia.
    + eapply args_kept_trans; [apply args_kept_dbs|]. by apply args_kept_step.
    + by rewrite S2.
    + rewrite Hv. cbn. rewrite Hb. by rewrite bool_decide_true.
    + by rewrite E2, abs_set_db, E1, Er.
  - apply wp_ret. split_and!; [done|done|done| |].
    + rewrite Hv. by rewrite bool_decide_false.
    + rewrite <- Er. assert (remove k (view (heap s) d) = view (heap s) d) as ->.
      { unfold remove, view. cbn. rewrite (delete_id (db_expires d)) by done. rewrite delete_id; [done|]. by rewrite lookup_omap, Ek. }
      unfold abs. cbn. f_equal. symmetry. apply list_insert_id. rewrite list_lookup_fmap.
      apply rd_Some in Hd as [_ ->]. done.
Qed.

Lemma wp_dbDelete N L R s j key k db :
  inv N L [] R s -> In (j, key, k) R -> 0 <= db < dbnum ->
  wp (dbDelete db key) s (fun r s' => inv N L [] R s' /\ args_kept s s' /\ sd s' = sd s /\ a_delete db k (abs s) = (r, abs s')).
Proof.
  intros I Hj Hdb. destruct (inv_find _ _ _ _ _ db I Hdb) as (d & Hd & Hd' & _ & _).
  apply wp_bind, (wp_key _ _ _ _ _ _ _ _ _ I Hj), wp_bind, (wp_get_db _ _ d), wp_bind; [done|].
  rewrite (a_delete_eq _ _ _ d Hd).
  destruct (Z.ltb_spec 0 (Z.of_nat (size (db_expires d)))) as [E|E].
  - apply wp_bind, (wp_get_db _ _ d); [done|]. set (d1 := RedisDb (db_dict d) (delete k (db_expires d))).
    apply (wp_set_db _ _ d); [done|].
    destruct (inv_modify_db N L [] R s db d d1 (persist k) I Hd eq_refl) as [I1 _]; [|done|].
    { intros k' w Hw. cbn in Hw. apply lookup_delete_Some in Hw as [_ Hw].
      apply (inv_expires _ _ _ _ _ I d); [by eapply rd_In|done]. }
    eapply wp_mono; [eapply (sim_dict_delete _ _ _ _ _ d1 d k I1)|].
    + by eapply rd_set_db.
    + cbn. apply lookup_delete_eq.
    + done.
    + unfold remove, view. cbn. by rewrite delete_delete_eq.
    + cbn beta. intros r s2 (I2 & K2 & S2 & -> & ->). split_and!; try done.
      rewrite abs_set_db. cbn. by rewrite list_insert_insert_eq.
  - apply wp_ret. eapply wp_mono; [eapply (sim_dict_delete _ _ _ _ _ d d k I Hd)|].
    + rewrite (map_size_empty_inv (db_expires d)) by lia. apply lookup_empty.
    + done.
    + done.
    + cbn beta. intros r s2 (I2 & K2 & S2 & -> & ->). by split_and!.
Qed.

Lemma sim_dbDelete N L R s j key k db :
  inv N L [] R s -> In (j, key, k) R -> 0 <= db < dbnum ->
  sim (dbDelete db key) (a_delete db k) s (fun r y s' => r = y /\ inv N L [] R s' /\ args_kept s s' /\ sd s' = sd s).
Proof.
  intros I Hj Hdb. eapply wp_mono; [by eapply wp_dbDelete|]. cbn beta. intros r s' (I1 & K1 & S1 & ->). by split_and!.
Qed.

Lemma sim_pure {A B} (m : Cmd A) (y : B) x s (Q : A -> B -> server -> Prop) :
  wp m s (fun x' s' => x' = x /\ s' = s) -> Q x y s -> sim m (mret y) s Q.
Proof. intros Hm HQ. eapply wp_mono; [exact Hm|]. cbn. by intros ? ? [-> ->]. Qed.

Lemma sim_now N L D R s :
  inv N L D R s ->
  sim (match lua_time with Some t => mret t | None => mstime end)
    (match lua_time with Some t => mret t | None => a_mstime end) s
    (fun x y s' => x = y /\ inv N L D R s' /\ exists n, s' = with_sd s (set_ticks (sd s) n)).
Proof.
  intros I. destruct lua_time as [t|].
  - apply sim_ret. split_and!; [done|done|]. exists (ticks (sd s)). by destruct s as [? ? ? ? ? []].
  - eapply sim_mono; [by eapply sim_mstime|]. cbn beta. intros x y s' (-> & _ & I' & ->). eauto.
Qed.

Lemma sim_expireIfNeeded N L R s j key k db :
  inv N L [] R s -> In (j, key, k) R -> 0 <= db < dbnum ->
  sim (expireIfNeeded db key) (a_expire db k) s (fun _ _ s' => inv N L [] R s' /\ args_kept s s' /\ cur (sd s') = cur (sd s)).
Proof.
  intros I Hj Hdb. destruct (inv_find _ _ _ _ _ db I Hdb) as (d & Hd & _ & Hc & _).
  apply wp_bind, (wp_getExpire _ _ _ _ _ _ _ _ _ d _ I Hj Hd).
  unfold a_expire, a_get. apply (sim_gets_r (cur_db db)). rewrite (cur_db_eq _ _ d Hd). cbn [a_expires view].
  destruct (db_expires d !! k) as [when|]; cbn [default from_option id].
  2:{ zdec. by apply sim_ret. }
  destruct (when <? 0); [by apply sim_ret|]. destruct loading; [by apply sim_ret|]. cbn [orb].
  sim_next sim_now; [exact I|]. intros now _ s1 (<- & I1 & n & E1).
  assert (args_kept s s1) as K1 by (rewrite E1; done). assert (cur (sd s1) = cur (sd s)) as C1 by (rewrite E1; done).
  destruct masterhost; [by apply sim_ret|]. destruct (now <=? when); [by apply sim_ret|].
  sim_next sim_modify_side; [exact I1|done|]. intros _ _ s2 (I2 & E2).
  sim_next sim_propagate; [exact I2|exact Hj|]. intros _ _ s3 (I3 & E3).
  sim_next sim_notify; [exact I3|exact Hj|]. intros _ _ s4 (I4 & E4).
  assert (args_kept s s4) as K4 by (rewrite E4, E3, E2; done).
  assert (cur (sd s4) = cur (sd s)) as C4 by (rewrite E4, E3, E2; done).
  destruct (inv_find _ _ _ _ _ db I4 Hdb) as (d4 & Hd4 & _).
  eapply wp_mono; [eapply (wp_dbDelete _ _ _ _ _ _ _ _ I4 Hj Hdb)|]. cbn beta. intros r s5 (I5 & K5 & S5 & E5).
  unfold mbind at 1, Spec_bind. rewrite (a_modify_eq _ _ _ d4 Hd4). rewrite (a_delete_eq _ _ _ d4 Hd4) in E5.
  apply (f_equal snd) in E5. cbn [snd] in E5. unfold mret, Spec_ret. rewrite E5. split; [done|]. split_and!; [done|by eapply args_kept_trans|by rewrite S5].
Qed.

Lemma sim_lookupKey N L D R s j key k db :
  inv N L D R s -> In (j, key, k) R -> 0 <= db < dbnum ->
  sim (lookupKey db key) (a_find db k) s (fun r v s' => inv N L D R s' /\ heap_step s s' /\ abs s' = abs s /\ found s' db k r v).
Proof.
  intros I Hj Hdb. destruct (inv_find _ _ _ _ _ db I Hdb) as (d & Hd & _ & Hc & Hf).
  apply wp_bind, (wp_key _ _ _ _ _ _ _ _ _ I Hj), wp_bind, (wp_get_db _ _ d); [done|].
  unfold a_find, a_get. apply (sim_gets_r (cur_db db)). rewrite (cur_db_eq _ _ d Hd). specialize (Hf k).
  destruct (db_dict d !! k) as [a|] eqn:Ek.
  2:{ apply sim_ret. split_and!; [done|apply heap_step_refl|done|done]. }
  destruct (at_key_val _ _ _ _ s db k a I) as (o & Ho & Hok & Hv); [by exists d|].
  apply wp_bind. destruct saving_child; cbn [negb].
  - apply wp_ret, wp_ret. split; [done|]. split_and!; [done|apply heap_step_refl|done|done].
  - apply wp_bind, (wp_load _ o); [done|]. apply (wp_store _ o); [done|]. apply wp_ret.
    destruct (inv_count _ _ _ _ _ _ _ I Ho) as (Hc1 & Hc2 & _).
    edestruct (inv_object N N L L D D R s a o (set_lru o lruclock)) as [I' E'];
      [exact I|exact Ho|by split_and!; [..|left]|done|done|done|by left|exact (inv_room _ _ _ _ _ I)|].
    split; [by rewrite E'|]. split_and!; [done|done|done|]. by eapply found_abs.
Qed.

Lemma sim_lookupKeyWrite N L R s j key k db :
  inv N L [] R s -> In (j, key, k) R -> 0 <= db < dbnum ->
  sim (lookupKeyWrite db key) (a_lookupWrite db k) s
    (fun r v s' => inv N L [] R s' /\ args_kept s s' /\ cur (sd s') = cur (sd s) /\ found s' db k r v).
Proof.
  intros I Hj Hdb. sim_next sim_expireIfNeeded; [exact I|exact Hj|exact Hdb|]. intros _ _ s1 (I1 & K1 & C1).
  eapply sim_mono; [by eapply sim_lookupKey|]. cbn beta. intros r v s2 (I2 & H2 & E2 & F2).
  split_and!; [done|eapply args_kept_trans; [done|by apply args_kept_step]|by rewrite H2|done].
Qed.

Lemma sim_lookupKeyRead N L R s j key k db :
  inv N L [] R s -> In (j, key, k) R -> 0 <= db < dbnum ->
  sim (lookupKeyRead db key) (a_lookupRead db k) s
    (fun r v s' => inv N L [] R s' /\ args_kept s s' /\ cur (sd s') = cur (sd s) /\ found s' db k r v).
Proof.
  intros I Hj Hdb. sim_next sim_expireIfNeeded; [exact I|exact Hj|exact Hdb|]. intros _ _ s1 (I1 & K1 & C1).
  sim_next sim_lookupKey; [exact I1|exact Hj|exact Hdb|]. intros r v s2 (I2 & H2 & E2 & F2).
  assert (args_kept s s2) as K2 by (eapply args_kept_trans; [done|by apply args_kept_step]).
  assert (cur (sd s2) = cur (sd s)) as C2 by (by rewrite H2).
  apply sim_bind. destruct r as [a|], v as [v|]; try done;
    (eapply sim_mono; [by apply sim_modify_side|]; cbn beta; intros _ _ s3 (I3 & ->); apply sim_ret; by split_and!).
Qed.

(** *** Storing values *)

Lemma wp_dbAdd_local N L D R s j key k db a v r d :
  inv N ((a, v, r) :: L) D R s -> In (j, key, k) R -> rd (dbs s) db = Some d -> db_dict d !! k = None ->
  wp (dbAdd db key a) s (fun _ s' => inv N L D R s' /\ a_modify db (put k v) (abs s) = (tt, abs s') /\ args_kept s s' /\ sd s' = sd s /\
    at_key s' db k a /\ heap s' = heap s).
Proof.
  intros I Hj Hd Hk. apply wp_bind, (wp_key _ _ _ _ _ _ _ _ _ I Hj), wp_bind, (wp_get_db _ _ d); [done|].
  apply wp_bind, wp_assert; [by apply bool_decide_true|]. apply wp_bind, (wp_get_db _ _ d); [done|]. apply (wp_set_db _ _ d); [done|].
  destruct (store_new _ _ _ _ _ _ _ _ _ _ _ I Hd Hk) as [I' E']. split_and!; [done|by rewrite E'; destruct (a_modify _ _ _) as [[] ?]|done|done| |done].
  eexists. split; [by eapply rd_set_db|apply lookup_insert_eq].
Qed.

Lemma wp_dbOverwrite_local N L D R s j key k db a v r d b :
  inv N ((a, v, r) :: L) D R s -> In (j, key, k) R -> rd (dbs s) db = Some d -> db_dict d !! k = Some b ->
  (forall c, occ c D = 0 \/ c = a /\ occ a D < 1 + occ a (argv s) + occ a L.*1.*1) ->
  wp (dbOverwrite db key a) s (fun _ s' => inv (N - 1) L D R s' /\ a_modify db (put k v) (abs s) = (tt, abs s') /\ args_kept s s' /\ sd s' = sd s /\
    at_key s' db k a /\ forall c, c <> b -> heap s' !! c = heap s !! c).
Proof.
  intros I Hj Hd Hk HD. apply wp_bind, (wp_key _ _ _ _ _ _ _ _ _ I Hj), wp_bind, (wp_get_db _ _ d); [done|]. rewrite Hk.
  destruct (at_key_val _ _ _ _ s db k b I) as (o & Ho & _ & Hb); [by exists d|].
  destruct (store_old _ _ _ _ _ _ _ _ _ _ _ _ _ I Hd Hk Hb) as [I1 E1].
  apply wp_bind, wp_bind, (wp_get_db _ _ d); [done|]. apply (wp_set_db _ _ d); [done|].
  set (s1 := with_dbs _ _) in *. eapply wp_mono; [eapply wp_decr; [exact I1|]|].
  - destruct (HD b) as [|[-> Hlt]]; [by left|]. right.
    assert (occ a (roots s1) = occ a (integers s1) + occ a (held s1) + occ a (argv s1) + occ a (dict_refs (dbs s1))) as ->.
    { unfold roots. rewrite !occ_app. lia. }
    assert (0 < occ a (dict_refs (dbs s1))).
    { apply occ_In. eapply (in_dict_refs _ (RedisDb (<[k := a]> (db_dict d)) (db_expires d)) k); [|apply lookup_insert_eq].
      eapply rd_In, rd_set_db, Hd. }
    pose proof (occ_nonneg a (integers s1)). pose proof (occ_nonneg a (held s1)). change (argv s1) with (argv s). lia.
  - cbn beta. intros _ s2 (I2 & E2 & S2 & O2). split_and!; [done| | |by rewrite S2| |done].
    + rewrite E2, E1. by destruct (a_modify _ _ _) as [[] ?].
    + eapply args_kept_trans; [apply args_kept_dbs|]. by apply args_kept_step.
    + exists (RedisDb (<[k := a]> (db_dict d)) (db_expires d)). rewrite S2. split; [|apply lookup_insert_eq]. exact (rd_set_db s db d _ Hd).
Qed.

Lemma wp_removeExpire N L D R s j key k db d :
  inv N L D R s -> In (j, key, k) R -> rd (dbs s) db = Some d -> is_Some (db_dict d !! k) ->
  wp (removeExpire db key) s (fun r s' => inv N L D R s' /\ r = bool_decide (is_Some (db_expires d !! k)) /\
    a_modify db (persist k) (abs s) = (tt, abs s') /\ args_kept s s' /\ sd s' = sd s).
Proof.
  intros I Hj Hd Hk. apply wp_bind, (wp_key _ _ _ _ _ _ _ _ _ I Hj), wp_bind, (wp_get_db _ _ d); [done|].
  apply wp_bind, wp_assert; [by apply bool_decide_true|]. apply wp_bind, wp_bind, (wp_get_db _ _ d); [done|].
  apply (wp_set_db _ _ d); [done|]. apply wp_ret.
  destruct (inv_modify_db N L D R s db d (RedisDb (db_dict d) (delete k (db_expires d))) (persist k) I Hd eq_refl) as [I1 E1]; [|done|by split_and!].
  intros k' w Hw. cbn in Hw. apply lookup_delete_Some in Hw as [_ Hw]. apply (inv_expires _ _ _ _ _ I d); [by eapply rd_In|done].
Qed.

Lemma wp_setExpire N L D R s j key k db d w :
  inv N L D R s -> In (j, key, k) R -> rd (dbs s) db = Some d -> is_Some (db_dict d !! k) -> in_s 64 w ->
  wp (setExpire db key w) s (fun _ s' => inv N L D R s' /\ a_modify db (expire_at k w) (abs s) = (tt, abs s') /\ args_kept s s' /\ sd s' = sd s).
Proof.
  intros I Hj Hd Hk Hw. apply wp_bind, (wp_key _ _ _ _ _ _ _ _ _ I Hj), wp_bind, (wp_get_db _ _ d); [done|].
  apply wp_bind, wp_assert; [by apply bool_decide_true|]. apply wp_bind, (wp_get_db _ _ d); [done|].
  apply (wp_set_db _ _ d); [done|].
  destruct (inv_modify_db N L D R s db d (RedisDb (db_dict d) (<[k := w]> (db_expires d))) (expire_at k w) I Hd eq_refl) as [I1 E1]; [|done|by split_and!].
  intros k' w' Hw'. cbn in Hw'. apply lookup_insert_Some in Hw' as [[<- <-]|[_ Hw']]; [done|].
  apply (inv_expires _ _ _ _ _ I d); [by eapply rd_In|done].
Qed.

Lemma cur_db_set s db d f t : rd (dbs s) db = Some d -> a_modify db f (abs s) = (tt, t) -> cur_db db t = f (cur_db db (abs s)).
Proof.
  intros Hd. rewrite (a_modify_eq _ _ _ d Hd), (cur_db_eq _ _ d Hd). intros [= <-]. unfold cur_db. cbn.
  apply rd_Some in Hd as [H0 Hd]. unfold rd. zdec. rewrite list_lookup_insert_eq; [done|].
  unfold abs. cbn. rewrite length_fmap. by eapply lookup_lt_Some.
Qed.

Lemma a_modify_twice db f g t e : rd (a_dbs t) db = Some e ->
  snd (a_modify db g (snd (a_modify db f t))) = snd (a_modify db (fun d => g (f d)) t).
Proof.
  intros He. unfold a_modify, a_get, a_gets, a_set, mbind, Spec_bind, cur_db. rewrite He. cbn.
  apply rd_Some in He as [H0 He]. unfold rd. zdec. rewrite list_lookup_insert_eq by (by eapply lookup_lt_Some). cbn.
  by rewrite list_insert_insert_eq.
Qed.

Lemma modify_twice s s' t db d f g : rd (dbs s) db = Some d ->
  a_modify db f (abs s) = (tt, abs s') -> a_modify db g (abs s') = (tt, t) -> a_modify db (fun d => g (f d)) (abs s) = (tt, t).
Proof.
  intros Hd E1 E2. pose proof (abs_rd s db) as Er. rewrite Hd in Er. pose proof (a_modify_twice db f g _ _ Er) as E.
  rewrite E1 in E. cbn [snd] in E. rewrite E2 in E. cbn [snd] in E. destruct (a_modify _ (fun d => g (f d)) _) as [[] ?]. cbn in E. by subst.
Qed.

Lemma cur_db_is_Some N L D R s db d k : inv N L D R s -> rd (dbs s) db = Some d ->
  is_Some (a_dict (cur_db db (abs s)) !! k) <-> is_Some (db_dict d !! k).
Proof.
  intros I Hd. rewrite (cur_db_eq _ _ _ Hd), view_lookup. split.
  - intros [v Hv]. destruct (db_dict d !! k) as [a|] eqn:E; [by exists a|done].
  - intros [a Ha]. destruct (at_key_val _ _ _ _ s db k a I) as (o & _ & _ & Hv); [by exists d|].
    rewrite Ha. cbn. by exists (value_of o).
Qed.

(** Storing an object that has another owner, without counting the reference. *)
Lemma wp_store_owned N L R s j key k db a v r w :
  inv N L [] R s -> In (j, key, k) R -> 0 <= db < dbnum -> owned s L a v -> N + 1 < 2 ^ 31 -> found s db k r w ->
  wp (match r with None => dbAdd db key a | Some _ => dbOverwrite db key a end) s
    (fun _ s' => inv (N + 1) L [a] R s' /\ a_modify db (put k v) (abs s) = (tt, abs s') /\ args_kept s s' /\ sd s' = sd s).
Proof.
  intros I Hj Hdb Ho HN Hf. pose proof (inv_ghost _ _ _ _ _ _ _ I (owned_val _ _ _ _ _ _ _ I Ho) HN) as I1.
  destruct r as [b|], w as [w|]; try done.
  - destruct Hf as [(d & Hd & Hk) _].
    eapply wp_mono; [eapply (wp_dbOverwrite_local _ _ _ _ _ _ _ _ _ _ _ _ d b I1 Hj Hd Hk)|].
    + intros c. rewrite !occ_cons, !occ_nil. pose proof (owned_occ _ _ _ _ Ho). destruct (decide (c = a)) as [->|]; [right|by left].
      rewrite decide_True by done. split; [done|lia].
    + cbn beta. intros _ s' (I' & E' & K' & S' & _ & _). split_and!; try done. eapply inv_weaken; [done|].
      pose proof (inv_room _ _ _ _ _ I1). lia.
  - destruct Hf as (d & Hd & Hk). eapply wp_mono; [eapply (wp_dbAdd_local _ _ _ _ _ _ _ _ _ _ _ _ d I1 Hj Hd Hk)|].
    cbn beta. intros _ s' (I' & E' & K' & S' & _). by split_and!.
Qed.

Lemma sim_setKey N L R s j key k db a v :
  inv N L [] R s -> In (j, key, k) R -> 0 <= db < dbnum -> owned s L a v -> N + 1 < 2 ^ 31 ->
  sim (setKey db key a) (a_setKey db k v) s
    (fun _ _ s' => inv (N + 1) L [] R s' /\ args_kept s s' /\ cur (sd s') = cur (sd s) /\ a_dict (cur_db db (abs s')) !! k = Some v).
Proof.
  intros I Hj Hdb Ho HN. sim_next sim_lookupKeyWrite; [exact I|exact Hj|exact Hdb|]. intros r w s1 (I1 & K1 & C1 & F1).
  pose proof (owned_kept _ _ _ _ _ K1 Ho) as Ho1. destruct (inv_db _ _ _ _ _ _ I1 Hdb) as [d Hd].
  apply wp_bind. eapply wp_mono; [by eapply wp_store_owned|]. cbn beta. intros _ s2 (I2 & E2 & K2 & S2).
  apply wp_bind. eapply wp_mono; [by eapply wp_incr_stored|]. cbn beta. intros _ s3 (I3 & E3 & H3).
  destruct (inv_db _ _ _ _ _ _ I3 Hdb) as [d3 Hd3].
  apply wp_bind. eapply wp_mono; [eapply (wp_removeExpire _ _ _ _ _ _ _ _ _ d3 I3 Hj Hd3)|].
  { eapply (cur_db_is_Some _ _ _ _ _ db); [done..|]. rewrite E3, (cur_db_set _ _ _ _ _ Hd E2). cbn. rewrite lookup_insert_eq. eauto. }
  cbn beta. intros _ s4 (I4 & _ & E4 & K4 & S4). rewrite E3 in E4. pose proof (modify_twice _ _ _ _ _ _ _ Hd E2 E4) as E.
  eapply wp_mono; [by eapply sim_signal|]. cbn beta. unfold mbind at 1, Spec_bind. rewrite E.
  intros _ s5 Q5. destruct (a_log _ _) as [y t]. destruct Q5 as [-> (I5 & ->)]. split; [done|]. split_and!; [done| | |].
  - eapply args_kept_trans; [exact K1|]. eapply args_kept_trans; [exact K2|].
    eapply args_kept_trans; [by apply args_kept_step|]. by eapply args_kept_trans; [exact K4|apply args_kept_sd].
  - cbn. by rewrite S4, H3, <- C1, <- S2.
  - change (a_dict (cur_db db (abs s4)) !! k = Some v). rewrite (cur_db_set _ _ _ _ _ Hd E). cbn. apply lookup_insert_eq.
Qed.

(** A variable is stored under a key that a lookup has examined. *)
Lemma wp_store_local N L R s j key k db a v r w q :
  inv N ((a, v, q) :: L) [] R s -> In (j, key, k) R -> 0 <= db < dbnum -> found s db k r w ->
  wp (match r with None => dbAdd db key a | Some _ => dbOverwrite db key a end) s
    (fun _ s' => inv N L [] R s' /\ a_modify db (put k v) (abs s) = (tt, abs s') /\ args_kept s s' /\ sd s' = sd s /\
      at_key s' db k a /\ val_at (heap s') a = Some v).
Proof.
  intros I Hj Hdb Hf.
  assert (forall s', inv N L [] R s' -> a_modify db (put k v) (abs s) = (tt, abs s') -> at_key s' db k a -> val_at (heap s') a = Some v) as Hval.
  { intros s' I' E' (d' & Hd' & Hk'). destruct (inv_db _ _ _ _ _ _ I Hdb) as [d Hd].
    pose proof (cur_db_set _ _ _ _ _ Hd E') as E. rewrite (cur_db_eq _ _ _ Hd') in E.
    apply (f_equal (fun x => a_dict x !! k)) in E. rewrite view_lookup, Hk' in E. cbn in E. by rewrite lookup_insert_eq in E. }
  destruct r as [b|], w as [w|]; try done.
  - destruct Hf as [(d & Hd & Hk) _]. eapply wp_mono; [eapply (wp_dbOverwrite_local _ _ _ _ _ _ _ _ _ _ _ _ d b I Hj Hd Hk)|].
    + intros c. by left.
    + cbn beta. intros _ s' (I1 & E' & K' & S' & A' & _).
      assert (inv N L [] R s') as I' by (eapply inv_weaken; [done|]; pose proof (inv_room _ _ _ _ _ I); lia). split_and!; auto.
  - destruct Hf as (d & Hd & Hk). eapply wp_mono; [eapply (wp_dbAdd_local _ _ _ _ _ _ _ _ _ _ _ _ d I Hj Hd Hk)|].
    cbn beta. intros _ s' (I' & E' & K' & S' & A' & _). split_and!; auto.
Qed.

Lemma sim_checkType N L D R s a v :
  inv N L D R s -> val_at (heap s) a = Some v ->
  sim (checkType a REDIS_STRING) (a_checkType v) s
    (fun r r' s' => r = r' /\ inv N L D R s' /\ (exists b, s' = with_sd s (set_out (sd s) b)) /\
       (r = false -> s' = s /\ exists x, v = VStr x)).
Proof.
  intros I Hv. destruct (val_obj _ _ _ _ _ _ _ I Hv) as (o & Ho & Hok & Ex). apply wp_bind, (wp_load _ o); [done|].
  destruct v as [x|t p].
  - destruct (obj_string o x Hok Ex) as (-> & _). apply sim_ret. split_and!; [done|done|exists (out (sd s)); by destruct s as [? ? ? ? ? []]|eauto].
  - destruct (obj_other o t p Hok Ex) as (-> & Ht). rewrite (proj2 (Z.eqb_neq t REDIS_STRING)) by (unfold REDIS_STRING; lia).
    sim_next sim_addReply; [exact I|]. intros _ _ s1 (I1 & ->). apply sim_ret. split_and!; [done|done|eauto|done].
Qed.

(** *** A value that only its key owns *)

(** The object of a key, which has no other owner, is replaced in place. *)
Lemma inv_replace N L R s db k a o o' :
  inv N L [] R s -> at_key s db k a -> heap s !! a = Some o -> o_refcount o = 1 -> obj_ok o' -> o_refcount o' = 1 -> N + 2 < 2 ^ 31 ->
  let s' := with_heap s (<[a := o']> (heap s)) in
  inv N L [] R s' /\ a_modify db (put k (value_of o')) (abs s) = (tt, abs s').
Proof.
  intros I (d & Hd & Hk) Ho H1 Hok' H1' HN s'.
  destruct (inv_shared _ _ _ _ _ 0 I) as (i & _ & Hini & Hvi & _); [by unfold REDIS_SHARED_INTEGERS|].
  pose proof (roots_db s d k a (rd_In _ _ _ Hd) Hk) as Hroot.
  assert (a <> i) as Hne.
  { intros ->. destruct (inv_count _ _ _ _ _ _ _ I Ho) as (_ & Hc & _). rewrite occ_nil in Hc.
    apply occ_In in Hini. pose proof (in_dict_refs _ _ _ _ (rd_In _ _ _ Hd) Hk) as Hin%occ_In. unfold roots in Hc. rewrite !occ_app in Hc.
    pose proof (occ_nonneg i (held s)). pose proof (occ_nonneg i (argv s)). pose proof (occ_nonneg i L.*1.*1). lia. }
  pose proof (inv_ghost _ _ _ _ _ _ _ I Hvi ltac:(lia)) as I0.
  assert (val_at (heap s) a = Some (value_of o)) as Hva by (unfold val_at; by rewrite Ho).
  destruct (store_old _ _ _ _ _ _ _ _ _ _ _ _ _ I0 Hd Hk Hva) as [I1 E1]. set (t1 := with_dbs s _) in *.
  destruct (inv_free _ _ _ _ _ _ _ _ o I1) as [I2 E2]; [done|done|by rewrite occ_cons, decide_False|]. set (t2 := with_heap t1 _) in *.
  destruct (inv_alloc _ _ _ _ t2 a o' false I2) as [I3 E3]; [lia|apply lookup_delete_eq|done|done|done|]. set (t3 := with_heap t2 _) in *.
  assert (rd (dbs t3) db = Some (RedisDb (<[k := i]> (db_dict d)) (db_expires d))) as Hd3 by (by apply (rd_set_db s _ d)).
  destruct (store_old _ _ _ _ _ db _ k a (value_of o') false i (VStr (print 0)) I3 Hd3) as [I4 E4].
  { cbn. apply lookup_insert_eq. }
  { cbn. by rewrite val_insert_ne, val_delete_ne. }
  set (t4 := with_dbs t3 _) in *. assert (t4 = s') as E.
  { unfold t4, t3, t2, t1, s', with_heap, with_dbs. cbn. rewrite insert_insert_eq, list_insert_insert_eq, insert_delete_eq.
    rewrite (insert_id (db_dict d)) by done. apply rd_Some in Hd as [_ Hd]. rewrite list_insert_id; [done|]. rewrite Hd. by destruct d. }
  rewrite E in I4, E4. split.
  - apply inv_unghost in I4. by replace (N + 1 - 1 + 1 - 1) with N in I4 by lia.
  - pose proof (abs_rd s db) as Er. rewrite Hd in Er. rewrite E3, E2, E1, (a_modify_twice db _ _ _ _ Er) in E4. rewrite E4.
    rewrite !(a_modify_eq _ _ _ d Hd). cbn [snd]. do 3 f_equal. unfold put. cbn. by rewrite insert_insert_eq.
Qed.

Lemma wp_update_sds N L R s db k a x f y :
  inv N L [] R s -> sole_raw s db k a x -> N + 2 < 2 ^ 31 -> bytes_ok y -> zlen y <= STRING_MAX ->
  (forall b, rep b x -> exists b', f b = Some b' /\ rep b' y) ->
  wp (update_sds a f) s (fun _ s' => inv N L [] R s' /\ a_modify db (put k (VStr y)) (abs s) = (tt, abs s') /\ heap_step s s' /\
    sole_raw s' db k a y /\ a_argv (abs s') = a_argv (abs s)).
Proof.
  intros I (Ha & (o & b & Ho & Ht & He & H1 & Hp & Hr) & Hb & Hl) HN Hby Hly Hf. destruct (Hf b Hr) as (b' & E & Hr').
  apply wp_bind, (wp_load _ o); [done|]. unfold obj_sds. rewrite Hp. apply wp_bind, wp_ret, wp_bind, (wp_lift _ _ _ _ E).
  apply (wp_store _ o); [done|]. set (o' := set_ptr o (PSds b')).
  assert (value_of o' = VStr y) as Ev by (unfold value_of; cbn; by rewrite (rep_content _ _ Hr')).
  destruct (inv_replace N L R s db k a o o' I Ha Ho H1) as [I' E']; [|done|done|].
  { left. split_and!; [done|done|]. by exists b', y. }
  rewrite Ev in E'. split_and!; [done|done|done| |].
  - split_and!; [done| |done|done]. exists o', b'. split_and!; try done. cbn. by rewrite lookup_insert_eq.
  - destruct Ha as (d & Hd & _). rewrite (a_modify_eq _ _ _ d Hd) in E'. apply (f_equal snd) in E'. cbn [snd] in E'. by rewrite <- E'.
Qed.

(** dbUnshareStringValue(): the value stays the same and is owned by its key only. *)
Lemma wp_unshare N L R s j key k db a x :
  inv N L [] R s -> In (j, key, k) R -> 0 <= db < dbnum -> at_key s db k a -> val_at (heap s) a = Some (VStr x) -> N + 2 < 2 ^ 31 ->
  wp (dbUnshareStringValue db key a) s (fun a' s' => inv N L [] R s' /\ abs s' = abs s /\ args_kept s s' /\ sd s' = sd s /\ sole_raw s' db k a' x).
Proof.
  intros I Hj Hdb Ha Hv HN. destruct (val_obj _ _ _ _ _ _ _ I Hv) as (o & Ho & Hok & Ex).
  destruct (obj_string o x Hok Ex) as (Ht & Hc & Hb & Hl). apply wp_bind, (wp_load _ o); [done|].
  apply wp_bind, wp_assert; [by rewrite Ht|].
  destruct (negb (o_refcount o =? 1) || negb (o_encoding o =? REDIS_ENCODING_RAW)) eqn:Es.
  2:{ apply orb_false_iff in Es as [E1%negb_false_iff%Z.eqb_eq E2%negb_false_iff%Z.eqb_eq]. apply wp_ret. split_and!; try done.
    destruct Hc as [(_ & b & Hp & Hr)|(He & _)]; [split_and!; try done; by exists o, b|by rewrite He in E2]. }
  clear Es. apply wp_bind. eapply wp_mono; [eapply (wp_getDecoded _ _ _ _ _ a x I); [lia|done]|]. cbn beta.
  intros dec s1 (I1 & E1 & H1). destruct (inv_locals _ _ _ _ _ I1 dec (VStr x) true) as [_ Hr]; [by left|].
  destruct (Hr eq_refl) as (x' & [= <-] & o1 & b1 & Ho1 & _ & _ & Hp1 & Hr1 & _).
  apply wp_bind, (wp_load _ o1); [done|]. unfold obj_sds. rewrite Hp1. apply wp_bind, wp_ret, wp_bind.
  rewrite (rep_sdslen _ _ Hr1). destruct (rep_buffer _ _ Hr1) as [r Er].
  eapply wp_mono; [eapply (wp_createString _ _ _ _ _ (s_buf b1) x r I1); [lia|done|done|done]|]. cbn beta.
  intros a' s2 (I2 & E2 & H2 & Hfr & Hoth & Hraw). apply (inv_perm _ _ ((dec, VStr x, true) :: (a', VStr x, true) :: L)) in I2; [|constructor].
  apply wp_bind. eapply wp_mono; [eapply (wp_decr _ _ _ _ _ _ _ _ I2); by left|]. cbn beta. intros _ s3 (I3 & E3 & H3 & Hoth3).
  assert (fresh_raw s3 a' x) as Hraw3.
  { destruct Hraw as (o2 & b2 & Ho2 & Hrest). exists o2, b2. rewrite Hoth3; [done|]. intros ->. by rewrite Ho1 in Hfr. }
  destruct Ha as (d & Hd & Hk). assert (dbs s3 = dbs s) as Ed by (rewrite H3, H2, H1; done).
  apply wp_bind. eapply wp_mono; [eapply (wp_dbOverwrite_local _ _ _ _ s3 _ _ k db a' (VStr x) true d a I3 Hj); [by rewrite Ed|done|intros c; by left]|].
  cbn beta. intros _ s4 (I4 & E4 & K4 & S4 & Hat & Hoth4). apply wp_ret. pose proof (inv_room _ _ _ _ _ I) as Hroom.
  assert (abs s3 = abs s) as E30 by (by rewrite E3, E2, E1).
  assert (abs s4 = abs s) as E40.
  { rewrite E30, (a_modify_eq _ _ _ d Hd) in E4. apply (f_equal snd) in E4. cbn [snd] in E4. rewrite <- E4.
    assert (put k (VStr x) (view (heap s) d) = view (heap s) d) as ->.
    { unfold put, view. cbn. rewrite insert_id; [done|]. rewrite lookup_omap, Hk. done. }
    rewrite list_insert_id; [by destruct (abs s)|]. pose proof (abs_rd s db) as Er'. rewrite Hd in Er'. by apply rd_Some in Er' as [_ ?]. }
  assert (a' <> a) as Hne.
  { intros ->. assert (In a (roots s1)) as Hin by (rewrite H1; by eapply roots_db; [eapply rd_In|]).
    destruct (inv_In _ _ _ _ _ a I1) as [oa Hoa]; [apply in_app_iff; by left|]. by rewrite Hoa in Hfr. }
  split_and!; [eapply inv_weaken; [done|lia]|done| |by rewrite S4, H3, H2, H1|].
  - split; [|by rewrite E40]. destruct K4 as [-> _]. by rewrite H3, H2, H1.
  - split_and!; [done| |done|done]. destruct Hraw3 as (o3 & b3 & Ho3 & Hrest). exists o3, b3. by rewrite Hoth4.
Qed.

(** *** Steps of the simulations of commands *)

Lemma sim_assoc {A B C B'} (m : Cmd A) (f : A -> Cmd B) (g : B -> Cmd C) (am : Spec B') s Q :
  sim (m ≫= (fun x => f x ≫= g)) am s Q -> sim ((m ≫= f) ≫= g) am s Q.
Proof. unfold sim, wp, mbind, Cmd_bind. by destruct (m s) as [[x s']|]. Qed.

Lemma sim_assoc_r {A B C A'} (m : Cmd A') (am : Spec A) (f : A -> Spec B) (g : B -> Spec C) s Q :
  sim m (am ≫= (fun x => f x ≫= g)) s Q -> sim m ((am ≫= f) ≫= g) s Q.
Proof. unfold sim, mbind, Spec_bind. intros Hm. eapply wp_mono; [exact Hm|]. cbn beta. intros x s'. by destruct (am (abs s)). Qed.

Lemma sim_ret_l {A B B'} (x : A) (f : A -> Cmd B) (am : Spec B') s Q : sim (f x) am s Q -> sim (mret x ≫= f) am s Q.
Proof. done. Qed.

Lemma sim_db {A B} (f : Z -> Cmd A) (af : Z -> Spec B) s Q :
  sim (f (cur (sd s))) (af (cur (sd s))) s Q -> sim (c_db ≫= f) (a_db ≫= af) s Q.
Proof. done. Qed.

Lemma sim_arg_r {A B} (m : Cmd A) (af : list Z -> Spec B) s j x Q :
  a_argv (abs s) !! j = Some x -> sim m (af x) s Q -> sim m (a_arg j ≫= af) s Q.
Proof. intros Hx Hm. unfold a_arg. apply (sim_gets_r (fun t => default [] (a_argv t !! j))). by rewrite Hx. Qed.

Lemma sim_arg {A B} (f : addr -> Cmd A) (am : Spec B) s j a Q : argv s !! j = Some a -> sim (f a) am s Q -> sim (arg j ≫= f) am s Q.
Proof. intros Ha Hf. by apply wp_bind, (wp_arg _ _ _ _ Ha). Qed.

Lemma sim_argR {A B} N L D R (f : addr -> Cmd A) (am : Spec B) s j a k Q :
  inv N L D R s -> In (j, a, k) R -> sim (f a) am s Q -> sim (arg j ≫= f) am s Q.
Proof. intros I Hj. apply sim_arg. by destruct (inv_raw _ _ _ _ _ I j a k Hj). Qed.

Lemma sim_gets_l {A B B'} (g : server -> A) (f : A -> Cmd B) (am : Spec B') s Q : sim (f (g s)) am s Q -> sim (gets g ≫= f) am s Q.
Proof. done. Qed.

Lemma inv_cur_db N L D R s : inv N L D R s -> 0 <= cur (sd s) < dbnum.
Proof. intros I. by destruct (inv_cur _ _ _ _ _ I) as (_ & _ & ?). Qed.

(** The arguments of a command that starts. *)
Lemma ready_arg N s j : ready N s -> (j < length (argv s))%nat ->
  exists a x, In (j, a, x) (all_args s) /\ argv s !! j = Some a /\ a_argv (abs s) !! j = Some x /\ raw (heap s) a x.
Proof.
  intros I Hj. destruct (lookup_lt_is_Some_2 _ _ Hj) as [a Ha]. exists a, (text_at (heap s) a).
  assert (In (j, a, text_at (heap s) a) (all_args s)) as Hin.
  { apply list_elem_of_In, (list_elem_of_lookup_2 _ j). unfold all_args. by rewrite list_lookup_imap, Ha. }
  split_and!; [done|done| |].
  - unfold abs. cbn. by rewrite list_lookup_fmap, Ha.
  - by destruct (inv_raw _ _ _ _ _ I _ _ _ Hin).
Qed.

Lemma all_args_inv s j a k : In (j, a, k) (all_args s) -> argv s !! j = Some a /\ a_argv (abs s) !! j = Some k.
Proof.
  unfold all_args. intros Hin%list_elem_of_In%list_elem_of_lookup_1. destruct Hin as [i Hi].
  rewrite list_lookup_imap in Hi. destruct (argv s !! i) as [b|] eqn:E; [|done]. cbn in Hi. injection Hi as -> -> <-.
  split; [done|]. unfold abs. cbn. by rewrite list_lookup_fmap, E.
Qed.

Lemma raw_owned N L D R s j a k : inv N L D R s -> In (j, a, k) R -> owned s L a (VStr k).
Proof.
  intros I Hj. left. destruct (inv_raw _ _ _ _ _ I j a k Hj) as [Ha Hr]. exists j, k. split_and!; [done| |done].
  unfold abs. cbn. rewrite list_lookup_fmap, Ha. cbn. unfold text_at. by rewrite (raw_val _ _ _ Hr).
Qed.

Lemma raw_arg_val N L D R s j a k : inv N L D R s -> In (j, a, k) R -> val_at (heap s) a = Some (VStr k).
Proof. intros I Hj. destruct (inv_raw _ _ _ _ _ I j a k Hj) as [_ Hr]. by apply raw_val. Qed.

(** The argument to encode is replaced; the others stay raw. *)
Lemma sim_encode {A B} N R j x (f : unit -> Cmd A) (am : Spec B) s Q :
  inv N [] [] R s -> In (j, x) (map (fun t => (t.1.1, t.2)) R) -> N + 2 < 2 ^ 31 ->
  (forall s1 a, inv N [] [] (List.filter (fun t => negb (Nat.eqb t.1.1 j)) R) s1 -> abs s1 = abs s -> dbs s1 = dbs s -> sd s1 = sd s ->
     length (argv s1) = length (argv s) -> argv s1 !! j = Some a -> owned s1 [] a (VStr x) -> sim (f tt) am s1 Q) ->
  sim (encode_arg j ≫= f) am s Q.
Proof.
  intros I Hin HN Hk. apply in_map_iff in Hin as ([[j' b] x'] & [= -> ->] & Hin).
  destruct (inv_raw _ _ _ _ _ I _ _ _ Hin) as [Hb Hrb]. set (R' := List.filter _ R) in *.
  assert (inv N [] [] R' s) as I'.
  { eapply inv_drop; [done|]. unfold R'. intros y Hy. by apply List.filter_In in Hy as [? _]. }
  assert (a_argv (abs s) !! j = Some x) as Hx.
  { unfold abs. cbn. rewrite list_lookup_fmap, Hb. cbn. unfold text_at. by rewrite (raw_val _ _ _ Hrb). }
  apply sim_step. eapply wp_mono; [eapply (wp_encode_arg N [] R' s j b x I' Hb Hx); [|done]|].
  { intros j' a' k' Hy. unfold R' in Hy. apply List.filter_In in Hy as [_ Hy]. cbn in Hy. apply negb_true_iff, Nat.eqb_neq in Hy. done. }
  cbn beta. intros [] s1 (I1 & E1 & D1 & S1 & L1). split; [done|].
  destruct (lookup_lt_is_Some_2 (argv s1) j) as [a Ha]; [rewrite L1; by eapply lookup_lt_Some|].
  apply (Hk s1 a); try done. left. exists j, x. split_and!; [done|by rewrite E1|done].
Qed.

Lemma in_filter_arg (R : list (nat * addr * list Z)) j j' a k : In (j', a, k) R -> j' <> j ->
  In (j', a, k) (List.filter (fun t => negb (Nat.eqb t.1.1 j)) R).
Proof. intros Hin Hne. apply List.filter_In. split; [done|]. cbn. by apply negb_true_iff, Nat.eqb_neq. Qed.

Lemma in_arg_text (R : list (nat * addr * list Z)) j a k : In (j, a, k) R -> In (j, k) (map (fun t => (t.1.1, t.2)) R).
Proof. intros Hin. apply in_map_iff. by exists (j, a, k). Qed.

Lemma sim_readOrReply {A B} N L R s j key k reply (f : option addr -> Cmd A) (af : option value -> Spec B) Q :
  inv N L [] R s -> In (j, key, k) R ->
  (forall s1, inv N L [] R s1 -> args_kept s s1 -> cur (sd s1) = cur (sd s) -> found s1 (cur (sd s)) k None None ->
     sim (_ ← addReply reply; f None) (af None) s1 Q) ->
  (forall s1 a v, inv N L [] R s1 -> args_kept s s1 -> cur (sd s1) = cur (sd s) -> at_key s1 (cur (sd s)) k a -> val_at (heap s1) a = Some v ->
     sim (f (Some a)) (af (Some v)) s1 Q) ->
  sim (lookupKeyReadOrReply key reply ≫= f) (db ← a_db; v ← a_lookupRead db k; af v) s Q.
Proof.
  intros I Hj HN HS. apply sim_assoc, sim_db, sim_assoc. pose proof (inv_cur_db _ _ _ _ _ I) as Hc.
  sim_next sim_lookupKeyRead; [exact I|exact Hj|exact Hc|]. intros r v s1 (I1 & K1 & C1 & F1).
  destruct r as [a|], v as [v|]; try done.
  - destruct F1. apply sim_ret_l. by apply HS.
  - apply sim_assoc. exact (HN s1 I1 K1 C1 F1).
Qed.

Lemma done_inv N B R s s' M u u' : inv M [] [] R s' -> M <= N + B < 2 ^ 31 -> done_with N s B u u' s'.
Proof. intros I HM. eapply inv_drop; [by eapply inv_weaken|done]. Qed.

End DbFacts.
