(* ===== verification/CommandFacts.v ===== *)
(** * Commands: what their proofs share

    The arguments of a command, its replies, the test of the type of a value and the strings
    that it changes in place. *)

From Stdlib Require Import Ascii String.
From S2P Require Import Prelude Util Sds Server ServerFacts ObjFacts Db DbFacts Tstring.
Import SdsSpec SdsFacts QuoteFacts.

(** The room that a command needs for its references. *)
Definition fits `{ServerEnv} (N : Z) (s : server) (n : nat) : Prop := ready N s /\ N + zlen (argv s) + 8 < 2 ^ 31 /\ (n <= length (argv s))%nat.

Abbreviation finished N s := (done_with N s (zlen (argv s) + 8)).

Section CommandFacts.
Context `{ServerEnv}.

Lemma sim_incr_dirty N L D R s n :
  inv N L D R s -> sim (incr_dirty n) (a_dirty n) s (fun _ _ s' => inv N L D R s' /\ s' = with_sd s (set_dirty (sd s) (swrap 64 (dirty (sd s) + n)))).
Proof. intros I. by apply sim_modify_side. Qed.

Lemma fits_arg N s n j : fits N s n -> (j < n)%nat ->
  exists a x, In (j, a, x) (all_args s) /\ argv s !! j = Some a /\ a_argv (abs s) !! j = Some x /\ raw (heap s) a x.
Proof. intros (I & _ & Hl) Hj. apply (ready_arg N); [done|lia]. Qed.

Lemma kept_arg s s' j x : args_kept s s' -> a_argv (abs s) !! j = Some x -> a_argv (abs s') !! j = Some x.
Proof. by intros [_ ->]. Qed.

Lemma zlen_args s : zlen (a_argv (abs s)) = zlen (argv s).
Proof. unfold abs, zlen. cbn. by rewrite length_fmap. Qed.

Lemma room_nonneg N L D R s : inv N L D R s -> 0 <= N.
Proof. intros I. pose proof (inv_room _ _ _ _ _ I). pose proof (zlen_nonneg (roots s ++ L.*1.*1)). lia. Qed.

Lemma args_pairs N s n : ready N s ->
  Forall2 (fun a x => exists j, (n <= j)%nat /\ In (j, a, x) (all_args s)) (drop n (argv s)) (drop n (a_argv (abs s))).
Proof.
  intros I. apply Forall2_same_length_lookup. split; [by rewrite !length_drop; unfold abs; cbn; rewrite length_fmap|].
  intros i a x Ha Hx. rewrite lookup_drop in Ha. rewrite (lookup_drop (a_argv (abs s))) in Hx. exists (n + i)%nat. split; [lia|].
  destruct (ready_arg N s (n + i) I) as (a' & x' & Hj & Ha' & Hx' & _); [by apply lookup_lt_is_Some; eexists|].
  rewrite Ha in Ha'. rewrite Hx in Hx'. by injection Ha' as <-; injection Hx' as <-.
Qed.

Lemma arg_of_text N s j k : ready N s -> a_argv (abs s) !! j = Some k -> exists a, In (j, a, k) (all_args s).
Proof.
  intros I Hk. destruct (ready_arg N s j I) as (a & x & Hj & _ & Hx & _).
  - apply lookup_lt_Some in Hk. unfold abs in Hk. cbn in Hk. by rewrite length_fmap in Hk.
  - exists a. rewrite Hk in Hx. by injection Hx as ->.
Qed.

(** The sds of an argument. *)
Lemma sim_arg_sds {A B} N L D R (f : sds -> Cmd A) (am : Spec B) s j a x Q :
  inv N L D R s -> In (j, a, x) R -> (forall b, rep b x -> sim (f b) am s Q) -> sim (arg_sds j ≫= f) am s Q.
Proof.
  intros I Hj Hf. destruct (inv_raw _ _ _ _ _ I j a x Hj) as (Ha & o & b & Ho & _ & _ & Hp & Hb & _).
  unfold arg_sds. apply sim_assoc. eapply sim_arg; [exact Ha|]. apply sim_assoc.
  eapply sim_step, (wp_load _ o); [done|]. split; [done|]. unfold obj_sds. rewrite Hp. apply sim_ret_l. by apply Hf.
Qed.

(** The test of the type of a value. *)
Lemma sim_typed {A B} N L D R s a v (f : bool -> Cmd A) (am : Spec B) Q :
  inv N L D R s -> val_at (heap s) a = Some v ->
  (forall x, v = VStr x -> sim (f false) am s Q) ->
  (forall t p, v = VOther t p -> sim (_ ← addReply shared_wrongtypeerr; f true) am s Q) ->
  sim (checkType a REDIS_STRING ≫= f) am s Q.
Proof.
  intros I Hv Hs Ho. destruct (val_obj _ _ _ _ _ _ _ I Hv) as (o & Hoa & Hok & Hov).
  unfold checkType. apply sim_assoc. eapply sim_step, (wp_load _ o); [done|]. split; [done|]. destruct v as [x|t p].
  - destruct (obj_string _ _ Hok Hov) as (-> & _). change (negb _) with false. cbn iota. apply sim_ret_l. by eapply Hs.
  - destruct (obj_other _ _ _ Hok Hov) as [-> Ht]. unfold REDIS_STRING. destruct (Z.eqb_spec t 0); [lia|]. cbn [negb].
    apply sim_assoc. by eapply Ho.
Qed.

(** A reply and the end. *)
Lemma sim_reply_done N B R s s0 M b :
  inv M [] [] R s -> M <= N + B < 2 ^ 31 -> sim (addReply b) (a_reply b) s (done_with N s0 B).
Proof. intros I HN. eapply sim_mono; [by eapply sim_addReply|]. intros ? ? s1 (I1 & _). by eapply done_inv. Qed.

Lemma sim_reply_ret N B R s s0 M b :
  inv M [] [] R s -> M <= N + B < 2 ^ 31 -> sim (_ ← addReply b; mret tt) (a_reply b) s (done_with N s0 B).
Proof. exact (sim_reply_done N B R s s0 M b). Qed.

Lemma sim_int_done N B R s s0 M v :
  inv M [] [] R s -> M <= N + B < 2 ^ 31 -> in_s 64 v -> sim (addReplyLongLong v) (a_reply (r_int v)) s (done_with N s0 B).
Proof. intros I HN Hv. eapply sim_mono; [by eapply sim_addReplyLongLong|]. intros ? ? s1 (I1 & _). by eapply done_inv. Qed.

Lemma sim_int_ret N B R s s0 M v :
  inv M [] [] R s -> M <= N + B < 2 ^ 31 -> in_s 64 v ->
  sim (_ ← addReplyLongLong v; mret tt) (a_reply (r_int v)) s (done_with N s0 B).
Proof. intros I HN Hv. apply wp_bind. by eapply (sim_int_done N B R s s0 M). Qed.

Lemma val_len N L D R s a x : inv N L D R s -> val_at (heap s) a = Some (VStr x) -> bytes_ok x /\ 0 <= zlen x <= STRING_MAX.
Proof.
  intros I Hv. destruct (val_obj _ _ _ _ _ _ _ I Hv) as (o & _ & Hok & Hov). pose proof (zlen_nonneg x).
  destruct (obj_string _ _ Hok Hov) as (_ & _ & ? & ?). done.
Qed.

Lemma len_fits x : 0 <= x <= STRING_MAX -> in_s 64 x /\ swrap 64 x = x.
Proof. intros Hx. assert (in_s 64 x) as Hi by (unfold STRING_MAX, in_s in *; lia). split; [done|]. by apply swrap_small. Qed.

(** The lengths of two strings add up without wrapping. *)
Lemma length_sum a b : 0 <= a <= STRING_MAX -> 0 <= b <= STRING_MAX -> swrap 64 (uwrap 64 (a + b)) = a + b.
Proof. unfold STRING_MAX. intros Ha Hb. apply swrap_of_unsigned; [done|]. unfold in_s. lia. Qed.

Lemma swrap_any n : in_s 64 (swrap 64 n).
Proof. by apply swrap_range. Qed.

Lemma bytes_ok_app x y : bytes_ok x -> bytes_ok y -> bytes_ok (x ++ y).
Proof. apply Forall_app_2. Qed.

(** A step that the rest of the specification does not see. *)
Lemma sim_step_eq {A B B'} (m : Cmd A) (am : Spec B') (f : A -> Cmd B) s (P : A -> server -> Prop) Q :
  wp m s P -> (forall x s', P x s' -> am (abs s') = am (abs s) /\ sim (f x) am s' Q) -> sim (m ≫= f) am s Q.
Proof.
  intros Hm HP. apply wp_bind. eapply wp_mono; [exact Hm|]. intros x s' [E Hs]%HP. unfold sim in Hs. by rewrite E in Hs.
Qed.

Lemma sim_multi N L D R s v : inv N L D R s -> in_s 64 v ->
  sim (addReplyMultiBulkLen v) (a_reply (r_num ch_star v)) s (fun _ _ s' => inv N L D R s' /\ args_kept s s').
Proof.
  intros I Hv. apply wp_num; [done|]. split; [done|]. split; [by apply inv_side|]. apply args_kept_sd.
Qed.

Lemma a_modify_ext db f g t : (forall d, f d = g d) -> a_modify db f t = a_modify db g t.
Proof. intros E. unfold a_modify, mbind, Spec_bind, a_get, a_gets. by rewrite E. Qed.

Lemma sim_setExpire N L D R s j key k db w :
  inv N L D R s -> In (j, key, k) R -> 0 <= db < dbnum -> is_Some (a_dict (cur_db db (abs s)) !! k) -> in_s 64 w ->
  sim (setExpire db key w) (a_modify db (expire_at k w)) s (fun _ _ s' => inv N L D R s' /\ args_kept s s' /\ sd s' = sd s).
Proof.
  intros I Hj Hdb Hk Hw. destruct (inv_db _ _ _ _ _ _ I Hdb) as [d Hd]. apply (cur_db_is_Some _ _ _ _ _ _ _ _ I Hd) in Hk.
  eapply wp_mono; [by eapply wp_setExpire|]. cbn beta. intros _ s1 (I1 & -> & K1 & S1). by split_and!.
Qed.

Lemma sim_store_local N L R s j key k db a v r w q :
  inv N ((a, v, q) :: L) [] R s -> In (j, key, k) R -> 0 <= db < dbnum -> found s db k r w ->
  sim (match r with None => dbAdd db key a | Some _ => dbOverwrite db key a end) (a_modify db (put k v)) s
    (fun _ _ s' => inv N L [] R s' /\ args_kept s s' /\ sd s' = sd s /\ at_key s' db k a /\ val_at (heap s') a = Some v).
Proof.
  intros I Hj Hdb Hf. eapply wp_mono; [by eapply wp_store_local|]. cbn beta. intros _ s' (I' & -> & ?). by split.
Qed.

(** A number as the text of its object. *)
Lemma sim_reply_obj N L D R s a v :
  inv N L D R s -> val_at (heap s) a = Some (VStr (print v)) -> N + 1 < 2 ^ 31 ->
  sim (_ ← addReply (str ":"); _ ← addReplyObj a; addReply crlf) (a_reply (r_int v)) s (fun _ _ s' => inv (N + 1) L D R s').
Proof.
  intros I Hv HN. apply wp_bind. set (s1 := with_sd s (set_out (sd s) (sent (out (sd s)) (str ":")))).
  change (wp (_ ← addReplyObj a; addReply crlf) s1 (fun _ s' => let '(_, t) := a_reply (r_int v) (abs s) in t = abs s' /\ inv (N + 1) L D R s')).
  apply wp_bind. eapply wp_mono; [eapply (wp_addReplyObj N L D R s1 a); [by apply inv_side|exact Hv|done]|]. cbn beta.
  intros _ s2 (I2 & E2 & D2 & K2 & S2). unfold wp, addReply, modify_side, modify. cbn [a_reply a_side].
  split; [|by apply inv_side].
  change (snd (a_reply (r_int v) (abs s)) = AServer (a_dbs (abs s2)) (a_argv (abs s2)) (set_out (sd s2) (sent (out (sd s2)) crlf))).
  rewrite E2, S2. cbn. unfold r_int, r_num. by rewrite !sent_app, <- !app_assoc.
Qed.

Lemma wp_string_view N L D R s a x (Q : list Z * Z -> server -> Prop) :
  inv N L D R s -> val_at (heap s) a = Some (VStr x) -> (forall r, Q (x ++ r, zlen x) s) -> wp (string_view a) s Q.
Proof.
  intros I Hv HQ. destruct (val_obj _ _ _ _ _ _ _ I Hv) as (o & Ho & Hok & Ex).
  destruct (obj_string o x Hok Ex) as (_ & Hc & _). apply wp_bind, (wp_load _ o); [done|].
  destruct Hc as [(-> & b & Hp & Hr)|(-> & v & Hp & Hi & ->)].
  - change (REDIS_ENCODING_RAW =? REDIS_ENCODING_INT) with false. cbn iota. unfold obj_sds. rewrite Hp. apply wp_bind, wp_ret, wp_ret.
    rewrite (rep_sdslen _ _ Hr). destruct (rep_buffer _ _ Hr) as [r ->]. apply HQ.
  - change (REDIS_ENCODING_INT =? REDIS_ENCODING_INT) with true. cbn iota. unfold obj_long. rewrite Hp. apply wp_bind, wp_ret.
    destruct (ll2string_print 32 v Hi) as (r & E); [lia|]. eapply wp_lift; [exact E|]. apply HQ.
Qed.

Lemma sim_update_sds N L R s db k a x f y :
  inv N L [] R s -> sole_raw s db k a x -> N + 2 < 2 ^ 31 -> bytes_ok y -> zlen y <= STRING_MAX ->
  (forall b, rep b x -> exists b', f b = Some b' /\ rep b' y) ->
  sim (update_sds a f) (a_modify db (put k (VStr y))) s (fun _ _ s' => inv N L [] R s' /\ sole_raw s' db k a y).
Proof.
  intros I Hs HN Hb Hl Hf. eapply wp_mono; [by eapply wp_update_sds|]. cbn beta. intros _ s' (I' & -> & _ & Hs' & _). done.
Qed.

(** The length of a string that has just been written. *)
Lemma sim_sole_len {A B} s db k a x (f : robject -> Cmd A) (am : Spec B) Q :
  sole_raw s db k a x -> (forall o b, o_ptr o = PSds b -> sdslen b = zlen x -> sim (f o) am s Q) ->
  sim (load a ≫= f) am s Q.
Proof.
  intros (_ & (o & b & Ho & _ & _ & _ & Hp & Hb) & _) Hf. eapply sim_step, (wp_load _ o); [done|]. split; [done|].
  eapply Hf; [done|]. by apply rep_sdslen.
Qed.

End CommandFacts.

(** The arguments of a command, in order: [a0], [x0], ... *)
Ltac use_arg F j a x Hin Hx :=
  let Ha := fresh "Ha" in let Hr := fresh "Hr" in
  destruct (fits_arg _ _ _ j F) as (a & x & Hin & Ha & Hx & Hr); [lia|].
