(* ===== verification/TstringThms.v ===== *)
(** * The commands on strings implement operations on a map of values *)

From Stdlib Require Import Ascii String.
From S2P Require Import Prelude Util Sds Server ServerFacts ObjFacts Db DbFacts Tstring CommandFacts.
Import SdsSpec SdsFacts QuoteFacts.

(** ** Specification

    Each command on the abstract state: no objects, no encodings, no reference counts and no
    buffers.  The tests on sizes and the overflows are stated on the integers. *)

Section Spec.
Context `{ServerEnv}.

(** An option of a command, in any case. *)
Definition is_word (x : list Z) (w : string) : bool := bool_decide (map tolower (cstring x) = str w).

(** The options of SET: flags, unit and expire, or a syntax error. *)
Fixpoint a_set_options (args : list (list Z)) (flags unit_ : Z) (expire : option (list Z))
    : option (Z * Z * option (list Z)) :=
  match args with
  | [] => Some (flags, unit_, expire)
  | a :: rest =>
      if is_word a "nx" then a_set_options rest (Z.lor flags REDIS_SET_NX) unit_ expire
      else if is_word a "xx" then a_set_options rest (Z.lor flags REDIS_SET_XX) unit_ expire
      else match rest with
           | next :: rest' =>
               if is_word a "ex" then a_set_options rest' flags UNIT_SECONDS (Some next)
               else if is_word a "px" then a_set_options rest' flags UNIT_MILLISECONDS (Some next)
               else None
           | [] => None
           end
  end.

(** The time to live, in milliseconds; the conversion of seconds wraps. *)
Definition a_ttl (expire : option (list Z)) (unit_ : Z) : Spec (option Z) :=
  match expire with
  | None => mret (Some 0)
  | Some e =>
      r ← a_parse e not_an_integer;
      match r with
      | None => mret None
      | Some ms =>
          if ms <=? 0 then _ ← a_reply (r_error "invalid expire time in SETEX"); mret None
          else mret (Some (if unit_ =? UNIT_SECONDS then swrap 64 (ms * 1000) else ms))
      end
  end.

Definition a_setGeneric (flags : Z) (k v : list Z) (expire : option (list Z)) (unit_ : Z) (ok abort : list Z) : Spec unit :=
  ms ← a_ttl expire unit_;
  match ms with
  | None => mret tt
  | Some ms =>
      db ← a_db;
      stop ← (if flag flags REDIS_SET_NX then o ← a_lookupWrite db k; mret (bool_decide (is_Some o)) else mret false);
      stop ← (if stop : bool then mret true
              else if flag flags REDIS_SET_XX then o ← a_lookupWrite db k; mret (bool_decide (o = None)) else mret false);
      if stop : bool then a_reply abort
      else
        _ ← a_setKey db k (VStr v);
        _ ← a_dirty 1;
        _ ← (match expire with
             | Some _ => now ← a_mstime; a_modify db (expire_at k (swrap 64 (now + ms)))
             | None => mret tt
             end);
        _ ← a_log (Notify REDIS_NOTIFY_STRING "set" k db);
        _ ← (match expire with Some _ => a_log (Notify REDIS_NOTIFY_GENERIC "expire" k db) | None => mret tt end);
        a_reply ok
  end.

Definition spec_set : Spec unit :=
  k ← a_arg 1;
  v ← a_arg 2;
  args ← a_gets (fun t => drop 3 (a_argv t));
  match a_set_options args REDIS_SET_NO_FLAGS UNIT_SECONDS None with
  | None => a_reply shared_syntaxerr
  | Some (flags, unit_, expire) => a_setGeneric flags k v expire unit_ shared_ok shared_nullbulk
  end.

Definition spec_setnx : Spec unit :=
  k ← a_arg 1; v ← a_arg 2; a_setGeneric REDIS_SET_NX k v None 0 shared_cone shared_czero.

Definition spec_setex (unit_ : Z) : Spec unit :=
  k ← a_arg 1; e ← a_arg 2; v ← a_arg 3;
  a_setGeneric REDIS_SET_NO_FLAGS k v (Some e) unit_ shared_ok shared_nullbulk.

(** The value of a key as a reply; the flag tells that the key has no other type. *)
Definition a_getGeneric (k : list Z) : Spec bool :=
  db ← a_db;
  v ← a_lookupRead db k;
  match v with
  | None => _ ← a_reply shared_nullbulk; mret true
  | Some (VStr x) => _ ← a_reply (r_bulk x); mret true
  | Some (VOther _ _) => _ ← a_reply shared_wrongtypeerr; mret false
  end.

Definition spec_get : Spec unit := k ← a_arg 1; _ ← a_getGeneric k; mret tt.

Definition spec_getset : Spec unit :=
  k ← a_arg 1;
  v ← a_arg 2;
  ok ← a_getGeneric k;
  if negb ok then mret tt else
  db ← a_db;
  _ ← a_setKey db k (VStr v);
  _ ← a_log (Notify REDIS_NOTIFY_STRING "set" k db);
  a_dirty 1.

(** [y] written over [x] from [offset] on, with zeroes in between. *)
Definition overwrite (x : list Z) (offset : Z) (y : list Z) : list Z :=
  let n := Z.to_nat offset in
  take n x ++ replicate (n - length x) 0 ++ y ++ drop (n + length y) x.

Definition too_long : string := "string exceeds maximum allowed size (512MB)".

Definition spec_setrange : Spec unit :=
  k ← a_arg 1;
  off ← a_arg 2;
  y ← a_arg 3;
  r ← a_parse off not_an_integer;
  match r with
  | None => mret tt
  | Some offset =>
      if offset <? 0 then a_reply (r_error "offset is out of range") else
      db ← a_db;
      v ← a_lookupWrite db k;
      match v with
      | Some (VOther _ _) => a_reply shared_wrongtypeerr
      | _ =>
          let x := text_or_empty v in
          if bool_decide (y = []) then a_reply (r_int (zlen x))
          else if offset + zlen y >? STRING_MAX then a_reply (r_error too_long)
          else
            let z := overwrite x offset y in
            _ ← a_modify db (put k (VStr z));
            _ ← a_log (Modified db k);
            _ ← a_log (Notify REDIS_NOTIFY_STRING "setrange" k db);
            _ ← a_dirty 1;
            a_reply (r_int (zlen z))
      end
  end.

(** The part of a string between two indexes, both included; negative indexes count from
    the end. *)
Definition substring (x : list Z) (start end_ : Z) : list Z :=
  let len := zlen x in
  let from i := Z.max 0 (if i <? 0 then len + i else i) in
  let a := from start in
  let b := Z.min (from end_) (len - 1) in
  take (Z.to_nat (b - a + 1)) (drop (Z.to_nat a) x).

Definition spec_getrange : Spec unit :=
  k ← a_arg 1;
  s ← a_arg 2;
  e ← a_arg 3;
  r ← a_parse s not_an_integer;
  match r with
  | None => mret tt
  | Some start =>
      r ← a_parse e not_an_integer;
      match r with
      | None => mret tt
      | Some end_ =>
          db ← a_db;
          v ← a_lookupRead db k;
          match v with
          | None => a_reply shared_emptybulk
          | Some (VStr x) => a_reply (r_bulk (substring x start end_))
          | Some (VOther _ _) => a_reply shared_wrongtypeerr
          end
      end
  end.

Fixpoint a_mget (keys : list (list Z)) : Spec unit :=
  match keys with
  | [] => mret tt
  | k :: keys =>
      db ← a_db;
      v ← a_lookupRead db k;
      _ ← a_reply (match v with Some (VStr x) => r_bulk x | _ => shared_nullbulk end);
      a_mget keys
  end.

Definition spec_mget : Spec unit :=
  l ← a_gets a_argv; _ ← a_reply (r_num ch_star (zlen l - 1)); a_mget (drop 1 l).

(** The keys and values after the name of the command. *)
Fixpoint pairs (l : list (list Z)) : list (list Z * list Z) :=
  match l with k :: v :: l => (k, v) :: pairs l | _ => [] end.

(** Whether one of the keys exists; all of them are looked up. *)
Fixpoint a_busy (l : list (list Z * list Z)) : Spec bool :=
  match l with
  | [] => mret false
  | (k, _) :: l => db ← a_db; o ← a_lookupWrite db k; b ← a_busy l; mret (bool_decide (is_Some o) || b)
  end.

Fixpoint a_mset (l : list (list Z * list Z)) : Spec unit :=
  match l with
  | [] => mret tt
  | (k, v) :: l =>
      db ← a_db;
      _ ← a_setKey db k (VStr v);
      _ ← a_log (Notify REDIS_NOTIFY_STRING "set" k db);
      a_mset l
  end.

Definition spec_mset (nx : bool) : Spec unit :=
  l ← a_gets a_argv;
  if Nat.even (length l) then a_reply (r_error "wrong number of arguments for MSET") else
  let kvs := pairs (drop 1 l) in
  busy ← (if nx then a_busy kvs else mret false);
  if busy : bool then a_reply shared_czero else
  _ ← a_mset kvs;
  _ ← a_dirty (Z.of_nat (length kvs));
  a_reply (if nx then shared_cone else shared_ok).

(** Counters: the sum must be a 64-bit integer. *)
Definition a_incr (k : list Z) (incr : Z) : Spec unit :=
  db ← a_db;
  v ← a_lookupWrite db k;
  match v with
  | Some (VOther _ _) => a_reply shared_wrongtypeerr
  | _ =>
      r ← a_parse (text_or_empty v) not_an_integer;
      match r with
      | None => mret tt
      | Some old =>
          let new := old + incr in
          if (new <? LLONG_MIN) || (LLONG_MAX <? new) then a_reply (r_error "increment or decrement would overflow")
          else
            _ ← a_modify db (put k (VStr (print new)));
            _ ← a_log (Modified db k);
            _ ← a_log (Notify REDIS_NOTIFY_STRING "incrby" k db);
            _ ← a_dirty 1;
            a_reply (r_int new)
      end
  end.

(** [change] is the change of the counter for the argument. *)
Definition spec_incrby (change : Z -> Z) : Spec unit :=
  k ← a_arg 1;
  x ← a_arg 2;
  r ← a_parse x not_an_integer;
  match r with None => mret tt | Some n => a_incr k (change n) end.

Definition spec_append : Spec unit :=
  k ← a_arg 1;
  y ← a_arg 2;
  db ← a_db;
  v ← a_lookupWrite db k;
  match v with
  | Some (VOther _ _) => a_reply shared_wrongtypeerr
  | _ =>
      let z := text_or_empty v ++ y in
      if zlen z >? STRING_MAX then a_reply (r_error too_long)
      else
        _ ← a_modify db (put k (VStr z));
        _ ← a_log (Modified db k);
        _ ← a_log (Notify REDIS_NOTIFY_STRING "append" k db);
        _ ← a_dirty 1;
        a_reply (r_int (zlen z))
  end.

Definition spec_strlen : Spec unit :=
  k ← a_arg 1;
  db ← a_db;
  v ← a_lookupRead db k;
  match v with
  | None => a_reply shared_czero
  | Some (VStr x) => a_reply (r_int (zlen x))
  | Some (VOther _ _) => a_reply shared_wrongtypeerr
  end.

End Spec.

(** ** Lemmas: the commands *)

Section Commands.
Context `{ServerEnv}.

(** *** SET and its variants *)

Lemma sim_ttl N L D R s expire e unit_ :
  inv N L D R s ->
  match expire, e with Some a, Some x => val_at (heap s) a = Some (VStr x) | None, None => True | _, _ => False end ->
  sim (match expire with
       | None => mret (Some 0)
       | Some e =>
           r ← getLongLongFromObjectOrReply (Some e) None;
           match r with
           | None => mret None
           | Some ms =>
               if ms <=? 0 then _ ← addReplyError "invalid expire time in SETEX"; mret None
               else mret (Some (if unit_ =? UNIT_SECONDS then swrap 64 (ms * 1000) else ms))
           end
       end) (a_ttl e unit_) s
    (fun r r' s' => r = r' /\ inv N L D R s' /\ (r <> None -> s' = s)).
Proof.
  intros I He. destruct expire as [a|], e as [x|]; try done; try by apply sim_ret.
  sim_next sim_parse; [exact I|exact He|]. intros r _ s1 (<- & I1 & _ & _ & Hs). destruct r as [ms|]; [|by apply sim_ret].
  destruct (Hs ms eq_refl) as [_ ->]. destruct (ms <=? 0); [|by apply sim_ret].
  sim_next sim_addReply; [exact I|]. intros _ _ s2 (I2 & _). by apply sim_ret.
Qed.

Lemma sim_setGeneric N0 N B R s s0 j key k a v expire e unit_ flags ok abort :
  inv N [] [] R s -> In (j, key, k) R -> owned s [] a (VStr v) ->
  match expire, e with Some a, Some x => val_at (heap s) a = Some (VStr x) | None, None => True | _, _ => False end ->
  N + 1 <= N0 + B < 2 ^ 31 ->
  sim (setGenericCommand flags key a expire unit_ ok abort)
    (a_setGeneric flags k v e unit_ (default shared_ok ok) (default shared_nullbulk abort)) s (done_with N0 s0 B).
Proof.
  intros I Hj Ho He HN. sim_next sim_ttl; [exact I|exact He|]. intros r _ s1 (<- & I1 & Hs1).
  destruct r as [ms|]; [|apply sim_ret; eapply done_inv; [done|lia]]. rewrite (Hs1 ltac:(done)). clear s1 I1 Hs1.
  apply sim_db. pose proof (inv_cur_db _ _ _ _ _ I) as Hc. set (db := cur (sd s)) in *.
  eapply sim_bind, (sim_mono _ _ _ (fun r r' s' => r = r' /\ inv N [] [] R s' /\ args_kept s s')).
  { destruct (flag flags REDIS_SET_NX); [|by apply sim_ret]. sim_next sim_lookupKeyWrite; [exact I|exact Hj|exact Hc|].
    intros o w s1 (I1 & K1 & _ & F1). apply sim_ret. split_and!; [|done|done]. by destruct o, w. }
  cbn beta. intros b1 _ s1 (<- & I1 & K1).
  eapply sim_bind, (sim_mono _ _ _ (fun r r' s' => r = r' /\ inv N [] [] R s' /\ args_kept s s')).
  { destruct b1; [by apply sim_ret|]. destruct (flag flags REDIS_SET_XX); [|by apply sim_ret].
    sim_next sim_lookupKeyWrite; [exact I1|exact Hj|exact Hc|].
    intros o w s2 (I2 & K2 & _ & F2). apply sim_ret. split_and!; [|done|by eapply args_kept_trans]. by destruct o, w. }
  cbn beta. intros b2 _ s2 (<- & I2 & K2). destruct b2.
  { eapply sim_mono; [by eapply sim_addReply|]. cbn beta. intros ? ? s3 (I3 & _). eapply done_inv; [exact I3|lia]. }
  sim_next sim_setKey; [exact I2|exact Hj|exact Hc|by eapply owned_kept|lia|]. intros _ _ s3 (I3 & K3 & C3 & V3).
  sim_next sim_incr_dirty; [exact I3|]. intros _ _ s4 (I4 & E4).
  assert (a_dict (cur_db db (abs s4)) !! k = Some (VStr v)) as V4 by (rewrite E4; exact V3). clear V3 E4.
  eapply sim_bind, (sim_mono _ _ _ (fun _ _ s' => inv (N + 1) [] [] R s')).
  { destruct expire as [x|], e as [y|]; try done; try by apply sim_ret.
    sim_next sim_mstime; [exact I4|]. intros now _ s5 (<- & _ & I5 & E5).
    eapply sim_mono; [eapply sim_setExpire; [exact I5|exact Hj|exact Hc|rewrite E5; by exists (VStr v)|by apply swrap_range]|].
    cbn beta. intros _ _ s6 (I6 & _). done. }
  cbn beta. intros _ _ s5 I5. sim_next sim_notify; [exact I5|exact Hj|]. intros _ _ s6 (I6 & _).
  eapply sim_bind, (sim_mono _ _ _ (fun _ _ s' => inv (N + 1) [] [] R s')).
  { destruct expire as [x|], e as [y|]; try done; try by apply sim_ret.
    eapply sim_mono; [by eapply sim_notify|]. cbn beta. by intros _ _ s7 (I7 & _). }
  cbn beta. intros _ _ s7 I7. eapply sim_mono; [by eapply sim_addReply|]. cbn beta. intros ? ? s8 (I8 & _).
  eapply done_inv; [exact I8|lia].
Qed.

Lemma tolower_eq c d : 97 <= d <= 122 -> (tolower c =? d) = (c =? d) || (c =? d - 32).
Proof.
  intros Hd. unfold tolower. destruct ((65 <=? c) && (c <=? 90)) eqn:E; bool_to_prop.
  - destruct (Z.eqb_spec (c + 32) d), (Z.eqb_spec c d), (Z.eqb_spec c (d - 32)); done || lia.
  - destruct (Z.eqb_spec c d), (Z.eqb_spec c (d - 32)); try done. subst. destruct E; bool_to_prop; lia.
Qed.

Lemma wp_is_option b x l1 l2 w s :
  rep b x -> 97 <= l1 <= 122 -> 97 <= l2 <= 122 -> str w = [l1; l2] ->
  wp (is_option b l1 (l1 - 32) l2 (l2 - 32)) s (fun r s' => r = is_word x w /\ s' = s).
Proof.
  intros (sp & Eb & _) H1 H2 Hw. unfold is_option, is_word. rewrite Eb, Hw.
  assert (forall c d, 97 <= d <= 122 -> (c =? d) || (c =? d - 32) = true <-> tolower c = d) as Ht.
  { intros c d Hd. rewrite <- tolower_eq by done. apply Z.eqb_eq. }
  assert (tolower 0 = 0) as H0 by done. assert (forall c, c <> 0 -> tolower c <> 0) as Hne.
  { intros c Hc. unfold tolower. destruct (_ && _) eqn:E; bool_to_prop; lia. }
  assert (forall c l, cstring (c :: l) = if c =? 0 then [] else c :: cstring l) as Ec by done.
  destruct x as [|c1 x].
  { apply wp_bind, (wp_lift _ 0); [done|]. destruct (_ || _) eqn:E; [apply Ht in E; [lia|done]|]. cbn [negb]. apply wp_ret. split; [|done]. symmetry. by apply bool_decide_false. }
  apply wp_bind, (wp_lift _ c1); [done|]. rewrite Ec. destruct ((c1 =? l1) || (c1 =? l1 - 32)) eqn:E1; cbn [negb].
  2:{ apply wp_ret. split; [|done]. symmetry. apply bool_decide_false. destruct (Z.eqb_spec c1 0); [done|]. intros [= Hc _].
    apply (proj2 (Ht c1 l1 H1)) in Hc. by rewrite Hc in E1. }
  apply Ht in E1; [|done]. assert (c1 <> 0) as Hc1 by (intros ->; lia). rewrite (proj2 (Z.eqb_neq c1 0) Hc1).
  destruct x as [|c2 x].
  { apply wp_bind, (wp_lift _ 0); [done|]. destruct (_ || _) eqn:E; [apply Ht in E; [lia|done]|]. cbn [negb]. apply wp_ret. split; [|done]. symmetry. by apply bool_decide_false. }
  apply wp_bind, (wp_lift _ c2); [done|]. rewrite Ec. destruct ((c2 =? l2) || (c2 =? l2 - 32)) eqn:E2; cbn [negb].
  2:{ apply wp_ret. split; [|done]. symmetry. apply bool_decide_false. destruct (Z.eqb_spec c2 0); [done|]. intros [= _ Hc _].
    apply (proj2 (Ht c2 l2 H2)) in Hc. by rewrite Hc in E2. }
  apply Ht in E2; [|done]. assert (c2 <> 0) as Hc2 by (intros ->; lia). rewrite (proj2 (Z.eqb_neq c2 0) Hc2).
  assert (forall r, (map tolower (c1 :: c2 :: r) = [l1; l2]) <-> r = []) as Hr.
  { intros r. cbn [map]. rewrite E1, E2. destruct r; split; done. }
  rewrite (bool_decide_ext _ _ (Hr _)). destruct x as [|c3 x].
  - apply wp_bind, (wp_lift _ 0); [done|]. by apply wp_ret.
  - apply wp_bind, (wp_lift _ c3); [done|]. apply wp_ret. split; [|done]. rewrite Ec. destruct (Z.eqb_spec c3 0); [by rewrite bool_decide_true|].
    by rewrite bool_decide_false.
Qed.

Lemma wp_set_options P s args texts : forall fuel flags unit_ expire e,
  Forall2 P args texts -> (forall a x, P a x -> raw (heap s) a x) -> (length args < fuel)%nat ->
  option_Forall2 P expire e ->
  wp (set_options fuel args flags unit_ expire) s (fun r s' =>
    match r, a_set_options texts flags unit_ e with
    | Some (f, u, x), Some (f', u', x') => s' = s /\ f = f' /\ u = u' /\ option_Forall2 P x x'
    | None, None => s' = with_sd s (set_out (sd s) (sent (out (sd s)) shared_syntaxerr))
    | _, _ => False
    end).
Proof.
  intros fuel flags unit_ expire e Hargs HP. revert fuel args texts flags unit_ expire e Hargs.
  induction fuel as [|fuel IH]; intros args texts flags unit_ expire e Hargs Hf He; [lia|].
  destruct Hargs as [|a x args texts Ha Hargs]; [by apply wp_ret|]. cbn [length] in Hf. cbn [set_options a_set_options].
  destruct (HP a x Ha) as (o & b & Ho & _ & _ & Hp & Hb & _).
  apply wp_bind, (wp_load _ o); [done|]. unfold obj_sds. rewrite Hp. apply wp_bind, wp_ret.
  apply wp_bind. eapply wp_mono; [by apply (wp_is_option _ x 110 120 "nx")|]. intros ? ? [-> ->].
  destruct (is_word x "nx"). { apply IH; [done|lia|done]. }
  apply wp_bind. eapply wp_mono; [by apply (wp_is_option _ x 120 120 "xx")|]. intros ? ? [-> ->].
  destruct (is_word x "xx"). { apply IH; [done|lia|done]. }
  apply wp_bind. eapply wp_mono; [by apply (wp_is_option _ x 101 120 "ex")|]. intros ? ? [-> ->].
  apply wp_bind. eapply wp_mono; [by apply (wp_is_option _ x 112 120 "px")|]. intros ? ? [-> ->].
  destruct Hargs as [|a' x' args texts Ha' Hargs]; [by apply wp_bind, wp_ret|]. cbn [length] in Hf.
  destruct (is_word x "ex"). { apply IH; [done|lia|by constructor]. }
  destruct (is_word x "px"); [|by apply wp_bind, wp_ret]. apply IH; [done|lia|by constructor].
Qed.

Lemma sim_setCommand N s : fits N s 3 -> sim setCommand spec_set s (finished N s).
Proof.
  intros (I & HN & Hl). pose proof (zlen_nonneg (argv s)).
  destruct (ready_arg N s 1 I) as (key & k & Hj1 & _ & Hk & _); [lia|].
  destruct (ready_arg N s 2 I) as (val & v & Hj2 & _ & Hv & _); [lia|].
  apply (sim_arg_r _ _ _ _ _ _ Hk), (sim_arg_r _ _ _ _ _ _ Hv), sim_gets_l, sim_gets_r.
  pose (P a x := exists j, (3 <= j)%nat /\ In (j, a, x) (all_args s)).
  apply wp_bind. eapply wp_mono.
  { apply (wp_set_options P s _ (drop 3 (a_argv (abs s))) _ _ _ _ None); [by eapply args_pairs| |rewrite length_drop; lia|constructor].
    intros a x (j & _ & Hj). by apply (inv_raw _ _ _ _ _ I j a x). }
  cbn beta. intros r s1. destruct r as [[[f u] e]|], (a_set_options _ _ _ _) as [[[f' u'] e']|]; try done.
  2:{ intros ->. apply wp_ret. split; [done|]. eapply done_inv; [by eapply inv_side|lia]. }
  intros (-> & <- & <- & He).
  eapply (sim_encode _ _ _ v); [exact I|by eapply in_arg_text|lia|]. intros s2 a2 I2 E2 _ _ _ Ha2 O2.
  eapply sim_argR; [exact I2|by apply in_filter_arg|]. eapply sim_arg; [exact Ha2|].
  eapply sim_mono; [eapply (sim_setGeneric N N (zlen (argv s) + 8) _ s2 s); [exact I2|by apply in_filter_arg|exact O2| |lia]|done].
  destruct He as [e e' (j & Hj & He)|]; [|done]. eapply raw_arg_val; [exact I2|apply in_filter_arg; [exact He|lia]].
Qed.

Lemma sim_setnxCommand N s : fits N s 3 -> sim setnxCommand spec_setnx s (finished N s).
Proof.
  intros F. use_arg F 1%nat key k Hk Ek. use_arg F 2%nat val v Hv Ev. destruct F as (I & HN & Hl). pose proof (zlen_nonneg (argv s)).
  apply (sim_arg_r _ _ _ _ _ _ Ek), (sim_arg_r _ _ _ _ _ _ Ev).
  eapply (sim_encode _ _ _ v); [exact I|by eapply in_arg_text|lia|]. intros s2 a2 I2 E2 _ _ _ Ha2 O2.
  eapply sim_argR; [exact I2|by apply in_filter_arg|]. eapply sim_arg; [exact Ha2|].
  eapply sim_mono; [eapply (sim_setGeneric N N (zlen (argv s) + 8) _ s2 s); [exact I2|by apply in_filter_arg|exact O2|done|lia]|done].
Qed.

Lemma sim_setexGeneric N s unit_ : fits N s 4 ->
  sim (_ ← encode_arg 3; key ← arg 1; val ← arg 3; e ← arg 2; setGenericCommand REDIS_SET_NO_FLAGS key val (Some e) unit_ None None)
    (spec_setex unit_) s (finished N s).
Proof.
  intros F. use_arg F 1%nat key k Hk Ek. use_arg F 2%nat exa e He Ee. use_arg F 3%nat val v Hv Ev.
  destruct F as (I & HN & Hl). pose proof (zlen_nonneg (argv s)).
  apply (sim_arg_r _ _ _ _ _ _ Ek), (sim_arg_r _ _ _ _ _ _ Ee), (sim_arg_r _ _ _ _ _ _ Ev).
  eapply (sim_encode _ _ _ v); [exact I|by eapply in_arg_text|lia|]. intros s2 a2 I2 E2 _ _ _ Ha2 O2.
  eapply sim_argR; [exact I2|by apply in_filter_arg|]. eapply sim_arg; [exact Ha2|].
  eapply sim_argR; [exact I2|by apply (in_filter_arg _ _ _ _ _ He)|].
  eapply sim_mono; [eapply (sim_setGeneric N N (zlen (argv s) + 8) _ s2 s); [exact I2|by apply in_filter_arg|exact O2| |lia]|done].
  eapply raw_arg_val; [exact I2|by apply (in_filter_arg _ _ _ _ _ He)].
Qed.

(** *** GET and GETSET *)

Lemma sim_getGeneric N R s key k :
  inv N [] [] R s -> In (1%nat, key, k) R -> N + 1 < 2 ^ 31 ->
  sim getGenericCommand (a_getGeneric k) s (fun r r' s' => r = r' /\ inv (N + 1) [] [] R s' /\ args_kept s s').
Proof.
  intros I Hk HN. pose proof (inv_room _ _ _ _ _ I) as Hr. eapply sim_argR; [exact I|exact Hk|].
  eapply sim_readOrReply; [exact I|exact Hk| |].
  - intros s1 I1 K1 _ _. sim_next sim_addReply; [exact I1|]. intros ? ? s2 (I2 & ->). apply sim_ret. split_and!; [done|eapply inv_weaken; [exact I2|lia]|].
    eapply args_kept_trans; [exact K1|apply args_kept_sd].
  - intros s1 a v I1 K1 _ _ Hv. destruct (val_obj _ _ _ _ _ _ _ I1 Hv) as (o & Ho & Hok & Hov).
    eapply sim_step, (wp_load _ o); [done|]. split; [done|]. destruct v as [x|t p].
    + destruct (obj_string _ _ Hok Hov) as (-> & _). change (negb _) with false. cbn iota.
      sim_next sim_addReplyBulk; [exact I1|exact Hv|lia|]. intros ? ? s2 (I2 & _ & K2 & _). apply sim_ret. split_and!; [done|done|].
      by eapply args_kept_trans.
    + destruct (obj_other _ _ _ Hok Hov) as [-> Ht]. unfold REDIS_STRING. destruct (Z.eqb_spec t 0); [lia|]. cbn [negb].
      sim_next sim_addReply; [exact I1|]. intros ? ? s2 (I2 & ->). apply sim_ret. split_and!; [done|eapply inv_weaken; [exact I2|lia]|].
      eapply args_kept_trans; [exact K1|apply args_kept_sd].
Qed.

Lemma sim_getCommand N s : fits N s 2 -> sim getCommand spec_get s (finished N s).
Proof.
  intros F. use_arg F 1%nat key k Hk Ek. destruct F as (I & HN & Hl). pose proof (zlen_nonneg (argv s)).
  apply (sim_arg_r _ _ _ _ _ _ Ek). sim_next sim_getGeneric; [exact I|exact Hk|lia|]. intros ? ? s1 (_ & I1 & _).
  apply sim_ret. eapply done_inv; [exact I1|lia].
Qed.

Lemma sim_getsetCommand N s : fits N s 3 -> sim getsetCommand spec_getset s (finished N s).
Proof.
  intros F. use_arg F 1%nat key k Hk Ek. use_arg F 2%nat val v Hv Ev. destruct F as (I & HN & Hl). pose proof (zlen_nonneg (argv s)).
  apply (sim_arg_r _ _ _ _ _ _ Ek), (sim_arg_r _ _ _ _ _ _ Ev).
  sim_next sim_getGeneric; [exact I|exact Hk|lia|]. intros ok ? s1 (<- & I1 & K1). destruct ok; cbn [negb].
  2:{ apply sim_ret. eapply done_inv; [exact I1|lia]. }
  eapply (sim_encode _ _ _ v); [exact I1|by eapply in_arg_text|lia|]. intros s2 a2 I2 E2 _ S2 _ Ha2 O2.
  apply sim_db. pose proof (inv_cur_db _ _ _ _ _ I2) as Hc.
  eapply sim_argR; [exact I2|by apply in_filter_arg|]. eapply sim_arg; [exact Ha2|].
  sim_next sim_setKey; [exact I2|by apply in_filter_arg|exact Hc|exact O2|lia|]. intros _ _ s3 (I3 & _).
  sim_next sim_notify; [exact I3|by apply in_filter_arg|]. intros _ _ s4 (I4 & _).
  eapply sim_mono; [by eapply sim_incr_dirty|]. intros ? ? s5 (I5 & _). eapply done_inv; [exact I5|lia].
Qed.

(** *** STRLEN *)

Lemma sim_strlenCommand N s : fits N s 2 -> sim strlenCommand spec_strlen s (finished N s).
Proof.
  intros F. use_arg F 1%nat key k Hk Ek. destruct F as (I & HN & Hl). pose proof (zlen_nonneg (argv s)).
  apply (sim_arg_r _ _ _ _ _ _ Ek). eapply sim_argR; [exact I|exact Hk|]. eapply sim_readOrReply; [exact I|exact Hk| |].
  - intros s1 I1 _ _ _. eapply sim_reply_ret; [exact I1|lia].
  - intros s1 a v I1 _ _ _ Hv. eapply sim_typed; [exact I1|exact Hv| |].
    + intros x ->. eapply sim_step, (wp_stringObjectLen _ _ _ _ _ _ x); [exact I1|exact Hv|]. split; [done|].
      destruct (val_len _ _ _ _ _ _ _ I1 Hv) as [_ [Hx ->]%len_fits]. eapply sim_int_done; [exact I1|lia|done].
    + intros t p ->. eapply sim_reply_ret; [exact I1|lia].
Qed.

(** *** MGET *)

Lemma sim_mget N0 B s0 R keys texts : forall N s,
  inv N [] [] R s -> Forall2 (fun a x => exists j, In (j, a, x) R) keys texts -> N + zlen keys <= N0 + B < 2 ^ 31 ->
  sim (mget_loop keys) (a_mget texts) s (done_with N0 s0 B).
Proof.
  intros N s I Hk. revert N s I. induction Hk as [|key k keys texts (j & Hj) _ IH]; intros N s I HN; rewrite ?zlen_cons in HN.
  { apply sim_ret. eapply done_inv; [exact I|]. rewrite zlen_nil in HN. lia. }
  cbn [mget_loop a_mget]. apply sim_db. pose proof (inv_cur_db _ _ _ _ _ I) as Hc. pose proof (zlen_nonneg keys).
  sim_next sim_lookupKeyRead; [exact I|exact Hj|exact Hc|]. intros r v s1 (I1 & _ & _ & Hf).
  eapply sim_bind, (sim_mono _ _ _ (fun _ _ s' => inv (N + 1) [] [] R s')); [|intros _ _ s2 I2; apply (IH (N + 1)); [exact I2|lia]].
  assert (forall b, sim (addReply b) (a_reply b) s1 (fun _ _ s' => inv (N + 1) [] [] R s')) as Hreply.
  { intros b. eapply sim_mono; [by eapply sim_addReply|]. intros ? ? s2 (I2 & _). eapply inv_weaken; [exact I2|lia]. }
  destruct r as [a|], v as [v|]; try done; try apply Hreply. destruct Hf as [_ Hv].
  destruct (val_obj _ _ _ _ _ _ _ I1 Hv) as (o & Hoa & Hok & Hov).
  eapply sim_step, (wp_load _ o); [done|]. split; [done|]. destruct v as [x|t p].
  - destruct (obj_string _ _ Hok Hov) as (-> & _). change (negb _) with false. cbn iota.
    eapply sim_mono; [eapply sim_addReplyBulk; [exact I1|exact Hv|lia]|]. by intros ? ? s2 (I2 & _).
  - destruct (obj_other _ _ _ Hok Hov) as [-> Ht]. unfold REDIS_STRING. destruct (Z.eqb_spec t 0); [lia|]. cbn [negb]. apply Hreply.
Qed.

Lemma sim_mgetCommand N s : fits N s 2 -> sim mgetCommand spec_mget s (finished N s).
Proof.
  intros (I & HN & Hl). pose proof (inv_room _ _ _ _ _ I) as Hr. pose proof (zlen_nonneg (roots s ++ [])).
  apply sim_gets_l, sim_gets_r. rewrite zlen_args.
  assert (in_s 64 (zlen (argv s) - 1)) as Hi. { unfold in_s, zlen in *. lia. }
  sim_next sim_multi; [exact I|exact Hi|]. intros _ _ s1 (I1 & K1).
  eapply (sim_mget _ _ _ _ _ _ N); [exact I1| |unfold zlen in *; rewrite length_drop; lia].
  eapply Forall2_impl; [by eapply args_pairs|]. intros a x (j & _ & Hj). by exists j.
Qed.

(** *** MSET *)

(** The keys and values are in the arguments from [j] on. *)
Fixpoint bound (R : list (nat * addr * list Z)) (j : nat) (l : list (list Z * list Z)) : Prop :=
  match l with
  | [] => True
  | (k, v) :: l => (exists a, In (j, a, k) R) /\ (exists a, In ((j + 1)%nat, a, v) R) /\ bound R (j + 2) l
  end.

Lemma bound_filter R i l : forall j, (i < j)%nat -> bound R j l -> bound (List.filter (fun t => negb (Nat.eqb t.1.1 i)) R) j l.
Proof.
  induction l as [|[k v] l IH]; intros j Hi; [done|]. intros ([a Ha] & [b Hb] & Hl). split_and!.
  - exists a. apply in_filter_arg; [done|lia].
  - exists b. apply in_filter_arg; [done|lia].
  - apply IH; [lia|done].
Qed.

Lemma bound_args N s : ready N s -> forall n j, (length (a_argv (abs s)) - j <= n)%nat ->
  bound (all_args s) j (pairs (drop j (a_argv (abs s)))).
Proof.
  intros I. set (l := a_argv (abs s)). induction n as [|n IH]; intros j Hn; [by rewrite drop_ge by lia|].
  destruct (drop j l) as [|k [|v l']] eqn:E; [done|done|]. cbn [pairs bound].
  assert (forall i x, (k :: v :: l') !! i = Some x -> exists a, In ((j + i)%nat, a, x) (all_args s)) as Hat.
  { intros i x Hx. eapply arg_of_text; [exact I|]. rewrite <- E in Hx. by rewrite (lookup_drop l) in Hx. }
  split_and!.
  - rewrite <- (Nat.add_0_r j). by apply Hat.
  - by apply Hat.
  - assert (l' = drop (j + 2) l) as -> by (by rewrite <- drop_drop, E).
    apply IH. lia.
Qed.

Lemma length_pairs l : length (pairs l) = Nat.div2 (length l).
Proof.
  assert (forall n l, (length l <= n)%nat -> length (pairs l) = Nat.div2 (length l)) as Hp; [|by eapply Hp].
  induction n as [|n IH]; intros [|k [|v m]] Hn; cbn in *; try done; try lia. rewrite IH; [done|lia].
Qed.

Lemma sim_busy N R l : forall j c s,
  inv N [] [] R s -> bound R j l -> 0 <= c -> c + zlen l < 2 ^ 31 ->
  sim (busy_loop (length l) j c) (a_busy l) s
    (fun n b s' => inv N [] [] R s' /\ args_kept s s' /\ 0 <= n /\ negb (n =? 0) = negb (c =? 0) || b).
Proof.
  induction l as [|[k v] l IH]; intros j c s I Hb Hc Hl.
  { apply sim_ret. split_and!; [done|done|done|]. by rewrite orb_false_r. }
  destruct Hb as ([a Ha] & _ & Hb). rewrite zlen_cons in Hl. pose proof (zlen_nonneg l). cbn [length busy_loop a_busy].
  apply sim_db. pose proof (inv_cur_db _ _ _ _ _ I) as Hcur. eapply sim_argR; [exact I|exact Ha|].
  sim_next sim_lookupKeyWrite; [exact I|exact Ha|exact Hcur|]. intros r w s1 (I1 & K1 & _ & Hf).
  eapply sim_mono with (Q := fun n y s' => exists b, y = bool_decide (is_Some w) || b /\ inv N [] [] R s' /\ args_kept s1 s' /\ 0 <= n /\
     negb (n =? 0) = negb ((match r with Some _ => swrap 32 (c + 1) | None => c end) =? 0) || b).
  - eapply wp_mono; [eapply (IH _ _ s1); [exact I1|exact Hb| |]|].
    + destruct r; [rewrite s32_small|]; lia.
    + destruct r; [rewrite s32_small|]; lia.
    + cbn beta. intros n s2. unfold mbind, Spec_bind. destruct (a_busy l (abs s1)) as [b t]. intros (-> & ?). cbn. split; [done|]. by exists b.
  - cbn beta. intros n y s2 (b & -> & I2 & K2 & Hn & E). split_and!; [done|by eapply args_kept_trans|done|].
    rewrite E. destruct r as [r|], w as [w|]; try done. rewrite s32_small by lia. destruct (Z.eqb_spec (c + 1) 0), (Z.eqb_spec c 0); (done || lia).
Qed.

Lemma sim_mset_loop l : forall N R j s,
  inv N [] [] R s -> bound R j l -> N + zlen l + 2 < 2 ^ 31 ->
  sim (mset_loop (length l) j) (a_mset l) s (fun _ _ s' => inv (N + zlen l) [] [] [] s').
Proof.
  induction l as [|[k v] l IH]; intros N R j s I Hb HN.
  { apply sim_ret. change (zlen (@nil (list Z * list Z))) with 0. rewrite Z.add_0_r. by eapply inv_drop. }
  destruct Hb as ([key Hk] & [val Hv] & Hb). rewrite zlen_cons in *. pose proof (zlen_nonneg l). cbn [length mset_loop a_mset].
  eapply (sim_encode _ _ _ v); [exact I|by eapply in_arg_text|lia|]. intros s2 a2 I2 E2 _ S2 _ Ha2 O2.
  apply sim_db. pose proof (inv_cur_db _ _ _ _ _ I2) as Hc. assert (j <> (j + 1)%nat) as Hj by lia.
  eapply sim_argR; [exact I2|by apply in_filter_arg|]. eapply sim_arg; [exact Ha2|].
  sim_next sim_setKey; [exact I2|by apply in_filter_arg|exact Hc|exact O2|lia|]. intros _ _ s3 (I3 & _).
  sim_next sim_notify; [exact I3|by apply in_filter_arg|]. intros _ _ s4 (I4 & _).
  eapply sim_mono; [eapply (IH _ _ _ s4); [exact I4|apply bound_filter; [lia|exact Hb]|lia]|]. cbn beta.
  intros _ _ s5 I5. by replace (N + (1 + zlen l)) with (N + 1 + zlen l) by lia.
Qed.

Lemma sim_msetGeneric N s nx : fits N s 3 -> sim (msetGenericCommand nx) (spec_mset nx) s (finished N s).
Proof.
  intros (I & HN & Hl). pose proof (zlen_nonneg (argv s)). pose proof (room_nonneg _ _ _ _ _ I) as Hp.
  apply sim_gets_l, sim_gets_r. assert (length (a_argv (abs s)) = length (argv s)) as El by (pose proof (zlen_args s); unfold zlen in *; lia).
  rewrite El. destruct (Nat.even (length (argv s))) eqn:Ev; [eapply sim_reply_done; [exact I|lia]|].
  set (l := pairs (drop 1 (a_argv (abs s)))).
  assert (Nat.div2 (length (argv s)) = length l) as ->.
  { unfold l. rewrite length_pairs, length_drop, El. destruct (length (argv s)) as [|n]; [done|]. rewrite Nat.sub_succ, Nat.sub_0_r.
    symmetry. apply Nat.Even_div2. apply Nat.even_spec. rewrite Nat.even_succ in Ev. by rewrite <- Nat.negb_odd, Ev. }
  assert (zlen l <= zlen (argv s)) as Hll.
  { unfold l, zlen. rewrite length_pairs, length_drop, El. pose proof (Nat.div2_decr (length (argv s) - 1) (length (argv s) - 1)). lia. }
  pose proof (zlen_nonneg l).
  assert (bound (all_args s) 1 l) as Hb by (by eapply bound_args).
  eapply sim_bind, (sim_mono _ _ _ (fun n b s' => inv N [] [] (all_args s) s' /\ negb (n =? 0) = b)).
  { destruct nx; [|by apply sim_ret]. eapply sim_mono; [eapply (sim_busy _ _ _ _ 0); [exact I|exact Hb|lia|]|].
    - lia.
    - cbn beta. intros n b s1 (I1 & _ & _ & E). done. }
  cbn beta. intros n b s1 (I1 & ->). destruct b; [eapply sim_reply_done; [exact I1|lia]|].
  sim_next sim_mset_loop; [exact I1|exact Hb|lia|]. intros _ _ s2 I2.
  sim_next sim_incr_dirty; [exact I2|]. intros _ _ s3 (I3 & _). eapply sim_reply_done; [exact I3|lia].
Qed.

(** *** Counters *)

(** The test of incrDecrCommand() is on the sum. *)
Lemma incr_overflow incr old : in_s 64 incr -> in_s 64 old ->
  ((incr <? 0) && (old <? 0) && (incr <? swrap 64 (LLONG_MIN - old))) ||
  ((0 <? incr) && (0 <? old) && (swrap 64 (LLONG_MAX - old) <? incr)) =
  (old + incr <? LLONG_MIN) || (LLONG_MAX <? old + incr).
Proof.
  unfold in_s, LLONG_MIN, LLONG_MAX. intros Hi Ho.
  destruct (Z.ltb_spec incr 0), (Z.ltb_spec old 0), (Z.ltb_spec 0 incr), (Z.ltb_spec 0 old); cbn [andb orb];
    try lia; rewrite ?s64_small by lia; destruct (Z.ltb_spec (old + incr) (-9223372036854775808)), (Z.ltb_spec 9223372036854775807 (old + incr));
    try lia; try done; rewrite ?orb_false_r; try (apply Z.ltb_lt; lia); try (apply Z.ltb_ge; lia).
Qed.

Lemma sim_incrDecr N0 B N R s s0 key k incr :
  inv N [] [] R s -> In (1%nat, key, k) R -> in_s 64 incr -> N + 2 <= N0 + B < 2 ^ 31 ->
  sim (incrDecrCommand incr) (a_incr k incr) s (done_with N0 s0 B).
Proof.
  intros I Hk Hi HN. apply sim_db. pose proof (inv_cur_db _ _ _ _ _ I) as Hc. set (db := cur (sd s)) in *.
  eapply sim_argR; [exact I|exact Hk|]. sim_next sim_lookupKeyWrite; [exact I|exact Hk|exact Hc|].
  intros r w s1 (I1 & _ & _ & Hf).
  assert (match w with Some (VOther _ _) => False | _ => True end ->
    sim (r0 ← getLongLongFromObjectOrReply r None;
         match r0 with
         | None => mret tt
         | Some oldvalue =>
             if ((incr <? 0) && (oldvalue <? 0) && (incr <? swrap 64 (LLONG_MIN - oldvalue))) ||
                ((0 <? incr) && (0 <? oldvalue) && (swrap 64 (LLONG_MAX - oldvalue) <? incr))
             then addReplyError "increment or decrement would overflow"
             else
               let value := swrap 64 (oldvalue + incr) in
               new ← createStringObjectFromLongLong value;
               _ ← (match r with Some _ => dbOverwrite db key new | None => dbAdd db key new end);
               _ ← signalModifiedKey db key;
               _ ← notifyKeyspaceEvent REDIS_NOTIFY_STRING "incrby" key db;
               _ ← incr_dirty 1;
               _ ← addReply (str ":");
               _ ← addReplyObj new;
               addReply crlf
         end)
        (r ← a_parse (text_or_empty w) not_an_integer;
         match r with
         | None => mret tt
         | Some old =>
             let new := old + incr in
             if (new <? LLONG_MIN) || (LLONG_MAX <? new) then a_reply (r_error "increment or decrement would overflow")
             else
               _ ← a_modify db (put k (VStr (print new)));
               _ ← a_log (Modified db k);
               _ ← a_log (Notify REDIS_NOTIFY_STRING "incrby" k db);
               _ ← a_dirty 1;
               a_reply (r_int new)
         end) s1 (done_with N0 s0 B)) as Hcore.
  { intros Hw. sim_next sim_parse; [exact I1| |].
    { destruct r, w as [[x|]|]; try done. by destruct Hf. }
    intros old ? s2 (<- & I2 & _ & _ & Hs). destruct old as [old|]; [|apply sim_ret; eapply done_inv; [exact I2|lia]].
    destruct (Hs old eq_refl) as [Hold ->]. rewrite (incr_overflow incr old Hi Hold). cbn zeta.
    destruct ((old + incr <? LLONG_MIN) || (LLONG_MAX <? old + incr)) eqn:Eo; [eapply sim_reply_done; [exact I2|lia]|].
    assert (in_s 64 (old + incr)) as Hn by (apply orb_false_iff in Eo as [?%Z.ltb_ge ?%Z.ltb_ge]; unfold LLONG_MIN, LLONG_MAX, in_s in *; lia).
    rewrite swrap_small by done. sim_skip wp_createFromLongLong; [exact I2|lia|exact Hn|]. intros new s3 (I3 & E3 & H3). split; [done|].
    assert (found s3 db k r w) as Hf3 by (eapply found_abs; [exact E3|by rewrite H3|exact Hf]).
    eapply sim_bind.
    eapply sim_mono; [eapply sim_store_local; [exact I3|exact Hk|exact Hc|exact Hf3]|]. cbn beta. intros _ _ s4 (I4 & _ & _ & _ & Hv4).
    sim_next sim_signal; [exact I4|exact Hk|]. intros _ _ s5 (I5 & ->).
    sim_next sim_notify; [exact I5|exact Hk|]. intros _ _ s6 (I6 & ->).
    sim_next sim_incr_dirty; [exact I6|]. intros _ _ s7 (I7 & ->).
    eapply sim_mono; [eapply sim_reply_obj; [exact I7|exact Hv4|lia]|]. cbn beta. intros ? ? s8 I8. eapply done_inv; [exact I8|lia]. }
  destruct r as [a|], w as [w|]; try done.
  2:{ apply sim_ret_l. by apply Hcore. }
  destruct Hf as [_ Hv]. eapply sim_typed; [exact I1|exact Hv| |].
  - intros x ->. by apply Hcore.
  - intros t p ->. eapply sim_reply_ret; [exact I1|lia].
Qed.

Lemma sim_incrCommand N s incr : fits N s 2 -> in_s 64 incr ->
  sim (incrDecrCommand incr) (k ← a_arg 1; a_incr k incr) s (finished N s).
Proof.
  intros F Hi. use_arg F 1%nat key k Hk Ek. destruct F as (I & HN & Hl). pose proof (zlen_nonneg (argv s)).
  apply (sim_arg_r _ _ _ _ _ _ Ek). eapply sim_incrDecr; [exact I|exact Hk|exact Hi|lia].
Qed.

Lemma sim_incrby N s change : fits N s 3 -> (forall n, in_s 64 n -> in_s 64 (change n)) ->
  sim (a ← arg 2; r ← getLongLongFromObjectOrReply (Some a) None; match r with None => mret tt | Some n => incrDecrCommand (change n) end)
    (spec_incrby change) s (finished N s).
Proof.
  intros F Hi. use_arg F 1%nat key k Hk Ek. use_arg F 2%nat val v Hv Ev. destruct F as (I & HN & Hl). pose proof (zlen_nonneg (argv s)).
  apply (sim_arg_r _ _ _ _ _ _ Ek), (sim_arg_r _ _ _ _ _ _ Ev). eapply sim_argR; [exact I|exact Hv|].
  sim_next sim_parse; [exact I|by eapply raw_arg_val|]. intros r ? s1 (<- & I1 & _ & _ & Hs).
  destruct r as [n|]; [|apply sim_ret; eapply done_inv; [exact I1|lia]]. destruct (Hs n eq_refl) as [Hn ->].
  eapply sim_incrDecr; [exact I1|exact Hk|by apply Hi|lia].
Qed.

(** *** APPEND *)

Lemma sim_append_reply N0 B N R s s0 key k db n :
  inv N [] [] R s -> In (1%nat, key, k) R -> N <= N0 + B < 2 ^ 31 -> 0 <= n <= STRING_MAX ->
  sim (_ ← signalModifiedKey db key;
       _ ← notifyKeyspaceEvent REDIS_NOTIFY_STRING "append" key db;
       _ ← incr_dirty 1;
       addReplyLongLong (swrap 64 n))
      (_ ← a_log (Modified db k);
       _ ← a_log (Notify REDIS_NOTIFY_STRING "append" k db);
       _ ← a_dirty 1;
       a_reply (r_int n)) s (done_with N0 s0 B).
Proof.
  intros I Hk HN [Hn ->]%len_fits. sim_next sim_signal; [exact I|exact Hk|]. intros _ _ s1 (I1 & _).
  sim_next sim_notify; [exact I1|exact Hk|]. intros _ _ s2 (I2 & _).
  sim_next sim_incr_dirty; [exact I2|]. intros _ _ s3 (I3 & _). by eapply sim_int_done.
Qed.

Lemma sim_appendCommand N s : fits N s 3 -> sim appendCommand spec_append s (finished N s).
Proof.
  intros F. use_arg F 1%nat key k Hk Ek. use_arg F 2%nat val y Hv Ev. destruct F as (I & HN & Hl). pose proof (zlen_nonneg (argv s)).
  apply (sim_arg_r _ _ _ _ _ _ Ek), (sim_arg_r _ _ _ _ _ _ Ev), sim_db. pose proof (inv_cur_db _ _ _ _ _ I) as Hc. set (db := cur (sd s)) in *.
  eapply sim_argR; [exact I|exact Hk|]. sim_next sim_lookupKeyWrite; [exact I|exact Hk|exact Hc|].
  intros r w s1 (I1 & _ & _ & Hf). destruct (val_len _ _ _ _ _ _ _ I1 (raw_arg_val _ _ _ _ _ _ _ _ I1 Hv)) as [Hyb Hyl].
  destruct r as [a|], w as [w|]; try done.
  - destruct Hf as [Hat Hw]. apply sim_assoc. eapply sim_typed; [exact I1|exact Hw| |].
    + intros x ->. cbn beta iota. cbn [text_or_empty]. destruct (val_len _ _ _ _ _ _ _ I1 Hw) as [Hxb Hxl].
      apply sim_assoc. eapply sim_arg_sds; [exact I1|exact Hv|]. intros b Hb. apply sim_assoc.
      eapply sim_step, (wp_stringObjectLen _ _ _ _ _ _ x); [exact I1|exact Hw|]. split; [done|].
      rewrite (rep_sdslen _ _ Hb), length_sum by done. rewrite zlen_app. unfold checkStringLength. change (512 * 1024 * 1024) with STRING_MAX.
      destruct (Z.gtb_spec (zlen x + zlen y) STRING_MAX) as [Hg|Hg].
      { apply sim_assoc, sim_assoc. eapply sim_reply_ret; [exact I1|lia]. }
      apply sim_assoc, sim_ret_l. cbn [negb]. apply sim_assoc. sim_skip wp_unshare; [exact I1|exact Hk|exact Hc|exact Hat|exact Hw|lia|].
      intros a2 s2 (I2 & E2 & _ & _ & Hs2). split; [done|]. apply sim_assoc.
      sim_next sim_update_sds; [exact I2|exact Hs2|lia|by apply bytes_ok_app|rewrite zlen_app; lia| |].
      { intros b' Hb'. destruct (rep_buffer _ _ Hb) as [r ->]. apply catlen_prefix_rep; [done|]. unfold SDS_LIMIT, STRING_MAX in *. lia. }
      intros _ _ s3 (I3 & Hs3). apply sim_assoc. eapply sim_sole_len; [exact Hs3|]. intros o3 b3 Hp3 Hl3. unfold obj_sds. rewrite Hp3. apply sim_assoc, sim_ret_l, sim_ret_l. rewrite Hl3.
      rewrite zlen_app. eapply sim_append_reply; [exact I3|exact Hk|lia|lia].
    + intros t p ->. eapply sim_reply_ret; [exact I1|lia].
  - cbn [text_or_empty app]. destruct (Z.gtb_spec (zlen y) STRING_MAX); [lia|].
    apply sim_assoc. eapply (sim_encode _ _ _ y); [exact I1|by eapply in_arg_text|lia|]. intros s2 a2 I2 E2 D2 S2 _ Ha2 O2.
    apply sim_assoc. eapply sim_arg; [exact Ha2|]. assert (found s2 db k None None) as Hf2 by (unfold found; by rewrite D2).
    apply sim_assoc, sim_bind. eapply wp_mono; [eapply (wp_store_owned _ _ _ _ _ _ k db a2 (VStr y) None None); [exact I2|by apply in_filter_arg|exact Hc|exact O2|lia|exact Hf2]|].
    cbn beta. intros _ s3 (I3 & -> & K3 & S3). split; [done|]. apply sim_assoc.
    sim_skip wp_incr_stored; [exact I3|]. intros _ s4 (I4 & E4 & H4). split; [done|]. apply sim_assoc.
    assert (val_at (heap s4) a2 = Some (VStr y)) as Hv4.
    { eapply (owned_val _ [] [] _ s4); [exact I4|]. eapply owned_kept; [|exact O2]. eapply args_kept_trans; [exact K3|by apply args_kept_step]. }
    eapply sim_step, (wp_stringObjectLen _ _ _ _ _ _ y); [exact I4|exact Hv4|]. split; [done|].
    apply sim_ret_l. eapply sim_append_reply; [exact I4|by apply in_filter_arg|lia|lia].
Qed.

(** *** SETRANGE *)

Lemma zlen_overwrite x off y : 0 <= off -> zlen (overwrite x off y) = Z.max (zlen x) (off + zlen y).
Proof. intros Ho. unfold overwrite, zlen. rewrite !length_app, length_take, length_replicate, length_drop. lia. Qed.

Lemma overwrite_bytes x off y : bytes_ok x -> bytes_ok y -> bytes_ok (overwrite x off y).
Proof.
  intros Hx Hy. unfold overwrite. apply Forall_app_2; [by apply Forall_take|]. apply Forall_app_2; [|apply Forall_app_2; [done|by apply Forall_drop]].
  apply Forall_replicate. by split.
Qed.

Lemma overwrite_padded x off y : 0 <= off ->
  let p := spec (OGrowzero (off + zlen y)) x in
  take (Z.to_nat off) p ++ y ++ drop (Z.to_nat off + length y) p = overwrite x off y /\ off + zlen y <= zlen p.
Proof.
  intros Ho p. unfold p, overwrite. cbn [spec]. pose proof (zlen_nonneg y). pose proof (zlen_nonneg x). set (n := Z.to_nat off).
  destruct (Z.leb_spec (off + zlen y) (zlen x)) as [Hl|Hl].
  - assert (n - length x = 0)%nat as -> by (unfold n, zlen in *; lia). done.
  - rewrite (drop_ge x) by (unfold n, zlen in *; lia).
    split; [|unfold zlen in *; rewrite length_app, length_replicate; lia]. rewrite app_nil_r.
    rewrite drop_ge by (rewrite length_app, length_replicate; unfold n, zlen in *; lia). rewrite app_nil_r, take_app, (assoc_L (++)).
    f_equal. f_equal. rewrite take_replicate. f_equal. unfold n, zlen in *. lia.
Qed.

Lemma growzero_write b x off y v :
  rep b x -> 0 <= off -> off + zlen y <= STRING_MAX -> sds_bytes v = Some y ->
  exists b', (s ← sdsgrowzero junk b (off + zlen y);
              v ← sds_bytes v;
              b ← wrn (s_buf s) off v;
              Some (Sds (s_len s) (s_free s) b)) = Some b' /\ rep b' (overwrite x off y).
Proof.
  intros Hb Ho Hm Hv. pose proof (zlen_nonneg y). destruct (growzero_rep junk b x (off + zlen y) Hb) as (b1 & E1 & sp & Eb & El & Ef & Hr).
  { unfold SDS_LIMIT, STRING_MAX in *. lia. }
  destruct (overwrite_padded x off y Ho) as [Ew Hw]. set (p := spec _ x) in *. rewrite E1. cbn [mbind option_bind]. rewrite Hv. cbn [mbind option_bind].
  assert (wrn (s_buf b1) off y = Some (overwrite x off y ++ 0 :: sp)) as ->.
  { rewrite <- Ew, Eb, <- !(assoc_L (++)). pose proof (take_drop (Z.to_nat off) p) as E. rewrite <- E at 1.
    rewrite <- (take_drop (length y) (drop (Z.to_nat off) p)) at 1. rewrite drop_drop, <- !(assoc_L (++)).
    apply wrn_app_mid; unfold zlen in *; rewrite ?length_take, ?length_drop; lia. }
  cbn [mbind option_bind]. eexists. split; [done|]. exists sp. cbn [s_buf s_len s_free].
  assert (zlen (overwrite x off y) = zlen p) as Elen.
  { rewrite <- Ew. unfold zlen in *. rewrite !length_app, length_take, length_drop. lia. }
  by rewrite Elen.
Qed.

(** The last part, when the value belongs to its key only. *)
Lemma sim_setrange_tail N0 B N R s s0 key k db a x off y v :
  inv N [] [] R s -> In (1%nat, key, k) R -> sole_raw s db k a x -> rep v y -> bytes_ok y -> 0 < zlen y ->
  0 <= off -> off + zlen y <= STRING_MAX -> N + 2 <= N0 + B < 2 ^ 31 ->
  sim (_ ← (if 0 <? zlen y then
              _ ← update_sds a (fun s =>
                    s ← sdsgrowzero junk s (uwrap 64 (off + zlen y));
                    v ← sds_bytes v;
                    b ← wrn (s_buf s) off v;
                    Some (Sds (s_len s) (s_free s) b));
              _ ← signalModifiedKey db key;
              _ ← notifyKeyspaceEvent REDIS_NOTIFY_STRING "setrange" key db;
              incr_dirty 1
            else mret tt);
       ob ← load a;
       s ← obj_sds ob;
       addReplyLongLong (swrap 64 (sdslen s)))
      (let z := overwrite x off y in
       _ ← a_modify db (put k (VStr z));
       _ ← a_log (Modified db k);
       _ ← a_log (Notify REDIS_NOTIFY_STRING "setrange" k db);
       _ ← a_dirty 1;
       a_reply (r_int (zlen z))) s (done_with N0 s0 B).
Proof.
  intros I Hk Hs Hv Hyb Hy Ho Hm HN. destruct (Z.ltb_spec 0 (zlen y)); [|lia]. cbn zeta.
  assert (uwrap 64 (off + zlen y) = off + zlen y) as -> by (apply uwrap_small; unfold STRING_MAX, in_u in *; lia).
  pose proof Hs as (_ & _ & Hxb & Hxl). set (z := overwrite x off y).
  assert (zlen z <= STRING_MAX) as Hz by (unfold z; rewrite zlen_overwrite; lia). pose proof (zlen_nonneg z).
  apply sim_assoc. sim_next sim_update_sds; [exact I|exact Hs|lia|by apply overwrite_bytes|exact Hz| |].
  { intros b Hb. apply growzero_write; try done. by apply raw_bytes. }
  intros _ _ s1 (I1 & Hs1). apply sim_assoc. sim_next sim_signal; [exact I1|exact Hk|]. intros _ _ s2 (I2 & ->).
  apply sim_assoc. sim_next sim_notify; [exact I2|exact Hk|]. intros _ _ s3 (I3 & ->).
  sim_next sim_incr_dirty; [exact I3|]. intros _ _ s4 (I4 & ->).
  eapply sim_sole_len; [exact Hs1|]. intros o b Hp Hl. unfold obj_sds. rewrite Hp. apply sim_ret_l. rewrite Hl.
  destruct (len_fits (zlen z)) as [Hi ->]; [lia|]. eapply sim_int_done; [exact I4|lia|exact Hi].
Qed.

Lemma sim_setrangeCommand N s : fits N s 4 ->
  (forall off y o, a_argv (abs s) !! 2%nat = Some off -> a_argv (abs s) !! 3%nat = Some y -> parse_ll off = Some o -> o + zlen y < 2 ^ 63) ->
  sim setrangeCommand spec_setrange s (finished N s).
Proof.
  intros F Hoff. use_arg F 1%nat key k Hk Ek. use_arg F 2%nat offa o Ho Eo. use_arg F 3%nat val y Hv Ev. destruct F as (I & HN & Hl).
  pose proof (zlen_nonneg (argv s)). apply (sim_arg_r _ _ _ _ _ _ Ek), (sim_arg_r _ _ _ _ _ _ Eo), (sim_arg_r _ _ _ _ _ _ Ev).
  eapply sim_arg_sds; [exact I|exact Hv|]. intros v Hvr. eapply sim_argR; [exact I|exact Ho|].
  sim_next sim_parse_long; [exact I|by eapply raw_arg_val|]. intros r ? s1 (<- & I1 & Er & _ & Hs).
  destruct r as [off|]; [|apply sim_ret; eapply done_inv; [exact I1|lia]]. destruct (Hs off eq_refl) as [Hi ->]. symmetry in Er.
  specialize (Hoff _ _ _ Eo Ev Er). destruct (Z.ltb_spec off 0); [eapply sim_reply_done; [exact I1|lia]|].
  apply sim_db. pose proof (inv_cur_db _ _ _ _ _ I) as Hc. set (db := cur (sd s)) in *.
  eapply sim_argR; [exact I|exact Hk|]. sim_next sim_lookupKeyWrite; [exact I|exact Hk|exact Hc|]. intros r w s2 (I2 & _ & _ & Hf).
  destruct (val_len _ _ _ _ _ _ _ I2 (raw_arg_val _ _ _ _ _ _ _ _ I2 Hv)) as [Hyb Hyl].
  rewrite (rep_sdslen _ _ Hvr). assert (swrap 64 (uwrap 64 (off + zlen y)) = off + zlen y) as Et by (apply swrap_of_unsigned; [done|unfold in_s; lia]).
  assert (bool_decide (y = []) = (zlen y =? 0)) as ->.
  { destruct y; [done|]. rewrite bool_decide_false by done. symmetry. apply Z.eqb_neq. pose proof (zlen_nonneg y). rewrite zlen_cons. lia. }
  unfold checkStringLength. change (512 * 1024 * 1024) with STRING_MAX. rewrite Et.
  destruct r as [a|], w as [w|]; try done.
  - destruct Hf as [Hat Hw]. apply sim_assoc. eapply sim_typed; [exact I2|exact Hw| |].
    + intros x ->. cbn beta iota. cbn [text_or_empty]. destruct (val_len _ _ _ _ _ _ _ I2 Hw) as [Hxb Hxl]. apply sim_assoc.
      eapply sim_step, (wp_stringObjectLen _ _ _ _ _ _ x); [exact I2|exact Hw|]. split; [done|].
      destruct (Z.eqb_spec (zlen y) 0) as [Hz|Hz].
      { destruct (len_fits (zlen x) Hxl) as [Hxi ->]. apply sim_assoc. eapply sim_int_ret; [exact I2|lia|done]. }
      destruct (Z.gtb_spec (off + zlen y) STRING_MAX). { apply sim_assoc, sim_assoc. eapply sim_reply_ret; [exact I2|lia]. }
      apply sim_assoc, sim_ret_l. cbn [negb]. apply sim_assoc. sim_skip wp_unshare; [exact I2|exact Hk|exact Hc|exact Hat|exact Hw|lia|].
      intros a2 s3 (I3 & E3 & _ & _ & Hs3). split; [done|]. apply sim_ret_l. eapply sim_setrange_tail; eauto; lia.
    + intros t p ->. eapply sim_reply_ret; [exact I2|lia].
  - cbn [text_or_empty]. destruct (Z.eqb_spec (zlen y) 0) as [Hz|Hz]. { apply sim_assoc. eapply sim_reply_ret; [exact I2|lia]. }
    destruct (Z.gtb_spec (off + zlen y) STRING_MAX). { apply sim_assoc, sim_assoc. eapply sim_reply_ret; [exact I2|lia]. }
    apply sim_assoc, sim_ret_l. cbn [negb]. apply sim_assoc.
    eapply sim_step, (wp_lift _ (Sds 0 0 [0])); [done|]. split; [done|]. apply sim_assoc.
    sim_skip (wp_createSds N [] [] (all_args s) s2 (Sds 0 0 [0]) []); [exact I2|lia|by exists []|constructor|done|]. intros a s3 (I3 & E3 & H3 & _ & _ & Hfr). split; [done|].
    destruct Hf as (d & Hd & Hk0). assert (rd (dbs s3) db = Some d) as Hd3 by (by rewrite H3). apply sim_assoc.
    eapply sim_step_eq; [eapply (wp_dbAdd_local _ _ _ _ s3 _ _ k db a); [exact I3|exact Hk|exact Hd3|exact Hk0]|].
    cbn beta. intros _ s4 (I4 & E4 & _ & _ & Hat4 & Hh4).
    assert (sole_raw s4 db k a []) as Hs4. { split_and!; [done| |done|done]. unfold fresh_raw. by rewrite Hh4. }
    split.
    + destruct (inv_db _ _ _ _ _ _ I4 Hc) as [d4 Hd4]. unfold mbind, Spec_bind.
      assert (forall z t, a_modify db (put k z) (abs s4) = (tt, t) -> a_modify db (put k z) (abs s3) = (tt, t)) as Hput.
      { intros z t Ez. rewrite <- (modify_twice _ _ _ _ _ _ _ Hd3 E4 Ez). apply a_modify_ext. intros d0. unfold put. cbn. by rewrite insert_insert_eq. }
      destruct (a_modify db _ (abs s4)) as [[] t] eqn:Ez. by rewrite (Hput _ _ Ez).
    + apply sim_ret_l. eapply sim_setrange_tail; eauto; lia.
Qed.

(** *** GETRANGE *)

(** The bounds of GETRANGE after the conversions of C. *)
Lemma range_bounds n start end_ : 0 <= n <= STRING_MAX -> in_s 64 start -> in_s 64 end_ -> end_ < 2 ^ 32 ->
  let a := Z.max 0 (if start <? 0 then n + start else start) in
  let b := Z.min (Z.max 0 (if end_ <? 0 then n + end_ else end_)) (n - 1) in
  let start' := if start <? 0 then swrap 64 (uwrap 64 (n + start)) else start in
  let end' := if end_ <? 0 then swrap 64 (uwrap 64 (n + end_)) else end_ in
  let start' := if start' <? 0 then 0 else start' in
  let end' := if end' <? 0 then 0 else end' in
  start' = a /\ (if n <=? uwrap 32 end' then swrap 64 (uwrap 64 (n - 1)) else end') = b.
Proof.
  intros Hn Hs He Hu a b start' end'. cbn zeta. unfold STRING_MAX, in_s in *.
  assert (start' = if start <? 0 then n + start else start) as ->.
  { unfold start'. destruct (Z.ltb_spec start 0); [|done]. apply swrap_of_unsigned; [done|]. unfold in_s. lia. }
  assert (end' = if end_ <? 0 then n + end_ else end_) as ->.
  { unfold end'. destruct (Z.ltb_spec end_ 0); [|done]. apply swrap_of_unsigned; [done|]. unfold in_s. lia. }
  split.
  - unfold a. set (i := if start <? 0 then n + start else start). destruct (Z.ltb_spec i 0); lia.
  - set (e := if (if end_ <? 0 then n + end_ else end_) <? 0 then 0 else if end_ <? 0 then n + end_ else end_).
    assert (e = Z.max 0 (if end_ <? 0 then n + end_ else end_)) as Ee.
    { unfold e. set (i := if end_ <? 0 then n + end_ else end_). destruct (Z.ltb_spec i 0); lia. }
    assert (0 <= e < 2 ^ 32) as Hr. { rewrite Ee. destruct (Z.ltb_spec end_ 0); lia. }
    rewrite (uwrap_small 32 e) by (unfold in_u; lia). unfold b. rewrite <- Ee.
    rewrite swrap_of_unsigned by (done || unfold in_s; lia). destruct (Z.leb_spec n e); lia.
Qed.

Lemma wp_bulk_buffer x r a n s (Q : unit -> server -> Prop) :
  0 <= a -> 0 <= n -> a + n <= zlen x -> zlen x <= STRING_MAX ->
  Q tt (with_sd s (set_out (sd s) (sent (out (sd s)) (r_bulk (take (Z.to_nat n) (drop (Z.to_nat a) x)))))) ->
  wp (addReplyBulkCBuffer (x ++ r) a n) s Q.
Proof.
  intros Ha Hn Hl Hm HQ. unfold STRING_MAX in Hm. apply wp_bind, wp_num; [unfold in_s; lia|].
  set (y := take (Z.to_nat n) (drop (Z.to_nat a) x)) in *. assert (zlen y = n) as Hy.
  { unfold y, zlen in *. rewrite length_take, length_drop. lia. }
  apply wp_bind, (wp_lift _ y).
  { unfold rdn. pose proof (zlen_nonneg r). rewrite zlen_app. zdec. f_equal. unfold y, zlen in *. rewrite drop_app_le, take_app_le; [done| |]; rewrite ?length_drop; lia. }
  unfold addReply, modify_side, modify, wp, mbind, Cmd_bind. cbn [with_sd sd heap integers held dbs argv]. cbn [set_out out]. 
  unfold r_bulk in HQ. rewrite Hy in HQ. by rewrite !sent_app, <- !(assoc_L (++)).
Qed.

Lemma sim_getrangeCommand N s : fits N s 4 ->
  (forall e n, a_argv (abs s) !! 3%nat = Some e -> parse_ll e = Some n -> n < 2 ^ 32) ->
  sim getrangeCommand spec_getrange s (finished N s).
Proof.
  intros F Hend. use_arg F 1%nat key k Hk Ek. use_arg F 2%nat sa sx Hsa Es. use_arg F 3%nat ea et Hea Ee. destruct F as (I & HN & Hl).
  pose proof (zlen_nonneg (argv s)). apply (sim_arg_r _ _ _ _ _ _ Ek), (sim_arg_r _ _ _ _ _ _ Es), (sim_arg_r _ _ _ _ _ _ Ee).
  eapply sim_argR; [exact I|exact Hsa|]. sim_next sim_parse_long; [exact I|by eapply raw_arg_val|]. intros r ? s1 (<- & I1 & _ & _ & Hs).
  destruct r as [start|]; [|apply sim_ret; eapply done_inv; [exact I1|lia]]. destruct (Hs _ eq_refl) as [Hstart ->].
  eapply sim_argR; [exact I|exact Hea|]. sim_next sim_parse_long; [exact I|by eapply raw_arg_val|]. intros r ? s2 (<- & I2 & Er & _ & Hs2).
  destruct r as [end_|]; [|apply sim_ret; eapply done_inv; [exact I2|lia]]. destruct (Hs2 _ eq_refl) as [Hend_ ->].
  symmetry in Er. specialize (Hend _ _ Ee Er). eapply sim_argR; [exact I|exact Hk|]. eapply sim_readOrReply; [exact I|exact Hk| |].
  - intros s3 I3 _ _ _. eapply sim_reply_ret; [exact I3|lia].
  - intros s3 a v I3 _ _ _ Hv. eapply sim_typed; [exact I3|exact Hv| |].
    2:{ intros t p ->. eapply sim_reply_ret; [exact I3|lia]. }
    intros x ->. cbn beta iota. destruct (val_len _ _ _ _ _ _ _ I3 Hv) as [_ Hx].
    eapply sim_step, wp_string_view; [exact I3|exact Hv|]. intros r. split; [done|].
    cbn beta iota zeta. destruct (range_bounds (zlen x) start end_ Hx Hstart Hend_ Hend) as [Ea Eb]. cbn zeta in Ea, Eb. rewrite Ea, Eb. clear Ea Eb.
    unfold substring. cbn zeta. set (i := Z.max 0 (if start <? 0 then _ else _)). set (j := Z.min _ (zlen x - 1)).
    destruct (Z.ltb_spec j i) as [Hji|Hji].
    + assert (Z.to_nat (j - i + 1) = 0)%nat as -> by lia. change (r_bulk (take 0 (drop (Z.to_nat i) x))) with shared_emptybulk.
      eapply sim_reply_done; [exact I3|lia].
    + apply wp_bulk_buffer; [lia|lia|lia|lia|]. split; [done|]. eapply done_inv; [by eapply inv_side|lia].
Qed.

(** *** All of them *)

End Commands.

(** ** The commands of t_string.c *)

Inductive string_command :=
  | CSet | CSetnx | CSetex | CPsetex | CGet | CGetset | CSetrange | CGetrange | CMget | CMset | CMsetnx
  | CIncr | CDecr | CIncrby | CDecrby | CAppend | CStrlen.

Section All.
Context `{ServerEnv}.

Definition string_proc (c : string_command) : Cmd unit :=
  match c with
  | CSet => setCommand | CSetnx => setnxCommand | CSetex => setexCommand | CPsetex => psetexCommand
  | CGet => getCommand | CGetset => getsetCommand | CSetrange => setrangeCommand | CGetrange => getrangeCommand
  | CMget => mgetCommand | CMset => msetCommand | CMsetnx => msetnxCommand
  | CIncr => incrCommand | CDecr => decrCommand | CIncrby => incrbyCommand | CDecrby => decrbyCommand
  | CAppend => appendCommand | CStrlen => strlenCommand
  end.

Definition string_spec (c : string_command) : Spec unit :=
  match c with
  | CSet => spec_set | CSetnx => spec_setnx | CSetex => spec_setex UNIT_SECONDS | CPsetex => spec_setex UNIT_MILLISECONDS
  | CGet => spec_get | CGetset => spec_getset | CSetrange => spec_setrange | CGetrange => spec_getrange
  | CMget => spec_mget | CMset => spec_mset false | CMsetnx => spec_mset true
  | CIncr => k ← a_arg 1; a_incr k 1 | CDecr => k ← a_arg 1; a_incr k (-1)
  | CIncrby => spec_incrby (fun n => n) | CDecrby => spec_incrby (fun n => swrap 64 (- n))
  | CAppend => spec_append | CStrlen => spec_strlen
  end.

(** The least number of arguments, the name of the command included. *)
Definition string_args (c : string_command) : nat :=
  match c with
  | CGet | CMget | CIncr | CDecr | CStrlen => 2
  | CSetex | CPsetex | CSetrange | CGetrange => 4
  | _ => 3
  end.

(** Where the code works as intended: the offset of SETRANGE and the length of the value do
    not overflow, and the end of GETRANGE is under 2^32. *)
Definition string_bounds (c : string_command) (l : list (list Z)) : Prop :=
  match c with
  | CSetrange => forall off y o, l !! 2%nat = Some off -> l !! 3%nat = Some y -> parse_ll off = Some o -> o + zlen y < 2 ^ 63
  | CGetrange => forall e n, l !! 3%nat = Some e -> parse_ll e = Some n -> n < 2 ^ 32
  | _ => True
  end.

Lemma string_command_sim c N s : fits N s (string_args c) -> string_bounds c (a_argv (abs s)) ->
  sim (string_proc c) (string_spec c) s (finished N s).
Proof.
  intros F B. destruct c; cbn [string_proc string_spec string_args string_bounds] in *.
  - by apply sim_setCommand.
  - by apply sim_setnxCommand.
  - exact (sim_setexGeneric N s UNIT_SECONDS F).
  - exact (sim_setexGeneric N s UNIT_MILLISECONDS F).
  - by apply sim_getCommand.
  - by apply sim_getsetCommand.
  - by apply sim_setrangeCommand.
  - by apply sim_getrangeCommand.
  - by apply sim_mgetCommand.
  - exact (sim_msetGeneric N s false F).
  - exact (sim_msetGeneric N s true F).
  - by apply (sim_incrCommand N s 1 F).
  - by apply (sim_incrCommand N s (-1) F).
  - by apply (sim_incrby N s (fun n => n)).
  - apply (sim_incrby N s (fun n => swrap 64 (- n))); [done|]. intros n _. apply swrap_any.
  - by apply sim_appendCommand.
  - by apply sim_strlenCommand.
Qed.

End All.
