(* ===== verification/DbThms.v ===== *)
(** * The commands on keys implement operations on a map of values with expires *)

From Stdlib Require Import Ascii String.
From S2P Require Import Prelude Util Sds Server ServerFacts ObjFacts Db DbFacts Tstring CommandFacts.
Import SdsSpec SdsFacts QuoteFacts.

(** ** Specification *)

Section Spec.
Context `{ServerEnv}.

Definition a_set_argv (l : list (list Z)) : Spec unit := fun t => (tt, AServer (a_dbs t) l (a_sd t)).

(** Keys are deleted whether they expired or not. *)
Fixpoint a_del (keys : list (list Z)) (deleted : Z) : Spec Z :=
  match keys with
  | [] => mret deleted
  | k :: keys =>
      db ← a_db;
      gone ← a_delete db k;
      if gone : bool then
        _ ← a_log (Modified db k);
        _ ← a_log (Notify REDIS_NOTIFY_GENERIC "del" k db);
        _ ← a_dirty 1;
        a_del keys (deleted + 1)
      else a_del keys deleted
  end.

Definition spec_del : Spec unit :=
  l ← a_gets a_argv; n ← a_del (drop 1 l) 0; a_reply (r_int n).

Definition spec_exists : Spec unit :=
  k ← a_arg 1;
  db ← a_db;
  o ← a_lookupWrite db k;
  a_reply (if bool_decide (is_Some o) then shared_cone else shared_czero).

(** The index of a database is converted to an int. *)
Definition spec_select : Spec unit :=
  x ← a_arg 1;
  r ← a_parse x "invalid DB index";
  match r with
  | None => mret tt
  | Some id =>
      let id := swrap 32 id in
      if (0 <=? id) && (id <? dbnum) then _ ← a_side (fun x => set_cur x id); a_reply shared_ok
      else a_reply (r_error "invalid DB index")
  end.

Definition spec_dbsize : Spec unit :=
  db ← a_db; d ← a_get db; a_reply (r_int (Z.of_nat (size (a_dict d)))).

Definition spec_flushdb : Spec unit :=
  db ← a_db;
  d ← a_get db;
  _ ← a_dirty (Z.of_nat (size (a_dict d)));
  _ ← a_log (Flushed db);
  _ ← a_set db (Adb ∅ ∅);
  a_reply shared_ok.

Definition type_name (v : option value) : string :=
  match v with
  | None => "none"
  | Some (VStr _) => "string"
  | Some (VOther t _) =>
      if t =? REDIS_LIST then "list" else if t =? REDIS_SET then "set"
      else if t =? REDIS_ZSET then "zset" else "hash"
  end.

Definition r_status (status : string) : list Z := str "+" ++ str status ++ crlf.

Definition spec_type : Spec unit :=
  k ← a_arg 1; db ← a_db; v ← a_lookupRead db k; a_reply (r_status (type_name v)).

Definition a_getExpire (db : Z) (k : list Z) : Spec Z := d ← a_get db; mret (default (-1) (a_expires d !! k)).

Definition spec_rename (nx : bool) : Spec unit :=
  k1 ← a_arg 1;
  k2 ← a_arg 2;
  if bool_decide (k1 = k2) then a_reply shared_sameobjecterr else
  db ← a_db;
  v ← a_lookupWrite db k1;
  match v with
  | None => a_reply shared_nokeyerr
  | Some v =>
      expire ← a_getExpire db k1;
      e ← a_lookupWrite db k2;
      if nx && bool_decide (is_Some e) then a_reply shared_czero else
      _ ← a_modify db (fun d => put k2 v (remove k2 d));
      _ ← (if negb (expire =? -1) then a_modify db (expire_at k2 expire) else mret tt);
      _ ← a_modify db (remove k1);
      _ ← a_log (Modified db k1);
      _ ← a_log (Modified db k2);
      _ ← a_log (Notify REDIS_NOTIFY_GENERIC "rename_from" k1 db);
      _ ← a_log (Notify REDIS_NOTIFY_GENERIC "rename_to" k2 db);
      _ ← a_dirty 1;
      a_reply (if nx then shared_cone else shared_ok)
  end.

(** The integer that atoi() reads at the start of a string. *)
Definition a_atoi (x : list Z) : Z := default 0 (atoi (cstring x ++ [0])).

(** The value moves without its expire. *)
Definition spec_move : Spec unit :=
  k ← a_arg 1;
  src ← a_db;
  x ← a_arg 2;
  let dst := a_atoi x in
  if negb ((0 <=? dst) && (dst <? dbnum)) then a_reply shared_outofrangeerr
  else if src =? dst then a_reply shared_sameobjecterr
  else
    v ← a_lookupWrite src k;
    match v with
    | None => a_reply shared_czero
    | Some v =>
        e ← a_lookupWrite dst k;
        match e with
        | Some _ => a_reply shared_czero
        | None =>
            _ ← a_modify dst (put k v);
            _ ← a_modify src (remove k);
            _ ← a_dirty 1;
            a_reply shared_cone
        end
    end.

(** The time in milliseconds wraps; a key whose time is in the past is deleted, and the
    command is replaced by DEL. *)
Definition a_expireGeneric (basetime unit_ : Z) : Spec unit :=
  k ← a_arg 1;
  x ← a_arg 2;
  r ← a_parse x not_an_integer;
  match r with
  | None => mret tt
  | Some when =>
      let when := swrap 64 ((if unit_ =? UNIT_SECONDS then swrap 64 (when * 1000) else when) + basetime) in
      db ← a_db;
      v ← a_lookupRead db k;
      match v with
      | None => a_reply shared_czero
      | Some _ =>
          now ← a_mstime;
          if (when <=? now) && negb loading && negb masterhost then
            _ ← a_modify db (remove k);
            _ ← a_dirty 1;
            _ ← a_set_argv [str "DEL"; k];
            _ ← a_log (Modified db k);
            _ ← a_log (Notify REDIS_NOTIFY_GENERIC "del" k db);
            a_reply shared_cone
          else
            _ ← a_modify db (expire_at k when);
            _ ← a_reply shared_cone;
            _ ← a_log (Modified db k);
            _ ← a_log (Notify REDIS_NOTIFY_GENERIC "expire" k db);
            a_dirty 1
      end
  end.

Definition spec_expire (unit_ : Z) : Spec unit := t ← a_mstime; a_expireGeneric t unit_.

(** -2 without the key, -1 without an expire, 0 after it. *)
Definition spec_ttl (output_ms : bool) : Spec unit :=
  k ← a_arg 1;
  db ← a_db;
  v ← a_lookupRead db k;
  match v with
  | None => a_reply (r_int (-2))
  | Some _ =>
      expire ← a_getExpire db k;
      if expire =? -1 then a_reply (r_int (-1))
      else
        now ← a_mstime;
        let ttl := swrap 64 (expire - now) in
        let ttl := if ttl <? 0 then 0 else ttl in
        a_reply (r_int (if output_ms then ttl else Z.quot (swrap 64 (ttl + 500)) 1000))
  end.

(** The expire is not looked at: a key that expired becomes persistent. *)
Definition spec_persist : Spec unit :=
  k ← a_arg 1;
  db ← a_db;
  d ← a_get db;
  if bool_decide (is_Some (a_dict d !! k)) && bool_decide (is_Some (a_expires d !! k)) then
    _ ← a_modify db (persist k); _ ← a_reply shared_cone; a_dirty 1
  else a_reply shared_czero.

End Spec.

(** ** Lemmas: the commands *)

Section Commands.
Context `{ServerEnv}.

(** *** DEL, EXISTS, SELECT, DBSIZE, TYPE *)

Lemma sim_del N R keys texts : forall s c,
  inv N [] [] R s -> Forall2 (fun a x => exists j, In (j, a, x) R) keys texts -> 0 <= c -> c + zlen keys < 2 ^ 31 ->
  sim (del_loop keys c) (a_del texts c) s (fun n n' s' => n = n' /\ inv N [] [] R s' /\ 0 <= n < 2 ^ 31).
Proof.
  intros s c I Hk. revert s c I. induction Hk as [|key k keys texts (j & Hj) _ IH]; intros s c I Hc HN; rewrite ?zlen_cons in HN.
  { change (zlen (@nil addr)) with 0 in HN. apply sim_ret. split_and!; [done|done|lia|lia]. }
  pose proof (zlen_nonneg keys). cbn [del_loop a_del]. apply sim_db. pose proof (inv_cur_db _ _ _ _ _ I) as Hcur.
  sim_next sim_dbDelete; [exact I|exact Hj|exact Hcur|]. intros gone ? s1 (<- & I1 & _ & _). destruct gone; [|apply IH; [done|lia|lia]].
  sim_next sim_signal; [exact I1|exact Hj|]. intros _ _ s2 (I2 & _). sim_next sim_notify; [exact I2|exact Hj|]. intros _ _ s3 (I3 & _).
  sim_next sim_incr_dirty; [exact I3|]. intros _ _ s4 (I4 & _). rewrite s32_small by lia. apply IH; [done|lia|lia].
Qed.

Lemma sim_delCommand N s : fits N s 1 -> sim delCommand spec_del s (finished N s).
Proof.
  intros (I & HN & Hl). pose proof (room_nonneg _ _ _ _ _ I). apply sim_gets_l, sim_gets_r.
  sim_next (sim_del N (all_args s)); [exact I| |lia| |].
  - eapply Forall2_impl; [by eapply args_pairs|]. intros a x (j & _ & Hj). by exists j.
  - unfold zlen in *. rewrite length_drop. lia.
  - intros n ? s1 (<- & I1 & Hn). eapply sim_int_done; [exact I1|unfold zlen in *; lia|unfold in_s; lia].
Qed.

Lemma sim_existsCommand N s : fits N s 2 -> sim existsCommand spec_exists s (finished N s).
Proof.
  intros F. use_arg F 1%nat key k Hk Ek. destruct F as (I & HN & Hl). pose proof (zlen_nonneg (argv s)).
  apply (sim_arg_r _ _ _ _ _ _ Ek), sim_db. pose proof (inv_cur_db _ _ _ _ _ I) as Hc. set (db := cur (sd s)) in *.
  eapply sim_argR; [exact I|exact Hk|]. apply sim_assoc_r. sim_next sim_expireIfNeeded; [exact I|exact Hk|exact Hc|].
  intros _ _ s1 (I1 & _ & _). destruct (inv_db _ _ _ _ _ _ I1 Hc) as [d Hd].
  eapply sim_bind, (sim_mono _ _ _ (fun b v s' => s' = s1 /\ b = bool_decide (is_Some v))).
  - apply wp_bind, (wp_key _ _ _ _ _ _ _ _ _ I1 Hk), wp_bind, (wp_get_db _ _ d); [done|]. apply wp_ret.
    cbn. split; [done|]. split; [done|]. apply bool_decide_ext. symmetry. by apply (cur_db_is_Some _ _ _ _ _ _ _ _ I1 Hd).
  - cbn beta. intros b v s2 [-> ->]. eapply sim_reply_done; [exact I1|lia].
Qed.

Lemma inv_side_cur N L D R s x : inv N L D R s -> 0 <= cur x < dbnum -> inv N L D R (with_sd s x).
Proof. intros [] Hc. constructor; try done. cbn. by destruct inv_cur as (? & ? & _). Qed.

Lemma sim_selectCommand N s : fits N s 2 -> sim selectCommand spec_select s (finished N s).
Proof.
  intros F. use_arg F 1%nat key k Hk Ek. destruct F as (I & HN & Hl). pose proof (zlen_nonneg (argv s)).
  apply (sim_arg_r _ _ _ _ _ _ Ek). eapply sim_argR; [exact I|exact Hk|]. sim_next sim_parse_long; [exact I|by eapply raw_arg_val|].
  intros r ? s1 (<- & I1 & _ & _ & _). destruct r as [id|]; [|apply sim_ret; eapply done_inv; [exact I1|lia]]. cbn zeta.
  unfold selectDb. set (i := swrap 32 id).
  destruct (Z.ltb_spec i 0), (Z.geb_spec i dbnum), (Z.leb_spec 0 i), (Z.ltb_spec i dbnum); try lia; cbn [orb andb];
    try (apply sim_ret_l; eapply sim_reply_done; [exact I1|lia]).
  apply sim_assoc, sim_bind. split; [done|]. apply sim_ret_l. eapply sim_reply_done; [by apply (inv_side_cur N [] [] (all_args s))|lia].
Qed.

Lemma vals_size m : zlen (vals m) = Z.of_nat (size m).
Proof. unfold vals, zlen. by rewrite length_map, length_map_to_list. Qed.

Lemma view_size N L D R s db d : inv N L D R s -> rd (dbs s) db = Some d -> size (a_dict (view (heap s) d)) = size (db_dict d).
Proof.
  intros I Hd. rewrite <- !size_dom. f_equal. apply set_eq. intros k. rewrite !elem_of_dom, view_lookup.
  destruct (db_dict d !! k) as [a|] eqn:E; [|split; by intros []]. destruct (at_key_val _ _ _ _ s db k a I) as (o & _ & _ & Hv); [by exists d|].
  cbn. rewrite Hv. split; by intros [].
Qed.

Lemma dict_size N L D R s db d : inv N L D R s -> rd (dbs s) db = Some d -> 0 <= Z.of_nat (size (db_dict d)) <= N.
Proof.
  intros I Hd. rewrite <- vals_size. split; [apply zlen_nonneg|]. pose proof (inv_room _ _ _ _ _ I) as Hr.
  rewrite zlen_app in Hr. unfold roots in Hr. rewrite !zlen_app in Hr. apply rd_In in Hd.
  assert (zlen (vals (db_dict d)) <= zlen (dict_refs (dbs s))) as Hle.
  { clear -Hd. induction (dbs s) as [|e l IH]; [done|]. cbn [map concat]. rewrite zlen_app. pose proof (zlen_nonneg (vals (db_dict e))).
    pose proof (zlen_nonneg (dict_refs l)). destruct Hd as [->|Hd]; [lia|]. specialize (IH Hd). lia. }
  pose proof (zlen_nonneg (integers s)). pose proof (zlen_nonneg (held s)). pose proof (zlen_nonneg (argv s)). pose proof (zlen_nonneg L.*1.*1). lia.
Qed.

Lemma sim_dbsizeCommand N s : fits N s 1 -> sim dbsizeCommand spec_dbsize s (finished N s).
Proof.
  intros (I & HN & Hl). pose proof (zlen_nonneg (argv s)). apply sim_db. pose proof (inv_cur_db _ _ _ _ _ I) as Hc. set (db := cur (sd s)) in *.
  destruct (inv_db _ _ _ _ _ _ I Hc) as [d Hd]. pose proof (dict_size _ _ _ _ _ _ _ I Hd).
  eapply sim_step, (wp_get_db _ _ d); [done|]. split; [done|]. apply sim_gets_r. rewrite (cur_db_eq _ _ _ Hd), (view_size _ _ _ _ _ _ _ I Hd).
  eapply sim_int_done; [exact I|lia|unfold in_s; lia].
Qed.

Lemma sim_typeCommand N s : fits N s 2 -> sim typeCommand spec_type s (finished N s).
Proof.
  intros F. use_arg F 1%nat key k Hk Ek. destruct F as (I & HN & Hl). pose proof (zlen_nonneg (argv s)).
  apply (sim_arg_r _ _ _ _ _ _ Ek), sim_db. pose proof (inv_cur_db _ _ _ _ _ I) as Hc. eapply sim_argR; [exact I|exact Hk|].
  sim_next sim_lookupKeyRead; [exact I|exact Hk|exact Hc|]. intros r v s1 (I1 & _ & _ & Hf).
  destruct r as [a|], v as [v|]; try done; [|eapply sim_reply_done; [exact I1|lia]]. destruct Hf as [_ Hv].
  destruct (val_obj _ _ _ _ _ _ _ I1 Hv) as (o & Ho & Hok & Hov). eapply sim_step, (wp_load _ o); [done|]. split; [done|].
  assert ((if (o_type o =? REDIS_STRING)%Z then "string" else if (o_type o =? REDIS_LIST)%Z then "list"
     else if (o_type o =? REDIS_SET)%Z then "set" else if (o_type o =? REDIS_ZSET)%Z then "zset"
     else if (o_type o =? REDIS_HASH)%Z then "hash" else "unknown")%string = type_name (Some v)) as ->.
  { destruct v as [x|t p]; [by destruct (obj_string _ _ Hok Hov) as (-> & _)|]. destruct (obj_other _ _ _ Hok Hov) as [-> Ht].
    assert (t = 1 \/ t = 2 \/ t = 3 \/ t = 4) as [->|[->|[->| ->]]] by lia; done. }
  eapply sim_reply_done; [exact I1|lia].
Qed.

(** *** Deletions as modifications *)

Lemma delete_modify db k t r t' d : rd (a_dbs t) db = Some d -> a_delete db k t = (r, t') -> a_modify db (remove k) t = (tt, t').
Proof. intros Hd E. unfold a_delete, a_modify, mbind, Spec_bind in *. cbn in *. by injection E as _ <-. Qed.

Lemma wp_delete N L R s j key k db :
  inv N L [] R s -> In (j, key, k) R -> 0 <= db < dbnum ->
  wp (dbDelete db key) s (fun r s' => inv N L [] R s' /\ args_kept s s' /\ sd s' = sd s /\ a_modify db (remove k) (abs s) = (tt, abs s') /\
    r = bool_decide (is_Some (a_dict (cur_db db (abs s)) !! k))).
Proof.
  intros I Hj Hdb. destruct (inv_db _ _ _ _ _ _ I Hdb) as [d Hd]. eapply wp_mono; [by eapply wp_dbDelete|]. cbn beta.
  intros r s' (I' & K' & S' & E'). split_and!; [done|done|done| |].
  - eapply (delete_modify db k (abs s) r _ (view (heap s) d)); [by rewrite abs_rd, Hd|done].
  - rewrite (a_delete_eq _ _ _ _ Hd) in E'. rewrite (cur_db_eq _ _ _ Hd). by injection E' as <- _.
Qed.

Lemma sim_delete N L R s j key k db :
  inv N L [] R s -> In (j, key, k) R -> 0 <= db < dbnum ->
  sim (dbDelete db key) (a_modify db (remove k)) s (fun r _ s' => inv N L [] R s' /\ args_kept s s' /\ sd s' = sd s /\
    r = bool_decide (is_Some (a_dict (cur_db db (abs s)) !! k))).
Proof.
  intros I Hj Hdb. eapply wp_mono; [by eapply wp_delete|]. cbn beta. intros r s' (I' & K' & S' & -> & Er). done.
Qed.

Lemma sim_modify1 {A B B'} (m : Cmd A) (g : A -> Cmd B) db f (am : Spec B') s (P : A -> server -> Prop) Q :
  wp m s P -> (forall x s1, P x s1 -> a_modify db f (abs s) = (tt, abs s1) /\ sim (g x) am s1 Q) ->
  sim (m ≫= g) (_ ← a_modify db f; am) s Q.
Proof.
  intros Hm HP. apply wp_bind. eapply wp_mono; [exact Hm|]. intros x s1 [E Hs]%HP. unfold mbind, Spec_bind. by rewrite E.
Qed.

(** Two steps that make one step of the specification. *)
Lemma sim_two {A A' B B'} (m1 : Cmd A) (m2 : Cmd A') (g : Cmd B) (am1 : Spec unit) (am : Spec B') s Q :
  wp m1 s (fun _ s1 => wp m2 s1 (fun _ s2 => am1 (abs s) = (tt, abs s2) /\ sim g am s2 Q)) ->
  sim (_ ← m1; _ ← m2; g) (_ ← am1; am) s Q.
Proof.
  intros Hm. apply wp_bind. eapply wp_mono; [exact Hm|]. cbn beta. intros _ s1 H1. apply wp_bind. eapply wp_mono; [exact H1|].
  cbn beta. intros _ s2 [E Hs]. unfold mbind at 1, Spec_bind. rewrite E. exact Hs.
Qed.

Lemma cur_db_modify N L D R s s' db f : inv N L D R s -> 0 <= db < dbnum -> a_modify db f (abs s) = (tt, abs s') ->
  cur_db db (abs s') = f (cur_db db (abs s)).
Proof. intros I Hdb E. destruct (inv_db _ _ _ _ _ _ I Hdb) as [d Hd]. by eapply cur_db_set. Qed.

(** A key that is not there has no expire. *)
Lemma remove_absent N L D R s db d k : inv N L D R s -> rd (dbs s) db = Some d -> db_dict d !! k = None ->
  remove k (view (heap s) d) = view (heap s) d.
Proof.
  intros I Hd Hk. unfold remove, view. cbn. f_equal.
  - apply delete_id. by rewrite lookup_omap, Hk.
  - apply delete_id. destruct (db_expires d !! k) as [w|] eqn:E; [|done]. apply rd_In in Hd.
    destruct (inv_expires _ _ _ _ _ I _ _ _ Hd E) as [_ [a Ha]]. by rewrite Hk in Ha.
Qed.

(** *** RENAME *)

(** The value becomes the value of another key. *)
Lemma wp_rebind N R s j key k db o v e w :
  inv N [(o, v, false)] [] R s -> In (j, key, k) R -> 0 <= db < dbnum -> found s db k e w ->
  wp (match e with Some _ => _ ← dbDelete db key; mret tt | None => mret tt end) s (fun _ s1 =>
    wp (dbAdd db key o) s1 (fun _ s2 => a_modify db (fun d => put k v (remove k d)) (abs s) = (tt, abs s2) /\
      inv N [] [] R s2 /\ args_kept s s2 /\ sd s2 = sd s)).
Proof.
  intros I Hj Hdb Hf. destruct (inv_db _ _ _ _ _ _ I Hdb) as [d Hd]. destruct e as [e|].
  - apply wp_bind. eapply wp_mono; [by eapply wp_delete|]. cbn beta. intros _ s1 (I1 & K1 & S1 & E1 & _). apply wp_ret.
    destruct (inv_db _ _ _ _ _ _ I1 Hdb) as [d1 Hd1].
    assert (db_dict d1 !! k = None) as Hk.
    { pose proof (cur_db_modify _ _ _ _ _ _ _ _ I Hdb E1) as Ec. apply (f_equal (fun x => a_dict x !! k)) in Ec.
      cbn in Ec. rewrite lookup_delete_eq, (cur_db_eq _ _ _ Hd1), view_lookup in Ec.
      destruct (db_dict d1 !! k) as [a|] eqn:Ek; [|done]. destruct (at_key_val _ _ _ _ s1 db k a I1) as (? & _ & _ & Hv); [by exists d1|].
      cbn in Ec. by rewrite Hv in Ec. }
    eapply wp_mono; [eapply (wp_dbAdd_local _ _ _ _ _ _ _ _ _ _ _ _ d1 I1 Hj Hd1 Hk)|]. cbn beta.
    intros _ s2 (I2 & E2 & K2 & S2 & _). split_and!; [by eapply modify_twice|done|by eapply args_kept_trans|by rewrite S2, S1].
  - destruct w as [w|]; [done|]. destruct Hf as (d' & Hd' & Hk). rewrite Hd in Hd'. injection Hd' as <-. apply wp_ret.
    eapply wp_mono; [eapply (wp_dbAdd_local _ _ _ _ _ _ _ _ _ _ _ _ d I Hj Hd Hk)|]. cbn beta.
    intros _ s2 (I2 & E2 & K2 & S2 & _). split_and!; [|done|done|done]. rewrite <- E2. rewrite !(a_modify_eq _ _ _ _ Hd).
    by rewrite (remove_absent _ _ _ _ _ _ _ _ I Hd Hk).
Qed.

Lemma wp_getExpire_view N L D R s j key k db :
  inv N L D R s -> In (j, key, k) R -> 0 <= db < dbnum ->
  sim (getExpire db key) (a_getExpire db k) s (fun x y s' => x = y /\ s' = s /\ in_s 64 x).
Proof.
  intros I Hj Hdb. destruct (inv_db _ _ _ _ _ _ I Hdb) as [d Hd]. eapply (wp_getExpire _ _ _ _ _ _ _ _ _ d); [exact I|exact Hj|exact Hd|].
  unfold a_getExpire, a_get, a_gets, mbind, Spec_bind, mret, Spec_ret. rewrite (cur_db_eq _ _ _ Hd). split_and!; [done|done|done|]. destruct (db_expires d !! k) as [w|] eqn:E; [|cbn; unfold in_s; lia].
  apply rd_In in Hd. by destruct (inv_expires _ _ _ _ _ I _ _ _ Hd E).
Qed.

Lemma sim_rename_end N0 B N R s s0 src k1 dst k2 db expire (nx : bool) :
  inv N [] [] R s -> In (1%nat, src, k1) R -> In (2%nat, dst, k2) R -> 0 <= db < dbnum -> in_s 64 expire ->
  is_Some (a_dict (cur_db db (abs s)) !! k2) -> N <= N0 + B < 2 ^ 31 ->
  sim (_ ← (if negb (expire =? -1) then setExpire db dst expire else mret tt);
       _ ← dbDelete db src;
       _ ← signalModifiedKey db src;
       _ ← signalModifiedKey db dst;
       _ ← notifyKeyspaceEvent REDIS_NOTIFY_GENERIC "rename_from" src db;
       _ ← notifyKeyspaceEvent REDIS_NOTIFY_GENERIC "rename_to" dst db;
       _ ← incr_dirty 1;
       addReply (if nx then shared_cone else shared_ok))
      (_ ← (if negb (expire =? -1) then a_modify db (expire_at k2 expire) else mret tt);
       _ ← a_modify db (remove k1);
       _ ← a_log (Modified db k1);
       _ ← a_log (Modified db k2);
       _ ← a_log (Notify REDIS_NOTIFY_GENERIC "rename_from" k1 db);
       _ ← a_log (Notify REDIS_NOTIFY_GENERIC "rename_to" k2 db);
       _ ← a_dirty 1;
       a_reply (if nx then shared_cone else shared_ok)) s (done_with N0 s0 B).
Proof.
  intros I H1 H2 Hdb He Hk HN.
  eapply sim_bind, (sim_mono _ _ _ (fun _ _ s' => inv N [] [] R s')).
  { destruct (negb _); [|by apply sim_ret]. eapply sim_mono; [by eapply sim_setExpire|]. by intros ? ? ? (? & _). }
  cbn beta. intros _ _ s1 I1. sim_next sim_delete; [exact I1|exact H1|exact Hdb|]. intros _ _ s2 (I2 & _).
  sim_next sim_signal; [exact I2|exact H1|]. intros _ _ s3 (I3 & _). sim_next sim_signal; [exact I3|exact H2|]. intros _ _ s4 (I4 & _).
  sim_next sim_notify; [exact I4|exact H1|]. intros _ _ s5 (I5 & _). sim_next sim_notify; [exact I5|exact H2|]. intros _ _ s6 (I6 & _).
  sim_next sim_incr_dirty; [exact I6|]. intros _ _ s7 (I7 & _). eapply sim_reply_done; [exact I7|lia].
Qed.

Lemma sim_renameGeneric N s nx : fits N s 3 -> sim (renameGenericCommand nx) (spec_rename nx) s (finished N s).
Proof.
  intros F. use_arg F 1%nat src k1 H1 E1. use_arg F 2%nat dst k2 H2 E2. destruct F as (I & HN & Hl). pose proof (zlen_nonneg (argv s)).
  apply (sim_arg_r _ _ _ _ _ _ E1), (sim_arg_r _ _ _ _ _ _ E2).
  eapply sim_argR; [exact I|exact H1|]. eapply sim_argR; [exact I|exact H2|].
  eapply sim_step, (wp_key _ _ _ _ _ _ _ _ _ I H1). split; [done|]. eapply sim_step, (wp_key _ _ _ _ _ _ _ _ _ I H2). split; [done|].
  destruct (bool_decide (k1 = k2)) eqn:Ek; [eapply sim_reply_done; [exact I|lia]|]. apply sim_assoc, sim_db.
  pose proof (inv_cur_db _ _ _ _ _ I) as Hc. set (db := cur (sd s)) in *. apply sim_assoc.
  sim_next sim_lookupKeyWrite; [exact I|exact H1|exact Hc|]. intros o v s1 (I1 & _ & C1 & F1).
  destruct o as [o|], v as [v|]; try done; [|apply sim_assoc; eapply sim_reply_ret; [exact I1|lia]]. apply sim_ret_l.
  destruct F1 as [_ Hv]. eapply sim_step, wp_gets. split; [done|]. rewrite C1. change (cur (sd s)) with db.
  sim_skip (wp_incr N [] [] (all_args s) s1 o v false); [exact I1|exact Hv|done|lia|]. intros _ s2 (I2 & A2 & _). split; [done|].
  sim_next wp_getExpire_view; [exact I2|exact H1|exact Hc|]. intros expire ? ? (<- & -> & Hex).
  sim_next sim_lookupKeyWrite; [exact I2|exact H2|exact Hc|]. intros e w s3 (I3 & _ & _ & F3).
  assert (bool_decide (is_Some w) = bool_decide (is_Some e)) as -> by (destruct e, w; done).
  assert (sim
    (_ ← (match e with Some _ => _ ← dbDelete db dst; mret tt | None => mret tt end);
     _ ← dbAdd db dst o;
     _ ← (if negb (expire =? -1) then setExpire db dst expire else mret tt);
     _ ← dbDelete db src;
     _ ← signalModifiedKey db src;
     _ ← signalModifiedKey db dst;
     _ ← notifyKeyspaceEvent REDIS_NOTIFY_GENERIC "rename_from" src db;
     _ ← notifyKeyspaceEvent REDIS_NOTIFY_GENERIC "rename_to" dst db;
     _ ← incr_dirty 1;
     addReply (if nx then shared_cone else shared_ok))
    (_ ← a_modify db (fun d => put k2 v (remove k2 d));
     _ ← (if negb (expire =? -1) then a_modify db (expire_at k2 expire) else mret tt);
     _ ← a_modify db (remove k1);
     _ ← a_log (Modified db k1);
     _ ← a_log (Modified db k2);
     _ ← a_log (Notify REDIS_NOTIFY_GENERIC "rename_from" k1 db);
     _ ← a_log (Notify REDIS_NOTIFY_GENERIC "rename_to" k2 db);
     _ ← a_dirty 1;
     a_reply (if nx then shared_cone else shared_ok)) s3 (finished N s)) as Hmove.
  { apply sim_two. eapply wp_mono; [by eapply wp_rebind|]. cbn beta. intros _ s4 W. eapply wp_mono; [exact W|]. cbn beta.
    intros _ s5 (E5 & I5 & _ & _). split; [done|]. eapply sim_rename_end; [exact I5|exact H1|exact H2|exact Hc|exact Hex| |lia].
    rewrite (cur_db_modify _ _ _ _ _ _ _ _ I3 Hc E5). cbn. rewrite lookup_insert_eq. by eexists. }
  destruct e as [e|], nx; cbn [andb]; try exact Hmove.
  sim_skip wp_decr; [exact I3|by left|]. intros _ s4 (I4 & A4 & _). split; [done|]. eapply sim_reply_done; [exact I4|lia].
Qed.

(** *** MOVE *)

Lemma skip_space_app l z r : skip_space l = Some z -> skip_space (l ++ r) = Some (z ++ r).
Proof. induction l as [|c l IH]; [done|]. cbn [skip_space app]. destruct (isspace c); [done|]. by intros [= <-]. Qed.

Lemma scan_digits_app r l : forall z v w, scan_digits l v = Some (z, w) -> scan_digits (l ++ r) v = Some (z ++ r, w).
Proof. induction l as [|c l IH]; intros z v w; [done|]. cbn [scan_digits app]. destruct (is_digit c); [apply IH|]. by intros [= <- <-]. Qed.

(** What is after the NUL does not count. *)
Lemma strtoll_app l r v e b : strtoll l = Some (v, e, b) -> exists e', strtoll (l ++ r) = Some (v, e', b).
Proof.
  unfold strtoll. destruct (skip_space l) as [z|] eqn:E1; [|done]. rewrite (skip_space_app _ _ _ E1). cbn [mbind option_bind].
  destruct z as [|c z]; [done|]. cbn [app]. set (neg := c =? ch_minus).
  assert ((if neg || (c =? 43) then z ++ r else c :: z ++ r) = (if neg || (c =? 43) then z else c :: z) ++ r) as -> by (by destruct (_ || _)).
  set (d := if _ : bool then z else _). destruct (scan_digits d 0) as [[y w]|] eqn:E2; [|done]. rewrite (scan_digits_app _ _ _ _ _ E2). cbn [mbind option_bind].
  rewrite !zlen_app. assert ((zlen y + zlen r =? zlen d + zlen r) = (zlen y =? zlen d)) as ->.
  { destruct (Z.eqb_spec (zlen y) (zlen d)), (Z.eqb_spec (zlen y + zlen r) (zlen d + zlen r)); (done || lia). }
  clearbody d neg. repeat case_match; intros [= <- <- <-]; by eexists.
Qed.

Lemma atoi_arg b x : rep b x -> atoi (s_buf b) = Some (a_atoi x) /\ in_s 32 (a_atoi x).
Proof.
  intros (sp & -> & _). destruct (cstring_split x sp) as (sp' & -> & Hz). unfold a_atoi.
  destruct (strtoll_ok (cstring x) []) as (v & e & er & ? & ? & E & _). unfold atoi. rewrite E. cbn [mbind option_bind default].
  destruct (strtoll_app _ sp' _ _ _ E) as [e' E']. rewrite <- (assoc_L (++)) in E'. cbn [app] in E'. rewrite E'. split; [done|by apply swrap_range].
Qed.

(** The runs behind a simulation. *)
Lemma sim_run {A B} (m : Cmd A) (am : Spec B) s Q :
  sim m am s Q -> sim m am s (fun x y s' => Q x y s' /\ m s = Some (x, s') /\ am (abs s) = (y, abs s')).
Proof. unfold sim, wp. destruct (m s) as [[x s']|]; [|done]. destruct (am (abs s)) as [y t]. by intros [-> ?]. Qed.

(** Computations that leave another database alone. *)
Definition keeps {A} (n : Z) (m : Cmd A) : Prop := forall s x s', m s = Some (x, s') -> rd (dbs s') n = rd (dbs s) n.

Lemma keeps_bind {A B} n (m : Cmd A) (f : A -> Cmd B) : keeps n m -> (forall x, keeps n (f x)) -> keeps n (m ≫= f).
Proof.
  intros Hm Hf s x s'. unfold mbind, Cmd_bind. destruct (m s) as [[y s1]|] eqn:E; [|done]. intros E2.
  by rewrite (Hf y _ _ _ E2), (Hm _ _ _ E).
Qed.

Lemma keeps_ret {A} n (x : A) : keeps n (mret x).
Proof. by intros s y s' [= _ <-]. Qed.
Lemma keeps_panic {A} n : keeps n (@panic A).
Proof. done. Qed.
Lemma keeps_lift {A} n (o : option A) : keeps n (lift o).
Proof. intros s y s'. unfold lift. by destruct o as [x|]; [intros [= _ <-]|]. Qed.
Lemma keeps_gets {A} n (f : server -> A) : keeps n (gets f).
Proof. by intros s y s' [= _ <-]. Qed.
Lemma keeps_modify n f : (forall s, dbs (f s) = dbs s) -> keeps n (modify f).
Proof. intros Hf s y s' [= _ <-]. by rewrite Hf. Qed.
Lemma keeps_set_db n db d : n <> db -> 0 <= n -> keeps n (set_db db d).
Proof.
  intros Hn H0 s x s'. unfold set_db, mbind, Cmd_bind, gets, lift, wr. cbn. destruct (_ && _) eqn:E; [|done]. intros [= _ <-]. bool_to_prop.
  cbn. unfold rd. zdec. by rewrite list_lookup_insert_ne by lia.
Qed.

Lemma keeps_lookupKeyWrite n db key : n <> db -> 0 <= n -> keeps n (lookupKeyWrite db key).
Proof.
  intros Hn H0. unfold lookupKeyWrite, expireIfNeeded, getExpire, mstime, propagateExpire, notifyKeyspaceEvent, dbDelete, dict_delete,
    set_expires, set_dict, decrRefCount, lookupKey, key_bytes, get_db, load, store, zfree, obj_sds, redisAssert, modify_side.
  repeat first [by apply keeps_set_db | apply keeps_bind; [|intros] | apply keeps_ret | apply keeps_panic | apply keeps_lift
    | apply keeps_gets | by apply keeps_modify | case_match].
Qed.

(** The same for the specification. *)
Lemma cur_db_insert n db d t l x : n <> db -> 0 <= n -> 0 <= db -> cur_db n (AServer (<[Z.to_nat db := d]> (a_dbs t)) l x) = cur_db n t.
Proof. intros Hn H0 H1. unfold cur_db, rd. cbn. zdec. by rewrite list_lookup_insert_ne by lia. Qed.

Lemma a_lookupWrite_other n db k t : n <> db -> 0 <= n -> 0 <= db -> cur_db n (snd (a_lookupWrite db k t)) = cur_db n t.
Proof.
  intros Hn H0 H1. unfold a_lookupWrite, a_expire, a_find, a_modify, a_mstime, a_log, a_get, a_gets, a_set, a_side, mbind, Spec_bind, mret, Spec_ret.
  repeat case_match; simplify_eq; try done; cbn [snd]; rewrite ?cur_db_insert by done; done.
Qed.

(** The database is selected and the first one is selected again. *)
Lemma sim_visit {A B} dst (f : Z -> Cmd A) (z : Cmd A) (am : Spec B) s Q :
  sim (f dst) am s Q ->
  sim (ok ← (_ ← modify_side (fun x => set_cur x dst); mret true);
       if negb ok then z else
       d ← c_db; _ ← (_ ← modify_side (fun x => set_cur x (cur (sd s))); mret true); f d) am s Q.
Proof.
  intros Hs. assert (with_sd (with_sd s (set_cur (sd s) dst)) (set_cur (set_cur (sd s) dst) (cur (sd s))) = s) as Es by (by destruct s as [? ? ? ? ? []]).
  unfold sim, wp in *. match goal with |- match ?m with _ => _ end => assert (m = f dst s) as -> end; [|exact Hs].
  transitivity (f dst (with_sd (with_sd s (set_cur (sd s) dst)) (set_cur (set_cur (sd s) dst) (cur (sd s))))); [done|by rewrite Es].
Qed.

Lemma sim_moveCommand N s : fits N s 3 -> sim moveCommand spec_move s (finished N s).
Proof.
  intros F. use_arg F 1%nat key k H1 E1. use_arg F 2%nat dba x H2 E2. destruct F as (I & HN & Hl). pose proof (zlen_nonneg (argv s)).
  apply (sim_arg_r _ _ _ _ _ _ E1), sim_db. pose proof (inv_cur_db _ _ _ _ _ I) as Hc. set (src := cur (sd s)) in *.
  apply (sim_arg_r _ _ _ _ _ _ E2). eapply sim_arg_sds; [exact I|exact H2|]. intros b Hb. destruct (atoi_arg b x Hb) as [Ea Hi].
  eapply sim_step, (wp_lift _ _ _ _ Ea). split; [done|]. cbn zeta. set (dst := a_atoi x) in *. unfold selectDb.
  destruct (Z.leb_spec 0 dst), (Z.ltb_spec dst dbnum), (Z.ltb_spec dst 0), (Z.geb_spec dst dbnum); try lia; cbn [orb andb negb];
    try (apply sim_ret_l; eapply sim_reply_done; [exact I|lia]).
  destruct (Z.ltb_spec src 0), (Z.geb_spec src dbnum); try lia. cbn [orb].
  apply sim_visit. destruct (src =? dst) eqn:Esd; [eapply sim_reply_done; [exact I|lia]|]. apply Z.eqb_neq in Esd.
  eapply sim_argR; [exact I|exact H1|]. sim_next sim_lookupKeyWrite; [exact I|exact H1|exact Hc|]. intros o v s1 (I1 & _ & _ & F1).
  destruct o as [o|], v as [v|]; try done; [|eapply sim_reply_done; [exact I1|lia]]. destruct F1 as [(d & Hd & Hk) Hv].
  eapply sim_bind, sim_mono; [eapply sim_run, sim_lookupKeyWrite; [exact I1|exact H1|lia]|cbn beta].
  intros e w s2 ((I2 & _ & _ & F2) & Em & Es). destruct e as [e|], w as [w|]; try done; [eapply sim_reply_done; [exact I2|lia]|].
  apply (keeps_lookupKeyWrite src) in Em; [|lia|lia]. rewrite Hd in Em.
  pose proof (a_lookupWrite_other src dst k (abs s1) ltac:(lia) ltac:(lia) ltac:(lia)) as Ec. rewrite Es in Ec. cbn [snd] in Ec.
  rewrite (cur_db_eq _ _ _ Em), (cur_db_eq _ _ _ Hd) in Ec. apply (f_equal (fun x => a_dict x !! k)) in Ec.
  rewrite !view_lookup, Hk in Ec. cbn in Ec. rewrite Hv in Ec.
  destruct F2 as (d2 & Hd2 & Hk2). pose proof (inv_ghost _ _ _ _ _ o v I2 Ec ltac:(lia)) as I3.
  eapply sim_bind. eapply wp_mono; [eapply (wp_dbAdd_local _ _ _ _ _ _ _ _ _ _ _ _ d2 I3 H1 Hd2 Hk2)|]. cbn beta.
  intros _ s4 (I4 & -> & _). split; [done|]. sim_skip wp_incr_stored; [exact I4|]. intros _ s5 (I5 & E5 & _). split; [done|].
  sim_next sim_delete; [exact I5|exact H1|exact Hc|]. intros _ _ s6 (I6 & _). sim_next sim_incr_dirty; [exact I6|].
  intros _ _ s7 (I7 & _). eapply sim_reply_done; [exact I7|lia].
Qed.

(** *** The arguments of the client are replaced *)

(** The arguments as references in variables. *)
Definition old_args (s : server) : list local := map (fun a => (a, VStr (text_at (heap s) a), false)) (argv s).

Lemma old_args_addr s : (old_args s).*1.*1 = argv s.
Proof. unfold old_args. induction (argv s) as [|a l IH]; [done|]. cbn. by f_equal. Qed.

Lemma inv_argv N L1 L R R' s args :
  inv N (L1 ++ L) [] R s -> L1.*1.*1 ≡ₚ args -> (forall a v r, In (a, v, r) L1 -> exists x, v = VStr x) ->
  (forall j a k, In (j, a, k) R' -> args !! j = Some a /\ raw (heap s) a k) ->
  let s' := with_argv s args in
  inv N (old_args s ++ L) [] R' s' /\ abs s' = AServer (a_dbs (abs s)) (text_at (heap s) <$> args) (a_sd (abs s)).
Proof.
  intros I Hp HL HR s'. split; [|done].
  assert (forall f : list addr -> Z, (forall l k, f (l ++ k) = f l + f k) -> f L1.*1.*1 = f args ->
    f (roots s' ++ (old_args s ++ L).*1.*1) = f (roots s ++ (L1 ++ L).*1.*1)) as Hroots.
  { intros f Hf E. rewrite !fmap_app, old_args_addr. unfold roots, s'. cbn [with_argv integers held argv dbs]. rewrite !Hf. lia. }
  constructor; try by destruct I.
  - intros b. pose proof (inv_refs _ _ _ _ _ I b) as Hr. rewrite (Hroots (occ b)); [exact Hr|apply occ_app|by apply occ_perm].
  - rewrite (Hroots zlen); [by eapply inv_room|apply zlen_app|by apply zlen_permutation].
  - intros a v r [Ha|Ha]%in_app_iff; [|apply (inv_locals _ _ _ _ _ I), in_app_iff; by right].
    apply in_map_iff in Ha as (b & [= <- <- <-] & [j Hb]%list_elem_of_In%list_elem_of_lookup_1). split; [|done].
    destruct (arg_val _ _ _ _ _ _ _ I Hb) as (o & x & _ & _ & _ & _ & Hv & _). unfold text_at. cbn. by rewrite Hv.
  - intros a Ha. cbn in Ha. assert (In a L1.*1.*1) as ([b r] & E1 & ([[c v] q] & E2 & Hin)%in_map_iff)%in_map_iff.
    { apply list_elem_of_In. rewrite Hp. by apply list_elem_of_In. }
    cbn in E1, E2. injection E2 as -> ->. subst b. destruct (HL a r q Hin) as [x ->]. destruct (inv_locals _ _ _ _ _ I a (VStr x) q) as [Hv _]; [apply in_app_iff; by left|].
    destruct (val_obj _ _ _ _ _ _ _ I Hv) as (o & Ho & Hok & Hov). exists o. by destruct (obj_string _ _ Hok Hov).
Qed.

#[local] Arguments with_heap : simpl never.

(** Dropping references changes the objects only. *)
Lemma decr_all_frame (g : server -> server) l :
  (forall s, heap (g s) = heap s) -> (forall s h, with_heap (g s) h = g (with_heap s h)) -> forall s,
  decr_all l (g s) = match decr_all l s with Some (x, s') => Some (x, g s') | None => None end.
Proof.
  intros H1 H2. induction l as [|a l IH]; intros s; [done|]. cbn [decr_all]. unfold mbind, Cmd_bind.
  assert (decrRefCount a (g s) = match decrRefCount a s with Some (x, s') => Some (x, g s') | None => None end) as ->.
  { unfold decrRefCount, store, zfree, load, gets, lift, modify, mbind, Cmd_bind, redisAssert, cassert. cbn. rewrite !H1.
    destruct (heap s !! a) as [o|] eqn:E; [|done]. cbn.
    destruct (o_refcount o <=? 0); [done|]. destruct (o_refcount o =? 1); [|cbn; rewrite H1, E; cbn; by rewrite H1, H2].
    unfold lift. destruct (_ && _); [|done]. cbn. rewrite H1, E. cbn. by rewrite H1, H2. }
  destruct (decrRefCount a s) as [[x s1]|]; [|done]. apply IH.
Qed.

(** Variables drop their references. *)
Lemma wp_decr_locals N L R L1 : forall s, inv N (L1 ++ L) [] R s ->
  wp (decr_all L1.*1.*1) s (fun _ s' => inv N L [] R s' /\ abs s' = abs s /\ heap_step s s').
Proof.
  induction L1 as [|[[a v] r] L1 IH]; intros s I.
  { apply wp_ret. split_and!; [done|done|apply heap_step_refl]. }
  change (((a, v, r) :: L1).*1.*1) with (a :: L1.*1.*1). cbn [decr_all]. apply wp_bind.
  eapply wp_mono; [eapply wp_decr; [exact I|by left]|]. cbn beta. intros _ s1 (I1 & E1 & H1 & _).
  eapply wp_mono; [apply IH; eapply inv_weaken; [exact I1|pose proof (inv_room _ _ _ _ _ I); lia]|]. cbn beta.
  intros _ s2 (I2 & E2 & H2). split_and!; [done|by rewrite E2|by eapply heap_step_trans].
Qed.

(** All the arguments are dropped for others, which variables hold. *)
Lemma wp_new_argv N L1 L R R' s args :
  inv N (L1 ++ L) [] R s -> L1.*1.*1 ≡ₚ args -> (forall a v r, In (a, v, r) L1 -> exists x, v = VStr x) ->
  (forall j a k, In (j, a, k) R' -> args !! j = Some a /\ raw (heap s) a k) ->
  wp (old ← gets argv; _ ← decr_all old; modify (fun s => with_argv s args)) s (fun _ s' =>
    inv N L [] R' s' /\ abs s' = AServer (a_dbs (abs s)) (text_at (heap s) <$> args) (a_sd (abs s)) /\
    dbs s' = dbs s /\ sd s' = sd s /\ argv s' = args).
Proof.
  intros I Hp HL HR. destruct (inv_argv _ _ _ _ _ _ _ I Hp HL HR) as [I' E'].
  pose proof (wp_decr_locals N L R' (old_args s) (with_argv s args) I') as W. rewrite old_args_addr in W. unfold wp in W. rewrite (decr_all_frame (fun s => with_argv s args)) in W by done.
  apply wp_bind, wp_gets, wp_bind. unfold wp. destruct (decr_all (argv s) s) as [[[] s1]|]; [|done].
  destruct W as (I1 & E1 & H1). cbn. rewrite E1, E'. split_and!; try done.
  - by apply (f_equal dbs) in H1.
  - by apply (f_equal sd) in H1.
Qed.

(** *** FLUSHDB *)

Lemma sim_flushdbCommand N s : fits N s 1 -> sim flushdbCommand spec_flushdb s (finished N s).
Proof.
  intros (I & HN & Hl). pose proof (zlen_nonneg (argv s)). apply sim_db. pose proof (inv_cur_db _ _ _ _ _ I) as Hc. set (db := cur (sd s)) in *.
  destruct (inv_db _ _ _ _ _ _ I Hc) as [d Hd]. eapply sim_step, (wp_get_db _ _ d); [done|]. split; [done|]. apply sim_gets_r.
  rewrite (cur_db_eq _ _ _ Hd), (view_size _ _ _ _ _ _ _ I Hd). sim_next sim_incr_dirty; [exact I|]. intros _ _ s1 (I1 & ->).
  sim_next sim_modify_side; [exact I1|done|]. intros _ _ s2 (I2 & E2). clear I1.
  assert (rd (dbs s2) db = Some d) as Hd2 by (by rewrite E2). clear Hd E2. rename Hd2 into Hd. set (n := Z.to_nat db). set (l2 := <[n := RedisDb ∅ ∅]> (dbs s2)).
  pose proof Hd as [_ Hn]%rd_Some. pose proof (inv_room _ _ _ _ _ I2) as Hroom.
  set (L := map (fun a => (a, default (VStr []) (val_at (heap s2) a), false)) (vals (db_dict d))).
  assert (L.*1.*1 = vals (db_dict d)) as EL. { unfold L. induction (vals (db_dict d)) as [|a l IH]; [done|]. cbn. by f_equal. }
  assert (inv N L [] (all_args s) (with_dbs s2 l2)) as I3.
  { rewrite <- (app_nil_r L). eapply inv_dict; [exact I2|exact Hn| |done| |done|].
    - intros b. cbn [db_dict]. rewrite app_nil_r, EL. unfold vals at 1. rewrite map_to_list_empty.
      change (0 + occ b (vals (db_dict d)) + 0 = occ b (vals (db_dict d)) + 0 + 0). lia.
    - intros b v r Hb. rewrite app_nil_r in Hb. apply in_map_iff in Hb as (a & [= <- <- <-] & Ha). right. split; [|done].
      apply vals_in in Ha as [k Hk]. destruct (at_key_val _ _ _ _ s2 db k a I2) as (o & _ & _ & Hv); [by exists d|]. by rewrite Hv.
    - cbn [db_dict]. unfold vals at 1. rewrite map_to_list_empty. rewrite app_nil_r. assert (zlen L = zlen (vals (db_dict d))) as -> by (unfold zlen, L; by rewrite length_map).
      change (zlen (map snd [])) with 0. change (zlen (@nil local)) with 0. lia. }
  rewrite <- (app_nil_r L) in I3. pose proof (wp_decr_locals N [] (all_args s) L _ I3) as W. rewrite EL in W. unfold wp in W.
  rewrite (decr_all_frame (fun s => with_dbs s l2)) in W by done.
  destruct (decr_all (vals (db_dict d)) s2) as [[[] s3]|] eqn:E3; [|done]. destruct W as (I4 & E4 & H4).
  set (l1 := <[n := RedisDb ∅ (db_expires d)]> (dbs s2)).
  assert (rd l1 db = Some (RedisDb ∅ (db_expires d))) as Hd1 by exact (rd_set_db s2 db d _ Hd).
  apply sim_two. apply wp_bind, (wp_get_db _ _ d); [done|]. apply wp_bind, wp_bind, (wp_get_db _ _ d); [done|].
  apply (wp_set_db _ _ d); [done|]. unfold wp at 1. change (map snd (map_to_list (db_dict d))) with (vals (db_dict d)).
  rewrite (decr_all_frame (fun s => with_dbs s l1)) by done. rewrite E3.
  apply wp_bind, (wp_get_db _ _ (RedisDb ∅ (db_expires d))); [exact Hd1|]. eapply wp_set_db; [exact Hd1|].
  change (with_dbs (with_dbs s3 l1) _) with (with_dbs s3 (<[n := RedisDb ∅ ∅]> l1)). unfold l1. rewrite list_insert_insert_eq.
  change (<[n := RedisDb ∅ ∅]> (dbs s2)) with l2. split.
  - rewrite E4. unfold a_set, l2. rewrite abs_set_db. unfold view. cbn. by rewrite omap_empty.
  - eapply sim_reply_done; [exact I4|lia].
Qed.

(** *** EXPIRE *)

(** The arguments are replaced by DEL and the key. *)
Lemma sim_rewrite N R s aux key k :
  inv N [(aux, VStr (str "DEL"), true)] [] R s -> In (1%nat, key, k) R -> N + 2 < 2 ^ 31 ->
  sim (rewriteClientCommandVector [aux; key]) (a_set_argv [str "DEL"; k]) s (fun _ _ s' =>
    inv (N + 2) [(aux, VStr (str "DEL"), true)] [] [(1%nat, key, k)] s').
Proof.
  intros I Hk HN. destruct (inv_locals _ _ _ _ _ I aux (VStr (str "DEL")) true) as [Ha Hra]; [by left|].
  destruct (Hra eq_refl) as (x & [= <-] & Hraw). unfold rewriteClientCommandVector. cbn [incr_all].
  apply sim_assoc. sim_skip (wp_incr N [(aux, VStr (str "DEL"), true)] [] R s aux (VStr (str "DEL")) true); [exact I|exact Ha|exact Hra|lia|]. intros _ s1 (I1 & E1 & H1). split; [done|].
  destruct (inv_raw _ _ _ _ _ I1 _ _ _ Hk) as [_ Hkr]. pose proof (raw_val _ _ _ Hkr) as Hkv.
  apply sim_assoc. sim_skip (wp_incr (N + 1) [(aux, VStr (str "DEL"), true); (aux, VStr (str "DEL"), true)] [] R s1 key (VStr k) true); [exact I1|exact Hkv|intros _; by exists k|lia|].
  intros _ s2 (I2 & E2 & H2). split; [done|]. apply sim_ret_l.
  destruct (inv_raw _ _ _ _ _ I2 _ _ _ Hk) as [_ Hkr2]. 
  destruct (inv_locals _ _ _ _ _ I2 aux (VStr (str "DEL")) true) as [Ha2 _]; [right; by left|].
  eapply wp_mono; [eapply (wp_new_argv (N + 1 + 1) [(key, VStr k, true); (aux, VStr (str "DEL"), true)] [(aux, VStr (str "DEL"), true)] R [(1%nat, key, k)] s2 [aux; key])|].
  - exact I2.
  - apply Permutation_swap.
  - intros a v r [[= <- <- <-]|[[= <- <- <-]|[]]]; by eexists.
  - intros j a y [[= <- <- <-]|[]]. done.
  - cbn beta. intros _ s3 (I3 & E3 & _). split; [|by replace (N + 2) with (N + 1 + 1) by lia]. rewrite E3.
    unfold a_set_argv. f_equal. cbn. unfold text_at. by rewrite Ha2, (raw_val _ _ _ Hkr2).
Qed.

Lemma sim_expireGeneric N0 B N R s s0 key k param x basetime unit_ :
  inv N [] [] R s -> In (1%nat, key, k) R -> In (2%nat, param, x) R -> a_argv (abs s) !! 1%nat = Some k -> a_argv (abs s) !! 2%nat = Some x ->
  N + 3 <= N0 + B < 2 ^ 31 ->
  sim (expireGenericCommand basetime unit_) (a_expireGeneric basetime unit_) s (done_with N0 s0 B).
Proof.
  intros I H1 H2 E1 E2 HN. apply (sim_arg_r _ _ _ _ _ _ E1), (sim_arg_r _ _ _ _ _ _ E2).
  eapply sim_argR; [exact I|exact H1|]. eapply sim_argR; [exact I|exact H2|].
  sim_next sim_parse; [exact I|by eapply raw_arg_val|]. intros r ? s1 (<- & I1 & _ & _ & Hs).
  destruct r as [when|]; [|apply sim_ret; eapply done_inv; [exact I1|lia]]. destruct (Hs _ eq_refl) as [_ ->]. cbn zeta.
  set (w := swrap 64 (_ + basetime)). apply sim_db. pose proof (inv_cur_db _ _ _ _ _ I) as Hc. set (db := cur (sd s)) in *.
  sim_next sim_lookupKeyRead; [exact I|exact H1|exact Hc|]. intros o v s2 (I2 & _ & _ & Hf).
  destruct o as [o|], v as [v|]; try done; [|eapply sim_reply_done; [exact I2|lia]].
  sim_next sim_mstime; [exact I2|]. intros now ? s3 (<- & _ & I3 & E3). destruct Hf as [(d & Hd & Hdk) _].
  assert (rd (dbs s3) db = Some d) as Hd3 by (by rewrite E3).
  assert (is_Some (a_dict (cur_db db (abs s3)) !! k)) as Hin by (apply (cur_db_is_Some _ _ _ _ _ _ _ _ I3 Hd3); by eexists).
  destruct ((w <=? now) && negb loading && negb masterhost).
  - sim_next sim_delete; [exact I3|exact H1|exact Hc|]. intros gone ? s4 (I4 & _ & _ & ->). rewrite bool_decide_true by done.
    apply sim_ret_l. sim_next sim_incr_dirty; [exact I4|]. intros _ _ s5 (I5 & _).
    sim_skip (wp_createString N [] [] R s5 (str "DEL") (str "DEL") []); [exact I5|lia|done|by repeat constructor|done|].
    intros aux s6 (I6 & E6 & _). split; [done|]. sim_next sim_rewrite; [exact I6|exact H1|lia|]. intros _ _ s7 I7.
    sim_skip wp_decr; [exact I7|by left|]. intros _ s8 (I8 & E8 & _). split; [done|].
    sim_next sim_signal; [exact I8|by left|]. intros _ _ s9 (I9 & _). sim_next sim_notify; [exact I9|by left|]. intros _ _ s10 (I10 & _).
    eapply sim_reply_done; [exact I10|lia].
  - sim_next sim_setExpire; [exact I3|exact H1|exact Hc|exact Hin|apply swrap_any|]. intros _ _ s4 (I4 & _).
    sim_next sim_addReply; [exact I4|]. intros _ _ s5 (I5 & _). sim_next sim_signal; [exact I5|exact H1|]. intros _ _ s6 (I6 & _).
    sim_next sim_notify; [exact I6|exact H1|]. intros _ _ s7 (I7 & _). eapply sim_mono; [by eapply sim_incr_dirty|]. cbn beta.
    intros ? ? s8 (I8 & _). eapply done_inv; [exact I8|lia].
Qed.

Lemma sim_expire_at N s unit_ : fits N s 3 -> sim (expireGenericCommand 0 unit_) (a_expireGeneric 0 unit_) s (finished N s).
Proof.
  intros F. use_arg F 1%nat key k H1 E1. use_arg F 2%nat param x H2 E2. destruct F as (I & HN & Hl). pose proof (zlen_nonneg (argv s)).
  eapply sim_expireGeneric; [exact I|exact H1|exact H2|exact E1|exact E2|lia].
Qed.

Lemma sim_expire_in N s unit_ : fits N s 3 -> sim (t ← mstime; expireGenericCommand t unit_) (spec_expire unit_) s (finished N s).
Proof.
  intros F. use_arg F 1%nat key k H1 E1. use_arg F 2%nat param x H2 E2. destruct F as (I & HN & Hl). pose proof (zlen_nonneg (argv s)).
  sim_next sim_mstime; [exact I|]. intros now ? s1 (<- & _ & I1 & ->).
  eapply sim_expireGeneric; [exact I1|exact H1|exact H2|exact E1|exact E2|lia].
Qed.

(** *** TTL, PERSIST *)

Lemma sim_ttlGeneric N s ms : fits N s 2 -> sim (ttlGenericCommand ms) (spec_ttl ms) s (finished N s).
Proof.
  intros F. use_arg F 1%nat key k H1 E1. destruct F as (I & HN & Hl). pose proof (zlen_nonneg (argv s)).
  apply (sim_arg_r _ _ _ _ _ _ E1), sim_db. pose proof (inv_cur_db _ _ _ _ _ I) as Hc. set (db := cur (sd s)) in *.
  eapply sim_argR; [exact I|exact H1|]. sim_next sim_lookupKeyRead; [exact I|exact H1|exact Hc|]. intros o v s1 (I1 & _ & _ & Hf).
  destruct o as [o|], v as [v|]; try done; [|eapply sim_int_done; [exact I1|lia|by unfold in_s]].
  sim_next wp_getExpire_view; [exact I1|exact H1|exact Hc|]. intros w ? ? (<- & -> & Hw).
  destruct (Z.eqb_spec w (-1)) as [->|Hne]; cbn [negb].
  { apply sim_ret_l. eapply sim_int_done; [exact I1|lia|by unfold in_s]. }
  apply sim_assoc. sim_next sim_mstime; [exact I1|]. intros now ? s2 (<- & _ & I2 & _). apply sim_ret_l. cbn zeta.
  pose proof (swrap_any (w - now)) as Hi. set (t := swrap 64 (w - now)) in *. set (u := if t <? 0 then 0 else t).
  assert (0 <= u < 2 ^ 63) as Hu. { unfold in_s, u in *. destruct (Z.ltb_spec t 0); lia. }
  destruct (Z.eqb_spec u (-1)); [lia|]. destruct ms; eapply sim_int_done; [exact I2|lia|unfold in_s; lia|exact I2|lia|].
  pose proof (swrap_any (u + 500)) as H5. unfold in_s in *. pose proof (Z.quot_le_mono (swrap 64 (u + 500)) (2 ^ (64 - 1) - 1) 1000 ltac:(lia) ltac:(lia)).
  pose proof (Z.quot_le_mono (- 2 ^ (64 - 1)) (swrap 64 (u + 500)) 1000 ltac:(lia) ltac:(lia)).
  change (Z.quot (2 ^ (64 - 1) - 1) 1000) with 9223372036854775 in *. change (Z.quot (- 2 ^ (64 - 1)) 1000) with (-9223372036854775) in *. lia.
Qed.

Lemma sim_persistCommand N s : fits N s 2 -> sim persistCommand spec_persist s (finished N s).
Proof.
  intros F. use_arg F 1%nat key k H1 E1. destruct F as (I & HN & Hl). pose proof (zlen_nonneg (argv s)).
  apply (sim_arg_r _ _ _ _ _ _ E1), sim_db. pose proof (inv_cur_db _ _ _ _ _ I) as Hc. set (db := cur (sd s)) in *.
  eapply sim_argR; [exact I|exact H1|]. apply sim_gets_r. destruct (inv_db _ _ _ _ _ _ I Hc) as [d Hd].
  rewrite (bool_decide_ext _ _ (cur_db_is_Some _ _ _ _ _ _ _ _ I Hd)), (cur_db_eq _ _ _ Hd). cbn [a_expires view].
  eapply (sim_step_eq _ _ _ _ (fun e s1 => e = bool_decide (is_Some (db_dict d !! k)) /\ s1 = s)).
  { apply wp_bind, (wp_key _ _ _ _ _ _ _ _ _ I H1), wp_bind, (wp_get_db _ _ d); [done|]. by apply wp_ret. }
  intros e s1 [-> ->]. split; [done|]. destruct (bool_decide (is_Some (db_dict d !! k))) eqn:Ek; cbn [negb andb].
  2:{ eapply sim_reply_done; [exact I|lia]. } apply bool_decide_eq_true in Ek.
  pose proof (wp_removeExpire _ _ _ _ _ _ _ _ _ _ I H1 Hd Ek) as W. destruct (db_expires d !! k) as [w|] eqn:Ew.
  - eapply sim_modify1; [exact W|]. cbn beta. intros r s2 (I2 & -> & E2 & _). split; [done|].
    sim_next sim_addReply; [exact I2|]. intros _ _ s3 (I3 & _). eapply sim_mono; [by eapply sim_incr_dirty|]. cbn beta.
    intros ? ? s4 (I4 & _). eapply done_inv; [exact I4|lia].
  - eapply sim_step_eq; [exact W|]. cbn beta. intros r s2 (I2 & -> & E2 & _ & S2).
    assert (abs s2 = abs s) as Ea.
    { rewrite (a_modify_eq _ _ _ _ Hd) in E2. apply (f_equal snd) in E2. cbn [snd] in E2. rewrite <- E2. clear E2.
      assert (persist k (view (heap s) d) = view (heap s) d) as ->.
      { unfold persist, view. cbn. f_equal. by apply delete_id. }
      apply rd_Some in Hd as [_ Hd]. unfold abs. cbn. f_equal. apply list_insert_id. by rewrite list_lookup_fmap, Hd. }
    rewrite Ea. split; [done|]. eapply sim_reply_done; [exact I2|lia].
Qed.

End Commands.

(** ** The commands of db.c *)

Inductive key_command :=
  | CDel | CExists | CSelect | CDbsize | CType | CFlushdb | CRename | CRenamenx | CMove
  | CExpire | CExpireat | CPexpire | CPexpireat | CTtl | CPttl | CPersist.

Section All.
Context `{ServerEnv}.

Definition key_proc (c : key_command) : Cmd unit :=
  match c with
  | CDel => delCommand | CExists => existsCommand | CSelect => selectCommand | CDbsize => dbsizeCommand
  | CType => typeCommand | CFlushdb => flushdbCommand | CRename => renameCommand | CRenamenx => renamenxCommand
  | CMove => moveCommand | CExpire => expireCommand | CExpireat => expireatCommand | CPexpire => pexpireCommand
  | CPexpireat => pexpireatCommand | CTtl => ttlCommand | CPttl => pttlCommand | CPersist => persistCommand
  end.

Definition key_spec (c : key_command) : Spec unit :=
  match c with
  | CDel => spec_del | CExists => spec_exists | CSelect => spec_select | CDbsize => spec_dbsize
  | CType => spec_type | CFlushdb => spec_flushdb | CRename => spec_rename false | CRenamenx => spec_rename true
  | CMove => spec_move | CExpire => spec_expire UNIT_SECONDS | CExpireat => a_expireGeneric 0 UNIT_SECONDS
  | CPexpire => spec_expire UNIT_MILLISECONDS | CPexpireat => a_expireGeneric 0 UNIT_MILLISECONDS
  | CTtl => spec_ttl false | CPttl => spec_ttl true | CPersist => spec_persist
  end.

(** The least number of arguments, the name of the command included. *)
Definition key_args (c : key_command) : nat :=
  match c with
  | CDel | CDbsize | CFlushdb => 1
  | CExists | CSelect | CType | CTtl | CPttl | CPersist => 2
  | _ => 3
  end.

Lemma key_command_sim c N s : fits N s (key_args c) -> sim (key_proc c) (key_spec c) s (finished N s).
Proof.
  intros F. destruct c; cbn [key_proc key_spec key_args] in *.
  - by apply sim_delCommand.
  - by apply sim_existsCommand.
  - by apply sim_selectCommand.
  - by apply sim_dbsizeCommand.
  - by apply sim_typeCommand.
  - by apply sim_flushdbCommand.
  - exact (sim_renameGeneric N s false F).
  - exact (sim_renameGeneric N s true F).
  - by apply sim_moveCommand.
  - exact (sim_expire_in N s UNIT_SECONDS F).
  - exact (sim_expire_at N s UNIT_SECONDS F).
  - exact (sim_expire_in N s UNIT_MILLISECONDS F).
  - exact (sim_expire_at N s UNIT_MILLISECONDS F).
  - exact (sim_ttlGeneric N s false F).
  - exact (sim_ttlGeneric N s true F).
  - by apply sim_persistCommand.
Qed.

End All.
