(* ===== verification/BitopsFacts.v ===== *)
(** * Bits of strings: counting, searching and combining them *)

From Stdlib Require Import Ascii String.
From S2P Require Import Prelude Endian Util Sds Server Db Tstring Bitops.
Import EndianFacts.

(** ** Specification: a string as the list of its bits, the most significant one of each
    byte first *)

Module BitSpec.

Definition byte_bits (c : Z) : list bool := map (fun i => Z.testbit c (7 - Z.of_nat i)) (seq 0 8).

Definition bits (x : list Z) : list bool := concat (map byte_bits x).

(** How many bits are set. *)
Fixpoint ones (l : list bool) : Z := match l with [] => 0 | b :: l => Z.b2z b + ones l end.

(** The first position of a bit. *)
Fixpoint bit_index (v : bool) (l : list bool) : option Z :=
  match l with
  | [] => None
  | b :: l => if eqb b v then Some 0 else Z.succ <$> bit_index v l
  end.

(** BITPOS on a whole string: a string is followed by zeroes. *)
Definition bitpos (v : bool) (x : list Z) : Z :=
  match bit_index v (bits x) with Some i => i | None => if v then -1 else 8 * zlen x end.

(** BITOP: a string is followed by zeroes up to the longest one. *)
Definition byte_op (op a b : Z) : Z :=
  if op =? BITOP_AND then Z.land a b else if op =? BITOP_OR then Z.lor a b else Z.lxor a b.

Definition byte_at (j : nat) (x : list Z) : Z := default 0 (x !! j).

Definition combine_at (op : Z) (xs : list (list Z)) (j : nat) : Z :=
  match xs with
  | [] => 0
  | x :: xs =>
      if op =? BITOP_NOT then 255 - byte_at j x
      else foldl (byte_op op) (byte_at j x) (map (byte_at j) xs)
  end.

Definition combine (op : Z) (xs : list (list Z)) (n : nat) : list Z := map (combine_at op xs) (seq 0 n).

End BitSpec.
Import BitSpec.

#[global] Arguments byte_bits : simpl never.

(** ** Lemmas: numbers made of bytes *)

Module BitFacts.

Lemma testbit_split k a r i : 0 <= k -> 0 <= a < 2 ^ k -> 0 <= i ->
  Z.testbit (a + 2 ^ k * r) i = if i <? k then Z.testbit a i else Z.testbit r (i - k).
Proof.
  intros Hk Ha Hi. destruct (Z.ltb_spec i k) as [Hik|Hik].
  - rewrite <- (Z.mod_pow2_bits_low (a + 2 ^ k * r) k) by lia. f_equal. rewrite (Z.mul_comm (2 ^ k)), Z.mod_add by lia. by apply Z.mod_small.
  - rewrite <- (Z.sub_add k i) at 1. rewrite <- Z.div_pow2_bits by lia. f_equal.
    rewrite Z.add_comm, Z.mul_comm, Z.div_add_l by lia. rewrite Z.div_small by done. lia.
Qed.

Lemma bits_above k a i : 0 <= a < 2 ^ k -> k <= i -> Z.testbit a i = false.
Proof.
  intros Ha Hi. destruct (Z.ltb_spec k 0); [rewrite Z.pow_neg_r in Ha by lia; lia|].
  rewrite <- (Z.mod_small a (2 ^ k)) by done. apply Z.mod_pow2_bits_high. lia.
Qed.

Lemma op_bound k a b (f : Z -> Z -> Z) (g : bool -> bool -> bool) :
  (forall a b i, Z.testbit (f a b) i = g (Z.testbit a i) (Z.testbit b i)) -> g false false = false ->
  (forall a b, 0 <= a -> 0 <= b -> 0 <= f a b) ->
  0 <= k -> 0 <= a < 2 ^ k -> 0 <= b < 2 ^ k -> 0 <= f a b < 2 ^ k.
Proof.
  intros Hf Hg H0 Hk Ha Hb. assert (0 <= f a b) as Hp by (apply H0; lia). split; [done|].
  assert (f a b = f a b mod 2 ^ k) as ->; [|apply Z.mod_pos_bound; lia].
  apply Z.bits_inj'. intros i Hi. destruct (Z.ltb_spec i k); [by rewrite Z.mod_pow2_bits_low|].
  rewrite Z.mod_pow2_bits_high by lia. by rewrite Hf, (bits_above k a), (bits_above k b), Hg by lia.
Qed.

(** An operation on bits works byte by byte. *)
Lemma op_split k a b r n (f : Z -> Z -> Z) (g : bool -> bool -> bool) :
  (forall a b i, Z.testbit (f a b) i = g (Z.testbit a i) (Z.testbit b i)) -> g false false = false ->
  (forall a b, 0 <= a -> 0 <= b -> 0 <= f a b) ->
  0 <= k -> 0 <= a < 2 ^ k -> 0 <= b < 2 ^ k -> f (a + 2 ^ k * r) (b + 2 ^ k * n) = f a b + 2 ^ k * f r n.
Proof.
  intros Hf Hg H0 Hk Ha Hb. apply Z.bits_inj'. intros i Hi. rewrite Hf, !testbit_split by (done || by eapply op_bound).
  destruct (i <? k); by rewrite Hf.
Qed.

Lemma byte_op_testbit op a b i : op = BITOP_AND \/ op = BITOP_OR \/ op = BITOP_XOR ->
  Z.testbit (byte_op op a b) i =
  (if op =? BITOP_AND then andb else if op =? BITOP_OR then orb else xorb) (Z.testbit a i) (Z.testbit b i).
Proof. intros [->|[->| ->]]; cbn; [apply Z.land_spec|apply Z.lor_spec|apply Z.lxor_spec]. Qed.

Lemma byte_op_nonneg op a b : 0 <= a -> 0 <= b -> 0 <= byte_op op a b.
Proof. intros Ha Hb. unfold byte_op. repeat case_match; rewrite ?Z.land_nonneg, ?Z.lor_nonneg, ?Z.lxor_nonneg; tauto. Qed.

Lemma byte_op_split op a b r n : op = BITOP_AND \/ op = BITOP_OR \/ op = BITOP_XOR -> byte_ok a -> byte_ok b ->
  byte_op op (a + 256 * r) (b + 256 * n) = byte_op op a b + 256 * byte_op op r n /\ byte_ok (byte_op op a b).
Proof.
  intros Hop Ha Hb. pose proof (fun a b i => byte_op_testbit op a b i Hop) as Ht. unfold byte_ok in *. change 256 with (2 ^ 8) in *.
  split; [eapply op_split|eapply op_bound]; try exact Ht; try lia; try done; try (by apply byte_op_nonneg);
    destruct Hop as [->|[->| ->]]; done.
Qed.

(** A shift and a mask that drops the bits of the next byte work byte by byte. *)
Lemma shift_mask_split s a r m n : 0 <= s <= 8 -> 0 <= a < 256 -> 0 <= m < 2 ^ (8 - s) ->
  Z.land (Z.shiftr (a + 256 * r) s) (m + 256 * n) = Z.land (Z.shiftr a s) m + 256 * Z.land (Z.shiftr r s) n.
Proof.
  intros Hs Ha Hm. assert (0 <= m < 256) as Hm8. { pose proof (Z.pow_le_mono_r 2 (8 - s) 8 ltac:(lia) ltac:(lia)). change (2 ^ 8) with 256 in *. lia. }
  assert (0 <= Z.land (Z.shiftr a s) m < 256) as Hl.
  { change 256 with (2 ^ 8) in *. apply (op_bound 8 _ _ Z.land andb Z.land_spec); [done|intros; by apply Z.land_nonneg; left|lia| |done].
    split; [apply Z.shiftr_nonneg; lia|]. rewrite Z.shiftr_div_pow2 by lia. apply Z.le_lt_trans with a; [|lia].
    apply Z.div_le_upper_bound; [lia|]. pose proof (Z.pow_pos_nonneg 2 s). nia. }
  change 256 with (2 ^ 8) in *. apply Z.bits_inj'. intros i Hi.
  rewrite testbit_split by lia. rewrite !Z.land_spec, !Z.shiftr_spec, !testbit_split by lia.
  destruct (Z.ltb_spec i 8), (Z.ltb_spec (i + s) 8); try lia.
  - done.
  - rewrite (bits_above (8 - s) m) by lia. by rewrite !andb_false_r.
  - rewrite Z.shiftr_spec by lia. f_equal. f_equal. lia.
Qed.

(** ** Facts on every byte *)

Lemma all_bytes (P : Z -> bool) : forallb (fun n => P (Z.of_nat n)) (seq 0 256) = true -> forall c, byte_ok c -> P c = true.
Proof.
  intros Hall c Hc. unfold byte_ok in Hc. rewrite forallb_forall in Hall. rewrite <- (Z2Nat.id c) by lia. apply Hall, in_seq. lia.
Qed.

Lemma table_ok c : byte_ok c -> rd bitsinbyte c = Some (ones (byte_bits c)) /\ 0 <= ones (byte_bits c) <= 8.
Proof.
  intros Hc. pose proof (all_bytes (fun c => bool_decide (rd bitsinbyte c = Some (ones (byte_bits c)) /\ 0 <= ones (byte_bits c) <= 8))) as A.
  specialize (A ltac:(by vm_compute) c Hc). by apply bool_decide_eq_true in A.
Qed.

Lemma ones_app l k : ones (l ++ k) = ones l + ones k.
Proof. induction l as [|b l IH]; [done|]. cbn [app ones]. lia. Qed.

Lemma bits_cons c x : bits (c :: x) = byte_bits c ++ bits x.
Proof. done. Qed.

Lemma bits_app x y : bits (x ++ y) = bits x ++ bits y.
Proof. unfold bits. by rewrite map_app, concat_app. Qed.

Lemma zlen_bits x : zlen (bits x) = 8 * zlen x.
Proof. induction x as [|c x IH]; [done|]. rewrite bits_cons, zlen_app, zlen_cons, IH. change (zlen (byte_bits c)) with 8. lia. Qed.

Lemma ones_bound l : 0 <= ones l <= zlen l.
Proof. induction l as [|b l IH]; [done|]. cbn [ones]. rewrite zlen_cons. destruct b; cbn; lia. Qed.

(** ** The word steps of redisPopcount() *)

Definition pairs_of (b : Z) : Z := b - Z.land (Z.shiftr b 1) 0x55.
Definition nibbles (c : Z) : Z := Z.land c 0x33 + Z.land (Z.shiftr c 2) 0x33.

Lemma pairs_ok b : byte_ok b -> byte_ok (pairs_of b).
Proof.
  intros Hb. pose proof (all_bytes (fun b => (0 <=? pairs_of b) && (pairs_of b <? 256)) ltac:(by vm_compute) b Hb) as A. cbv beta in A. bool_to_prop. unfold byte_ok. lia.
Qed.

Lemma nibbles_ok b : byte_ok b -> exists lo hi, nibbles (pairs_of b) = lo + 16 * hi /\ 0 <= lo <= 4 /\ 0 <= hi <= 4 /\ lo + hi = ones (byte_bits b).
Proof.
  intros Hb. set (n := nibbles (pairs_of b)). exists (n mod 16), (n / 16).
  pose proof (all_bytes (fun b => let n := nibbles (pairs_of b) in (n mod 16 <=? 4) && (0 <=? n / 16) && (n / 16 <=? 4) &&
    (n mod 16 + n / 16 =? ones (byte_bits b)))  ltac:(by vm_compute) b Hb) as A. cbv beta zeta in A. fold n in A. bool_to_prop.
  pose proof (Z.mod_pos_bound n 16 ltac:(lia)). pose proof (Z.div_mod n 16 ltac:(lia)). split_and!; lia.
Qed.

Definition word_of (b0 b1 b2 b3 : Z) : Z := b0 + 256 * (b1 + 256 * (b2 + 256 * b3)).

Lemma mask_word s m b0 b1 b2 b3 : 0 <= s <= 8 -> 0 <= m < 2 ^ (8 - s) -> byte_ok b0 -> byte_ok b1 -> byte_ok b2 ->
  Z.land (Z.shiftr (word_of b0 b1 b2 b3) s) (word_of m m m m) =
  word_of (Z.land (Z.shiftr b0 s) m) (Z.land (Z.shiftr b1 s) m) (Z.land (Z.shiftr b2 s) m) (Z.land (Z.shiftr b3 s) m).
Proof. unfold byte_ok, word_of. intros Hs Hm H0 H1 H2. by rewrite !shift_mask_split. Qed.

Lemma pop_word_ok b0 b1 b2 b3 : byte_ok b0 -> byte_ok b1 -> byte_ok b2 -> byte_ok b3 ->
  pop_word (word_of b0 b1 b2 b3) = ones (byte_bits b0) + ones (byte_bits b1) + ones (byte_bits b2) + ones (byte_bits b3).
Proof.
  intros H0 H1 H2 H3. unfold pop_word.
  change 0x55555555 with (word_of 0x55 0x55 0x55 0x55). change 0x33333333 with (word_of 0x33 0x33 0x33 0x33).
  change 0x0F0F0F0F with (word_of 15 15 15 15).
  rewrite (mask_word 1) by (done || lia).
  assert (uwrap 32 (word_of b0 b1 b2 b3 - word_of (Z.land (Z.shiftr b0 1) 0x55) (Z.land (Z.shiftr b1 1) 0x55) (Z.land (Z.shiftr b2 1) 0x55) (Z.land (Z.shiftr b3 1) 0x55))
    = word_of (pairs_of b0) (pairs_of b1) (pairs_of b2) (pairs_of b3)) as ->.
  { pose proof (pairs_ok b0 H0). pose proof (pairs_ok b1 H1). pose proof (pairs_ok b2 H2). pose proof (pairs_ok b3 H3). unfold byte_ok in *.
    transitivity (uwrap 32 (word_of (pairs_of b0) (pairs_of b1) (pairs_of b2) (pairs_of b3))); [f_equal; unfold word_of, pairs_of; lia|].
    apply uwrap_small. unfold in_u, word_of. lia. }
  pose proof (pairs_ok b0 H0) as P0. pose proof (pairs_ok b1 H1) as P1. pose proof (pairs_ok b2 H2) as P2. pose proof (pairs_ok b3 H3) as P3.
  destruct (nibbles_ok b0 H0) as (l0 & h0 & N0 & L0 & R0 & <-). destruct (nibbles_ok b1 H1) as (l1 & h1 & N1 & L1 & R1 & <-).
  destruct (nibbles_ok b2 H2) as (l2 & h2 & N2 & L2 & R2 & <-). destruct (nibbles_ok b3 H3) as (l3 & h3 & N3 & L3 & R3 & <-).
  set (c0 := pairs_of b0) in *. set (c1 := pairs_of b1) in *. set (c2 := pairs_of b2) in *. set (c3 := pairs_of b3) in *.
  pose proof (mask_word 0 0x33 c0 c1 c2 c3 ltac:(lia) ltac:(done) P0 P1 P2) as M0. rewrite !Z.shiftr_0_r in M0. rewrite M0. clear M0.
  rewrite (mask_word 2) by (done || lia).
  assert (uwrap 32 (word_of (Z.land c0 0x33) (Z.land c1 0x33) (Z.land c2 0x33) (Z.land c3 0x33) +
      word_of (Z.land (Z.shiftr c0 2) 0x33) (Z.land (Z.shiftr c1 2) 0x33) (Z.land (Z.shiftr c2 2) 0x33) (Z.land (Z.shiftr c3 2) 0x33))
    = word_of (l0 + 16 * h0) (l1 + 16 * h1) (l2 + 16 * h2) (l3 + 16 * h3)) as ->.
  { transitivity (uwrap 32 (word_of (nibbles c0) (nibbles c1) (nibbles c2) (nibbles c3))); [f_equal; unfold word_of, nibbles; lia|].
    rewrite N0, N1, N2, N3. apply uwrap_small. unfold in_u, word_of. lia. }
  assert (Z.shiftr (word_of (l0 + 16 * h0) (l1 + 16 * h1) (l2 + 16 * h2) (l3 + 16 * h3)) 4 = word_of (h0 + 16 * l1) (h1 + 16 * l2) (h2 + 16 * l3) h3) as ->.
  { rewrite Z.shiftr_div_pow2 by lia. symmetry. apply (Z.div_unique _ _ _ l0); unfold word_of; lia. }
  assert (uwrap 32 (word_of (l0 + 16 * h0) (l1 + 16 * h1) (l2 + 16 * h2) (l3 + 16 * h3) + word_of (h0 + 16 * l1) (h1 + 16 * l2) (h2 + 16 * l3) h3)
    = word_of (l0 + h0 + 16 * (h0 + l1)) (l1 + h1 + 16 * (h1 + l2)) (l2 + h2 + 16 * (h2 + l3)) (l3 + h3 + 16 * h3)) as ->.
  { transitivity (uwrap 32 (word_of (l0 + h0 + 16 * (h0 + l1)) (l1 + h1 + 16 * (h1 + l2)) (l2 + h2 + 16 * (h2 + l3)) (l3 + h3 + 16 * h3)));
      [f_equal; unfold word_of; lia|]. apply uwrap_small. unfold in_u, word_of. lia. }
  set (d0 := l0 + h0 + 16 * (h0 + l1)). set (d1 := l1 + h1 + 16 * (h1 + l2)). set (d2 := l2 + h2 + 16 * (h2 + l3)). set (d3 := l3 + h3 + 16 * h3).
  pose proof (mask_word 0 15 d0 d1 d2 d3 ltac:(lia) ltac:(done)) as M. rewrite !Z.shiftr_0_r in M. unfold byte_ok in M. rewrite M by (unfold d0, d1, d2; lia). clear M.
  assert (forall x y, 0 <= x < 16 -> Z.land (x + 16 * y) 15 = x) as Hlow.
  { intros x y Hx. change 15 with (Z.ones 4). rewrite Z.land_ones by lia. change (2 ^ 4) with 16. rewrite Z.add_comm, Z.mul_comm, Z.add_comm, Z.mod_add by lia. by apply Z.mod_small. }
  unfold d0, d1, d2, d3. rewrite !Hlow by lia. clear Hlow d0 d1 d2 d3.
  set (e0 := l0 + h0). set (e1 := l1 + h1). set (e2 := l2 + h2). set (e3 := l3 + h3).
  assert (0 <= e0 <= 8 /\ 0 <= e1 <= 8 /\ 0 <= e2 <= 8 /\ 0 <= e3 <= 8) as (? & ? & ? & ?) by (unfold e0, e1, e2, e3; lia).
  assert (uwrap 32 (word_of e0 e1 e2 e3 * 0x01010101) = word_of e0 (e0 + e1) (e0 + e1 + e2) (e0 + e1 + e2 + e3)) as ->.
  { unfold uwrap. symmetry. apply (Z.mod_unique _ _ (e1 + e2 + e3 + 256 * (e2 + e3) + 65536 * e3)); [left|]; unfold word_of; lia. }
  rewrite Z.shiftr_div_pow2 by lia. symmetry. apply (Z.div_unique _ _ _ (e0 + 256 * (e0 + e1) + 65536 * (e0 + e1 + e2))); unfold word_of; lia.
Qed.

(** A word in memory, in the order of either machine. *)
Lemma pop_host `{Host} b0 b1 b2 b3 : byte_ok b0 -> byte_ok b1 -> byte_ok b2 -> byte_ok b3 ->
  pop_word (host_dec [b0; b1; b2; b3]) = ones (bits [b0; b1; b2; b3]).
Proof.
  intros H0 H1 H2 H3. unfold bits. cbn [map concat]. rewrite !ones_app. change (ones []) with 0. unfold host_dec. destruct big_endian.
  - change (le_dec (reverse [b0; b1; b2; b3])) with (b3 + 256 * (b2 + 256 * (b1 + 256 * (b0 + 256 * 0)))).
    rewrite Z.mul_0_r, Z.add_0_r. fold (word_of b3 b2 b1 b0). rewrite pop_word_ok by done. lia.
  - change (le_dec [b0; b1; b2; b3]) with (b0 + 256 * (b1 + 256 * (b2 + 256 * (b3 + 256 * 0)))).
    rewrite Z.mul_0_r, Z.add_0_r. fold (word_of b0 b1 b2 b3). rewrite pop_word_ok by done. lia.
Qed.

(** ** redisPopcount() *)

Section Count.
Context `{Host}.

Lemma pop_unaligned_ok base fuel : forall pre x post n, bytes_ok x -> (length x <= fuel)%nat -> 0 <= n -> n + 8 * zlen x < 2 ^ 64 ->
  exists x1 x2, x = x1 ++ x2 /\
    pop_unaligned fuel base (pre ++ x ++ post) (zlen pre) n (zlen x) = Some (zlen (pre ++ x1), n + ones (bits x1), zlen x2).
Proof.
  induction fuel as [|fuel IH]; intros pre x post n Hx Hf Hn Hb.
  { destruct x; [|cbn in Hf; lia]. exists [], []. split; [done|]. cbn. rewrite andb_false_r. cbn. rewrite app_nil_r. do 2 f_equal. f_equal. lia. }
  cbn [pop_unaligned]. destruct (negb (Z.land (base + zlen pre) 3 =? 0) && negb (zlen x =? 0)) eqn:E.
  2:{ exists [], x. split; [done|]. rewrite app_nil_r. cbn [bits ones]. change (ones (bits [])) with 0. by rewrite Z.add_0_r. }
  apply andb_true_iff in E as [_ Hne%negb_true_iff%Z.eqb_neq]. destruct x as [|c x]; [done|]. inversion Hx as [|? ? Hc Hx']; subst.
  cbn [length] in Hf. rewrite zlen_cons in *. change (pre ++ (c :: x) ++ post) with (pre ++ c :: x ++ post). rewrite rd_mid. cbn [mbind option_bind]. destruct (table_ok c Hc) as [-> Hones]. cbn [mbind option_bind].
  pose proof (zlen_nonneg x). rewrite u64_small by lia.
  destruct (IH (pre ++ [c]) x post (n + ones (byte_bits c))) as (x1 & x2 & -> & E); [done|lia|lia|lia|].
  exists (c :: x1), x2. split; [done|]. rewrite <- (assoc_L (++) pre [c] ((x1 ++ x2) ++ post)) in E. rewrite (zlen_app pre [c]) in E.
  change (zlen [c]) with 1 in E. replace (1 + zlen (x1 ++ x2) - 1) with (zlen (x1 ++ x2)) by lia. cbn [app] in E. rewrite E. rewrite bits_cons, ones_app.
  do 2 f_equal. f_equal; [|lia]. rewrite <- !(assoc_L (++)). done.
Qed.

Lemma word32_ok pre w post p : zlen w = 4 -> p = zlen pre -> word32 (pre ++ w ++ post) p = Some (host_dec w).
Proof. intros Hw ->. unfold word32. rewrite <- Hw. by rewrite (rdn_app_mid pre w post). Qed.

Lemma pop_word32 w : zlen w = 4 -> bytes_ok w -> pop_word (host_dec w) = ones (bits w) /\ 0 <= ones (bits w) <= 32.
Proof.
  intros Hw Hb. pose proof (ones_bound (bits w)) as Ho. rewrite zlen_bits, Hw in Ho. split; [|lia].
  destruct w as [|a [|b [|c [|d [|e w]]]]]; try (unfold zlen in Hw; cbn in Hw; lia).
  repeat match goal with H : bytes_ok (_ :: _) |- _ => apply Forall_cons_1 in H as [? H] end. by apply pop_host.
Qed.

Lemma pop_words_ok fuel : forall pre x post n, bytes_ok x -> (length x <= fuel)%nat -> 0 <= n -> n + 8 * zlen x < 2 ^ 64 ->
  exists x1 x2, x = x1 ++ x2 /\
    pop_words fuel (pre ++ x ++ post) (zlen pre) n (zlen x) = Some (zlen (pre ++ x1), n + ones (bits x1), zlen x2).
Proof.
  induction fuel as [|fuel IH]; intros pre x post n Hx Hf Hn Hb.
  { destruct x; [|cbn in Hf; lia]. exists [], []. split; [done|]. cbn. rewrite app_nil_r. do 2 f_equal. f_equal. lia. }
  cbn [pop_words]. destruct (Z.leb_spec 16 (zlen x)) as [Hl|Hl].
  2:{ exists [], x. split; [done|]. rewrite app_nil_r. change (ones (bits [])) with 0. by rewrite Z.add_0_r. }
  destruct (split_at x 4) as (w1 & x1 & -> & Hw1 & L1); [lia|]. destruct (split_at x1 4) as (w2 & x2 & -> & Hw2 & L2); [lia|].
  destruct (split_at x2 4) as (w3 & x3 & -> & Hw3 & L3); [lia|]. destruct (split_at x3 4) as (w4 & x4 & -> & Hw4 & L4); [lia|].
  rewrite !Forall_app in Hx. destruct Hx as (B1 & B2 & B3 & B4 & B5).
  destruct (pop_word32 w1 Hw1 B1) as [E1 O1]. destruct (pop_word32 w2 Hw2 B2) as [E2 O2].
  destruct (pop_word32 w3 Hw3 B3) as [E3 O3]. destruct (pop_word32 w4 Hw4 B4) as [E4 O4].
  set (b := pre ++ (w1 ++ w2 ++ w3 ++ w4 ++ x4) ++ post).
  assert (word32 b (zlen pre) = Some (host_dec w1)) as ->.
  { unfold b. rewrite <- !(assoc_L (++)). by apply word32_ok. }
  assert (word32 b (zlen pre + 4) = Some (host_dec w2)) as ->.
  { unfold b. rewrite <- !(assoc_L (++)), (assoc_L (++) pre). apply word32_ok; [done|]. rewrite zlen_app. lia. }
  assert (word32 b (zlen pre + 8) = Some (host_dec w3)) as ->.
  { unfold b. rewrite <- !(assoc_L (++)), (assoc_L (++) pre), (assoc_L (++) (pre ++ w1)). apply word32_ok; [done|]. rewrite !zlen_app. lia. }
  assert (word32 b (zlen pre + 12) = Some (host_dec w4)) as ->.
  { unfold b. rewrite <- !(assoc_L (++)), (assoc_L (++) pre), (assoc_L (++) (pre ++ w1)), (assoc_L (++) ((pre ++ w1) ++ w2)).
    apply word32_ok; [done|]. rewrite !zlen_app. lia. }
  cbn [mbind option_bind]. rewrite E1, E2, E3, E4, u32_small by lia. rewrite !zlen_app in Hb. pose proof (zlen_nonneg x4). rewrite u64_small by lia.
  assert (length x4 <= fuel)%nat as Hf4 by (rewrite !length_app in Hf; unfold zlen in *; lia).
  destruct (IH (pre ++ w1 ++ w2 ++ w3 ++ w4) x4 post (n + (ones (bits w1) + ones (bits w2) + ones (bits w3) + ones (bits w4)))) as (y1 & y2 & -> & E);
    [done|lia|lia|lia|].
  exists (w1 ++ w2 ++ w3 ++ w4 ++ y1), y2. split; [by rewrite <- !(assoc_L (++))|].
  replace (zlen (w1 ++ w2 ++ w3 ++ w4 ++ y1 ++ y2) - 16) with (zlen (y1 ++ y2)) by (unfold zlen in *; rewrite !length_app in *; lia).
  replace (zlen pre + 16) with (zlen (pre ++ w1 ++ w2 ++ w3 ++ w4)) by (unfold zlen in *; rewrite !length_app in *; lia).
  assert (b = (pre ++ w1 ++ w2 ++ w3 ++ w4) ++ (y1 ++ y2) ++ post) as -> by (unfold b; by rewrite <- !(assoc_L (++))).
  rewrite E, !bits_app, !ones_app. do 2 f_equal. f_equal; [|lia]. by rewrite <- !(assoc_L (++)).
Qed.

Lemma pop_rest_ok fuel : forall pre x post n, bytes_ok x -> (length x <= fuel)%nat -> 0 <= n -> n + 8 * zlen x < 2 ^ 64 ->
  pop_rest fuel (pre ++ x ++ post) (zlen pre) n (zlen x) = Some (n + ones (bits x)).
Proof.
  induction fuel as [|fuel IH]; intros pre x post n Hx Hf Hn Hb.
  { destruct x; [|cbn in Hf; lia]. cbn. f_equal. lia. }
  cbn [pop_rest]. destruct x as [|c x]; [cbn; f_equal; lia|]. inversion Hx as [|? ? Hc Hx']; subst. cbn [length] in Hf. rewrite zlen_cons in *.
  pose proof (zlen_nonneg x). destruct (Z.eqb_spec (1 + zlen x) 0); [lia|]. cbn [negb].
  change (pre ++ (c :: x) ++ post) with (pre ++ c :: x ++ post). rewrite rd_mid. cbn [mbind option_bind].
  destruct (table_ok c Hc) as [-> Hones]. cbn [mbind option_bind]. rewrite u64_small by lia.
  pose proof (IH (pre ++ [c]) x post (n + ones (byte_bits c)) Hx' ltac:(lia) ltac:(lia) ltac:(lia)) as E.
  rewrite <- !(assoc_L (++)) in E. cbn [app] in E. rewrite zlen_app in E. change (zlen [c]) with 1 in E.
  replace (1 + zlen x - 1) with (zlen x) by lia. rewrite E, bits_cons, ones_app. f_equal. lia.
Qed.

Lemma popcount_ok base pre x post : bytes_ok x -> zlen x < 2 ^ 60 ->
  redisPopcount base (pre ++ x ++ post) (zlen pre) (zlen x) = Some (ones (bits x)).
Proof.
  intros Hx Hl. unfold redisPopcount. pose proof (zlen_nonneg x).
  assert (Z.to_nat (zlen x) = length x) as -> by (unfold zlen; lia).
  destruct (pop_unaligned_ok base (length x) pre x post 0 Hx) as (x1 & x2 & -> & ->); [lia|lia|lia|]. cbn [mbind option_bind].
  rewrite length_app. rewrite zlen_app in Hl. apply Forall_app in Hx as [Hx1 Hx2]. pose proof (zlen_nonneg x2). pose proof (zlen_nonneg x1).
  pose proof (ones_bound (bits x1)) as O1. rewrite zlen_bits in O1.
  assert (pre ++ (x1 ++ x2) ++ post = (pre ++ x1) ++ x2 ++ post) as -> by (by rewrite <- !(assoc_L (++))).
  destruct (pop_words_ok (length x1 + length x2) (pre ++ x1) x2 post (0 + ones (bits x1)) Hx2) as (y1 & y2 & -> & ->); [lia|lia|lia|].
  cbn [mbind option_bind]. rewrite !length_app. rewrite zlen_app in Hl. apply Forall_app in Hx2 as [Hy1 Hy2]. pose proof (zlen_nonneg y1). pose proof (zlen_nonneg y2).
  pose proof (ones_bound (bits y1)) as O2. rewrite zlen_bits in O2.
  assert ((pre ++ x1) ++ (y1 ++ y2) ++ post = ((pre ++ x1) ++ y1) ++ y2 ++ post) as -> by (by rewrite <- !(assoc_L (++))).
  rewrite pop_rest_ok; [|done|lia|lia|lia]. rewrite !bits_app, !ones_app. f_equal. lia.
Qed.

End Count.

(** ** redisBitpos() *)

Definition z_of (v : bool) : Z := Z.b2z v.

Lemma index_app v l k : bit_index v (l ++ k) =
  match bit_index v l with Some i => Some i | None => (fun i => zlen l + i) <$> bit_index v k end.
Proof.
  induction l as [|b l IH]; [cbn; destruct (bit_index v k); cbn; [f_equal; lia|done]|].
  cbn [app bit_index]. destruct (eqb b v); [done|]. rewrite IH. destruct (bit_index v l) as [i|]; [done|].
  destruct (bit_index v k) as [i|]; [|done]. cbn. f_equal. rewrite zlen_cons. lia.
Qed.

(** Bytes without the bit. *)
Definition blank (v : bool) : Z := if v then 0 else 255.

Lemma blank_bits v c : byte_ok c -> (c = blank v <-> bit_index v (byte_bits c) = None).
Proof.
  intros Hc. pose proof (all_bytes (fun c => forallb (fun v => eqb (c =? blank v) (bool_decide (bit_index v (byte_bits c) = None))) [true; false])
    ltac:(by vm_compute) c Hc) as A. cbv beta in A. cbn [forallb] in A. rewrite !andb_true_iff in A. destruct A as (A1 & A2 & _).
  apply eqb_prop in A1, A2. rewrite <- Z.eqb_eq. destruct v; [rewrite A1|rewrite A2]; by rewrite bool_decide_eq_true.
Qed.

Lemma blank_index v x : bytes_ok x -> (Forall (fun c => c = blank v) x <-> bit_index v (bits x) = None).
Proof.
  induction 1 as [|c x Hc Hx IH]; [done|]. rewrite Forall_cons, bits_cons, index_app, IH, (blank_bits v c Hc).
  destruct (bit_index v (byte_bits c)); [naive_solver|]. destruct (bit_index v (bits x)); naive_solver.
Qed.

Section Search.
Context `{Host}.

Lemma skip_unaligned_ok base v fuel : forall pre x post pos, bytes_ok x -> (length x <= fuel)%nat ->
  exists x1 x2, x = x1 ++ x2 /\ Forall (fun c => c = blank v) x1 /\
    skip_unaligned fuel base (blank v) (pre ++ x ++ post) (zlen pre) (zlen x) pos = Some (zlen (pre ++ x1), zlen x2, pos + 8 * zlen x1).
Proof.
  induction fuel as [|fuel IH]; intros pre x post pos Hx Hf.
  { destruct x; [|cbn in Hf; lia]. exists [], []. split_and!; [done|done|]. cbn. rewrite andb_false_r. cbn. rewrite app_nil_r. change (zlen (@nil Z)) with 0. do 2 f_equal. lia. }
  assert (Some (zlen pre, zlen x, pos) = Some (zlen (pre ++ []), zlen x, pos + 8 * zlen (@nil Z))) as Estop.
  { rewrite app_nil_r. change (zlen (@nil Z)) with 0. do 2 f_equal. lia. }
  cbn [skip_unaligned]. destruct (negb (Z.land (base + zlen pre) 7 =? 0) && negb (zlen x =? 0)) eqn:E.
  2:{ exists [], x. split_and!; [done|done|exact Estop]. }
  apply andb_true_iff in E as [_ Hne%negb_true_iff%Z.eqb_neq]. destruct x as [|c x]; [done|]. inversion Hx as [|? ? Hc Hx']; subst.
  change (pre ++ (c :: x) ++ post) with (pre ++ c :: x ++ post). rewrite rd_mid. cbn [mbind option_bind].
  destruct (Z.eqb_spec c (blank v)) as [->|Hne']; cbn [negb]; [|exists [], (c :: x); split_and!; [done|done|exact Estop]].
  cbn [length] in Hf. destruct (IH (pre ++ [blank v]) x post (pos + 8) Hx') as (x1 & x2 & -> & Hb & E); [lia|].
  exists (blank v :: x1), x2. split_and!; [done|by constructor|]. rewrite <- (assoc_L (++) pre [blank v] ((x1 ++ x2) ++ post)) in E.
  rewrite (zlen_app pre [blank v]) in E. change (zlen [blank v]) with 1 in E. rewrite !zlen_cons.
  replace (1 + zlen (x1 ++ x2) - 1) with (zlen (x1 ++ x2)) by lia. cbn [app] in E. rewrite E. rewrite <- !(assoc_L (++)). cbn [app]. f_equal. f_equal. lia.
Qed.

(** A word with only blank bytes. *)
Lemma blank_word (v : bool) w : zlen w = 8 -> bytes_ok w ->
  (host_dec w =? (if v then 0 else ULONG_MAX)) = bool_decide (Forall (fun c : Z => c = blank v) w).
Proof.
  intros Hw Hb. set (k := replicate 8 (blank v)). assert (host_dec k = if v then 0 else ULONG_MAX) as <-.
  { unfold k, host_dec. destruct v, big_endian; done. }
  assert (bytes_ok k) as Hk by (apply Forall_replicate; destruct v; by vm_compute).
  apply eq_true_iff_eq. rewrite Z.eqb_eq, bool_decide_eq_true. split.
  - intros E. apply host_dec_inj in E as ->; [|done|done|done]. apply Forall_replicate. done.
  - intros Ha. f_equal. unfold k. assert (length w = 8%nat) as <- by (unfold zlen in Hw; lia). clear -Ha.
    induction Ha as [|c w -> _ IH]; [done|]. cbn. by f_equal.
Qed.

Lemma skip_words_ok v fuel : forall pre x post pos, bytes_ok x -> (length x <= fuel)%nat ->
  exists x1 x2, x = x1 ++ x2 /\ Forall (fun c => c = blank v) x1 /\
    skip_words fuel (if v then 0 else ULONG_MAX) (pre ++ x ++ post) (zlen pre) (zlen x) pos = Some (zlen (pre ++ x1), zlen x2, pos + 8 * zlen x1) /\
    (zlen x2 < 8 \/ bit_index v (bits (take 8 x2)) <> None).
Proof.
  induction fuel as [|fuel IH]; intros pre x post pos Hx Hf.
  { destruct x; [|cbn in Hf; lia]. exists [], []. split_and!; [done|done| |by left]. cbn. rewrite app_nil_r. change (zlen (@nil Z)) with 0. do 2 f_equal. lia. }
  assert (Some (zlen pre, zlen x, pos) = Some (zlen (pre ++ []), zlen x, pos + 8 * zlen (@nil Z))) as Estop.
  { rewrite app_nil_r. change (zlen (@nil Z)) with 0. do 2 f_equal. lia. }
  cbn [skip_words]. destruct (Z.leb_spec 8 (zlen x)) as [Hl|Hl]; [|exists [], x; split_and!; [done|done|exact Estop|by left]].
  destruct (split_at x 8) as (w & y & -> & Hw & Ly); [lia|]. apply Forall_app in Hx as [Hbw Hby].
  assert (rdn (pre ++ (w ++ y) ++ post) (zlen pre) 8 = Some w) as ->.
  { rewrite <- Hw, <- (assoc_L (++) w). by apply rdn_app_mid. }
  cbn [mbind option_bind]. rewrite (blank_word v w Hw Hbw). destruct (bool_decide (Forall _ w)) eqn:E; cbn [negb].
  2:{ exists [], (w ++ y). split_and!; [done|done|exact Estop|]. right. rewrite take_app_le, take_ge by (unfold zlen in Hw; lia).
      rewrite <- blank_index by done. by apply bool_decide_eq_false in E. }
  apply bool_decide_eq_true in E. rewrite length_app in Hf. destruct (IH (pre ++ w) y post (pos + 64) Hby) as (x1 & x2 & -> & Hb & E2 & Hend); [unfold zlen in Hw; lia|].
  exists (w ++ x1), x2. split_and!; [by rewrite (assoc_L (++))|by apply Forall_app|  |done].
  replace (pre ++ (w ++ x1 ++ x2) ++ post) with ((pre ++ w) ++ (x1 ++ x2) ++ post) by (by rewrite <- !(assoc_L (++))).
  replace (zlen pre + 8) with (zlen (pre ++ w)) by (rewrite zlen_app; lia).
  replace (zlen (w ++ x1 ++ x2) - 8) with (zlen (x1 ++ x2)) by (rewrite (zlen_app w); lia).
  rewrite E2, <- !(assoc_L (++)), (zlen_app w). f_equal. f_equal. lia.
Qed.

(** The [n] low bits of a word, from the most significant one. *)
Definition word_bits (n : nat) (w : Z) : list bool := map (fun i => Z.testbit w (Z.of_nat n - 1 - Z.of_nat i)) (seq 0 n).

Lemma word_bits_snoc n w c : byte_ok c -> word_bits (n + 8) (c + 256 * w) = word_bits n w ++ byte_bits c.
Proof.
  intros Hc. assert (0 <= c < 2 ^ 8) as Hc' by exact Hc. unfold word_bits, byte_bits. rewrite seq_app, map_app. cbn [Nat.add]. f_equal.
  - apply map_ext_in. intros i Hi%in_seq. change 256 with (2 ^ 8). rewrite testbit_split by lia.
    zdec. f_equal. lia.
  - cbn [seq map]. change 256 with (2 ^ 8). rewrite !testbit_split by lia. repeat (apply (f_equal2 (@cons bool)); [zdec; f_equal; lia|]). done.
Qed.

Lemma word_bits_cons n w : word_bits (S n) w = Z.testbit w (Z.of_nat n) :: word_bits n w.
Proof.
  unfold word_bits. cbn [seq map]. f_equal; [f_equal; lia|]. rewrite <- seq_shift, map_map. apply map_ext. intros i. f_equal. lia.
Qed.

Lemma word_bits_zero n : word_bits n 0 = replicate n false.
Proof. induction n as [|n IH]; [done|]. rewrite word_bits_cons, IH, Z.bits_0. done. Qed.

Lemma index_replicate v n : bit_index v (replicate n (negb v)) = None.
Proof. induction n as [|n IH]; [done|]. cbn [replicate bit_index]. destruct v; cbn [negb eqb] in IH |- *; by rewrite IH. Qed.

Lemma index_none v l : bit_index v l = None -> Forall (fun b => b = negb v) l.
Proof.
  induction l as [|b l IH]; [by constructor|]. cbn [bit_index]. destruct (eqb b v) eqn:E; [done|].
  destruct (bit_index v l); [done|]. intros _. constructor; [|by apply IH]. by destruct b, v.
Qed.

Lemma word_zero w : 0 <= w < 2 ^ 64 -> bit_index true (word_bits 64 w) = None -> w = 0.
Proof.
  intros Hw Hi%index_none. apply Z.bits_inj'. intros i Hi0. rewrite Z.bits_0. destruct (Z.ltb_spec i 64); [|by apply (bits_above 64)].
  rewrite Forall_forall in Hi. apply Hi. unfold word_bits. apply list_elem_of_In, in_map_iff. exists (Z.to_nat (63 - i)).
  split; [f_equal; lia|]. apply in_seq. lia.
Qed.

Lemma lor_byte w c : byte_ok c -> Z.lor (256 * w) c = c + 256 * w.
Proof.
  intros Hc. unfold byte_ok in Hc. pose proof (op_split 8 0 c w 0 Z.lor orb Z.lor_spec eq_refl) as E. change (2 ^ 8) with 256 in E.
  rewrite !Z.mul_0_r, !Z.add_0_r, Z.lor_0_l, Z.lor_0_r in E. cbn [Z.add] in E. apply E; try lia. intros. by apply Z.lor_nonneg.
Qed.

Lemma load_word_ok n : forall m pre x post w, bytes_ok x -> 0 <= w < 2 ^ Z.of_nat m -> (m + 8 * n <= 64)%nat ->
  exists w', load_word n (pre ++ x ++ post) (zlen pre) (zlen x) w = Some w' /\ 0 <= w' < 2 ^ Z.of_nat (m + 8 * n) /\
    word_bits (m + 8 * n) w' = word_bits m w ++ bits (take n x) ++ replicate (8 * (n - length x)) false.
Proof.
  induction n as [|n IH]; intros m pre x post w Hx Hw Hm.
  { exists w. cbn [load_word take Nat.sub Nat.mul replicate]. rewrite Nat.add_0_r. split_and!; [done|lia|lia|]. by rewrite app_nil_r. }
  pose proof (Z.pow_le_mono_r 2 (Z.of_nat m + 8) 64 ltac:(lia) ltac:(lia)) as Hle. rewrite Z.pow_add_r in Hle by lia. change (2 ^ 8) with 256 in Hle.
  cbn [load_word]. cbv zeta. rewrite Z.shiftl_mul_pow2 by lia. change (2 ^ 8) with 256. rewrite (uwrap_small 64) by (unfold in_u; lia).
  rewrite (Z.mul_comm w 256).
  assert (2 ^ Z.of_nat (m + 8) = 256 * 2 ^ Z.of_nat m) as Hp. { rewrite Nat2Z.inj_add, Z.pow_add_r by lia. change (2 ^ Z.of_nat 8) with 256. lia. }
  replace (m + 8 * S n)%nat with (m + 8 + 8 * n)%nat by lia.
  destruct x as [|c x].
  - cbn [zlen length]. change (zlen []) with 0. cbn [Z.eqb negb]. destruct (IH (m + 8)%nat pre [] post (256 * w)) as (w' & E & Hw' & Eb); [done|lia|lia|].
    change (zlen []) with 0 in E. exists w'. split_and!; [exact E|lia|lia|]. rewrite Eb. change (256 * w) with (0 + 256 * w). rewrite word_bits_snoc by by vm_compute.
    rewrite !take_nil. cbn [bits map concat app length]. rewrite !Nat.sub_0_r. replace (8 * S n)%nat with (8 + 8 * n)%nat by lia.
    rewrite replicate_add, <- (assoc_L (++)). done.
  - inversion Hx as [|? ? Hc Hx']; subst. rewrite zlen_cons. pose proof (zlen_nonneg x). zdec. cbn [negb]. change (pre ++ (c :: x) ++ post) with (pre ++ c :: x ++ post).
    rewrite rd_mid. cbn [mbind option_bind]. rewrite lor_byte by done. pose proof Hc as Hc'. unfold byte_ok in Hc'.
    destruct (IH (m + 8)%nat (pre ++ [c]) x post (c + 256 * w)) as (w' & E & Hw' & Eb); [done|lia|lia|].
    rewrite <- (assoc_L (++) pre [c] (x ++ post)), (zlen_app pre [c]) in E. change (zlen [c]) with 1 in E. cbn [app] in E.
    replace (1 + zlen x - 1) with (zlen x) by lia. exists w'. split_and!; [exact E|lia|lia|].
    rewrite Eb, word_bits_snoc by done. cbn [take length Nat.sub]. rewrite bits_cons, <- !(assoc_L (++)). done.
Qed.

Lemma land_pow n w : (Z.land (2 ^ Z.of_nat n) w =? 0) = negb (Z.testbit w (Z.of_nat n)).
Proof.
  destruct (Z.testbit w (Z.of_nat n)) eqn:E; cbn [negb].
  - apply Z.eqb_neq. intros E0. apply (f_equal (fun z => Z.testbit z (Z.of_nat n))) in E0.
    rewrite Z.land_spec, Z.pow2_bits_true, E, Z.bits_0 in E0 by lia. done.
  - apply Z.eqb_eq, Z.bits_inj'. intros i Hi. rewrite Z.land_spec, Z.bits_0, Z.pow2_bits_eqb by lia.
    destruct (Z.eqb_spec (Z.of_nat n) i) as [<-|]; [by rewrite E|done].
Qed.

Lemma scan_word_S n one w bit pos : scan_word (S n) one w bit pos =
  if negb (one =? 0) then
    if Z.b2z (negb (Z.land one w =? 0)) =? bit then Some pos else scan_word n (Z.shiftr one 1) w bit (pos + 1)
  else None.
Proof. done. Qed.

Lemma scan_word_ok v w n : forall pos i, bit_index v (word_bits (S n) w) = Some i ->
  scan_word (S n) (2 ^ Z.of_nat n) w (Z.b2z v) pos = Some (pos + i).
Proof.
  induction n as [|n IH]; intros pos i Hi; rewrite word_bits_cons in Hi; cbn [bit_index] in Hi; rewrite scan_word_S.
  all: match goal with |- context [negb (2 ^ ?k =? 0)] => assert (0 < 2 ^ k) as Hp by (apply Z.pow_pos_nonneg; lia) end; zdec; cbn [negb].
  all: rewrite land_pow, negb_involutive.
  all: match goal with |- context [Z.b2z (Z.testbit ?w ?k) =? Z.b2z ?v] => replace (Z.b2z (Z.testbit w k) =? Z.b2z v) with (eqb (Z.testbit w k) v)
         by (by destruct (Z.testbit w k); destruct v) end.
  all: destruct (eqb _ v); [injection Hi as <-; by rewrite Z.add_0_r|].
  - done.
  - rewrite Z.shiftr_div_pow2 by lia. replace (2 ^ Z.of_nat (S n) / 2 ^ 1) with (2 ^ Z.of_nat n).
    2:{ rewrite Nat2Z.inj_succ, Z.pow_succ_r, Z.mul_comm by lia. change (2 ^ 1) with 2. by rewrite Z.div_mul. }
    destruct (bit_index v (word_bits (S n) w)) as [j|] eqn:E; [|done]. cbn in Hi. injection Hi as <-.
    rewrite (IH (pos + 1) j) by done. f_equal. lia.
Qed.

Lemma index_nonneg v l i : bit_index v l = Some i -> 0 <= i.
Proof.
  revert i. induction l as [|b l IH]; [done|]. intros i. cbn. destruct (eqb b v); [intros [= <-]; lia|].
  destruct (bit_index v l) as [j|]; [|done]. intros [= <-]. specialize (IH j eq_refl). lia.
Qed.

Lemma index_blank_app v x y : bytes_ok x -> Forall (fun c => c = blank v) x ->
  bit_index v (bits (x ++ y)) = (fun i => 8 * zlen x + i) <$> bit_index v (bits y).
Proof. intros Hx Hb. rewrite bits_app, index_app, (proj1 (blank_index v x Hx) Hb), zlen_bits. done. Qed.

Lemma bitpos_blank_app v x y : bytes_ok x -> Forall (fun c => c = blank v) x ->
  bitpos v (x ++ y) = if bitpos v y =? -1 then -1 else 8 * zlen x + bitpos v y.
Proof.
  intros Hx Hb. unfold bitpos. rewrite index_blank_app by done. destruct (bit_index v (bits y)) as [i|] eqn:E; cbn [fmap option_fmap option_map].
  - apply index_nonneg in E. zdec. done.
  - destruct v; [done|]. pose proof (zlen_nonneg y). zdec. rewrite zlen_app. lia.
Qed.

(** redisBitpos() finds the first bit, wherever the buffer starts in memory. *)
Lemma bitpos_ok base pre x post v : bytes_ok x ->
  redisBitpos base (pre ++ x ++ post) (zlen pre) (zlen x) (Z.b2z v) = Some (bitpos v x).
Proof.
  intros Hx. unfold redisBitpos. cbv zeta.
  replace (if negb (Z.b2z v =? 0) then 0 else UCHAR_MAX) with (blank v) by (by destruct v).
  replace (if negb (Z.b2z v =? 0) then 0 else ULONG_MAX) with (if v then 0 else ULONG_MAX) by (by destruct v).
  destruct (skip_unaligned_ok base v (Z.to_nat (zlen x)) pre x post 0 Hx) as (x1 & x2 & Ex & Hb1 & E1); [unfold zlen; lia|].
  rewrite E1. cbn [mbind option_bind]. rewrite Ex in Hx. apply Forall_app in Hx as [Hx1 Hx2].
  destruct (skip_words_ok v (Z.to_nat (zlen x)) (pre ++ x1) x2 post (0 + 8 * zlen x1) Hx2) as (y1 & y2 & Ey & Hb2 & E2 & Hend).
  { rewrite Ex, zlen_app. unfold zlen. lia. }
  replace (pre ++ x ++ post) with ((pre ++ x1) ++ x2 ++ post) by (by rewrite Ex, <- !(assoc_L (++))).
  rewrite E2. cbn [mbind option_bind]. rewrite Ey in Hx2. apply Forall_app in Hx2 as [Hy1 Hy2].
  replace ((pre ++ x1) ++ x2 ++ post) with (((pre ++ x1) ++ y1) ++ y2 ++ post) by (by rewrite Ey, <- !(assoc_L (++))).
  destruct (load_word_ok 8 0 ((pre ++ x1) ++ y1) y2 post 0 Hy2) as (w & E3 & Hw & Ew); [done|done|].
  rewrite E3. cbn [mbind option_bind]. change (0 + 8 * 8)%nat with 64%nat in *. change (2 ^ Z.of_nat 64) with (2 ^ 64) in Hw.
  change (word_bits 0 0) with (@nil bool) in Ew. cbn [app] in Ew.
  rewrite Ex, Ey, !bitpos_blank_app by done. unfold bitpos.
  assert (bit_index v (word_bits 64 w) = match bit_index v (bits y2) with Some i => Some i | None => if v then None else Some (8 * zlen y2) end) as Hi.
  { rewrite Ew, index_app. destruct Hend as [Hs|Hs].
    - unfold zlen in Hs. rewrite take_ge by lia. destruct (bit_index v (bits y2)); [done|]. destruct v.
      + by rewrite (index_replicate true).
      + replace (8 * (8 - length y2))%nat with (S (8 * (8 - length y2) - 1)) by lia. cbn. rewrite zlen_bits. f_equal. lia.
    - rewrite <- (take_drop 8 y2) at 2. rewrite bits_app, index_app. by destruct (bit_index v (bits (take 8 y2))). }
  change (uwrap 64 (Z.lnot (Z.shiftr ULONG_MAX 1))) with (2 ^ Z.of_nat 63).
  assert (forall i, bit_index v (word_bits 64 w) = Some i -> (Z.b2z v =? 1) && (w =? 0) = false) as Hnz.
  { intros i E. destruct v; [|done]. cbn. destruct (Z.eqb_spec w 0) as [->|]; [|done]. by rewrite word_bits_zero in E. }
  assert (forall i, bit_index v (word_bits 64 w) = Some i -> 0 <= i) as Hpos by (intros; by eapply index_nonneg).
  pose proof (zlen_nonneg x1). pose proof (zlen_nonneg y1).
  destruct (bit_index v (bits y2)) as [i|].
  - rewrite (Hnz i), (scan_word_ok v w 63 _ i) by done. specialize (Hpos i Hi). zdec. zdec. f_equal. lia.
  - destruct v.
    + apply word_zero in Hi; [|done]. rewrite Hi. done.
    + pose proof (zlen_nonneg y2). rewrite (Hnz (8 * zlen y2)), (scan_word_ok false w 63 _ (8 * zlen y2)) by done. zdec. zdec. f_equal. lia.
Qed.

End Search.

(** ** BITOP on buffers *)

Section Combine.
Context `{Host}.

Lemma byte_at_app1 i x y : (i < length x)%nat -> byte_at i (x ++ y) = byte_at i x.
Proof. intros Hi. unfold byte_at. by rewrite lookup_app_l. Qed.

Lemma byte_at_app2 i x y : (length x <= i)%nat -> byte_at i (x ++ y) = byte_at (i - length x) y.
Proof. intros Hi. unfold byte_at. by rewrite lookup_app_r. Qed.

Lemma byte_at_ok i x : bytes_ok x -> byte_ok (byte_at i x).
Proof.
  intros Hx. unfold byte_at. destruct (x !! i) as [c|] eqn:E; [|done]. rewrite Forall_lookup in Hx. by eapply Hx.
Qed.

Lemma byte_at_eq x y : zlen x = zlen y -> (forall i, byte_at i x = byte_at i y) -> x = y.
Proof.
  unfold zlen. intros Hl Hb. apply list_eq. intros i. specialize (Hb i). unfold byte_at in Hb.
  destruct (x !! i) as [a|] eqn:Ea, (y !! i) as [b|] eqn:Eb; try done.
  - by cbn in Hb; subst.
  - apply lookup_lt_Some in Ea. apply lookup_ge_None in Eb. lia.
  - apply lookup_ge_None in Ea. apply lookup_lt_Some in Eb. lia.
Qed.

(** [y] is [x] with the [n] bytes from [p] on changed by [h]. *)
Definition patched (p n : Z) (h : nat -> Z -> Z) (x y : list Z) : Prop :=
  zlen y = zlen x /\ bytes_ok y /\
  forall i : nat, byte_at i y = if (p <=? Z.of_nat i) && (Z.of_nat i <? p + n) then h i (byte_at i x) else byte_at i x.

Lemma patched_nil p h x : bytes_ok x -> patched p 0 h x x.
Proof. intros Hx. split_and!; [done|done|]. intros i. destruct (Z.leb_spec p (Z.of_nat i)), (Z.ltb_spec (Z.of_nat i) (p + 0)); try done. lia. Qed.

Lemma patched_app p n m h x y z : 0 <= n -> 0 <= m -> patched p n h x y -> patched (p + n) m h y z -> patched p (n + m) h x z.
Proof.
  intros Hn Hm (L1 & _ & H1) (L2 & B2 & H2). split_and!; [congruence|done|]. intros i. rewrite H2, H1.
  repeat match goal with |- context [?a <=? ?b] => destruct (Z.leb_spec a b) | |- context [?a <? ?b] => destruct (Z.ltb_spec a b) end; cbn [andb]; try done; lia.
Qed.

Lemma patched_seq p n h1 h2 x y z : patched p n h1 x y -> patched p n h2 y z -> patched p n (fun i c => h2 i (h1 i c)) x z.
Proof.
  intros (L1 & _ & H1) (L2 & B2 & H2). split_and!; [congruence|done|]. intros i. rewrite H2, H1. by destruct (_ && _).
Qed.

Lemma patched_ext p n h1 h2 x y : (forall i, p <= Z.of_nat i < p + n -> h1 i (byte_at i x) = h2 i (byte_at i x)) -> patched p n h1 x y -> patched p n h2 x y.
Proof.
  intros He (L1 & B & H1). split_and!; [done|done|]. intros i. rewrite H1. destruct (_ && _) eqn:E; [|done].
  apply andb_true_iff in E as [?%Z.leb_le ?%Z.ltb_lt]. by apply He.
Qed.

Lemma patched_bytes p n h x y : patched p n h x y -> bytes_ok y.
Proof. by intros (_ & ? & _). Qed.

Lemma patched_zlen p n h x y : patched p n h x y -> zlen y = zlen x.
Proof. by intros (? & _ & _). Qed.

(** Writing a range. *)
Lemma patch_range x p w : bytes_ok x -> bytes_ok w -> 0 <= p -> p + zlen w <= zlen x ->
  exists y, wrn x p w = Some y /\ patched p (zlen w) (fun i _ => byte_at (i - Z.to_nat p) w) x y.
Proof.
  intros Hx Hw Hp Hl. destruct (split_at x p) as (a & r & -> & Ha & Hr); [pose proof (zlen_nonneg w); lia|].
  rewrite zlen_app in Hl. destruct (split_at r (zlen w)) as (o & c & -> & Ho & Hc); [pose proof (zlen_nonneg w); lia|].
  exists (a ++ w ++ c). split; [by apply wrn_app_mid|]. rewrite !Forall_app in Hx. destruct Hx as (Ba & Bo & Bc).
  split_and!; [rewrite !zlen_app; lia|by rewrite !Forall_app|]. intros i. unfold zlen in *. subst p. rewrite Nat2Z.id.
  destruct (Z.leb_spec (Z.of_nat (length a)) (Z.of_nat i)); cbn [andb].
  2:{ by rewrite !byte_at_app1 by lia. }
  rewrite (byte_at_app2 i a) by lia. destruct (Z.ltb_spec (Z.of_nat i) (Z.of_nat (length a) + Z.of_nat (length w))).
  - by rewrite byte_at_app1 by lia.
  - rewrite (byte_at_app2 i a), (byte_at_app2 _ w), (byte_at_app2 _ o) by lia. f_equal. lia.
Qed.

Lemma take_bytes m n (x : list Z) : bytes_ok (take (Z.to_nat n) x) -> m <= n -> bytes_ok (take (Z.to_nat m) x).
Proof. intros Hx Hm. replace (take (Z.to_nat m) x) with (take (Z.to_nat m) (take (Z.to_nat n) x)) by (rewrite take_take; f_equal; lia). by apply Forall_take. Qed.

Lemma range_read x p n : bytes_ok (take (Z.to_nat (p + n)) x) -> 0 <= p -> 0 <= n -> p + n <= zlen x ->
  exists w, rdn x p n = Some w /\ zlen w = n /\ bytes_ok w /\ forall i, p <= Z.of_nat i < p + n -> byte_at (i - Z.to_nat p) w = byte_at i x.
Proof.
  intros Hx Hp Hn Hl. destruct (split_at x p) as (a & r & -> & Ha & Hr); [lia|].
  rewrite zlen_app in Hl. destruct (split_at r n) as (o & c & -> & Ho & Hc); [lia|]. exists o.
  rewrite (assoc_L (++)), take_app_le, take_ge in Hx by (unfold zlen in *; rewrite length_app; lia).
  apply Forall_app in Hx as [Ba Bo]. split_and!; [by apply rdn_app_mid|done|done|].
  intros i Hi. unfold zlen in *. subst p. rewrite Nat2Z.id, (byte_at_app2 i a), byte_at_app1 by lia. done.
Qed.

(** The words of two buffers are combined byte by byte, in either byte order. *)
Lemma le_dec_zip op w : op = BITOP_AND \/ op = BITOP_OR \/ op = BITOP_XOR -> forall v, length w = length v -> bytes_ok w -> bytes_ok v ->
  byte_op op (le_dec w) (le_dec v) = le_dec (zip_with (byte_op op) w v) /\ bytes_ok (zip_with (byte_op op) w v).
Proof.
  intros Hop. induction w as [|a w IH]; intros [|b v] Hl Hw Hv; try done.
  { split; [|constructor]. by destruct Hop as [->|[->| ->]]. }
  inversion Hw; inversion Hv; subst. injection Hl as Hl. destruct (IH v) as [E B]; [done..|].
  cbn [le_dec zip_with]. destruct (byte_op_split op a b (le_dec w) (le_dec v)) as [-> Hb]; [done..|]. rewrite E. split; [done|by constructor].
Qed.

Lemma zip_with_reverse (f : Z -> Z -> Z) w : forall v, length w = length v -> zip_with f (reverse w) (reverse v) = reverse (zip_with f w v).
Proof.
  induction w as [|a w IH]; intros [|b v] Hl; try done. injection Hl as Hl. cbn [zip_with]. rewrite !reverse_cons.
  rewrite zip_with_app by (by rewrite !length_reverse). by rewrite IH.
Qed.

Lemma host_zip op w v : op = BITOP_AND \/ op = BITOP_OR \/ op = BITOP_XOR -> length w = length v -> bytes_ok w -> bytes_ok v ->
  byte_op op (host_dec w) (host_dec v) = host_dec (zip_with (byte_op op) w v) /\ bytes_ok (zip_with (byte_op op) w v).
Proof.
  intros Hop Hl Hw Hv. unfold host_dec. destruct big_endian; [|by apply le_dec_zip].
  destruct (le_dec_zip op (reverse w) Hop (reverse v)) as [E B]; [by rewrite !length_reverse|by apply Forall_reverse..|].
  rewrite E, zip_with_reverse by done. split; [done|]. rewrite zip_with_reverse in B by done. revert B. apply Forall_reverse.
Qed.

Lemma le_dec_not w : le_dec (map (fun c => 255 - c) w) = 256 ^ zlen w - 1 - le_dec w.
Proof.
  induction w as [|a w IH]; [done|]. cbn [map le_dec]. pose proof (zlen_nonneg w). rewrite IH, zlen_cons, Z.add_1_l, Z.pow_succ_r by done. lia.
Qed.

Lemma host_not w : zlen w = 8 -> bytes_ok w -> uwrap 64 (Z.lnot (host_dec w)) = host_dec (map (fun c => 255 - c) w).
Proof.
  intros Hw Hb. assert (forall w, zlen w = 8 -> bytes_ok w -> uwrap 64 (Z.lnot (le_dec w)) = le_dec (map (fun c => 255 - c) w)) as A.
  { clear. intros w Hw Hb. rewrite le_dec_not, Hw. pose proof (le_dec_bound w Hb) as B. rewrite Hw in B. change (256 ^ 8) with (2 ^ 64) in *.
    unfold uwrap, Z.lnot. symmetry. apply (Z.mod_unique _ _ (-1)); [left; lia|lia]. }
  unfold host_dec. destruct big_endian; [|by apply A]. rewrite A; [|unfold zlen in *; by rewrite length_reverse|by apply Forall_reverse].
  f_equal. unfold reverse. by rewrite <- !rev_alt, map_rev.
Qed.

Lemma lookup_map_Z (f : Z -> Z) w i : map f w !! i = f <$> w !! i.
Proof. apply (list_lookup_fmap f w i). Qed.

Lemma byte_at_zip op w v i : (i < length w)%nat -> length w = length v -> byte_at i (zip_with (byte_op op) w v) = byte_op op (byte_at i w) (byte_at i v).
Proof.
  intros Hi Hl. unfold byte_at. destruct (lookup_lt_is_Some_2 w i Hi) as [a Ea]. destruct (lookup_lt_is_Some_2 v i) as [b Eb]; [lia|].
  rewrite Ea, Eb. by erewrite (proj2 (lookup_zip_with_Some _ _ _ _ _)); [|eauto].
Qed.

(** One word. *)
Lemma fast_word_ok op res src j k : op = BITOP_AND \/ op = BITOP_OR \/ op = BITOP_XOR ->
  bytes_ok res -> bytes_ok (take (Z.to_nat (j + 8 * k + 8)) src) -> 0 <= j + 8 * k -> j + 8 * k + 8 <= zlen res -> j + 8 * k + 8 <= zlen src ->
  exists y, fast_word op res src j k = Some y /\ patched (j + 8 * k) 8 (fun i c => byte_op op c (byte_at i src)) res y.
Proof.
  intros Hop Hr Hs Hp Hlr Hls. unfold fast_word. set (p := j + 8 * k) in *.
  destruct (range_read res p 8) as (w & -> & Lw & Bw & Aw); [by apply Forall_take|done..|]. destruct (range_read src p 8) as (v & -> & Lv & Bv & Av); [done..|].
  cbn [mbind option_bind]. change (bitop_word op) with (byte_op op).
  assert (length w = length v) as Hl by (unfold zlen in *; lia). destruct (host_zip op w v Hop Hl Bw Bv) as [-> B].
  assert (length (zip_with (byte_op op) w v) = 8%nat) as Lz by (rewrite length_zip_with; unfold zlen in *; lia).
  rewrite host_enc_dec_n by done. assert (zlen (zip_with (byte_op op) w v) = 8) as Lz' by (unfold zlen; lia).
  destruct (patch_range res p (zip_with (byte_op op) w v)) as (y & E & P); [done|done|done|lia|].
  exists y. split; [exact E|]. rewrite Lz' in P. eapply patched_ext; [|exact P]. intros i Hi. cbv beta.
  rewrite byte_at_zip, Aw, Av by (unfold zlen in *; lia || done). done.
Qed.

Lemma not_word_ok res j k : bytes_ok res -> 0 <= j + 8 * k -> j + 8 * k + 8 <= zlen res ->
  exists y, not_word res j k = Some y /\ patched (j + 8 * k) 8 (fun i c => 255 - c) res y.
Proof.
  intros Hr Hp Hlr. unfold not_word. set (p := j + 8 * k) in *.
  destruct (range_read res p 8) as (w & -> & Lw & Bw & Aw); [by apply Forall_take|done..|]. cbn [mbind option_bind]. rewrite host_not by done.
  assert (length w = 8%nat) as Lw' by (unfold zlen in Lw; lia).
  assert (bytes_ok (map (fun c => 255 - c) w)) as B. { clear -Bw. induction Bw as [|c w Hc _ IH]; constructor; [unfold byte_ok in *; lia|done]. }
  rewrite host_enc_dec_n by (done || by rewrite length_map). assert (zlen (map (fun c => 255 - c) w) = 8) as Lz by (unfold zlen; rewrite length_map; lia).
  destruct (patch_range res p (map (fun c => 255 - c) w)) as (y & E & P); [done|done|done|lia|].
  exists y. split; [exact E|]. rewrite Lz in P. eapply patched_ext; [|exact P]. intros i Hi. cbv beta.
  rewrite <- Aw by done. unfold byte_at. rewrite lookup_map_Z. destruct (w !! (i - Z.to_nat p)%nat) eqn:Ei; [done|]. apply lookup_ge_None in Ei. lia.
Qed.

(** Four words. *)
Lemma four_words (f : list Z -> Z -> option (list Z)) h j res :
  (forall x k, bytes_ok x -> zlen x = zlen res -> 0 <= k < 4 -> exists y, f x k = Some y /\ patched (j + 8 * k) 8 h x y) -> bytes_ok res ->
  exists y1 y2 y3 y, f res 0 = Some y1 /\ f y1 1 = Some y2 /\ f y2 2 = Some y3 /\ f y3 3 = Some y /\ patched j 32 h res y.
Proof.
  intros Hf Hr. destruct (Hf res 0) as (y1 & E1 & P1); [done|done|lia|]. pose proof (patched_zlen _ _ _ _ _ P1) as L1.
  destruct (Hf y1 1) as (y2 & E2 & P2); [by eapply patched_bytes|done|lia|]. pose proof (patched_zlen _ _ _ _ _ P2) as L2.
  destruct (Hf y2 2) as (y3 & E3 & P3); [by eapply patched_bytes|congruence|lia|]. pose proof (patched_zlen _ _ _ _ _ P3) as L3.
  destruct (Hf y3 3) as (y4 & E4 & P4); [by eapply patched_bytes|congruence|lia|]. exists y1, y2, y3, y4. split_and!; [done..|].
  replace (j + 8 * 0) with j in P1 by lia. apply (patched_app j 8 24 h res y1 y4); [lia|lia|done|].
  apply (patched_app (j + 8) 8 16 h y1 y2 y4); [lia|lia|done|]. replace (j + 8 + 8) with (j + 8 * 2) by lia.
  apply (patched_app (j + 8 * 2) 8 8 h y2 y3 y4); [lia|lia|done|]. by replace (j + 8 * 2 + 8) with (j + 8 * 3) by lia.
Qed.

Definition srcs_long (srcs : list (list Z)) (n : Z) : Prop := Forall (fun s => bytes_ok (take (Z.to_nat n) s) /\ n <= zlen s) srcs.

Lemma fast_keys_ok op j srcs : op = BITOP_AND \/ op = BITOP_OR \/ op = BITOP_XOR -> 0 <= j -> srcs_long srcs (j + 32) ->
  forall res, bytes_ok res -> j + 32 <= zlen res ->
  exists y, fast_keys op res srcs j = Some y /\ patched j 32 (fun i c => foldl (fun c s => byte_op op c (byte_at i s)) c srcs) res y.
Proof.
  intros Hop Hj Hs. induction Hs as [|s srcs [Bs Ls] _ IH]; intros res Hr Hl; cbn [fast_keys].
  { exists res. split; [done|]. split_and!; [done|done|]. intros i. cbn. by destruct (_ && _). }
  destruct (four_words (fun x k => fast_word op x s j k) (fun i c => byte_op op c (byte_at i s)) j res) as (y1 & y2 & y3 & y & E1 & E2 & E3 & E4 & P); [|done|].
  { intros x k Hx Hlx Hk. apply fast_word_ok; [done|done| |lia|lia|lia]. eapply take_bytes; [exact Bs|lia]. }
  cbv beta in E1, E2, E3, E4. rewrite E1. cbn [mbind option_bind]. rewrite E2. cbn [mbind option_bind]. rewrite E3. cbn [mbind option_bind]. rewrite E4. cbn [mbind option_bind].
  pose proof (patched_zlen _ _ _ _ _ P) as L. destruct (IH y) as (z & -> & P2); [by eapply patched_bytes|lia|].
  exists z. split; [done|]. exact (patched_seq j 32 _ _ res y z P P2).
Qed.

(** What the fast path does to a byte. *)
Definition fast_byte (op : Z) (srcs : list (list Z)) (i : nat) (c : Z) : Z :=
  if op =? BITOP_NOT then 255 - c else foldl (fun c s => byte_op op c (byte_at i s)) c srcs.

Lemma op_cases op : 0 <= op <= 3 -> op = BITOP_NOT \/ ((op =? BITOP_NOT) = false /\ (op = BITOP_AND \/ op = BITOP_OR \/ op = BITOP_XOR)).
Proof. unfold BITOP_NOT, BITOP_AND, BITOP_OR, BITOP_XOR. intros Ho. zdec. destruct (Z.eq_dec op 3); [by left|right]. zdec. split; [done|lia]. Qed.

Lemma fast_loop_ok op srcs fuel : 0 <= op <= 3 -> forall res j m, bytes_ok res -> 0 <= j -> 0 <= m -> (Z.to_nat m <= fuel)%nat -> j + m <= zlen res -> srcs_long srcs (j + m) ->
  exists y n, fast_loop fuel op res srcs j m = Some (y, j + n) /\ 0 <= n <= m /\ patched j n (fast_byte op srcs) res y.
Proof.
  intros Hop. induction fuel as [|fuel IH]; intros res j m Hr Hj Hm Hf Hl Hs.
  { exists res, 0. cbn [fast_loop]. zdec. rewrite Z.add_0_r. split_and!; [done|lia|lia|by apply patched_nil]. }
  cbn [fast_loop]. destruct (Z.leb_spec 32 m) as [Hm32|Hm32].
  2:{ exists res, 0. rewrite Z.add_0_r. split_and!; [done|lia|lia|by apply patched_nil]. }
  assert (exists y, (if op =? BITOP_NOT then res ← not_word res j 0; res ← not_word res j 1; res ← not_word res j 2; not_word res j 3
                     else fast_keys op res srcs j) = Some y /\ patched j 32 (fast_byte op srcs) res y) as (y & -> & P).
  { destruct (op_cases op Hop) as [->|[E Hop']].
    - rewrite Z.eqb_refl. destruct (four_words (fun x k => not_word x j k) (fun i c => 255 - c) j res) as (y1 & y2 & y3 & y & E1 & E2 & E3 & E4 & P); [|done|].
      { intros x k Hx Hlx Hk. apply not_word_ok; (done || lia). }
      cbv beta in E1, E2, E3, E4. rewrite E1. cbn [mbind option_bind]. rewrite E2. cbn [mbind option_bind]. rewrite E3. cbn [mbind option_bind].
      exists y. split; [exact E4|]. eapply patched_ext; [|exact P]. intros i _. reflexivity.
    - rewrite E. destruct (fast_keys_ok op j srcs Hop' Hj) with (res := res) as (y & Ey & P); [|done|lia|].
      { eapply Forall_impl; [exact Hs|]. intros s [Bs Ls]. split; [eapply take_bytes; [exact Bs|]|]; lia. }
      exists y. split; [exact Ey|]. eapply patched_ext; [|exact P]. intros i _. unfold fast_byte. by rewrite E. }
  cbn [mbind option_bind]. pose proof (patched_zlen _ _ _ _ _ P) as L.
  destruct (IH y (j + 32) (m - 32)) as (z & n & E & Hn & P2); [by eapply patched_bytes|lia|lia|lia|lia| |].
  { replace (j + 32 + (m - 32)) with (j + m) by lia. done. }
  exists z, (32 + n). rewrite E. replace (j + 32 + n) with (j + (32 + n)) by lia. split_and!; [done|lia|lia|].
  apply (patched_app j 32 n _ res y z); [lia|lia|done|done].
Qed.

(** The buffers and what they hold: the bytes of each source, and more after them. *)
Definition source_of (s : list Z * Z) (x : list Z) : Prop := exists t, fst s = x ++ t /\ snd s = zlen x /\ bytes_ok x.

Lemma src_byte_ok s x j : source_of s x -> 0 <= j -> src_byte s j = Some (byte_at (Z.to_nat j) x).
Proof.
  intros (t & Es & El & _) Hj. unfold src_byte. rewrite El. destruct (Z.leb_spec (zlen x) j) as [Hx|Hx].
  - unfold byte_at. rewrite lookup_ge_None_2; [done|]. unfold zlen in Hx. lia.
  - rewrite Es, rd_app_l by done. unfold rd. zdec. unfold byte_at. destruct (x !! Z.to_nat j) eqn:E; [done|].
    apply lookup_ge_None in E. unfold zlen in Hx. lia.
Qed.

Lemma slow_keys_ok op j srcs xs : op = BITOP_AND \/ op = BITOP_OR \/ op = BITOP_XOR -> Forall2 source_of srcs xs -> 0 <= j ->
  forall c, slow_keys op c srcs j = Some (foldl (byte_op op) c (map (byte_at (Z.to_nat j)) xs)).
Proof.
  intros Hop Hs Hj. induction Hs as [|s x srcs xs Hsx _ IH]; intros c; [done|]. cbn [slow_keys map foldl].
  rewrite (src_byte_ok s x j Hsx Hj). cbn [mbind option_bind]. rewrite <- IH. f_equal. unfold byte_op.
  by destruct Hop as [->|[->| ->]].
Qed.

Lemma source_bytes srcs xs : Forall2 source_of srcs xs -> Forall bytes_ok xs.
Proof. induction 1 as [|s x srcs xs (t & _ & _ & Hb) _ IH]; constructor; done. Qed.

Lemma lnot_byte c : byte_ok c -> uwrap 8 (Z.lnot c) = 255 - c.
Proof. unfold byte_ok, uwrap, Z.lnot. intros Hc. symmetry. apply (Z.mod_unique _ _ (-1)); [left|]; change (2 ^ 8) with 256; lia. Qed.

Lemma foldl_byte_ok op l : op = BITOP_AND \/ op = BITOP_OR \/ op = BITOP_XOR -> bytes_ok l -> forall c, byte_ok c -> byte_ok (foldl (byte_op op) c l).
Proof.
  intros Hop. induction 1 as [|b l Hb Hl IH]; intros c Hc; [done|]. cbn [foldl]. apply IH. by apply (byte_op_split op c b 0 0 Hop Hc Hb).
Qed.

Lemma combine_at_ok op xs j : 0 <= op <= 3 -> Forall bytes_ok xs -> byte_ok (combine_at op xs j).
Proof.
  intros Hop Hx. destruct Hx as [|x xs Hx Hxs]; [done|]. cbn [combine_at]. pose proof (byte_at_ok j x Hx) as B.
  destruct (op_cases op Hop) as [->|[-> Hop']]; [rewrite Z.eqb_refl; unfold byte_ok in *; lia|].
  apply foldl_byte_ok; [done| |done]. clear -Hxs. induction Hxs; constructor; [by apply byte_at_ok|done].
Qed.

Lemma slow_loop_ok op srcs xs n : 0 <= op <= 3 -> Forall2 source_of srcs xs -> srcs <> [] -> (op = BITOP_NOT -> length xs = 1%nat) ->
  forall res j, bytes_ok res -> 0 <= j -> j + Z.of_nat n <= zlen res ->
  exists y, slow_loop n op res srcs j = Some y /\ patched j (Z.of_nat n) (fun i _ => combine_at op xs i) res y.
Proof.
  intros Hop Hs Hne Hnot. induction n as [|n IH]; intros res j Hr Hj Hl; cbn [slow_loop].
  { exists res. split; [done|]. by apply patched_nil. }
  pose proof (source_bytes srcs xs Hs) as Hxs. destruct Hs as [|s x srcs xs Hsx Hs']; [done|].
  rewrite (src_byte_ok s x j Hsx Hj). cbn [mbind option_bind]. set (c0 := byte_at (Z.to_nat j) x).
  assert (byte_ok c0) as Hc0 by (apply byte_at_ok; by inversion Hxs).
  assert (slow_keys op (if op =? BITOP_NOT then uwrap 8 (Z.lnot c0) else c0) srcs j = Some (combine_at op (x :: xs) (Z.to_nat j))) as E.
  { cbn [combine_at]. fold c0. destruct (op_cases op Hop) as [->|[-> Hop']]; [|by apply slow_keys_ok].
    rewrite Z.eqb_refl. destruct xs; [|discriminate (Hnot eq_refl)]. inversion Hs'; subst. cbn [slow_keys]. by rewrite lnot_byte. }
  cbv zeta. rewrite E. cbn [mbind option_bind].
  destruct (patch_range res j [combine_at op (x :: xs) (Z.to_nat j)]) as (y & Ey & P); [done| |done|change (zlen [_]) with 1; lia|].
  { constructor; [|done]. by apply combine_at_ok. }
  assert (wr res j (combine_at op (x :: xs) (Z.to_nat j)) = Some y) as ->.
  { rewrite <- Ey. destruct (split_at res j) as (a & r & -> & Ha & Hr'); [lia|]. rewrite zlen_app in Hl. destruct r as [|o r]; [change (zlen (@nil Z)) with 0 in Hl; lia|].
    rewrite wr_app_mid by done. symmetry. apply (wrn_app_mid a [o] [_] r); done. }
  cbn [mbind option_bind]. change (zlen [_]) with 1 in P. pose proof (patched_zlen _ _ _ _ _ P) as L.
  destruct (IH y (j + 1)) as (z & -> & P2); [by eapply patched_bytes|lia|lia|]. exists z. split; [done|].
  replace (Z.of_nat (S n)) with (1 + Z.of_nat n) by lia. apply (patched_app j 1 (Z.of_nat n) _ res y z); [lia|lia| |done].
  eapply patched_ext; [|exact P]. intros i Hi. cbv beta. replace (i - Z.to_nat j)%nat with 0%nat by lia. replace i with (Z.to_nat j) by lia. done.
Qed.

(** The buffer of BITOP. *)
Lemma bitop_buffer_ok op srcs xs minlen maxlen : 0 <= op <= 3 -> Forall2 source_of srcs xs -> srcs <> [] -> (op = BITOP_NOT -> length xs = 1%nat) ->
  0 <= minlen <= maxlen -> Forall (fun x => minlen <= zlen x) xs ->
  bitop_buffer op srcs minlen maxlen (replicate (Z.to_nat maxlen) 0 ++ [0]) = Some (combine op xs (Z.to_nat maxlen) ++ [0]).
Proof.
  unfold bitop_buffer.
  intros Hop Hs Hne Hnot Hm Hmin. set (res := replicate (Z.to_nat maxlen) 0 ++ [0]).
  assert (zlen res = maxlen + 1) as Lr by (unfold res, zlen; rewrite length_app, length_replicate; cbn; lia).
  assert (bytes_ok res) as Br by (apply Forall_app; split; [by apply Forall_replicate|by constructor]).
  assert (exists y j, (if negb (minlen =? 0) && (zlen srcs <=? 16) then
       s ← head srcs; x ← rdn (fst s) 0 minlen; res ← wrn res 0 x; fast_loop (Z.to_nat minlen) op res (map fst (tail srcs)) 0 minlen
     else Some (res, 0)) = Some (y, j) /\ 0 <= j <= maxlen /\ zlen y = zlen res /\ bytes_ok y /\
      forall i, (Z.of_nat i < j -> byte_at i y = combine_at op xs i) /\ (maxlen <= Z.of_nat i -> byte_at i y = byte_at i res)) as (y & j & -> & Hj & Ly & By & Py).
  { destruct (negb (minlen =? 0) && (zlen srcs <=? 16)); [|exists res, 0; split_and!; [done|lia|lia|done|done|intros i; split; [lia|done]]].
    destruct Hs as [|s x srcs xs (t & Es & El & Bs) Hs']; [done|]. cbn [head tail mbind option_bind]. rewrite Es. inversion Hmin as [|? ? Hx Hxs]; subst.
    pose proof (zlen_nonneg t). destruct (range_read (x ++ t) 0 minlen) as (w & -> & Lw & Bw & Aw); [|lia|lia|rewrite zlen_app; lia|].
    { rewrite take_app_le by (unfold zlen in *; lia). by apply Forall_take. }
    cbn [mbind option_bind]. destruct (patch_range res 0 w) as (r1 & -> & P1); [done|done|lia|lia|]. cbn [mbind option_bind]. rewrite Lw in P1.
    pose proof (patched_zlen _ _ _ _ _ P1) as L1.
    destruct (fast_loop_ok op (map fst srcs) (Z.to_nat minlen) Hop r1 0 minlen) as (y & n & -> & Hn & P2); [by eapply patched_bytes|lia|lia|lia|lia| |].
    { clear -Hs' Hxs. revert Hxs. induction Hs' as [|s x srcs xs (t & Es & El & Bs) _ IH]; intros Hxs; cbn [map]; constructor; inversion Hxs; subst.
      - rewrite Es. split; [rewrite take_app_le by (unfold zlen in *; lia); by apply Forall_take|]. rewrite zlen_app. pose proof (zlen_nonneg t). lia.
      - by apply IH. }
    exists y, (0 + n). destruct P1 as (_ & _ & P1). destruct P2 as (L2 & B2 & P2). split_and!; [done|lia|lia|congruence|done|].
    intros i. rewrite P2, P1. destruct (Z.leb_spec 0 (Z.of_nat i)); [|lia]. cbn [andb].
    destruct (Z.ltb_spec (Z.of_nat i) (0 + n)) as [Hi|Hi], (Z.ltb_spec (Z.of_nat i) (0 + minlen)) as [Hi2|Hi2]; split; try lia; try done; intros _.
    change (Z.to_nat 0) with 0%nat. rewrite Nat.sub_0_r. specialize (Aw i ltac:(lia)). change (Z.to_nat 0) with 0%nat in Aw. rewrite Nat.sub_0_r in Aw.
    rewrite Aw, byte_at_app1 by (unfold zlen in *; lia). unfold combine_at, fast_byte. destruct (op =? BITOP_NOT); [done|].
    clear -Hs' Hxs Hi2. generalize (byte_at i x). revert Hxs. induction Hs' as [|s y srcs xs (t & Es & El & Bs) _ IH]; intros Hxs c; [done|].
    inversion Hxs; subst. cbn [map foldl]. rewrite Es, byte_at_app1 by (unfold zlen in *; lia). by apply IH. }
  cbn [mbind option_bind].
  destruct (slow_loop_ok op srcs xs (Z.to_nat (maxlen - j)) Hop Hs Hne Hnot y j) as (z & -> & Lz & Bz & Pz); [done|lia|lia|]. f_equal.
  apply byte_at_eq.
  { rewrite Lz, Ly, Lr, zlen_app. unfold zlen, combine. rewrite length_map, length_seq. cbn. lia. }
  intros i. rewrite Pz. destruct (Py i) as [Py1 Py2]. replace (j + Z.of_nat (Z.to_nat (maxlen - j))) with maxlen by lia.
  assert (length (combine op xs (Z.to_nat maxlen)) = Z.to_nat maxlen) as Lc by (unfold combine; by rewrite length_map, length_seq).
  destruct (Z.ltb_spec (Z.of_nat i) maxlen) as [Hi|Hi].
  - rewrite byte_at_app1 by lia. assert (byte_at i (combine op xs (Z.to_nat maxlen)) = combine_at op xs i) as ->.
    { unfold byte_at, combine. rewrite (list_lookup_fmap (combine_at op xs)), lookup_seq_lt by lia. done. }
    destruct (Z.leb_spec j (Z.of_nat i)); [done|by apply Py1].
  - rewrite andb_false_r, Py2 by done. unfold res. rewrite !byte_at_app2 by (rewrite ?length_replicate; lia). by rewrite length_replicate, Lc.
Qed.

End Combine.
End BitFacts.
