(* ===== verification/BitopsThms.v ===== *)
(** * The commands on bits implement operations on the bits of strings *)

From Stdlib Require Import Ascii String.
From S2P Require Import Prelude Endian Util Sds Server ServerFacts ObjFacts Db DbFacts Tstring CommandFacts TstringThms DbThms Bitops BitopsFacts.
Import SdsSpec SdsFacts QuoteFacts BitSpec BitFacts.

(** ** Specification *)

Section Spec.
Context `{ServerEnv}.

(** The string with the given bits, 8 for each byte. *)
Definition byte_of (l : list bool) : Z := foldl (fun v b => 2 * v + Z.b2z b) 0 l.

Fixpoint of_bits (l : list bool) : list Z :=
  match l with
  | b0 :: b1 :: b2 :: b3 :: b4 :: b5 :: b6 :: b7 :: l => byte_of [b0; b1; b2; b3; b4; b5; b6; b7] :: of_bits l
  | _ => []
  end.

(** [x] with zeroes at the end, up to [n] bytes. *)
Definition padded (x : list Z) (n : nat) : list Z := x ++ replicate (n - length x) 0.

Definition set_bit (x : list Z) (i : Z) (b : bool) : list Z :=
  of_bits (<[Z.to_nat i := b]> (bits (padded x (Z.to_nat (i / 8) + 1)))).

Definition bit_at (x : list Z) (i : Z) : bool := default false (bits x !! Z.to_nat i).

Definition bad_offset : string := "bit offset is not an integer or out of range".
Definition bad_bit : string := "bit is not an integer or out of range".

(** Offsets are under 2^32. *)
Definition a_offset (x : list Z) : Spec (option Z) :=
  r ← a_parse x bad_offset;
  match r with
  | None => mret None
  | Some i => if (i <? 0) || (2 ^ 32 <=? i) then _ ← a_reply (r_error bad_offset); mret None else mret (Some i)
  end.

Definition spec_setbit : Spec unit :=
  k ← a_arg 1;
  off ← a_arg 2;
  v ← a_arg 3;
  r ← a_offset off;
  match r with
  | None => mret tt
  | Some i =>
      r ← a_parse v bad_bit;
      match r with
      | None => mret tt
      | Some b =>
          if negb ((b =? 0) || (b =? 1)) then a_reply (r_error bad_bit) else
          db ← a_db;
          v ← a_lookupWrite db k;
          match v with
          | Some (VOther _ _) => a_reply shared_wrongtypeerr
          | _ =>
              let x := text_or_empty v in
              _ ← a_modify db (put k (VStr (set_bit x i (b =? 1))));
              _ ← a_log (Modified db k);
              _ ← a_log (Notify REDIS_NOTIFY_STRING "setbit" k db);
              _ ← a_dirty 1;
              a_reply (r_int (Z.b2z (bit_at x i)))
          end
      end
  end.

Definition spec_getbit : Spec unit :=
  k ← a_arg 1;
  off ← a_arg 2;
  r ← a_offset off;
  match r with
  | None => mret tt
  | Some i =>
      db ← a_db;
      v ← a_lookupRead db k;
      match v with
      | None => a_reply shared_czero
      | Some (VStr x) => a_reply (r_int (Z.b2z (bit_at x i)))
      | Some (VOther _ _) => a_reply shared_wrongtypeerr
      end
  end.

(** The part of a string that arguments select: the first index in argument [j] and the
    last one in the next, when they are there. *)
Definition a_range (x : list Z) (j : nat) (last : bool) : Spec (option (Z * Z)) :=
  s ← a_arg j;
  r ← a_parse s not_an_integer;
  match r with
  | None => mret None
  | Some start =>
      if last then
        e ← a_arg (j + 1);
        r ← a_parse e not_an_integer;
        match r with None => mret None | Some end_ => mret (Some (start, end_)) end
      else mret (Some (start, zlen x - 1))
  end.

Definition spec_bitcount : Spec unit :=
  k ← a_arg 1;
  db ← a_db;
  v ← a_lookupRead db k;
  match v with
  | None => a_reply shared_czero
  | Some (VOther _ _) => a_reply shared_wrongtypeerr
  | Some (VStr x) =>
      n ← a_gets (fun t => zlen (a_argv t));
      range ← (if n =? 4 then a_range x 2 true
               else if n =? 2 then mret (Some (0, zlen x - 1))
               else _ ← a_reply shared_syntaxerr; mret None);
      match range with
      | None => mret tt
      | Some (start, end_) => a_reply (r_int (ones (bits (substring x start end_))))
      end
  end.

(** The first byte of a range. *)
Definition first_byte (x : list Z) (start : Z) : Z := Z.max 0 (if start <? 0 then zlen x + start else start).

(** A clear bit is found after the end of the string unless the end of the range is given. *)
Definition spec_bitpos : Spec unit :=
  k ← a_arg 1;
  b ← a_arg 2;
  r ← a_parse b not_an_integer;
  match r with
  | None => mret tt
  | Some b =>
      if negb ((b =? 0) || (b =? 1)) then a_reply (r_error "The bit argument must be 1 or 0.") else
      db ← a_db;
      v ← a_lookupRead db k;
      match v with
      | None => a_reply (r_int (if b =? 1 then -1 else 0))
      | Some (VOther _ _) => a_reply shared_wrongtypeerr
      | Some (VStr x) =>
          n ← a_gets (fun t => zlen (a_argv t));
          range ← (if (n =? 4) || (n =? 5) then a_range x 3 (n =? 5)
                   else if n =? 3 then mret (Some (0, zlen x - 1))
                   else _ ← a_reply shared_syntaxerr; mret None);
          match range with
          | None => mret tt
          | Some (start, end_) =>
              let y := substring x start end_ in
              let pos := bitpos (b =? 1) y in
              a_reply (r_int (if bool_decide (y = []) || (pos =? -1) || ((n =? 5) && (b =? 0) && (pos =? 8 * zlen y))
                              then -1 else 8 * first_byte x start + pos))
          end
      end
  end.

(** The strings of the sources; a missing key is an empty string. *)
Fixpoint a_sources (keys : list (list Z)) : Spec (option (list (list Z))) :=
  match keys with
  | [] => mret (Some [])
  | k :: keys =>
      db ← a_db;
      v ← a_lookupRead db k;
      match v with
      | Some (VOther _ _) => _ ← a_reply shared_wrongtypeerr; mret None
      | _ =>
          r ← a_sources keys;
          mret (match r with Some xs => Some (text_or_empty v :: xs) | None => None end)
      end
  end.

Definition bitop_code (x : list Z) : option Z :=
  if is_word x "and" then Some BITOP_AND else if is_word x "or" then Some BITOP_OR
  else if is_word x "xor" then Some BITOP_XOR else if is_word x "not" then Some BITOP_NOT else None.

Definition max_len (xs : list (list Z)) : Z := foldr (fun x m => Z.max (zlen x) m) 0 xs.

Definition spec_bitop : Spec unit :=
  o ← a_arg 1;
  match bitop_code o with
  | None => a_reply shared_syntaxerr
  | Some op =>
      l ← a_gets a_argv;
      if (op =? BITOP_NOT) && negb (zlen l =? 4) then
        a_reply (r_error "BITOP NOT must be called with a single source key.")
      else
        r ← a_sources (drop 3 l);
        match r with
        | None => mret tt
        | Some xs =>
            let n := max_len xs in
            db ← a_db;
            k ← a_arg 2;
            _ ← (if negb (n =? 0) then
                   _ ← a_setKey db k (VStr (combine op xs (Z.to_nat n)));
                   a_log (Notify REDIS_NOTIFY_STRING "set" k db)
                 else
                   gone ← a_delete db k;
                   if gone : bool then
                     _ ← a_log (Modified db k);
                     a_log (Notify REDIS_NOTIFY_GENERIC "del" k db)
                   else mret tt);
            _ ← a_dirty 1;
            a_reply (r_int n)
        end
  end.

End Spec.

(** ** Lemmas: the bits of a string *)

Definition set_byte (c : Z) (r : nat) (b : bool) : Z :=
  Z.lor (Z.land c (Z.lnot (Z.shiftl 1 (7 - Z.of_nat r)))) (Z.shiftl (Z.b2z b) (7 - Z.of_nat r)).

Lemma byte_bits_8 c : exists b0 b1 b2 b3 b4 b5 b6 b7, byte_bits c = [b0; b1; b2; b3; b4; b5; b6; b7].
Proof. unfold byte_bits. cbn [seq map]. by do 8 eexists. Qed.

Lemma of_bits_byte c l : byte_ok c -> of_bits (byte_bits c ++ l) = c :: of_bits l.
Proof.
  intros Hc. assert (byte_of (byte_bits c) = c) as E.
  { pose proof (all_bytes (fun c => byte_of (byte_bits c) =? c) ltac:(by vm_compute) c Hc) as A. by apply Z.eqb_eq in A. }
  destruct (byte_bits_8 c) as (b0 & b1 & b2 & b3 & b4 & b5 & b6 & b7 & Eb). rewrite Eb in *. cbn [app of_bits]. by rewrite E.
Qed.

Lemma of_bits_bits x : bytes_ok x -> of_bits (bits x) = x.
Proof. induction 1 as [|c x Hc Hx IH]; [done|]. by rewrite bits_cons, of_bits_byte, IH. Qed.

Lemma set_byte_ok c r b : byte_ok c -> (r < 8)%nat -> <[r := b]> (byte_bits c) = byte_bits (set_byte c r b) /\ byte_ok (set_byte c r b).
Proof.
  intros Hc Hr. pose proof (all_bytes (fun c => forallb (fun r => forallb (fun b =>
    bool_decide (<[r := b]> (byte_bits c) = byte_bits (set_byte c r b) /\ 0 <= set_byte c r b < 256)) [true; false]) (seq 0 8))
    ltac:(by vm_compute) c Hc) as A. cbv beta in A. rewrite forallb_forall in A. specialize (A r ltac:(apply in_seq; lia)).
  rewrite forallb_forall in A. specialize (A b ltac:(destruct b; cbn; tauto)). by apply bool_decide_eq_true in A.
Qed.

Lemma length_byte_bits c : length (byte_bits c) = 8%nat.
Proof. done. Qed.

Lemma set_bits_ok r b : (r < 8)%nat -> forall j x c, bytes_ok x -> x !! j = Some c ->
  of_bits (<[(8 * j + r)%nat := b]> (bits x)) = <[j := set_byte c r b]> x /\ bytes_ok (<[j := set_byte c r b]> x).
Proof.
  intros Hr. induction j as [|j IH]; intros [|d x] c Hx Hj; try done; inversion Hx as [|? ? Hd Hx']; subst; rewrite bits_cons.
  - injection Hj as ->. destruct (set_byte_ok c r b Hd Hr) as [E B]. rewrite Nat.mul_0_r. cbn [Nat.add].
    rewrite insert_app_l by done. rewrite E, of_bits_byte, of_bits_bits by done. split; [done|by constructor].
  - cbn [lookup list_lookup] in Hj. destruct (IH x c Hx' Hj) as [E B].
    rewrite insert_app_r_alt by (rewrite length_byte_bits; lia). rewrite length_byte_bits, of_bits_byte by done.
    replace (8 * S j + r - 8)%nat with (8 * j + r)%nat by lia. rewrite E. split; [done|by constructor].
Qed.

Lemma bits_lookup r : (r < 8)%nat -> forall j x c, x !! j = Some c -> bits x !! (8 * j + r)%nat = Some (Z.testbit c (7 - Z.of_nat r)).
Proof.
  intros Hr. induction j as [|j IH]; intros [|d x] c Hj; try done; rewrite bits_cons.
  - injection Hj as ->. rewrite Nat.mul_0_r. cbn [Nat.add]. rewrite lookup_app_l by done. unfold byte_bits.
    change (map ?f ?l) with (f <$> l). rewrite list_lookup_fmap, lookup_seq_lt by done. done.
  - cbn [lookup list_lookup] in Hj. rewrite lookup_app_r by (rewrite length_byte_bits; lia). rewrite length_byte_bits.
    replace (8 * S j + r - 8)%nat with (8 * j + r)%nat by lia. by apply IH.
Qed.

(** An offset as a byte and a bit. *)
Lemma offset_parts i : 0 <= i -> exists j r : nat, (r < 8)%nat /\ Z.to_nat i = (8 * j + r)%nat /\ Z.shiftr i 3 = Z.of_nat j /\
  i / 8 = Z.of_nat j /\ 7 - Z.land i 7 = 7 - Z.of_nat r.
Proof.
  intros Hi. exists (Z.to_nat (i / 8)), (Z.to_nat (i mod 8)). pose proof (Z.div_mod i 8 ltac:(lia)) as E. pose proof (Z.mod_pos_bound i 8 ltac:(lia)) as B.
  assert (0 <= i / 8) as Hd by (apply Z.div_pos; lia). split_and!; [lia|lia| |lia|].
  - rewrite Z.shiftr_div_pow2 by lia. change (2 ^ 3) with 8. lia.
  - change 7 with (Z.ones 3) at 2. rewrite Z.land_ones by lia. change (2 ^ 3) with 8. lia.
Qed.

Lemma land_bit c k : 0 <= k -> negb (Z.land c (Z.shiftl 1 k) =? 0) = Z.testbit c k.
Proof.
  intros Hk. rewrite Z.shiftl_1_l. rewrite Z.land_comm. pose proof (land_pow (Z.to_nat k) c) as E. rewrite Z2Nat.id in E by done.
  by rewrite E, negb_involutive.
Qed.

Lemma bit_reply b : (if b : bool then shared_cone else shared_czero) = r_int (Z.b2z b).
Proof. by destruct b; vm_compute. Qed.

(** ** Lemmas: SETBIT and GETBIT *)

Section Bits.
Context `{ServerEnv} `{Host}.

Lemma sim_offset N L D R s a x :
  inv N L D R s -> val_at (heap s) a = Some (VStr x) ->
  sim (getBitOffsetFromArgument a) (a_offset x) s
    (fun r r' s' => r = r' /\ inv N L D R s' /\ forall i, r = Some i -> 0 <= i < 2 ^ 32 /\ s' = s).
Proof.
  intros I Hv. sim_next sim_parse; [exact I|exact Hv|]. intros r ? s1 (<- & I1 & _ & _ & Hs). destruct r as [i|]; [|by apply sim_ret].
  destruct (Hs i eq_refl) as [Hi ->]. assert ((i <? 0) || (512 * 1024 * 1024 <=? Z.shiftr (uwrap 64 i) 3) = (i <? 0) || (2 ^ 32 <=? i)) as ->.
  { destruct (Z.ltb_spec i 0); [done|]. cbn [orb]. rewrite uwrap_small by (unfold in_u, in_s in *; lia). rewrite Z.shiftr_div_pow2 by lia.
    change (2 ^ 3) with 8. pose proof (Z.div_mod i 8 ltac:(lia)). pose proof (Z.mod_pos_bound i 8 ltac:(lia)).
    destruct (Z.leb_spec (512 * 1024 * 1024) (i / 8)), (Z.leb_spec (2 ^ 32) i); lia. }
  destruct ((i <? 0) || (2 ^ 32 <=? i)) eqn:E.
  - sim_next sim_addReply; [exact I|]. intros _ _ s2 (I2 & _). by apply sim_ret.
  - bool_to_prop. rewrite uwrap_small by (unfold in_u; lia). apply sim_ret. split_and!; [done|done|]. intros ? [= <-]. split; [lia|done].
Qed.

Lemma zlen_padded x n : zlen (padded x n) = Z.max (zlen x) (Z.of_nat n).
Proof. unfold padded, zlen. rewrite length_app, length_replicate. lia. Qed.

Lemma padded_bytes x n : bytes_ok x -> bytes_ok (padded x n).
Proof. intros Hx. apply Forall_app_2; [done|]. by apply Forall_replicate. Qed.

Lemma padded_grow x n : spec (OGrowzero (Z.of_nat n)) x = padded x n.
Proof.
  cbn [spec]. unfold padded. destruct (Z.leb_spec (Z.of_nat n) (zlen x)) as [Hl|Hl]; unfold zlen in *.
  - replace (n - length x)%nat with 0%nat by lia. cbn. by rewrite app_nil_r.
  - do 2 f_equal. lia.
Qed.

Lemma bit_at_padded x n i : (Z.to_nat (i / 8) < n)%nat -> 0 <= i -> bit_at (padded x n) i = bit_at x i.
Proof.
  intros Hn Hi. unfold bit_at, padded. rewrite bits_app. destruct (decide (Z.to_nat i < length (bits x))%nat) as [Hl|Hl].
  - by rewrite lookup_app_l.
  - rewrite lookup_app_r, (lookup_ge_None_2 (bits x)) by lia. generalize (n - length x)%nat (Z.to_nat i - length (bits x))%nat.
    assert (forall c l k, c = 0 -> default false ((bits (replicate l c)) !! k) = false) as A; [|intros l k; by apply A].
    clear. intros c l k ->. revert k. induction l as [|l IH]; intros k; [done|]. cbn [replicate]. rewrite bits_cons.
    do 8 (destruct k as [|k]; [done|]). rewrite lookup_app_r by (rewrite length_byte_bits; lia). apply IH.
Qed.

(** SETBIT on a string with an object of its own, once it is long enough. *)
Lemma set_bit_parts x i b : bytes_ok x -> 0 <= i < 2 ^ 32 ->
  exists j r c, (r < 8)%nat /\ Z.shiftr i 3 = Z.of_nat j /\ 7 - Z.land i 7 = 7 - Z.of_nat r /\ Z.of_nat j < 2 ^ 29 /\
    padded x (j + 1) !! j = Some c /\ Z.testbit c (7 - Z.of_nat r) = bit_at x i /\
    set_bit x i b = <[j := set_byte c r b]> (padded x (j + 1)) /\ bytes_ok (set_bit x i b).
Proof.
  intros Hx Hi. destruct (offset_parts i) as (j & r & Hr & Ei & Es & Ed & El); [lia|].
  assert (i < 8 * 2 ^ 29) as Hi2 by (destruct Hi as [_ Hi]; exact Hi).
  assert (Z.of_nat j < 2 ^ 29) as Hj by lia.
  destruct (padded x (j + 1) !! j) as [c|] eqn:Ec.
  2:{ apply lookup_ge_None in Ec. unfold padded in Ec. rewrite length_app, length_replicate in Ec. lia. }
  exists j, r, c. pose proof (bits_lookup r Hr j _ c Ec) as Eb. rewrite <- Ei in Eb.
  assert (Z.testbit c (7 - Z.of_nat r) = bit_at x i) as Et.
  { rewrite <- (bit_at_padded x (j + 1) i) by lia. unfold bit_at. by rewrite Eb. }
  destruct (set_bits_ok r b Hr j _ c (padded_bytes x (j + 1) Hx) Ec) as [E B].
  assert (set_bit x i b = <[j := set_byte c r b]> (padded x (j + 1))) as E2.
  { unfold set_bit. rewrite Ed, Nat2Z.id, Ei. exact E. }
  split_and!; try done. by rewrite E2.
Qed.

Lemma wr_rep b x j c : rep b x -> (j < length x)%nat -> exists buf, wr (s_buf b) (Z.of_nat j) c = Some buf /\ rep (Sds (s_len b) (s_free b) buf) (<[j := c]> x).
Proof.
  intros (sp & Eb & El & Ef & Hl) Hj. assert (zlen (<[j := c]> x) = zlen x) as Ez by (unfold zlen; by rewrite length_insert).
  exists (<[j := c]> (s_buf b)). split.
  - unfold wr. rewrite Eb, zlen_app, Nat2Z.id. pose proof (zlen_nonneg (0 :: sp)). assert (Z.of_nat j < zlen x) by (unfold zlen; lia). by zdec.
  - exists sp. cbn [s_buf s_len s_free]. rewrite Ez, Eb. split_and!; try done. by rewrite insert_app_l.
Qed.

End Bits.

Section Setbit.
Context `{ServerEnv} `{Host}.

(** A value that is written twice. *)
Lemma sim_put_over {A B B'} N L D R (m : Cmd A) (f : A -> Cmd B) db k v z (am : Spec B') s Q :
  inv N L D R s -> 0 <= db < dbnum ->
  wp m s (fun x s' => a_modify db (put k v) (abs s) = (tt, abs s') /\ sim (f x) (_ ← a_modify db (put k z); am) s' Q) ->
  sim (m ≫= f) (_ ← a_modify db (put k z); am) s Q.
Proof.
  intros I Hdb Hm. destruct (inv_db _ _ _ _ _ _ I Hdb) as [d Hd]. apply wp_bind. eapply wp_mono; [exact Hm|]. cbn beta.
  intros x s' [E Hs]. unfold sim in Hs. unfold mbind, Spec_bind in Hs |- *.
  destruct (a_modify db (put k z) (abs s')) as [[] t] eqn:Ez.
  rewrite <- (a_modify_ext db (fun d0 => put k z (put k v d0))) by (intros d0; unfold put; cbn; by rewrite insert_insert_eq).
  by rewrite (modify_twice _ _ _ _ _ _ _ Hd E Ez).
Qed.

Lemma swrap_byte j : Z.of_nat j < 2 ^ 29 -> swrap 32 (Z.of_nat j) = Z.of_nat j.
Proof. intros Hj. apply swrap_small; [done|]. unfold in_s. lia. Qed.

Lemma sim_setbit_tail N0 B N R s s0 key k db a x i on :
  inv N [] [] R s -> In (1%nat, key, k) R -> 0 <= db < dbnum -> sole_raw s db k a x -> 0 <= i < 2 ^ 32 -> on = 0 \/ on = 1 ->
  N + 2 <= N0 + B < 2 ^ 31 ->
  sim (let byte := swrap 32 (Z.shiftr i 3) in
       _ ← update_sds a (fun s => sdsgrowzero junk s (uwrap 64 (byte + 1)));
       ob ← load a;
       s ← obj_sds ob;
       byteval ← lift (rd (s_buf s) byte);
       let bit := 7 - Z.land i 7 in
       let bitval := Z.land byteval (Z.shiftl 1 bit) in
       let byteval := Z.land byteval (Z.lnot (Z.shiftl 1 bit)) in
       let byteval := Z.lor byteval (Z.shiftl (Z.land on 1) bit) in
       _ ← update_sds a (fun s => b ← wr (s_buf s) byte (uwrap 8 byteval); Some (Sds (s_len s) (s_free s) b));
       _ ← signalModifiedKey db key;
       _ ← notifyKeyspaceEvent REDIS_NOTIFY_STRING "setbit" key db;
       _ ← incr_dirty 1;
       addReply (if negb (bitval =? 0) then shared_cone else shared_czero))
      (_ ← a_modify db (put k (VStr (set_bit x i (on =? 1))));
       _ ← a_log (Modified db k);
       _ ← a_log (Notify REDIS_NOTIFY_STRING "setbit" k db);
       _ ← a_dirty 1;
       a_reply (r_int (Z.b2z (bit_at x i)))) s (done_with N0 s0 B).
Proof.
  intros I Hk Hdb Hs Hi Hon HN. pose proof Hs as (_ & _ & Hxb & Hxl).
  destruct (set_bit_parts x i (on =? 1) Hxb Hi) as (j & r & c & Hr & Es & El & Hj & Ec & Et & Eset & Bset).
  cbv zeta. rewrite Es, El, swrap_byte by done. set (p := padded x (j + 1)) in *.
  assert (bytes_ok p) as Bp by by apply padded_bytes. assert (zlen p <= STRING_MAX) as Lp by (unfold p; rewrite zlen_padded; unfold STRING_MAX in *; lia).
  assert (byte_ok c) as Bc by (by eapply Forall_lookup_1). destruct (set_byte_ok c r (on =? 1) Bc Hr) as [_ Bv].
  rewrite uwrap_small by (unfold in_u; lia). replace (Z.of_nat j + 1) with (Z.of_nat (j + 1)) by lia.
  assert (j < length p)%nat as Hjp by by eapply lookup_lt_Some.
  eapply sim_put_over; [exact I|exact Hdb|]. eapply wp_mono; [eapply (wp_update_sds _ _ _ s db k a x _ p); [exact I|exact Hs|lia|exact Bp|exact Lp|]|].
  { intros b Hb. unfold p. rewrite <- padded_grow. apply growzero_rep; [done|]. unfold SDS_LIMIT. lia. }
  cbn beta. intros _ s1 (I1 & E1 & _ & Hs1 & _). split; [exact E1|].
  pose proof Hs1 as (_ & (o & b & Ho & _ & _ & _ & Hp & Hb) & _). eapply sim_step, (wp_load _ o); [done|]. split; [done|].
  unfold obj_sds. rewrite Hp. apply sim_ret_l.
  assert (rd (s_buf b) (Z.of_nat j) = Some c) as Erd.
  { destruct (rep_buffer _ _ Hb) as [t ->]. rewrite rd_app_l by (unfold zlen; lia). unfold rd. zdec. by rewrite Nat2Z.id. }
  eapply sim_step, wp_lift; [exact Erd|]. split; [done|].
  assert (Z.land on 1 = Z.b2z (on =? 1)) as -> by (by destruct Hon as [->| ->]).
  fold (set_byte c r (on =? 1)). rewrite (uwrap_small 8) by exact Bv. rewrite land_bit by lia. rewrite Et, bit_reply.
  sim_next sim_update_sds; [exact I1|exact Hs1|lia|exact Bset| | |].
  { rewrite Eset. unfold zlen. rewrite length_insert. exact Lp. }
  { intros b' Hb'. destruct (wr_rep b' p j (set_byte c r (on =? 1)) Hb' Hjp) as (buf & -> & Hr'). rewrite Eset. eexists. split; [reflexivity|exact Hr']. }
  intros _ _ s2 (I2 & Hs2). sim_next sim_signal; [exact I2|exact Hk|]. intros _ _ s3 (I3 & ->).
  sim_next sim_notify; [exact I3|exact Hk|]. intros _ _ s4 (I4 & ->).
  sim_next sim_incr_dirty; [exact I4|]. intros _ _ s5 (I5 & ->). eapply sim_reply_done; [exact I5|lia].
Qed.

Lemma bit_values on : in_s 64 on -> negb (Z.land on (Z.lnot 1) =? 0) = negb ((on =? 0) || (on =? 1)).
Proof.
  intros _. f_equal. apply eq_true_iff_eq. rewrite orb_true_iff, !Z.eqb_eq. split; [|by intros [->| ->]].
  intros E. assert (0 <= on < 2) as Hb; [|lia].
  assert (on = on mod 2) as ->; [|apply Z.mod_pos_bound; lia]. change 2 with (2 ^ 1). apply Z.bits_inj'. intros i Hi.
  destruct (Z.ltb_spec i 1); [by rewrite Z.mod_pow2_bits_low|]. rewrite Z.mod_pow2_bits_high by lia.
  apply (f_equal (fun z => Z.testbit z i)) in E. rewrite Z.bits_0, Z.land_spec, Z.lnot_spec in E by lia.
  change 1 with (2 ^ 0) in E. rewrite Z.pow2_bits_false in E by lia. by rewrite andb_true_r in E.
Qed.

Lemma sim_setbitCommand N s : fits N s 4 -> sim setbitCommand spec_setbit s (finished N s).
Proof.
  intros F. use_arg F 1%nat key k Hk Ek. use_arg F 2%nat oa ox Hoa Eo. use_arg F 3%nat va vx Hva Ev. destruct F as (I & HN & Hl).
  pose proof (zlen_nonneg (argv s)). apply (sim_arg_r _ _ _ _ _ _ Ek), (sim_arg_r _ _ _ _ _ _ Eo), (sim_arg_r _ _ _ _ _ _ Ev).
  eapply sim_argR; [exact I|exact Hoa|]. sim_next sim_offset; [exact I|by eapply raw_arg_val|]. intros r ? s1 (<- & I1 & Hs).
  destruct r as [i|]; [|apply sim_ret; eapply done_inv; [exact I1|lia]]. destruct (Hs i eq_refl) as [Hi ->].
  eapply sim_argR; [exact I|exact Hva|]. sim_next (sim_parse_long N [] [] (all_args s) s (Some va) (Some bad_bit)); [exact I|by eapply raw_arg_val|].
  intros r ? s2 (<- & I2 & _ & _ & Hs2). destruct r as [on|]; [|apply sim_ret; eapply done_inv; [exact I2|lia]]. destruct (Hs2 on eq_refl) as [Hon ->].
  rewrite bit_values by done. destruct (negb ((on =? 0) || (on =? 1))) eqn:Eon; [eapply sim_reply_done; [exact I|lia]|].
  assert (on = 0 \/ on = 1) as Hon01. { apply negb_false_iff, orb_true_iff in Eon. rewrite !Z.eqb_eq in Eon. done. }
  apply sim_db. pose proof (inv_cur_db _ _ _ _ _ I) as Hc. set (db := cur (sd s)) in *. eapply sim_argR; [exact I|exact Hk|].
  sim_next sim_lookupKeyWrite; [exact I|exact Hk|exact Hc|]. intros r w s3 (I3 & _ & _ & Hf).
  destruct r as [a|], w as [w|]; try done.
  - destruct Hf as [Hat Hw]. apply sim_assoc. eapply sim_typed; [exact I3|exact Hw| |].
    + intros x ->. cbn beta iota. apply sim_assoc. sim_skip wp_unshare; [exact I3|exact Hk|exact Hc|exact Hat|exact Hw|lia|].
      intros a2 s4 (I4 & E4 & _ & _ & Hs4). split; [done|]. apply sim_ret_l. eapply sim_setbit_tail; eauto; lia.
    + intros t p ->. eapply sim_reply_ret; [exact I3|lia].
  - cbn [text_or_empty]. apply sim_assoc. eapply sim_step, (wp_lift _ (Sds 0 0 [0])); [done|]. split; [done|]. apply sim_assoc.
    sim_skip (wp_createSds N [] [] (all_args s) s3 (Sds 0 0 [0]) []); [exact I3|lia|by exists []|constructor|done|]. intros a s4 (I4 & E4 & H4 & _ & _ & Hfr). split; [done|].
    destruct Hf as (d & Hd & Hk0). assert (rd (dbs s4) db = Some d) as Hd4 by (by rewrite H4). apply sim_assoc.
    eapply sim_put_over; [exact I4|exact Hc|]. eapply wp_mono; [eapply (wp_dbAdd_local _ _ _ _ s4 _ _ k db a); [exact I4|exact Hk|exact Hd4|exact Hk0]|].
    cbn beta. intros _ s5 (I5 & E5 & _ & _ & Hat5 & Hh5). split; [exact E5|].
    assert (sole_raw s5 db k a []) as Hs5. { split_and!; [done| |done|done]. unfold fresh_raw. by rewrite Hh5. }
    apply sim_ret_l. eapply sim_setbit_tail; eauto; lia.
Qed.

End Setbit.

(** ** Lemmas: GETBIT, BITCOUNT and BITPOS *)

Section Reading.
Context `{ServerEnv} `{Host}.
Context (ptr_of : addr -> Z).

Lemma index_bound v l i : bit_index v l = Some i -> i < zlen l.
Proof.
  revert i. induction l as [|b l IH]; [done|]. intros i. cbn [bit_index]. rewrite zlen_cons. pose proof (zlen_nonneg l).
  destruct (eqb b v); [intros [= <-]; lia|]. destruct (bit_index v l) as [j|]; [|done]. intros [= <-]. specialize (IH j eq_refl). lia.
Qed.

Lemma bit_view x r i : 0 <= i -> (if Z.shiftr i 3 <? zlen x then rd (x ++ r) (Z.shiftr i 3) else Some 0) = Some (byte_at (Z.to_nat (Z.shiftr i 3)) x) /\
  Z.testbit (byte_at (Z.to_nat (Z.shiftr i 3)) x) (7 - Z.land i 7) = bit_at x i.
Proof.
  intros Hi. destruct (offset_parts i Hi) as (j & q & Hq & Ei & -> & _ & ->). rewrite Nat2Z.id. unfold bit_at, byte_at. rewrite Ei.
  destruct (x !! j) as [c|] eqn:Ec.
  - pose proof (lookup_lt_Some _ _ _ Ec). rewrite (bits_lookup q Hq j x c Ec).
    assert (Z.of_nat j < zlen x) by (unfold zlen; lia). zdec. rewrite rd_app_l by done. unfold rd. zdec. by rewrite Nat2Z.id, Ec.
  - apply lookup_ge_None in Ec. assert (zlen x <= Z.of_nat j) by (unfold zlen; lia). zdec. split; [done|]. cbn [default].
    rewrite Z.bits_0, lookup_ge_None_2; [done|]. pose proof (zlen_bits x). unfold zlen in *. lia.
Qed.

Lemma sim_getbitCommand N s : fits N s 3 -> sim getbitCommand spec_getbit s (finished N s).
Proof.
  intros F. use_arg F 1%nat key k Hk Ek. use_arg F 2%nat oa ox Hoa Eo. destruct F as (I & HN & Hl). pose proof (zlen_nonneg (argv s)).
  apply (sim_arg_r _ _ _ _ _ _ Ek), (sim_arg_r _ _ _ _ _ _ Eo). eapply sim_argR; [exact I|exact Hoa|].
  sim_next sim_offset; [exact I|by eapply raw_arg_val|]. intros r ? s1 (<- & I1 & Hs).
  destruct r as [i|]; [|apply sim_ret; eapply done_inv; [exact I1|lia]]. destruct (Hs i eq_refl) as [Hi ->].
  eapply sim_argR; [exact I|exact Hk|]. eapply sim_readOrReply; [exact I|exact Hk| |].
  - intros s2 I2 _ _ _. eapply sim_reply_ret; [exact I2|lia].
  - intros s2 a v I2 _ _ _ Hv. eapply sim_typed; [exact I2|exact Hv| |].
    2:{ intros t p ->. eapply sim_reply_ret; [exact I2|lia]. }
    intros x ->. cbn beta iota zeta. destruct (val_obj _ _ _ _ _ _ _ I2 Hv) as (o & Ho & Hok & Ex).
    destruct (obj_string o x Hok Ex) as (_ & Hc & _). eapply sim_step, (wp_load _ o); [done|]. split; [done|].
    assert (forall r, sim (bitval ← (if Z.shiftr i 3 <? zlen x then c ← lift (rd (x ++ r) (Z.shiftr i 3)); mret (Z.land c (Z.shiftl 1 (7 - Z.land i 7))) else mret 0);
         addReply (if negb (bitval =? 0) then shared_cone else shared_czero)) (a_reply (r_int (Z.b2z (bit_at x i)))) s2 (finished N s)) as Hgo.
    { intros r. destruct (bit_view x r i) as [E1 E2]; [lia|]. rewrite <- E2. destruct (offset_parts i ltac:(lia)) as (_ & q & Hq & _ & _ & _ & Eq).
      destruct (Z.shiftr i 3 <? zlen x).
      - apply sim_assoc. eapply sim_step, wp_lift; [exact E1|]. split; [done|]. apply sim_ret_l. rewrite land_bit, bit_reply by lia.
        eapply sim_reply_done; [exact I2|lia].
      - injection E1 as <-. rewrite Z.bits_0. apply sim_ret_l. eapply sim_reply_done; [exact I2|lia]. }
    destruct Hc as [(-> & b & Hp & Hrep)|(-> & v & Hp & Hi2 & ->)].
    + change (negb (REDIS_ENCODING_RAW =? REDIS_ENCODING_RAW)) with false. cbn iota. unfold obj_sds. rewrite Hp. apply sim_assoc, sim_ret_l.
      rewrite (rep_sdslen _ _ Hrep). destruct (rep_buffer _ _ Hrep) as [r ->]. apply Hgo.
    + change (negb (REDIS_ENCODING_INT =? REDIS_ENCODING_RAW)) with true. cbn iota. unfold obj_long. rewrite Hp. apply sim_assoc, sim_ret_l.
      destruct (ll2string_print 32 v Hi2) as (r & E); [lia|]. apply sim_assoc. eapply sim_step, wp_lift; [exact E|]. split; [done|]. apply Hgo.
Qed.

(** *** Ranges of bytes *)

Lemma byte_range_ok x start end_ : zlen x <= STRING_MAX -> in_s 64 start -> in_s 64 end_ ->
  byte_range (zlen x) start end_ = (first_byte x start, Z.min (first_byte x end_) (zlen x - 1)).
Proof.
  intros Hx Hs He. unfold byte_range, first_byte, STRING_MAX, in_s in *. pose proof (zlen_nonneg x). cbv zeta.
  assert (forall i, - 2 ^ 63 <= i < 2 ^ 63 -> (if (if i <? 0 then swrap 64 (zlen x + i) else i) <? 0 then 0 else if i <? 0 then swrap 64 (zlen x + i) else i) =
    Z.max 0 (if i <? 0 then zlen x + i else i)) as A.
  { intros i Hi. destruct (Z.ltb_spec i 0).
    - rewrite swrap_small by (done || unfold in_s; lia). destruct (Z.ltb_spec (zlen x + i) 0); lia.
    - zdec. lia. }
  rewrite !A by done. f_equal. destruct (Z.leb_spec (zlen x) (Z.max 0 (if end_ <? 0 then zlen x + end_ else end_))); lia.
Qed.

(** The bytes of a range, between others. *)
Lemma range_split x start end_ : let a := first_byte x start in let b := Z.min (first_byte x end_) (zlen x - 1) in a <= b ->
  exists p q, x = p ++ substring x start end_ ++ q /\ zlen p = a /\ zlen (substring x start end_) = b - a + 1.
Proof.
  intros a b Hab. assert (0 <= a) as Ha by (unfold a, first_byte; lia).
  assert (substring x start end_ = take (Z.to_nat (b - a + 1)) (drop (Z.to_nat a) x)) as -> by done.
  exists (take (Z.to_nat a) x), (drop (Z.to_nat (b - a + 1)) (drop (Z.to_nat a) x)). rewrite !take_drop. split; [done|].
  unfold zlen in *. rewrite !length_take, length_drop. lia.
Qed.

Lemma range_empty x start end_ : Z.min (first_byte x end_) (zlen x - 1) < first_byte x start -> substring x start end_ = [].
Proof.
  intros Hl. assert (substring x start end_ = take (Z.to_nat (Z.min (first_byte x end_) (zlen x - 1) - first_byte x start + 1)) (drop (Z.to_nat (first_byte x start)) x)) as -> by done.
  by replace (Z.to_nat _) with 0%nat by lia.
Qed.

Lemma substring_bytes x start end_ : bytes_ok x -> bytes_ok (substring x start end_).
Proof. intros Hx. unfold substring. cbv zeta. by apply Forall_take, Forall_drop. Qed.

(** The whole string. *)
Lemma whole_range (x : list Z) : (0, zlen x - 1) = (first_byte x 0, Z.min (first_byte x (zlen x - 1)) (zlen x - 1)).
Proof.
  unfold first_byte. change (0 <? 0) with false. cbn iota. pose proof (zlen_nonneg x). f_equal. destruct (Z.ltb_spec (zlen x - 1) 0); lia.
Qed.

(** The indexes of a range as the code and the specification get them. *)
Definition range_ok (N : Z) (s : server) (x : list Z) (r r' : option (Z * Z)) (s' : server) : Prop :=
  inv N [] [] (all_args s) s' /\
  match r, r' with
  | Some r, Some (a, b) => args_kept s s' /\ r = byte_range (zlen x) a b /\ in_s 64 a /\ in_s 64 b
  | None, None => True
  | _, _ => False
  end.

Lemma later_arg N s s1 i : ready N s -> inv N [] [] (all_args s) s1 -> args_kept s s1 -> (i < length (argv s))%nat ->
  exists a t, argv s1 !! i = Some a /\ a_argv (abs s1) !! i = Some t /\ val_at (heap s1) a = Some (VStr t).
Proof.
  intros I I1 K1 Hi. destruct (ready_arg N s i I Hi) as (a & t & Hin & Ha & Ht & _). exists a, t. destruct K1 as [-> ->].
  split_and!; [done|done|]. by eapply raw_arg_val.
Qed.

Lemma sim_index_end N s (x : list Z) j start s1 :
  inv N [] [] (all_args s) s1 -> args_kept s s1 -> ready N s -> (j < length (argv s))%nat -> in_s 64 start ->
  sim (a ← arg j;
       r ← getLongFromObjectOrReply (Some a) None;
       match r with None => mret None | Some end_ => mret (Some (byte_range (zlen x) start end_)) end)
      (e ← a_arg j;
       r ← a_parse e not_an_integer;
       match r with None => mret None | Some end_ => mret (Some (start, end_)) end) s1 (range_ok N s x).
Proof.
  intros I1 K1 I Hj Hs. destruct (later_arg N s s1 j I I1 K1 Hj) as (a & t & Ha & Et & Vt).
  apply sim_arg with a; [exact Ha|]. apply (sim_arg_r _ _ _ _ _ _ Et). sim_next sim_parse_long; [exact I1|exact Vt|].
  intros r ? s2 (<- & I2 & _ & _ & Hv). destruct r as [end_|]; [|by apply sim_ret]. destruct (Hv _ eq_refl) as [He ->]. by apply sim_ret.
Qed.

Lemma sim_range N s (x : list Z) j (last : bool) m s1 (f : Z * Z -> Cmd unit) (af : Z * Z -> Spec unit) B :
  inv N [] [] (all_args s) s1 -> args_kept s s1 -> ready N s -> (j < length (argv s))%nat ->
  (forall start s2, inv N [] [] (all_args s) s2 -> args_kept s s2 -> in_s 64 start ->
     sim (m start)
       (if last then
          e ← a_arg (j + 1);
          r ← a_parse e not_an_integer;
          match r with None => mret None | Some end_ => mret (Some (start, end_)) end
        else mret (Some (start, zlen x - 1))) s2 (range_ok N s x)) ->
  (forall start end_ s2, inv N [] [] (all_args s) s2 -> in_s 64 start -> in_s 64 end_ ->
     sim (f (byte_range (zlen x) start end_)) (af (start, end_)) s2 (done_with N s B)) ->
  0 <= B -> N + B < 2 ^ 31 ->
  sim (range ← (a ← arg j;
                r ← getLongFromObjectOrReply (Some a) None;
                match r with None => mret None | Some start => m start end);
       match range with None => mret tt | Some r => f r end)
      (range ← a_range x j last; match range with None => mret tt | Some r => af r end) s1 (done_with N s B).
Proof.
  intros I1 K1 I Hj Hm Hf HB HN. eapply sim_bind, (sim_mono _ _ _ (range_ok N s x)).
  - destruct (later_arg N s s1 j I I1 K1 Hj) as (a & t & Ha & Et & Vt). apply sim_arg with a; [exact Ha|]. apply (sim_arg_r _ _ _ _ _ _ Et).
    sim_next sim_parse_long; [exact I1|exact Vt|]. intros r ? s2 (<- & I2 & _ & _ & Hv).
    destruct r as [start|]; [|by apply sim_ret]. destruct (Hv _ eq_refl) as [Hs ->]. by apply Hm.
  - intros [r|] [[a b]|] s2 [I2 Hr]; try done; [|apply sim_ret; eapply done_inv; [exact I2|lia]].
    destruct Hr as (_ & -> & H1 & H2). by apply Hf.
Qed.

Lemma sim_bitcount_tail N0 N B R s s0 a x r p start end_ :
  inv N [] [] R s -> bytes_ok x -> zlen x <= STRING_MAX -> N <= N0 + B < 2 ^ 31 ->
  (p = (first_byte x start, Z.min (first_byte x end_) (zlen x - 1))) ->
  sim (let '(start, end_) := p in
       if end_ <? start then addReply shared_czero
       else
         bits ← lift (redisPopcount (ptr_of a) (x ++ r) start (end_ - start + 1));
         addReplyLongLong (swrap 64 bits))
      (a_reply (r_int (ones (bits (substring x start end_))))) s (done_with N0 s0 B).
Proof.
  intros I Hb Hl HN ->. cbv iota. destruct (Z.ltb_spec (Z.min (first_byte x end_) (zlen x - 1)) (first_byte x start)) as [Hlt|Hge].
  { rewrite range_empty by done. change (r_int (ones (bits []))) with shared_czero. by eapply sim_reply_done. }
  destruct (range_split x start end_ Hge) as (u & v & Ex & Hu & Hy). set (y := substring x start end_) in *.
  assert (bytes_ok y) as By by by apply substring_bytes. rewrite <- Hy, <- Hu. rewrite Ex at 1. rewrite <- !(assoc_L (++)).
  assert (zlen y <= zlen x) as Hyx. { rewrite Ex, !zlen_app. pose proof (zlen_nonneg u). pose proof (zlen_nonneg v). lia. }
  pose proof (zlen_nonneg y). unfold STRING_MAX in *. eapply sim_step, wp_lift; [apply popcount_ok; [done|lia]|]. split; [done|].
  pose proof (ones_bound (bits y)) as O. rewrite zlen_bits in O. rewrite swrap_small by (done || unfold in_s; lia).
  eapply sim_int_done; [exact I|done|unfold in_s; lia].
Qed.

Lemma sim_bitcountCommand N s : fits N s 2 -> sim (bitcountCommand ptr_of) spec_bitcount s (finished N s).
Proof.
  intros F. use_arg F 1%nat key k Hk Ek. destruct F as (I & HN & Hl). pose proof (zlen_nonneg (argv s)).
  apply (sim_arg_r _ _ _ _ _ _ Ek). eapply sim_argR; [exact I|exact Hk|]. eapply sim_readOrReply; [exact I|exact Hk| |].
  - intros s1 I1 _ _ _. eapply sim_reply_ret; [exact I1|lia].
  - intros s1 a v I1 K1 _ _ Hv. eapply sim_typed; [exact I1|exact Hv| |].
    2:{ intros t p ->. eapply sim_reply_ret; [exact I1|lia]. }
    intros x ->. cbn beta iota. destruct (val_len _ _ _ _ _ _ _ I1 Hv) as [Hb Hx].
    eapply sim_step, wp_string_view; [exact I1|exact Hv|]. intros r. split; [done|]. cbn iota.
    assert (zlen (a_argv (abs s1)) = zlen (argv s1)) as Elen by apply zlen_args. unfold argc. apply sim_gets_l, sim_gets_r. rewrite Elen.
    assert (zlen (argv s1) = zlen (argv s)) as -> by (by destruct K1 as [-> _]).
    destruct (Z.eqb_spec (zlen (argv s)) 4) as [E4|E4].
    { assert (length (argv s) = 4%nat) as E4' by (unfold zlen in E4; lia).
      apply (sim_range N s x 2 true _ s1 (fun p => let '(start, end_) := p in
         if end_ <? start then addReply shared_czero
         else bits ← lift (redisPopcount (ptr_of a) (x ++ r) start (end_ - start + 1)); addReplyLongLong (swrap 64 bits))
        (fun p => let '(start, end_) := p in a_reply (r_int (ones (bits (substring x start end_)))))); try done; try lia.
      - intros start s2 I2 K2 Hst. apply sim_index_end; (done || lia).
      - intros start end_ s2 I2 Hi1 Hi2. eapply (sim_bitcount_tail _ _ _ _ _ _ a x r); [exact I2|done|lia|lia|]. by apply byte_range_ok; [lia|..]. }
    destruct (Z.eqb_spec (zlen (argv s)) 2) as [E2|E2].
    { apply sim_ret_l. eapply (sim_bitcount_tail N N (zlen (argv s) + 8) (all_args s) s1 s a x r (0, zlen x - 1) 0 (zlen x - 1)); [exact I1|done|lia|lia|]. apply whole_range. }
    apply sim_assoc. eapply (sim_reply_ret N); [exact I1|lia].
Qed.

Lemma sim_bitpos_tail N0 N B R s s0 a x r p start end_ (given v : bool) :
  inv N [] [] R s -> bytes_ok x -> zlen x <= STRING_MAX -> N <= N0 + B < 2 ^ 31 ->
  (p = (first_byte x start, Z.min (first_byte x end_) (zlen x - 1))) ->
  sim (let '(start, end_) := p in
       if end_ <? start then addReplyLongLong (-1)
       else
         let bytes := end_ - start + 1 in
         pos ← lift (redisBitpos (ptr_of a) (x ++ r) start bytes (Z.b2z v));
         if given && (Z.b2z v =? 0) && (pos =? bytes * 8) then addReplyLongLong (-1)
         else addReplyLongLong (if negb (pos =? -1) then pos + start * 8 else pos))
      (let y := substring x start end_ in
       let pos := bitpos (Z.b2z v =? 1) y in
       a_reply (r_int (if bool_decide (y = []) || (pos =? -1) || (given && (Z.b2z v =? 0) && (pos =? 8 * zlen y))
                       then -1 else 8 * first_byte x start + pos))) s (done_with N0 s0 B).
Proof.
  intros I Hb Hl HN ->. cbv iota zeta. assert (in_s 64 (-1)) as Hm1 by by vm_compute.
  destruct (Z.ltb_spec (Z.min (first_byte x end_) (zlen x - 1)) (first_byte x start)) as [Hlt|Hge].
  { rewrite range_empty by done. by eapply sim_int_done. }
  destruct (range_split x start end_ Hge) as (u & w & Ex & Hu & Hy). set (y := substring x start end_) in *.
  assert (bytes_ok y) as By by by apply substring_bytes. rewrite <- Hy, <- Hu. rewrite Ex at 1. rewrite <- !(assoc_L (++)).
  pose proof (zlen_nonneg u). pose proof (zlen_nonneg w).
  assert (zlen u + zlen y <= zlen x) as Hyx. { rewrite Ex, !zlen_app. lia. }
  rewrite bool_decide_false by (intros E; rewrite E in Hy; change (zlen []) with 0 in Hy; lia). cbn [orb].
  unfold STRING_MAX in *. eapply sim_step, wp_lift; [by apply bitpos_ok|]. split; [done|].
  assert ((Z.b2z v =? 1) = v) as -> by by destruct v. rewrite (Z.mul_comm (zlen y) 8).
  assert (-1 <= bitpos v y <= 8 * zlen y) as Hp.
  { unfold bitpos. destruct (bit_index v (bits y)) as [i|] eqn:E; [|destruct v; lia]. pose proof (index_nonneg _ _ _ E). apply index_bound in E. rewrite zlen_bits in E. lia. }
  destruct (given && (Z.b2z v =? 0) && (bitpos v y =? 8 * zlen y)).
  - rewrite orb_true_r. by eapply sim_int_done.
  - rewrite orb_false_r. destruct (Z.eqb_spec (bitpos v y) (-1)) as [->|]; cbn [negb]; [by eapply sim_int_done|].
    replace (bitpos v y + zlen u * 8) with (8 * zlen u + bitpos v y) by lia. eapply sim_int_done; [exact I|done|unfold in_s; lia].
Qed.

Lemma sim_bitposCommand N s : fits N s 3 -> sim (bitposCommand ptr_of) spec_bitpos s (finished N s).
Proof.
  intros F. use_arg F 1%nat key k Hk Ek. use_arg F 2%nat ba bx Hba Eb. destruct F as (I & HN & Hl). pose proof (zlen_nonneg (argv s)).
  apply (sim_arg_r _ _ _ _ _ _ Ek), (sim_arg_r _ _ _ _ _ _ Eb). eapply sim_argR; [exact I|exact Hba|].
  sim_next sim_parse_long; [exact I|by eapply raw_arg_val|]. intros bit ? s1 (<- & I1 & _ & _ & Hs).
  destruct bit as [bit|]; [|apply sim_ret; eapply done_inv; [exact I1|lia]]. destruct (Hs bit eq_refl) as [Hbi ->]. rewrite negb_orb.
  destruct (negb (bit =? 0) && negb (bit =? 1)) eqn:Ebit; [eapply sim_reply_done; [exact I|lia]|].
  assert (exists v, bit = Z.b2z v) as [v ->].
  { apply andb_false_iff in Ebit as [E%negb_false_iff%Z.eqb_eq|E%negb_false_iff%Z.eqb_eq]; subst; [by exists false|by exists true]. }
  clear Hs Hbi Ebit. apply sim_db. pose proof (inv_cur_db _ _ _ _ _ I) as Hc. set (db := cur (sd s)) in *. eapply sim_argR; [exact I|exact Hk|].
  sim_next sim_lookupKeyRead; [exact I|exact Hk|exact Hc|]. intros o w s2 (I2 & K2 & _ & Hf).
  destruct o as [a|], w as [w|]; try done.
  2:{ destruct v; (eapply sim_int_done; [exact I2|lia|by vm_compute]). }
  destruct Hf as [_ Hv]. eapply sim_typed; [exact I2|exact Hv| |].
  2:{ intros t p ->. eapply sim_reply_ret; [exact I2|lia]. }
  intros x ->. cbn beta iota. destruct (val_len _ _ _ _ _ _ _ I2 Hv) as [Hb Hx].
  eapply sim_step, wp_string_view; [exact I2|exact Hv|]. intros r. split; [done|]. cbn iota.
  assert (zlen (a_argv (abs s2)) = zlen (argv s2)) as Elen by apply zlen_args. unfold argc. apply sim_gets_l, sim_gets_r. rewrite Elen.
  assert (zlen (argv s2) = zlen (argv s)) as -> by (by destruct K2 as [-> _]). set (n := zlen (argv s)) in *.
  destruct ((n =? 4) || (n =? 5)) eqn:E45.
  { assert (length (argv s) = if (n =? 5)%Z then 5%nat else 4%nat) as E4'.
    { unfold n, zlen in *. apply orb_true_iff in E45. rewrite !Z.eqb_eq in E45. destruct (Z.eqb_spec (Z.of_nat (length (argv s))) 5); lia. }
    apply (sim_range N s x 3 (n =? 5) _ s2 (fun p => let '(start, end_) := p in
         if end_ <? start then addReplyLongLong (-1)
         else
           let bytes := end_ - start + 1 in
           pos ← lift (redisBitpos (ptr_of a) (x ++ r) start bytes (Z.b2z v));
           if (n =? 5) && (Z.b2z v =? 0) && (pos =? bytes * 8) then addReplyLongLong (-1)
           else addReplyLongLong (if negb (pos =? -1) then pos + start * 8 else pos))
        (fun p => let '(start, end_) := p in
         let y := substring x start end_ in
         let pos := bitpos (Z.b2z v =? 1) y in
         a_reply (r_int (if bool_decide (y = []) || (pos =? -1) || ((n =? 5) && (Z.b2z v =? 0) && (pos =? 8 * zlen y))
                         then -1 else 8 * first_byte x start + pos)))); try done; try lia.
    - destruct (n =? 5); lia.
    - intros start s3 I3 K3 Hst. destruct (n =? 5).
      + eapply sim_assoc, sim_index_end; (done || lia).
      + apply sim_ret_l, sim_ret. split_and!; [done|done|done|done|]. unfold in_s, STRING_MAX in *. lia.
    - intros start end_ s3 I3 Hi1 Hi2. eapply (sim_bitpos_tail _ _ _ _ _ _ a x r); [exact I3|done|lia|lia|]. by apply byte_range_ok; [lia|..]. }
  destruct (Z.eqb_spec n 3) as [E3|E3].
  { apply sim_ret_l. assert ((n =? 5) = false) as -> by (by rewrite E3). eapply (sim_bitpos_tail N N (n + 8) (all_args s) s2 s a x r (0, zlen x - 1) 0 (zlen x - 1) false v); [exact I2|done|lia|lia|]. apply whole_range. }
  apply sim_assoc. eapply (sim_reply_ret N); [exact I2|lia].
Qed.

End Reading.

(** ** Lemmas: BITOP *)

Section Bitop.
Context `{ServerEnv} `{Host}.

Lemma strcaseeq_ok t x sp : Forall (fun c => c <> 0) t ->
  strcaseeq (x ++ 0 :: sp) t = Some (bool_decide (map tolower (cstring x) = t)).
Proof.
  intros Ht. revert x. induction Ht as [|d t Hd Ht IH]; intros x.
  { destruct x as [|c x]; [done|]. cbn. destruct (c =? 0); cbn; [done|]. by rewrite bool_decide_false. }
  destruct x as [|c x].
  { cbn [app strcaseeq cstring map]. change (tolower 0) with 0. destruct (Z.eqb_spec 0 d); [by subst|]. by rewrite bool_decide_false. }
  cbn [app strcaseeq cstring]. destruct (Z.eqb_spec c 0) as [->|Hc].
  { change (tolower 0) with 0. destruct (Z.eqb_spec 0 d); [by subst|]. cbn [map]. by rewrite bool_decide_false. }
  cbn [map]. destruct (Z.eqb_spec (tolower c) d) as [<-|Hn].
  - rewrite IH. f_equal. apply bool_decide_ext. split; [by intros ->|]. by intros [= ->].
  - symmetry. f_equal. apply bool_decide_false. by intros [= ? _].
Qed.

Lemma bitop_name_ok b x : rep b x -> bitop_name (s_buf b) = Some (bitop_code x).
Proof.
  intros (sp & -> & _). unfold bitop_name. rewrite !strcaseeq_ok by (repeat constructor; done). cbn [mbind option_bind].
  unfold bitop_code, is_word. by repeat destruct (bool_decide _).
Qed.

(** The sources that are held, with what they hold. *)
Inductive holding : list (option addr) -> list (list Z) -> list local -> Prop :=
| holding_nil : holding [] [] []
| holding_none objs xs L : holding objs xs L -> holding (None :: objs) ([] :: xs) L
| holding_some d x objs xs L : holding objs xs L -> holding (Some d :: objs) (x :: xs) ((d, VStr x, true) :: L).

Lemma holding_snoc_none objs xs L : holding objs xs L -> holding (objs ++ [None]) (xs ++ [[]]) L.
Proof. induction 1; cbn; constructor; try done. constructor. Qed.

Lemma holding_snoc_some d x objs xs L : holding objs xs L -> holding (objs ++ [Some d]) (xs ++ [x]) (L ++ [(d, VStr x, true)]).
Proof. induction 1; cbn; repeat constructor; done. Qed.

Lemma holding_addrs objs xs L : holding objs xs L -> omap id objs = L.*1.*1.
Proof. induction 1 as [|objs xs L Hh IH|d x objs xs L Hh IH]; [done|done|]. cbn. f_equal. exact IH. Qed.

Lemma max_len_app xs ys : max_len (xs ++ ys) = Z.max (max_len xs) (max_len ys).
Proof.
  induction xs as [|x xs IH]; cbn [app max_len foldr].
  - change (max_len ys = Z.max 0 (max_len ys)). assert (0 <= max_len ys); [|lia]. clear. induction ys as [|y ys IH]; [done|]. unfold max_len in *. cbn [foldr]. lia.
  - change (Z.max (zlen x) (max_len (xs ++ ys)) = Z.max (Z.max (zlen x) (max_len xs)) (max_len ys)). lia.
Qed.

Lemma max_len_one x : max_len [x] = zlen x.
Proof. cbn. pose proof (zlen_nonneg x). lia. Qed.

Lemma max_len_bounds xs : 0 <= max_len xs /\ Forall (fun x => zlen x <= max_len xs) xs.
Proof.
  induction xs as [|x xs [IH1 IH2]]; [by split|]. cbn [max_len foldr]. fold (max_len xs). split; [lia|].
  constructor; [lia|]. eapply Forall_impl; [exact IH2|]. cbn. intros. lia.
Qed.

(** What is known of the sources that have been read. *)
Record sources_read (objs : list (option addr)) (first : bool) (minlen maxlen : Z) (xs : list (list Z)) (L : list local) : Prop := {
  sr_holding : holding objs xs L;
  sr_max : maxlen = max_len xs;
  sr_range : 0 <= minlen <= maxlen /\ maxlen <= STRING_MAX;
  sr_min : Forall (fun x => minlen <= zlen x) xs;
  sr_first : first = true -> xs = [] }.

Lemma decr_reverse N L R objs xs s : inv N L [] R s -> holding objs xs L ->
  wp (decr_all (reverse (omap id objs))) s (fun _ s' => inv N [] [] R s' /\ abs s' = abs s /\ heap_step s s').
Proof.
  intros I Hh. rewrite (holding_addrs _ _ _ Hh). rewrite <- !fmap_reverse. apply (wp_decr_locals N [] R (reverse L)).
  rewrite app_nil_r. eapply inv_perm; [|exact I]. symmetry. apply reverse_Permutation.
Qed.

Lemma sim_map_r {A B C} (m : Cmd A) (am : Spec B) (g : B -> C) s Q Q' :
  sim m am s Q -> (forall x y s', Q x y s' -> Q' x (g y) s') -> sim m (y ← am; mret (g y)) s Q'.
Proof.
  unfold sim, wp, mbind, Spec_bind, mret, Spec_ret. destruct (m s) as [[x s']|]; [|done]. destruct (am (abs s)) as [y t]. intros [-> HQ] Hi. split; [done|by apply Hi].
Qed.

Lemma sim_bitop_sources R keys texts : forall N s first objs minlen maxlen xs L,
  inv N L [] R s -> Forall2 (fun a x => exists j, In (j, a, x) R) keys texts -> sources_read objs first minlen maxlen xs L ->
  N + zlen keys + 1 < 2 ^ 31 ->
  sim (bitop_sources keys first objs minlen maxlen) (a_sources texts) s (fun r r' s' =>
    match r, r' with
    | Some (objs', minlen', maxlen'), Some ys =>
        exists L', length ys = length keys /\ inv (N + zlen keys) L' [] R s' /\ sources_read objs' (first && bool_decide (keys = [])) minlen' maxlen' (xs ++ ys) L'
    | None, None => inv (N + zlen keys) [] [] R s'
    | _, _ => False
    end).
Proof.
  intros N s first objs minlen maxlen xs L I Hk. revert N s first objs minlen maxlen xs L I.
  induction Hk as [|key k keys texts (j & Hj) Hk' IH]; intros N s first objs minlen maxlen xs L I Hs HN.
  { cbn [bitop_sources a_sources]. apply sim_ret. exists L. rewrite zlen_nil, Z.add_0_r, app_nil_r, bool_decide_true, andb_true_r by done. by split_and!. }
  rewrite zlen_cons in *. pose proof (zlen_nonneg keys). cbn [bitop_sources a_sources]. apply sim_db. pose proof (inv_cur_db _ _ _ _ _ I) as Hc.
  sim_next sim_lookupKeyRead; [exact I|exact Hj|exact Hc|]. intros o w s1 (I1 & _ & _ & Hf).
  destruct o as [a|], w as [w|]; try done.
  - destruct Hf as [_ Hv]. eapply sim_typed; [exact I1|exact Hv| |].
    + intros x ->. cbn beta iota. cbn [text_or_empty]. destruct (val_len _ _ _ _ _ _ _ I1 Hv) as [Hb Hx].
      sim_skip wp_getDecoded; [exact I1|lia|exact Hv|]. intros d s2 (I2 & E2 & H2). split; [done|].
      destruct (inv_locals _ _ _ _ _ I2 d (VStr x) true) as [_ Hraw]; [by left|]. destruct (Hraw eq_refl) as (y & Ey & Hr). injection Ey as <-.
      destruct Hr as (ob & b & Ho & _ & _ & Hp & Hrep & _). eapply sim_step, (wp_load _ ob); [done|]. split; [done|].
      unfold obj_sds. rewrite Hp. apply sim_ret_l. rewrite (rep_sdslen _ _ Hrep). cbv zeta.
      assert (inv (N + 1) (L ++ [(d, VStr x, true)]) [] R s2) as I3. { eapply inv_perm; [|exact I2]. apply Permutation_cons_append. }
      destruct Hs as [Hh Hmax Hrange Hmin Hfirst]. pose proof (max_len_bounds xs) as [Hm0 Hm].
      assert (sources_read (objs ++ [Some d]) false (if first || (zlen x <? minlen) then zlen x else minlen) (if maxlen <? zlen x then zlen x else maxlen)
        (xs ++ [x]) (L ++ [(d, VStr x, true)])) as Hs'.
      { constructor; [by apply holding_snoc_some| | | |done].
        - rewrite max_len_app, max_len_one, <- Hmax. destruct (Z.ltb_spec maxlen (zlen x)); lia.
        - destruct first; cbn [orb]; [|destruct (Z.ltb_spec (zlen x) minlen)]; destruct (Z.ltb_spec maxlen (zlen x)); lia.
        - destruct first; cbn [orb].
          + rewrite Hfirst by done. constructor; [lia|constructor].
          + apply Forall_app. split; [|constructor; [destruct (Z.ltb_spec (zlen x) minlen); lia|constructor]].
            eapply Forall_impl; [exact Hmin|]. cbn. intros z Hz. destruct (Z.ltb_spec (zlen x) minlen); lia. }
      eapply sim_map_r; [eapply IH; [exact I3|exact Hs'|lia]|]. cbn beta. intros [[[objs' min'] max']|] [ys|] s3 Hq; try done.
      * destruct Hq as (L' & El & I4 & Hr4). exists L'. cbn [length]. rewrite El. replace (N + (1 + zlen keys)) with (N + 1 + zlen keys) by lia. split; [done|]. split; [done|].
        rewrite <- (assoc_L (++)) in Hr4. destruct Hr4 as [? ? ? ? ?]. constructor; try done. rewrite bool_decide_false by done. by rewrite andb_false_r.
      * by replace (N + (1 + zlen keys)) with (N + 1 + zlen keys) by lia.
    + intros t p ->. sim_next sim_addReply; [exact I1|]. intros _ _ s2 (I2 & _). eapply sim_last.
      apply wp_bind. eapply wp_mono; [eapply decr_reverse; [exact I2|exact (sr_holding _ _ _ _ _ _ Hs)]|]. cbn beta. intros _ s3 (I3 & E3 & _).
      apply wp_ret. split; [done|]. eapply inv_weaken; [exact I3|lia].
  - cbn [text_or_empty]. destruct Hs as [Hh Hmax Hrange Hmin Hfirst].
    assert (sources_read (objs ++ [None]) false 0 maxlen (xs ++ [[]]) L) as Hs'.
    { constructor; [by apply holding_snoc_none| |lia| |done].
      - rewrite max_len_app, max_len_one. change (zlen []) with 0. lia.
      - apply Forall_app. split; [|constructor; [by vm_compute|constructor]]. eapply Forall_impl; [exact Hmin|]. intros z _. cbn. apply zlen_nonneg. }
    eapply sim_map_r; [eapply IH; [exact I1|exact Hs'|lia]|]. cbn beta. intros [[[objs' min'] max']|] [ys|] s3 Hq; try done.
    + destruct Hq as (L' & El & I4 & Hr4). exists L'. cbn [length]. rewrite El. split; [done|]. split; [eapply inv_weaken; [exact I4|lia]|].
      rewrite <- (assoc_L (++)) in Hr4. destruct Hr4 as [? ? ? ? ?]. constructor; try done. rewrite bool_decide_false by done. by rewrite andb_false_r.
    + eapply inv_weaken; [exact Hq|lia].
Qed.

Lemma wp_source_buffers N L D R s objs xs L' :
  inv N L D R s -> holding objs xs L' -> (forall p, In p L' -> In p L) ->
  wp (source_buffers objs) s (fun srcs s' => s' = s /\ Forall2 source_of srcs xs).
Proof.
  intros I Hh. induction Hh as [|objs xs L' Hh IH|d x objs xs L' Hh IH]; intros HL; cbn [source_buffers].
  - by apply wp_ret.
  - apply wp_bind, wp_ret, wp_bind. eapply wp_mono; [by apply IH|]. cbn beta. intros srcs ? [-> Hs]. apply wp_ret. split; [done|].
    constructor; [|done]. exists []. by split_and!.
  - destruct (inv_locals _ _ _ _ _ I d (VStr x) true) as [_ Hraw]; [apply HL; by left|]. destruct (Hraw eq_refl) as (y & Ey & Hr). injection Ey as <-.
    destruct Hr as (ob & b & Ho & _ & _ & Hp & Hrep & Hb & _). apply wp_bind, wp_bind, (wp_load _ ob); [done|]. unfold obj_sds. rewrite Hp.
    apply wp_bind, wp_ret, wp_ret, wp_bind. eapply wp_mono; [apply IH; intros p Hin; apply HL; by right|]. cbn beta. intros srcs ? [-> Hs].
    apply wp_ret. split; [done|]. constructor; [|done]. destruct (rep_buffer _ _ Hrep) as [t Et]. exists t. by rewrite (rep_sdslen _ _ Hrep).
Qed.

Lemma newlen_zeroes n : 0 <= n <= STRING_MAX -> exists t, sdsnewlen None n = Some t /\ s_buf t = replicate (Z.to_nat n) 0 ++ [0] /\
  forall x, zlen x = n -> rep (Sds (s_len t) (s_free t) (x ++ [0])) x.
Proof.
  unfold STRING_MAX. intros Hn. unfold sdsnewlen. cbn [mbind option_bind]. eexists. split; [reflexivity|]. cbn [s_buf s_len s_free].
  split; [done|]. intros x Hx. exists []. cbn [s_buf s_len s_free]. rewrite Hx. split_and!; try done.
  - apply swrap_small; [done|unfold in_s; lia].
  - change (zlen (@nil Z)) with 0. lia.
Qed.

Lemma bitop_code_range x op : bitop_code x = Some op -> 0 <= op <= 3.
Proof. unfold bitop_code, BITOP_AND, BITOP_OR, BITOP_XOR, BITOP_NOT. repeat case_match; intros [= <-]; lia. Qed.

Lemma combine_bytes op xs n : 0 <= op <= 3 -> Forall bytes_ok xs -> bytes_ok (combine op xs n).
Proof.
  intros Ho Hx. unfold combine. rewrite Forall_forall. intros c Hc%list_elem_of_In. apply in_map_iff in Hc as (j & <- & _). by apply combine_at_ok.
Qed.

Lemma holding_ok N L D R s objs xs L' : inv N L D R s -> holding objs xs L' -> (forall p, In p L' -> In p L) -> Forall bytes_ok xs /\ length objs = length xs.
Proof.
  intros I Hh. induction Hh as [|objs xs L' Hh IH|d x objs xs L' Hh IH]; intros HL; [done| |].
  - destruct (IH HL) as [? E]. cbn. rewrite E. split; [by repeat constructor|done].
  - destruct IH as [? E]; [intros p Hp; apply HL; by right|]. cbn. rewrite E. split; [|done]. constructor; [|done].
    destruct (inv_locals _ _ _ _ _ I d (VStr x) true) as [_ Hraw]; [apply HL; by left|]. destruct (Hraw eq_refl) as (y & Ey & Hr). injection Ey as <-.
    by destruct Hr as (ob & b & _ & _ & _ & _ & _ & Hb & _).
Qed.

Lemma sim_then_decr N R s a v r ty name key k db j :
  inv N [(a, v, r)] [] R s -> In (j, key, k) R ->
  sim (_ ← notifyKeyspaceEvent ty name key db; decrRefCount a) (a_log (Notify ty name k db)) s (fun _ _ s' => inv (N - 1) [] [] R s').
Proof.
  intros I Hk. apply wp_bind. eapply wp_mono; [eapply sim_notify; [exact I|exact Hk]|]. cbn beta. intros _ s1.
  destruct (a_log _ (abs s)) as [[] t]. intros [-> (I1 & _)]. eapply wp_mono; [eapply wp_decr; [exact I1|by left]|]. cbn beta. by intros _ s2 (I2 & -> & _).
Qed.

(** The target of BITOP, once the sources are read. *)
Lemma sim_bitop_store N0 B R s s0 N key k db n y t :
  inv N [] [] R s -> In (2%nat, key, k) R -> 0 <= db < dbnum -> 0 <= n <= STRING_MAX ->
  (n <> 0 -> bytes_ok y /\ zlen y = n /\ rep t y) -> N + 2 <= N0 + B < 2 ^ 31 ->
  sim (_ ← (match (if negb (n =? 0) then Some t else None) with
            | Some s =>
                o ← createObject REDIS_STRING (PSds s);
                _ ← setKey db key o;
                _ ← notifyKeyspaceEvent REDIS_NOTIFY_STRING "set" key db;
                decrRefCount o
            | None =>
                gone ← dbDelete db key;
                if gone : bool then
                  _ ← signalModifiedKey db key;
                  notifyKeyspaceEvent REDIS_NOTIFY_GENERIC "del" key db
                else mret tt
            end);
       _ ← incr_dirty 1;
       addReplyLongLong n)
      (_ ← (if negb (n =? 0) then
              _ ← a_setKey db k (VStr y);
              a_log (Notify REDIS_NOTIFY_STRING "set" k db)
            else
              gone ← a_delete db k;
              if gone : bool then
                _ ← a_log (Modified db k);
                a_log (Notify REDIS_NOTIFY_GENERIC "del" k db)
              else mret tt);
       _ ← a_dirty 1;
       a_reply (r_int n)) s (done_with N0 s0 B).
Proof.
  intros I Hk Hdb Hn Hy HN. eapply sim_bind, (sim_mono _ _ _ (fun _ _ s' => inv (N + 1) [] [] R s')).
  - destruct (Z.eqb_spec n 0) as [->|Hne]; cbn [negb].
    + sim_next sim_dbDelete; [exact I|exact Hk|exact Hdb|]. intros gone ? s1 (<- & I1 & _). destruct gone.
      * sim_next sim_signal; [exact I1|exact Hk|]. intros _ _ s2 (I2 & ->). eapply sim_mono; [eapply sim_notify; [exact I2|exact Hk]|].
        cbn beta. intros _ _ s3 (I3 & _). eapply inv_weaken; [exact I3|lia].
      * apply sim_ret. eapply inv_weaken; [exact I1|lia].
    + destruct (Hy Hne) as (Hb & Hl & Hr). sim_skip wp_createSds; [exact I|lia|exact Hr|exact Hb|lia|]. intros o s1 (I1 & E1 & _). split; [done|].
      sim_next sim_setKey; [exact I1|exact Hk|exact Hdb|right; exists true; by left|lia|]. intros _ _ s2 (I2 & _).
      eapply sim_mono; [eapply sim_then_decr; [exact I2|exact Hk]|]. cbn beta. intros _ _ s3 I3. eapply inv_weaken; [exact I3|lia].
  - intros _ _ s1 I1. sim_next sim_incr_dirty; [exact I1|]. intros _ _ s2 (I2 & _). eapply sim_int_done; [exact I2|lia|unfold in_s, STRING_MAX in *; lia].
Qed.

Lemma holding_min objs first minlen maxlen xs L : sources_read objs first minlen maxlen xs L ->
  0 <= minlen <= maxlen /\ maxlen <= STRING_MAX /\ maxlen = max_len xs /\ Forall (fun x => minlen <= zlen x) xs.
Proof. intros [? ? [? ?] ? ?]. done. Qed.

Lemma arg_text N L D R s j a k : inv N L D R s -> In (j, a, k) R -> a_argv (abs s) !! j = Some k.
Proof.
  intros I Hj. pose proof (raw_arg_val _ _ _ _ _ _ _ _ I Hj) as Hv. destruct (inv_raw _ _ _ _ _ I j a k Hj) as (Ha & _).
  unfold abs. cbn. rewrite list_lookup_fmap, Ha. cbn. unfold text_at. by rewrite Hv.
Qed.

Lemma zlen_combine op xs n : zlen (combine op xs n) = Z.of_nat n.
Proof. unfold zlen, combine. by rewrite length_map, length_seq. Qed.

Lemma sim_bitopCommand N s : fits N s 4 -> sim bitopCommand spec_bitop s (finished N s).
Proof.
  intros F. use_arg F 1%nat oa ox Hoa Eo. use_arg F 2%nat key k Hk Ek. destruct F as (I & HN & Hl). pose proof (zlen_nonneg (argv s)).
  apply (sim_arg_r _ _ _ _ _ _ Eo). eapply sim_arg_sds; [exact I|exact Hoa|]. intros b Hb.
  eapply sim_step, wp_lift; [by apply bitop_name_ok|]. split; [done|].
  destruct (bitop_code ox) as [op|] eqn:Eop; [|eapply sim_reply_done; [exact I|lia]]. pose proof (bitop_code_range _ _ Eop) as Hop.
  unfold argc. apply sim_gets_l, sim_gets_r. rewrite zlen_args.
  destruct ((op =? BITOP_NOT) && negb (zlen (argv s) =? 4)) eqn:Enot; [eapply sim_reply_done; [exact I|lia]|].
  apply sim_gets_l. assert (Z.of_nat (length (drop 3 (argv s))) = zlen (argv s) - 3) as Ldrop by (unfold zlen; rewrite length_drop; lia).
  eapply sim_bind, sim_mono.
  { eapply (sim_bitop_sources (all_args s) (drop 3 (argv s)) (drop 3 (a_argv (abs s))) N s true [] 0 0 [] []); [exact I| | |unfold zlen in *; lia].
    - eapply Forall2_impl; [by eapply args_pairs|]. intros a x (j & _ & Hj). by exists j.
    - constructor; try done. constructor. }
  cbn beta. intros [[[objs minlen] maxlen]|] [ys|] s1 Hsr; try done.
  2:{ apply sim_ret. eapply done_inv; [exact Hsr|unfold zlen in *; lia]. }
  destruct Hsr as (L & Ely & I1 & Hsr). cbn [app] in Hsr. pose proof (holding_min _ _ _ _ _ _ Hsr) as (Hm1 & Hm2 & Hm3 & Hm4).
  pose proof (sr_holding _ _ _ _ _ _ Hsr) as Hh. destruct (holding_ok _ _ _ _ _ _ _ _ I1 Hh) as [Hys Hlen]; [done|].
  rewrite <- Hm3. set (y := combine op ys (Z.to_nat maxlen)). set (M := N + zlen (drop 3 (argv s))) in *.
  assert (bytes_ok y /\ zlen y = maxlen) as [Hyb Hyl]. { split; [by apply combine_bytes|]. unfold y. rewrite zlen_combine. lia. }
  assert (forall s2 t, inv M [] [] (all_args s) s2 -> (maxlen <> 0 -> bytes_ok y /\ zlen y = maxlen /\ rep t y) ->
    sim (db ← c_db;
         targetkey ← arg 2;
         _ ← (match (if negb (maxlen =? 0) then Some t else None) with
              | Some s =>
                  o ← createObject REDIS_STRING (PSds s);
                  _ ← setKey db targetkey o;
                  _ ← notifyKeyspaceEvent REDIS_NOTIFY_STRING "set" targetkey db;
                  decrRefCount o
              | None =>
                  gone ← dbDelete db targetkey;
                  if gone : bool then
                    _ ← signalModifiedKey db targetkey;
                    notifyKeyspaceEvent REDIS_NOTIFY_GENERIC "del" targetkey db
                  else mret tt
              end);
         _ ← incr_dirty 1;
         addReplyLongLong maxlen)
        (db ← a_db;
         k ← a_arg 2;
         _ ← (if negb (maxlen =? 0) then
                _ ← a_setKey db k (VStr y);
                a_log (Notify REDIS_NOTIFY_STRING "set" k db)
              else
                gone ← a_delete db k;
                if gone : bool then
                  _ ← a_log (Modified db k);
                  a_log (Notify REDIS_NOTIFY_GENERIC "del" k db)
                else mret tt);
         _ ← a_dirty 1;
         a_reply (r_int maxlen)) s2 (finished N s)) as Hstore.
  { intros s2 t I2 Ht. apply sim_db. pose proof (inv_cur_db _ _ _ _ _ I2) as Hc. eapply sim_arg_r; [by eapply arg_text|].
    eapply sim_argR; [exact I2|exact Hk|]. eapply sim_bitop_store; [exact I2|exact Hk|exact Hc|lia|exact Ht|unfold M, zlen in *; lia]. }
  assert (forall s2, inv M L [] (all_args s) s2 -> wp (decr_all (omap id objs)) s2 (fun _ s' => inv M [] [] (all_args s) s' /\ abs s' = abs s2 /\ heap_step s2 s')) as Hdecr.
  { intros s2 I2. rewrite (holding_addrs _ _ _ Hh). apply (wp_decr_locals M [] (all_args s) L). by rewrite app_nil_r. }
  destruct (Z.eqb_spec maxlen 0) as [Hz|Hz]; cbn [negb].
  - apply sim_ret_l. sim_skip Hdecr; [exact I1|]. intros _ s2 (I2 & E2 & _). split; [done|].
    specialize (Hstore s2 (Sds 0 0 []) I2). cbn [negb] in Hstore. by apply Hstore.
  - destruct (newlen_zeroes maxlen) as (t & Et & Ebuf & Hrep); [lia|]. apply sim_assoc. eapply sim_step, wp_lift; [exact Et|]. split; [done|].
    apply sim_assoc. sim_skip wp_source_buffers; [exact I1|exact Hh|done|]. intros srcs ? [-> Hsrcs]. split; [done|].
    rewrite Ebuf. apply sim_assoc. eapply sim_step, wp_lift.
    { apply (bitop_buffer_ok op srcs ys); try done; try lia.
      - intros ->. inversion Hsrcs; subst. rewrite length_drop in Ely. cbn in Ely. lia. }
    split; [done|]. apply sim_ret_l. sim_skip Hdecr; [exact I1|]. intros _ s2 (I2 & E2 & _). split; [done|].
    specialize (Hstore s2 (Sds (s_len t) (s_free t) (y ++ [0])) I2). cbn [negb] in Hstore. apply Hstore.
    intros _. split_and!; [done|done|by apply Hrep].
Qed.

End Bitop.

(** ** The commands of bitops.c *)

Inductive bit_command := CSetbit | CGetbit | CBitop | CBitcount | CBitpos.

Section All.
Context `{ServerEnv} `{Host}.
Context (ptr_of : addr -> Z).

Definition bit_proc (c : bit_command) : Cmd unit :=
  match c with
  | CSetbit => setbitCommand | CGetbit => getbitCommand | CBitop => bitopCommand
  | CBitcount => bitcountCommand ptr_of | CBitpos => bitposCommand ptr_of
  end.

Definition bit_spec (c : bit_command) : Spec unit :=
  match c with
  | CSetbit => spec_setbit | CGetbit => spec_getbit | CBitop => spec_bitop
  | CBitcount => spec_bitcount | CBitpos => spec_bitpos
  end.

(** The least number of arguments, the name of the command included. *)
Definition bit_args (c : bit_command) : nat :=
  match c with CSetbit | CBitop => 4 | CGetbit | CBitpos => 3 | CBitcount => 2 end.

Lemma bit_command_sim c N s : fits N s (bit_args c) -> sim (bit_proc c) (bit_spec c) s (finished N s).
Proof.
  intros F. destruct c; cbn [bit_proc bit_spec bit_args] in *.
  - by apply sim_setbitCommand.
  - by apply sim_getbitCommand.
  - by apply sim_bitopCommand.
  - by apply sim_bitcountCommand.
  - by apply sim_bitposCommand.
Qed.

End All.
