(* ===== verification/Session.v ===== *)
(** * redis.c and networking.c: from a request to its reply

    The table of commands, the checks that processCommand makes, the call of a command and
    its propagation, and the life of the objects of a request.  The commands whose code is
    not modelled are in the table; running one of them fails.  The statistics of single
    commands, the slow log and the monitors are left out, and so is MULTI: the client is
    not in a transaction. *)

From Stdlib Require Import Ascii String.
From S2P Require Import Prelude Endian Util Sds Server Db Tstring TstringThms DbThms Bitops BitopsThms.

Definition REDIS_CMD_WRITE : Z := 1.
Definition REDIS_CMD_READONLY : Z := 2.
Definition REDIS_CMD_DENYOOM : Z := 4.
Definition REDIS_CMD_ADMIN : Z := 16.
Definition REDIS_CMD_PUBSUB : Z := 32.
Definition REDIS_CMD_NOSCRIPT : Z := 64.
Definition REDIS_CMD_RANDOM : Z := 128.
Definition REDIS_CMD_SORT_FOR_SCRIPT : Z := 256.
Definition REDIS_CMD_LOADING : Z := 512.
Definition REDIS_CMD_STALE : Z := 1024.
Definition REDIS_CMD_SKIP_MONITOR : Z := 2048.

(** The functions of the commands. *)
Inductive command :=
  | CString (c : string_command)
  | CKey (c : key_command)
  | CBit (c : bit_command)
  | CPing
  | CEcho
  | COther.

(** The fields of a row, but for the function that finds the keys. *)
Record redisCommand := Row {
  name : string; proc : command; arity : Z; sflags : string; firstkey : Z; lastkey : Z; keystep : Z }.

Definition redisCommandTable : list redisCommand :=
  [Row "get" (CString CGet) 2 "r" 1 1 1;
   Row "set" (CString CSet) (-3) "wm" 1 1 1;
   Row "setnx" (CString CSetnx) 3 "wm" 1 1 1;
   Row "setex" (CString CSetex) 4 "wm" 1 1 1;
   Row "psetex" (CString CPsetex) 4 "wm" 1 1 1;
   Row "append" (CString CAppend) 3 "wm" 1 1 1;
   Row "strlen" (CString CStrlen) 2 "r" 1 1 1;
   Row "del" (CKey CDel) (-2) "w" 1 (-1) 1;
   Row "exists" (CKey CExists) 2 "r" 1 1 1;
   Row "setbit" (CBit CSetbit) 4 "wm" 1 1 1;
   Row "getbit" (CBit CGetbit) 3 "r" 1 1 1;
   Row "setrange" (CString CSetrange) 4 "wm" 1 1 1;
   Row "getrange" (CString CGetrange) 4 "r" 1 1 1;
   Row "substr" (CString CGetrange) 4 "r" 1 1 1;
   Row "incr" (CString CIncr) 2 "wm" 1 1 1;
   Row "decr" (CString CDecr) 2 "wm" 1 1 1;
   Row "mget" (CString CMget) (-2) "r" 1 (-1) 1;
   Row "rpush" COther (-3) "wm" 1 1 1;
   Row "lpush" COther (-3) "wm" 1 1 1;
   Row "rpushx" COther 3 "wm" 1 1 1;
   Row "lpushx" COther 3 "wm" 1 1 1;
   Row "linsert" COther 5 "wm" 1 1 1;
   Row "rpop" COther 2 "w" 1 1 1;
   Row "lpop" COther 2 "w" 1 1 1;
   Row "brpop" COther (-3) "ws" 1 1 1;
   Row "brpoplpush" COther 4 "wms" 1 2 1;
   Row "blpop" COther (-3) "ws" 1 (-2) 1;
   Row "llen" COther 2 "r" 1 1 1;
   Row "lindex" COther 3 "r" 1 1 1;
   Row "lset" COther 4 "wm" 1 1 1;
   Row "lrange" COther 4 "r" 1 1 1;
   Row "ltrim" COther 4 "w" 1 1 1;
   Row "lrem" COther 4 "w" 1 1 1;
   Row "rpoplpush" COther 3 "wm" 1 2 1;
   Row "sadd" COther (-3) "wm" 1 1 1;
   Row "srem" COther (-3) "w" 1 1 1;
   Row "smove" COther 4 "w" 1 2 1;
   Row "sismember" COther 3 "r" 1 1 1;
   Row "scard" COther 2 "r" 1 1 1;
   Row "spop" COther 2 "wRs" 1 1 1;
   Row "srandmember" COther (-2) "rR" 1 1 1;
   Row "sinter" COther (-2) "rS" 1 (-1) 1;
   Row "sinterstore" COther (-3) "wm" 1 (-1) 1;
   Row "sunion" COther (-2) "rS" 1 (-1) 1;
   Row "sunionstore" COther (-3) "wm" 1 (-1) 1;
   Row "sdiff" COther (-2) "rS" 1 (-1) 1;
   Row "sdiffstore" COther (-3) "wm" 1 (-1) 1;
   Row "smembers" COther 2 "rS" 1 1 1;
   Row "sscan" COther (-3) "rR" 1 1 1;
   Row "zadd" COther (-4) "wm" 1 1 1;
   Row "zincrby" COther 4 "wm" 1 1 1;
   Row "zrem" COther (-3) "w" 1 1 1;
   Row "zremrangebyscore" COther 4 "w" 1 1 1;
   Row "zremrangebyrank" COther 4 "w" 1 1 1;
   Row "zremrangebylex" COther 4 "w" 1 1 1;
   Row "zunionstore" COther (-4) "wm" 0 0 0;
   Row "zinterstore" COther (-4) "wm" 0 0 0;
   Row "zrange" COther (-4) "r" 1 1 1;
   Row "zrangebyscore" COther (-4) "r" 1 1 1;
   Row "zrevrangebyscore" COther (-4) "r" 1 1 1;
   Row "zrangebylex" COther (-4) "r" 1 1 1;
   Row "zrevrangebylex" COther (-4) "r" 1 1 1;
   Row "zcount" COther 4 "r" 1 1 1;
   Row "zlexcount" COther 4 "r" 1 1 1;
   Row "zrevrange" COther (-4) "r" 1 1 1;
   Row "zcard" COther 2 "r" 1 1 1;
   Row "zscore" COther 3 "r" 1 1 1;
   Row "zrank" COther 3 "r" 1 1 1;
   Row "zrevrank" COther 3 "r" 1 1 1;
   Row "zscan" COther (-3) "rR" 1 1 1;
   Row "hset" COther 4 "wm" 1 1 1;
   Row "hsetnx" COther 4 "wm" 1 1 1;
   Row "hget" COther 3 "r" 1 1 1;
   Row "hmset" COther (-4) "wm" 1 1 1;
   Row "hmget" COther (-3) "r" 1 1 1;
   Row "hincrby" COther 4 "wm" 1 1 1;
   Row "hincrbyfloat" COther 4 "wm" 1 1 1;
   Row "hdel" COther (-3) "w" 1 1 1;
   Row "hlen" COther 2 "r" 1 1 1;
   Row "hkeys" COther 2 "rS" 1 1 1;
   Row "hvals" COther 2 "rS" 1 1 1;
   Row "hgetall" COther 2 "r" 1 1 1;
   Row "hexists" COther 3 "r" 1 1 1;
   Row "hscan" COther (-3) "rR" 1 1 1;
   Row "incrby" (CString CIncrby) 3 "wm" 1 1 1;
   Row "decrby" (CString CDecrby) 3 "wm" 1 1 1;
   Row "incrbyfloat" COther 3 "wm" 1 1 1;
   Row "getset" (CString CGetset) 3 "wm" 1 1 1;
   Row "mset" (CString CMset) (-3) "wm" 1 (-1) 2;
   Row "msetnx" (CString CMsetnx) (-3) "wm" 1 (-1) 2;
   Row "randomkey" COther 1 "rR" 0 0 0;
   Row "select" (CKey CSelect) 2 "rl" 0 0 0;
   Row "move" (CKey CMove) 3 "w" 1 1 1;
   Row "rename" (CKey CRename) 3 "w" 1 2 1;
   Row "renamenx" (CKey CRenamenx) 3 "w" 1 2 1;
   Row "expire" (CKey CExpire) 3 "w" 1 1 1;
   Row "expireat" (CKey CExpireat) 3 "w" 1 1 1;
   Row "pexpire" (CKey CPexpire) 3 "w" 1 1 1;
   Row "pexpireat" (CKey CPexpireat) 3 "w" 1 1 1;
   Row "keys" COther 2 "rS" 0 0 0;
   Row "scan" COther (-2) "rR" 0 0 0;
   Row "dbsize" (CKey CDbsize) 1 "r" 0 0 0;
   Row "auth" COther 2 "rslt" 0 0 0;
   Row "ping" CPing 1 "rt" 0 0 0;
   Row "echo" CEcho 2 "r" 0 0 0;
   Row "save" COther 1 "ars" 0 0 0;
   Row "bgsave" COther 1 "ar" 0 0 0;
   Row "bgrewriteaof" COther 1 "ar" 0 0 0;
   Row "shutdown" COther (-1) "arlt" 0 0 0;
   Row "lastsave" COther 1 "rR" 0 0 0;
   Row "type" (CKey CType) 2 "r" 1 1 1;
   Row "multi" COther 1 "rs" 0 0 0;
   Row "exec" COther 1 "sM" 0 0 0;
   Row "discard" COther 1 "rs" 0 0 0;
   Row "sync" COther 1 "ars" 0 0 0;
   Row "psync" COther 3 "ars" 0 0 0;
   Row "replconf" COther (-1) "arslt" 0 0 0;
   Row "flushdb" (CKey CFlushdb) 1 "w" 0 0 0;
   Row "flushall" COther 1 "w" 0 0 0;
   Row "sort" COther (-2) "wm" 1 1 1;
   Row "info" COther (-1) "rlt" 0 0 0;
   Row "monitor" COther 1 "ars" 0 0 0;
   Row "ttl" (CKey CTtl) 2 "r" 1 1 1;
   Row "pttl" (CKey CPttl) 2 "r" 1 1 1;
   Row "persist" (CKey CPersist) 2 "w" 1 1 1;
   Row "slaveof" COther 3 "ast" 0 0 0;
   Row "debug" COther (-2) "as" 0 0 0;
   Row "config" COther (-2) "art" 0 0 0;
   Row "subscribe" COther (-2) "rpslt" 0 0 0;
   Row "unsubscribe" COther (-1) "rpslt" 0 0 0;
   Row "psubscribe" COther (-2) "rpslt" 0 0 0;
   Row "punsubscribe" COther (-1) "rpslt" 0 0 0;
   Row "publish" COther 3 "pltr" 0 0 0;
   Row "pubsub" COther (-2) "pltrR" 0 0 0;
   Row "watch" COther (-2) "rs" 1 (-1) 1;
   Row "unwatch" COther 1 "rs" 0 0 0;
   Row "restore" COther 4 "awm" 1 1 1;
   Row "migrate" COther 6 "aw" 0 0 0;
   Row "dump" COther 2 "ar" 1 1 1;
   Row "object" COther (-2) "r" 2 2 2;
   Row "client" COther (-2) "ar" 0 0 0;
   Row "eval" COther (-3) "s" 0 0 0;
   Row "evalsha" COther (-3) "s" 0 0 0;
   Row "slowlog" COther (-2) "r" 0 0 0;
   Row "script" COther (-2) "ras" 0 0 0;
   Row "time" COther 1 "rR" 0 0 0;
   Row "bitop" (CBit CBitop) (-4) "wm" 2 (-1) 1;
   Row "bitcount" (CBit CBitcount) (-2) "r" 1 1 1;
   Row "bitpos" (CBit CBitpos) (-3) "r" 1 1 1;
   Row "pfselftest" COther 1 "r" 0 0 0;
   Row "pfadd" COther (-2) "wm" 1 1 1;
   Row "pfcount" COther (-2) "w" 1 1 1;
   Row "pfmerge" COther (-2) "wm" 1 (-1) 1;
   Row "pfdebug" COther (-3) "w" 0 0 0].

(** The flags of a row; [None] is the panic on an unknown letter. *)
Fixpoint sflags_bits (f : list Z) (flags : Z) : option Z :=
  match f with
  | [] => Some flags
  | c :: f =>
      bit ← (if c =? 119 then Some REDIS_CMD_WRITE
             else if c =? 114 then Some REDIS_CMD_READONLY
             else if c =? 109 then Some REDIS_CMD_DENYOOM
             else if c =? 97 then Some REDIS_CMD_ADMIN
             else if c =? 112 then Some REDIS_CMD_PUBSUB
             else if c =? 115 then Some REDIS_CMD_NOSCRIPT
             else if c =? 82 then Some REDIS_CMD_RANDOM
             else if c =? 83 then Some REDIS_CMD_SORT_FOR_SCRIPT
             else if c =? 108 then Some REDIS_CMD_LOADING
             else if c =? 116 then Some REDIS_CMD_STALE
             else if c =? 77 then Some REDIS_CMD_SKIP_MONITOR
             else None);
      sflags_bits f (Z.lor flags bit)
  end.

Definition cmd_flags (cmd : redisCommand) : Z := default 0 (sflags_bits (str (sflags cmd)) 0).

(** [populateCommandTable]: a row twice, or a letter that is no flag, is a panic. *)
Fixpoint populate (rows : list redisCommand) (commands : gmap (list Z) redisCommand)
    : option (gmap (list Z) redisCommand) :=
  match rows with
  | [] => Some commands
  | c :: rows =>
      _ ← sflags_bits (str (sflags c)) 0;
      match commands !! str (name c) with
      | Some _ => None
      | None => populate rows (<[str (name c) := c]> commands)
      end
  end.

Definition populateCommandTable : option (gmap (list Z) redisCommand) := populate redisCommandTable ∅.

(** dictGenCaseHashFunction of dict.c; the seed is chosen when the server starts. *)
Fixpoint dictGenCaseHashFunction (buf : list Z) (hash : Z) : Z :=
  match buf with
  | [] => hash
  | c :: buf => dictGenCaseHashFunction buf (uwrap 32 (uwrap 32 (uwrap 32 (Z.shiftl hash 5) + hash) + tolower c))
  end.

(** The configuration and the state of the server and of the client that the checks read.
    [case_seed] is the seed of the hash function and [mask n] the mask of the hash table
    that holds row [n], which depends on the progress of its rehashing. *)
Class ServerMode := {
  case_seed : Z;
  mask : string -> Z;
  requirepass : bool;
  authenticated : bool;
  stop_writes_on_bgsave_err : bool;
  saveparamslen : Z;
  lastbgsave_ok : bool;
  aof_last_write_ok : bool;
  aof_error : list Z;
  repl_min_slaves_to_write : Z;
  repl_min_slaves_max_lag : Z;
  repl_good_slaves_count : Z;
  repl_slave_ro : bool;
  client_subscriptions : Z;
  repl_connected : bool;
  repl_serve_stale_data : bool;
  lua_timedout : bool }.

Definition shared_pong : list Z := str "+PONG" ++ crlf.
Definition shared_noautherr : list Z := str "-NOAUTH Authentication required." ++ crlf.
Definition shared_bgsaveerr : list Z :=
  str "-MISCONF Redis is configured to save RDB snapshots, but is currently not able to persist on disk. Commands that may modify the data set are disabled. Please check Redis logs for details about the error." ++ crlf.
Definition shared_noreplicaserr : list Z := str "-NOREPLICAS Not enough good slaves to write." ++ crlf.
Definition shared_roslaveerr : list Z := str "-READONLY You can't write against a read only slave." ++ crlf.
Definition shared_masterdownerr : list Z :=
  str "-MASTERDOWN Link with MASTER is down and slave-serve-stale-data is set to 'no'." ++ crlf.
Definition shared_loadingerr : list Z := str "-LOADING Redis is loading the dataset in memory" ++ crlf.
Definition shared_slowscripterr : list Z :=
  str "-BUSY Redis is busy running a script. You can only call SCRIPT KILL or SHUTDOWN NOSAVE." ++ crlf.

(** A request that a client sends, or the end of the transmission of its replies. *)
Inductive action := Request (args : list (list Z)) | Sent.

Section Session.
Context `{ServerEnv} `{Host} `{ServerMode}.
Context (ptr_of : addr -> Z).

Definition pingCommand : Cmd unit := addReply shared_pong.
Definition echoCommand : Cmd unit := a ← arg 1; addReplyBulk a.

Definition run (c : command) : Cmd unit :=
  match c with
  | CString c => string_proc c
  | CKey c => key_proc c
  | CBit c => bit_proc ptr_of c
  | CPing => pingCommand
  | CEcho => echoCommand
  | COther => panic
  end.

(** [dictFetchValue(server.commands, name)]: the first row of the bucket of the name that
    strcasecmp() finds equal to it. *)
Definition same_bucket (x : list Z) (n : string) : bool :=
  Z.land (dictGenCaseHashFunction x case_seed) (mask n) =? Z.land (dictGenCaseHashFunction (str n) case_seed) (mask n).

Fixpoint find_row (x buf : list Z) (rows : list redisCommand) : option (option redisCommand) :=
  match rows with
  | [] => Some None
  | c :: rows =>
      eq ← (if same_bucket x (name c) then strcaseeq buf (str (name c)) else Some false);
      if eq : bool then Some (Some c) else find_row x buf rows
  end.

Definition lookupCommand (s : sds) : option (option redisCommand) :=
  x ← sds_bytes s; find_row x (s_buf s) redisCommandTable.

(** The text of an error has no newline. *)
Definition addReplyErrorFormat (text : list Z) : Cmd unit :=
  addReply (str "-ERR " ++ map (fun x => if (x =? 13) || (x =? 10) then 32 else x) text ++ crlf).

(** The text of an object, for the append only file and the slaves. *)
Definition obj_text (a : addr) : Cmd (list Z) :=
  o ← load a;
  if o_encoding o =? REDIS_ENCODING_RAW then s ← obj_sds o; lift (sds_bytes s)
  else v ← obj_long o; lift (ll_text 32 v).

Fixpoint obj_texts (l : list addr) : Cmd (list (list Z)) :=
  match l with
  | [] => mret []
  | a :: l => x ← obj_text a; xs ← obj_texts l; mret (x :: xs)
  end.

Definition propagate (dbid : Z) : Cmd unit :=
  l ← gets argv; xs ← obj_texts l; modify_side (fun x => log_event x (Propagate dbid xs)).

Definition call (cmd : redisCommand) : Cmd unit :=
  before ← gets (fun s => dirty (sd s));
  _ ← run (proc cmd);
  after ← gets (fun s => dirty (sd s));
  _ ← (if negb (swrap 64 (after - before) =? 0) then db ← c_db; propagate db else mret tt);
  modify_side (fun x => set_numcommands x (swrap 64 (stat_numcommands x + 1))).

(** The checks before a command runs: the reply that refuses it. *)
Definition refusal (cmd : redisCommand) : option (list Z) :=
  let has f := negb (Z.land (cmd_flags cmd) f =? 0) in
  if requirepass && negb authenticated then Some shared_noautherr
  else if ((stop_writes_on_bgsave_err && (0 <? saveparamslen) && negb lastbgsave_ok) || negb aof_last_write_ok)
          && negb masterhost && (has REDIS_CMD_WRITE || match proc cmd with CPing => true | _ => false end) then
    Some (if aof_last_write_ok then shared_bgsaveerr
          else str "-MISCONF Errors writing to the AOF file: " ++ aof_error ++ crlf)
  else if negb (repl_min_slaves_to_write =? 0) && negb (repl_min_slaves_max_lag =? 0) && has REDIS_CMD_WRITE
          && (repl_good_slaves_count <? repl_min_slaves_to_write) then Some shared_noreplicaserr
  else if masterhost && repl_slave_ro && negb client_is_master && has REDIS_CMD_WRITE then Some shared_roslaveerr
  else if 0 <? client_subscriptions then
    Some (str "-ERR only (P)SUBSCRIBE / (P)UNSUBSCRIBE / QUIT allowed in this context" ++ crlf)
  else if masterhost && negb repl_connected && negb repl_serve_stale_data && negb (has REDIS_CMD_STALE) then
    Some shared_masterdownerr
  else if loading && negb (has REDIS_CMD_LOADING) then Some shared_loadingerr
  else if lua_timedout then Some shared_slowscripterr
  else None.

(** The flag is REDIS_OK; it is REDIS_ERR after QUIT, which closes the client.  Freeing
    memory under a maxmemory limit is not modelled; a command that is not modelled has no
    refusal of its own (AUTH, SUBSCRIBE, SCRIPT KILL...). *)
Definition processCommand : Cmd bool :=
  s ← arg_sds 0;
  quit ← lift (strcaseeq (s_buf s) (str "quit"));
  if quit : bool then _ ← addReply shared_ok; mret false else
  cmd ← lift (lookupCommand s);
  match cmd with
  | None =>
      n ← lift (strlen (s_buf s));
      b ← lift (rdn (s_buf s) 0 n);
      _ ← addReplyErrorFormat (str "unknown command '" ++ b ++ str "'"); mret true
  | Some cmd =>
      n ← argc;
      if ((0 <? arity cmd) && negb (arity cmd =? n)) || (n <? - arity cmd) then
        _ ← addReplyErrorFormat (str "wrong number of arguments for '" ++ str (name cmd) ++ str "' command"); mret true
      else match proc cmd with
      | COther => panic
      | _ =>
          if negb (maxmemory =? 0) then panic else
          match refusal cmd with
          | Some b => _ ← addReply b; mret true
          | None => _ ← call cmd; mret true
          end
      end
  end.

(** The arguments of a request as objects. *)
Fixpoint create_args (args : list (list Z)) : Cmd (list addr) :=
  match args with
  | [] => mret []
  | x :: args => a ← createStringObject x (zlen x); l ← create_args args; mret (a :: l)
  end.

Definition freeClientArgv : Cmd unit :=
  l ← gets argv; _ ← decr_all l; modify (fun s => with_argv s []).

(** The objects of the reply lists are dropped once they are sent. *)
Definition sendReplies : Cmd unit :=
  l ← gets held; _ ← decr_all l; modify (fun s => with_held s []).

Fixpoint serve (l : list action) : Cmd unit :=
  match l with
  | [] => mret tt
  | Sent :: l => _ ← sendReplies; serve l
  | Request args :: l =>
      a ← create_args args;
      _ ← modify (fun s => with_argv s a);
      ok ← processCommand;
      if ok : bool then _ ← freeClientArgv; serve l else mret tt
  end.

(** *** The server when it starts *)

(** The loop of createSharedObjects on the small integers. *)
Fixpoint shared_integers (n : nat) (j : Z) : Cmd unit :=
  match n with
  | O => mret tt
  | S n =>
      a ← createObject REDIS_STRING (PLong j);
      o ← load a;
      _ ← store a (set_encoding o REDIS_ENCODING_INT);
      _ ← modify (fun s => Server (heap s) (integers s ++ [a]) (held s) (dbs s) (argv s) (sd s));
      shared_integers n (j + 1)
  end.

Definition no_server : server :=
  Server ∅ [] [] (replicate (Z.to_nat dbnum) (RedisDb ∅ ∅)) [] (Side 0 [] 0 0 0 0 0 0 []).

Definition initServer : Cmd unit := shared_integers (Z.to_nat REDIS_SHARED_INTEGERS) 0.

End Session.
