(* ===== verification/SessionThms.v ===== *)
(** * A session: the server starts and serves requests as the specification does *)

From Stdlib Require Import Ascii String.
From S2P Require Import Prelude Endian Util Sds Server ServerFacts ObjFacts Db DbFacts Tstring CommandFacts TstringThms DbThms Bitops BitopsFacts BitopsThms Session.
Import SdsSpec SdsFacts QuoteFacts.

(** ** Specification *)

Section Spec.
Context `{SE : ServerEnv} `{HO : Host} `{SM : ServerMode}.

Definition spec_run (c : command) : Spec unit :=
  match c with
  | CString c => string_spec c
  | CKey c => key_spec c
  | CBit c => bit_spec c
  | CPing => a_reply shared_pong
  | CEcho => x ← a_arg 1; a_reply (r_bulk x)
  | COther => mret tt
  end.

(** The least number of arguments, and what a request must satisfy for the code to work as
    intended. *)
Definition command_args (c : command) : nat :=
  match c with
  | CString c => string_args c | CKey c => key_args c | CBit c => bit_args c
  | CPing | COther => 1 | CEcho => 2
  end.

Definition command_bounds (c : command) (l : list (list Z)) : Prop :=
  match c with CString c => string_bounds c l | COther => False | _ => True end.

Definition a_call (c : command) : Spec unit :=
  before ← a_gets (fun t => dirty (a_sd t));
  _ ← spec_run c;
  after ← a_gets (fun t => dirty (a_sd t));
  _ ← (if negb (swrap 64 (after - before) =? 0) then
         db ← a_db; l ← a_gets a_argv; a_log (Propagate db l)
       else mret tt);
  a_side (fun x => set_numcommands x (swrap 64 (stat_numcommands x + 1))).

Definition a_lookup (x : list Z) : option redisCommand :=
  List.find (fun c => same_bucket x (name c) && is_word x (name c)) redisCommandTable.

Definition one_line (text : list Z) : list Z := map (fun x => if (x =? 13) || (x =? 10) then 32 else x) text.

Definition a_processCommand : Spec bool :=
  x ← a_arg 0;
  if is_word x "quit" then _ ← a_reply shared_ok; mret false else
  match a_lookup x with
  | None => _ ← a_reply (str "-ERR " ++ one_line (str "unknown command '" ++ cstring x ++ str "'") ++ crlf); mret true
  | Some cmd =>
      l ← a_gets a_argv;
      if ((0 <? arity cmd) && negb (arity cmd =? zlen l)) || (zlen l <? - arity cmd) then
        _ ← a_reply (str "-ERR " ++ one_line (str "wrong number of arguments for '" ++ str (name cmd) ++ str "' command") ++ crlf);
        mret true
      else match refusal cmd with
      | Some b => _ ← a_reply b; mret true
      | None => _ ← a_call (proc cmd); mret true
      end
  end.

Fixpoint a_serve (l : list action) : Spec unit :=
  match l with
  | [] => mret tt
  | Sent :: l => a_serve l
  | Request args :: l =>
      _ ← a_set_argv args;
      ok ← a_processCommand;
      if ok : bool then _ ← a_set_argv []; a_serve l else mret tt
  end.

(** The server when it starts. *)
Definition a_start : aserver :=
  AServer (replicate (Z.to_nat dbnum) (Adb ∅ ∅)) [] (Side 0 [] 0 0 0 0 0 0 []).

(** Requests that the model covers: at least a name, arguments of at most 512 MB, and a
    command that is modelled and stays in its bounds. *)
Definition request_ok (args : list (list Z)) : Prop :=
  args <> [] /\ Forall (fun x => bytes_ok x /\ zlen x <= STRING_MAX) args /\
  forall x cmd, head args = Some x -> a_lookup x = Some cmd -> command_bounds (proc cmd) args.

Definition all_keys (t : aserver) : Z := foldr (fun d n => Z.of_nat (size (a_dict d)) + n) 0 (a_dbs t).

(** Requests in the bounds of the model from state [t] on.  [N] bounds the references to
    objects, which must fit in an int. *)
Fixpoint session_ok (l : list action) (N : Z) (t : aserver) : Prop :=
  match l with
  | [] => True
  | Sent :: l => session_ok l (REDIS_SHARED_INTEGERS + all_keys t) t
  | Request args :: l =>
      request_ok args /\ N + 2 * zlen args + 8 < 2 ^ 31 /\
      let '(ok, t') := (_ ← a_set_argv args; ok ← a_processCommand; _ ← (if ok : bool then a_set_argv [] else mret tt); mret ok) t in
      if ok : bool then session_ok l (N + 2 * zlen args + 8) t' else True
  end.

End Spec.

(** ** Lemmas: looking a command up *)

Section Lookup.
Context `{SE : ServerEnv} `{HO : Host} `{SM : ServerMode}.

Lemma names_nonzero : Forall (fun c => Forall (fun b => b <> 0) (str (name c))) redisCommandTable.
Proof.
  assert (forallb (fun c => forallb (fun b => negb (b =? 0)) (str (name c))) redisCommandTable = true) as A by by vm_compute.
  rewrite forallb_forall in A. apply Forall_forall. intros c Hc%list_elem_of_In. apply A in Hc. rewrite forallb_forall in Hc.
  apply Forall_forall. intros b Hb%list_elem_of_In. apply Hc, negb_true_iff, Z.eqb_neq in Hb. done.
Qed.

Lemma find_row_ok b x sp rows : b = x ++ 0 :: sp -> Forall (fun c => Forall (fun b => b <> 0) (str (name c))) rows ->
  find_row x b rows = Some (List.find (fun c => same_bucket x (name c) && is_word x (name c)) rows).
Proof.
  intros -> Hn. induction Hn as [|c rows Hc Hn IH]; [done|]. cbn [find_row List.find].
  destruct (same_bucket x (name c)); cbn [andb mbind option_bind]; [|exact IH].
  rewrite strcaseeq_ok by done. cbn [mbind option_bind]. fold (is_word x (name c)). by destruct (is_word x (name c)).
Qed.

Lemma lookup_ok s x : rep s x -> lookupCommand s = Some (a_lookup x).
Proof.
  intros Hr. unfold lookupCommand. rewrite (raw_bytes _ _ Hr). cbn [mbind option_bind].
  destruct Hr as (sp & Eb & _). by eapply find_row_ok, names_nonzero.
Qed.

Lemma table_args : Forall (fun c => proc c <> COther -> Z.of_nat (command_args (proc c)) <= Z.abs (arity c)) redisCommandTable.
Proof.
  assert (forallb (fun c => Z.of_nat (command_args (proc c)) <=? Z.abs (arity c)) redisCommandTable = true) as A by by vm_compute.
  rewrite forallb_forall in A. apply Forall_forall. intros c Hc%list_elem_of_In _. by apply A, Z.leb_le in Hc.
Qed.

(** The arguments are enough once the arity is checked. *)
Lemma arity_args x cmd n : a_lookup x = Some cmd -> proc cmd <> COther -> 0 <= n ->
  ((0 <? arity cmd) && negb (arity cmd =? n)) || (n <? - arity cmd) = false -> Z.of_nat (command_args (proc cmd)) <= n.
Proof.
  intros Hl Hp Hn Ha. apply List.find_some in Hl as [Hin _]. pose proof table_args as T. rewrite Forall_forall in T.
  specialize (T cmd (proj2 (list_elem_of_In _ _) Hin) Hp). lia.
Qed.

End Lookup.

(** ** Lemmas: the objects of a request *)

Section Requests.
Context `{SE : ServerEnv} `{HO : Host} `{SM : ServerMode}.

Lemma wp_create_args xs : forall N L s, inv N L [] [] s -> N + zlen xs < 2 ^ 31 -> Forall (fun x => bytes_ok x /\ zlen x <= STRING_MAX) xs ->
  wp (create_args xs) s (fun l s' => exists L1, L1.*1.*1 = l /\ inv (N + zlen xs) (L1 ++ L) [] [] s' /\ abs s' = abs s /\ heap_step s s' /\
    map (fun p => (p.1.2, p.2)) L1 = map (fun x => (VStr x, true)) xs).
Proof.
  induction xs as [|x xs IH]; intros N L s I HN Hx.
  { apply wp_ret. exists []. rewrite zlen_nil, Z.add_0_r. split_and!; [done|done|done|apply heap_step_refl|done]. }
  rewrite zlen_cons in *. pose proof (zlen_nonneg xs). inversion Hx as [|? ? [Hb Hl] Hx']; subst. cbn [create_args]. apply wp_bind.
  eapply wp_mono; [eapply (wp_createString _ _ _ _ _ x x []); [exact I|lia|by rewrite app_nil_r|done|done]|]. cbn beta.
  intros a s1 (I1 & E1 & H1 & _). apply wp_bind. eapply wp_mono; [apply (IH _ _ _ I1); [lia|done]|]. cbn beta.
  intros l s2 (L1 & <- & I2 & E2 & H2 & Hm). apply wp_ret. exists ((a, VStr x, true) :: L1). split_and!.
  - done.
  - replace (N + (1 + zlen xs)) with (N + 1 + zlen xs) by lia. eapply inv_perm; [|exact I2]. cbn. by rewrite Permutation_middle.
  - by rewrite E2.
  - by eapply heap_step_trans.
  - cbn. by rewrite Hm.
Qed.

(** The arguments become those of the client. *)
Lemma install_args N L1 xs s : inv N L1 [] [] s -> argv s = [] -> map (fun p => (p.1.2, p.2)) L1 = map (fun x => (VStr x, true)) xs ->
  let s' := with_argv s L1.*1.*1 in ready N s' /\ abs s' = AServer (a_dbs (abs s)) xs (a_sd (abs s)).
Proof.
  intros I Ha Hm s'.
  assert (forall j a v r, L1 !! j = Some (a, v, r) -> exists x, v = VStr x /\ xs !! j = Some x /\ raw (heap s) a x) as HL.
  { intros j a v r Hj. pose proof (f_equal (fun l => l !! j) Hm) as E. cbn beta in E. change (map ?f ?l) with (f <$> l) in E.
    rewrite !list_lookup_fmap, Hj in E. cbn in E. destruct (xs !! j) as [x|] eqn:Ex; [|done]. injection E as -> ->. exists x. split; [done|]. split; [done|].
    destruct (inv_locals _ _ _ _ _ I a (VStr x) true) as [_ Hr]; [by eapply lookup_In|]. destruct (Hr eq_refl) as (y & E & Hy). by injection E as <-. }
  assert (text_at (heap s) <$> L1.*1.*1 = xs) as Ht.
  { apply list_eq. intros j. rewrite !list_lookup_fmap. destruct (L1 !! j) as [[[a v] r]|] eqn:Ej; cbn.
    - destruct (HL _ _ _ _ Ej) as (x & _ & -> & Hr). unfold text_at. by rewrite (raw_val _ _ _ Hr).
    - apply lookup_ge_None in Ej. symmetry. apply lookup_ge_None. apply (f_equal length) in Hm. rewrite !length_map in Hm. lia. }
  rewrite <- (app_nil_r L1) in I.
  destruct (inv_argv N L1 [] [] (all_args s') s L1.*1.*1 I) as [I' E']; [done| | |].
  - intros a v r [j Hj]%list_elem_of_In%list_elem_of_lookup_1. destruct (HL _ _ _ _ Hj) as (x & -> & _). by exists x.
  - intros j a k Hin. apply list_elem_of_In, list_elem_of_lookup_1 in Hin as [i Hi]. unfold all_args in Hi. rewrite list_lookup_imap in Hi.
    cbn [argv with_argv s' heap] in Hi. change (argv s') with (L1.*1.*1) in Hi. destruct (L1.*1.*1 !! i) as [b|] eqn:Eb; [|done]. injection Hi as <- <- <-.
    split; [done|]. rewrite !list_lookup_fmap in Eb. destruct (L1 !! i) as [[[a v] r]|] eqn:Ej; [|done]. cbn in Eb. injection Eb as <-.
    destruct (HL _ _ _ _ Ej) as (x & _ & _ & Hr). unfold text_at. change (heap s') with (heap s). by rewrite (raw_val _ _ _ Hr).
  - assert (old_args s = []) as Eo by (unfold old_args; by rewrite Ha). rewrite Eo in I'. split; [exact I'|]. unfold s'. by rewrite E', Ht.
Qed.

Lemma wp_freeClientArgv N s : inv N [] [] [] s ->
  wp freeClientArgv s (fun _ s' => inv N [] [] [] s' /\ argv s' = [] /\ snd (a_set_argv [] (abs s)) = abs s').
Proof.
  intros I. eapply wp_mono; [apply (wp_new_argv N [] [] [] [] s []); [exact I|done|done|done]|]. cbn beta.
  intros _ s' (I' & E' & _ & _ & Ha). split_and!; [done|done|]. by rewrite E'.
Qed.

(** The objects of the reply lists as references in variables. *)
Lemma inv_held N s : inv N [] [] [] s ->
  exists L, L.*1.*1 = held s /\ inv N (L ++ []) [] [] (with_held s []) /\ abs (with_held s []) = abs s.
Proof.
  intros I. assert (forall a, In a (held s) -> exists v, val_at (heap s) a = Some v) as Hv.
  { intros a Ha. destruct (inv_In _ _ _ _ _ a I) as [o Ho]; [apply in_app_iff; left; unfold roots; rewrite !in_app_iff; tauto|].
    exists (value_of o). unfold val_at. by rewrite Ho. }
  assert (exists L : list local, L.*1.*1 = held s /\ forall a v r, In (a, v, r) L -> val_at (heap s) a = Some v /\ r = false) as (L & EL & HL).
  { clear I. induction (held s) as [|a l IH]; [exists []; by split|]. destruct IH as (L & EL & HL); [intros b Hb; apply Hv; by right|].
    destruct (Hv a) as [v Ea]; [by left|]. exists ((a, v, false) :: L). split; [cbn; by f_equal|].
    intros b w r [[= <- <- <-]|Hin]; [done|by apply (HL b w r)]. }
  exists L. split; [done|]. split; [|done].
  assert (forall f : list addr -> Z, (forall l k, f (l ++ k) = f l + f k) -> f (roots (with_held s []) ++ (L ++ []).*1.*1) = f (roots s ++ [])) as Hroots.
  { intros f Hf. rewrite !app_nil_r, EL. unfold roots. cbn [with_held integers held argv dbs]. rewrite !Hf. pose proof (Hf [] []) as H0'. cbn [app] in H0'. lia. }
  constructor; try by destruct I.
  - intros b. pose proof (inv_refs _ _ _ _ _ I b) as Hr. rewrite (Hroots (occ b)) by apply occ_app. exact Hr.
  - rewrite (Hroots zlen) by apply zlen_app. exact (inv_room _ _ _ _ _ I).
  - intros a v r. rewrite app_nil_r. intros [? ->]%HL. done.
Qed.

Lemma wp_sendReplies N s : inv N [] [] [] s ->
  wp sendReplies s (fun _ s' => inv N [] [] [] s' /\ abs s' = abs s /\ held s' = [] /\ argv s' = argv s).
Proof.
  intros I. destruct (inv_held N s I) as (L & EL & I' & E').
  pose proof (wp_decr_locals N [] [] L (with_held s []) I') as W. rewrite EL in W. unfold wp in W.
  rewrite (decr_all_frame (fun s => with_held s [])) in W by done.
  apply wp_bind, wp_gets, wp_bind. unfold wp. destruct (decr_all (held s) s) as [[[] s1]|]; [|done].
  destruct W as (I1 & E1 & H1). cbn. rewrite E1, E'. split_and!; try done. by apply (f_equal argv) in H1.
Qed.

(** The references when nothing but the keyspace and the shared integers owns objects. *)
Lemma dict_refs_keys N s : inv N [] [] [] s -> zlen (dict_refs (dbs s)) = all_keys (abs s).
Proof.
  intros I. unfold all_keys, abs. cbn [a_dbs].
  assert (forall l, (forall d, In d l -> In d (dbs s)) -> zlen (dict_refs l) = foldr (fun d n => Z.of_nat (size (a_dict d)) + n) 0 (view (heap s) <$> l)) as A; [|by apply A].
  induction l as [|d l IH]; intros Hl; [done|]. cbn [map concat]. rewrite zlen_app, IH by (intros e He; apply Hl; by right).
  change (foldr ?f 0 (view (heap s) <$> d :: l)) with (Z.of_nat (size (a_dict (view (heap s) d))) + foldr f 0 (view (heap s) <$> l)). f_equal.
  destruct (list_elem_of_lookup_1 (dbs s) d) as [i Hi]; [apply list_elem_of_In, Hl; by left|].
  rewrite (view_size _ _ _ _ s (Z.of_nat i) d I) by (apply rd_Some; split; [lia|by rewrite Nat2Z.id]).
  unfold vals, zlen. rewrite length_map. by rewrite length_map_to_list.
Qed.

Lemma inv_tight N s : inv N [] [] [] s -> held s = [] -> argv s = [] -> inv (REDIS_SHARED_INTEGERS + all_keys (abs s)) [] [] [] s.
Proof.
  intros I Hh Ha. constructor; try by destruct I. pose proof (inv_room _ _ _ _ _ I) as R. unfold roots in *. rewrite Hh, Ha in *.
  rewrite !zlen_app in *. rewrite (dict_refs_keys N) in * by done. destruct (inv_ints _ _ _ _ _ I) as [-> _]. change (zlen (@nil addr)) with 0 in *. change (zlen (@nil local).*1.*1) with 0 in *.
  destruct (inv_ints _ _ _ _ _ I) as [E _]. lia.
Qed.

End Requests.

(** ** Lemmas: a request *)

Section Serve.
Context `{SE : ServerEnv} `{HO : Host} `{SM : ServerMode}.
Context (ptr_of : addr -> Z).

Lemma sim_run_command c N s : c <> COther -> fits N s (command_args c) -> command_bounds c (a_argv (abs s)) ->
  sim (run ptr_of c) (spec_run c) s (finished N s).
Proof.
  intros Hc F B. destruct c as [c|c|c| | |]; cbn [run spec_run command_args command_bounds] in *; try done.
  - by apply string_command_sim.
  - by apply key_command_sim.
  - by apply bit_command_sim.
  - destruct F as (I & HN & _). pose proof (zlen_nonneg (argv s)). eapply sim_reply_done; [exact I|lia].
  - use_arg F 1%nat a x Ha Ex. destruct F as (I & HN & _). pose proof (zlen_nonneg (argv s)). apply (sim_arg_r _ _ _ _ _ _ Ex).
    eapply sim_argR; [exact I|exact Ha|]. eapply sim_mono; [eapply sim_addReplyBulk; [exact I|by eapply raw_arg_val|lia]|].
    cbn beta. intros ? ? s1 (I1 & _). eapply done_inv; [exact I1|lia].
Qed.

Lemma wp_obj_text N s a x (Q : list Z -> server -> Prop) :
  inv N [] [] [] s -> val_at (heap s) a = Some (VStr x) -> Q x s -> wp (obj_text a) s Q.
Proof.
  intros I Hv HQ. destruct (val_obj _ _ _ _ _ _ _ I Hv) as (o & Ho & Hok & Ex). apply wp_bind, (wp_load _ o); [done|].
  destruct (obj_string o x Hok Ex) as (_ & Hc & _). destruct Hc as [(-> & b & Hp & Hr)|(-> & v & Hp & Hi & ->)].
  - change (REDIS_ENCODING_RAW =? REDIS_ENCODING_RAW) with true. cbn iota. unfold obj_sds. rewrite Hp. apply wp_bind, wp_ret.
    eapply wp_lift; [by apply raw_bytes|done].
  - change (REDIS_ENCODING_INT =? REDIS_ENCODING_RAW) with false. cbn iota. unfold obj_long. rewrite Hp. apply wp_bind, wp_ret.
    eapply wp_lift; [apply ll_text_print; [done|lia]|done].
Qed.

Lemma wp_obj_texts N s l (Q : list (list Z) -> server -> Prop) :
  inv N [] [] [] s -> (forall a, In a l -> In a (argv s)) -> Q (text_at (heap s) <$> l) s -> wp (obj_texts l) s Q.
Proof.
  intros I. revert Q. induction l as [|a l IH]; intros Q Hl HQ; [exact HQ|]. cbn [obj_texts]. apply wp_bind.
  assert (In a (argv s)) as [j Hj]%list_elem_of_In%list_elem_of_lookup_1 by (apply Hl; by left).
  destruct (arg_val _ _ _ _ _ _ _ I Hj) as (_ & x & _ & _ & _ & _ & Hv & _). eapply wp_obj_text; [exact I|exact Hv|]. apply wp_bind.
  apply IH; [intros b Hb; apply Hl; by right|]. apply wp_ret. rewrite fmap_cons in HQ. unfold text_at at 1 in HQ. by rewrite Hv in HQ.
Qed.

Lemma sim_propagate_cmd N s db : inv N [] [] [] s ->
  sim (propagate db) (l ← a_gets a_argv; a_log (Propagate db l)) s (fun _ _ s' => inv N [] [] [] s').
Proof.
  intros I. apply sim_gets_r. apply wp_bind, wp_gets, wp_bind. eapply wp_obj_texts; [exact I|done|].
  change (text_at (heap s) <$> argv s) with (a_argv (abs s)).
  eapply sim_mono; [apply (sim_modify_side N [] [] [] s (fun x => log_event x (Propagate db (a_argv (abs s))))); [exact I|done]|].
  cbn beta. by intros _ _ s' [I' _].
Qed.

Lemma sim_call cmd N s : proc cmd <> COther -> fits N s (command_args (proc cmd)) -> command_bounds (proc cmd) (a_argv (abs s)) ->
  sim (call ptr_of cmd) (a_call (proc cmd)) s (finished N s).
Proof.
  intros Hc F B. unfold call, a_call. apply sim_gets_l, sim_gets_r. change (dirty (a_sd (abs s))) with (dirty (sd s)).
  sim_next sim_run_command; [exact Hc|exact F|exact B|]. intros ? ? s1 I1. unfold done_with in I1. set (M := N + (zlen (argv s) + 8)) in *.
  apply sim_gets_l, sim_gets_r. change (dirty (a_sd (abs s1))) with (dirty (sd s1)).
  eapply sim_bind, (sim_mono _ _ _ (fun _ _ s' => inv M [] [] [] s')).
  - destruct (negb _); [|by apply sim_ret]. apply sim_db. by apply sim_propagate_cmd.
  - intros _ _ s2 I2. eapply sim_mono; [by eapply (sim_modify_side M [] [] [] s2)|]. cbn beta. intros ? ? s3 [I3 _]. exact I3.
Qed.

Lemma sim_processCommand N s : ready N s -> N + zlen (argv s) + 8 < 2 ^ 31 -> maxmemory = 0 -> request_ok (a_argv (abs s)) ->
  sim (processCommand ptr_of) a_processCommand s (fun ok ok' s' => ok = ok' /\ inv (N + (zlen (argv s) + 8)) [] [] [] s').
Proof.
  intros I HN Hmax (Hne & Hargs & Hb). pose proof (zlen_nonneg (argv s)).
  assert (0 < length (argv s))%nat as Hlen. { pose proof (zlen_args s) as E. unfold zlen in E. destruct (a_argv (abs s)); [done|]. cbn in E. lia. }
  destruct (fits_arg N s (length (argv s)) 0) as (a & x & Hin & Ha & Ex & Hr); [by split_and!; [exact I|lia|]|lia|].
  apply (sim_arg_r _ _ _ _ _ _ Ex). eapply sim_arg_sds; [exact I|exact Hin|]. intros b Hrep.
  assert (head (a_argv (abs s)) = Some x) as Hhd by (destruct (a_argv (abs s)); [done|by injection Ex as ->]).
  assert (inv (N + (zlen (argv s) + 8)) [] [] (all_args s) s) as I' by (eapply inv_weaken; [exact I|lia]).
  assert (forall s', inv (N + (zlen (argv s) + 8)) [] [] (all_args s) s' -> inv (N + (zlen (argv s) + 8)) [] [] [] s') as Hdrop by (intros s' []; by constructor).
  assert (forall (t : list Z) (r : bool), sim (_ ← addReply t; mret r) (_ ← a_reply t; mret r) s (fun ok ok' s' => ok = ok' /\ inv (N + (zlen (argv s) + 8)) [] [] [] s')) as Hreply.
  { intros t r. sim_next sim_addReply; [exact I'|]. intros _ _ s1 (I1 & _). apply sim_ret. split; [done|by apply Hdrop]. }
  pose proof Hrep as (sp & Eb & _).
  eapply sim_step, wp_lift; [rewrite Eb; apply strcaseeq_ok; by repeat constructor|]. split; [done|]. fold (is_word x "quit").
  destruct (is_word x "quit"); [apply Hreply|].
  eapply sim_step, wp_lift; [by apply lookup_ok|]. split; [done|]. destruct (a_lookup x) as [cmd|] eqn:El.
  2:{ destruct (cstring_split x sp) as (sp' & Ec & Hnz). rewrite Eb, Ec. eapply sim_step, wp_lift; [by apply strlen_nul|]. split; [done|].
      eapply sim_step, wp_lift; [by apply rdn_prefix|]. split; [done|]. apply Hreply. }
  specialize (Hb x cmd Hhd El). assert (proc cmd <> COther) as Hc by (intros E; by rewrite E in Hb).
  unfold argc. apply sim_gets_l, sim_gets_r. rewrite zlen_args.
  destruct (((0 <? arity cmd) && negb (arity cmd =? zlen (argv s))) || (zlen (argv s) <? - arity cmd)) eqn:Ear; [apply Hreply|].
  assert (forall m : Cmd bool, match proc cmd with COther => panic | _ => m end = m) as -> by (intros m; by destruct (proc cmd)).
  rewrite Hmax. cbn [Z.eqb negb]. destruct (refusal cmd) as [r|]; [apply Hreply|].
  pose proof (arity_args x cmd _ El Hc (zlen_nonneg (argv s)) Ear) as Hn.
  sim_next (sim_call cmd N s); [exact Hc|split_and!; [exact I|lia|unfold zlen in Hn; lia]|exact Hb|].
  intros ? ? s1 I1. by apply sim_ret.
Qed.

End Serve.

(** ** Lemmas: the server when it starts *)

Section Start.
Context `{SE : ServerEnv} `{HO : Host} `{SM : ServerMode}.

Definition int_obj (v : Z) : robject := RObject REDIS_STRING REDIS_ENCODING_INT lruclock 1 (PLong v).

(** The memory holds the integers from 0 on, and nothing else. *)
Definition only_integers (n : nat) (s : server) : Prop :=
  length (integers s) = n /\ NoDup (integers s) /\ held s = held no_server /\ dbs s = dbs no_server /\ argv s = argv no_server /\ sd s = sd no_server /\
  (forall j a, integers s !! j = Some a -> heap s !! a = Some (int_obj (Z.of_nat j))) /\
  (forall a o, heap s !! a = Some o -> In a (integers s)).

Lemma wp_shared_integers n : forall s j, only_integers j s -> wp (shared_integers n (Z.of_nat j)) s (fun _ s' => only_integers (j + n) s').
Proof.
  induction n as [|n IH]; intros s j Hs; cbn [shared_integers].
  { apply wp_ret. by rewrite Nat.add_0_r. }
  destruct Hs as (Hl & Hnd & Hh & Hd & Ha & Hsd & Hint & Honly). set (a := new_addr (heap s)).
  assert (heap s !! a = None) as Hfresh by apply new_addr_fresh.
  assert (~ In a (integers s)) as Hnew. { intros [i Hi]%list_elem_of_In%list_elem_of_lookup_1. apply Hint in Hi. congruence. }
  apply wp_bind, wp_bind, wp_gets, wp_bind. fold a. unfold wp at 1, modify at 1. apply wp_ret. apply wp_bind.
  eapply wp_load; [apply lookup_insert_eq|]. apply wp_bind. eapply wp_store; [apply lookup_insert_eq|]. apply wp_bind. unfold wp at 1, modify at 1.
  replace (Z.of_nat j + 1) with (Z.of_nat (S j)) by lia. eapply wp_mono; [apply IH|].
  2:{ cbn beta. intros _ s'. by replace (S j + n)%nat with (j + S n)%nat by lia. }
  cbn [heap with_heap integers held dbs argv sd]. rewrite insert_insert_eq. split_and!; try done.
  - cbn. rewrite length_app. cbn. lia.
  - cbn. apply NoDup_app. split; [done|]. split; [|apply NoDup_singleton]. intros b Hb%list_elem_of_In Hb2%list_elem_of_singleton. by subst.
  - intros i b Hi. cbn [integers heap] in *. destruct (decide (i < length (integers s))%nat) as [Hlt|Hge].
    + rewrite lookup_app_l in Hi by done. rewrite lookup_insert_ne; [by apply Hint|]. intros <-. apply Hnew. by eapply lookup_In.
    + rewrite lookup_app_r in Hi by lia. apply list_lookup_singleton_Some in Hi as [Hi <-]. rewrite lookup_insert_eq.
      by replace i with j by lia.
  - intros b o Hb. cbn [integers heap] in *. apply in_app_iff. destruct (decide (a = b)) as [->|Hne]; [right; by left|].
    rewrite lookup_insert_ne in Hb by done. left. by eapply Honly.
Qed.

Lemma inv_start s : only_integers (Z.to_nat REDIS_SHARED_INTEGERS) s -> 0 < dbnum < 2 ^ 31 ->
  inv REDIS_SHARED_INTEGERS [] [] [] s /\ abs s = a_start /\ held s = [] /\ argv s = [].
Proof.
  intros (Hl & Hnd & Hh & Hd & Ha & Hsd & Hint & Honly) Hdb.
  assert (roots s = integers s) as Er.
  { unfold roots. rewrite Hh, Ha, Hd. cbn. assert (concat (map (fun d => vals (db_dict d)) (replicate (Z.to_nat dbnum) (RedisDb ∅ ∅))) = []) as ->; [|by rewrite app_nil_r].
    generalize (Z.to_nat dbnum). intros m. induction m as [|m IH]; [done|]. cbn. by rewrite IH. }
  assert (zlen (integers s) = REDIS_SHARED_INTEGERS) as Ezl by (unfold zlen; rewrite Hl; by vm_compute).
  split_and!; [constructor| |by rewrite Hh|by rewrite Ha].
  - intros a. rewrite Er. change ([].*1.*1) with (@nil addr). rewrite app_nil_r, occ_nil. destruct (heap s !! a) as [o|] eqn:Eo.
    + pose proof (Honly a o Eo) as Hin. apply list_elem_of_In, list_elem_of_lookup_1 in Hin as [j Hj]. pose proof (Hint j a Hj) as E. rewrite Eo in E. injection E as ->.
      pose proof (lookup_lt_Some _ _ _ Hj) as Hlt. rewrite Hl in Hlt. unfold REDIS_SHARED_INTEGERS in Hlt.
      split_and!; [|done|].
      * right. left. split_and!; [done|done|]. eexists. split; [done|]. unfold in_s. lia.
      * cbn. unfold occ. assert (count_occ Nat.eq_dec (integers s) a = 1)%nat as ->; [|done].
        apply NoDup_ListNoDup in Hnd. rewrite (NoDup_count_occ' Nat.eq_dec) in Hnd. apply Hnd. by eapply lookup_In.
    + split; [|done]. destruct (Z.eq_dec (occ a (integers s)) 0) as [|Hne]; [done|].
      assert (In a (integers s)) as Hin by (apply occ_In; pose proof (occ_nonneg a (integers s)); lia).
      apply list_elem_of_In, list_elem_of_lookup_1 in Hin as [j Hj]. apply Hint in Hj. congruence.
  - rewrite Er. change ([].*1.*1) with (@nil addr). rewrite app_nil_r, Ezl. unfold REDIS_SHARED_INTEGERS. lia.
  - intros a v r [].
  - split; [done|]. intros v a Hv%rd_Some. destruct Hv as [Hv0 Hv]. apply Hint in Hv. rewrite Z2Nat.id in Hv by done. by eexists.
  - intros a. rewrite Ha. by intros [].
  - intros d k w. rewrite Hd. intros Hin. apply list_elem_of_In, elem_of_replicate in Hin as [-> _]. cbn. by rewrite lookup_empty.
  - rewrite Hd, Hsd. cbn. unfold zlen. rewrite length_replicate. lia.
  - intros j a k [].
  - unfold abs, a_start. rewrite Hd, Ha, Hsd. cbn. f_equal. rewrite fmap_replicate. f_equal. 
Qed.

Lemma wp_initServer : 0 < dbnum < 2 ^ 31 ->
  wp initServer no_server (fun _ s => inv REDIS_SHARED_INTEGERS [] [] [] s /\ abs s = a_start /\ held s = [] /\ argv s = []).
Proof.
  intros Hdb. eapply wp_mono; [apply (wp_shared_integers _ no_server 0)|].
  - split_and!; try done. apply NoDup_nil_2.
  - cbn beta. intros _ s Hs. by apply inv_start.
Qed.

End Start.

(** ** Sessions *)

Section Session.
Context `{SE : ServerEnv} `{HO : Host} `{SM : ServerMode}.
Context (ptr_of : addr -> Z).

Lemma inv_any_N N s R : inv N [] [] R s -> inv N [] [] [] s.
Proof. intros []. by constructor. Qed.

(** A session from a state between two requests. *)
Lemma serve_sim l : forall N s, inv N [] [] [] s -> argv s = [] -> maxmemory = 0 -> session_ok l N (abs s) ->
  sim (serve ptr_of l) (a_serve l) s (fun _ _ s' => exists M, inv M [] [] [] s').
Proof.
  induction l as [|[args|] l IH]; intros N s I Ha Hmax Hok; cbn [serve a_serve].
  - apply sim_ret. by exists N.
  - cbn [session_ok] in Hok. destruct Hok as (Hr & HN & Hok). pose proof Hr as (_ & Hargs & _). pose proof (zlen_nonneg args).
    apply wp_bind. eapply wp_mono; [eapply (wp_create_args args N [] s I); [lia|exact Hargs]|]. cbn beta.
    intros a s1 (L1 & <- & I1 & E1 & H1 & Hm). rewrite app_nil_r in I1.
    destruct (install_args (N + zlen args) L1 args s1 I1) as [I2 E2]; [by rewrite H1|exact Hm|].
    set (s2 := with_argv s1 L1.*1.*1) in *. rewrite E1 in E2.
    assert (zlen (argv s2) = zlen args) as Ezl. { apply (f_equal length) in Hm. rewrite !length_map in Hm. unfold s2, zlen. cbn. rewrite !length_fmap. by rewrite Hm. }
    apply wp_bind. unfold wp at 1, modify. fold s2.
    assert (abs s2 = snd (a_set_argv args (abs s))) as E3 by by rewrite E2.
    pose proof (sim_processCommand ptr_of (N + zlen args) s2 I2) as P. rewrite E2 in P. cbn [a_argv] in P.
    apply wp_bind. eapply wp_mono; [apply P; [lia|done|exact Hr]|]. cbn beta. intros ok s3. rewrite E2. cbn [a_argv].
    unfold mbind, Spec_bind, a_set_argv in Hok |- *. destruct (a_processCommand _) as [ok' t] eqn:Ep. intros (-> & <- & I3).
    rewrite Ezl in I3. replace (N + zlen args + (zlen args + 8)) with (N + 2 * zlen args + 8) in I3 by lia.
    destruct ok.
    + apply wp_bind. eapply wp_mono; [by apply wp_freeClientArgv|]. cbn beta. intros _ s4 (I4 & A4 & E4).
      cbn [fst snd] in Hok. unfold a_set_argv in E4. cbn [snd] in E4. rewrite E4 in Hok. unfold mret, Spec_ret in Hok.
      pose proof (IH _ _ I4 A4 Hmax Hok) as W. unfold sim in W. rewrite E4. exact W.
    + apply wp_ret. split; [done|]. by eexists.
  - cbn [session_ok] in Hok. apply wp_bind. eapply wp_mono; [by apply wp_sendReplies|]. cbn beta. intros _ s1 (I1 & E1 & H1 & A1).
    assert (argv s1 = []) as A2 by congruence. rewrite <- E1 in Hok. pose proof (IH _ _ (inv_tight _ _ I1 H1 A2) A2 Hmax Hok) as W.
    unfold sim in W. by rewrite E1 in W.
Qed.

End Session.

(** ** What the model runs: an example of its parameters *)

Module Example.

Lemma fresh_nat (h : gmap addr robject) : h !! fresh (dom h) = None.
Proof. apply not_elem_of_dom, is_fresh. Qed.

Lemma seconds_ok n : 0 <= Z.of_nat n mod 2 ^ 40 * 1000 < 2 ^ 63.
Proof. pose proof (Z.mod_pos_bound (Z.of_nat n) (2 ^ 40) eq_refl). lia. Qed.

(** A master that accepts every command, with two databases and a clock that ticks once a
    second. *)
#[export] Instance env : ServerEnv := {|
  junk := fun _ => 0;
  new_addr := fun h => fresh (dom h);
  new_addr_fresh := fresh_nat;
  clock := fun n => Z.of_nat n mod 2 ^ 40 * 1000;
  clock_ok := seconds_ok;
  lruclock := 0;
  dbnum := 2;
  saving_child := false;
  loading := false;
  masterhost := false;
  lua_time := None;
  maxmemory := 0;
  client_is_master := false;
  write_handler := true;
  reply_by_reference := fun _ => true |}.

#[export] Instance host : Host := {| big_endian := false |}.

#[export] Instance mode : ServerMode := {|
  case_seed := 5381;
  mask := fun _ => 255;
  requirepass := false;
  authenticated := false;
  stop_writes_on_bgsave_err := true;
  saveparamslen := 3;
  lastbgsave_ok := true;
  aof_last_write_ok := true;
  aof_error := [];
  repl_min_slaves_to_write := 0;
  repl_min_slaves_max_lag := 10;
  repl_good_slaves_count := 0;
  repl_slave_ro := true;
  client_subscriptions := 0;
  repl_connected := false;
  repl_serve_stale_data := true;
  lua_timedout := false |}.

Definition ask (l : list string) : action := Request (map str l).

(** Some requests: an option in capitals, a key that expires, an unknown command, a shared
    value, bits. *)
Definition requests : list action :=
  [ask ["SET"; "k"; "10"; "EX"; "5"]; ask ["INCRBY"; "k"; "32"]; ask ["GET"; "k"]; ask ["FOO"]; Sent;
   ask ["APPEND"; "k"; "x"]; ask ["SETBIT"; "b"; "9"; "1"]; ask ["BITCOUNT"; "b"]; ask ["MGET"; "k"; "b"]; Sent;
   ask ["RENAME"; "k"; "l"]; ask ["TTL"; "l"]; ask ["GET"; "l"]; ask ["DEL"; "l"; "b"; "c"]; Sent; ask ["quit"]]%string.

End Example.

(** ** Deciding whether requests are in the bounds of the model *)

Section Decide.
Context `{SE : ServerEnv} `{HO : Host} `{SM : ServerMode}.

Definition boundsb (c : command) (l : list (list Z)) : bool :=
  match c with
  | CString CSetrange =>
      match l !! 2%nat, l !! 3%nat with
      | Some off, Some y => match parse_ll off with Some o => o + zlen y <? 2 ^ 63 | None => true end
      | _, _ => true
      end
  | CString CGetrange =>
      match l !! 3%nat with
      | Some e => match parse_ll e with Some n => n <? 2 ^ 32 | None => true end
      | None => true
      end
  | COther => false
  | _ => true
  end.

Lemma boundsb_ok c l : boundsb c l = true -> command_bounds c l.
Proof.
  destruct c as [[]|c|c| | |]; unfold boundsb, command_bounds, string_bounds; try done.
  - intros Hb off y o E1 E2 E3. rewrite E1, E2, E3 in Hb. by apply Z.ltb_lt in Hb.
  - intros Hb e n E1 E2. rewrite E1, E2 in Hb. by apply Z.ltb_lt in Hb.
Qed.

Definition request_okb (args : list (list Z)) : bool :=
  match args with
  | [] => false
  | x :: _ =>
      forallb (fun x => forallb (fun c => (0 <=? c) && (c <? 256)) x && (zlen x <=? STRING_MAX)) args &&
      match a_lookup x with Some cmd => boundsb (proc cmd) args | None => true end
  end.

Lemma request_okb_ok args : request_okb args = true -> request_ok args.
Proof.
  unfold request_okb, request_ok. destruct args as [|x args]; [done|]. intros [Hf Hb]%andb_true_iff. split_and!; [done| |].
  - rewrite forallb_forall in Hf. apply Forall_forall. intros y Hy%list_elem_of_In%Hf%andb_true_iff. destruct Hy as [Hy Hl%Z.leb_le]. split; [|done].
    rewrite forallb_forall in Hy. apply Forall_forall. intros c Hc%list_elem_of_In%Hy. unfold byte_ok. lia.
  - intros y cmd [= <-] El. rewrite El in Hb. by apply boundsb_ok.
Qed.

Fixpoint session_okb (l : list action) (N : Z) (t : aserver) : bool :=
  match l with
  | [] => true
  | Sent :: l => session_okb l (REDIS_SHARED_INTEGERS + all_keys t) t
  | Request args :: l =>
      request_okb args && (N + 2 * zlen args + 8 <? 2 ^ 31) &&
      let '(ok, t') := (_ ← a_set_argv args; ok ← a_processCommand; _ ← (if ok : bool then a_set_argv [] else mret tt); mret ok) t in
      if ok : bool then session_okb l (N + 2 * zlen args + 8) t' else true
  end.

Lemma session_okb_ok l : forall N t, session_okb l N t = true -> session_ok l N t.
Proof.
  induction l as [|[args|] l IH]; intros N t; cbn [session_okb session_ok]; [done| |by apply IH].
  intros [[Hr HN%Z.ltb_lt]%andb_true_iff Hok]%andb_true_iff. split_and!; [by apply request_okb_ok|done|].
  match goal with |- context [let '(_, _) := ?m in _] => destruct m as [[] t'] end; [by apply IH|done].
Qed.

End Decide.

Section Theorems.
Context `{SE : ServerEnv} `{HO : Host} `{SM : ServerMode}.
Context (ptr_of : addr -> Z).

(** The server from its start, serving a list of requests. *)
Definition session (l : list action) : Cmd unit := _ ← initServer; serve ptr_of l.

Lemma session_sim l : 0 < dbnum < 2 ^ 31 -> maxmemory = 0 -> session_ok l REDIS_SHARED_INTEGERS a_start ->
  exists s, session l no_server = Some (tt, s) /\ abs s = snd (a_serve l a_start) /\ exists N, inv N [] [] [] s.
Proof.
  intros Hdb Hmax Hok. pose proof (wp_initServer Hdb) as W. unfold session, wp, mbind, Cmd_bind in *.
  destruct (initServer no_server) as [[[] s0]|]; [|done]. destruct W as (I & E & _ & A). rewrite <- E in Hok |- *.
  pose proof (serve_sim ptr_of l _ _ I A Hmax Hok) as W. unfold sim, wp in W. destruct (serve ptr_of l s0) as [[[] s]|]; [|done].
  destruct (a_serve l (abs s0)) as [[] t]. destruct W as (-> & N & I'). exists s. split_and!; [done|done|by exists N].
Qed.

(** C1. The server that starts and serves a list of requests never fails: no assertion, no
    access to an object that was freed, no read outside a buffer.  Its databases, its
    replies, its events and its counters are those of the specification, which runs the
    requests on maps from keys to values, with the checks of processCommand. *)
Theorem session_refines l : 0 < dbnum < 2 ^ 31 -> maxmemory = 0 -> session_ok l REDIS_SHARED_INTEGERS a_start ->
  exists s, session l no_server = Some (tt, s) /\ abs s = snd (a_serve l a_start).
Proof. intros Hdb Hmax Hok. destruct (session_sim l Hdb Hmax Hok) as (s & Es & Ea & _). by exists s. Qed.

(** C2. At the end of a session the counter of every object is the number of references to it
    from the keyspace, the shared integers, the reply lists and the arguments: no object in
    memory is without an owner, and no owner refers to memory that was freed. *)
Theorem session_memory l s : 0 < dbnum < 2 ^ 31 -> maxmemory = 0 -> session_ok l REDIS_SHARED_INTEGERS a_start ->
  session l no_server = Some (tt, s) ->
  forall a, match heap s !! a with
            | Some o => 0 < o_refcount o /\ o_refcount o = Z.of_nat (count_occ Nat.eq_dec (roots s) a)
            | None => ~ In a (roots s)
            end.
Proof.
  intros Hdb Hmax Hok Es a. destruct (session_sim l Hdb Hmax Hok) as (s' & Es' & _ & N & I). rewrite Es in Es'. injection Es' as <-.
  pose proof (inv_refs _ _ _ _ _ I a) as R. change ([].*1.*1) with (@nil addr) in R. rewrite app_nil_r, occ_nil in R. destruct (heap s !! a) as [o|].
  - destruct R as (_ & ? & ?). split; [done|]. unfold occ in *. lia.
  - intros Hin%occ_In. lia.
Qed.

(** C29. Every object in memory has the representation of its type and encoding: a string is
    an sds with its length, its spare room and its final NUL, of at most 512 MB, or a 64-bit
    integer kept in the pointer, and the shared integers hold their index. *)
Theorem session_typed l s : 0 < dbnum < 2 ^ 31 -> maxmemory = 0 -> session_ok l REDIS_SHARED_INTEGERS a_start ->
  session l no_server = Some (tt, s) ->
  (forall a o, heap s !! a = Some o -> obj_ok o) /\
  (forall v a, rd (integers s) v = Some a -> val_at (heap s) a = Some (VStr (print v))).
Proof.
  intros Hdb Hmax Hok Es. destruct (session_sim l Hdb Hmax Hok) as (s' & Es' & _ & N & I). rewrite Es in Es'. injection Es' as <-. split.
  - intros a o Ho. by eapply inv_ok.
  - intros v a Hv. destruct (inv_ints _ _ _ _ _ I) as [_ Hi]. destruct (Hi v a Hv) as (o & Ho & Ht & _ & Hp). unfold val_at. rewrite Ho. cbn. unfold value_of. by rewrite Hp.
Qed.

End Theorems.

Section Witnesses.
Import Example.

Lemma dbnum_ok : 0 < dbnum < 2 ^ 31.
Proof. by vm_compute. Qed.

Lemma requests_ok : session_ok requests REDIS_SHARED_INTEGERS a_start.
Proof. apply session_okb_ok. by vm_compute. Qed.

Lemma session_refines_witness : exists s, session (fun _ => 1) requests no_server = Some (tt, s) /\ abs s = snd (a_serve requests a_start).
Proof. exact (session_refines (fun _ => 1) requests dbnum_ok eq_refl requests_ok). Defined.

(** The session of the example as the code runs it, without evaluating it. *)
Lemma session_runs : exists s, session (fun _ => 1) requests no_server = Some (tt, s).
Proof. destruct (session_sim (fun _ => 1) requests) as (s & Es & _); [exact dbnum_ok|reflexivity|exact requests_ok|exists s; exact Es]. Qed.

Lemma session_memory_witness : exists s, session (fun _ => 1) requests no_server = Some (tt, s) /\
  forall a, match heap s !! a with
            | Some o => 0 < o_refcount o /\ o_refcount o = Z.of_nat (count_occ Nat.eq_dec (roots s) a)
            | None => ~ In a (roots s)
            end.
Proof.
  destruct session_runs as [s Es]. exists s. split; [exact Es|].
  exact (session_memory (fun _ => 1) requests s dbnum_ok eq_refl requests_ok Es).
Defined.

Lemma session_typed_witness : exists s, session (fun _ => 1) requests no_server = Some (tt, s) /\
  (forall a o, heap s !! a = Some o -> obj_ok o) /\
  (forall v a, rd (integers s) v = Some a -> val_at (heap s) a = Some (VStr (print v))).
Proof.
  destruct session_runs as [s Es]. exists s. split; [exact Es|].
  exact (session_typed (fun _ => 1) requests s dbnum_ok eq_refl requests_ok Es).
Defined.

End Witnesses.
