(* ===== verification/CommandThms.v ===== *)
(** * The properties of the commands *)

From Stdlib Require Import Ascii String.
From S2P Require Import Prelude Endian Util Sds Server ServerFacts ObjFacts Db DbFacts Tstring CommandFacts TstringThms DbThms Bitops BitopsFacts BitopsThms Session SessionThms.
Import SdsSpec SdsFacts QuoteFacts BitSpec BitFacts.

(** ** States in which a command starts, for the examples *)

Section Reach.
Context `{SE : ServerEnv} `{HO : Host} `{SM : ServerMode}.

(** After a session whose replies are sent, with the arguments of one more request. *)
Lemma ready_after l args : let t := snd (a_serve l a_start) in
  0 < dbnum < 2 ^ 31 -> maxmemory = 0 -> session_ok l REDIS_SHARED_INTEGERS a_start -> a_argv t = [] ->
  Forall (fun x => bytes_ok x /\ zlen x <= STRING_MAX) args -> REDIS_SHARED_INTEGERS + all_keys t + 2 * zlen args + 8 < 2 ^ 31 ->
  exists N s, fits N s (length args) /\ abs s = AServer (a_dbs t) args (a_sd t).
Proof.
  intros t Hdb Hmax Hok Ha Hargs HN. destruct (session_sim (fun _ => 0) l Hdb Hmax Hok) as (s & _ & Es & M & I). fold t in Es.
  pose proof (wp_sendReplies M s I) as W. unfold wp in W. destruct (sendReplies s) as [[[] s1]|]; [|done]. destruct W as (I1 & E1 & H1 & A1).
  assert (argv s1 = []) as A2. { rewrite A1. pose proof (zlen_args s) as E. rewrite Es, Ha in E. destruct (argv s); [done|]. rewrite zlen_cons in E. pose proof (zlen_nonneg l0). change (zlen []) with 0 in E. lia. }
  pose proof (inv_tight _ _ I1 H1 A2) as I2. rewrite E1, Es in I2. pose proof (zlen_nonneg args).
  pose proof (wp_create_args args _ [] s1 I2 ltac:(lia) Hargs) as W. unfold wp in W. destruct (create_args args s1) as [[a s2]|]; [|done].
  destruct W as (L1 & <- & I3 & E3 & H3 & Hm). rewrite app_nil_r in I3. destruct (install_args _ L1 args s2 I3) as [I4 E4]; [by rewrite H3|exact Hm|].
  rewrite E3, E1, Es in E4. eexists _, _. split; [|exact E4].
  assert (length (L1.*1.*1) = length args) as El. { apply (f_equal length) in Hm. rewrite !length_map in Hm. by rewrite !length_fmap. }
  split_and!; [exact I4|cbn [argv with_argv]; unfold zlen in *; rewrite El; lia|cbn; lia].
Qed.

Lemma sim_result {A B} (m : Cmd A) (am : Spec B) s Q : sim m am s Q ->
  exists x s', m s = Some (x, s') /\ abs s' = snd (am (abs s)) /\ Q x (fst (am (abs s))) s'.
Proof.
  unfold sim, wp. destruct (m s) as [[x s']|]; [|done]. destruct (am (abs s)) as [y t]. intros [-> HQ]. by exists x, s'.
Qed.

End Reach.

(** ** The commands and their specifications *)

Section Refinement.
Context `{SE : ServerEnv} `{HO : Host}.

(** C15. The commands on strings (SET and its variants, GET, GETSET, SETRANGE, GETRANGE, MGET,
    MSET, MSETNX, the counters, APPEND and STRLEN) do what their specifications do on the
    values of the keys, whatever the encodings of the objects and whoever shares them, and
    keep the invariant of the server. *)
Theorem string_commands_refine c N s : fits N s (string_args c) -> string_bounds c (a_argv (abs s)) ->
  exists s', string_proc c s = Some (tt, s') /\ abs s' = snd (string_spec c (abs s)) /\ inv (N + (zlen (argv s) + 8)) [] [] [] s'.
Proof. intros F B. destruct (sim_result _ _ _ _ (string_command_sim c N s F B)) as ([] & s' & E & Ea & I). by exists s'. Qed.

(** C16. So do the commands on keys and databases: DEL, EXISTS, SELECT, DBSIZE, TYPE, FLUSHDB,
    RENAME, RENAMENX, MOVE, the four EXPIRE commands, TTL, PTTL and PERSIST. *)
Theorem key_commands_refine c N s : fits N s (key_args c) ->
  exists s', key_proc c s = Some (tt, s') /\ abs s' = snd (key_spec c (abs s)) /\ inv (N + (zlen (argv s) + 8)) [] [] [] s'.
Proof. intros F. destruct (sim_result _ _ _ _ (key_command_sim c N s F)) as ([] & s' & E & Ea & I). by exists s'. Qed.

(** C17. So do SETBIT, GETBIT, BITOP, BITCOUNT and BITPOS, whose specifications are on the
    bits of the strings. *)
Theorem bit_commands_refine ptr_of c N s : fits N s (bit_args c) ->
  exists s', bit_proc ptr_of c s = Some (tt, s') /\ abs s' = snd (bit_spec c (abs s)) /\ inv (N + (zlen (argv s) + 8)) [] [] [] s'.
Proof. intros F. destruct (sim_result _ _ _ _ (bit_command_sim ptr_of c N s F)) as ([] & s' & E & Ea & I). by exists s'. Qed.

(** redisPopcount() counts the bits of the bytes it is given, wherever they start in
    memory: its bytes up to an aligned address, its groups of four words, in either byte
    order, and its rest. *)
Theorem redisPopcount_counts base pre x post : bytes_ok x -> zlen x < 2 ^ 60 ->
  redisPopcount base (pre ++ x ++ post) (zlen pre) (zlen x) = Some (ones (bits x)).
Proof. intros Hx Hl. by apply popcount_ok. Qed.

(** C30. redisBitpos() finds the first bit of the given value, in big-endian order of bits,
    wherever the bytes start in memory; without such a bit it returns -1 for a set bit and
    the number of bits for a clear one. *)
Theorem redisBitpos_first base pre x post v : bytes_ok x ->
  redisBitpos base (pre ++ x ++ post) (zlen pre) (zlen x) (Z.b2z v) = Some (bitpos v x).
Proof. intros Hx. by apply bitpos_ok. Qed.

(** The buffer that BITOP computes, by words as long as all the sources last and then
    byte by byte, is the combination of the bytes of the sources, padded with zeroes. *)
Theorem bitop_buffer_combines op srcs xs minlen maxlen : 0 <= op <= 3 -> Forall2 source_of srcs xs -> srcs <> [] ->
  (op = BITOP_NOT -> length xs = 1%nat) -> 0 <= minlen <= maxlen -> Forall (fun x => minlen <= zlen x) xs ->
  bitop_buffer op srcs minlen maxlen (replicate (Z.to_nat maxlen) 0 ++ [0]) = Some (combine op xs (Z.to_nat maxlen) ++ [0]).
Proof. intros. by apply bitop_buffer_ok. Qed.

End Refinement.

(** ** Looking commands up *)

Section Lookup.
Context `{SE : ServerEnv} `{HO : Host} `{SM : ServerMode}.

Lemma hash_lower x : forall h, dictGenCaseHashFunction x h = dictGenCaseHashFunction (map tolower x) h.
Proof.
  induction x as [|c x IH]; intros h; [done|]. cbn [dictGenCaseHashFunction map]. rewrite IH. do 3 f_equal.
  unfold tolower. destruct ((65 <=? c) && (c <=? 90)) eqn:E; [|by rewrite E]. bool_to_prop. by zdec.
Qed.

Definition named (k : list Z) (c : redisCommand) : bool := bool_decide (str (name c) = k).

Lemma populate_old rows : forall m m' k c, populate rows m = Some m' -> m !! k = Some c -> List.find (named k) rows = None.
Proof.
  induction rows as [|r rows IH]; intros m m' k c Hp Hk; [done|]. cbn [populate] in Hp.
  destruct (sflags_bits (str (sflags r)) 0); [|done]. cbn [mbind option_bind] in Hp. destruct (m !! str (name r)) eqn:E; [done|].
  cbn [List.find]. unfold named at 1. rewrite bool_decide_false by congruence. eapply IH; [exact Hp|]. rewrite lookup_insert_ne; [exact Hk|congruence].
Qed.

Lemma populate_lookup rows : forall m m' k, populate rows m = Some m' ->
  m' !! k = match List.find (named k) rows with Some c => Some c | None => m !! k end.
Proof.
  induction rows as [|r rows IH]; intros m m' k Hp; [by injection Hp as ->|]. pose proof Hp as Hp0. cbn [populate] in Hp.
  destruct (sflags_bits (str (sflags r)) 0); [|done]. cbn [mbind option_bind] in Hp. destruct (m !! str (name r)) eqn:E; [done|].
  rewrite (IH _ _ k Hp). cbn [List.find]. unfold named at 2. case_bool_decide as Hn.
  - subst k. rewrite (populate_old _ _ _ _ r Hp) by apply lookup_insert_eq. apply lookup_insert_eq.
  - destruct (List.find (named k) rows); [done|]. by rewrite lookup_insert_ne.
Qed.

Lemma table_accepted : bool_decide (is_Some populateCommandTable) = true.
Proof. by vm_compute. Qed.

(** populateCommandTable() accepts the table: its names differ and its flags are known;
    and lookupCommand() of a name without NUL finds the row of that name, in any case of
    letters, whatever the seed of the hash and the progress of the rehashing. *)
Theorem lookupCommand_correct s x : rep s x -> Forall (fun c => c <> 0) x ->
  exists commands, populateCommandTable = Some commands /\ lookupCommand s = Some (commands !! map tolower x).
Proof.
  intros Hr Hx. rewrite (lookup_ok _ _ Hr). pose proof table_accepted as Hp.
  destruct populateCommandTable as [m|] eqn:E; [|discriminate Hp]. clear Hp. exists m. split; [reflexivity|].
  f_equal. unfold populateCommandTable in E. rewrite (populate_lookup _ _ _ (map tolower x) E), lookup_empty. unfold a_lookup.
  assert (cstring x = x) as Ec. { clear -Hx. induction Hx as [|c x Hc _ IH]; [done|]. cbn. by rewrite (proj2 (Z.eqb_neq c 0) Hc), IH. }
  clear E m. induction redisCommandTable as [|c rows IH]; [done|]. cbn [List.find]. unfold named at 1, is_word at 1. rewrite Ec.
  destruct (decide (map tolower x = str (name c))) as [En|En].
  - rewrite !bool_decide_true by congruence. unfold same_bucket at 1. by rewrite (hash_lower x), En, Z.eqb_refl.
  - rewrite !bool_decide_false by congruence. by rewrite andb_false_r.
Qed.

End Lookup.

(** ** Expires *)

Section Expires.
Context `{SE : ServerEnv}.

(** The key has no expire that has passed at time [now]. *)
Definition live (t : aserver) (db : Z) (k : list Z) (now : Z) : bool :=
  match a_expires (cur_db db t) !! k with Some when => (when <? 0) || (now <=? when) | None => true end.

Lemma a_expire_master db k t : masterhost = false -> loading = false -> lua_time = None ->
  let t' := snd (a_expire db k t) in
  (exists d, rd (a_dbs t) db = Some d) ->
  cur_db db t' = (if live t db k (clock (ticks (a_sd t))) then cur_db db t else remove k (cur_db db t)) /\
  (live t db k (clock (ticks (a_sd t))) = false -> In (PropagateDel db k) (events (a_sd t'))).
Proof.
  intros Hm Hl Hlua t' (d & Hd). unfold t', a_expire, live, a_get, a_gets, mbind, Spec_bind. cbv beta iota.
  destruct (a_expires (cur_db db t) !! k) as [w|]; [|by split]. rewrite Hl, Hlua, Hm, orb_false_r.
  destruct (w <? 0); [by split|]. cbn [orb]. unfold a_mstime, a_gets, a_side, mbind, Spec_bind, mret, Spec_ret. cbv beta iota. cbn [a_sd].
  destruct (clock (ticks (a_sd t)) <=? w); [by split|]. cbn. split; [|].
  - unfold cur_db, a_modify, a_set, a_get, a_gets, mbind, Spec_bind. cbn [snd fst a_dbs a_side a_log]. unfold cur_db. cbn [a_dbs]. rewrite Hd.
    apply rd_Some in Hd as [H0 Hd]. unfold rd. zdec. by rewrite list_lookup_insert_eq by (by eapply lookup_lt_Some).
  - intros _. unfold a_modify, a_set, a_get, a_gets, mbind, Spec_bind. cbn [snd fst a_sd log_event events].
    apply in_app_iff. left. apply in_app_iff. right. by left.
Qed.

Lemma a_lookupRead_master db k t : masterhost = false -> loading = false -> lua_time = None -> (exists d, rd (a_dbs t) db = Some d) ->
  let alive := live t db k (clock (ticks (a_sd t))) in
  fst (a_lookupRead db k t) = (if alive then a_dict (cur_db db t) !! k else None) /\
  cur_db db (snd (a_lookupRead db k t)) = (if alive then cur_db db t else remove k (cur_db db t)) /\
  (alive = false -> In (PropagateDel db k) (events (a_sd (snd (a_lookupRead db k t))))).
Proof.
  intros Hm Hl Hlua Hd alive. destruct (a_expire_master db k t Hm Hl Hlua Hd) as [Ec Ee]. fold alive in Ec, Ee.
  unfold a_lookupRead, a_find, a_get, a_gets, a_side, mbind, Spec_bind, mret, Spec_ret. destruct (a_expire db k t) as [b t1]. cbn [snd] in Ec, Ee.
  cbn [fst snd]. rewrite Ec. split_and!.
  - destruct alive; [done|]. apply lookup_delete_eq.
  - rewrite <- Ec. done.
  - intros Ha. specialize (Ee Ha). cbn [a_sd]. destruct (a_dict _ !! k); exact Ee.
Qed.

(** C19. On a master that is not loading its data, a key whose time to live has passed is
    never found: the lookup removes it with its expire, leaves every other key as it is, and
    passes the removal on to the append only file and the slaves.  A key that is alive is
    found with its value, and the database does not change. *)
Theorem expired_keys_gone N L R s j key k db : inv N L [] R s -> In (j, key, k) R -> 0 <= db < dbnum ->
  masterhost = false -> loading = false -> lua_time = None ->
  let alive := live (abs s) db k (clock (ticks (sd s))) in
  exists r s', lookupKeyRead db key s = Some (r, s') /\
    found s' db k r (if alive then a_dict (cur_db db (abs s)) !! k else None) /\
    cur_db db (abs s') = (if alive then cur_db db (abs s) else remove k (cur_db db (abs s))) /\
    (alive = false -> In (PropagateDel db k) (events (sd s'))).
Proof.
  intros I Hj Hdb Hm Hl Hlua alive. destruct (sim_result _ _ _ _ (sim_lookupKeyRead N L R s j key k db I Hj Hdb)) as (r & s' & E & Ea & _ & _ & _ & Hf).
  assert (exists d, rd (a_dbs (abs s)) db = Some d) as Hd. { destruct (inv_db _ _ _ _ _ _ I Hdb) as [d Hd]. rewrite abs_rd, Hd. by eexists. }
  destruct (a_lookupRead_master db k (abs s) Hm Hl Hlua Hd) as (E1 & E2 & E3). change (ticks (a_sd (abs s))) with (ticks (sd s)) in *.
  fold alive in E1, E2, E3. rewrite <- Ea in E2, E3. rewrite E1 in Hf. by exists r, s'.
Qed.

End Expires.

(** ** Examples *)

(** The bytes of a literal. *)
Ltac literal_bytes := repeat first [apply Forall_nil_2 | apply Forall_cons_2; [by vm_compute|]].

Section Witnesses.
Import Example.

Definition before : list action := [ask ["SET"; "k"; "10"; "PX"; "1"]; ask ["SET"; "l"; "abc"]; Sent]%string.

Lemma before_ok : session_ok before REDIS_SHARED_INTEGERS a_start.
Proof. apply session_okb_ok. vm_compute. reflexivity. Qed.

Lemma ready_before args : forallb (fun x => forallb (fun c => (0 <=? c) && (c <? 256)) x && (zlen x <=? STRING_MAX)) args = true -> zlen args < 2 ^ 16 ->
  exists N s, fits N s (length args) /\ abs s = AServer (a_dbs (snd (a_serve before a_start))) args (a_sd (snd (a_serve before a_start))).
Proof.
  intros Hf Hl. apply ready_after; [exact dbnum_ok|reflexivity|exact before_ok|vm_compute; reflexivity| |].
  - rewrite forallb_forall in Hf. apply Forall_forall. intros y Hy%list_elem_of_In%Hf%andb_true_iff. destruct Hy as [Hy Hy2%Z.leb_le]. split; [|done].
    rewrite forallb_forall in Hy. apply Forall_forall. intros c Hc%list_elem_of_In%Hy. unfold byte_ok. lia.
  - assert (all_keys (snd (a_serve before a_start)) = 2) as -> by (vm_compute; reflexivity). unfold REDIS_SHARED_INTEGERS. lia.
Qed.

Lemma string_commands_refine_witness : exists N s s', fits N s 3 /\ abs s = AServer (a_dbs (snd (a_serve before a_start))) (map str ["INCRBY"; "k"; "5"]%string) (a_sd (snd (a_serve before a_start))) /\
  string_proc CIncrby s = Some (tt, s') /\ abs s' = snd (string_spec CIncrby (abs s)).
Proof.
  destruct (ready_before (map str ["INCRBY"; "k"; "5"]%string)) as (N & s & F & E); [reflexivity|reflexivity|].
  destruct (string_commands_refine CIncrby N s F Logic.I) as (s' & E1 & E2 & _). exists N, s, s'. split; [exact F|]. split; [exact E|]. split; [exact E1|exact E2].
Defined.

Lemma key_commands_refine_witness : exists N s s', fits N s 3 /\ abs s = AServer (a_dbs (snd (a_serve before a_start))) (map str ["RENAME"; "k"; "l"]%string) (a_sd (snd (a_serve before a_start))) /\
  key_proc CRename s = Some (tt, s') /\ abs s' = snd (key_spec CRename (abs s)).
Proof.
  destruct (ready_before (map str ["RENAME"; "k"; "l"]%string)) as (N & s & F & E); [reflexivity|reflexivity|].
  destruct (key_commands_refine CRename N s F) as (s' & E1 & E2 & _). exists N, s, s'. split; [exact F|]. split; [exact E|]. split; [exact E1|exact E2].
Defined.

Lemma bit_commands_refine_witness : exists N s s', fits N s 5 /\ abs s = AServer (a_dbs (snd (a_serve before a_start))) (map str ["BITOP"; "OR"; "m"; "k"; "l"]%string) (a_sd (snd (a_serve before a_start))) /\
  bit_proc (fun _ => 3) CBitop s = Some (tt, s') /\ abs s' = snd (bit_spec CBitop (abs s)).
Proof.
  destruct (ready_before (map str ["BITOP"; "OR"; "m"; "k"; "l"]%string)) as (N & s & F & E); [reflexivity|reflexivity|].
  assert (fits N s 4) as F4 by (destruct F as (I & HN & Hl); split; [exact I|]; split; [exact HN|]; cbn in Hl; lia).
  destruct (bit_commands_refine (fun _ => 3) CBitop N s F4) as (s' & E1 & E2 & _). exists N, s, s'. split; [exact F|]. split; [exact E|]. split; [exact E1|exact E2].
Defined.

Lemma redisPopcount_counts_witness : redisPopcount 2 ([7; 7] ++ [1; 2; 255; 4; 8; 9] ++ [0]) 2 6 = Some (ones (bits [1; 2; 255; 4; 8; 9])) /\ ones (bits [1; 2; 255; 4; 8; 9]) = 14.
Proof.
  split; [|reflexivity]. apply (redisPopcount_counts 2 [7; 7] [1; 2; 255; 4; 8; 9] [0]); [literal_bytes|reflexivity].
Defined.

Lemma redisBitpos_first_witness : redisBitpos 5 ([9] ++ [0; 0; 0; 0; 32; 1] ++ [0]) 1 6 1 = Some (bitpos true [0; 0; 0; 0; 32; 1]) /\ bitpos true [0; 0; 0; 0; 32; 1] = 34.
Proof.
  split; [|reflexivity]. apply (redisBitpos_first 5 [9] [0; 0; 0; 0; 32; 1] [0] true). literal_bytes.
Defined.

Lemma bitop_buffer_combines_witness :
  bitop_buffer BITOP_XOR [([1; 2; 3; 0], 3); ([255; 1; 0], 2)] 2 3 [0; 0; 0; 0] = Some (combine BITOP_XOR [[1; 2; 3]; [255; 1]] 3 ++ [0]) /\
  combine BITOP_XOR [[1; 2; 3]; [255; 1]] 3 = [254; 3; 3].
Proof.
  split; [|reflexivity].
  apply (bitop_buffer_combines BITOP_XOR [([1; 2; 3; 0], 3); ([255; 1; 0], 2)] [[1; 2; 3]; [255; 1]] 2 3); [by vm_compute| |done|done|done|].
  - constructor; [|constructor; [|constructor]]; exists [0]; (split; [reflexivity|split; [reflexivity|literal_bytes]]).
  - constructor; [by vm_compute|constructor; [by vm_compute|constructor]].
Defined.

Lemma lookupCommand_correct_witness : exists commands, populateCommandTable = Some commands /\
  lookupCommand (Sds 3 0 [71; 101; 116; 0]) = Some (commands !! str "get").
Proof.
  apply (lookupCommand_correct (Sds 3 0 [71; 101; 116; 0]) [71; 101; 116]).
  - exists []. split_and!; reflexivity.
  - repeat constructor; discriminate.
Defined.

Lemma db0_ok : 0 <= 0 < dbnum.
Proof. by vm_compute. Qed.

(** The state in which GET k starts after these requests. *)
Definition get_k : aserver := AServer (a_dbs (snd (a_serve before a_start))) (map str ["GET"; "k"]%string) (a_sd (snd (a_serve before a_start))).

Lemma k_dead : live get_k 0 (str "k") (clock (ticks (a_sd get_k))) = false.
Proof. vm_compute. reflexivity. Qed.

Lemma k_there : a_dict (cur_db 0 get_k) !! str "k" = Some (VStr (str "10")).
Proof. vm_compute. reflexivity. Qed.

Lemma expired_keys_gone_witness : exists s key r s', lookupKeyRead 0 key s = Some (r, s') /\ a_dict (cur_db 0 (abs s)) !! str "k" = Some (VStr (str "10")) /\
  r = None /\ cur_db 0 (abs s') = remove (str "k") (cur_db 0 (abs s)).
Proof.
  destruct (ready_before (map str ["GET"; "k"]%string)) as (N & s & F & E); [reflexivity|reflexivity|].
  change (abs s = get_k) in E. destruct (fits_arg N s 2 1 F) as (key & x & Hin & _ & Hx & _); [clear; lia|].
  assert (x = str "k") as ->. { rewrite E in Hx. change (Some (str "k") = Some x) in Hx. congruence. }
  destruct F as (I & _).
  destruct (expired_keys_gone (SE := env) N [] (all_args s) s 1 key (str "k") 0 I Hin db0_ok eq_refl eq_refl eq_refl) as (r & s' & E1 & E2 & E3 & _).
  change (ticks (sd s)) with (ticks (a_sd (abs s))) in E2, E3. rewrite E in E2, E3. rewrite k_dead in E2, E3.
  exists s, key, r, s'. rewrite E. split; [exact E1|]. split; [exact k_there|]. split; [|exact E3].
  destruct r; [destruct E2|reflexivity].
Defined.

End Witnesses.
