(* ===== verification/Hll.v ===== *)
(** * hyperloglog.c: the registers of a HyperLogLog

    A HyperLogLog is a dynamic string: a header of 16 bytes, then 16384 registers, dense (6
    bits each) or sparse (runs of equal registers).  The estimate of the cardinality uses
    doubles and log() and is not modelled, nor are the commands on HyperLogLogs. *)

From Stdlib Require Import String.
From S2P Require Import Prelude Endian Sds.

Definition HLL_P : Z := 14.
Definition HLL_REGISTERS : Z := Z.shiftl 1 HLL_P.
Definition HLL_P_MASK : Z := HLL_REGISTERS - 1.
Definition HLL_BITS : Z := 6.
Definition HLL_REGISTER_MAX : Z := Z.shiftl 1 HLL_BITS - 1.
Definition HLL_HDR_SIZE : Z := 16.
Definition HLL_DENSE_SIZE : Z := HLL_HDR_SIZE + (HLL_REGISTERS * HLL_BITS + 7) / 8.
Definition HLL_DENSE : Z := 0.
Definition HLL_SPARSE : Z := 1.
Definition HLL_MAX_ENCODING : Z := 1.

(** The offsets of the fields of [struct hllhdr]; the magic is at 0, the registers follow
    the header. *)
Definition hdr_encoding : Z := 4.
Definition hdr_card : Z := 8.

Definition HLL_INVALIDATE_CACHE (b : list Z) : option (list Z) :=
  c ← rd b hdr_card; wr b hdr_card (Z.lor c (Z.shiftl 1 7)).
Definition HLL_VALID_CACHE (b : list Z) : option bool :=
  c ← rd b hdr_card; Some (Z.land c (Z.shiftl 1 7) =? 0).

(** ** Dense registers; [p] is the buffer and [base] the offset of the registers in it *)

Definition HLL_DENSE_GET_REGISTER (p : list Z) (base regnum : Z) : option Z :=
  let byte := Z.quot (regnum * HLL_BITS) 8 in
  let fb := Z.land (regnum * HLL_BITS) 7 in
  let fb8 := 8 - fb in
  b0 ← rd p (base + byte);
  b1 ← rd p (base + (byte + 1));
  Some (Z.land (Z.lor (Z.shiftr b0 fb) (Z.shiftl b1 fb8)) HLL_REGISTER_MAX).

Definition HLL_DENSE_SET_REGISTER (p : list Z) (base regnum val : Z) : option (list Z) :=
  let byte := Z.quot (regnum * HLL_BITS) 8 in
  let fb := Z.land (regnum * HLL_BITS) 7 in
  let fb8 := 8 - fb in
  x ← rd p (base + byte);
  let x := Z.land x (Z.lnot (Z.shiftl HLL_REGISTER_MAX fb)) in
  p ← wr p (base + byte) (uwrap 8 (Z.lor x (Z.shiftl val fb)));
  y ← rd p (base + (byte + 1));
  let y := Z.land y (Z.lnot (Z.shiftr HLL_REGISTER_MAX fb8)) in
  wr p (base + (byte + 1)) (uwrap 8 (Z.lor y (Z.shiftr val fb8))).

(** ** Sparse registers: the opcodes, from their first byte [c] *)

Definition HLL_SPARSE_XZERO_BIT : Z := 0x40.
Definition HLL_SPARSE_VAL_BIT : Z := 0x80.
Definition HLL_SPARSE_IS_ZERO (c : Z) : bool := Z.land c 0xc0 =? 0.
Definition HLL_SPARSE_IS_XZERO (c : Z) : bool := Z.land c 0xc0 =? HLL_SPARSE_XZERO_BIT.
Definition HLL_SPARSE_IS_VAL (c : Z) : bool := negb (Z.land c HLL_SPARSE_VAL_BIT =? 0).
Definition HLL_SPARSE_ZERO_LEN (c : Z) : Z := Z.land c 0x3f + 1.
Definition HLL_SPARSE_XZERO_LEN (b : list Z) (p : Z) : option Z :=
  c ← rd b p; d ← rd b (p + 1); Some (Z.lor (Z.shiftl (Z.land c 0x3f) 8) d + 1).
Definition HLL_SPARSE_VAL_VALUE (c : Z) : Z := Z.land (Z.shiftr c 2) 0x1f + 1.
Definition HLL_SPARSE_VAL_LEN (c : Z) : Z := Z.land c 3 + 1.
Definition HLL_SPARSE_VAL_MAX_VALUE : Z := 32.
Definition HLL_SPARSE_VAL_MAX_LEN : Z := 4.
Definition HLL_SPARSE_ZERO_MAX_LEN : Z := 64.
Definition HLL_SPARSE_XZERO_MAX_LEN : Z := 16384.
Definition HLL_SPARSE_VAL_SET (val len : Z) : list Z :=
  [uwrap 8 (Z.lor (Z.lor (Z.shiftl (val - 1) 2) (len - 1)) HLL_SPARSE_VAL_BIT)].
Definition HLL_SPARSE_ZERO_SET (len : Z) : list Z := [uwrap 8 (len - 1)].
Definition HLL_SPARSE_XZERO_SET (len : Z) : list Z :=
  let l := len - 1 in [uwrap 8 (Z.lor (Z.shiftr l 8) HLL_SPARSE_XZERO_BIT); Z.land l 0xff].

(** ** The hash of an element *)

Section Hash.
Context `{Host}.

Definition murmur64_m : Z := 0xc6a4a7935bd1e995.
Definition murmur64_r : Z := 47.

(** A word of the key at [p]. *)
Definition murmur64_word (b : list Z) (p : Z) : option Z :=
  x ← rdn b p 8;
  Some (if big_endian then
          match x with
          | [d0; d1; d2; d3; d4; d5; d6; d7] =>
              Z.lor (Z.lor (Z.lor (Z.lor (Z.lor (Z.lor (Z.lor d0 (Z.shiftl d1 8)) (Z.shiftl d2 16)) (Z.shiftl d3 24))
                (Z.shiftl d4 32)) (Z.shiftl d5 40)) (Z.shiftl d6 48)) (Z.shiftl d7 56)
          | _ => 0
          end
        else host_dec x).

Definition mul64 (a b : Z) : Z := uwrap 64 (a * b).

Fixpoint murmur64_loop (fuel : nat) (b : list Z) (data end_ h : Z) : option Z :=
  if data =? end_ then Some h else
  match fuel with
  | O => None
  | S f =>
      k ← murmur64_word b data;
      let k := mul64 k murmur64_m in
      let k := Z.lxor k (Z.shiftr k murmur64_r) in
      let k := mul64 k murmur64_m in
      let h := mul64 (Z.lxor h k) murmur64_m in
      murmur64_loop f b (data + 8) end_ h
  end.

(** The switch on the rest of the length, which falls through: byte [n - 1] first. *)
Fixpoint murmur64_tail (n : nat) (b : list Z) (data h : Z) : option Z :=
  match n with
  | O => Some h
  | S i =>
      x ← rd b (data + Z.of_nat i);
      let h := Z.lxor h (Z.shiftl x (8 * Z.of_nat i)) in
      murmur64_tail i b data h
  end.

Definition MurmurHash64A (key : list Z) (len seed : Z) : option Z :=
  let h := Z.lxor seed (mul64 (uwrap 64 len) murmur64_m) in
  let end_ := len - Z.land len 7 in
  h ← murmur64_loop (Z.to_nat len) key 0 end_ h;
  let rest := Z.land len 7 in
  h ← murmur64_tail (Z.to_nat rest) key end_ h;
  let h := if rest =? 0 then h else mul64 h murmur64_m in
  let h := Z.lxor h (Z.shiftr h murmur64_r) in
  let h := mul64 h murmur64_m in
  Some (Z.lxor h (Z.shiftr h murmur64_r)).

(** The loop of hllPatLen on the bits from [bit] on. *)
Fixpoint pat_loop (fuel : nat) (hash bit count : Z) : option Z :=
  if Z.land hash bit =? 0 then
    match fuel with
    | O => None
    | S f => pat_loop f hash (uwrap 64 (Z.shiftl bit 1)) (count + 1)
    end
  else Some count.

(** The length of the pattern and the index of the register. *)
Definition hllPatLen (ele : list Z) (elesize : Z) : option (Z * Z) :=
  hash ← MurmurHash64A ele (swrap 32 elesize) 0xadc83b19;
  let index := Z.land hash HLL_P_MASK in
  let hash := Z.lor hash (Z.shiftl 1 63) in
  count ← pat_loop 64 hash HLL_REGISTERS 1;
  Some (count, swrap 32 index).

Definition hllDenseAdd (p : list Z) (base : Z) (ele : list Z) (elesize : Z) : option (list Z * Z) :=
  '(count, index) ← hllPatLen ele elesize;
  let count := uwrap 8 count in
  oldcount ← HLL_DENSE_GET_REGISTER p base index;
  if oldcount <? count then p ← HLL_DENSE_SET_REGISTER p base index count; Some (p, 1)
  else Some (p, 0).

(** ** From sparse to dense *)

Fixpoint set_run (n : nat) (d : list Z) (idx regval : Z) : option (list Z * Z) :=
  match n with
  | O => Some (d, idx)
  | S n => d ← HLL_DENSE_SET_REGISTER d HLL_HDR_SIZE idx regval; set_run n d (swrap 32 (idx + 1)) regval
  end.

Fixpoint to_dense_loop (fuel : nat) (b : list Z) (p end_ : Z) (d : list Z) (idx : Z) : option (list Z * Z) :=
  if p <? end_ then
    match fuel with
    | O => None
    | S f =>
        c ← rd b p;
        if HLL_SPARSE_IS_ZERO c then to_dense_loop f b (p + 1) end_ d (swrap 32 (idx + HLL_SPARSE_ZERO_LEN c))
        else if HLL_SPARSE_IS_XZERO c then
          runlen ← HLL_SPARSE_XZERO_LEN b p; to_dense_loop f b (p + 2) end_ d (swrap 32 (idx + runlen))
        else
          '(d, idx) ← set_run (Z.to_nat (HLL_SPARSE_VAL_LEN c)) d idx (HLL_SPARSE_VAL_VALUE c);
          to_dense_loop f b (p + 1) end_ d idx
    end
  else Some (d, idx).

(** The string and whether the representation was valid (REDIS_OK). *)
Definition hllSparseToDense (s : sds) : option (sds * bool) :=
  enc ← rd (s_buf s) hdr_encoding;
  if enc =? HLL_DENSE then Some (s, true) else
  dense ← sdsnewlen None HLL_DENSE_SIZE;
  oldhdr ← rdn (s_buf s) 0 HLL_HDR_SIZE;
  d ← wrn (s_buf dense) 0 oldhdr;
  d ← wr d hdr_encoding HLL_DENSE;
  '(d, idx) ← to_dense_loop (Z.to_nat (sdslen s)) (s_buf s) HLL_HDR_SIZE (sdslen s) d 0;
  if negb (idx =? HLL_REGISTERS) then Some (s, false) else Some (Sds (s_len dense) (s_free dense) d, true).

(** ** Adding to the sparse representation *)

(** The registers and the bytes that the opcode at [p] covers. *)
Definition sparse_op (b : list Z) (p : Z) : option (Z * Z) :=
  c ← rd b p;
  if HLL_SPARSE_IS_ZERO c then Some (HLL_SPARSE_ZERO_LEN c, 1)
  else if HLL_SPARSE_IS_VAL c then Some (HLL_SPARSE_VAL_LEN c, 1)
  else span ← HLL_SPARSE_XZERO_LEN b p; Some (span, 2).

(** Step 1: the opcode that covers [index], the one before it, and the first register of
    the opcode. *)
Fixpoint locate (fuel : nat) (b : list Z) (end_ index p : Z) (prev : option Z) (first span : Z)
    : option (Z * option Z * Z * Z) :=
  if p <? end_ then
    match fuel with
    | O => None
    | S f =>
        '(span, oplen) ← sparse_op b p;
        if index <=? first + span - 1 then Some (p, prev, first, span)
        else locate f b end_ index (p + oplen) (Some p) (first + span) span
    end
  else Some (p, prev, first, span).

Definition zero_run (len : Z) : list Z :=
  if HLL_SPARSE_ZERO_MAX_LEN <? len then HLL_SPARSE_XZERO_SET len else HLL_SPARSE_ZERO_SET len.

(** The opcodes that replace one that covers [first] to [last]. *)
Definition split_zero (count index first last : Z) : list Z :=
  (if negb (index =? first) then zero_run (index - first) else []) ++ HLL_SPARSE_VAL_SET count 1 ++
  (if negb (index =? last) then zero_run (last - index) else []).

Definition split_val (curval count index first last : Z) : list Z :=
  (if negb (index =? first) then HLL_SPARSE_VAL_SET curval (index - first) else []) ++ HLL_SPARSE_VAL_SET count 1 ++
  (if negb (index =? last) then HLL_SPARSE_VAL_SET curval (last - index) else []).

(** Step 4: up to [scanlen] opcodes from [p] on. *)
Fixpoint merge_loop (scanlen : nat) (s : sds) (p end_ : Z) : option sds :=
  if p <? end_ then
    match scanlen with
    | O => Some s
    | S n =>
        c ← rd (s_buf s) p;
        if HLL_SPARSE_IS_XZERO c then merge_loop n s (p + 2) end_
        else if HLL_SPARSE_IS_ZERO c then merge_loop n s (p + 1) end_
        else if p + 1 <? end_ then
          d ← rd (s_buf s) (p + 1);
          let len := HLL_SPARSE_VAL_LEN c + HLL_SPARSE_VAL_LEN d in
          if HLL_SPARSE_IS_VAL d && (HLL_SPARSE_VAL_VALUE c =? HLL_SPARSE_VAL_VALUE d) && (len <=? HLL_SPARSE_VAL_MAX_LEN) then
            b ← wrn (s_buf s) (p + 1) (HLL_SPARSE_VAL_SET (HLL_SPARSE_VAL_VALUE c) len);
            b ← mmove b p (p + 1) (end_ - p);
            s ← sdsIncrLen (Sds (s_len s) (s_free s) b) (-1);
            merge_loop n s p (end_ - 1)
          else merge_loop n s (p + 1) end_
        else merge_loop n s (p + 1) end_
    end
  else Some s.

(** The label [updated]. *)
Definition updated (s : sds) (prev : option Z) (end_ : Z) : option (sds * Z) :=
  s ← merge_loop 5 s (match prev with Some p => p | None => HLL_HDR_SIZE end) end_;
  b ← HLL_INVALIDATE_CACHE (s_buf s);
  Some (Sds (s_len s) (s_free s) b, 1).

(** The label [promote]. *)
Definition promote (s : sds) (ele : list Z) (elesize : Z) : option (sds * Z) :=
  '(s, ok) ← hllSparseToDense s;
  if negb ok then Some (s, -1) else
  '(b, r) ← hllDenseAdd (s_buf s) HLL_HDR_SIZE ele elesize;
  _ ← cassert (r =? 1);
  Some (Sds (s_len s) (s_free s) b, r).

Section Sparse.
Context (junk : nat -> Z) (hll_sparse_max_bytes : Z).

(** Step 3: [seq] takes the place of the opcode of [oldlen] bytes at [p]. *)
Definition substitute_op (s : sds) (p oldlen : Z) (next : option Z) (end_ : Z) (seq : list Z) : option (sds * Z) :=
  let deltalen := zlen seq - oldlen in
  b ← match next with
      | Some next => if negb (deltalen =? 0) then mmove (s_buf s) (next + deltalen) next (end_ - next) else Some (s_buf s)
      | None => Some (s_buf s)
      end;
  s ← sdsIncrLen (Sds (s_len s) (s_free s) b) deltalen;
  b ← wrn (s_buf s) p seq;
  Some (Sds (s_len s) (s_free s) b, end_ + deltalen).

Definition set_op (s : sds) (p : Z) (seq : list Z) : option sds :=
  b ← wrn (s_buf s) p seq; Some (Sds (s_len s) (s_free s) b).

(** The string and the result: 1, 0, or -1 when the representation is invalid. *)
Definition hllSparseAdd (s : sds) (ele : list Z) (elesize : Z) : option (sds * Z) :=
  '(count, index) ← hllPatLen ele elesize;
  let count := uwrap 8 count in
  if HLL_SPARSE_VAL_MAX_VALUE <? count then promote s ele elesize else
  let s := sdsMakeRoomFor junk s 3 in
  let sparse := HLL_HDR_SIZE in
  let end_ := sparse + sdslen s - HLL_HDR_SIZE in
  '(p, prev, first, span) ← locate (Z.to_nat (sdslen s)) (s_buf s) end_ index sparse None 0 0;
  if span =? 0 then Some (s, -1) else
  c ← rd (s_buf s) p;
  let next := if HLL_SPARSE_IS_XZERO c then p + 2 else p + 1 in
  let next := if end_ <=? next then None else Some next in
  let is_zero := HLL_SPARSE_IS_ZERO c in
  let is_xzero := HLL_SPARSE_IS_XZERO c in
  let is_val := negb is_zero && negb is_xzero in
  runlen ← (if is_zero then Some (HLL_SPARSE_ZERO_LEN c)
            else if is_xzero then HLL_SPARSE_XZERO_LEN (s_buf s) p
            else Some (HLL_SPARSE_VAL_LEN c));
  if is_val && (count <=? HLL_SPARSE_VAL_VALUE c) then Some (s, 0)
  else if (is_val || is_zero) && (runlen =? 1) then
    s ← set_op s p (HLL_SPARSE_VAL_SET count 1); updated s prev end_
  else
    let last := swrap 32 (first + span - 1) in
    let seq := if is_zero || is_xzero then split_zero count index first last
               else split_val (HLL_SPARSE_VAL_VALUE c) count index first last in
    _ ← (if zlen seq <=? 5 then Some tt else None);
    let oldlen := if is_xzero then 2 else 1 in
    let deltalen := zlen seq - oldlen in
    if (0 <? deltalen) && (hll_sparse_max_bytes <? uwrap 64 (sdslen s + deltalen)) then promote s ele elesize
    else
      '(s, end_) ← substitute_op s p oldlen next end_ seq;
      updated s prev end_.

Definition hllAdd (s : sds) (ele : list Z) (elesize : Z) : option (sds * Z) :=
  enc ← rd (s_buf s) hdr_encoding;
  if enc =? HLL_DENSE then
    '(b, r) ← hllDenseAdd (s_buf s) HLL_HDR_SIZE ele elesize; Some (Sds (s_len s) (s_free s) b, r)
  else if enc =? HLL_SPARSE then hllSparseAdd s ele elesize
  else Some (s, -1).

End Sparse.

(** ** Merging *)

Definition max_byte (max : list Z) (i val : Z) : option (list Z) :=
  m ← rd max i; if m <? val then wr max i (uwrap 8 val) else Some max.

Fixpoint merge_dense (n : nat) (b : list Z) (max : list Z) (i : Z) : option (list Z) :=
  match n with
  | O => Some max
  | S n =>
      val ← HLL_DENSE_GET_REGISTER b HLL_HDR_SIZE i;
      max ← max_byte max i val;
      merge_dense n b max (i + 1)
  end.

Fixpoint merge_run (n : nat) (max : list Z) (i regval : Z) : option (list Z * Z) :=
  match n with
  | O => Some (max, i)
  | S n => max ← max_byte max i regval; merge_run n max (swrap 32 (i + 1)) regval
  end.

Fixpoint merge_sparse (fuel : nat) (b : list Z) (p end_ : Z) (max : list Z) (i : Z) : option (list Z * Z) :=
  if p <? end_ then
    match fuel with
    | O => None
    | S f =>
        c ← rd b p;
        if HLL_SPARSE_IS_ZERO c then merge_sparse f b (p + 1) end_ max (swrap 32 (i + HLL_SPARSE_ZERO_LEN c))
        else if HLL_SPARSE_IS_XZERO c then
          runlen ← HLL_SPARSE_XZERO_LEN b p; merge_sparse f b (p + 2) end_ max (swrap 32 (i + runlen))
        else
          '(max, i) ← merge_run (Z.to_nat (HLL_SPARSE_VAL_LEN c)) max i (HLL_SPARSE_VAL_VALUE c);
          merge_sparse f b (p + 1) end_ max i
    end
  else Some (max, i).

(** The array of maxima and whether the HyperLogLog was valid (REDIS_OK). *)
Definition hllMerge (max : list Z) (hll : sds) : option (list Z * bool) :=
  enc ← rd (s_buf hll) hdr_encoding;
  if enc =? HLL_DENSE then max ← merge_dense (Z.to_nat HLL_REGISTERS) (s_buf hll) max 0; Some (max, true)
  else
    '(max, i) ← merge_sparse (Z.to_nat (sdslen hll)) (s_buf hll) HLL_HDR_SIZE (sdslen hll) max 0;
    Some (max, i =? HLL_REGISTERS).

End Hash.

(** ** A new HyperLogLog *)

Fixpoint fill_xzero (fuel : nat) (b : list Z) (p aux : Z) : option (list Z * Z) :=
  if aux =? 0 then Some (b, p) else
  match fuel with
  | O => None
  | S f =>
      let xzero := if aux <? HLL_SPARSE_XZERO_MAX_LEN then aux else HLL_SPARSE_XZERO_MAX_LEN in
      b ← wrn b p (HLL_SPARSE_XZERO_SET xzero);
      fill_xzero f b (p + 2) (aux - xzero)
  end.

(** The string of the object that createHLLObject makes. *)
Definition new_hll : option sds :=
  let sparselen := HLL_HDR_SIZE +
    ((HLL_REGISTERS + (HLL_SPARSE_XZERO_MAX_LEN - 1)) / HLL_SPARSE_XZERO_MAX_LEN) * 2 in
  s ← sdsnewlen None sparselen;
  '(b, p) ← fill_xzero (Z.to_nat HLL_REGISTERS) (s_buf s) HLL_HDR_SIZE HLL_REGISTERS;
  _ ← cassert (p =? sparselen);
  b ← wrn b 0 (str "HYLL");
  b ← wr b hdr_encoding HLL_SPARSE;
  Some (Sds (s_len s) (s_free s) b).
