(* ===== verification/HllFacts.v ===== *)
(** * Registers as lists of numbers, and the bits and opcodes that hold them *)

From Stdlib Require Import String.
From S2P Require Import Prelude Endian Sds Hll.
Import SdsSpec SdsFacts EndianFacts.

(** ** Specification *)

Module HllSpec.

(** The digits of a number in base [2 ^ w], least significant first. *)
Fixpoint digits (w : Z) (l : list Z) : Z :=
  match l with [] => 0 | x :: l => x + 2 ^ w * digits w l end.

Definition reg_ok (r : Z) : Prop := 0 <= r <= HLL_REGISTER_MAX.

(** The hash of an element, on lists: MurmurHash2 by words in little-endian order. *)
Definition mix (h k : Z) : Z :=
  let k := mul64 k murmur64_m in
  let k := mul64 (Z.lxor k (Z.shiftr k murmur64_r)) murmur64_m in
  mul64 (Z.lxor h k) murmur64_m.

Fixpoint mix_words (n : nat) (x : list Z) (h : Z) : Z :=
  match n with O => h | S n => mix_words n (drop 8 x) (mix h (le_dec (take 8 x))) end.

Definition finish (h : Z) : Z :=
  let h := mul64 (Z.lxor h (Z.shiftr h murmur64_r)) murmur64_m in Z.lxor h (Z.shiftr h murmur64_r).

Definition hash (x : list Z) : Z :=
  let n := (length x / 8)%nat in
  let h := mix_words n x (Z.lxor 0xadc83b19 (mul64 (zlen x) murmur64_m)) in
  match drop (8 * n) x with [] => finish h | t => finish (mul64 (Z.lxor h (le_dec t)) murmur64_m) end.

(** The zeroes from bit [k] on, at most [n]. *)
Fixpoint zeroes (n : nat) (h k : Z) : Z :=
  match n with O => 0 | S n => if Z.testbit h k then 0 else 1 + zeroes n h (k + 1) end.

(** The register of an element, and the length of the pattern of zeroes and a one of its
    hash. *)
Definition index (x : list Z) : nat := Z.to_nat (hash x mod 2 ^ 14).
Definition rank (x : list Z) : Z := 1 + zeroes 49 (hash x) 14.

(** Adding an element, and merging. *)
Definition raise (R : list Z) (i : nat) (r : Z) : list Z := <[i := Z.max (default 0 (R !! i)) r]> R.
Definition add (R : list Z) (x : list Z) : list Z := raise R (index x) (rank x).
Definition union (R Q : list Z) : list Z := zip_with Z.max R Q.
Definition empty : list Z := replicate (Z.to_nat HLL_REGISTERS) 0.

(** The registers of a set of elements, and what one of them is. *)
Definition registers (l : list (list Z)) : list Z := fold_left add l empty.
Definition longest (l : list (list Z)) (i : nat) : Z :=
  foldr Z.max 0 (map rank (List.filter (fun x => Nat.eqb (index x) i) l)).

(** Runs of registers, and their bytes. *)
Inductive op := OZero (n : Z) | OXzero (n : Z) | OVal (v n : Z).

Definition op_ok (o : op) : Prop :=
  match o with
  | OZero n => 1 <= n <= 64
  | OXzero n => 1 <= n <= 16384
  | OVal v n => 1 <= v <= 32 /\ 1 <= n <= 4
  end.

Definition span (o : op) : Z := match o with OZero n | OXzero n | OVal _ n => n end.

Definition regs_op (o : op) : list Z :=
  replicate (Z.to_nat (span o)) (match o with OVal v _ => v | _ => 0 end).
Definition regs (l : list op) : list Z := concat (map regs_op l).

Definition enc_op (o : op) : list Z :=
  match o with
  | OZero n => [n - 1]
  | OXzero n => [64 + (n - 1) / 256; (n - 1) mod 256]
  | OVal v n => [128 + 4 * (v - 1) + (n - 1)]
  end.
Definition enc (l : list op) : list Z := concat (map enc_op l).

(** A header with the magic and the encoding [e]. *)
Definition header (e : Z) (hdr : list Z) : Prop := zlen hdr = 16 /\ take 5 hdr = str "HYLL" ++ [e].

(** The bytes [x] are a HyperLogLog with the registers [R]. *)
Inductive holds : list Z -> list Z -> Prop :=
  | HDense hdr body R : header HLL_DENSE hdr -> bytes_ok body -> zlen body = 12288 ->
      Forall reg_ok R -> zlen R = 16384 -> digits 8 body = digits 6 R -> holds (hdr ++ body) R
  | HSparse hdr l : header HLL_SPARSE hdr -> Forall op_ok l -> zlen (regs l) = 16384 ->
      holds (hdr ++ enc l) (regs l).

End HllSpec.
Import HllSpec.

Module HllFacts.

(** ** Digits and bits *)

Lemma digits_testbit w l : 0 < w -> Forall (fun x => 0 <= x < 2 ^ w) l -> forall n, 0 <= n ->
  Z.testbit (digits w l) n = match l !! Z.to_nat (n / w) with Some c => Z.testbit c (n mod w) | None => false end.
Proof.
  intros Hw. induction 1 as [|x l Hx Hl IH]; intros n Hn; cbn [digits]; [by rewrite Z.testbit_0_l|].
  assert (x + 2 ^ w * digits w l = Z.lor x (Z.shiftl (digits w l) w)) as ->.
  { rewrite Z.shiftl_mul_pow2 by lia. rewrite <- Z.add_lor_land. rewrite Z.mul_comm.
    replace (Z.land x (digits w l * 2 ^ w)) with 0; [lia|]. symmetry. apply Z.bits_inj'. intros k Hk.
    rewrite Z.land_spec, Z.bits_0. destruct (Z.ltb_spec k w) as [E|E].
    - by rewrite Z.mul_pow2_bits_low, andb_false_r by lia.
    - by rewrite (testbit_small x w k), andb_false_l by lia. }
  rewrite Z.lor_spec, Z.shiftl_spec by done. destruct (Z.ltb_spec n w) as [E|E].
  - rewrite Z.div_small, Z.mod_small by lia. change (Z.to_nat 0) with 0%nat. cbn [lookup list_lookup].
    by rewrite (Z.testbit_neg_r _ (n - w)), orb_false_r by lia.
  - assert (Z.testbit x n = false) as ->.
    { by apply (testbit_small x w). }
    cbn [orb]. rewrite IH by lia. assert (n / w = (n - w) / w + 1 /\ n mod w = (n - w) mod w) as [-> ->].
    { replace n with (n - w + 1 * w) at 1 3 by lia. by rewrite Z.div_add, Z_mod_plus_full by lia. }
    pose proof (Z.div_pos (n - w) w ltac:(lia) Hw). rewrite Z2Nat.inj_add by lia. change (Z.to_nat 1) with 1%nat.
    by rewrite Nat.add_1_r.
Qed.

Lemma digits_le l : digits 8 l = le_dec l.
Proof. induction l as [|x l IH]; [done|]. cbn [digits le_dec]. by rewrite IH. Qed.

Lemma digits_app_0 w l : digits w (l ++ [0]) = digits w l.
Proof. induction l as [|x l IH]; cbn [digits app]; [lia|]. by rewrite IH. Qed.

(** A list is determined by its digits. *)
Lemma digits_inj w l k : 0 < w -> Forall (fun x => 0 <= x < 2 ^ w) l -> Forall (fun x => 0 <= x < 2 ^ w) k ->
  length l = length k -> digits w l = digits w k -> l = k.
Proof.
  intros Hw Hl. revert k. induction Hl as [|x l Hx Hl IH]; intros [|y k] Hk Hlen E; try done.
  apply Forall_cons in Hk as [Hy Hk]. cbn [digits] in E.
  assert (x = y /\ digits w l = digits w k) as [-> E'].
  { assert (x = y) as ->.
    { apply (f_equal (fun z => z mod 2 ^ w)) in E. rewrite !(Z.mul_comm (2 ^ w)), !Z_mod_plus_full, !Z.mod_small in E by lia. done. }
    split; [done|]. nia. }
  f_equal. apply IH; auto.
Qed.

Lemma byte_digit l : bytes_ok l -> Forall (fun x => 0 <= x < 2 ^ 8) l.
Proof. intros. by apply Forall_impl with byte_ok. Qed.
Lemma reg_pow r : reg_ok r -> 0 <= r < 2 ^ 6.
Proof. unfold reg_ok. change HLL_REGISTER_MAX with 63. lia. Qed.
Lemma reg_digit l : Forall reg_ok l -> Forall (fun x => 0 <= x < 2 ^ 6) l.
Proof. intros H. eapply Forall_impl; [exact H|]. unfold reg_ok. change HLL_REGISTER_MAX with 63. intros. lia. Qed.

(** Bit [j] of register [i] among the bits of the bytes. *)
Lemma body_bit body R i j r : bytes_ok body -> Forall reg_ok R -> digits 8 body = digits 6 R ->
  R !! i = Some r -> 0 <= j < 6 ->
  Z.testbit r j = match body !! Z.to_nat ((6 * Z.of_nat i + j) / 8) with
                  | Some c => Z.testbit c ((6 * Z.of_nat i + j) mod 8) | None => false end.
Proof.
  intros Hb HR E Hi Hj. rewrite <- (digits_testbit 8 body) by (done || lia || by apply byte_digit). rewrite E.
  rewrite (digits_testbit 6 R) by (lia || by apply reg_digit).
  replace (6 * Z.of_nat i + j) with (j + Z.of_nat i * 6) by lia. rewrite Z.div_add, Z_mod_plus_full, Z.div_small, Z.mod_small by lia.
  by rewrite Z.add_0_l, Nat2Z.id, Hi.
Qed.


(** ** Reading and writing one register *)

(** The bytes of the registers with the terminator of the string: a register may span two
    bytes, and the second byte of the last one is the terminator. *)
Definition window (W R : list Z) : Prop :=
  bytes_ok W /\ zlen W = 12289 /\ Forall reg_ok R /\ zlen R = 16384 /\ digits 8 W = digits 6 R.

Lemma rd_window {A} (a W rest : list A) k : 0 <= k < zlen W -> rd (a ++ W ++ rest) (zlen a + k) = W !! Z.to_nat k.
Proof. intros Hk. rewrite rd_app_plus, rd_app_l by lia. unfold rd. by zdec. Qed.

Lemma wr_window {A} (a W rest : list A) k x : 0 <= k < zlen W ->
  wr (a ++ W ++ rest) (zlen a + k) x = Some (a ++ <[Z.to_nat k := x]> W ++ rest).
Proof.
  intros Hk. unfold wr. pose proof (zlen_nonneg a). pose proof (zlen_nonneg rest). zlen_simpl. zdec. f_equal.
  replace (Z.to_nat (zlen a + k)) with (length a + Z.to_nat k)%nat by (unfold zlen; lia).
  rewrite insert_app_r. f_equal. apply insert_app_l. unfold zlen in *. lia.
Qed.

Lemma register_place i : 0 <= i < 16384 ->
  Z.quot (i * HLL_BITS) 8 = 6 * i / 8 /\ Z.land (i * HLL_BITS) 7 = 6 * i mod 8 /\
  0 <= 6 * i / 8 <= 12287 /\ 6 * i = 8 * (6 * i / 8) + 6 * i mod 8 /\ 0 <= 6 * i mod 8 <= 6.
Proof.
  intros Hi. change HLL_BITS with 6. rewrite (Z.mul_comm i 6). change 7 with (Z.ones 3). rewrite Z.land_ones, Z.quot_div_nonneg by lia.
  change (2 ^ 3) with 8. pose proof (Z.div_mod (6 * i) 8 ltac:(lia)). pose proof (Z.mod_pos_bound (6 * i) 8 ltac:(lia)).
  assert (6 * i mod 8 <> 7) by (intros E; assert (exists q, 6 * i = 8 * q + 7) as [q ?] by (exists (6 * i / 8); lia); lia).
  lia.
Qed.

Lemma testbit_63 s : Z.testbit 63 s = (0 <=? s) && (s <? 6).
Proof. change 63 with (Z.ones 6). destruct (Z.ltb_spec s 0); [by rewrite Z.testbit_neg_r by done; zdec|]. rewrite Z.testbit_ones by lia. done. Qed.

Lemma byte_bit c t : byte_ok c -> 8 <= t -> Z.testbit c t = false.
Proof. intros Hc Ht. by apply (testbit_small c 8). Qed.

Lemma u8_bit z t : 0 <= t < 8 -> Z.testbit (uwrap 8 z) t = Z.testbit z t.
Proof. intros. apply Z.mod_pow2_bits_low. lia. Qed.

Section Register.
Context (W R a rest : list Z) (H : window W R) (i : Z) (Hi : 0 <= i < 16384).

Local Lemma window_bit n : 0 <= n -> 
  match W !! Z.to_nat (n / 8) with Some c => Z.testbit c (n mod 8) | None => false end =
  match R !! Z.to_nat (n / 6) with Some c => Z.testbit c (n mod 6) | None => false end.
Proof.
  intros Hn. destruct H as (Hb & _ & HR & _ & E). rewrite <- (digits_testbit 8 W), <- (digits_testbit 6 R); [by rewrite E|lia|by apply reg_digit|done|lia|by apply byte_digit|done].
Qed.

Lemma window_bytes : exists x y, W !! Z.to_nat (6 * i / 8) = Some x /\ W !! Z.to_nat (6 * i / 8 + 1) = Some y /\ byte_ok x /\ byte_ok y.
Proof.
  destruct H as (Hb & Hl & _). destruct (register_place i Hi) as (_ & _ & Hk & _).
  destruct (lookup_lt_is_Some_2 W (Z.to_nat (6 * i / 8))) as [x Hx]; [unfold zlen in Hl; lia|].
  destruct (lookup_lt_is_Some_2 W (Z.to_nat (6 * i / 8 + 1))) as [y Hy]; [unfold zlen in Hl; lia|].
  exists x, y. split_and!; [done|done| |]; rewrite Forall_lookup in Hb; eauto.
Qed.

Lemma get_register_ok : HLL_DENSE_GET_REGISTER (a ++ W ++ rest) (zlen a) i = R !! Z.to_nat i.
Proof.
  unfold HLL_DENSE_GET_REGISTER. destruct (register_place i Hi) as (-> & -> & Hk & Ek & Hfb). destruct window_bytes as (x & y & Ex & Ey & Hx & Hy).
  destruct H as (Hb & Hl & HR & HlR & E).
  rewrite !(rd_window a W rest) by lia. rewrite Ex, Ey. cbn [mbind option_bind].
  destruct (lookup_lt_is_Some_2 R (Z.to_nat i)) as [r Hr]; [unfold zlen in HlR; lia|]. rewrite Hr. f_equal.
  assert (reg_ok r) as Hr63 by (rewrite Forall_lookup in HR; eauto).
  apply Z.bits_inj'. intros j Hj. change HLL_REGISTER_MAX with 63.
  rewrite Z.land_spec, testbit_63, Z.lor_spec, Z.shiftr_spec, Z.shiftl_spec by done.
  destruct (Z.ltb_spec j 6); zdec; rewrite ?andb_true_r, ?andb_false_r; [|symmetry; apply (testbit_small r 6); [by apply reg_pow|done]].
  rewrite (body_bit W R (Z.to_nat i) j r) by (done || lia). rewrite Z2Nat.id by lia.
  assert ((6 * i + j) / 8 = 6 * i / 8 + (6 * i mod 8 + j) / 8 /\ (6 * i + j) mod 8 = (6 * i mod 8 + j) mod 8) as [-> ->].
  { replace (6 * i + j) with ((6 * i mod 8 + j) + (6 * i / 8) * 8) by lia. rewrite Z.div_add, Z_mod_plus_full by lia. split; [lia|done]. }
  destruct (Z.ltb_spec (6 * i mod 8 + j) 8).
  - rewrite (Z.div_small (6 * i mod 8 + j)), Z.add_0_r, Ex, (Z.mod_small (6 * i mod 8 + j)) by lia. rewrite (Z.testbit_neg_r y), orb_false_r by lia. f_equal. lia.
  - replace ((6 * i mod 8 + j) / 8) with 1 by (apply (Z.div_unique _ _ _ (6 * i mod 8 + j - 8)); lia).
    replace ((6 * i mod 8 + j) mod 8) with (6 * i mod 8 + j - 8) by (apply (Z.mod_unique _ _ 1); lia).
    rewrite Ey, (byte_bit x) by (done || lia). cbn [orb]. f_equal. lia.
Qed.

Lemma set_register_ok v : reg_ok v -> exists W', HLL_DENSE_SET_REGISTER (a ++ W ++ rest) (zlen a) i v = Some (a ++ W' ++ rest) /\
  window W' (<[Z.to_nat i := v]> R).
Proof.
  intros Hv. pose proof window_bit as HW.
  destruct (register_place i Hi) as (Eq & Ef & Hk & Ek & Hfb). destruct window_bytes as (x & y & Ex & Ey & Hx & Hy).
  unfold HLL_DENSE_SET_REGISTER. rewrite Eq, Ef. destruct H as (Hb & Hl & HR & HlR & E).
  rewrite (rd_window a W rest) by lia. rewrite Ex. cbn [mbind option_bind]. rewrite wr_window by lia. cbn [mbind option_bind].
  rewrite rd_window by (rewrite zlen_insert; lia). rewrite list_lookup_insert_ne by lia. rewrite Ey. cbn [mbind option_bind].
  rewrite wr_window by (rewrite zlen_insert; lia). eexists. split; [reflexivity|].
  set (x' := uwrap 8 (Z.lor (Z.land x _) _)). set (y' := uwrap 8 (Z.lor (Z.land y _) _)).
  assert (Forall reg_ok (<[Z.to_nat i := v]> R)) as HR' by (by apply Forall_insert).
  assert (bytes_ok (<[Z.to_nat (6 * i / 8 + 1) := y']> (<[Z.to_nat (6 * i / 8) := x']> W))) as Hb'.
  { apply Forall_insert; [apply Forall_insert; [done|]|]; apply (uwrap_range 8); lia. }
  split_and!; [done|by rewrite !zlen_insert|done|by rewrite zlen_insert|]. apply Z.bits_inj'. intros n Hn.
  rewrite (digits_testbit 8), (digits_testbit 6); [|lia|by apply reg_digit|done|lia|by apply byte_digit|done].
  specialize (HW n Hn). pose proof (Z.div_mod n 8 ltac:(lia)) as D8. pose proof (Z.mod_pos_bound n 8 ltac:(lia)).
  pose proof (Z.div_mod n 6 ltac:(lia)) as D6. pose proof (Z.mod_pos_bound n 6 ltac:(lia)).
  pose proof (Z.div_pos n 8 Hn ltac:(lia)). pose proof (Z.div_pos n 6 Hn ltac:(lia)).
  assert (n / 6 = i -> Z.testbit v (n mod 6) = match (<[Z.to_nat i := v]> R) !! Z.to_nat (n / 6) with Some c => Z.testbit c (n mod 6) | None => false end) as Hin.
  { intros ->. by rewrite list_lookup_insert_eq by (unfold zlen in HlR; lia). }
  assert (n / 6 <> i -> match R !! Z.to_nat (n / 6) with Some c => Z.testbit c (n mod 6) | None => false end =
    match (<[Z.to_nat i := v]> R) !! Z.to_nat (n / 6) with Some c => Z.testbit c (n mod 6) | None => false end) as Hout.
  { intros D. rewrite list_lookup_insert_ne by lia. done. }
  assert (forall s, s < 0 \/ 6 <= s -> Z.testbit v s = false) as Hv6.
  { intros s [?|?]; [by apply Z.testbit_neg_r|apply (testbit_small v 6); [by apply reg_pow|done]]. }
  destruct (Z.eq_dec (n / 8) (6 * i / 8 + 1)) as [E1|E1].
  - rewrite E1 in HW |- *. rewrite Ey in HW. rewrite list_lookup_insert_eq by (rewrite length_insert; unfold zlen in Hl; lia).
    unfold y'. rewrite u8_bit, Z.lor_spec, Z.land_spec, Z.lnot_spec, !Z.shiftr_spec by lia. change HLL_REGISTER_MAX with 63. rewrite testbit_63, HW.
    destruct (Z.eq_dec (n / 6) i) as [D|D].
    + rewrite <- Hin by done. zdec. rewrite andb_false_r. cbn [orb]. f_equal. lia.
    + rewrite <- Hout by done. rewrite Hv6 by lia. rewrite orb_false_r. zdec. by rewrite andb_true_r.
  - rewrite list_lookup_insert_ne by lia. destruct (Z.eq_dec (n / 8) (6 * i / 8)) as [E2|E2].
    + rewrite E2 in HW |- *. rewrite Ex in HW. rewrite list_lookup_insert_eq by (unfold zlen in Hl; lia).
      unfold x'. rewrite u8_bit, Z.lor_spec, Z.land_spec, Z.lnot_spec, !Z.shiftl_spec by lia. change HLL_REGISTER_MAX with 63. rewrite testbit_63, HW.
      destruct (Z.eq_dec (n / 6) i) as [D|D].
      * rewrite <- Hin by done. zdec. rewrite andb_false_r. cbn [orb]. f_equal. lia.
      * rewrite <- Hout by done. rewrite Hv6 by lia. rewrite orb_false_r.
        destruct (Z.leb_spec 0 (n mod 8 - 6 * i mod 8)); [|by rewrite andb_true_r]. zdec. by rewrite andb_true_r.
    + rewrite list_lookup_insert_ne by lia. rewrite HW. apply Hout. lia.
Qed.

End Register.

(** ** Opcodes *)

Lemma all_below (P : Z -> bool) n : forallb P (map Z.of_nat (seq 0 n)) = true -> forall c, 0 <= c < Z.of_nat n -> P c = true.
Proof.
  intros HP c Hc. rewrite forallb_forall in HP. apply HP, in_map_iff. exists (Z.to_nat c). split; [lia|]. apply in_seq. lia.
Qed.

Definition is_zero (o : op) : bool := match o with OZero _ => true | _ => false end.
Definition is_xzero (o : op) : bool := match o with OXzero _ => true | _ => false end.
Definition is_val (o : op) : bool := match o with OVal _ _ => true | _ => false end.
Definition value (o : op) : Z := match o with OVal v _ => v | _ => 0 end.

(** What the macros say of the first byte of an opcode. *)
Definition head_ok (o : op) (c : Z) : Prop :=
  HLL_SPARSE_IS_ZERO c = is_zero o /\ HLL_SPARSE_IS_XZERO c = is_xzero o /\ HLL_SPARSE_IS_VAL c = is_val o /\
  match o with
  | OZero n => HLL_SPARSE_ZERO_LEN c = n
  | OXzero _ => True
  | OVal v n => HLL_SPARSE_VAL_VALUE c = v /\ HLL_SPARSE_VAL_LEN c = n
  end.

Definition headb (c : Z) : bool :=
  if c <? 64 then
    HLL_SPARSE_IS_ZERO c && negb (HLL_SPARSE_IS_XZERO c) && negb (HLL_SPARSE_IS_VAL c) && (HLL_SPARSE_ZERO_LEN c =? c + 1)
  else if c <? 128 then
    negb (HLL_SPARSE_IS_ZERO c) && HLL_SPARSE_IS_XZERO c && negb (HLL_SPARSE_IS_VAL c) && (Z.land c 0x3f =? c - 64)
  else
    negb (HLL_SPARSE_IS_ZERO c) && negb (HLL_SPARSE_IS_XZERO c) && HLL_SPARSE_IS_VAL c &&
    (HLL_SPARSE_VAL_VALUE c =? (c - 128) / 4 + 1) && (HLL_SPARSE_VAL_LEN c =? (c - 128) mod 4 + 1).

Lemma headb_ok c : 0 <= c < 256 -> headb c = true.
Proof. apply (all_below headb 256). vm_compute. reflexivity. Qed.

Lemma op_head o : op_ok o -> exists c t, enc_op o = c :: t /\ head_ok o c /\ 0 <= c < 256 /\ zlen t = (if is_xzero o then 1 else 0).
Proof.
  destruct o as [n|n|v n]; cbn [op_ok enc_op]; intros Hn.
  - exists (n - 1), []. split_and!; try done; try lia. pose proof (headb_ok (n - 1) ltac:(lia)) as E. unfold headb in E.
    rewrite (proj2 (Z.ltb_lt _ _)) in E by lia. unfold head_ok. cbn. bool_to_prop. split_and!; try done. lia.
  - assert (0 <= (n - 1) / 256 < 64) by (split; [apply Z.div_pos; lia|apply Z.div_lt_upper_bound; lia]).
    exists (64 + (n - 1) / 256), [(n - 1) mod 256]. split_and!; try done; try lia.
    pose proof (headb_ok (64 + (n - 1) / 256) ltac:(lia)) as E. unfold headb in E.
    rewrite (proj2 (Z.ltb_ge _ _)), (proj2 (Z.ltb_lt _ _)) in E by lia. unfold head_ok. cbn. bool_to_prop. done.
  - exists (128 + 4 * (v - 1) + (n - 1)), []. split_and!; try done; try lia.
    pose proof (headb_ok (128 + 4 * (v - 1) + (n - 1)) ltac:(lia)) as E. unfold headb in E.
    rewrite !(proj2 (Z.ltb_ge _ _)) in E by lia. unfold head_ok. cbn. bool_to_prop.
    replace (128 + 4 * (v - 1) + (n - 1) - 128) with (n - 1 + (v - 1) * 4) in * by lia. rewrite Z.div_add, Z_mod_plus_full, Z.div_small, Z.mod_small in * by lia.
    split_and!; try done; lia.
Qed.

Lemma xzero_len pre n rest : op_ok (OXzero n) ->
  HLL_SPARSE_XZERO_LEN (pre ++ enc_op (OXzero n) ++ rest) (zlen pre) = Some n.
Proof.
  intros Hn. cbn [op_ok] in Hn. unfold HLL_SPARSE_XZERO_LEN. cbn [enc_op app]. rewrite rd_mid, rd_mid1. cbn [mbind option_bind].
  assert (0 <= (n - 1) / 256 < 64) as Hq by (split; [apply Z.div_pos; lia|apply Z.div_lt_upper_bound; lia]).
  pose proof (headb_ok (64 + (n - 1) / 256) ltac:(lia)) as E. unfold headb in E.
  rewrite (proj2 (Z.ltb_ge _ _)), (proj2 (Z.ltb_lt _ _)) in E by lia. bool_to_prop.
  replace (Z.land (64 + (n - 1) / 256) 63) with ((n - 1) / 256) by lia. f_equal.
  assert (Z.lor (Z.shiftl ((n - 1) / 256) 8) ((n - 1) mod 256) = n - 1) as ->; [|lia].
  rewrite lor_shift_add by (lia || (apply Z.mod_pos_bound; lia)). change (2 ^ 8) with 256. pose proof (Z.div_mod (n - 1) 256 ltac:(lia)). lia.
Qed.

Lemma zero_set n : 1 <= n <= 64 -> HLL_SPARSE_ZERO_SET n = enc_op (OZero n).
Proof. intros. unfold HLL_SPARSE_ZERO_SET. by rewrite u8_small by lia. Qed.

Lemma val_set v n : 1 <= v <= 32 -> 1 <= n <= 4 -> HLL_SPARSE_VAL_SET v n = enc_op (OVal v n).
Proof.
  intros Hv Hn. unfold HLL_SPARSE_VAL_SET. cbn [enc_op]. f_equal.
  pose proof (all_below (fun v => forallb (fun n => uwrap 8 (Z.lor (Z.lor (Z.shiftl v 2) n) HLL_SPARSE_VAL_BIT) =? 128 + 4 * v + n) (map Z.of_nat (seq 0 4))) 32
    ltac:(vm_compute; reflexivity) (v - 1) ltac:(lia)) as E. cbn beta in E.
  pose proof (all_below _ 4 E (n - 1) ltac:(lia)) as E'. cbn beta in E'. by apply Z.eqb_eq in E'.
Qed.

Lemma xzero_set n : 1 <= n <= 16384 -> HLL_SPARSE_XZERO_SET n = enc_op (OXzero n).
Proof.
  intros Hn. unfold HLL_SPARSE_XZERO_SET. cbn [enc_op]. rewrite Z.shiftr_div_pow2 by lia. change (2 ^ 8) with 256.
  assert (0 <= (n - 1) / 256 < 64) as Hq by (split; [apply Z.div_pos; lia|apply Z.div_lt_upper_bound; lia]).
  change 255 with (Z.ones 8). rewrite Z.land_ones by lia. change (2 ^ 8) with 256. f_equal.
  pose proof (all_below (fun q => uwrap 8 (Z.lor q HLL_SPARSE_XZERO_BIT) =? 64 + q) 64 ltac:(vm_compute; reflexivity) _ Hq) as E. by apply Z.eqb_eq in E.
Qed.

Lemma zlen_regs_op o : op_ok o -> zlen (regs_op o) = span o.
Proof. intros Ho. unfold regs_op. rewrite zlen_replicate. destruct o; cbn [span op_ok] in *; lia. Qed.

Lemma span_pos o : op_ok o -> 1 <= span o <= 16384.
Proof. destruct o; cbn; lia. Qed.

Lemma zlen_enc_op o : zlen (enc_op o) = if is_xzero o then 2 else 1.
Proof. by destruct o. Qed.

Lemma op_enc_cons o l : enc (o :: l) = enc_op o ++ enc l.
Proof. done. Qed.
Lemma regs_cons o l : regs (o :: l) = regs_op o ++ regs l.
Proof. done. Qed.
Lemma enc_one o : enc [o] = enc_op o.
Proof. apply app_nil_r. Qed.
Lemma op_enc_app l k : enc (l ++ k) = enc l ++ enc k.
Proof. unfold enc. by rewrite map_app, concat_app. Qed.
Lemma regs_app l k : regs (l ++ k) = regs l ++ regs k.
Proof. unfold regs. by rewrite map_app, concat_app. Qed.

Lemma sparse_op_ok pre o rest : op_ok o -> sparse_op (pre ++ enc_op o ++ rest) (zlen pre) = Some (span o, zlen (enc_op o)).
Proof.
  intros Ho. destruct (op_head o Ho) as (c & t & Ec & (Hz & Hx & Hv & Hm) & _). unfold sparse_op.
  assert (rd (pre ++ enc_op o ++ rest) (zlen pre) = Some c) as -> by (rewrite Ec; apply rd_mid). cbn [mbind option_bind]. rewrite Hz, Hv.
  destruct o as [n|n|v n]; cbn [is_zero is_val is_xzero] in *.
  - by rewrite Hm.
  - by rewrite xzero_len.
  - destruct Hm as [_ ->]. done.
Qed.

(** ** Finding a register *)

Lemma find_op l i : Forall op_ok l -> 0 <= i < zlen (regs l) ->
  exists A o B, l = A ++ o :: B /\ zlen (regs A) <= i < zlen (regs A) + span o.
Proof.
  intros Hl. revert i. induction Hl as [|o l Ho Hl IH]; intros i Hi.
  - change (zlen (regs [])) with 0 in Hi. lia.
  - rewrite regs_cons, zlen_app, zlen_regs_op in Hi by done. destruct (Z.ltb_spec i (span o)) as [E|E].
    + exists [], o, l. split; [done|]. change (zlen (regs [])) with 0. lia.
    + destruct (IH (i - span o)) as (A & q & B & -> & Hq); [lia|]. exists (o :: A), q, B. split; [done|].
      rewrite regs_cons, zlen_app, zlen_regs_op by done. lia.
Qed.

(** The position of the last opcode of [A], which starts at [base]. *)
Fixpoint last_pos (base : Z) (A : list op) (prev : option Z) : option Z :=
  match A with [] => prev | o :: A => last_pos (base + zlen (enc_op o)) A (Some base) end.

Lemma last_pos_app A : forall base prev,
  match last_pos base A prev with
  | None => A = [] /\ prev = None
  | Some p => (A = [] /\ prev = Some p) \/ exists A1 A2, A = A1 ++ A2 /\ p = base + zlen (enc A1)
  end.
Proof.
  induction A as [|o A IH]; intros base prev; cbn [last_pos]; [destruct prev; auto|].
  specialize (IH (base + zlen (enc_op o)) (Some base)). destruct (last_pos _ A _) as [p|].
  - right. destruct IH as [[-> [= <-]]|(A1 & A2 & -> & ->)].
    + exists [], [o]. split; [done|]. change (zlen (enc [])) with 0. lia.
    + exists (o :: A1), A2. split; [done|]. rewrite op_enc_cons, zlen_app. lia.
  - destruct IH as [_ [=]].
Qed.

Lemma locate_ok A : forall fuel pre o B rest index prev first span0 end_, Forall op_ok A -> op_ok o ->
  (length A < fuel)%nat -> end_ = zlen pre + zlen (enc (A ++ o :: B)) ->
  first + zlen (regs A) <= index < first + zlen (regs A) + span o ->
  locate fuel (pre ++ enc (A ++ o :: B) ++ rest) end_ index (zlen pre) prev first span0 =
  Some (zlen pre + zlen (enc A), last_pos (zlen pre) A prev, first + zlen (regs A), span o).
Proof.
  induction A as [|q A IH]; intros fuel pre o B rest index prev first span0 end_ HA Ho Hf -> Hi; (destruct fuel as [|f]; [lia|]); cbn [locate].
  - cbn [app] in *. rewrite op_enc_cons, <- (assoc_L (++)), sparse_op_ok by done. cbn [mbind option_bind].
    pose proof (zlen_enc_op o). pose proof (zlen_nonneg (enc B)). change (zlen (regs [])) with 0 in *. change (zlen (enc [])) with 0. rewrite zlen_app.
    assert (1 <= zlen (enc_op o)) by (rewrite zlen_enc_op; destruct (is_xzero o); lia). zdec. cbn [last_pos]. by rewrite !Z.add_0_r.
  - apply Forall_cons in HA as [Hq HA]. cbn [app] in *. rewrite op_enc_cons in *. rewrite zlen_app in *. rewrite regs_cons, zlen_app, zlen_regs_op in Hi by done.
    assert (1 <= zlen (enc_op q)) by (rewrite zlen_enc_op; destruct (is_xzero q); lia). pose proof (zlen_nonneg (enc (A ++ o :: B))). pose proof (zlen_nonneg (regs A)).
    rewrite <- (assoc_L (++)), sparse_op_ok by done. cbn [mbind option_bind]. zdec.
    replace (zlen pre + zlen (enc_op q)) with (zlen (pre ++ enc_op q)) by apply zlen_app. rewrite (assoc_L (++) pre), IH; [|done|done|cbn in Hf; lia|rewrite !zlen_app; lia|lia].
    cbn [last_pos]. rewrite op_enc_cons, regs_cons, !zlen_app, zlen_regs_op by done. by rewrite !Z.add_assoc.
Qed.

(** ** Splitting an opcode *)

Definition zops (n : Z) : list op := if n =? 0 then [] else if 64 <? n then [OXzero n] else [OZero n].
Definition vops (v n : Z) : list op := if n =? 0 then [] else [OVal v n].

(** The opcodes for [span o] registers of which register [k] becomes [count]. *)
Definition split (o : op) (k count : Z) : list op :=
  match o with
  | OVal v n => vops v k ++ OVal count 1 :: vops v (n - k - 1)
  | _ => zops k ++ OVal count 1 :: zops (span o - k - 1)
  end.

Lemma zero_run_ok n : 1 <= n <= 16384 -> zero_run n = enc (zops n).
Proof.
  intros Hn. unfold zero_run, zops. change HLL_SPARSE_ZERO_MAX_LEN with 64. rewrite (proj2 (Z.eqb_neq n 0)) by lia.
  destruct (Z.ltb_spec 64 n); unfold enc; cbn [map concat]; rewrite app_nil_r; [by apply xzero_set; lia|by apply zero_set; lia].
Qed.

Lemma split_zero_ok o k count first : op_ok o -> is_val o = false -> 0 <= k < span o -> 1 <= count <= 32 ->
  split_zero count (first + k) first (first + span o - 1) = enc (split o k count).
Proof.
  intros Ho Hv Hk Hc. unfold split_zero. pose proof (span_pos o Ho). rewrite (val_set count 1) by lia.
  replace (split o k count) with (zops k ++ [OVal count 1] ++ zops (span o - k - 1)) by (by destruct o).
  rewrite !op_enc_app. f_equal; [|f_equal].
  - destruct (Z.eqb_spec (first + k) first); cbn [negb].
    + by replace k with 0 by lia.
    + rewrite zero_run_ok by lia. by replace (first + k - first) with k by lia.
  - destruct (Z.eqb_spec (first + k) (first + span o - 1)); cbn [negb].
    + by replace (span o - k - 1) with 0 by lia.
    + rewrite zero_run_ok by lia. by replace (first + span o - 1 - (first + k)) with (span o - k - 1) by lia.
Qed.

Lemma split_val_ok v n k count first : op_ok (OVal v n) -> 0 <= k < n -> 1 <= count <= 32 ->
  split_val v count (first + k) first (first + n - 1) = enc (split (OVal v n) k count).
Proof.
  intros Ho Hk Hc. cbn [op_ok] in Ho. unfold split_val, split. rewrite (val_set count 1) by lia.
  change (OVal count 1 :: ?l) with ([OVal count 1] ++ l). rewrite !op_enc_app. unfold vops. f_equal; [|f_equal].
  - destruct (Z.eqb_spec (first + k) first); cbn [negb].
    + by rewrite (proj2 (Z.eqb_eq k 0)) by lia.
    + rewrite val_set by lia. rewrite (proj2 (Z.eqb_neq k 0)) by lia. replace (first + k - first) with k by lia. by unfold enc; cbn [map concat]; rewrite app_nil_r.
  - destruct (Z.eqb_spec (first + k) (first + n - 1)); cbn [negb].
    + by rewrite (proj2 (Z.eqb_eq (n - k - 1) 0)) by lia.
    + rewrite val_set by lia. rewrite (proj2 (Z.eqb_neq (n - k - 1) 0)) by lia. replace (first + n - 1 - (first + k)) with (n - k - 1) by lia. by unfold enc; cbn [map concat]; rewrite app_nil_r.
Qed.

Lemma zops_ok n : 0 <= n <= 16384 -> Forall op_ok (zops n) /\ regs (zops n) = replicate (Z.to_nat n) 0 /\
  0 <= zlen (enc (zops n)) <= (if 64 <? n then 2 else 1).
Proof.
  intros Hn. unfold zops. destruct (Z.eqb_spec n 0) as [->|]; [by split_and!|].
  destruct (Z.ltb_spec 64 n); (split_and!; [constructor; [cbn; lia|constructor]|unfold regs; cbn [map concat]; by rewrite app_nil_r|done|done]).
Qed.

Lemma vops_ok v n : 1 <= v <= 32 -> 0 <= n <= 4 -> Forall op_ok (vops v n) /\ regs (vops v n) = replicate (Z.to_nat n) v /\
  0 <= zlen (enc (vops v n)) <= 1.
Proof.
  intros Hv Hn. unfold vops. destruct (Z.eqb_spec n 0) as [->|]; [by split_and!|].
  split_and!; [constructor; [cbn; lia|constructor]|unfold regs; cbn [map concat]; by rewrite app_nil_r|done|done].
Qed.

Lemma split_shape l1 l2 v n k count w1 w2 : 0 <= k < n -> 1 <= count <= 32 ->
  Forall op_ok l1 /\ regs l1 = replicate (Z.to_nat k) v /\ 0 <= zlen (enc l1) <= w1 ->
  Forall op_ok l2 /\ regs l2 = replicate (Z.to_nat (n - k - 1)) v /\ 0 <= zlen (enc l2) <= w2 ->
  Forall op_ok (l1 ++ OVal count 1 :: l2) /\ regs (l1 ++ OVal count 1 :: l2) = <[Z.to_nat k := count]> (replicate (Z.to_nat n) v) /\
  1 <= zlen (enc (l1 ++ OVal count 1 :: l2)) <= w1 + 1 + w2.
Proof.
  intros Hk Hc (F1 & R1 & L1) (F2 & R2 & L2). change (OVal count 1 :: l2) with ([OVal count 1] ++ l2). split_and!.
  - apply Forall_app. split; [done|]. constructor; [cbn; lia|done].
  - rewrite !regs_app, R1, R2, insert_replicate_lt by lia. change (regs [OVal count 1]) with [count]. cbn [app]. repeat f_equal. lia.
  - rewrite !op_enc_app, !zlen_app. change (zlen (enc [OVal count 1])) with 1. lia.
  - rewrite !op_enc_app, !zlen_app. change (zlen (enc [OVal count 1])) with 1. lia.
Qed.

Lemma split_ok o k count : op_ok o -> 0 <= k < span o -> 1 <= count <= 32 ->
  Forall op_ok (split o k count) /\ regs (split o k count) = <[Z.to_nat k := count]> (regs_op o) /\
  1 <= zlen (enc (split o k count)) <= Z.min 5 (zlen (enc_op o) + 3).
Proof.
  intros Ho Hk Hc. destruct o as [n|n|v n]; cbn [span op_ok] in *; unfold split, regs_op; cbn [span].
  - destruct (split_shape _ _ 0 n k count _ _ Hk Hc (zops_ok k ltac:(lia)) (zops_ok (n - k - 1) ltac:(lia))) as (F & R & L).
    rewrite !(proj2 (Z.ltb_ge 64 _)) in L by lia. split_and!; [done|done|lia|]. change (zlen (enc_op (OZero n))) with 1. lia.
  - destruct (split_shape _ _ 0 n k count _ _ Hk Hc (zops_ok k ltac:(lia)) (zops_ok (n - k - 1) ltac:(lia))) as (F & R & L).
    split_and!; [done|done|lia|]. change (zlen (enc_op (OXzero n))) with 2. destruct (64 <? k), (64 <? n - k - 1); lia.
  - destruct (split_shape _ _ v n k count _ _ Hk Hc (vops_ok v k ltac:(lia) ltac:(lia)) (vops_ok v (n - k - 1) ltac:(lia) ltac:(lia))) as (F & R & L).
    split_and!; [done|done|lia|]. change (zlen (enc_op (OVal v n))) with 1. lia.
Qed.

(** ** Changing opcodes in place *)

Lemma incrlen_ok x z t l f k : l + k = zlen x -> zlen t = f - k -> 0 <= l -> 0 <= f -> l + f + 1 < 2 ^ 31 ->
  sdsIncrLen (Sds l f (x ++ z :: t)) k = Some (Sds (zlen x) (zlen t) (x ++ 0 :: t)).
Proof.
  intros Hk Ht Hl Hf Hs. pose proof (zlen_nonneg x). pose proof (zlen_nonneg t). unfold sdsIncrLen. cbn [s_len s_free s_buf].
  rewrite (proj2 (Z.leb_le k f)) by lia. cbn [cassert mbind option_bind]. rewrite !s32_small by lia. rewrite (proj2 (Z.leb_le 0 (f - k))) by lia.
  cbn [cassert mbind option_bind]. rewrite wr_app_mid by done. cbn [mbind option_bind]. by rewrite Hk, Ht.
Qed.

(** [seq] takes the place of the bytes [o] between [X] and [Y]. *)
Lemma substitute_ok s X o Y seq : rep s (X ++ o ++ Y) -> 1 <= zlen o <= 2 -> 1 <= zlen seq -> zlen seq - zlen o <= s_free s ->
  let next := zlen X + zlen o in
  let end_ := zlen (X ++ o ++ Y) in
  exists s', substitute_op s (zlen X) (zlen o) (if end_ <=? next then None else Some next) end_ seq =
    Some (s', zlen (X ++ seq ++ Y)) /\ rep s' (X ++ seq ++ Y).
Proof.
  intros (sp & Eb & El & Ef & Hs) Ho Hq Hfree next end_. pose proof (zlen_nonneg X). pose proof (zlen_nonneg Y). pose proof (zlen_nonneg sp).
  unfold substitute_op. set (M := o ++ Y ++ 0 :: sp). assert (zlen M = zlen o + zlen Y + 1 + zlen sp) as HM by (unfold M; zlia).
  destruct (split_at M (zlen seq)) as (O' & M' & EM & HO' & HM'); [rewrite Ef in Hfree; lia|].
  destruct (split_at M' (zlen Y)) as (Y' & T & EM' & HY' & HT); [rewrite Ef in Hfree; lia|].
  assert (s_buf s = X ++ O' ++ Y' ++ T) as EB. { rewrite Eb, <- EM', <- EM. unfold M. by rewrite <- !(assoc_L (++)). }
  assert ((match (if end_ <=? next then None else Some next) with
      | Some next => if negb (zlen seq - zlen o =? 0) then mmove (s_buf s) (next + (zlen seq - zlen o)) next (end_ - next) else Some (s_buf s)
      | None => Some (s_buf s) end) = Some (X ++ O' ++ Y ++ T)) as ->.
  { unfold end_, next. zlen_simpl. destruct (Z.leb_spec (zlen X + (zlen o + zlen Y)) (zlen X + zlen o)).
    - assert (zlen Y = 0) as E0%zlen_0_inv by lia. rewrite EB. subst Y. destruct Y'; [done|]. zlia.
    - destruct (Z.eqb_spec (zlen seq - zlen o) 0) as [E0|E0]; cbn [negb].
      + assert (O' = o /\ Y' = Y) as [EO EY]; [|by rewrite EB, EO, EY]. unfold M in EM. rewrite EM' in EM.
        apply app_inj_1 in EM as [EO EM]; [|unfold zlen in *; lia]. apply app_inj_1 in EM as [EY _]; [by subst|unfold zlen in *; lia].
      + assert (rdn (s_buf s) (zlen X + zlen o) (zlen X + (zlen o + zlen Y) - (zlen X + zlen o)) = Some Y) as ER.
        { rewrite Eb, (assoc_L (++) X), <- (assoc_L (++) (X ++ o)). apply rdn_app_mid; zlia. }
        unfold mmove. rewrite ER. cbn [mbind option_bind]. rewrite EB, (assoc_L (++) X). rewrite (wrn_app_mid (X ++ O') Y' Y T) by zlia.
        by rewrite <- (assoc_L (++)). }
  cbn [mbind option_bind]. destruct T as [|z T]; [rewrite Ef in Hfree; zlia|]. zlen_simpl.
  rewrite El, Ef. zlen_simpl. replace (X ++ O' ++ Y ++ z :: T) with ((X ++ O' ++ Y) ++ z :: T) by (by rewrite <- !(assoc_L (++))).
  rewrite incrlen_ok by zlia. cbn [mbind option_bind s_buf s_len s_free].
  rewrite <- !(assoc_L (++)), (wrn_app_mid X O' seq) by lia. cbn [mbind option_bind].
  eexists. split; [f_equal; f_equal; unfold end_; zlia|]. exists T. cbn [s_buf s_len s_free]. rewrite <- !(assoc_L (++)). split_and!; [done|zlia|done|zlia].
Qed.

Lemma set_op_ok s X o Y seq : rep s (X ++ o ++ Y) -> zlen o = zlen seq -> exists s', set_op s (zlen X) seq = Some s' /\ rep s' (X ++ seq ++ Y).
Proof.
  intros (sp & Eb & El & Ef & Hs) Hl. unfold set_op. rewrite Eb, <- !(assoc_L (++)), (wrn_app_mid X o seq) by done. cbn [mbind option_bind].
  eexists. split; [done|]. exists sp. cbn [s_buf s_len s_free]. rewrite <- !(assoc_L (++)). zlen_simpl. split_and!; [done|lia|done|lia].
Qed.

(** ** Merging opcodes *)

Lemma rep_head s X o Y : rep s (X ++ enc_op o ++ Y) -> op_ok o -> exists c, rd (s_buf s) (zlen X) = Some c /\ head_ok o c.
Proof.
  intros (sp & Eb & _) Ho. destruct (op_head o Ho) as (c & t & Ec & Hc & _). exists c. split; [|done].
  rewrite Eb, Ec, <- !(assoc_L (++)). apply rd_mid.
Qed.

Lemma merge_two s X a b v Y : rep s (X ++ [a; b] ++ Y) ->
  exists w s', wrn (s_buf s) (zlen X + 1) [v] = Some w /\ mmove w (zlen X) (zlen X + 1) (2 + zlen Y) = Some (s_buf s') /\
    rep (Sds (s_len s - 1) (s_free s + 1) (s_buf s')) (X ++ [v] ++ Y) /\ sdsIncrLen (Sds (s_len s) (s_free s) (s_buf s')) (-1) = Some (Sds (s_len s - 1) (s_free s + 1) (s_buf s')).
Proof.
  intros (sp & Eb & El & Ef & Hs). pose proof (zlen_nonneg X). pose proof (zlen_nonneg Y). pose proof (zlen_nonneg sp).
  exists (X ++ [a; v] ++ Y ++ 0 :: sp), (Sds 0 0 (X ++ ([v] ++ Y ++ [0]) ++ [0] ++ sp)). zlen_simpl. split_and!.
  - rewrite Eb, <- !(assoc_L (++)). change ([a; b] ++ ?l) with ([a] ++ [b] ++ l). rewrite (assoc_L (++) X).
    rewrite (wrn_app_mid (X ++ [a]) [b] [v]) by zlia. by rewrite <- (assoc_L (++)).
  - unfold mmove. change ([a; v] ++ ?l) with ([a] ++ [v] ++ l). rewrite (assoc_L (++) X).
    replace ([v] ++ Y ++ 0 :: sp) with (([v] ++ Y ++ [0]) ++ sp) by (rewrite <- !(assoc_L (++)); done).
    rewrite (rdn_app_mid (X ++ [a])) by zlia. cbn [mbind option_bind s_buf]. rewrite <- (assoc_L (++)).
    replace ([a] ++ ([v] ++ Y ++ [0]) ++ sp) with (([a] ++ [v] ++ Y) ++ [0] ++ sp) by (rewrite <- !(assoc_L (++)); done).
    by apply wrn_app_mid; [|zlia].
  - exists (0 :: sp). cbn [s_buf s_len s_free]. zlen_simpl. rewrite <- !(assoc_L (++)). split_and!; [done|lia|lia|lia].
  - cbn [s_buf]. replace (X ++ ([v] ++ Y ++ [0]) ++ [0] ++ sp) with ((X ++ [v] ++ Y) ++ 0 :: (0 :: sp)) by (by rewrite <- !(assoc_L (++))).
    rewrite incrlen_ok by zlia. f_equal. f_equal; zlia.
Qed.

Lemma merge_loop_ok hdr n : forall s A B, Forall op_ok A -> Forall op_ok B -> rep s (hdr ++ enc (A ++ B)) ->
  exists s' l, merge_loop n s (zlen hdr + zlen (enc A)) (zlen hdr + zlen (enc (A ++ B))) = Some s' /\
    rep s' (hdr ++ enc l) /\ Forall op_ok l /\ regs l = regs (A ++ B) /\ (zlen (enc l) <= zlen (enc (A ++ B))).
Proof.
  induction n as [|n IH]; intros s A B HA HB Hr; cbn [merge_loop].
  all: assert (forall s0, rep s0 (hdr ++ enc (A ++ B)) -> exists s' l, Some s0 = Some s' /\ rep s' (hdr ++ enc l) /\ Forall op_ok l /\ regs l = regs (A ++ B) /\ zlen (enc l) <= zlen (enc (A ++ B))) as Hstop
    by (intros s0 H0; exists s0, (A ++ B); split_and!; [done|done|by apply Forall_app|done|lia]).
  { destruct (_ <? _); by apply Hstop. }
  destruct (Z.ltb_spec (zlen hdr + zlen (enc A)) (zlen hdr + zlen (enc (A ++ B)))) as [Hlt|]; [|by apply Hstop].
  destruct B as [|o B]; [rewrite app_nil_r in Hlt; lia|]. apply Forall_cons in HB as [Ho HB].
  assert (forall s0, rep s0 (hdr ++ enc (A ++ o :: B)) -> exists s' l,
    merge_loop n s0 (zlen hdr + zlen (enc A) + zlen (enc_op o)) (zlen hdr + zlen (enc (A ++ o :: B))) = Some s' /\
    rep s' (hdr ++ enc l) /\ Forall op_ok l /\ regs l = regs (A ++ o :: B) /\ zlen (enc l) <= zlen (enc (A ++ o :: B))) as Hnext.
  { intros s0 H0. change (o :: B) with ([o] ++ B) in *. rewrite (assoc_L (++)) in H0 |- *.
    destruct (IH s0 (A ++ [o]) B) as (s' & l & E & Hl); [apply Forall_app; split; [done|by constructor]|done|done|].
    exists s', l. split; [|done]. rewrite <- E. f_equal. rewrite op_enc_app, enc_one, zlen_app. lia. }
  pose proof Hr as Hr0. rewrite op_enc_app, op_enc_cons, !(assoc_L (++)), <- (assoc_L (++) (hdr ++ enc A)) in Hr.
  destruct (rep_head s (hdr ++ enc A) o (enc B) Hr Ho) as (c & Ec & (Hz & Hx & Hv & Hm)). rewrite zlen_app in Ec. rewrite Ec. cbn [mbind option_bind]. rewrite Hx, Hz.
  destruct o as [k|k|v k]; cbn [is_xzero is_zero is_val] in *; [by apply (Hnext s Hr0)|by apply (Hnext s Hr0)|].
  destruct (Z.ltb_spec (zlen hdr + zlen (enc A) + 1) (zlen hdr + zlen (enc (A ++ OVal v k :: B)))) as [Hlt1|]; [|by apply (Hnext s Hr0)].
  destruct B as [|q B]; [rewrite op_enc_app, zlen_app in Hlt1; change (zlen (enc [OVal v k])) with 1 in Hlt1; lia|].
  apply Forall_cons in HB as [Hq HB]. pose proof Hr as Hr1. rewrite op_enc_cons, (assoc_L (++) (hdr ++ enc A)) in Hr1.
  destruct (rep_head s _ q (enc B) Hr1 Hq) as (d & Ed & (Hz' & Hx' & Hv' & Hm')). rewrite !zlen_app in Ed. change (zlen (enc_op (OVal v k))) with 1 in Ed.
  rewrite Ed. cbn [mbind option_bind]. destruct Hm as [Hmv Hml]. rewrite Hmv, Hml, Hv'.
  destruct q as [j|j|u j]; cbn [is_val andb] in *; [by apply (Hnext s Hr0)|by apply (Hnext s Hr0)|]. destruct Hm' as [-> ->].
  destruct (Z.eqb_spec v u) as [<-|]; cbn [andb]; [|by apply (Hnext s Hr0)].
  change HLL_SPARSE_VAL_MAX_LEN with 4. destruct (Z.leb_spec (k + j) 4); [|by apply (Hnext s Hr0)].
  cbn [op_ok] in Ho, Hq. rewrite val_set by lia.
  rewrite op_enc_cons in Hr. cbn [enc_op] in Hr. change ([?x] ++ [?y] ++ ?l) with ([x; y] ++ l) in Hr.
  destruct (merge_two s (hdr ++ enc A) _ _ (128 + 4 * (v - 1) + (k + j - 1)) (enc B) Hr) as (w & s1 & E1 & E2 & H3 & E3).
  rewrite zlen_app in E1, E2. cbn [enc_op]. rewrite E1. cbn [mbind option_bind].
  assert (zlen (enc (A ++ OVal v k :: OVal v j :: B)) = zlen (enc A) + (2 + zlen (enc B))) as EL by (rewrite op_enc_app, !op_enc_cons, !zlen_app; cbn [enc_op]; zlia).
  replace (zlen hdr + zlen (enc (A ++ OVal v k :: OVal v j :: B)) - (zlen hdr + zlen (enc A))) with (2 + zlen (enc B)) by lia.
  rewrite E2. cbn [mbind option_bind]. rewrite E3. cbn [mbind option_bind].
  assert (zlen (enc (A ++ OVal v (k + j) :: B)) = zlen (enc A) + (1 + zlen (enc B))) as EL' by (rewrite op_enc_app, !op_enc_cons, !zlen_app; cbn [enc_op]; zlia).
  destruct (IH (Sds (s_len s - 1) (s_free s + 1) (s_buf s1)) A (OVal v (k + j) :: B)) as (s' & l & E & Hl & Hl1 & Hl2 & Hl3);
    [done|constructor; [cbn; lia|done]|rewrite op_enc_app, op_enc_cons, !(assoc_L (++)), <- (assoc_L (++) (hdr ++ enc A)); exact H3|].
  exists s', l. split_and!; [|done|done| |lia].
  - rewrite <- E. f_equal. lia.
  - rewrite Hl2, !regs_app, !regs_cons. f_equal. rewrite (assoc_L (++)). f_equal. unfold regs_op. cbn [span]. rewrite <- replicate_add. f_equal. lia.
Qed.

(** ** The hash of an element *)

Lemma lxor_acc a b w : 0 <= w -> 0 <= a < 2 ^ w -> Z.lxor a (Z.shiftl b w) = a + b * 2 ^ w.
Proof.
  intros Hw Ha. rewrite <- (lor_acc a b w) by done. apply Z.bits_inj'. intros k Hk. rewrite Z.lxor_spec, Z.lor_spec.
  destruct (Z.ltb_spec k w); [rewrite Z.shiftl_spec, (Z.testbit_neg_r b) by lia; by destruct (Z.testbit a k)|].
  by rewrite (testbit_small a w) by done.
Qed.

Section HashOk.
Context `{Host}.

Lemma murmur64_word_ok pre x rest : bytes_ok x -> zlen x = 8 -> murmur64_word (pre ++ x ++ rest) (zlen pre) = Some (le_dec x).
Proof.
  intros Hx Hl. unfold murmur64_word. rewrite rdn_app_mid by done. cbn [mbind option_bind]. f_equal. unfold host_dec.
  destruct big_endian; [|done]. destruct (bytes8 x Hl) as (d0 & d1 & d2 & d3 & d4 & d5 & d6 & d7 & ->).
  repeat (apply Forall_cons in Hx; destruct Hx as [? Hx]). unfold byte_ok in *. cbn [le_dec].
  rewrite (lor_acc d0 d1 8), (lor_acc _ d2 16), (lor_acc _ d3 24), (lor_acc _ d4 32), (lor_acc _ d5 40), (lor_acc _ d6 48), (lor_acc _ d7 56) by lia. lia.
Qed.

Lemma murmur64_loop_ok n : forall fuel pre x rest h, bytes_ok x -> 8 * Z.of_nat n <= zlen x -> (n <= fuel)%nat ->
  murmur64_loop fuel (pre ++ x ++ rest) (zlen pre) (zlen pre + 8 * Z.of_nat n) h = Some (mix_words n x h).
Proof.
  induction n as [|n IH]; intros fuel pre x rest h Hx Hl Hf.
  - replace (zlen pre + 8 * Z.of_nat 0) with (zlen pre) by lia. destruct fuel; cbn [murmur64_loop]; by rewrite Z.eqb_refl.
  - destruct fuel as [|fuel]; [lia|]. cbn [murmur64_loop mix_words]. rewrite (proj2 (Z.eqb_neq _ _)) by lia.
    destruct (split_at x 8) as (w & y & -> & Hw & Hy); [lia|]. apply Forall_app in Hx as [Hxw Hxy].
    rewrite <- (assoc_L (++) w), murmur64_word_ok by done. cbn [mbind option_bind].
    rewrite take_app_length', drop_app_length' by (unfold zlen in Hw; lia). fold (mix h (le_dec w)).
    rewrite (assoc_L (++)). replace (zlen pre + 8) with (zlen (pre ++ w)) by zlia. replace (zlen pre + 8 * Z.of_nat (S n)) with (zlen (pre ++ w) + 8 * Z.of_nat n) by zlia.
    change (mul64 (Z.lxor h (mul64 (Z.lxor (mul64 (le_dec w) murmur64_m) (Z.shiftr (mul64 (le_dec w) murmur64_m) murmur64_r)) murmur64_m)) murmur64_m) with (mix h (le_dec w)).
    apply IH; [done|zlia|lia].
Qed.

Lemma murmur64_tail_ok pre t rest : bytes_ok t -> forall n h, (n <= length t)%nat ->
  murmur64_tail n (pre ++ t ++ rest) (zlen pre) h = Some (Z.lxor h (le_dec (take n t))).
Proof.
  intros Ht. induction n as [|n IH]; intros h Hn; cbn [murmur64_tail]; [by rewrite Z.lxor_0_r|].
  destruct (lookup_lt_is_Some_2 t n) as [c Hc]; [lia|].
  rewrite rd_app_plus, rd_app_l by (unfold zlen; lia). unfold rd. zdec. rewrite Nat2Z.id, Hc. cbn [mbind option_bind]. rewrite IH by lia. f_equal.
  rewrite (take_S_r _ _ _ Hc), Z.lxor_assoc. f_equal.
  assert (le_dec (take n t ++ [c]) = le_dec (take n t) + 256 ^ Z.of_nat n * c) as ->.
  { assert (n = length (take n t)) as E by (rewrite length_take; lia). rewrite E at 3. generalize (take n t). intros l. clear.
    induction l as [|x l IH]; [cbn; lia|]. cbn [app le_dec length]. rewrite IH, Nat2Z.inj_succ, Z.pow_succ_r by lia. lia. }
  rewrite Z.lxor_comm, lxor_acc; [|lia|].
  - replace (2 ^ (8 * Z.of_nat n)) with (256 ^ Z.of_nat n) by (rewrite Z.pow_mul_r by lia; done). lia.
  - rewrite Z.pow_mul_r by lia. change (2 ^ 8) with 256. pose proof (le_dec_bound (take n t)) as B.
    replace (Z.of_nat n) with (zlen (take n t)) by (unfold zlen; rewrite length_take; lia). apply B. by apply Forall_take.
Qed.

Lemma hash_ok x rest : bytes_ok x -> zlen x < 2 ^ 31 -> MurmurHash64A (x ++ rest) (zlen x) 0xadc83b19 = Some (hash x).
Proof.
  intros Hx Hl. unfold MurmurHash64A, hash. pose proof (zlen_nonneg x) as H0. rewrite (u64_small (zlen x)) by lia.
  assert (Z.land (zlen x) 7 = zlen x mod 8) as -> by (apply (Z.land_ones _ 3); lia).
  pose proof (Z.div_mod (zlen x) 8 ltac:(lia)) as D. pose proof (Z.mod_pos_bound (zlen x) 8 ltac:(lia)) as M.
  set (n := (length x / 8)%nat). assert (Z.of_nat n = zlen x / 8) as En by (unfold n, zlen; rewrite Nat2Z.inj_div; done).
  replace (zlen x - zlen x mod 8) with (8 * Z.of_nat n) by lia.
  assert (Hlen : 8 * Z.of_nat n <= zlen x) by lia.
  pose proof (take_drop (8 * n) x) as Ex. set (w := take (8 * n) x) in *. set (t := drop (8 * n) x) in *.
  assert (zlen w = 8 * Z.of_nat n) as Hw. { unfold w, zlen. rewrite length_take. unfold zlen in Hlen. lia. }
  assert (zlen t = zlen x mod 8) as Ht. { unfold t. rewrite <- (Nat2Z.id (8 * n)), zlen_drop by lia. lia. }
  pose proof (murmur64_loop_ok n (Z.to_nat (zlen x)) [] x rest) as L. cbn [app] in L. change (zlen []) with 0 in L. rewrite !Z.add_0_l in L.
  rewrite L by (done || lia). cbn [mbind option_bind].
  assert (bytes_ok t) as Hbt by (by apply Forall_drop).
  pose proof (murmur64_tail_ok w t rest Hbt (length t)) as T. rewrite (assoc_L (++) w), Ex, Hw in T.
  replace (Z.to_nat (zlen x mod 8)) with (length t) by (rewrite <- Ht; unfold zlen; lia). rewrite T by done. cbn [mbind option_bind].
  rewrite <- Ht. clear T L Ex Ht. clearbody t. destruct t as [|c t].
  - by rewrite Z.lxor_0_r.
  - rewrite firstn_all. rewrite (proj2 (Z.eqb_neq (zlen (c :: t)) 0)) by zlia. done.
Qed.

(** ** The pattern of an element *)

Lemma land_pow2 h k : 0 <= k -> (Z.land h (2 ^ k) =? 0) = negb (Z.testbit h k).
Proof.
  intros Hk. destruct (Z.testbit h k) eqn:E; cbn [negb].
  - apply Z.eqb_neq. intros E0. apply (f_equal (fun z => Z.testbit z k)) in E0. rewrite Z.land_spec, Z.pow2_bits_true, E, Z.bits_0 in E0 by done. done.
  - apply Z.eqb_eq, Z.bits_inj'. intros j Hj. rewrite Z.land_spec, Z.bits_0, Z.pow2_bits_eqb by done.
    destruct (Z.eqb_spec k j) as [<-|]; [by rewrite E|apply andb_false_r].
Qed.

Lemma pat_loop_ok h n : forall fuel k count, (n <= fuel)%nat -> 0 <= k -> k + Z.of_nat n = 63 ->
  pat_loop fuel (Z.lor h (Z.shiftl 1 63)) (2 ^ k) count = Some (count + zeroes n h k).
Proof.
  induction n as [|n IH]; intros fuel k count Hf Hk En.
  - replace k with 63 by lia. destruct fuel; cbn [pat_loop]; (rewrite land_pow2, Z.lor_spec by lia; change (Z.testbit (Z.shiftl 1 63) 63) with true; rewrite orb_true_r; cbn [negb zeroes]; by rewrite Z.add_0_r).
  - destruct fuel as [|fuel]; [lia|]. cbn [pat_loop zeroes]. rewrite land_pow2, Z.lor_spec by lia.
    assert (Z.testbit (Z.shiftl 1 63) k = false) as -> by (rewrite Z.shiftl_spec by lia; apply Z.testbit_neg_r; lia). rewrite orb_false_r.
    destruct (Z.testbit h k); cbn [negb]; [by rewrite Z.add_0_r|].
    rewrite (Z.shiftl_mul_pow2 (2 ^ k)) by lia. change (2 ^ 1) with 2. replace (2 ^ k * 2) with (2 ^ (k + 1)) by (rewrite Z.pow_add_r by lia; lia).
    rewrite u64_small; [rewrite IH by lia; f_equal; lia|]. change 18446744073709551616 with (2 ^ 64). split; [apply Z.pow_nonneg; lia|apply Z.pow_lt_mono_r; lia].
Qed.

Lemma zeroes_bound n h k : 0 <= zeroes n h k <= Z.of_nat n.
Proof. revert k. induction n as [|n IH]; intros k; cbn [zeroes]; [lia|]. specialize (IH (k + 1)). destruct (Z.testbit h k); lia. Qed.

Lemma rank_bound x : 1 <= rank x <= 50.
Proof. unfold rank. pose proof (zeroes_bound 49 (hash x) 14). lia. Qed.

Lemma hll_index_bound x : 0 <= Z.of_nat (index x) < 16384.
Proof. unfold index. pose proof (Z.mod_pos_bound (hash x) (2 ^ 14) eq_refl). lia. Qed.

Lemma hllPatLen_ok x rest : bytes_ok x -> zlen x < 2 ^ 31 -> hllPatLen (x ++ rest) (zlen x) = Some (rank x, Z.of_nat (index x)).
Proof.
  intros Hx Hl. pose proof (zlen_nonneg x). unfold hllPatLen. rewrite s32_small, hash_ok by (done || lia). cbn [mbind option_bind].
  change HLL_REGISTERS with (2 ^ 14). rewrite (pat_loop_ok _ 49) by lia. cbn [mbind option_bind]. change HLL_P_MASK with (Z.ones 14). rewrite Z.land_ones by lia.
  pose proof (Z.mod_pos_bound (hash x) (2 ^ 14) eq_refl). rewrite s32_small by lia. unfold index, rank. by rewrite Z2Nat.id by lia.
Qed.

End HashOk.

End HllFacts.
