(* ===== verification/HllThms.v ===== *)
(** * The operations on a HyperLogLog and its registers *)

From Stdlib Require Import String.
From S2P Require Import Prelude Endian Sds Hll HllFacts.
Import SdsSpec SdsFacts HllSpec HllFacts.


(** ** Headers *)

Lemma header_encoding e hdr y : header e hdr -> rd (hdr ++ y) hdr_encoding = Some e.
Proof.
  intros [Hl Ht]. rewrite rd_app_l by (rewrite Hl; done). unfold rd. change (hdr !! 4%nat = Some e).
  rewrite <- (take_drop 5 hdr), Ht. done.
Qed.

Lemma header_insert e (hdr : list Z) i v : header e hdr -> (5 <= i)%nat -> header e (<[i := v]> hdr).
Proof. intros [Hl Ht] Hi. split; [by rewrite zlen_insert|]. by rewrite take_insert_ge by lia. Qed.

Lemma header_change e e' hdr : header e hdr -> header e' (<[4%nat := e']> hdr).
Proof.
  intros [Hl Ht]. split; [by rewrite zlen_insert|]. rewrite <- (take_drop 5 hdr), Ht. reflexivity.
Qed.

Lemma wr_header (hdr y : list Z) i v : 0 <= i < 16 -> zlen hdr = 16 -> wr (hdr ++ y) i v = Some (<[Z.to_nat i := v]> hdr ++ y).
Proof. intros Hi Hl. rewrite <- (app_nil_l (hdr ++ y)). rewrite <- (Z.add_0_l i) at 1. change 0 with (zlen (@nil Z)). by rewrite wr_window by lia. Qed.

Lemma invalidate_ok s e hdr y : header e hdr -> rep s (hdr ++ y) ->
  exists b hdr', HLL_INVALIDATE_CACHE (s_buf s) = Some b /\ header e hdr' /\ rep (Sds (s_len s) (s_free s) b) (hdr' ++ y).
Proof.
  intros Hh (sp & Eb & El & Ef & Hs). pose proof (proj1 Hh) as Hl. unfold HLL_INVALIDATE_CACHE, hdr_card. rewrite Eb, <- (assoc_L (++)).
  destruct (lookup_lt_is_Some_2 hdr 8) as [c Hc]; [unfold zlen in Hl; lia|].
  rewrite rd_app_l by lia. unfold rd at 1. change (Z.to_nat 8) with 8%nat. rewrite Hc. cbn [mbind option_bind Z.leb]. change (0 <=? 8) with true. cbv iota. cbn [mbind option_bind].
  rewrite wr_header by (done || lia). eexists _, (<[8%nat := Z.lor c (Z.shiftl 1 7)]> hdr). split; [done|]. split; [apply header_insert; [exact Hh|lia]|].
  exists sp. cbn [s_len s_free s_buf]. rewrite <- (assoc_L (++)). rewrite !zlen_app, zlen_insert in *. by split_and!.
Qed.

(** ** Dense registers *)

Lemma digits_bound w l : 0 <= w -> Forall (fun x => 0 <= x < 2 ^ w) l -> 0 <= digits w l < 2 ^ (w * zlen l).
Proof.
  intros Hw. induction 1 as [|x l Hx Hl IH]; cbn [digits]; [change (zlen (@nil Z)) with 0; rewrite Z.mul_0_r; done|].
  rewrite zlen_cons, (Z.mul_add_distr_l w 1), Z.mul_1_r, Z.pow_add_r by (try apply Z.mul_nonneg_nonneg; try apply zlen_nonneg; lia). nia.
Qed.

Lemma digits_app w l k : 0 <= w -> digits w (l ++ k) = digits w l + 2 ^ (w * zlen l) * digits w k.
Proof.
  intros Hw. induction l as [|x l IH]; cbn [app digits]; [change (zlen (@nil Z)) with 0; rewrite Z.mul_0_r; change (2 ^ 0) with 1; lia|].
  rewrite IH, zlen_cons, (Z.mul_add_distr_l w 1), Z.mul_1_r, Z.pow_add_r by (try apply Z.mul_nonneg_nonneg; try apply zlen_nonneg; lia). nia.
Qed.

Lemma top_zero a z P : 0 <= a < P -> 0 <= z -> a + P * z < P -> z = 0.
Proof. nia. Qed.

(** The terminator stays 0. *)
Lemma window_body W R : window W R -> exists body, W = body ++ [0] /\ bytes_ok body /\ zlen body = 12288 /\ digits 8 body = digits 6 R.
Proof.
  intros (Hb & Hl & HR & HlR & E). destruct (split_at W 12288) as (body & y & -> & Hbl & Hy); [lia|]. rewrite Hl in Hy.
  destruct y as [|z [|]]; [done| |zlia]. apply Forall_app in Hb as [Hb Hz]. apply Forall_cons in Hz as [Hz _].
  assert (z = 0) as ->; [|exists body; by rewrite digits_app_0 in E].
  apply (top_zero (digits 8 body) z (2 ^ (8 * zlen body))); [by apply digits_bound; [|apply byte_digit]|by apply Hz|].
  assert (digits 8 (body ++ [z]) = digits 8 body + 2 ^ (8 * zlen body) * z) as <-; [rewrite digits_app by done; cbn [digits]; by rewrite Z.mul_0_r, Z.add_0_r|].
  rewrite E. assert (8 * zlen body = 6 * zlen R) as -> by (rewrite Hbl, HlR; done). by apply digits_bound; [|apply reg_digit].
Qed.

Lemma body_window body R : bytes_ok body -> zlen body = 12288 -> Forall reg_ok R -> zlen R = 16384 -> digits 8 body = digits 6 R -> window (body ++ [0]) R.
Proof.
  intros Hb Hl HR HlR E. split_and!; [apply Forall_app; split; [done|constructor; [by unfold byte_ok|constructor]]|zlia|done|done|by rewrite digits_app_0].
Qed.

Lemma raise_same (R : list Z) i r v : R !! i = Some v -> r <= v -> raise R i r = R.
Proof. intros Hv Hr. unfold raise. rewrite Hv. cbn [default from_option id]. rewrite Z.max_l by done. by apply list_insert_id. Qed.

Lemma raise_more (R : list Z) i r v : R !! i = Some v -> v < r -> raise R i r = <[i := r]> R.
Proof. intros Hv Hr. unfold raise. rewrite Hv. cbn [default from_option id]. by rewrite Z.max_r by lia. Qed.

Lemma zlen_raise R i r : zlen (raise R i r) = zlen R.
Proof. apply zlen_insert. Qed.

Section Ops.
Context `{Host}.

Definition grows (R x : list Z) : bool := default 0 (R !! index x) <? rank x.

Lemma index_reg (R : list Z) x : zlen R = 16384 -> exists v, R !! index x = Some v.
Proof. intros Hl. pose proof (hll_index_bound x). apply lookup_lt_is_Some_2. unfold zlen in Hl. lia. Qed.

Lemma dense_add_ok hdr W rest R x er : zlen hdr = 16 -> window W R -> bytes_ok x -> zlen x < 2 ^ 31 ->
  exists W', hllDenseAdd (hdr ++ W ++ rest) HLL_HDR_SIZE (x ++ er) (zlen x) = Some (hdr ++ W' ++ rest, Z.b2z (grows R x)) /\ window W' (add R x).
Proof.
  intros Hh HW Hx Hl. unfold hllDenseAdd. rewrite hllPatLen_ok by done. cbn [mbind option_bind]. pose proof (hll_index_bound x) as Hi. pose proof (rank_bound x).
  rewrite u8_small by lia. change HLL_HDR_SIZE with 16. rewrite <- Hh, get_register_ok with (R := R) by (done || lia). rewrite Nat2Z.id.
  destruct (index_reg R x) as [v Hv]; [apply HW|]. rewrite Hv. cbn [mbind option_bind]. unfold grows, add. rewrite Hv. cbn [default from_option id].
  destruct (Z.ltb_spec v (rank x)) as [E|E].
  - destruct (set_register_ok W R hdr rest HW _ Hi (rank x)) as (W' & -> & HW'); [unfold reg_ok; change HLL_REGISTER_MAX with 63; lia|].
    cbn [mbind option_bind]. exists W'. split; [done|]. rewrite Nat2Z.id in HW'. by rewrite (raise_more _ _ _ _ Hv).
  - exists W. split; [done|]. by rewrite (raise_same _ _ _ _ Hv).
Qed.

(** ** From sparse to dense *)

Lemma set_run_ok n : forall hdr W rest pre v m, zlen hdr = 16 -> reg_ok v -> window W (pre ++ replicate (n + m) 0) ->
  exists W', set_run n (hdr ++ W ++ rest) (zlen pre) v = Some (hdr ++ W' ++ rest, zlen pre + Z.of_nat n) /\ window W' (pre ++ replicate n v ++ replicate m 0).
Proof.
  induction n as [|n IH]; intros hdr W rest pre v m Hh Hv HW; cbn [set_run].
  - exists W. split; [f_equal; f_equal; lia|done].
  - assert (zlen (pre ++ replicate (S n + m) 0) = 16384) as Hl by apply HW. rewrite zlen_app, zlen_replicate in Hl. pose proof (zlen_nonneg pre).
    change HLL_HDR_SIZE with 16. rewrite <- Hh. destruct (set_register_ok W _ hdr rest HW (zlen pre) ltac:(lia) v Hv) as (W1 & -> & HW1). cbn [mbind option_bind].
    rewrite s32_small by lia. replace (zlen pre + 1) with (zlen (pre ++ [v])) by zlia.
    destruct (IH hdr W1 rest (pre ++ [v]) v m Hh Hv) as (W2 & E & HW2).
    { replace (Z.to_nat (zlen pre)) with (length pre + 0)%nat in HW1 by (unfold zlen; lia). rewrite insert_app_r in HW1. cbn in HW1. by rewrite <- (assoc_L (++)). }
    rewrite E. exists W2. split; [f_equal; f_equal; zlia|]. by rewrite <- (assoc_L (++)) in HW2.
Qed.

Lemma to_dense_loop_ok l : forall fuel pre rest hdr W wrest done end_, Forall op_ok l -> (length (enc l) < fuel + 1)%nat -> zlen hdr = 16 ->
  end_ = zlen pre + zlen (enc l) -> zlen done + zlen (regs l) = 16384 -> window W (done ++ replicate (length (regs l)) 0) ->
  exists W', to_dense_loop fuel (pre ++ enc l ++ rest) (zlen pre) end_ (hdr ++ W ++ wrest) (zlen done) = Some (hdr ++ W' ++ wrest, 16384) /\ window W' (done ++ regs l).
Proof.
  induction l as [|o l IH]; intros fuel pre rest hdr W wrest dn end_ Hl Hf Hh -> Hd HW.
  - change (zlen (enc [])) with 0. change (zlen (regs [])) with 0 in Hd. exists W. destruct fuel; cbn [to_dense_loop]; rewrite (proj2 (Z.ltb_ge _ _)) by lia; (split; [by repeat f_equal; lia|done]).
  - apply Forall_cons in Hl as [Ho Hl]. pose proof (op_head o Ho) as (c & t & Ec & (Hz & Hx & _ & Hm) & Hc & Ht). rewrite op_enc_cons, zlen_app in *. rewrite length_app in Hf.
    pose proof (zlen_enc_op o) as Heo. assert (1 <= zlen (enc_op o)) by (rewrite Heo; destruct (is_xzero o); lia). pose proof (zlen_nonneg (enc l)).
    destruct fuel as [|f]; [unfold zlen in *; lia|]. cbn [to_dense_loop]. zdec.
    assert (rd (pre ++ (enc_op o ++ enc l) ++ rest) (zlen pre) = Some c) as -> by (rewrite Ec; apply rd_mid). cbn [mbind option_bind]. rewrite Hz, Hx.
    rewrite regs_cons, zlen_app, zlen_regs_op in Hd by done. pose proof (zlen_regs_op o Ho) as Hro. rewrite regs_cons, length_app in HW. pose proof (span_pos o Ho). pose proof (zlen_nonneg (regs l)). pose proof (zlen_nonneg dn).
    assert (forall W0, window W0 (dn ++ regs_op o ++ replicate (length (regs l)) 0) -> exists W',
      to_dense_loop f (pre ++ (enc_op o ++ enc l) ++ rest) (zlen pre + zlen (enc_op o)) (zlen pre + (zlen (enc_op o) + zlen (enc l))) (hdr ++ W0 ++ wrest) (zlen dn + span o) =
      Some (hdr ++ W' ++ wrest, 16384) /\ window W' (dn ++ regs (o :: l))) as Hnext.
    { intros W0 HW0. rewrite regs_cons, (assoc_L (++) dn).
      replace (zlen dn + span o) with (zlen (dn ++ regs_op o)) by (rewrite zlen_app; lia). replace (zlen pre + zlen (enc_op o)) with (zlen (pre ++ enc_op o)) by apply zlen_app.
      replace (pre ++ (enc_op o ++ enc l) ++ rest) with ((pre ++ enc_op o) ++ enc l ++ rest) by (by rewrite <- !(assoc_L (++))).
      apply IH; [done|unfold zlen in *; lia|done|rewrite zlen_app; lia|rewrite zlen_app; lia|by rewrite <- (assoc_L (++))]. }
    rewrite replicate_add in HW. replace (length (regs_op o)) with (Z.to_nat (span o)) in HW by (unfold zlen in Hro; lia).
    destruct o as [n|n|v n]; cbn [is_zero is_xzero span op_ok] in *.
    + rewrite Hm, s32_small by lia. rewrite <- Heo. by apply Hnext.
    + rewrite <- (assoc_L (++)), xzero_len by done. cbn [mbind option_bind]. rewrite s32_small by lia. rewrite (assoc_L (++) (enc_op _)). rewrite <- Heo. by apply Hnext.
    + destruct Hm as [-> ->]. destruct (set_run_ok (Z.to_nat n) hdr W wrest dn v (length (regs l)) Hh) as (W1 & -> & HW1).
      { unfold reg_ok. change HLL_REGISTER_MAX with 63. lia. } { by rewrite replicate_add. }
      cbn [mbind option_bind]. rewrite Z2Nat.id by lia. rewrite <- Heo. by apply Hnext.
Qed.

End Ops.

(** ** The operations *)

Section Add.
Context `{Host}.

Lemma enc_regs l : Forall op_ok l -> zlen (enc l) <= 2 * zlen (regs l).
Proof.
  induction 1 as [|o l Ho Hl IH]; [done|]. rewrite op_enc_cons, regs_cons, !zlen_app, zlen_regs_op, zlen_enc_op by done.
  pose proof (span_pos o Ho). destruct (is_xzero o); lia.
Qed.

Lemma regs_ok l : Forall op_ok l -> Forall (fun r => 0 <= r <= 32) (regs l).
Proof.
  induction 1 as [|o l Ho Hl IH]; [constructor|]. rewrite regs_cons. apply Forall_app. split; [|done].
  unfold regs_op. apply Forall_replicate. destruct o; cbn in Ho; lia.
Qed.

(** The string [s] is sparse, with the opcodes [l]. *)
Definition sparse_rep (s : sds) (hdr : list Z) (l : list op) : Prop :=
  header HLL_SPARSE hdr /\ Forall op_ok l /\ zlen (regs l) = 16384 /\ rep s (hdr ++ enc l).

Lemma empty_digits n : digits 8 (replicate n 0) = 0 /\ digits 6 (replicate n 0) = 0.
Proof. induction n as [|n IH]; [done|]. cbn [replicate digits]. lia. Qed.

Lemma toDense_ok s hdr l : sparse_rep s hdr l -> exists s' hdr' W, hllSparseToDense s = Some (s', true) /\
  header HLL_DENSE hdr' /\ s_len s' = 12304 /\ s_free s' = 0 /\ s_buf s' = hdr' ++ W /\ window W (regs l).
Proof.
  intros (Hh & Hl & Hr & Hs). pose proof (rep_sdslen _ _ Hs) as El. destruct Hs as (sp & Eb & _ & _ & Hsp). pose proof (proj1 Hh) as Hh16.
  unfold hllSparseToDense. rewrite Eb, <- (assoc_L (++)), (header_encoding _ _ _ Hh). cbn [mbind option_bind]. change (HLL_SPARSE =? HLL_DENSE) with false. cbv iota.
  cbn [sdsnewlen mbind option_bind]. rewrite rdn_prefix by done. cbn [mbind option_bind s_buf].
  assert (replicate (Z.to_nat HLL_DENSE_SIZE) 0 ++ [0] = replicate 16 0 ++ (replicate (Z.to_nat 12288) 0 ++ [0])) as ->.
  { rewrite (assoc_L (++)), <- replicate_add. do 2 f_equal. }
  rewrite wrn_prefix by (rewrite Hh16; done). cbn [mbind option_bind]. rewrite wr_header by done. cbn [mbind option_bind]. rewrite El.
  assert (window (replicate (Z.to_nat 12288) 0 ++ [0]) ([] ++ replicate (length (regs l)) 0)) as HW.
  { cbn [app]. apply body_window.
    - apply Forall_replicate. by unfold byte_ok.
    - rewrite zlen_replicate. done.
    - apply Forall_replicate. unfold reg_ok. done.
    - rewrite zlen_replicate. exact Hr.
    - by rewrite (proj1 (empty_digits _)), (proj2 (empty_digits _)). }
  destruct (to_dense_loop_ok l (Z.to_nat (zlen (hdr ++ enc l))) hdr (0 :: sp) (<[Z.to_nat hdr_encoding := HLL_DENSE]> hdr) (replicate (Z.to_nat 12288) 0 ++ [0]) [] [] (zlen (hdr ++ enc l))) as (W' & E & HW').
  { done. } { rewrite zlen_app. pose proof (zlen_nonneg hdr). unfold zlen. lia. } { by rewrite zlen_insert. } { apply zlen_app. } { exact Hr. } { exact HW. }
  rewrite app_nil_r in E. rewrite Hh16 in E. change (zlen (@nil Z)) with 0 in E. change HLL_HDR_SIZE with 16. rewrite E. cbn [mbind option_bind].
  change (16384 =? HLL_REGISTERS) with true. cbn [negb]. eexists _, (<[4%nat := HLL_DENSE]> hdr), W'. split; [done|]. cbn [s_len s_free s_buf].
  split_and!; [by eapply header_change|done|done|by rewrite app_nil_r|exact HW'].
Qed.

(** A dense string from its window. *)
Lemma dense_rep s hdr W R sp : header HLL_DENSE hdr -> window W R -> s_buf s = hdr ++ W ++ sp -> s_len s = 12304 -> s_free s = zlen sp -> 12305 + zlen sp < 2 ^ 31 ->
  exists x, rep s x /\ holds x R.
Proof.
  intros Hh HW Eb El Ef Hs. destruct (window_body W R HW) as (body & -> & Hb & Hbl & E). exists (hdr ++ body). split.
  - exists sp. rewrite Eb, <- !(assoc_L (++)). pose proof (proj1 Hh). zlen_simpl. split_and!; [done|lia|done|lia].
  - destruct HW as (_ & _ & ? & ? & _). by apply HDense.
Qed.

Lemma promote_ok s hdr l x er : sparse_rep s hdr l -> bytes_ok x -> zlen x < 2 ^ 31 -> grows (regs l) x = true ->
  exists s' y, promote s (x ++ er) (zlen x) = Some (s', 1) /\ rep s' y /\ holds y (add (regs l) x).
Proof.
  intros Hs Hx Hl Hg. destruct (toDense_ok s hdr l Hs) as (d & hdr' & W & E & Hh & E1 & E2 & E3 & HW). unfold promote. rewrite E. cbn [mbind option_bind negb].
  rewrite E3. rewrite <- (app_nil_r W). destruct (dense_add_ok hdr' W [] _ x er (proj1 Hh) HW Hx Hl) as (W' & -> & HW'). rewrite Hg. cbn [mbind option_bind Z.b2z cassert].
  change (1 =? 1) with true. cbn [cassert mbind option_bind]. rewrite E1, E2.
  destruct (dense_rep (Sds 12304 0 (hdr' ++ W' ++ [])) hdr' W' _ [] Hh HW') as (y & Hr & Hy); [done|done|done|done|]. by eexists _, y.
Qed.

Lemma updated_ok s hdr A B prev : header HLL_SPARSE hdr -> Forall op_ok A -> Forall op_ok B -> zlen (regs (A ++ B)) = 16384 -> rep s (hdr ++ enc (A ++ B)) ->
  prev = last_pos (zlen hdr) A None ->
  exists s' y, updated s prev (zlen (hdr ++ enc (A ++ B))) = Some (s', 1) /\ rep s' y /\ holds y (regs (A ++ B)).
Proof.
  intros Hh HA HB Hr Hs ->. unfold updated.
  assert (exists A1 A2, A = A1 ++ A2 /\ match last_pos (zlen hdr) A None with Some p => p | None => HLL_HDR_SIZE end = zlen hdr + zlen (enc A1)) as (A1 & A2 & -> & ->).
  { pose proof (last_pos_app A (zlen hdr) None) as P. destruct (last_pos (zlen hdr) A None) as [p|].
    - destruct P as [[_ [=]]|(A1 & A2 & -> & ->)]. by exists A1, A2.
    - destruct P as [-> _]. exists [], []. split; [done|]. rewrite (proj1 Hh). done. }
  rewrite <- (assoc_L (++)) in *. apply Forall_app in HA as [HA1 HA2].
  destruct (merge_loop_ok hdr 5 s A1 (A2 ++ B) HA1 ltac:(by apply Forall_app) Hs) as (s1 & l & E & Hs1 & Hl & Er & _).
  rewrite zlen_app, E. cbn [mbind option_bind]. destruct (invalidate_ok s1 _ hdr _ Hh Hs1) as (b & hdr' & -> & Hh' & Hs2). cbn [mbind option_bind].
  eexists _, _. split; [done|]. split; [exact Hs2|]. rewrite <- Er. apply HSparse; [done|done|by rewrite Er].
Qed.

Lemma insert_regs A o B i c : op_ok o -> zlen (regs A) <= i < zlen (regs A) + span o ->
  <[Z.to_nat i := c]> (regs (A ++ o :: B)) = regs A ++ <[Z.to_nat (i - zlen (regs A)) := c]> (regs_op o) ++ regs B.
Proof.
  intros Ho Hi. rewrite regs_app, regs_cons. replace (Z.to_nat i) with (length (regs A) + Z.to_nat (i - zlen (regs A)))%nat by (unfold zlen in *; lia).
  rewrite insert_app_r. f_equal. apply insert_app_l. pose proof (zlen_regs_op o Ho). unfold zlen in *. lia.
Qed.

Lemma lookup_regs A o B i : op_ok o -> zlen (regs A) <= i < zlen (regs A) + span o -> regs (A ++ o :: B) !! Z.to_nat i = Some (value o).
Proof.
  intros Ho Hi. rewrite regs_app, regs_cons. rewrite lookup_app_r by (unfold zlen in *; lia).
  pose proof (zlen_regs_op o Ho). rewrite lookup_app_l by (unfold zlen in *; lia). unfold regs_op. destruct o; apply lookup_replicate_2; cbn in *; unfold zlen in *; lia.
Qed.

Context (junk : nat -> Z) (hll_sparse_max_bytes : Z).

Lemma enc_length A : (length A <= length (enc A))%nat.
Proof.
  induction A as [|o A IH]; [done|]. rewrite op_enc_cons, length_app. pose proof (zlen_enc_op o). unfold zlen in *. cbn [length]. destruct (is_xzero o); lia.
Qed.

(** The last step: the opcodes [q] take the place of [o]. *)
Lemma finish_add s hdr A o q B prev count k : header HLL_SPARSE hdr -> Forall op_ok (A ++ o :: B) -> Forall op_ok q -> zlen (regs (A ++ o :: B)) = 16384 ->
  0 <= k < span o -> regs q = <[Z.to_nat k := count]> (regs_op o) -> prev = last_pos (zlen hdr) A None -> rep s ((hdr ++ enc A) ++ enc q ++ enc B) ->
  exists s' y, updated s prev (zlen ((hdr ++ enc A) ++ enc q ++ enc B)) = Some (s', 1) /\ rep s' y /\
    holds y (<[Z.to_nat (zlen (regs A) + k) := count]> (regs (A ++ o :: B))).
Proof.
  intros Hh Hl Hq Hr Hk Erq Hp Hs. apply Forall_app in Hl as [HA HoB]. apply Forall_cons in HoB as [Ho HB].
  assert (regs (A ++ q ++ B) = <[Z.to_nat (zlen (regs A) + k) := count]> (regs (A ++ o :: B))) as Er.
  { rewrite insert_regs by (done || lia). rewrite !regs_app, Erq. do 4 f_equal. lia. }
  assert ((hdr ++ enc A) ++ enc q ++ enc B = hdr ++ enc (A ++ q ++ B)) as Ee by (by rewrite !op_enc_app, <- (assoc_L (++))). rewrite Ee in *.
  rewrite <- Er. apply updated_ok; [done|done|by apply Forall_app|by rewrite Er, zlen_insert|done|done].
Qed.

(** *** The opcode that covers the register, when its value is lower *)

Section Replace.
Context (s : sds) (hdr : list Z) (A : list op) (o : op) (B : list op) (x er : list Z).
Context (Hh : header HLL_SPARSE hdr) (Hl : Forall op_ok (A ++ o :: B)) (Hr : zlen (regs (A ++ o :: B)) = 16384).
Context (Hs : rep s ((hdr ++ enc A) ++ enc_op o ++ enc B)) (Hfree : 3 <= s_free s).
Context (Hin : zlen (regs A) <= Z.of_nat (index x) < zlen (regs A) + span o) (Hlt : value o < rank x <= 32).
Let l := A ++ o :: B.
Let k := Z.of_nat (index x) - zlen (regs A).
Let prev := last_pos (zlen hdr) A None.

(** The string and the result are those of an element that was added. *)
Definition added (r : option (sds * Z)) : Prop := exists s' y, r = Some (s', 1) /\ rep s' y /\ holds y (add (regs l) x).

Lemma Ho : op_ok o.
Proof. by apply Forall_app in Hl as [_ [? _]%Forall_cons]. Qed.

Lemma reg_of_op : regs l !! index x = Some (value o).
Proof. rewrite <- (Nat2Z.id (index x)). apply lookup_regs; [exact Ho|done]. Qed.

Lemma add_finish q s2 : Forall op_ok q -> regs q = <[Z.to_nat k := rank x]> (regs_op o) -> rep s2 ((hdr ++ enc A) ++ enc q ++ enc B) ->
  added (updated s2 prev (zlen ((hdr ++ enc A) ++ enc q ++ enc B))).
Proof.
  intros Hq Erq Hs2. destruct (finish_add s2 hdr A o q B prev (rank x) k Hh Hl Hq Hr ltac:(unfold k; lia) Erq eq_refl Hs2) as (s' & y & E & Hy & Hh').
  exists s', y. split; [exact E|]. split; [done|]. unfold add. rewrite (raise_more _ _ _ _ reg_of_op) by lia.
  replace (Z.to_nat (zlen (regs A) + k)) with (index x) in Hh' by (unfold k; lia). exact Hh'.
Qed.

Lemma add_set : is_xzero o = false -> span o = 1 ->
  added (s ← set_op s (zlen (hdr ++ enc A)) (HLL_SPARSE_VAL_SET (rank x) 1); updated s prev (zlen (hdr ++ enc l))).
Proof.
  intros Hnx H1. pose proof (rank_bound x). rewrite val_set by lia.
  destruct (set_op_ok s (hdr ++ enc A) (enc_op o) (enc B) (enc_op (OVal (rank x) 1)) Hs) as (s2 & -> & Hs2); [rewrite zlen_enc_op, Hnx; done|].
  cbn [mbind option_bind]. rewrite <- enc_one in Hs2.
  destruct (add_finish [OVal (rank x) 1] s2) as (s' & y & E & Hy); [constructor; [cbn; lia|done]| |done|].
  - unfold regs_op at 1. rewrite H1. replace k with 0 by (unfold k; lia). done.
  - exists s', y. split; [|exact Hy]. rewrite <- E. apply (f_equal (updated s2 prev)). unfold l.
    rewrite op_enc_app, op_enc_cons, !zlen_app, enc_one, !zlen_enc_op, Hnx. cbn [is_xzero]. lia.
Qed.

Lemma op_registers : 0 <= zlen (regs A) /\ zlen (regs A) + span o <= 16384.
Proof.
  pose proof (zlen_nonneg (regs A)). pose proof (zlen_nonneg (regs B)).
  rewrite <- Hr, regs_app, regs_cons, !zlen_app, zlen_regs_op by exact Ho. lia.
Qed.

(** The sequence of the code, where [curval] is the value of a VAL opcode. *)
Lemma sequence_ok curval : (is_val o = true -> curval = value o) ->
  (if is_zero o || is_xzero o then split_zero (rank x) (Z.of_nat (index x)) (zlen (regs A)) (swrap 32 (zlen (regs A) + span o - 1))
   else split_val curval (rank x) (Z.of_nat (index x)) (zlen (regs A)) (swrap 32 (zlen (regs A) + span o - 1))) = enc (split o k (rank x)).
Proof.
  intros Hc. pose proof (rank_bound x). pose proof (span_pos o Ho). destruct op_registers. rewrite s32_small by lia.
  assert (Z.of_nat (index x) = zlen (regs A) + k) as Eix by (unfold k; lia). assert (0 <= k < span o) by (unfold k; lia). rewrite Eix.
  pose proof Ho as Ho'. destruct o as [n|n|v n]; cbn [is_zero is_xzero is_val orb] in *; [by apply split_zero_ok; (done || lia)|by apply split_zero_ok; (done || lia)|].
  rewrite Hc by done. apply split_val_ok; [done|done|cbn in *; lia].
Qed.

Lemma add_split curval : (is_val o = true -> curval = value o) -> bytes_ok x -> zlen x < 2 ^ 31 ->
  let e := zlen (hdr ++ enc l) in
  let p := zlen (hdr ++ enc A) in
  let seq := if is_zero o || is_xzero o then split_zero (rank x) (Z.of_nat (index x)) (zlen (regs A)) (swrap 32 (zlen (regs A) + span o - 1))
    else split_val curval (rank x) (Z.of_nat (index x)) (zlen (regs A)) (swrap 32 (zlen (regs A) + span o - 1)) in
  let oldlen := if is_xzero o then 2 else 1 in
  let next := if is_xzero o then p + 2 else p + 1 in
  added (_ ← (if zlen seq <=? 5 then Some tt else None);
    if (0 <? zlen seq - oldlen) && (hll_sparse_max_bytes <? uwrap 64 (e + (zlen seq - oldlen))) then promote s (x ++ er) (zlen x)
    else '(s, end_) ← substitute_op s p oldlen (if e <=? next then None else Some next) e seq; updated s prev end_).
Proof.
  intros Hc Hx Hxl e p seq oldlen next. pose proof (rank_bound x). unfold seq. rewrite sequence_ok by done. clear seq.
  destruct (split_ok o k (rank x) Ho ltac:(unfold k; lia) ltac:(lia)) as (Hq & Erq & Hql). rewrite (proj2 (Z.leb_le _ 5)) by lia. cbn [mbind option_bind].
  assert (hdr ++ enc l = (hdr ++ enc A) ++ enc_op o ++ enc B) as Ee by (unfold l; by rewrite <- (assoc_L (++)), <- op_enc_cons, <- op_enc_app).
  destruct (_ && _).
  - apply (promote_ok s hdr); [|done|done|].
    + split_and!; [exact Hh|exact Hl|exact Hr|]. by rewrite <- Ee in Hs.
    + unfold grows. fold l. rewrite reg_of_op. cbn [default from_option id]. apply Z.ltb_lt. lia.
  - replace oldlen with (zlen (enc_op o)) by apply zlen_enc_op.
    replace next with (p + zlen (enc_op o)) by (unfold next; rewrite zlen_enc_op; by destruct (is_xzero o)). unfold e. rewrite Ee.
    destruct (substitute_ok s (hdr ++ enc A) (enc_op o) (enc B) (enc (split o k (rank x))) Hs) as (s2 & E & Hs2).
    + rewrite zlen_enc_op. destruct (is_xzero o); lia.
    + lia.
    + lia.
    + cbv zeta in E. unfold p. rewrite E. cbn [mbind option_bind]. by apply add_finish.
Qed.

End Replace.

Lemma hllSparseAdd_ok s hdr l x er : sparse_rep s hdr l -> bytes_ok x -> zlen x < 2 ^ 31 ->
  exists s' y, hllSparseAdd junk hll_sparse_max_bytes s (x ++ er) (zlen x) = Some (s', Z.b2z (grows (regs l) x)) /\ rep s' y /\ holds y (add (regs l) x).
Proof.
  intros (Hh & Hl & Hr & Hs) Hx Hxl. unfold hllSparseAdd. rewrite hllPatLen_ok by done. cbn [mbind option_bind].
  pose proof (rank_bound x) as Hrk. pose proof (hll_index_bound x) as Hix. rewrite u8_small by lia.
  destruct (find_op l (Z.of_nat (index x)) Hl ltac:(lia)) as (A & o & B & -> & Hin).
  pose proof Hl as Hl0. apply Forall_app in Hl as [HA [Ho HB]%Forall_cons].
  pose proof (lookup_regs A o B _ Ho Hin) as Hv. rewrite Nat2Z.id in Hv.
  assert (grows (regs (A ++ o :: B)) x = (value o <? rank x)) as Hg by (unfold grows; by rewrite Hv).
  cbv zeta. change HLL_SPARSE_VAL_MAX_VALUE with 32. destruct (Z.ltb_spec 32 (rank x)) as [Hbig|Hsmall].
  { assert (grows (regs (A ++ o :: B)) x = true) as Hg1. { rewrite Hg. apply Z.ltb_lt. destruct o; cbn in *; lia. }
    rewrite Hg1. by apply (promote_ok s hdr). }
  pose proof (enc_regs _ Hl0) as Hel. rewrite Hr in Hel. pose proof (proj1 Hh) as Hh16.
  destruct (MakeRoomFor_rep junk s _ 3 Hs) as [Hs1 Hfree]; [lia|rewrite zlen_app; unfold SDS_LIMIT; lia|]. set (s1 := sdsMakeRoomFor junk s 3) in *.
  rewrite (rep_sdslen _ _ Hs1). pose proof Hs1 as (sp & Eb & _). rewrite Eb, <- (assoc_L (++)).
  replace (HLL_HDR_SIZE + zlen (hdr ++ enc (A ++ o :: B)) - HLL_HDR_SIZE) with (zlen (hdr ++ enc (A ++ o :: B))) by lia.
  assert (HLL_HDR_SIZE = zlen hdr) as Eh by (rewrite Hh16; done). rewrite Eh.
  rewrite locate_ok; [|done|done| |by rewrite zlen_app|lia].
  2:{ pose proof (enc_length A). pose proof (zlen_enc_op o). rewrite op_enc_app, op_enc_cons. unfold zlen in *. rewrite !length_app. destruct (is_xzero o); lia. }
  cbn [mbind option_bind]. pose proof (span_pos o Ho). rewrite (proj2 (Z.eqb_neq (span o) 0)) by lia.
  pose proof Hs1 as Hs2. rewrite op_enc_app, op_enc_cons, (assoc_L (++) hdr) in Hs2.
  destruct (rep_head s1 _ o _ Hs2 Ho) as (c & Ec & (Hz & Hxz & Hvb & Hm)). rewrite <- (zlen_app hdr). rewrite (assoc_L (++)), <- Eb, Ec. cbn [mbind option_bind].
  rewrite Hz, Hxz.
  assert (is_xzero o = true -> HLL_SPARSE_XZERO_LEN (s_buf s1) (zlen (hdr ++ enc A)) = Some (span o)) as HX.
  { intros Hox. destruct o as [|n|]; try done. destruct Hs2 as (sp2 & -> & _). rewrite <- !(assoc_L (++)), (assoc_L (++) hdr). by apply xzero_len. }
  destruct (Z.ltb_spec (value o) (rank x)) as [Hlt|Hle]; rewrite Hg.
  - pose proof (add_split s1 hdr A o B x er Hh Hl0 Hr Hs2 Hfree Hin ltac:(lia)) as Hsplit.
    pose proof (add_set s1 hdr A o B x Hh Hl0 Hr Hs2 Hin ltac:(lia)) as Hset.
    destruct o as [n|n|v n]; cbn [is_zero is_xzero is_val value span op_ok orb andb negb Z.b2z] in *.
    + rewrite Hm. cbn [mbind option_bind]. destruct (Z.eqb_spec n 1); [by apply Hset|by apply (Hsplit 0)].
    + rewrite HX by done. cbn [mbind option_bind]. by apply (Hsplit 0).
    + destruct Hm as [-> ->]. cbn [mbind option_bind]. rewrite (proj2 (Z.leb_gt _ _)) by done. destruct (Z.eqb_spec n 1); [by apply Hset|by apply Hsplit].
  - destruct o as [n|n|v n]; cbn [is_zero is_xzero value andb negb] in *; [lia|lia|]. destruct Hm as [-> ->]. cbn [mbind option_bind].
    rewrite (proj2 (Z.leb_le _ _)) by done. exists s1, (hdr ++ enc (A ++ OVal v n :: B)). split; [done|]. split; [exact Hs1|].
    unfold add. rewrite (raise_same _ _ _ _ Hv) by done. by apply HSparse.
Qed.

End Add.

(** ** Any encoding *)

Section All.
Context `{Host} (junk : nat -> Z) (hll_sparse_max_bytes : Z).

Lemma hllAdd_ok s y R x er : rep s y -> holds y R -> bytes_ok x -> zlen x < 2 ^ 31 ->
  exists s' y', hllAdd junk hll_sparse_max_bytes s (x ++ er) (zlen x) = Some (s', Z.b2z (grows R x)) /\ rep s' y' /\ holds y' (add R x).
Proof.
  intros Hs Hy Hx Hl. unfold hllAdd. destruct Hy as [hdr body R Hh Hb Hbl HR HRl E|hdr l Hh Hl0 Hr].
  - destruct Hs as (sp & Eb & El & Ef & Hsp). rewrite Eb, <- (assoc_L (++)), (header_encoding _ _ _ Hh). cbn [mbind option_bind]. change (HLL_DENSE =? HLL_DENSE) with true. cbv iota.
    destruct (dense_add_ok hdr (body ++ [0]) sp R x er (proj1 Hh) (body_window body R Hb Hbl HR HRl E) Hx Hl) as (W & EW & HW).
    rewrite <- (assoc_L (++) body) in EW. change ([0] ++ sp) with (0 :: sp) in EW. rewrite EW. cbn [mbind option_bind]. pose proof (proj1 Hh).
    destruct (dense_rep (Sds (s_len s) (s_free s) (hdr ++ W ++ sp)) hdr W (add R x) sp Hh HW) as (y & Hr & Hy); [done|cbn; zlia|done|zlia|]. by eexists _, y.
  - assert (exists sp, s_buf s = hdr ++ enc l ++ 0 :: sp) as [sp Eb] by (destruct Hs as (sp & -> & _); exists sp; by rewrite <- (assoc_L (++))).
    rewrite Eb, (header_encoding _ _ _ Hh). cbn [mbind option_bind]. change (HLL_SPARSE =? HLL_DENSE) with false. change (HLL_SPARSE =? HLL_SPARSE) with true. cbv iota.
    by apply (hllSparseAdd_ok junk hll_sparse_max_bytes s hdr).
Qed.

Lemma hllSparseToDense_ok s y R : rep s y -> holds y R -> exists s' y' hdr body, hllSparseToDense s = Some (s', true) /\ rep s' y' /\ holds y' R /\
  y' = hdr ++ body /\ header HLL_DENSE hdr /\ zlen body = 12288.
Proof.
  intros Hs Hy. destruct Hy as [hdr body R Hh Hb Hbl HR HRl E|hdr l Hh Hl0 Hr].
  - exists s, (hdr ++ body), hdr, body. split_and!; try done; [|by apply HDense]. destruct Hs as (sp & Eb & _). unfold hllSparseToDense.
    rewrite Eb, <- (assoc_L (++)), (header_encoding _ _ _ Hh). done.
  - destruct (toDense_ok s hdr l) as (s' & hdr' & W & Es & Hh' & E1 & E2 & E3 & HW); [by split_and!|].
    destruct (window_body W _ HW) as (body & -> & Hb & Hbl & Ed). exists s', (hdr' ++ body), hdr', body. split_and!; try done.
    + exists []. rewrite E1, E2, E3, <- (assoc_L (++)). pose proof (proj1 Hh'). zlen_simpl. split_and!; [done|lia|done|lia].
    + destruct HW as (_ & _ & ? & ? & _). by apply HDense.
Qed.

(** ** Merging *)

Lemma max_byte_ok pre m post v : 0 <= v < 256 -> max_byte (pre ++ m :: post) (zlen pre) v = Some (pre ++ Z.max m v :: post).
Proof.
  intros Hv. unfold max_byte. rewrite rd_mid. cbn [mbind option_bind]. destruct (Z.ltb_spec m v).
  - rewrite wr_app_mid by done. rewrite u8_small by lia. by rewrite Z.max_r by lia.
  - by rewrite Z.max_l by done.
Qed.

Lemma merge_dense_ok hdr W rest R : zlen hdr = 16 -> window W R -> forall n pre post, zlen pre + Z.of_nat n = 16384 -> length post = n ->
  merge_dense n (hdr ++ W ++ rest) (pre ++ post) (zlen pre) = Some (pre ++ zip_with Z.max post (drop (length pre) R)).
Proof.
  intros Hh HW. induction n as [|n IH]; intros pre post Hn Hp; cbn [merge_dense].
  - destruct post; [|done]. done.
  - destruct post as [|m post]; [done|]. change HLL_HDR_SIZE with 16. rewrite <- Hh. pose proof (zlen_nonneg pre).
    rewrite get_register_ok with (R := R) by (done || lia). replace (Z.to_nat (zlen pre)) with (length pre) by (unfold zlen; lia).
    destruct (lookup_lt_is_Some_2 R (length pre)) as [v Hv]; [destruct HW as (_ & _ & _ & HlR & _); unfold zlen in *; lia|]. rewrite Hv. cbn [mbind option_bind].
    rewrite (drop_S _ _ _ Hv). assert (reg_ok v) as Hvr by (destruct HW as (_ & _ & HR & _); rewrite Forall_lookup in HR; eauto).
    unfold reg_ok in Hvr. change HLL_REGISTER_MAX with 63 in Hvr. rewrite max_byte_ok by lia. cbn [mbind option_bind zip_with].
    change (pre ++ Z.max m v :: post) with (pre ++ [Z.max m v] ++ post). rewrite (assoc_L (++) pre). replace (zlen pre + 1) with (zlen (pre ++ [Z.max m v])) by zlia.
    rewrite IH by (rewrite ?zlen_app; cbn in *; zlia). rewrite <- (assoc_L (++)). cbn [app]. rewrite length_app, Nat.add_1_r. done.
Qed.

Lemma merge_run_ok v : 0 <= v < 256 -> forall n pre mid post, zlen pre + Z.of_nat n <= 16384 -> length mid = n ->
  merge_run n (pre ++ mid ++ post) (zlen pre) v = Some (pre ++ zip_with Z.max mid (replicate n v) ++ post, zlen pre + Z.of_nat n).
Proof.
  intros Hv. induction n as [|n IH]; intros pre mid post Hn Hm; cbn [merge_run].
  - destruct mid; [|done]. f_equal. f_equal. lia.
  - destruct mid as [|m mid]; [done|]. cbn [app replicate zip_with]. rewrite max_byte_ok by done. cbn [mbind option_bind]. pose proof (zlen_nonneg pre). rewrite s32_small by lia.
    change (pre ++ Z.max m v :: mid ++ post) with (pre ++ [Z.max m v] ++ (mid ++ post)). rewrite (assoc_L (++) pre). replace (zlen pre + 1) with (zlen (pre ++ [Z.max m v])) by zlia.
    rewrite IH by (rewrite ?zlen_app; cbn in *; zlia). rewrite <- (assoc_L (++)). cbn [app]. f_equal. f_equal. zlia.
Qed.

Lemma zip_zero l n : length l = n -> Forall (fun x => 0 <= x) l -> zip_with Z.max l (replicate n 0) = l.
Proof. intros Hn Hl. revert n Hn. induction Hl as [|x l Hx Hl IH]; intros [|n] Hn; try done. cbn. rewrite IH by (cbn in Hn; lia). f_equal. lia. Qed.

Lemma merge_sparse_ok l : forall fuel pre rest done post end_, Forall op_ok l -> (length (enc l) < fuel + 1)%nat ->
  end_ = zlen pre + zlen (enc l) -> zlen done + zlen (regs l) = 16384 -> length post = length (regs l) -> Forall (fun x => 0 <= x) post ->
  merge_sparse fuel (pre ++ enc l ++ rest) (zlen pre) end_ (done ++ post) (zlen done) = Some (done ++ zip_with Z.max post (regs l), 16384).
Proof.
  induction l as [|o l IH]; intros fuel pre rest dn post end_ Hl Hf -> Hd Hp Hpos.
  - change (zlen (enc [])) with 0. change (zlen (regs [])) with 0 in Hd. destruct post; [|done].
    destruct fuel; cbn [merge_sparse]; rewrite (proj2 (Z.ltb_ge _ _)) by lia; by repeat f_equal; lia.
  - apply Forall_cons in Hl as [Ho Hl]. pose proof (op_head o Ho) as (c & t & Ec & (Hz & Hx & _ & Hm) & _ & _). rewrite op_enc_cons, zlen_app in *. rewrite length_app in Hf.
    pose proof (zlen_enc_op o) as Heo. assert (1 <= zlen (enc_op o)) by (rewrite Heo; destruct (is_xzero o); lia). pose proof (zlen_nonneg (enc l)).
    destruct fuel as [|f]; [unfold zlen in *; lia|]. cbn [merge_sparse]. zdec.
    assert (rd (pre ++ (enc_op o ++ enc l) ++ rest) (zlen pre) = Some c) as -> by (rewrite Ec; apply rd_mid). cbn [mbind option_bind]. rewrite Hz, Hx.
    rewrite regs_cons, zlen_app, zlen_regs_op in Hd by done. pose proof (zlen_regs_op o Ho) as Hro. rewrite regs_cons, length_app in Hp. pose proof (span_pos o Ho). pose proof (zlen_nonneg (regs l)). pose proof (zlen_nonneg dn).
    rewrite <- (take_drop (length (regs_op o)) post) in Hpos |- *. assert (length (take (length (regs_op o)) post) = length (regs_op o)) as Hm1 by (rewrite length_take; lia).
    assert (length (drop (length (regs_op o)) post) = length (regs l)) as Hm2 by (rewrite length_drop; lia).
    revert Hm1 Hm2 Hpos. generalize (take (length (regs_op o)) post), (drop (length (regs_op o)) post). clear Hp. intros p1 p2 Hp1 Hp2 [Hpos1 Hpos2]%Forall_app.
    rewrite regs_cons, zip_with_app by (by rewrite Hp1).
    assert (merge_sparse f (pre ++ (enc_op o ++ enc l) ++ rest) (zlen pre + zlen (enc_op o)) (zlen pre + (zlen (enc_op o) + zlen (enc l)))
      (dn ++ zip_with Z.max p1 (regs_op o) ++ p2) (zlen dn + span o) = Some (dn ++ zip_with Z.max p1 (regs_op o) ++ zip_with Z.max p2 (regs l), 16384)) as Hnext.
    { assert (length (zip_with Z.max p1 (regs_op o)) = length (regs_op o)) as Hzl by (rewrite length_zip_with; lia).
      rewrite !(assoc_L (++) dn). replace (zlen dn + span o) with (zlen (dn ++ zip_with Z.max p1 (regs_op o))) by (rewrite zlen_app; unfold zlen in *; lia).
      replace (zlen pre + zlen (enc_op o)) with (zlen (pre ++ enc_op o)) by apply zlen_app.
      replace (pre ++ (enc_op o ++ enc l) ++ rest) with ((pre ++ enc_op o) ++ enc l ++ rest) by (by rewrite <- !(assoc_L (++))).
      apply IH; [done|unfold zlen in *; lia|rewrite zlen_app; lia|rewrite zlen_app; unfold zlen in *; lia|done|done]. }
    assert (length (regs_op o) = Z.to_nat (span o)) as Hsl by (unfold zlen in Hro; lia).
    destruct o as [n|n|v n]; cbn [is_zero is_xzero span op_ok] in *.
    + rewrite Hm, s32_small by lia. rewrite <- Heo. unfold regs_op in Hnext at 1. cbn [span] in Hnext. rewrite zip_zero in Hnext by (done || lia). apply Hnext.
    + rewrite <- (assoc_L (++)), xzero_len by done. cbn [mbind option_bind]. rewrite s32_small by lia. rewrite (assoc_L (++) (enc_op _)). rewrite <- Heo.
      unfold regs_op in Hnext at 1. cbn [span] in Hnext. rewrite zip_zero in Hnext by (done || lia). apply Hnext.
    + destruct Hm as [-> ->]. rewrite merge_run_ok by (lia || done). cbn [mbind option_bind]. rewrite Z2Nat.id by lia. rewrite <- Heo. apply Hnext.
Qed.

Lemma merge_zero max W hdr rest R : zlen hdr = 16 -> window W R -> zlen max = 16384 ->
  merge_dense (Z.to_nat HLL_REGISTERS) (hdr ++ W ++ rest) max 0 = Some (union max R).
Proof.
  intros Hh HW Hm. assert (exists n, n = Z.to_nat HLL_REGISTERS /\ Z.of_nat n = 16384) as (n & <- & Hn) by (eexists; split; [reflexivity|by rewrite Z2Nat.id]).
  apply (merge_dense_ok hdr W rest R Hh HW n [] max); [exact Hn|unfold zlen in Hm; lia].
Qed.

Lemma hllMerge_dense max s : rd (s_buf s) hdr_encoding = Some HLL_DENSE ->
  hllMerge max s = (max ← merge_dense (Z.to_nat HLL_REGISTERS) (s_buf s) max 0; Some (max, true)).
Proof. intros E. unfold hllMerge. generalize (Z.to_nat HLL_REGISTERS). intros n. by rewrite E. Qed.

Lemma hllMerge_sparse max s : rd (s_buf s) hdr_encoding = Some HLL_SPARSE ->
  hllMerge max s = ('(max, i) ← merge_sparse (Z.to_nat (sdslen s)) (s_buf s) HLL_HDR_SIZE (sdslen s) max 0; Some (max, i =? HLL_REGISTERS)).
Proof. intros E. unfold hllMerge. generalize (Z.to_nat HLL_REGISTERS). intros n. by rewrite E. Qed.

Lemma hllMerge_ok max s y R : rep s y -> holds y R -> zlen max = 16384 -> Forall (fun x => 0 <= x) max -> hllMerge max s = Some (union max R, true).
Proof.
  intros Hs Hy Hm Hpos. destruct Hy as [hdr body R Hh Hb Hbl HR HRl E|hdr l Hh Hl0 Hr].
  - destruct Hs as (sp & Eb & _). rewrite hllMerge_dense; rewrite Eb, <- (assoc_L (++)); [|by apply header_encoding].
    pose proof (merge_zero max (body ++ [0]) hdr sp R (proj1 Hh) (body_window body R Hb Hbl HR HRl E) Hm) as M.
    rewrite <- (assoc_L (++) body) in M. change ([0] ++ sp) with (0 :: sp) in M. by rewrite M.
  - rewrite hllMerge_sparse; rewrite ?(rep_sdslen _ _ Hs); destruct Hs as (sp & Eb & _); rewrite Eb, <- (assoc_L (++)); [|by apply header_encoding].
    pose proof (merge_sparse_ok l (Z.to_nat (zlen (hdr ++ enc l))) hdr (0 :: sp) [] max (zlen (hdr ++ enc l)) Hl0) as M. rewrite (proj1 Hh) in M. change (zlen (@nil Z)) with 0 in M. cbn [app] in M.
    change HLL_HDR_SIZE with 16. rewrite M; [done| |by rewrite zlen_app, (proj1 Hh)|exact Hr|unfold zlen in *; lia|done].
    rewrite zlen_app, (proj1 Hh). unfold zlen. lia.
Qed.

End All.

(** ** What the registers are *)

Lemma zlen_empty : zlen empty = 16384.
Proof. unfold empty. rewrite zlen_replicate, Z2Nat.id by done. reflexivity. Qed.

Definition fresh_bytes : list Z := [72; 89; 76; 76; 1; 0; 0; 0; 0; 0; 0; 0; 0; 0; 0; 0] ++ [127; 255].

Lemma new_hll_bytes : new_hll = Some (Sds 18 0 (fresh_bytes ++ [0])).
Proof. vm_compute. reflexivity. Qed.

Lemma new_hll_ok : exists s y, new_hll = Some s /\ rep s y /\ holds y empty.
Proof.
  exists (Sds 18 0 (fresh_bytes ++ [0])), fresh_bytes. split; [exact new_hll_bytes|]. split; [exists []; by split_and!|].
  assert (regs [OXzero 16384] = empty) as E. { unfold regs. cbn [map concat]. rewrite app_nil_r. unfold regs_op, empty, span. f_equal. }
  rewrite <- E. change fresh_bytes with ([72; 89; 76; 76; 1; 0; 0; 0; 0; 0; 0; 0; 0; 0; 0; 0] ++ enc [OXzero 16384]).
  assert (zlen (regs [OXzero 16384]) = 16384) as Hz by (rewrite E; exact zlen_empty). clear E.
  apply (HSparse [72; 89; 76; 76; 1; 0; 0; 0; 0; 0; 0; 0; 0; 0; 0; 0] [OXzero 16384]); [split; reflexivity| |exact Hz].
  constructor; [cbn; lia|constructor].
Qed.

Lemma empty_lookup i : Z.of_nat i < 16384 -> empty !! i = Some 0.
Proof. intros Hi. apply lookup_replicate_2. change HLL_REGISTERS with 16384. lia. Qed.

Lemma zlen_registers l : zlen (registers l) = 16384.
Proof.
  unfold registers. assert (forall R, zlen R = 16384 -> zlen (fold_left add l R) = 16384) as HL; [|by apply HL, zlen_empty].
  induction l as [|x l IH]; intros R HR; [done|]. apply IH. unfold add. by rewrite zlen_raise.
Qed.

Lemma lookup_raise (R : list Z) i r j v : R !! j = Some v -> raise R i r !! j = Some (if Nat.eqb i j then Z.max v r else v).
Proof.
  intros Hv. unfold raise. destruct (Nat.eqb_spec i j) as [->|].
  - rewrite Hv. cbn [default from_option id]. apply list_lookup_insert_eq. by eapply lookup_lt_Some.
  - by rewrite list_lookup_insert_ne by done.
Qed.

Lemma fold_add l : forall (R : list Z) i v, R !! i = Some v -> fold_left add l R !! i = Some (Z.max v (longest l i)) \/ v < 0.
Proof.
  induction l as [|x l IH]; intros R i v Hv; cbn [fold_left]; (destruct (Z.ltb_spec v 0); [by right|left]).
  - rewrite Hv. f_equal. unfold longest. cbn. lia.
  - pose proof (lookup_raise R (index x) (rank x) i v Hv) as E. fold (add R x) in E. destruct (IH _ _ _ E) as [->|?].
    + f_equal. unfold longest. cbn [List.filter]. destruct (Nat.eqb (index x) i); cbn [map foldr]; lia.
    + destruct (Nat.eqb (index x) i); lia.
Qed.

Lemma longest_nonneg l i : 0 <= longest l i.
Proof. unfold longest. induction (map rank _) as [|r m IH]; cbn [foldr]; lia. Qed.

(** A register is the longest pattern of the elements that have its index. *)
Lemma registers_lookup l i : Z.of_nat i < 16384 -> registers l !! i = Some (longest l i).
Proof.
  intros Hi. destruct (fold_add l empty i 0 (empty_lookup i Hi)) as [E|?]; [|lia]. unfold registers. rewrite E. f_equal. pose proof (longest_nonneg l i). lia.
Qed.

Lemma longest_app l k i : longest (l ++ k) i = Z.max (longest l i) (longest k i).
Proof.
  unfold longest. rewrite List.filter_app, map_app, foldr_app.
  assert (forall m a, 0 <= a -> foldr Z.max a m = Z.max (foldr Z.max 0 m) a) as HM.
  { clear. induction m as [|r m IH]; intros a Ha; cbn [foldr]; [lia|]. rewrite IH by done. lia. }
  rewrite HM; [done|]. exact (longest_nonneg k i).
Qed.

Lemma registers_ext l k : (forall i, Z.of_nat i < 16384 -> longest l i = longest k i) -> registers l = registers k.
Proof.
  intros E. apply list_eq. intros i. destruct (Z.ltb_spec (Z.of_nat i) 16384) as [Hi|Hi].
  - by rewrite !registers_lookup, E.
  - rewrite !lookup_ge_None_2; [done| |]; pose proof (zlen_registers l); pose proof (zlen_registers k); unfold zlen in *; lia.
Qed.

(** Merging is adding the elements of both. *)
Lemma union_registers l k : union (registers l) (registers k) = registers (l ++ k).
Proof.
  apply list_eq. intros i. unfold union. rewrite lookup_zip_with. destruct (Z.ltb_spec (Z.of_nat i) 16384) as [Hi|Hi].
  - rewrite !registers_lookup by done. cbn. by rewrite longest_app.
  - assert (forall l, registers l !! i = None) as HN. { intros m. apply lookup_ge_None_2. pose proof (zlen_registers m). unfold zlen in *. lia. } by rewrite !HN.
Qed.

Lemma union_empty R : zlen R = 16384 -> Forall (fun x => 0 <= x) R -> union empty R = R.
Proof.
  intros Hl HR. unfold union, empty. change HLL_REGISTERS with 16384. assert (length R = Z.to_nat 16384) as E by (unfold zlen in Hl; lia). revert E.
  generalize (Z.to_nat 16384). clear Hl. induction HR as [|x R Hx HR IH]; intros [|n] E; try done. cbn [replicate zip_with]. rewrite IH by (cbn in E; lia). f_equal. lia.
Qed.

Lemma registers_nonneg l : Forall (fun x => 0 <= x) (registers l).
Proof.
  apply Forall_lookup. intros i v Hv. pose proof (lookup_lt_Some _ _ _ Hv) as Hi. pose proof (zlen_registers l). unfold zlen in *.
  rewrite registers_lookup in Hv by lia. injection Hv as <-. apply longest_nonneg.
Qed.


(** ** The theorems *)

Section Theorems.
Context `{Host} (junk : nat -> Z) (hll_sparse_max_bytes : Z).

(** The loop of PFADD on the elements: the string, and whether a register changed. *)
Fixpoint add_elements (l : list (list Z)) (s : sds) (updated : bool) : option (sds * bool) :=
  match l with
  | [] => Some (s, updated)
  | x :: l =>
      '(s, r) ← hllAdd junk hll_sparse_max_bytes s (x ++ [0]) (zlen x);
      if r =? -1 then None else add_elements l s (updated || (r =? 1))
  end.

Definition element_ok (x : list Z) : Prop := bytes_ok x /\ zlen x < 2 ^ 31.

Lemma add_elements_ok l : forall s y R u, rep s y -> holds y R -> Forall element_ok l ->
  exists s' y' v, add_elements l s u = Some (s', v) /\ rep s' y' /\ holds y' (fold_left add l R).
Proof.
  induction l as [|x l IH]; intros s y R u Hs Hy Hl; cbn [add_elements fold_left]; [by exists s, y, u|].
  apply Forall_cons in Hl as [[Hx Hxl] Hl]. destruct (hllAdd_ok junk hll_sparse_max_bytes s y R x [0] Hs Hy Hx Hxl) as (s1 & y1 & -> & Hs1 & Hy1).
  cbn [mbind option_bind]. destruct (grows R x); cbn [Z.b2z]; by eapply IH.
Qed.

(** C28. A HyperLogLog to which elements are added, whatever its encoding on the way and the
    limit of the sparse one, never touches memory outside its string; at the end each of
    its registers is the longest pattern of the elements of that register, so the order of
    the elements and their repetitions do not matter. *)
Theorem hll_registers l : Forall element_ok l -> exists s0 s y u, new_hll = Some s0 /\ add_elements l s0 false = Some (s, u) /\ rep s y /\
  exists R, holds y R /\ zlen R = 16384 /\ forall i, Z.of_nat i < 16384 -> R !! i = Some (longest l i).
Proof.
  intros Hl. destruct new_hll_ok as (s0 & y0 & E0 & Hs0 & Hy0). destruct (add_elements_ok l s0 y0 empty false Hs0 Hy0 Hl) as (s & y & u & E & Hs & Hy).
  exists s0, s, y, u. split_and!; [done|done|done|]. exists (registers l). split_and!; [done|apply zlen_registers|apply registers_lookup].
Qed.

(** C21. Adding an element to any valid HyperLogLog, dense or sparse, raises the register of
    its hash to the length of its pattern and leaves the others as they are; the result is
    1 exactly when the register changes.  The splitting of an opcode, the merging of its
    neighbours and the change to the dense encoding keep the representation. *)
Theorem hllAdd_correct s y R x : rep s y -> holds y R -> element_ok x ->
  exists s' y', hllAdd junk hll_sparse_max_bytes s (x ++ [0]) (zlen x) = Some (s', Z.b2z (default 0 (R !! index x) <? rank x)) /\ rep s' y' /\
    holds y' (<[index x := Z.max (default 0 (R !! index x)) (rank x)]> R).
Proof. intros Hs Hy [Hx Hl]. by apply (hllAdd_ok junk hll_sparse_max_bytes s y R x [0]). Qed.

(** The change of a valid HyperLogLog to the dense encoding succeeds, gives a string of
    exactly HLL_DENSE_SIZE bytes and keeps every register. *)
Theorem hllSparseToDense_correct s y R : rep s y -> holds y R ->
  exists s' y', hllSparseToDense s = Some (s', true) /\ rep s' y' /\ holds y' R /\ zlen y' = HLL_DENSE_SIZE /\ rd y' hdr_encoding = Some HLL_DENSE.
Proof.
  intros Hs Hy. destruct (hllSparseToDense_ok s y R Hs Hy) as (s' & y' & hdr & body & E & Hs' & Hy' & -> & Hh & Hb).
  exists s', (hdr ++ body). split_and!; [done|done|done|rewrite zlen_app, (proj1 Hh), Hb; done|by apply header_encoding].
Qed.

(** Merging valid HyperLogLogs is adding the elements of all of them: the maxima that
    PFCOUNT and PFMERGE compute are the registers of the union. *)
Theorem hllMerge_correct s t y z l k : rep s y -> holds y (registers l) -> rep t z -> holds z (registers k) ->
  (max ← hllMerge empty s; hllMerge (fst max) t) = Some (registers (l ++ k), true).
Proof.
  intros Hs Hy Ht Hz. rewrite (hllMerge_ok empty s y (registers l) Hs Hy zlen_empty); [|by apply Forall_replicate].
  cbn [mbind option_bind fst]. rewrite union_empty by (apply zlen_registers || apply registers_nonneg).
  rewrite (hllMerge_ok _ t z (registers k) Ht Hz); [by rewrite union_registers|apply zlen_registers|apply registers_nonneg].
Qed.

(** A string that passes every test of isHLLObjectOrReply: its opcodes give one register too
    many. *)
Definition corrupted : list Z := [72; 89; 76; 76; 1; 0; 0; 0; 0; 0; 0; 0; 0; 0; 0; 0; 127; 255; 128].

End Theorems.

(** The opcodes of a sparse HyperLogLog come from the user (SETRANGE, RESTORE) and are not
    checked before they are used: with one run too many, hllMerge writes past the array of
    the maxima, which is on the stack, and hllSparseToDense past the string it allocates. *)
Theorem corrupted_hll_overflows (h : Host) : rep (Sds 19 0 (corrupted ++ [0])) corrupted /\ header HLL_SPARSE (take 16 corrupted) /\
  hllMerge empty (Sds 19 0 (corrupted ++ [0])) = None /\ hllSparseToDense (Sds 19 0 (corrupted ++ [0])) = None.
Proof.
  split; [exists []; by split_and!|]. split; [by split|]. split; vm_compute; reflexivity.
Qed.

(** ** Witnesses *)

Section Witnesses.

#[local] Instance little : Host := {| big_endian := false |}.

Definition words : list (list Z) := [str "foo"; str "bar"; str "zap"; str "foo"].

Lemma words_ok : Forall element_ok words.
Proof. repeat first [apply Forall_nil_2 | apply Forall_cons_2; [split; [repeat first [apply Forall_nil_2 | apply Forall_cons_2; [by vm_compute|]]|by vm_compute]|]]. Qed.

Lemma hll_registers_witness : exists s0 s y u, new_hll = Some s0 /\ add_elements (fun _ => 7) 3000 words s0 false = Some (s, u) /\ rep s y /\
  exists R, holds y R /\ zlen R = 16384 /\ forall i, Z.of_nat i < 16384 -> R !! i = Some (longest words i).
Proof. exact (hll_registers (fun _ => 7) 3000 words words_ok). Defined.

Lemma hllAdd_correct_witness : exists s' y', hllAdd (fun _ => 7) 3000 (Sds 18 0 (fresh_bytes ++ [0])) (str "foo" ++ [0]) 3 = Some (s', 1) /\ rep s' y' /\
  holds y' (<[index (str "foo") := Z.max (default 0 (empty !! index (str "foo"))) (rank (str "foo"))]> empty).
Proof.
  destruct new_hll_ok as (s0 & y0 & E0 & Hs0 & Hy0). rewrite new_hll_bytes in E0. injection E0 as <-.
  assert (element_ok (str "foo")) as Hx by (pose proof words_ok as Hw; by apply Forall_cons in Hw as [? _]).
  destruct (hllAdd_correct (fun _ => 7) 3000 _ y0 empty (str "foo") Hs0 Hy0 Hx) as (s' & y' & E & Hs' & Hy').
  exists s', y'. split; [|split; [exact Hs'|exact Hy']].
  assert ((default 0 (empty !! index (str "foo")) <? rank (str "foo")) = true) as G by (vm_compute; reflexivity). rewrite G in E. exact E.
Defined.

Lemma hllSparseToDense_correct_witness : exists s' y', hllSparseToDense (Sds 18 0 (fresh_bytes ++ [0])) = Some (s', true) /\ rep s' y' /\ holds y' empty /\
  zlen y' = HLL_DENSE_SIZE /\ rd y' hdr_encoding = Some HLL_DENSE.
Proof.
  destruct new_hll_ok as (s0 & y0 & E0 & Hs0 & Hy0). rewrite new_hll_bytes in E0. injection E0 as <-.
  exact (hllSparseToDense_correct _ y0 empty Hs0 Hy0).
Defined.

Lemma hllMerge_correct_witness : exists s t, (max ← hllMerge empty s; hllMerge (fst max) t) = Some (registers (words ++ words), true).
Proof.
  destruct (hll_registers_witness) as (s0 & s & y & u & _ & _ & Hs & _).
  destruct new_hll_ok as (s1 & y1 & _ & Hs1 & Hy1). destruct (add_elements_ok (fun _ => 7) 3000 words s1 y1 empty false Hs1 Hy1 words_ok) as (t & z & v & _ & Ht & Hz).
  exists t, t. exact (hllMerge_correct t t z z words words Ht Hz Ht Hz).
Defined.

End Witnesses.
