(* ===== verification/Rio.v ===== *)
(** * rio.c and rio.h: streams of bytes

    A stream reads from or writes to a dynamic string, in chunks of at most
    [r_chunk] bytes (0 means no limit), and may keep a checksum of the bytes that go
    through it.  The streams on files are not modelled. *)

From S2P Require Import Prelude Util Sds Crc64.

Record rio := Rio {
  r_ptr : sds;               (* io.buffer.ptr *)
  r_pos : Z;                 (* io.buffer.pos *)
  r_update_cksum : bool;     (* update_cksum is rioGenericUpdateChecksum, or NULL *)
  r_cksum : Z;
  r_processed : Z;
  r_chunk : Z }.             (* max_processing_chunk *)

Definition with_buffer (r : rio) (s : sds) (pos : Z) : rio :=
  Rio s pos (r_update_cksum r) (r_cksum r) (r_processed r) (r_chunk r).
Definition with_cksum (r : rio) (c : Z) : rio :=
  Rio (r_ptr r) (r_pos r) (r_update_cksum r) c (r_processed r) (r_chunk r).
Definition add_processed (r : rio) (n : Z) : rio :=
  Rio (r_ptr r) (r_pos r) (r_update_cksum r) (r_cksum r) (uwrap 64 (r_processed r + n)) (r_chunk r).

Definition rioInitWithBuffer (s : sds) : rio := Rio s 0 false 0 0 0.

Section Rio.
Context (junk : nat -> Z).

(** The stream after the write, which always succeeds. *)
Definition rioBufferWrite (r : rio) (buf : list Z) (len : Z) : option rio :=
  s ← sdscatlen junk (r_ptr r) buf len;
  Some (with_buffer r s (swrap 64 (r_pos r + len))).

(** The bytes read, or [None] when there are not enough. *)
Definition rioBufferRead (r : rio) (len : Z) : option (rio * option (list Z)) :=
  if uwrap 64 (sdslen (r_ptr r) - r_pos r) <? len then Some (r, None)
  else
    b ← rdn (s_buf (r_ptr r)) (r_pos r) len;
    Some (with_buffer r (r_ptr r) (swrap 64 (r_pos r + len)), Some b).

Definition rioBufferTell (r : rio) : Z := r_pos r.

Definition rioGenericUpdateChecksum (r : rio) (buf : list Z) (len : Z) : option rio :=
  c ← crc64 (r_cksum r) buf len; Some (with_cksum r c).

Definition update_cksum (r : rio) (buf : list Z) (len : Z) : option rio :=
  if r_update_cksum r then rioGenericUpdateChecksum r buf len else Some r.

(** The bytes of the next step of a loop that has [len] left. *)
Definition chunk_of (r : rio) (len : Z) : Z :=
  if negb (r_chunk r =? 0) && (r_chunk r <? len) then r_chunk r else len.

Fixpoint rioWrite_loop (fuel : nat) (r : rio) (buf : list Z) (len : Z) : option rio :=
  if len =? 0 then Some r else
  match fuel with
  | O => None
  | S f =>
      let n := chunk_of r len in
      r ← update_cksum r buf n;
      r ← rioBufferWrite r buf n;
      rioWrite_loop f (add_processed r n) (drop (Z.to_nat n) buf) (len - n)
  end.

Definition rioWrite (r : rio) (buf : list Z) (len : Z) : option rio := rioWrite_loop (Z.to_nat len) r buf len.

(** [acc] are the bytes that the previous steps put in the buffer of the caller. *)
Fixpoint rioRead_loop (fuel : nat) (r : rio) (acc : list Z) (len : Z) : option (rio * option (list Z)) :=
  if len =? 0 then Some (r, Some acc) else
  match fuel with
  | O => None
  | S f =>
      let n := chunk_of r len in
      '(r, b) ← rioBufferRead r n;
      match b with
      | None => Some (r, None)
      | Some b =>
          r ← update_cksum r b n;
          rioRead_loop f (add_processed r n) (acc ++ b) (len - n)
      end
  end.

Definition rioRead (r : rio) (len : Z) : option (rio * option (list Z)) := rioRead_loop (Z.to_nat len) r [] len.

(** ** The protocol of the append only file and of MIGRATE; with the size written *)

Definition rioWriteBulkCount (r : rio) (prefix count : Z) : option (rio * Z) :=
  '(b, n) ← Num.ll2string (map junk (seq 1 127)) 127 (swrap 32 count);
  let cbuf := prefix :: b in
  let clen := swrap 32 (1 + n) in
  cbuf ← wr cbuf clen 13;
  cbuf ← wr cbuf (clen + 1) 10;
  let clen := clen + 2 in
  r ← rioWrite r cbuf clen;
  Some (r, clen).

Definition rioWriteBulkString (r : rio) (buf : list Z) (len : Z) : option (rio * Z) :=
  '(r, nwritten) ← rioWriteBulkCount r 36 len;
  r ← (if 0 <? len then rioWrite r buf len else Some r);
  r ← rioWrite r [13; 10] 2;
  Some (r, uwrap 64 (nwritten + len + 2)).

Definition rioWriteBulkLongLong (r : rio) (l : Z) : option (rio * Z) :=
  '(lbuf, llen) ← Num.ll2string (map junk (seq 0 32)) 32 l;
  rioWriteBulkString r lbuf (uwrap 32 llen).

End Rio.
