(* ===== verification/RioThms.v ===== *)
(** * The streams of rio.c: writes, reads and checksums *)

From S2P Require Import Prelude Util Sds Crc64 Rio.
Import SdsSpec SdsFacts Crc64Spec Crc64Facts.

(** A stream after [b] went through it, with the buffer [s]. *)
Definition through (r : rio) (s : sds) (b : list Z) : rio :=
  Rio s (swrap 64 (r_pos r + zlen b)) (r_update_cksum r)
    (if r_update_cksum r then crc_bits (r_cksum r) b else r_cksum r)
    (uwrap 64 (r_processed r + zlen b)) (r_chunk r).

Record stream_ok (r : rio) : Prop := StreamOk {
  so_pos : in_s 64 (r_pos r);
  so_processed : in_u 64 (r_processed r);
  so_chunk : 0 <= r_chunk r;
  so_cksum : 0 <= r_cksum r }.

(** The stream is between [pre] and [rest] in its buffer. *)
Record reading (r : rio) (pre rest : list Z) : Prop := Reading {
  rd_rep : rep (r_ptr r) (pre ++ rest);
  rd_pos : r_pos r = zlen pre;
  rd_ok : stream_ok r;
  rd_bytes : bytes_ok rest }.

Lemma swrap_swrap_add w a b : 0 < w -> swrap w (swrap w a + b) = swrap w (a + b).
Proof.
  intros Hw. unfold swrap. f_equal.
  replace ((a + 2 ^ (w - 1)) mod 2 ^ w - 2 ^ (w - 1) + b + 2 ^ (w - 1)) with ((a + 2 ^ (w - 1)) mod 2 ^ w + b) by lia.
  rewrite Zplus_mod_idemp_l. f_equal. lia.
Qed.

Lemma uwrap_uwrap_add w a b : uwrap w (uwrap w a + b) = uwrap w (a + b).
Proof. apply Zplus_mod_idemp_l. Qed.

Lemma through_ok r s b : stream_ok r -> bytes_ok b -> stream_ok (through r s b).
Proof.
  intros [Hp Hq Hc Hk] Hb. split; cbn.
  - by apply swrap_range.
  - by apply uwrap_range.
  - done.
  - destruct (r_update_cksum r); [by apply crc_bits_nonneg|done].
Qed.

Lemma through_app r s t b c : through (through r s b) t c = through r t (b ++ c).
Proof.
  unfold through. cbn. rewrite swrap_swrap_add, uwrap_uwrap_add, zlen_app, !Z.add_assoc, crc_bits_app by lia.
  by destruct (r_update_cksum r).
Qed.

Lemma through_nil r : stream_ok r -> through r (r_ptr r) [] = r.
Proof.
  intros [Hp Hq _ _]. unfold through. rewrite zlen_nil, !Z.add_0_r, swrap_small, uwrap_small by done.
  unfold crc_bits. cbn. by destruct r as [? ? [] ? ? ?].
Qed.

Lemma chunk_range r len : stream_ok r -> 0 < len -> 0 < chunk_of r len <= len.
Proof.
  intros Ho Hl. pose proof (so_chunk r Ho). unfold chunk_of.
  destruct (Z.eqb_spec (r_chunk r) 0); cbn [negb andb]; [lia|]. destruct (Z.ltb_spec (r_chunk r) len); lia.
Qed.

Lemma update_cksum_ok r s b tl : stream_ok r -> bytes_ok b ->
  exists k, update_cksum r (b ++ tl) (zlen b) = Some (with_cksum r k) /\
    with_cksum r k = Rio (r_ptr r) (r_pos r) (r_update_cksum r) (r_cksum (through r s b)) (r_processed r) (r_chunk r).
Proof.
  intros [_ _ _ Hk] Hb. unfold update_cksum, rioGenericUpdateChecksum, through. cbn. destruct (r_update_cksum r) eqn:E.
  - rewrite crc64_ok by done. cbn. exists (crc_bits (r_cksum r) b). unfold with_cksum. by rewrite E.
  - exists (r_cksum r). destruct r; cbn in *. by rewrite E.
Qed.

Section Rio.
Context (junk : nat -> Z).

Lemma write_loop_ok fuel : forall r x b tl, stream_ok r -> rep (r_ptr r) x -> bytes_ok b ->
  zlen x + zlen b <= SDS_LIMIT -> zlen b <= Z.of_nat fuel ->
  exists s, rioWrite_loop junk fuel r (b ++ tl) (zlen b) = Some (through r s b) /\ rep s (x ++ b).
Proof.
  induction fuel as [|f IH]; intros r x b tl Ho Hr Hb Hl Hf; pose proof (zlen_nonneg b) as Hn; cbn [rioWrite_loop].
  all: destruct (Z.eqb_spec (zlen b) 0) as [E|E]; [apply zlen_0_inv in E as ->; exists (r_ptr r); by rewrite through_nil, app_nil_r|].
  { lia. }
  destruct (chunk_range r (zlen b) Ho) as [Hc1 Hc2]; [lia|]. set (n := chunk_of r (zlen b)) in *. clearbody n.
  destruct (split_at b n) as (u & v & -> & Hu & Hv); [lia|]. apply Forall_app in Hb as [Hbu Hbv]. rewrite zlen_app in *.
  rewrite <- (assoc_L (++)) in *. rewrite <- Hu in *. destruct (update_cksum_ok r (r_ptr r) u (v ++ tl) Ho Hbu) as (k & -> & Ek).
  cbn [mbind option_bind]. unfold rioBufferWrite. rewrite Ek. cbn [r_ptr].
  destruct (catlen_rep junk (r_ptr r) x u Hr) as (s & Es & Hs); [lia|].
  assert (sdscatlen junk (r_ptr r) (u ++ v ++ tl) (zlen u) = Some s) as ->.
  { unfold sdscatlen in *. rewrite rdn_whole in Es. by rewrite rdn_prefix. }
  cbn [mbind option_bind]. unfold with_buffer, add_processed. cbn [r_ptr r_pos r_update_cksum r_cksum r_processed r_chunk].
  change (Rio s (swrap 64 (r_pos r + zlen u)) (r_update_cksum r) (r_cksum (through r (r_ptr r) u)) (uwrap 64 (r_processed r + zlen u)) (r_chunk r)) with (through r s u).
  replace (drop (Z.to_nat (zlen u)) (u ++ v ++ tl)) with (v ++ tl) by (unfold zlen; by rewrite Nat2Z.id, drop_app_length).
  replace (zlen u + zlen v - zlen u) with (zlen v) by lia.
  destruct (IH (through r s u) (x ++ u) v tl) as (t & -> & Ht); [by apply through_ok|done|done|zlia|lia|].
  exists t. rewrite through_app. split; [done|]. by rewrite (assoc_L (++)).
Qed.

Lemma rioWrite_ok r x b tl n : stream_ok r -> rep (r_ptr r) x -> bytes_ok b -> zlen x + zlen b <= SDS_LIMIT -> n = zlen b ->
  exists s, rioWrite junk r (b ++ tl) n = Some (through r s b) /\ rep s (x ++ b).
Proof. intros Ho Hr Hb Hl ->. apply write_loop_ok; try done. unfold zlen. lia. Qed.

End Rio.

(** The buffer of a stream fits in the int of its length. *)
Lemma reading_bounds r pre rest : reading r pre rest -> zlen pre + zlen rest < 2 ^ 31 /\ sdslen (r_ptr r) = zlen pre + zlen rest.
Proof.
  intros [Hr _ _ _]. rewrite (rep_sdslen _ _ Hr), zlen_app. destruct Hr as (sp & _ & _ & _ & H). rewrite zlen_app in H. pose proof (zlen_nonneg sp). lia.
Qed.

Lemma rioBufferRead_ok r pre b rest : reading r pre (b ++ rest) ->
  rioBufferRead r (zlen b) = Some (with_buffer r (r_ptr r) (swrap 64 (r_pos r + zlen b)), Some b).
Proof.
  intros Hr. destruct (reading_bounds _ _ _ Hr) as [Hb Hl]. rewrite zlen_app in *. destruct Hr as [(sp & Eb & _) Hp _ _].
  pose proof (zlen_nonneg pre). pose proof (zlen_nonneg b). pose proof (zlen_nonneg rest).
  unfold rioBufferRead. rewrite Hl, Hp. wrap_small. zdec.
  rewrite Eb, <- !(assoc_L (++)), (rdn_app_mid pre b) by done. done.
Qed.

Lemma rioBufferRead_short r pre rest n : reading r pre rest -> zlen rest < n -> rioBufferRead r n = Some (r, None).
Proof.
  intros Hr Hn. destruct (reading_bounds _ _ _ Hr) as [Hb Hl]. destruct Hr as [_ Hp _ _].
  pose proof (zlen_nonneg pre). pose proof (zlen_nonneg rest). unfold rioBufferRead. rewrite Hl, Hp. wrap_small. by zdec.
Qed.

Lemma reading_through r pre b rest : reading r pre (b ++ rest) -> reading (through r (r_ptr r) b) (pre ++ b) rest.
Proof.
  intros Hr. destruct (reading_bounds _ _ _ Hr) as [Hl _]. destruct Hr as [Hr Hp Ho Hb]. apply Forall_app in Hb as [Hb Hrest]. split.
  - cbn. by rewrite <- (assoc_L (++)).
  - cbn. rewrite zlen_app in *. pose proof (zlen_nonneg pre). pose proof (zlen_nonneg b). pose proof (zlen_nonneg rest). rewrite Hp. wrap_small. done.
  - by apply through_ok.
  - done.
Qed.

Lemma read_loop_ok fuel : forall r pre b rest acc, reading r pre (b ++ rest) -> zlen b <= Z.of_nat fuel ->
  rioRead_loop fuel r acc (zlen b) = Some (through r (r_ptr r) b, Some (acc ++ b)).
Proof.
  induction fuel as [|f IH]; intros r pre b rest acc Hr Hf; pose proof (zlen_nonneg b) as Hn; pose proof (rd_ok _ _ _ Hr) as Ho; cbn [rioRead_loop].
  all: destruct (Z.eqb_spec (zlen b) 0) as [E|E]; [apply zlen_0_inv in E as ->; by rewrite through_nil, app_nil_r|].
  { lia. }
  destruct (chunk_range r (zlen b) Ho) as [Hc1 Hc2]; [lia|]. set (n := chunk_of r (zlen b)) in *. clearbody n.
  destruct (split_at b n) as (u & v & -> & Hu & Hv); [lia|]. rewrite <- (assoc_L (++)) in Hr. rewrite zlen_app in *. rewrite <- Hu in *.
  rewrite (rioBufferRead_ok r pre u (v ++ rest) Hr). cbn [mbind option_bind].
  pose proof (rd_bytes _ _ _ Hr) as Hb. apply Forall_app in Hb as [Hbu _].
  set (r1 := with_buffer r (r_ptr r) (swrap 64 (r_pos r + zlen u))).
  assert (stream_ok r1) as Ho1 by (destruct Ho; split; cbn; try done; by apply swrap_range).
  destruct (update_cksum_ok r1 (r_ptr r) u [] Ho1 Hbu) as (k & Eu & Ek). rewrite app_nil_r in Eu. rewrite Eu. cbn [mbind option_bind]. rewrite Ek.
  change (add_processed _ (zlen u)) with (through r (r_ptr r) u). replace (zlen u + zlen v - zlen u) with (zlen v) by lia.
  rewrite (IH _ (pre ++ u) v rest (acc ++ u)); [by rewrite through_app, <- (assoc_L (++))|by apply reading_through|lia].
Qed.

Lemma rioRead_ok r pre b rest n : reading r pre (b ++ rest) -> n = zlen b ->
  rioRead r n = Some (through r (r_ptr r) b, Some b).
Proof. intros Hr ->. apply (read_loop_ok _ r pre b rest []); [done|]. unfold zlen. lia. Qed.

Lemma read_loop_short fuel : forall r pre rest acc n, reading r pre rest -> zlen rest < n <= Z.of_nat fuel ->
  exists r', rioRead_loop fuel r acc n = Some (r', None).
Proof.
  induction fuel as [|f IH]; intros r pre rest acc n Hr Hn; pose proof (zlen_nonneg rest); [lia|]. cbn [rioRead_loop]. zdec.
  pose proof (rd_ok _ _ _ Hr) as Ho. destruct (chunk_range r n Ho) as [Hc1 Hc2]; [lia|]. set (m := chunk_of r n) in *. clearbody m.
  destruct (decide (zlen rest < m)) as [Hm|Hm]; [rewrite (rioBufferRead_short r pre rest) by done; by eexists|].
  destruct (split_at rest m) as (u & v & -> & Hu & Hv); [lia|]. rewrite <- Hu in *. rewrite zlen_app in *.
  rewrite (rioBufferRead_ok r pre u v Hr). cbn [mbind option_bind]. pose proof (rd_bytes _ _ _ Hr) as Hb. apply Forall_app in Hb as [Hbu _].
  set (r1 := with_buffer r (r_ptr r) (swrap 64 (r_pos r + zlen u))).
  assert (stream_ok r1) as Ho1 by (destruct Ho; split; cbn; try done; by apply swrap_range).
  destruct (update_cksum_ok r1 (r_ptr r) u [] Ho1 Hbu) as (k & Eu & Ek). rewrite app_nil_r in Eu. rewrite Eu. cbn [mbind option_bind]. rewrite Ek.
  change (add_processed _ (zlen u)) with (through r (r_ptr r) u). apply (IH _ (pre ++ u) v); [by apply reading_through|lia].
Qed.

Lemma rioRead_short r pre rest n : reading r pre rest -> zlen rest < n -> exists r', rioRead r n = Some (r', None).
Proof. intros Hr Hn. apply (read_loop_short _ r pre rest); [done|]. pose proof (zlen_nonneg rest). lia. Qed.
