(* ===== verification/Rdb.v ===== *)
(** * rdb.c and migrate.c: the serialization of strings

    The functions that save write to a stream, or to none to compute a size; the functions
    that load read from a stream.  An object that is loaded is what the code passes to
    createObject or createStringObjectFromLongLong. *)

From S2P Require Import Prelude Endian Util Sds Crc64 Lzf Server Rio.

Definition REDIS_RDB_VERSION : Z := 6.
Definition REDIS_RDB_6BITLEN : Z := 0.
Definition REDIS_RDB_14BITLEN : Z := 1.
Definition REDIS_RDB_32BITLEN : Z := 2.
Definition REDIS_RDB_ENCVAL : Z := 3.
Definition REDIS_RDB_LENERR : Z := 2 ^ 32 - 1.
Definition REDIS_RDB_ENC_INT8 : Z := 0.
Definition REDIS_RDB_ENC_INT16 : Z := 1.
Definition REDIS_RDB_ENC_INT32 : Z := 2.
Definition REDIS_RDB_ENC_LZF : Z := 3.
Definition REDIS_RDB_TYPE_STRING : Z := 0.

Definition rdbIsObjectType (t : Z) : bool :=
  ((0 <=? t) && (t <=? 4)) || ((9 <=? t) && (t <=? 13)).

(** htonl and ntohl of the C library. *)
Definition htonl `{Host} (v : Z) : Z := if big_endian then v else intrev32 v.
Definition ntohl `{Host} (v : Z) : Z := htonl v.

Section Rdb.
Context `{Host} `{ServerEnv} (rdb_compression : bool) (htab : Lzf.htab_t).

(** ** Saving.  A function has the stream and the number of bytes written, or -1. *)

(** [if ((n = x) == -1) return -1;] *)
Definition checked (x : option (option rio * Z)) (k : option rio -> Z -> option (option rio * Z)) : option (option rio * Z) :=
  '(rdb, n) ← x; if n =? -1 then Some (rdb, -1) else k rdb n.

Definition rdbWriteRaw (rdb : option rio) (p : list Z) (len : Z) : option (option rio * Z) :=
  match rdb with
  | Some r => r ← rioWrite junk r p len; Some (Some r, swrap 32 len)
  | None => Some (None, swrap 32 len)
  end.

Definition rdbSaveType (rdb : option rio) (type : Z) : option (option rio * Z) := rdbWriteRaw rdb [uwrap 8 type] 1.

Definition rdbSaveMillisecondTime (rdb : option rio) (t : Z) : option (option rio * Z) :=
  rdbWriteRaw rdb (host_enc 8 (swrap 64 t)) 8.

Definition rdbSaveLen (rdb : option rio) (len : Z) : option (option rio * Z) :=
  if len <? Z.shiftl 1 6 then
    checked (rdbWriteRaw rdb [uwrap 8 (Z.lor (Z.land len 0xff) (Z.shiftl REDIS_RDB_6BITLEN 6))] 1) (fun rdb _ => Some (rdb, 1))
  else if len <? Z.shiftl 1 14 then
    checked (rdbWriteRaw rdb [uwrap 8 (Z.lor (Z.land (Z.shiftr len 8) 0xff) (Z.shiftl REDIS_RDB_14BITLEN 6)); uwrap 8 (Z.land len 0xff)] 2)
      (fun rdb _ => Some (rdb, 2))
  else
    checked (rdbWriteRaw rdb [uwrap 8 (Z.shiftl REDIS_RDB_32BITLEN 6)] 1) (fun rdb _ =>
    checked (rdbWriteRaw rdb (host_enc 4 (htonl len)) 4) (fun rdb _ => Some (rdb, 1 + 4))).

(** The bytes put in [enc]; none when the value has no encoding. *)
Definition rdbEncodeInteger (value : Z) : list Z :=
  let byte i := uwrap 8 (Z.land (Z.shiftr value i) 0xff) in
  let head enc := uwrap 8 (Z.lor (Z.shiftl REDIS_RDB_ENCVAL 6) enc) in
  if (- Z.shiftl 1 7 <=? value) && (value <=? Z.shiftl 1 7 - 1) then [head REDIS_RDB_ENC_INT8; byte 0]
  else if (- Z.shiftl 1 15 <=? value) && (value <=? Z.shiftl 1 15 - 1) then [head REDIS_RDB_ENC_INT16; byte 0; byte 8]
  else if (- Z.shiftl 1 31 <=? value) && (value <=? Z.shiftl 1 31 - 1) then
    [head REDIS_RDB_ENC_INT32; byte 0; byte 8; byte 16; byte 24]
  else [].

Definition rdbTryIntegerEncoding (s : list Z) (len : Z) : option (list Z) :=
  '(value, endptr, _) ← strtoll s;
  e ← rd endptr 0;
  if negb (e =? 0) then Some [] else
  '(buf, _) ← Num.ll2string (map junk (seq 0 32)) 32 value;
  n ← strlen buf;
  if negb (n =? len) then Some [] else
  c ← memcmp (Z.to_nat len) buf s;
  if negb (c =? 0) then Some [] else Some (rdbEncodeInteger value).

Definition rdbSaveLzfStringObject (rdb : option rio) (s : list Z) (len : Z) : option (option rio * Z) :=
  if len <=? 4 then Some (rdb, 0) else
  let outlen := len - 4 in
  let out := map junk (seq 0 (Z.to_nat (outlen + 1))) in
  '(out, comprlen) ← Lzf.lzf_compress htab s (uwrap 32 len) out (uwrap 32 outlen);
  if comprlen =? 0 then Some (rdb, 0) else
  checked (rdbWriteRaw rdb [uwrap 8 (Z.lor (Z.shiftl REDIS_RDB_ENCVAL 6) REDIS_RDB_ENC_LZF)] 1) (fun rdb n1 =>
  checked (rdbSaveLen rdb (uwrap 32 comprlen)) (fun rdb n2 =>
  checked (rdbSaveLen rdb (uwrap 32 len)) (fun rdb n3 =>
  checked (rdbWriteRaw rdb out comprlen) (fun rdb n4 => Some (rdb, swrap 32 (n1 + n2 + n3 + n4)))))).

Definition rdbSaveRawString (rdb : option rio) (s : list Z) (len : Z) : option (option rio * Z) :=
  enc ← (if len <=? 11 then rdbTryIntegerEncoding s len else Some []);
  if 0 <? zlen enc then checked (rdbWriteRaw rdb enc (zlen enc)) (fun rdb _ => Some (rdb, zlen enc)) else
  checked (if rdb_compression && (20 <? len) then rdbSaveLzfStringObject rdb s len else Some (rdb, 0)) (fun rdb n =>
  if 0 <? n then Some (rdb, n) else
  checked (rdbSaveLen rdb (uwrap 32 len)) (fun rdb n =>
  if 0 <? len then checked (rdbWriteRaw rdb s len) (fun rdb _ => Some (rdb, swrap 32 (n + len))) else Some (rdb, n))).

Definition rdbSaveLongLongAsStringObject (rdb : option rio) (value : Z) : option (option rio * Z) :=
  let enc := rdbEncodeInteger value in
  if 0 <? zlen enc then rdbWriteRaw rdb enc (zlen enc)
  else
    '(buf, enclen) ← Num.ll2string (map junk (seq 0 32)) 32 value;
    _ ← cassert (enclen <? 32);
    checked (rdbSaveLen rdb (uwrap 32 enclen)) (fun rdb n1 =>
    checked (rdbWriteRaw rdb buf enclen) (fun rdb n2 => Some (rdb, swrap 32 (n1 + n2)))).

Definition rdbSaveStringObject (rdb : option rio) (obj : robject) : option (option rio * Z) :=
  if o_encoding obj =? REDIS_ENCODING_INT then
    match o_ptr obj with PLong v => rdbSaveLongLongAsStringObject rdb v | _ => None end
  else
    _ ← cassert (o_encoding obj =? REDIS_ENCODING_RAW);
    match o_ptr obj with PSds s => rdbSaveRawString rdb (s_buf s) (sdslen s) | _ => None end.

(** The objects of other types are not modelled. *)
Definition rdbSaveObjectType (rdb : option rio) (o : robject) : option (option rio * Z) :=
  if o_type o =? REDIS_STRING then rdbSaveType rdb REDIS_RDB_TYPE_STRING else None.

Definition rdbSaveObject (rdb : option rio) (o : robject) : option (option rio * Z) :=
  if o_type o =? REDIS_STRING then checked (rdbSaveStringObject rdb o) (fun rdb n => Some (rdb, n)) else None.

(** The size that an object would take. *)
Definition rdbSavedObjectLen (o : robject) : option Z :=
  '(_, len) ← rdbSaveObject None o; _ ← cassert (negb (len =? -1)); Some len.

(** ** Loading.  [None] in a result is an error that the code reports. *)

Definition rdbLoadType (rdb : rio) : option (rio * Z) :=
  '(rdb, b) ← rioRead rdb 1;
  match b with Some b => t ← rd b 0; Some (rdb, t) | None => Some (rdb, -1) end.

Definition rdbLoadTime (rdb : rio) : option (rio * Z) :=
  '(rdb, b) ← rioRead rdb 4;
  Some (rdb, match b with Some b => swrap 32 (host_dec b) | None => -1 end).

Definition rdbLoadMillisecondTime (rdb : rio) : option (rio * Z) :=
  '(rdb, b) ← rioRead rdb 8;
  Some (rdb, match b with Some b => swrap 64 (host_dec b) | None => -1 end).

(** The length, and whether it is the number of an encoding. *)
Definition rdbLoadLen (rdb : rio) : option (rio * Z * bool) :=
  '(rdb, b) ← rioRead rdb 1;
  match b with
  | None => Some (rdb, REDIS_RDB_LENERR, false)
  | Some b =>
      b0 ← rd b 0;
      let type := Z.shiftr (Z.land b0 0xc0) 6 in
      if type =? REDIS_RDB_ENCVAL then Some (rdb, Z.land b0 0x3f, true)
      else if type =? REDIS_RDB_6BITLEN then Some (rdb, Z.land b0 0x3f, false)
      else if type =? REDIS_RDB_14BITLEN then
        '(rdb, b) ← rioRead rdb 1;
        match b with
        | None => Some (rdb, REDIS_RDB_LENERR, false)
        | Some b => b1 ← rd b 0; Some (rdb, Z.lor (Z.shiftl (Z.land b0 0x3f) 8) b1, false)
        end
      else
        '(rdb, b) ← rioRead rdb 4;
        match b with
        | None => Some (rdb, REDIS_RDB_LENERR, false)
        | Some b => Some (rdb, ntohl (host_dec b), false)
        end
  end.

(** An object to create: createObject(REDIS_STRING,val), or
    createStringObjectFromLongLong(val). *)
Inductive created := CreateRaw (val : sds) | CreateLongLong (val : Z).

Definition rdbLoadIntegerObject (rdb : rio) (enctype : Z) (encode : bool) : option (rio * option created) :=
  '(rdb, val) ←
    (if enctype =? REDIS_RDB_ENC_INT8 then
       '(rdb, b) ← rioRead rdb 1;
       match b with
       | None => Some (rdb, None)
       | Some enc => e0 ← rd enc 0; Some (rdb, Some (swrap 8 e0))
       end
     else if enctype =? REDIS_RDB_ENC_INT16 then
       '(rdb, b) ← rioRead rdb 2;
       match b with
       | None => Some (rdb, None)
       | Some enc => e0 ← rd enc 0; e1 ← rd enc 1; Some (rdb, Some (swrap 16 (Z.lor e0 (Z.shiftl e1 8))))
       end
     else if enctype =? REDIS_RDB_ENC_INT32 then
       '(rdb, b) ← rioRead rdb 4;
       match b with
       | None => Some (rdb, None)
       | Some enc =>
           e0 ← rd enc 0; e1 ← rd enc 1; e2 ← rd enc 2; e3 ← rd enc 3;
           Some (rdb, Some (swrap 32 (Z.lor (Z.lor (Z.lor e0 (Z.shiftl e1 8)) (Z.shiftl e2 16)) (Z.shiftl e3 24))))
       end
     else None);
  match val with
  | None => Some (rdb, None)
  | Some val => if encode then Some (rdb, Some (CreateLongLong val)) else s ← sdsfromlonglong val; Some (rdb, Some (CreateRaw s))
  end.

Definition rdbLoadLzfStringObject (rdb : rio) : option (rio * option created) :=
  '(rdb, clen, _) ← rdbLoadLen rdb;
  if clen =? REDIS_RDB_LENERR then Some (rdb, None) else
  '(rdb, len, _) ← rdbLoadLen rdb;
  if len =? REDIS_RDB_LENERR then Some (rdb, None) else
  val ← sdsnewlen None len;
  '(rdb, c) ← rioRead rdb clen;
  match c with
  | None => Some (rdb, None)
  | Some c =>
      '(b, n) ← Lzf.lzf_decompress c clen (s_buf val) len;
      if n =? 0 then Some (rdb, None) else Some (rdb, Some (CreateRaw (Sds (s_len val) (s_free val) b)))
  end.

Definition rdbGenericLoadStringObject (rdb : rio) (encode : bool) : option (rio * option created) :=
  '(rdb, len, isencoded) ← rdbLoadLen rdb;
  if isencoded : bool then
    if (len =? REDIS_RDB_ENC_INT8) || (len =? REDIS_RDB_ENC_INT16) || (len =? REDIS_RDB_ENC_INT32) then
      rdbLoadIntegerObject rdb len encode
    else if len =? REDIS_RDB_ENC_LZF then rdbLoadLzfStringObject rdb
    else None
  else if len =? REDIS_RDB_LENERR then Some (rdb, None)
  else
    val ← sdsnewlen None len;
    if len =? 0 then Some (rdb, Some (CreateRaw val)) else
    '(rdb, b) ← rioRead rdb len;
    match b with
    | None => Some (rdb, None)
    | Some b => b ← wrn (s_buf val) 0 b; Some (rdb, Some (CreateRaw (Sds (s_len val) (s_free val) b)))
    end.

Definition rdbLoadStringObject (rdb : rio) : option (rio * option created) := rdbGenericLoadStringObject rdb false.
Definition rdbLoadEncodedStringObject (rdb : rio) : option (rio * option created) := rdbGenericLoadStringObject rdb true.

Definition rdbLoadObjectType (rdb : rio) : option (rio * Z) :=
  '(rdb, type) ← rdbLoadType rdb;
  if type =? -1 then Some (rdb, -1) else if negb (rdbIsObjectType type) then Some (rdb, -1) else Some (rdb, type).

(** ** The payload of DUMP and RESTORE (migrate.c) *)

Definition createDumpPayload (o : robject) : option rio :=
  e ← sdsempty;
  let payload := rioInitWithBuffer e in
  '(payload, n) ← rdbSaveObjectType (Some payload) o;
  _ ← cassert (negb (n =? 0));
  '(payload, n) ← rdbSaveObject payload o;
  _ ← cassert (negb (n =? 0));
  payload ← payload;
  s ← sdscatlen junk (r_ptr payload) [Z.land REDIS_RDB_VERSION 0xff; Z.land (Z.shiftr REDIS_RDB_VERSION 8) 0xff] 2;
  crc ← crc64 0 (s_buf s) (sdslen s);
  crc ← memrev64ifbe (host_enc 8 crc) 0;
  s ← sdscatlen junk s crc 8;
  Some (with_buffer payload s (r_pos payload)).

Definition verifyDumpPayload (p : list Z) (len : Z) : option bool :=
  if len <? 10 then Some false else
  let footer := len - 10 in
  f0 ← rd p footer;
  f1 ← rd p (footer + 1);
  let rdbver := uwrap 16 (Z.lor (Z.shiftl f1 8) f0) in
  if negb (rdbver =? REDIS_RDB_VERSION) then Some false else
  crc ← crc64 0 p (len - 8);
  crc ← memrev64ifbe (host_enc 8 crc) 0;
  foot ← rdn p (footer + 2) 8;
  c ← memcmp 8 crc foot;
  Some (c =? 0).

End Rdb.
