(* ===== verification/RdbFacts.v ===== *)
(** * The serialization of strings: lemmas *)

From S2P Require Import Prelude Endian Util Sds Crc64 Lzf Server ServerFacts ObjFacts Rio RioThms Rdb.
Import SdsSpec SdsFacts QuoteFacts SplitFacts Crc64Spec Crc64Facts EndianFacts LzfSpec.

(** ** Specification *)

(** What a length is saved as. *)
Definition code_len (n : Z) : list Z :=
  if n <? 64 then [n] else if n <? 16384 then [64 + n / 256; n mod 256] else 128 :: reverse (le_enc 4 n).

(** What an integer of at most 32 bits is saved as. *)
Definition code_int (v : Z) : list Z :=
  if (- 128 <=? v) && (v <? 128) then 192 :: le_enc 1 v
  else if (- 32768 <=? v) && (v <? 32768) then 193 :: le_enc 2 v
  else if (- 2147483648 <=? v) && (v <? 2147483648) then 194 :: le_enc 4 v
  else [].

(** A saving function appends [b] to any stream and returns [n]; without a stream it
    returns the same size. *)
Definition saves `{ServerEnv} (m : option rio -> option (option rio * Z)) (b : list Z) (n : Z) : Prop :=
  bytes_ok b /\ m None = Some (None, n) /\
  forall r x, stream_ok r -> rep (r_ptr r) x -> zlen x + zlen b <= SDS_LIMIT ->
    exists s, m (Some r) = Some (Some (through r s b), n) /\ rep s (x ++ b).

(** A loading function consumes [b], whatever comes next in the stream, and gives [v]. *)
Definition loads {A} (f : rio -> option (rio * A)) (b : list Z) (v : A) : Prop :=
  forall r pre rest, reading r pre (b ++ rest) -> f r = Some (through r (r_ptr r) b, v).

(** The text of an object that a load creates. *)
Definition created_is (c : created) (x : list Z) : Prop :=
  match c with CreateRaw s => rep s x | CreateLongLong v => in_s 64 v /\ x = print v end.

Section Codes.
Context `{Host} `{ServerEnv}.

(** ** Combining functions *)

Lemma saves_raw b tl n : bytes_ok b -> n = zlen b -> zlen b < 2 ^ 31 -> saves (fun rdb => rdbWriteRaw rdb (b ++ tl) n) b n.
Proof.
  intros Hb -> Hl. pose proof (zlen_nonneg b). split; [done|]. unfold rdbWriteRaw. wrap_small. split; [done|].
  intros r x Ho Hr Hx. destruct (rioWrite_ok junk r x b tl _ Ho Hr Hb Hx eq_refl) as (s & -> & Hs). by exists s.
Qed.

Lemma saves_bytes b n : bytes_ok b -> n = zlen b -> zlen b < 2 ^ 31 -> saves (fun rdb => rdbWriteRaw rdb b n) b n.
Proof. intros Hb Hn Hl. pose proof (saves_raw b [] n Hb Hn Hl) as S. by rewrite app_nil_r in S. Qed.

Lemma saves_ret n : saves (fun rdb => Some (rdb, n)) [] n.
Proof.
  split; [constructor|]. split; [done|]. intros r x Ho Hr _. exists (r_ptr r). by rewrite through_nil, app_nil_r.
Qed.

Lemma saves_checked m k b c n n' : saves m b n -> n <> -1 -> saves (fun rdb => k rdb n) c n' ->
  saves (fun rdb => checked (m rdb) k) (b ++ c) n'.
Proof.
  intros (Hb & Em & Hm) Hn (Hc & Ek & Hk). unfold checked. split; [by apply Forall_app|].
  rewrite Em. cbn [mbind option_bind]. apply Z.eqb_neq in Hn. rewrite Hn. split; [done|].
  intros r x Ho Hr Hx. rewrite zlen_app in Hx. pose proof (zlen_nonneg c). destruct (Hm r x Ho Hr) as (s & -> & Hs); [lia|].
  cbn [mbind option_bind]. rewrite Hn. destruct (Hk (through r s b) (x ++ b)) as (t & -> & Ht); [by apply through_ok|done|zlia|].
  exists t. by rewrite through_app, (assoc_L (++)).
Qed.

Lemma saves_last m k b n n' : saves m b n -> n <> -1 -> saves (fun rdb => k rdb n) [] n' -> saves (fun rdb => checked (m rdb) k) b n'.
Proof. intros. rewrite <- (app_nil_r b). by eapply saves_checked. Qed.

(** ** Lengths *)

Lemma code_len_ok n : 0 <= n < 2 ^ 32 -> bytes_ok (code_len n) /\ 1 <= zlen (code_len n) <= 5.
Proof.
  intros Hn. unfold code_len. destruct (Z.ltb_spec n 64); [|destruct (Z.ltb_spec n 16384)].
  - split; [|zlia]. repeat constructor; lia.
  - split; [|zlia]. pose proof (Z.mod_pos_bound n 256). assert (0 <= n / 256 < 64) by (split; [apply Z.div_pos|apply Z.div_lt_upper_bound]; lia).
    apply Forall_cons. split; [unfold byte_ok; lia|]. apply Forall_cons. split; [unfold byte_ok; lia|constructor].
  - rewrite zlen_cons. unfold zlen at 1 2. rewrite length_reverse, length_le_enc. split; [|lia].
    constructor; [unfold byte_ok; lia|]. apply Forall_reverse, le_enc_ok.
Qed.

Lemma host_htonl n : host_enc 4 (htonl n) = reverse (le_enc 4 n).
Proof.
  unfold htonl. destruct big_endian eqn:E; [unfold host_enc; by rewrite E|].
  rewrite intrev32_spec, host_enc_dec_n; [unfold host_enc; by rewrite E| |].
  - apply Forall_reverse, host_enc_ok.
  - by rewrite length_reverse, length_host_enc.
Qed.

Lemma htonl_range n : in_u 32 n -> in_u 32 (htonl n).
Proof.
  intros Hn. unfold htonl. destruct big_endian; [done|]. rewrite intrev32_spec. unfold host_dec, in_u.
  pose proof (host_enc_ok 4 n) as Hb. pose proof (zlen_host_enc 4 n) as Hz. unfold zlen in Hz.
  assert (forall y, bytes_ok y -> length y = 4%nat -> 0 <= le_dec y < 2 ^ 32) as Hd.
  { intros y Hy Hl. pose proof (le_dec_bound y Hy) as B. unfold zlen in B. rewrite Hl in B. exact B. }
  destruct big_endian; (apply Hd; [rewrite ?Forall_reverse; done|rewrite ?length_reverse; lia]).
Qed.

Lemma ntohl_htonl n : in_u 32 n -> ntohl (host_dec (reverse (le_enc 4 n))) = n.
Proof.
  intros Hn. rewrite <- host_htonl, host_dec_enc. pose proof (htonl_range n Hn) as Hr. unfold in_u in Hr.
  rewrite Z.mod_small by (change (256 ^ Z.of_nat 4) with (2 ^ 32); lia).
  unfold ntohl, htonl. destruct big_endian; [done|]. by apply intrev32_involutive.
Qed.

Lemma saves_len n : 0 <= n < 2 ^ 32 -> saves (fun rdb => rdbSaveLen rdb n) (code_len n) (zlen (code_len n)).
Proof.
  intros Hn. destruct (code_len_ok n Hn) as [Hb _]. revert Hb. unfold rdbSaveLen, code_len.
  change (Z.shiftl 1 6) with 64. change (Z.shiftl 1 14) with 16384. change (Z.shiftl REDIS_RDB_6BITLEN 6) with 0.
  change (Z.shiftl REDIS_RDB_14BITLEN 6) with 64. change (uwrap 8 (Z.shiftl REDIS_RDB_32BITLEN 6)) with 128.
  assert (forall z, Z.land z 255 = z mod 256) as Hm by (intros; by apply (Z.land_ones z 8)).
  destruct (Z.ltb_spec n 64); [|destruct (Z.ltb_spec n 16384)]; intros Hb.
  - rewrite Hm, Z.lor_0_r, Z.mod_small, u8_small by lia. eapply saves_last; [by apply saves_bytes|lia|apply saves_ret].
  - assert (0 <= n / 256 < 64) as Hd by (split; [apply Z.div_pos|apply Z.div_lt_upper_bound]; lia).
    rewrite !Hm, Z.shiftr_div_pow2 by done. change (2 ^ 8) with 256. rewrite (Z.mod_small (n / 256)) by lia. rewrite (u8_small (n mod 256)) by (apply Z.mod_pos_bound; lia).
    assert (Z.lor (n / 256) 64 = 64 + n / 256) as -> by (rewrite Z.lor_comm; change 64 with (Z.shiftl 1 6) at 1; rewrite lor_shift_add; lia).
    rewrite u8_small by lia.
    eapply saves_last; [by apply saves_bytes|lia|apply saves_ret].
  - apply Forall_cons in Hb as [Hb Hc]. change (128 :: ?x) with ([128] ++ x).
    assert (zlen (reverse (le_enc 4 n)) = 4) as Hl by (unfold zlen; by rewrite length_reverse, length_le_enc).
    eapply saves_checked; [apply saves_bytes; [by repeat constructor|done|done]|done|]. rewrite zlen_app, Hl.
    eapply saves_last; [rewrite host_htonl; apply saves_bytes; [done|by rewrite Hl|by rewrite Hl]|done|apply saves_ret].
Qed.

Lemma len_head c : 0 <= c < 64 -> forall k, 0 <= k < 4 -> Z.shiftr (Z.land (k * 64 + c) 0xc0) 6 = k /\ Z.land (k * 64 + c) 0x3f = c.
Proof.
  intros Hc k Hk. split.
  - rewrite Z.shiftr_land. change (Z.shiftr 0xc0 6) with (Z.ones 2). rewrite Z.land_ones, Z.shiftr_div_pow2 by done.
    change (2 ^ 6) with 64. rewrite Z.div_add_l, Z.div_small, Z.add_0_r by lia. apply Z.mod_small. lia.
  - change 0x3f with (Z.ones 6). rewrite Z.land_ones by done. change (2 ^ 6) with 64.
    rewrite Z.add_comm, Z.mod_add by done. apply Z.mod_small. lia.
Qed.

Lemma loads_len n : 0 <= n < 2 ^ 32 -> forall r pre rest, reading r pre (code_len n ++ rest) ->
  rdbLoadLen r = Some (through r (r_ptr r) (code_len n), n, false).
Proof.
  intros Hn r pre rest Hr. unfold rdbLoadLen. unfold code_len in *. destruct (Z.ltb_spec n 64); [|destruct (Z.ltb_spec n 16384)].
  - rewrite (rioRead_ok r pre [n] rest) by done. cbn [mbind option_bind]. rewrite rd_0. cbn [mbind option_bind].
    destruct (len_head n ltac:(lia) 0 ltac:(lia)) as [E1 E2]. rewrite Z.add_0_l in E1, E2. by rewrite E1, E2.
  - cbn [app] in Hr. rewrite (rioRead_ok r pre [64 + n / 256] (n mod 256 :: rest)) by done. cbn [mbind option_bind]. rewrite rd_0. cbn [mbind option_bind].
    assert (0 <= n / 256 < 64) as Hd by (split; [apply Z.div_pos|apply Z.div_lt_upper_bound]; lia).
    destruct (len_head (n / 256) Hd 1 ltac:(lia)) as [E1 E2]. rewrite Z.mul_1_l in E1, E2. rewrite E1, E2. cbn [Z.eqb REDIS_RDB_ENCVAL REDIS_RDB_6BITLEN REDIS_RDB_14BITLEN Pos.eqb].
    apply (reading_through r pre [64 + n / 256]) in Hr. rewrite (rioRead_ok _ _ [n mod 256] rest) by done. cbn [mbind option_bind]. rewrite rd_0. cbn [mbind option_bind].
    rewrite lor_shift_add by (done || apply Z.mod_pos_bound; done). rewrite through_app. cbn [app]. do 3 f_equal.
    change (2 ^ 8) with 256. rewrite Z.mul_comm. symmetry. by apply Z.div_mod.
  - cbn [app] in Hr. rewrite (rioRead_ok r pre [128] (reverse (le_enc 4 n) ++ rest)) by done. cbn [mbind option_bind]. rewrite rd_0. cbn [mbind option_bind].
    change (Z.shiftr (Z.land 128 192) 6) with 2. cbn [Z.eqb REDIS_RDB_ENCVAL REDIS_RDB_6BITLEN REDIS_RDB_14BITLEN Pos.eqb].
    apply (reading_through r pre [128]) in Hr. rewrite (rioRead_ok _ _ (reverse (le_enc 4 n)) rest) by (done || unfold zlen; by rewrite length_reverse, length_le_enc).
    cbn [mbind option_bind]. rewrite ntohl_htonl, through_app by done. done.
Qed.

Lemma loads_len_enc c r pre rest : 0 <= c < 64 -> reading r pre (192 + c :: rest) ->
  rdbLoadLen r = Some (through r (r_ptr r) [192 + c], c, true).
Proof.
  intros Hc Hr. unfold rdbLoadLen. rewrite (rioRead_ok r pre [192 + c] rest) by done. cbn [mbind option_bind]. rewrite rd_0. cbn [mbind option_bind].
  destruct (len_head c Hc 3 ltac:(lia)) as [E1 E2]. change (3 * 64) with 192 in *. by rewrite E1, E2.
Qed.

(** ** Integers *)

Lemma code_int_ok v : rdbEncodeInteger v = code_int v /\ bytes_ok (code_int v) /\ zlen (code_int v) <= 5.
Proof.
  unfold rdbEncodeInteger, code_int. change (Z.shiftl 1 7) with 128. change (Z.shiftl 1 15) with 32768. change (Z.shiftl 1 31) with 2147483648.
  assert (forall i, 0 <= i -> uwrap 8 (Z.land (Z.shiftr v i) 255) = (v / 2 ^ i) mod 256) as Hb.
  { intros i Hi. change 255 with (Z.ones 8). rewrite Z.land_ones, Z.shiftr_div_pow2 by done. unfold uwrap. by rewrite Z.mod_mod. }
  rewrite !Hb by done. change (v / 2 ^ 0) with (v / 1). rewrite Z.div_1_r.
  assert (v / 2 ^ 16 = v / 256 / 256 /\ v / 2 ^ 24 = v / 256 / 256 / 256) as [-> ->] by (rewrite !Z.div_div by done; done). change (2 ^ 8) with 256.
  replace (v <=? 128 - 1) with (v <? 128) by lia. replace (v <=? 32768 - 1) with (v <? 32768) by lia. replace (v <=? 2147483648 - 1) with (v <? 2147483648) by lia.
  destruct (_ && _); [|destruct (_ && _); [|destruct (_ && _); [|by repeat constructor]]].
  all: split; [done|]; (split; [apply Forall_cons; split; [by vm_compute|apply le_enc_ok]|done]).
Qed.

(** What the code creates for an integer that is loaded. *)
Definition create_integer (encode : bool) (v : Z) : option created :=
  if encode then Some (CreateLongLong v) else s ← sdsfromlonglong v; Some (CreateRaw s).

Lemma create_integer_ok encode v : in_s 64 v ->
  exists c, create_integer encode v = Some c /\ created_is c (print v) /\ (encode = false -> exists s, c = CreateRaw s).
Proof.
  intros Hv. unfold create_integer. destruct encode; [by exists (CreateLongLong v)|]. unfold sdsfromlonglong. rewrite (print_chars v Hv). cbn [mbind option_bind].
  destruct (print_ok v Hv) as [_ Hl]. destruct (newlen_rep (print v)) as (s & -> & Hs); [lia|]. exists (CreateRaw s). split_and!; [done|done|by exists s].
Qed.

Lemma generic_integer r encode pre k rest : 0 <= k < 3 -> reading r pre (192 + k :: rest) ->
  rdbGenericLoadStringObject r encode = rdbLoadIntegerObject (through r (r_ptr r) [192 + k]) k encode.
Proof.
  intros Hk Hr. unfold rdbGenericLoadStringObject. rewrite (loads_len_enc k r pre _ ltac:(lia) Hr). cbn [mbind option_bind].
  assert ((k =? REDIS_RDB_ENC_INT8) || (k =? REDIS_RDB_ENC_INT16) || (k =? REDIS_RDB_ENC_INT32) = true) as ->; [|done].
  unfold REDIS_RDB_ENC_INT8, REDIS_RDB_ENC_INT16, REDIS_RDB_ENC_INT32. lia.
Qed.

Lemma integer_object r encode pre k n v rest : In (k, n) [(0, 1%nat); (1, 2%nat); (2, 4%nat)] -> in_s (8 * Z.of_nat n) v -> reading r pre (le_enc n v ++ rest) ->
  rdbLoadIntegerObject r k encode = c ← create_integer encode v; Some (through r (r_ptr r) (le_enc n v), Some c).
Proof.
  intros Hk Hv Hr. assert (swrap (8 * Z.of_nat n) (le_dec (le_enc n v)) = v) as Hd.
  { rewrite le_dec_enc. replace (256 ^ Z.of_nat n) with (2 ^ (8 * Z.of_nat n)) by (rewrite Z.pow_mul_r by lia; done).
    change (v mod 2 ^ (8 * Z.of_nat n)) with (uwrap (8 * Z.of_nat n) v). assert (0 < 8 * Z.of_nat n) by (destruct Hk as [[= <- <-]|[[= <- <-]|[[= <- <-]|[]]]]; lia).
    rewrite swrap_uwrap by done. by apply swrap_small. }
  pose proof (rioRead_ok r pre (le_enc n v) rest (Z.of_nat n) Hr (eq_sym (zlen_le_enc n v))) as E.
  unfold rdbLoadIntegerObject, create_integer. pose proof (fun z => Z.mod_pos_bound z 256 eq_refl) as Hm.
  destruct Hk as [[= <- <-]|[[= <- <-]|[[= <- <-]|[]]]]; cbn [Z.eqb REDIS_RDB_ENC_INT8 REDIS_RDB_ENC_INT16 REDIS_RDB_ENC_INT32 Pos.eqb];
    cbv [Z.of_nat Pos.of_succ_nat Pos.succ] in E; rewrite E; clear E; cbv [rd Z.leb Z.compare lookup list_lookup Z.to_nat Pos.to_nat Pos.iter_op Nat.add le_enc]; cbn [mbind option_bind].
  - change (8 * Z.of_nat 1) with 8 in Hd. cbn [le_enc le_dec] in Hd. rewrite Z.mul_0_r, Z.add_0_r in Hd. rewrite Hd. destruct encode; [done|]. by destruct (sdsfromlonglong v).
  - change (8 * Z.of_nat 2) with 16 in Hd. cbn [le_enc le_dec] in Hd. rewrite lor_acc by (done || apply Hm). change (2 ^ 8) with 256.
    replace (v mod 256 + (v / 256) mod 256 * 256) with (v mod 256 + 256 * ((v / 256) mod 256 + 256 * 0)) by lia. rewrite Hd. destruct encode; [done|]. by destruct (sdsfromlonglong v).
  - change (8 * Z.of_nat 4) with 32 in Hd. cbn [le_enc le_dec] in Hd. pose proof (Hm v). pose proof (Hm (v / 256)). pose proof (Hm (v / 256 / 256)). pose proof (Hm (v / 256 / 256 / 256)).
    rewrite (lor_acc (v mod 256)), (lor_acc _ ((v / 256 / 256) mod 256)), (lor_acc _ ((v / 256 / 256 / 256) mod 256)) by lia.
    change (2 ^ 8) with 256. change (2 ^ 16) with (256 * 256). change (2 ^ 24) with (256 * 256 * 256).
    match goal with |- context [swrap 32 ?z] => replace z with (v mod 256 + 256 * ((v / 256) mod 256 + 256 * ((v / 256 / 256) mod 256 + 256 * ((v / 256 / 256 / 256) mod 256 + 256 * 0)))) by lia end.
    rewrite Hd. destruct encode; [done|]. by destruct (sdsfromlonglong v).
Qed.

Lemma loads_integer v encode : - 2147483648 <= v < 2147483648 ->
  exists c, loads (fun r => rdbGenericLoadStringObject r encode) (code_int v) (Some c) /\ created_is c (print v) /\
    (encode = false -> exists s, c = CreateRaw s).
Proof.
  intros Hv. destruct (create_integer_ok encode v) as (c & Ec & Hc); [unfold in_s; lia|]. exists c. split; [|done]. intros r pre rest Hr.
  assert (exists k n, In (k, n) [(0, 1%nat); (1, 2%nat); (2, 4%nat)] /\ in_s (8 * Z.of_nat n) v /\ code_int v = [192 + k] ++ le_enc n v) as (k & n & Hk & Hn & E).
  { unfold code_int. destruct ((-128 <=? v) && (v <? 128)) eqn:E1; [exists 0, 1%nat; split; [cbn; tauto|]; split; [unfold in_s; lia|done]|].
    destruct ((-32768 <=? v) && (v <? 32768)) eqn:E2; [exists 1, 2%nat; split; [cbn; tauto|]; split; [unfold in_s; lia|done]|].
    exists 2, 4%nat. split; [cbn; tauto|]. split; [unfold in_s; lia|]. by replace ((-2147483648 <=? v) && (v <? 2147483648)) with true by lia. }
  rewrite E in Hr |- *. rewrite <- (assoc_L (++)) in Hr. assert (0 <= k < 3) as Hk3 by (destruct Hk as [[= <- <-]|[[= <- <-]|[[= <- <-]|[]]]]; lia).
  rewrite (generic_integer r encode pre k (le_enc n v ++ rest)) by done. apply reading_through in Hr.
  rewrite (integer_object _ encode _ k n v rest Hk Hn Hr), Ec. cbn [mbind option_bind]. by rewrite through_app.
Qed.

(** ** Compressed strings *)

Section Lzf.
Context (rdb_compression : bool) (htab : Lzf.htab_t) (base : Z).
Context (Hbase : Lzf.MAX_OFF <= base) (Htop : base + STRING_MAX <= 2 ^ 64) (Htab : LzfEncode.htab_ok base htab).

Lemma newlen_zeros n : 0 <= n < 2 ^ 31 - 1 -> sdsnewlen None n = Some (Sds n 0 (replicate (Z.to_nat n) 0 ++ [0])).
Proof. intros Hn. unfold sdsnewlen. by rewrite s32_small by lia. Qed.

Lemma rep_exact x : zlen x < 2 ^ 31 - 1 -> rep (Sds (zlen x) 0 (x ++ [0])) x.
Proof. intros Hx. exists []. split_and!; [done|done|done|]. cbn. rewrite zlen_nil. lia. Qed.

Lemma loads_lzf x c encode : zlen x < 2 ^ 31 - 1 -> zlen c < 2 ^ 31 -> 0 < zlen x ->
  (forall z t, zlen z = zlen x -> Lzf.lzf_decompress c (zlen c) (z ++ t) (zlen x) = Some (x ++ t, zlen x)) ->
  loads (fun r => rdbGenericLoadStringObject r encode) ([195] ++ code_len (zlen c) ++ code_len (zlen x) ++ c) (Some (CreateRaw (Sds (zlen x) 0 (x ++ [0])))).
Proof.
  intros Hx Hc Hx0 Hd r pre rest Hr. pose proof (zlen_nonneg c). rewrite <- !(assoc_L (++)) in Hr. unfold rdbGenericLoadStringObject. change 195 with (192 + 3) in *.
  cbn [app] in Hr. rewrite (loads_len_enc 3 r pre _) by done. cbn [mbind option_bind]. apply (reading_through r pre [192 + 3]) in Hr.
  unfold REDIS_RDB_ENC_INT8, REDIS_RDB_ENC_INT16, REDIS_RDB_ENC_INT32, REDIS_RDB_ENC_LZF, rdbLoadLzfStringObject. cbn [Z.eqb Pos.eqb orb].
  rewrite (loads_len (zlen c) ltac:(lia) _ _ _ Hr). cbn [mbind option_bind]. apply reading_through in Hr. unfold REDIS_RDB_LENERR. zdec.
  rewrite (loads_len (zlen x) ltac:(lia) _ _ _ Hr). cbn [mbind option_bind]. apply reading_through in Hr. zdec.
  rewrite newlen_zeros by lia. cbn [mbind option_bind s_buf s_len s_free].
  rewrite (rioRead_ok _ _ c rest) by done. cbn [mbind option_bind]. rewrite Hd by (unfold zlen at 1; rewrite length_replicate; unfold zlen; lia).
  cbn [mbind option_bind]. zdec. by rewrite !through_app.
Qed.

Lemma save_lzf x tl : bytes_ok x -> 20 < zlen x <= STRING_MAX -> exists code n,
  saves (fun rdb => rdbSaveLzfStringObject htab rdb (x ++ tl) (zlen x)) code n /\
  (n = 0 /\ code = [] \/ 0 < n <= zlen x + 7 /\ n = zlen code /\ exists s, rep s x /\
    forall encode, loads (fun r => rdbGenericLoadStringObject r encode) code (Some (CreateRaw s))).
Proof.
  intros Hx Hl. unfold STRING_MAX in *. unfold rdbSaveLzfStringObject. zdec.
  rewrite (u32_small (zlen x)), (u32_small (zlen x - 4)) by lia.
  set (out := map junk (seq 0 (Z.to_nat (zlen x - 4 + 1)))). assert (zlen out = zlen x - 4 + 1) as Ho by (unfold out, zlen; rewrite length_map, length_seq; unfold zlen in *; lia).
  destruct (LzfFacts.lzf_stream htab x tl out (zlen x - 4) base) as (out' & n & E & Hn); try done; try lia. rewrite E. cbn [mbind option_bind].
  destruct Hn as [->|(c & rest & -> & -> & Hn & Hc & Hd)].
  { exists [], 0. split; [apply saves_ret|by left]. }
  zdec. rewrite (u32_small (zlen c)) by lia. change (uwrap 8 (Z.lor (Z.shiftl REDIS_RDB_ENCVAL 6) REDIS_RDB_ENC_LZF)) with 195.
  destruct (code_len_ok (zlen c) ltac:(lia)) as [_ L1]. destruct (code_len_ok (zlen x) ltac:(lia)) as [_ L2].
  exists ([195] ++ code_len (zlen c) ++ code_len (zlen x) ++ c), (zlen ([195] ++ code_len (zlen c) ++ code_len (zlen x) ++ c)). split.
  - eapply saves_checked; [apply saves_bytes; [by repeat constructor|done|done]|done|].
    eapply saves_checked; [apply saves_len; lia|lia|]. eapply saves_checked; [apply saves_len; lia|lia|].
    eapply saves_last; [apply saves_raw; [done|done|lia]|lia|]. rewrite !zlen_app, s32_small by (change (zlen [195]) with 1; lia).
    rewrite !Z.add_assoc. change (zlen [195]) with 1. apply saves_ret.
  - right. rewrite !zlen_app. change (zlen [195]) with 1. split; [lia|]. split; [done|].
    exists (Sds (zlen x) 0 (x ++ [0])). split; [apply rep_exact; lia|]. intros encode. apply loads_lzf; try lia. done.
Qed.

(** ** Strings *)

Lemma strtoll_range b v r e : strtoll b = Some (v, r, e) -> in_s 64 v.
Proof.
  unfold strtoll. destruct (skip_space b) as [[|c b']|]; [done| |done]. cbn [mbind option_bind].
  destruct (scan_digits _ 0) as [[rest w]|]; [|done]. cbn [mbind option_bind]. unfold LLONG_MIN, LLONG_MAX, in_s.
  destruct (zlen rest =? _); [intros [= <- _ _]; lia|]. set (z := if (c =? ch_minus) : bool then - w else w).
  destruct (Z.ltb_spec z (- 2 ^ 63)); [intros [= <- _ _]; lia|]. destruct (Z.ltb_spec (2 ^ 63 - 1) z); intros [= <- _ _]; lia.
Qed.

Lemma ll2string_buf b v : in_s 64 v -> zlen b = 32 -> exists r, Num.ll2string b 32 v = Some (print v ++ 0 :: r, zlen (print v)).
Proof.
  intros Hv Hb. destruct (ll2string_ok b 32 v Hv) as (p & l & E & El & ->); [lia|].
  rewrite (print_chars v Hv) in E. injection E as <-. destruct (print_ok v Hv) as [_ Hl].
  rewrite Z.min_l in El by lia. subst l. eexists. unfold zlen at 1. by rewrite Nat2Z.id, firstn_all.
Qed.

Lemma zlen_junk n : zlen (map junk (seq 0 n)) = Z.of_nat n.
Proof. unfold zlen. by rewrite length_map, length_seq. Qed.

Lemma memcmp_app a u : forall b v, length a = length b -> memcmp (length b) (a ++ u) (b ++ v) = memcmp (length b) a b.
Proof.
  induction a as [|c a IH]; intros [|d b] v Hl; try done. cbn [memcmp length app]. injection Hl as Hl.
  destruct (c =? d); [by apply IH|done].
Qed.

Lemma try_integer x sp : exists enc, rdbTryIntegerEncoding (x ++ 0 :: sp) (zlen x) = Some enc /\
  (enc = [] \/ exists v, in_s 64 v /\ x = print v /\ enc = code_int v).
Proof.
  destruct (strtoll_ok x sp) as (v & eptr & er & c & e & E & _ & He & _). unfold rdbTryIntegerEncoding. rewrite E. cbn [mbind option_bind].
  rewrite He. cbn [mbind option_bind]. apply strtoll_range in E. destruct (negb (e =? 0)); [exists []; by split; [|left]|].
  destruct (ll2string_buf (map junk (seq 0 32)) v E (zlen_junk 32)) as [r ->]. cbn [mbind option_bind].
  rewrite strlen_nul by (by apply print_bytes). cbn [mbind option_bind]. rewrite ?if_negb.
  destruct (Z.eqb_spec (zlen (print v)) (zlen x)) as [El|El]; [|exists []; by split; [|left]].
  assert (length (print v) = length x) as Hl by (unfold zlen in El; lia). destruct (memcmp_eq _ _ Hl) as (d & Ed & Hd).
  rewrite ?if_negb. replace (Z.to_nat (zlen x)) with (length x) by (unfold zlen; lia). rewrite memcmp_app, Ed by done. cbn [mbind option_bind]. rewrite ?if_negb.
  destruct (Z.eqb_spec d 0) as [Hz|_]; [|exists []; by split; [|left]]. exists (code_int v). split; [by rewrite (proj1 (code_int_ok v))|].
  right. exists v. split; [done|]. split; [symmetry; by apply Hd|done].
Qed.

Lemma saves_ext m m' b n : (forall rdb, m rdb = m' rdb) -> saves m' b n -> saves m b n.
Proof. intros E (Hb & En & Hm). split; [done|]. rewrite E. split; [done|]. intros r x. rewrite E. apply Hm. Qed.

Lemma loads_verbatim x encode : zlen x < 2 ^ 31 - 1 ->
  loads (fun r => rdbGenericLoadStringObject r encode) (code_len (zlen x) ++ x) (Some (CreateRaw (Sds (zlen x) 0 (x ++ [0])))).
Proof.
  intros Hx r pre rest Hr. pose proof (zlen_nonneg x). rewrite <- (assoc_L (++)) in Hr. unfold rdbGenericLoadStringObject.
  rewrite (loads_len (zlen x) ltac:(lia) _ _ _ Hr). cbn [mbind option_bind]. apply reading_through in Hr. unfold REDIS_RDB_LENERR. zdec.
  rewrite newlen_zeros by lia. cbn [mbind option_bind s_buf s_len s_free]. destruct (Z.eqb_spec (zlen x) 0) as [E|E].
  - apply zlen_0_inv in E as ->. by rewrite app_nil_r.
  - rewrite (rioRead_ok _ _ x rest) by done. cbn [mbind option_bind].
    rewrite (wrn_prefix (replicate (Z.to_nat (zlen x)) 0) x [0]) by (rewrite zlen_replicate; lia). cbn [mbind option_bind]. by rewrite through_app.
Qed.

(** What a saved string is: a function that loads it creates an object with its text. *)
Definition encodes (code x : list Z) : Prop :=
  0 < zlen code <= zlen x + 7 /\
  forall encode, exists c, loads (fun r => rdbGenericLoadStringObject r encode) code (Some c) /\ created_is c x /\
    (encode = false -> exists s, c = CreateRaw s).

Lemma encodes_integer v : in_s 64 v -> code_int v <> [] -> encodes (code_int v) (print v).
Proof.
  intros Hv Hc. destruct (code_int_ok v) as (_ & _ & Hl). destruct (print_ok v Hv) as [_ Hp]. split.
  - destruct (code_int v) as [|c l] eqn:E; [done|]. pose proof (zlen_nonneg l). rewrite zlen_cons in *. lia.
  - intros encode. apply loads_integer. unfold code_int in Hc. destruct ((-128 <=? v) && (v <? 128)) eqn:E1; [lia|].
    destruct ((-32768 <=? v) && (v <? 32768)) eqn:E2; [lia|]. destruct ((-2147483648 <=? v) && (v <? 2147483648)) eqn:E3; [lia|done].
Qed.

Lemma encodes_verbatim x : zlen x <= STRING_MAX -> encodes (code_len (zlen x) ++ x) x.
Proof.
  unfold STRING_MAX. intros Hx. pose proof (zlen_nonneg x). destruct (code_len_ok (zlen x) ltac:(lia)) as [_ Hl]. split; [rewrite zlen_app; lia|].
  intros encode. exists (CreateRaw (Sds (zlen x) 0 (x ++ [0]))). split; [apply loads_verbatim; lia|]. split; [apply rep_exact; lia|by eexists].
Qed.

Lemma save_verbatim x tl : bytes_ok x -> zlen x <= STRING_MAX ->
  saves (fun rdb => checked (rdbSaveLen rdb (uwrap 32 (zlen x))) (fun rdb n =>
    if 0 <? zlen x then checked (rdbWriteRaw rdb (x ++ tl) (zlen x)) (fun rdb _ => Some (rdb, swrap 32 (n + zlen x))) else Some (rdb, n)))
    (code_len (zlen x) ++ x) (zlen (code_len (zlen x) ++ x)).
Proof.
  unfold STRING_MAX. intros Hb Hx. pose proof (zlen_nonneg x). destruct (code_len_ok (zlen x) ltac:(lia)) as [_ Hl]. rewrite u32_small by lia.
  eapply saves_checked; [apply saves_len; lia|lia|]. destruct (Z.ltb_spec 0 (zlen x)).
  - rewrite zlen_app. eapply saves_last; [apply saves_raw; [done|done|lia]|lia|]. rewrite s32_small by lia. apply saves_ret.
  - assert (zlen x = 0) as E by lia. apply zlen_0_inv in E as ->. rewrite app_nil_r. apply saves_ret.
Qed.

Lemma save_raw_string x sp : bytes_ok x -> zlen x <= STRING_MAX -> exists code,
  saves (fun rdb => rdbSaveRawString rdb_compression htab rdb (x ++ 0 :: sp) (zlen x)) code (zlen code) /\ encodes code x.
Proof.
  intros Hb Hx. pose proof (save_verbatim x (0 :: sp) Hb Hx) as Sv. pose proof (encodes_verbatim x Hx) as Ev.
  assert (exists enc, (if zlen x <=? 11 then rdbTryIntegerEncoding (x ++ 0 :: sp) (zlen x) else Some []) = Some enc /\
    (enc = [] \/ exists v, in_s 64 v /\ x = print v /\ enc = code_int v)) as (enc & Ee & He).
  { destruct (zlen x <=? 11); [apply try_integer|]. exists []. by split; [|left]. }
  unfold rdbSaveRawString. rewrite Ee. cbn [mbind option_bind]. destruct (Z.ltb_spec 0 (zlen enc)) as [Hn|Hn].
  { destruct He as [->|(v & Hv & -> & ->)]; [by vm_compute in Hn|]. destruct (code_int_ok v) as (_ & Hc & Hl). exists (code_int v). split.
    - eapply saves_last; [apply saves_bytes; [done|done|lia]|lia|apply saves_ret].
    - apply encodes_integer; [done|]. intros E. by rewrite E in Hn. }
  destruct (rdb_compression && (20 <? zlen x)) eqn:Ec.
  - apply andb_true_iff in Ec as [_ Ec%Z.ltb_lt]. destruct (save_lzf x (0 :: sp) Hb) as (code & n & Hs & [[-> ->]|(Hn' & -> & s & Hr & Hl)]); [lia|..].
    + exists (code_len (zlen x) ++ x). split; [|done]. rewrite <- (app_nil_l (code_len (zlen x) ++ x)) at 1. eapply saves_checked; [exact Hs|done|exact Sv].
    + exists code. split; [|split; [lia|]]; cycle 1.
      { intros encode. exists (CreateRaw s). split; [apply Hl|]. split; [done|by exists s]. }
      eapply saves_last; [exact Hs|lia|]. zdec. apply saves_ret.
  - exists (code_len (zlen x) ++ x). split; [|done]. rewrite <- (app_nil_l (code_len (zlen x) ++ x)) at 1. eapply saves_checked; [apply saves_ret|done|exact Sv].
Qed.

Lemma save_long_long v : in_s 64 v -> exists code,
  saves (fun rdb => rdbSaveLongLongAsStringObject rdb v) code (zlen code) /\ encodes code (print v).
Proof.
  intros Hv. destruct (code_int_ok v) as (E & Hc & Hl). destruct (print_ok v Hv) as [_ Hp]. destruct (print_bytes v Hv) as [Hb _].
  unfold rdbSaveLongLongAsStringObject. rewrite E. destruct (Z.ltb_spec 0 (zlen (code_int v))) as [Hn|Hn].
  - exists (code_int v). split; [apply saves_bytes; [done|done|lia]|]. apply encodes_integer; [done|]. intros E1. by rewrite E1 in Hn.
  - exists (code_len (zlen (print v)) ++ print v). split; [|apply encodes_verbatim; unfold STRING_MAX; lia].
    destruct (ll2string_buf (map junk (seq 0 32)) v Hv (zlen_junk 32)) as [r ->]. cbn [mbind option_bind]. zdec. cbn [cassert mbind option_bind].
    destruct (code_len_ok (zlen (print v)) ltac:(lia)) as [_ L1]. rewrite u32_small by lia.
    eapply saves_checked; [apply saves_len; lia|lia|]. eapply saves_last; [apply saves_raw; [done|done|lia]|lia|]. rewrite zlen_app, s32_small by lia. apply saves_ret.
Qed.

(** A string object, whatever its encoding. *)
Lemma save_object o x : obj_ok o -> value_of o = VStr x -> exists code,
  saves (fun rdb => rdbSaveObject rdb_compression htab rdb o) code (zlen code) /\ encodes code x.
Proof.
  intros Ho Hv. destruct (obj_string o x Ho Hv) as (Ht & Hc & Hb & Hl). unfold rdbSaveObject. rewrite Ht. cbn [Z.eqb REDIS_STRING].
  assert (exists code, saves (fun rdb => rdbSaveStringObject rdb_compression htab rdb o) code (zlen code) /\ encodes code x) as (code & Hs & He).
  { unfold rdbSaveStringObject. destruct Hc as [(He & b & Hp & Hr)|(He & v & Hp & Hi & ->)]; rewrite He, Hp.
    - cbn [Z.eqb REDIS_ENCODING_RAW REDIS_ENCODING_INT cassert mbind option_bind]. rewrite (rep_sdslen _ _ Hr). destruct Hr as (sp & -> & _).
      by apply save_raw_string.
    - cbn [Z.eqb REDIS_ENCODING_INT Pos.eqb]. by apply save_long_long. }
  exists code. split; [|done]. eapply saves_last; [exact Hs|destruct He; lia|apply saves_ret].
Qed.

(** ** The payload of DUMP *)

Lemma crc_footer crc : memrev64ifbe (host_enc 8 crc) 0 = Some (le_enc 8 crc).
Proof.
  pose proof (memrev64ifbe_reverses [] (host_enc 8 crc) [] (zlen_host_enc 8 crc)) as E. change (zlen (@nil Z)) with 0 in E. cbn [app] in E.
  rewrite !app_nil_r in E. rewrite E. unfold host_enc. destruct big_endian; by rewrite ?reverse_involutive.
Qed.

(** The bytes of a payload whose serialized object is [body]. *)
Definition payload_of (body : list Z) : list Z :=
  (body ++ [REDIS_RDB_VERSION; 0]) ++ le_enc 8 (crc_bits 0 (body ++ [REDIS_RDB_VERSION; 0])).

Lemma dump_ok o x : obj_ok o -> value_of o = VStr x -> zlen x <= STRING_MAX - 18 -> exists r code,
  createDumpPayload rdb_compression htab o = Some r /\ rep (r_ptr r) (payload_of (REDIS_RDB_TYPE_STRING :: code)) /\ encodes code x /\ bytes_ok code.
Proof.
  intros Ho Hv Hx. destruct (obj_string o x Ho Hv) as (Ht & _). destruct (save_object o x Ho Hv) as (code & (Hb & _ & Hs) & He).
  unfold STRING_MAX in Hx. assert (zlen code <= 2 ^ 29) as Hl by (destruct He; lia).
  destruct (newlen_rep []) as (e & Ee & Hr); [done|]. unfold createDumpPayload, sdsempty.
  change (sdsnewlen (Some [0]) 0) with (sdsnewlen (Some (@nil Z)) 0). change (zlen (@nil Z)) with 0 in Ee. rewrite Ee. cbn [mbind option_bind].
  unfold rdbSaveObjectType. rewrite Ht. cbn [Z.eqb REDIS_STRING]. unfold rdbSaveType. change (uwrap 8 REDIS_RDB_TYPE_STRING) with 0.
  set (r0 := rioInitWithBuffer e). assert (stream_ok r0) as Ho0 by done.
  destruct (saves_bytes [0] 1) as (Hb1 & _ & Hs1); [by repeat constructor|done|done|]. destruct (Hs1 r0 []) as (s1 & -> & Hr1); [done|done|done|].
  cbn [mbind option_bind Z.eqb negb cassert]. destruct (Hs (through r0 s1 [0]) [0]) as (s2 & -> & Hr2); [by apply through_ok|done|unfold SDS_LIMIT; change (zlen [0]) with 1; lia|].
  cbn [mbind option_bind]. assert (negb (zlen code =? 0) = true) as -> by (destruct He; lia). cbn [cassert mbind option_bind r_ptr through].
  change [Z.land REDIS_RDB_VERSION 255; Z.land (Z.shiftr REDIS_RDB_VERSION 8) 255] with [REDIS_RDB_VERSION; 0]. change 2 with (zlen [REDIS_RDB_VERSION; 0]) at 1.
  destruct (catlen_rep junk s2 _ [REDIS_RDB_VERSION; 0] Hr2) as (s3 & -> & Hr3); [unfold SDS_LIMIT; rewrite zlen_app; change (zlen [0]) with 1; change (zlen [REDIS_RDB_VERSION; 0]) with 2; lia|].
  cbn [mbind option_bind]. set (body := ([0] ++ code) ++ [REDIS_RDB_VERSION; 0]) in *. assert (bytes_ok body) as Hbb by (repeat apply Forall_app_2; try done; by repeat constructor).
  assert (zlen body <= 2 ^ 29 + 3) as Hlb by (unfold body; rewrite !zlen_app; change (zlen [0]) with 1; change (zlen [REDIS_RDB_VERSION; 0]) with 2; lia).
  rewrite (rep_sdslen _ _ Hr3). destruct (rep_buffer _ _ Hr3) as [tl ->]. rewrite crc64_ok by done. cbn [mbind option_bind]. rewrite crc_footer. cbn [mbind option_bind].
  destruct (catlen_rep junk s3 body (le_enc 8 (crc_bits 0 body)) Hr3) as (s4 & E4 & Hr4); [unfold SDS_LIMIT; rewrite zlen_le_enc; lia|].
  rewrite zlen_le_enc in E4. change (Z.of_nat 8) with 8 in E4. rewrite E4. cbn [mbind option_bind]. eexists _, code. split; [done|]. by split_and!.
Qed.

Lemma verify_ok body tl : bytes_ok body -> verifyDumpPayload (payload_of body ++ tl) (zlen (payload_of body)) = Some true.
Proof.
  intros Hb. unfold verifyDumpPayload, payload_of. set (v := body ++ [REDIS_RDB_VERSION; 0]). set (f := le_enc 8 (crc_bits 0 v)).
  assert (zlen f = 8) as Hf by apply zlen_le_enc. assert (zlen v = zlen body + 2) as Hv by (unfold v; by rewrite zlen_app). pose proof (zlen_nonneg body).
  rewrite zlen_app, Hf, Hv. zdec. replace (zlen body + 2 + 8 - 10) with (zlen body) by lia. rewrite <- (assoc_L (++)).
  assert (v ++ f ++ tl = body ++ REDIS_RDB_VERSION :: 0 :: f ++ tl) as E by (unfold v; by rewrite <- (assoc_L (++))).
  assert (rd (v ++ f ++ tl) (zlen body) = Some REDIS_RDB_VERSION) as -> by (rewrite E; apply rd_mid). cbn [mbind option_bind].
  assert (rd (v ++ f ++ tl) (zlen body + 1) = Some 0) as -> by (rewrite E; apply rd_mid1). cbn [mbind option_bind]. change (uwrap 16 _ =? _) with true. cbn [negb].
  replace (zlen body + 2 + 8 - 8) with (zlen v) by lia. assert (bytes_ok v) as Hbv by (apply Forall_app_2; [done|by repeat constructor]).
  rewrite crc64_ok by done. cbn [mbind option_bind]. rewrite crc_footer. cbn [mbind option_bind]. fold f.
  replace (zlen body + 2) with (zlen v) by lia. rewrite (rdn_app_mid v f) by (done || lia). cbn [mbind option_bind].
  destruct (memcmp_eq f f eq_refl) as (d & E' & Hd). assert (length f = 8%nat) as Hl by (unfold zlen in Hf; lia). rewrite Hl in E'. rewrite E'.
  cbn [mbind option_bind]. by rewrite (proj2 Hd).
Qed.

(** What verifyDumpPayload refuses: everything that does not end in the version and in the
    checksum, as the bits define it, of what is before. *)
Definition not_payload (p : list Z) : Prop := forall body, p <> payload_of body.

Lemma version_bytes a b : 0 <= a < 256 -> 0 <= b < 256 -> uwrap 16 (Z.lor (Z.shiftl b 8) a) = REDIS_RDB_VERSION -> a = REDIS_RDB_VERSION /\ b = 0.
Proof.
  intros Ha Hb E. rewrite lor_shift_add in E by (change (2 ^ 8) with 256; lia). change (2 ^ 8) with 256 in E.
  unfold uwrap in E. rewrite Z.mod_small in E by (change (2 ^ 16) with 65536; lia). unfold REDIS_RDB_VERSION in *. lia.
Qed.

Lemma verify_bad p tl : bytes_ok p -> not_payload p -> verifyDumpPayload (p ++ tl) (zlen p) = Some false.
Proof.
  intros Hb Hn. unfold verifyDumpPayload. destruct (Z.ltb_spec (zlen p) 10) as [|Hl]; [done|].
  set (n := (length p - 10)%nat). assert (length p = (n + 10)%nat) as Hlen by (unfold n, zlen in *; lia).
  destruct (drop n p) as [|f0 [|f1 foot]] eqn:Ed; try (apply (f_equal length) in Ed; rewrite length_drop in Ed; cbn in Ed; lia).
  assert (p = take n p ++ f0 :: f1 :: foot) as Ep by (rewrite <- Ed; symmetry; apply take_drop). set (body := take n p) in *.
  assert (zlen body = Z.of_nat n) as Hlb by (unfold body, zlen; rewrite length_take; lia).
  assert (length foot = 8%nat) as Hf by (apply (f_equal length) in Ed; rewrite length_drop in Ed; cbn in Ed; lia).
  assert (zlen p = zlen body + 10) as Hz by (unfold zlen in *; lia). rewrite Hz. replace (zlen body + 10 - 10) with (zlen body) by lia. clearbody body.
  subst p. apply Forall_app in Hb as [Hbb Hb]. apply Forall_cons in Hb as [Hf0 Hb]. apply Forall_cons in Hb as [Hf1 Hbf]. rewrite <- (assoc_L (++)). cbn [app].
  rewrite rd_mid, rd_mid1. cbn [mbind option_bind]. destruct (Z.eqb_spec (uwrap 16 (Z.lor (Z.shiftl f1 8) f0)) REDIS_RDB_VERSION) as [Ev|]; [|done].
  apply version_bytes in Ev as [-> ->]; [|done|done]. cbn [negb]. set (v := body ++ [REDIS_RDB_VERSION; 0]).
  assert (body ++ REDIS_RDB_VERSION :: 0 :: foot ++ tl = v ++ foot ++ tl) as -> by (unfold v; by rewrite <- (assoc_L (++))).
  assert (zlen v = zlen body + 2) as Hv by (unfold v; by rewrite zlen_app). replace (zlen body + 10 - 8) with (zlen v) by lia.
  assert (bytes_ok v) as Hbv by (apply Forall_app_2; [done|by repeat constructor]).
  rewrite crc64_ok by done. cbn [mbind option_bind]. rewrite crc_footer. cbn [mbind option_bind]. rewrite <- Hv.
  rewrite (rdn_app_mid v foot) by (done || (unfold zlen; lia)). cbn [mbind option_bind].
  assert (length (le_enc 8 (crc_bits 0 v)) = length foot) as Hl8 by (by rewrite length_le_enc).
  destruct (memcmp_eq _ _ Hl8) as (d & E & Hd). rewrite Hf in E. rewrite E. cbn [mbind option_bind]. f_equal. apply Z.eqb_neq. intros Hd0.
  apply Hd in Hd0. apply (Hn body). unfold payload_of. fold v. rewrite Hd0. unfold v. by rewrite <- (assoc_L (++)).
Qed.

(** What the body would be. *)
Lemma not_payload_check p : p <> payload_of (take (length p - 10) p) -> not_payload p.
Proof.
  intros Hp body ->. apply Hp. f_equal.
  assert (length (payload_of body) = length body + 10)%nat as -> by (unfold payload_of; rewrite !length_app, length_le_enc; cbn; lia).
  replace (length body + 10 - 10)%nat with (length body) by lia. unfold payload_of. rewrite <- (assoc_L (++)). symmetry. apply take_app_length.
Qed.

(** A payload of the string [x]: it is accepted, and what it loads has the text [x]. *)
Definition payload_for (p x : list Z) : Prop :=
  (forall tl, verifyDumpPayload (p ++ tl) (zlen p) = Some true) /\
  forall b, rep b p -> exists r1 r2 c, rdbLoadObjectType (rioInitWithBuffer b) = Some (r1, REDIS_RDB_TYPE_STRING) /\
    rdbLoadEncodedStringObject r1 = Some (r2, Some c) /\ created_is c x.

Lemma loads_type t : 0 <= t < 256 -> rdbIsObjectType t = true -> loads rdbLoadObjectType [t] t.
Proof.
  intros Ht Hi r pre rest Hr. unfold rdbLoadObjectType, rdbLoadType. rewrite (rioRead_ok r pre [t] rest) by done. cbn [mbind option_bind].
  rewrite rd_0. cbn [mbind option_bind]. zdec. by rewrite Hi.
Qed.

Lemma payload_ok code x : bytes_ok code -> encodes code x -> payload_for (payload_of (REDIS_RDB_TYPE_STRING :: code)) x.
Proof.
  intros Hb [_ He]. assert (bytes_ok (REDIS_RDB_TYPE_STRING :: code)) as Hb' by (constructor; [by vm_compute|done]).
  split; [intros tl; by apply verify_ok|]. intros b Hr. destruct (He true) as (c & Hl & Hc & _).
  unfold payload_of in *. set (tl := le_enc 8 _) in *.
  assert (reading (rioInitWithBuffer b) [] ([REDIS_RDB_TYPE_STRING] ++ code ++ ([REDIS_RDB_VERSION; 0] ++ tl))) as Rd.
  { split; [|done|done|].
    - cbn [app] in *. by rewrite <- (assoc_L (++)) in Hr.
    - apply Forall_cons. split; [by vm_compute|]. apply Forall_app_2; [done|]. apply Forall_app_2; [by repeat constructor|apply le_enc_ok]. }
  pose proof (loads_type REDIS_RDB_TYPE_STRING ltac:(done) eq_refl _ _ _ Rd) as E1. apply reading_through in Rd. apply Hl in Rd.
  by eexists _, _, c.
Qed.

End Lzf.

(** ** Loading arbitrary bytes *)

(** The length at the start of [y], whether it is the number of an encoding, its bytes and
    the bytes after them. *)
Definition len_of (y : list Z) : option (Z * bool * list Z * list Z) :=
  match y with
  | [] => None
  | c :: y =>
      if c / 64 =? 3 then Some (c mod 64, true, [c], y)
      else if c / 64 =? 0 then Some (c mod 64, false, [c], y)
      else if c / 64 =? 1 then match y with [] => None | d :: y => Some (c mod 64 * 256 + d, false, [c; d], y) end
      else match y with
           | d0 :: d1 :: d2 :: d3 :: y => Some (le_dec [d3; d2; d1; d0], false, [c; d0; d1; d2; d3], y)
           | _ => None
           end
  end.

Lemma ntohl_bytes y : bytes_ok y -> length y = 4%nat -> ntohl (host_dec y) = le_dec (reverse y).
Proof.
  intros Hy Hl. assert (bytes_ok (reverse y)) as Hr by (by apply Forall_reverse).
  pose proof (le_enc_dec (reverse y) Hr) as E. rewrite length_reverse, Hl in E.
  pose proof (le_dec_bound (reverse y) Hr) as B. unfold zlen in B. rewrite length_reverse, Hl in B.
  rewrite <- (ntohl_htonl (le_dec (reverse y))) by exact B. by rewrite E, reverse_involutive.
Qed.

Lemma load_len_total r pre y : reading r pre y ->
  match len_of y with
  | Some (n, e, b, rest) => y = b ++ rest /\ 0 <= n < 2 ^ 32 /\ rdbLoadLen r = Some (through r (r_ptr r) b, n, e) /\ 0 < zlen b /\ (e = true -> b = [192 + n])
  | None => exists r', rdbLoadLen r = Some (r', REDIS_RDB_LENERR, false)
  end.
Proof.
  intros Hr. unfold rdbLoadLen. destruct y as [|c y].
  { destruct (rioRead_short r pre [] 1 Hr) as (r' & ->); [done|]. cbn [mbind option_bind len_of]. eauto. }
  pose proof (rd_bytes _ _ _ Hr) as Hb. apply Forall_cons in Hb as [Hc Hy]. unfold byte_ok in Hc.
  rewrite (rioRead_ok r pre [c] y) by done. cbn [mbind option_bind]. rewrite rd_0. cbn [mbind option_bind].
  assert (0 <= c mod 64 < 64) as Hm by (apply Z.mod_pos_bound; lia). assert (0 <= c / 64 < 4) as Hd by (split; [apply Z.div_pos|apply Z.div_lt_upper_bound]; lia).
  destruct (len_head (c mod 64) Hm (c / 64) Hd) as [E1 E2]. replace (c / 64 * 64 + c mod 64) with c in E1, E2 by (rewrite Z.mul_comm; apply Z.div_mod; lia).
  rewrite E1, E2. unfold REDIS_RDB_ENCVAL, REDIS_RDB_6BITLEN, REDIS_RDB_14BITLEN. cbn [len_of].
  destruct (Z.eqb_spec (c / 64) 3) as [E3|_]; [split_and!; [done|lia|lia|done|done|intros _; f_equal; rewrite (Z.div_mod c 64) at 1; lia]|].
  destruct (c / 64 =? 0); [split_and!; (done || lia)|].
  apply (reading_through r pre [c]) in Hr. destruct (c / 64 =? 1).
  - destruct y as [|d y].
    { destruct (rioRead_short _ _ [] 1 Hr) as (r' & ->); [done|]. cbn [mbind option_bind]. eauto. }
    apply Forall_cons in Hy as [Hd' _]. rewrite (rioRead_ok _ _ [d] y) by done. cbn [mbind option_bind]. rewrite rd_0. cbn [mbind option_bind].
    rewrite lor_shift_add by done. change (2 ^ 8) with 256. unfold byte_ok in Hd'. split_and!; [done|lia|lia|by rewrite through_app|done|done].
  - destruct (decide (zlen y < 4)) as [Hl|Hl].
    { destruct (rioRead_short _ _ y 4 Hr) as (r' & ->); [done|]. cbn [mbind option_bind].
      destruct y as [|? [|? [|? [|? y]]]]; cbn [len_of]; eauto. exfalso. rewrite !zlen_cons in Hl. pose proof (zlen_nonneg y). lia. }
    destruct y as [|d0 [|d1 [|d2 [|d3 y]]]]; try (exfalso; apply Hl; by vm_compute).
    change (d0 :: d1 :: d2 :: d3 :: y) with ([d0; d1; d2; d3] ++ y) in *. apply Forall_app in Hy as [Hy _].
    rewrite (rioRead_ok _ _ [d0; d1; d2; d3] y) by done. cbn [mbind option_bind app].
    rewrite ntohl_bytes by done. change (reverse [d0; d1; d2; d3]) with [d3; d2; d1; d0]. split; [done|]. split; [|split; [by rewrite through_app|done]].
    assert (bytes_ok [d3; d2; d1; d0]) as B by (change [d3; d2; d1; d0] with (reverse [d0; d1; d2; d3]); by apply Forall_reverse).
    exact (le_dec_bound _ B).
Qed.

(** A compressed string that the loader can take: not empty, and with a length that an
    int holds. *)
Definition compressed_ok (y : list Z) : Prop :=
  match len_of y with
  | Some (clen, _, _, y) => clen <> 0 /\ match len_of y with Some (len, _, _, _) => len < 2 ^ 31 - 1 \/ len = REDIS_RDB_LENERR | None => True end
  | None => True
  end.

(** A saved string with one of the encodings that exist. *)
Definition string_head_ok (y : list Z) : Prop :=
  match y with
  | c :: y => c < 196 /\ (c = 195 -> compressed_ok y)
  | [] => True
  end.

(** A load that reports an error, or creates an object with the text of some bytes. *)
Definition load_result (m : option (rio * option created)) : Prop :=
  exists r' res, m = Some (r', res) /\ forall c, res = Some c -> exists x, created_is c x /\ bytes_ok x.

Lemma load_error r' : load_result (Some (r', None)).
Proof. by exists r', None. Qed.

Lemma load_raw r' s x : rep s x -> bytes_ok x -> load_result (Some (r', Some (CreateRaw s))).
Proof. intros Hs Hx. eexists _, _. split; [done|]. intros c [= <-]. by exists x. Qed.

Lemma integer_total r pre y k encode : 0 <= k <= 2 -> reading r pre y -> load_result (rdbLoadIntegerObject r k encode).
Proof.
  intros Hk Hr.
  assert (forall r' v, in_s 64 v -> load_result (c ← create_integer encode v; Some (r', Some c))) as Hc.
  { intros r' v Hv. destruct (create_integer_ok encode v Hv) as (c & -> & Hc & _). eexists _, _. split; [done|]. intros d [= <-]. exists (print v).
    split; [done|by apply print_bytes]. }
  assert (forall r' v w, 0 < w <= 64 -> load_result (if encode then Some (r', Some (CreateLongLong (swrap w v))) else s ← sdsfromlonglong (swrap w v); Some (r', Some (CreateRaw s)))) as Hi.
  { intros r' v w Hw. pose proof (swrap_range w v ltac:(lia)) as Hv. assert (in_s 64 (swrap w v)) as Hv64.
    { unfold in_s in *. assert (2 ^ (w - 1) <= 2 ^ (64 - 1)) by (apply Z.pow_le_mono_r; lia). lia. }
    specialize (Hc r' _ Hv64). unfold create_integer in Hc. destruct encode; [done|]. by destruct (sdsfromlonglong (swrap w v)). }
  unfold rdbLoadIntegerObject.
  assert (exists n, In (k, n) [(0, 1); (1, 2); (2, 4)]) as (n & Hn) by (assert (k = 0 \/ k = 1 \/ k = 2) as [->|[->| ->]] by lia; eexists; cbn; eauto).
  destruct (decide (zlen y < n)) as [Hs|Hs].
  - destruct (rioRead_short r pre y n Hr Hs) as (r' & E).
    destruct Hn as [[= <- <-]|[[= <- <-]|[[= <- <-]|[]]]]; cbn [Z.eqb REDIS_RDB_ENC_INT8 REDIS_RDB_ENC_INT16 REDIS_RDB_ENC_INT32 Pos.eqb]; rewrite E; apply load_error.
  - destruct (split_at y n) as (b & rest & -> & Hb & _); [destruct Hn as [[= <- <-]|[[= <- <-]|[[= <- <-]|[]]]]; lia|].
    pose proof (rioRead_ok r pre b rest n Hr (eq_sym Hb)) as E.
    destruct Hn as [[= <- <-]|[[= <- <-]|[[= <- <-]|[]]]]; cbn [Z.eqb REDIS_RDB_ENC_INT8 REDIS_RDB_ENC_INT16 REDIS_RDB_ENC_INT32 Pos.eqb]; rewrite E; cbn [mbind option_bind].
    + destruct b as [|d0 [|? ?]]; try (by vm_compute in Hb); [|rewrite !zlen_cons in Hb; pose proof (zlen_nonneg l); lia]. by apply (Hi _ _ 8).
    + destruct (bytes2 b Hb) as (d0 & d1 & ->). by apply (Hi _ _ 16).
    + destruct (bytes4 b Hb) as (d0 & d1 & d2 & d3 & ->). by apply (Hi _ _ 32).
Qed.

Lemma lzf_total r pre y : reading r pre y -> compressed_ok y -> load_result (rdbLoadLzfStringObject r).
Proof.
  intros Hr Hc. unfold rdbLoadLzfStringObject. pose proof (load_len_total r pre y Hr) as L1. unfold compressed_ok in Hc.
  destruct (len_of y) as [[[[clen e] b] y1]|]; [|destruct L1 as (r' & ->); cbn [mbind option_bind]; rewrite Z.eqb_refl; apply load_error].
  destruct L1 as (-> & Hn1 & -> & _). destruct Hc as [Hc0 Hc]. cbn [mbind option_bind]. destruct (clen =? REDIS_RDB_LENERR); [apply load_error|]. apply reading_through in Hr.
  pose proof (load_len_total _ _ _ Hr) as L2. destruct (len_of y1) as [[[[len e2] b2] y2]|]; [|destruct L2 as (r' & ->); cbn [mbind option_bind]; rewrite Z.eqb_refl; apply load_error].
  destruct L2 as (-> & Hn2 & -> & _). cbn [mbind option_bind]. apply reading_through in Hr. destruct (Z.eqb_spec len REDIS_RDB_LENERR) as [_|Hne]; [apply load_error|]. destruct Hc as [Hc|]; [|done].
  rewrite newlen_zeros by lia. cbn [mbind option_bind s_buf s_len s_free].
  destruct (decide (zlen y2 < clen)) as [Hs|Hs]; [destruct (rioRead_short _ _ y2 clen Hr Hs) as (r' & ->); apply load_error|].
  destruct (split_at y2 clen) as (c & rest & -> & Hcl & _); [lia|]. pose proof (rd_bytes _ _ _ Hr) as Hb. apply Forall_app in Hb as [Hb _].
  rewrite (rioRead_ok _ _ c rest) by done. cbn [mbind option_bind]. unfold Lzf.lzf_decompress.
  set (z := replicate (Z.to_nat len) 0). assert (zlen z = len) as Hz by (unfold z; rewrite zlen_replicate; lia).
  destruct (LzfFacts.decompress_loop_total (Z.to_nat clen) c clen len (z ++ [0]) 0 0) as (o & n & -> & (Ho & Hd & Hk) & _); try done; try lia; [zlia|].
  cbn [mbind option_bind]. destruct (n =? 0); [apply load_error|].
  assert (bytes_ok o) as Hbo by (apply Hk, Forall_app_2; [by apply Forall_replicate|by repeat constructor]).
  assert (drop (Z.to_nat len) (z ++ [0]) = [0]) as Ed by (rewrite <- Hz; unfold zlen; by rewrite Nat2Z.id, drop_app_length). rewrite Ed in Hd.
  set (x := take (Z.to_nat len) o). assert (o = x ++ [0]) as E by (unfold x; rewrite <- Hd; symmetry; apply take_drop).
  assert (zlen x = len) as Hx by (rewrite E, !zlen_app, Hz in Ho; lia). rewrite E in Hbo. apply Forall_app in Hbo as [Hbx _].
  apply (load_raw _ _ x); [|done]. rewrite E, <- Hx. apply rep_exact. lia.
Qed.

(** Loading a string from arbitrary bytes. *)
Lemma load_string_total r pre y encode : reading r pre y -> string_head_ok y -> load_result (rdbGenericLoadStringObject r encode).
Proof.
  intros Hr Hh. destruct (reading_bounds _ _ _ Hr) as [Hsz _]. unfold rdbGenericLoadStringObject. pose proof (load_len_total r pre y Hr) as L1.
  destruct (len_of y) as [[[[n e] b] rest]|] eqn:El; [|destruct L1 as (r' & ->); cbn [mbind option_bind]; rewrite Z.eqb_refl; apply load_error].
  destruct L1 as (-> & Hn & -> & Hb & He). cbn [mbind option_bind]. apply reading_through in Hr. destruct e.
  - rewrite He in Hh by done. cbn [app string_head_ok] in Hh. destruct Hh as [Hlt Hc].
    unfold REDIS_RDB_ENC_INT8, REDIS_RDB_ENC_INT16, REDIS_RDB_ENC_INT32, REDIS_RDB_ENC_LZF.
    destruct ((n =? 0) || (n =? 1) || (n =? 2)) eqn:E3; [eapply integer_total; [lia|exact Hr]|].
    destruct (Z.eqb_spec n 3) as [->|E4]; [|lia]. eapply lzf_total; [exact Hr|by apply Hc].
  - destruct (Z.eqb_spec n REDIS_RDB_LENERR) as [_|Hne]; [apply load_error|]. destruct (Z.eqb_spec n 0) as [->|Hn0].
    { cbn. apply (load_raw _ _ []); [by exists []|constructor]. }
    destruct (sdsnewlen None n) as [val|] eqn:Ev; [|done]. cbn [mbind option_bind].
    destruct (decide (zlen rest < n)) as [Hs|Hs]; [destruct (rioRead_short _ _ rest n Hr Hs) as (r' & ->); apply load_error|].
    destruct (split_at rest n) as (x & tl & -> & Hx & _); [lia|]. rewrite (rioRead_ok _ _ x tl) by done. cbn [mbind option_bind].
    rewrite !zlen_app in Hsz. pose proof (zlen_nonneg pre). pose proof (zlen_nonneg tl).
    rewrite newlen_zeros in Ev by lia. injection Ev as <-. cbn [s_buf s_len s_free].
    rewrite (wrn_prefix (replicate (Z.to_nat n) 0) x [0]) by (rewrite zlen_replicate; lia). cbn [mbind option_bind].
    apply (load_raw _ _ x); [rewrite <- Hx; apply rep_exact; lia|]. pose proof (rd_bytes _ _ _ Hr) as Hbx. by apply Forall_app in Hbx as [Hbx _].
Qed.

End Codes.
