(* ===== verification/RdbThms.v ===== *)
(** * What the serialization of strings promises *)

From S2P Require Import Prelude Endian Util Sds Crc64 Lzf Server ServerFacts ObjFacts Rio RioThms Rdb RdbFacts.
Import SdsSpec SdsFacts QuoteFacts SplitFacts Crc64Spec Crc64Facts EndianFacts LzfSpec.

(** ** The theorems *)

(** A stream in memory keeps what is written to it: after a write in chunks of any size,
    a stream on the same buffer, with chunks of another size, reads the same bytes at that
    place, and on both sides the checksum is the CRC of the bytes that went through. *)
Theorem rio_roundtrip junk r x b : stream_ok r -> rep (r_ptr r) x -> bytes_ok b -> zlen x + zlen b <= SDS_LIMIT ->
  exists s, rioWrite junk r b (zlen b) = Some (through r s b) /\ rep s (x ++ b) /\
    forall r', stream_ok r' -> r_ptr r' = s -> r_pos r' = zlen x -> rioRead r' (zlen b) = Some (through r' s b, Some b).
Proof.
  intros Ho Hr Hb Hl. destruct (rioWrite_ok junk r x b [] _ Ho Hr Hb Hl eq_refl) as (s & E & Hs). rewrite app_nil_r in E.
  exists s. split; [done|]. split; [done|]. intros r' Ho' <- Hp. apply (rioRead_ok r' x b []); [|done].
  split; [by rewrite app_nil_r|done|done|by rewrite app_nil_r].
Qed.

Section Theorems.
Context `{Host} `{ServerEnv} (rdb_compression : bool) (htab : Lzf.htab_t) (base : Z).

(** C20. A string object, whatever its encoding, is saved as bytes that the loader turns back
    into an object with the same text, whether it may encode integers or not: as an integer,
    compressed (with any content of the uninitialised table of the compressor) or verbatim.
    The size that is returned is that of the bytes, and also the one computed without a
    stream. *)
Theorem rdb_string_roundtrip o x : Lzf.MAX_OFF <= base -> base + STRING_MAX <= 2 ^ 64 -> LzfEncode.htab_ok base htab ->
  obj_ok o -> value_of o = VStr x -> exists code,
    saves (fun rdb => rdbSaveObject rdb_compression htab rdb o) code (zlen code) /\ encodes code x.
Proof. intros. by apply (save_object rdb_compression htab base). Qed.

(** The payload that DUMP makes of a string object passes the tests of RESTORE, wherever it
    lies in memory, and loads as an object with the same text. *)
Theorem dump_payload_roundtrip o x : Lzf.MAX_OFF <= base -> base + STRING_MAX <= 2 ^ 64 -> LzfEncode.htab_ok base htab ->
  obj_ok o -> value_of o = VStr x -> zlen x <= STRING_MAX - 18 ->
  exists r p, createDumpPayload rdb_compression htab o = Some r /\ rep (r_ptr r) p /\ payload_for p x.
Proof.
  intros Hb Ht Hh Ho Hv Hl. destruct (dump_ok rdb_compression htab base Hb Ht Hh o x Ho Hv Hl) as (r & code & E & Hr & He & Hc).
  exists r, (payload_of (REDIS_RDB_TYPE_STRING :: code)). split; [done|]. split; [done|]. by apply payload_ok.
Qed.

(** C31. Loading a string from any bytes, truncated or corrupted, ends without an access
    outside the stream or the new string, and either reports an error or creates an object
    with a valid text, provided that the first byte is not an encoding that does not exist,
    nor that of a compressed string with no data or with a length that an int cannot hold. *)
Theorem rdb_load_safe r pre y encode : reading r pre y -> string_head_ok y -> load_result (rdbGenericLoadStringObject r encode).
Proof. apply load_string_total. Qed.

(** The tests of RESTORE do not cover these cases: a payload with a valid version and
    checksum and an encoding that does not exist makes the loader panic, and one with an
    empty compressed string makes it read outside its buffer. *)
Theorem restore_payload_panics code : In code [[196]; [195; 0; 1]] -> exists r,
  verifyDumpPayload (payload_of (REDIS_RDB_TYPE_STRING :: code)) (zlen (payload_of (REDIS_RDB_TYPE_STRING :: code))) = Some true /\
  rdbLoadObjectType (rioInitWithBuffer (Sds (zlen code + 11) 0 (payload_of (REDIS_RDB_TYPE_STRING :: code) ++ [0]))) = Some (r, REDIS_RDB_TYPE_STRING) /\
  rdbLoadEncodedStringObject r = None.
Proof.
  intros Hc. set (body := REDIS_RDB_TYPE_STRING :: code).
  assert (bytes_ok body) as Hb by (destruct Hc as [<-|[<-|[]]]; repeat (apply Forall_cons; split; [by vm_compute|]); constructor).
  pose proof (verify_ok body [] Hb) as Ev. rewrite app_nil_r in Ev.
  exists (Rio (Sds (zlen code + 11) 0 (payload_of body ++ [0])) 1 false 0 1 0). split; [exact Ev|].
  destruct H as [[]]; destruct Hc as [<-|[<-|[]]]; split; vm_compute; reflexivity.
Qed.

End Theorems.

(** A compressed string whose length needs the 32nd bit gives an object whose length, an int,
    is negative: as an unsigned size it is far larger than the memory of the string. *)
Theorem compressed_length_wraps `{Host} `{ServerEnv} r pre rest N : 2 ^ 31 <= N < 2 ^ 32 - 1 ->
  reading r pre (([195] ++ code_len 2 ++ code_len N ++ [0; 65]) ++ rest) ->
  exists r' s, rdbLoadStringObject r = Some (r', Some (CreateRaw s)) /\ zlen (s_buf s) = N + 1 /\ sdslen s = 2 ^ 64 - 2 ^ 32 + N.
Proof.
  intros HN Hr. rewrite <- !(assoc_L (++)) in Hr. unfold rdbLoadStringObject, rdbGenericLoadStringObject. change 195 with (192 + 3) in *.
  cbn [app] in Hr. rewrite (loads_len_enc 3 r pre _) by done. cbn [mbind option_bind]. apply (reading_through r pre [192 + 3]) in Hr.
  unfold REDIS_RDB_ENC_INT8, REDIS_RDB_ENC_INT16, REDIS_RDB_ENC_INT32, REDIS_RDB_ENC_LZF, rdbLoadLzfStringObject. cbn [Z.eqb Pos.eqb orb].
  rewrite (loads_len 2 ltac:(lia) _ _ _ Hr). cbn [mbind option_bind]. apply reading_through in Hr. unfold REDIS_RDB_LENERR. cbn [Z.eqb].
  rewrite (loads_len N ltac:(lia) _ _ _ Hr). cbn [mbind option_bind]. apply reading_through in Hr. zdec.
  unfold sdsnewlen. cbn [mbind option_bind s_buf s_len s_free]. set (z := replicate (Z.to_nat N) 0). assert (zlen z = N) as Hz by (unfold z; rewrite zlen_replicate; lia).
  rewrite (rioRead_ok _ _ [0; 65] rest) by done. cbn [mbind option_bind]. unfold Lzf.lzf_decompress.
  assert (exists o, Lzf.decompress_loop (Z.to_nat 2) [0; 65] (z ++ [0]) 2 N 0 0 = Some ([65] ++ o, 1) /\ zlen o = N) as (o & E & Ho).
  { assert (runs [] [Lit [65]] [65]) as Hruns by (repeat constructor; by vm_compute).
    destruct (LzfDecode.decompress_loop_ok [Lit [65]] [] [65] (Z.to_nat 2) [] [] (z ++ [0]) 2 N 0 0 Hruns) as (o & E & Ho); try done.
    - cbn. lia.
    - rewrite zlen_app, Hz. change (zlen (@nil Z)) with 0. change (zlen [65]) with 1. change (zlen [0]) with 1. lia.
    - exists o. split; [exact E|]. rewrite zlen_app, zlen_nil, Hz in Ho. change (zlen [65]) with 1 in Ho. change (zlen [0]) with 1 in Ho. lia. }
  rewrite E. cbn [mbind option_bind]. cbn [Z.eqb].
  eexists _, _. split; [done|]. cbn [s_buf s_len]. split; [rewrite zlen_app, Ho; change (zlen [65]) with 1; lia|].
  assert (swrap 32 N = N - 2 ^ 32) as Es.
  { unfold swrap. replace (N + 2 ^ (32 - 1)) with (N - 2 ^ 31 + 1 * 2 ^ 32) by lia. rewrite Z.mod_add, Z.mod_small by lia. lia. }
  unfold sdslen. cbn [s_len]. rewrite Es. unfold uwrap. replace (N - 2 ^ 32) with (2 ^ 64 - 2 ^ 32 + N + (- 1) * 2 ^ 64) by lia. rewrite Z.mod_add, Z.mod_small; lia.
Qed.

(** ** Witnesses *)

Section Witnesses.

#[local] Instance little_host : Host := {| big_endian := false |}.

Lemma always_positive n : 0 <= (fun _ : nat => 1000) n < 2 ^ 63.
Proof. done. Qed.

#[local] Instance small_env : ServerEnv := {|
  junk := fun _ => 7; new_addr := fresh_key; new_addr_fresh := fresh_key_ok; clock := fun _ => 1000; clock_ok := always_positive;
  lruclock := 0; dbnum := 1; saving_child := false; loading := false; masterhost := false; lua_time := None; maxmemory := 0;
  client_is_master := false; write_handler := true; reply_by_reference := fun _ => false |}.

Definition word : list Z := replicate 50 97.
Definition word_object : robject := RObject REDIS_STRING REDIS_ENCODING_RAW 0 1 (PSds (Sds 50 0 (word ++ [0]))).

Lemma word_ok : obj_ok word_object /\ value_of word_object = VStr word.
Proof.
  assert (rep (Sds 50 0 (word ++ [0])) word) as Hr by (by exists []).
  split; [|by vm_compute]. left. split_and!; [done|done|]. exists (Sds 50 0 (word ++ [0])), word.
  split_and!; [done|done| |by vm_compute]. unfold word. repeat first [apply Forall_nil_2 | apply Forall_cons_2; [by vm_compute|]].
Qed.

Lemma rio_roundtrip_witness : let r := Rio (Sds 0 0 [0]) 0 true 0 0 2 in
  exists s, rioWrite (fun _ => 7) r [1; 2; 3] (zlen [1; 2; 3]) = Some (through r s [1; 2; 3]) /\ rep s ([] ++ [1; 2; 3]) /\
    forall r', stream_ok r' -> r_ptr r' = s -> r_pos r' = zlen (@nil Z) -> rioRead r' (zlen [1; 2; 3]) = Some (through r' s [1; 2; 3], Some [1; 2; 3]).
Proof. apply (rio_roundtrip (fun _ => 7) (Rio (Sds 0 0 [0]) 0 true 0 0 2) []); [done|by exists []|by repeat constructor|by vm_compute]. Defined.

Lemma rdb_string_roundtrip_witness : exists code,
  saves (fun rdb => rdbSaveObject true (fun _ => 5) rdb word_object) code (zlen code) /\ encodes code word.
Proof.
  destruct word_ok as [Ho Hv]. apply (rdb_string_roundtrip true (fun _ => 5) 10000 word_object word); [by vm_compute|by vm_compute| |exact Ho|exact Hv].
  intros i. by vm_compute.
Defined.

Lemma dump_payload_roundtrip_witness : exists r p, createDumpPayload true (fun _ => 5) word_object = Some r /\ rep (r_ptr r) p /\ payload_for p word.
Proof.
  destruct word_ok as [Ho Hv]. apply (dump_payload_roundtrip true (fun _ => 5) 10000 word_object word); [by vm_compute|by vm_compute| |exact Ho|exact Hv|by vm_compute].
  intros i. by vm_compute.
Defined.

Lemma rdb_load_safe_witness : load_result (rdbGenericLoadStringObject (rioInitWithBuffer (Sds 3 0 [195; 1; 5; 0])) true).
Proof.
  apply (rdb_load_safe _ [] [195; 1; 5]); [|split; [done|intros _; split; [done|by left]]].
  split; [by exists []|done|done|by repeat constructor].
Defined.

Lemma restore_payload_panics_witness : exists r,
  verifyDumpPayload (payload_of [REDIS_RDB_TYPE_STRING; 196]) (zlen (payload_of [REDIS_RDB_TYPE_STRING; 196])) = Some true /\
  rdbLoadObjectType (rioInitWithBuffer (Sds (zlen [196] + 11) 0 (payload_of [REDIS_RDB_TYPE_STRING; 196] ++ [0]))) = Some (r, REDIS_RDB_TYPE_STRING) /\
  rdbLoadEncodedStringObject r = None.
Proof. apply (restore_payload_panics [196]). by left. Defined.

Lemma compressed_length_wraps_witness : exists r' s,
  rdbLoadStringObject (rioInitWithBuffer (Sds 9 0 [195; 2; 128; 128; 0; 0; 0; 0; 65; 0])) = Some (r', Some (CreateRaw s)) /\
  zlen (s_buf s) = 2 ^ 31 + 1 /\ sdslen s = 2 ^ 64 - 2 ^ 32 + 2 ^ 31.
Proof.
  apply (compressed_length_wraps _ [] []); [done|]. split; [by exists []|done|done|by repeat constructor].
Defined.

End Witnesses.
