(* ===== verification/Migrate.v ===== *)
(** * migrate.c: the commands DUMP and RESTORE

    MIGRATE, which talks to another server, is not modelled; values other than strings
    have no serialization in Rdb, so the commands have no result on them. *)

From Stdlib Require Import Ascii String.
From S2P Require Import Prelude Endian Util Sds Lzf Server Db Rio Rdb.

Section Migrate.
Context `{Host} `{ServerEnv} (rdb_compression : bool) (htab : Lzf.htab_t).

(** The creation of the object that the loader asks for. *)
Definition create_loaded (c : created) : Cmd addr :=
  match c with
  | CreateRaw val => createObject REDIS_STRING (PSds val)
  | CreateLongLong val => createStringObjectFromLongLong val
  end.

Definition rdbLoadObject (rdbtype : Z) (rdb : rio) : Cmd (option addr) :=
  if rdbtype =? REDIS_RDB_TYPE_STRING then
    '(_, c) ← lift (rdbLoadEncodedStringObject rdb);
    match c with
    | None => mret None
    | Some c => o ← create_loaded c; o ← tryObjectEncoding o; mret (Some o)
    end
  else panic.

Definition dumpCommand : Cmd unit :=
  db ← c_db;
  key ← arg 1;
  o ← lookupKeyRead db key;
  match o with
  | None => addReply shared_nullbulk
  | Some a =>
      o ← load a;
      payload ← lift (createDumpPayload rdb_compression htab o);
      dumpobj ← createObject REDIS_STRING (PSds (r_ptr payload));
      _ ← addReplyBulk dumpobj;
      decrRefCount dumpobj
  end.

Definition restoreCommand : Cmd unit :=
  db ← c_db;
  key ← arg 1;
  o ← lookupKeyWrite db key;
  match o with
  | Some _ => addReplyError "Target key name is busy."
  | None =>
      a ← arg 2;
      r ← getLongLongFromObjectOrReply (Some a) None;
      match r with
      | None => mret tt
      | Some ttl =>
          if ttl <? 0 then addReplyError "Invalid TTL value, must be >= 0" else
          s ← arg_sds 3;
          ok ← lift (verifyDumpPayload (s_buf s) (sdslen s));
          if negb ok then addReplyError "DUMP payload version or checksum are wrong" else
          '(payload, type) ← lift (rdbLoadObjectType (rioInitWithBuffer s));
          obj ← (if type =? -1 then mret None else rdbLoadObject type payload);
          match obj with
          | None => addReplyError "Bad data format"
          | Some obj =>
              _ ← dbAdd db key obj;
              _ ← (if negb (ttl =? 0) then now ← mstime; setExpire db key (swrap 64 (now + ttl)) else mret tt);
              _ ← signalModifiedKey db key;
              _ ← addReply shared_ok;
              incr_dirty 1
          end
      end
  end.

End Migrate.
