(* ===== verification/MigrateThms.v ===== *)
(** * What DUMP and RESTORE do *)

From Stdlib Require Import Ascii String.
From S2P Require Import Prelude Endian Util Sds Lzf Server ServerFacts ObjFacts Db DbFacts CommandFacts TstringThms SessionThms CommandThms Rio RioThms Rdb RdbFacts Migrate.
Import SdsSpec SdsFacts.

(** ** Specification *)

(** DUMP of the key [k] whose value has the payload [p]. *)
Definition a_dump `{ServerEnv} (k p : list Z) : Spec unit :=
  db ← a_db;
  o ← a_lookupRead db k;
  match o with None => a_reply shared_nullbulk | Some _ => a_reply (r_bulk p) end.

(** RESTORE of the key [k] with a payload for the string of [r], or one that is not valid. *)
Definition a_restore `{ServerEnv} (k t : list Z) (r : option (list Z)) : Spec unit :=
  db ← a_db;
  o ← a_lookupWrite db k;
  if bool_decide (is_Some o) then a_reply (r_error "Target key name is busy.") else
  ms ← a_parse t not_an_integer;
  match ms with
  | None => mret tt
  | Some ttl =>
      if ttl <? 0 then a_reply (r_error "Invalid TTL value, must be >= 0") else
      match r with
      | None => a_reply (r_error "DUMP payload version or checksum are wrong")
      | Some x =>
          _ ← a_modify db (put k (VStr x));
          _ ← (if negb (ttl =? 0) then now ← a_mstime; a_modify db (expire_at k (swrap 64 (now + ttl))) else mret tt);
          _ ← a_log (Modified db k);
          _ ← a_reply shared_ok;
          a_dirty 1
      end
  end.

Section Migrate.
Context `{Host} `{ServerEnv} (rdb_compression : bool) (htab : Lzf.htab_t) (base : Z).

(** ** The encoding of a new object *)

Lemma wp_encode_local N L R s a x q :
  inv N ((a, VStr x, q) :: L) [] R s -> N + 1 < 2 ^ 31 ->
  wp (tryObjectEncoding a) s (fun i s' => exists q, inv N ((i, VStr x, q) :: L) [] R s' /\ abs s' = abs s /\ heap_step s s').
Proof.
  intros I HN. destruct (inv_locals _ _ _ _ _ I a (VStr x) q) as [Hv _]; [by left|].
  destruct (val_obj _ _ _ _ _ _ _ I Hv) as (o & Ho & Hok & Hvo). destruct (obj_string o x Hok Hvo) as (Ht & Hc & Hb & Hl).
  apply wp_bind, (wp_load _ o); [done|]. destruct Hc as [(He & b & Hp & Hr)|(He & _)]; rewrite He.
  2:{ apply wp_ret. exists q. split_and!; [exact I|done|apply heap_step_refl]. }
  cbn [Z.eqb REDIS_ENCODING_RAW negb]. destruct (Z.gtb_spec (o_refcount o) 1) as [Hrc|Hrc].
  { apply wp_ret. exists q. split_and!; [exact I|done|apply heap_step_refl]. }
  destruct (inv_count _ _ _ _ _ _ _ I Ho) as (Hc1 & Hc2 & _). assert (o_refcount o = 1) as H1 by lia.
  apply wp_bind, wp_assert; [rewrite Ht; done|]. unfold obj_sds. rewrite Hp. apply wp_bind, wp_ret, wp_bind.
  apply (wp_lift _ x). { unfold sds_bytes. rewrite (rep_sdslen _ _ Hr). destruct Hr as (sp & -> & _). by apply rdn_prefix. }
  rewrite (rep_sdslen _ _ Hr). pose proof (inv_room _ _ _ _ _ I) as Hroom. destruct (if zlen x >? 21 then None else Num.string2l x) as [v|] eqn:Es.
  - destruct (zlen x >? 21); [done|]. apply string2l_print in Es as [Hin ->].
    destruct ((maxmemory =? 0) && (0 <=? v) && (v <? REDIS_SHARED_INTEGERS)) eqn:Esh.
    + bool_to_prop. apply wp_bind. eapply wp_mono; [eapply wp_decr; [exact I|by left]|]. cbn beta. intros _ s1 (I1 & E1 & H1' & _).
      destruct (inv_shared _ _ _ _ _ v I1) as (i & Hi & _ & Hvi & _); [done|].
      apply wp_bind, wp_gets, wp_bind, (wp_lift _ _ _ _ Hi), wp_bind.
      eapply wp_mono; [eapply (wp_incr _ _ _ _ _ i (VStr (print v)) false I1 Hvi); [done|lia]|]. cbn beta. intros _ s2 (I2 & E2 & H2'). apply wp_ret.
      exists false. replace (N - 1 + 1) with N in I2 by lia. split; [exact I2|]. split; [congruence|]. by eapply heap_step_trans.
    + set (o' := set_ptr (set_encoding o REDIS_ENCODING_INT) (PLong v)).
      assert (obj_ok o') as Hok' by (right; left; split_and!; [done|done|by exists v]).
      destruct (inv_free _ _ _ _ _ _ _ _ o I Ho H1) as [I1 E1]; [done|]. set (s1 := with_heap s (delete a (heap s))) in *.
      destruct (inv_alloc _ _ _ _ s1 a o' false I1) as [I2 E2]; [lia|apply lookup_delete_eq|done|done|done|].
      apply wp_bind, (wp_store _ o); [done|]. apply wp_ret.
      assert (with_heap s1 (<[a := o']> (heap s1)) = with_heap s (<[a := o']> (heap s))) as E by (unfold s1, with_heap; cbn; by rewrite insert_delete_eq).
      rewrite E in I2, E2. exists false. replace (N - 1 + 1) with N in I2 by lia. split; [|split; [congruence|done]].
      assert (value_of o' = VStr (print v)) as Ev by done. by rewrite Ev in I2.
  - destruct (_ && _ && _); [|apply wp_ret; exists q; split_and!; [exact I|done|apply heap_step_refl]].
    set (o' := set_ptr o (PSds (sdsRemoveFreeSpace junk b))).
    assert (same_object o o') as Hso.
    { split_and!; [done|done|right]. exists b, (sdsRemoveFreeSpace junk b), x. split_and!; [done|done|done|by apply RemoveFree_rep]. }
    edestruct (inv_object N N ((a, VStr x, q) :: L) ((a, VStr x, q) :: L) [] [] R s a o o') as [I1 E1]; [exact I|exact Ho|exact Hso|cbn; lia|exact Hc2|done|by left|done|].
    apply wp_bind, (wp_store _ o); [done|]. apply wp_ret. by exists q.
Qed.

(** ** Loading *)

Lemma wp_loaded N L R s c x : created_is c x -> zlen x <= STRING_MAX -> bytes_ok x -> inv N L [] R s -> N + 2 < 2 ^ 31 ->
  wp (o ← create_loaded c; tryObjectEncoding o) s (fun i s' => exists q, inv (N + 1) ((i, VStr x, q) :: L) [] R s' /\ abs s' = abs s /\ heap_step s s').
Proof.
  intros Hc Hl Hb I HN. apply wp_bind.
  apply (wp_mono _ _ (fun a s1 => exists q, inv (N + 1) ((a, VStr x, q) :: L) [] R s1 /\ abs s1 = abs s /\ heap_step s s1)).
  - destruct c as [b|v]; cbn [created_is create_loaded] in *.
    + eapply wp_mono; [eapply (wp_createSds _ _ _ _ _ b x I); try done; lia|]. cbn beta. intros a s1 (I1 & E1 & H1 & _). by exists true.
    + destruct Hc as [Hv ->]. eapply wp_mono; [eapply (wp_createFromLongLong _ _ _ _ _ v I); [lia|exact Hv]|]. cbn beta. intros a s1 (I1 & E1 & H1). by exists false.
  - intros a s1 (q & I1 & E1 & H1). eapply wp_mono; [eapply wp_encode_local; [exact I1|lia]|]. cbn beta. intros i s2 (q' & I2 & E2 & H2). exists q'.
    split; [exact I2|]. split; [congruence|by eapply heap_step_trans].
Qed.

(** ** RESTORE *)

Lemma arg_bytes N s n j p : fits N s n -> (j < n)%nat -> a_argv (abs s) !! j = Some p -> bytes_ok p.
Proof.
  intros F Hj Ep. use_arg F j a q Ha Ej. rewrite Ep in Ej. injection Ej as <-. destruct F as (I & _).
  destruct (val_obj _ _ _ _ _ _ _ I (raw_arg_val _ _ _ _ _ _ _ _ I Ha)) as (o & _ & Hok & Hv).
  by destruct (obj_string o p Hok Hv) as (_ & _ & Hb & _).
Qed.

Lemma sim_restoreCommand N s r : fits N s 4 ->
  (forall p, a_argv (abs s) !! 3%nat = Some p ->
    match r with
    | Some x => payload_for p x /\ bytes_ok x /\ zlen x <= STRING_MAX
    | None => forall tl, verifyDumpPayload (p ++ tl) (zlen p) = Some false
    end) ->
  sim restoreCommand (k ← a_arg 1; t ← a_arg 2; a_restore k t r) s (finished N s).
Proof.
  intros F Hp. use_arg F 1%nat key k Hk Ek. use_arg F 2%nat at_ t Ht Et. use_arg F 3%nat av p Hp3 Ep. specialize (Hp p Ep).
  destruct F as (I & HN & Hl). pose proof (zlen_nonneg (argv s)).
  apply (sim_arg_r _ _ _ _ _ _ Ek), (sim_arg_r _ _ _ _ _ _ Et), sim_db. pose proof (inv_cur_db _ _ _ _ _ I) as Hc. set (db := cur (sd s)) in *.
  eapply sim_argR; [exact I|exact Hk|]. sim_next sim_lookupKeyWrite; [exact I|exact Hk|exact Hc|]. intros o v s1 (I1 & K1 & C1 & F1).
  destruct o as [a|], v as [v|]; try done; cbn [bool_decide]; rewrite ?bool_decide_true, ?bool_decide_false by (by eauto || (by intros [? ?])).
  { eapply sim_reply_done; [exact I1|lia]. }
  eapply sim_argR; [exact I1|exact Ht|]. 
  sim_next sim_parse; [exact I1|by eapply raw_arg_val|]. intros ttl ? s2 (<- & I2 & _ & _ & Hs). destruct ttl as [ttl|]; [|apply sim_ret; eapply done_inv; [exact I2|lia]].
  destruct (Hs ttl eq_refl) as [Httl ->]. clear I2 Hs. destruct (ttl <? 0); [eapply sim_reply_done; [exact I1|lia]|].
  eapply sim_arg_sds; [exact I1|exact Hp3|]. intros b Hb. rewrite (rep_sdslen _ _ Hb).
  destruct (rep_buffer _ _ Hb) as [tl Eb]. destruct r as [x|].
  2:{ rewrite Eb. eapply sim_step, (wp_lift _ _ _ _ (Hp tl)). split; [done|]. cbn [negb]. eapply sim_reply_done; [exact I1|lia]. }
  destruct Hp as ((Hver & Hload) & Hx & Hlx). rewrite Eb. eapply sim_step, (wp_lift _ _ _ _ (Hver tl)). split; [done|]. cbn [negb].
  destruct (Hload b Hb) as (r1 & r2 & c & E1 & E2 & Hcr). eapply sim_step, (wp_lift _ _ _ _ E1). split; [done|]. cbn beta iota. change (REDIS_RDB_TYPE_STRING =? -1) with false. cbn iota.
  eapply sim_step, (wp_mono _ _ (fun obj s' => exists i q, obj = Some i /\ inv (N + 1) [(i, VStr x, q)] [] (all_args s) s' /\ abs s' = abs s1 /\ heap_step s1 s')).
  { unfold rdbLoadObject. cbn [Z.eqb REDIS_RDB_TYPE_STRING]. apply wp_bind, (wp_lift _ _ _ _ E2). cbn beta iota.
    pose proof (wp_loaded N [] (all_args s) s1 c x Hcr Hlx Hx I1 ltac:(lia)) as W. unfold wp in W |- *. unfold mbind, Cmd_bind in *.
    destruct (create_loaded c s1) as [[o1 t1]|]; [|done]. destruct (tryObjectEncoding o1 t1) as [[o2 t2]|]; [|done].
    cbn. destruct W as (q & W). by exists o2, q. }
  intros obj s2 (i & q & -> & I2 & E3 & H3). split; [done|]. destruct (heap_step_frame _ _ H3) as (Ed & _ & Esd).
  sim_next (sim_store_local (N + 1) [] (all_args s) s2 1%nat key k db i (VStr x) None None q); [exact I2|exact Hk|exact Hc|by eapply found_abs|].
  intros _ _ s3 (I3 & K3 & D3 & A3 & V3). 
  eapply sim_bind, (sim_mono _ _ _ (fun _ _ s' => inv (N + 1) [] [] (all_args s) s')).
  { destruct (negb (ttl =? 0)); [|by apply sim_ret]. sim_next sim_mstime; [exact I3|]. intros now _ s4 (<- & _ & I4 & E4).
    eapply sim_mono; [eapply sim_setExpire; [exact I4|exact Hk|exact Hc| |by apply swrap_range]|].
    - rewrite E4. assert (cur_db db (abs (with_sd s3 (set_ticks (sd s3) (S (ticks (sd s3)))))) = cur_db db (abs s3)) as -> by done.
      destruct A3 as (d & Ed3 & Ek3). rewrite (cur_db_eq _ _ _ Ed3), view_lookup, Ek3. cbn. by eexists.
    - cbn beta. by intros _ _ s5 (I5 & _). }
  cbn beta. intros _ _ s4 I4. sim_next sim_signal; [exact I4|exact Hk|]. intros _ _ s5 (I5 & ->).
  sim_next sim_addReply; [exact I5|]. intros _ _ s6 (I6 & ->).
  eapply sim_mono; [by eapply sim_incr_dirty|]. intros ? ? s7 (I7 & _). eapply done_inv; [exact I7|lia].
Qed.

(** ** DUMP *)

Lemma sim_dumpCommand N s k : Lzf.MAX_OFF <= base -> base + STRING_MAX <= 2 ^ 64 -> LzfEncode.htab_ok base htab ->
  fits N s 2 -> a_argv (abs s) !! 1%nat = Some k ->
  match fst (a_lookupRead (cur (sd s)) k (abs s)) with
  | Some (VStr x) => zlen x <= STRING_MAX - 18
  | Some (VOther _ _) => False
  | None => True
  end ->
  exists p, (forall x, fst (a_lookupRead (cur (sd s)) k (abs s)) = Some (VStr x) -> payload_for p x /\ bytes_ok p /\ bytes_ok x) /\
    sim (dumpCommand rdb_compression htab) (a_dump k p) s (finished N s).
Proof.
  intros Hb1 Hb2 Hb3 F Ek Hv. use_arg F 1%nat key k' Hk Ek'. rewrite Ek in Ek'. injection Ek' as <-.
  destruct F as (I & HN & Hl). pose proof (zlen_nonneg (argv s)). pose proof (inv_cur_db _ _ _ _ _ I) as Hc. set (db := cur (sd s)) in *.
  pose proof (sim_lookupKeyRead N [] (all_args s) s 1%nat key k db I Hk Hc) as Hs. unfold sim, wp in Hs.
  destruct (lookupKeyRead db key s) as [[o s1]|] eqn:E1; [|done]. destruct (a_lookupRead db k (abs s)) as [v t] eqn:E2. destruct Hs as (-> & I1 & K1 & C1 & F1).
  cbn [fst] in *.
  assert (forall (f : option addr -> Cmd unit) am Q, (forall w, am w = match v with None => a_reply shared_nullbulk | Some _ => a_reply (r_bulk w) end) ->
    forall p, sim (f o) (am p) s1 Q -> sim (db ← c_db; key ← arg 1; o ← lookupKeyRead db key; f o) (a_dump k p) s Q) as Hgo.
  { intros f am Q Ham p Hf. apply sim_db. eapply sim_argR; [exact I|exact Hk|]. fold db. unfold sim, wp, mbind, Cmd_bind, Spec_bind. rewrite E1, E2.
    unfold sim, wp in Hf. rewrite Ham in Hf. by destruct v. }
  unfold dumpCommand. destruct o as [a|], v as [v|]; try done.
  2:{ exists []. split; [done|]. eapply (Hgo _ (fun _ => a_reply shared_nullbulk)); [done|]. eapply sim_reply_done; [exact I1|lia]. }
  destruct v as [x|? ?]; [|done]. destruct F1 as [_ Hva]. destruct (val_obj _ _ _ _ _ _ _ I1 Hva) as (ob & Ho & Hok & Hov).
  destruct (dump_ok rdb_compression htab base Hb1 Hb2 Hb3 ob x Hok Hov Hv) as (r & code & Er & Hrp & He & Hcb).
  set (p := payload_of (REDIS_RDB_TYPE_STRING :: code)) in *. assert (bytes_ok p) as Hbp.
  { unfold p, payload_of. apply Forall_app_2; [apply Forall_app_2; [by constructor|by repeat constructor]|apply le_enc_ok]. }
  assert (zlen p <= STRING_MAX) as Hlp.
  { unfold p, payload_of. rewrite !zlen_app, zlen_le_enc, zlen_cons. change (zlen [REDIS_RDB_VERSION; 0]) with 2. destruct He as [He _]. lia. }
  exists p. split; [intros y [= <-]; split_and!; [by apply payload_ok|done|]|].
  { by destruct (obj_string ob x Hok Hov) as (_ & _ & Hbx & _). }
  eapply (Hgo _ (fun p => a_reply (r_bulk p))); [done|].
  eapply sim_step, (wp_load _ ob); [done|]. split; [done|]. eapply sim_step, (wp_lift _ _ _ _ Er). split; [done|].
  sim_skip (wp_createSds N [] [] (all_args s) s1 (r_ptr r) p I1); [lia|exact Hrp|exact Hbp|exact Hlp|]. intros d s2 (I2 & E3 & H3 & _ & _ & Hd).
  split; [done|].
  assert (val_at (heap s2) d = Some (VStr p)) as Hvd by (destruct (inv_locals _ _ _ _ _ I2 d (VStr p) true) as [? _]; [by left|done]).
  apply wp_bind. eapply wp_mono; [eapply (sim_addReplyBulk _ _ _ _ s2 d p I2 Hvd); lia|]. cbn beta. intros _ s3.
  destruct (a_reply (r_bulk p) (abs s2)) as [y t]. intros (-> & I3 & _).
  eapply wp_mono; [eapply wp_decr; [exact I3|by left]|]. cbn beta. intros u s4 (I4 & E4 & _). split; [by rewrite E4|].
  eapply done_inv; [exact I4|lia].
Qed.

(** ** The theorems *)

(** C18. DUMP and RESTORE move a string between servers: the payload that DUMP replies for a
    live key is one that RESTORE accepts in any state of any server, and there RESTORE
    does what its specification says: an absent key gets the string, with the time to live
    of its argument, and everything is counted and signalled; a key that exists, or a time
    that is not an integer or is negative, gives the error and no change. *)
Theorem dump_restore N s k x : Lzf.MAX_OFF <= base -> base + STRING_MAX <= 2 ^ 64 -> LzfEncode.htab_ok base htab ->
  fits N s 2 -> a_argv (abs s) !! 1%nat = Some k ->
  fst (a_lookupRead (cur (sd s)) k (abs s)) = Some (VStr x) -> zlen x <= STRING_MAX - 18 ->
  exists p, sim (dumpCommand rdb_compression htab) (a_dump k p) s (finished N s) /\
    forall N' t, fits N' t 4 -> a_argv (abs t) !! 3%nat = Some p ->
      sim restoreCommand (k ← a_arg 1; ttl ← a_arg 2; a_restore k ttl (Some x)) t (finished N' t).
Proof.
  intros Hb1 Hb2 Hb3 F Ek Hx Hl. destruct (sim_dumpCommand N s k Hb1 Hb2 Hb3 F Ek) as (p & Hp & Hs); [by rewrite Hx|].
  exists p. split; [done|]. intros N' t F' Ep. apply sim_restoreCommand; [done|]. intros q Eq. rewrite Ep in Eq. injection Eq as <-.
  destruct (Hp x Hx) as (H1 & _ & H3). split_and!; [done|done|lia].
Qed.

(** C38. RESTORE of anything that is not a payload replies an error and changes nothing (but
    for the key that it looks up, if it expired): a payload is a body, the version of the
    dump format in two bytes and the CRC-64 of both, the remainder of the bits and not what
    the table of crc64.c gives, in eight bytes from the lowest; so a text that is too short,
    has another version, or has been changed anywhere without a new checksum is refused, on
    a host of either byte order. The errors of a busy key and of the time come first, as in
    the code. *)
Theorem restore_rejects N s p : fits N s 4 -> a_argv (abs s) !! 3%nat = Some p -> not_payload p ->
  sim restoreCommand (k ← a_arg 1; t ← a_arg 2; a_restore k t None) s (finished N s).
Proof.
  intros F Ep Hn. apply (sim_restoreCommand N s None F). intros q Eq tl. rewrite Ep in Eq. injection Eq as <-.
  apply verify_bad; [|done]. apply (arg_bytes N s 4 3 p F); [lia|done].
Qed.

End Migrate.

(** ** Witnesses *)

Section Witnesses.
Import Example.

Definition dump_l : aserver := AServer (a_dbs (snd (a_serve before a_start))) (map str ["DUMP"; "l"]%string) (a_sd (snd (a_serve before a_start))).

Lemma lzf_table_base : Lzf.MAX_OFF <= 10000.
Proof. by vm_compute. Qed.
Lemma lzf_table_top : 10000 + STRING_MAX <= 2 ^ 64.
Proof. by vm_compute. Qed.
Lemma lzf_table_ok : LzfEncode.htab_ok 10000 (fun _ => 5).
Proof. intros i. by vm_compute. Qed.
Lemma abc_short : zlen (str "abc") <= STRING_MAX - 18.
Proof. by vm_compute. Qed.

Lemma dump_restore_witness : exists N s p, abs s = dump_l /\
  sim (dumpCommand true (fun _ => 5)) (a_dump (str "l") p) s (finished N s) /\
  forall N' t, fits N' t 4 -> a_argv (abs t) !! 3%nat = Some p ->
    sim restoreCommand (k ← a_arg 1; ttl ← a_arg 2; a_restore k ttl (Some (str "abc"))) t (finished N' t).
Proof.
  destruct (ready_before (map str ["DUMP"; "l"]%string)) as (N & s & F & E); [reflexivity|reflexivity|]. change (abs s = dump_l) in E.
  assert (cur (sd s) = 0) as Ec by (change (cur (a_sd (abs s)) = 0); rewrite E; vm_compute; reflexivity).
  assert (fst (a_lookupRead (cur (sd s)) (str "l") (abs s)) = Some (VStr (str "abc"))) as Hl by (rewrite Ec, E; vm_compute; reflexivity).
  assert (a_argv (abs s) !! 1%nat = Some (str "l")) as Ek by (rewrite E; reflexivity).
  destruct (dump_restore true (fun _ => 5) 10000 N s (str "l") (str "abc") lzf_table_base lzf_table_top lzf_table_ok F Ek Hl abc_short) as (p & Hd & Hr).
  exists N, s, p. split; [exact E|]. split; [exact Hd|exact Hr].
Defined.

(** A payload of the string a whose checksum is zero. *)
Definition bad_payload : list Z := [0; 1; 97; REDIS_RDB_VERSION; 0; 0; 0; 0; 0; 0; 0; 0; 0].

Lemma restore_rejects_witness : exists N s, fits N s 4 /\ a_argv (abs s) !! 3%nat = Some bad_payload /\ not_payload bad_payload /\
  sim restoreCommand (k ← a_arg 1; t ← a_arg 2; a_restore k t None) s (finished N s).
Proof.
  destruct (ready_before [str "RESTORE"; str "z"; str "0"; bad_payload]) as (N & s & F & E); [reflexivity|reflexivity|].
  assert (a_argv (abs s) !! 3%nat = Some bad_payload) as Ep by (rewrite E; reflexivity).
  assert (not_payload bad_payload) as Hn by (apply not_payload_check; vm_compute; discriminate).
  exists N, s. split; [exact F|]. split; [exact Ep|]. split; [exact Hn|]. exact (restore_rejects N s bad_payload F Ep Hn).
Defined.

End Witnesses.
