(* ===== verification/Multi.v ===== *)
(** * multi.c: transactions and watched keys

    The state has what transactions read and write: the flags, the queue and the watched
    keys of each client, the clients that watch each key, and the replies.  What the other
    commands do to the keyspace is a parameter.  Keys are their bytes; the objects and their
    counters are those of Server. *)

From Stdlib Require Import Ascii String.
From S2P Require Import Prelude Util Sds Server.

Definition REDIS_MULTI : Z := Z.shiftl 1 3.
Definition REDIS_DIRTY_CAS : Z := Z.shiftl 1 5.
Definition REDIS_DIRTY_EXEC : Z := Z.shiftl 1 12.

Definition shared_nullmultibulk : list Z := str "*-1" ++ crlf.
Definition shared_queued : list Z := str "+QUEUED" ++ crlf.
Definition shared_execaborterr : list Z := str "-EXECABORT Transaction discarded because of previous errors." ++ crlf.

Section Multi.
Context {K data : Type}.

(** A command of the table: [cmd->proc]; the others are in [data]. *)
Inductive command := CMulti | CExec | CDiscard | CWatch | CUnwatch | CData (x : data).

Record multiCmd := MultiCmd { mc_cmd : command; mc_argv : list (list Z) }.

Record watchedKey := WatchedKey { wk_db : Z; wk_key : list Z }.

Record client := Client {
  flags : Z; commands : list multiCmd; watched_keys : list watchedKey; c_dbid : Z; reply : list Z }.

(** A call of touchWatchedKey, or of touchWatchedKeysOnFlush with the keys that exist. *)
Inductive touch := TouchKey (db : Z) (key : list Z) | TouchFlush (dbid : Z) (live : Z -> list Z -> bool).

(** [clients] holds the clients by their address and [client_list] is server.clients;
    [db_watched] the tables [db->watched_keys]; [aof] what was propagated.  [touches] records
    the touches, for the theorems: no operation reads it. *)
Record mserver := MServer {
  keyspace : K; clients : gmap nat client; client_list : list nat; db_watched : gmap Z (gmap (list Z) (list nat));
  m_dirty : Z; aof : list (Z * list (list Z)); touches : list touch }.

(** What a command of [data] does: the keyspace, the touches in order, the reply, the change
    of server.dirty, the arguments and the database of the client at its end. *)
Record outcome := Outcome {
  o_keyspace : K; o_touches : list touch; o_reply : list Z; o_dirty : Z; o_argv : list (list Z); o_dbid : Z }.

Context (run_data : data -> Z -> list (list Z) -> K -> outcome) (readonly : data -> bool).

(** ** Operations on the state; [None] is a failed assertion or a bad pointer *)

Definition M (A : Type) : Type := mserver -> option (A * mserver).
#[global] Instance M_ret : MRet M := fun A x s => Some (x, s).
#[global] Instance M_bind : MBind M := fun A B f m s => match m s with None => None | Some (x, s) => f x s end.

Definition get {A} (f : mserver -> A) : M A := fun s => Some (f s, s).
Definition update (f : mserver -> mserver) : M unit := fun s => Some (tt, f s).
Definition fromOption {A} (o : option A) : M A := fun s => match o with Some x => Some (x, s) | None => None end.

Definition with_clients (s : mserver) (m : gmap nat client) : mserver :=
  MServer (keyspace s) m (client_list s) (db_watched s) (m_dirty s) (aof s) (touches s).
Definition with_watched (s : mserver) (w : gmap Z (gmap (list Z) (list nat))) : mserver :=
  MServer (keyspace s) (clients s) (client_list s) w (m_dirty s) (aof s) (touches s).
Definition with_touch (s : mserver) (t : touch) : mserver :=
  MServer (keyspace s) (clients s) (client_list s) (db_watched s) (m_dirty s) (aof s) (touches s ++ [t]).
Definition with_keyspace (s : mserver) (k : K) : mserver :=
  MServer k (clients s) (client_list s) (db_watched s) (m_dirty s) (aof s) (touches s).
Definition with_dirty (s : mserver) (n : Z) : mserver :=
  MServer (keyspace s) (clients s) (client_list s) (db_watched s) n (aof s) (touches s).
Definition with_aof (s : mserver) (l : list (Z * list (list Z))) : mserver :=
  MServer (keyspace s) (clients s) (client_list s) (db_watched s) (m_dirty s) l (touches s).

Definition set_flags (x : client) (f : Z) : client := Client f (commands x) (watched_keys x) (c_dbid x) (reply x).
Definition set_commands (x : client) (l : list multiCmd) : client := Client (flags x) l (watched_keys x) (c_dbid x) (reply x).
Definition set_watched (x : client) (l : list watchedKey) : client := Client (flags x) (commands x) l (c_dbid x) (reply x).
Definition set_dbid (x : client) (d : Z) : client := Client (flags x) (commands x) (watched_keys x) d (reply x).
Definition add_reply (x : client) (b : list Z) : client := Client (flags x) (commands x) (watched_keys x) (c_dbid x) (reply x ++ b).

Definition deref (c : nat) : M client := x ← get (fun s => clients s !! c); fromOption x.
Definition assign (c : nat) (f : client -> client) : M unit :=
  x ← deref c; update (fun s => with_clients s (<[c := f x]> (clients s))).

Definition has (x : client) (flag : Z) : bool := negb (Z.land (flags x) flag =? 0).
Definition addReply (c : nat) (b : list Z) : M unit := assign c (fun x => add_reply x b).
Definition addReplyError (c : nat) (err : string) : M unit := addReply c (str "-ERR " ++ str err ++ crlf).
(** The shared headers that the code uses for short lengths are the same text. *)
Definition addReplyMultiBulkLen (c : nat) (length : Z) : M unit :=
  t ← fromOption (ll_text 128 length); addReply c ([ch_star] ++ t ++ crlf).

Definition watched_in (s : mserver) (db : Z) : gmap (list Z) (list nat) := default ∅ (db_watched s !! db).
Definition set_watched_in (db : Z) (m : gmap (list Z) (list nat)) : M unit :=
  update (fun s => with_watched s (<[db := m]> (db_watched s))).

(** listSearchKey and listDelNode on a list of clients. *)
Fixpoint list_del (l : list nat) (c : nat) : option (list nat) :=
  match l with
  | [] => None
  | d :: l => if Nat.eqb d c then Some l else l' ← list_del l c; Some (d :: l')
  end.

Definition propagate (dbid : Z) (argv : list (list Z)) : M unit := update (fun s => with_aof s (aof s ++ [(dbid, argv)])).

(** ** Watched keys *)

Definition same_key (db : Z) (key : list Z) (w : watchedKey) : bool := (wk_db w =? db) && bool_decide (wk_key w = key).

Definition watchForKey (c : nat) (key : list Z) : M unit :=
  x ← deref c;
  if existsb (same_key (c_dbid x) key) (watched_keys x) then mret tt else
  m ← get (fun s => watched_in s (c_dbid x));
  let l := default [] (m !! key) in
  _ ← set_watched_in (c_dbid x) (<[key := l ++ [c]]> m);
  assign c (fun x => set_watched x (watched_keys x ++ [WatchedKey (c_dbid x) key])).

Fixpoint unwatch_loop (c : nat) (l : list watchedKey) : M unit :=
  match l with
  | [] => mret tt
  | wk :: l =>
      m ← get (fun s => watched_in s (wk_db wk));
      cl ← fromOption (m !! wk_key wk);
      cl ← fromOption (list_del cl c);
      _ ← set_watched_in (wk_db wk) (match cl with [] => delete (wk_key wk) m | _ => <[wk_key wk := cl]> m end);
      _ ← assign c (fun x => set_watched x l);
      unwatch_loop c l
  end.

Definition unwatchAllKeys (c : nat) : M unit := x ← deref c; unwatch_loop c (watched_keys x).

Fixpoint flag_clients (l : list nat) (flag : Z) : M unit :=
  match l with
  | [] => mret tt
  | c :: l => _ ← assign c (fun x => set_flags x (Z.lor (flags x) flag)); flag_clients l flag
  end.

Definition touchWatchedKey (db : Z) (key : list Z) : M unit :=
  _ ← update (fun s => with_touch s (TouchKey db key));
  m ← get (fun s => watched_in s db);
  if Nat.eqb (size m) 0 then mret tt else
  match m !! key with None => mret tt | Some clients => flag_clients clients REDIS_DIRTY_CAS end.

Fixpoint touch_client (c : nat) (l : list watchedKey) (dbid : Z) (live : Z -> list Z -> bool) : M unit :=
  match l with
  | [] => mret tt
  | wk :: l =>
      _ ← (if ((dbid =? -1) || (wk_db wk =? dbid)) && live (wk_db wk) (wk_key wk) then
             assign c (fun x => set_flags x (Z.lor (flags x) REDIS_DIRTY_CAS))
           else mret tt);
      touch_client c l dbid live
  end.

Fixpoint flush_loop (l : list nat) (dbid : Z) (live : Z -> list Z -> bool) : M unit :=
  match l with
  | [] => mret tt
  | c :: l => x ← deref c; _ ← touch_client c (watched_keys x) dbid live; flush_loop l dbid live
  end.

Definition touchWatchedKeysOnFlush (dbid : Z) (live : Z -> list Z -> bool) : M unit :=
  _ ← update (fun s => with_touch s (TouchFlush dbid live));
  l ← get client_list; flush_loop l dbid live.

(** ** Transactions *)

Definition initClientMultiState (c : nat) : M unit := assign c (fun x => set_commands x []).

Definition queueMultiCommand (c : nat) (cmd : command) (argv : list (list Z)) : M unit :=
  assign c (fun x => set_commands x (commands x ++ [MultiCmd cmd argv])).

Definition discardTransaction (c : nat) : M unit :=
  _ ← initClientMultiState c;
  _ ← assign c (fun x => set_flags x (Z.land (flags x) (Z.lnot (Z.lor (Z.lor REDIS_MULTI REDIS_DIRTY_CAS) REDIS_DIRTY_EXEC))));
  unwatchAllKeys c.

Definition flagTransaction (c : nat) : M unit :=
  x ← deref c;
  if has x REDIS_MULTI then assign c (fun x => set_flags x (Z.lor (flags x) REDIS_DIRTY_EXEC)) else mret tt.

Definition multiCommand (c : nat) : M unit :=
  x ← deref c;
  if has x REDIS_MULTI then addReplyError c "MULTI calls can not be nested"
  else _ ← assign c (fun x => set_flags x (Z.lor (flags x) REDIS_MULTI)); addReply c shared_ok.

Definition discardCommand (c : nat) : M unit :=
  x ← deref c;
  if negb (has x REDIS_MULTI) then addReplyError c "DISCARD without MULTI"
  else _ ← discardTransaction c; addReply c shared_ok.

Fixpoint watch_keys (c : nat) (l : list (list Z)) : M unit :=
  match l with [] => mret tt | key :: l => _ ← watchForKey c key; watch_keys c l end.

Definition watchCommand (c : nat) (argv : list (list Z)) : M unit :=
  x ← deref c;
  if has x REDIS_MULTI then addReplyError c "WATCH inside MULTI is not allowed"
  else _ ← watch_keys c (drop 1 argv); addReply c shared_ok.

Definition unwatchCommand (c : nat) : M unit :=
  _ ← unwatchAllKeys c;
  _ ← assign c (fun x => set_flags x (Z.land (flags x) (Z.lnot REDIS_DIRTY_CAS)));
  addReply c shared_ok.

(** ** Calls of commands *)

Definition do_touch (t : touch) : M unit :=
  match t with TouchKey db key => touchWatchedKey db key | TouchFlush dbid live => touchWatchedKeysOnFlush dbid live end.

Fixpoint do_touches (l : list touch) : M unit :=
  match l with [] => mret tt | t :: l => _ ← do_touch t; do_touches l end.

(** A command of [data]; the result is the arguments at its end. *)
Definition dataCommand (c : nat) (x : data) (argv : list (list Z)) : M (list (list Z)) :=
  y ← deref c;
  k ← get keyspace;
  let o := run_data x (c_dbid y) argv k in
  _ ← do_touches (o_touches o);
  _ ← update (fun s => with_keyspace s (o_keyspace o));
  _ ← assign c (fun y => set_dbid y (o_dbid o));
  _ ← addReply c (o_reply o);
  _ ← update (fun s => with_dirty s (swrap 64 (m_dirty s + o_dirty o)));
  mret (o_argv o).

(** The part of call() on server.dirty and the propagation, around a command. *)
Definition call_with (c : nat) (proc : M (list (list Z))) : M unit :=
  before ← get m_dirty;
  argv ← proc;
  after ← get m_dirty;
  if negb (swrap 64 (after - before) =? 0) then x ← deref c; propagate (c_dbid x) argv else mret tt.

(** [c->cmd->proc(c)] for a command of a queue, which is not EXEC. *)
Definition proc_queued (c : nat) (cmd : command) (argv : list (list Z)) : M (list (list Z)) :=
  match cmd with
  | CMulti => _ ← multiCommand c; mret argv
  | CDiscard => _ ← discardCommand c; mret argv
  | CWatch => _ ← watchCommand c argv; mret argv
  | CUnwatch => _ ← unwatchCommand c; mret argv
  | CData x => dataCommand c x argv
  | CExec => fromOption None
  end.

Definition cmd_readonly (cmd : command) : bool := match cmd with CExec => false | CData x => readonly x | _ => true end.

Definition execCommandPropagateMulti (c : nat) : M unit := x ← deref c; propagate (c_dbid x) [str "MULTI"].

(** The loop on the queue; the result is must_propagate. *)
Fixpoint exec_loop (c : nat) (l : list multiCmd) (must_propagate : bool) : M bool :=
  match l with
  | [] => mret must_propagate
  | mc :: l =>
      must_propagate ← (if negb must_propagate && negb (cmd_readonly (mc_cmd mc)) then _ ← execCommandPropagateMulti c; mret true
                        else mret must_propagate);
      _ ← call_with c (proc_queued c (mc_cmd mc) (mc_argv mc));
      exec_loop c l must_propagate
  end.

Definition execCommand (c : nat) : M unit :=
  x ← deref c;
  if negb (has x REDIS_MULTI) then addReplyError c "EXEC without MULTI"
  else if has x (Z.lor REDIS_DIRTY_CAS REDIS_DIRTY_EXEC) then
    _ ← addReply c (if has x REDIS_DIRTY_EXEC then shared_execaborterr else shared_nullmultibulk);
    discardTransaction c
  else
    _ ← unwatchAllKeys c;
    _ ← addReplyMultiBulkLen c (zlen (commands x));
    must_propagate ← exec_loop c (commands x) false;
    _ ← discardTransaction c;
    if must_propagate : bool then update (fun s => with_dirty s (swrap 64 (m_dirty s + 1))) else mret tt.

Definition proc (c : nat) (cmd : command) (argv : list (list Z)) : M (list (list Z)) :=
  match cmd with CExec => _ ← execCommand c; mret argv | _ => proc_queued c cmd argv end.

Definition call (c : nat) (cmd : command) (argv : list (list Z)) : M unit := call_with c (proc c cmd argv).

(** The checks of processCommand that refuse a command, in the order of the code. *)
Inductive refusal :=
  | UnknownCommand | WrongArity | NotAuthenticated | OutOfMemory | DiskError | NotEnoughReplicas
  | ReadOnlySlave | PubSubContext | MasterDown | Loading | SlowScript.

(** Whether the branch of the check calls flagTransaction before it replies. *)
Definition flags_transaction (why : refusal) : bool :=
  match why with ReadOnlySlave | PubSubContext | Loading => false | _ => true end.

(** What a client does: a command that passes the checks of processCommand or is refused by
    one of them with an error, the end of the connection, and a new connection. *)
Inductive request :=
  | Request (cmd : command) (argv : list (list Z)) | Refused (why : refusal) (err : list Z) | Disconnect | Connect (dbid : Z).

Definition queueable (cmd : command) : bool := match cmd with CExec | CDiscard | CMulti | CWatch => false | _ => true end.

Definition processCommand (c : nat) (cmd : command) (argv : list (list Z)) : M unit :=
  x ← deref c;
  if has x REDIS_MULTI && queueable cmd then _ ← queueMultiCommand c cmd argv; addReply c shared_queued
  else call c cmd argv.

(** The part of freeClient() on the state of this file. *)
Definition freeClient (c : nat) : M unit :=
  _ ← unwatchAllKeys c;
  l ← get client_list;
  l ← fromOption (list_del l c);
  update (fun s => MServer (keyspace s) (delete c (clients s)) l (db_watched s) (m_dirty s) (aof s) (touches s)).

(** createClient(): the address is that of no client. *)
Definition createClient (c : nat) (dbid : Z) : M unit :=
  m ← get clients;
  match m !! c with
  | Some _ => fromOption None
  | None => update (fun s => MServer (keyspace s) (<[c := Client 0 [] [] dbid []]> m) (client_list s ++ [c]) (db_watched s) (m_dirty s) (aof s) (touches s))
  end.

Definition handle (c : nat) (r : request) : M unit :=
  match r with
  | Request cmd argv => processCommand c cmd argv
  | Refused why err => _ ← (if flags_transaction why then flagTransaction c else mret tt); addReply c err
  | Disconnect => freeClient c
  | Connect dbid => createClient c dbid
  end.

Fixpoint handle_all (l : list (nat * request)) : M unit :=
  match l with [] => mret tt | (c, r) :: l => _ ← handle c r; handle_all l end.

Definition init_server (k : K) : mserver := MServer k ∅ [] ∅ 0 [] [].

End Multi.
