(* ===== verification/MultiFacts.v ===== *)
(** * What transactions promise, and that multi.c does it

    The specification keeps for each client a set of watched keys and three booleans; the
    lists of clients that watch a key, and the flags, implement it: each operation of Multi,
    from a state where the invariant [minv] holds, does what the specification does and keeps
    [minv].  The theorems are in MultiThms. *)

From Stdlib Require Import Ascii String.
From S2P Require Import Prelude Util Sds Server ServerFacts ObjFacts Multi.

(** ** Specification *)

Section Spec.
Context {K data : Type}.

Record aclient := AClient {
  a_multi : bool; a_cas : bool; a_abort : bool; a_queue : list (@multiCmd data); a_watch : gset (Z * list Z);
  a_cdb : Z; a_reply : list Z }.

Record astate := AState {
  a_keyspace : K; a_clients : gmap nat aclient; a_dirty : Z; a_aof : list (Z * list (list Z)); a_touches : list touch }.

Definition pair_of (w : watchedKey) : Z * list Z := (wk_db w, wk_key w).
Definition watch_set (x : @client data) : gset (Z * list Z) := list_to_set (map pair_of (watched_keys x)).

Definition absc (x : @client data) : aclient :=
  AClient (has x REDIS_MULTI) (has x REDIS_DIRTY_CAS) (has x REDIS_DIRTY_EXEC) (commands x)
    (watch_set x) (c_dbid x) (reply x).

Definition abs (s : @mserver K data) : astate :=
  AState (keyspace s) (absc <$> clients s) (m_dirty s) (aof s) (touches s).

Definition SM (A : Type) : Type := astate -> A * astate.
#[global] Instance SM_ret : MRet SM := fun A x t => (x, t).
#[global] Instance SM_bind : MBind SM := fun A B f m t => let '(x, t) := m t in f x t.

Definition blank : aclient := AClient false false false [] ∅ 0 [].
Definition s_deref (c : nat) : SM aclient := fun t => (default blank (a_clients t !! c), t).
Definition s_clients (f : gmap nat aclient -> gmap nat aclient) : SM unit :=
  fun t => (tt, AState (a_keyspace t) (f (a_clients t)) (a_dirty t) (a_aof t) (a_touches t)).
Definition s_assign (c : nat) (f : aclient -> aclient) : SM unit := s_clients (alter f c).
Definition s_get {A} (f : astate -> A) : SM A := fun t => (f t, t).
Definition s_update (f : astate -> astate) : SM unit := fun t => (tt, f t).

Definition put_reply (b : list Z) (x : aclient) : aclient :=
  AClient (a_multi x) (a_cas x) (a_abort x) (a_queue x) (a_watch x) (a_cdb x) (a_reply x ++ b).
Definition put_flags (multi cas abort : bool) (x : aclient) : aclient :=
  AClient multi cas abort (a_queue x) (a_watch x) (a_cdb x) (a_reply x).
Definition put_watch (w : gset (Z * list Z)) (x : aclient) : aclient :=
  AClient (a_multi x) (a_cas x) (a_abort x) (a_queue x) w (a_cdb x) (a_reply x).
Definition put_queue (q : list multiCmd) (x : aclient) : aclient :=
  AClient (a_multi x) (a_cas x) (a_abort x) q (a_watch x) (a_cdb x) (a_reply x).
Definition put_db (d : Z) (x : aclient) : aclient :=
  AClient (a_multi x) (a_cas x) (a_abort x) (a_queue x) (a_watch x) d (a_reply x).
Definition set_cas (x : aclient) : aclient := put_flags (a_multi x) true (a_abort x) x.

Definition s_reply (c : nat) (b : list Z) : SM unit := s_assign c (put_reply b).
Definition s_error (c : nat) (err : string) : SM unit := s_reply c (r_error err).
Definition s_propagate (db : Z) (argv : list (list Z)) : SM unit :=
  s_update (fun t => AState (a_keyspace t) (a_clients t) (a_dirty t) (a_aof t ++ [(db, argv)]) (a_touches t)).

(** Whether a touch concerns a key of the set. *)
Definition hits (t : touch) (w : gset (Z * list Z)) : bool :=
  match t with
  | TouchKey db key => bool_decide ((db, key) ∈ w)
  | TouchFlush dbid live => existsb (fun p => ((dbid =? -1) || (p.1 =? dbid)) && live p.1 p.2) (elements w)
  end.

Definition s_touch (u : touch) : SM unit := fun t =>
  (tt, AState (a_keyspace t) ((fun x => if hits u (a_watch x) then set_cas x else x) <$> a_clients t) (a_dirty t) (a_aof t) (a_touches t ++ [u])).

Fixpoint s_touches (l : list touch) : SM unit :=
  match l with [] => mret tt | u :: l => _ ← s_touch u; s_touches l end.

Definition s_unwatch (c : nat) : SM unit := s_assign c (put_watch ∅).
Definition reset (x : aclient) : aclient := AClient false false false [] ∅ (a_cdb x) (a_reply x).
Definition s_discard (c : nat) : SM unit := s_assign c reset.

Context (run_data : data -> Z -> list (list Z) -> K -> @outcome K) (readonly : data -> bool).

Definition s_data (c : nat) (x : data) (argv : list (list Z)) : SM (list (list Z)) :=
  y ← s_deref c;
  k ← s_get a_keyspace;
  let o := run_data x (a_cdb y) argv k in
  _ ← s_touches (o_touches o);
  _ ← s_update (fun t => AState (o_keyspace o) (a_clients t) (a_dirty t) (a_aof t) (a_touches t));
  _ ← s_assign c (put_db (o_dbid o));
  _ ← s_reply c (o_reply o);
  _ ← s_update (fun t => AState (a_keyspace t) (a_clients t) (swrap 64 (a_dirty t + o_dirty o)) (a_aof t) (a_touches t));
  mret (o_argv o).

Definition s_call_with (c : nat) (p : SM (list (list Z))) : SM unit :=
  before ← s_get a_dirty;
  argv ← p;
  after ← s_get a_dirty;
  if negb (swrap 64 (after - before) =? 0) then x ← s_deref c; s_propagate (a_cdb x) argv else mret tt.

Definition s_unwatchCommand (c : nat) : SM unit :=
  _ ← s_unwatch c;
  _ ← s_assign c (fun x => put_flags (a_multi x) false (a_abort x) x);
  s_reply c shared_ok.

(** A command of a queue: UNWATCH, or one that works on the data. *)
Definition s_queued (c : nat) (cmd : command) (argv : list (list Z)) : SM (list (list Z)) :=
  match cmd with
  | CData x => s_data c x argv
  | _ => _ ← s_unwatchCommand c; mret argv
  end.

Fixpoint s_exec_loop (c : nat) (l : list multiCmd) (must_propagate : bool) : SM bool :=
  match l with
  | [] => mret must_propagate
  | mc :: l =>
      must_propagate ← (if negb must_propagate && negb (cmd_readonly readonly (mc_cmd mc))
                        then x ← s_deref c; _ ← s_propagate (a_cdb x) [str "MULTI"]; mret true else mret must_propagate);
      _ ← s_call_with c (s_queued c (mc_cmd mc) (mc_argv mc));
      s_exec_loop c l must_propagate
  end.

Definition s_execCommand (c : nat) : SM unit :=
  x ← s_deref c;
  if negb (a_multi x) then s_error c "EXEC without MULTI"
  else if a_cas x || a_abort x then
    _ ← s_reply c (if a_abort x then shared_execaborterr else shared_nullmultibulk);
    s_discard c
  else
    _ ← s_unwatch c;
    _ ← s_reply c (r_num ch_star (zlen (a_queue x)));
    must_propagate ← s_exec_loop c (a_queue x) false;
    _ ← s_discard c;
    if must_propagate : bool then
      s_update (fun t => AState (a_keyspace t) (a_clients t) (swrap 64 (a_dirty t + 1)) (a_aof t) (a_touches t))
    else mret tt.

Fixpoint s_watch_keys (c : nat) (l : list (list Z)) : SM unit :=
  match l with
  | [] => mret tt
  | key :: l => _ ← s_assign c (fun x => put_watch ({[(a_cdb x, key)]} ∪ a_watch x) x); s_watch_keys c l
  end.

Definition s_proc (c : nat) (cmd : command) (argv : list (list Z)) : SM (list (list Z)) :=
  match cmd with
  | CMulti =>
      x ← s_deref c;
      _ ← (if a_multi x then s_error c "MULTI calls can not be nested"
           else _ ← s_assign c (fun x => put_flags true (a_cas x) (a_abort x) x); s_reply c shared_ok);
      mret argv
  | CDiscard =>
      x ← s_deref c;
      _ ← (if negb (a_multi x) then s_error c "DISCARD without MULTI" else _ ← s_discard c; s_reply c shared_ok);
      mret argv
  | CWatch =>
      x ← s_deref c;
      _ ← (if a_multi x then s_error c "WATCH inside MULTI is not allowed" else _ ← s_watch_keys c (drop 1 argv); s_reply c shared_ok);
      mret argv
  | CExec => _ ← s_execCommand c; mret argv
  | _ => s_queued c cmd argv
  end.

Definition s_processCommand (c : nat) (cmd : command) (argv : list (list Z)) : SM unit :=
  x ← s_deref c;
  if a_multi x && queueable cmd then _ ← s_assign c (fun x => put_queue (a_queue x ++ [MultiCmd cmd argv]) x); s_reply c shared_queued
  else s_call_with c (s_proc c cmd argv).

Definition s_handle (c : nat) (r : request) : SM unit :=
  match r with
  | Request cmd argv => s_processCommand c cmd argv
  | Refused why err =>
      _ ← (if flags_transaction why then s_assign c (fun x => if a_multi x then put_flags true (a_cas x) true x else x) else mret tt);
      s_reply c err
  | Disconnect => s_clients (delete c)
  | Connect dbid => s_clients <[c := AClient false false false [] ∅ dbid []]>
  end.

Fixpoint s_handle_all (l : list (nat * request)) : SM unit :=
  match l with [] => mret tt | (c, r) :: l => _ ← s_handle c r; s_handle_all l end.

(** ** The invariant of the implementation *)

Definition watchers (s : @mserver K data) (db : Z) (key : list Z) : list nat := default [] (watched_in s db !! key).

Record minv (s : @mserver K data) : Prop := MInv {
  mi_list : NoDup (client_list s) /\ forall c, c ∈ client_list s <-> is_Some (clients s !! c);
  mi_watch : forall db key c, c ∈ watchers s db key <-> exists x, clients s !! c = Some x /\ WatchedKey db key ∈ watched_keys x;
  mi_nodup : forall c x, clients s !! c = Some x -> NoDup (watched_keys x);
  mi_once : forall db key, NoDup (watchers s db key);
  mi_nonempty : forall db key, watched_in s db !! key <> Some [];
  mi_queue : forall c x, clients s !! c = Some x -> Forall (fun mc => queueable (mc_cmd mc) = true) (commands x) /\ zlen (commands x) < 2 ^ 31 }.

(** The requests that a client can make. *)
Definition request_ok (t : astate) (c : nat) (r : @request data) : Prop :=
  match r, a_clients t !! c with
  | Connect _, None => True
  | Connect _, Some _ => False
  | Request cmd _, Some x => queueable cmd = true -> zlen (a_queue x) + 1 < 2 ^ 31
  | _, Some _ => True
  | _, None => False
  end.

Fixpoint requests_ok (l : list (nat * request)) (t : astate) : Prop :=
  match l with [] => True | (c, r) :: l => request_ok t c r /\ requests_ok l (snd (s_handle c r t)) end.

End Spec.

(** ** Flags *)

Section Flags.
Context {data : Type}.
Implicit Types x : @client data.

Lemma has_bit x k : 0 <= k -> has x (Z.shiftl 1 k) = Z.testbit (flags x) k.
Proof.
  intros Hk. unfold has. rewrite Z.shiftl_1_l.
  destruct (Z.testbit (flags x) k) eqn:E.
  - apply negb_true_iff, Z.eqb_neq. intros H. apply (f_equal (fun z => Z.testbit z k)) in H.
    rewrite Z.land_spec, E, Z.pow2_bits_true, Z.bits_0 in H; [done | lia].
  - apply negb_false_iff, Z.eqb_eq, Z.bits_inj'. intros n Hn. rewrite Z.land_spec, Z.bits_0.
    destruct (Z.eq_dec k n) as [<-|]; [by rewrite E | by rewrite Z.pow2_bits_false, andb_false_r].
Qed.

Lemma has_multi x : has x REDIS_MULTI = Z.testbit (flags x) 3.
Proof. by apply has_bit. Qed.
Lemma has_cas x : has x REDIS_DIRTY_CAS = Z.testbit (flags x) 5.
Proof. by apply has_bit. Qed.
Lemma has_exec x : has x REDIS_DIRTY_EXEC = Z.testbit (flags x) 12.
Proof. by apply has_bit. Qed.

Lemma has_or x a b : has x (Z.lor a b) = has x a || has x b.
Proof.
  unfold has. rewrite Z.land_lor_distr_r, <- negb_andb. f_equal.
  apply eq_true_iff_eq. rewrite andb_true_iff, !Z.eqb_eq. apply Z.lor_eq_0_iff.
Qed.

End Flags.

#[local] Arguments Z.testbit : simpl never.
#[local] Arguments has : simpl never.

(** The bits of the flags after an operation on them. *)
Ltac flag_bits :=
  unfold absc, set_cas, reset, put_reply, put_queue, put_db, put_watch, put_flags; rewrite ?has_multi, ?has_cas, ?has_exec; simpl;
  rewrite ?Z.lor_spec, ?Z.land_spec, ?Z.lnot_spec, ?Z.lor_spec by done;
  rewrite ?(eq_refl : Z.testbit REDIS_MULTI 3 = true), ?(eq_refl : Z.testbit REDIS_MULTI 5 = false), ?(eq_refl : Z.testbit REDIS_MULTI 12 = false), ?(eq_refl : Z.testbit REDIS_DIRTY_CAS 3 = false), ?(eq_refl : Z.testbit REDIS_DIRTY_CAS 5 = true), ?(eq_refl : Z.testbit REDIS_DIRTY_CAS 12 = false), ?(eq_refl : Z.testbit REDIS_DIRTY_EXEC 3 = false), ?(eq_refl : Z.testbit REDIS_DIRTY_EXEC 5 = false), ?(eq_refl : Z.testbit REDIS_DIRTY_EXEC 12 = true);
  simpl; rewrite ?orb_false_r, ?orb_true_r, ?andb_true_r, ?andb_false_r; try done.

(** ** Lists of clients *)

Lemma list_del_spec (l : list nat) c :
  c ∈ l -> NoDup l -> exists l', list_del l c = Some l' /\ NoDup l' /\ forall d, d ∈ l' <-> d ∈ l /\ d <> c.
Proof.
  induction l as [|e l IH]; intros Hc Hnd; [by apply elem_of_nil in Hc |]. simpl.
  apply NoDup_cons in Hnd as [He Hnd]. destruct (Nat.eqb_spec e c) as [->|Hne].
  - exists l. do 2 (split; [done |]). set_solver.
  - apply elem_of_cons in Hc as [|Hc]; [congruence |]. destruct (IH Hc Hnd) as (l' & -> & Hnd' & Hl').
    exists (e :: l'). split; [done |]. split; [apply NoDup_cons; split; [rewrite Hl'; tauto | done] | set_solver].
Qed.

(** ** Simulation *)

Section Refine.
Context {K data : Type}.
Implicit Types (s : @mserver K data) (x : @client data).

#[local] Instance pair_of_inj : Inj (=) (=) pair_of.
Proof. by intros [] [] [= -> ->]. Qed.

Lemma elem_of_watch_set x db key : (db, key) ∈ watch_set x <-> WatchedKey db key ∈ watched_keys x.
Proof.
  unfold watch_set. rewrite elem_of_list_to_set. change (map pair_of) with (fmap (M := list) pair_of).
  change (db, key) with (pair_of (WatchedKey db key)). apply list_elem_of_fmap_inj. apply _.
Qed.

(** From [s], [m] succeeds with a result and a state that the specification gives, the
    invariant holds in it, and the client [c] is still there. *)
Definition msim {A} (c : nat) (m : M A) (f : SM A) s : Prop :=
  exists r s', m s = Some (r, s') /\ f (abs s) = (r, abs s') /\ minv s' /\ is_Some (clients s' !! c).

Definition live (c : nat) s : Prop := minv s /\ is_Some (clients s !! c).

Lemma bind_run {A B} (m : M A) (g : A -> M B) s r s1 : m s = Some (r, s1) -> (m ≫= g) s = g r s1.
Proof. intros E. unfold mbind, M_bind. by rewrite E. Qed.

Lemma deref_run c x s : clients s !! c = Some x -> deref c s = Some (x, s).
Proof. intros Hx. unfold deref. by rewrite (bind_run _ _ s (Some x) s) by (unfold get; by rewrite Hx). Qed.

Lemma msim_ret {A} c (r : A) s : live c s -> msim c (mret r) (mret r) s.
Proof. intros [? ?]. by exists r, s. Qed.

Lemma msim_bind {A B} c (m : M A) (f : SM A) (g : A -> M B) (h : A -> SM B) s :
  msim c m f s -> (forall r s', live c s' -> msim c (g r) (h r) s') -> msim c (m ≫= g) (f ≫= h) s.
Proof.
  intros (r & s1 & E & Ef & I & Hc) Hg. destruct (Hg r s1 (conj I Hc)) as (r' & s2 & E' & Ef' & I' & Hc').
  exists r', s2. unfold mbind, M_bind, SM_bind. by rewrite E, Ef.
Qed.

Lemma msim_deref {B} c x (g : client -> M B) (h : aclient -> SM B) s :
  clients s !! c = Some x -> msim c (g x) (h (absc x)) s -> msim c (deref c ≫= g) (s_deref c ≫= h) s.
Proof.
  intros Hx (r & s' & E & Ef & I & Hc). exists r, s'. unfold mbind, M_bind, SM_bind, deref, get, s_deref, mbind, M_bind, fromOption.
  simpl. rewrite Hx. simpl. by rewrite lookup_fmap, Hx.
Qed.

Lemma msim_get {A B} c (p : mserver -> A) (q : astate -> A) (g : A -> M B) (h : A -> SM B) s :
  p s = q (abs s) -> msim c (g (p s)) (h (p s)) s -> msim c (get p ≫= g) (s_get q ≫= h) s.
Proof.
  intros Hpq (r & s' & E & Ef & I & Hc). exists r, s'. unfold mbind, M_bind, SM_bind, get, s_get. by rewrite <- Hpq.
Qed.

Definition queue_ok x : Prop := Forall (fun mc => queueable (mc_cmd mc) = true) (commands x) /\ zlen (commands x) < 2 ^ 31.

(** A change of the clients one by one that keeps what they watch. *)
Lemma minv_pointwise s s' (h : nat -> client -> client) :
  minv s -> client_list s' = client_list s -> db_watched s' = db_watched s ->
  (forall d, clients s' !! d = h d <$> clients s !! d) ->
  (forall d x, clients s !! d = Some x -> watched_keys (h d x) = watched_keys x) ->
  (forall d x, clients s !! d = Some x -> queue_ok (h d x)) -> minv s'.
Proof.
  intros [[Hl Hl'] Hw Hn Ho He Hq] El Ew Ec Hh Hqh.
  assert (EW : forall db key, watchers s' db key = watchers s db key) by (intros; unfold watchers, watched_in; by rewrite Ew).
  assert (EI : forall db, watched_in s' db = watched_in s db) by (intros; unfold watched_in; by rewrite Ew).
  split.
  - rewrite El. split; [done |]. intros d. rewrite Hl', Ec. by rewrite fmap_is_Some.
  - intros db key d. rewrite EW, Hw, Ec. split.
    + intros (x & Hx & Hk). rewrite Hx. exists (h d x). split; [done |]. by rewrite (Hh d x Hx).
    + intros (x & Hx & Hk). apply fmap_Some in Hx as (x0 & Hx0 & ->). exists x0. split; [done |]. by rewrite <- (Hh d x0 Hx0).
  - intros d x. rewrite Ec. intros (x0 & Hx0 & ->)%fmap_Some. rewrite (Hh d x0 Hx0). by apply (Hn d).
  - intros db key. rewrite EW. apply Ho.
  - intros db key. rewrite EI. apply He.
  - intros d x. rewrite Ec. intros (x0 & Hx0 & ->)%fmap_Some. by apply Hqh.
Qed.

Lemma minv_queue s d x : minv s -> clients s !! d = Some x -> queue_ok x.
Proof. intros I. apply (mi_queue _ I). Qed.

Lemma assign_run c f x s :
  clients s !! c = Some x -> assign c f s = Some (tt, with_clients s (<[c := f x]> (clients s))).
Proof. intros Hx. unfold assign. by rewrite (bind_run _ _ s x s (deref_run c x s Hx)). Qed.

Lemma abs_insert c (f : client -> client) (g : aclient -> aclient) x s :
  clients s !! c = Some x -> absc (f x) = g (absc x) ->
  s_assign c g (abs s) = (tt, abs (with_clients s (<[c := f x]> (clients s)))).
Proof.
  intros Hx Hg. unfold s_assign, s_clients, abs. simpl. f_equal. f_equal. apply map_eq. intros d.
  destruct (decide (c = d)) as [<-|Hne].
  - by rewrite lookup_alter_eq, !lookup_fmap, lookup_insert_eq, Hx; simpl; rewrite Hg.
  - by rewrite lookup_alter_ne, !lookup_fmap, lookup_insert_ne.
Qed.

Lemma msim_assign c f g x s :
  live c s -> clients s !! c = Some x -> absc (f x) = g (absc x) -> watched_keys (f x) = watched_keys x -> queue_ok (f x) ->
  msim c (assign c f) (s_assign c g) s.
Proof.
  intros [I Hc] Hx Hg Hw Hq. exists tt, (with_clients s (<[c := f x]> (clients s))).
  split; [by apply assign_run |]. split; [by apply abs_insert |]. split; [| simpl; by rewrite lookup_insert_eq].
  apply (minv_pointwise s _ (fun d y => if decide (c = d) then f x else y)); try done; simpl.
  - intros d. destruct (decide (c = d)) as [<-|]; [by rewrite lookup_insert_eq, Hx | rewrite lookup_insert_ne by done; by destruct (clients s !! d)].
  - intros d y Hy. case_decide; [| done]. subst. congruence.
  - intros d y Hy. case_decide; [done |]. by apply (minv_queue s d).
Qed.

(** The same for a change that keeps the queue. *)
Lemma msim_assign' c f g s :
  live c s -> (forall x, absc (f x) = g (absc x)) -> (forall x, watched_keys (f x) = watched_keys x) ->
  (forall x, commands (f x) = commands x \/ commands (f x) = []) -> msim c (assign c f) (s_assign c g) s.
Proof.
  intros [I [x Hx]] Hg Hw Hq. apply (msim_assign c f g x); [by split | done | done | done |].
  destruct (minv_queue s c x I Hx). destruct (Hq x) as [Eq|Eq]; unfold queue_ok; rewrite Eq; [done |]. split; [constructor | done].
Qed.

Lemma msim_reply c b s : live c s -> msim c (addReply c b) (s_reply c b) s.
Proof. intros L. apply msim_assign'; auto. Qed.

Lemma msim_error c err s : live c s -> msim c (addReplyError c err) (s_error c err) s.
Proof. intros L. by apply msim_reply. Qed.

(** A change of the server that keeps the clients. *)
Lemma msim_update c (f : mserver -> mserver) (g : astate -> astate) s :
  live c s -> clients (f s) = clients s -> client_list (f s) = client_list s -> db_watched (f s) = db_watched s ->
  abs (f s) = g (abs s) -> msim c (update f) (s_update g) s.
Proof.
  intros [I Hc] E1 E2 E3 E4. exists tt, (f s). unfold update, s_update. split; [done |]. split; [by rewrite E4 |].
  split; [| by rewrite E1].
  apply (minv_pointwise s _ (fun _ y => y)); try done. { intros d. rewrite E1. by destruct (clients s !! d). }
  intros d x. by apply (minv_queue s d).
Qed.

Lemma msim_propagate c db argv s : live c s -> msim c (propagate db argv) (s_propagate db argv) s.
Proof. intros L. by apply msim_update. Qed.


(** ** Watching and unwatching *)

Lemma same_key_spec db key w : same_key db key w = true <-> w = WatchedKey db key.
Proof.
  unfold same_key. rewrite andb_true_iff, Z.eqb_eq, bool_decide_eq_true. destruct w as [d k]; simpl.
  split; [by intros [-> ->] | by intros [= -> ->]].
Qed.

Lemma watched_in_insert s db m d :
  watched_in (with_watched s (<[db := m]> (db_watched s))) d = if db =? d then m else watched_in s d.
Proof.
  unfold watched_in. simpl. destruct (Z.eqb_spec db d) as [->|Hne]; [by rewrite lookup_insert_eq | by rewrite lookup_insert_ne].
Qed.

(** The keys of one client and the clients of one key changed together. *)
Lemma minv_watch s s' c x x' db key l' :
  minv s -> clients s !! c = Some x -> clients s' = <[c := x']> (clients s) -> client_list s' = client_list s ->
  (forall d k, watchers s' d k = if same_key db key (WatchedKey d k) then l' else watchers s d k) ->
  (forall d k, watched_in s' d !! k <> Some []) ->
  commands x' = commands x -> NoDup (watched_keys x') -> NoDup l' ->
  (forall w, w <> WatchedKey db key -> w ∈ watched_keys x' <-> w ∈ watched_keys x) ->
  (forall d, d ∈ l' <-> (if decide (d = c) then WatchedKey db key ∈ watched_keys x' else d ∈ watchers s db key)) ->
  minv s'.
Proof.
  intros I Hx Ec El Ew He Hcm Hn Hl' Hw Hd. destruct I as [[Hl Hli] HW HN HO HE HQ]. split; rewrite ?El, ?Ec.
  - split; [done |]. intros d. rewrite Hli. destruct (decide (c = d)) as [<-|]; [by rewrite Hx, lookup_insert_eq | by rewrite lookup_insert_ne].
  - intros d k e. rewrite Ew. destruct (same_key db key (WatchedKey d k)) eqn:Es.
    + apply same_key_spec in Es as [= -> ->]. rewrite Hd. case_decide as Hdc.
      * subst e. rewrite lookup_insert_eq. split; [intros; by exists x' | by intros (? & [= <-] & ?)].
      * rewrite lookup_insert_ne by done. apply HW.
    + assert (Hne : WatchedKey d k <> WatchedKey db key) by (intros E; apply same_key_spec in E; congruence).
      rewrite HW. destruct (decide (c = e)) as [<-|].
      * rewrite lookup_insert_eq, Hx. split; intros (y & [= <-] & Hy); [exists x' | exists x]; (split; [done |]); by apply (Hw _ Hne).
      * by rewrite lookup_insert_ne.
  - intros d y. destruct (decide (c = d)) as [<-|]; [rewrite lookup_insert_eq; by intros [= <-] | rewrite lookup_insert_ne by done; apply HN].
  - intros d k. rewrite Ew. by destruct (same_key _ _ _).
  - done.
  - intros d y. destruct (decide (c = d)) as [<-|]; [rewrite lookup_insert_eq; intros [= <-]; rewrite Hcm; by apply (HQ c) | rewrite lookup_insert_ne by done; apply HQ].
Qed.

Lemma msim_watchForKey c key s :
  live c s -> msim c (watchForKey c key) (s_assign c (fun y => put_watch ({[(a_cdb y, key)]} ∪ a_watch y) y)) s.
Proof.
  intros [I [x Hx]]. set (g := fun x : aclient => _). unfold watchForKey.
  destruct (existsb (same_key (c_dbid x) key) (watched_keys x)) eqn:Ee.
  - exists tt, s. split; [by rewrite (bind_run _ _ s x s (deref_run c x s Hx)), Ee |].
    apply existsb_exists in Ee as (w & Hw & ->%same_key_spec). apply list_elem_of_In in Hw.
    split; [| by split]. erewrite (abs_insert c id g x s Hx).
    + simpl. f_equal. unfold abs, with_clients. simpl. f_equal. by rewrite insert_id.
    + unfold g, absc, put_watch. simpl. apply elem_of_watch_set in Hw. unfold absc, put_watch; simpl; f_equal. set_solver.
  - assert (Hnk : WatchedKey (c_dbid x) key ∉ watched_keys x).
    { intros H. assert (existsb (same_key (c_dbid x) key) (watched_keys x) = true); [| congruence].
      apply existsb_exists. exists (WatchedKey (c_dbid x) key). split; [by apply list_elem_of_In | by apply same_key_spec]. }
    set (s1 := with_watched s (<[c_dbid x := <[key := watchers s (c_dbid x) key ++ [c]]> (watched_in s (c_dbid x))]> (db_watched s))).
    set (f := fun x0 : client => set_watched x0 (watched_keys x0 ++ [WatchedKey (c_dbid x0) key])).
    exists tt, (with_clients s1 (<[c := f x]> (clients s1))).
    split; [rewrite (bind_run _ _ s x s (deref_run c x s Hx)), Ee, (bind_run _ _ s (watched_in s (c_dbid x)) s eq_refl); cbv zeta; erewrite (bind_run _ _ s tt s1); [exact (assign_run c f x s1 Hx) | reflexivity] |].
    split; [| split; [| simpl; by rewrite lookup_insert_eq]].
    + apply (abs_insert c f g x s1 Hx). unfold g, f, absc, put_watch. unfold watch_set. simpl. f_equal. rewrite map_app, list_to_set_app_L. set_solver.
    + apply (minv_watch s _ c x (f x) (c_dbid x) key (watchers s (c_dbid x) key ++ [c])); try done.
      * intros d k. unfold watchers. change (watched_in (with_clients _ _) d) with (watched_in s1 d). unfold s1. rewrite watched_in_insert.
        unfold same_key. simpl. rewrite (Z.eqb_sym d). destruct (Z.eqb_spec (c_dbid x) d) as [<-|]; [| done]. simpl.
        case_bool_decide as Hk; [subst; by rewrite lookup_insert_eq | by rewrite lookup_insert_ne].
      * intros d k. change (watched_in (with_clients _ _) d) with (watched_in s1 d). unfold s1. rewrite watched_in_insert.
        destruct (Z.eqb_spec (c_dbid x) d) as [<-|]; [| apply (mi_nonempty _ I)].
        destruct (decide (key = k)) as [<-|]; [rewrite lookup_insert_eq; intros [=]; by destruct (watchers s (c_dbid x) key) | rewrite lookup_insert_ne by done; apply (mi_nonempty _ I)].
      * simpl. apply NoDup_app. split; [by apply (mi_nodup _ I c) |]. split; [set_solver | apply NoDup_singleton].
      * apply NoDup_app. split; [apply (mi_once _ I) |]. split; [| apply NoDup_singleton].
        intros d Hd ->%list_elem_of_singleton. apply (mi_watch _ I) in Hd as (y & Hy & Hk). congruence.
      * intros w Hw. simpl. set_solver.
      * intros d. rewrite elem_of_app, list_elem_of_singleton. simpl. case_decide; set_solver.
Qed.

(** One key less. *)
Lemma unwatch_step c wk l x s :
  minv s -> clients s !! c = Some x -> watched_keys x = wk :: l ->
  exists cl cl' s1, watched_in s (wk_db wk) !! wk_key wk = Some cl /\ list_del cl c = Some cl' /\
    s1 = with_watched s (<[wk_db wk := match cl' with [] => delete (wk_key wk) (watched_in s (wk_db wk)) | _ => <[wk_key wk := cl']> (watched_in s (wk_db wk)) end]> (db_watched s)) /\
    minv (with_clients s1 (<[c := set_watched x l]> (clients s1))).
Proof.
  intros I Hx Hwk. pose proof (mi_nodup _ I c x Hx) as Hnd. rewrite Hwk in Hnd. apply NoDup_cons in Hnd as [Hnw Hnd].
  assert (Hc : c ∈ watchers s (wk_db wk) (wk_key wk)).
  { apply (mi_watch _ I). exists x. split; [done |]. rewrite Hwk. destruct wk. left. }
  pose proof (mi_once _ I (wk_db wk) (wk_key wk)) as Hon.
  unfold watchers in Hc, Hon. destruct (watched_in s (wk_db wk) !! wk_key wk) as [cl|] eqn:Em; [| by apply elem_of_nil in Hc]. simpl in Hc, Hon.
  destruct (list_del_spec cl c Hc Hon) as (cl' & Ed & Hnd' & Hcl'). exists cl, cl', (with_watched s (<[wk_db wk := match cl' with [] => delete (wk_key wk) (watched_in s (wk_db wk)) | _ => <[wk_key wk := cl']> (watched_in s (wk_db wk)) end]> (db_watched s))).
  do 3 (split; [done |]). destruct wk as [db key]; simpl in *.
  set (m' := match cl' with [] => delete key (watched_in s db) | _ => <[key := cl']> (watched_in s db) end).
  assert (Hm' : forall k, m' !! k = if decide (k = key) then match cl' with [] => None | _ => Some cl' end else watched_in s db !! k).
  { intros k. unfold m'. case_decide as Hk; [subst; destruct cl'; [apply lookup_delete_eq | apply lookup_insert_eq] |].
    destruct cl'; [by apply lookup_delete_ne | by apply lookup_insert_ne]. }
  apply (minv_watch s _ c x (set_watched x l) db key cl'); try done.
  - intros d k. unfold watchers. change (watched_in (with_clients _ _) d) with (watched_in (with_watched s (<[db := m']> (db_watched s))) d).
    rewrite watched_in_insert. unfold same_key. simpl. rewrite (Z.eqb_sym d). destruct (Z.eqb_spec db d) as [<-|]; [| done]. simpl.
    rewrite Hm'. case_decide as Hk; case_bool_decide; try done; congruence || (by destruct cl').
  - intros d k. change (watched_in (with_clients _ _) d) with (watched_in (with_watched s (<[db := m']> (db_watched s))) d).
    rewrite watched_in_insert. destruct (Z.eqb_spec db d) as [<-|]; [| apply (mi_nonempty _ I)].
    rewrite Hm'. case_decide; [by destruct cl' | apply (mi_nonempty _ I)].
  - intros w Hw. simpl. rewrite Hwk. set_solver.
  - intros d. rewrite Hcl'. simpl. unfold watchers. rewrite Em. simpl. case_decide; [| tauto]. subst. tauto.
Qed.

Lemma unwatch_loop_run c l : forall x s,
  minv s -> clients s !! c = Some x -> watched_keys x = l ->
  exists s', unwatch_loop c l s = Some (tt, s') /\ s_unwatch c (abs s) = (tt, abs s') /\ minv s' /\ is_Some (clients s' !! c).
Proof.
  induction l as [|wk l IH]; intros x s I Hx Hl.
  - exists s. split; [done |]. split; [| by split; eauto].
    unfold s_unwatch. erewrite (abs_insert c id _ x s Hx); [| unfold absc, put_watch, watch_set; simpl; by rewrite Hl].
    f_equal. unfold abs, with_clients. simpl. f_equal. by rewrite insert_id.
  - destruct (unwatch_step c wk l x s I Hx Hl) as (cl & cl' & s1 & E1 & E2 & Es1 & I1).
    set (s2 := with_clients s1 (<[c := set_watched x l]> (clients s1))) in *.
    assert (Hx2 : clients s2 !! c = Some (set_watched x l)) by (simpl; apply lookup_insert_eq).
    destruct (IH (set_watched x l) s2 I1 Hx2 eq_refl) as (s' & E & Es & I' & Hc'). exists s'.
    split; [| split; [| done]].
    + cbn [unwatch_loop]. rewrite (bind_run _ _ s (watched_in s (wk_db wk)) s eq_refl).
      rewrite (bind_run _ _ s cl s) by (unfold fromOption; by rewrite E1).
      rewrite (bind_run _ _ s cl' s) by (unfold fromOption; by rewrite E2).
      rewrite (bind_run _ _ s tt s1) by (unfold set_watched_in, update; by rewrite Es1).
      rewrite (bind_run _ _ s1 tt s2); [exact E |]. apply (assign_run c (fun x => set_watched x l) x s1). by rewrite Es1.
    + rewrite <- Es. unfold s_unwatch, s_assign, s_clients, abs, s2. rewrite Es1. simpl. f_equal. f_equal. apply map_eq. intros d.
      destruct (decide (c = d)) as [<-|]; [rewrite !lookup_alter_eq, !lookup_fmap, lookup_insert_eq, Hx; done | rewrite !lookup_alter_ne, !lookup_fmap, lookup_insert_ne; done].
Qed.

Lemma msim_unwatch c s : live c s -> msim c (unwatchAllKeys c) (s_unwatch c) s.
Proof.
  intros [I [x Hx]]. destruct (unwatch_loop_run c (watched_keys x) x s I Hx eq_refl) as (s' & E & Es & I' & Hc').
  exists tt, s'. split; [| done]. unfold unwatchAllKeys. by rewrite (bind_run _ _ s x s (deref_run c x s Hx)).
Qed.

(** ** Touching *)

(** [s'] is [s] with the flag DIRTY_CAS set on the clients of [b]. *)
Definition flagged (b : nat -> client -> bool) s s' : Prop :=
  s' = with_clients s (clients s') /\
  forall d, clients s' !! d = (fun x => if b d x then set_flags x (Z.lor (flags x) REDIS_DIRTY_CAS) else x) <$> clients s !! d.

Lemma flagged_same s s' b b' :
  (forall d x, clients s !! d = Some x -> b d x = b' d x) -> flagged b s s' -> flagged b' s s'.
Proof.
  intros Hb [E H]. split; [done |]. intros d. rewrite H. destruct (clients s !! d) as [x|] eqn:Ed; [| done]. simpl. by rewrite (Hb d x Ed).
Qed.

Lemma flagged_refl s : flagged (fun _ _ => false) s s.
Proof. split; [by destruct s |]. intros d. by destruct (clients s !! d). Qed.

Lemma flagged_trans b1 b2 s s1 s2 :
  (forall d x f, b2 d (set_flags x f) = b2 d x) -> flagged b1 s s1 -> flagged b2 s1 s2 -> flagged (fun d x => b1 d x || b2 d x) s s2.
Proof.
  intros Hb [E1 H1] [E2 H2]. split; [by rewrite E2, E1 |]. intros d. rewrite H2, H1.
  destruct (clients s !! d) as [x|]; [| done]. simpl. destruct (b1 d x) eqn:Eb; simpl; rewrite ?Hb; [| done].
  destruct (b2 d x); [| done]. unfold set_flags. simpl. by rewrite <- Z.lor_assoc, Z.lor_diag.
Qed.

Lemma flag_one c x s :
  clients s !! c = Some x ->
  exists s', assign c (fun x => set_flags x (Z.lor (flags x) REDIS_DIRTY_CAS)) s = Some (tt, s') /\ flagged (fun d _ => bool_decide (d = c)) s s'.
Proof.
  intros Hx. exists (with_clients s (<[c := set_flags x (Z.lor (flags x) REDIS_DIRTY_CAS)]> (clients s))).
  split; [exact (assign_run c (fun x => set_flags x (Z.lor (flags x) REDIS_DIRTY_CAS)) x s Hx) |]. split; [done |]. intros d. simpl. case_bool_decide as Hd.
  - subst. by rewrite lookup_insert_eq, Hx.
  - rewrite lookup_insert_ne by done. by destruct (clients s !! d).
Qed.

Lemma flagged_some b s s' d : flagged b s s' -> is_Some (clients s !! d) -> is_Some (clients s' !! d).
Proof. intros [_ H] Hd. rewrite H. by apply fmap_is_Some. Qed.

Lemma flag_clients_run l : forall s,
  (forall d, d ∈ l -> is_Some (clients s !! d)) ->
  exists s', flag_clients l REDIS_DIRTY_CAS s = Some (tt, s') /\ flagged (fun d _ => bool_decide (d ∈ l)) s s'.
Proof.
  induction l as [|c l IH]; intros s Hl.
  - exists s. split; [done |]. eapply flagged_same; [| apply flagged_refl]. done.
  - destruct (Hl c) as [x Hx]; [left |]. destruct (flag_one c x s Hx) as (s1 & E1 & F1).
    destruct (IH s1) as (s2 & E2 & F2). { intros d Hd. apply (flagged_some _ _ _ _ F1), Hl. by right. }
    exists s2. split; [cbn [flag_clients]; by rewrite (bind_run _ _ s tt s1 E1) |].
    eapply flagged_same; [| eapply flagged_trans; [| exact F1 | exact F2]; done].
    intros d y _. simpl. apply eq_true_iff_eq. rewrite orb_true_iff, !bool_decide_eq_true, elem_of_cons. done.
Qed.

Definition dies (dbid : Z) (alive : Z -> list Z -> bool) (w : watchedKey) : bool :=
  ((dbid =? -1) || (wk_db w =? dbid)) && alive (wk_db w) (wk_key w).

Lemma touch_client_run c l dbid alive : forall s,
  is_Some (clients s !! c) ->
  exists s', touch_client c l dbid alive s = Some (tt, s') /\ flagged (fun d _ => bool_decide (d = c) && existsb (dies dbid alive) l) s s'.
Proof.
  induction l as [|w l IH]; intros s [x Hx].
  - exists s. split; [done |]. eapply flagged_same; [| apply flagged_refl]. intros; simpl. by rewrite andb_false_r.
  - assert (H1 : exists s1, (if dies dbid alive w then assign c (fun x => set_flags x (Z.lor (flags x) REDIS_DIRTY_CAS)) else mret tt) s = Some (tt, s1) /\
      flagged (fun d _ => bool_decide (d = c) && dies dbid alive w) s s1).
    { destruct (dies dbid alive w).
      - destruct (flag_one c x s Hx) as (s1 & E1 & F1). exists s1. split; [done |]. eapply flagged_same; [| exact F1]. intros; simpl. by rewrite andb_true_r.
      - exists s. split; [done |]. eapply flagged_same; [| apply flagged_refl]. intros; simpl. by rewrite andb_false_r. }
    destruct H1 as (s1 & E1 & F1). destruct (IH s1) as (s2 & E2 & F2); [apply (flagged_some _ _ _ _ F1); eauto |].
    exists s2. split; [cbn [touch_client]; by rewrite (bind_run _ _ s tt s1 E1) |].
    eapply flagged_same; [| eapply flagged_trans; [| exact F1 | exact F2]; done]. intros d y _. simpl. by rewrite <- andb_orb_distrib_r.
Qed.

Lemma flush_loop_run dbid alive l : forall s,
  (forall d, d ∈ l -> is_Some (clients s !! d)) ->
  exists s', flush_loop l dbid alive s = Some (tt, s') /\ flagged (fun d x => bool_decide (d ∈ l) && existsb (dies dbid alive) (watched_keys x)) s s'.
Proof.
  induction l as [|c l IH]; intros s Hl.
  - exists s. split; [done |]. eapply flagged_same; [| apply flagged_refl]. done.
  - destruct (Hl c) as [x Hx]; [left |]. destruct (touch_client_run c (watched_keys x) dbid alive s) as (s1 & E1 & F1); [eauto |].
    destruct (IH s1) as (s2 & E2 & F2). { intros d Hd. apply (flagged_some _ _ _ _ F1), Hl. by right. }
    exists s2. split; [cbn [flush_loop]; rewrite (bind_run _ _ s x s (deref_run c x s Hx)); by rewrite (bind_run _ _ s tt s1 E1) |].
    eapply flagged_same; [| eapply flagged_trans; [| exact F1 | exact F2]; done].
    intros d y Hy. simpl. destruct (decide (d = c)) as [->|Hne].
    + rewrite bool_decide_eq_true_2, (bool_decide_eq_true_2 (c ∈ c :: l)) by (done || left). simpl. replace y with x by congruence.
      destruct (bool_decide (c ∈ l)); simpl; by rewrite ?orb_diag, ?orb_false_r.
    + rewrite bool_decide_eq_false_2 by done. simpl. f_equal. apply bool_decide_ext. rewrite elem_of_cons. tauto.
Qed.

Lemma hits_flush dbid alive x : hits (TouchFlush dbid alive) (watch_set x) = existsb (dies dbid alive) (watched_keys x).
Proof.
  simpl. apply eq_true_iff_eq. rewrite !existsb_exists. split.
  - intros ([db key] & Hp & Hd). apply list_elem_of_In, elem_of_elements, elem_of_watch_set, list_elem_of_In in Hp. by exists (WatchedKey db key).
  - intros ([db key] & Hp & Hd). exists (db, key). split; [| done]. by apply list_elem_of_In, elem_of_elements, elem_of_watch_set, list_elem_of_In.
Qed.

Lemma absc_cas x : absc (set_flags x (Z.lor (flags x) REDIS_DIRTY_CAS)) = set_cas (absc x).
Proof. flag_bits. Qed.

(** Flagging the clients that a touch hits is what the specification does. *)
Lemma msim_flagged c u s s' :
  live c s -> flagged (fun _ x => hits u (watch_set x)) (with_touch s u) s' ->
  s_touch u (abs s) = (tt, abs s') /\ live c s'.
Proof.
  intros [I Hc] [E H]. split; [| split].
  - unfold s_touch, abs. rewrite E. simpl. f_equal. f_equal. apply map_eq. intros d. rewrite !lookup_fmap, H. simpl.
    destruct (clients s !! d) as [x|]; [| done]. simpl. f_equal. unfold absc at 1. simpl. destruct (hits u (watch_set x)); [by rewrite absc_cas | done].
  - apply (minv_pointwise s s' (fun _ x => if hits u (watch_set x) then set_flags x (Z.lor (flags x) REDIS_DIRTY_CAS) else x)); try done.
    + by rewrite E.
    + by rewrite E.
    + intros d x _. by destruct (hits u (watch_set x)).
    + intros d x Hx. pose proof (minv_queue s d x I Hx). by destruct (hits u (watch_set x)).
  - rewrite H. by apply fmap_is_Some.
Qed.

Lemma msim_touch c u s : live c s -> msim c (do_touch u) (s_touch u) s.
Proof.
  intros L. pose proof L as [I Hc].
  assert (H : exists s', do_touch u s = Some (tt, s') /\ flagged (fun _ x => hits u (watch_set x)) (with_touch s u) s').
  { destruct u as [db key|dbid alive]; cbn [do_touch].
    - unfold touchWatchedKey. rewrite (bind_run _ _ s tt (with_touch s (TouchKey db key)) eq_refl).
      rewrite (bind_run (get (fun s => watched_in s db)) _ (with_touch s (TouchKey db key)) (watched_in s db) _ eq_refl).
      assert (Hn : forall d x, clients s !! d = Some x -> bool_decide ((db, key) ∈ watch_set x) = bool_decide (d ∈ watchers s db key)).
      { intros d x Hx. apply bool_decide_ext. rewrite elem_of_watch_set, (mi_watch _ I). split; [by exists x | intros (y & Hy & ?); congruence]. }
      unfold watchers in Hn. destruct (Nat.eqb_spec (size (watched_in s db)) 0) as [Es|_].
      + apply map_size_empty_inv in Es. rewrite Es, lookup_empty in Hn. exists (with_touch s (TouchKey db key)). split; [done |].
        eapply flagged_same; [| apply flagged_refl]. intros d x Hx. simpl. rewrite (Hn d x Hx). done.
      + destruct (watched_in s db !! key) as [cl|] eqn:Ecl; simpl in Hn.
        * destruct (flag_clients_run cl (with_touch s (TouchKey db key))) as (s' & E & F).
          { intros d Hd. simpl. assert (Hw : d ∈ watchers s db key) by (unfold watchers; by rewrite Ecl). apply (mi_watch _ I) in Hw as (x & Hx & _). eauto. }
          exists s'. split; [done |]. eapply flagged_same; [| exact F]. intros d x Hx. simpl. by rewrite (Hn d x Hx).
        * exists (with_touch s (TouchKey db key)). split; [done |].
          eapply flagged_same; [| apply flagged_refl]. intros d x Hx. simpl. rewrite (Hn d x Hx). done.
    - unfold touchWatchedKeysOnFlush. rewrite (bind_run _ _ s tt (with_touch s (TouchFlush dbid alive)) eq_refl).
      rewrite (bind_run (get client_list) _ (with_touch s (TouchFlush dbid alive)) (client_list s) _ eq_refl).
      destruct (flush_loop_run dbid alive (client_list s) (with_touch s (TouchFlush dbid alive))) as (s' & E & F).
      { intros d. apply (proj2 (mi_list _ I)). }
      exists s'. split; [done |]. eapply flagged_same; [| exact F]. intros d x Hx. simpl in Hx. cbn beta. rewrite hits_flush.
      rewrite bool_decide_eq_true_2; [done |]. apply (proj2 (mi_list _ I)). eauto. }
  destruct H as (s' & E & F). destruct (msim_flagged c u s s' L F) as [Es [I' Hc']]. by exists tt, s'.
Qed.

Lemma msim_touches c l : forall s, live c s -> msim c (do_touches l) (s_touches l) s.
Proof.
  induction l as [|u l IH]; intros s L; [by apply msim_ret |]. cbn [do_touches s_touches].
  apply msim_bind; [by apply msim_touch |]. intros _. apply IH.
Qed.

(** ** Commands *)

Lemma msim_spec {A} c (m : M A) (f g : SM A) s : (forall t, f t = g t) -> msim c m f s -> msim c m g s.
Proof. intros E (r & s' & ? & Ef & ?). exists r, s'. by rewrite <- E. Qed.

Lemma msim_discard c s : live c s -> msim c (discardTransaction c) (s_discard c) s.
Proof.
  intros L. apply (msim_spec c _ (_ ← s_assign c (put_queue []); _ ← s_assign c (fun y => put_flags false false false y); s_unwatch c)).
  - intros t. unfold s_discard, s_unwatch, mbind, SM_bind, s_assign, s_clients. simpl. f_equal. f_equal. apply map_eq. intros d.
    destruct (decide (c = d)) as [<-|]; [by rewrite !lookup_alter_eq; destruct (a_clients t !! c) | by rewrite !lookup_alter_ne].
  - unfold discardTransaction, initClientMultiState. apply msim_bind; [apply msim_assign'; auto |]. intros _ s1 L1.
    apply msim_bind; [| intros _ s2 L2; by apply msim_unwatch]. apply msim_assign'; auto. intros x. flag_bits.
Qed.

Lemma msim_unwatchCommand c s : live c s -> msim c (unwatchCommand c) (s_unwatchCommand c) s.
Proof.
  intros L. unfold unwatchCommand. apply msim_bind; [by apply msim_unwatch |]. intros _ s1 L1.
  apply msim_bind; [| intros _ s2 L2; by apply msim_reply]. apply msim_assign'; auto. intros x. flag_bits.
Qed.

Lemma msim_watch_keys c l : forall s, live c s -> msim c (watch_keys c l) (s_watch_keys c l) s.
Proof.
  induction l as [|key l IH]; intros s L; [by apply msim_ret |]. cbn [watch_keys s_watch_keys].
  apply msim_bind; [by apply msim_watchForKey |]. intros _. apply IH.
Qed.

Lemma msim_multi_len c n s : live c s -> 0 <= n < 2 ^ 31 -> msim c (addReplyMultiBulkLen c n) (s_reply c (r_num ch_star n)) s.
Proof.
  intros L Hn. destruct (msim_reply c (r_num ch_star n) s L) as (r & s' & E & H). exists r, s'. split; [| done].
  rewrite <- E. unfold addReplyMultiBulkLen. rewrite (bind_run _ _ s (print n) s); [done |].
  unfold fromOption. by rewrite ll_text_print by (unfold in_s; lia).
Qed.

Context (run_data : data -> Z -> list (list Z) -> K -> @outcome K) (readonly : data -> bool).

Lemma msim_data c (d : data) argv s : live c s -> msim c (dataCommand run_data c d argv) (s_data run_data c d argv) s.
Proof.
  intros L. pose proof L as [_ [y Hy]]. unfold dataCommand, s_data. apply (msim_deref c y); [done |]. apply msim_get; [done |].
  apply msim_bind; [by apply msim_touches |]. intros _ s1 L1. apply msim_bind; [by apply msim_update |]. intros _ s2 L2.
  apply msim_bind; [apply msim_assign'; auto |]. intros _ s3 L3. apply msim_bind; [by apply msim_reply |]. intros _ s4 L4.
  apply msim_bind; [by apply msim_update |]. intros _ s5 L5. by apply msim_ret.
Qed.

Lemma msim_call c p q s : live c s -> msim c p q s -> msim c (call_with c p) (s_call_with c q) s.
Proof.
  intros L H. unfold call_with, s_call_with. apply msim_get; [done |]. apply msim_bind; [done |]. intros argv s1 L1. apply msim_get; [done |].
  destruct (negb _); [| by apply msim_ret]. pose proof L1 as [_ [y Hy]]. apply (msim_deref c y); [done |]. by apply msim_propagate.
Qed.

Lemma msim_queued c cmd argv s :
  queueable cmd = true -> live c s -> msim c (proc_queued run_data c cmd argv) (s_queued run_data c cmd argv) s.
Proof.
  intros Hq L. destruct cmd; try discriminate; simpl; [| by apply msim_data].
  apply msim_bind; [by apply msim_unwatchCommand |]. intros _ s1 L1. by apply msim_ret.
Qed.

Lemma msim_exec_loop c l : forall b s,
  Forall (fun mc => queueable (mc_cmd mc) = true) l -> live c s ->
  msim c (exec_loop run_data readonly c l b) (s_exec_loop run_data readonly c l b) s.
Proof.
  induction l as [|mc l IH]; intros b s Hl L; [by apply msim_ret |]. apply Forall_cons in Hl as [Hmc Hl]. cbn [exec_loop s_exec_loop].
  apply msim_bind.
  - destruct (negb b && negb (cmd_readonly readonly (mc_cmd mc))); [| by apply msim_ret].
    unfold execCommandPropagateMulti. pose proof L as [_ [y Hy]].
    destruct (msim_propagate c (c_dbid y) [str "MULTI"] s L) as (r & s1 & E & Es & I1 & H1). exists true, s1.
    split; [| split; [| done]].
    + rewrite (bind_run _ _ s r s1); [done |]. by rewrite (bind_run _ _ s y s (deref_run c y s Hy)).
    + unfold mbind, SM_bind, s_deref. simpl. rewrite lookup_fmap, Hy. apply (f_equal snd) in Es. simpl in Es |- *. by rewrite <- Es.
  - intros b' s1 L1. apply msim_bind; [by apply msim_call, msim_queued |]. intros _ s2 L2. by apply IH.
Qed.

Lemma msim_exec c s : live c s -> msim c (execCommand run_data readonly c) (s_execCommand run_data readonly c) s.
Proof.
  intros L. pose proof L as [I [x Hx]]. unfold execCommand, s_execCommand. apply (msim_deref c x); [done |]. simpl a_multi.
  destruct (negb (has x REDIS_MULTI)); [by apply msim_error |].
  rewrite has_or. change (a_cas (absc x)) with (has x REDIS_DIRTY_CAS). change (a_abort (absc x)) with (has x REDIS_DIRTY_EXEC).
  destruct (has x REDIS_DIRTY_CAS || has x REDIS_DIRTY_EXEC).
  - apply msim_bind; [by apply msim_reply |]. intros _ s1 L1. by apply msim_discard.
  - destruct (minv_queue s c x I Hx) as [Hq Hn].
    apply msim_bind; [by apply msim_unwatch |]. intros _ s1 L1.
    apply msim_bind; [apply msim_multi_len; [done | split; [apply zlen_nonneg | done]] |]. intros _ s2 L2.
    apply msim_bind; [by apply msim_exec_loop |]. intros b s3 L3. apply msim_bind; [by apply msim_discard |]. intros _ s4 L4.
    destruct b; [by apply msim_update | by apply msim_ret].
Qed.

Lemma msim_proc c cmd argv s : live c s -> msim c (proc run_data readonly c cmd argv) (s_proc run_data readonly c cmd argv) s.
Proof.
  intros L. pose proof L as [_ [x Hx]]. destruct cmd; simpl.
  - unfold multiCommand. eapply msim_spec; [| apply (msim_bind c _ (y ← s_deref c; if a_multi y then s_error c "MULTI calls can not be nested"
           else _ ← s_assign c (fun y => put_flags true (a_cas y) (a_abort y) y); s_reply c shared_ok) _ (fun _ => mret argv))].
    + done.
    + apply (msim_deref c x); [done |]. simpl. destruct (has x REDIS_MULTI); [by apply msim_error |].
      apply msim_bind; [| intros _ s1 L1; by apply msim_reply]. apply msim_assign'; auto. intros y. flag_bits.
    + intros _ s1 L1. by apply msim_ret.
  - apply msim_bind; [by apply msim_exec |]. intros _ s1 L1. by apply msim_ret.
  - unfold discardCommand. eapply msim_spec; [| apply (msim_bind c _ (y ← s_deref c; if negb (a_multi y) then s_error c "DISCARD without MULTI"
           else _ ← s_discard c; s_reply c shared_ok) _ (fun _ => mret argv))].
    + done.
    + apply (msim_deref c x); [done |]. simpl. destruct (negb (has x REDIS_MULTI)); [by apply msim_error |].
      apply msim_bind; [by apply msim_discard |]. intros _ s1 L1. by apply msim_reply.
    + intros _ s1 L1. by apply msim_ret.
  - unfold watchCommand. eapply msim_spec; [| apply (msim_bind c _ (y ← s_deref c; if a_multi y then s_error c "WATCH inside MULTI is not allowed"
           else _ ← s_watch_keys c (drop 1 argv); s_reply c shared_ok) _ (fun _ => mret argv))].
    + done.
    + apply (msim_deref c x); [done |]. simpl. destruct (has x REDIS_MULTI); [by apply msim_error |].
      apply msim_bind; [by apply msim_watch_keys |]. intros _ s1 L1. by apply msim_reply.
    + intros _ s1 L1. by apply msim_ret.
  - by apply (msim_queued c CUnwatch).
  - by apply (msim_queued c (CData x0)).
Qed.

Lemma msim_processCommand c cmd argv x s :
  live c s -> clients s !! c = Some x -> (queueable cmd = true -> zlen (commands x) + 1 < 2 ^ 31) ->
  msim c (processCommand run_data readonly c cmd argv) (s_processCommand run_data readonly c cmd argv) s.
Proof.
  intros L Hx Hn. unfold processCommand, s_processCommand. apply (msim_deref c x); [done |]. simpl a_multi.
  destruct (has x REDIS_MULTI && queueable cmd) eqn:E.
  - apply andb_true_iff in E as [_ Eq]. apply msim_bind; [| intros _ s1 L1; by apply msim_reply].
    unfold queueMultiCommand. apply (msim_assign c _ _ x); try done. destruct (minv_queue s c x (proj1 L) Hx) as [Hq _].
    split; simpl; [apply Forall_app_2; [done | by repeat constructor] |]. rewrite zlen_app. by apply Hn.
  - by apply msim_call, msim_proc.
Qed.

(** ** Connections *)

Lemma watch_set_empty x : watch_set x = ∅ -> watched_keys x = [].
Proof.
  intros H. destruct (watched_keys x) as [|[db key] l] eqn:E; [done |]. exfalso.
  assert (Hw : (db, key) ∈ watch_set x) by (apply elem_of_watch_set; rewrite E; left). rewrite H in Hw. by apply elem_of_empty in Hw.
Qed.

Lemma free_run c s :
  live c s -> exists s', freeClient c s = Some (tt, s') /\ s_clients (delete c) (abs s) = (tt, abs s') /\ minv s'.
Proof.
  intros L. destruct (msim_unwatch c s L) as ([] & s1 & E1 & Es & I1 & [x Hx]).
  assert (Hw : watched_keys x = []).
  { apply watch_set_empty. apply (f_equal (fun r => a_clients (snd r) !! c)) in Es. unfold s_unwatch, s_assign, s_clients, abs in Es. simpl in Es.
    rewrite lookup_alter_eq, !lookup_fmap, Hx in Es. destruct (clients s !! c); simpl in Es; [| done]. by injection Es as _ _ _ _ <- _ _. }
  pose proof (mi_list _ I1) as [Hl Hli]. destruct (list_del_spec (client_list s1) c) as (l' & Ed & Hnd & Hl'); [by apply Hli | done |].
  exists (MServer (keyspace s1) (delete c (clients s1)) l' (db_watched s1) (m_dirty s1) (aof s1) (touches s1)).
  split; [| split].
  - unfold freeClient. rewrite (bind_run _ _ s tt s1 E1), (bind_run _ _ s1 (client_list s1) s1 eq_refl).
    by rewrite (bind_run _ _ s1 l' s1) by (unfold fromOption; by rewrite Ed).
  - apply (f_equal snd) in Es. simpl in Es. unfold s_clients, abs in *. simpl in *. injection Es as Ek Ec E3 E4 E5. rewrite Ek, E3, E4, E5. f_equal. f_equal.
    rewrite fmap_delete, <- Ec. apply map_eq. intros d. destruct (decide (c = d)) as [<-|]; [by rewrite !lookup_delete_eq | by rewrite !lookup_delete_ne, lookup_alter_ne].
  - destruct I1 as [_ HW HN HO HE HQ]. split; try done; simpl.
    + split; [done |]. intros d. rewrite Hl', Hli. destruct (decide (c = d)) as [<-|]; [rewrite lookup_delete_eq; by split; [intros [_ []] | intros []] | rewrite lookup_delete_ne by done; naive_solver].
    + intros db key d. change (watchers _ db key) with (watchers s1 db key). rewrite HW.
      destruct (decide (c = d)) as [<-|]; [rewrite lookup_delete_eq | by rewrite lookup_delete_ne].
      split; [| naive_solver]. intros (y & Hy & Hk). replace y with x in Hk by congruence. rewrite Hw in Hk. by apply elem_of_nil in Hk.
    + intros d y [_ Hd]%lookup_delete_Some. by apply (HN d).
    + intros d y [_ Hd]%lookup_delete_Some. by apply (HQ d).
Qed.

Lemma create_run c dbid s :
  minv s -> clients s !! c = None ->
  exists s', createClient c dbid s = Some (tt, s') /\ s_clients <[c := AClient false false false [] ∅ dbid []]> (abs s) = (tt, abs s') /\ minv s'.
Proof.
  intros I Hc. exists (MServer (keyspace s) (<[c := Client 0 [] [] dbid []]> (clients s)) (client_list s ++ [c]) (db_watched s) (m_dirty s) (aof s) (touches s)).
  split; [unfold createClient; rewrite (bind_run _ _ s (clients s) s eq_refl); by rewrite Hc |]. split.
  - unfold s_clients, abs. simpl. by rewrite fmap_insert.
  - destruct I as [[Hl Hli] HW HN HO HE HQ]. split; try done; simpl.
    + split.
      * apply NoDup_app. split; [done |]. split; [| apply NoDup_singleton]. intros d Hd ->%list_elem_of_singleton. apply Hli in Hd as [y Hy]. congruence.
      * intros d. rewrite elem_of_app, list_elem_of_singleton, Hli.
        destruct (decide (c = d)) as [<-|]; [rewrite lookup_insert_eq; naive_solver | rewrite lookup_insert_ne by done; naive_solver].
    + intros db key d. change (watchers _ db key) with (watchers s db key). rewrite HW.
      destruct (decide (c = d)) as [<-|]; [rewrite lookup_insert_eq | by rewrite lookup_insert_ne].
      split; [rewrite Hc; naive_solver |]. intros (y & [= <-] & Hk). by apply elem_of_nil in Hk.
    + intros d y [[-> <-] | [_ Hd]]%lookup_insert_Some; [constructor | by apply (HN d)].
    + intros d y [[-> <-] | [_ Hd]]%lookup_insert_Some; [split; [constructor | done] | by apply (HQ d)].
Qed.

(** ** Requests *)

Lemma handle_run c r s :
  minv s -> request_ok (abs s) c r ->
  exists s', handle run_data readonly c r s = Some (tt, s') /\ s_handle run_data readonly c r (abs s) = (tt, abs s') /\ minv s'.
Proof.
  intros I. unfold request_ok. replace (a_clients (abs s) !! c) with (absc <$> clients s !! c) by (symmetry; apply lookup_fmap).
  destruct (clients s !! c) as [x|] eqn:Hx; simpl.
  - assert (L : live c s) by (split; eauto). destruct r as [cmd argv|why err| |dbid]; intros Hr; [| | | done].
    + destruct (msim_processCommand c cmd argv x s L Hx Hr) as ([] & s' & E & Es & I' & _). by exists s'.
    + assert (H : msim c (handle run_data readonly c (Refused why err)) (s_handle run_data readonly c (Refused why err)) s).
      { simpl. apply msim_bind; [| intros _ s1 L1; by apply msim_reply]. destruct (flags_transaction why); [| by apply msim_ret].
        unfold flagTransaction. set (g := fun y : aclient => _).
        destruct (has x REDIS_MULTI) eqn:Em.
        - destruct (msim_assign c (fun y => set_flags y (Z.lor (flags y) REDIS_DIRTY_EXEC)) g x s L Hx) as (u & s1 & E & H); try done.
          { unfold g. change (a_multi (absc x)) with (has x REDIS_MULTI). rewrite Em.
            transitivity (put_flags (a_multi (absc x)) (a_cas (absc x)) true (absc x)); [flag_bits |].
            change (a_multi (absc x)) with (has x REDIS_MULTI). by rewrite Em. }
          { by destruct (minv_queue s c x I Hx). }
          exists u, s1. split; [| done]. rewrite <- E. by rewrite (bind_run _ _ s x s (deref_run c x s Hx)), Em.
        - exists tt, s. split; [by rewrite (bind_run _ _ s x s (deref_run c x s Hx)), Em |]. split; [| done].
          rewrite (abs_insert c id g x s Hx); [| unfold g; change (a_multi (absc x)) with (has x REDIS_MULTI); by rewrite Em].
          f_equal. unfold abs, with_clients. simpl. f_equal. by rewrite insert_id. }
      destruct H as ([] & s' & E & Es & I' & _). by exists s'.
    + by apply free_run.
  - destruct r as [cmd argv|why err| |dbid]; intros Hr; try done. by apply create_run.
Qed.

Lemma handle_all_run l : forall s,
  minv s -> requests_ok run_data readonly l (abs s) ->
  exists s', handle_all run_data readonly l s = Some (tt, s') /\ s_handle_all run_data readonly l (abs s) = (tt, abs s') /\ minv s'.
Proof.
  induction l as [|[c r] l IH]; intros s I Hl; [by exists s |]. destruct Hl as [Hr Hl].
  destruct (handle_run c r s I Hr) as (s1 & E & Es & I1). rewrite Es in Hl. destruct (IH s1 I1 Hl) as (s2 & E2 & Es2 & I2). exists s2.
  split; [cbn [handle_all]; by rewrite (bind_run _ _ s tt s1 E) |]. split; [| done].
  cbn [s_handle_all]. unfold mbind, SM_bind. by rewrite Es.
Qed.

Lemma minv_init k : minv (@init_server K data k).
Proof.
  split; simpl; try done.
  - split; [constructor |]. intros c. rewrite lookup_empty. split; [intros H; by apply elem_of_nil in H | by intros []].
  - intros db key c. unfold watchers, watched_in. simpl. rewrite lookup_empty. simpl. rewrite lookup_empty. simpl.
    split; [intros H; by apply elem_of_nil in H | intros (x & H & _); by rewrite lookup_empty in H].
  - intros db key. unfold watchers, watched_in. simpl. rewrite lookup_empty. simpl. rewrite lookup_empty. constructor.
Qed.

(** ** What the requests of others do to a client *)

(** Of client [c], [t'] differs from [t] in the mark of the new touches only. *)
Definition frame (c : nat) (t t' : @astate K data) : Prop :=
  exists new, a_touches t' = a_touches t ++ new /\
    a_clients t' !! c = (fun y : aclient => if existsb (fun u => hits u (a_watch y)) new then set_cas y else y) <$> a_clients t !! c.

Lemma frame_same c t t' : a_touches t' = a_touches t -> a_clients t' !! c = a_clients t !! c -> frame c t t'.
Proof. intros E1 E2. exists []. rewrite app_nil_r. split; [done |]. rewrite E2. by destruct (a_clients t !! c). Qed.

Lemma frames_trans c t1 t2 t3 : frame c t1 t2 -> frame c t2 t3 -> frame c t1 t3.
Proof.
  intros (n1 & E1 & H1) (n2 & E2 & H2). exists (n1 ++ n2). rewrite E2, E1, app_assoc. split; [done |]. rewrite H2, H1.
  destruct (a_clients t1 !! c) as [y|]; [| done]. simpl. f_equal. rewrite existsb_app. by destruct (existsb _ n1), (existsb _ n2) eqn:E; simpl in *; rewrite ?E.
Qed.

Definition frames {A} (c : nat) (f : SM A) : Prop := forall t, frame c t (snd (f t)).

Lemma frames_bind {A B} c (f : SM A) (g : A -> SM B) : frames c f -> (forall r, frames c (g r)) -> frames c (f ≫= g).
Proof.
  intros Hf Hg t. unfold mbind, SM_bind. specialize (Hf t). destruct (f t) as [r t1]. eapply frames_trans; [exact Hf | apply Hg].
Qed.

Lemma frames_ret {A} c (r : A) : frames c (mret r).
Proof. intros t. by apply frame_same. Qed.

Lemma frames_get {A} c (f : astate -> A) : frames c (s_get f).
Proof. intros t. by apply frame_same. Qed.

Lemma frames_deref c d : frames c (s_deref d).
Proof. intros t. by apply frame_same. Qed.

Lemma frames_assign c d f : d <> c -> frames c (s_assign d f).
Proof. intros Hd t. apply frame_same; [done |]. simpl. by rewrite lookup_alter_ne. Qed.

Lemma frames_update c f : (forall t, a_touches (f t) = a_touches t) -> (forall t, a_clients (f t) = a_clients t) -> frames c (s_update f).
Proof. intros H1 H2 t. apply frame_same; simpl; by rewrite ?H1, ?H2. Qed.

Lemma frames_touch c u : frames c (s_touch u).
Proof. intros t. exists [u]. split; [done |]. simpl. rewrite lookup_fmap. destruct (a_clients t !! c); [| done]. simpl. by rewrite orb_false_r. Qed.

Lemma frames_if {A} c (b : bool) (f g : SM A) : frames c f -> frames c g -> frames c (if b then f else g).
Proof. by destruct b. Qed.

Lemma frames_touches c l : frames c (s_touches l).
Proof. induction l; [apply frames_ret |]. apply frames_bind; [apply frames_touch | done]. Qed.

Create HintDb frames.
#[local] Hint Resolve frames_bind frames_ret frames_get frames_deref frames_assign frames_touches frames_if : frames.
#[local] Hint Extern 2 (frames _ (s_update _)) => apply frames_update; intros; reflexivity : frames.
#[local] Hint Extern 2 (frames _ (s_propagate _ _)) => apply frames_update; intros; reflexivity : frames.
Ltac frames := repeat (intros; first [apply frames_bind | apply frames_if | solve [eauto with frames]]).

Lemma frames_watch_keys c d l : d <> c -> frames c (s_watch_keys d l).
Proof. intros Hd. induction l; [apply frames_ret |]. apply frames_bind; [by apply frames_assign | done]. Qed.

Lemma frames_queued c d cmd argv : d <> c -> frames c (s_queued run_data d cmd argv).
Proof. intros Hd. destruct cmd; unfold s_queued, s_data, s_unwatchCommand, s_unwatch, s_reply; frames. Qed.

Lemma frames_call c d p : d <> c -> frames c p -> frames c (s_call_with d p).
Proof. intros Hd Hp. unfold s_call_with. frames. Qed.

Lemma frames_exec_loop c d l b : d <> c -> frames c (s_exec_loop run_data readonly d l b).
Proof.
  intros Hd. revert b. induction l; intros b; [apply frames_ret |]. cbn [s_exec_loop]. apply frames_bind; [frames |]. intros r.
  apply frames_bind; [by apply frames_call, frames_queued | done].
Qed.

Lemma frames_handle c d r : d <> c -> frames c (s_handle run_data readonly d r).
Proof.
  intros Hd. pose proof (frames_exec_loop c d). pose proof (frames_watch_keys c d). pose proof (frames_queued c d).
  destruct r as [cmd argv|why err| |dbid]; simpl.
  - unfold s_processCommand, s_reply. apply frames_bind; [frames |]. intros x. apply frames_if; [frames |]. apply frames_call; [done |].
    destruct cmd; unfold s_proc, s_execCommand, s_error, s_discard, s_unwatch, s_reply; frames.
  - unfold s_reply. frames.
  - intros t. apply frame_same; [done |]. simpl. by rewrite lookup_delete_ne.
  - intros t. apply frame_same; [done |]. simpl. by rewrite lookup_insert_ne.
Qed.

Lemma frames_handle_all c l : Forall (fun p : nat * request => fst p <> c) l -> frames c (s_handle_all run_data readonly l).
Proof.
  induction l as [|[d r] l IH]; intros Hl; [apply frames_ret |]. apply Forall_cons in Hl as [Hd Hl].
  apply frames_bind; [by apply frames_handle | intros _; by apply IH].
Qed.

Lemma s_get_run {A B} (f : @astate K data -> A) (h : A -> SM B) t : (s_get f ≫= h) t = h (f t) t.
Proof. done. Qed.

(** ** From WATCH to EXEC *)

(** What the own requests of a client do to its transaction: whether it is open, whether a
    refusal aborted it, and the queue. *)
Definition window : Type := bool * bool * list (@multiCmd data).

Definition window_step (c : nat) (w : window) (p : nat * @request data) : window :=
  let '(multi, refused, q) := w in
  if negb (Nat.eqb (fst p) c) then w else
  match snd p with
  | Request CMulti _ => (true, refused, q)
  | Request (CData d) argv => if multi then (multi, refused, q ++ [MultiCmd (CData d) argv]) else w
  | Refused why _ => if multi && flags_transaction why then (multi, true, q) else w
  | _ => w
  end.

(** The requests after WATCH: whatever the others send; of the client itself, commands on
    the data, MULTI, and requests that are refused. *)
Definition in_window (c : nat) (p : nat * @request data) : Prop :=
  fst p <> c \/ match snd p with Request (CData _) _ | Request CMulti _ | Refused _ _ => True | _ => False end.

Definition the_window (y : @aclient data) : window := (a_multi y, a_abort y, a_queue y).

(** Client [c] of [t'] watches what it watches in [t], it has the mark of the new touches,
    and its window changes as [f] says. *)
Definition moves (c : nat) (f : window -> window) (t t' : @astate K data) : Prop :=
  exists new, a_touches t' = a_touches t ++ new /\
    forall y, a_clients t !! c = Some y -> exists y', a_clients t' !! c = Some y' /\ a_watch y' = a_watch y /\
      a_cas y' = a_cas y || existsb (fun u => hits u (a_watch y)) new /\ the_window y' = f (the_window y).

Lemma moves_trans c f g t1 t2 t3 : moves c f t1 t2 -> moves c g t2 t3 -> moves c (fun w => g (f w)) t1 t3.
Proof.
  intros (n1 & E1 & H1) (n2 & E2 & H2). exists (n1 ++ n2). rewrite E2, E1, app_assoc. split; [done |]. intros y Hy.
  destruct (H1 y Hy) as (y1 & Hy1 & W1 & C1 & F1). destruct (H2 y1 Hy1) as (y2 & Hy2 & W2 & C2 & F2).
  exists y2. rewrite C2, C1, F2, F1, existsb_app, W2, W1, orb_assoc. done.
Qed.

Lemma moves_id c t : moves c (fun w => w) t t.
Proof. exists []. rewrite app_nil_r. split; [done |]. intros y Hy. exists y. by rewrite orb_false_r. Qed.

Lemma moves_frame c t t' : frame c t t' -> moves c (fun w => w) t t'.
Proof.
  intros (new & E & H). exists new. split; [done |]. intros y Hy. rewrite Hy in H. simpl in H. eexists. split; [exact H |].
  destruct (existsb _ new); simpl; by rewrite ?orb_true_r, ?orb_false_r.
Qed.

Definition mover {A} (c : nat) (f : window -> window) (m : SM A) : Prop := forall t, moves c f t (snd (m t)).

Lemma mover_bind {A B} c f g (m : SM A) (h : A -> SM B) :
  mover c f m -> (forall r, mover c g (h r)) -> mover c (fun w => g (f w)) (m ≫= h).
Proof.
  intros Hm Hh t. unfold mbind, SM_bind. specialize (Hm t). destruct (m t) as [r t1]. eapply moves_trans; [exact Hm | apply Hh].
Qed.

Lemma mover_keep {A B} c (m : SM A) (h : A -> SM B) :
  mover c (fun w => w) m -> (forall r, mover c (fun w => w) (h r)) -> mover c (fun w => w) (m ≫= h).
Proof. apply (mover_bind c (fun w => w) (fun w => w)). Qed.

Lemma mover_frames {A} c (m : SM A) : frames c m -> mover c (fun w => w) m.
Proof. intros H t. apply moves_frame, H. Qed.

Lemma mover_assign c f g :
  (forall y, a_watch (g y) = a_watch y /\ a_cas (g y) = a_cas y /\ the_window (g y) = f (the_window y)) -> mover c f (s_assign c g).
Proof.
  intros Hg t. exists []. rewrite app_nil_r. split; [done |]. intros y Hy. exists (g y). simpl. rewrite lookup_alter_eq, Hy.
  destruct (Hg y) as (? & -> & ?). by rewrite orb_false_r.
Qed.

Lemma mover_reply c b : mover c (fun w => w) (s_reply c b).
Proof. by apply mover_assign. Qed.

Ltac keeps := repeat (apply mover_keep; [| intros ?]); try (by apply mover_assign); apply mover_frames; frames.

(** What call() does after the command concerns no client. *)
Lemma call_after c p t : moves c (fun w => w) (snd (p t)) (snd (s_call_with c p t)).
Proof.
  unfold s_call_with. rewrite s_get_run. unfold mbind, SM_bind at 1. destruct (p t) as [argv t1].
  generalize t1. change (mover c (fun w => w) (after ← s_get a_dirty;
    if negb (swrap 64 (after - a_dirty t) =? 0) then x ← s_deref c; s_propagate (a_cdb x) argv else mret tt)).
  apply mover_frames. frames.
Qed.

Lemma moves_call c f p t : moves c f t (snd (p t)) -> moves c f t (snd (s_call_with c p t)).
Proof. intros H. exact (moves_trans c f (fun w => w) _ _ _ H (call_after c p t)). Qed.

(** A command of the client on the data, outside a transaction. *)
Lemma mover_data c d argv : mover c (fun w => w) (s_data run_data c d argv).
Proof. unfold s_data, s_reply. keeps. Qed.

Lemma moves_ext c f g t t' :
  (forall y, a_clients t !! c = Some y -> f (the_window y) = g (the_window y)) -> moves c f t t' -> moves c g t t'.
Proof.
  intros Hfg (new & E & H). exists new. split; [done |]. intros y Hy. destruct (H y Hy) as (y' & ? & ? & ? & Hw). exists y'.
  by rewrite <- (Hfg y Hy).
Qed.

Lemma s_deref_run {B} c y (h : aclient -> SM B) (t : @astate K data) : a_clients t !! c = Some y -> (s_deref c ≫= h) t = h y t.
Proof. intros Hy. unfold mbind, SM_bind, s_deref. by rewrite Hy. Qed.

Lemma moves_own c r t y :
  in_window c (c, r) -> a_clients t !! c = Some y ->
  moves c (fun w => window_step c w (c, r)) t (snd (s_handle run_data readonly c r t)).
Proof.
  intros [[]|Hr] Hy; [done |]. unfold window_step. cbn [fst snd]. rewrite Nat.eqb_refl. cbn [negb].
  destruct r as [[| | | | |d] argv|why err| |]; try done; clear Hr; cbn [s_handle].
  - unfold s_processCommand. rewrite (s_deref_run c y _ t Hy), andb_false_r. apply moves_call. unfold s_proc.
    rewrite (s_deref_run c y _ t Hy). destruct (a_multi y) eqn:Em.
    + eapply moves_ext; [| apply (mover_keep c); [apply mover_reply | intros; apply mover_frames, frames_ret]].
      intros y' Hy'. replace y' with y by congruence. unfold the_window. by rewrite Em.
    + apply (mover_bind c (fun w => (true, snd (fst w), snd w)) (fun w => w)); [| intros _; apply mover_frames, frames_ret].
      apply (mover_bind c (fun w => (true, snd (fst w), snd w)) (fun w => w)); [by apply mover_assign | intros _; apply mover_reply].
  - unfold s_processCommand. rewrite (s_deref_run c y _ t Hy), andb_true_r. destruct (a_multi y) eqn:Em.
    + eapply moves_ext; [| apply (mover_bind c (fun w => (fst w, snd w ++ [MultiCmd (CData d) argv])) (fun w => w)); [by apply mover_assign | intros _; apply mover_reply]].
      intros y' Hy'. replace y' with y by congruence. unfold the_window. by rewrite Em.
    + eapply moves_ext; [| apply moves_call, mover_data]. intros y' Hy'. replace y' with y by congruence. unfold the_window. by rewrite Em.
  - destruct (flags_transaction why).
    + eapply moves_ext; [| apply (mover_bind c (fun w => if fst (fst w) then (fst (fst w), true, snd w) else w) (fun w => w)); [| intros _; apply mover_reply]].
      * intros y' _. unfold the_window. simpl. by destruct (a_multi y').
      * apply mover_assign. intros y'. unfold the_window. destruct (a_multi y') eqn:Em; simpl; by rewrite ?Em.
    + eapply moves_ext; [| apply (mover_keep c); [apply mover_frames, frames_ret | intros _; apply mover_reply]].
      intros y' _. unfold the_window. by rewrite andb_false_r.
Qed.

Lemma moves_all c l : forall t y,
  Forall (in_window c) l -> a_clients t !! c = Some y ->
  moves c (fun w => fold_left (window_step c) l w) t (snd (s_handle_all run_data readonly l t)).
Proof.
  induction l as [|[d r] l IH]; intros t y Hl Hy; [apply moves_id |]. apply Forall_cons in Hl as [Hp Hl].
  assert (H1 : moves c (fun w => window_step c w (d, r)) t (snd (s_handle run_data readonly d r t))).
  { destruct (decide (d = c)) as [->|Hd]; [by apply (moves_own c r t y) |].
    eapply moves_ext; [| apply moves_frame, frames_handle; exact Hd]. intros y' _. unfold window_step. cbn [fst].
    destruct (the_window y') as [[m a] q]. apply Nat.eqb_neq in Hd. by rewrite Hd. }
  cbn [s_handle_all fold_left]. unfold mbind, SM_bind. destruct (s_handle run_data readonly d r t) as [[] t1].
  destruct H1 as (new & E & H1). destruct (H1 y Hy) as (y1 & Hy1 & _).
  apply (moves_trans c (fun w => window_step c w (d, r)) (fun w => fold_left (window_step c) l w) t t1); [by exists new | by apply (IH t1 y1)].
Qed.

Lemma watch_keys_run c l : forall (t : @astate K data) y,
  a_clients t !! c = Some y ->
  let t' := snd (s_watch_keys c l t) in
  a_touches t' = a_touches t /\ exists y', a_clients t' !! c = Some y' /\
    a_watch y' = list_to_set (map (pair (a_cdb y)) l) ∪ a_watch y /\ a_cas y' = a_cas y /\ the_window y' = the_window y.
Proof.
  induction l as [|key l IH]; intros t y Hy.
  - split; [done |]. exists y. split; [done |]. split; [simpl; set_solver | done].
  - cbn [s_watch_keys]. unfold mbind, SM_bind. cbn [s_assign s_clients].
    set (y1 := put_watch ({[(a_cdb y, key)]} ∪ a_watch y) y).
    set (t1 := AState _ _ _ _ _). assert (Hy1 : a_clients t1 !! c = Some y1) by (unfold t1; simpl; by rewrite lookup_alter_eq, Hy).
    destruct (IH t1 y1 Hy1) as (E & y' & Hy' & W & C & F). split; [done |]. exists y'. split; [done |].
    rewrite W, C, F. split; [| done]. unfold y1. simpl. set_solver.
Qed.

(** The state of a client between its WATCH and its EXEC. *)
Lemma watch_window c argv l t y :
  Forall (in_window c) l -> a_clients t !! c = Some y -> a_multi y = false ->
  let t' := snd (s_handle_all run_data readonly ((c, Request CWatch argv) :: l) t) in
  let w := list_to_set (map (pair (a_cdb y)) (drop 1 argv)) ∪ a_watch y in
  exists new y', a_touches t' = a_touches t ++ new /\ a_clients t' !! c = Some y' /\
    a_cas y' = (a_cas y || existsb (fun u => hits u w) new) /\ the_window y' = fold_left (window_step c) l (the_window y).
Proof.
  intros Hl Hy Hm. cbv zeta. cbn [s_handle_all]. unfold mbind, SM_bind.
  assert (H1 : let t1 := snd (s_handle run_data readonly c (Request CWatch argv) t) in
    exists new y1, a_touches t1 = a_touches t ++ new /\ a_clients t1 !! c = Some y1 /\
      a_watch y1 = list_to_set (map (pair (a_cdb y)) (drop 1 argv)) ∪ a_watch y /\
      a_cas y1 = (a_cas y || existsb (fun u => hits u (a_watch y1)) new) /\ the_window y1 = the_window y).
  { cbn [s_handle]. unfold s_processCommand. rewrite (s_deref_run c y _ t Hy), andb_false_r. cbv zeta.
    destruct (watch_keys_run c (drop 1 argv) t y Hy) as (E0 & y0 & Hy0 & W0 & C0 & F0).
    set (t0 := snd (s_watch_keys c (drop 1 argv) t)) in *.
    assert (H : moves c (fun w => w) t0 (snd (s_call_with c (s_proc run_data readonly c CWatch argv) t))).
    { refine (moves_trans c (fun w => w) (fun w => w) _ _ _ _ (call_after c _ t)).
      unfold s_proc. rewrite (s_deref_run c y _ t Hy), Hm. unfold t0, mbind, SM_bind. destruct (s_watch_keys c (drop 1 argv) t) as [[] t2].
      exact (mover_reply c shared_ok t2). }
    destruct H as (new & E & H). destruct (H y0 Hy0) as (y1 & Hy1 & W1 & C1 & F1). exists new, y1. rewrite E, E0. do 2 (split; [done |]). by rewrite W1, <- W0, C1, C0, F1, F0. }
  destruct (s_handle run_data readonly c (Request CWatch argv) t) as [[] t1]. destruct H1 as (n1 & y1 & E1 & Hy1 & W1 & C1 & F1).
  destruct (moves_all c l t1 y1 Hl Hy1) as (n2 & E2 & H2). destruct (H2 y1 Hy1) as (y2 & Hy2 & W2 & C2 & F2).
  exists (n1 ++ n2), y2. rewrite app_assoc, <- E1. split; [done |]. split; [done |].
  rewrite C2, C1, F2, F1, existsb_app, W1, orb_assoc. done.
Qed.

(** ** What EXEC does *)

(** The commands of a queue, one after the other: keyspace, replies and database. *)
Fixpoint run_queue (l : list multiCmd) (db : Z) (k : K) : K * list Z * Z :=
  match l with
  | [] => (k, [], db)
  | mc :: l =>
      match mc_cmd mc with
      | CData d =>
          let o := run_data d db (mc_argv mc) k in
          let '(k', r, db') := run_queue l (o_dbid o) (o_keyspace o) in (k', o_reply o ++ r, db')
      | _ => let '(k', r, db') := run_queue l db k in (k', shared_ok ++ r, db')
      end
  end.

(** The keyspace [k], and of client [c] the replies [r] and the database [db]. *)
Definition shows (c : nat) (t : @astate K data) (k : K) (r : list Z) (db : Z) : Prop :=
  a_keyspace t = k /\ exists y, a_clients t !! c = Some y /\ a_reply y = r /\ a_cdb y = db.

Lemma shows_deref c t k r db :
  shows c t k r db ->
  exists y, a_clients t !! c = Some y /\ a_reply y = r /\ a_cdb y = db /\ forall B (h : aclient -> SM B), (s_deref c ≫= h) t = h y t.
Proof. intros (_ & y & Hy & Hr & Hd). exists y. do 3 (split; [done |]). intros B h. unfold mbind, SM_bind, s_deref. by rewrite Hy. Qed.

Lemma shows_assign c f t k r db r' db' :
  shows c t k r db -> (forall y, a_reply y = r -> a_cdb y = db -> a_reply (f y) = r' /\ a_cdb (f y) = db') ->
  shows c (snd (s_assign c f t)) k r' db'.
Proof.
  intros (Hk & y & Hy & Hr & Hd) Hf. split; [done |]. exists (f y). simpl. rewrite lookup_alter_eq, Hy. by destruct (Hf y Hr Hd).
Qed.

Lemma shows_touches c l t k r db : shows c t k r db -> shows c (snd (s_touches l t)) k r db.
Proof.
  intros (Hk & y & Hy & Hr & Hd). split.
  - rewrite <- Hk. clear. revert t. induction l as [|u l IH]; intros t; [done |]. cbn [s_touches]. unfold mbind, SM_bind.
    destruct (s_touch u t) as [[] t1] eqn:E. rewrite IH. by injection E as <-.
  - destruct (frames_touches c l t) as (new & _ & H). rewrite H, Hy. simpl. eexists. split; [done |]. by destruct (existsb _ new).
Qed.

Lemma shows_bind {A B} c (f : SM A) (g : A -> SM B) t (k k' : K) r r' db db' :
  shows c (snd (f t)) k r db -> (forall a t1, shows c t1 k r db -> shows c (snd (g a t1)) k' r' db') ->
  shows c (snd ((f ≫= g) t)) k' r' db'.
Proof. intros H Hg. unfold mbind, SM_bind. destruct (f t) as [a t1]. by apply Hg. Qed.

Lemma shows_data c d argv t k r db :
  let o := run_data d db argv k in
  shows c t k r db -> shows c (snd (s_data run_data c d argv t)) (o_keyspace o) (r ++ o_reply o) (o_dbid o).
Proof.
  intros o H. unfold s_data. destruct (shows_deref _ _ _ _ _ H) as (y & Hy & Hr & Hd & Hb). rewrite Hb.
  rewrite s_get_run. cbv zeta. rewrite Hd. destruct H as [Hk H]. rewrite Hk. fold o.
  apply (shows_bind c _ _ _ k _ r _ db); [by apply shows_touches |]. intros _ t1 H1.
  apply (shows_bind c _ _ _ (o_keyspace o) _ r _ db). { destruct H1 as [_ H1]. by split. } intros _ t2 H2.
  apply (shows_bind c _ _ _ (o_keyspace o) _ r _ (o_dbid o)). { by eapply shows_assign. } intros _ t3 H3.
  apply (shows_bind c _ _ _ (o_keyspace o) _ (r ++ o_reply o) _ (o_dbid o)).
  { eapply shows_assign; [exact H3 |]. intros y' Hr' Hd'. simpl. by rewrite Hr'. }
  intros _ t4 [Hk4 H4]. by split.
Qed.

Lemma shows_call c p t k r db : shows c (snd (p t)) k r db -> shows c (snd (s_call_with c p t)) k r db.
Proof.
  intros H. unfold s_call_with. rewrite s_get_run. apply (shows_bind c _ _ _ k _ r _ db); [done |].
  intros argv t1 H1. rewrite s_get_run. destruct (negb _); [| done].
  destruct (shows_deref _ _ _ _ _ H1) as (y & Hy & Hr & Hd & Hb). rewrite Hb. destruct H1 as [Hk H1]. by split.
Qed.

Lemma shows_queued c cmd argv t k r db :
  shows c t k r db ->
  let '(k', r', db') := run_queue [MultiCmd cmd argv] db k in shows c (snd (s_queued run_data c cmd argv t)) k' (r ++ r') db'.
Proof.
  intros H. destruct cmd; cbn [run_queue mc_cmd mc_argv]; try (apply (shows_bind c _ _ _ k _ (r ++ shared_ok) _ db); [| by intros; rewrite app_nil_r];
    unfold s_unwatchCommand; apply (shows_bind c _ _ _ k _ r _ db); [by eapply shows_assign |]; intros _ t1 H1;
    apply (shows_bind c _ _ _ k _ r _ db); [by eapply shows_assign |]; intros _ t2 H2;
    eapply shows_assign; [exact H2 |]; intros y Hr Hd; simpl; by rewrite Hr).
  rewrite app_nil_r. by apply shows_data.
Qed.

Lemma run_queue_cons mc l db k :
  run_queue (mc :: l) db k =
  let '(k1, r1, db1) := run_queue [mc] db k in let '(k2, r2, db2) := run_queue l db1 k1 in (k2, r1 ++ r2, db2).
Proof. destruct mc as [[] argv]; cbn [run_queue mc_cmd mc_argv]; rewrite ?app_nil_r; try done. Qed.

Lemma shows_exec_loop c l : forall b t k r db,
  shows c t k r db -> let '(k', r', db') := run_queue l db k in shows c (snd (s_exec_loop run_data readonly c l b t)) k' (r ++ r') db'.
Proof.
  induction l as [|mc l IH]; intros b t k r db H; [cbn; by rewrite app_nil_r |].
  rewrite run_queue_cons. pose proof (shows_queued c (mc_cmd mc) (mc_argv mc)) as Hq.
  replace (MultiCmd (mc_cmd mc) (mc_argv mc)) with mc in Hq by by destruct mc.
  destruct (run_queue [mc] db k) as [[k1 r1] db1] eqn:E1. specialize (fun t b => IH t b k1 (r ++ r1) db1).
  destruct (run_queue l db1 k1) as [[k2 r2] db2]. cbn [s_exec_loop]. apply (shows_bind c _ _ _ k _ r _ db).
  - destruct (negb b && _); [| done]. destruct (shows_deref _ _ _ _ _ H) as (y & Hy & Hr & Hd & Hb). rewrite Hb. destruct H as [Hk H]. by split.
  - intros b' t1 H1. apply (shows_bind c _ _ _ k1 _ (r ++ r1) _ db1).
    + apply shows_call. specialize (Hq t1 k r db H1). by rewrite E1 in Hq.
    + intros _ t2 H2. rewrite app_assoc. by apply IH.
Qed.

(** What EXEC leaves: the keyspace, the replies and the database. *)
Definition exec_result (y : @aclient data) (k : K) : K * list Z * Z :=
  if a_abort y then (k, a_reply y ++ shared_execaborterr, a_cdb y)
  else if a_cas y then (k, a_reply y ++ shared_nullmultibulk, a_cdb y)
  else let '(k', r, db) := run_queue (a_queue y) (a_cdb y) k in (k', a_reply y ++ r_num ch_star (zlen (a_queue y)) ++ r, db).

Lemma shows_exec c argv y t :
  a_clients t !! c = Some y -> a_multi y = true ->
  let '(k, r, db) := exec_result y (a_keyspace t) in
  shows c (snd (s_handle run_data readonly c (Request CExec argv) t)) k r db.
Proof.
  intros Hy Hm. assert (H : shows c t (a_keyspace t) (a_reply y) (a_cdb y)) by (split; eauto).
  assert (Hd : forall B (h : aclient -> SM B), (s_deref c ≫= h) t = h y t) by (intros; unfold mbind, SM_bind, s_deref; by rewrite Hy).
  assert (G : let '(k, r, db) := exec_result y (a_keyspace t) in shows c (snd (s_execCommand run_data readonly c t)) k r db).
  { unfold s_execCommand, exec_result. rewrite Hd, Hm. cbn [negb]. destruct (a_abort y), (a_cas y); simpl orb; cbv iota.
    1-3: (eapply shows_bind; [eapply shows_assign; [exact H |]; intros y' Hr' Hd'; simpl; rewrite Hr'; by split |]; intros _ t1 H1; by eapply shows_assign).
    pose proof (fun b t r => shows_exec_loop c (a_queue y) b t (a_keyspace t) r (a_cdb y)) as Hl.
    assert (Hl' : forall b t' r, shows c t' (a_keyspace t) r (a_cdb y) ->
      let '(k', r', db') := run_queue (a_queue y) (a_cdb y) (a_keyspace t) in shows c (snd (s_exec_loop run_data readonly c (a_queue y) b t')) k' (r ++ r') db').
    { intros b t' r Ht'. by apply shows_exec_loop. }
    destruct (run_queue (a_queue y) (a_cdb y) (a_keyspace t)) as [[k' r'] db'].
    eapply shows_bind; [by eapply shows_assign |]. intros _ t1 H1.
    eapply shows_bind; [eapply shows_assign; [exact H1 |]; intros y' Hr' Hd'; simpl; rewrite Hr'; by split |]. intros _ t2 H2.
    eapply shows_bind; [apply Hl'; exact H2 |]. intros b t3 H3. rewrite app_assoc.
    eapply shows_bind; [by eapply shows_assign |]. intros _ t4 H4. destruct b; [| done]. destruct H4 as [? H4]. by split. }
  destruct (exec_result y (a_keyspace t)) as [[k r] db]. cbn [s_handle]. unfold s_processCommand. rewrite Hd, andb_false_r.
  apply shows_call. unfold s_proc. eapply shows_bind; [exact G | done].
Qed.

(** EXEC of a transaction ends it. *)
Definition over (c : nat) (t : @astate K data) : Prop := forall y, a_clients t !! c = Some y -> y = reset y.
Definition closes {A} (c : nat) (f : SM A) : Prop := forall t, over c (snd (f t)).

Lemma closes_bind {A B} c (f : SM A) (g : A -> SM B) : (forall r, closes c (g r)) -> closes c (f ≫= g).
Proof. intros H t. unfold mbind, SM_bind. destruct (f t). apply H. Qed.

Lemma closes_discard c : closes c (s_discard c).
Proof. intros t y. simpl. rewrite lookup_alter_eq. destruct (a_clients t !! c); [| done]. by intros [= <-]. Qed.

Lemma over_bind {A B} c (f : SM A) (g : A -> SM B) t :
  over c (snd (f t)) -> (forall r t1, over c t1 -> over c (snd (g r t1))) -> over c (snd ((f ≫= g) t)).
Proof. intros H Hg. unfold mbind, SM_bind. destruct (f t). by apply Hg. Qed.

Lemma over_exec c argv y t :
  a_clients t !! c = Some y -> a_multi y = true -> over c (snd (s_handle run_data readonly c (Request CExec argv) t)).
Proof.
  intros Hy Hm. cbn [s_handle]. unfold s_processCommand. rewrite (s_deref_run c y _ t Hy), andb_false_r.
  unfold s_call_with. rewrite s_get_run. apply over_bind.
  - unfold s_proc. apply over_bind; [| done]. unfold s_execCommand. rewrite (s_deref_run c y _ t Hy), Hm. cbn [negb].
    destruct (a_cas y || a_abort y); [apply closes_bind; intros; apply closes_discard |].
    do 3 (apply closes_bind; intros ?). intros t1. apply over_bind; [apply closes_discard |]. intros _ t2 H. by destruct r1.
  - intros r t1 H. rewrite s_get_run. destruct (negb _); [| done]. apply over_bind; [done |]. done.
Qed.

Lemma s_handle_all_app l1 l2 t : requests_ok run_data readonly (l1 ++ l2) t ->
  requests_ok run_data readonly l1 t /\ requests_ok run_data readonly l2 (snd (s_handle_all run_data readonly l1 t)).
Proof.
  revert t. induction l1 as [|[c r] l1 IH]; intros t H; [done |]. destruct H as [Hr H]. apply IH in H as [H1 H2].
  split; [done |]. cbn [s_handle_all]. unfold mbind, SM_bind. by destruct (s_handle run_data readonly c r t).
Qed.

(** A client that is not in a transaction has no queue, and nothing is refused to it. *)
Definition tidy_client (y : @aclient data) : Prop := a_multi y = false -> a_abort y = false /\ a_queue y = [].
Definition tidy (t : @astate K data) : Prop := forall c y, a_clients t !! c = Some y -> tidy_client y.
Definition tidies {A} (f : SM A) : Prop := forall t, tidy t -> tidy (snd (f t)).

Lemma tidies_bind {A B} (f : SM A) (g : A -> SM B) : tidies f -> (forall r, tidies (g r)) -> tidies (f ≫= g).
Proof. intros Hf Hg t Ht. unfold mbind, SM_bind. specialize (Hf t Ht). destruct (f t) as [r t1]. by apply Hg. Qed.

Lemma tidies_same {A} (f : SM A) : (forall t, a_clients (snd (f t)) = a_clients t) -> tidies f.
Proof. intros H t Ht c y. rewrite H. apply Ht. Qed.

Lemma tidies_assign c f : (forall y, tidy_client y -> tidy_client (f y)) -> tidies (s_assign c f).
Proof. intros H t Ht d y Hy. simpl in Hy. apply lookup_alter_Some in Hy as [(-> & y0 & Hy0 & ->) | [_ Hy]]; eauto. Qed.

Lemma tidies_touch u : tidies (s_touch u).
Proof. intros t Ht c y Hy. simpl in Hy. rewrite lookup_fmap in Hy. apply fmap_Some in Hy as (y0 & Hy0 & ->). specialize (Ht c y0 Hy0). by destruct (hits u _). Qed.

Lemma tidies_touches l : tidies (s_touches l).
Proof. induction l; [by apply tidies_same |]. apply tidies_bind; [apply tidies_touch | done]. Qed.

Lemma tidies_if {A} (b : bool) (f g : SM A) : tidies f -> tidies g -> tidies (if b then f else g).
Proof. by destruct b. Qed.

Ltac tidies := repeat (intros; first [apply tidies_bind | apply tidies_if | apply tidies_touches | apply tidies_assign; done
  | by apply tidies_same | assumption]).

Lemma tidies_queued c cmd argv : tidies (s_queued run_data c cmd argv).
Proof. destruct cmd; unfold s_queued, s_data, s_unwatchCommand, s_unwatch, s_reply; tidies. Qed.

Lemma tidies_call c p : tidies p -> tidies (s_call_with c p).
Proof. intros Hp. unfold s_call_with. tidies. Qed.

Lemma tidies_exec_loop c l b : tidies (s_exec_loop run_data readonly c l b).
Proof.
  revert b. induction l as [|mc l IH]; intros b; [by apply tidies_same |]. cbn [s_exec_loop].
  apply tidies_bind; [tidies |]. intros r. apply tidies_bind; [apply tidies_call, tidies_queued | done].
Qed.

Lemma tidies_watch_keys c l : tidies (s_watch_keys c l).
Proof. induction l; [by apply tidies_same |]. apply tidies_bind; [by apply tidies_assign | done]. Qed.

Lemma tidies_proc c cmd argv : tidies (s_proc run_data readonly c cmd argv).
Proof.
  pose proof (tidies_exec_loop c). pose proof (tidies_watch_keys c).
  destruct cmd; [| | | | apply (tidies_queued c CUnwatch) | apply (tidies_queued c (CData x))];
    unfold s_proc, s_execCommand, s_error, s_discard, s_unwatch, s_reply; tidies; auto.
Qed.

Lemma tidies_handle c r : tidies (s_handle run_data readonly c r).
Proof.
  destruct r as [cmd argv|why err| |dbid]; cbn [s_handle].
  - intros t Ht. unfold s_processCommand. destruct (a_clients t !! c) as [y|] eqn:Hy.
    + rewrite (s_deref_run c y _ t Hy). destruct (a_multi y && queueable cmd) eqn:Em; [| by apply tidies_call; [apply tidies_proc |]].
      apply andb_true_iff in Em as [Em _]. intros d z. simpl.
      destruct (decide (d = c)) as [->|]; [| rewrite !lookup_alter_ne by done; apply Ht].
      rewrite !lookup_alter_eq, Hy. intros [= <-] Hz. simpl in Hz. congruence.
    + unfold mbind at 1, SM_bind at 1. cbn [s_deref]. rewrite Hy. by apply tidies_call; [apply tidies_proc |].
  - unfold s_reply. apply tidies_bind; [| by intros; apply tidies_assign]. destruct (flags_transaction why); [| by apply tidies_same].
    apply tidies_assign. intros y Hy Hm. destruct (a_multi y) eqn:E; [done | auto].
  - intros t Ht d y Hy. cbn in Hy. apply lookup_delete_Some in Hy as [_ Hy]. by apply (Ht d).
  - intros t Ht d y Hy. cbn in Hy. apply lookup_insert_Some in Hy as [[_ <-] | [_ Hy]]; [done | by apply (Ht d)].
Qed.

Lemma tidies_handle_all l : tidies (s_handle_all run_data readonly l).
Proof. induction l as [|[c r] l IH]; [by apply tidies_same |]. apply tidies_bind; [apply tidies_handle | done]. Qed.

(** ** States that requests reach *)

Lemma absc_lookup c x s : clients s !! c = Some x -> a_clients (abs s) !! c = Some (absc x).
Proof. intros Hx. simpl. by rewrite lookup_fmap, Hx. Qed.

Lemma absc_lookup_inv c y s : a_clients (abs s) !! c = Some y -> exists x, clients s !! c = Some x /\ y = absc x.
Proof. simpl. rewrite lookup_fmap. intros (x & Hx & ->)%fmap_Some. by exists x. Qed.

Lemma reached k l1 l2 s :
  requests_ok run_data readonly (l1 ++ l2) (abs (init_server k)) -> handle_all run_data readonly l1 (init_server k) = Some (tt, s) ->
  minv s /\ requests_ok run_data readonly l2 (abs s) /\ tidy (abs s).
Proof.
  intros Hl E. apply s_handle_all_app in Hl as [Hl1 Hl2].
  destruct (handle_all_run l1 (init_server k) (minv_init k) Hl1) as (s0 & E0 & Es0 & I). rewrite E in E0. injection E0 as <-.
  pose proof (tidies_handle_all l1 (abs (init_server k))) as Ht. rewrite Es0 in Hl2, Ht. split; [done |]. split; [done |].
  apply Ht. intros c y Hy. simpl in Hy. by rewrite lookup_fmap, lookup_empty in Hy.
Qed.

(** EXEC of a client that is in a transaction. *)
Lemma exec_run c argv x s :
  minv s -> clients s !! c = Some x -> has x REDIS_MULTI = true ->
  exists s' x', handle run_data readonly c (Request CExec argv) s = Some (tt, s') /\ clients s' !! c = Some x' /\
    (keyspace s', reply x', c_dbid x') = exec_result (absc x) (keyspace s) /\
    has x' REDIS_MULTI = false /\ commands x' = [] /\ watched_keys x' = [].
Proof.
  intros I Hx Hm. pose proof (absc_lookup c x s Hx) as Hy.
  destruct (handle_run c (Request CExec argv) s I) as (s' & E & Es & _). { unfold request_ok. by rewrite Hy. }
  pose proof (shows_exec c argv (absc x) (abs s) Hy Hm) as H. pose proof (over_exec c argv (absc x) (abs s) Hy Hm) as Ho.
  change (a_keyspace (abs s)) with (keyspace s) in H. rewrite Es in H, Ho. destruct (exec_result (absc x) (keyspace s)) as [[k r] db].
  destruct H as (<- & y & Hy' & <- & <-). specialize (Ho y Hy'). apply absc_lookup_inv in Hy' as (x' & Hx' & ->).
  exists s', x'. do 3 (split; [done |]). injection Ho as Hmu _ _ Hq Hw. do 2 (split; [done |]). by apply watch_set_empty.
Qed.

End Refine.
