(* ===== verification/MultiThms.v ===== *)
(** * multi.c: theorems

    The server of Multi refines its specification from the empty state, and EXEC after a
    WATCH, at the level of the code.  The last part is an example: a counter for each server,
    and one command that adds to it. *)

From Stdlib Require Import Ascii String.
From S2P Require Import Prelude Util Sds Server ServerFacts ObjFacts Multi MultiFacts.

Section Theorems.
Context {K data : Type}.
Context (run_data : data -> Z -> list (list Z) -> K -> @outcome K) (readonly : data -> bool).
Implicit Types (s : @mserver K data) (x : @client data).

(** C6. The transactions implement their specification: from an empty server, requests of
    clients that are connected never fail an assertion, and what a client sees, the
    keyspace, server.dirty, what is propagated and what is touched are those of the
    specification, in which a client has a set of watched keys and three booleans, and a
    touch marks the clients whose set it hits. *)
Theorem transactions_refine k l :
  requests_ok run_data readonly l (abs (init_server k)) ->
  exists s', handle_all run_data readonly l (init_server k) = Some (tt, s') /\
    abs s' = snd (s_handle_all run_data readonly l (abs (init_server k))) /\ minv s'.
Proof.
  intros Hl. destruct (handle_all_run run_data readonly l (init_server k) (minv_init k) Hl) as (s' & E & Es & I). exists s'. by rewrite Es.
Qed.

(** C7. WATCH detects. In any state that requests reach, let a client that is not in a
    transaction send WATCH; then let the others send any requests, and the client itself
    MULTI (once or more), commands on the data before and after it, and requests that
    processCommand refuses. EXEC then runs the whole queue, the commands sent since MULTI,
    in order and with nothing between, if and only if no refusal flagged the transaction,
    the client was not marked by a touch of the keys that it watched before, and no touch
    since WATCH, by whoever, concerns a key that it watches; in the other cases the keyspace
    is as it was. The replies are the ones of each case, and the transaction and the watch
    are over. A refusal flags when it comes after MULTI and [flags_transaction] says so: a
    command refused as a write to a read only slave, in the context of Pub/Sub or while
    loading does not. *)
Theorem watch_detects k l1 l2 c wargv argv s x refused q :
  requests_ok run_data readonly (l1 ++ (c, Request CWatch wargv) :: l2) (abs (init_server k)) ->
  handle_all run_data readonly l1 (init_server k) = Some (tt, s) ->
  clients s !! c = Some x -> has x REDIS_MULTI = false ->
  Forall (in_window c) l2 -> fold_left (window_step c) l2 (false, false, []) = (true, refused, q) ->
  let watched := list_to_set (map (pair (c_dbid x)) (drop 1 wargv)) ∪ watch_set x in
  exists s1 x1 new s2 x2,
    handle_all run_data readonly ((c, Request CWatch wargv) :: l2) s = Some (tt, s1) /\ clients s1 !! c = Some x1 /\
    touches s1 = touches s ++ new /\
    handle run_data readonly c (Request CExec argv) s1 = Some (tt, s2) /\ clients s2 !! c = Some x2 /\
    (keyspace s2, reply x2, c_dbid x2) =
      (if refused then (keyspace s1, reply x1 ++ shared_execaborterr, c_dbid x1)
       else if has x REDIS_DIRTY_CAS || existsb (fun u => hits u watched) new then
         (keyspace s1, reply x1 ++ shared_nullmultibulk, c_dbid x1)
       else let '(k', r, db) := run_queue run_data q (c_dbid x1) (keyspace s1) in
         (k', reply x1 ++ r_num ch_star (zlen q) ++ r, db)) /\
    has x2 REDIS_MULTI = false /\ commands x2 = [] /\ watched_keys x2 = [].
Proof.
  intros Hl E Hx Hm Hc Hw watched.
  destruct (reached run_data readonly k l1 ((c, Request CWatch wargv) :: l2) s Hl E) as (I & Hl2 & Hy).
  destruct (handle_all_run run_data readonly _ s I Hl2) as (s1 & E1 & Es1 & I1).
  pose proof (watch_window run_data readonly c wargv l2 (abs s) (absc x) Hc (absc_lookup c x s Hx) Hm) as H. rewrite Es1 in H.
  destruct H as (new & y1 & Ht & Hy1 & Hcas & Hwin). apply absc_lookup_inv in Hy1 as (x1 & Hx1 & ->).
  destruct (Hy c (absc x) (absc_lookup c x s Hx) Hm) as [Ha Hq]. unfold the_window in Hwin. change (has x REDIS_MULTI) with (a_multi (absc x)) in Hm. rewrite Hm, Ha, Hq, Hw in Hwin. injection Hwin as Hm1 Ha1 Hq1.
  destruct (exec_run run_data readonly c argv x1 s1 I1 Hx1 Hm1) as (s2 & x2 & E2 & Hx2 & Er & Ho).
  exists s1, x1, new, s2, x2. do 5 (split; [done |]). split; [| done]. rewrite Er. unfold exec_result. cbn [absc a_abort a_cas a_queue a_reply a_cdb] in *. by rewrite Ha1, Hcas, Hq1.
Qed.

End Theorems.

(** ** An example *)

(** INCR of a key, on a keyspace that is one number. *)
Definition demo_run (d : unit) (db : Z) (argv : list (list Z)) (k : Z) : outcome :=
  Outcome (k + 1) [TouchKey db (nth 1 argv [])] (r_int (k + 1)) 1 argv db.

Definition demo_key : list Z := str "k".
Definition demo_incr : @request unit := Request (CData tt) [str "INCR"; demo_key].

Definition demo_clients : list (nat * @request unit) := [(1%nat, Connect 0); (2%nat, Connect 0)].
Definition demo_watch : nat * @request unit := (1%nat, Request CWatch [str "WATCH"; demo_key]).
Definition demo_multi : nat * @request unit := (1%nat, Request CMulti [str "MULTI"]).
Definition demo_exec : nat * @request unit := (1%nat, Request CExec [str "EXEC"]).

Definition roslaveerr : list Z := str "-READONLY You can't write against a read only slave." ++ crlf.

(** After the WATCH of client 1: client 2 sends INCR, and client 1 MULTI, a command that is
    refused as a write to a slave, and INCR. *)
Definition demo_window : list (nat * @request unit) :=
  [(2%nat, demo_incr); demo_multi; (1%nat, Refused ReadOnlySlave roslaveerr); (1%nat, demo_incr)].

Definition demo_run_all (l : list (nat * @request unit)) := handle_all demo_run (fun _ => false) l (init_server 0).
Definition demo_state : mserver := default (init_server 0) (snd <$> demo_run_all demo_clients).
Definition demo_client : client := default (Client 0 [] [] 0 []) (clients demo_state !! 1%nat).

Definition replies_of (o : option (unit * @mserver Z unit)) (c : nat) : list Z :=
  default [] (s ← snd <$> o; reply <$> clients s !! c).

Lemma transactions_refine_witness :
  let l := demo_clients ++ demo_watch :: demo_window ++ [(2%nat, demo_incr); demo_exec; (2%nat, Disconnect)] in
  requests_ok demo_run (fun _ => false) l (abs (init_server 0)) /\
  exists s', handle_all demo_run (fun _ => false) l (init_server 0) = Some (tt, s') /\
    abs s' = snd (s_handle_all demo_run (fun _ => false) l (abs (init_server 0))) /\ minv s'.
Proof.
  intros l. assert (H : requests_ok demo_run (fun _ => false) l (abs (init_server 0))) by (vm_compute; repeat split).
  split; [exact H | exact (transactions_refine demo_run (fun _ => false) 0 l H)].
Defined.

(** The INCR of client 2, before MULTI, is seen: the counter stays at 1 and the reply is
    nil; the refusal aborts nothing. *)
Lemma watch_detects_witness :
  exists s1 x1 new s2 x2,
    handle_all demo_run (fun _ => false) (demo_watch :: demo_window) demo_state = Some (tt, s1) /\ clients s1 !! 1%nat = Some x1 /\
    touches s1 = touches demo_state ++ new /\
    handle demo_run (fun _ => false) 1 (Request CExec [str "EXEC"]) s1 = Some (tt, s2) /\ clients s2 !! 1%nat = Some x2 /\
    (keyspace s2, reply x2, c_dbid x2) =
      (if has demo_client REDIS_DIRTY_CAS || existsb (fun u => hits u (list_to_set (map (pair 0) [demo_key]) ∪ watch_set demo_client)) new then
         (keyspace s1, reply x1 ++ shared_nullmultibulk, c_dbid x1)
       else let '(k', r, db) := run_queue demo_run [MultiCmd (CData tt) [str "INCR"; demo_key]] (c_dbid x1) (keyspace s1) in
         (k', reply x1 ++ r_num ch_star 1 ++ r, db)) /\
    has x2 REDIS_MULTI = false /\ commands x2 = [] /\ watched_keys x2 = [].
Proof.
  apply (watch_detects demo_run (fun _ => false) 0 demo_clients demo_window 1 [str "WATCH"; demo_key] [str "EXEC"] demo_state demo_client
    false [MultiCmd (CData tt) [str "INCR"; demo_key]]).
  - vm_compute; repeat split.
  - vm_compute; reflexivity.
  - vm_compute; reflexivity.
  - vm_compute; reflexivity.
  - repeat apply List.Forall_cons; [by left | by right | by right | by right | apply List.Forall_nil].
  - vm_compute; reflexivity.
Defined.

(** With an INCR of client 2 before MULTI, and after it, and without it. *)
Example demo_aborted :
  replies_of (demo_run_all (demo_clients ++ demo_watch :: demo_window ++ [demo_exec])) 1
  = shared_ok ++ shared_ok ++ roslaveerr ++ shared_queued ++ shared_nullmultibulk.
Proof. vm_compute. reflexivity. Qed.

Example demo_aborted_late :
  replies_of (demo_run_all (demo_clients ++ [demo_watch; demo_multi; (1%nat, demo_incr); (2%nat, demo_incr); demo_exec])) 1
  = shared_ok ++ shared_ok ++ shared_queued ++ shared_nullmultibulk.
Proof. vm_compute. reflexivity. Qed.

Example demo_executed :
  replies_of (demo_run_all (demo_clients ++ [demo_watch; demo_multi; (1%nat, demo_incr); demo_exec])) 1
  = shared_ok ++ shared_ok ++ shared_queued ++ r_num ch_star 1 ++ r_int 1.
Proof. vm_compute. reflexivity. Qed.

(** A refusal that flags aborts the transaction; one that does not leaves a transaction
    that runs without the command that was refused, although the comment of flagTransaction says
    that it is called on every error. *)
Theorem readonly_not_flagged :
  let run why := replies_of (demo_run_all (demo_clients ++ [demo_multi; (1%nat, Refused why roslaveerr); (1%nat, demo_incr); demo_exec])) 1 in
  run NotEnoughReplicas = shared_ok ++ roslaveerr ++ shared_queued ++ shared_execaborterr /\
  run ReadOnlySlave = shared_ok ++ roslaveerr ++ shared_queued ++ r_num ch_star 1 ++ r_int 1.
Proof. vm_compute. split; reflexivity. Qed.
