(* ===== verification/Aof.v ===== *)
(** * aof.c: the append only file

    Commands as bytes, the buffer of the file and its writes, the rewriting by a child
    with the buffer of differences, and the loading.  The data and the effect of a command
    on it are parameters; arguments are the bytes of their objects. *)

From Stdlib Require Import Ascii String.
From S2P Require Import Prelude Util Sds Server.

(** ** Commands as bytes *)

(** What the code tests of a command: [cmd->proc]. *)
Inductive proc := ProcExpire | ProcPexpire | ProcExpireat | ProcSetex | ProcPsetex | ProcOther.
#[global] Instance proc_eq_dec : EqDecision proc.
Proof. solve_decision. Defined.

(** The text of ll2string in the buffer [buf\[32\]], after its first character. *)
Definition catAppendOnlyGenericCommand (dst : list Z) (argv : list (list Z)) : option (list Z) :=
  n ← ll_text 31 (swrap 32 (zlen argv));
  foldl (fun acc o =>
    dst ← acc;
    n ← ll_text 31 (zlen o);
    Some (dst ++ [36] ++ n ++ crlf ++ o ++ crlf)) (Some (dst ++ [42] ++ n ++ crlf)) argv.

(** The time of PEXPIREAT: strtoll of the argument, in milliseconds, made absolute. *)
Definition expire_when (cmd : proc) (seconds : list Z) (mstime : Z) : option Z :=
  '(when, _, _) ← strtoll (seconds ++ [0]);
  let when := if bool_decide (cmd = ProcExpire) || bool_decide (cmd = ProcSetex) || bool_decide (cmd = ProcExpireat)
              then swrap 64 (when * 1000) else when in
  Some (if bool_decide (cmd = ProcExpire) || bool_decide (cmd = ProcPexpire) || bool_decide (cmd = ProcSetex) || bool_decide (cmd = ProcPsetex)
        then swrap 64 (when + mstime) else when).

Definition catAppendOnlyExpireAtCommand (buf : list Z) (cmd : proc) (key seconds : list Z) (mstime : Z) : option (list Z) :=
  when ← expire_when cmd seconds mstime;
  t ← ll_text 32 when;
  catAppendOnlyGenericCommand buf [str "PEXPIREAT"; key; t].

(** The text of SELECT; sprintf writes the decimal digits of its arguments. *)
Definition select_text (dictid : Z) : option (list Z) :=
  seldb ← Num.ll_chars dictid;
  n ← Num.ll_chars (zlen seldb);
  Some (str "*2" ++ crlf ++ str "$6" ++ crlf ++ str "SELECT" ++ crlf ++ [36] ++ n ++ crlf ++ seldb ++ crlf).

Definition command_text (buf : list Z) (cmd : proc) (argv : list (list Z)) (mstime : Z) : option (list Z) :=
  if bool_decide (cmd = ProcExpire) || bool_decide (cmd = ProcPexpire) || bool_decide (cmd = ProcExpireat) then
    key ← argv !! 1%nat; seconds ← argv !! 2%nat;
    catAppendOnlyExpireAtCommand buf cmd key seconds mstime
  else if bool_decide (cmd = ProcSetex) || bool_decide (cmd = ProcPsetex) then
    key ← argv !! 1%nat; seconds ← argv !! 2%nat; value ← argv !! 3%nat;
    buf ← catAppendOnlyGenericCommand buf [str "SET"; key; value];
    catAppendOnlyExpireAtCommand buf cmd key seconds mstime
  else catAppendOnlyGenericCommand buf argv.

(** ** The rewrite buffer *)

Definition AOF_RW_BUF_BLOCK_SIZE : Z := 1024 * 1024 * 10.

(** [buf] has the first [used] bytes of the block; the others are never read. *)
Record aofrwblock := AofRwBlock { used : Z; free : Z; buf : list Z }.

Definition aofRewriteBufferSize (blocks : list aofrwblock) : Z :=
  match last blocks with
  | None => 0
  | Some block => (zlen blocks - 1) * AOF_RW_BUF_BLOCK_SIZE + used block
  end.

(** One turn of the loop: a piece into the last block, and then a new block if bytes are left. *)
Definition append_piece (blocks : list aofrwblock) (s : list Z) (len : Z) : option (list aofrwblock * list Z * Z) :=
  '(blocks, s, len) ←
    match last blocks with
    | Some block =>
        let thislen := if free block <? len then free block else len in
        if thislen =? 0 then Some (blocks, s, len) else
        b ← rdn s 0 thislen;
        Some (removelast blocks ++ [AofRwBlock (used block + thislen) (free block - thislen) (buf block ++ b)],
              drop (Z.to_nat thislen) s, len - thislen)
    | None => Some (blocks, s, len)
    end;
  if len =? 0 then Some (blocks, s, len)
  else Some (blocks ++ [AofRwBlock 0 AOF_RW_BUF_BLOCK_SIZE []], s, len).

Fixpoint append_loop (fuel : nat) (blocks : list aofrwblock) (s : list Z) (len : Z) : option (list aofrwblock) :=
  if len =? 0 then Some blocks else
  match fuel with
  | O => None
  | S fuel => '(blocks, s, len) ← append_piece blocks s len; append_loop fuel blocks s len
  end.

Definition aofRewriteBufferAppend (blocks : list aofrwblock) (s : list Z) (len : Z) : option (list aofrwblock) :=
  append_loop (Z.to_nat len + 1) blocks s len.

(** ** The operating system: files, their names, the open descriptors *)

Inductive filename := AofFile | TempFile (pid : Z).
#[global] Instance filename_eq_dec : EqDecision filename.
Proof. solve_decision. Defined.

Record os := Os { inodes : gmap nat (list Z); aof_name : option nat; temp_names : gmap Z nat; fds : gmap Z nat }.

Definition lookup_name (o : os) (n : filename) : option nat :=
  match n with AofFile => aof_name o | TempFile pid => temp_names o !! pid end.
Definition set_name (n : filename) (i : option nat) (o : os) : os :=
  match n with
  | AofFile => Os (inodes o) i (temp_names o) (fds o)
  | TempFile pid => Os (inodes o) (aof_name o) (match i with None => delete pid (temp_names o) | Some i => <[pid := i]> (temp_names o) end) (fds o)
  end.
Definition set_inode (i : nat) (b : list Z) (o : os) : os := Os (<[i := b]> (inodes o)) (aof_name o) (temp_names o) (fds o).
Definition set_fds (m : gmap Z nat) (o : os) : os := Os (inodes o) (aof_name o) (temp_names o) m.

(** The lowest descriptor that is not open. *)
Definition lowest_fd (m : gmap Z nat) : Z :=
  default 0 (head (List.filter (fun fd => bool_decide (m !! fd = None)) (map Z.of_nat (seq 0 (S (size m)))))).

(** An inode that is not in use. *)
Definition fresh_inode (o : os) : nat := fresh (dom (inodes o)).

Definition REDIS_AOF_OFF : Z := 0.
Definition REDIS_AOF_ON : Z := 1.
Definition REDIS_AOF_WAIT_REWRITE : Z := 2.
Definition AOF_FSYNC_NO : Z := 0.
Definition AOF_FSYNC_ALWAYS : Z := 1.
Definition AOF_FSYNC_EVERYSEC : Z := 2.
Definition REDIS_OK : Z := 0.
Definition REDIS_ERR : Z := -1.

Section Aof.
Context {K : Type}.

(** [answers] is what the system will answer, in order; when it is empty every call
    succeeds.  [dataset] is the data of the server, and [child_data] the copy of it that
    the last child had when it was forked. *)
Record server := AofServer {
  aof_state : Z; aof_fsync : Z; aof_fd : Z; aof_selected_db : Z;
  aof_buf : list Z; aof_rewrite_buf_blocks : list aofrwblock; aof_child_pid : Z; rdb_child_pid : Z;
  aof_rewrite_scheduled : bool; aof_current_size : Z; aof_flush_postponed_start : Z; aof_last_write_status : Z;
  aof_lastbgrewrite_status : Z; unixtime : Z; system : os; answers : list Z;
  dataset : K; child_data : K }.

Definition set_aof_state (v : Z) (s : server) : server :=
  AofServer v (aof_fsync s) (aof_fd s) (aof_selected_db s) (aof_buf s) (aof_rewrite_buf_blocks s) (aof_child_pid s) (rdb_child_pid s)
    (aof_rewrite_scheduled s) (aof_current_size s) (aof_flush_postponed_start s) (aof_last_write_status s) (aof_lastbgrewrite_status s) (unixtime s)
    (system s) (answers s) (dataset s) (child_data s).
Definition set_aof_fd (v : Z) (s : server) : server :=
  AofServer (aof_state s) (aof_fsync s) v (aof_selected_db s) (aof_buf s) (aof_rewrite_buf_blocks s) (aof_child_pid s) (rdb_child_pid s)
    (aof_rewrite_scheduled s) (aof_current_size s) (aof_flush_postponed_start s) (aof_last_write_status s) (aof_lastbgrewrite_status s) (unixtime s)
    (system s) (answers s) (dataset s) (child_data s).
Definition set_aof_selected_db (v : Z) (s : server) : server :=
  AofServer (aof_state s) (aof_fsync s) (aof_fd s) v (aof_buf s) (aof_rewrite_buf_blocks s) (aof_child_pid s) (rdb_child_pid s) (aof_rewrite_scheduled
    s) (aof_current_size s) (aof_flush_postponed_start s) (aof_last_write_status s) (aof_lastbgrewrite_status s) (unixtime s) (system s) (answers s)
    (dataset s) (child_data s).
Definition set_aof_buf (v : list Z) (s : server) : server :=
  AofServer (aof_state s) (aof_fsync s) (aof_fd s) (aof_selected_db s) v (aof_rewrite_buf_blocks s) (aof_child_pid s) (rdb_child_pid s)
    (aof_rewrite_scheduled s) (aof_current_size s) (aof_flush_postponed_start s) (aof_last_write_status s) (aof_lastbgrewrite_status s) (unixtime s)
    (system s) (answers s) (dataset s) (child_data s).
Definition set_aof_rewrite_buf_blocks (v : list aofrwblock) (s : server) : server :=
  AofServer (aof_state s) (aof_fsync s) (aof_fd s) (aof_selected_db s) (aof_buf s) v (aof_child_pid s) (rdb_child_pid s) (aof_rewrite_scheduled s)
    (aof_current_size s) (aof_flush_postponed_start s) (aof_last_write_status s) (aof_lastbgrewrite_status s) (unixtime s) (system s) (answers s) (dataset
    s) (child_data s).
Definition set_aof_child_pid (v : Z) (s : server) : server :=
  AofServer (aof_state s) (aof_fsync s) (aof_fd s) (aof_selected_db s) (aof_buf s) (aof_rewrite_buf_blocks s) v (rdb_child_pid s) (aof_rewrite_scheduled
    s) (aof_current_size s) (aof_flush_postponed_start s) (aof_last_write_status s) (aof_lastbgrewrite_status s) (unixtime s) (system s) (answers s)
    (dataset s) (child_data s).
Definition set_aof_rewrite_scheduled (v : bool) (s : server) : server :=
  AofServer (aof_state s) (aof_fsync s) (aof_fd s) (aof_selected_db s) (aof_buf s) (aof_rewrite_buf_blocks s) (aof_child_pid s) (rdb_child_pid s) v
    (aof_current_size s) (aof_flush_postponed_start s) (aof_last_write_status s) (aof_lastbgrewrite_status s) (unixtime s) (system s) (answers s) (dataset
    s) (child_data s).
Definition set_aof_current_size (v : Z) (s : server) : server :=
  AofServer (aof_state s) (aof_fsync s) (aof_fd s) (aof_selected_db s) (aof_buf s) (aof_rewrite_buf_blocks s) (aof_child_pid s) (rdb_child_pid s)
    (aof_rewrite_scheduled s) v (aof_flush_postponed_start s) (aof_last_write_status s) (aof_lastbgrewrite_status s) (unixtime s) (system s) (answers s)
    (dataset s) (child_data s).
Definition set_aof_flush_postponed_start (v : Z) (s : server) : server :=
  AofServer (aof_state s) (aof_fsync s) (aof_fd s) (aof_selected_db s) (aof_buf s) (aof_rewrite_buf_blocks s) (aof_child_pid s) (rdb_child_pid s)
    (aof_rewrite_scheduled s) (aof_current_size s) v (aof_last_write_status s) (aof_lastbgrewrite_status s) (unixtime s) (system s) (answers s) (dataset
    s) (child_data s).
Definition set_aof_last_write_status (v : Z) (s : server) : server :=
  AofServer (aof_state s) (aof_fsync s) (aof_fd s) (aof_selected_db s) (aof_buf s) (aof_rewrite_buf_blocks s) (aof_child_pid s) (rdb_child_pid s)
    (aof_rewrite_scheduled s) (aof_current_size s) (aof_flush_postponed_start s) v (aof_lastbgrewrite_status s) (unixtime s) (system s) (answers s)
    (dataset s) (child_data s).
Definition set_aof_lastbgrewrite_status (v : Z) (s : server) : server :=
  AofServer (aof_state s) (aof_fsync s) (aof_fd s) (aof_selected_db s) (aof_buf s) (aof_rewrite_buf_blocks s) (aof_child_pid s) (rdb_child_pid s)
    (aof_rewrite_scheduled s) (aof_current_size s) (aof_flush_postponed_start s) (aof_last_write_status s) v (unixtime s) (system s) (answers s) (dataset
    s) (child_data s).
Definition set_unixtime (v : Z) (s : server) : server :=
  AofServer (aof_state s) (aof_fsync s) (aof_fd s) (aof_selected_db s) (aof_buf s) (aof_rewrite_buf_blocks s) (aof_child_pid s) (rdb_child_pid s)
    (aof_rewrite_scheduled s) (aof_current_size s) (aof_flush_postponed_start s) (aof_last_write_status s) (aof_lastbgrewrite_status s) v (system s)
    (answers s) (dataset s) (child_data s).
Definition set_system (v : os) (s : server) : server :=
  AofServer (aof_state s) (aof_fsync s) (aof_fd s) (aof_selected_db s) (aof_buf s) (aof_rewrite_buf_blocks s) (aof_child_pid s) (rdb_child_pid s)
    (aof_rewrite_scheduled s) (aof_current_size s) (aof_flush_postponed_start s) (aof_last_write_status s) (aof_lastbgrewrite_status s) (unixtime s) v
    (answers s) (dataset s) (child_data s).
Definition set_answers (v : list Z) (s : server) : server :=
  AofServer (aof_state s) (aof_fsync s) (aof_fd s) (aof_selected_db s) (aof_buf s) (aof_rewrite_buf_blocks s) (aof_child_pid s) (rdb_child_pid s)
    (aof_rewrite_scheduled s) (aof_current_size s) (aof_flush_postponed_start s) (aof_last_write_status s) (aof_lastbgrewrite_status s) (unixtime s)
    (system s) v (dataset s) (child_data s).
Definition set_dataset (v : K) (s : server) : server :=
  AofServer (aof_state s) (aof_fsync s) (aof_fd s) (aof_selected_db s) (aof_buf s) (aof_rewrite_buf_blocks s) (aof_child_pid s) (rdb_child_pid s)
    (aof_rewrite_scheduled s) (aof_current_size s) (aof_flush_postponed_start s) (aof_last_write_status s) (aof_lastbgrewrite_status s) (unixtime s)
    (system s) (answers s) v (child_data s).
Definition set_child_data (v : K) (s : server) : server :=
  AofServer (aof_state s) (aof_fsync s) (aof_fd s) (aof_selected_db s) (aof_buf s) (aof_rewrite_buf_blocks s) (aof_child_pid s) (rdb_child_pid s)
    (aof_rewrite_scheduled s) (aof_current_size s) (aof_flush_postponed_start s) (aof_last_write_status s) (aof_lastbgrewrite_status s) (unixtime s)
    (system s) (answers s) (dataset s) v.

(** A result, the end of the process by exit(), or a failed assertion or a bad access. *)
Inductive outcome (A : Type) := Ret (x : A) (s : server) | Exit (s : server) | Crash.
#[global] Arguments Ret {A}.
#[global] Arguments Exit {A}.
#[global] Arguments Crash {A}.

Definition M (A : Type) : Type := server -> outcome A.
#[global] Instance M_ret : MRet M := fun A x s => Ret x s.
#[global] Instance M_bind : MBind M := fun A B f m s => match m s with Ret x s => f x s | Exit s => Exit s | Crash => Crash end.

Definition get {A} (f : server -> A) : M A := fun s => Ret (f s) s.
Definition upd (f : server -> server) : M unit := fun s => Ret tt (f s).
Definition lift {A} (o : option A) : M A := fun s => match o with Some x => Ret x s | None => Crash end.
Definition redisAssert (b : bool) : M unit := fun s => if b then Ret tt s else Crash.
Definition exit {A} : M A := fun s => Exit s.

(** ** System calls *)

Definition answer : M (option Z) := fun s =>
  match answers s with [] => Ret None s | a :: l => Ret (Some a) (set_answers l s) end.
Definition os_upd (f : os -> os) : M unit := upd (fun s => set_system (f (system s)) s).

(** Whether the next answer is an error. *)
Definition fails : M bool := a ← answer; mret (match a with Some a => a <? 0 | None => false end).

Definition new_fd (i : nat) : M Z :=
  m ← get (fun s => fds (system s));
  _ ← os_upd (set_fds (<[lowest_fd m := i]> m));
  mret (lowest_fd m).

Definition open_file (n : filename) (creat : bool) : M Z :=
  e ← fails;
  if e : bool then mret (-1) else
  i ← get (fun s => lookup_name (system s) n);
  match i with
  | Some i => new_fd i
  | None =>
      if creat then
        i ← get (fun s => fresh_inode (system s));
        _ ← os_upd (fun o => set_name n (Some i) (set_inode i [] o));
        new_fd i
      else mret (-1)
  end.

Definition close (fd : Z) : M unit := os_upd (fun o => set_fds (delete fd (fds o)) o).

(** write() at the end of the file; all descriptors here are opened with O_APPEND. *)
Definition write (fd : Z) (b : list Z) : M Z :=
  a ← answer;
  o ← get system;
  match fds o !! fd with
  | None => mret (-1)
  | Some i =>
      let n := match a with Some a => if a <? 0 then -1 else Z.min a (zlen b) | None => zlen b end in
      if n <? 0 then mret (-1) else
      _ ← os_upd (set_inode i (default [] (inodes o !! i) ++ take (Z.to_nat n) b));
      mret n
  end.

Definition ftruncate (fd len : Z) : M Z :=
  e ← fails;
  o ← get system;
  match fds o !! fd with
  | None => mret (-1)
  | Some i =>
      if e : bool then mret (-1) else
      let b := default [] (inodes o !! i) in
      _ ← os_upd (set_inode i (take (Z.to_nat len) b ++ replicate (Z.to_nat len - length b) 0));
      mret 0
  end.

(** The size, or an error; [err] is the answer of the system. *)
Definition fstat (fd : Z) (err : bool) : M (option Z) :=
  o ← get system;
  mret (if err then None else i ← fds o !! fd; Some (zlen (default [] (inodes o !! i)))).

Definition rename (old new : filename) : M Z :=
  e ← fails;
  i ← get (fun s => lookup_name (system s) old);
  match i with
  | None => mret (-1)
  | Some i => if e : bool then mret (-1) else _ ← os_upd (fun o => set_name new (Some i) (set_name old None o)); mret 0
  end.

Definition unlink (n : filename) : M unit := os_upd (set_name n None).

(** ** Feeding *)

Definition feedAppendOnlyFile (cmd : proc) (dictid : Z) (argv : list (list Z)) (mstime : Z) : M unit :=
  sel ← get aof_selected_db;
  buf ← (if negb (dictid =? sel) then b ← lift (select_text dictid); _ ← upd (set_aof_selected_db dictid); mret b else mret []);
  buf ← lift (command_text buf cmd argv mstime);
  st ← get aof_state;
  _ ← (if st =? REDIS_AOF_ON then upd (fun s => set_aof_buf (aof_buf s ++ buf) s) else mret tt);
  pid ← get aof_child_pid;
  if negb (pid =? -1) then
    blocks ← get aof_rewrite_buf_blocks;
    blocks ← lift (aofRewriteBufferAppend blocks buf (zlen buf));
    upd (set_aof_rewrite_buf_blocks blocks)
  else mret tt.

(** The part of propagate() on the file. *)
Definition propagate (cmd : proc) (dbid : Z) (argv : list (list Z)) (mstime : Z) : M unit :=
  st ← get aof_state;
  if negb (st =? REDIS_AOF_OFF) then feedAppendOnlyFile cmd dbid argv mstime else mret tt.

Definition aofRewriteBufferReset : M unit := upd (set_aof_rewrite_buf_blocks []).

(** The loop on the blocks; -1 after an error. *)
Fixpoint write_blocks (fd : Z) (blocks : list aofrwblock) (count : Z) : M Z :=
  match blocks with
  | [] => mret count
  | block :: blocks =>
      if negb (used block =? 0) then
        nwritten ← write fd (buf block);
        if negb (nwritten =? used block) then mret (-1) else write_blocks fd blocks (count + nwritten)
      else write_blocks fd blocks count
  end.

Definition aofRewriteBufferWrite (fd : Z) : M Z := blocks ← get aof_rewrite_buf_blocks; write_blocks fd blocks 0.

(** ** Flushing *)

(** The part on a write that failed or was short: the end of the process, or the buffer
    without the bytes that are in the file. *)
Definition write_failed (nwritten : Z) : M unit :=
  fd ← get aof_fd;
  size ← get aof_current_size;
  nwritten ← (if nwritten =? -1 then mret nwritten
              else r ← ftruncate fd size; mret (if r =? -1 then nwritten else -1));
  policy ← get aof_fsync;
  if policy =? AOF_FSYNC_ALWAYS then exit else
  _ ← upd (set_aof_last_write_status REDIS_ERR);
  if 0 <? nwritten then
    _ ← upd (set_aof_current_size (size + nwritten));
    upd (fun s => set_aof_buf (drop (Z.to_nat nwritten) (aof_buf s)) s)
  else mret tt.

Definition flushAppendOnlyFile (force : bool) : M unit :=
  b ← get aof_buf;
  if zlen b =? 0 then mret tt else
  policy ← get aof_fsync;
  sync_in_progress ← (if policy =? AOF_FSYNC_EVERYSEC then fails else mret false);
  start ← get aof_flush_postponed_start;
  now ← get unixtime;
  if (policy =? AOF_FSYNC_EVERYSEC) && negb force && sync_in_progress && (start =? 0) then upd (set_aof_flush_postponed_start now)
  else if (policy =? AOF_FSYNC_EVERYSEC) && negb force && sync_in_progress && (now - start <? 2) then mret tt
  else
    _ ← upd (set_aof_flush_postponed_start 0);
    fd ← get aof_fd;
    nwritten ← write fd b;
    if negb (nwritten =? zlen b) then write_failed nwritten
    else
      _ ← upd (set_aof_last_write_status REDIS_OK);
      _ ← upd (fun s => set_aof_current_size (aof_current_size s + nwritten) s);
      upd (set_aof_buf []).

(** ** Rewriting *)

(** The answer of fork() is the pid of the child, or an error. *)
Definition rewriteAppendOnlyFileBackground : M Z :=
  pid ← get aof_child_pid;
  if negb (pid =? -1) then mret REDIS_ERR else
  childpid ← answer;
  let childpid := default 1 childpid in
  if childpid <=? 0 then mret REDIS_ERR else
  _ ← upd (fun s => set_child_data (dataset s) s);
  _ ← upd (set_aof_rewrite_scheduled false);
  _ ← upd (set_aof_child_pid childpid);
  _ ← upd (set_aof_selected_db (-1));
  mret REDIS_OK.

(** The reply is the result. *)
Definition bgrewriteaofCommand : M (list Z) :=
  pid ← get aof_child_pid;
  rdb ← get rdb_child_pid;
  if negb (pid =? -1) then mret (str "-ERR Background append only file rewriting already in progress" ++ crlf)
  else if negb (rdb =? -1) then
    _ ← upd (set_aof_rewrite_scheduled true);
    mret (str "+Background append only file rewriting scheduled" ++ crlf)
  else
    r ← rewriteAppendOnlyFileBackground;
    mret (if r =? REDIS_OK then str "+Background append only file rewriting started" ++ crlf else str "-ERR" ++ crlf).

Definition aofRemoveTempFile (childpid : Z) : M unit := unlink (TempFile childpid).

Definition aofUpdateCurrentSize (err : bool) : M unit :=
  fd ← get aof_fd;
  r ← fstat fd err;
  match r with None => mret tt | Some n => upd (set_aof_current_size n) end.

Definition rewrite_cleanup : M unit :=
  _ ← aofRewriteBufferReset;
  pid ← get aof_child_pid;
  _ ← aofRemoveTempFile pid;
  _ ← upd (set_aof_child_pid (-1));
  st ← get aof_state;
  if st =? REDIS_AOF_WAIT_REWRITE then upd (set_aof_rewrite_scheduled true) else mret tt.

(** What follows a successful rename, up to the cleanup; [oldfd] is the one opened on the
    old file when the append only file is off.  The old file is closed in the background. *)
Definition rewrite_installed (newfd oldfd : Z) (fstat_err : bool) : M unit :=
  fd ← get aof_fd;
  oldfd ← (if fd =? -1 then _ ← close newfd; mret oldfd
           else
             _ ← upd (set_aof_fd newfd);
             _ ← upd (set_aof_selected_db (-1));
             _ ← aofUpdateCurrentSize fstat_err;
             _ ← upd (set_aof_buf []);
             mret fd);
  _ ← upd (set_aof_lastbgrewrite_status REDIS_OK);
  st ← get aof_state;
  _ ← (if st =? REDIS_AOF_WAIT_REWRITE then upd (set_aof_state REDIS_AOF_ON) else mret tt);
  if negb (oldfd =? -1) then close oldfd else mret tt.

Definition backgroundRewriteDoneHandler (exitcode bysignal : Z) (fstat_err : bool) : M unit :=
  _ ← (if (bysignal =? 0) && (exitcode =? 0) then
         pid ← get aof_child_pid;
         newfd ← open_file (TempFile pid) false;
         if newfd =? -1 then mret tt else
         r ← aofRewriteBufferWrite newfd;
         if r =? -1 then close newfd else
         fd ← get aof_fd;
         oldfd ← (if fd =? -1 then open_file AofFile false else mret (-1));
         r ← rename (TempFile pid) AofFile;
         if r =? -1 then _ ← close newfd; (if negb (oldfd =? -1) then close oldfd else mret tt)
         else rewrite_installed newfd oldfd fstat_err
       else upd (set_aof_lastbgrewrite_status REDIS_ERR));
  rewrite_cleanup.

(** ** Switching on and off *)

Definition startAppendOnly : M Z :=
  fd ← open_file AofFile true;
  _ ← upd (set_aof_fd fd);
  st ← get aof_state;
  _ ← redisAssert (st =? REDIS_AOF_OFF);
  if fd =? -1 then mret REDIS_ERR else
  r ← rewriteAppendOnlyFileBackground;
  if r =? REDIS_ERR then _ ← close fd; mret REDIS_ERR
  else _ ← upd (set_aof_state REDIS_AOF_WAIT_REWRITE); mret REDIS_OK.

Definition stopAppendOnly : M unit :=
  st ← get aof_state;
  _ ← redisAssert (negb (st =? REDIS_AOF_OFF));
  _ ← flushAppendOnlyFile true;
  fd ← get aof_fd;
  _ ← close fd;
  _ ← upd (set_aof_fd (-1));
  _ ← upd (set_aof_selected_db (-1));
  _ ← upd (set_aof_state REDIS_AOF_OFF);
  pid ← get aof_child_pid;
  if negb (pid =? -1) then
    _ ← aofRewriteBufferReset;
    _ ← aofRemoveTempFile pid;
    upd (set_aof_child_pid (-1))
  else mret tt.

(** ** What happens to the server *)

(** The parts of serverCron on the file: a scheduled rewrite, a postponed flush, and
    another try each second after an error. *)
Definition serverCron (now : Z) (every_second : bool) : M unit :=
  _ ← upd (set_unixtime now);
  rdb ← get rdb_child_pid;
  pid ← get aof_child_pid;
  scheduled ← get aof_rewrite_scheduled;
  _ ← (if (rdb =? -1) && (pid =? -1) && scheduled then _ ← rewriteAppendOnlyFileBackground; mret tt else mret tt);
  start ← get aof_flush_postponed_start;
  _ ← (if negb (start =? 0) then flushAppendOnlyFile false else mret tt);
  st ← get aof_last_write_status;
  if every_second && (st =? REDIS_ERR) then flushAppendOnlyFile false else mret tt.

(** A command that is propagated, with the data after it; the end of the loop of events;
    BGREWRITEAOF; the end of the child, with the file that it leaves; the cron. *)
Inductive event :=
| Fed (cmd : proc) (dbid : Z) (argv : list (list Z)) (mstime : Z) (after : K)
| BeforeSleep
| BgRewrite
| ChildExit (exitcode bysignal : Z) (dump : list Z) (fstat_err : bool)
| Cron (now : Z) (every_second : bool).

Definition handle (e : event) : M unit :=
  match e with
  | Fed cmd dbid argv mstime after => _ ← upd (set_dataset after); propagate cmd dbid argv mstime
  | BeforeSleep => flushAppendOnlyFile false
  | BgRewrite => _ ← bgrewriteaofCommand; mret tt
  | ChildExit exitcode bysignal dump fstat_err =>
      pid ← get aof_child_pid;
      if pid =? -1 then mret tt else
      i ← get (fun s => fresh_inode (system s));
      _ ← os_upd (fun o => set_name (TempFile pid) (Some i) (set_inode i dump o));
      backgroundRewriteDoneHandler exitcode bysignal fstat_err
  | Cron now every_second => serverCron now every_second
  end.

(** An event with the answers of the system to its calls. *)
Fixpoint handle_all (l : list (event * list Z)) : M unit :=
  match l with
  | [] => mret tt
  | (e, a) :: l => _ ← upd (set_answers a); _ ← handle e; handle_all l
  end.

(** The server after loadDataFromDisk: the file, with its bytes, open with a descriptor. *)
Definition start_server (policy : Z) (fd : Z) (b : list Z) (k : K) : server :=
  AofServer REDIS_AOF_ON policy fd (-1) [] [] (-1) (-1) false (zlen b) 0 REDIS_OK REDIS_OK 0
    (Os {[O := b]} (Some O) ∅ {[fd := O]}) [] k k.

End Aof.

(** ** Loading *)

Section Load.
Context {T : Type}.

(** The command of the table that the first argument names, run on the state of the fake
    client; [None] when there is no such command.  Whether the client is in MULTI. *)
Context (run : list (list Z) -> T -> option T) (in_multi : T -> bool).

Inductive loaded := Loaded (t : T) | EmptyFile | FmtErr | ReadErr | UnknownCommand (name : list Z).

(** fgets() in a buffer of [S n] bytes: the line, [\[\]] at the end of the file, and the rest. *)
Fixpoint fgets (n : nat) (f : list Z) : list Z * list Z :=
  match n, f with
  | S n, c :: f => if c =? 10 then ([c], f) else let '(l, r) := fgets n f in (c :: l, r)
  | _, _ => ([], f)
  end.

(** The loop on the arguments; [None] when the size of the string overflows. *)
Fixpoint read_args (argc : nat) (f : list Z) : option (loaded + list (list Z) * list Z) :=
  match argc with
  | O => Some (inr ([], f))
  | S argc =>
      let '(line, f) := fgets 127 f in
      if bool_decide (line = []) then Some (inl ReadErr) else
      if negb (hd 0 line =? 36) then Some (inl FmtErr) else
      '(v, _, _) ← strtoll (tl line ++ [0]);
      let len := uwrap 64 v in
      if 2 ^ 64 <=? len + 9 then None else
      if zlen f <? len then Some (inl FmtErr) else
      let o := take (Z.to_nat len) f in
      let f := drop (Z.to_nat len) f in
      if zlen f <? 2 then Some (inl FmtErr) else
      r ← read_args argc (drop 2 f);
      Some (match r with inl e => inl e | inr (args, f) => inr (o :: args, f) end)
  end.

Fixpoint load_loop (fuel : nat) (f : list Z) (t : T) : option loaded :=
  match fuel with
  | O => None
  | S fuel =>
      let '(line, f) := fgets 127 f in
      if bool_decide (line = []) then Some (if in_multi t then ReadErr else Loaded t) else
      if negb (hd 0 line =? 42) then Some FmtErr else
      argc ← atoi (tl line ++ [0]);
      if argc <? 1 then Some FmtErr else
      r ← read_args (Z.to_nat argc) f;
      match r with
      | inl e => Some e
      | inr (argv, f) =>
          match run argv t with
          | None => Some (UnknownCommand (hd [] argv))
          | Some t => load_loop fuel f t
          end
      end
  end.

Definition loadAppendOnlyFile (f : list Z) (t : T) : option loaded :=
  if zlen f =? 0 then Some EmptyFile else load_loop (S (length f)) f t.

End Load.
