(* ===== verification/AofFacts.v ===== *)
(** * The append only file: specification, and lemmas on its text and its buffers *)

From Stdlib Require Import Ascii String.
From S2P Require Import Prelude Util Sds Server ServerFacts ObjFacts Robj Network NetworkFacts Aof.

(** ** Specification: what is written for a command *)


Definition aof_command_ok (argv : list (list Z)) : Prop :=
  argv <> [] /\ zlen argv < 2 ^ 31 /\ Forall (fun a => zlen a < 2 ^ 31) argv.

(** The absolute time in milliseconds of an expiration. *)
Definition absolute_when (cmd : proc) (v now : Z) : Z :=
  match cmd with
  | ProcExpire | ProcSetex => v * 1000 + now
  | ProcExpireat => v * 1000
  | ProcPexpire | ProcPsetex => v + now
  | ProcOther => v
  end.

Definition pexpireat (key : list Z) (when : Z) : list (list Z) := [str "PEXPIREAT"; key; print when].
Definition select (db : Z) : list (list Z) := [str "SELECT"; print db].

(** The commands that are written for a command: those with a relative time get an
    absolute one; nothing is promised when the time is not an integer or does not fit. *)
Inductive translation (now : Z) : proc -> list (list Z) -> list (list (list Z)) -> Prop :=
| TrExpire cmd name key seconds v rest :
    cmd = ProcExpire \/ cmd = ProcPexpire \/ cmd = ProcExpireat ->
    parse_ll seconds = Some v -> in_s 64 (v * 1000) -> in_s 64 (absolute_when cmd v now) ->
    translation now cmd (name :: key :: seconds :: rest) [pexpireat key (absolute_when cmd v now)]
| TrSetex cmd name key seconds value v rest :
    cmd = ProcSetex \/ cmd = ProcPsetex ->
    parse_ll seconds = Some v -> in_s 64 (v * 1000) -> in_s 64 (absolute_when cmd v now) ->
    translation now cmd (name :: key :: seconds :: value :: rest) [[str "SET"; key; value]; pexpireat key (absolute_when cmd v now)]
| TrOther argv : translation now ProcOther argv [argv].

(** ** Lemmas: texts *)

Lemma dec_print n : NetworkSpec.dec n = print n.
Proof. done. Qed.

(** The arguments, one after the other; the buffer for a length has [n] bytes. *)
Lemma bulks_fold n acc argv :
  (22 <= n)%nat -> Forall (fun a => zlen a < 2 ^ 31) argv ->
  foldl (fun acc o => b ← acc; t ← ll_text n (zlen o); Some (b ++ [36] ++ t ++ crlf ++ o ++ crlf)) (Some acc) argv = Some (acc ++ NetworkSpec.enc_bulks argv).
Proof.
  intros Hn. revert acc. induction argv as [|a l IH]; intros acc Ha; [by rewrite app_nil_r |]. apply Forall_cons in Ha as [Ha Hl].
  cbn [foldl]. pose proof (zlen_nonneg a). rewrite ll_text_print by (unfold in_s; lia). cbn [mbind option_bind]. rewrite (IH _ Hl). f_equal.
  unfold NetworkSpec.enc_bulks. cbn [map concat]. unfold NetworkSpec.enc_bulk at 2.
  rewrite <- !(assoc_L (++)). cbn [app]. by rewrite <- !(assoc_L (++)).
Qed.

Lemma cat_generic_ok dst argv :
  aof_command_ok argv -> catAppendOnlyGenericCommand dst argv = Some (dst ++ NetworkSpec.enc_command argv).
Proof.
  intros (_ & Hn & Ha). unfold catAppendOnlyGenericCommand. pose proof (zlen_nonneg argv).
  replace (swrap 32 (zlen argv)) with (zlen argv) by (symmetry; apply swrap_small; unfold in_s; lia).
  rewrite ll_text_print by (unfold in_s; lia). cbn [mbind option_bind]. rewrite bulks_fold by (done || lia).
  f_equal. unfold NetworkSpec.enc_command. rewrite <- !(assoc_L (++)). done.
Qed.

(** strtoll of the text of an argument. *)
Lemma strtoll_parse x v : parse_ll x = Some v -> exists r e, strtoll (x ++ [0]) = Some (v, r, e).
Proof.
  intros Hp. destruct (strtoll_ok x []) as (value & eptr & er & c & e & E & _ & _ & Ev). rewrite Hp in Ev.
  destruct (isspace c || negb (e =? 0) || er); [done |]. injection Ev as <-. by exists eptr, er.
Qed.

Lemma expire_when_ok cmd seconds v now :
  cmd <> ProcOther -> parse_ll seconds = Some v -> in_s 64 (v * 1000) -> in_s 64 (absolute_when cmd v now) ->
  expire_when cmd seconds now = Some (absolute_when cmd v now).
Proof.
  intros Hc Hp H1 H2. unfold expire_when. destruct (strtoll_parse seconds v Hp) as (r & e & ->). cbn [mbind option_bind].
  destruct cmd; cbn in H2 |- *; rewrite ?(swrap_small _ (v * 1000)) by done; rewrite ?swrap_small by done; done.
Qed.

Lemma cat_expire_ok buf cmd key seconds v now :
  cmd <> ProcOther -> parse_ll seconds = Some v -> in_s 64 (v * 1000) -> in_s 64 (absolute_when cmd v now) -> zlen key < 2 ^ 31 ->
  catAppendOnlyExpireAtCommand buf cmd key seconds now = Some (buf ++ NetworkSpec.enc_command (pexpireat key (absolute_when cmd v now))) /\
  aof_command_ok (pexpireat key (absolute_when cmd v now)).
Proof.
  intros Hc Hp H1 H2 Hk.
  assert (Hok : aof_command_ok (pexpireat key (absolute_when cmd v now))).
  { split; [done |]. split; [done |]. destruct (print_ok _ H2) as [_ Hl]. repeat constructor; [done | lia]. }
  split; [| done]. unfold catAppendOnlyExpireAtCommand. rewrite (expire_when_ok _ _ _ _ Hc Hp H1 H2). cbn [mbind option_bind].
  rewrite ll_text_print by (done || lia). cbn [mbind option_bind]. by apply cat_generic_ok.
Qed.

Lemma enc_stream_app l1 l2 : NetworkSpec.enc_stream (l1 ++ l2) = NetworkSpec.enc_stream l1 ++ NetworkSpec.enc_stream l2.
Proof. unfold NetworkSpec.enc_stream. by rewrite map_app, concat_app. Qed.

Lemma enc_stream_one a : NetworkSpec.enc_stream [a] = NetworkSpec.enc_command a.
Proof. unfold NetworkSpec.enc_stream. cbn. by rewrite app_nil_r. Qed.

Lemma enc_stream_two a b : NetworkSpec.enc_stream [a; b] = NetworkSpec.enc_command a ++ NetworkSpec.enc_command b.
Proof. pose proof (enc_stream_app [a] [b]) as E. by rewrite !enc_stream_one in E. Qed.

Lemma command_text_ok now cmd argv cmds buf :
  translation now cmd argv cmds -> aof_command_ok argv ->
  command_text buf cmd argv now = Some (buf ++ NetworkSpec.enc_stream cmds) /\ Forall aof_command_ok cmds.
Proof.
  intros Ht Hok. pose proof Hok as (_ & _ & Ha). destruct Ht as [cmd name key seconds v rest Hc Hp H1 H2|cmd name key seconds value v rest Hc Hp H1 H2|argv].
  - apply Forall_cons in Ha as [_ [Hk _]%Forall_cons].
    assert (Hne : cmd <> ProcOther) by (by destruct Hc as [-> | [-> | ->]]).
    destruct (cat_expire_ok buf cmd key seconds v now Hne Hp H1 H2 Hk) as [E Hok']. rewrite enc_stream_one.
    split; [| by constructor]. rewrite <- E. unfold command_text. by destruct Hc as [-> | [-> | ->]].
  - apply Forall_cons in Ha as [_ [Hk [_ [Hv _]%Forall_cons]%Forall_cons]%Forall_cons].
    assert (Hne : cmd <> ProcOther) by (by destruct Hc as [-> | ->]).
    assert (Hs : aof_command_ok [str "SET"; key; value]) by (split; [done |]; split; [done |]; by repeat constructor).
    destruct (cat_expire_ok (buf ++ NetworkSpec.enc_command [str "SET"; key; value]) cmd key seconds v now Hne Hp H1 H2 Hk) as [E Hok'].
    split; [| by apply Forall_cons; split; [| constructor]]. rewrite enc_stream_two, (assoc_L (++)), <- E.
    unfold command_text. destruct Hc as [-> | ->]; cbn [bool_decide decide_rel]; change ((name :: key :: seconds :: value :: rest) !! 1%nat) with (Some key);
      change ((name :: key :: seconds :: value :: rest) !! 2%nat) with (Some seconds);
      change ((name :: key :: seconds :: value :: rest) !! 3%nat) with (Some value); cbn [mbind option_bind];
      rewrite (cat_generic_ok _ _ Hs); done.
  - rewrite enc_stream_one. split; [by apply cat_generic_ok | by constructor].
Qed.

Lemma enc_command_two a b :
  NetworkSpec.enc_command [a; b] = 42 :: 50 :: crlf ++ NetworkSpec.enc_bulk a ++ 36 :: NetworkSpec.dec (zlen b) ++ crlf ++ b ++ crlf.
Proof.
  unfold NetworkSpec.enc_command. assert (E : zlen [a; b] = 2) by reflexivity. rewrite E. unfold NetworkSpec.enc_bulks. cbn [map concat].
  rewrite app_nil_r. reflexivity.
Qed.

Lemma select_shape p n :
  42 :: 50 :: crlf ++ NetworkSpec.enc_bulk (str "SELECT") ++ 36 :: n ++ crlf ++ p ++ crlf =
  str "*2" ++ crlf ++ str "$6" ++ crlf ++ str "SELECT" ++ crlf ++ [36] ++ n ++ crlf ++ p ++ crlf.
Proof. reflexivity. Qed.

Lemma select_text_chars db p n :
  Num.ll_chars db = Some p -> Num.ll_chars (zlen p) = Some n -> select_text db = Some (NetworkSpec.enc_command [str "SELECT"; p]).
Proof.
  intros Hp Hn. unfold select_text. rewrite Hp. cbn [mbind option_bind]. rewrite Hn. cbn [mbind option_bind].
  rewrite enc_command_two. unfold NetworkSpec.dec. rewrite Hn. cbn [default]. by rewrite <- select_shape.
Qed.

Lemma select_text_ok db : in_s 32 db -> select_text db = Some (NetworkSpec.enc_command (select db)) /\ aof_command_ok (select db).
Proof.
  intros Hd. assert (Hd' : in_s 64 db) by (unfold in_s in *; lia). destruct (print_ok db Hd') as [_ Hl].
  split; [| split; [done |]; split; [done |]; repeat constructor; lia].
  apply (select_text_chars db (print db) (print (zlen (print db)))); apply print_chars; [done | unfold in_s; lia].
Qed.

(** ** Lemmas: the loader *)

Lemma strtoll_dec n r : 0 <= n < 2 ^ 63 -> exists rest, strtoll (NetworkSpec.dec n ++ 13 :: r) = Some (n, rest, false).
Proof.
  intros Hn. assert (Hs : in_s 64 n) by (unfold in_s; lia). destruct (print_digits n Hs) as (ds & Hc & Hd & E).
  rewrite dec_print, E. replace (n <? 0) with false by (symmetry; apply Z.ltb_ge; lia). rewrite Z.abs_eq in Hd by lia.
  destruct Hc as [Hf (d & ds' & -> & _)]. pose proof Hf as [Hd0 _]%Forall_cons. unfold NumFacts.digit in Hd0.
  exists (13 :: r). unfold strtoll. rewrite <- app_comm_cons. cbn [skip_space].
  assert (Hsp : isspace d = false) by (unfold isspace; bool_to_prop; apply not_true_is_false; intros Hb; bool_to_prop; lia).
  rewrite Hsp. cbn [mbind option_bind].
  assert (H1 : (d =? ch_minus) || (d =? 43) = false) by (apply orb_false_iff; split; apply Z.eqb_neq; lia).
  rewrite H1. apply orb_false_iff in H1 as [H1 _]. rewrite H1. rewrite app_comm_cons, (scan_digits_ok (d :: ds') 13 r 0 Hf eq_refl). cbn [mbind option_bind].
  rewrite zlen_app. pose proof (zlen_nonneg ds'). rewrite (zlen_cons d). rewrite (proj2 (Z.eqb_neq _ _)) by lia. rewrite Hd.
  unfold LLONG_MIN, LLONG_MAX. rewrite (proj2 (Z.ltb_ge _ _)) by lia. by rewrite (proj2 (Z.ltb_ge _ _)) by lia.
Qed.

Lemma fgets_stop p r : forall n, (length p < n)%nat -> Forall (fun c => c <> 10) p -> fgets n (p ++ 10 :: r) = (p ++ [10], r).
Proof.
  induction p as [|c p IH]; intros [|n] Hn Hp; cbn [length] in Hn; try lia; cbn [app fgets]; [done |].
  apply Forall_cons in Hp as [Hc Hp]. rewrite (proj2 (Z.eqb_neq c 10) Hc). by rewrite (IH n ltac:(lia) Hp).
Qed.

(** The line of a count. *)
Lemma fgets_count c n r : c <> 10 -> 0 <= n < 2 ^ 63 ->
  fgets 127 (c :: NetworkSpec.dec n ++ 13 :: 10 :: r) = (c :: NetworkSpec.dec n ++ [13; 10], r).
Proof.
  intros Hc Hn. destruct (NetworkFacts.dec_ok n Hn) as (Hf & Hl & _). unfold zlen in Hl.
  pose proof (fgets_stop (c :: NetworkSpec.dec n ++ [13]) r 127) as H. rewrite <- app_comm_cons, <- !(assoc_L (++)) in H. cbn [app] in H. rewrite <- (assoc_L (++) _ [13] [10]) in H. apply H.
  - cbn [length]. rewrite length_app. cbn [length]. lia.
  - constructor; [done |]. apply Forall_app. split; [eapply Forall_impl; [exact Hf |]; intros; cbn beta in *; lia | by repeat constructor].
Qed.

Section Load.
Context {T : Type} (run : list (list Z) -> T -> option T) (in_multi : T -> bool).

(** The commands of a file, one after the other. *)
Fixpoint replay (cmds : list (list (list Z))) (t : T) : option T :=
  match cmds with [] => Some t | c :: cmds => t ← run c t; replay cmds t end.

Lemma replay_app l1 l2 t : replay (l1 ++ l2) t = t ← replay l1 t; replay l2 t.
Proof. revert t. induction l1 as [|c l1 IH]; intros t; [done |]. cbn [app replay]. destruct (run c t); [apply IH | done]. Qed.

Lemma read_args_ok argv r : Forall (fun a => zlen a < 2 ^ 31) argv ->
  read_args (T := T) (length argv) (NetworkSpec.enc_bulks argv ++ r) = Some (inr (argv, r)).
Proof.
  induction argv as [|a l IH]; intros Ha; [done |]. apply Forall_cons in Ha as [Ha Hl]. pose proof (zlen_nonneg a) as Hn.
  unfold NetworkSpec.enc_bulks. cbn [map concat length read_args]. fold (NetworkSpec.enc_bulks l). unfold NetworkSpec.enc_bulk.
  rewrite <- !app_comm_cons, <- !(assoc_L (++)). change (NetworkSpec.crlf ++ a ++ ?x) with (13 :: 10 :: a ++ x).
  rewrite fgets_count by lia. cbn [bool_decide decide_rel]. rewrite bool_decide_eq_false_2 by done. cbn [hd tl negb].
  replace (negb (36 =? 36)) with false by done. rewrite <- (assoc_L (++)). cbn [app].
  destruct (strtoll_dec (zlen a) [10; 0]) as [rest E]; [lia |]. rewrite E. cbn [mbind option_bind].
  rewrite uwrap_small by (unfold in_u; lia). rewrite (proj2 (Z.leb_gt _ _)) by lia.
  rewrite (proj2 (Z.ltb_ge _ _)) by (rewrite zlen_app; pose proof (zlen_nonneg (NetworkSpec.crlf ++ NetworkSpec.enc_bulks l ++ r)); lia).
  assert (Et : Z.to_nat (zlen a) = length a) by (unfold zlen; lia). rewrite Et, take_app_length, drop_app_length.
  assert (Ez : (zlen (NetworkSpec.crlf ++ NetworkSpec.enc_bulks l ++ r) <? 2) = false).
  { apply Z.ltb_ge. rewrite zlen_app. change (zlen NetworkSpec.crlf) with 2. pose proof (zlen_nonneg (NetworkSpec.enc_bulks l ++ r)). lia. }
  rewrite Ez. change (drop 2 (NetworkSpec.crlf ++ ?x)) with x. by rewrite (IH Hl).
Qed.

Lemma enc_command_not_nil argv : NetworkSpec.enc_command argv <> [].
Proof. done. Qed.

(** One command. *)
Lemma load_step fuel argv r t :
  aof_command_ok argv ->
  load_loop run in_multi (S fuel) (NetworkSpec.enc_command argv ++ r) t =
  match run argv t with None => Some (UnknownCommand (hd [] argv)) | Some t => load_loop run in_multi fuel r t end.
Proof.
  intros (Hne & Hn & Ha). cbn [load_loop]. rewrite NetworkFacts.enc_command_app.
  assert (Hz : 1 <= zlen argv) by (destruct argv as [|a l]; [done | rewrite zlen_cons; pose proof (zlen_nonneg l); lia]).
  change (NetworkSpec.crlf ++ ?x) with (13 :: 10 :: x). rewrite fgets_count by lia.
  rewrite bool_decide_eq_false_2 by done. cbn [hd tl]. replace (negb (42 =? 42)) with false by done.
  unfold atoi. rewrite <- (assoc_L (++)). cbn [app]. destruct (strtoll_dec (zlen argv) [10; 0]) as [rest E]; [lia |]. rewrite E. cbn [mbind option_bind].
  rewrite swrap_small by (unfold in_s; lia). rewrite (proj2 (Z.ltb_ge _ _)) by lia.
  assert (Et : Z.to_nat (zlen argv) = length argv) by (unfold zlen; lia). rewrite Et, read_args_ok by done. done.
Qed.

Lemma load_loop_ok cmds : forall fuel t t',
  Forall aof_command_ok cmds -> replay cmds t = Some t' -> (length cmds < fuel)%nat ->
  load_loop run in_multi fuel (NetworkSpec.enc_stream cmds) t = Some (if in_multi t' then ReadErr else Loaded t').
Proof.
  induction cmds as [|c cmds IH]; intros [|fuel] t t' Hok Hr Hf; cbn [length] in Hf; try lia.
  - injection Hr as <-. done.
  - apply Forall_cons in Hok as [Hc Hok]. rewrite NetworkFacts.enc_stream_cons, load_step by done. cbn [replay] in Hr.
    destruct (run c t) as [t1|]; [| done]. apply IH; [done | done | lia].
Qed.

Lemma enc_stream_length cmds : (length cmds <= length (NetworkSpec.enc_stream cmds))%nat.
Proof.
  induction cmds as [|c cmds IH]; [done |]. rewrite NetworkFacts.enc_stream_cons, length_app. cbn [length].
  assert (1 <= length (NetworkSpec.enc_command c))%nat by (unfold NetworkSpec.enc_command; cbn [length]; lia). lia.
Qed.

Lemma load_ok cmds t t' :
  cmds <> [] -> Forall aof_command_ok cmds -> replay cmds t = Some t' -> in_multi t' = false ->
  loadAppendOnlyFile run in_multi (NetworkSpec.enc_stream cmds) t = Some (Loaded t').
Proof.
  intros Hne Hok Hr Hm. unfold loadAppendOnlyFile. destruct (Z.eqb_spec (zlen (NetworkSpec.enc_stream cmds)) 0) as [E|_].
  - pose proof (enc_stream_length cmds). unfold zlen in E. destruct cmds; cbn [length] in *; [done | lia].
  - rewrite (load_loop_ok cmds _ t t' Hok Hr); [by rewrite Hm |]. pose proof (enc_stream_length cmds). lia.
Qed.


(** ** Lemmas: a file that ends too early *)

Lemma strtoll_cut ds r : Forall NumFacts.digit ds -> r = [0] \/ r = [13; 0] ->
  exists v rest e, strtoll (ds ++ r) = Some (v, rest, e) /\ 0 <= v < 2 ^ 63.
Proof.
  intros Hf Hr. destruct ds as [|d ds].
  { exists 0. destruct Hr as [-> | ->]; do 2 eexists; (split; [reflexivity | done]). }
  pose proof Hf as [Hd0 _]%Forall_cons. unfold NumFacts.digit in Hd0.
  assert (Hsp : isspace d = false) by (unfold isspace; apply not_true_is_false; intros Hb; bool_to_prop; lia).
  unfold strtoll. rewrite <- app_comm_cons. cbn [skip_space]. rewrite Hsp. cbn [mbind option_bind].
  assert (H1 : (d =? ch_minus) || (d =? 43) = false) by (apply orb_false_iff; split; apply Z.eqb_neq; lia).
  rewrite H1. apply orb_false_iff in H1 as [H1 _]. rewrite H1, app_comm_cons.
  assert (E : exists e r', r = e :: r' /\ is_digit e = false) by (destruct Hr as [-> | ->]; eauto).
  destruct E as (e & r' & -> & He). rewrite (scan_digits_ok (d :: ds) e r' 0 Hf He). cbn [mbind option_bind].
  pose proof (NumFacts.dval_ge 0 (d :: ds) Hf ltac:(lia)) as Hge.
  destruct (zlen (e :: r') =? zlen ((d :: ds) ++ e :: r')); [do 3 eexists; split; [reflexivity | lia] |].
  unfold LLONG_MIN, LLONG_MAX. rewrite (proj2 (Z.ltb_ge _ _)) by lia.
  destruct (Z.ltb_spec (2 ^ 63 - 1) (NumFacts.dval 0 (d :: ds))); do 3 eexists; (split; [reflexivity | lia]).
Qed.

Lemma fgets_all n p : (length p < n)%nat -> Forall (fun c => c <> 10) p -> fgets n p = (p, []).
Proof.
  revert n. induction p as [|c p IH]; intros [|n] Hn Hp; cbn [length] in Hn; try lia; cbn [fgets]; [done |].
  apply Forall_cons in Hp as [Hc Hp]. rewrite (proj2 (Z.eqb_neq c 10) Hc). by rewrite (IH n ltac:(lia) Hp).
Qed.

Lemma take_app_cases {A} k (a b : list A) : (k < length a)%nat /\ take k (a ++ b) = take k a \/ exists j, k = (length a + j)%nat /\ take k (a ++ b) = a ++ take j b.
Proof.
  destruct (decide (k < length a)%nat) as [H|H]; [left; split; [done | apply take_app_le; lia] |].
  right. exists (k - length a)%nat. split; [lia |]. by rewrite take_app_ge by lia.
Qed.

(** The line of a count, cut. *)
Lemma count_cut c n k : c <> 10 -> 0 <= n < 2 ^ 63 -> (k < S (length (NetworkSpec.dec n) + 2))%nat ->
  let p := take k (c :: NetworkSpec.dec n ++ [13; 10]) in
  fgets 127 p = (p, []) /\ (k <> O -> hd 0 p = c /\ exists v rest e, strtoll (tl p ++ [0]) = Some (v, rest, e) /\ 0 <= v < 2 ^ 63).
Proof.
  intros Hc Hn Hk p. destruct (NetworkFacts.dec_ok n Hn) as (Hf & Hl & _). unfold zlen in Hl.
  assert (Hp : p = take k (c :: NetworkSpec.dec n ++ [13])).
  { unfold p. change (c :: NetworkSpec.dec n ++ [13; 10]) with ((c :: NetworkSpec.dec n) ++ [13] ++ [10]). rewrite (assoc_L (++)), take_app_le; [done |].
    rewrite length_app. cbn [length]. lia. }
  rewrite Hp. split.
  - apply fgets_all; [rewrite length_take; cbn [length]; rewrite length_app; cbn [length]; lia |]. apply Forall_take. constructor; [done |].
    apply Forall_app. split; [eapply Forall_impl; [exact Hf |]; intros; cbn beta in *; lia | by repeat constructor].
  - destruct k as [|k]; [done |]. intros _. cbn [take hd tl]. split; [done |].
    destruct (take_app_cases k (NetworkSpec.dec n) [13]) as [[_ ->] | (j & -> & ->)].
    + apply strtoll_cut; [| by left]. apply Forall_take. done.
    + destruct j as [|j]; cbn [take]; rewrite <- (assoc_L (++)); (apply strtoll_cut; [done |]); [by left | right; by rewrite take_nil].
Qed.

Definition load_error (e : @loaded T) : Prop := e = ReadErr \/ e = FmtErr.

Lemma read_args_cut argv : forall k, Forall (fun a => zlen a < 2 ^ 31) argv -> (k < length (NetworkSpec.enc_bulks argv))%nat ->
  exists e, read_args (T := T) (length argv) (take k (NetworkSpec.enc_bulks argv)) = Some (inl e) /\ load_error e.
Proof.
  induction argv as [|a l IH]; intros k Ha Hk; [cbn in Hk; lia |]. apply Forall_cons in Ha as [Ha Hl]. pose proof (zlen_nonneg a) as Hn.
  revert Hk. unfold NetworkSpec.enc_bulks. cbn [map concat length]. fold (NetworkSpec.enc_bulks l). intros Hk.
  destruct (take_app_cases k (NetworkSpec.enc_bulk a) (NetworkSpec.enc_bulks l)) as [[Hka ->] | (j & -> & ->)].
  - clear IH Hk. revert Hka. unfold NetworkSpec.enc_bulk.
    change (36 :: NetworkSpec.dec (zlen a) ++ NetworkSpec.crlf ++ a ++ NetworkSpec.crlf) with (36 :: NetworkSpec.dec (zlen a) ++ [13; 10] ++ a ++ NetworkSpec.crlf).
    rewrite (assoc_L (++)), app_comm_cons. intros Hka. cbn [read_args].
    destruct (take_app_cases k (36 :: NetworkSpec.dec (zlen a) ++ [13; 10]) (a ++ NetworkSpec.crlf)) as [[Hk1 ->] | (j & -> & ->)].
    + destruct (count_cut 36 (zlen a) k) as [-> Hp]; [lia | lia | cbn [length] in Hk1; rewrite length_app in Hk1; cbn [length] in Hk1; lia |].
      destruct k as [|k]; [exists ReadErr; by split; [| left] |]. destruct (Hp ltac:(lia)) as (Hh & v & rest & e & E & Hv).
      rewrite bool_decide_eq_false_2 by done. rewrite Hh. replace (negb (36 =? 36)) with false by done. rewrite E. cbn [mbind option_bind].
      rewrite uwrap_small by (unfold in_u; lia). rewrite (proj2 (Z.leb_gt _ _)) by lia. change (zlen (@nil Z)) with 0.
      exists FmtErr. split; [| by right]. destruct (0 <? v); [done |]. by rewrite drop_nil.
    + change (36 :: NetworkSpec.dec (zlen a) ++ [13; 10]) with ((36 :: NetworkSpec.dec (zlen a)) ++ [13; 10]).
      rewrite <- (assoc_L (++)), <- app_comm_cons. change ([13; 10] ++ ?x) with (13 :: 10 :: x). rewrite fgets_count by lia.
      rewrite bool_decide_eq_false_2 by done. cbn [hd tl]. replace (negb (36 =? 36)) with false by done. rewrite <- (assoc_L (++)). cbn [app].
      destruct (strtoll_dec (zlen a) [10; 0]) as [rest E]; [lia |]. rewrite E. cbn [mbind option_bind].
      rewrite uwrap_small by (unfold in_u; lia). rewrite (proj2 (Z.leb_gt _ _)) by lia. exists FmtErr. split; [| by right].
      destruct (Z.ltb_spec (zlen (take j (a ++ NetworkSpec.crlf))) (zlen a)) as [|Hz]; [done |].
      assert (Ez : (zlen (drop (Z.to_nat (zlen a)) (take j (a ++ NetworkSpec.crlf))) <? 2) = true); [| by rewrite Ez].
      apply Z.ltb_lt. revert Hka. unfold zlen in *. rewrite !length_app, length_drop, length_take, !length_app. cbn [length]. change (length NetworkSpec.crlf) with 2%nat. lia.
  - destruct (IH j Hl) as (e & E & He); [rewrite length_app in Hk; lia |].
    assert (H0 : Forall (fun a => zlen a < 2 ^ 31) [a]) by (constructor; [done | constructor]).
    pose proof (read_args_ok [a] (take j (NetworkSpec.enc_bulks l)) H0) as H1.
    exists e. split; [| done]. unfold NetworkSpec.enc_bulks in H1. cbn [map concat length] in H1. rewrite app_nil_r in H1. fold (NetworkSpec.enc_bulks l) in H1.
    cbn [read_args] in H1 |- *. destruct (fgets 127 (NetworkSpec.enc_bulk a ++ take j (NetworkSpec.enc_bulks l))) as [line f].
    destruct (bool_decide (line = [])); [done |]. destruct (negb (hd 0 line =? 36)); [done |]. destruct (strtoll (tl line ++ [0])) as [[[v x] y]|]; [| done].
    cbn [mbind option_bind] in H1 |- *. destruct (2 ^ 64 <=? uwrap 64 v + 9); [done |]. destruct (zlen f <? uwrap 64 v); [done |].
    destruct (zlen (drop (Z.to_nat (uwrap 64 v)) f) <? 2); [done |]. injection H1 as _ Hf. rewrite Hf, E. done.
Qed.

Lemma command_cut fuel argv k t : aof_command_ok argv -> k <> O -> (k < length (NetworkSpec.enc_command argv))%nat ->
  exists e, load_loop run in_multi (S fuel) (take k (NetworkSpec.enc_command argv)) t = Some e /\ load_error e.
Proof.
  intros (Hne & Hn & Ha) Hk0 Hk. pose proof (zlen_nonneg argv) as Hz.
  assert (E : NetworkSpec.enc_command argv = (42 :: NetworkSpec.dec (zlen argv) ++ [13; 10]) ++ NetworkSpec.enc_bulks argv).
  { unfold NetworkSpec.enc_command. by rewrite app_comm_cons, (assoc_L (++)). }
  rewrite E in Hk |- *. cbn [load_loop].
  destruct (take_app_cases k (42 :: NetworkSpec.dec (zlen argv) ++ [13; 10]) (NetworkSpec.enc_bulks argv)) as [[Hk1 ->] | (j & -> & ->)].
  - destruct (count_cut 42 (zlen argv) k) as [-> Hp]; [lia | lia | cbn [length] in Hk1; rewrite length_app in Hk1; cbn [length] in Hk1; lia |].
    destruct (Hp Hk0) as (Hh & v & rest & e & Ev & Hv). destruct k as [|k]; [done |].
    rewrite bool_decide_eq_false_2 by done. rewrite Hh. replace (negb (42 =? 42)) with false by done. unfold atoi. rewrite Ev. cbn [mbind option_bind].
    destruct (Z.ltb_spec (swrap 32 v) 1) as [|Hv1]; [exists FmtErr; by split; [| right] |].
    destruct (Z.to_nat (swrap 32 v)) as [|m] eqn:Em; [lia |]. exists ReadErr. by split; [| left].
  - change (42 :: NetworkSpec.dec (zlen argv) ++ [13; 10]) with ((42 :: NetworkSpec.dec (zlen argv)) ++ [13; 10]).
    rewrite <- (assoc_L (++)), <- app_comm_cons. change ([13; 10] ++ ?x) with (13 :: 10 :: x). rewrite fgets_count by lia.
    rewrite bool_decide_eq_false_2 by done. cbn [hd tl]. replace (negb (42 =? 42)) with false by done.
    unfold atoi. rewrite <- (assoc_L (++)). cbn [app]. destruct (strtoll_dec (zlen argv) [10; 0]) as [rest Er]; [lia |]. rewrite Er. cbn [mbind option_bind].
    rewrite swrap_small by (unfold in_s; lia). destruct (Z.ltb_spec (zlen argv) 1); [exists FmtErr; by split; [| right] |].
    assert (Et : Z.to_nat (zlen argv) = length argv) by (unfold zlen; lia). rewrite Et.
    destruct (read_args_cut argv j Ha) as (e & Ee & He); [rewrite length_app in Hk; lia |]. exists e. by rewrite Ee.
Qed.

(** A cut anywhere: the first commands, or an error. *)
Lemma load_loop_cut cmds : forall fuel k t t',
  Forall aof_command_ok cmds -> replay cmds t = Some t' -> (length (take k (NetworkSpec.enc_stream cmds)) < fuel)%nat ->
  exists r, load_loop run in_multi fuel (take k (NetworkSpec.enc_stream cmds)) t = Some r /\
    (load_error r \/ exists j tj, take k (NetworkSpec.enc_stream cmds) = NetworkSpec.enc_stream (take j cmds) /\
      replay (take j cmds) t = Some tj /\ in_multi tj = false /\ r = Loaded tj).
Proof.
  assert (Hnil : forall fuel cmds t, exists r, load_loop run in_multi (S fuel) [] t = Some r /\
    (load_error r \/ exists j tj, [] = NetworkSpec.enc_stream (take j cmds) /\ replay (take j cmds) t = Some tj /\ in_multi tj = false /\ r = Loaded tj)).
  { intros fuel cmds0 t. cbn [load_loop fgets]. rewrite bool_decide_eq_true_2 by done. eexists. split; [done |].
    destruct (in_multi t) eqn:Em; [left; by left | right]. by exists O, t. }
  induction cmds as [|c cmds IH]; intros [|fuel] k t t' Hok Hr Hf; try lia; [change (NetworkSpec.enc_stream []) with (@nil Z); rewrite take_nil; apply (Hnil fuel []) |].
  apply Forall_cons in Hok as [Hc Hok]. revert Hf. rewrite NetworkFacts.enc_stream_cons.
  destruct (take_app_cases k (NetworkSpec.enc_command c) (NetworkSpec.enc_stream cmds)) as [[Hk ->] | (j & -> & ->)]; intros Hf.
  - destruct (decide (k = O)) as [-> | Hk0]; [apply Hnil |]. destruct (command_cut fuel c k t Hc Hk0 Hk) as (e & E & He). exists e. split; [done | by left].
  - rewrite load_step by done. cbn [replay] in Hr. destruct (run c t) as [t1|] eqn:E1; [| done].
    assert (Hf' : (length (take j (NetworkSpec.enc_stream cmds)) < fuel)%nat).
    { rewrite length_app in Hf. assert (1 <= length (NetworkSpec.enc_command c))%nat by (unfold NetworkSpec.enc_command; cbn [length]; lia). lia. }
    destruct (IH fuel j t1 t' Hok Hr Hf') as (r & Er & Hcase). exists r. split; [done |].
    destruct Hcase as [He | (i & tj & Ej & Hrj & Hm & ->)]; [by left | right]. exists (S i), tj. cbn [take replay]. by rewrite E1, NetworkFacts.enc_stream_cons, Ej.
Qed.

End Load.

(** ** Lemmas: the rewrite buffer *)

Definition block_ok (b : aofrwblock) : Prop := used b = zlen (buf b) /\ used b + free b = AOF_RW_BUF_BLOCK_SIZE /\ 0 <= free b.

(** Every block but the last is full. *)
Definition blocks_ok (l : list aofrwblock) : Prop := Forall block_ok l /\ Forall (fun b => free b = 0) (removelast l).

Definition blocks_text (l : list aofrwblock) : list Z := concat (map buf l).

Definition has_room (l : list aofrwblock) : Prop := exists b, last l = Some b /\ 0 < free b.

Lemma blocks_text_snoc l b : blocks_text (l ++ [b]) = blocks_text l ++ buf b.
Proof. unfold blocks_text. by rewrite map_app, concat_app; cbn; rewrite app_nil_r. Qed.

Lemma blocks_ok_snoc l b : Forall block_ok l -> Forall (fun b => free b = 0) l -> block_ok b -> blocks_ok (l ++ [b]).
Proof. intros Hl Hf Hb. split; [by apply Forall_app; split; [| constructor] | by rewrite removelast_last]. Qed.

Lemma fresh_block_ok : block_ok (AofRwBlock 0 AOF_RW_BUF_BLOCK_SIZE []).
Proof. done. Qed.

Lemma append_piece_ok bl s :
  blocks_ok bl -> s <> [] ->
  exists bl' s', append_piece bl s (zlen s) = Some (bl', s', zlen s') /\ blocks_ok bl' /\ blocks_text bl' ++ s' = blocks_text bl ++ s /\
    (s' = [] \/ has_room bl') /\ (has_room bl -> zlen s' < zlen s) /\ zlen s' <= zlen s.
Proof.
  intros [Hb Hf] Hs. assert (Hz : 0 < zlen s) by (destruct s as [|c s]; [done | rewrite zlen_cons; pose proof (zlen_nonneg s); lia]).
  unfold append_piece. destruct (last bl) as [b|] eqn:El.
  - apply last_Some in El as [bl0 ->]. rewrite removelast_last in Hf |- *. apply Forall_app in Hb as [Hb0 Hb1]. apply Forall_cons in Hb1 as [(Hu & Hsum & Hfr) _].
    set (n := if free b <? zlen s then free b else zlen s).
    assert (Hn : n = Z.min (free b) (zlen s)) by (unfold n; destruct (Z.ltb_spec (free b) (zlen s)); lia).
    destruct (Z.eqb_spec n 0) as [En|En].
    + cbn [mbind option_bind]. rewrite (proj2 (Z.eqb_neq (zlen s) 0)) by lia. assert (Hfb : free b = 0) by lia.
      eexists _, s. split; [done |]. split; [apply blocks_ok_snoc; [by apply Forall_app; split; [| constructor] | by apply Forall_app; split; [| constructor] | apply fresh_block_ok] |].
      split; [by rewrite blocks_text_snoc, app_nil_r |]. split; [right; exists (AofRwBlock 0 AOF_RW_BUF_BLOCK_SIZE []); split; [by rewrite last_snoc | done] |].
      split; [| lia]. intros (b' & Hb' & Hr). rewrite last_snoc in Hb'. injection Hb' as <-. lia.
    + assert (Hr : rdn s 0 n = Some (take (Z.to_nat n) s)) by (rewrite <- (take_drop (Z.to_nat n) s) at 1; apply rdn_prefix; unfold zlen in *; rewrite length_take; lia). rewrite Hr. cbn [mbind option_bind].
      set (b' := AofRwBlock (used b + n) (free b - n) (buf b ++ take (Z.to_nat n) s)). set (s' := drop (Z.to_nat n) s).
      assert (Hz' : zlen s - n = zlen s') by (unfold s', zlen in *; rewrite length_drop; lia). rewrite Hz'.
      assert (Hb' : block_ok b').
      { unfold block_ok, b'. cbn [used free buf]. rewrite zlen_app. assert (zlen (take (Z.to_nat n) s) = n) by (unfold zlen in *; rewrite length_take; lia). lia. }
      assert (Ht : blocks_text (bl0 ++ [b']) ++ s' = blocks_text (bl0 ++ [b]) ++ s).
      { rewrite !blocks_text_snoc. unfold b', s'. cbn [buf]. rewrite <- !(assoc_L (++)). by rewrite take_drop. }
      destruct (Z.eqb_spec (zlen s') 0) as [E0|E0].
      * exists (bl0 ++ [b']), s'. split; [done |]. split; [by apply blocks_ok_snoc |]. split; [done |].
        split; [left; unfold zlen in E0; by destruct s'; cbn in E0 |]. split; [intros _ |]; lia.
      * exists ((bl0 ++ [b']) ++ [AofRwBlock 0 AOF_RW_BUF_BLOCK_SIZE []]), s'. split; [done |].
        assert (Hfull : free b' = 0) by (unfold b'; cbn [free]; lia).
        split; [apply blocks_ok_snoc; [by apply Forall_app; split; [| constructor] | by apply Forall_app; split; [| constructor] | apply fresh_block_ok] |].
        split; [rewrite blocks_text_snoc, app_nil_r; done |]. split; [right; exists (AofRwBlock 0 AOF_RW_BUF_BLOCK_SIZE []); split; [by rewrite last_snoc | done] |].
        split; [intros _ |]; lia.
  - apply last_None in El as ->. cbn [mbind option_bind]. rewrite (proj2 (Z.eqb_neq (zlen s) 0)) by lia.
    exists [AofRwBlock 0 AOF_RW_BUF_BLOCK_SIZE []], s. split; [done |]. split; [by apply (blocks_ok_snoc []) |]. split; [done |].
    split; [right; by exists (AofRwBlock 0 AOF_RW_BUF_BLOCK_SIZE []) |]. split; [by intros (b & Hb' & _) | lia].
Qed.

Lemma append_loop_ok fuel : forall bl s,
  blocks_ok bl -> (s = [] \/ has_room bl /\ zlen s <= Z.of_nat fuel \/ zlen s + 1 <= Z.of_nat fuel) ->
  exists bl', append_loop fuel bl s (zlen s) = Some bl' /\ blocks_ok bl' /\ blocks_text bl' = blocks_text bl ++ s.
Proof.
  induction fuel as [|fuel IH]; intros bl s Hok Hf; pose proof (zlen_nonneg s) as Hs.
  - assert (s = []) as -> by (destruct Hf as [? | Hf]; [done | destruct s as [|c s]; [done | exfalso; rewrite zlen_cons in Hf; pose proof (zlen_nonneg s); lia]]). exists bl. by rewrite app_nil_r.
  - destruct (decide (s = [])) as [->|Hne]; [exists bl; by rewrite app_nil_r |].
    cbn [append_loop]. rewrite (proj2 (Z.eqb_neq (zlen s) 0)) by (destruct s; [done | rewrite zlen_cons; pose proof (zlen_nonneg s); lia]).
    destruct (append_piece_ok bl s Hok Hne) as (bl1 & s1 & -> & Hok1 & Ht & Hr & Hlt & Hle). cbn [mbind option_bind].
    destruct (IH bl1 s1 Hok1) as (bl' & E & Hok' & Ht').
    { destruct Hr as [-> | Hr]; [by left | right; left]. split; [done |].
      destruct Hf as [-> | [[Hroom Hf]|Hf]]; [done | specialize (Hlt Hroom) |]; lia. }
    exists bl'. by rewrite Ht', Ht.
Qed.

Lemma rewrite_append_ok bl s : blocks_ok bl ->
  exists bl', aofRewriteBufferAppend bl s (zlen s) = Some bl' /\ blocks_ok bl' /\ blocks_text bl' = blocks_text bl ++ s.
Proof. intros Hok. apply append_loop_ok; [done |]. right. right. pose proof (zlen_nonneg s). lia. Qed.

(** aofRewriteBufferSize is the number of bytes in the blocks. *)
Lemma rewrite_size_ok bl : blocks_ok bl -> aofRewriteBufferSize bl = zlen (blocks_text bl).
Proof.
  intros [Hb Hf]. unfold aofRewriteBufferSize. destruct (last bl) as [b|] eqn:El; [| by apply last_None in El as ->].
  apply last_Some in El as [bl0 ->]. rewrite removelast_last in Hf. apply Forall_app in Hb as [Hb0 [(Hu & _ & _) _]%Forall_cons].
  rewrite blocks_text_snoc, !zlen_app, <- Hu. change (zlen [b]) with 1.
  assert (E : zlen (blocks_text bl0) = zlen bl0 * AOF_RW_BUF_BLOCK_SIZE); [| lia].
  clear -Hb0 Hf. induction bl0 as [|b0 l IH]; [done |]. apply Forall_cons in Hb0 as [(Hu & Hs & _) Hb0], Hf as [Hf0 Hf].
  unfold blocks_text. cbn [map concat]. fold (blocks_text l). rewrite zlen_app, zlen_cons, (IH Hf Hb0). lia.
Qed.

(** ** Lemmas: descriptors *)

Lemma lowest_fd_spec m : m !! lowest_fd m = None /\ 0 <= lowest_fd m.
Proof.
  unfold lowest_fd. set (l := List.filter _ _).
  destruct l as [|fd l'] eqn:El.
  - exfalso. assert (Hall : forall fd, fd ∈ map Z.of_nat (seq 0 (S (size m))) -> fd ∈ dom m).
    { intros fd Hfd. apply elem_of_dom. destruct (m !! fd) eqn:Em; [eauto |]. exfalso.
      assert (Hin : In fd l) by (apply filter_In; split; [by apply list_elem_of_In | by rewrite Em]). rewrite El in Hin. done. }
    assert (Hs : size (list_to_set (C := gset Z) (map Z.of_nat (seq 0 (S (size m))))) = S (size m)).
    { rewrite size_list_to_set; [by rewrite length_map, length_seq |]. apply NoDup_fmap_2; [apply _ | apply NoDup_seq]. }
    assert (Hle : (S (size m) <= size (dom m))%nat).
    { rewrite <- Hs. apply subseteq_size. intros fd Hfd. apply elem_of_list_to_set in Hfd. by apply Hall. }
    rewrite size_dom in Hle. lia.
  - cbn [head default]. assert (Hin : In fd l) by (rewrite El; by left). apply filter_In in Hin as [Hin Hm].
    apply bool_decide_eq_true in Hm. split; [done |]. apply in_map_iff in Hin as (n & <- & _). cbn. lia.
Qed.
