(* ===== verification/AofLog.v ===== *)
(** * The append only file: the invariant of the server

    [good] holds between two events: the file, with the buffer that is not yet written, is a
    log that leads to the data, and the rewrite buffer has what changed since the fork.
    Each event keeps it, whatever the system answers to its calls. *)

From Stdlib Require Import Ascii String.
From S2P Require Import Prelude Util Sds Server ServerFacts ObjFacts Robj Network NetworkFacts Aof AofFacts.

(** ** The invariant *)

Section Server.
Context {K : Type}.
Implicit Types s : @server K.

(** What the commands do to the data: [apply db argv] on the data, for those other than
    SELECT; [k0] is the data of an empty server. *)
Context (k0 : K) (apply : Z -> list (list Z) -> K -> option K).

Definition run_log (argv : list (list Z)) (t : Z * K) : option (Z * K) :=
  if bool_decide (hd [] argv = str "SELECT") then db ← parse_ll (nth 1 argv []); Some (db, snd t)
  else k ← apply (fst t) argv (snd t); Some (fst t, k).

Fixpoint apply_all (db : Z) (cmds : list (list (list Z))) (k : K) : option K :=
  match cmds with [] => Some k | c :: cmds => k ← apply db c k; apply_all db cmds k end.

(** How the data that the file leads to, the first argument, may differ from the data in
    memory: EXPIRE and the like read the clock once for the memory and once more when they
    are translated for the file, so that a time in the file can be later.  Commands keep the
    relation. *)
Context (R : K -> K -> Prop).

(** The bytes are a log that leads to the data [k], up to [R]; the server believes that it
    ends in the database [sel], unless [sel] is -1. *)
Definition logs (f : list Z) (sel : Z) (k : K) : Prop :=
  exists cmds d k', f = NetworkSpec.enc_stream cmds /\ Forall aof_command_ok cmds /\
    replay run_log cmds (0, k0) = Some (d, k') /\ R k' k /\ (sel = -1 \/ sel = d).

(** The bytes lead from the data [k1] to [k], whatever the database at their start. *)
Definition diffs (f : list Z) (sel : Z) (k1 k : K) : Prop :=
  exists cmds, f = NetworkSpec.enc_stream cmds /\ Forall aof_command_ok cmds /\
    forall d, exists d' k', replay run_log cmds (d, k1) = Some (d', k') /\ R k' k /\ (sel = -1 \/ sel = d').

Definition file_at (o : os) (fd : Z) (b : list Z) : Prop :=
  exists i, fds o !! fd = Some i /\ aof_name o = Some i /\ inodes o !! i = Some b.

(** The append only file is on, it and the buffer hold the log, and the rewrite buffer
    holds the commands since the fork. *)
Record good s : Prop := Good {
  gd_on : aof_state s = REDIS_AOF_ON;
  gd_fd : aof_fd s <> -1;
  gd_file : exists b, file_at (system s) (aof_fd s) b /\ aof_current_size s = zlen b /\ logs (b ++ aof_buf s) (aof_selected_db s) (dataset s);
  gd_blocks : blocks_ok (aof_rewrite_buf_blocks s);
  gd_child : if aof_child_pid s =? -1 then aof_rewrite_buf_blocks s = []
             else diffs (blocks_text (aof_rewrite_buf_blocks s)) (aof_selected_db s) (child_data s) (dataset s) }.

(** What is in the file when the process ends: the start of the log. *)
Definition cut_off s : Prop :=
  exists i b pending sel, aof_name (system s) = Some i /\ inodes (system s) !! i = Some b /\ logs (b ++ pending) sel (dataset s).

Definition ends {A} (r : outcome A) (P : server -> Prop) : Prop :=
  match r with Ret _ s => P s | Exit s => cut_off s | Crash => False end.

(** ** Lemmas: commands *)

Lemma run_select db d k : in_s 32 db -> run_log (select db) (d, k) = Some (db, k).
Proof.
  intros Hd. unfold run_log, select. cbn [hd nth]. rewrite bool_decide_eq_true_2 by done.
  by rewrite parse_print by (unfold in_s in *; lia).
Qed.

Lemma replay_apply db cmds : forall k, Forall (fun c => hd [] c <> str "SELECT") cmds ->
  replay run_log cmds (db, k) = (k' ← apply_all db cmds k; Some (db, k')).
Proof.
  induction cmds as [|c cmds IH]; intros k Hc; [done |]. apply Forall_cons in Hc as [Hc Hcs]. cbn [replay apply_all].
  assert (E : run_log c (db, k) = (k ← apply db c k; Some (db, k))) by (unfold run_log; by rewrite bool_decide_eq_false_2).
  rewrite E. destruct (apply db c k); [by apply IH | done].
Qed.

(** A command that may be fed: its translation, with the clock at the time [now] of the
    translation, does to the data what the command did, up to [R]. *)
Definition fed_ok (k : K) (cmd : proc) (db : Z) (argv : list (list Z)) (now : Z) (after : K) : Prop :=
  0 <= db < 2 ^ 31 /\ aof_command_ok argv /\
  exists cmds after', translation now cmd argv cmds /\ Forall (fun c => hd [] c <> str "SELECT") cmds /\
    apply_all db cmds k = Some after' /\ R after' after.

Context {HR : PreOrder R}.
Context (apply_mono : forall db c k1 k2 k2', R k1 k2 -> apply db c k2 = Some k2' -> exists k1', apply db c k1 = Some k1' /\ R k1' k2').

Lemma run_log_mono c d k1 k2 d' k2' :
  R k1 k2 -> run_log c (d, k2) = Some (d', k2') -> exists k1', run_log c (d, k1) = Some (d', k1') /\ R k1' k2'.
Proof.
  intros H. unfold run_log. cbn [fst snd]. destruct (bool_decide (hd [] c = str "SELECT")).
  - destruct (parse_ll (nth 1 c [])); [| done]. intros [= <- <-]. by exists k1.
  - destruct (apply d c k2) as [k3|] eqn:E; [| done]. intros [= <- <-]. destruct (apply_mono d c k1 k2 k3 H E) as (k4 & -> & H4). by exists k4.
Qed.

Lemma replay_mono cmds : forall d k1 k2 d' k2',
  R k1 k2 -> replay run_log cmds (d, k2) = Some (d', k2') -> exists k1', replay run_log cmds (d, k1) = Some (d', k1') /\ R k1' k2'.
Proof.
  induction cmds as [|c cmds IH]; intros d k1 k2 d' k2' H; [intros [= <- <-]; by exists k1 |]. cbn [replay].
  destruct (run_log c (d, k2)) as [[d3 k3]|] eqn:E; [| done]. destruct (run_log_mono c d k1 k2 d3 k3 H E) as (k4 & -> & H4). by apply IH.
Qed.

(** Two pieces of log one after the other. *)
Lemma replay_chain cmds cmds' d0 k d k1 k' d' k2 :
  replay run_log cmds (d0, k) = Some (d, k1) -> R k1 k' -> replay run_log cmds' (d, k') = Some (d', k2) ->
  exists k3, replay run_log (cmds ++ cmds') (d0, k) = Some (d', k3) /\ R k3 k2.
Proof.
  intros E1 H1 E2. destruct (replay_mono cmds' d k1 k' d' k2 H1 E2) as (k3 & E3 & H3). exists k3. by rewrite replay_app, E1.
Qed.

Lemma logs_app f sel k f' sel' k' :
  logs f sel k -> (forall d, sel = -1 \/ sel = d -> exists cmds d' k'', f' = NetworkSpec.enc_stream cmds /\ Forall aof_command_ok cmds /\
    replay run_log cmds (d, k) = Some (d', k'') /\ R k'' k' /\ (sel' = -1 \/ sel' = d')) -> logs (f ++ f') sel' k'.
Proof.
  intros (cmds & d & k1 & -> & Hok & Hr & H1 & Hd) H. destruct (H d Hd) as (cmds' & d' & k2 & -> & Hok' & Hr' & H2 & Hd').
  destruct (replay_chain _ _ _ _ _ _ _ _ _ Hr H1 Hr') as (k3 & E3 & H3).
  exists (cmds ++ cmds'), d', k3. rewrite enc_stream_app. split; [done |]. split; [by apply Forall_app |]. split; [done |]. split; [by trans k2 | done].
Qed.

(** The text of a command that is fed. *)
Lemma fed_text k cmd db argv now after sel :
  fed_ok k cmd db argv now after ->
  exists sl cmds,
    (if negb (db =? sel) then select_text db = Some (NetworkSpec.enc_stream sl) else sl = []) /\
    (forall b, command_text b cmd argv now = Some (b ++ NetworkSpec.enc_stream cmds)) /\ Forall aof_command_ok (sl ++ cmds) /\
    exists after', R after' after /\ forall d, sel = -1 \/ sel = d -> replay run_log (sl ++ cmds) (d, k) = Some (db, after').
Proof.
  intros (Hdb & Hok & cmds & after' & Ht & Hns & Ha & HRa). assert (Hdb' : in_s 32 db) by (unfold in_s; lia).
  destruct (command_text_ok now cmd argv cmds [] Ht Hok) as [_ Hcok].
  assert (Hr : replay run_log cmds (db, k) = Some (db, after')) by (rewrite replay_apply by done; by rewrite Ha).
  destruct (Z.eqb_spec db sel) as [->|Hne]; cbn [negb].
  - exists [], cmds. split; [done |]. split; [intros b; by apply command_text_ok |]. split; [done |]. exists after'. split; [done |]. intros d [?|<-]; [lia | done].
  - destruct (select_text_ok db Hdb') as [Es Hs]. exists [select db], cmds. rewrite enc_stream_one. split; [done |].
    split; [intros b; by apply command_text_ok |]. split; [by constructor |]. exists after'. split; [done |]. intros d _. cbn [app replay]. by rewrite run_select.
Qed.

(** ** Lemmas: running the server *)

Lemma abind_run {A B} (m : M A) (f : A -> M B) s x s1 : m s = Ret x s1 -> (m ≫= f) s = f x s1.
Proof. intros E. unfold mbind, M_bind. by rewrite E. Qed.

Lemma get_run {A B} (g : server -> A) (f : A -> M B) s : (get g ≫= f) s = f (g s) s.
Proof. done. Qed.

Lemma upd_run {B} (g : server -> server) (f : unit -> M B) s : (upd g ≫= f) s = f tt (g s).
Proof. done. Qed.

Lemma ends_bind {A B} (m : M A) (f : A -> M B) s (P Q : server -> Prop) :
  ends (m s) P -> (forall x s1, P s1 -> ends (f x s1) Q) -> ends ((m ≫= f) s) Q.
Proof. unfold mbind, M_bind. destruct (m s) as [x s1|s1|]; intros H HQ; [by apply HQ | done | done]. Qed.

Lemma feed_ok s cmd db argv now after :
  good s -> fed_ok (dataset s) cmd db argv now after ->
  exists s', feedAppendOnlyFile cmd db argv now (set_dataset after s) = Ret tt s' /\ good s'.
Proof.
  intros [Hon Hfd (b & Hf & Hsz & Hlog) Hbl Hch] Hfed.
  destruct (fed_text _ _ _ _ _ _ (aof_selected_db s) Hfed) as (sl & cmds & Esl & Ect & Hok & after' & HRa & Hrep).
  set (txt := NetworkSpec.enc_stream sl ++ NetworkSpec.enc_stream cmds).
  assert (Etxt : txt = NetworkSpec.enc_stream (sl ++ cmds)) by (by rewrite enc_stream_app).
  set (s1 := set_dataset after s). unfold feedAppendOnlyFile. rewrite get_run. change (aof_selected_db s1) with (aof_selected_db s).
  set (s2 := if negb (db =? aof_selected_db s) then set_aof_selected_db db s1 else s1).
  rewrite (abind_run _ _ s1 (NetworkSpec.enc_stream sl) s2).
  2: { unfold s2. destruct (negb (db =? aof_selected_db s)); [by rewrite Esl | by rewrite Esl]. }
  rewrite (abind_run _ _ s2 txt s2) by (by rewrite Ect).
  assert (E2 : aof_state s2 = REDIS_AOF_ON) by (unfold s2; by destruct (negb (db =? aof_selected_db s))).
  rewrite get_run, E2. set (s3 := set_aof_buf (aof_buf s2 ++ txt) s2). rewrite (abind_run _ _ s2 tt s3 eq_refl), get_run.
  assert (Esel : aof_selected_db s2 = db).
  { unfold s2. destruct (Z.eqb_spec db (aof_selected_db s)) as [Ed|Hne]; [by rewrite Ed | done]. }
  assert (Es : aof_buf s2 = aof_buf s /\ aof_fd s2 = aof_fd s /\ system s2 = system s /\ aof_current_size s2 = aof_current_size s /\
    aof_rewrite_buf_blocks s2 = aof_rewrite_buf_blocks s /\ aof_child_pid s2 = aof_child_pid s /\ child_data s2 = child_data s /\ dataset s2 = after).
  { unfold s2. by destruct (negb (db =? aof_selected_db s)). }
  destruct Es as (Eb & Efd & Esys & Esz & Ebl & Epid & Ecd & Eds). clearbody s2.
  assert (Hlog' : logs (b ++ aof_buf s2 ++ txt) db after).
  { rewrite Eb, (assoc_L (++)). eapply logs_app; [exact Hlog |]. intros d Hd. exists (sl ++ cmds), db, after'. split; [done |]. split; [done |]. split; [by apply Hrep |]. split; [done | by right]. }
  change (aof_child_pid s3) with (aof_child_pid s2). rewrite Epid. destruct (Z.eqb_spec (aof_child_pid s) (-1)) as [Ep|Ep]; cbn [negb].
  - exists s3. split; [done |]. split; cbn [s3 set_aof_buf aof_state aof_fd system aof_current_size aof_buf aof_selected_db dataset aof_rewrite_buf_blocks aof_child_pid]; rewrite ?Efd, ?Esys, ?Esz, ?Esel, ?Eds, ?Ebl, ?Epid; try done.
    + by exists b.
    + by rewrite Ep.
  - rewrite get_run. change (aof_rewrite_buf_blocks s3) with (aof_rewrite_buf_blocks s2). rewrite Ebl.
    destruct (rewrite_append_ok _ txt Hbl) as (bl' & E & Hok' & Ht'). rewrite (abind_run _ _ s3 bl' s3) by (by rewrite E).
    exists (set_aof_rewrite_buf_blocks bl' s3). split; [done |].
    split; cbn [s3 set_aof_buf set_aof_rewrite_buf_blocks aof_state aof_fd system aof_current_size aof_buf aof_selected_db dataset aof_rewrite_buf_blocks aof_child_pid child_data]; rewrite ?Efd, ?Esys, ?Esz, ?Esel, ?Eds, ?Epid, ?Ecd; try done.
    + by exists b.
    + rewrite (proj2 (Z.eqb_neq _ _) Ep). destruct Hch as (cm & Ec & Hcok & Hcr). exists (cm ++ sl ++ cmds).
      rewrite Ht', Ec, Etxt, (enc_stream_app cm). split; [done |]. split; [by apply Forall_app |]. intros d. destruct (Hcr d) as (d' & k1 & Hr & H1 & Hd').
      destruct (replay_chain _ _ _ _ _ _ _ _ _ Hr H1 (Hrep d' Hd')) as (k3 & E3 & H3). exists db, k3. split; [done |]. split; [by trans after' | by right].
Qed.

(** ** Lemmas: system calls *)

Lemma answer_run s : exists a l, answer s = Ret a (set_answers l s).
Proof. unfold answer. destruct (answers s) as [|a l] eqn:E; [exists None, [] | by exists (Some a), l]. by destruct s; simpl in E; subst. Qed.

Lemma fails_run s : exists e l, fails s = Ret e (set_answers l s).
Proof. destruct (answer_run s) as (a & l & E). unfold fails. rewrite (abind_run _ _ _ _ _ E). by eexists _, l. Qed.

Lemma write_run fd x i b s :
  fds (system s) !! fd = Some i -> inodes (system s) !! i = Some b ->
  exists n l, write fd x s = Ret n (if n =? -1 then set_answers l s else set_system (set_inode i (b ++ take (Z.to_nat n) x) (system s)) (set_answers l s)) /\
    -1 <= n <= zlen x.
Proof.
  intros Hfd Hb. destruct (answer_run s) as (a & l & E). unfold write. rewrite (abind_run _ _ _ _ _ E), get_run.
  change (system (set_answers l s)) with (system s). rewrite Hfd.
  set (n := match a with Some a => if a <? 0 then -1 else Z.min a (zlen x) | None => zlen x end).
  assert (Hn : -1 <= n <= zlen x).
  { pose proof (zlen_nonneg x). unfold n. destruct a as [a|]; [destruct (Z.ltb_spec a 0) |]; lia. }
  clearbody n. destruct (Z.ltb_spec n 0) as [Hn0|Hn0].
  - exists (-1), l. split; [done |]. pose proof (zlen_nonneg x). lia.
  - exists n, l. split; [| lia]. rewrite (proj2 (Z.eqb_neq n (-1))) by lia. unfold os_upd. rewrite upd_run, Hb. done.
Qed.

Lemma ftruncate_run fd len i b s :
  fds (system s) !! fd = Some i -> inodes (system s) !! i = Some b -> 0 <= len <= zlen b ->
  exists r l, ftruncate fd len s = Ret r (if r =? -1 then set_answers l s else set_system (set_inode i (take (Z.to_nat len) b) (system s)) (set_answers l s)) /\
    (r = -1 \/ r = 0).
Proof.
  intros Hfd Hb Hlen. destruct (fails_run s) as (e & l & E). unfold ftruncate. rewrite (abind_run _ _ _ _ _ E), get_run.
  change (system (set_answers l s)) with (system s). rewrite Hfd. destruct e.
  - exists (-1), l. split; [done | by left].
  - exists 0, l. split; [| by right]. cbv zeta. unfold os_upd. rewrite upd_run, Hb. change (default [] (Some b)) with b.
    replace (Z.to_nat len - length b)%nat with O by (unfold zlen in Hlen; lia). cbn [replicate]. by rewrite app_nil_r.
Qed.

Lemma good_answers l s : good s -> good (set_answers l s).
Proof. intros []. by split. Qed.

(** The file gets [b'] and the buffer [p], of which the log is made as before. *)
Lemma good_moved s s' b b' :
  good s -> file_at (system s) (aof_fd s) b ->
  aof_state s' = aof_state s -> aof_fd s' = aof_fd s -> aof_rewrite_buf_blocks s' = aof_rewrite_buf_blocks s ->
  aof_child_pid s' = aof_child_pid s -> child_data s' = child_data s -> dataset s' = dataset s -> aof_selected_db s' = aof_selected_db s ->
  file_at (system s') (aof_fd s) b' -> aof_current_size s' = zlen b' -> b' ++ aof_buf s' = b ++ aof_buf s -> good s'.
Proof.
  intros [Hon Hfd (b0 & Hf & Hsz & Hlog) Hbl Hch] Hb E1 E2 E3 E4 E5 E6 E7 Hf' Hsz' Et.
  assert (b0 = b) as -> by (destruct Hf as (i & ? & ? & ?), Hb as (j & ? & ? & ?); congruence).
  split; rewrite ?E1, ?E2, ?E3, ?E4, ?E5, ?E6, ?E7; try done. exists b'. by rewrite Et.
Qed.

Lemma file_at_set o fd i b b' : fds o !! fd = Some i -> aof_name o = Some i -> inodes o !! i = Some b -> file_at (set_inode i b' o) fd b'.
Proof. intros H1 H2 H3. exists i. split; [done |]. split; [done |]. simpl. apply lookup_insert_eq. Qed.

(** ** Lemmas: flushing *)

Lemma write_failed_ok s n l i b :
  good s -> fds (system s) !! aof_fd s = Some i -> aof_name (system s) = Some i -> inodes (system s) !! i = Some b ->
  -1 <= n -> n < zlen (aof_buf s) ->
  ends (write_failed n (if n =? -1 then set_answers l s else set_system (set_inode i (b ++ take (Z.to_nat n) (aof_buf s)) (system s)) (set_answers l s)))
    (fun s' => good s' /\ dataset s' = dataset s).
Proof.
  intros G Hfd Hnm Hb Hn1 Hn2. pose proof G as [Hon Hfdne (b0 & Hf & Hsz & Hlog) Hbl Hch].
  assert (b0 = b) as -> by (destruct Hf as (j & ? & ? & ?); congruence).
  assert (F : file_at (system s) (aof_fd s) b) by (by exists i).
  unfold write_failed. set (s1 := if n =? -1 then _ else _). rewrite !get_run.
  assert (E1 : aof_fd s1 = aof_fd s) by (unfold s1; by destruct (n =? -1)).
  assert (E2 : aof_current_size s1 = zlen b) by (unfold s1; by destruct (n =? -1)). rewrite E1, E2.
  assert (H : exists m s2, (if n =? -1 then mret n else r ← ftruncate (aof_fd s) (zlen b); mret (if r =? -1 then n else -1)) s1 = Ret m s2 /\
    -1 <= m < zlen (aof_buf s) /\ (forall s3, s3 = s2 -> good (if 0 <? m then set_aof_buf (drop (Z.to_nat m) (aof_buf s)) (set_aof_current_size (zlen b + m) s3) else s3)) /\
    dataset s2 = dataset s /\ aof_buf s2 = aof_buf s).
  { unfold s1. destruct (Z.eqb_spec n (-1)) as [->|Hne].
    - exists (-1), (set_answers l s). split; [done |]. split; [lia |]. split; [intros s3 ->; cbn; by apply good_answers | done].
    - set (w := take (Z.to_nat n) (aof_buf s)). set (s1' := set_system (set_inode i (b ++ w) (system s)) (set_answers l s)).
      assert (Hw : zlen w = n) by (unfold w, zlen in *; rewrite length_take; lia).
      destruct (ftruncate_run (aof_fd s) (zlen b) i (b ++ w) s1') as (r & l' & E & Hr); [done | simpl; apply lookup_insert_eq | rewrite zlen_app; pose proof (zlen_nonneg b); lia |].
      rewrite (abind_run _ _ _ _ _ E). destruct Hr as [-> | ->]; cbn [Z.eqb].
      + eexists n, _. split; [done |]. split; [lia |]. split; [| done]. intros s3 ->. destruct (Z.ltb_spec 0 n) as [Hn0|Hn0].
        * eapply (good_moved s _ b (b ++ w)); try done; [by eapply file_at_set | simpl; rewrite zlen_app; lia | simpl; rewrite <- (assoc_L (++)); f_equal; apply take_drop].
        * assert (w = []) as Hw0 by (unfold w; replace (Z.to_nat n) with O by lia; done).
          eapply (good_moved s _ b (b ++ w)); try done; [by eapply file_at_set | simpl; rewrite Hw0, app_nil_r; done | simpl; by rewrite Hw0, app_nil_r].
      + eexists (-1), _. split; [done |]. split; [lia |]. split; [| done]. intros s3 ->. cbn [Z.ltb Z.compare].
        assert (Et : take (Z.to_nat (zlen b)) (b ++ w) = b) by (unfold zlen; rewrite Nat2Z.id; apply take_app_length).
        rewrite Et. eapply (good_moved s _ b b); try done. simpl. exists i. split; [done |]. split; [done |]. simpl. apply lookup_insert_eq. }
  destruct H as (m & s2 & E & Hm & Hgood & Hds & Hbuf). rewrite (abind_run _ _ _ _ _ E), get_run.
  destruct (aof_fsync s2 =? AOF_FSYNC_ALWAYS).
  - specialize (Hgood s2 eq_refl). destruct (Z.ltb_spec 0 m).
    + destruct Hgood as [_ _ (b' & (j & Hj1 & Hj2 & Hj3) & _ & Hl) _ _]. simpl in *. exists j, b', (drop (Z.to_nat m) (aof_buf s)), (aof_selected_db s2). done.
    + destruct Hgood as [_ _ (b' & (j & Hj1 & Hj2 & Hj3) & _ & Hl) _ _]. exists j, b', (aof_buf s2), (aof_selected_db s2). done.
  - rewrite upd_run. specialize (Hgood s2 eq_refl). destruct (0 <? m).
    + rewrite upd_run. simpl. rewrite Hbuf. split; [| done]. destruct Hgood as [? ? (b' & ? & ? & ?) ? ?]. by split; [| | exists b' | |].
    + simpl. split; [| done]. destruct Hgood as [? ? (b' & ? & ? & ?) ? ?]. by split; [| | exists b' | |].
Qed.

Lemma flush_ok force s : good s -> ends (flushAppendOnlyFile force s) (fun s' => good s' /\ dataset s' = dataset s).
Proof.
  intros G. unfold flushAppendOnlyFile. rewrite get_run. destruct (zlen (aof_buf s) =? 0); [by split |]. rewrite get_run.
  assert (H : exists e l, (if aof_fsync s =? AOF_FSYNC_EVERYSEC then fails else mret false) s = Ret e (set_answers l s)).
  { destruct (aof_fsync s =? AOF_FSYNC_EVERYSEC); [apply fails_run |]. exists false, (answers s). by destruct s. }
  destruct H as (e & l & E). rewrite (abind_run _ _ _ _ _ E), !get_run. set (s1 := set_answers l s).
  assert (G1 : good s1) by (by apply good_answers).
  assert (Gt : forall v, good (set_aof_flush_postponed_start v s1)).
  { intros v. destruct G1 as [? ? (b' & ? & ? & ?) ? ?]. by split; [| | exists b' | |]. }
  destruct (_ && _ && _ && (_ =? 0)); [by split |]. destruct (_ && _ && _ && _); [by split |].
  rewrite upd_run. set (s2 := set_aof_flush_postponed_start 0 s1). pose proof (Gt 0) as G2. fold s2 in G2. rewrite get_run.
  pose proof G2 as [_ _ (b & (i & Hi1 & Hi2 & Hi3) & Hsz & _) _ _].
  destruct (write_run (aof_fd s2) (aof_buf s) i b s2 Hi1 Hi3) as (n & l2 & Ew & Hn). rewrite (abind_run _ _ _ _ _ Ew).
  destruct (Z.eqb_spec n (zlen (aof_buf s))) as [En|En]; cbn [negb].
  - rewrite !upd_run. pose proof (zlen_nonneg (aof_buf s)). rewrite (proj2 (Z.eqb_neq n (-1))) by lia. simpl. split; [| done].
    assert (Et : take (Z.to_nat n) (aof_buf s) = aof_buf s) by (rewrite En; unfold zlen; rewrite Nat2Z.id; apply firstn_all).
    eapply (good_moved s2 _ b (b ++ aof_buf s)); try done.
    + by exists i.
    + simpl. rewrite Et. by eapply file_at_set.
    + simpl. rewrite zlen_app, <- Hsz, En. done.
    + simpl. by rewrite app_nil_r.
  - apply (write_failed_ok s2 n l2 i b); try done; change (aof_buf s2) with (aof_buf s); lia.
Qed.

(** ** Lemmas: rewriting *)

Lemma background_ok s : good s -> exists r s', rewriteAppendOnlyFileBackground s = Ret r s' /\ good s' /\ dataset s' = dataset s.
Proof.
  intros G. pose proof G as [Hon Hfd (b & Hf & Hsz & Hlog) Hbl Hch]. unfold rewriteAppendOnlyFileBackground. rewrite get_run.
  destruct (Z.eqb_spec (aof_child_pid s) (-1)) as [Ep|Ep]; cbn [negb]; [| by eexists _, s].
  destruct (answer_run s) as (a & l & E). rewrite (abind_run _ _ _ _ _ E). cbv zeta.
  destruct (Z.leb_spec (default 1 a) 0) as [Ha|Ha]; [eexists _, _; split; [done |]; split; [by apply good_answers | done] |].
  rewrite !upd_run. eexists _, _. split; [done |]. split; [| done]. split; try done; simpl.
  - exists b. split; [done |]. split; [done |]. destruct Hlog as (cmds & d & k' & ? & ? & ? & ? & _). exists cmds, d, k'. do 4 (split; [done |]). by left.
  - rewrite (proj2 (Z.eqb_neq _ _)) by lia. rewrite Hch. exists []. split; [done |]. split; [done |]. intros d. exists d, (dataset s). split; [done |]. split; [done | by left].
Qed.

(** An outcome of the handler that leaves the log as it was. *)
Lemma cleanup_ok s : 
  aof_state s = REDIS_AOF_ON -> aof_fd s <> -1 ->
  (exists b, file_at (system s) (aof_fd s) b /\ aof_current_size s = zlen b /\ logs (b ++ aof_buf s) (aof_selected_db s) (dataset s)) ->
  exists s', rewrite_cleanup s = Ret tt s' /\ good s' /\ dataset s' = dataset s.
Proof.
  intros Hon Hfd Hf. unfold rewrite_cleanup, aofRewriteBufferReset, aofRemoveTempFile, unlink, os_upd. rewrite !upd_run, get_run, !upd_run, get_run. simpl. rewrite Hon.
  eexists. split; [done |]. split; [| done]. by split.
Qed.

(** The blocks into an inode. *)
Lemma write_blocks_run fd i blocks : forall count b s,
  Forall block_ok blocks -> 0 <= count -> fds (system s) !! fd = Some i -> inodes (system s) !! i = Some b ->
  exists r l o x, write_blocks fd blocks count s = Ret r (set_system o (set_answers l s)) /\
    fds o = fds (system s) /\ aof_name o = aof_name (system s) /\ temp_names o = temp_names (system s) /\
    inodes o = <[i := x]> (inodes (system s)) /\ (r = -1 \/ 0 <= r /\ x = b ++ blocks_text blocks).
Proof.
  induction blocks as [|bk blocks IH]; intros count b s Hok Hc Hfd Hb.
  - exists count, (answers s), (system s), b. split; [by destruct s |]. do 3 (split; [done |]). split; [by rewrite insert_id |].
    right. split; [done |]. by rewrite app_nil_r.
  - apply Forall_cons in Hok as [(Hu & Hsum & Hfr) Hok]. pose proof (zlen_nonneg (buf bk)) as Hnn. cbn [write_blocks]. unfold blocks_text. cbn [map concat]. fold (blocks_text blocks).
    destruct (Z.eqb_spec (used bk) 0) as [E0|E0]; cbn [negb].
    + assert (buf bk = []) as -> by (destruct (buf bk); [done | rewrite zlen_cons in Hu; pose proof (zlen_nonneg l); lia]). by apply IH.
    + destruct (write_run fd (buf bk) i b s Hfd Hb) as (n & l & Ew & Hn). rewrite (abind_run _ _ _ _ _ Ew).
      destruct (Z.eqb_spec n (used bk)) as [En|En]; cbn [negb].
      * rewrite (proj2 (Z.eqb_neq n (-1))) by lia. set (s1 := set_system _ _).
        assert (Et : take (Z.to_nat n) (buf bk) = buf bk) by (rewrite En, Hu; unfold zlen; rewrite Nat2Z.id; apply firstn_all).
        destruct (IH (count + n) (b ++ buf bk) s1 Hok) as (r & l2 & o & x & E & E1 & E2 & E3 & E4 & E5); [lia | done | simpl; rewrite Et; apply lookup_insert_eq |].
        exists r, l2, o, x. split; [exact E |]. split; [done |]. split; [done |]. split; [done |]. split; [rewrite E4; simpl; by rewrite insert_insert_eq |].
        destruct E5 as [-> | [? ->]]; [by left | right]. split; [done |]. by rewrite <- (assoc_L (++)).
      * exists (-1). destruct (n =? -1).
        -- exists l, (system s), b. split; [done |]. do 3 (split; [done |]). split; [by rewrite insert_id | by left].
        -- eexists l, _, _. split; [done |]. do 3 (split; [done |]). split; [done | by left].
Qed.

(** The dump of a child: commands that lead from the empty server to its data. *)
Definition dump_ok (dump : list Z) (k : K) : Prop :=
  exists cmds d k', dump = NetworkSpec.enc_stream cmds /\ Forall aof_command_ok cmds /\ replay run_log cmds (0, k0) = Some (d, k') /\ R k' k.

Lemma open_run n i s :
  lookup_name (system s) n = Some i ->
  exists l, open_file n false s = Ret (-1) (set_answers l s) \/
    open_file n false s = Ret (lowest_fd (fds (system s))) (set_system (set_fds (<[lowest_fd (fds (system s)) := i]> (fds (system s))) (system s)) (set_answers l s)).
Proof.
  intros Hn. destruct (fails_run s) as (e & l & E). exists l. unfold open_file. rewrite (abind_run _ _ _ _ _ E). destruct e; [by left | right].
  rewrite get_run. change (system (set_answers l s)) with (system s). rewrite Hn. unfold new_fd. rewrite get_run. done.
Qed.

Lemma rename_run old new i s :
  lookup_name (system s) old = Some i ->
  exists l, rename old new s = Ret (-1) (set_answers l s) \/
    rename old new s = Ret 0 (set_system (set_name new (Some i) (set_name old None (system s))) (set_answers l s)).
Proof.
  intros Hn. destruct (fails_run s) as (e & l & E). exists l. unfold rename. rewrite (abind_run _ _ _ _ _ E), get_run.
  change (system (set_answers l s)) with (system s). rewrite Hn. destruct e; [by left | by right].
Qed.

Lemma installed_ok s fd b k :
  aof_state s = REDIS_AOF_ON -> aof_fd s <> -1 -> aof_fd s <> fd -> fd <> -1 -> dataset s = k ->
  file_at (system s) fd b -> logs b (-1) k ->
  exists s', rewrite_installed fd (-1) false s = Ret tt s' /\ aof_state s' = REDIS_AOF_ON /\ aof_fd s' <> -1 /\ dataset s' = k /\
    exists b', file_at (system s') (aof_fd s') b' /\ aof_current_size s' = zlen b' /\ logs (b' ++ aof_buf s') (aof_selected_db s') (dataset s').
Proof.
  intros Hon Hfd Hne Hne1 Hk (i & Hi1 & Hi2 & Hi3) Hl. unfold rewrite_installed. rewrite get_run.
  rewrite (proj2 (Z.eqb_neq _ _) Hfd).
  set (s1 := set_aof_buf [] (set_aof_current_size (zlen b) (set_aof_selected_db (-1) (set_aof_fd fd s)))).
  rewrite (abind_run _ _ s (aof_fd s) s1).
  2: { rewrite !upd_run. unfold aofUpdateCurrentSize, fstat. unfold mbind, M_bind, get, mret, M_ret, upd. simpl. by rewrite Hi1; simpl; rewrite Hi3. }
  rewrite upd_run, get_run. simpl. rewrite Hon. cbn [Z.eqb REDIS_AOF_WAIT_REWRITE REDIS_AOF_ON].
  rewrite (abind_run _ _ _ tt (set_aof_lastbgrewrite_status REDIS_OK s1) eq_refl). rewrite (proj2 (Z.eqb_neq _ _) Hfd). cbn [negb].
  eexists. split; [done |]. split; [done |]. split; [done |]. split; [done |]. exists b. simpl.
  split; [exists i; simpl; split; [by rewrite lookup_delete_ne | done] |]. split; [done |]. by rewrite app_nil_r, Hk.
Qed.

Lemma child_exit_ok s exitcode bysignal dump :
  good s -> (bysignal = 0 -> exitcode = 0 -> dump_ok dump (child_data s)) ->
  exists s', handle (ChildExit exitcode bysignal dump false) s = Ret tt s' /\ good s' /\ dataset s' = dataset s.
Proof.
  intros G Hd. pose proof G as [Hon Hfdne (b & (i & Hi1 & Hi2 & Hi3) & Hsz & Hlog) Hbl Hch]. cbn [handle]. rewrite get_run.
  destruct (Z.eqb_spec (aof_child_pid s) (-1)) as [Ep|Ep]; [by exists s |]. rewrite get_run. unfold os_upd. rewrite upd_run.
  set (i1 := fresh_inode (system s)). assert (Hfresh : i1 ∉ (dom (inodes (system s)) : gset nat)) by (unfold i1, fresh_inode; apply is_fresh).
  assert (Hne : i1 <> i) by (intros <-; apply Hfresh; apply elem_of_dom; eauto).
  set (o1 := set_name (TempFile (aof_child_pid s)) (Some i1) (set_inode i1 dump (system s))). set (s1 := set_system o1 s).
  unfold backgroundRewriteDoneHandler.
  (* the file of [s1] and of later states, while nothing touches it *)
  assert (Hkeep : forall o l, fds o !! aof_fd s = Some i -> aof_name o = Some i -> inodes o !! i = Some b ->
    exists s', rewrite_cleanup (set_system o (set_answers l s1)) = Ret tt s' /\ good s' /\ dataset s' = dataset s).
  { intros o l H1 H2 H3. apply (cleanup_ok (set_system o (set_answers l s1))); [done | done |]. exists b. split; [by exists i | done]. }
  assert (Hi3' : inodes o1 !! i = Some b) by (simpl; by rewrite lookup_insert_ne).
  destruct ((bysignal =? 0) && (exitcode =? 0)) eqn:Eok.
  2: { rewrite (abind_run _ _ s1 tt (set_aof_lastbgrewrite_status REDIS_ERR s1) eq_refl). apply (cleanup_ok (set_aof_lastbgrewrite_status REDIS_ERR s1)); [done | done |]. exists b. split; [by exists i | done]. }
  apply andb_true_iff in Eok as [Eb%Z.eqb_eq Ee%Z.eqb_eq]. specialize (Hd Eb Ee).
  match goal with |- exists s', (?m ≫= _) s1 = _ /\ _ =>
    assert (Hin : exists s5, m s1 = Ret tt s5 /\ exists s', rewrite_cleanup s5 = Ret tt s' /\ good s' /\ dataset s' = dataset s) end.
  2: { destruct Hin as (s5 & E5 & s' & E6 & H). exists s'. by rewrite (abind_run _ _ _ _ _ E5). }
  rewrite get_run. change (aof_child_pid s1) with (aof_child_pid s).
  assert (Hnm : lookup_name (system s1) (TempFile (aof_child_pid s)) = Some i1) by (simpl; apply lookup_insert_eq).
  destruct (lowest_fd_spec (fds (system s))) as [Hlow Hlow0]. set (fd := lowest_fd (fds (system s))) in *.
  assert (Hfdn : aof_fd s <> fd) by (intros E; rewrite E in Hi1; congruence).
  destruct (open_run _ i1 s1 Hnm) as (l1 & [E1|E1]).
  { eexists. split; [by rewrite (abind_run _ _ _ _ _ E1) | by apply (Hkeep o1 l1)]. }
  change (lowest_fd (fds (system s1))) with fd in E1. set (o2 := set_fds (<[fd := i1]> (fds (system s1))) (system s1)) in E1. set (s2 := set_system o2 (set_answers l1 s1)) in E1.
  assert (Hdump : inodes o2 !! i1 = Some dump) by (simpl; apply lookup_insert_eq).
  destruct (write_blocks_run fd i1 (aof_rewrite_buf_blocks s) 0 dump s2) as (r & l3 & o3 & x & E3 & F1 & F2 & F3 & F4 & F5); [apply Hbl | done | simpl; apply lookup_insert_eq | done |].
  assert (Hi1' : fds o3 !! aof_fd s = Some i) by (rewrite F1; simpl; by rewrite lookup_insert_ne).
  assert (Hi2' : aof_name o3 = Some i) by (by rewrite F2).
  assert (Hi3'' : inodes o3 !! i = Some b) by (rewrite F4; rewrite lookup_insert_ne by done; done).
  set (s3 := set_system o3 (set_answers l3 s2)) in E3.
  destruct F5 as [-> | [Hr ->]].
  { eexists. split; [rewrite (abind_run _ _ _ _ _ E1), (proj2 (Z.eqb_neq fd (-1))) by lia; unfold aofRewriteBufferWrite; rewrite (abind_run _ _ s2 (-1) s3) by exact E3; done |].
    apply (Hkeep (set_fds (delete fd (fds o3)) o3) l3); [simpl; by rewrite lookup_delete_ne | done | done]. }
  assert (Hnm3 : lookup_name (system s3) (TempFile (aof_child_pid s)) = Some i1) by (simpl; rewrite F3; simpl; apply lookup_insert_eq).
  destruct (rename_run _ AofFile i1 s3 Hnm3) as (l4 & [E4|E4]).
  - eexists. split; [rewrite (abind_run _ _ _ _ _ E1), (proj2 (Z.eqb_neq fd (-1))) by lia; unfold aofRewriteBufferWrite; rewrite (abind_run _ _ s2 r s3) by exact E3;
      rewrite (proj2 (Z.eqb_neq r (-1))) by lia; rewrite get_run, (proj2 (Z.eqb_neq _ _)) by done; rewrite (abind_run _ _ s3 (-1) s3 eq_refl), (abind_run _ _ _ _ _ E4); done |].
    apply (Hkeep (set_fds (delete fd (fds o3)) o3) l4); [simpl; by rewrite lookup_delete_ne | done | done].
  - set (o4 := set_name AofFile (Some i1) (set_name (TempFile (aof_child_pid s)) None (system s3))) in E4. set (s4 := set_system o4 (set_answers l4 s3)) in E4.
    assert (Hlog4 : logs (dump ++ blocks_text (aof_rewrite_buf_blocks s)) (-1) (dataset s)).
    { destruct Hd as (cm & d & k1 & -> & Hok & Hrep & H1). destruct Hch as (cm' & Ec & Hok' & Hrep'). destruct (Hrep' d) as (d' & k2 & Hr' & H2 & _).
      destruct (replay_chain _ _ _ _ _ _ _ _ _ Hrep H1 Hr') as (k3 & E3' & H3).
      exists (cm ++ cm'), d', k3. rewrite enc_stream_app, Ec. split; [done |]. split; [by apply Forall_app |]. split; [done |]. split; [by trans k2 | by left]. }
    destruct (installed_ok s4 fd (dump ++ blocks_text (aof_rewrite_buf_blocks s)) (dataset s)) as (s5 & E5 & H5a & H5b & H5c & H5d); try done; [lia | |].
    { exists i1. simpl. rewrite F1. simpl. split; [apply lookup_insert_eq |]. split; [done |]. rewrite F4. apply lookup_insert_eq. }
    destruct (cleanup_ok s5 H5a H5b H5d) as (s6 & E6 & G6 & Hk6). exists s5. split; [| exists s6; by rewrite Hk6].
    rewrite (abind_run _ _ _ _ _ E1), (proj2 (Z.eqb_neq fd (-1))) by lia. unfold aofRewriteBufferWrite. rewrite (abind_run _ _ s2 r s3) by exact E3.
    rewrite (proj2 (Z.eqb_neq r (-1))) by lia. rewrite get_run, (proj2 (Z.eqb_neq _ _)) by done. rewrite (abind_run _ _ s3 (-1) s3 eq_refl), (abind_run _ _ _ _ _ E4). exact E5.
Qed.

(** ** Events *)

Lemma bgrewrite_ok s : good s -> exists r s', bgrewriteaofCommand s = Ret r s' /\ good s'.
Proof.
  intros G. unfold bgrewriteaofCommand. rewrite !get_run. destruct (negb (aof_child_pid s =? -1)); [by eexists _, s |].
  destruct (negb (rdb_child_pid s =? -1)); [eexists _, _; split; [done | by destruct G] |].
  destruct (background_ok s G) as (r & s' & E & G' & _). rewrite (abind_run _ _ _ _ _ E). by eexists _, s'.
Qed.

Lemma cron_ok now every_second s : good s -> ends (serverCron now every_second s) good.
Proof.
  intros G. unfold serverCron. rewrite upd_run, !get_run. set (s1 := set_unixtime now s).
  assert (G1 : good s1) by (by destruct G). apply (ends_bind _ _ _ good).
  - destruct (_ && _ && _); [| done]. destruct (background_ok s1 G1) as (r & s' & E & G' & _). by rewrite (abind_run _ _ _ _ _ E).
  - intros _ s2 G2. rewrite get_run. apply (ends_bind _ _ _ good).
    + destruct (negb _); [| done]. pose proof (flush_ok false s2 G2) as H. unfold ends in *. by destruct (flushAppendOnlyFile false s2); [destruct H | |].
    + intros _ s3 G3. rewrite get_run. destruct (every_second && _); [| done].
      pose proof (flush_ok false s3 G3) as H. unfold ends in *. by destruct (flushAppendOnlyFile false s3); [destruct H | |].
Qed.

(** What an event may be in a state: a command that changes the data as its translation
    does, up to [R]; the dump of the child is that of its data.  fstat() of the new file works:
    AofThms.fstat_failure_corrupts shows what happens when it does not. *)
Definition event_ok (e : event) s : Prop :=
  match e with
  | Fed cmd db argv now after => fed_ok (dataset s) cmd db argv now after
  | ChildExit exitcode bysignal dump fstat_err => fstat_err = false /\ (bysignal = 0 -> exitcode = 0 -> dump_ok dump (child_data s))
  | _ => True
  end.

Fixpoint events_ok (l : list (event * list Z)) s : Prop :=
  match l with
  | [] => True
  | (e, a) :: l => event_ok e s /\ match handle e (set_answers a s) with Ret _ s' => events_ok l s' | _ => True end
  end.

Lemma handle_ok e s : good s -> event_ok e s -> ends (handle e s) good.
Proof.
  intros G. destruct e as [cmd db argv now after| | |exitcode bysignal dump err|now sec]; intros He.
  - cbn [handle]. rewrite upd_run. unfold propagate. rewrite get_run. change (aof_state (set_dataset after s)) with (aof_state s). rewrite (gd_on _ G).
    destruct (feed_ok s cmd db argv now after G He) as (s' & E & G'). cbn [Z.eqb negb REDIS_AOF_ON REDIS_AOF_OFF]. rewrite E. exact G'.
  - cbn [handle]. pose proof (flush_ok false s G) as H. unfold ends in *. by destruct (flushAppendOnlyFile false s); [destruct H | |].
  - cbn [handle]. destruct (bgrewrite_ok s G) as (r & s' & E & G'). rewrite (abind_run _ _ _ _ _ E). exact G'.
  - destruct He as [-> Hd]. destruct (child_exit_ok s exitcode bysignal dump G Hd) as (s' & E & G' & _). by rewrite E.
  - by apply cron_ok.
Qed.

Lemma event_ok_answers e a s : event_ok e (set_answers a s) <-> event_ok e s.
Proof. by destruct e. Qed.

Lemma handle_all_ok l : forall s, good s -> events_ok l s -> ends (handle_all l s) good.
Proof.
  induction l as [|[e a] l IH]; intros s G Hl; [done |]. destruct Hl as [He Hl]. cbn [handle_all]. rewrite upd_run.
  pose proof (handle_ok e (set_answers a s) (good_answers a s G) (proj2 (event_ok_answers e a s) He)) as H.
  unfold mbind, M_bind. destruct (handle e (set_answers a s)) as [x s1|s1|]; [by apply IH | done | done].
Qed.

Lemma start_ok policy fd b k : fd <> -1 -> dump_ok b k -> good (start_server policy fd b k).
Proof.
  intros Hfd (cmds & d & k' & -> & Hok & Hr & H1). split; try done; simpl.
  exists (NetworkSpec.enc_stream cmds). split; [exists O; simpl; by rewrite !lookup_singleton_eq |]. split; [done |].
  exists cmds, d, k'. rewrite app_nil_r. do 4 (split; [done |]). by left.
Qed.

End Server.
