(* ===== verification/AofThms.v ===== *)
(** * aof.c: theorems *)

From Stdlib Require Import Ascii String.
From S2P Require Import Prelude Util Sds Server ServerFacts ObjFacts Robj Network NetworkFacts Aof AofFacts AofLog.

Section Theorems.
Context {K : Type} (k0 : K) (apply : Z -> list (list Z) -> K -> option K) (in_multi : K -> bool) (R : K -> K -> Prop).

(** What the loader makes of a file: data that are [k] up to [R], in some database. *)
Definition loads (f : list Z) (k : K) : Prop :=
  exists k', R k' k /\
  ((exists d, loadAppendOnlyFile (run_log apply) (fun t => in_multi (snd t)) f (0, k0) = Some (Loaded (d, k'))) \/
   f = [] /\ k' = k0 /\ loadAppendOnlyFile (run_log apply) (fun t => in_multi (snd t)) f (0, k0) = Some EmptyFile).

Definition aof_file (s : @server K) : option (list Z) := i ← aof_name (system s); inodes (system s) !! i.

Lemma logs_loads f sel k :
  (forall k1 k2, R k1 k2 -> in_multi k1 = in_multi k2) -> logs k0 apply R f sel k -> in_multi k = false -> loads f k.
Proof.
  intros HM (cmds & d & k' & -> & Hok & Hr & H & _) Hm. exists k'. split; [done |]. destruct cmds as [|c cmds].
  - injection Hr as _ <-. by right.
  - left. exists d. apply load_ok; [done | done | done |]. cbn [snd]. by rewrite (HM _ _ H).
Qed.

(** C5. Durability of the append only file: from a server that has loaded its file, through
    any commands, flushes, rewrites and ends of children, and whatever the system answers to
    open, write, ftruncate, rename and fork, no assertion fails, and the file followed by
    the buffer that is still in memory loads to the data of the server: nothing is lost,
    doubled or run in another database, when a write is short or a rewrite fails too. If the
    server exits since it cannot write, the file is the start of such a log. Two limits. The
    data that the file loads to are those of the server up to [R], a preorder that commands
    keep: the code reads the clock once when EXPIRE or SETEX changes the data and again when
    it translates the command for the file, so that the time in the file can be later; with
    equality for [R] the two clocks agree. And fstat() is assumed to work, when the file is
    loaded and when a rewrite is installed ([event_ok]): after an error of it the code keeps
    the size of the old file, with the effect that [fstat_failure_corrupts] shows. *)
Theorem aof_durable policy fd b k l :
  PreOrder R ->
  (forall db c k1 k2 k2', R k1 k2 -> apply db c k2 = Some k2' -> exists k1', apply db c k1 = Some k1' /\ R k1' k2') ->
  (forall k1 k2, R k1 k2 -> in_multi k1 = in_multi k2) ->
  fd <> -1 -> dump_ok k0 apply R b k -> events_ok k0 apply R l (start_server policy fd b k) ->
  match handle_all l (start_server policy fd b k) with
  | Ret _ s => exists f, aof_file s = Some f /\ (in_multi (dataset s) = false -> loads (f ++ aof_buf s) (dataset s))
  | Exit s => exists f pending, aof_file s = Some f /\ (in_multi (dataset s) = false -> loads (f ++ pending) (dataset s))
  | Crash => False
  end.
Proof.
  intros HR Hmono HM Hfd Hb Hl. pose proof (handle_all_ok k0 apply R Hmono l _ (start_ok k0 apply R policy fd b k Hfd Hb) Hl) as H.
  destruct (handle_all l (start_server policy fd b k)) as [x s|s|]; [| | done].
  - destruct H as [_ _ (f & (i & _ & Hi & Hf) & _ & Hlog) _ _]. exists f. unfold aof_file. rewrite Hi. split; [done |]. by apply (logs_loads _ (aof_selected_db s) _ HM).
  - destruct H as (i & f & pending & sel & Hi & Hf & Hlog). exists f, pending. unfold aof_file. rewrite Hi. split; [done |]. by apply (logs_loads _ sel _ HM).
Qed.

End Theorems.

(** C27. A log that is cut anywhere, as a crash can leave it, is loaded up to the end of one
    of its commands, or refused: the loader never reads past the end of the file, never runs
    part of a command, and never accepts a file that ends in a transaction. *)
Theorem aof_truncated {T} (run : list (list Z) -> T -> option T) (in_multi : T -> bool) cmds n t t' :
  Forall aof_command_ok cmds -> replay run cmds t = Some t' ->
  let f := take n (NetworkSpec.enc_stream cmds) in
  exists r, loadAppendOnlyFile run in_multi f t = Some r /\
    (r = ReadErr \/ r = FmtErr \/ f = [] /\ r = EmptyFile \/
     exists j tj, f = NetworkSpec.enc_stream (take j cmds) /\ replay run (take j cmds) t = Some tj /\ in_multi tj = false /\ r = Loaded tj).
Proof.
  intros Hok Hr f. unfold loadAppendOnlyFile. destruct (Z.eqb_spec (zlen f) 0) as [E|E].
  { exists EmptyFile. split; [done |]. right; right; left. split; [| done]. unfold zlen in E. by destruct f. }
  destruct (load_loop_cut run in_multi cmds (S (length f)) n t t' Hok Hr) as (r & Er & H); [unfold f; lia |].
  exists r. split; [done |]. destruct H as [[-> | ->] | H]; [by left | by right; left | by right; right; right].
Qed.

(** A negative length in the file is a huge one, and the size of the string overflows. *)
Theorem negative_length_overflows {T} (run : list (list Z) -> T -> option T) (in_multi : T -> bool) t :
  loadAppendOnlyFile run in_multi (str "*1" ++ crlf ++ str "$-1" ++ crlf) t = None.
Proof. reflexivity. Qed.

(** ** Switching on while a child rewrites the file *)

(** startAppendOnly fails, and leaves in [aof_fd] the descriptor that it has closed, which
    is the next that the system gives. *)
Theorem startAppendOnly_dangling {K} (s : @server K) i :
  aof_state s = REDIS_AOF_OFF -> aof_child_pid s <> -1 -> answers s = [] -> aof_name (system s) = Some i ->
  exists s', startAppendOnly s = Ret REDIS_ERR s' /\ aof_state s' = REDIS_AOF_OFF /\ aof_fd s' <> -1 /\
    fds (system s') = fds (system s) /\ aof_fd s' = lowest_fd (fds (system s')).
Proof.
  intros Hst Hpid Ha Hi. destruct (lowest_fd_spec (fds (system s))) as [Hl Hl0].
  unfold startAppendOnly, open_file, fails, answer, rewriteAppendOnlyFileBackground, new_fd, redisAssert, close, os_upd, get, upd, mbind, M_bind, mret, M_ret.
  rewrite Ha. simpl. rewrite Hi. simpl. rewrite Hst. simpl. rewrite (proj2 (Z.eqb_neq _ _)) by lia. rewrite (proj2 (Z.eqb_neq _ _)) by done. simpl.
  eexists. split; [done |]. simpl. rewrite delete_insert_id by done. split; [done |]. split; [lia | done].
Qed.

(** Then a client connects and gets that descriptor, and the end of the child closes it:
    the file is off, but the handler takes [aof_fd] for the file. *)
Definition off_server : @server unit :=
  AofServer REDIS_AOF_OFF AOF_FSYNC_EVERYSEC (-1) (-1) [] [] 7 (-1) false 0 0 REDIS_OK REDIS_OK 0
    (Os {[O := []]} (Some O) ∅ {[0 := 90%nat; 1 := 91%nat; 2 := 92%nat]}) [] tt tt.

Definition dangling_run : outcome Z :=
  (r ← startAppendOnly;
   client ← new_fd 99;
   _ ← handle (ChildExit 0 0 [] false);
   mret client) off_server.

Example dangling_closes_client :
  match dangling_run with Ret client s => (client, fds (system s) !! client, aof_state s) | _ => (0, None, 0) end = (3, None, REDIS_AOF_OFF).
Proof. vm_compute. reflexivity. Qed.

(** ** Switching off after a failed write *)

(** The buffer and the error stay, and the flushes that follow fail: writes are refused. *)
Example stop_stuck :
  match (_ ← stopAppendOnly; _ ← upd (set_answers []); flushAppendOnlyFile true)
    (set_answers [0; -1] (set_aof_buf [42] (start_server AOF_FSYNC_EVERYSEC 3 [] tt))) with
  | Ret _ s => (aof_state s, aof_fd s, aof_buf s, aof_last_write_status s)
  | _ => (0, 0, [], 0)
  end = (REDIS_AOF_OFF, -1, [42], REDIS_ERR).
Proof. vm_compute. reflexivity. Qed.

(** ** An error of fstat after a rewrite *)

(** The data are the value of one key. *)
Definition put (db : Z) (argv : list (list Z)) (k : list Z) : option (list Z) := Some (nth 2 argv []).
Definition put_command (v : string) : list (list Z) := [str "SET"; str "k"; str v].

(** Two SETs are written; a child rewrites the file, which is shorter then; a third SET has
    a short write, that ftruncate undoes. [fstat_err] is the answer to fstat() when the
    rewrite is installed. *)
Definition fstat_events (fstat_err : bool) : list (event * list Z) :=
  [(Fed ProcOther 0 (put_command "first") 5 (str "first"), []);
   (Fed ProcOther 0 (put_command "second") 5 (str "second"), []);
   (BeforeSleep, []);
   (BgRewrite, [77]);
   (ChildExit 0 0 (NetworkSpec.enc_stream [select 0; put_command "second"]) fstat_err, []);
   (Fed ProcOther 0 (put_command "third") 6 (str "third"), []);
   (BeforeSleep, [0; 10; 0])].

Definition fstat_run (fstat_err : bool) : option loaded :=
  match handle_all (fstat_events fstat_err) (start_server AOF_FSYNC_EVERYSEC 3 [] []) with
  | Ret _ s => f ← aof_file s; loadAppendOnlyFile (run_log put) (fun _ => false) (f ++ aof_buf s) (0, [])
  | _ => None
  end.

(** After the error ftruncate gives the new file the size of the old one, and the server
    does not load it. *)
Theorem fstat_failure_corrupts : fstat_run false = Some (Loaded (0, str "third")) /\ fstat_run true = Some FmtErr.
Proof. split; vm_compute; reflexivity. Qed.

(** ** Examples *)

(** The data of the examples are the commands that were run, with their databases. *)
Definition journal : Type := list (Z * list (list Z)).
Definition note (db : Z) (argv : list (list Z)) (k : journal) : option journal := Some (k ++ [(db, argv)]).

(** The entry of the file is that of the memory, but the time of a PEXPIREAT may be later. *)
Definition is_at (argv : list (list Z)) : bool := bool_decide (hd [] argv = str "PEXPIREAT").
Definition at_time (argv : list (list Z)) : Z := if is_at argv then default 0 (parse_ll (nth 2 argv [])) else 0.
Definition later_entry (e1 e2 : Z * list (list Z)) : Prop :=
  fst e1 = fst e2 /\ (if is_at (snd e1) then take 2 (snd e1) else snd e1) = (if is_at (snd e2) then take 2 (snd e2) else snd e2) /\
  at_time (snd e2) <= at_time (snd e1).
Definition later : journal -> journal -> Prop := Forall2 later_entry.

#[global] Instance later_entry_pre : PreOrder later_entry.
Proof.
  split; [intros e; split; [done | split; [done | lia]] |].
  intros e1 e2 e3 (H1 & H2 & H3) (H4 & H5 & H6). split; [congruence | split; [congruence | lia]].
Qed.

#[global] Instance later_pre : PreOrder later.
Proof. unfold later. apply _. Qed.

Lemma later_mono db c k1 k2 k2' : later k1 k2 -> note db c k2 = Some k2' -> exists k1', note db c k1 = Some k1' /\ later k1' k2'.
Proof. intros H [= <-]. eexists. split; [done |]. apply Forall2_app; [done |]. by repeat constructor. Qed.

Definition demo_set : list (list Z) := [str "SET"; str "k"; str "v"].
Definition demo_expire : list (list Z) := [str "EXPIRE"; str "k"; str "10"].
Definition demo_at : list (list Z) := pexpireat (str "k") (10 * 1000 + 5).
Definition demo_del : list (list Z) := [str "DEL"; str "k"].

Definition demo_journal : journal := [(0, demo_set); (1, demo_at)].
Definition demo_dump : list Z := NetworkSpec.enc_stream [select 0; demo_set; select 1; demo_at].

(** Two commands, the second at the time 5 in memory and 6 in the file; a short write that
    ftruncate cannot undo; a rewrite, with a command during it, whose child ends well; a
    write that fails. *)
Definition aof_demo_events : list (event * list Z) :=
  [(Fed ProcOther 0 demo_set 5 [(0, demo_set)], []);
   (Fed ProcExpire 1 demo_expire 6 demo_journal, []);
   (BeforeSleep, [0; 20; -1]);
   (BgRewrite, [77]);
   (Fed ProcOther 1 demo_del 6 (demo_journal ++ [(1, demo_del)]), []);
   (ChildExit 0 0 demo_dump false, []);
   (Cron 9 true, [0; -1])].

Lemma events_ok_cons {K} k0 apply R e a l (s s' : @server K) :
  event_ok k0 apply R e s -> handle e (set_answers a s) = Ret tt s' -> events_ok k0 apply R l s' -> events_ok k0 apply R ((e, a) :: l) s.
Proof. intros H1 H2 H3. cbn [events_ok]. by rewrite H2. Qed.

Lemma demo_fed_other db argv now (k k' : journal) :
  0 <= db < 2 ^ 31 -> aof_command_ok argv -> hd [] argv <> str "SELECT" -> k' = k ++ [(db, argv)] -> fed_ok note later k ProcOther db argv now k'.
Proof. intros H1 H2 H3 ->. split; [done |]. split; [done |]. exists [argv]. eexists. split; [constructor | split; [by constructor | done]]. Qed.

Lemma demo_fed_expire (k : journal) : fed_ok note later k ProcExpire 1 demo_expire 6 (k ++ [(1, demo_at)]).
Proof.
  split; [done |]. split; [split; [done | split; [done | by repeat constructor]] |]. exists [pexpireat (str "k") (10 * 1000 + 6)]. eexists.
  split; [apply (TrExpire 6 ProcExpire _ _ _ 10 []); [by left | reflexivity | done | done] | split; [by constructor | split; [done |]]].
  apply Forall2_app; [done |]. constructor; [| done]. by vm_compute.
Qed.

Lemma aof_durable_witness :
  dump_ok [] note later [] [] /\ events_ok [] note later aof_demo_events (start_server AOF_FSYNC_EVERYSEC 3 [] []) /\
  match handle_all aof_demo_events (start_server AOF_FSYNC_EVERYSEC 3 [] []) with
  | Ret _ s => exists f, aof_file s = Some f /\ (false = false -> loads [] note (fun _ => false) later (f ++ aof_buf s) (dataset s))
  | Exit s => exists f pending, aof_file s = Some f /\ (false = false -> loads [] note (fun _ => false) later (f ++ pending) (dataset s))
  | Crash => False
  end.
Proof.
  assert (Hd : dump_ok [] note later [] []) by (exists [], 0, []; done).
  assert (Hl : events_ok [] note later aof_demo_events (start_server AOF_FSYNC_EVERYSEC 3 [] [])).
  { assert (Hset : aof_command_ok demo_set) by (split; [done | split; [done | by repeat constructor]]).
    assert (Hdel : aof_command_ok demo_del) by (split; [done | split; [done | by repeat constructor]]).
    assert (Hat : aof_command_ok demo_at) by (split; [done | split; [done | by repeat constructor]]).
    assert (Hsel : forall db, 0 <= db < 10 -> aof_command_ok (select db)).
    { intros db Hdb. apply select_text_ok. unfold in_s. lia. }
    unfold aof_demo_events. eapply events_ok_cons; [apply demo_fed_other; done | vm_compute; reflexivity |].
    eapply events_ok_cons; [apply (demo_fed_expire [(0, demo_set)]) | vm_compute; reflexivity |].
    eapply events_ok_cons; [done | vm_compute; reflexivity |].
    eapply events_ok_cons; [done | vm_compute; reflexivity |].
    eapply events_ok_cons; [apply demo_fed_other; done | vm_compute; reflexivity |].
    eapply events_ok_cons; [split; [done | intros _ _] | vm_compute; reflexivity |].
    { exists [select 0; demo_set; select 1; demo_at], 1. eexists. split; [done |].
      split; [repeat apply Forall_cons_2; auto; apply Hsel; lia | split; [reflexivity | done]]. }
    eapply events_ok_cons; [done | vm_compute; reflexivity |]. done. }
  split; [exact Hd |]. split; [exact Hl |].
  exact (aof_durable [] note (fun _ => false) later AOF_FSYNC_EVERYSEC 3 [] [] aof_demo_events later_pre later_mono (fun _ _ _ => eq_refl) ltac:(done) Hd Hl).
Defined.

(** The file at the end, and a server that gives up. *)
Example aof_demo_file :
  match handle_all aof_demo_events (start_server AOF_FSYNC_EVERYSEC 3 [] []) with
  | Ret _ s => option_map (fun f => f ++ aof_buf s) (aof_file s)
  | _ => None
  end = Some (demo_dump ++ NetworkSpec.enc_stream [select 1; demo_del]).
Proof. vm_compute. reflexivity. Qed.

Example aof_demo_exit :
  match handle_all [(Fed ProcOther 0 demo_set 5 [(0, demo_set)], []); (BeforeSleep, [-1])] (start_server AOF_FSYNC_ALWAYS 3 [] []) with
  | Exit s => aof_file s
  | _ => None
  end = Some [].
Proof. vm_compute. reflexivity. Qed.

Lemma aof_truncated_witness :
  let cmds := [demo_set; demo_del] in
  let f := take 40 (NetworkSpec.enc_stream cmds) in
  Forall aof_command_ok cmds /\ replay (run_log note) cmds (0, []) = Some (0, [(0, demo_set); (0, demo_del)]) /\
  exists r, loadAppendOnlyFile (run_log note) (fun _ => false) f (0, []) = Some r /\
    (r = ReadErr \/ r = FmtErr \/ f = [] /\ r = EmptyFile \/
     exists j tj, f = NetworkSpec.enc_stream (take j cmds) /\ replay (run_log note) (take j cmds) (0, []) = Some tj /\ false = false /\ r = Loaded tj).
Proof.
  intros cmds f. assert (H1 : Forall aof_command_ok cmds).
  { apply Forall_cons_2; [| apply Forall_cons_2; [| constructor]]; (split; [done | split; [done | by repeat constructor]]). }
  assert (H2 : replay (run_log note) cmds (0, []) = Some (0, [(0, demo_set); (0, demo_del)])) by (vm_compute; reflexivity).
  split; [exact H1 |]. split; [exact H2 |]. exact (aof_truncated (run_log note) (fun _ => false) cmds 40 (0, []) _ H1 H2).
Defined.
