(* ===== verification/Repl.v ===== *)
(** * replication.c: the master's side

    The backlog, the feeding of slaves, PSYNC and SYNC, and the transfer of the dump file.
    Offsets are 64-bit integers that a server does not exhaust, so they are integers. *)

From Stdlib Require Import Ascii String.
From S2P Require Import Prelude Util Sds Server Aof.

Inductive repl_state := REDIS_REPL_WAIT_BGSAVE_START | REDIS_REPL_WAIT_BGSAVE_END | REDIS_REPL_SEND_BULK | REDIS_REPL_ONLINE.
#[global] Instance repl_state_eq_dec : EqDecision repl_state.
Proof. solve_decision. Defined.

(** How a client became a slave; for the theorems, no operation reads it: with a part of the
    stream and from which offset; with a dump that was started for it, and an error that was
    queued in its output before; with the dump and the output of another slave; waiting for the
    next dump; or with a failed write. *)
Inductive joined := Partial (offset : Z) | Fresh (offset : Z) (error : list Z) | Copied (offset : Z) | Waiting (offset : Z) | Broken.

(** A slave: [reply] is its output buffer and [wire] what was written directly to its socket. *)
Record slave := Slave {
  sl_id : nat; replstate : repl_state; reply : list Z; wire : list Z; repldboff : Z; repldb : list Z; how : joined }.

Record master := Master {
  repl_backlog : option (list Z); repl_backlog_size : Z; repl_backlog_histlen : Z; repl_backlog_idx : Z; repl_backlog_off : Z;
  master_repl_offset : Z; slaveseldb : Z; slaves : list slave; rdb_child : bool; runid : list Z }.

Definition with_backlog (s : master) (b : option (list Z)) (size histlen idx off offset : Z) : master :=
  Master b size histlen idx off offset (slaveseldb s) (slaves s) (rdb_child s) (runid s).
Definition with_slaves (s : master) (l : list slave) : master :=
  Master (repl_backlog s) (repl_backlog_size s) (repl_backlog_histlen s) (repl_backlog_idx s) (repl_backlog_off s) (master_repl_offset s)
    (slaveseldb s) l (rdb_child s) (runid s).
Definition with_seldb (s : master) (db : Z) : master :=
  Master (repl_backlog s) (repl_backlog_size s) (repl_backlog_histlen s) (repl_backlog_idx s) (repl_backlog_off s) (master_repl_offset s)
    db (slaves s) (rdb_child s) (runid s).
Definition with_child (s : master) (b : bool) : master :=
  Master (repl_backlog s) (repl_backlog_size s) (repl_backlog_histlen s) (repl_backlog_idx s) (repl_backlog_off s) (master_repl_offset s)
    (slaveseldb s) (slaves s) b (runid s).

Definition set_state (x : slave) (st : repl_state) : slave := Slave (sl_id x) st (reply x) (wire x) (repldboff x) (repldb x) (how x).
Definition add_reply (b : list Z) (x : slave) : slave := Slave (sl_id x) (replstate x) (reply x ++ b) (wire x) (repldboff x) (repldb x) (how x).
Definition add_wire (b : list Z) (x : slave) : slave := Slave (sl_id x) (replstate x) (reply x) (wire x ++ b) (repldboff x) (repldb x) (how x).
Definition set_bulk (x : slave) (st : repl_state) (off : Z) (db : list Z) : slave := Slave (sl_id x) st (reply x) (wire x) off db (how x).

Definition REDIS_REPL_BACKLOG_MIN_SIZE : Z := 1024 * 16.

Section Repl.
(** The contents of memory that was just allocated. *)
Context (junk : nat -> Z).

Definition zmalloc (n : Z) : list Z := map junk (seq 0 (Z.to_nat n)).

(** ** The backlog *)

Definition createReplicationBacklog (s : master) : option master :=
  match repl_backlog s with
  | Some _ => None
  | None =>
      let offset := master_repl_offset s + 1 in
      Some (with_backlog s (Some (zmalloc (repl_backlog_size s))) (repl_backlog_size s) 0 0 (offset + 1) offset)
  end.

Definition resizeReplicationBacklog (s : master) (newsize : Z) : master :=
  let newsize := if newsize <? REDIS_REPL_BACKLOG_MIN_SIZE then REDIS_REPL_BACKLOG_MIN_SIZE else newsize in
  if repl_backlog_size s =? newsize then s else
  match repl_backlog s with
  | None => with_backlog s None newsize (repl_backlog_histlen s) (repl_backlog_idx s) (repl_backlog_off s) (master_repl_offset s)
  | Some _ => with_backlog s (Some (zmalloc newsize)) newsize 0 0 (master_repl_offset s + 1) (master_repl_offset s)
  end.

Definition freeReplicationBacklog (s : master) : option master :=
  match slaves s with
  | _ :: _ => None
  | [] => Some (with_backlog s None (repl_backlog_size s) (repl_backlog_histlen s) (repl_backlog_idx s) (repl_backlog_off s) (master_repl_offset s))
  end.

(** The loop of feedReplicationBacklog: the buffer, the index and the length of the history. *)
Fixpoint feed_loop (fuel : nat) (size : Z) (b : list Z) (idx histlen : Z) (p : list Z) (len : Z) : option (list Z * Z * Z) :=
  if len =? 0 then Some (b, idx, histlen) else
  match fuel with
  | O => None
  | S fuel =>
      let thislen := size - idx in
      let thislen := if len <? thislen then len else thislen in
      src ← rdn p 0 thislen;
      b ← wrn b idx src;
      let idx := idx + thislen in
      let idx := if idx =? size then 0 else idx in
      feed_loop fuel size b idx (histlen + thislen) (drop (Z.to_nat thislen) p) (len - thislen)
  end.

Definition feedReplicationBacklog (s : master) (p : list Z) (len : Z) : option master :=
  let offset := master_repl_offset s + len in
  b ← repl_backlog s;
  '(b, idx, histlen) ← feed_loop (Z.to_nat len) (repl_backlog_size s) b (repl_backlog_idx s) (repl_backlog_histlen s) p len;
  let histlen := if repl_backlog_size s <? histlen then repl_backlog_size s else histlen in
  Some (with_backlog s (Some b) (repl_backlog_size s) histlen idx (offset - histlen + 1) offset).

(** The bytes of an object: its string, or the digits of its integer. *)
Definition feedReplicationBacklogWithObject (s : master) (o : list Z) : option master := feedReplicationBacklog s o (zlen o).

(** ** Feeding the slaves *)

(** The loop on the arguments, into the backlog. *)
Fixpoint feed_args (s : master) (argv : list (list Z)) : option master :=
  match argv with
  | [] => Some s
  | o :: argv =>
      n ← ll_text 23 (zlen o);
      let aux := [36] ++ n ++ crlf in
      s ← feedReplicationBacklog s aux (zlen aux);
      s ← feedReplicationBacklogWithObject s o;
      s ← feedReplicationBacklog s crlf 2;
      feed_args s argv
  end.

(** addReplyMultiBulkLen and addReplyBulk of the arguments. *)
Definition slave_text (argv : list (list Z)) : option (list Z) :=
  n ← ll_text 128 (zlen argv);
  foldl (fun acc o => b ← acc; n ← ll_text 128 (zlen o); Some (b ++ [36] ++ n ++ crlf ++ o ++ crlf)) (Some ([42] ++ n ++ crlf)) argv.

Definition replicationFeedSlaves (s : master) (dictid : Z) (argv : list (list Z)) : option master :=
  if bool_decide (repl_backlog s = None) && (zlen (slaves s) =? 0) then Some s else
  if bool_decide (repl_backlog s = None) then None else
  s ← (if negb (slaveseldb s =? dictid) then
         selectcmd ← select_text dictid;
         s ← feedReplicationBacklogWithObject s selectcmd;
         Some (with_slaves s (map (add_reply selectcmd) (slaves s)))
       else Some s);
  let s := with_seldb s dictid in
  n ← ll_text 23 (zlen argv);
  let aux := [42] ++ n ++ crlf in
  s ← feedReplicationBacklog s aux (zlen aux);
  s ← feed_args s argv;
  t ← slave_text argv;
  Some (with_slaves s (map (fun x => if bool_decide (replstate x = REDIS_REPL_WAIT_BGSAVE_START) then x else add_reply t x) (slaves s))).

(** ** Synchronisation *)

(** The loop of addReplyReplicationBacklog: the bytes that are added to the reply. *)
Fixpoint send_loop (fuel : nat) (b : list Z) (size j len : Z) : option (list Z) :=
  if len =? 0 then Some [] else
  match fuel with
  | O => None
  | S fuel =>
      let thislen := if size - j <? len then size - j else len in
      x ← rdn b j thislen;
      y ← send_loop fuel b size 0 (len - thislen);
      Some (x ++ y)
  end.

Definition addReplyReplicationBacklog (s : master) (offset : Z) : option (list Z * Z) :=
  if repl_backlog_histlen s =? 0 then Some ([], 0) else
  b ← repl_backlog s;
  let skip := offset - repl_backlog_off s in
  let j := (repl_backlog_idx s + (repl_backlog_size s - repl_backlog_histlen s)) mod repl_backlog_size s in
  let j := (j + skip) mod repl_backlog_size s in
  let len := repl_backlog_histlen s - skip in
  out ← send_loop (Z.to_nat len) b (repl_backlog_size s) j len;
  Some (out, len).

Definition new_slave (c : nat) (st : repl_state) (h : joined) : slave := Slave c st [] [] 0 [] h.

(** The part that asks for a full resynchronisation: what is written to the socket. *)
Definition full_resync_offset (s : master) : Z :=
  if bool_decide (repl_backlog s = None) then master_repl_offset s + 1 else master_repl_offset s.
Definition full_resync_text (s : master) : option (list Z) :=
  t ← Num.ll_chars (full_resync_offset s);
  Some (str "+FULLRESYNC " ++ runid s ++ [32] ++ t ++ crlf).

(** The reply of getLongLongFromObjectOrReply. *)
Definition psync_offset_error : list Z := str "-ERR value is not an integer or out of range" ++ crlf.

(** [inl s] is REDIS_OK; [inr] has the text for a full resynchronisation, which is written to
    the socket, and what was queued in the output of the client before.  [id_matches] is the
    comparison of the run ids, [psync_offset] the integer of the argument, [None] if it is
    none, [written] whether write() succeeds; a failed write closes the client later. *)
Definition masterTryPartialResynchronization (s : master) (c : nat) (id_matches : bool) (psync_offset : option Z) (written : bool)
    : option (master + list Z * list Z) :=
  if negb id_matches then t ← full_resync_text s; Some (inr (t, [])) else
  match psync_offset with
  | None => t ← full_resync_text s; Some (inr (t, psync_offset_error))
  | Some o =>
      if bool_decide (repl_backlog s = None) || (o <? repl_backlog_off s) || (o >? repl_backlog_off s + repl_backlog_histlen s) then
        t ← full_resync_text s; Some (inr (t, []))
      else if negb written then Some (inl (with_slaves s (slaves s ++ [new_slave c REDIS_REPL_ONLINE Broken])))
      else
        '(out, _) ← addReplyReplicationBacklog s o;
        Some (inl (with_slaves s (slaves s ++ [add_reply out (add_wire (str "+CONTINUE" ++ crlf) (new_slave c REDIS_REPL_ONLINE (Partial (o - 1))))])))
  end.

(** A full resynchronisation of the client [c], with [w] written to its socket and [queued]
    in its output; a copy of the output of another slave replaces what is queued.  [saved] is
    the result of rdbSaveBackground. *)
Definition full_resync (s : master) (c : nat) (w queued : list Z) (offset : Z) (saved : bool) : option master :=
  let attach s x :=
    let s := with_slaves (with_seldb s (-1)) (slaves s ++ [x]) in
    if (zlen (slaves s) =? 1) && bool_decide (repl_backlog s = None) then createReplicationBacklog s else Some s in
  if rdb_child s then
    match find (fun y => bool_decide (replstate y = REDIS_REPL_WAIT_BGSAVE_END)) (slaves s) with
    | Some y => attach s (add_reply (reply y) (add_wire w (new_slave c REDIS_REPL_WAIT_BGSAVE_END (Copied offset))))
    | None => attach s (add_reply queued (add_wire w (new_slave c REDIS_REPL_WAIT_BGSAVE_START (Waiting offset))))
    end
  else if negb saved then Some s
  else attach (with_child s true) (add_reply queued (add_wire w (new_slave c REDIS_REPL_WAIT_BGSAVE_END (Fresh offset queued)))).

(** SYNC, or PSYNC with its arguments.  [link_up] is false if the server is itself a slave
    that has no link to its master, [pending] whether the client has output to be sent; the
    errors are replies to a client that is no slave. *)
Definition syncCommand (s : master) (c : nat) (link_up pending : bool) (psync : option (bool * option Z)) (written saved : bool) : option master :=
  if existsb (fun x => Nat.eqb (sl_id x) c) (slaves s) then Some s else
  if negb link_up then Some s else
  if pending then Some s else
  match psync with
  | None => full_resync s c [] [] (full_resync_offset s) saved
  | Some (id_matches, offset) =>
      r ← masterTryPartialResynchronization s c id_matches offset written;
      match r with
      | inl s => Some s
      | inr (t, queued) => if negb written then Some s else full_resync s c t queued (full_resync_offset s) saved
      end
  end.

(** The loop of updateSlavesWaitingBgsave: the slaves that stay, and whether a dump is to be
    started.  [opened] tells for which slaves the dump file can be opened and the event for
    its transfer registered. *)
Fixpoint update_waiting (l : list slave) (ok : bool) (dump : list Z) (opened : nat -> bool) : list slave * bool :=
  match l with
  | [] => ([], false)
  | x :: l =>
      let '(l, start) := update_waiting l ok dump opened in
      match replstate x with
      | REDIS_REPL_WAIT_BGSAVE_START => (set_state x REDIS_REPL_WAIT_BGSAVE_END :: l, true)
      | REDIS_REPL_WAIT_BGSAVE_END =>
          if negb ok then (l, start)
          else if negb (opened (sl_id x)) then (l, start)
          else (set_bulk x REDIS_REPL_SEND_BULK 0 dump :: l, start)
      | _ => (x :: l, start)
      end
  end.

(** At the end of the child that dumps; [saved] is the result of rdbSaveBackground. *)
Definition updateSlavesWaitingBgsave (s : master) (ok : bool) (dump : list Z) (opened : nat -> bool) (saved : bool) : master :=
  let s := with_child s false in
  let '(l, startbgsave) := update_waiting (slaves s) ok dump opened in
  let s := with_slaves s l in
  if startbgsave then
    if saved then with_child s true
    else with_slaves s (List.filter (fun x => negb (bool_decide (replstate x = REDIS_REPL_WAIT_BGSAVE_START))) (slaves s))
  else s.

(** ** Sending the dump *)

Definition REDIS_IOBUF_LEN : Z := 1024 * 16.

(** The result of write() on a part of the dump. *)
Inductive write_result := Wrote (nwritten : Z) | Again | WriteError.

(** One call; [head_written] is whether the length is written as a whole.  [None] is the end
    of the client; that the event of a slave that is online cannot be registered is a
    [FreeSlave] after it. *)
Definition sendBulkToSlave (x : slave) (head_written : bool) (w : write_result) : option slave :=
  x ← (if repldboff x =? 0 then
         t ← Num.ll_chars (zlen (repldb x));
         if negb head_written then None else Some (add_wire ([36] ++ t ++ crlf) x)
       else Some x);
  let data := take (Z.to_nat REDIS_IOBUF_LEN) (drop (Z.to_nat (repldboff x)) (repldb x)) in
  if zlen data =? 0 then None else
  match w with
  | WriteError => None
  | Again => Some x
  | Wrote nwritten =>
      let x := add_wire (take (Z.to_nat nwritten) data) x in
      let off := repldboff x + nwritten in
      Some (set_bulk x (if off =? zlen (repldb x) then REDIS_REPL_ONLINE else replstate x) off (repldb x))
  end.

(** ** What happens to a master *)

Inductive event :=
| Feed (dictid : Z) (argv : list (list Z))
| Sync (c : nat) (link_up pending : bool) (psync : option (bool * option Z)) (written saved : bool)
| BgSave
| BgSaveDone (ok : bool) (dump : list Z) (opened : nat -> bool) (saved : bool)
| SendBulk (c : nat) (head_written : bool) (w : write_result)
| FreeSlave (c : nat)
| FreeBacklog
| Resize (newsize : Z).

(** The transfer of a dump to one slave. *)
Fixpoint send_bulk (l : list slave) (c : nat) (head_written : bool) (w : write_result) : list slave :=
  match l with
  | [] => []
  | x :: l =>
      if Nat.eqb (sl_id x) c && bool_decide (replstate x = REDIS_REPL_SEND_BULK) then
        match sendBulkToSlave x head_written w with None => l | Some x => x :: l end
      else x :: send_bulk l c head_written w
  end.

Definition handle (s : master) (e : event) : option master :=
  match e with
  | Feed dictid argv => replicationFeedSlaves s dictid argv
  | Sync c link_up pending psync written saved => syncCommand s c link_up pending psync written saved
  | BgSave => Some (with_child s true)
  | BgSaveDone ok dump opened saved => Some (updateSlavesWaitingBgsave s ok dump opened saved)
  | SendBulk c head_written w => Some (with_slaves s (send_bulk (slaves s) c head_written w))
  | FreeSlave c => Some (with_slaves s (List.filter (fun x => negb (Nat.eqb (sl_id x) c)) (slaves s)))
  | FreeBacklog => if (zlen (slaves s) =? 0) && negb (bool_decide (repl_backlog s = None)) then freeReplicationBacklog s else Some s
  | Resize newsize => Some (resizeReplicationBacklog s newsize)
  end.

Fixpoint handle_all (l : list event) (s : master) : option master :=
  match l with [] => Some s | e :: l => s ← handle s e; handle_all l s end.

Definition start_master (size : Z) (id : list Z) : master := Master None size 0 0 0 0 (-1) [] false id.

End Repl.
