(* ===== verification/ReplFacts.v ===== *)
(** * Replication: what the backlog and the slaves hold

    The stream is all that was fed since the backlog was created.  The backlog is the last
    part of it in a circular buffer ([holds]); a slave that joined at an offset has in its
    output the stream from there on. *)

From Stdlib Require Import Ascii String.
From S2P Require Import Prelude Util Sds Server ServerFacts ObjFacts Robj Network NetworkFacts Aof AofFacts AofLog Repl.

(** ** The circular buffer *)

(** [b] holds the last bytes of [H], byte number [i] of [H] at [i] modulo the size. *)
Record holds (b : list Z) (size idx histlen : Z) (H : list Z) : Prop := Holds {
  h_len : zlen b = size;
  h_pos : 0 < size;
  h_idx : idx = zlen H mod size;
  h_hist : histlen = Z.min (zlen H) size;
  h_bytes : forall i, 0 <= i < zlen H -> zlen H - size <= i -> b !! Z.to_nat (i mod size) = H !! Z.to_nat i }.

Lemma holds_nil b size : zlen b = size -> 0 < size -> holds b size 0 0 [].
Proof. intros Hb Hs. split; change (zlen (@nil Z)) with 0; [done | done | by rewrite Z.mod_0_l by lia | lia | lia]. Qed.

Lemma lookup_splice (b c : list Z) idx j :
  0 <= idx -> idx + zlen c <= zlen b -> 0 <= j ->
  (take (Z.to_nat idx) b ++ c ++ drop (Z.to_nat (idx + zlen c)) b) !! Z.to_nat j =
  if (idx <=? j) && (j <? idx + zlen c) then c !! Z.to_nat (j - idx) else b !! Z.to_nat j.
Proof.
  intros Hi Hc Hj. assert (Ht : length (take (Z.to_nat idx) b) = Z.to_nat idx) by (rewrite length_take; unfold zlen in *; lia).
  destruct (Z.leb_spec idx j) as [H1|H1]; cbn [andb].
  - rewrite lookup_app_r by lia. rewrite Ht. destruct (Z.ltb_spec j (idx + zlen c)) as [H2|H2].
    + rewrite lookup_app_l by (unfold zlen in *; lia). f_equal. lia.
    + rewrite lookup_app_r by (unfold zlen in *; lia). rewrite lookup_drop. f_equal. unfold zlen in *. lia.
  - rewrite lookup_app_l by lia. apply lookup_take_lt. lia.
Qed.

(** The place of an earlier byte. *)
Lemma mod_back n d size : 0 < size -> 0 < d <= size -> (n - d) mod size = if d <=? n mod size then n mod size - d else n mod size - d + size.
Proof.
  intros Hs Hd. pose proof (Z.mod_pos_bound n size Hs). pose proof (Z.div_mod n size ltac:(lia)) as E.
  destruct (Z.leb_spec d (n mod size)); symmetry.
  - apply (Z.mod_unique_pos _ _ (n / size)); lia.
  - apply (Z.mod_unique_pos _ _ (n / size - 1)); lia.
Qed.

Lemma holds_write b size idx hist H c :
  holds b size idx hist H -> idx + zlen c <= size ->
  exists b', wrn b idx c = Some b' /\
    holds b' size (if idx + zlen c =? size then 0 else idx + zlen c) (Z.min (zlen H + zlen c) size) (H ++ c).
Proof.
  intros [Hlen Hpos Hidx _ Hb] Hc. pose proof (Z.mod_pos_bound (zlen H) size Hpos) as Hm. rewrite <- Hidx in Hm.
  pose proof (zlen_nonneg c) as Hc0. pose proof (zlen_nonneg H) as HH0.
  exists (take (Z.to_nat idx) b ++ c ++ drop (Z.to_nat (idx + zlen c)) b). split.
  { unfold wrn. rewrite (proj2 (Z.leb_le _ _)), (proj2 (Z.leb_le _ _)) by lia. done. }
  split.
  - rewrite !zlen_app, zlen_take, zlen_drop by lia. lia.
  - done.
  - rewrite zlen_app. rewrite <- Zplus_mod_idemp_l, <- Hidx. destruct (Z.eqb_spec (idx + zlen c) size) as [->|]; symmetry; [apply Z.mod_same; lia | apply Z.mod_small; lia].
  - by rewrite zlen_app.
  - rewrite zlen_app. intros i Hi1 Hi2. pose proof (Z.mod_pos_bound i size Hpos) as Him. rewrite lookup_splice by lia.
    destruct (Z.le_gt_cases (zlen H) i) as [Hi|Hi].
    + assert (Ei : i mod size = idx + (i - zlen H)).
      { rewrite <- (Z.mod_small (idx + (i - zlen H)) size) by lia. rewrite Hidx, Zplus_mod_idemp_l. f_equal. lia. }
      rewrite (proj2 (Z.leb_le _ _)), (proj2 (Z.ltb_lt _ _)) by lia. cbn [andb]. rewrite lookup_app_r by (unfold zlen in *; lia). f_equal. unfold zlen in *. lia.
    + assert (Ei : i mod size = if zlen H - i <=? idx then idx - (zlen H - i) else idx - (zlen H - i) + size).
      { rewrite Hidx, <- mod_back by lia. f_equal. lia. }
      assert (Eo : (idx <=? i mod size) && (i mod size <? idx + zlen c) = false).
      { apply andb_false_iff. destruct (Z.leb_spec (zlen H - i) idx); [left; apply Z.leb_gt | right; apply Z.ltb_ge]; lia. }
      rewrite Eo, lookup_app_l by (unfold zlen in *; lia). apply Hb; lia.
Qed.

Lemma feed_loop_ok fuel : forall b size idx hist H p,
  holds b size idx (Z.min (zlen H) size) H -> zlen p <= Z.of_nat fuel ->
  exists b' idx', feed_loop fuel size b idx hist p (zlen p) = Some (b', idx', hist + zlen p) /\
    holds b' size idx' (Z.min (zlen (H ++ p)) size) (H ++ p).
Proof.
  induction fuel as [|fuel IH]; intros b size idx hist H p Hh Hf; pose proof (zlen_nonneg p) as Hp0.
  - assert (p = []) as -> by (destruct p as [|c p]; [done | rewrite zlen_cons in Hf; pose proof (zlen_nonneg p); lia]).
    exists b, idx. rewrite app_nil_r. split; [| done]. cbn. by rewrite Z.add_0_r.
  - cbn [feed_loop]. destruct (Z.eqb_spec (zlen p) 0) as [E|E].
    { assert (p = []) as -> by (unfold zlen in E; by destruct p). exists b, idx. rewrite app_nil_r. split; [| done]. f_equal. f_equal. lia. }
    pose proof Hh as [Hlen Hpos Hidx _ _]. pose proof (Z.mod_pos_bound (zlen H) size Hpos) as Hm. rewrite <- Hidx in Hm.
    set (n := if zlen p <? size - idx then zlen p else size - idx).
    assert (Hn : n = Z.min (zlen p) (size - idx)) by (unfold n; destruct (Z.ltb_spec (zlen p) (size - idx)); lia).
    assert (Er : rdn p 0 n = Some (take (Z.to_nat n) p)).
    { rewrite <- (take_drop (Z.to_nat n) p) at 1. apply rdn_prefix. rewrite zlen_take; lia. }
    rewrite Er. cbn [mbind option_bind].
    assert (Hz : zlen (take (Z.to_nat n) p) = n) by (rewrite zlen_take; lia).
    destruct (holds_write b size idx _ H (take (Z.to_nat n) p) Hh) as (b1 & Ew & Hh1); [lia |].
    rewrite Ew. cbn [mbind option_bind]. rewrite Hz in Hh1.
    assert (Hd : zlen p - n = zlen (drop (Z.to_nat n) p)) by (rewrite zlen_drop; lia). rewrite Hd.
    destruct (IH b1 size (if idx + n =? size then 0 else idx + n) (hist + n) (H ++ take (Z.to_nat n) p) (drop (Z.to_nat n) p)) as (b' & idx' & E' & Hh').
    + rewrite zlen_app, Hz. exact Hh1.
    + rewrite <- Hd. lia.
    + exists b', idx'. rewrite <- (assoc_L (++)), take_drop in Hh'. split; [| exact Hh']. rewrite E'. f_equal. f_equal. rewrite <- Hd. lia.
Qed.

(** ** Reading from the backlog *)

Lemma rdn_slice (b H : list Z) j k n :
  0 <= j -> 0 <= k -> 0 <= n -> j + n <= zlen b -> k + n <= zlen H ->
  (forall i, 0 <= i < n -> b !! Z.to_nat (j + i) = H !! Z.to_nat (k + i)) ->
  rdn b j n = Some (take (Z.to_nat n) (drop (Z.to_nat k) H)).
Proof.
  intros Hj Hk Hn Hb HH Hi. unfold rdn. rewrite (proj2 (Z.leb_le 0 j)), (proj2 (Z.leb_le 0 n)), (proj2 (Z.leb_le (j + n) _)) by lia. cbn [andb]. f_equal.
  apply list_eq. intros i. destruct (decide (i < Z.to_nat n)%nat) as [Hin|Hin].
  - rewrite !lookup_take_lt, !lookup_drop by done. specialize (Hi (Z.of_nat i) ltac:(lia)).
    replace (Z.to_nat j + i)%nat with (Z.to_nat (j + Z.of_nat i)) by lia. rewrite Hi. f_equal. lia.
  - rewrite !lookup_take_ge; [done | lia | lia].
Qed.

Lemma send_loop_ok b size idx hist H k :
  holds b size idx hist H -> 0 <= k <= zlen H -> zlen H - size <= k ->
  send_loop (Z.to_nat (zlen H - k)) b size (k mod size) (zlen H - k) = Some (drop (Z.to_nat k) H).
Proof.
  intros [Hlen Hpos Hidx _ Hb] Hk1 Hk2. pose proof (Z.mod_pos_bound k size Hpos) as Hm. pose proof (Z.div_mod k size ltac:(lia)) as Ed.
  destruct (Z.to_nat (zlen H - k)) as [|f] eqn:Ef.
  { assert (k = zlen H) as -> by lia. cbn [send_loop]. replace (zlen H - zlen H) with 0 by lia. cbn. rewrite drop_ge; [done | unfold zlen; lia]. }
  cbn [send_loop]. rewrite (proj2 (Z.eqb_neq (zlen H - k) 0)) by lia.
  destruct (Z.ltb_spec (size - k mod size) (zlen H - k)) as [Hw|Hw].
  - set (n1 := size - k mod size).
    rewrite (rdn_slice b H (k mod size) k n1); try lia.
    2: { intros i Hi. rewrite <- (Hb (k + i)) by lia. f_equal. f_equal.
         rewrite <- (Z.mod_small (k mod size + i) size) by lia. by rewrite Zplus_mod_idemp_l. }
    cbn [mbind option_bind]. destruct f as [|f]; [lia |]. cbn [send_loop]. rewrite (proj2 (Z.eqb_neq (zlen H - k - n1) 0)) by lia.
    rewrite (proj2 (Z.ltb_ge _ _)) by lia.
    rewrite (rdn_slice b H 0 (k + n1) (zlen H - k - n1)); try lia.
    2: { intros i Hi. rewrite <- (Hb (k + n1 + i)) by lia. f_equal. f_equal. apply (Z.mod_unique_pos _ _ (k / size + 1)); lia. }
    cbn [mbind option_bind]. replace (zlen H - k - n1 - (zlen H - k - n1)) with 0 by lia.
    assert (E0 : forall g, send_loop g b size 0 0 = Some []) by (by intros []). rewrite E0. cbn [mbind option_bind]. f_equal. rewrite app_nil_r.
    assert (Et : take (Z.to_nat (zlen H - k - n1)) (drop (Z.to_nat (k + n1)) H) = drop (Z.to_nat (k + n1)) H) by (apply take_ge; rewrite length_drop; unfold zlen; lia).
    rewrite Et. replace (Z.to_nat (k + n1)) with (Z.to_nat k + Z.to_nat n1)%nat by lia. rewrite <- drop_drop. apply take_drop.
  - rewrite (rdn_slice b H (k mod size) k (zlen H - k)); try lia.
    2: { intros i Hi. rewrite <- (Hb (k + i)) by lia. f_equal. f_equal.
         rewrite <- (Z.mod_small (k mod size + i) size) by lia. by rewrite Zplus_mod_idemp_l. }
    cbn [mbind option_bind]. replace (zlen H - k - (zlen H - k)) with 0 by lia.
    assert (E0 : forall g, send_loop g b size 0 0 = Some []) by (by intros []). rewrite E0. cbn [mbind option_bind]. f_equal. rewrite app_nil_r.
    apply take_ge. rewrite length_drop. unfold zlen. lia.
Qed.

(** ** The master *)

Section Master.
Context (junk : nat -> Z).
Implicit Types (s : master) (x : slave).

(** The stream [S]: the backlog holds its end. *)
Definition at_stream s (S : list Z) : Prop :=
  exists b X H, repl_backlog s = Some b /\ S = X ++ H /\ holds b (repl_backlog_size s) (repl_backlog_idx s) (repl_backlog_histlen s) H /\
    repl_backlog_off s = master_repl_offset s - repl_backlog_histlen s + 1.

(** What a stream does, started in the database 0: the database that it ends in, and its
    commands, each with the database that it runs in. *)
Definition feeds := list (Z * list (list Z)).
Definition note (db : Z) (argv : list (list Z)) (k : feeds) : option feeds := Some (k ++ [(db, argv)]).
Definition decodes (cmds : list (list (list Z))) (d : Z) (F : feeds) : Prop := replay (run_log note) cmds (0, []) = Some (d, F).

(** A slave is in sync with the stream [cmds], that starts after the offset [base] and runs
    the commands [F].  One that joined at an offset with a part of the stream has in its
    output the stream from there on; one that joined with its own dump has there whole
    commands, that run the commands fed since, each in its database, after the error
    if the offset of its PSYNC was no integer. *)
Definition in_sync (cmds : list (list (list Z))) (F : feeds) (base sel : Z) x : Prop :=
  match how x with
  | Partial o => replstate x <> REDIS_REPL_WAIT_BGSAVE_START /\
      exists p, 0 <= p <= zlen (NetworkSpec.enc_stream cmds) /\ o = base + p /\ reply x = drop (Z.to_nat p) (NetworkSpec.enc_stream cmds)
  | Fresh o e => replstate x <> REDIS_REPL_WAIT_BGSAVE_START /\ (e = [] \/ e = psync_offset_error) /\
      exists cmds1 cmds2 d1 d2 F1 F2, cmds = cmds1 ++ cmds2 /\ F = F1 ++ F2 /\ decodes cmds1 d1 F1 /\ decodes cmds2 d2 F2 /\ (sel = -1 \/ sel = d2) /\
        o = base + zlen (NetworkSpec.enc_stream cmds1) /\ reply x = e ++ NetworkSpec.enc_stream cmds2
  | _ => True
  end.

Definition synced s (F : feeds) : Prop :=
  exists cmds base d, at_stream s (NetworkSpec.enc_stream cmds) /\ master_repl_offset s = base + zlen (NetworkSpec.enc_stream cmds) /\
    decodes cmds d F /\ (slaveseldb s = -1 \/ slaveseldb s = d) /\ Forall (in_sync cmds F base (slaveseldb s)) (slaves s).

Record rinv s (F : feeds) : Prop := RInv {
  ri_size : 0 < repl_backlog_size s;
  ri_none : repl_backlog s = None -> slaves s = [] /\ F = [];
  ri_some : repl_backlog s <> None -> synced s F }.

Lemma zmalloc_len n : 0 <= n -> zlen (zmalloc junk n) = n.
Proof. intros Hn. unfold zmalloc, zlen. rewrite length_map, length_seq. lia. Qed.

(** What feeding leaves as it was. *)
Definition rest s : Z * Z * list slave * bool * list Z := (repl_backlog_size s, slaveseldb s, slaves s, rdb_child s, runid s).

Lemma feed_stream s S p :
  at_stream s S -> exists s', feedReplicationBacklog s p (zlen p) = Some s' /\ at_stream s' (S ++ p) /\
    master_repl_offset s' = master_repl_offset s + zlen p /\ rest s' = rest s.
Proof.
  intros (b & X & H & Hb & -> & Hh & Ho). pose proof (h_hist _ _ _ _ _ Hh) as Eh.
  destruct (feed_loop_ok (Z.to_nat (zlen p)) b (repl_backlog_size s) (repl_backlog_idx s) (repl_backlog_histlen s) H p) as (b' & idx' & E & Hh').
  { by rewrite <- Eh. } { pose proof (zlen_nonneg p). lia. }
  unfold feedReplicationBacklog. rewrite Hb. cbn [mbind option_bind]. rewrite E. cbn [mbind option_bind].
  eexists. split; [reflexivity |]. split; [| done]. exists b', X, (H ++ p). simpl. split; [done |]. split; [by rewrite (assoc_L (++)) |].
  assert (Emin : (if repl_backlog_size s <? repl_backlog_histlen s + zlen p then repl_backlog_size s else repl_backlog_histlen s + zlen p) = Z.min (zlen (H ++ p)) (repl_backlog_size s)).
  { rewrite zlen_app, Eh. pose proof (zlen_nonneg p). pose proof (h_pos _ _ _ _ _ Hh). destruct (Z.ltb_spec (repl_backlog_size s) (Z.min (zlen H) (repl_backlog_size s) + zlen p)); lia. }
  rewrite Emin. split; [done | lia].
Qed.

Lemma rest_trans s1 s2 s3 : rest s1 = rest s2 -> rest s2 = rest s3 -> rest s1 = rest s3.
Proof. congruence. Qed.

Lemma feed_args_ok argv : forall s S,
  at_stream s S -> Forall (fun a => zlen a < 2 ^ 31) argv ->
  exists s', feed_args s argv = Some s' /\ at_stream s' (S ++ NetworkSpec.enc_bulks argv) /\
    master_repl_offset s' = master_repl_offset s + zlen (NetworkSpec.enc_bulks argv) /\ rest s' = rest s.
Proof.
  induction argv as [|a argv IH]; intros s S Hs Ha.
  - exists s. split; [done |]. change (NetworkSpec.enc_bulks []) with (@nil Z). rewrite app_nil_r. change (zlen (@nil Z)) with 0. split; [done |]. split; [lia | done].
  - apply Forall_cons in Ha as [Ha Hargv]. cbn [feed_args]. pose proof (zlen_nonneg a). rewrite ll_text_print by (unfold in_s; lia). cbn [mbind option_bind].
    destruct (feed_stream s S ([36] ++ print (zlen a) ++ crlf) Hs) as (s1 & E1 & H1 & M1 & R1). rewrite E1. cbn [mbind option_bind].
    unfold feedReplicationBacklogWithObject. destruct (feed_stream s1 _ a H1) as (s2 & E2 & H2 & M2 & R2). rewrite E2. cbn [mbind option_bind].
    destruct (feed_stream s2 _ crlf H2) as (s3 & E3 & H3 & M3 & R3). change (zlen crlf) with 2 in E3. rewrite E3. cbn [mbind option_bind].
    destruct (IH s3 _ H3 Hargv) as (s4 & E4 & H4 & M4 & R4). exists s4. split; [done |].
    assert (Et : NetworkSpec.enc_bulks (a :: argv) = ([36] ++ print (zlen a) ++ crlf) ++ a ++ crlf ++ NetworkSpec.enc_bulks argv).
    { unfold NetworkSpec.enc_bulks. cbn [map concat]. unfold NetworkSpec.enc_bulk at 1. rewrite <- !(assoc_L (++)). cbn [app]. by rewrite <- !(assoc_L (++)). }
    assert (EL : S ++ NetworkSpec.enc_bulks (a :: argv) = (((S ++ [36] ++ print (zlen a) ++ crlf) ++ a) ++ crlf) ++ NetworkSpec.enc_bulks argv) by (rewrite Et; by rewrite !(assoc_L (++))).
    split; [rewrite EL; exact H4 |]. split; [| congruence].
    rewrite Et, !zlen_app. rewrite M4, M3, M2, M1, !zlen_app. lia.
Qed.

Lemma slave_text_ok argv : aof_command_ok argv -> slave_text argv = Some (NetworkSpec.enc_command argv).
Proof.
  intros (_ & Hn & Ha). pose proof (zlen_nonneg argv). unfold slave_text. rewrite ll_text_print by (unfold in_s; lia). cbn [mbind option_bind].
  rewrite bulks_fold by (done || lia). f_equal. unfold NetworkSpec.enc_command. rewrite <- !(assoc_L (++)). done.
Qed.

Lemma decodes_nil : decodes [] 0 [].
Proof. done. Qed.

Lemma decodes_select cmds d F db : in_s 32 db -> decodes cmds d F -> decodes (cmds ++ [select db]) db F.
Proof. unfold decodes. intros Hdb H. rewrite replay_app, H. cbn [replay mbind option_bind]. by rewrite run_select. Qed.

Lemma decodes_command cmds d F argv : hd [] argv <> str "SELECT" -> decodes cmds d F -> decodes (cmds ++ [argv]) d (F ++ [(d, argv)]).
Proof.
  unfold decodes. intros Hn H. rewrite replay_app, H. cbn [replay mbind option_bind]. unfold run_log. by rewrite bool_decide_eq_false_2.
Qed.

Lemma drop_stream (S t : list Z) p : 0 <= p <= zlen S -> drop (Z.to_nat p) S ++ t = drop (Z.to_nat p) (S ++ t).
Proof. intros Hp. rewrite drop_app_le; [done | unfold zlen in Hp; lia]. Qed.

(** The SELECT goes to the waiting slaves too. *)
Lemma in_sync_select cmds F base sel x db : in_s 32 db ->
  in_sync cmds F base sel x -> in_sync (cmds ++ [select db]) F base db (add_reply (NetworkSpec.enc_command (select db)) x).
Proof.
  intros Hdb. unfold in_sync. simpl. rewrite enc_stream_app, enc_stream_one. destruct (how x) as [o|o e| | |]; try done; intros [Hst H]; (split; [done |]).
  - destruct H as (p & Hp & -> & ->). exists p. rewrite zlen_app, drop_stream by done. pose proof (zlen_nonneg (NetworkSpec.enc_command (select db))). split; [lia | done].
  - destruct H as (He & c1 & c2 & d1 & d2 & F1 & F2 & -> & HF & H1 & H2 & _ & Ho & Er). split; [done |]. exists c1, (c2 ++ [select db]), d1, db, F1, F2.
    split; [by rewrite (assoc_L (++)) |]. split; [done |]. split; [done |]. split; [by eapply decodes_select |]. split; [by right |]. split; [done |].
    by rewrite Er, enc_stream_app, enc_stream_one, (assoc_L (++)).
Qed.

Lemma in_sync_command cmds F base x db argv : 0 <= db -> hd [] argv <> str "SELECT" ->
  in_sync cmds F base db x ->
  in_sync (cmds ++ [argv]) (F ++ [(db, argv)]) base db (if bool_decide (replstate x = REDIS_REPL_WAIT_BGSAVE_START) then x else add_reply (NetworkSpec.enc_command argv) x).
Proof.
  intros Hdb Hn. unfold in_sync. rewrite enc_stream_app, enc_stream_one. case_bool_decide as Hst; simpl.
  { destruct (how x); try done; by intros []. }
  destruct (how x) as [o|o e| | |]; try done; intros [_ H]; (split; [done |]).
  - destruct H as (p & Hp & -> & ->). exists p. rewrite zlen_app, drop_stream by done. pose proof (zlen_nonneg (NetworkSpec.enc_command argv)). split; [lia | done].
  - destruct H as (He & c1 & c2 & d1 & d2 & F1 & F2 & -> & -> & H1 & H2 & Hsel & Ho & Er). split; [done |]. exists c1, (c2 ++ [argv]), d1, d2, F1, (F2 ++ [(d2, argv)]).
    assert (db = d2) as -> by lia. split; [by rewrite (assoc_L (++)) |]. split; [by rewrite (assoc_L (++)) |]. split; [done |].
    split; [by eapply decodes_command |]. split; [by right |]. split; [done |]. by rewrite Er, enc_stream_app, enc_stream_one, (assoc_L (++)).
Qed.

(** The slaves may be told the database again. *)
Lemma in_sync_forget cmds F base sel x : in_sync cmds F base sel x -> in_sync cmds F base (-1) x.
Proof.
  unfold in_sync. destruct (how x) as [o|o e| | |]; try done. intros [Hst (He & c1 & c2 & d1 & d2 & F1 & F2 & ? & ? & ? & ? & _ & ?)]. do 2 (split; [done |]).
  exists c1, c2, d1, d2, F1, F2. auto 10.
Qed.

(** The first part of a feed: a SELECT where the slaves may be in another database. *)
Lemma feed_select_ok s F cmds base d dictid :
  0 <= dictid < 2 ^ 31 -> at_stream s (NetworkSpec.enc_stream cmds) -> master_repl_offset s = base + zlen (NetworkSpec.enc_stream cmds) ->
  decodes cmds d F -> (slaveseldb s = -1 \/ slaveseldb s = d) -> Forall (in_sync cmds F base (slaveseldb s)) (slaves s) ->
  exists s1 cmds1, (if negb (slaveseldb s =? dictid) then selectcmd ← select_text dictid; s ← feedReplicationBacklogWithObject s selectcmd;
      Some (with_slaves s (map (add_reply selectcmd) (slaves s))) else Some s) = Some s1 /\
    at_stream s1 (NetworkSpec.enc_stream cmds1) /\ master_repl_offset s1 = base + zlen (NetworkSpec.enc_stream cmds1) /\
    decodes cmds1 dictid F /\ Forall (in_sync cmds1 F base dictid) (slaves s1) /\ repl_backlog_size s1 = repl_backlog_size s.
Proof.
  intros Hdb Hst Hoff Hdec Hsel Hsync. assert (H32 : in_s 32 dictid) by (unfold in_s; lia).
  destruct (Z.eqb_spec (slaveseldb s) dictid) as [E|E]; cbn [negb].
  { exists s, cmds. rewrite E in Hsync. assert (d = dictid) as -> by lia. done. }
  destruct (select_text_ok dictid H32) as [-> _]. cbn [mbind option_bind]. unfold feedReplicationBacklogWithObject.
  destruct (feed_stream s _ (NetworkSpec.enc_command (select dictid)) Hst) as (s1 & -> & H1 & M1 & R1). cbn [mbind option_bind].
  injection R1 as R1 _ Rs _ _. eexists _, (cmds ++ [select dictid]). split; [done |]. rewrite enc_stream_app, enc_stream_one. split; [exact H1 |]. simpl.
  split; [rewrite M1, Hoff, zlen_app; lia |]. split; [by eapply decodes_select |]. split; [| done]. rewrite Rs. apply Forall_map. eapply Forall_impl; [exact Hsync |].
  intros x Hx. by eapply in_sync_select.
Qed.

Lemma feed_slaves_ok s F dictid argv :
  rinv s F -> 0 <= dictid < 2 ^ 31 -> aof_command_ok argv -> hd [] argv <> str "SELECT" ->
  exists s', replicationFeedSlaves s dictid argv = Some s' /\ rinv s' (if bool_decide (repl_backlog s' = None) then [] else F ++ [(dictid, argv)]).
Proof.
  intros [Hsz Hnone Hsome] Hdb Hok Hsel. unfold replicationFeedSlaves.
  destruct (decide (repl_backlog s = None)) as [Hb|Hb].
  { destruct (Hnone Hb) as [Es EF]. rewrite Es, bool_decide_eq_true_2 by done. exists s. split; [done |]. by rewrite bool_decide_eq_true_2. }
  rewrite bool_decide_eq_false_2 by done. cbn [andb]. destruct (Hsome Hb) as (cmds & base & d & Hst & Hoff & Hdec & Hd & Hsync).
  destruct (feed_select_ok s F cmds base d dictid Hdb Hst Hoff Hdec Hd Hsync) as (s1 & cmds1 & -> & Hst1 & Hoff1 & Hdec1 & Hsync1 & Hsz1). cbn [mbind option_bind].
  set (s2 := with_seldb s1 dictid). assert (Hst2 : at_stream s2 (NetworkSpec.enc_stream cmds1)) by done.
  pose proof Hok as (_ & Hn & Ha). pose proof (zlen_nonneg argv). rewrite ll_text_print by (unfold in_s; lia). cbn [mbind option_bind].
  destruct (feed_stream s2 _ ([42] ++ print (zlen argv) ++ crlf) Hst2) as (s3 & -> & H3 & M3 & R3). cbn [mbind option_bind].
  destruct (feed_args_ok argv s3 _ H3 Ha) as (s4 & -> & H4 & M4 & R4). cbn [mbind option_bind]. rewrite slave_text_ok by done. cbn [mbind option_bind].
  assert (Et : (NetworkSpec.enc_stream cmds1 ++ [42] ++ print (zlen argv) ++ crlf) ++ NetworkSpec.enc_bulks argv = NetworkSpec.enc_stream (cmds1 ++ [argv])).
  { rewrite (enc_stream_app cmds1), enc_stream_one. unfold NetworkSpec.enc_command. rewrite <- !(assoc_L (++)). done. }
  rewrite Et in H4. injection R3 as R3a R3c R3b _ _. injection R4 as R4a R4c R4b _ _.
  assert (Hb4 : repl_backlog s4 <> None) by (destruct H4 as (b & ? & ? & Eb & _); congruence).
  eexists. split; [done |]. rewrite bool_decide_eq_false_2 by done. split; simpl; [rewrite R4a, R3a; simpl; by rewrite Hsz1 | done |].
  intros _. exists (cmds1 ++ [argv]), base, dictid. split; [exact H4 |]. split.
  { cbn [master_repl_offset with_slaves]. rewrite M4, M3. change (master_repl_offset s2) with (master_repl_offset s1). rewrite Hoff1, <- Et, !zlen_app. lia. }
  simpl. rewrite R4c, R3c, R4b, R3b. simpl. split; [by apply decodes_command |]. split; [by right |].
  apply Forall_map. eapply Forall_impl; [exact Hsync1 |]. intros x Hx. apply in_sync_command; [lia | done | done].
Qed.

(** ** Synchronisation *)

Lemma backlog_ok s S o :
  at_stream s S -> repl_backlog_off s <= o <= repl_backlog_off s + repl_backlog_histlen s ->
  exists p n, addReplyReplicationBacklog s o = Some (drop (Z.to_nat p) S, n) /\ 0 <= p <= zlen S /\ p = zlen S - (master_repl_offset s + 1 - o).
Proof.
  intros (b & X & H & Hb & -> & Hh & Ho) Hr. pose proof Hh as [Hlen Hpos Hidx Ehist _]. pose proof (zlen_nonneg H). pose proof (zlen_nonneg X).
  unfold addReplyReplicationBacklog. set (p := zlen X + zlen H - (master_repl_offset s + 1 - o)). exists p.
  assert (Hp : 0 <= p <= zlen (X ++ H)) by (rewrite zlen_app; lia).
  assert (Ep : p = zlen (X ++ H) - (master_repl_offset s + 1 - o)) by (rewrite zlen_app; lia).
  destruct (Z.eqb_spec (repl_backlog_histlen s) 0) as [E|E].
  - exists 0. split; [| done]. f_equal. f_equal. symmetry. apply drop_ge. assert (p = zlen (X ++ H)) as -> by (rewrite zlen_app; lia). unfold zlen. lia.
  - rewrite Hb. cbn [mbind option_bind]. set (k := p - zlen X).
    assert (Ek : ((repl_backlog_idx s + (repl_backlog_size s - repl_backlog_histlen s)) mod repl_backlog_size s + (o - repl_backlog_off s)) mod repl_backlog_size s = k mod repl_backlog_size s).
    { rewrite Zplus_mod_idemp_l, Hidx. replace (zlen H mod repl_backlog_size s + (repl_backlog_size s - repl_backlog_histlen s) + (o - repl_backlog_off s))
        with (zlen H mod repl_backlog_size s + (o - repl_backlog_off s - repl_backlog_histlen s + 1 * repl_backlog_size s)) by lia.
      rewrite Zplus_mod_idemp_l. rewrite <- (Z.mod_add k 1 (repl_backlog_size s)) by lia. f_equal. unfold k, p. lia. }
    rewrite Ek. assert (El : repl_backlog_histlen s - (o - repl_backlog_off s) = zlen H - k) by (unfold k, p; lia). rewrite El.
    assert (Hk1 : 0 <= k <= zlen H) by (unfold k, p; lia). assert (Hk2 : zlen H - repl_backlog_size s <= k) by (unfold k, p; lia).
    rewrite (send_loop_ok b _ _ _ H k Hh Hk1 Hk2). cbn [mbind option_bind]. eexists. split; [| done]. f_equal. f_equal.
    rewrite drop_app_ge by (unfold k in Hk1; unfold zlen in *; lia). f_equal. unfold k, zlen. lia.
Qed.

Lemma create_backlog_ok s : repl_backlog s = None -> 0 < repl_backlog_size s ->
  exists s', createReplicationBacklog junk s = Some s' /\ at_stream s' [] /\ master_repl_offset s' = master_repl_offset s + 1 /\ rest s' = rest s.
Proof.
  intros Hb Hs. unfold createReplicationBacklog. rewrite Hb. eexists. split; [done |]. split; [| done].
  exists (zmalloc junk (repl_backlog_size s)), [], []. simpl. split; [done |]. split; [done |]. split; [apply holds_nil; [apply zmalloc_len; lia | done] | lia].
Qed.

(** A new slave in the list. *)
Definition attach_slave s x : option master :=
  let s := with_slaves (with_seldb s (-1)) (slaves s ++ [x]) in
  if (zlen (slaves s) =? 1) && bool_decide (repl_backlog s = None) then createReplicationBacklog junk s else Some s.

Lemma attach_ok s F x :
  rinv s F -> (forall o, how x <> Partial o) ->
  (forall o e, how x = Fresh o e -> o = full_resync_offset s /\ reply x = e /\ (e = [] \/ e = psync_offset_error) /\ replstate x <> REDIS_REPL_WAIT_BGSAVE_START) ->
  exists s', attach_slave s x = Some s' /\ rinv s' F.
Proof.
  intros [Hsz Hnone Hsome] Hp Hx. unfold attach_slave.
  assert (Hnew : forall cmds F d base, decodes cmds d F -> full_resync_offset s = base + zlen (NetworkSpec.enc_stream cmds) -> in_sync cmds F base (-1) x).
  { intros cmds F' d base Hd Eo. unfold in_sync. destruct (how x) as [o|o e| | |] eqn:Eh; try done; [by destruct (Hp o) |].
    destruct (Hx o e eq_refl) as (-> & Er & He & Hst). do 2 (split; [done |]). exists cmds, [], d, 0, F', []. rewrite !app_nil_r.
    split; [done |]. split; [done |]. split; [done |]. split; [apply decodes_nil |]. split; [by left |]. split; [done |]. exact Er. }
  destruct (decide (repl_backlog s = None)) as [Hb|Hb].
  - destruct (Hnone Hb) as [Es ->]. rewrite Es. simpl. rewrite bool_decide_eq_true_2 by done. change (zlen ([] ++ [x]) =? 1) with true. cbn [andb].
    destruct (create_backlog_ok (with_slaves (with_seldb s (-1)) [x])) as (s' & E & Hst & Hm & R); [done | done |].
    exists s'. split; [exact E |]. injection R as R1 Rd R2 _ _. simpl in *.
    assert (Hb' : repl_backlog s' <> None) by (destruct Hst as (b & ? & ? & Eb & _); congruence).
    split; [by rewrite R1 | done |]. intros _. exists [], (master_repl_offset s + 1), 0. split; [exact Hst |].
    split; [rewrite Hm; change (zlen (NetworkSpec.enc_stream [])) with 0; lia |]. split; [apply decodes_nil |].
    rewrite R2, Rd. split; [by left |]. constructor; [| constructor]. eapply Hnew; [apply decodes_nil |].
    unfold full_resync_offset. rewrite bool_decide_eq_true_2 by done. change (zlen (NetworkSpec.enc_stream [])) with 0. lia.
  - simpl. rewrite (bool_decide_eq_false_2 _ Hb), andb_false_r. eexists. split; [done |].
    split; [done | done |]. intros _. destruct (Hsome Hb) as (cmds & base & d & Hst & Hoff & Hdec & Hd & Hsync). exists cmds, base, d.
    split; [exact Hst |]. split; [done |]. split; [done |]. split; [by left |]. simpl. apply Forall_app. split.
    + eapply Forall_impl; [exact Hsync |]. intros y Hy. by eapply in_sync_forget.
    + constructor; [| constructor]. eapply Hnew; [exact Hdec |]. unfold full_resync_offset. by rewrite bool_decide_eq_false_2.
Qed.

Lemma full_text_ok s : in_s 64 (full_resync_offset s) -> exists t, full_resync_text s = Some t.
Proof. intros H. unfold full_resync_text. rewrite print_chars by done. cbn [mbind option_bind]. eauto. Qed.

Lemma rinv_none s F : rinv s F -> rinv s (if bool_decide (repl_backlog s = None) then [] else F).
Proof. intros I. case_bool_decide as Hb; [| done]. by destruct (ri_none _ _ I Hb) as [_ <-]. Qed.

Lemma full_resync_ok s F c w e saved :
  rinv s F -> e = [] \/ e = psync_offset_error -> exists s', full_resync junk s c w e (full_resync_offset s) saved = Some s' /\ rinv s' F.
Proof.
  intros I He. unfold full_resync. destruct (rdb_child s).
  - destruct (find _ (slaves s)) as [y|]; (apply (attach_ok s); [done | done |]; intros o e' H; discriminate H).
  - destruct saved; cbn [negb]; [| by exists s].
    assert (I' : rinv (with_child s true) F) by (by destruct I). apply (attach_ok (with_child s true)); [done | done |].
    intros o e' H. injection H as <- <-. done.
Qed.

(** The slave of a partial resynchronisation: it is in sync, and so is one whose link broke. *)
Lemma partial_ok s F c o :
  rinv s F -> repl_backlog s <> None -> repl_backlog_off s <= o <= repl_backlog_off s + repl_backlog_histlen s ->
  exists out n, addReplyReplicationBacklog s o = Some (out, n) /\
    forall x, x = new_slave c REDIS_REPL_ONLINE Broken \/ x = add_reply out (add_wire (str "+CONTINUE" ++ crlf) (new_slave c REDIS_REPL_ONLINE (Partial (o - 1)))) ->
     rinv (with_slaves s (slaves s ++ [x])) F.
Proof.
  intros [Hsz Hnone Hsome] Hb Ho. destruct (Hsome Hb) as (cmds & base & d & Hst & Hoff & Hdec & Hd & Hsync).
  destruct (backlog_ok s _ o Hst Ho) as (p & n & E & Hp & Ep). eexists _, n. split; [exact E |]. intros x Hx. split; [done | done |].
  intros _. exists cmds, base, d. split; [exact Hst |]. split; [done |]. split; [done |]. split; [done |]. simpl. apply Forall_app. split; [done |].
  constructor; [| constructor]. destruct Hx as [-> | ->]; [done |]. split; [done |]. exists p. split; [done |]. split; [lia | done].
Qed.

Lemma sync_ok s F c link_up pending psync written saved :
  rinv s F -> in_s 64 (full_resync_offset s) -> exists s', syncCommand junk s c link_up pending psync written saved = Some s' /\ rinv s' F.
Proof.
  intros I Hoff. unfold syncCommand. destruct (existsb _ (slaves s)); [by exists s |]. destruct link_up; cbn [negb]; [| by exists s]. destruct pending; [by exists s |].
  destruct psync as [[id_matches offset]|]; [| by apply full_resync_ok; [| left]].
  destruct (full_text_ok s Hoff) as [t Et]. unfold masterTryPartialResynchronization.
  assert (Hfull : forall e, e = [] \/ e = psync_offset_error ->
    exists s', (r ← (t ← full_resync_text s; Some (inr (t, e))); match r with inl s => Some s | inr (t, queued) => if negb written then Some s else full_resync junk s c t queued (full_resync_offset s) saved end) = Some s' /\ rinv s' F).
  { intros e He. rewrite Et. cbn [mbind option_bind]. destruct written; cbn [negb]; [by apply full_resync_ok | by exists s]. }
  destruct id_matches; cbn [negb]; [| apply Hfull; by left]. destruct offset as [o|]; [| apply Hfull; by right].
  specialize (Hfull [] (or_introl eq_refl)).
  destruct (decide (repl_backlog s = None)) as [Hb|Hb]; [by rewrite (bool_decide_eq_true_2 _ Hb) |]. rewrite (bool_decide_eq_false_2 _ Hb). cbn [orb].
  destruct (Z.ltb_spec o (repl_backlog_off s)) as [|Ho1]; [exact Hfull |]. cbn [orb]. rewrite Z.gtb_ltb.
  destruct (Z.ltb_spec (repl_backlog_off s + repl_backlog_histlen s) o) as [|Ho2]; [exact Hfull |].
  destruct (partial_ok s F c o I Hb (conj Ho1 Ho2)) as (out & n & E & H).
  destruct written; cbn [negb]; [rewrite E |]; cbn [mbind option_bind]; eexists; (split; [done |]); apply H; auto.
Qed.

(** A change of the list of slaves, each of which is as before or further on with its dump. *)
Lemma rinv_slaves s F l :
  rinv s F -> (slaves s = [] -> l = []) -> (forall cmds base sel, Forall (in_sync cmds F base sel) (slaves s) -> Forall (in_sync cmds F base sel) l) ->
  rinv (with_slaves s l) F.
Proof.
  intros [Hsz Hnone Hsome] He Hl. split; simpl; [done | intros Hb; destruct (Hnone Hb); auto |].
  intros Hb. destruct (Hsome Hb) as (cmds & base & d & Hst & Hoff & Hdec & Hd & Hsync). exists cmds, base, d. split; [exact Hst |].
  split; [done |]. split; [done |]. split; [done |]. by apply Hl.
Qed.

Lemma in_sync_state cmds F base sel x st off db w : st <> REDIS_REPL_WAIT_BGSAVE_START -> in_sync cmds F base sel x ->
  in_sync cmds F base sel (Slave (sl_id x) st (reply x) w off db (how x)).
Proof. unfold in_sync. simpl. destruct (how x) as [o|o e| | |]; try done; by intros ? [_ ?]. Qed.

Lemma update_waiting_ok P l ok dump opened :
  (forall x st off db w, st <> REDIS_REPL_WAIT_BGSAVE_START -> P x -> P (Slave (sl_id x) st (reply x) w off db (how x))) ->
  Forall P l -> Forall P (fst (update_waiting l ok dump opened)).
Proof.
  intros HP H. induction H as [|x l Hx Hl IH]; [done |]. cbn [update_waiting].
  destruct (update_waiting l ok dump opened) as [l' start]. simpl in IH.
  destruct (replstate x) eqn:E; simpl; try (by constructor).
  - constructor; [by apply HP | done].
  - destruct ok; [| done]. destruct (opened (sl_id x)); [| done]. constructor; [by apply HP | done].
Qed.

Lemma bulk_state x head r y : sendBulkToSlave x head r = Some y ->
  exists st w off db, y = Slave (sl_id x) st (reply x) w off db (how x) /\ (st = replstate x \/ st = REDIS_REPL_ONLINE).
Proof.
  unfold sendBulkToSlave. generalize (Z.to_nat REDIS_IOBUF_LEN). intros k H.
  destruct (if repldboff x =? 0 then _ else _) as [x1|] eqn:E1; [| done]. cbn [mbind option_bind] in H.
  assert (H1 : sl_id x1 = sl_id x /\ reply x1 = reply x /\ how x1 = how x /\ replstate x1 = replstate x).
  { destruct (repldboff x =? 0); [| by injection E1 as <-]. destruct (Num.ll_chars (zlen (repldb x))); [| done]. cbn [mbind option_bind] in E1. destruct head; [| done]. by injection E1 as <-. }
  destruct H1 as (<- & <- & <- & <-). destruct (zlen _ =? 0); [done |]. destruct r as [n| |]; [| | done]; injection H as <-.
  - eexists (if repldboff x1 + n =? zlen (repldb x1) then REDIS_REPL_ONLINE else replstate x1), _, _, _. split; [reflexivity |].
    destruct (repldboff x1 + n =? zlen (repldb x1)); [by right | by left].
  - exists (replstate x1), (wire x1), (repldboff x1), (repldb x1). split; [by destruct x1 | by left].
Qed.

Lemma send_bulk_ok P l c head r :
  (forall x st off db w, st <> REDIS_REPL_WAIT_BGSAVE_START -> P x -> P (Slave (sl_id x) st (reply x) w off db (how x))) ->
  Forall P l -> Forall P (send_bulk l c head r).
Proof.
  intros HP H. induction H as [|x l Hx Hl IH]; [done |]. cbn [send_bulk]. destruct (Nat.eqb (sl_id x) c && _) eqn:E; [| by constructor].
  apply andb_true_iff in E as [_ Est%bool_decide_eq_true].
  destruct (sendBulkToSlave x head r) as [y|] eqn:Ey; [| done]. constructor; [| done].
  destruct (bulk_state x head r y Ey) as (st & w & off & db & -> & Hst). apply HP; [| done]. destruct Hst as [-> | ->]; [by rewrite Est | done].
Qed.

Lemma filter_slaves_ok (P : slave -> Prop) f l : Forall P l -> Forall P (List.filter f l).
Proof. intros H. induction H as [|x l Hx Hl IH]; [done |]. simpl. destruct (f x); [by constructor | done]. Qed.

(** The end of a child, for the slaves that wait for a dump. *)
Lemma bgsave_done_ok s F ok dump opened saved : rinv s F -> rinv (updateSlavesWaitingBgsave s ok dump opened saved) F.
Proof.
  intros I. unfold updateSlavesWaitingBgsave.
  pose proof (fun P => update_waiting_ok P (slaves s) ok dump opened) as Hu. change (slaves (with_child s false)) with (slaves s).
  destruct (update_waiting (slaves s) ok dump opened) as [l start] eqn:El. simpl in Hu.
  assert (I1 : rinv (with_slaves (with_child s false) l) F).
  { apply rinv_slaves; [by destruct I | |]; simpl.
    - intros Es. rewrite Es in El. by injection El as <- <-.
    - intros cmds base sel H. apply Hu; [| done]. intros. by apply in_sync_state. }
  destruct start; [| done]. destruct saved; [by destruct I1 |].
  apply (rinv_slaves _ _ _ I1); [by intros -> | intros cmds base sel; apply filter_slaves_ok].
Qed.

Lemma resize_ok s F newsize : rinv s F -> rinv (resizeReplicationBacklog junk s newsize) F.
Proof.
  intros I. unfold resizeReplicationBacklog. set (n := if newsize <? REDIS_REPL_BACKLOG_MIN_SIZE then REDIS_REPL_BACKLOG_MIN_SIZE else newsize).
  assert (Hn : 0 < n) by (unfold n, REDIS_REPL_BACKLOG_MIN_SIZE; destruct (Z.ltb_spec newsize (1024 * 16)); lia). clearbody n.
  destruct (repl_backlog_size s =? n); [done |]. destruct I as [Hsz Hnone Hsome]. destruct (repl_backlog s) as [b|] eqn:Eb.
  - split; simpl; [done | done |]. intros _. destruct Hsome as (cmds & base & d & Hst & H); [done |]. exists cmds, base, d. split; [| done].
    exists (zmalloc junk n), (NetworkSpec.enc_stream cmds), []. simpl. split; [done |]. split; [by rewrite app_nil_r |].
    split; [apply holds_nil; [apply zmalloc_len; lia | done] | lia].
  - split; simpl; [done | by intros _; apply Hnone | done].
Qed.

(** ** Events *)

(** The requests of the dispatch and of the clients: commands within the protocol, and an
    offset that is a 64-bit integer. *)
Definition event_ok (e : event) s : Prop :=
  match e with
  | Feed dictid argv => 0 <= dictid < 2 ^ 31 /\ aof_command_ok argv /\ hd [] argv <> str "SELECT"
  | Sync _ _ _ _ _ _ => in_s 64 (full_resync_offset s)
  | _ => True
  end.

Fixpoint events_ok (l : list event) s : Prop :=
  match l with [] => True | e :: l => event_ok e s /\ match handle junk s e with Some s' => events_ok l s' | None => True end end.

(** The commands that were fed since the backlog was created, with their databases. *)
Definition fed_after s' (e : event) (F : feeds) : feeds :=
  if bool_decide (repl_backlog s' = None) then [] else match e with Feed dictid argv => F ++ [(dictid, argv)] | _ => F end.

Fixpoint fed_all (l : list event) s (F : feeds) : feeds :=
  match l with [] => F | e :: l => match handle junk s e with Some s' => fed_all l s' (fed_after s' e F) | None => F end end.

Lemma free_backlog_ok s F : rinv s F -> slaves s = [] ->
  exists s', freeReplicationBacklog s = Some s' /\ repl_backlog s' = None /\ rinv s' [].
Proof. intros [Hsz _ _] E. unfold freeReplicationBacklog. rewrite E. eexists. split; [done |]. split; [done |]. by split. Qed.

Lemma rhandle_ok s F e : rinv s F -> event_ok e s -> exists s', handle junk s e = Some s' /\ rinv s' (fed_after s' e F).
Proof.
  intros I He. assert (Hsame : forall s', rinv s' F -> (forall d argv, e <> Feed d argv) -> rinv s' (fed_after s' e F)).
  { intros s' I' Hne. apply rinv_none in I'. unfold fed_after. case_bool_decide; [done |]. destruct e; try done. by edestruct Hne. }
  destruct e as [dictid argv|c link_up pending psync written saved| |ok dump opened saved|c head r|c| |newsize]; simpl in He |- *.
  - destruct He as (Hdb & Hok & Hs). by apply feed_slaves_ok.
  - destruct (sync_ok s F c link_up pending psync written saved I He) as (s' & E & I'). exists s'. split; [done |]. by apply Hsame.
  - eexists. split; [reflexivity |]. apply Hsame; [by destruct I | done].
  - eexists. split; [reflexivity |]. apply Hsame; [by apply bgsave_done_ok | done].
  - eexists. split; [reflexivity |]. apply Hsame; [| done]. apply rinv_slaves; [done | by intros -> |].
    intros cmds base sel. apply send_bulk_ok. intros. by apply in_sync_state.
  - eexists. split; [reflexivity |]. apply Hsame; [| done]. apply rinv_slaves; [done | by intros -> | intros cmds base sel; apply filter_slaves_ok].
  - destruct ((zlen (slaves s) =? 0) && negb (bool_decide (repl_backlog s = None))) eqn:E; [| exists s; split; [done |]; by apply Hsame].
    apply andb_true_iff in E as [E%Z.eqb_eq _].
    destruct (free_backlog_ok s F I) as (s' & E' & Hb & I'); [unfold zlen in E; by destruct (slaves s) |].
    exists s'. split; [done |]. unfold fed_after. by rewrite bool_decide_eq_true_2.
  - eexists. split; [reflexivity |]. apply Hsame; [by apply resize_ok | done].
Qed.

Lemma rhandle_all_ok l : forall s F, rinv s F -> events_ok l s -> exists s', handle_all junk l s = Some s' /\ rinv s' (fed_all l s F).
Proof.
  induction l as [|e l IH]; intros s F I Hl; [by exists s |]. destruct Hl as [He Hl]. destruct (rhandle_ok s F e I He) as (s1 & E & I1).
  cbn [handle_all fed_all]. rewrite E in Hl |- *. cbn [mbind option_bind]. by apply IH.
Qed.

Lemma rinv_start size id : 0 < size -> rinv (start_master size id) [].
Proof. by split. Qed.

(** The stream, and the place in it of a slave that joined at the offset [o]. *)
Lemma slave_stream s F x o : rinv s F -> In x (slaves s) -> how x = Partial o \/ how x = Fresh o [] ->
  exists S p, at_stream s S /\ 0 <= p <= zlen S /\ master_repl_offset s = o - p + zlen S /\ reply x = drop (Z.to_nat p) S.
Proof.
  intros I Hx Hhow. destruct (decide (repl_backlog s = None)) as [Hb|Hb].
  { destruct (ri_none _ _ I Hb) as [Es _]. by rewrite Es in Hx. }
  destruct (ri_some _ _ I Hb) as (cmds & base & d & Hst & Hoff & _ & _ & Hsync).
  pose proof (proj1 (List.Forall_forall _ _) Hsync x Hx) as H. unfold in_sync in H. exists (NetworkSpec.enc_stream cmds).
  destruct Hhow as [E|E]; rewrite E in H; destruct H as [_ H].
  - destruct H as (p & Hp & -> & Er). exists p. split; [done |]. split; [done |]. split; [lia | done].
  - destruct H as (_ & c1 & c2 & d1 & d2 & F1 & F2 & -> & _ & _ & _ & _ & -> & Er). exists (zlen (NetworkSpec.enc_stream c1)).
    rewrite enc_stream_app in Hst, Hoff |- *. rewrite zlen_app in Hoff |- *. pose proof (zlen_nonneg (NetworkSpec.enc_stream c1)). pose proof (zlen_nonneg (NetworkSpec.enc_stream c2)).
    split; [done |]. split; [lia |]. split; [lia |]. rewrite Er, drop_app_ge by (unfold zlen; lia). unfold zlen. by rewrite Nat2Z.id, Nat.sub_diag.
Qed.

(** A PSYNC that the backlog can answer. *)
Lemma psync_ok s S o n p c saved l :
  at_stream s S -> 0 <= p <= zlen S -> master_repl_offset s = o - p + zlen S -> 0 <= n <= zlen (drop (Z.to_nat p) S) ->
  repl_backlog_off s <= o + n + 1 -> existsb (fun y => Nat.eqb (sl_id y) c) l = false ->
  exists s' y, handle junk (with_slaves s l) (Sync c true false (Some (true, Some (o + n + 1))) true saved) = Some s' /\
    slaves s' = l ++ [y] /\ replstate y = REDIS_REPL_ONLINE /\ how y = Partial (o + n) /\
    wire y = str "+CONTINUE" ++ crlf /\ reply y = drop (Z.to_nat (p + n)) S.
Proof.
  intros Hst Hp Hm Hn Hoff Hc. rewrite zlen_drop in Hn by lia.
  assert (Hst' : at_stream (with_slaves s l) S) by done. assert (Hhi : o + n + 1 <= repl_backlog_off s + repl_backlog_histlen s).
  { destruct Hst as (b & X & H & _ & _ & _ & Ho). lia. }
  destruct (backlog_ok (with_slaves s l) S (o + n + 1) Hst' (conj Hoff Hhi)) as (q & k & E & Hq & Eq).
  assert (Hb : repl_backlog s <> None) by (destruct Hst as (b & ? & ? & Eb & _); congruence).
  cbn [handle]. unfold syncCommand. simpl. rewrite Hc. cbn [negb]. unfold masterTryPartialResynchronization. simpl. rewrite (bool_decide_eq_false_2 _ Hb). cbn [orb].
  rewrite (proj2 (Z.ltb_ge _ _)) by lia. cbn [orb]. rewrite Z.gtb_ltb, (proj2 (Z.ltb_ge _ _)) by lia. rewrite E. cbn [mbind option_bind].
  eexists _, _. split; [reflexivity |]. split; [reflexivity |]. simpl. split; [done |]. split; [f_equal; lia |]. split; [done |].
  simpl in Eq. f_equal. f_equal. lia.
Qed.

End Master.
