(* ===== verification/ReplThms.v ===== *)
(** * replication.c: theorems *)

From Stdlib Require Import Ascii String.
From S2P Require Import Prelude Util Sds Server ServerFacts ObjFacts Robj Network NetworkFacts Aof AofFacts AofLog Repl ReplFacts.

(** C8. Replication: from a server that starts, through any commands that are fed, SYNC and
    PSYNC of any clients, ends of dumps that succeed or fail, transfers, links that break
    and changes of the backlog, no assertion fails, and while there is a backlog it is the
    end of a stream that runs the commands fed since it was created, each in its database;
    every slave that joined at an offset, with a part of the stream or with its own dump,
    has in its output the stream from exactly this offset on, and for a dump that is whole
    commands, which run all that was fed since in the right databases. If the offset of its
    PSYNC was no integer, the error is in its output before them
    ([malformed_offset_garbles]). Of slaves that got a copy of the output of another, or
    waited for the next dump, nothing is said but that they are there: [copied_slave_loses]
    and [waiting_slave_doubled] show why. *)
Theorem repl_in_sync junk size id l :
  0 < size -> events_ok junk l (start_master size id) ->
  exists s, handle_all junk l (start_master size id) = Some s /\
    if bool_decide (repl_backlog s = None) then slaves s = [] else synced s (fed_all junk l (start_master size id) []).
Proof.
  intros Hsz Hl. destruct (rhandle_all_ok junk l _ [] (rinv_start size id Hsz) Hl) as (s & E & I). exists s. split; [done |].
  case_bool_decide as Hb; [by apply (ri_none _ _ I Hb) | by apply (ri_some _ _ I)].
Qed.

(** C9. PSYNC: a slave that joined at the offset [o], with a part of the stream or with a
    dump that was started for it (and no error queued before), and has received [n] bytes of
    its output comes back as another client and asks for the byte [o + n + 1]; if the
    backlog goes back that far the request is accepted, and the new client is sent exactly
    what the slave has not received, whatever became of the other slaves. *)
Theorem psync_resumes junk size id l s x o n c saved slaves' :
  0 < size -> events_ok junk l (start_master size id) -> handle_all junk l (start_master size id) = Some s ->
  In x (slaves s) -> how x = Partial o \/ how x = Fresh o [] -> 0 <= n <= zlen (reply x) -> repl_backlog_off s <= o + n + 1 ->
  existsb (fun y => Nat.eqb (sl_id y) c) slaves' = false ->
  exists s' y, handle junk (with_slaves s slaves') (Sync c true false (Some (true, Some (o + n + 1))) true saved) = Some s' /\
    slaves s' = slaves' ++ [y] /\ replstate y = REDIS_REPL_ONLINE /\ how y = Partial (o + n) /\
    wire y = str "+CONTINUE" ++ crlf /\ reply y = drop (Z.to_nat n) (reply x).
Proof.
  intros Hsz Hl E Hx Hhow Hn Hoff Hc. destruct (rhandle_all_ok junk l _ [] (rinv_start size id Hsz) Hl) as (s1 & E1 & I).
  rewrite E in E1. injection E1 as <-. destruct (slave_stream s _ x o I Hx Hhow) as (S & p & Hst & Hp & Hm & Er).
  destruct (psync_ok junk s S o n p c saved slaves' Hst Hp Hm) as (s' & y & E' & Hy); [rewrite <- Er; lia | done | done |].
  exists s', y. split; [exact E' |]. by rewrite Er, drop_drop, <- Z2Nat.inj_add by lia.
Qed.

(** ** Examples *)

Definition repl_incr : list (list Z) := [str "INCR"; str "x"].
Definition repl_set : list (list Z) := [str "SET"; str "k"; str "v"].
Definition repl_dump : list Z := str "REDIS".
Definition repl_zero (_ : nat) : Z := 0.
Definition repl_open (_ : nat) : bool := true.

(** Two slaves with a dump and one with a part of the stream, in a small backlog that has
    gone round, and a link that breaks. *)
Definition repl_demo : list event :=
  [Sync 1 true false (Some (false, None)) true true; Feed 0 repl_incr; BgSaveDone true repl_dump repl_open true; SendBulk 1 true (Wrote 5);
   Feed 3 repl_set; Sync 2 true false None true true; Feed 3 repl_incr; Sync 3 true false (Some (true, Some 93)) true true; Feed 3 repl_set; FreeSlave 2; Feed 0 repl_incr].

Definition repl_event_okb (e : event) (s : master) : bool :=
  match e with
  | Feed dictid argv => (0 <=? dictid) && (dictid <? 2 ^ 31) && negb (bool_decide (argv = [])) && (zlen argv <? 2 ^ 31) &&
      forallb (fun a => zlen a <? 2 ^ 31) argv && negb (bool_decide (hd [] argv = str "SELECT"))
  | Sync _ _ _ _ _ _ => (- 2 ^ 63 <=? full_resync_offset s) && (full_resync_offset s <? 2 ^ 63)
  | _ => true
  end.

Fixpoint repl_okb (l : list event) (s : master) : bool :=
  match l with
  | [] => true
  | e :: l => repl_event_okb e s && match handle repl_zero s e with Some s' => repl_okb l s' | None => true end
  end.

Lemma repl_event_okb_ok e s : repl_event_okb e s = true -> event_ok e s.
Proof.
  destruct e; simpl; try done.
  - rewrite !andb_true_iff, !negb_true_iff, !bool_decide_eq_false. intros [[[[[H1 H2] H3] H4] H5] H6]. split; [lia |]. split; [| done].
    split; [done |]. split; [lia |]. apply List.Forall_forall. intros a Ha. apply forallb_forall with (x := a) in H5; [lia | done].
  - rewrite andb_true_iff. intros [H1 H2]. split; [by apply Z.leb_le | by apply Z.ltb_lt].
Qed.

Lemma repl_okb_ok l : forall s, repl_okb l s = true -> events_ok repl_zero l s.
Proof.
  induction l as [|e l IH]; intros s; [done |]. cbn [repl_okb events_ok]. rewrite andb_true_iff. intros [H1 H2]. split; [by apply repl_event_okb_ok |].
  destruct (handle repl_zero s e) as [s'|]; [by apply IH | done].
Qed.

Lemma repl_demo_ok : events_ok repl_zero repl_demo (start_master 90 (str "id")).
Proof. apply repl_okb_ok. vm_compute. reflexivity. Qed.

Example repl_demo_slaves :
  option_map (fun s => (map (fun x => (sl_id x, how x, zlen (reply x))) (slaves s), master_repl_offset s, repl_backlog_off s))
    (handle_all repl_zero repl_demo (start_master 90 (str "id"))) =
  Some ([(1%nat, Fresh 1 [], 209); (3%nat, Partial 92, 118)], 210, 121).
Proof. vm_compute. reflexivity. Qed.

Lemma repl_in_sync_witness :
  events_ok repl_zero repl_demo (start_master 90 (str "id")) /\
  exists s, handle_all repl_zero repl_demo (start_master 90 (str "id")) = Some s /\
    if bool_decide (repl_backlog s = None) then slaves s = [] else synced s (fed_all repl_zero repl_demo (start_master 90 (str "id")) []).
Proof.
  split; [exact repl_demo_ok |]. exact (repl_in_sync repl_zero 90 (str "id") repl_demo ltac:(reflexivity) repl_demo_ok).
Defined.

(** The state and the slave of the second witness: the slave has received 150 bytes. *)
Definition repl_state_of (r : option master) : master := match r with Some s => s | None => start_master 0 [] end.
Definition repl_end : master := repl_state_of (handle_all repl_zero repl_demo (start_master 90 (str "id"))).
Definition repl_slave : slave := hd (new_slave 0 REDIS_REPL_ONLINE Broken) (slaves repl_end).

Lemma psync_resumes_witness :
  exists s' y, handle repl_zero (with_slaves repl_end []) (Sync 9 true false (Some (true, Some (1 + 150 + 1))) true true) = Some s' /\
    slaves s' = [] ++ [y] /\ replstate y = REDIS_REPL_ONLINE /\ how y = Partial (1 + 150) /\
    wire y = str "+CONTINUE" ++ crlf /\ reply y = drop (Z.to_nat 150) (reply repl_slave).
Proof.
  assert (E : handle_all repl_zero repl_demo (start_master 90 (str "id")) = Some repl_end) by (vm_compute; reflexivity).
  assert (Hx : In repl_slave (slaves repl_end)) by (vm_compute; by left).
  assert (Hh : how repl_slave = Partial 1 \/ how repl_slave = Fresh 1 []) by (right; vm_compute; reflexivity).
  assert (Hn : 0 <= 150 <= zlen (reply repl_slave)) by (split; vm_compute; discriminate).
  assert (Ho : repl_backlog_off repl_end <= 1 + 150 + 1) by (vm_compute; discriminate).
  exact (psync_resumes repl_zero 90 (str "id") repl_demo repl_end repl_slave 1 150 9 true [] ltac:(reflexivity) repl_demo_ok E Hx Hh Hn Ho ltac:(reflexivity)).
Defined.

(** ** Slaves that are told an offset that is not theirs *)

(** A slave that comes while a dump for something else runs is told the offset of that
    moment, but its own dump starts later: when the link breaks it asks for bytes before its
    dump, and the INCR that is already in the dump is sent to it again. *)
Theorem waiting_slave_doubled :
  let s := repl_state_of (handle_all repl_zero
    [BgSave; Sync 1 true false (Some (false, None)) true true; Feed 0 repl_incr; BgSaveDone true repl_dump repl_open true;
     BgSaveDone true repl_dump repl_open true; SendBulk 1 true (Wrote 5)] (start_master 90 (str "id"))) in
  exists x, slaves s = [x] /\ replstate x = REDIS_REPL_ONLINE /\
    wire x = str "+FULLRESYNC id 1" ++ crlf ++ str "$5" ++ crlf ++ repl_dump /\ reply x = NetworkSpec.enc_command (select 0) /\
    let s' := repl_state_of (handle_all repl_zero [FreeSlave 1; Sync 2 true false (Some (true, Some (1 + zlen (reply x) + 1))) true true] s) in
    exists y, slaves s' = [y] /\ wire y = str "+CONTINUE" ++ crlf /\ reply y = NetworkSpec.enc_command repl_incr.
Proof. intros s. vm_compute in s. eexists. repeat (split; [vm_compute; reflexivity |]). intros s'. vm_compute in s'. eexists. repeat split; vm_compute; reflexivity. Qed.

(** A slave that gets a copy of the output of another is told the offset of the moment, but
    the copy starts earlier: it counts more bytes than there are, and when the link breaks
    the SET that it never received is skipped. *)
Theorem copied_slave_loses :
  let s := repl_state_of (handle_all repl_zero
    [Sync 1 true false (Some (false, None)) true true; Feed 0 repl_set; Sync 2 true false (Some (false, None)) true true;
     BgSaveDone true repl_dump repl_open true; SendBulk 1 true (Wrote 5); SendBulk 2 true (Wrote 5)] (start_master 200 (str "id"))) in
  exists x y, slaves s = [x; y] /\ how x = Fresh 1 [] /\ reply y = reply x /\ master_repl_offset s = 1 + zlen (reply x) /\
    replstate y = REDIS_REPL_ONLINE /\ wire y = str "+FULLRESYNC id 51" ++ crlf ++ str "$5" ++ crlf ++ repl_dump /\
    let s' := repl_state_of (handle_all repl_zero [FreeSlave 2; Feed 0 repl_set; Sync 3 true false (Some (true, Some (51 + zlen (reply y) + 1))) true true] s) in
    exists x' z, slaves s' = [x'; z] /\ reply x' = reply x ++ NetworkSpec.enc_stream [select 0; repl_set] /\ wire z = str "+CONTINUE" ++ crlf /\ reply z = [].
Proof. intros s. vm_compute in s. eexists _, _. repeat (split; [vm_compute; reflexivity |]). intros s'. vm_compute in s'. eexists _, _. repeat split; vm_compute; reflexivity. Qed.

(** When the dump that slaves wait for cannot be started they are to be closed, but they are
    already in the state that says that it runs: they stay, and nothing runs. *)
Theorem waiting_slave_stuck :
  let s := repl_state_of (handle_all repl_zero
    [BgSave; Sync 1 true false None true true; BgSaveDone true repl_dump repl_open false] (start_master 90 (str "id"))) in
  rdb_child s = false /\ map (fun x => (sl_id x, replstate x)) (slaves s) = [(1%nat, REDIS_REPL_WAIT_BGSAVE_END)].
Proof. vm_compute. split; reflexivity. Qed.

(** The length of the dump is written again when the first write of its bytes would block. *)
Theorem bulk_length_twice c :
  option_map wire (x ← sendBulkToSlave (Slave c REDIS_REPL_SEND_BULK [] [] 0 repl_dump Broken) true Again; sendBulkToSlave x true (Wrote 5)) =
  Some (str "$5" ++ crlf ++ str "$5" ++ crlf ++ repl_dump).
Proof. vm_compute. reflexivity. Qed.

(** A slave whose PSYNC has the right run id and an offset that is no integer is told a full
    resynchronisation, and the error that was queued is sent to it too, before the commands;
    it is no part of the stream that the offset counts. *)
Theorem malformed_offset_garbles :
  let s := repl_state_of (handle_all repl_zero
    [Sync 1 true false (Some (true, None)) true true; Feed 0 repl_incr; BgSaveDone true repl_dump repl_open true; SendBulk 1 true (Wrote 5)] (start_master 90 (str "id"))) in
  exists x, slaves s = [x] /\ replstate x = REDIS_REPL_ONLINE /\ how x = Fresh 1 psync_offset_error /\
    wire x = str "+FULLRESYNC id 1" ++ crlf ++ str "$5" ++ crlf ++ repl_dump /\
    reply x = psync_offset_error ++ NetworkSpec.enc_stream [select 0; repl_incr] /\
    master_repl_offset s = 1 + zlen (NetworkSpec.enc_stream [select 0; repl_incr]).
Proof. intros s. vm_compute in s. eexists. repeat (split; [vm_compute; reflexivity |]). vm_compute. reflexivity. Qed.
