(* ===== verification/Pubsub.v ===== *)
(** * pubsub.c and notify.c: publish and subscribe

    The clients with their channels and patterns, the two tables of the server, and the
    output of the clients.  Channels, patterns and messages are the bytes of their decoded
    objects; the order in which a table gives its keys is a parameter. *)

From Stdlib Require Import Ascii String.
From S2P Require Import Prelude Util Sds Server Bitops.

Definition REDIS_FORCE_REPL : Z := Z.shiftl 1 15.
Definition REDIS_NOTIFY_KEYSPACE : Z := Z.shiftl 1 0.
Definition REDIS_NOTIFY_KEYEVENT : Z := Z.shiftl 1 1.

Definition shared_subscribebulk : list Z := str "$9" ++ crlf ++ str "subscribe" ++ crlf.
Definition shared_unsubscribebulk : list Z := str "$11" ++ crlf ++ str "unsubscribe" ++ crlf.
Definition shared_psubscribebulk : list Z := str "$10" ++ crlf ++ str "psubscribe" ++ crlf.
Definition shared_punsubscribebulk : list Z := str "$12" ++ crlf ++ str "punsubscribe" ++ crlf.
Definition shared_messagebulk : list Z := str "$7" ++ crlf ++ str "message" ++ crlf.
Definition shared_pmessagebulk : list Z := str "$8" ++ crlf ++ str "pmessage" ++ crlf.
Definition shared_mbulkhdr3 : list Z := str "*3" ++ crlf.
Definition shared_mbulkhdr4 : list Z := str "*4" ++ crlf.
Definition shared_nullbulk : list Z := str "$-1" ++ crlf.

(** [c->pubsub_channels], [c->pubsub_patterns], [c->flags] and the output. *)
Record client := Client { c_channels : gset (list Z); c_patterns : list (list Z); flags : Z; reply : list Z }.

(** [clients] holds the clients by their address; a pattern of the server has its client. *)
Record pserver := PServer {
  clients : gmap nat client; pubsub_channels : gmap (list Z) (list nat); pubsub_patterns : list (nat * list Z);
  notify_keyspace_events : Z }.

Definition with_clients (s : pserver) (m : gmap nat client) : pserver :=
  PServer m (pubsub_channels s) (pubsub_patterns s) (notify_keyspace_events s).
Definition with_channels (s : pserver) (m : gmap (list Z) (list nat)) : pserver :=
  PServer (clients s) m (pubsub_patterns s) (notify_keyspace_events s).
Definition with_patterns (s : pserver) (l : list (nat * list Z)) : pserver :=
  PServer (clients s) (pubsub_channels s) l (notify_keyspace_events s).

Definition set_channels (x : client) (m : gset (list Z)) : client := Client m (c_patterns x) (flags x) (reply x).
Definition set_patterns (x : client) (l : list (list Z)) : client := Client (c_channels x) l (flags x) (reply x).
Definition set_flags (x : client) (f : Z) : client := Client (c_channels x) (c_patterns x) f (reply x).
Definition add_reply (b : list Z) (x : client) : client := Client (c_channels x) (c_patterns x) (flags x) (reply x ++ b).

(** [None] is a failed assertion, a bad pointer or an access outside a buffer. *)
Definition assign (c : nat) (f : client -> client) (s : pserver) : option pserver :=
  x ← clients s !! c; Some (with_clients s (<[c := f x]> (clients s))).

Definition addReply (c : nat) (b : list Z) (s : pserver) : option pserver := assign c (add_reply b) s.
(** The text of %s in an error ends at a NUL; the shared headers of small numbers hold the same text. *)
Definition addReplyLongLongWithPrefix (c : nat) (ll prefix : Z) (s : pserver) : option pserver :=
  t ← ll_text 127 ll; addReply c ([prefix] ++ t ++ crlf) s.
Definition addReplyLongLong (c : nat) (ll : Z) (s : pserver) : option pserver := addReplyLongLongWithPrefix c ll 58 s.
Definition addReplyMultiBulkLen (c : nat) (length : Z) (s : pserver) : option pserver := addReplyLongLongWithPrefix c length ch_star s.
Definition addReplyBulk (c : nat) (o : list Z) (s : pserver) : option pserver :=
  s ← addReplyLongLongWithPrefix c (zlen o) 36 s; s ← addReply c o s; addReply c crlf s.
Definition addReplyBulkLongLong (c : nat) (ll : Z) (s : pserver) : option pserver :=
  t ← ll_text 64 ll; addReplyBulk c t s.
Fixpoint c_string (b : list Z) : list Z :=
  match b with [] => [] | x :: b => if x =? 0 then [] else x :: c_string b end.
Definition addReplyErrorFormat (c : nat) (err : list Z) (s : pserver) : option pserver :=
  addReply c (str "-ERR " ++ map (fun b => if (b =? 13) || (b =? 10) then 32 else b) err ++ crlf) s.
Definition addReplyError (c : nat) (err : list Z) (s : pserver) : option pserver := addReply c (str "-ERR " ++ err ++ crlf) s.

(** listSearchKey and listDelNode. *)
Fixpoint list_del {A} `{EqDecision A} (l : list A) (x : A) : option (list A) :=
  match l with
  | [] => None
  | y :: l => if decide (y = x) then Some l else l' ← list_del l x; Some (y :: l')
  end.

(** The end of the functions below: the notice of the client, with its subscriptions. *)
Definition notify_client (c : nat) (kind : list Z) (what : option (list Z)) (s : pserver) : option pserver :=
  s ← addReply c shared_mbulkhdr3 s;
  s ← addReply c kind s;
  s ← match what with Some o => addReplyBulk c o s | None => addReply c shared_nullbulk s end;
  x ← clients s !! c;
  addReplyLongLong c (Z.of_nat (size (c_channels x)) + zlen (c_patterns x)) s.

(** ** Channels *)

Definition pubsubSubscribeChannel (c : nat) (channel : list Z) (s : pserver) : option (pserver * bool) :=
  x ← clients s !! c;
  let '(s, retval) :=
    if decide (channel ∈ c_channels x) then (s, false) else
    let s := with_clients s (<[c := set_channels x ({[channel]} ∪ c_channels x)]> (clients s)) in
    let l := default [] (pubsub_channels s !! channel) in
    (with_channels s (<[channel := l ++ [c]]> (pubsub_channels s)), true) in
  s ← notify_client c shared_subscribebulk (Some channel) s;
  Some (s, retval).

Definition pubsubUnsubscribeChannel (c : nat) (channel : list Z) (notify : bool) (s : pserver) : option (pserver * bool) :=
  x ← clients s !! c;
  '(s, retval) ←
    (if decide (channel ∈ c_channels x) then
       let s := with_clients s (<[c := set_channels x (c_channels x ∖ {[channel]})]> (clients s)) in
       l ← pubsub_channels s !! channel;
       l ← list_del l c;
       Some (with_channels s (match l with [] => delete channel (pubsub_channels s) | _ => <[channel := l]> (pubsub_channels s) end), true)
     else Some (s, false));
  s ← (if notify : bool then notify_client c shared_unsubscribebulk (Some channel) s else Some s);
  Some (s, retval).

(** ** Patterns *)

Definition pubsubSubscribePattern (c : nat) (pattern : list Z) (s : pserver) : option (pserver * bool) :=
  x ← clients s !! c;
  let '(s, retval) :=
    if decide (pattern ∈ c_patterns x) then (s, false) else
    let s := with_clients s (<[c := set_patterns x (c_patterns x ++ [pattern])]> (clients s)) in
    (with_patterns s (pubsub_patterns s ++ [(c, pattern)]), true) in
  s ← notify_client c shared_psubscribebulk (Some pattern) s;
  Some (s, retval).

Definition pubsubUnsubscribePattern (c : nat) (pattern : list Z) (notify : bool) (s : pserver) : option (pserver * bool) :=
  x ← clients s !! c;
  '(s, retval) ←
    (match list_del (c_patterns x) pattern with
     | Some l =>
         let s := with_clients s (<[c := set_patterns x l]> (clients s)) in
         l ← list_del (pubsub_patterns s) (c, pattern);
         Some (with_patterns s l, true)
     | None => Some (s, false)
     end);
  s ← (if notify : bool then notify_client c shared_punsubscribebulk (Some pattern) s else Some s);
  Some (s, retval).

(** ** Publishing *)

Fixpoint send_channel (l : list nat) (channel message : list Z) (s : pserver) : option pserver :=
  match l with
  | [] => Some s
  | c :: l =>
      s ← addReply c shared_mbulkhdr3 s;
      s ← addReply c shared_messagebulk s;
      s ← addReplyBulk c channel s;
      s ← addReplyBulk c message s;
      send_channel l channel message s
  end.

(** The result is the number of receivers. *)
Fixpoint send_patterns (l : list (nat * list Z)) (channel message : list Z) (receivers : Z) (s : pserver) : option (pserver * Z) :=
  match l with
  | [] => Some (s, receivers)
  | (c, pat) :: l =>
      m ← Glob.match_sds pat channel false;
      if m : bool then
        s ← addReply c shared_mbulkhdr4 s;
        s ← addReply c shared_pmessagebulk s;
        s ← addReplyBulk c pat s;
        s ← addReplyBulk c channel s;
        s ← addReplyBulk c message s;
        send_patterns l channel message (receivers + 1) s
      else send_patterns l channel message receivers s
  end.

Definition pubsubPublishMessage (channel message : list Z) (s : pserver) : option (pserver * Z) :=
  '(s, receivers) ←
    (match pubsub_channels s !! channel with
     | Some l => s ← send_channel l channel message s; Some (s, zlen l)
     | None => Some (s, 0)
     end);
  send_patterns (pubsub_patterns s) channel message receivers s.

(** notify.c: the channel of an event on a key, and the notices. *)
Definition event_channel (prefix : string) (dbid : Z) (name : list Z) : option (list Z) :=
  t ← ll_text 24 dbid; Some (str prefix ++ t ++ str "__:" ++ name).

Definition notifyKeyspaceEvent (type : Z) (event key : list Z) (dbid : Z) (s : pserver) : option pserver :=
  if Z.land (notify_keyspace_events s) type =? 0 then Some s else
  s ← (if negb (Z.land (notify_keyspace_events s) REDIS_NOTIFY_KEYSPACE =? 0) then
         chan ← event_channel "__keyspace@" dbid key;
         '(s, _) ← pubsubPublishMessage chan event s; Some s
       else Some s);
  if negb (Z.land (notify_keyspace_events s) REDIS_NOTIFY_KEYEVENT =? 0) then
    chan ← event_channel "__keyevent@" dbid event;
    '(s, _) ← pubsubPublishMessage chan key s; Some s
  else Some s.

Section Pubsub.
(** The order in which dictNext gives the keys of a table. *)
Context (iterate : gset (list Z) -> list (list Z)).

Fixpoint unsubscribe_loop (c : nat) (l : list (list Z)) (notify : bool) (count : Z) (s : pserver) : option (pserver * Z) :=
  match l with
  | [] => Some (s, count)
  | channel :: l =>
      '(s, r) ← pubsubUnsubscribeChannel c channel notify s;
      unsubscribe_loop c l notify (count + Z.b2z r) s
  end.

Definition pubsubUnsubscribeAllChannels (c : nat) (notify : bool) (s : pserver) : option pserver :=
  x ← clients s !! c;
  '(s, count) ← unsubscribe_loop c (iterate (c_channels x)) notify 0 s;
  if notify && (count =? 0) then notify_client c shared_unsubscribebulk None s else Some s.

Fixpoint punsubscribe_loop (c : nat) (l : list (list Z)) (notify : bool) (count : Z) (s : pserver) : option (pserver * Z) :=
  match l with
  | [] => Some (s, count)
  | pattern :: l =>
      '(s, r) ← pubsubUnsubscribePattern c pattern notify s;
      punsubscribe_loop c l notify (count + Z.b2z r) s
  end.

Definition pubsubUnsubscribeAllPatterns (c : nat) (notify : bool) (s : pserver) : option pserver :=
  x ← clients s !! c;
  '(s, count) ← punsubscribe_loop c (c_patterns x) notify 0 s;
  if notify && (count =? 0) then notify_client c shared_punsubscribebulk None s else Some s.

(** ** Commands *)

Fixpoint subscribe_each (c : nat) (l : list (list Z)) (s : pserver) : option pserver :=
  match l with [] => Some s | channel :: l => '(s, _) ← pubsubSubscribeChannel c channel s; subscribe_each c l s end.
Definition subscribeCommand (c : nat) (argv : list (list Z)) (s : pserver) : option pserver := subscribe_each c (drop 1 argv) s.

Definition unsubscribeCommand (c : nat) (argv : list (list Z)) (s : pserver) : option pserver :=
  if zlen argv =? 1 then pubsubUnsubscribeAllChannels c true s
  else '(s, _) ← unsubscribe_loop c (drop 1 argv) true 0 s; Some s.

Fixpoint psubscribe_each (c : nat) (l : list (list Z)) (s : pserver) : option pserver :=
  match l with [] => Some s | pattern :: l => '(s, _) ← pubsubSubscribePattern c pattern s; psubscribe_each c l s end.
Definition psubscribeCommand (c : nat) (argv : list (list Z)) (s : pserver) : option pserver := psubscribe_each c (drop 1 argv) s.

Definition punsubscribeCommand (c : nat) (argv : list (list Z)) (s : pserver) : option pserver :=
  if zlen argv =? 1 then pubsubUnsubscribeAllPatterns c true s
  else '(s, _) ← punsubscribe_loop c (drop 1 argv) true 0 s; Some s.

Definition publishCommand (c : nat) (argv : list (list Z)) (s : pserver) : option pserver :=
  channel ← argv !! 1%nat;
  message ← argv !! 2%nat;
  '(s, receivers) ← pubsubPublishMessage channel message s;
  s ← assign c (fun x => set_flags x (Z.lor (flags x) REDIS_FORCE_REPL)) s;
  addReplyLongLong c receivers s.

(** The channels that the pattern matches. *)
Fixpoint channels_loop (l : list (list Z)) (pat : option (list Z)) : option (list (list Z)) :=
  match l with
  | [] => Some []
  | channel :: l =>
      m ← match pat with None => Some true | Some pat => Glob.match_sds pat channel false end;
      r ← channels_loop l pat;
      Some (if m : bool then channel :: r else r)
  end.

Fixpoint bulks (c : nat) (l : list (list Z)) (s : pserver) : option pserver :=
  match l with [] => Some s | o :: l => s ← addReplyBulk c o s; bulks c l s end.

Fixpoint numsub_loop (c : nat) (l : list (list Z)) (s : pserver) : option pserver :=
  match l with
  | [] => Some s
  | channel :: l =>
      s ← addReplyBulk c channel s;
      s ← addReplyBulkLongLong c (match pubsub_channels s !! channel with Some l => zlen l | None => 0 end) s;
      numsub_loop c l s
  end.

(** The deferred length of PUBSUB CHANNELS is put before the channels. *)
Definition pubsubCommand (c : nat) (argv : list (list Z)) (s : pserver) : option pserver :=
  sub ← argv !! 1%nat;
  is_channels ← strcaseeq (sub ++ [0]) (str "channels");
  is_numsub ← strcaseeq (sub ++ [0]) (str "numsub");
  is_numpat ← strcaseeq (sub ++ [0]) (str "numpat");
  let argc := zlen argv in
  if is_channels && ((argc =? 2) || (argc =? 3)) then
    l ← channels_loop (iterate (dom (pubsub_channels s))) (argv !! 2%nat);
    s ← addReplyMultiBulkLen c (zlen l) s;
    bulks c l s
  else if is_numsub && (2 <=? argc) then
    s ← addReplyMultiBulkLen c ((argc - 2) * 2) s;
    numsub_loop c (drop 2 argv) s
  else if is_numpat && (argc =? 2) then addReplyLongLong c (zlen (pubsub_patterns s)) s
  else
    addReplyErrorFormat c (str "Unknown PUBSUB subcommand or wrong number of arguments for '" ++ c_string sub ++ [39]) s.

(** What a client sends, once the other checks of processCommand have passed; [COther] stands
    for a command of another file, with its reply. *)
Inductive command := CSubscribe | CUnsubscribe | CPsubscribe | CPunsubscribe | CPublish | CPubsub | COther (r : list Z).

Definition allowed (cmd : command) : bool :=
  match cmd with CSubscribe | CUnsubscribe | CPsubscribe | CPunsubscribe => true | _ => false end.

Definition proc (c : nat) (cmd : command) (argv : list (list Z)) (s : pserver) : option pserver :=
  match cmd with
  | CSubscribe => subscribeCommand c argv s
  | CUnsubscribe => unsubscribeCommand c argv s
  | CPsubscribe => psubscribeCommand c argv s
  | CPunsubscribe => punsubscribeCommand c argv s
  | CPublish => publishCommand c argv s
  | CPubsub => pubsubCommand c argv s
  | COther r => addReply c r s
  end.

(** The test of processCommand on a client with subscriptions. *)
Definition processCommand (c : nat) (cmd : command) (argv : list (list Z)) (s : pserver) : option pserver :=
  x ← clients s !! c;
  if (negb (bool_decide (c_channels x = ∅)) || (0 <? zlen (c_patterns x))) && negb (allowed cmd) then
    addReplyError c (str "only (P)SUBSCRIBE / (P)UNSUBSCRIBE / QUIT allowed in this context") s
  else proc c cmd argv s.

(** The parts of createClient() and freeClient() on the state of this file. *)
Definition createClient (c : nat) (s : pserver) : option pserver :=
  match clients s !! c with
  | Some _ => None
  | None => Some (with_clients s (<[c := Client ∅ [] 0 []]> (clients s)))
  end.

Definition freeClient (c : nat) (s : pserver) : option pserver :=
  s ← pubsubUnsubscribeAllChannels c false s;
  s ← pubsubUnsubscribeAllPatterns c false s;
  Some (with_clients s (delete c (clients s))).

Inductive request :=
| Request (c : nat) (cmd : command) (argv : list (list Z)) | Connect (c : nat) | Disconnect (c : nat)
| Notice (type : Z) (event key : list Z) (dbid : Z).

Definition handle (r : request) (s : pserver) : option pserver :=
  match r with
  | Request c cmd argv => processCommand c cmd argv s
  | Connect c => createClient c s
  | Disconnect c => freeClient c s
  | Notice type event key dbid => notifyKeyspaceEvent type event key dbid s
  end.

Fixpoint handle_all (l : list request) (s : pserver) : option pserver :=
  match l with [] => Some s | r :: l => s ← handle r s; handle_all l s end.

Definition start_server (notify : Z) : pserver := PServer ∅ ∅ [] notify.

End Pubsub.
