(* ===== verification/PubsubFacts.v ===== *)
(** * Publish and subscribe: specification and simulation

    In the specification a client has a set of channels, and the server a list of patterns
    with their clients; the table from channels to clients, and the patterns of a client,
    are implied ([pinv]).  Publishing adds to the output of every client at once. *)

From Stdlib Require Import Ascii String.
From S2P Require Import Prelude Util Sds Server ServerFacts ObjFacts Bitops BitopsThms Pubsub.

(** ** Specification *)

Record aclient := AClient { a_channels : gset (list Z); a_flags : Z; a_reply : list Z }.
Record astate := AState { a_clients : gmap nat aclient; a_pats : list (nat * list Z); a_notify : Z }.

Definition absc (x : client) : aclient := AClient (c_channels x) (flags x) (reply x).
Definition abs (s : pserver) : astate := AState (absc <$> clients s) (pubsub_patterns s) (notify_keyspace_events s).

Definition with_aclients (f : gmap nat aclient -> gmap nat aclient) (t : astate) : astate := AState (f (a_clients t)) (a_pats t) (a_notify t).
Definition with_apats (f : list (nat * list Z) -> list (nat * list Z)) (t : astate) : astate := AState (a_clients t) (f (a_pats t)) (a_notify t).

Definition put (b : list Z) (x : aclient) : aclient := AClient (a_channels x) (a_flags x) (a_reply x ++ b).
Definition put_channels (f : gset (list Z) -> gset (list Z)) (x : aclient) : aclient := AClient (f (a_channels x)) (a_flags x) (a_reply x).
Definition s_put (c : nat) (b : list Z) : astate -> astate := with_aclients (alter (put b) c).

Definition channels (c : nat) (t : astate) : gset (list Z) := match a_clients t !! c with Some x => a_channels x | None => ∅ end.
Definition patterns (c : nat) (t : astate) : list (list Z) := map snd (List.filter (fun p => Nat.eqb (fst p) c) (a_pats t)).
Definition a_count (c : nat) (t : astate) : Z := Z.of_nat (size (channels c t)) + zlen (patterns c t).

(** The notice to a client, with the number of its subscriptions. *)
Definition s_notice (c : nat) (kind what : list Z) (t : astate) : astate :=
  s_put c (shared_mbulkhdr3 ++ kind ++ what ++ r_int (a_count c t)) t.

Definition s_subscribe (c : nat) (channel : list Z) (t : astate) : astate :=
  s_notice c shared_subscribebulk (r_bulk channel) (with_aclients (alter (put_channels (fun X => {[channel]} ∪ X)) c) t).
Definition s_unsubscribe (c : nat) (notify : bool) (channel : list Z) (t : astate) : astate :=
  let t := with_aclients (alter (put_channels (fun X => X ∖ {[channel]})) c) t in
  if notify then s_notice c shared_unsubscribebulk (r_bulk channel) t else t.
Definition s_psubscribe (c : nat) (pattern : list Z) (t : astate) : astate :=
  s_notice c shared_psubscribebulk (r_bulk pattern)
    (with_apats (fun l => if decide ((c, pattern) ∈ l) then l else l ++ [(c, pattern)]) t).
Definition s_punsubscribe (c : nat) (notify : bool) (pattern : list Z) (t : astate) : astate :=
  let t := with_apats (List.filter (fun p => negb (bool_decide (p = (c, pattern))))) t in
  if notify then s_notice c shared_punsubscribebulk (r_bulk pattern) t else t.

Definition matchb (pattern channel : list Z) : bool := default false (Glob.match_sds pattern channel false).

(** What a client is sent of a message: once if it has the channel, and once for each of its
    patterns that match the channel, in the order of subscription. *)
Definition message_text (channel message : list Z) : list Z := shared_mbulkhdr3 ++ shared_messagebulk ++ r_bulk channel ++ r_bulk message.
Definition pmessage_text (pattern channel message : list Z) : list Z :=
  shared_mbulkhdr4 ++ shared_pmessagebulk ++ r_bulk pattern ++ r_bulk channel ++ r_bulk message.
Definition delivery (channel message : list Z) (t : astate) (c : nat) : list Z :=
  (if decide (channel ∈ channels c t) then message_text channel message else []) ++
  concat (map (fun p => pmessage_text p channel message) (List.filter (fun p => matchb p channel) (patterns c t))).
Definition s_publish (channel message : list Z) (t : astate) : astate :=
  with_aclients (map_imap (fun c x => Some (put (delivery channel message t c) x))) t.

Definition s_subscribers (channel : list Z) (t : astate) : Z := Z.of_nat (size (dom (filter (fun p => channel ∈ a_channels (snd p)) (a_clients t)))).
Definition s_receivers (channel : list Z) (t : astate) : Z :=
  s_subscribers channel t + zlen (List.filter (fun p => matchb (snd p) channel) (a_pats t)).

(** ** The invariant of the implementation *)

Definition subscribers (s : pserver) (channel : list Z) : list nat := default [] (pubsub_channels s !! channel).

Record pinv (s : pserver) : Prop := PInv {
  pi_channel : forall channel c, c ∈ subscribers s channel <-> exists x, clients s !! c = Some x /\ channel ∈ c_channels x;
  pi_once : forall channel, NoDup (subscribers s channel);
  pi_nonempty : forall channel, pubsub_channels s !! channel <> Some [];
  pi_patterns : forall c x, clients s !! c = Some x -> c_patterns x = patterns c (abs s);
  pi_client : forall p, p ∈ pubsub_patterns s -> is_Some (clients s !! fst p);
  pi_pats : NoDup (pubsub_patterns s);
  pi_len : (forall c x channel, clients s !! c = Some x -> channel ∈ c_channels x -> zlen channel < 2 ^ 31) /\
    forall p, p ∈ pubsub_patterns s -> zlen (snd p) < 2 ^ 31 }.

(** From [s], [m] succeeds with the state that [f] gives, and keeps the invariant. *)
Definition psim (m : pserver -> option pserver) (f : astate -> astate) (s : pserver) : Prop :=
  exists s', m s = Some s' /\ abs s' = f (abs s) /\ pinv s'.

Definition there (c : nat) (t : astate) : Prop := is_Some (a_clients t !! c).

Lemma there_abs c s : there c (abs s) <-> is_Some (clients s !! c).
Proof. unfold there. simpl. by rewrite lookup_fmap, fmap_is_Some. Qed.

Lemma there_alter c d f t : there c (with_aclients (alter f d) t) <-> there c t.
Proof. unfold there. simpl. by rewrite lookup_alter_is_Some. Qed.

Lemma psim_then m f m' f' s :
  psim m f s -> (forall s', pinv s' -> abs s' = f (abs s) -> psim m' f' s') -> psim (fun s => s ← m s; m' s) (fun t => f' (f t)) s.
Proof.
  intros (s1 & E & Ea & I) H. destruct (H s1 I Ea) as (s2 & E2 & Ea2 & I2). exists s2. rewrite E. cbn [mbind option_bind]. rewrite <- Ea. done.
Qed.

Lemma psim_lookup c x f (m : client -> pserver -> option pserver) s :
  clients s !! c = Some x -> psim (m x) f s -> psim (fun s => x ← clients s !! c; m x s) f s.
Proof. intros Hx (s' & E & H). exists s'. by rewrite Hx. Qed.

Lemma psim_spec m f g s : f (abs s) = g (abs s) -> psim m f s -> psim m g s.
Proof. intros H (s' & E & Ea & I). exists s'. by rewrite <- H. Qed.

Lemma absc_insert c x s : abs (with_clients s (<[c := x]> (clients s))) = with_aclients (<[c := absc x]>) (abs s).
Proof. unfold abs, with_aclients. simpl. by rewrite fmap_insert. Qed.

Lemma abs_assign c (f : client -> client) (g : aclient -> aclient) x s :
  clients s !! c = Some x -> absc (f x) = g (absc x) -> abs (with_clients s (<[c := f x]> (clients s))) = with_aclients (alter g c) (abs s).
Proof.
  intros Hx Hf. rewrite absc_insert, Hf. unfold with_aclients. f_equal. apply map_eq. intros d. destruct (decide (c = d)) as [<-|Hd].
  - rewrite lookup_insert_eq, lookup_alter_eq. simpl. by rewrite lookup_fmap, Hx.
  - by rewrite lookup_insert_ne, lookup_alter_ne by done.
Qed.

(** A change of clients that keeps their subscriptions. *)
Lemma pinv_same s m :
  pinv s -> (forall d, (fun x => (c_channels x, c_patterns x)) <$> (m !! d) = (fun x => (c_channels x, c_patterns x)) <$> (clients s !! d)) -> pinv (with_clients s m).
Proof.
  intros [H1 H2 H3 H4 H5 H6 [H7 H8]] Hm.
  assert (Hf : forall d x, m !! d = Some x -> exists y, clients s !! d = Some y /\ c_channels y = c_channels x /\ c_patterns y = c_patterns x).
  { intros d x Hx. specialize (Hm d). rewrite Hx in Hm. destruct (clients s !! d) as [y|]; [| done]. injection Hm as ??. by exists y. }
  assert (Hb : forall d y, clients s !! d = Some y -> exists x, m !! d = Some x /\ c_channels y = c_channels x /\ c_patterns y = c_patterns x).
  { intros d y Hy. specialize (Hm d). rewrite Hy in Hm. destruct (m !! d) as [x|]; [| done]. injection Hm as ??. by exists x. }
  split; try done.
  - intros ch c. change (subscribers (with_clients s m) ch) with (subscribers s ch). rewrite H1. split.
    + intros (y & Hy & Hc). destruct (Hb c y Hy) as (x & Hx & E & _). exists x. by rewrite <- E.
    + intros (x & Hx & Hc). destruct (Hf c x Hx) as (y & Hy & E & _). exists y. by rewrite E.
  - intros c x Hx. destruct (Hf c x Hx) as (y & Hy & _ & E). rewrite <- E. by apply H4.
  - intros p Hp. destruct (H5 p Hp) as [y Hy]. destruct (Hb _ y Hy) as (x & Hx & _). by exists x.
  - split; [| done]. intros c x ch Hx Hc. destruct (Hf c x Hx) as (y & Hy & E & _). apply (H7 c y ch); [done | by rewrite E].
Qed.

Lemma psim_assign c f g s : there c (abs s) -> pinv s ->
  (forall x, absc (f x) = g (absc x) /\ c_channels (f x) = c_channels x /\ c_patterns (f x) = c_patterns x) ->
  psim (assign c f) (with_aclients (alter g c)) s.
Proof.
  intros [x Hx]%there_abs I Hf. unfold psim, assign. rewrite Hx. cbn [mbind option_bind]. eexists. split; [done |]. split; [apply abs_assign; [done | apply Hf] |].
  apply pinv_same; [done |]. intros d. destruct (decide (c = d)) as [<-|Hd].
  - rewrite lookup_insert_eq, Hx. simpl. destruct (Hf x) as (_ & -> & ->). done.
  - by rewrite lookup_insert_ne by done.
Qed.

Lemma psim_reply c b s : there c (abs s) -> pinv s -> psim (addReply c b) (s_put c b) s.
Proof. intros Hc I. by apply psim_assign. Qed.

Lemma alter_alter {A} (f g : A -> A) (c : nat) (m : gmap nat A) : alter f c (alter g c m) = alter (fun x => f (g x)) c m.
Proof.
  apply map_eq. intros d. destruct (decide (c = d)) as [<-|Hd]; [| by rewrite !lookup_alter_ne by done].
  rewrite !lookup_alter_eq. by destruct (m !! c).
Qed.

Lemma s_put_put c b b' t : s_put c b' (s_put c b t) = s_put c (b ++ b') t.
Proof.
  unfold s_put, with_aclients. simpl. f_equal. rewrite alter_alter. apply alter_ext. intros x _. unfold put. simpl. by rewrite (assoc_L (++)).
Qed.

Lemma psim_num c prefix v s : there c (abs s) -> pinv s -> in_s 64 v -> psim (addReplyLongLongWithPrefix c v prefix) (s_put c (r_num prefix v)) s.
Proof.
  intros Hc I Hv. unfold addReplyLongLongWithPrefix, psim. rewrite ll_text_print by (done || lia). cbn [mbind option_bind]. by apply psim_reply.
Qed.

Lemma in_s_zlen {A} (l : list A) : zlen l < 2 ^ 62 -> in_s 64 (zlen l).
Proof. intros H. pose proof (zlen_nonneg l). unfold in_s. lia. Qed.

Lemma psim_bulk c o s : there c (abs s) -> pinv s -> zlen o < 2 ^ 62 -> psim (addReplyBulk c o) (s_put c (r_bulk o)) s.
Proof.
  intros Hc I Ho. eapply psim_spec; [| unfold addReplyBulk; eapply psim_then; [by apply psim_num, in_s_zlen |]].
  2: { intros s1 I1 E1. eapply psim_then; [apply psim_reply; [rewrite E1; by apply there_alter | done] |]. intros s2 I2 E2.
       apply psim_reply; [rewrite E2, E1; by apply there_alter, there_alter | done]. }
  cbn beta. by rewrite !s_put_put.
Qed.

Lemma there_put c d b t : there c t -> there c (s_put d b t).
Proof. intros. by apply there_alter. Qed.

Lemma channels_put c d b t : channels c (s_put d b t) = channels c t.
Proof.
  unfold channels. simpl. destruct (decide (d = c)) as [->|Hd]; [| by rewrite lookup_alter_ne by done].
  rewrite lookup_alter_eq. by destruct (a_clients t !! c).
Qed.

Lemma count_put c d b t : a_count c (s_put d b t) = a_count c t.
Proof. unfold a_count. by rewrite channels_put. Qed.

Lemma channels_abs c x s : clients s !! c = Some x -> channels c (abs s) = c_channels x.
Proof. intros Hx. unfold channels. simpl. by rewrite lookup_fmap, Hx. Qed.

Lemma count_abs c x s : pinv s -> clients s !! c = Some x -> Z.of_nat (size (c_channels x)) + zlen (c_patterns x) = a_count c (abs s).
Proof. intros I Hx. unfold a_count. by rewrite (channels_abs c x s Hx), (pi_patterns s I c x Hx). Qed.

(** The notices. *)
Lemma psim_notice c kind what s :
  there c (abs s) -> pinv s -> a_count c (abs s) < 2 ^ 62 -> match what with Some o => zlen o < 2 ^ 62 | None => True end ->
  psim (notify_client c kind what) (s_notice c kind (match what with Some o => r_bulk o | None => shared_nullbulk end)) s.
Proof.
  intros Hc I Hn Ho. eapply psim_spec; [| unfold notify_client; eapply psim_then; [by apply psim_reply |]].
  2: { intros s1 I1 E1. assert (H1 : there c (abs s1)) by (rewrite E1; by apply there_put). eapply psim_then; [by apply psim_reply |].
       intros s2 I2 E2. assert (H2 : there c (abs s2)) by (rewrite E2; by apply there_put).
       eapply (psim_then _ (s_put c (match what with Some o => r_bulk o | None => shared_nullbulk end))).
       { destruct what as [o|]; [by apply psim_bulk | by apply psim_reply]. }
       intros s3 I3 E3. assert (H3 : there c (abs s3)) by (rewrite E3; by apply there_put). pose proof H3 as [x Hx]%there_abs. apply (psim_lookup c x _ (fun x => addReplyLongLong c (Z.of_nat (size (c_channels x)) + zlen (c_patterns x)))); [done |].
       assert (Ec : Z.of_nat (size (c_channels x)) + zlen (c_patterns x) = a_count c (abs s)).
       { rewrite (count_abs c x s3) by done. rewrite E3, !count_put, E2, count_put, E1, count_put. done. }
       rewrite Ec. apply (psim_num c 58); [done | done |]. unfold in_s. unfold a_count in *. pose proof (zlen_nonneg (patterns c (abs s))). lia. }
  cbn beta. by rewrite !s_put_put.
Qed.

(** ** Channels *)

Lemma psim_true {A} (m : pserver -> option (pserver * A)) (f : astate -> astate) s : (exists s' b, m s = Some (s', b) /\ abs s' = f (abs s) /\ pinv s') -> psim (fun s => '(s, _) ← m s; Some s) f s.
Proof. intros (s' & b & E & H). exists s'. rewrite E. by cbn [mbind option_bind]. Qed.

(** What [m] does, with its result. *)
Definition bsim (m : pserver -> option (pserver * bool)) (b : bool) (f : astate -> astate) (s : pserver) : Prop :=
  exists s', m s = Some (s', b) /\ abs s' = f (abs s) /\ pinv s'.

(** A change of one client and of the clients of one channel. *)
Lemma pinv_channel s c x channel X l :
  pinv s -> clients s !! c = Some x -> (forall ch, ch <> channel -> ch ∈ X <-> ch ∈ c_channels x) -> (channel ∈ X -> zlen channel < 2 ^ 31) ->
  NoDup l -> (forall d, d <> c -> d ∈ l <-> d ∈ subscribers s channel) -> (c ∈ l <-> channel ∈ X) ->
  pinv (with_channels (with_clients s (<[c := set_channels x X]> (clients s)))
    (match l with [] => delete channel (pubsub_channels s) | _ => <[channel := l]> (pubsub_channels s) end)).
Proof.
  intros I Hx HX Hlen Hnd Hl Hc. set (s' := with_channels _ _). destruct I as [H1 H2 H3 H4 H5 H6 [H7 H8]].
  assert (Es : forall ch, subscribers s' ch = if decide (ch = channel) then l else subscribers s ch).
  { intros ch. unfold subscribers, s'. simpl. destruct (decide (ch = channel)) as [->|Hne].
    - destruct l; [by rewrite lookup_delete_eq | by rewrite lookup_insert_eq].
    - destruct l; [by rewrite lookup_delete_ne | by rewrite lookup_insert_ne]. }
  assert (Ec : forall d y, clients s' !! d = Some y -> if decide (d = c) then y = set_channels x X else clients s !! d = Some y).
  { intros d y. unfold s'. simpl. destruct (decide (d = c)) as [->|Hd]; [rewrite lookup_insert_eq | by rewrite lookup_insert_ne by done]. by intros [= <-]. }
  assert (Eb : forall d, clients s' !! d = if decide (d = c) then Some (set_channels x X) else clients s !! d).
  { intros d. unfold s'. simpl. destruct (decide (d = c)) as [->|Hd]; [by rewrite lookup_insert_eq | by rewrite lookup_insert_ne]. }
  split.
  - intros ch d. rewrite Es, Eb. destruct (decide (ch = channel)) as [->|Hch], (decide (d = c)) as [->|Hd].
    + rewrite Hc. split; [intros H; eexists; by split | by intros (y & [= <-] & H)].
    + by rewrite Hl, H1.
    + rewrite H1. split; [intros (y & Hy & Hin) | intros (y & [= <-] & Hin)]; (eexists; split; [done |]); simpl in *; apply HX; [done | | done | done]. congruence.
    + by rewrite H1.
  - intros ch. rewrite Es. by destruct (decide (ch = channel)).
  - intros ch. unfold s'. simpl. destruct (decide (ch = channel)) as [->|Hch].
    + destruct l; [by rewrite lookup_delete_eq | by rewrite lookup_insert_eq].
    + destruct l; [by rewrite lookup_delete_ne | by rewrite lookup_insert_ne].
  - intros d y Hy. specialize (Ec d y Hy). change (patterns d (abs s')) with (patterns d (abs s)).
    destruct (decide (d = c)) as [->|Hd]; [subst y; by apply (H4 c x) | by apply H4].
  - intros p Hp. rewrite Eb. case_decide; [done |]. by apply H5.
  - done.
  - split; [| done]. intros d y ch Hy Hch. specialize (Ec d y Hy). destruct (decide (d = c)) as [->|Hd]; [subst y | by apply (H7 d y)].
    simpl in Hch. destruct (decide (ch = channel)) as [->|Hne]; [by apply Hlen |]. apply (H7 c x ch Hx). by apply HX.
Qed.

Lemma alter_channels_id c f t : (forall x, a_clients t !! c = Some x -> f (a_channels x) = a_channels x) -> with_aclients (alter (put_channels f) c) t = t.
Proof.
  intros H. destruct t as [m l n]. unfold with_aclients. simpl in *. f_equal. apply map_eq. intros d. destruct (decide (c = d)) as [<-|Hd].
  - rewrite lookup_alter_eq. destruct (m !! c) as [x|] eqn:E; [| done]. simpl. f_equal. unfold put_channels. rewrite H by done. by destruct x.
  - by rewrite lookup_alter_ne.
Qed.

Lemma add_channel_ok c channel x s :
  clients s !! c = Some x -> pinv s -> zlen channel < 2 ^ 31 -> channel ∉ c_channels x ->
  let s' := with_channels (with_clients s (<[c := set_channels x ({[channel]} ∪ c_channels x)]> (clients s))) (<[channel := subscribers s channel ++ [c]]> (pubsub_channels s)) in
  abs s' = with_aclients (alter (put_channels (fun X => {[channel]} ∪ X)) c) (abs s) /\ pinv s'.
Proof.
  intros Hx I Hlen Hn s'. split; [by apply (abs_assign c (fun x => set_channels x ({[channel]} ∪ c_channels x)) _ x) |].
  assert (Hc : c ∉ subscribers s channel). { intros H. apply (pi_channel s I) in H as (y & Hy & H). congruence. }
  pose proof (pinv_channel s c x channel ({[channel]} ∪ c_channels x) (subscribers s channel ++ [c]) I Hx) as H. unfold s'.
  destruct (subscribers s channel ++ [c]) eqn:El; [by destruct (subscribers s channel) |]. rewrite <- El in H |- *. apply H.
  - set_solver.
  - done.
  - apply NoDup_app. split; [apply (pi_once s I) |]. split; [set_solver | apply NoDup_singleton].
  - set_solver.
  - set_solver.
Qed.

Lemma count_add c channel t : a_count c (with_aclients (alter (put_channels (fun X => {[channel]} ∪ X)) c) t) <= a_count c t + 1.
Proof.
  unfold a_count, channels, patterns. simpl. rewrite lookup_alter_eq. destruct (a_clients t !! c) as [x|]; simpl; [| lia].
  rewrite size_union_alt, size_singleton. pose proof (subseteq_size (a_channels x ∖ {[channel]}) (a_channels x) ltac:(set_solver)). lia.
Qed.

Lemma subscribe_ok c channel s :
  there c (abs s) -> pinv s -> zlen channel < 2 ^ 31 -> a_count c (abs s) + 1 < 2 ^ 62 ->
  psim (fun s => '(s, _) ← pubsubSubscribeChannel c channel s; Some s) (s_subscribe c channel) s.
Proof.
  intros Hc I Hlen Hn. pose proof Hc as [x Hx]%there_abs. apply psim_true. unfold pubsubSubscribeChannel, s_subscribe. rewrite Hx. cbn [mbind option_bind].
  assert (Hfin : forall s1, abs s1 = with_aclients (alter (put_channels (fun X => {[channel]} ∪ X)) c) (abs s) -> pinv s1 ->
    exists s2, notify_client c shared_subscribebulk (Some channel) s1 = Some s2 /\
      abs s2 = s_notice c shared_subscribebulk (r_bulk channel) (with_aclients (alter (put_channels (fun X => {[channel]} ∪ X)) c) (abs s)) /\ pinv s2).
  { intros s1 E1 I1. destruct (psim_notice c shared_subscribebulk (Some channel) s1) as (s2 & E2 & Ea & I2); [rewrite E1; by apply there_alter | done | | lia |].
    - rewrite E1. pose proof (count_add c channel (abs s)). lia.
    - exists s2. split; [done |]. by rewrite Ea, E1. }
  destruct (decide (channel ∈ c_channels x)) as [Hin|Hin].
  - destruct (Hfin s) as (s2 & E2 & H); [| done |].
    { symmetry. apply alter_channels_id. simpl. intros y. rewrite lookup_fmap, Hx. intros [= <-]. simpl. set_solver. }
    exists s2, false. rewrite E2. done.
  - destruct (add_channel_ok c channel x s Hx I Hlen Hin) as [Ea Ia]. destruct (Hfin _ Ea Ia) as (s2 & E2 & H).
    exists s2, true. unfold subscribers in E2. cbn [with_clients with_channels pubsub_channels clients pubsub_patterns notify_keyspace_events] in E2 |- *. rewrite E2. done.
Qed.

Lemma plist_del_spec {A} `{EqDecision A} (l : list A) (x : A) :
  x ∈ l -> NoDup l -> exists l', list_del l x = Some l' /\ l' = List.filter (fun y => negb (bool_decide (y = x))) l.
Proof.
  intros Hx Hnd. induction Hnd as [|y l Hy Hnd IH]; [by apply elem_of_nil in Hx |]. simpl. destruct (decide (y = x)) as [->|Hne].
  - rewrite bool_decide_eq_true_2 by done. exists l. split; [done |]. simpl. symmetry. clear -Hy. induction l as [|z l IH]; [done |]. simpl.
    rewrite bool_decide_eq_false_2 by set_solver. simpl. f_equal. apply IH. set_solver.
  - rewrite bool_decide_eq_false_2 by done. apply elem_of_cons in Hx as [->|Hx]; [done |]. destruct (IH Hx) as (l' & -> & ->). eexists. by split.
Qed.

Lemma plist_del_none {A} `{EqDecision A} (l : list A) (x : A) : x ∉ l -> list_del l x = None.
Proof. induction l as [|y l IH]; intros H; [done |]. simpl. rewrite decide_False by set_solver. rewrite IH by set_solver. done. Qed.

Lemma elem_of_bfilter {A} (f : A -> bool) (l : list A) x : x ∈ List.filter f l <-> x ∈ l /\ f x = true.
Proof. rewrite !list_elem_of_In. apply filter_In. Qed.

Lemma NoDup_bfilter {A} (f : A -> bool) (l : list A) : NoDup l -> NoDup (List.filter f l).
Proof.
  intros H. induction H as [|x l Hx Hl IH]; [constructor |]. simpl. destruct (f x); [| done]. constructor; [| done]. rewrite elem_of_bfilter. tauto.
Qed.

Lemma remove_channel_ok c channel x s :
  clients s !! c = Some x -> pinv s -> channel ∈ c_channels x ->
  exists l l', pubsub_channels s !! channel = Some l /\ list_del l c = Some l' /\
    let s' := with_channels (with_clients s (<[c := set_channels x (c_channels x ∖ {[channel]})]> (clients s)))
      (match l' with [] => delete channel (pubsub_channels s) | _ => <[channel := l']> (pubsub_channels s) end) in
    abs s' = with_aclients (alter (put_channels (fun X => X ∖ {[channel]})) c) (abs s) /\ pinv s'.
Proof.
  intros Hx I Hin. assert (Hc : c ∈ subscribers s channel) by (apply (pi_channel s I); by exists x).
  assert (exists l, pubsub_channels s !! channel = Some l) as [l Hl]. { unfold subscribers in Hc. destruct (pubsub_channels s !! channel); [eauto | by apply elem_of_nil in Hc]. }
  assert (El : subscribers s channel = l) by (unfold subscribers; by rewrite Hl).
  assert (Hnd : NoDup l) by (rewrite <- El; apply (pi_once s I)). rewrite El in Hc.
  destruct (plist_del_spec l c Hc Hnd) as (l' & Ed & ->). eexists l, _. split; [done |]. split; [exact Ed |]. intros s'.
  split; [by apply (abs_assign c (fun x => set_channels x (c_channels x ∖ {[channel]})) _ x) |].
  apply pinv_channel; [done | done | set_solver | set_solver | by apply NoDup_bfilter | |].
  - intros d Hd. rewrite elem_of_bfilter, negb_true_iff, bool_decide_eq_false, El. tauto.
  - rewrite elem_of_bfilter, negb_true_iff, bool_decide_eq_false. set_solver.
Qed.

Lemma count_remove c channel t : a_count c (with_aclients (alter (put_channels (fun X => X ∖ {[channel]})) c) t) <= a_count c t.
Proof.
  unfold a_count, channels, patterns. simpl. rewrite lookup_alter_eq. destruct (a_clients t !! c) as [x|]; simpl; [| lia].
  pose proof (subseteq_size (a_channels x ∖ {[channel]}) (a_channels x) ltac:(set_solver)). lia.
Qed.

Lemma unsubscribe_ok c channel notify x s :
  clients s !! c = Some x -> pinv s -> zlen channel < 2 ^ 31 -> a_count c (abs s) < 2 ^ 62 ->
  bsim (pubsubUnsubscribeChannel c channel notify) (bool_decide (channel ∈ c_channels x)) (s_unsubscribe c notify channel) s.
Proof.
  intros Hx I Hlen Hn. pose proof (count_remove c channel (abs s)) as Hr. unfold bsim, pubsubUnsubscribeChannel, s_unsubscribe. rewrite Hx. cbn [mbind option_bind].
  assert (Hfin : forall s1, abs s1 = with_aclients (alter (put_channels (fun X => X ∖ {[channel]})) c) (abs s) -> pinv s1 ->
    exists s2, (if notify then notify_client c shared_unsubscribebulk (Some channel) s1 else Some s1) = Some s2 /\
      abs s2 = s_unsubscribe c notify channel (abs s) /\ pinv s2).
  { intros s1 E1 I1. unfold s_unsubscribe. destruct notify; [| exists s1; by rewrite E1].
    destruct (psim_notice c shared_unsubscribebulk (Some channel) s1) as (s2 & E2 & Ea & I2); [rewrite E1; apply there_alter, there_abs; eauto | done | rewrite E1; lia | lia |].
    exists s2. split; [done |]. by rewrite Ea, E1. }
  destruct (decide (channel ∈ c_channels x)) as [Hin|Hin].
  - destruct (remove_channel_ok c channel x s Hx I Hin) as (l & l' & El & Ed & Ea & Ia). destruct (Hfin _ Ea Ia) as (s2 & E2 & H).
    exists s2. rewrite bool_decide_eq_true_2 by done. simpl. rewrite El. cbn [mbind option_bind]. rewrite Ed. cbn [mbind option_bind]. simpl in E2. rewrite E2. done.
  - destruct (Hfin s) as (s2 & E2 & H); [| done |].
    { symmetry. apply alter_channels_id. simpl. intros y. rewrite lookup_fmap, Hx. intros [= <-]. simpl. set_solver. }
    exists s2. rewrite bool_decide_eq_false_2 by done. cbn [mbind option_bind]. rewrite E2. done.
Qed.

(** A loop of unsubscriptions: the number of those that succeed is zero if there was none. *)
Definition s_unsubscribe_all (c : nat) (notify : bool) (l : list (list Z)) (t : astate) : astate :=
  foldl (fun t channel => s_unsubscribe c notify channel t) t l.

Lemma channels_unsubscribe c notify channel t : channels c (s_unsubscribe c notify channel t) = channels c t ∖ {[channel]}.
Proof.
  unfold s_unsubscribe. assert (E : channels c (with_aclients (alter (put_channels (fun X => X ∖ {[channel]})) c) t) = channels c t ∖ {[channel]}).
  { unfold channels. simpl. rewrite lookup_alter_eq. destruct (a_clients t !! c); [done | set_solver]. }
  destruct notify; [| done]. unfold s_notice. by rewrite channels_put.
Qed.

Lemma there_unsubscribe c d notify channel t : there c t -> there c (s_unsubscribe d notify channel t).
Proof. intros H. unfold s_unsubscribe. destruct notify; [apply there_put |]; by apply there_alter. Qed.

Lemma count_unsubscribe c notify channel t : a_count c (s_unsubscribe c notify channel t) <= a_count c t.
Proof. unfold s_unsubscribe. destruct notify; [unfold s_notice; rewrite count_put |]; apply count_remove. Qed.

Lemma unsubscribe_loop_ok c notify l : forall k s,
  there c (abs s) -> pinv s -> Forall (fun ch => zlen ch < 2 ^ 31) l -> a_count c (abs s) < 2 ^ 62 ->
  exists s' n, unsubscribe_loop c l notify k s = Some (s', k + n) /\ abs s' = s_unsubscribe_all c notify l (abs s) /\ pinv s' /\
    0 <= n /\ (n = 0 <-> forall ch, ch ∈ l -> ch ∉ channels c (abs s)).
Proof.
  induction l as [|ch l IH]; intros k s Hc I Hl Hn.
  { exists s, 0. rewrite Z.add_0_r. split; [done |]. split; [done |]. split; [done |]. split; [done |]. split; [by intros _ ch H%elem_of_nil | done]. }
  apply Forall_cons in Hl as [Hch Hl]. pose proof Hc as [x Hx]%there_abs. destruct (unsubscribe_ok c ch notify x s Hx I Hch Hn) as (s1 & E1 & Ea & I1).
  pose proof (count_unsubscribe c notify ch (abs s)) as Hle.
  destruct (IH (k + Z.b2z (bool_decide (ch ∈ c_channels x))) s1) as (s' & n & E & Ea' & I' & Hn0 & Hz); [rewrite Ea; by apply there_unsubscribe | done | done | rewrite Ea; lia |].
  exists s', (Z.b2z (bool_decide (ch ∈ c_channels x)) + n). cbn [unsubscribe_loop]. rewrite E1. cbn [mbind option_bind]. rewrite E.
  split; [f_equal; f_equal; lia |]. split; [by rewrite Ea', Ea |]. split; [done |]. rewrite Ea, channels_unsubscribe, (channels_abs c x s Hx) in Hz. rewrite (channels_abs c x s Hx).
  case_bool_decide as Hin; simpl; split; try lia.
  - split; [lia |]. intros H. exfalso. apply (H ch); [set_solver | done].
  - split.
    + intros H. assert (n = 0) as Hn' by lia. rewrite Hz in Hn'. intros ch' [->|H']%elem_of_cons; [done |]. specialize (Hn' ch' H'). destruct (decide (ch' = ch)) as [->|]; [done | set_solver].
    + intros H. rewrite (proj2 Hz); [done |]. intros ch' H'. specialize (H ch'). set_solver.
Qed.

(** ** Patterns *)

Lemma patterns_filter c c' p l :
  map snd (List.filter (fun q => Nat.eqb (fst q) c) (List.filter (fun q => negb (bool_decide (q = (c', p)))) l)) =
  if decide (c = c') then List.filter (fun q => negb (bool_decide (q = p))) (map snd (List.filter (fun q : nat * list Z => Nat.eqb (fst q) c) l))
  else map snd (List.filter (fun q => Nat.eqb (fst q) c) l).
Proof.
  induction l as [|[d q] l IH]; [by destruct (decide (c = c')) |]. simpl. destruct (Nat.eqb_spec d c) as [->|Hd].
  - destruct (decide (c = c')) as [<-|Hc]; simpl.
    + destruct (decide (q = p)) as [->|Hq].
      * rewrite (bool_decide_eq_true_2 ((c, p) = (c, p))) by done. rewrite (bool_decide_eq_true_2 (p = p)) by done. simpl. exact IH.
      * rewrite (bool_decide_eq_false_2 ((c, q) = (c, p))) by congruence. rewrite (bool_decide_eq_false_2 (q = p)) by done. simpl. rewrite Nat.eqb_refl. simpl. by rewrite IH.
    + rewrite (bool_decide_eq_false_2 ((c, q) = (c', p))) by congruence. simpl. rewrite Nat.eqb_refl. simpl. by rewrite IH.
  - case_bool_decide; simpl; [exact IH |]. rewrite (proj2 (Nat.eqb_neq d c)) by done. exact IH.
Qed.

Lemma patterns_elem c p t : p ∈ patterns c t <-> (c, p) ∈ a_pats t.
Proof.
  unfold patterns. change (map snd) with (fmap (M := list) (@snd nat (list Z))). rewrite list_elem_of_fmap. split.
  - intros ([d q] & -> & H). apply elem_of_bfilter in H as [H Hd]. simpl in Hd. apply Nat.eqb_eq in Hd as ->. done.
  - intros H. exists (c, p). split; [done |]. apply elem_of_bfilter. simpl. by rewrite Nat.eqb_refl.
Qed.

Lemma patterns_nodup c t : NoDup (a_pats t) -> NoDup (patterns c t).
Proof.
  unfold patterns. generalize (a_pats t). intros l H. induction H as [|[d q] l Hq Hl IH]; [constructor |]. simpl. destruct (Nat.eqb_spec d c) as [->|]; [| done].
  simpl. constructor; [| done]. intros Hin. apply Hq. by apply (patterns_elem c q (AState ∅ l 0)).
Qed.

(** A change of the patterns of one client. *)
Lemma pinv_pattern s c x L l :
  pinv s -> clients s !! c = Some x -> NoDup l -> (forall p, p ∈ l -> p ∈ pubsub_patterns s \/ fst p = c) ->
  (forall p, p ∈ l -> zlen (snd p) < 2 ^ 31) -> L = patterns c (AState ∅ l 0) -> (forall d, d <> c -> patterns d (AState ∅ l 0) = patterns d (abs s)) ->
  pinv (with_patterns (with_clients s (<[c := set_patterns x L]> (clients s))) l).
Proof.
  intros [H1 H2 H3 H4 H5 H6 [H7 H8]] Hx Hnd Hl Hlen HL Hd. set (s' := with_patterns _ _).
  assert (Eb : forall d, clients s' !! d = if decide (d = c) then Some (set_patterns x L) else clients s !! d).
  { intros d. unfold s'. simpl. destruct (decide (d = c)) as [->|]; [by rewrite lookup_insert_eq | by rewrite lookup_insert_ne]. }
  split; try done.
  - intros ch d. change (subscribers s' ch) with (subscribers s ch). rewrite H1, Eb. destruct (decide (d = c)) as [->|]; [| done].
    rewrite Hx. split; intros (y & [= <-] & H); by eexists.
  - intros d y. rewrite Eb. destruct (decide (d = c)) as [->|Hne]; [intros [= <-]; exact HL |]. intros Hy. rewrite (H4 d y Hy). symmetry. by apply Hd.
  - intros p Hp. rewrite Eb. case_decide as Hpc; [done |]. destruct (Hl p Hp) as [Hin|]; [by apply H5 | done].
  - split; [| done]. intros d y ch. rewrite Eb. destruct (decide (d = c)) as [->|]; [intros [= <-]; by apply (H7 c x) | by apply H7].
Qed.

Lemma apats_id f t : f (a_pats t) = a_pats t -> with_apats f t = t.
Proof. intros H. unfold with_apats. rewrite H. by destruct t. Qed.

Lemma abs_patterns c x L l s :
  clients s !! c = Some x -> abs (with_patterns (with_clients s (<[c := set_patterns x L]> (clients s))) l) = with_apats (fun _ => l) (abs s).
Proof.
  intros Hx. unfold abs, with_apats. simpl. f_equal. apply map_eq. intros d. rewrite !lookup_fmap. destruct (decide (c = d)) as [<-|Hd].
  - by rewrite lookup_insert_eq, Hx.
  - by rewrite lookup_insert_ne.
Qed.

Lemma patterns_app c l p : patterns c (AState ∅ (l ++ [p]) 0) = patterns c (AState ∅ l 0) ++ (if Nat.eqb (fst p) c then [snd p] else []).
Proof. unfold patterns. simpl. rewrite List.filter_app, map_app. simpl. by destruct (Nat.eqb (fst p) c). Qed.

Lemma psubscribe_ok c pattern s :
  there c (abs s) -> pinv s -> zlen pattern < 2 ^ 31 -> a_count c (abs s) + 1 < 2 ^ 62 ->
  psim (fun s => '(s, _) ← pubsubSubscribePattern c pattern s; Some s) (s_psubscribe c pattern) s.
Proof.
  intros Hc I Hlen Hn. pose proof Hc as [x Hx]%there_abs. apply psim_true. unfold pubsubSubscribePattern, s_psubscribe. rewrite Hx. cbn [mbind option_bind].
  set (f := fun l => if decide ((c, pattern) ∈ l) then l else l ++ [(c, pattern)]).
  assert (Hfin : forall s1, abs s1 = with_apats f (abs s) -> pinv s1 ->
    exists s2, notify_client c shared_psubscribebulk (Some pattern) s1 = Some s2 /\
      abs s2 = s_notice c shared_psubscribebulk (r_bulk pattern) (with_apats f (abs s)) /\ pinv s2).
  { intros s1 E1 I1. destruct (psim_notice c shared_psubscribebulk (Some pattern) s1) as (s2 & E2 & Ea & I2); [by rewrite E1 | done | | lia |].
    - rewrite E1. unfold a_count. change (channels c (with_apats f (abs s))) with (channels c (abs s)). unfold a_count in Hn.
      assert (zlen (patterns c (with_apats f (abs s))) <= zlen (patterns c (abs s)) + 1); [| lia].
      change (patterns c (with_apats f (abs s))) with (patterns c (AState ∅ (f (pubsub_patterns s)) 0)). change (patterns c (abs s)) with (patterns c (AState ∅ (pubsub_patterns s) 0)).
      unfold f. destruct (decide _); [lia |]. rewrite patterns_app. simpl. rewrite Nat.eqb_refl, zlen_app. change (zlen [pattern]) with 1. lia.
    - exists s2. split; [done |]. by rewrite Ea, E1. }
  rewrite (pi_patterns s I c x Hx). destruct (decide (pattern ∈ patterns c (abs s))) as [Hin|Hin]; rewrite patterns_elem in Hin; simpl in Hin.
  - destruct (Hfin s) as (s2 & E2 & H); [| done |].
    { symmetry. apply apats_id. unfold f. simpl. by rewrite decide_True. }
    exists s2, false. rewrite E2. done.
  - assert (Ef : f (pubsub_patterns s) = pubsub_patterns s ++ [(c, pattern)]) by (unfold f; by rewrite decide_False).
    set (s1 := with_patterns (with_clients s (<[c := set_patterns x (patterns c (abs s) ++ [pattern])]> (clients s))) (pubsub_patterns s ++ [(c, pattern)])).
    destruct (Hfin s1) as (s2 & E2 & H).
    { unfold s1. rewrite abs_patterns by done. unfold with_apats. simpl. by rewrite Ef. }
    { unfold s1. apply pinv_pattern; [done | done | | | | |].
      - apply NoDup_app. split; [apply (pi_pats s I) |]. split; [set_solver | apply NoDup_singleton].
      - intros p [Hp|Hp%list_elem_of_singleton]%elem_of_app; [by left | subst p; by right].
      - intros p [Hp|Hp%list_elem_of_singleton]%elem_of_app; [by apply (proj2 (pi_len s I)) | by subst p].
      - rewrite patterns_app. simpl. by rewrite Nat.eqb_refl.
      - intros d Hd. rewrite patterns_app. simpl. rewrite (proj2 (Nat.eqb_neq c d)) by done. by rewrite app_nil_r. }
    exists s2, true. unfold s1 in E2. cbn [with_clients with_channels with_patterns pubsub_channels clients pubsub_patterns notify_keyspace_events] in E2 |- *. rewrite E2. done.
Qed.

Lemma punsubscribe_ok c pattern notify s :
  there c (abs s) -> pinv s -> zlen pattern < 2 ^ 31 -> a_count c (abs s) < 2 ^ 62 ->
  bsim (pubsubUnsubscribePattern c pattern notify) (bool_decide (pattern ∈ patterns c (abs s))) (s_punsubscribe c notify pattern) s.
Proof.
  intros Hc I Hlen Hn. pose proof Hc as [x Hx]%there_abs. unfold bsim, pubsubUnsubscribePattern. rewrite Hx. cbn [mbind option_bind].
  set (f := List.filter (fun p => negb (bool_decide (p = (c, pattern))))).
  assert (Ep : forall d, patterns d (AState ∅ (f (pubsub_patterns s)) 0) =
    if decide (d = c) then List.filter (fun q => negb (bool_decide (q = pattern))) (patterns d (abs s)) else patterns d (abs s)) by (intros d; apply patterns_filter).
  assert (Hfin : forall s1, abs s1 = with_apats f (abs s) -> pinv s1 ->
    exists s2, (if notify then notify_client c shared_punsubscribebulk (Some pattern) s1 else Some s1) = Some s2 /\
      abs s2 = s_punsubscribe c notify pattern (abs s) /\ pinv s2).
  { intros s1 E1 I1. unfold s_punsubscribe. fold f. destruct notify; [| exists s1; by rewrite E1].
    destruct (psim_notice c shared_punsubscribebulk (Some pattern) s1) as (s2 & E2 & Ea & I2); [by rewrite E1 | done | | lia |].
    - rewrite E1. unfold a_count in *. change (channels c (with_apats f (abs s))) with (channels c (abs s)).
      change (patterns c (with_apats f (abs s))) with (patterns c (AState ∅ (f (pubsub_patterns s)) 0)). rewrite Ep, decide_True by done.
      pose proof (List.filter_length_le (fun q => negb (bool_decide (q = pattern))) (patterns c (abs s))). unfold zlen in *. lia.
    - exists s2. split; [done |]. by rewrite Ea, E1. }
  rewrite (pi_patterns s I c x Hx). destruct (decide (pattern ∈ patterns c (abs s))) as [Hin|Hin].
  - destruct (plist_del_spec (patterns c (abs s)) pattern Hin) as (l & -> & ->); [apply patterns_nodup, (pi_pats s I) |].
    rewrite bool_decide_eq_true_2 by done. rewrite patterns_elem in Hin. simpl in Hin.
    destruct (plist_del_spec (pubsub_patterns s) (c, pattern) Hin) as (l & E & ->); [apply (pi_pats s I) |]. fold f in E.
    cbn [with_clients pubsub_patterns]. rewrite E. cbn [mbind option_bind].
    set (s1 := with_patterns _ _). destruct (Hfin s1) as (s2 & E2 & H).
    { unfold s1. by rewrite (abs_patterns c x) by done. }
    { unfold s1. change (PServer ?m (pubsub_channels s) (pubsub_patterns s) (notify_keyspace_events s)) with (with_clients s m). apply pinv_pattern; [done | done | | | | |].
      - apply NoDup_bfilter, (pi_pats s I).
      - intros p Hp. apply elem_of_bfilter in Hp as [Hp _]. by left.
      - intros p Hp. apply elem_of_bfilter in Hp as [Hp _]. by apply (proj2 (pi_len s I)).
      - by rewrite Ep, decide_True.
      - intros d Hd. by rewrite Ep, decide_False. }
    exists s2. rewrite E2. done.
  - rewrite (plist_del_none _ _ Hin), (bool_decide_eq_false_2 _ Hin). cbn [mbind option_bind]. destruct (Hfin s) as (s2 & E2 & H); [| done |].
    { symmetry. apply apats_id. simpl. rewrite patterns_elem in Hin. simpl in Hin. unfold f. revert Hin. generalize (pubsub_patterns s). intros l Hin.
      induction l as [|p l IH]; [done |]. simpl. rewrite bool_decide_eq_false_2 by set_solver. simpl. f_equal. apply IH. set_solver. }
    exists s2. rewrite E2. done.
Qed.

Definition s_punsubscribe_all (c : nat) (notify : bool) (l : list (list Z)) (t : astate) : astate :=
  foldl (fun t pattern => s_punsubscribe c notify pattern t) t l.

Lemma patterns_unsubscribe c notify pattern t : patterns c (s_punsubscribe c notify pattern t) = List.filter (fun q => negb (bool_decide (q = pattern))) (patterns c t).
Proof.
  unfold s_punsubscribe. set (t' := with_apats _ t). assert (E : patterns c t' = List.filter (fun q => negb (bool_decide (q = pattern))) (patterns c t)).
  { pose proof (patterns_filter c c pattern (a_pats t)) as H. rewrite decide_True in H by done. exact H. }
  by destruct notify.
Qed.

Lemma count_punsubscribe c notify pattern t : a_count c (s_punsubscribe c notify pattern t) <= a_count c t.
Proof.
  unfold a_count. rewrite patterns_unsubscribe. pose proof (List.filter_length_le (fun q => negb (bool_decide (q = pattern))) (patterns c t)).
  assert (E : channels c (s_punsubscribe c notify pattern t) = channels c t); [| rewrite E; unfold zlen; lia].
  unfold s_punsubscribe. destruct notify; [| done]. unfold s_notice. by rewrite channels_put.
Qed.

Lemma there_punsubscribe c d notify pattern t : there c t -> there c (s_punsubscribe d notify pattern t).
Proof. intros H. unfold s_punsubscribe. destruct notify; [apply there_put |]; done. Qed.

Lemma punsubscribe_loop_ok c notify l : forall k s,
  there c (abs s) -> pinv s -> Forall (fun p => zlen p < 2 ^ 31) l -> a_count c (abs s) < 2 ^ 62 ->
  exists s' n, punsubscribe_loop c l notify k s = Some (s', k + n) /\ abs s' = s_punsubscribe_all c notify l (abs s) /\ pinv s' /\
    0 <= n /\ (n = 0 <-> forall p, p ∈ l -> p ∉ patterns c (abs s)).
Proof.
  induction l as [|p l IH]; intros k s Hc I Hl Hn.
  { exists s, 0. rewrite Z.add_0_r. split; [done |]. split; [done |]. split; [done |]. split; [done |]. split; [by intros _ ch H%elem_of_nil | done]. }
  apply Forall_cons in Hl as [Hp Hl]. destruct (punsubscribe_ok c p notify s Hc I Hp Hn) as (s1 & E1 & Ea & I1).
  pose proof (count_punsubscribe c notify p (abs s)) as Hle.
  destruct (IH (k + Z.b2z (bool_decide (p ∈ patterns c (abs s)))) s1) as (s' & n & E & Ea' & I' & Hn0 & Hz); [rewrite Ea; by apply there_punsubscribe | done | done | rewrite Ea; lia |].
  exists s', (Z.b2z (bool_decide (p ∈ patterns c (abs s))) + n). cbn [punsubscribe_loop]. rewrite E1. cbn [mbind option_bind]. rewrite E.
  split; [f_equal; f_equal; lia |]. split; [by rewrite Ea', Ea |]. split; [done |]. rewrite Ea, patterns_unsubscribe in Hz.
  case_bool_decide as Hin; simpl; split; try lia.
  - split; [lia |]. intros H. exfalso. apply (H p); [set_solver | done].
  - split.
    + intros H. assert (n = 0) as Hn' by lia. rewrite Hz in Hn'. intros q [->|H']%elem_of_cons; [done |]. specialize (Hn' q H'). rewrite elem_of_bfilter, negb_true_iff, bool_decide_eq_false in Hn'.
      intros Hq. apply Hn'. split; [done |]. by intros ->.
    + intros H. rewrite (proj2 Hz); [done |]. intros q H'. rewrite elem_of_bfilter. specialize (H q). set_solver.
Qed.

(** ** Publishing *)

(** A sequence of outputs. *)
Definition s_each (l : list (nat * list Z)) (t : astate) : astate := foldl (fun t p => s_put (fst p) (snd p) t) t l.

Lemma s_each_run l : forall t, s_each l t = with_aclients (map_imap (fun c x => Some (put (concat (map snd (List.filter (fun p => Nat.eqb (fst p) c) l))) x))) t.
Proof.
  induction l as [|[d b] l IH]; intros t.
  - unfold s_each, with_aclients. simpl. destruct t as [m ps n]. simpl. f_equal. apply map_eq. intros c. rewrite map_lookup_imap.
    destruct (m !! c) as [x|]; [| done]. simpl. f_equal. unfold put. rewrite app_nil_r. by destruct x.
  - unfold s_each in *. cbn [foldl fst snd]. rewrite IH. unfold with_aclients, s_put. simpl. f_equal. apply map_eq. intros c. rewrite !map_lookup_imap. simpl.
    destruct (Nat.eqb_spec d c) as [->|Hd].
    + rewrite lookup_alter_eq. destruct (a_clients t !! c) as [x|]; [| done]. simpl. f_equal. unfold put. simpl. by rewrite (assoc_L (++)).
    + by rewrite lookup_alter_ne by done.
Qed.

Lemma there_each c l t : there c t -> there c (s_each l t).
Proof. rewrite s_each_run. unfold there, with_aclients. simpl. rewrite map_lookup_imap. intros [x ->]. by eexists. Qed.

Lemma send_one c channel message s : there c (abs s) -> pinv s -> zlen channel < 2 ^ 62 -> zlen message < 2 ^ 62 ->
  psim (fun s => s ← addReply c shared_mbulkhdr3 s; s ← addReply c shared_messagebulk s; s ← addReplyBulk c channel s; addReplyBulk c message s)
    (s_put c (message_text channel message)) s.
Proof.
  intros Hc I H1 H2. eapply psim_spec; [| eapply psim_then; [by apply psim_reply |]].
  2: { intros s1 I1 E1. assert (Hc1 : there c (abs s1)) by (rewrite E1; by apply there_put). eapply psim_then; [by apply psim_reply |].
       intros s2 I2 E2. assert (Hc2 : there c (abs s2)) by (rewrite E2; by apply there_put). eapply psim_then; [by apply psim_bulk |].
       intros s3 I3 E3. assert (Hc3 : there c (abs s3)) by (rewrite E3; by apply there_put). by apply psim_bulk. }
  cbn beta. by rewrite !s_put_put.
Qed.

Lemma psend_one c pat channel message s : there c (abs s) -> pinv s -> zlen pat < 2 ^ 62 -> zlen channel < 2 ^ 62 -> zlen message < 2 ^ 62 ->
  psim (fun s => s ← addReply c shared_mbulkhdr4 s; s ← addReply c shared_pmessagebulk s; s ← addReplyBulk c pat s; s ← addReplyBulk c channel s; addReplyBulk c message s)
    (s_put c (pmessage_text pat channel message)) s.
Proof.
  intros Hc I H0 H1 H2. eapply psim_spec; [| eapply psim_then; [by apply psim_reply |]].
  2: { intros s1 I1 E1. assert (Hc1 : there c (abs s1)) by (rewrite E1; by apply there_put). eapply psim_then; [by apply psim_reply |].
       intros s2 I2 E2. assert (Hc2 : there c (abs s2)) by (rewrite E2; by apply there_put). eapply psim_then; [by apply psim_bulk |].
       intros s3 I3 E3. assert (Hc3 : there c (abs s3)) by (rewrite E3; by apply there_put). eapply psim_then; [by apply psim_bulk |].
       intros s4 I4 E4. assert (Hc4 : there c (abs s4)) by (rewrite E4; by apply there_put). by apply psim_bulk. }
  cbn beta. by rewrite !s_put_put.
Qed.

Lemma send_channel_ok channel message l : forall s,
  (forall c, c ∈ l -> there c (abs s)) -> pinv s -> zlen channel < 2 ^ 62 -> zlen message < 2 ^ 62 ->
  psim (send_channel l channel message) (s_each (map (fun c => (c, message_text channel message)) l)) s.
Proof.
  induction l as [|c l IH]; intros s Hl I H1 H2; [by exists s |].
  destruct (send_one c channel message s) as (s1 & E1 & Ea & I1); [apply Hl; set_solver | done ..|].
  destruct (IH s1) as (s2 & E2 & Ea2 & I2); [| done | done | done |]. { intros d Hd. rewrite Ea. apply there_put, Hl. set_solver. }
  exists s2. split; [| by rewrite Ea2, Ea].
  cbn [send_channel]. revert E1. destruct (addReply c shared_mbulkhdr3 s) as [x|]; [| done]. cbn [mbind option_bind]. destruct (addReply c shared_messagebulk x) as [y|]; [| done].
  cbn [mbind option_bind]. destruct (addReplyBulk c channel y) as [z|]; [| done]. cbn [mbind option_bind]. intros ->. exact E2.
Qed.

(** The matcher stays within its buffers on every pattern. *)
Definition match_ok (channel : list Z) (t : astate) : Prop := Forall (fun p : nat * list Z => is_Some (Glob.match_sds (snd p) channel false)) (a_pats t).

Lemma matchb_run pat channel : is_Some (Glob.match_sds pat channel false) -> Glob.match_sds pat channel false = Some (matchb pat channel).
Proof. intros [b E]. unfold matchb. by rewrite E. Qed.

Lemma send_patterns_ok channel message l : forall k s,
  (forall p, p ∈ l -> there (fst p) (abs s) /\ zlen (snd p) < 2 ^ 31 /\ is_Some (Glob.match_sds (snd p) channel false)) -> pinv s -> zlen channel < 2 ^ 62 -> zlen message < 2 ^ 62 ->
  exists s', send_patterns l channel message k s = Some (s', k + zlen (List.filter (fun p => matchb (snd p) channel) l)) /\
    abs s' = s_each (map (fun p => (fst p, pmessage_text (snd p) channel message)) (List.filter (fun p => matchb (snd p) channel) l)) (abs s) /\ pinv s'.
Proof.
  induction l as [|[c pat] l IH]; intros k s Hl I H1 H2.
  { exists s. cbn [send_patterns List.filter]. change (zlen []) with 0. rewrite Z.add_0_r. done. }
  destruct (Hl (c, pat)) as (Hc & Hp & Hm); [set_solver |]. simpl in Hc, Hp, Hm. cbn [send_patterns]. rewrite (matchb_run _ _ Hm). cbn [mbind option_bind List.filter snd].
  destruct (matchb pat channel).
  - destruct (psend_one c pat channel message s) as (s1 & E1 & Ea & I1); [done | done | lia | done | done |].
    destruct (IH (k + 1) s1) as (s2 & E2 & Ea2 & I2); [| done | done | done |]. { intros p Hin. rewrite Ea. destruct (Hl p) as (? & ? & ?); [set_solver |]. split; [by apply there_put | done]. }
    exists s2. rewrite zlen_cons. split; [| split; [| done]].
    + revert E1. destruct (addReply c shared_mbulkhdr4 s) as [x|]; [| done]. cbn [mbind option_bind]. destruct (addReply c shared_pmessagebulk x) as [y|]; [| done].
      cbn [mbind option_bind]. destruct (addReplyBulk c pat y) as [z|]; [| done]. cbn [mbind option_bind]. destruct (addReplyBulk c channel z) as [w|]; [| done].
      cbn [mbind option_bind]. intros ->. cbn [mbind option_bind]. rewrite E2. f_equal. f_equal. lia.
    + rewrite Ea2, Ea. done.
  - apply IH; [| done | done | done]. intros p Hin. apply Hl. set_solver.
Qed.

Lemma filter_map_const (b : list Z) c l : NoDup l ->
  concat (map snd (List.filter (fun p => Nat.eqb (fst p) c) (map (fun d : nat => (d, b)) l))) = if decide (c ∈ l) then b else [].
Proof.
  intros H. induction H as [|d l Hd Hl IH]; [by rewrite decide_False by set_solver |]. simpl. destruct (Nat.eqb_spec d c) as [->|Hne].
  - simpl. rewrite IH, (decide_False (P := c ∈ l)) by done. rewrite decide_True by set_solver. by rewrite app_nil_r.
  - rewrite IH. destruct (decide (c ∈ l)); [by rewrite decide_True by set_solver | by rewrite decide_False by set_solver].
Qed.

Lemma filter_patterns channel message c l :
  map snd (List.filter (fun p => Nat.eqb (fst p) c) (map (fun p : nat * list Z => (fst p, pmessage_text (snd p) channel message)) (List.filter (fun p => matchb (snd p) channel) l))) =
  map (fun p => pmessage_text p channel message) (List.filter (fun p => matchb p channel) (patterns c (AState ∅ l 0))).
Proof.
  unfold patterns. simpl. induction l as [|[d p] l IH]; [done |]. simpl. destruct (matchb p channel) eqn:Em; simpl; (destruct (Nat.eqb d c) eqn:Ed; simpl; rewrite ?Em; simpl; by rewrite ?IH).
Qed.

Lemma subscribers_count s channel : pinv s -> zlen (subscribers s channel) = s_subscribers channel (abs s).
Proof.
  intros I. unfold s_subscribers, zlen. f_equal. rewrite <- (size_list_to_set (C := gset nat)) by apply (pi_once s I). f_equal. apply set_eq. intros c.
  rewrite elem_of_list_to_set, (pi_channel s I), elem_of_dom. unfold is_Some. simpl. split.
  - intros (x & Hx & Hin). exists (absc x). apply map_lookup_filter_Some. split; [by rewrite lookup_fmap, Hx | done].
  - intros (y & [Hy Hin]%map_lookup_filter_Some). rewrite lookup_fmap in Hy. destruct (clients s !! c) as [x|]; [| done]. injection Hy as <-. by exists x.
Qed.

Lemma publish_ok channel message s :
  pinv s -> zlen channel < 2 ^ 62 -> zlen message < 2 ^ 62 -> match_ok channel (abs s) ->
  exists s', pubsubPublishMessage channel message s = Some (s', s_receivers channel (abs s)) /\ abs s' = s_publish channel message (abs s) /\ pinv s'.
Proof.
  intros I H1 H2 Hm. unfold pubsubPublishMessage, s_receivers.
  assert (H : exists s1, (match pubsub_channels s !! channel with Some l => s ← send_channel l channel message s; Some (s, zlen l) | None => Some (s, 0) end) = Some (s1, s_subscribers channel (abs s)) /\
    abs s1 = s_each (map (fun c => (c, message_text channel message)) (subscribers s channel)) (abs s) /\ pinv s1).
  { rewrite <- subscribers_count by done. unfold subscribers. destruct (pubsub_channels s !! channel) as [l|] eqn:El; [| by exists s]. simpl.
    destruct (send_channel_ok channel message l s) as (s1 & E1 & Ea & I1); [| done | done | done |].
    - intros c Hc. apply there_abs. assert (Hc' : c ∈ subscribers s channel) by (unfold subscribers; by rewrite El). apply (pi_channel s I) in Hc' as (x & -> & _). eauto.
    - exists s1. rewrite E1. done. }
  destruct H as (s1 & -> & Ea & I1). cbn [mbind option_bind].
  assert (Ep : pubsub_patterns s1 = pubsub_patterns s) by (apply (f_equal a_pats) in Ea; rewrite s_each_run in Ea; exact Ea).
  destruct (send_patterns_ok channel message (pubsub_patterns s1) (s_subscribers channel (abs s)) s1) as (s2 & E2 & Ea2 & I2); [| done | done | done |].
  { intros p Hp. split; [apply there_abs, (pi_client s1 I1 p Hp) |]. split; [by apply (proj2 (pi_len s1 I1)) |]. rewrite Ep in Hp. apply (proj1 (List.Forall_forall _ _) Hm p). by apply list_elem_of_In. }
  exists s2. rewrite E2. rewrite Ep. split; [done |]. split; [| done]. rewrite Ea2, Ea, Ep, !s_each_run. unfold s_publish, with_aclients. simpl. f_equal.
  apply map_eq. intros c. rewrite !map_lookup_imap, lookup_fmap. destruct (clients s !! c) as [x|] eqn:Hx; [| done]. simpl. f_equal. unfold put. simpl. f_equal.
  rewrite <- (assoc_L (++)). f_equal. unfold delivery. f_equal.
  - rewrite (filter_map_const _ c) by apply (pi_once s I). rewrite (channels_abs c x s Hx). apply decide_ext. rewrite (pi_channel s I). split; [intros (y & Hy & H); congruence | intros H; by exists x].
  - by rewrite filter_patterns.
Qed.
