(* ===== verification/PubsubCmds.v ===== *)
(** * Publish and subscribe: the commands

    The specification of the commands, the notices and the ends of clients, and that the code
    does what it says: by the steps of PubsubFacts.  [request_ok] says which requests the
    theorems are about. *)

From Stdlib Require Import Ascii String.
From S2P Require Import Prelude Util Sds Server ServerFacts ObjFacts Bitops BitopsThms Pubsub PubsubFacts.

(** ** Commands *)

Section Commands.
Context (iterate : gset (list Z) -> list (list Z)).

Definition s_unsubscribe_every (c : nat) (notify : bool) (t : astate) : astate :=
  let t' := s_unsubscribe_all c notify (iterate (channels c t)) t in
  if notify && bool_decide (channels c t = ∅) then s_notice c shared_unsubscribebulk shared_nullbulk t' else t'.
Definition s_punsubscribe_every (c : nat) (notify : bool) (t : astate) : astate :=
  let t' := s_punsubscribe_all c notify (patterns c t) t in
  if notify && bool_decide (patterns c t = []) then s_notice c shared_punsubscribebulk shared_nullbulk t' else t'.

Definition s_publishCommand (c : nat) (channel message : list Z) (t : astate) : astate :=
  s_put c (r_int (s_receivers channel t))
    (with_aclients (alter (fun x => AClient (a_channels x) (Z.lor (a_flags x) REDIS_FORCE_REPL) (a_reply x)) c) (s_publish channel message t)).

(** The channels that have subscribers. *)
Definition s_live (t : astate) : gset (list Z) := ⋃ (map (fun p => a_channels (snd p)) (map_to_list (a_clients t))).

Definition r_numsub (t : astate) (channel : list Z) : list Z := r_bulk channel ++ r_bulk (print (s_subscribers channel t)).

Definition s_pubsubCommand (c : nat) (argv : list (list Z)) (t : astate) : astate :=
  let sub := map tolower (cstring (nth 1 argv [])) in
  let argc := zlen argv in
  if bool_decide (sub = str "channels") && ((argc =? 2) || (argc =? 3)) then
    let l := List.filter (fun channel => match argv !! 2%nat with None => true | Some pat => matchb pat channel end) (iterate (s_live t)) in
    s_put c (r_num ch_star (zlen l) ++ concat (map r_bulk l)) t
  else if bool_decide (sub = str "numsub") && (2 <=? argc) then
    s_put c (r_num ch_star ((argc - 2) * 2) ++ concat (map (r_numsub t) (drop 2 argv))) t
  else if bool_decide (sub = str "numpat") && (argc =? 2) then s_put c (r_int (zlen (a_pats t))) t
  else s_put c (str "-ERR " ++ map (fun b => if (b =? 13) || (b =? 10) then 32 else b)
    (str "Unknown PUBSUB subcommand or wrong number of arguments for '" ++ c_string (nth 1 argv []) ++ [39]) ++ crlf) t.

Definition s_proc (c : nat) (cmd : command) (argv : list (list Z)) (t : astate) : astate :=
  match cmd with
  | CSubscribe => foldl (fun t channel => s_subscribe c channel t) t (drop 1 argv)
  | CUnsubscribe => if zlen argv =? 1 then s_unsubscribe_every c true t else s_unsubscribe_all c true (drop 1 argv) t
  | CPsubscribe => foldl (fun t pattern => s_psubscribe c pattern t) t (drop 1 argv)
  | CPunsubscribe => if zlen argv =? 1 then s_punsubscribe_every c true t else s_punsubscribe_all c true (drop 1 argv) t
  | CPublish => s_publishCommand c (nth 1 argv []) (nth 2 argv []) t
  | CPubsub => s_pubsubCommand c argv t
  | COther r => s_put c r t
  end.

Definition s_processCommand (c : nat) (cmd : command) (argv : list (list Z)) (t : astate) : astate :=
  if negb (bool_decide (channels c t = ∅ /\ patterns c t = [])) && negb (allowed cmd) then
    s_put c (r_error "only (P)SUBSCRIBE / (P)UNSUBSCRIBE / QUIT allowed in this context") t
  else s_proc c cmd argv t.

Definition s_channel (prefix : string) (dbid : Z) (name : list Z) : list Z := str prefix ++ print dbid ++ str "__:" ++ name.

Definition s_notify (type : Z) (event key : list Z) (dbid : Z) (t : astate) : astate :=
  if Z.land (a_notify t) type =? 0 then t else
  let t' := if Z.land (a_notify t) REDIS_NOTIFY_KEYSPACE =? 0 then t else s_publish (s_channel "__keyspace@" dbid key) event t in
  if Z.land (a_notify t) REDIS_NOTIFY_KEYEVENT =? 0 then t' else s_publish (s_channel "__keyevent@" dbid event) key t'.

Definition s_handle (r : request) (t : astate) : astate :=
  match r with
  | Request c cmd argv => s_processCommand c cmd argv t
  | Connect c => with_aclients (<[c := AClient ∅ 0 []]>) t
  | Disconnect c => AState (delete c (a_clients t)) (List.filter (fun p => negb (Nat.eqb (fst p) c)) (a_pats t)) (a_notify t)
  | Notice type event key dbid => s_notify type event key dbid t
  end.

Fixpoint s_handle_all (l : list request) (t : astate) : astate := match l with [] => t | r :: l => s_handle_all l (s_handle r t) end.

(** The requests of the clients: their numbers and lengths fit, and the matcher stays
    within the pattern and the channel wherever it is called. *)
Definition bounded (t : astate) : Prop :=
  (forall c, a_count c t < 2 ^ 61) /\ zlen (a_pats t) < 2 ^ 61 /\ Z.of_nat (size (a_clients t)) < 2 ^ 61 /\ Z.of_nat (size (s_live t)) < 2 ^ 61.

Definition argv_ok (argv : list (list Z)) : Prop := zlen argv < 2 ^ 31 /\ Forall (fun a => zlen a < 2 ^ 31) argv.

Definition request_ok (r : request) (t : astate) : Prop :=
  bounded t /\
  match r with
  | Request c cmd argv => there c t /\ argv_ok argv /\
      match cmd with
      | CPublish => length argv = 3%nat /\ match_ok (nth 1 argv []) t
      | CPubsub => (2 <= length argv)%nat /\ forall pat, argv !! 2%nat = Some pat -> forall channel, channel ∈ s_live t -> is_Some (Glob.match_sds pat channel false)
      | _ => True
      end
  | Connect c => ~ there c t
  | Disconnect c => there c t
  | Notice type event key dbid => in_s 32 dbid /\ zlen event < 2 ^ 31 /\ zlen key < 2 ^ 31 /\
      match_ok (s_channel "__keyspace@" dbid key) t /\ match_ok (s_channel "__keyevent@" dbid event) t
  end.

Fixpoint requests_ok (l : list request) (t : astate) : Prop := match l with [] => True | r :: l => request_ok r t /\ requests_ok l (s_handle r t) end.

(** *** Lemmas *)

Context (Hiterate : forall X, iterate X ≡ₚ elements X).

Lemma elem_of_iterate X ch : ch ∈ iterate X <-> ch ∈ X.
Proof. by rewrite Hiterate, elem_of_elements. Qed.

Lemma count_notice c kind what t d : a_count d (s_notice c kind what t) = a_count d t.
Proof. unfold s_notice. apply count_put. Qed.

Lemma subscribe_each_ok c l : forall s,
  there c (abs s) -> pinv s -> Forall (fun a => zlen a < 2 ^ 31) l -> a_count c (abs s) + zlen l < 2 ^ 62 ->
  psim (subscribe_each c l) (fun t => foldl (fun t channel => s_subscribe c channel t) t l) s.
Proof.
  induction l as [|ch l IH]; intros s Hc I Hl Hn; [by exists s |]. apply Forall_cons in Hl as [Hch Hl]. rewrite zlen_cons in Hn. pose proof (zlen_nonneg l).
  destruct (subscribe_ok c ch s Hc I Hch) as (s1 & E1 & Ea & I1); [lia |].
  assert (E : exists b, pubsubSubscribeChannel c ch s = Some (s1, b)). { destruct (pubsubSubscribeChannel c ch s) as [[s0 b]|]; [| done]. injection E1 as ->. eauto. }
  destruct E as [b E]. destruct (IH s1) as (s2 & E2 & Ea2 & I2); [rewrite Ea; apply there_put; by apply there_alter | done | done | |].
  { rewrite Ea. unfold s_subscribe. rewrite count_notice. pose proof (count_add c ch (abs s)). lia. }
  exists s2. cbn [subscribe_each]. rewrite E. cbn [mbind option_bind]. rewrite Ea in Ea2. done.
Qed.

Lemma count_padd c p t : a_count c (with_apats (fun l => if decide ((c, p) ∈ l) then l else l ++ [(c, p)]) t) <= a_count c t + 1.
Proof.
  unfold a_count. change (channels c (with_apats _ t)) with (channels c t). unfold with_apats. simpl. case_decide; [unfold patterns; simpl; lia |].
  change (patterns c (AState (a_clients t) (a_pats t ++ [(c, p)]) (a_notify t))) with (patterns c (AState ∅ (a_pats t ++ [(c, p)]) 0)). rewrite patterns_app. simpl. rewrite Nat.eqb_refl, zlen_app.
  change (zlen [p]) with 1. change (patterns c (AState ∅ (a_pats t) 0)) with (patterns c t). lia.
Qed.

Lemma psubscribe_each_ok c l : forall s,
  there c (abs s) -> pinv s -> Forall (fun a => zlen a < 2 ^ 31) l -> a_count c (abs s) + zlen l < 2 ^ 62 ->
  psim (psubscribe_each c l) (fun t => foldl (fun t pattern => s_psubscribe c pattern t) t l) s.
Proof.
  induction l as [|p l IH]; intros s Hc I Hl Hn; [by exists s |]. apply Forall_cons in Hl as [Hp Hl]. rewrite zlen_cons in Hn. pose proof (zlen_nonneg l).
  destruct (psubscribe_ok c p s Hc I Hp) as (s1 & E1 & Ea & I1); [lia |].
  assert (E : exists b, pubsubSubscribePattern c p s = Some (s1, b)). { destruct (pubsubSubscribePattern c p s) as [[s0 b]|]; [| done]. injection E1 as ->. eauto. }
  destruct E as [b E]. destruct (IH s1) as (s2 & E2 & Ea2 & I2); [rewrite Ea; by apply there_put | done | done | |].
  { rewrite Ea. unfold s_psubscribe. rewrite count_notice. pose proof (count_padd c p (abs s)). lia. }
  exists s2. cbn [psubscribe_each]. rewrite E. cbn [mbind option_bind]. rewrite Ea in Ea2. done.
Qed.

Lemma there_unsubscribe_all c d notify l : forall t, there c t -> there c (s_unsubscribe_all d notify l t).
Proof. induction l as [|ch l IH]; intros t H; [done |]. apply IH. by apply there_unsubscribe. Qed.

Lemma count_unsubscribe_all c notify l : forall t, a_count c (s_unsubscribe_all c notify l t) <= a_count c t.
Proof. induction l as [|ch l IH]; intros t; [done |]. etransitivity; [apply IH | apply count_unsubscribe]. Qed.

Lemma there_punsubscribe_all c d notify l : forall t, there c t -> there c (s_punsubscribe_all d notify l t).
Proof. induction l as [|ch l IH]; intros t H; [done |]. apply IH. by apply there_punsubscribe. Qed.

Lemma count_punsubscribe_all c notify l : forall t, a_count c (s_punsubscribe_all c notify l t) <= a_count c t.
Proof. induction l as [|ch l IH]; intros t; [done |]. etransitivity; [apply IH | apply count_punsubscribe]. Qed.

Lemma unsubscribe_every_ok c notify s : there c (abs s) -> pinv s -> a_count c (abs s) < 2 ^ 62 ->
  psim (pubsubUnsubscribeAllChannels iterate c notify) (s_unsubscribe_every c notify) s.
Proof.
  intros Hc I Hn. pose proof Hc as [x Hx]%there_abs. pose proof (channels_abs c x s Hx) as Ex.
  unfold pubsubUnsubscribeAllChannels, psim, s_unsubscribe_every. rewrite Hx. cbn [mbind option_bind]. rewrite Ex.
  destruct (unsubscribe_loop_ok c notify (iterate (c_channels x)) 0 s Hc I) as (s1 & n & E & Ea & I1 & _ & Hz); [| done |].
  { apply List.Forall_forall. intros ch Hch. apply list_elem_of_In, elem_of_iterate in Hch. by apply (proj1 (pi_len s I) c x). }
  rewrite E. cbn [mbind option_bind]. rewrite Z.add_0_l.
  assert (Hb : (n =? 0) = bool_decide (c_channels x = ∅)).
  { apply eq_true_iff_eq. rewrite Z.eqb_eq, bool_decide_eq_true, Hz, Ex. split.
    - intros H. apply set_eq. intros ch. split; [intros Hin; exfalso; by apply (H ch); [apply elem_of_iterate |] | set_solver].
    - intros -> ch _. set_solver. }
  rewrite Hb. destruct (notify && bool_decide (c_channels x = ∅)).
  - rewrite <- Ea. apply (psim_notice c shared_unsubscribebulk None s1); [rewrite Ea; by apply there_unsubscribe_all | done | | done].
    rewrite Ea. pose proof (count_unsubscribe_all c notify (iterate (c_channels x)) (abs s)). lia.
  - exists s1. done.
Qed.

Lemma punsubscribe_every_ok c notify s : there c (abs s) -> pinv s -> a_count c (abs s) < 2 ^ 62 ->
  psim (pubsubUnsubscribeAllPatterns c notify) (s_punsubscribe_every c notify) s.
Proof.
  intros Hc I Hn. pose proof Hc as [x Hx]%there_abs.
  unfold pubsubUnsubscribeAllPatterns, psim, s_punsubscribe_every. rewrite Hx. cbn [mbind option_bind]. rewrite (pi_patterns s I c x Hx).
  destruct (punsubscribe_loop_ok c notify (patterns c (abs s)) 0 s Hc I) as (s1 & n & E & Ea & I1 & _ & Hz); [| done |].
  { apply List.Forall_forall. intros p Hp. apply list_elem_of_In, patterns_elem in Hp. apply (proj2 (pi_len s I) (c, p) Hp). }
  rewrite E. cbn [mbind option_bind]. rewrite Z.add_0_l.
  assert (Hb : (n =? 0) = bool_decide (patterns c (abs s) = [])).
  { apply eq_true_iff_eq. rewrite Z.eqb_eq, bool_decide_eq_true, Hz. split.
    - intros H. destruct (patterns c (abs s)) as [|p l]; [done |]. exfalso. apply (H p); set_solver.
    - intros -> p Hp. by apply elem_of_nil in Hp. }
  rewrite Hb. destruct (notify && bool_decide (patterns c (abs s) = [])).
  - rewrite <- Ea. apply (psim_notice c shared_punsubscribebulk None s1); [rewrite Ea; by apply there_punsubscribe_all | done | | done].
    rewrite Ea. pose proof (count_punsubscribe_all c notify (patterns c (abs s)) (abs s)). lia.
  - exists s1. done.
Qed.

Lemma receivers_bound channel t : bounded t -> 0 <= s_receivers channel t < 2 ^ 62.
Proof.
  intros (_ & Hp & Hc & _). unfold s_receivers, s_subscribers. pose proof (List.filter_length_le (fun p : nat * list Z => matchb (snd p) channel) (a_pats t)).
  pose proof (subseteq_size (dom (filter (fun p : nat * aclient => channel ∈ a_channels (snd p)) (a_clients t))) (dom (a_clients t)) (dom_filter_subseteq _ _)) as Hs.
  rewrite (size_dom (a_clients t)) in Hs. unfold zlen in *. lia.
Qed.

Lemma there_publish c channel message t : there c t -> there c (s_publish channel message t).
Proof. unfold there, s_publish. simpl. rewrite map_lookup_imap. intros [x ->]. by eexists. Qed.

Lemma in_s_small v : 0 <= v < 2 ^ 62 -> in_s 64 v.
Proof. unfold in_s. lia. Qed.

Lemma publishCommand_ok c channel message argv0 s :
  there c (abs s) -> pinv s -> bounded (abs s) -> zlen channel < 2 ^ 31 -> zlen message < 2 ^ 31 -> match_ok channel (abs s) ->
  psim (publishCommand c [argv0; channel; message]) (s_publishCommand c channel message) s.
Proof.
  intros Hc I Hb H1 H2 Hm. destruct (publish_ok channel message s) as (s1 & E1 & Ea & I1); [done | lia | lia | done |].
  unfold publishCommand, psim, s_publishCommand. cbn [lookup list_lookup mbind option_bind]. rewrite E1. cbn [mbind option_bind]. rewrite <- Ea.
  assert (Hc1 : there c (abs s1)) by (rewrite Ea; by apply there_publish).
  destruct (psim_assign c (fun x => set_flags x (Z.lor (flags x) REDIS_FORCE_REPL)) (fun x => AClient (a_channels x) (Z.lor (a_flags x) REDIS_FORCE_REPL) (a_reply x)) s1 Hc1 I1) as (s2 & E2 & Ea2 & I2); [done |].
  rewrite E2. cbn [mbind option_bind]. rewrite <- Ea2. apply (psim_num c 58); [rewrite Ea2; by apply there_alter | done |]. by apply in_s_small, receivers_bound.
Qed.

(** *** PUBSUB *)

Lemma live_abs s : pinv s -> dom (pubsub_channels s) = s_live (abs s).
Proof.
  intros I. apply set_eq. intros ch. unfold s_live. rewrite elem_of_dom, elem_of_union_list. split.
  - intros [l Hl]. assert (exists c, c ∈ subscribers s ch) as [c Hc].
    { unfold subscribers. rewrite Hl. simpl. destruct l as [|c l]; [by destruct (pi_nonempty s I ch) | exists c; set_solver]. }
    apply (pi_channel s I) in Hc as (x & Hx & Hin). exists (c_channels x). split; [| done]. apply list_elem_of_fmap. exists (c, absc x). split; [done |].
    apply elem_of_map_to_list. simpl. by rewrite lookup_fmap, Hx.
  - intros (X & HX & Hin). apply list_elem_of_fmap in HX as ([c a] & -> & Ha). apply elem_of_map_to_list in Ha. simpl in *. rewrite lookup_fmap in Ha.
    destruct (clients s !! c) as [x|] eqn:Hx; [| done]. injection Ha as <-. assert (c ∈ subscribers s ch) as H by (apply (pi_channel s I); by exists x).
    unfold subscribers in H. destruct (pubsub_channels s !! ch); [eauto | by apply elem_of_nil in H].
Qed.

Lemma channels_loop_ok pat l : (forall p, pat = Some p -> forall ch, ch ∈ l -> is_Some (Glob.match_sds p ch false)) ->
  channels_loop l pat = Some (List.filter (fun channel => match pat with None => true | Some pat => matchb pat channel end) l).
Proof.
  induction l as [|ch l IH]; intros H; [done |]. cbn [channels_loop]. rewrite IH by (intros p Hp ch' Hin; apply (H p Hp); set_solver).
  destruct pat as [p|]; [rewrite (matchb_run p ch) by (apply (H p eq_refl); set_solver) |]; done.
Qed.

Lemma s_put_nil c t : s_put c [] t = t.
Proof.
  unfold s_put, with_aclients. destruct t as [m ps n]. simpl. f_equal. apply map_eq. intros d.
  destruct (decide (c = d)) as [<-|Hd]; [| by rewrite lookup_alter_ne by done]. rewrite lookup_alter_eq. destruct (m !! c) as [x|]; [| done].
  simpl. unfold put. rewrite app_nil_r. by destruct x.
Qed.

Lemma bulks_ok c l : forall s, there c (abs s) -> pinv s -> Forall (fun o => zlen o < 2 ^ 62) l -> psim (bulks c l) (s_put c (concat (map r_bulk l))) s.
Proof.
  induction l as [|o l IH]; intros s Hc I Hl.
  - exists s. split; [done |]. split; [| done]. symmetry. apply s_put_nil.
  - apply Forall_cons in Hl as [Ho Hl]. eapply psim_spec; [| eapply psim_then; [by apply psim_bulk |]].
    2: { intros s1 I1 E1. apply IH; [rewrite E1; by apply there_put | done | done]. }
    cbn beta. by rewrite s_put_put.
Qed.

Lemma subscribers_put c b channel t : s_subscribers channel (s_put c b t) = s_subscribers channel t.
Proof.
  unfold s_subscribers. f_equal. f_equal. apply set_eq. intros d. rewrite !elem_of_dom. unfold is_Some.
  split; intros (x & [Hx Hin]%map_lookup_filter_Some); simpl in *; destruct (decide (c = d)) as [<-|Hd].
  - rewrite lookup_alter_eq in Hx. destruct (a_clients t !! c) as [y|] eqn:Ey; [| done]. injection Hx as <-. exists y. by apply map_lookup_filter_Some.
  - rewrite lookup_alter_ne in Hx by done. exists x. by apply map_lookup_filter_Some.
  - exists (put b x). apply map_lookup_filter_Some. by rewrite lookup_alter_eq, Hx.
  - exists x. apply map_lookup_filter_Some. by rewrite lookup_alter_ne by done.
Qed.

Lemma numsub_ok c l : forall s t, abs s = t -> there c t -> pinv s -> Forall (fun o => zlen o < 2 ^ 31) l -> (forall ch, s_subscribers ch t < 2 ^ 62) ->
  psim (numsub_loop c l) (s_put c (concat (map (r_numsub t) l))) s.
Proof.
  induction l as [|o l IH]; intros s t Et Hc I Hl Hn; [subst t; by apply (bulks_ok c []) |]. apply Forall_cons in Hl as [Ho Hl].
  assert (Hv : in_s 64 (s_subscribers o t)) by (apply in_s_small; specialize (Hn o); unfold s_subscribers in *; lia).
  eapply psim_spec; [| cbn [numsub_loop]; eapply psim_then; [apply (psim_bulk c o); [by rewrite Et | done | lia] |]].
  2: { intros s1 I1 E1. assert (Hc1 : there c (abs s1)) by (rewrite E1, Et; by apply there_put).
       eapply (psim_then (fun s => addReplyBulkLongLong c (match pubsub_channels s !! o with Some l => zlen l | None => 0 end) s) (s_put c (r_bulk (print (s_subscribers o t))))).
       - assert (Es : match pubsub_channels s1 !! o with Some l => zlen l | None => 0 end = s_subscribers o t).
         { rewrite <- (subscribers_put c (r_bulk o)), <- Et, <- E1, <- subscribers_count by done. unfold subscribers. by destruct (pubsub_channels s1 !! o). }
         unfold psim, addReplyBulkLongLong. rewrite Es, ll_text_print by (done || lia). cbn [mbind option_bind]. apply psim_bulk; [done | done |]. pose proof (print_ok _ Hv) as [_ ?]. lia.
       - intros s2 I2 E2. apply (IH s2 (s_put c (r_bulk (print (s_subscribers o t))) (s_put c (r_bulk o) t))); [by rewrite E2, E1, Et | by apply there_put, there_put | done | done |].
         intros ch. by rewrite !subscribers_put. }
  cbn beta. rewrite Et, !s_put_put. f_equal. cbn [map concat].
  match goal with |- context [concat (map (r_numsub (s_put c ?b t)) l)] => assert (Em : map (r_numsub (s_put c b t)) l = map (r_numsub t) l) end.
  { apply map_ext. intros ch. unfold r_numsub. by rewrite !subscribers_put. }
  rewrite Em. unfold r_numsub at 2. by rewrite <- !(assoc_L (++)).
Qed.

Lemma strcase_lit x t : Forall (fun c => c <> 0) t -> strcaseeq (x ++ [0]) t = Some (bool_decide (map tolower (cstring x) = t)).
Proof. intros H. by apply (strcaseeq_ok t x []). Qed.

Lemma s_subscribers_bound channel t : bounded t -> s_subscribers channel t < 2 ^ 62.
Proof. intros H. pose proof (receivers_bound channel t H) as Hr. unfold s_receivers in Hr. pose proof (zlen_nonneg (List.filter (fun p => matchb (snd p) channel) (a_pats t))). lia. Qed.

Lemma pubsubCommand_ok c argv s :
  there c (abs s) -> pinv s -> bounded (abs s) -> argv_ok argv -> (2 <= length argv)%nat ->
  (forall pat, argv !! 2%nat = Some pat -> forall channel, channel ∈ s_live (abs s) -> is_Some (Glob.match_sds pat channel false)) ->
  psim (pubsubCommand iterate c argv) (s_pubsubCommand c argv) s.
Proof.
  intros Hc I Hb [Ha1 Ha2] Hl Hpat. unfold pubsubCommand, s_pubsubCommand. pose proof Hb as (_ & Hnp & _ & Hnl).
  destruct argv as [|a0 [|sub argv]]; [simpl in Hl; lia | simpl in Hl; lia |]. set (av := a0 :: sub :: argv) in *. change (nth 1 av []) with sub.
  unfold psim. change (av !! 1%nat) with (Some sub). cbn [mbind option_bind]. rewrite !strcase_lit by (vm_compute; repeat constructor; discriminate). cbn [mbind option_bind].
  destruct (bool_decide (map tolower (cstring sub) = str "channels") && _).
  { rewrite (live_abs s I), (channels_loop_ok (av !! 2%nat)) by (intros p Hp ch Hch; apply (Hpat p Hp); by apply elem_of_iterate). cbn [mbind option_bind].
    set (l := List.filter _ _). eapply (psim_spec (fun s => s ← addReplyMultiBulkLen c (zlen l) s; bulks c l s)); [| eapply psim_then; [apply psim_num; [done | done |] |]].
    - cbn beta. rewrite s_put_put. reflexivity.
    - apply in_s_zlen. unfold l. pose proof (List.filter_length_le (fun channel => match av !! 2%nat with None => true | Some pat => matchb pat channel end) (iterate (s_live (abs s)))) as Hf.
      pose proof (Permutation_length (Hiterate (s_live (abs s)))) as Hi. unfold zlen. rewrite Hi in Hf. unfold size, set_size in Hnl. simpl in Hnl. lia.
    - intros s1 I1 E1. apply bulks_ok; [rewrite E1; by apply there_put | done |]. apply List.Forall_forall. intros o Ho. apply list_elem_of_In, elem_of_bfilter in Ho as [Ho _]. apply elem_of_iterate in Ho.
      rewrite <- (live_abs s I) in Ho. apply elem_of_dom in Ho as [cl Hcl]. destruct cl as [|d cl]; [by destruct (pi_nonempty s I o) |].
      assert (Hd : d ∈ subscribers s o) by (unfold subscribers; rewrite Hcl; simpl; set_solver). apply (pi_channel s I) in Hd as (x & Hx & Hin).
      pose proof (proj1 (pi_len s I) d x o Hx Hin). lia. }
  destruct (bool_decide (map tolower (cstring sub) = str "numsub") && _).
  { eapply (psim_spec (fun s => s ← addReplyMultiBulkLen c ((zlen av - 2) * 2) s; numsub_loop c (drop 2 av) s)); [| eapply psim_then; [apply psim_num; [done | done |] |]].
    - cbn beta. rewrite s_put_put. reflexivity.
    - pose proof (zlen_nonneg argv). unfold av in *. rewrite !zlen_cons in *. unfold in_s. lia.
    - intros s1 I1 E1. eapply psim_spec; [| apply (numsub_ok c (drop 2 av) s1 (abs s1)); [done | rewrite E1; by apply there_put | done | by apply Forall_drop |]].
      + f_equal. f_equal. apply map_ext. intros ch. unfold r_numsub. by rewrite E1, subscribers_put.
      + intros ch. rewrite E1, subscribers_put. by apply s_subscribers_bound. }
  destruct (bool_decide (map tolower (cstring sub) = str "numpat") && _).
  { apply (psim_num c 58); [done | done |]. apply in_s_zlen. change (pubsub_patterns s) with (a_pats (abs s)). lia. }
  unfold addReplyErrorFormat. by apply psim_reply.
Qed.

(** *** Notices *)

Lemma event_channel_run prefix dbid name : in_s 32 dbid -> event_channel prefix dbid name = Some (s_channel prefix dbid name).
Proof. intros H. unfold event_channel. rewrite ll_text_print by (unfold in_s in *; lia). done. Qed.

Lemma s_channel_len prefix dbid name : in_s 32 dbid -> zlen name < 2 ^ 31 -> zlen (str prefix) < 2 ^ 31 -> zlen (s_channel prefix dbid name) < 2 ^ 62.
Proof.
  intros Hd Hn Hp. unfold s_channel. rewrite !zlen_app. assert (H64 : in_s 64 dbid) by (unfold in_s in *; lia). pose proof (print_ok dbid H64) as [_ Hpr].
  change (zlen (str "__:")) with 3. lia.
Qed.

Lemma notify_ok type event key dbid s :
  pinv s -> in_s 32 dbid -> zlen event < 2 ^ 31 -> zlen key < 2 ^ 31 ->
  match_ok (s_channel "__keyspace@" dbid key) (abs s) -> match_ok (s_channel "__keyevent@" dbid event) (abs s) ->
  psim (notifyKeyspaceEvent type event key dbid) (s_notify type event key dbid) s.
Proof.
  intros I Hd He Hk M1 M2. unfold psim, notifyKeyspaceEvent, s_notify. change (a_notify (abs s)) with (notify_keyspace_events s).
  destruct (Z.land (notify_keyspace_events s) type =? 0); [by exists s |].
  assert (H : exists s1, (if negb (Z.land (notify_keyspace_events s) REDIS_NOTIFY_KEYSPACE =? 0) then
      chan ← event_channel "__keyspace@" dbid key; '(s, _) ← pubsubPublishMessage chan event s; Some s else Some s) = Some s1 /\
    abs s1 = (if Z.land (notify_keyspace_events s) REDIS_NOTIFY_KEYSPACE =? 0 then abs s else s_publish (s_channel "__keyspace@" dbid key) event (abs s)) /\ pinv s1).
  { destruct (Z.land (notify_keyspace_events s) REDIS_NOTIFY_KEYSPACE =? 0); cbn [negb]; [by exists s |]. rewrite event_channel_run by done. cbn [mbind option_bind].
    destruct (publish_ok (s_channel "__keyspace@" dbid key) event s I) as (s1 & E1 & H); [by apply s_channel_len | lia | done |]. exists s1. rewrite E1. done. }
  destruct H as (s1 & -> & Ea & I1). cbn [mbind option_bind]. rewrite <- Ea.
  assert (En : notify_keyspace_events s1 = notify_keyspace_events s).
  { change (a_notify (abs s1) = a_notify (abs s)). rewrite Ea. by destruct (Z.land (notify_keyspace_events s) REDIS_NOTIFY_KEYSPACE =? 0). }
  assert (Ep : a_pats (abs s1) = a_pats (abs s)) by (rewrite Ea; by destruct (Z.land (notify_keyspace_events s) REDIS_NOTIFY_KEYSPACE =? 0)).
  rewrite En. destruct (Z.land (notify_keyspace_events s) REDIS_NOTIFY_KEYEVENT =? 0); cbn [negb]; [by exists s1 |]. rewrite event_channel_run by done. cbn [mbind option_bind].
  destruct (publish_ok (s_channel "__keyevent@" dbid event) key s1 I1) as (s2 & E2 & H); [by apply s_channel_len | lia | unfold match_ok; by rewrite Ep |].
  exists s2. rewrite E2. done.
Qed.

(** *** The end of a client *)

Lemma unsubscribe_all_delete c l : forall t, delete c (a_clients (s_unsubscribe_all c false l t)) = delete c (a_clients t) /\
  a_pats (s_unsubscribe_all c false l t) = a_pats t /\ a_notify (s_unsubscribe_all c false l t) = a_notify t.
Proof.
  induction l as [|ch l IH]; intros t; [done |]. destruct (IH (s_unsubscribe c false ch t)) as (E1 & E2 & E3). unfold s_unsubscribe_all in *. cbn [foldl]. rewrite E1, E2, E3.
  split; [| done]. unfold s_unsubscribe. simpl. apply map_eq. intros d. destruct (decide (c = d)) as [<-|Hd]; [by rewrite !lookup_delete_eq |]. by rewrite !lookup_delete_ne, lookup_alter_ne by done.
Qed.

Lemma channels_unsubscribe_all c notify l : forall t, channels c (s_unsubscribe_all c notify l t) = channels c t ∖ list_to_set l.
Proof.
  induction l as [|ch l IH]; intros t; unfold s_unsubscribe_all in *; cbn [foldl list_to_set]; [set_solver |]. rewrite IH, channels_unsubscribe. set_solver.
Qed.

Lemma punsubscribe_all_run c l : forall t, s_punsubscribe_all c false l t =
  with_apats (List.filter (fun p => negb (Nat.eqb (fst p) c && bool_decide (snd p ∈ l)))) t.
Proof.
  induction l as [|q l IH]; intros t.
  - change (s_punsubscribe_all c false [] t) with t. symmetry. apply apats_id. clear. induction (a_pats t) as [|p ps IHp]; [done |].
    cbn [List.filter]. rewrite (bool_decide_eq_false_2 (snd p ∈ [])) by apply not_elem_of_nil. rewrite andb_false_r. cbn [negb]. by rewrite IHp.
  - unfold s_punsubscribe_all in *. cbn [foldl]. rewrite IH. unfold s_punsubscribe, with_apats. simpl. f_equal. induction (a_pats t) as [|[d p] ps IHp]; [done |]. simpl.
    destruct (Nat.eqb_spec d c) as [->|Hd]; simpl.
    + destruct (decide (p = q)) as [->|Hp].
      * rewrite (bool_decide_eq_true_2 ((c, q) = (c, q))) by done. rewrite (bool_decide_eq_true_2 (q ∈ q :: l)) by set_solver. exact IHp.
      * rewrite (bool_decide_eq_false_2 ((c, p) = (c, q))) by congruence. simpl. rewrite Nat.eqb_refl. simpl.
        rewrite (bool_decide_ext (p ∈ q :: l) (p ∈ l)) by (rewrite elem_of_cons; tauto). by rewrite IHp.
    + rewrite (bool_decide_eq_false_2 ((d, p) = (c, q))) by congruence. simpl. rewrite (proj2 (Nat.eqb_neq d c)) by done. simpl. by rewrite IHp.
Qed.

Lemma patterns_all c l : List.filter (fun p => negb (Nat.eqb (fst p) c && bool_decide (snd p ∈ patterns c (AState ∅ l 0)))) l = List.filter (fun p : nat * list Z => negb (Nat.eqb (fst p) c)) l.
Proof.
  apply filter_ext_in. intros [d p] Hp. simpl. destruct (Nat.eqb_spec d c) as [->|]; [| done]. rewrite bool_decide_eq_true_2; [done |]. apply patterns_elem. simpl. by apply list_elem_of_In.
Qed.

(** A client with no subscriptions may go. *)
Lemma pinv_delete c s : pinv s -> channels c (abs s) = ∅ -> patterns c (abs s) = [] -> pinv (with_clients s (delete c (clients s))).
Proof.
  intros I Hch Hp. pose proof I as [H1 H2 H3 H4 H5 H6 [H7 H8]].
  assert (Hd : forall d x, delete c (clients s) !! d = Some x -> d <> c /\ clients s !! d = Some x) by (intros d x [Hne Hx]%lookup_delete_Some; split; [congruence | done]).
  split; try done.
  - intros ch d. change (subscribers (with_clients s (delete c (clients s))) ch) with (subscribers s ch). rewrite H1. split.
    + intros (x & Hx & Hin). exists x. split; [| done]. simpl. rewrite lookup_delete_ne; [done |]. intros E. subst d. rewrite (channels_abs c x s Hx) in Hch. set_solver.
    + intros (x & Hx & Hin). apply Hd in Hx as [_ Hx]. by exists x.
  - intros d x Hx. apply Hd in Hx as [_ Hx]. by apply H4.
  - intros p Hin. simpl. destruct (decide (fst p = c)) as [E|E]; [| by rewrite lookup_delete_ne by done; apply H5].
    assert (snd p ∈ patterns c (abs s)) as H by (apply patterns_elem; simpl; rewrite <- E; by destruct p). rewrite Hp in H. by apply elem_of_nil in H.
  - split; [| done]. intros d x ch Hx. apply Hd in Hx as [_ Hx]. by apply (H7 d x).
Qed.

Lemma patterns_none c m l n : patterns c (AState m (List.filter (fun p => negb (Nat.eqb (fst p) c)) l) n) = [].
Proof. unfold patterns. simpl. induction l as [|p l IH]; [done |]. simpl. destruct (Nat.eqb (fst p) c) eqn:E; simpl; [exact IH |]. by rewrite E. Qed.

Lemma freeClient_ok c s : there c (abs s) -> pinv s -> a_count c (abs s) < 2 ^ 62 ->
  psim (freeClient iterate c) (s_handle (Disconnect c)) s.
Proof.
  intros Hc I Hn. destruct (unsubscribe_every_ok c false s Hc I Hn) as (s1 & E1 & Ea1 & I1). unfold s_unsubscribe_every in Ea1. cbn [andb] in Ea1.
  set (l := iterate (channels c (abs s))) in *. assert (Hc1 : there c (abs s1)) by (rewrite Ea1; by apply there_unsubscribe_all).
  destruct (punsubscribe_every_ok c false s1 Hc1 I1) as (s2 & E2 & Ea2 & I2).
  { rewrite Ea1. pose proof (count_unsubscribe_all c false l (abs s)). lia. }
  unfold s_punsubscribe_every in Ea2. cbn [andb] in Ea2. rewrite punsubscribe_all_run in Ea2.
  destruct (unsubscribe_all_delete c l (abs s)) as (D1 & D2 & D3). rewrite <- Ea1 in D1, D2, D3.
  assert (Ef : List.filter (fun p => negb (Nat.eqb (fst p) c && bool_decide (snd p ∈ patterns c (abs s1)))) (a_pats (abs s1)) = List.filter (fun p => negb (Nat.eqb (fst p) c)) (a_pats (abs s))).
  { rewrite D2. unfold patterns. rewrite D2. apply patterns_all. }
  unfold with_apats in Ea2. rewrite Ef in Ea2.
  unfold psim, freeClient. rewrite E1. cbn [mbind option_bind]. rewrite E2. cbn [mbind option_bind]. eexists. split; [reflexivity |]. split.
  - transitivity (AState (delete c (a_clients (abs s2))) (a_pats (abs s2)) (a_notify (abs s2))); [unfold abs; simpl; by rewrite fmap_delete |].
    rewrite Ea2. cbn [a_clients a_pats a_notify s_handle]. by rewrite D1, D3.
  - apply pinv_delete; [done | |].
    + rewrite Ea2. unfold channels. simpl a_clients. change (channels c (abs s1) = ∅). rewrite Ea1, channels_unsubscribe_all. unfold l. apply set_eq. intros ch.
      rewrite elem_of_difference, elem_of_list_to_set, elem_of_iterate. set_solver.
    + rewrite Ea2. apply patterns_none.
Qed.

(** *** Requests *)

Lemma proc_ok c cmd argv s : pinv s -> request_ok (Request c cmd argv) (abs s) -> psim (proc iterate c cmd argv) (s_proc c cmd argv) s.
Proof.
  intros I (Hb & Hc & [Ha1 Ha2] & Hcmd). pose proof (proj1 Hb c) as Hn. pose proof (zlen_nonneg argv).
  assert (Hd : Forall (fun a => zlen a < 2 ^ 31) (drop 1 argv)) by (by apply Forall_drop).
  assert (Hz : zlen (drop 1 argv) <= zlen argv) by (unfold zlen; rewrite length_drop; lia).
  destruct cmd; unfold psim; cbn [proc s_proc].
  - unfold subscribeCommand. apply subscribe_each_ok; [done | done | done | lia].
  - unfold unsubscribeCommand. destruct (zlen argv =? 1); [apply unsubscribe_every_ok; [done | done | lia] |].
    destruct (unsubscribe_loop_ok c true (drop 1 argv) 0 s Hc I Hd) as (s' & n & E & Ea & I' & _); [lia |]. exists s'. rewrite E. done.
  - unfold psubscribeCommand. apply psubscribe_each_ok; [done | done | done | lia].
  - unfold punsubscribeCommand. destruct (zlen argv =? 1); [apply punsubscribe_every_ok; [done | done | lia] |].
    destruct (punsubscribe_loop_ok c true (drop 1 argv) 0 s Hc I Hd) as (s' & n & E & Ea & I' & _); [lia |]. exists s'. rewrite E. done.
  - destruct Hcmd as [Hl Hm]. destruct argv as [|a0 [|ch [|msg [|]]]]; try done. repeat (apply Forall_cons in Ha2 as [? Ha2]). by apply publishCommand_ok.
  - destruct Hcmd as [Hl Hm]. by apply pubsubCommand_ok.
  - by apply psim_reply.
Qed.

Lemma processCommand_ok c cmd argv s : pinv s -> request_ok (Request c cmd argv) (abs s) ->
  psim (processCommand iterate c cmd argv) (s_processCommand c cmd argv) s.
Proof.
  intros I Hr. pose proof Hr as (_ & Hc & _). pose proof Hc as [x Hx]%there_abs. unfold psim, processCommand, s_processCommand. rewrite Hx. cbn [mbind option_bind].
  rewrite (channels_abs c x s Hx), (pi_patterns s I c x Hx).
  assert (E : negb (bool_decide (c_channels x = ∅)) || (0 <? zlen (patterns c (abs s))) = negb (bool_decide (c_channels x = ∅ /\ patterns c (abs s) = []))).
  { rewrite bool_decide_and, negb_andb. f_equal. destruct (patterns c (abs s)) as [|p l]; [done |]. rewrite zlen_cons. pose proof (zlen_nonneg l). rewrite (proj2 (Z.ltb_lt _ _)) by lia. done. }
  rewrite E. destruct (_ && _); [by apply psim_reply | by apply proc_ok].
Qed.

Lemma createClient_ok c s : pinv s -> ~ there c (abs s) -> psim (createClient c) (s_handle (Connect c)) s.
Proof.
  intros I Hc. rewrite there_abs in Hc. unfold psim, createClient. destruct (clients s !! c) as [x|] eqn:Hx; [by destruct Hc |]. eexists. split; [reflexivity |].
  split; [apply absc_insert |]. pose proof I as [H1 H2 H3 H4 H5 H6 [H7 H8]].
  assert (Hb : forall d y, clients s !! d = Some y -> <[c := Client ∅ [] 0 []]> (clients s) !! d = Some y) by (intros d y Hy; rewrite lookup_insert_ne; [done | congruence]).
  assert (Hp : patterns c (abs s) = []).
  { destruct (patterns c (abs s)) as [|p l] eqn:E; [done |]. assert (p ∈ patterns c (abs s)) as Hin by (rewrite E; set_solver). apply patterns_elem in Hin. destruct (H5 _ Hin) as [y Hy]. simpl in Hy. congruence. }
  split; try done.
  - intros ch d. change (subscribers (with_clients s (<[c := Client ∅ [] 0 []]> (clients s))) ch) with (subscribers s ch). rewrite H1. simpl. split.
    + intros (y & Hy & Hin). exists y. split; [by apply Hb | done].
    + intros (y & [[<- <-]|[Hne Hy]]%lookup_insert_Some & Hin); [simpl in Hin; set_solver |]. by exists y.
  - intros d y. simpl. intros [[<- <-]|[Hne Hy]]%lookup_insert_Some; [by rewrite <- Hp | by apply H4].
  - intros p Hin. destruct (H5 p Hin) as [y Hy]. exists y. by apply Hb.
  - split; [| done]. intros d y ch. simpl. intros [[<- <-]|[Hne Hy]]%lookup_insert_Some; [simpl; set_solver | by apply (H7 d y)].
Qed.

Lemma phandle_ok r s : pinv s -> request_ok r (abs s) -> psim (handle iterate r) (s_handle r) s.
Proof.
  intros I Hr. destruct r as [c cmd argv|c|c|type event key dbid].
  - by apply processCommand_ok.
  - destruct Hr as [_ Hr]. by apply createClient_ok.
  - destruct Hr as [Hb Hr]. apply freeClient_ok; [done | done |]. pose proof (proj1 Hb c). lia.
  - destruct Hr as (_ & ? & ? & ? & ? & ?). by apply notify_ok.
Qed.

Lemma phandle_all_ok l : forall s, pinv s -> requests_ok l (abs s) -> psim (handle_all iterate l) (s_handle_all l) s.
Proof.
  induction l as [|r l IH]; intros s I Hl; [by exists s |]. destruct Hl as [Hr Hl]. destruct (phandle_ok r s I Hr) as (s1 & E1 & Ea1 & I1).
  rewrite <- Ea1 in Hl. destruct (IH s1 I1 Hl) as (s2 & E2 & Ea2 & I2). exists s2. unfold psim. cbn [handle_all s_handle_all]. rewrite E1. cbn [mbind option_bind]. rewrite <- Ea1. done.
Qed.

Lemma pinv_start notify : pinv (start_server notify).
Proof.
  split; try done.
  - intros ch c. unfold subscribers. simpl. rewrite lookup_empty. simpl. split; [by intros H%elem_of_nil | intros (x & Hx & _); by rewrite lookup_empty in Hx].
  - intros ch. unfold subscribers. simpl. rewrite lookup_empty. constructor.
  - intros p Hp. by apply elem_of_nil in Hp.
  - constructor.
  - split; [done |]. intros p Hp. by apply elem_of_nil in Hp.
Qed.

End Commands.

Section Delivery.

Lemma requests_ok_app iterate l1 l2 : forall t, requests_ok iterate (l1 ++ l2) t <-> requests_ok iterate l1 t /\ requests_ok iterate l2 (s_handle_all iterate l1 t).
Proof. induction l1 as [|r l1 IH]; intros t; simpl; [tauto |]. rewrite IH. tauto. Qed.

(** The matcher of the code and the language of the pattern. *)
Lemma matchb_language p channel ts : channel <> [] -> GlobSpec.tokens (length p) p = Some ts -> matchb p channel = true <-> GlobSpec.gmatch false ts channel.
Proof.
  intros Hne Ht. destruct (GlobFacts.stringmatchlen_correct false (p ++ [0]) (channel ++ [0]) (Glob.match_fuel p channel) p ts channel 0 0 (length p)) as (b & E & Hb); auto using GlobFacts.at_start.
  { unfold Glob.match_fuel. lia. }
  unfold matchb, Glob.match_sds. by rewrite E.
Qed.

Lemma subscribers_abs channel s : s_subscribers channel (abs s) = Z.of_nat (size (dom (filter (fun p => channel ∈ c_channels (snd p)) (clients s)))).
Proof.
  unfold s_subscribers. f_equal. f_equal. apply set_eq. intros d. rewrite !elem_of_dom. unfold is_Some. simpl. split.
  - intros (a & [Ha Hin]%map_lookup_filter_Some). rewrite lookup_fmap in Ha. destruct (clients s !! d) as [x|] eqn:Hx; [| done]. injection Ha as <-.
    exists x. by apply map_lookup_filter_Some.
  - intros (x & [Hx Hin]%map_lookup_filter_Some). exists (absc x). apply map_lookup_filter_Some. by rewrite lookup_fmap, Hx.
Qed.

(** What PUBLISH does to one client. *)
Lemma publish_client c channel message d y s s' :
  pinv s -> pinv s' -> clients s !! d = Some y -> abs s' = s_publishCommand c channel message (abs s) ->
  exists y', clients s' !! d = Some y' /\ c_channels y' = c_channels y /\ c_patterns y' = c_patterns y /\
    reply y' = reply y ++ (if decide (channel ∈ c_channels y) then message_text channel message else []) ++
      concat (map (fun p => pmessage_text p channel message) (List.filter (fun p => matchb p channel) (c_patterns y))) ++
      (if decide (d = c) then r_int (s_receivers channel (abs s)) else []).
Proof.
  intros I I' Hy E. assert (Ey : delivery channel message (abs s) d = (if decide (channel ∈ c_channels y) then message_text channel message else []) ++
      concat (map (fun p => pmessage_text p channel message) (List.filter (fun p => matchb p channel) (c_patterns y)))).
  { unfold delivery. by rewrite (channels_abs d y s Hy), <- (pi_patterns s I d y Hy). }
  assert (Ea : a_clients (s_publish channel message (abs s)) !! d = Some (put (delivery channel message (abs s) d) (absc y))).
  { unfold s_publish. simpl. rewrite map_lookup_imap, lookup_fmap, Hy. done. }
  assert (Ep : forall y', clients s' !! d = Some y' -> c_patterns y' = c_patterns y).
  { intros y' Hy'. rewrite (pi_patterns s' I' d y' Hy'), (pi_patterns s I d y Hy). unfold patterns. by rewrite E. }
  assert (El : absc <$> (clients s' !! d) = a_clients (s_publishCommand c channel message (abs s)) !! d) by (rewrite <- E; simpl; by rewrite lookup_fmap).
  unfold s_publishCommand, s_put, with_aclients in El. cbn [a_clients] in El.
  destruct (decide (d = c)) as [->|Hd].
  - rewrite lookup_alter_eq, lookup_alter_eq, Ea in El.
    destruct (clients s' !! c) as [y'|]; [| done]. injection El as H1 H2 H3. exists y'. split; [done |]. split; [done |]. split; [by apply Ep |].
    rewrite H3, Ey. by rewrite <- !(assoc_L (++)).
  - rewrite lookup_alter_ne, lookup_alter_ne in El by done. rewrite Ea in El.
    destruct (clients s' !! d) as [y'|]; [| done]. injection El as H1 H2 H3. exists y'. split; [done |]. split; [done |]. split; [by apply Ep |].
    by rewrite H3, Ey, app_nil_r.
Qed.

End Delivery.
