(* ===== verification/PubsubThms.v ===== *)
(** * pubsub.c: theorems *)

From Stdlib Require Import Ascii String.
From S2P Require Import Prelude Util Sds Server ServerFacts ObjFacts Pubsub PubsubFacts PubsubCmds.

(** C10. Publish and subscribe implement their specification: from an empty server, requests
    of clients, their connections and ends, and notices of keys never fail an assertion or
    follow a bad pointer; the channels, flags and output of every client and the list of
    patterns are those of the specification, in which a client has a set of channels and
    publishing adds to every output at once; and the table of channels and the patterns of
    the clients agree with them, so that no client is left in a table when it ends. *)
Theorem pubsub_refines iterate notify l :
  (forall X, iterate X ≡ₚ elements X) -> requests_ok iterate l (abs (start_server notify)) ->
  exists s, handle_all iterate l (start_server notify) = Some s /\
    abs s = s_handle_all iterate l (AState ∅ [] notify) /\ pinv s.
Proof. intros Hi Hl. exact (phandle_all_ok iterate Hi l (start_server notify) (pinv_start notify) Hl). Qed.

(** C11. PUBLISH delivers exactly: after any requests, a message on a channel that is not
    empty is added once to the output of every client that has the channel, and once for
    each of its patterns whose language contains the channel, in the order of subscription,
    and nothing is sent to others; the client that publishes gets the number of all these
    deliveries. *)
Theorem publish_exact iterate notify l s c name channel message x :
  (forall X, iterate X ≡ₚ elements X) -> requests_ok iterate (l ++ [Request c CPublish [name; channel; message]]) (abs (start_server notify)) ->
  handle_all iterate l (start_server notify) = Some s -> clients s !! c = Some x -> c_channels x = ∅ -> c_patterns x = [] -> channel <> [] ->
  (forall p, p ∈ pubsub_patterns s -> is_Some (GlobSpec.tokens (length (snd p)) (snd p))) ->
  exists s' (sel : list Z -> bool), handle iterate (Request c CPublish [name; channel; message]) s = Some s' /\
    (forall d p ts, (d, p) ∈ pubsub_patterns s -> GlobSpec.tokens (length p) p = Some ts -> sel p = true <-> GlobSpec.gmatch false ts channel) /\
    forall d y, clients s !! d = Some y -> exists y', clients s' !! d = Some y' /\ c_channels y' = c_channels y /\ c_patterns y' = c_patterns y /\
      reply y' = reply y ++ (if decide (channel ∈ c_channels y) then message_text channel message else []) ++
        concat (map (fun p => pmessage_text p channel message) (List.filter sel (c_patterns y))) ++
        (if decide (d = c) then r_int (Z.of_nat (size (dom (filter (fun p => channel ∈ c_channels (snd p)) (clients s)))) + zlen (List.filter (fun p => sel (snd p)) (pubsub_patterns s))) else []).
Proof.
  intros Hi Hl E Hx Hcx Hpx Hne Htok. apply requests_ok_app in Hl as [Hl [Hr _]].
  destruct (phandle_all_ok iterate Hi l _ (pinv_start notify) Hl) as (s0 & E0 & Ea & I). rewrite E in E0. injection E0 as <-. rewrite <- Ea in Hr.
  destruct (phandle_ok iterate Hi _ s I Hr) as (s' & E' & Ea' & I').
  exists s', (fun p => matchb p channel). split; [exact E' |]. split.
  - intros d p ts _ Ht. by apply matchb_language.
  - intros d y Hy. assert (Hs : abs s' = s_publishCommand c channel message (abs s)).
    { rewrite Ea'. cbn [s_handle]. unfold s_processCommand. rewrite (channels_abs c x s Hx), <- (pi_patterns s I c x Hx), Hcx, Hpx. rewrite bool_decide_eq_true_2 by done. done. }
    destruct (publish_client c channel message d y s s' I I' Hy Hs) as (y' & H1 & H2 & H3 & H4). exists y'. split; [done |]. split; [done |]. split; [done |].
    rewrite H4. unfold s_receivers. by rewrite subscribers_abs.
Qed.

(** ** Examples *)

(** A boolean test of [requests_ok]. *)
Definition pub_lenb (l : list (list Z)) : bool := (zlen l <? 2 ^ 31) && forallb (fun a => zlen a <? 2 ^ 31) l.
Definition pub_matchb (channel : list Z) (t : astate) : bool := forallb (fun p => bool_decide (is_Some (Glob.match_sds (snd p) channel false))) (a_pats t).
Definition pub_boundb (t : astate) : bool :=
  forallb (fun p => Z.of_nat (size (a_channels (snd p))) <? 2 ^ 60) (map_to_list (a_clients t)) && (zlen (a_pats t) <? 2 ^ 60) &&
  (Z.of_nat (size (a_clients t)) <? 2 ^ 61) && (Z.of_nat (size (s_live t)) <? 2 ^ 61).
Definition pub_thereb (c : nat) (t : astate) : bool := bool_decide (is_Some (a_clients t !! c)).

Definition pub_requestb (r : request) (t : astate) : bool :=
  pub_boundb t &&
  match r with
  | Request c cmd argv => pub_thereb c t && pub_lenb argv &&
      match cmd with
      | CPublish => Nat.eqb (length argv) 3 && pub_matchb (nth 1 argv []) t
      | CPubsub => Nat.leb 2 (length argv) && match argv !! 2%nat with
          | Some pat => forallb (fun ch => bool_decide (is_Some (Glob.match_sds pat ch false))) (elements (s_live t)) | None => true end
      | _ => true
      end
  | Connect c => negb (pub_thereb c t)
  | Disconnect c => pub_thereb c t
  | Notice type event key dbid => (- 2 ^ 31 <=? dbid) && (dbid <? 2 ^ 31) && (zlen event <? 2 ^ 31) && (zlen key <? 2 ^ 31) &&
      pub_matchb (s_channel "__keyspace@" dbid key) t && pub_matchb (s_channel "__keyevent@" dbid event) t
  end.

Fixpoint pub_okb (l : list request) (t : astate) : bool :=
  match l with [] => true | r :: l => pub_requestb r t && pub_okb l (s_handle elements r t) end.

Lemma pub_boundb_ok t : pub_boundb t = true -> bounded t.
Proof.
  unfold pub_boundb, bounded. rewrite !andb_true_iff, !Z.ltb_lt, forallb_forall. intros [[[H1 H2] H3] H4].
  split; [| split; [lia | split; done]]. intros c. unfold a_count.
  assert (Hs : Z.of_nat (size (channels c t)) < 2 ^ 60).
  { unfold channels. destruct (a_clients t !! c) as [x|] eqn:E; [| done]. specialize (H1 (c, x)). rewrite Z.ltb_lt in H1. apply H1. by apply list_elem_of_In, elem_of_map_to_list. }
  assert (Hp : zlen (patterns c t) <= zlen (a_pats t)); [| lia]. unfold patterns, zlen. rewrite length_map.
  pose proof (List.filter_length_le (fun p : nat * list Z => Nat.eqb (fst p) c) (a_pats t)). lia.
Qed.

Lemma pub_matchb_ok channel t : pub_matchb channel t = true -> match_ok channel t.
Proof. unfold pub_matchb, match_ok. rewrite forallb_forall, List.Forall_forall. intros H p Hp. specialize (H p Hp). by apply bool_decide_eq_true in H. Qed.

Lemma pub_requestb_ok r t : pub_requestb r t = true -> request_ok r t.
Proof.
  unfold pub_requestb, request_ok. rewrite andb_true_iff. intros [Hb Hr]. split; [by apply pub_boundb_ok |]. destruct r as [c cmd argv|c|c|type event key dbid].
  - rewrite !andb_true_iff in Hr. destruct Hr as [[H1%bool_decide_eq_true H2] Hc]. split; [done |]. unfold pub_lenb in H2. rewrite andb_true_iff, Z.ltb_lt, forallb_forall in H2. destruct H2 as [H2 H3].
    split; [split; [done |]; apply List.Forall_forall; intros a Ha; by apply Z.ltb_lt, H3 |]. destruct cmd; try done; apply andb_true_iff in Hc as [Hl Hm].
    + split; [by apply Nat.eqb_eq | by apply pub_matchb_ok].
    + split; [by apply Nat.leb_le |]. intros pat Hpat ch Hch. rewrite Hpat, forallb_forall in Hm. apply (bool_decide_eq_true_1 _ (Hm ch (proj1 (list_elem_of_In _ _) (proj2 (elem_of_elements _ _) Hch)))).
  - unfold pub_thereb in Hr. by apply negb_true_iff, bool_decide_eq_false in Hr.
  - by apply bool_decide_eq_true in Hr.
  - rewrite !andb_true_iff, Z.leb_le, !Z.ltb_lt in Hr. destruct Hr as [[[[[H1 H2] H3] H4] H5] H6]. split; [unfold in_s; lia |]. do 2 (split; [done |]). split; by apply pub_matchb_ok.
Qed.

Lemma pub_okb_ok l : forall t, pub_okb l t = true -> requests_ok elements l t.
Proof.
  induction l as [|r l IH]; intros t; [done |]. cbn [pub_okb requests_ok]. rewrite andb_true_iff. intros [H1 H2]. split; [by apply pub_requestb_ok | by apply IH].
Qed.

(** Four clients: channels, patterns, notices of keys, a client that ends. *)
Definition pub_demo : list request :=
  [Connect 1; Connect 2; Connect 3; Connect 4;
   Request 1 CSubscribe [str "subscribe"; str "news"; str "chat"; str "news"];
   Request 2 CPsubscribe [str "psubscribe"; str "n*"; str "__key*:del"];
   Request 3 CSubscribe [str "subscribe"; str "news"]; Request 3 CPsubscribe [str "psubscribe"; str "?ews"];
   Request 4 CPublish [str "publish"; str "news"; str "hello"]; Notice 4 (str "del") (str "k") 0;
   Request 4 CPubsub [str "pubsub"; str "NumSub"; str "news"; str "none"]; Request 4 CPubsub [str "pubsub"; str "channels"; str "c*"];
   Request 1 CUnsubscribe [str "unsubscribe"]; Request 1 CUnsubscribe [str "unsubscribe"]; Request 3 (COther []) [str "get"; str "k"];
   Disconnect 3].

Definition pub_message : request := Request 4 CPublish [str "publish"; str "news"; str "bye"].

Lemma pub_demo_ok : requests_ok elements (pub_demo ++ [pub_message]) (abs (start_server 7)).
Proof. apply pub_okb_ok. vm_compute. reflexivity. Qed.

Definition pub_end : pserver := default (start_server 0) (handle_all elements pub_demo (start_server 7)).

Example pub_demo_tables : (map_to_list (pubsub_channels pub_end), pubsub_patterns pub_end, map (fun p => (fst p, zlen (reply (snd p)))) (map_to_list (clients pub_end))) =
  ([], [(2%nat, str "n*"); (2%nat, str "__key*:del")], [(4%nat, 56); (2%nat, 189); (1%nat, 240)]).
Proof. vm_compute. reflexivity. Qed.

Lemma pubsub_refines_witness :
  requests_ok elements (pub_demo ++ [pub_message]) (abs (start_server 7)) /\
  exists s, handle_all elements (pub_demo ++ [pub_message]) (start_server 7) = Some s /\
    abs s = s_handle_all elements (pub_demo ++ [pub_message]) (AState ∅ [] 7) /\ pinv s.
Proof.
  split; [exact pub_demo_ok |]. exact (pubsub_refines elements 7 (pub_demo ++ [pub_message]) (fun X => reflexivity (elements X)) pub_demo_ok).
Defined.

Lemma publish_exact_witness :
  exists s' (sel : list Z -> bool), handle elements pub_message pub_end = Some s' /\
    (forall d p ts, (d, p) ∈ pubsub_patterns pub_end -> GlobSpec.tokens (length p) p = Some ts -> sel p = true <-> GlobSpec.gmatch false ts (str "news")) /\
    forall d y, clients pub_end !! d = Some y -> exists y', clients s' !! d = Some y' /\ c_channels y' = c_channels y /\ c_patterns y' = c_patterns y /\
      reply y' = reply y ++ (if decide (str "news" ∈ c_channels y) then message_text (str "news") (str "bye") else []) ++
        concat (map (fun p => pmessage_text p (str "news") (str "bye")) (List.filter sel (c_patterns y))) ++
        (if decide (d = 4%nat) then r_int (Z.of_nat (size (dom (filter (fun p => str "news" ∈ c_channels (snd p)) (clients pub_end)))) + zlen (List.filter (fun p => sel (snd p)) (pubsub_patterns pub_end))) else []).
Proof.
  assert (E : handle_all elements pub_demo (start_server 7) = Some pub_end) by (vm_compute; reflexivity).
  destruct (clients pub_end !! 4%nat) as [x|] eqn:Hx; [| vm_compute in Hx; discriminate].
  assert (Ex : (bool_decide (c_channels x = ∅), c_patterns x) = (true, [])).
  { replace x with (default (Client ∅ [[]] 0 []) (clients pub_end !! 4%nat)) by (by rewrite Hx). vm_compute. reflexivity. }
  injection Ex as Ec Ep. apply bool_decide_eq_true in Ec.
  assert (Ht : forallb (fun p => bool_decide (is_Some (GlobSpec.tokens (length (snd p)) (snd p)))) (pubsub_patterns pub_end) = true) by (vm_compute; reflexivity).
  refine (publish_exact elements 7 pub_demo pub_end 4 (str "publish") (str "news") (str "bye") x (fun X => reflexivity (elements X)) pub_demo_ok E Hx Ec Ep _ _); [discriminate |].
  intros p Hp. apply (bool_decide_eq_true_1 _ (proj1 (forallb_forall _ _) Ht p (proj1 (list_elem_of_In _ _) Hp))).
Defined.

(** A pattern that ends in a backslash in an unclosed class makes PUBLISH read past it, and so
    does an empty channel with a pattern that its terminator matches. *)
Theorem publish_overreads :
  handle_all elements [Connect 1; Connect 2; Request 1 CPsubscribe [str "psubscribe"; [91; 92]]; Request 2 CPublish [str "publish"; str "x"; str "m"]] (start_server 0) = None /\
  handle_all elements [Connect 1; Connect 2; Request 1 CPsubscribe [str "psubscribe"; str "[^a]b"]; Request 2 CPublish [str "publish"; []; str "m"]] (start_server 0) = None.
Proof. vm_compute. split; reflexivity. Qed.
